(* ===== verification/_CoqProject ===== *)
-Q . S2P
Prelude.v
EvFlags.v
EvbufferApi.v
AnalyseReq.v
Frames.v
Account.v
WorkThread.v
WorkInv.v
WorkStep.v
WorkProps.v
Log.v
WorkStart.v
Server.v
BufChain.v
BufOps.v
BufRefine.v
BufExpand.v
BufIo.v
BufProps.v
BufSearch.v
BufLines.v
BufNotify.v
Chars.v
Tagging.v
TagFormat.v
TagProps.v
BufevData.v
Bufev.v
BufevInv.v
BufevProps.v
PrintApi.v
Uri.v
UriProps.v
UriGrammar.v
HttpText.v
HttpProps.v
LineApi.v
HttpVhost.v
HttpMsg.v
HttpRead.v
HttpParse.v
HttpTrip.v
HttpBody.v
HttpSend.v
HttpChunks.v
HttpMsgProps.v
HttpSafe.v
RateLimit.v
RateInv.v
RateRun.v
RateConf.v
RateProps.v
Signals.v
SignalProps.v
EvHeap.v
EvHeapInv.v
EvMap.v
EvMapInv.v
Epoll.v
EpollInv.v
ChangeList.v
ChangeProps.v
EvBase.v
EvLoop.v
EvInv.v
EvDel.v
EvAdd.v
EvTimeouts.v
EvRun.v
EvProps.v
RateWitnesses.v
EvWitnesses.v
SignalWitnesses.v
ChangeWitnesses.v
BufWitnesses.v
TagWitnesses.v
HttpWitnesses.v
HttpMsgWitnesses.v
Witnesses.v
