(* ===== verification/Prelude.v ===== *)
(** * Verification of the comet push server

    ** The program

    comet keeps long-lived TCP connections to clients and pushes messages to them.
    The server itself is src/src/core: a main thread accepts connections and hands
    them to worker threads through pipes; each worker runs a libevent loop, parses
    the binary frames its clients send, has logins and friendships checked by redis
    or an account server, and passes messages to the thread that has the recipient
    online.  It stands on libevent 2.0.21, whose sources are under
    src/deps/libevent-2.0.21-stable: evbuffers hold the bytes of a connection,
    bufferevents move them between buffers and sockets, and an event base runs the
    callbacks of descriptors, timeouts and signals on top of epoll.

    ** The files

    The server:
    - [Prelude]: bytes, machine integers, C arrays as lists indexed by [Z], the
      [outcome] of code that may access what it must not ([Undef]).
    - [EvbufferApi]: the interface of evbuffers as a class of operations with laws;
      byte lists are its simplest instance.
    - [AnalyseReq]: the class AnalyseReq (analyse_req.h, analyse_req.cc): one
      definition per member function, generic in the evbuffers; protobuf messages,
      generated code, are the class [CometProto].  [Frames]: a decoder of the wire format
      that is written on its own ([decode]), and the parser and the builders against
      it.  [Account]: what is proved of the account server's answers.
    - [WorkThread]: subscribers, the state of a worker, and every callback of
      work_thread.cc as a function on the [World] of all threads, live
      bufferevents and the clock.  [WorkInv]: the invariant of a world.
      [WorkStep]: the event loops as a transition system and the invariant's
      preservation.  [WorkProps]: behaviour of the callbacks.
    - [Log]: log.h, log.cc.  [WorkStart]: setting a worker up, its thread function,
      the redis connection callbacks, thread-private data (shared_data.cc).
    - [Server]: server.cc and eglcomet.cc: configuration, accepting, timers,
      failover, and the start-up code in a monad that asks an oracle for the result
      of each system call.

    libevent:
    - [BufChain]: chains, buffers, callbacks of buffers (evbuffer-internal.h and the
      first part of buffer.c).  [BufOps]: adding, removing, moving, pulling up.
      [BufExpand]: space, descriptors, formatted text.  [BufSearch]: searching,
      lines, peeking.  A chain is its memory with [misalign] and [off]; a buffer is
      the list of its chains with [last_with_datap] as an index.
    - [BufRefine], [BufIo]: the invariant of a buffer ([evb_inv]) and a
      specification of each operation on the bytes it holds; the instance of
      [EvbufferApi].  [BufProps], [BufLines]: what users of buffers rely on.
    - [BufNotify]: frozen ends and what is reported to callbacks.
    - [Chars]: characters and C strings (evutil.c).
    - [Tagging]: event_tagging.c, generic in the evbuffers; [TagFormat]: the wire format
      and how the loops write and read it; [TagProps]: reading, looking ahead, streams.
    - [BufevData], [Bufev]: bufferevent.c and bufferevent_sock.c; the program's
      callbacks are a strategy, a function from the state to the calls it makes.
      [BufevInv]: the invariant of a bufferevent on a connected socket.
      [BufevProps]: runs of a bufferevent.
    - [RateLimit]: bufferevent_ratelim.c: token buckets, the limits of bufferevents and
      groups, their timers.  [RateInv]: the invariant of a world of bufferevents and
      groups; [RateRun]: transfers (the parts of bufferevent_readcb and bufferevent_writecb that
      have to do with limits) and timers keep it; [RateConf]: so do changes of limits and
      of membership.  [RateProps]: runs.
    - [PrintApi], [LineApi]: formatted text
      and lines as interfaces on top of [EvbufferApi], and their instances.
    - [Uri]: the URIs of http.c, parsing, joining and setting; [UriProps]: how the parser takes
      a string apart, and joining; [UriGrammar]: a grammar of URIs in terms of characters and
      numbers only, and the parser against it.  [HttpText]: escaping, decoding, headers and queries; [HttpProps]:
      what is proved of them.
    - [HttpVhost]: server objects, virtual hosts, dispatch and phrases.  [HttpMsg]: requests and
      replies: writing them (evhttp_make_header, evhttp_send_reply and its kind) and parsing
      their lines.  [HttpRead]: the callbacks that read a message from a connection; what they
      call in the rest of http.c is a list of actions.  [HttpParse]: numbers and lines;
      [HttpTrip], [HttpBody], [HttpChunks]: a message that arrives in pieces, up to its body,
      with a body of known length, and in chunks; [HttpSend]: what is written;
      [HttpMsgProps]: round trips.  [HttpSafe]: any input.
    - [EvFlags]: flag words and times.  [EvHeap]: the heap of timeouts
      (minheap-internal.h) over an array whose accesses are checked; [EvHeapInv]: it
      stays a heap, with each event's slot noted in the event.
    - [EvMap]: events per descriptor and per signal (evmap.c) above the backend, a
      class [EventOp] with laws [EventOpLaws]; [EvMapInv]: the maps count readers and
      writers and the backend watches what they ask for.  [Epoll]: the backend of
      epoll.c above the kernel, a parameter with the documented behaviour of
      epoll_ctl; [EpollInv]: it keeps the laws of [EventOpLaws].
    - [ChangeList]: the change list of evmap.c, which collects changes of descriptors until the
      loop waits, and how epoll.c applies it; [ChangeProps]: it has the effect of the changes
      made one by one.
    - [Signals]: signal.c at the level of the process: handlers, the socket pair, several bases;
      [SignalProps]: what a base is told, and that actions are given back.
    - [EvBase]: struct event_base and adding, deleting and activating events
      (event.c); [EvLoop]: the event loop, callbacks being strategies as for
      bufferevents.  [EvInv]: the invariant of a base; [EvDel], [EvAdd],
      [EvTimeouts], [EvRun]: every operation and every turn of the loop keeps it.
      [EvProps]: what users of the loop rely on.

    [RateWitnesses], [EvWitnesses], [SignalWitnesses], [ChangeWitnesses], [BufWitnesses], [TagWitnesses], [HttpWitnesses],
    [HttpMsgWitnesses] and [Witnesses] apply the theorems to concrete inputs.

    ** What is proved

    - The worker threads: in every reachable state the keys of the map of connections are
      exactly the live ones, and if clients log in under one id ([one_login]), which the
      program does not enforce, the maps agree with each other and the callbacks
      touch no freed memory ([reachable_world_ok], [reachable_safe]); what happens when a
      client does not is [second_login_use_after_free].  Messages reach exactly their
      recipients in order, forged senders and idle connections are dealt with, logins are
      registered or refused, the read callback comes to an end
      ([messages_delivered], [forward_from_client], [forged_sender_dropped],
      [idle_connections_swept], [login_accepted], [login_rejected], [read_loop_terminates]).
    - Frames: [analyse_data] does what the reference decoder says, on any evbuffer
      that keeps the interface's laws, which the chained ones of buffer.c do
      ([analyse_data_decodes]); frames that are packed are decoded
      ([pack_analyse_roundtrip]).  The frames that are excluded, which claim 2^31 bytes or
      are too short for their ids, make the program read outside its buffer.
    - Evbuffers: any run of calls on a pool of buffers behaves as on byte sequences
      ([buffers_are_sequences]), a buffer between two descriptors is a first-in
      first-out stream (what is compared is what is in the vectors handed to writev),
      searches and lines agree with their definitions on the
      bytes, formatted and reserved space is appended.
    - Tagged data: readers agree with a parser of the wire format on any input
      ([unmarshal_parses]), values written are read back ([tagged_stream_roundtrip]).
    - Bufferevents, where events can be added and callbacks are not deferred: both byte
      streams stay in order, bytes to write are never forgotten and are written by a
      socket that takes some ([bufferevent_run_ok], [output_drains]), watermarks
      hold, read events are reported ([read_event_reported]), and a bufferevent freed
      from its own callback is destroyed once, after the callback.
    - Rate limits: in runs of transfers, timers and reconfigurations (assumptions below) bufferevents
      without tokens are suspended and their timers run, and members follow their group
      ([rate_limits_hold]); a limited bufferevent moves at most its burst and its rate
      ([rate_bounds_traffic]) and is resumed when its debt is paid ([refill_resumes]).
    - HTTP: the parser of URIs accepts exactly a grammar, but for one kind of host that it
      should not ([uri_parse_exact]), and joining and
      parsing, encoding and decoding are inverse ([uri_join_parse], [uriencode_roundtrip],
      [query_roundtrip]).  Requests and replies that are written are read back as they were,
      in whatever pieces the bytes arrive, with bodies of known length and in chunks, and what
      follows them is left in the input
      ([request_roundtrip], [reply_roundtrip], [chunked_reply_roundtrip]).  Whatever
      arrives, reading ends or waits, and the headers that are stored and the body stay within
      the limits of the connection ([reading_bounded]).  Virtual hosts are found by alias and
      then by pattern, if no pattern ends with a star ([vhost_selected]).
    - The event loop: for a kernel that keeps its documentation and callbacks that keep that
      of libevent ([kernel_reliable], [wake_ok], [respectful]), no assertion
      fails, no array is left and epoll watches exactly what the added events ask for, level-
      and edge-triggered ([event_loop_on_epoll]); timeouts fire when due and in order, the loop sleeps
      until the next one, persistent events are due again at the right time, adding and
      deleting do exactly that, ready descriptors are reported to the events that ask
      for them and active events run in order ([due_timeouts_fire],
      [event_add_contract], [event_del_forgets], [ready_descriptor_reported], ...).  With a
      change list, epoll watches after each dispatch the reading and writing it would have
      watched without, if the kernel accepts the changes; EPOLLET may differ
      ([changelist_equivalent]).
    - Signals, for one base that asks for them and can add its internal event: those that are asked
      for are counted and reported exactly, as long as the socket pair has room
      ([signals_delivered]), and freeing the base gives every signal its old action back
      ([handlers_restored]).
    - The main thread: load balancing, redis failover, start-up order; the log.
    - Defects: theorems that state where the code overruns an array, misreads a
      frame, loses a connection or trips an assertion ([negative_length_overflow],
      [length_ff00_misread], [login_request_overflow], [add_behind_unused_chains],
      ...).

    ** Bounds and fuel

    Machine integers are [Z] with the wrap-around written out ([u64], [i32], ...).
    Sizes are those of a 64-bit process; theorems on buffers assume at most
    2^61 bytes ([evb_limit]).  An int that overflows, as twice the ping time or the count of
    [evbuffer_strspn], is [Undef Overflow].  [read_loop] has one round of fuel per input
    byte and one more; running out is [Undef Hang], which [read_loop_terminates] excludes;
    the loop of a search has one per byte and chain, that of [evbuffer_add_vprintf] two, and running out of them is
    [Undef Hang], excluded by the theorems on them; the doubling loop of
    [evbuffer_chain_new] has 64, after which the C loop spins on 0.  The loop over due
    timeouts has one round per event of the heap, that over a common timeout one per
    event waiting on it, a signal's callback is repeated at most ev_ncalls times, a
    16-bit number; theorems show that these are enough.  The loops over header lines and
    over chunks have one round per byte of the input and one or two more, and
    [reading_bounded] excludes that they run out.  The queues of active events
    take any fuel, since callbacks may activate events for ever; running out of it is
    [Undef Hang], and the theorems on whole runs exclude every other [Undef].
    A number that overflows an int (a port, a version, a status code) is [Undef Overflow].
    Allocation may fail at any size ([Malloc]); results that need memory say
    [reliable].  Theorems that need epoll_ctl to let go of a descriptor say
    [reliable_del], and those on runs of the loop ask of callbacks what the
    documentation asks ([respectful]: no new assignment of an event that is added, descriptors
    below 2^30, no use of the loop's own timers).  Theorems on rate limits assume that a timer can be added,
    ticks of a millisecond or more, a share of at least 1, and times within 2^31 ticks of
    the last refill, beyond which the code takes the clock to run backwards.

    ** Not modelled

    Threads are interleaved at callbacks, which is what the pipes between them
    guarantee for the state modelled; locks are left out.  For the worker threads the
    event loop is the order in which callbacks are run, and in the model of
    bufferevents an event is its descriptor, whether it is pending, and its timeout;
    the event loop itself is modelled on its own.  Of event.c the creation and release
    of a base, event_base_once, the notification of a loop in another thread and the
    correction for a clock that runs backwards are left out, of epoll.c creating and
    freeing the descriptor and growing the array of reports.  The model of the base
    uses epoll without the change list, the default.  Handlers run between calls, never in the middle of one.  The callbacks of a bufferevent in [Bufev] have no
    rate limit; what they do with one is [read_transfer] and [write_transfer] of [RateRun].  Of http.c the
    making, retrying, ending and freeing of connections, the timeouts and the sockets of the server are left out,
    as are the wire and time below it: the bytes of a message arrive in pieces ([deliver]); inet_pton is
    a parameter that accepts strings of certain characters only ([pton_chars]).  DNS, SSL, RPC and the
    other bufferevent types are not used by the server.  hiredis is only present as
    a binary: the commands issued to it are recorded and its answers are arguments.
    evbuffer_add_file, the Windows variants and the obsolete evbuffer_setcb are left
    out of buffer.c.  The test scripts with the MongoDB driver are no part of the
    server. *)

From stdpp Require Export base list option gmap numbers strings.
From Stdlib Require Export ZArith Lia.
From Stdlib Require Export Strings.Byte.

#[global] Open Scope Z_scope.

(** ** Bytes *)

Abbreviation byte := Byte.byte.

Definition b2z (b : byte) : Z := Z.of_N (Byte.to_N b).

Definition z2b (z : Z) : byte :=
  match Byte.of_N (Z.to_N (z mod 256)) with Some b => b | None => "000"%byte end.

#[global] Instance byte_eq_decision : EqDecision byte := Byte.byte_eq_dec.

Lemma b2z_range b : 0 <= b2z b < 256.
Proof. unfold b2z. pose proof (Byte.to_N_bounded b). lia. Qed.

Lemma b2z_z2b z : b2z (z2b z) = z mod 256.
Proof.
  unfold b2z, z2b. pose proof (Z.mod_pos_bound z 256 eq_refl) as Hz.
  destruct (Byte.of_N (Z.to_N (z mod 256))) as [b|] eqn:E.
  - apply Byte.to_of_N in E. rewrite E. lia.
  - apply Byte.of_N_None_iff in E. lia.
Qed.

Lemma b2z_inj b1 b2 : b2z b1 = b2z b2 → b1 = b2.
Proof.
  unfold b2z. intros E%N2Z.inj.
  pose proof (Byte.of_to_N b1). pose proof (Byte.of_to_N b2). congruence.
Qed.

Lemma z2b_b2z b : z2b (b2z b) = b.
Proof. apply b2z_inj. rewrite b2z_z2b. apply Z.mod_small, b2z_range. Qed.

(** The bytes of a string literal. *)
Definition bytes_of (s : string) : list byte := String.list_byte_of_string s.

(** ** Machine integers: [uN] truncates to N bits, [iN] is two's complement. *)

Definition u8 (z : Z) : Z := z mod 2 ^ 8.
Definition u16 (z : Z) : Z := z mod 2 ^ 16.
Definition u32 (z : Z) : Z := z mod 2 ^ 32.
Definition u64 (z : Z) : Z := z mod 2 ^ 64.
Definition i32 (z : Z) : Z := (z + 2 ^ 31) mod 2 ^ 32 - 2 ^ 31.
Definition i64 (z : Z) : Z := (z + 2 ^ 63) mod 2 ^ 64 - 2 ^ 63.

Lemma u8_small z : 0 <= z < 2 ^ 8 → u8 z = z.
Proof. intros. by apply Z.mod_small. Qed.
Lemma u16_small z : 0 <= z < 2 ^ 16 → u16 z = z.
Proof. intros. by apply Z.mod_small. Qed.
Lemma u32_small z : 0 <= z < 2 ^ 32 → u32 z = z.
Proof. intros. by apply Z.mod_small. Qed.
Lemma u64_small z : 0 <= z < 2 ^ 64 → u64 z = z.
Proof. intros. by apply Z.mod_small. Qed.
Lemma u64_range z : 0 <= u64 z < 2 ^ 64.
Proof. by apply Z.mod_pos_bound. Qed.
Lemma u32_range z : 0 <= u32 z < 2 ^ 32.
Proof. by apply Z.mod_pos_bound. Qed.
Lemma i32_small z : - 2 ^ 31 <= z < 2 ^ 31 → i32 z = z.
Proof. intros. unfold i32. rewrite Z.mod_small; lia. Qed.
Lemma i64_small z : - 2 ^ 63 <= z < 2 ^ 63 → i64 z = z.
Proof. intros. unfold i64. rewrite Z.mod_small; lia. Qed.
Lemma i32_range z : - 2 ^ 31 <= i32 z < 2 ^ 31.
Proof. unfold i32. pose proof (Z.mod_pos_bound (z + 2 ^ 31) (2 ^ 32) eq_refl). lia. Qed.

(** ** Lists indexed by C sizes *)

Definition Zlen {A} (l : list A) : Z := Z.of_nat (length l).
Definition ztake {A} (n : Z) (l : list A) : list A := take (Z.to_nat n) l.
Definition zdrop {A} (n : Z) (l : list A) : list A := drop (Z.to_nat n) l.

(** [l[i]] for a C index: nothing outside [0 .. length l - 1]. *)
Definition znth {A} (l : list A) (i : Z) : option A :=
  if i <? 0 then None else l !! Z.to_nat i.

(** [memcpy(l + off, src, Zlen src)]. *)
Definition splice {A} (l : list A) (off : Z) (src : list A) : list A :=
  ztake off l ++ src ++ zdrop (off + Zlen src) l.

Create HintDb comet.
Create Rewrite HintDb zlen.

Section zlists.
Context {A : Type}.
Implicit Types l k : list A.

Lemma Zlen_nonneg l : 0 <= Zlen l.
Proof. unfold Zlen. lia. Qed.
Lemma Zlen_nil : Zlen (@nil A) = 0.
Proof. done. Qed.
Lemma Zlen_cons x l : Zlen (x :: l) = 1 + Zlen l.
Proof. unfold Zlen. simpl. lia. Qed.
Lemma Zlen_app l k : Zlen (l ++ k) = Zlen l + Zlen k.
Proof. unfold Zlen. rewrite length_app. lia. Qed.
Lemma Zlen_ztake n l : Zlen (ztake n l) = Z.max 0 (Z.min n (Zlen l)).
Proof. unfold Zlen, ztake. rewrite length_take. lia. Qed.
Lemma Zlen_zdrop n l : Zlen (zdrop n l) = Z.max 0 (Zlen l - Z.max 0 n).
Proof. unfold Zlen, zdrop. rewrite length_drop. lia. Qed.
Lemma Zlen_replicate n (x : A) : Zlen (replicate n x) = Z.of_nat n.
Proof. unfold Zlen. by rewrite length_replicate. Qed.
Lemma Zlen_0_inv l : Zlen l = 0 → l = [].
Proof. unfold Zlen. destruct l; [done | simpl; lia]. Qed.
Lemma ztake_zdrop n l : ztake n l ++ zdrop n l = l.
Proof. apply take_drop. Qed.
Lemma ztake_0 n l : n <= 0 → ztake n l = [].
Proof. intros. unfold ztake. replace (Z.to_nat n) with 0%nat by lia. done. Qed.
Lemma zdrop_0 n l : n <= 0 → zdrop n l = l.
Proof. intros. unfold zdrop. replace (Z.to_nat n) with 0%nat by lia. done. Qed.
Lemma ztake_all n l : Zlen l <= n → ztake n l = l.
Proof. unfold Zlen, ztake. intros. apply take_ge. lia. Qed.
Lemma zdrop_all n l : Zlen l <= n → zdrop n l = [].
Proof. unfold Zlen, zdrop. intros. apply drop_ge. lia. Qed.
Lemma ztake_app_l n l k : n <= Zlen l → ztake n (l ++ k) = ztake n l.
Proof. unfold Zlen, ztake. intros. apply take_app_le. lia. Qed.
Lemma ztake_app_r n l k :
  Zlen l <= n → ztake n (l ++ k) = l ++ ztake (n - Zlen l) k.
Proof.
  unfold Zlen, ztake. intros. rewrite take_app_ge by lia. do 2 f_equal. lia.
Qed.
Lemma zdrop_app_l n l k : n <= Zlen l → zdrop n (l ++ k) = zdrop n l ++ k.
Proof. unfold Zlen, zdrop. intros. apply drop_app_le. lia. Qed.
Lemma zdrop_app_r n l k :
  Zlen l <= n → zdrop n (l ++ k) = zdrop (n - Zlen l) k.
Proof. unfold Zlen, zdrop. intros. rewrite drop_app_ge by lia. f_equal. lia. Qed.
Lemma ztake_ztake n m l : ztake n (ztake m l) = ztake (Z.min n m) l.
Proof. unfold ztake. rewrite take_take. f_equal. lia. Qed.
Lemma zdrop_zdrop n m l : 0 <= n → 0 <= m → zdrop n (zdrop m l) = zdrop (n + m) l.
Proof. intros. unfold zdrop. rewrite drop_drop. f_equal. lia. Qed.
Lemma ztake_zdrop_comm n m l :
  0 <= n → 0 <= m → ztake n (zdrop m l) = zdrop m (ztake (n + m) l).
Proof.
  intros. unfold ztake, zdrop. rewrite take_drop_commute. do 2 f_equal. lia.
Qed.
Lemma ztake_plus n m l :
  0 <= n → 0 <= m → ztake (n + m) l = ztake n l ++ ztake m (zdrop n l).
Proof.
  intros. unfold ztake, zdrop. rewrite Z2Nat.inj_add by done.
  by rewrite <- take_take_drop.
Qed.
Lemma zdrop_cons n x l : 0 < n → zdrop n (x :: l) = zdrop (n - 1) l.
Proof.
  intros Hn. unfold zdrop. replace (Z.to_nat n) with (S (Z.to_nat (n - 1))) by lia. done.
Qed.
Lemma ztake_cons n x l : 0 < n → ztake n (x :: l) = x :: ztake (n - 1) l.
Proof.
  intros Hn. unfold ztake. replace (Z.to_nat n) with (S (Z.to_nat (n - 1))) by lia. done.
Qed.
Lemma ztake_app_exact l k : ztake (Zlen l) (l ++ k) = l.
Proof. rewrite ztake_app_l by lia. apply ztake_all. lia. Qed.
Lemma zdrop_app_exact l k : zdrop (Zlen l) (l ++ k) = k.
Proof. rewrite zdrop_app_l by lia. rewrite zdrop_all; [done | lia]. Qed.

Lemma Zlen_splice l off src :
  0 <= off → off + Zlen src <= Zlen l → Zlen (splice l off src) = Zlen l.
Proof.
  intros. pose proof (Zlen_nonneg src). unfold splice.
  rewrite !Zlen_app, Zlen_ztake, Zlen_zdrop. lia.
Qed.
Lemma splice_ztake l off src :
  0 <= off → off <= Zlen l → ztake off (splice l off src) = ztake off l.
Proof.
  intros. unfold splice.
  rewrite ztake_app_l by (rewrite Zlen_ztake; lia).
  rewrite ztake_ztake. f_equal. lia.
Qed.
Lemma splice_zdrop l off src :
  0 <= off → off <= Zlen l → zdrop off (splice l off src) = src ++ zdrop (off + Zlen src) l.
Proof.
  intros. unfold splice.
  rewrite zdrop_app_r by (rewrite Zlen_ztake; lia).
  apply zdrop_0. rewrite Zlen_ztake. lia.
Qed.

Lemma znth_Some l i x : znth l i = Some x → 0 <= i < Zlen l.
Proof.
  unfold znth, Zlen. destruct (Z.ltb_spec i 0); [done|].
  intros ?%lookup_lt_Some. lia.
Qed.
Lemma znth_lt l i : 0 <= i < Zlen l → is_Some (znth l i).
Proof.
  unfold znth, Zlen. intros. destruct (Z.ltb_spec i 0); [lia|].
  apply lookup_lt_is_Some. lia.
Qed.
Lemma znth_ztake l n i : i < n → znth (ztake n l) i = znth l i.
Proof.
  unfold znth, ztake. intros. destruct (Z.ltb_spec i 0); [done|].
  apply lookup_take_lt. lia.
Qed.
Lemma znth_app_l l k i : i < Zlen l → znth (l ++ k) i = znth l i.
Proof.
  unfold znth, Zlen. intros. destruct (Z.ltb_spec i 0); [done|].
  apply lookup_app_l. lia.
Qed.
Lemma znth_app_r l k i : Zlen l <= i → znth (l ++ k) i = znth k (i - Zlen l).
Proof.
  unfold znth, Zlen. intros. destruct (Z.ltb_spec i 0); [lia|].
  destruct (Z.ltb_spec (i - Z.of_nat (length l)) 0); [lia|].
  rewrite lookup_app_r by lia. f_equal. lia.
Qed.
Lemma ztake_zdrop_cons l n i x :
  0 <= n → znth l i = Some x →
  ztake (1 + n) (zdrop i l) = x :: ztake n (zdrop (i + 1) l).
Proof.
  intros Hn Hx. pose proof (znth_Some _ _ _ Hx). revert Hx.
  unfold znth, ztake, zdrop. destruct (Z.ltb_spec i 0); [done|]. intros Hx.
  replace (Z.to_nat (1 + n)) with (S (Z.to_nat n)) by lia.
  replace (Z.to_nat (i + 1)) with (S (Z.to_nat i)) by lia.
  by rewrite (drop_S l x) by done.
Qed.
Lemma ztake_zdrop_2 l i x y :
  znth l i = Some x → znth l (i + 1) = Some y → ztake 2 (zdrop i l) = [x; y].
Proof.
  intros Hx Hy. change 2 with (1 + (1 + 0)).
  rewrite (ztake_zdrop_cons l (1 + 0) i x), (ztake_zdrop_cons l 0 (i + 1) y) by done.
  done.
Qed.
Lemma znth_zdrop l n i : 0 <= n → 0 <= i → znth (zdrop n l) i = znth l (n + i).
Proof.
  unfold znth, zdrop. intros.
  destruct (Z.ltb_spec i 0); [lia|]. destruct (Z.ltb_spec (n + i) 0); [lia|].
  rewrite lookup_drop. f_equal. lia.
Qed.
End zlists.

#[export] Hint Resolve Zlen_nonneg b2z_range : comet.
#[export] Hint Rewrite @Zlen_nil @Zlen_cons @Zlen_app @Zlen_ztake @Zlen_zdrop
  @Zlen_replicate : zlen.

(** Push [Zlen] through list operations, add non-negativity of every list
    length in sight, and finish by linear arithmetic. *)
Ltac zlen_pos :=
  repeat match goal with
  | |- context [Zlen ?l] =>
      lazymatch goal with H : 0 <= Zlen l |- _ => fail | _ => pose proof (Zlen_nonneg l) end
  | _ : context [Zlen ?l] |- _ =>
      lazymatch goal with H : 0 <= Zlen l |- _ => fail | _ => pose proof (Zlen_nonneg l) end
  end.
Ltac zlia := autorewrite with zlen in *; zlen_pos; lia.

(** Turn the boolean comparisons of the code into propositions. *)
Ltac zbool :=
  repeat match goal with
  | H : (_ && _)%bool = true |- _ => apply andb_true_iff in H as [? ?]
  | H : (_ || _)%bool = false |- _ => apply orb_false_iff in H as [? ?]
  | H : negb _ = true |- _ => apply negb_true_iff in H
  | H : negb _ = false |- _ => apply negb_false_iff in H
  | H : (_ <? _) = true |- _ => apply Z.ltb_lt in H
  | H : (_ <? _) = false |- _ => apply Z.ltb_ge in H
  | H : (_ <=? _) = true |- _ => apply Z.leb_le in H
  | H : (_ <=? _) = false |- _ => apply Z.leb_gt in H
  | H : (_ >? _) = true |- _ => apply Z.gtb_lt in H
  | H : (_ >? _) = false |- _ => rewrite Z.gtb_ltb in H
  | H : (_ >=? _) = _ |- _ => rewrite Z.geb_leb in H
  | H : (_ =? _) = true |- _ => apply Z.eqb_eq in H
  | H : (_ =? _) = false |- _ => apply Z.eqb_neq in H
  end.

(** Case on the innermost boolean test of the goal. *)
Ltac zcase :=
  match goal with
  | |- context [if ?b then _ else _] =>
      lazymatch b with
      | context [if _ then _ else _] => fail
      | _ => let E := fresh "E" in destruct b eqn:E; zbool
      end
  end.

(** ** Big-endian integers on the wire *)

Fixpoint be_dec_acc (acc : Z) (bs : list byte) : Z :=
  match bs with [] => acc | b :: bs' => be_dec_acc (acc * 256 + b2z b) bs' end.
Definition be_dec (bs : list byte) : Z := be_dec_acc 0 bs.

Fixpoint be_enc (n : nat) (z : Z) : list byte :=
  match n with
  | O => []
  | S n' => z2b (z / 256 ^ Z.of_nat n') :: be_enc n' z
  end.

Lemma Zlen_be_enc n z : Zlen (be_enc n z) = Z.of_nat n.
Proof. induction n; [done|]. cbn [be_enc]. rewrite Zlen_cons, IHn. lia. Qed.

#[export] Hint Rewrite Zlen_be_enc : zlen.

Lemma be_dec_acc_app acc l k : be_dec_acc acc (l ++ k) = be_dec_acc (be_dec_acc acc l) k.
Proof. revert acc. induction l; intros; simpl; auto. Qed.

Lemma be_dec_acc_enc n acc z :
  be_dec_acc acc (be_enc n z) = acc * 256 ^ Z.of_nat n + z mod 256 ^ Z.of_nat n.
Proof.
  revert acc. induction n as [|n IH]; intros acc.
  { simpl. rewrite Z.mod_1_r. lia. }
  cbn [be_enc be_dec_acc]. rewrite IH, b2z_z2b.
  rewrite Nat2Z.inj_succ, Z.pow_succ_r by lia.
  assert (0 < 256 ^ Z.of_nat n) by (apply Z.pow_pos_nonneg; lia).
  rewrite (Z.mul_comm 256), Z.rem_mul_r by lia. lia.
Qed.

Lemma be_dec_enc n z : 0 <= z < 256 ^ Z.of_nat n → be_dec (be_enc n z) = z.
Proof. intros. unfold be_dec. rewrite be_dec_acc_enc, Z.mod_small; lia. Qed.

Lemma be_dec_acc_bound acc bs :
  0 <= acc → 0 <= be_dec_acc acc bs < (acc + 1) * 256 ^ Zlen bs.
Proof.
  revert acc. induction bs as [|b bs IH]; intros acc Hacc; simpl.
  { unfold Zlen; simpl. lia. }
  pose proof (b2z_range b). specialize (IH (acc * 256 + b2z b) ltac:(lia)).
  rewrite Zlen_cons, Z.pow_add_r by (try lia; apply Zlen_nonneg).
  assert (0 < 256 ^ Zlen bs) by (apply Z.pow_pos_nonneg; [lia | apply Zlen_nonneg]).
  nia.
Qed.

Lemma be_dec_bound bs : 0 <= be_dec bs < 256 ^ Zlen bs.
Proof. pose proof (be_dec_acc_bound 0 bs ltac:(lia)). unfold be_dec. lia. Qed.

Lemma lor_shiftl_byte n a b : 0 <= n → 0 <= b < 2 ^ n → Z.lor (Z.shiftl a n) b = a * 2 ^ n + b.
Proof.
  intros Hn Hb. rewrite <- Z.shiftl_mul_pow2 by done.
  assert (Z.land (Z.shiftl a n) b = 0) as Hd.
  { destruct (decide (b = 0)) as [->|]; [apply Z.land_0_r|].
    apply Z.bits_inj'. intros k Hk. rewrite Z.land_spec, Z.bits_0, Z.shiftl_spec by done.
    destruct (Z.ltb_spec k n).
    - rewrite (Z.testbit_neg_r a) by lia. done.
    - rewrite (Z.bits_above_log2 b k), andb_false_r; [done|lia|].
      apply Z.lt_le_trans with n; [|lia]. apply Z.log2_lt_pow2; lia. }
  rewrite Z.add_nocarry_lxor by done. symmetry. by apply Z.lxor_lor.
Qed.

(** ** Outcomes: a value, or an access the language leaves undefined *)

Inductive ub : Type :=
  | OutOfBounds     (** read or write outside an object *)
  | UseAfterFree    (** an object used after it was released *)
  | NullDeref       (** dereference of a null pointer *)
  | BadErase        (** erase of a past-the-end iterator *)
  | AssertFail      (** a failed assertion *)
  | DivByZero       (** a division by zero *)
  | Overflow        (** a signed integer that overflows *)
  | Hang            (** a loop that never ends *).

Inductive outcome (A : Type) : Type := Val (a : A) | Undef (u : ub).
Arguments Val {A} a.
Arguments Undef {A} u.

#[global] Instance ub_eq_dec : EqDecision ub.
Proof. solve_decision. Defined.
#[global] Instance outcome_ret : MRet outcome := λ A a, Val a.
#[global] Instance outcome_bind : MBind outcome :=
  λ A B f m, match m with Val a => f a | Undef u => Undef u end.

Definition or_undef {A} (u : ub) (o : option A) : outcome A :=
  match o with Some a => Val a | None => Undef u end.

Lemma Val_inj {A} (a b : A) : Val a = Val b → a = b.
Proof. by intros [=]. Qed.

Lemma outcome_bind_Val {A B} (m : outcome A) (f : A → outcome B) b :
  m ≫= f = Val b → ∃ a, m = Val a ∧ f a = Val b.
Proof. destruct m; simpl; eauto; discriminate. Qed.

(** ** Stores into a C array of known size *)

Definition poke (des : list byte) (off : Z) (src : list byte) : outcome (list byte) :=
  if (0 <=? off) && (off + Zlen src <=? Zlen des) then Val (splice des off src)
  else Undef OutOfBounds.

Lemma poke_val des off src :
  0 <= off → off + Zlen src <= Zlen des → poke des off src = Val (splice des off src).
Proof.
  intros. unfold poke. destruct (Z.leb_spec 0 off); [|lia].
  by destruct (Z.leb_spec (off + Zlen src) (Zlen des)); [|lia].
Qed.

Lemma poke_oob des off src :
  Zlen des < off + Zlen src → poke des off src = Undef OutOfBounds.
Proof.
  intros. unfold poke. destruct (Z.leb_spec (off + Zlen src) (Zlen des)); [lia|].
  by rewrite andb_false_r.
Qed.

(** ** Lists *)

Lemma filter_ext_in {A} (P Q : A → Prop) `{∀ x, Decision (P x), ∀ x, Decision (Q x)} (l : list A) :
  (∀ x, x ∈ l → P x ↔ Q x) → filter P l = filter Q l.
Proof.
  intros Heq. induction l as [|x l IH]; [done|].
  rewrite !filter_cons, IH by (intros; apply Heq; by right).
  by rewrite (decide_ext _ _ _ _ (Heq x (list_elem_of_here _ _))).
Qed.
