(* ===== verification/EvFlags.v ===== *)
(** Flag words and times of libevent 2.0.21: the EV_ and EVLIST_ constants of
    include/event2/event.h and event_struct.h, [struct timeval] with the macros
    evutil_timeradd, evutil_timersub and evutil_timercmp of include/event2/util.h. *)

From S2P Require Import Prelude.

Definition EV_TIMEOUT : Z := 1.
Definition EV_READ : Z := 2.
Definition EV_WRITE : Z := 4.
Definition EV_SIGNAL : Z := 8.
Definition EV_PERSIST : Z := 0x10.
Definition EV_ET : Z := 0x20.

Definition EVLIST_TIMEOUT : Z := 0x01.
Definition EVLIST_INSERTED : Z := 0x02.
Definition EVLIST_ACTIVE : Z := 0x08.
Definition EVLIST_INTERNAL : Z := 0x10.
Definition EVLIST_INIT : Z := 0x80.
Definition EVLIST_ALL : Z := 0xf09f.

(** A [short]. *)
Definition i16 (z : Z) : Z := (z + 2 ^ 15) mod 2 ^ 16 - 2 ^ 15.

(** [flags & bits] as a truth value. *)
Definition has (flags bits : Z) : bool := negb (Z.land flags bits =? 0).

Lemma has_bit f k : 0 <= k → has f (2 ^ k) = Z.testbit f k.
Proof.
  intros Hk. unfold has. destruct (Z.testbit f k) eqn:E.
  - destruct (Z.eqb_spec (Z.land f (2 ^ k)) 0) as [E0|]; [|done].
    assert (Z.testbit (Z.land f (2 ^ k)) k = true) as P; [|by rewrite E0, Z.bits_0 in P].
    by rewrite Z.land_spec, E, Z.pow2_bits_true.
  - destruct (Z.eqb_spec (Z.land f (2 ^ k)) 0) as [|E0]; [done|]. exfalso. apply E0. apply Z.bits_inj_0.
    intros i. rewrite Z.land_spec. destruct (Z.eqb_spec i k) as [->|]; [by rewrite E|].
    rewrite Z.pow2_bits_false by done. apply andb_false_r.
Qed.
Lemma has_read f : has f EV_READ = Z.testbit f 1.
Proof. apply (has_bit f 1). lia. Qed.
Lemma has_write f : has f EV_WRITE = Z.testbit f 2.
Proof. apply (has_bit f 2). lia. Qed.

(** ** Times *)

Record timeval := { tv_sec : Z; tv_usec : Z }.

#[global] Instance timeval_eq_dec : EqDecision timeval.
Proof. solve_decision. Defined.

Definition evutil_timeradd (a b : timeval) : timeval :=
  let usec := tv_usec a + tv_usec b in
  if usec >=? 1000000 then {| tv_sec := tv_sec a + tv_sec b + 1; tv_usec := usec - 1000000 |}
  else {| tv_sec := tv_sec a + tv_sec b; tv_usec := usec |}.
Definition evutil_timersub (a b : timeval) : timeval :=
  let usec := tv_usec a - tv_usec b in
  if usec <? 0 then {| tv_sec := tv_sec a - tv_sec b - 1; tv_usec := usec + 1000000 |}
  else {| tv_sec := tv_sec a - tv_sec b; tv_usec := usec |}.
Definition evutil_timercmp (cmp : Z → Z → bool) (a b : timeval) : bool :=
  if tv_sec a =? tv_sec b then cmp (tv_usec a) (tv_usec b) else cmp (tv_sec a) (tv_sec b).
Definition evutil_timerclear : timeval := {| tv_sec := 0; tv_usec := 0 |}.
Definition evutil_timerisset (tv : timeval) : bool := negb (tv_sec tv =? 0) || negb (tv_usec tv =? 0).

(** [a] is not after [b]. *)
Definition tle (a b : timeval) : Prop := evutil_timercmp Z.gtb a b = false.

Lemma tle_iff a b : tle a b ↔ tv_sec a < tv_sec b ∨ tv_sec a = tv_sec b ∧ tv_usec a <= tv_usec b.
Proof.
  unfold tle, evutil_timercmp. destruct (Z.eqb_spec (tv_sec a) (tv_sec b)).
  - destruct (Z.gtb_spec (tv_usec a) (tv_usec b)); intuition (done || lia).
  - destruct (Z.gtb_spec (tv_sec a) (tv_sec b)); intuition (done || lia).
Qed.
Lemma tle_refl a : tle a a.
Proof. rewrite tle_iff. lia. Qed.
Lemma tle_trans a b c : tle a b → tle b c → tle a c.
Proof. rewrite !tle_iff. lia. Qed.
Lemma tle_greater a b : evutil_timercmp Z.gtb a b = true → tle b a.
Proof.
  rewrite tle_iff. unfold evutil_timercmp. destruct (Z.eqb_spec (tv_sec a) (tv_sec b)); intros; zbool; lia.
Qed.

#[export] Hint Resolve tle_refl tle_greater : comet.

(** Microseconds since the epoch; a normal time has fewer than a million in [tv_usec]. *)
Definition usecs (tv : timeval) : Z := tv_sec tv * 1000000 + tv_usec tv.
Definition tv_ok (tv : timeval) : Prop := 0 <= tv_usec tv < 1000000.

Lemma timeradd_spec a b : tv_ok a → tv_ok b →
  tv_ok (evutil_timeradd a b) ∧ usecs (evutil_timeradd a b) = usecs a + usecs b.
Proof.
  unfold tv_ok, usecs, evutil_timeradd. intros. destruct (Z.geb_spec (tv_usec a + tv_usec b) 1000000); cbn; lia.
Qed.
Lemma timersub_spec a b : tv_ok a → tv_ok b →
  tv_ok (evutil_timersub a b) ∧ usecs (evutil_timersub a b) = usecs a - usecs b.
Proof.
  unfold tv_ok, usecs, evutil_timersub. intros. destruct (Z.ltb_spec (tv_usec a - tv_usec b) 0); cbn; lia.
Qed.
Lemma tle_usecs a b : tv_ok a → tv_ok b → tle a b ↔ usecs a <= usecs b.
Proof. unfold tv_ok, usecs. rewrite tle_iff. lia. Qed.
