(* ===== verification/EvbufferApi.v ===== *)
(** The evbuffer interface that the comet server is
    written against (deps/libevent-2.0.21-stable/include/event2/buffer.h), as a
    type class of operations and a type class of laws.  The laws speak about the
    byte sequence a buffer holds; they are proved once for plain byte lists here
    (the reference implementation) and once for the chained buffers of buffer.c
    in BufRefine.v. *)

From S2P Require Import Prelude.


(** Operations.  [size_t] and [ev_ssize_t] arguments are [Z]; the pointer
    returned by [evbuffer_pullup] is the list of the bytes it may be read at. *)
Class Evbuffer (B : Type) := {
  evbuffer_get_length : B → Z;
  evbuffer_pullup : B → Z → option (list byte) * B;
  evbuffer_drain : B → Z → Z * B;
  evbuffer_remove : B → Z → Z * list byte * B;
  evbuffer_add : B → list byte → Z * B;
  evbuffer_add_buffer : B → B → Z * B * B;       (** outbuf inbuf: result, outbuf, inbuf *)
  evbuffer_remove_buffer : B → B → Z → Z * B * B (** src dst len: result, src, dst *)
}.

(** Sizes up to here are handled (2^61 bytes: a size computation of buffer.c wraps
    only beyond that). *)
Definition evb_limit : Z := 2 ^ 61.
Lemma evb_limit_int : 2 ^ 31 <= evb_limit.
Proof. done. Qed.
#[global] Opaque evb_limit.

(** Laws.  [content b] is the byte sequence, [evb_ok b] what the operations rely
    on and keep, [evb_writable b] what adding relies on, and [evb_reliable] holds when
    memory allocation cannot fail. *)
Class EvbufferSpec (B : Type) `{Evbuffer B} := {
  content : B → list byte;
  evb_ok : B → Prop;
  evb_writable : B → Prop;
  evb_reliable : Prop;

  get_length_spec b : evb_ok b → evbuffer_get_length b = Zlen (content b);

  pullup_keeps b n : evb_ok b → Zlen (content b) <= evb_limit →
    evb_ok (evbuffer_pullup b n).2 ∧ content (evbuffer_pullup b n).2 = content b;
  pullup_some b n bs : evb_ok b → Zlen (content b) <= evb_limit → 0 <= n →
    (evbuffer_pullup b n).1 = Some bs →
    0 < n <= Zlen (content b) ∧ bs = ztake n (content b);
  pullup_neg_some b n bs : evb_ok b → Zlen (content b) <= evb_limit → n < 0 →
    (evbuffer_pullup b n).1 = Some bs →
    content b ≠ [] ∧ bs = content b;
  pullup_none b n : evb_ok b → Zlen (content b) <= evb_limit → evb_reliable →
    (evbuffer_pullup b n).1 = None →
    n = 0 ∨ Zlen (content b) < n ∨ content b = [];

  drain_spec b n : evb_ok b → 0 <= n →
    (evbuffer_drain b n).1 = 0 ∧ evb_ok (evbuffer_drain b n).2 ∧
    content (evbuffer_drain b n).2 = zdrop n (content b);

  remove_spec b n : evb_ok b → 0 <= n →
    ∃ b', evbuffer_remove b n =
            (i32 (Z.min n (Zlen (content b))), ztake n (content b), b') ∧
          evb_ok b' ∧ content b' = zdrop n (content b);

  add_spec b bs r b' : evb_ok b → evb_writable b → Zlen bs <= evb_limit → evbuffer_add b bs = (r, b') →
    evb_ok b' ∧ evb_writable b' ∧ (r = 0 ∧ content b' = content b ++ bs ∨ r = -1 ∧ content b' = content b);
  add_reliable b bs : evb_ok b → evb_writable b → Zlen bs <= evb_limit → evb_reliable → (evbuffer_add b bs).1 = 0;

  add_buffer_spec out inp r out' inp' : evb_ok out → evb_writable out → evb_ok inp →
    evbuffer_add_buffer out inp = (r, out', inp') →
    r = 0 ∧ evb_ok out' ∧ evb_ok inp' ∧
    (evb_writable inp → evb_writable out' ∧ evb_writable inp') ∧
    content out' = content out ++ content inp ∧ content inp' = [];

  remove_buffer_spec src dst n r src' dst' :
    evb_ok src → evb_ok dst → evb_writable dst → Zlen (content src) <= evb_limit → evb_reliable → 0 <= n →
    evbuffer_remove_buffer src dst n = (r, src', dst') →
    evb_ok src' ∧ evb_ok dst' ∧ (evb_writable src → evb_writable src' ∧ evb_writable dst') ∧
    content src' = zdrop n (content src) ∧
    content dst' = content dst ++ ztake n (content src);

  drain_writable b n : evb_ok b → 0 <= n → evb_writable b → evb_writable (evbuffer_drain b n).2;
}.

#[export] Hint Resolve get_length_spec : comet.

(** ** Reference implementation: a buffer is its byte sequence *)

Definition list_pullup (b : list byte) (n : Z) : option (list byte) * list byte :=
  let n := if n <? 0 then Zlen b else n in
  if (n =? 0) || (n >? Zlen b) then (None, b) else (Some (ztake n b), b).

#[export] Instance list_evbuffer : Evbuffer (list byte) := {
  evbuffer_get_length b := Zlen b;
  evbuffer_pullup := list_pullup;
  evbuffer_drain b n := (0, zdrop n b);
  evbuffer_remove b n := (i32 (Z.min n (Zlen b)), ztake n b, zdrop n b);
  evbuffer_add b bs := (0, b ++ bs);
  evbuffer_add_buffer out inp := (0, out ++ inp, []);
  evbuffer_remove_buffer src dst n := (i32 (Z.min n (Zlen src)), zdrop n src, dst ++ ztake n src)
}.

#[local] Obligation Tactic := idtac.

#[export] Program Instance list_evbuffer_spec : EvbufferSpec (list byte) := {
  content b := b; evb_ok _ := True; evb_writable _ := True; evb_reliable := True
}.
Next Obligation. done. Qed.
Next Obligation. intros b n _ _. simpl. unfold list_pullup. repeat zcase; done. Qed.
Next Obligation.
  intros b n bs _ _ Hn. simpl. unfold list_pullup.
  destruct (Z.ltb_spec n 0); [lia|]. zcase; [done|]. simpl. intros [= <-].
  zlen_pos. split; [lia | done].
Qed.
Next Obligation.
  intros b n bs _ _ Hn. simpl. unfold list_pullup.
  destruct (Z.ltb_spec n 0); [|lia]. zcase; [done|]. simpl. intros [= <-].
  split; [intros -> | apply ztake_all; lia]. done.
Qed.
Next Obligation.
  intros b n _ _ _. simpl. unfold list_pullup. destruct (Z.ltb_spec n 0).
  - zcase; [|done]. intros _. right; right. apply orb_true_iff in E as [E|E]; zbool.
    + by apply Zlen_0_inv.
    + lia.
  - zcase; [|done]. intros _. apply orb_true_iff in E as [E|E]; zbool; lia.
Qed.
Next Obligation. done. Qed.
Next Obligation. intros b n _ Hn. simpl. eauto. Qed.
Next Obligation. intros b bs r b' _ _ _. simpl. intros [= <- <-]. auto. Qed.
Next Obligation. done. Qed.
Next Obligation. intros out inp r out' inp' _ _ _. simpl. by intros [= <- <- <-]. Qed.
Next Obligation. intros src dst n r src' dst' _ _ _ _ _ _. simpl. by intros [= <- <- <-]. Qed.
Next Obligation. done. Qed.

#[global] Arguments evbuffer_get_length : simpl never.
#[global] Arguments evbuffer_pullup : simpl never.
#[global] Arguments evbuffer_drain : simpl never.
#[global] Arguments evbuffer_remove : simpl never.
#[global] Arguments evbuffer_add : simpl never.
#[global] Arguments evbuffer_add_buffer : simpl never.
#[global] Arguments evbuffer_remove_buffer : simpl never.
