(* ===== verification/AnalyseReq.v ===== *)
(** The comet wire protocol: the class AnalyseReq of src/core/analyse_req.{h,cc}.

    A frame is a header of [head_len = 4 * (byte0 & 15)] bytes, a data head
    (property id, format, length: 5 bytes, or 9 with the 32-bit length escape
    FF 00) and the data.  [analyse_data] takes one frame off a connection's input
    buffer; [get_login_rsp] and [pack_data] build frames; [pack_post_data] and
    [analyse_post_data] wrap the account checks into HTTP.  Section
    [analyse_req] is generic in the evbuffer implementation. *)

From S2P Require Import Prelude EvbufferApi.
From stdpp Require Import pretty.
#[local] Open Scope Z_scope.

(** ** Data (analyse_req.h) *)

(** tagLoginData: [bev] and [work_thread] are filled in by the connection. *)
Record LoginData := {
  ld_id : Z; ld_token : list byte; ld_work_thread : nat; ld_bev : Z }.

(** tagTransData: a message on its way to [to_id]; [msg_type] 0 forwards the
    data, 1 logs [to_id] off. *)
Record TransData := {
  td_from_id : Z; td_to_id : Z; td_work_thread : nat;
  td_msg_type : Z; td_data_size : Z; td_data : list byte }.

(** [sizeof(TransData)] without its flexible array. *)
Definition sizeof_TransData : Z := 32.

(** The members of AnalyseReq that survive a call. *)
Record AnalyseReq := {
  ar_is_heart : bool; ar_login_data : option LoginData; ar_trans_data : option TransData }.

(** ** Generated protobuf classes used by the code, as an interface *)

Record ReqPacket := {
  rq_mask : Z; rq_udi : list byte; rq_action : list (list byte);
  rq_params : list (list byte); rq_reqno : Z; rq_clientid : Z; rq_rsakeyver : list byte }.

(** What a message's getters return after [ParseFromArray], and the bytes
    [SerializeToArray]/[SerializePartialToString] produce ([ByteSize] is their
    number). *)
Class CometProto := {
  C2SLogin_ParseFromArray : list byte → Z * list byte;
  S2CLogin_Serialize : Z → list byte → Z → list byte;
  OnlineStatus_Serialize : list (list byte) → list byte → list byte;
  ReqCheckTokenByID_Serialize : Z → list byte → list byte;
  ReqCheckRelationByID_Serialize : Z → Z → list byte;
  ReqPacket_Serialize : ReqPacket → list byte;
  RspPacket_Parse_params : list byte → list (list byte);
  RspCheckTokenByID_Parse_rescode : list byte → Z;
  RspCheckRelationByID_Parse_rescode : list byte → Z
}.

Section analyse_req.
Context `{Evbuffer B} `{CometProto}.

(** [analyse_login_pack]: keep the id and the token of a login request. *)
Definition analyse_login_pack (s : AnalyseReq) (data : list byte) : AnalyseReq :=
  let '(id, token) := C2SLogin_ParseFromArray data in
  {| ar_is_heart := ar_is_heart s;
     ar_login_data := Some {| ld_id := u64 id; ld_token := token;
                              ld_work_thread := 0; ld_bev := 0 |};
     ar_trans_data := ar_trans_data s |}.

(** [analyse_pack]: one complete frame of [pack_size] bytes is buffered.  All
    lengths are C [int]s; the byte counts handed to libevent convert to
    [size_t] (or [ev_ssize_t] for pullup). *)
Definition analyse_pack (s : AnalyseReq) (input : B) (head_len data_head_len data_len : Z)
  : outcome (bool * AnalyseReq * B) :=
  let pack_size := i32 (head_len + data_head_len + data_len) in
  let '(pack_bag, input) := evbuffer_pullup input pack_size in
  match pack_bag with
  | None => Val (false, s, input)
  | Some pack_bag =>
    flags ← or_undef OutOfBounds (znth pack_bag 1);
    if negb (Z.land (b2z flags) 0x40 =? 0) then (* forward *)
      (* new unsigned char[sizeof(TransData) + pack_size] *)
      if (u64 (sizeof_TransData + pack_size) <? sizeof_TransData)
         || (u64 (sizeof_TransData + pack_size) >=? 2 ^ 63)
      then Undef OutOfBounds
      else if Zlen pack_bag <? 20 then Undef OutOfBounds
      else
        let to_id := be_dec (ztake 8 (zdrop 12 pack_bag)) in
        let from_id := be_dec (ztake 8 (zdrop 4 pack_bag)) in
        let '(_, data, input) := evbuffer_remove input (u64 pack_size) in
        Val (true,
             {| ar_is_heart := ar_is_heart s; ar_login_data := ar_login_data s;
                ar_trans_data := Some
                  {| td_from_id := from_id; td_to_id := to_id; td_work_thread := 0;
                     td_msg_type := 0; td_data_size := pack_size; td_data := data |} |},
             input)
    else
      p0 ← or_undef OutOfBounds (znth pack_bag head_len);
      p1 ← or_undef OutOfBounds (znth pack_bag (head_len + 1));
      let property_id := Z.lor (Z.shiftl (b2z p0) 8) (b2z p1) in
      if property_id =? 1 then
        let '(_, input) := evbuffer_drain input (u64 pack_size) in Val (true, s, input)
      else if property_id =? 10 then
        if (data_len <? 0) || (head_len + data_head_len + data_len >? Zlen pack_bag)
        then Undef OutOfBounds
        else
          let s := analyse_login_pack s
                     (ztake data_len (zdrop (head_len + data_head_len) pack_bag)) in
          let '(_, input) := evbuffer_drain input (u64 pack_size) in Val (true, s, input)
      else if property_id =? 12 then
        let '(_, input) := evbuffer_drain input (u64 pack_size) in Val (true, s, input)
      else
        let '(_, input) := evbuffer_drain input (u64 pack_size) in Val (false, s, input)
  end.

(** [analyse_data]: look at the bytes received so far and handle one frame;
    [false] when more bytes are needed (or the frame was refused). *)
Definition analyse_data (s : AnalyseReq) (input output : B)
  : outcome (bool * AnalyseReq * B * B) :=
  let buffer_size := i32 (evbuffer_get_length input) in
  let '(data, input) := evbuffer_pullup input 2 in
  match data with
  | None => Val (false, s, input, output)
  | Some data =>
    d0 ← or_undef OutOfBounds (znth data 0);
    d1 ← or_undef OutOfBounds (znth data 1);
    let head_len := Z.land (b2z d0) 0x0F * 4 in
    if negb (Z.land (b2z d1) 0x20 =? 0) then (* heartbeat: echo 4 bytes *)
      let '(_, input, output) := evbuffer_remove_buffer input output 4 in
      Val (true,
           {| ar_is_heart := true; ar_login_data := ar_login_data s;
              ar_trans_data := ar_trans_data s |}, input, output)
    else if buffer_size >? head_len + 5 then
      let '(data, input) := evbuffer_pullup input (head_len + 5) in
      match data with
      | None => Val (false, s, input, output)
      | Some data =>
        l0 ← or_undef OutOfBounds (znth data (head_len + 3));
        l1 ← or_undef OutOfBounds (znth data (head_len + 4));
        if (b2z l0 =? 0xFF) && (b2z l1 =? 0x0) then
          if buffer_size >? head_len + 9 then
            let '(data, input) := evbuffer_pullup input (head_len + 9) in
            match data with
            | None => Val (false, s, input, output)
            | Some data =>
              let data_len := i32 (be_dec (ztake 4 (zdrop (head_len + 5) data))) in
              if buffer_size >=? i32 (head_len + 9 + data_len) then
                '(r, s, input) ← analyse_pack s input head_len 9 data_len;
                Val (r, s, input, output)
              else Val (false, s, input, output)
            end
          else Val (false, s, input, output)
        else
          let data_len := be_dec (ztake 2 (zdrop (head_len + 3) data)) in
          if buffer_size >=? i32 (head_len + 5 + data_len) then
            '(r, s, input) ← analyse_pack s input head_len 5 data_len;
            Val (r, s, input, output)
          else Val (false, s, input, output)
      end
    else Val (false, s, input, output)
  end.

(** [get_login_data], [get_trans_data], [is_heart]: hand over and reset. *)
Definition get_login_data (s : AnalyseReq) : option LoginData * AnalyseReq :=
  (ar_login_data s,
   {| ar_is_heart := ar_is_heart s; ar_login_data := None; ar_trans_data := ar_trans_data s |}).
Definition get_trans_data (s : AnalyseReq) : option TransData * AnalyseReq :=
  (ar_trans_data s,
   {| ar_is_heart := ar_is_heart s; ar_login_data := ar_login_data s; ar_trans_data := None |}).
Definition is_heart (s : AnalyseReq) : bool * AnalyseReq :=
  (ar_is_heart s,
   {| ar_is_heart := false; ar_login_data := ar_login_data s;
      ar_trans_data := ar_trans_data s |}).
End analyse_req.

(** ** Building frames *)

(** [pack_data]: [src] (its first [src_len] bytes) as a server frame in the array
    [des]; returns the array and [des_len].  The code writes property id 12
    whatever [property_id] is, and leaves [des[2]] as it was. *)
Definition pack_data (src : list byte) (src_len property_id : Z) (des : list byte)
  : outcome (list byte * Z) :=
  if Zlen src <? src_len then Undef OutOfBounds else
  let src := ztake src_len src in
  '(des, des_len) ←
    (if src_len >? 0xFF00 then
       des ← poke des 23 [z2b 0xFF];
       des ← poke des 24 [z2b 0x00];
       des ← poke des 25 (be_enc 4 (u32 src_len));
       des ← poke des 29 src;
       Val (des, 20 + 9 + src_len)
     else
       des ← poke des 23 (be_enc 2 (u16 src_len));
       des ← poke des 25 src;
       Val (des, 20 + 5 + src_len));
  des ← poke des 0 [z2b (Z.lor 0x10 (20 / 4))];
  des ← poke des 1 [z2b 0x0];
  des ← poke des 3 [z2b 0x0];
  des ← poke des 20 (be_enc 2 (u16 12));
  des ← poke des 22 [z2b 0x01];
  des ← poke des 4 (replicate 8 (z2b 0));
  des ← poke des 12 (replicate 8 (z2b 0));
  Val (des, des_len).

Section responses.
Context `{CometProto}.

(** [get_login_rsp]: the login answer, code 200 or 401, in a fresh array whose
    bytes are [uninit] before they are written. *)
Definition get_login_rsp (uninit : byte) (is_success : bool) (msg : list byte) (ping_time : Z)
  : outcome (list byte) :=
  let code := if is_success then 200 else 401 in
  let body := S2CLogin_Serialize code msg ping_time in
  let data_size := Zlen body in
  rsp ←
    (if data_size >? 0xFF00 then
       let rsp := replicate (Z.to_nat (20 + 9 + data_size)) uninit in
       rsp ← poke rsp 23 [z2b 0xFF];
       rsp ← poke rsp 24 [z2b 0x00];
       rsp ← poke rsp 25 (be_enc 4 (u32 data_size));
       poke rsp 29 body
     else
       let rsp := replicate (Z.to_nat (20 + 5 + data_size)) uninit in
       rsp ← poke rsp 23 (be_enc 2 (u16 data_size));
       poke rsp 25 body);
  rsp ← poke rsp 0 [z2b (Z.lor 0x10 (20 / 4))];
  rsp ← poke rsp 1 [z2b 0x0];
  rsp ← poke rsp 2 [z2b 0x0];
  rsp ← poke rsp 3 [z2b 0x0];
  rsp ← poke rsp 20 (be_enc 2 (u16 11));
  rsp ← poke rsp 4 (replicate 8 (z2b 0));
  rsp ← poke rsp 12 (replicate 8 (z2b 0));
  poke rsp 22 [z2b 0x01].

(** ** Account checks over HTTP *)

(** A C string: what is before the first NUL byte. *)
Fixpoint c_str (bs : list byte) : list byte :=
  match bs with
  | [] => []
  | b :: bs' => if b2z b =? 0 then [] else b :: c_str bs'
  end.

Definition crlf : list byte := [z2b 13; z2b 10].

(** The request head [sprintf] writes; [%d] of the size prints it as an [int]. *)
Definition http_post (url : list byte) (size : Z) : list byte :=
  bytes_of "POST / HTTP/1.1" ++ crlf ++
  bytes_of "Host:" ++ c_str url ++ crlf ++
  bytes_of "Content-Length:" ++ bytes_of (pretty (i32 size)) ++ crlf ++ crlf.

(** [pack_post_data]: the HTTP request in the array [data] of [cap] bytes.
    [add_params] takes the serialized request as a C string. *)
Definition pack_post_data (cap : Z) (action serialize_str url : list byte)
  : outcome (list byte) :=
  let req :=
    {| rq_mask := 0; rq_udi := bytes_of "ei=1&ai=1&bd=pada"; rq_reqno := 0;
       rq_rsakeyver := bytes_of "1"; rq_clientid := 111;
       rq_action := [action]; rq_params := [c_str serialize_str] |} in
  let body := ReqPacket_Serialize req in
  let head := http_post url (Zlen body) in
  if (Zlen head + 1 >? cap) || (Zlen head + Zlen body >? cap) then Undef OutOfBounds
  else Val (head ++ body).

Definition get_login_post_data (cap id : Z) (token url : list byte) : outcome (list byte) :=
  pack_post_data cap (bytes_of "ReqCheckTokenByID")
    (ReqCheckTokenByID_Serialize (i64 id) token) url.

Definition get_relation_post_data (cap from_id to_id : Z) (url : list byte)
  : outcome (list byte) :=
  pack_post_data cap (bytes_of "ReqCheckRelationByID")
    (ReqCheckRelationByID_Serialize (i64 from_id) (i64 to_id)) url.

(** The backward scan of [analyse_post_data] for the last CR LF, from
    [start_pos]; the array [data] ends with the NUL the caller appended. *)
Fixpoint find_body (fuel : nat) (data : list byte) (start_pos : Z) : outcome Z :=
  match fuel with
  | O => Val start_pos
  | S fuel =>
    c ← or_undef OutOfBounds (znth data start_pos);
    miss ← (if negb (b2z c =? 0x0a) then Val true
            else d ← or_undef OutOfBounds (znth data (start_pos - 1));
                 Val (negb (b2z d =? 0x0d)));
    if miss && (start_pos >? 1) then find_body fuel data (start_pos - 1)
    else Val start_pos
  end.

(** [analyse_post_data]: the [params] of the answer, when there are any. *)
Definition analyse_post_data (data : list byte) (len : Z) : outcome (option (list (list byte))) :=
  start_pos ← find_body (S (Z.to_nat len)) data (len - 1);
  let params :=
    RspPacket_Parse_params (ztake (len - start_pos - 1) (zdrop (start_pos + 1) data)) in
  Val (match params with [] => None | _ => Some params end).

Definition analyse_login_data (data : list byte) (len : Z) : outcome bool :=
  r ← analyse_post_data data len;
  match r with
  | Some (p0 :: _) => Val (RspCheckTokenByID_Parse_rescode p0 =? 0)
  | _ => Val false
  end.

Definition analyse_relation_data (data : list byte) (len : Z) : outcome bool :=
  r ← analyse_post_data data len;
  match r with
  | Some (p0 :: _) => Val (RspCheckRelationByID_Parse_rescode p0 =? 0)
  | _ => Val false
  end.
End responses.

(** ** Any evbuffer implementation behaves like its byte sequence *)

Section refinement.
Context `{EvbufferSpec B} `{CometProto}.

Lemma pullup_agrees b n :
  evb_ok b → Zlen (content b) <= evb_limit → evb_reliable →
  (evbuffer_pullup b n).1 = (evbuffer_pullup (content b) n).1.
Proof.
  intros Hok Hfit Hrel. pose proof (Zlen_nonneg (content b)).
  change (evbuffer_pullup (content b) n) with (list_pullup (content b) n).
  destruct (evbuffer_pullup b n).1 as [bs|] eqn:E.
  - destruct (decide (0 <= n)).
    + apply pullup_some in E as [? ->]; [|done..]. simpl. unfold list_pullup.
      destruct (Z.ltb_spec n 0); [lia|].
      destruct (Z.eqb_spec n 0); [lia|]. simpl.
      destruct (Z.gtb_spec n (Zlen (content b))); [lia|]. done.
    + apply pullup_neg_some in E as [Hne ->]; [|done..|lia]. simpl. unfold list_pullup.
      destruct (Z.ltb_spec n 0); [|lia].
      destruct (Z.eqb_spec (Zlen (content b)) 0) as [E|]; [by apply Zlen_0_inv in E|].
      simpl. destruct (Z.gtb_spec (Zlen (content b)) (Zlen (content b))); [lia|].
      simpl. by rewrite ztake_all by lia.
  - apply pullup_none in E; [|done..]. simpl. unfold list_pullup.
    destruct (Z.ltb_spec n 0); [|].
    + destruct E as [?|[?|E]]; [lia..|]. rewrite E. done.
    + destruct E as [->|[?|E]]; [done| |].
      * destruct (Z.eqb_spec n 0); [done|]. simpl.
        destruct (Z.gtb_spec n (Zlen (content b))); [done|lia].
      * rewrite E. destruct (Z.eqb_spec n 0); [done|]. simpl.
        destruct (Z.gtb_spec n (Zlen (@nil byte))); [done|].
        unfold Zlen in *; simpl in *; lia.
Qed.

(** Replace a pullup on [B] by the pullup on its bytes. *)
Lemma pullup_refines b n :
  evb_ok b → Zlen (content b) <= evb_limit → evb_reliable →
  ∃ b', evbuffer_pullup b n = ((evbuffer_pullup (content b) n).1, b') ∧
        evb_ok b' ∧ content b' = content b ∧
        evbuffer_pullup (content b) n = ((evbuffer_pullup (content b) n).1, content b).
Proof.
  intros Hok Hfit Hrel. rewrite <- (pullup_agrees b n) by done.
  destruct (evbuffer_pullup b n) as [o b'] eqn:E.
  pose proof (pullup_keeps b n Hok Hfit) as [Hok' Hc]. rewrite E in Hok', Hc. simpl in *.
  exists b'. split_and!; [done..|].
  change (evbuffer_pullup (content b) n) with (list_pullup (content b) n).
  rewrite (surjective_pairing (list_pullup (content b) n)).
  f_equal.
  - pose proof (pullup_agrees b n Hok Hfit Hrel) as P. rewrite E in P. simpl in P. by rewrite P.
  - unfold list_pullup. by repeat case_match.
Qed.

Lemma drain_refines b n :
  evb_ok b → 0 <= n →
  ∃ b', evbuffer_drain b n = (0, b') ∧ evb_ok b' ∧ content b' = zdrop n (content b).
Proof.
  intros Hok Hn. destruct (drain_spec b n Hok Hn) as (E & ? & ?).
  destruct (evbuffer_drain b n) as [r b'] eqn:F. simpl in *. subst. eauto.
Qed.

Lemma analyse_pack_refines s input h d l :
  evb_ok input → Zlen (content input) <= evb_limit → evb_reliable →
  match analyse_pack s input h d l with
  | Val (r, s', i') =>
      evb_ok i' ∧ analyse_pack s (content input) h d l = Val (r, s', content i')
  | Undef u => analyse_pack s (content input) h d l = Undef u
  end.
Proof.
  intros Hok Hfit Hrel. unfold analyse_pack.
  set (sz := i32 (h + d + l)).
  destruct (pullup_refines input sz Hok Hfit Hrel) as (i1 & -> & Hok1 & Hc1 & ->).
  destruct (evbuffer_pullup (content input) sz).1 as [bag|]; simpl; [|by rewrite Hc1].
  destruct (znth bag 1) as [fl|]; simpl; [|done].
  pose proof (u64_range sz) as Hu.
  zcase.
  - zcase; [done|]. zcase; [done|].
    destruct (remove_spec i1 (u64 sz) Hok1 ltac:(lia)) as (i2 & -> & Hok2 & Hc2).
    simpl. by rewrite Hc2, Hc1.
  - destruct (drain_refines i1 (u64 sz) Hok1 ltac:(lia)) as (i2 & -> & Hok2 & Hc2).
    rewrite Hc1 in Hc2.
    destruct (znth bag h) as [p0|]; simpl; [|done].
    destruct (znth bag (h + 1)) as [p1|]; simpl; [|done].
    repeat zcase; try done; by rewrite Hc2.
Qed.

Lemma finish_pack s input output h d l :
  evb_ok input → evb_ok output → Zlen (content input) <= evb_limit → evb_reliable →
  match '(r, s', i') ← analyse_pack s input h d l; Val (r, s', i', output) with
  | Val (r, s', i', o') =>
      evb_ok i' ∧ evb_ok o' ∧
      ('(r, s', i') ← analyse_pack s (content input) h d l; Val (r, s', i', content output))
        = Val (r, s', content i', content o')
  | Undef u =>
      ('(r, s', i') ← analyse_pack s (content input) h d l; Val (r, s', i', content output))
        = Undef u
  end.
Proof.
  intros Hok Hoko Hfit Hrel. pose proof (analyse_pack_refines s input h d l Hok Hfit Hrel) as P.
  destruct (analyse_pack s input h d l) as [[[r s'] i']|u]; simpl.
  - destruct P as [? ->]. done.
  - by rewrite P.
Qed.

(** Frame handling does not depend on how the buffers are stored: on any
    evbuffer implementation that keeps the interface's laws, and as long as memory
    lasts, [analyse_data]
    does to the byte sequences exactly what it does on plain byte lists. *)
Lemma analyse_data_refines s input output :
  evb_ok input → evb_ok output → evb_writable output →
  Zlen (content input) <= evb_limit → evb_reliable →
  match analyse_data s input output with
  | Val (r, s', i', o') =>
      evb_ok i' ∧ evb_ok o' ∧
      analyse_data s (content input) (content output) = Val (r, s', content i', content o')
  | Undef u => analyse_data s (content input) (content output) = Undef u
  end.
Proof.
  intros Hok Hoko Hwo Hfit Hrel. unfold analyse_data.
  rewrite get_length_spec by done.
  change (evbuffer_get_length (content input)) with (Zlen (content input)).
  set (bs := i32 (Zlen (content input))).
  destruct (pullup_refines input 2 Hok Hfit Hrel) as (i1 & -> & Hok1 & Hc1 & ->).
  destruct (evbuffer_pullup (content input) 2).1 as [d|]; simpl; [|by rewrite Hc1].
  destruct (znth d 0) as [d0|]; simpl; [|done].
  destruct (znth d 1) as [d1|]; simpl; [|done].
  set (hl := Z.land (b2z d0) 15 * 4).
  zcase.
  { destruct (evbuffer_remove_buffer i1 output 4) as [[r i2] o2] eqn:R.
    apply remove_buffer_spec in R as (? & ? & _ & Hi & Ho); [|done..|by rewrite Hc1|done|done].
    by rewrite Hi, Ho, Hc1. }
  zcase; [|by rewrite Hc1].
  rewrite <- Hc1.
  destruct (pullup_refines i1 (hl + 5) Hok1 ltac:(by rewrite Hc1) Hrel) as (i2 & -> & Hok2 & Hc2 & ->).
  destruct (evbuffer_pullup (content i1) (hl + 5)).1 as [e|]; simpl; [|by rewrite Hc2].
  destruct (znth e (hl + 3)) as [l0|]; simpl; [|done].
  destruct (znth e (hl + 4)) as [l1|]; simpl; [|done].
  rewrite <- Hc2.
  zcase; [zcase; [|done]|].
  - destruct (pullup_refines i2 (hl + 9) Hok2 ltac:(by rewrite Hc2, Hc1) Hrel) as (i3 & -> & Hok3 & Hc3 & ->).
    destruct (evbuffer_pullup (content i2) (hl + 9)).1 as [f|]; simpl; [|by rewrite Hc3].
    rewrite <- Hc3. zcase; [|done]. apply finish_pack; [done..| |done]. congruence.
  - zcase; [|done]. apply finish_pack; [done..| |done]. congruence.
Qed.
End refinement.
