(* ===== verification/Frames.v ===== *)
(** What the frame handling of AnalyseReq does, stated on the wire format: the
    layout of a frame ([wire_frame]), and the theorems about [analyse_data] and
    the frame builders [pack_data] and [get_login_rsp] on byte sequences.
    [decode] is a reference decoder of the wire format; [analyse_data_refines]
    (AnalyseReq) carries what is proved to every evbuffer. *)

From S2P Require Import Prelude EvbufferApi AnalyseReq.

(** ** The frame layout, and what [analyse_data] does on it *)

(** Header of a 20-byte-header frame: version/length, NALU flags, TTL, reserved,
    then the 64-bit source and destination ids. *)
Definition wire_header (flags : Z) (ttl : byte) (from to : Z) : list byte :=
  [z2b 0x15; z2b flags; ttl; z2b 0] ++ be_enc 8 from ++ be_enc 8 to.

(** Data head: property id, format, and the length, escaped when above FF00. *)
Definition wire_data_head (property n : Z) : list byte :=
  be_enc 2 property ++ [z2b 1] ++
  (if n >? 0xFF00 then [z2b 0xFF; z2b 0x00] ++ be_enc 4 n else be_enc 2 n).

Definition wire_frame (flags : Z) (ttl : byte) (from to property : Z) (body : list byte)
  : list byte :=
  wire_header flags ttl from to ++ wire_data_head property (Zlen body) ++ body.

Lemma Zlen_wire_header flags ttl from to : Zlen (wire_header flags ttl from to) = 20.
Proof. unfold wire_header. zlia. Qed.

Lemma Zlen_wire_data_head p n :
  Zlen (wire_data_head p n) = if n >? 0xFF00 then 9 else 5.
Proof. unfold wire_data_head. destruct (n >? 0xFF00); zlia. Qed.

#[export] Hint Rewrite Zlen_wire_header Zlen_wire_data_head : zlen.

Section list_level.
Context `{CometProto}.
Implicit Types (s : AnalyseReq) (inp out : list byte).

Lemma list_pullup_some inp n :
  0 < n <= Zlen inp → evbuffer_pullup inp n = (Some (ztake n inp), inp).
Proof.
  intros. change (evbuffer_pullup inp n) with (list_pullup inp n). unfold list_pullup.
  destruct (Z.ltb_spec n 0); [lia|]. destruct (Z.eqb_spec n 0); [lia|]. simpl.
  destruct (Z.gtb_spec n (Zlen inp)); [lia|done].
Qed.

Lemma list_pullup_none inp n :
  Zlen inp < n → evbuffer_pullup inp n = (None, inp).
Proof.
  intros. pose proof (Zlen_nonneg inp).
  change (evbuffer_pullup inp n) with (list_pullup inp n). unfold list_pullup.
  destruct (Z.ltb_spec n 0); [lia|]. destruct (Z.eqb_spec n 0); [lia|]. simpl.
  destruct (Z.gtb_spec n (Zlen inp)); [done|lia].
Qed.

(** The two header bytes that drive the dispatch. *)
Definition head_len_of (b : byte) : Z := Z.land (b2z b) 0x0F * 4.

Lemma head_len_range b : 0 <= head_len_of b <= 60.
Proof.
  unfold head_len_of. pose proof (Z.land_nonneg (b2z b) 15).
  assert (Z.land (b2z b) 15 = b2z b mod 2 ^ 4) as -> by (by rewrite <- Z.land_ones).
  pose proof (Z.mod_pos_bound (b2z b) (2 ^ 4)). lia.
Qed.

Lemma analyse_data_heart s d0 d1 rest out :
  Z.land (b2z d1) 0x20 ≠ 0 →
  analyse_data s (d0 :: d1 :: rest) out =
    Val (true,
         {| ar_is_heart := true; ar_login_data := ar_login_data s;
            ar_trans_data := ar_trans_data s |},
         zdrop 4 (d0 :: d1 :: rest), out ++ ztake 4 (d0 :: d1 :: rest)).
Proof.
  intros Hb. unfold analyse_data.
  rewrite list_pullup_some by (rewrite !Zlen_cons; zlen_pos; lia).
  simpl. apply Z.eqb_neq in Hb. by rewrite Hb.
Qed.

(** Everything after the length field has been read: the common tail of the
    two length encodings. *)
Lemma analyse_data_short s inp out d0 d1 l0 l1 :
  znth inp 0 = Some d0 → znth inp 1 = Some d1 →
  Z.land (b2z d1) 0x20 = 0 →
  let hl := head_len_of d0 in
  hl + 5 < Zlen inp < 2 ^ 31 →
  znth inp (hl + 3) = Some l0 → znth inp (hl + 4) = Some l1 →
  (b2z l0 =? 0xFF) && (b2z l1 =? 0) = false →
  analyse_data s inp out =
    let n := b2z l0 * 256 + b2z l1 in
    if Zlen inp >=? hl + 5 + n
    then '(r, s, inp) ← analyse_pack s inp hl 5 n; Val (r, s, inp, out)
    else Val (false, s, inp, out).
Proof.
  intros H0 H1 Hb hl Hlen Hl0 Hl1 He. pose proof (head_len_range d0). fold hl in H2.
  unfold analyse_data.
  change (evbuffer_get_length inp) with (Zlen inp). rewrite i32_small by lia.
  rewrite list_pullup_some by lia.
  rewrite !znth_ztake, H0, H1 by lia. simpl.
  change (Z.land (b2z d0) 15 * 4) with hl. rewrite Hb. simpl.
  destruct (Z.gtb_spec (Zlen inp) (hl + 5)); [|lia].
  rewrite list_pullup_some by lia.
  rewrite !znth_ztake, Hl0, Hl1 by lia. simpl. rewrite He.
  rewrite (ztake_zdrop_2 _ (hl + 3) l0 l1)
    by (rewrite znth_ztake; [|lia]; by rewrite <- ?Z.add_assoc).
  unfold be_dec; cbn [be_dec_acc].
  pose proof (b2z_range l0). pose proof (b2z_range l1).
  rewrite (i32_small (hl + 5 + _)) by lia. by rewrite Z.mul_0_l.
Qed.

Lemma analyse_data_long s inp out d0 d1 l0 l1 :
  znth inp 0 = Some d0 → znth inp 1 = Some d1 →
  Z.land (b2z d1) 0x20 = 0 →
  let hl := head_len_of d0 in
  hl + 5 < Zlen inp < 2 ^ 31 →
  znth inp (hl + 3) = Some l0 → znth inp (hl + 4) = Some l1 →
  (b2z l0 =? 0xFF) && (b2z l1 =? 0) = true →
  analyse_data s inp out =
    if Zlen inp >? hl + 9 then
      let n := i32 (be_dec (ztake 4 (zdrop (hl + 5) inp))) in
      if Zlen inp >=? i32 (hl + 9 + n)
      then '(r, s, inp) ← analyse_pack s inp hl 9 n; Val (r, s, inp, out)
      else Val (false, s, inp, out)
    else Val (false, s, inp, out).
Proof.
  intros H0 H1 Hb hl Hlen Hl0 Hl1 He. pose proof (head_len_range d0). fold hl in H2.
  unfold analyse_data.
  change (evbuffer_get_length inp) with (Zlen inp). rewrite i32_small by lia.
  rewrite list_pullup_some by lia.
  rewrite !znth_ztake, H0, H1 by lia. simpl.
  change (Z.land (b2z d0) 15 * 4) with hl. rewrite Hb. simpl.
  destruct (Z.gtb_spec (Zlen inp) (hl + 5)); [|lia].
  rewrite list_pullup_some by lia.
  rewrite !znth_ztake, Hl0, Hl1 by lia. simpl. rewrite He.
  destruct (Z.gtb_spec (Zlen inp) (hl + 9)); [|done].
  rewrite list_pullup_some by lia.
  replace (ztake 4 (zdrop (hl + 5) (ztake (hl + 9) inp)))
    with (ztake 4 (zdrop (hl + 5) inp)); [done|].
  rewrite (ztake_zdrop_comm 4 (hl + 5) inp),
          (ztake_zdrop_comm 4 (hl + 5) (ztake _ inp)) by lia.
  rewrite ztake_ztake. do 2 f_equal. lia.
Qed.

(** One complete frame in the buffer, on the list level. *)
Lemma analyse_pack_bag s inp h d l fl :
  0 <= h → 5 <= d → 0 <= l → h + d + l <= Zlen inp < 2 ^ 31 → znth inp 1 = Some fl →
  analyse_pack s inp h d l =
    let sz := h + d + l in
    let bag := ztake sz inp in
    if negb (Z.land (b2z fl) 0x40 =? 0) then
      if Zlen bag <? 20 then Undef OutOfBounds
      else Val (true,
        {| ar_is_heart := ar_is_heart s; ar_login_data := ar_login_data s;
           ar_trans_data := Some
             {| td_from_id := be_dec (ztake 8 (zdrop 4 bag));
                td_to_id := be_dec (ztake 8 (zdrop 12 bag)); td_work_thread := 0;
                td_msg_type := 0; td_data_size := sz; td_data := bag |} |},
        zdrop sz inp)
    else
      p0 ← or_undef OutOfBounds (znth bag h);
      p1 ← or_undef OutOfBounds (znth bag (h + 1));
      let property_id := Z.lor (Z.shiftl (b2z p0) 8) (b2z p1) in
      if property_id =? 1 then Val (true, s, zdrop sz inp)
      else if property_id =? 10 then
        Val (true, analyse_login_pack s (ztake l (zdrop (h + d) bag)), zdrop sz inp)
      else if property_id =? 12 then Val (true, s, zdrop sz inp)
      else Val (false, s, zdrop sz inp).
Proof.
  intros Hh Hd Hl Hsz Hfl. unfold analyse_pack.
  rewrite (i32_small (h + d + l)) by lia. set (sz := h + d + l).
  rewrite list_pullup_some by lia. cbv zeta. cbn iota beta.
  rewrite (znth_ztake inp sz 1), Hfl by lia. simpl.
  rewrite (u64_small sz) by lia. unfold sizeof_TransData.
  rewrite (u64_small (32 + sz)) by lia.
  destruct (Z.ltb_spec (32 + sz) 32); [lia|]. destruct (Z.geb_spec (32 + sz) (2 ^ 63)); [lia|].
  simpl. zcase; [done|].
  destruct (znth (ztake sz inp) h); [|done].
  destruct (znth (ztake sz inp) (h + 1)); [|done]. simpl.
  rewrite Zlen_ztake.
  destruct (Z.ltb_spec l 0); [lia|].
  destruct (Z.gtb_spec sz (Z.max 0 (Z.min sz (Zlen inp)))); [lia|].
  done.
Qed.

Lemma wire_frame_flag flags ttl from to p body rest :
  znth (wire_frame flags ttl from to p body ++ rest) 1 = Some (z2b flags).
Proof. done. Qed.

(** Bytes of the data head: [i]-th byte after the 20-byte header. *)
Lemma wire_frame_nth flags ttl from to p body rest i :
  0 <= i < 5 →
  znth (wire_frame flags ttl from to p body ++ rest) (20 + i) =
  znth (wire_data_head p (Zlen body)) i.
Proof.
  intros. unfold wire_frame. rewrite <- !(assoc_L (++)).
  rewrite znth_app_r by zlia. rewrite Zlen_wire_header.
  replace (20 + i - 20) with i by lia. apply znth_app_l.
  autorewrite with zlen. destruct (_ >? _); lia.
Qed.

Definition data_head_len (n : Z) : Z := if n >? 0xFF00 then 9 else 5.

Lemma data_head_len_cases n : data_head_len n = 5 ∨ data_head_len n = 9.
Proof. unfold data_head_len. destruct (_ >? _); auto. Qed.

Lemma Zlen_wire_frame flags ttl from to p body :
  Zlen (wire_frame flags ttl from to p body) = 20 + data_head_len (Zlen body) + Zlen body.
Proof. unfold wire_frame, data_head_len. autorewrite with zlen. lia. Qed.

Lemma wire_data_head_short p n : 0 <= n < 0xFF00 →
  ∃ l0 l1, znth (wire_data_head p n) 3 = Some l0 ∧ znth (wire_data_head p n) 4 = Some l1 ∧
    (b2z l0 =? 0xFF) && (b2z l1 =? 0) = false ∧ b2z l0 * 256 + b2z l1 = n.
Proof.
  intros Hn. unfold wire_data_head. destruct (Z.gtb_spec n 0xFF00); [lia|].
  eexists _, _. split; [reflexivity|]. split; [reflexivity|].
  rewrite !b2z_z2b. change (256 ^ Z.of_nat 1) with 256. change (256 ^ Z.of_nat 0) with 1.
  rewrite Z.div_1_r. pose proof (Z.div_mod n 256 ltac:(lia)).
  pose proof (Z.mod_pos_bound n 256 ltac:(lia)).
  assert (n / 256 < 255) by (apply Z.div_lt_upper_bound; lia).
  assert (0 <= n / 256) by (apply Z.div_pos; lia).
  rewrite (Z.mod_small (n / 256)) by lia. split; [|lia].
  destruct (Z.eqb_spec (n / 256) 0xFF); [lia|done].
Qed.

Lemma wire_data_head_long p n k : 0xFF00 < n < 2 ^ 32 →
  znth (wire_data_head p n) 3 = Some (z2b 0xFF) ∧ znth (wire_data_head p n) 4 = Some (z2b 0) ∧
  be_dec (ztake 4 (zdrop 5 (wire_data_head p n ++ k))) = n.
Proof.
  intros Hn. unfold wire_data_head. destruct (Z.gtb_spec n 0xFF00); [|lia].
  split_and!; [done..|].
  change (ztake 4 _) with (be_enc 4 n). apply be_dec_enc. lia.
Qed.

(** The first [m] bytes of a stream that starts with a frame [f]: nothing
    happens before [f] is complete; then [analyse_pack] gets the lengths [f]
    was built from. *)
Lemma analyse_data_stream s flags ttl from to p body rest m out :
  0 <= flags < 256 → Z.land flags 0x20 = 0 → Zlen body ≠ 0xFF00 →
  let f := wire_frame flags ttl from to p body in
  let inp := ztake m (f ++ rest) in
  25 < m <= Zlen (f ++ rest) → m < 2 ^ 31 → Zlen f < 2 ^ 31 →
  analyse_data s inp out =
    if m >=? Zlen f then
      '(r, s', i') ← analyse_pack s inp 20 (data_head_len (Zlen body)) (Zlen body);
      Val (r, s', i', out)
    else Val (false, s, inp, out).
Proof.
  intros Hfl Hheart Hn f inp Hm Hm31 Hf31.
  pose proof (Zlen_nonneg body).
  pose proof (Zlen_wire_frame flags ttl from to p body) as HL. fold f in HL.
  assert (Zlen inp = m) as Hil by (unfold inp; rewrite Zlen_ztake; lia).
  assert (Z.land (b2z (z2b flags)) 0x20 = 0) as Hh by (by rewrite b2z_z2b, Z.mod_small by lia).
  assert (znth inp 0 = Some (z2b 0x15)) as N0 by (by unfold inp; rewrite znth_ztake by lia).
  assert (znth inp 1 = Some (z2b flags)) as N1 by (by unfold inp; rewrite znth_ztake by lia).
  assert (∀ i, 0 <= i < 5 → znth inp (20 + i) = znth (wire_data_head p (Zlen body)) i) as Hnth.
  { intros i Hi. unfold inp. rewrite znth_ztake by lia. by apply wire_frame_nth. }
  pose proof (Hnth 3 ltac:(lia)) as N23. pose proof (Hnth 4 ltac:(lia)) as N24.
  unfold data_head_len in *. destruct (Z.gtb_spec (Zlen body) 0xFF00).
  - destruct (wire_data_head_long p (Zlen body) (body ++ rest)) as (N3 & N4 & ND); [lia|].
    rewrite N3 in N23. rewrite N4 in N24.
    rewrite (analyse_data_long s _ out _ _ _ _ N0 N1 Hh) with (2 := N23) (3 := N24);
      [|change (head_len_of (z2b 0x15)) with 20; lia|done].
    change (head_len_of (z2b 0x15)) with 20. rewrite Hil, HL. cbv zeta.
    destruct (Z.gtb_spec m (20 + 9)); [|by destruct (Z.geb_spec m (20 + 9 + Zlen body)); [lia|]].
    assert (be_dec (ztake 4 (zdrop (20 + 5) inp)) = Zlen body) as ->.
    { etransitivity; [|apply ND]. unfold inp, f, wire_frame. f_equal.
      rewrite ztake_zdrop_comm, ztake_ztake, Z.min_l, <- ztake_zdrop_comm by lia.
      rewrite <- !(assoc_L (++)), zdrop_app_r by zlia. done. }
    by rewrite (i32_small (Zlen body)), (i32_small (20 + 9 + _)) by lia.
  - destruct (wire_data_head_short p (Zlen body)) as (l0 & l1 & N3 & N4 & Hesc & ND); [lia|].
    rewrite N3 in N23. rewrite N4 in N24.
    rewrite (analyse_data_short s _ out _ _ _ _ N0 N1 Hh) with (2 := N23) (3 := N24);
      [|change (head_len_of (z2b 0x15)) with 20; lia|done].
    change (head_len_of (z2b 0x15)) with 20. by rewrite Hil, HL, ND.
Qed.

Lemma analyse_data_frame s flags ttl from to p body rest out :
  0 <= flags < 256 → Z.land flags 0x20 = 0 →
  Zlen body ≠ 0xFF00 → body ++ rest ≠ [] →
  let f := wire_frame flags ttl from to p body in
  Zlen (f ++ rest) < 2 ^ 31 →
  analyse_data s (f ++ rest) out =
    '(r, s', i') ← analyse_pack s (f ++ rest) 20 (data_head_len (Zlen body)) (Zlen body);
    Val (r, s', i', out).
Proof.
  intros Hfl Hheart Hn Hne f Hlen.
  assert (0 < Zlen (body ++ rest)).
  { pose proof (Zlen_nonneg (body ++ rest)).
    destruct (decide (Zlen (body ++ rest) = 0)) as [E|]; [by apply Zlen_0_inv in E|lia]. }
  pose proof (Zlen_wire_frame flags ttl from to p body) as HL. fold f in HL.
  pose proof (data_head_len_cases (Zlen body)).
  rewrite Zlen_app in *. pose proof (Zlen_nonneg rest).
  rewrite <- (ztake_all (Zlen (f ++ rest)) (f ++ rest)) by lia.
  unfold f. rewrite analyse_data_stream; fold f; rewrite ?Zlen_app; [|done|done|done|lia..].
  by destruct (Z.geb_spec (Zlen f + Zlen rest) (Zlen f)); [|lia].
Qed.

Lemma wire_frame_from flags ttl from to p body :
  0 <= from < 2 ^ 64 → be_dec (ztake 8 (zdrop 4 (wire_frame flags ttl from to p body))) = from.
Proof. intros. change (ztake 8 _) with (be_enc 8 from). by apply be_dec_enc. Qed.
Lemma wire_frame_to flags ttl from to p body :
  0 <= to < 2 ^ 64 → be_dec (ztake 8 (zdrop 12 (wire_frame flags ttl from to p body))) = to.
Proof. intros. change (ztake 8 _) with (be_enc 8 to). by apply be_dec_enc. Qed.

(** A complete frame in front of [rest]: the lengths add up. *)
Lemma analyse_pack_frame s flags ttl from to p body rest :
  0 <= flags < 256 →
  let f := wire_frame flags ttl from to p body in
  Zlen (f ++ rest) < 2 ^ 31 →
  analyse_pack s (f ++ rest) 20 (data_head_len (Zlen body)) (Zlen body) =
    if negb (Z.land flags 0x40 =? 0) then
      Val (true,
        {| ar_is_heart := ar_is_heart s; ar_login_data := ar_login_data s;
           ar_trans_data := Some
             {| td_from_id := be_dec (ztake 8 (zdrop 4 f));
                td_to_id := be_dec (ztake 8 (zdrop 12 f)); td_work_thread := 0;
                td_msg_type := 0; td_data_size := Zlen f; td_data := f |} |}, rest)
    else
      let property_id := u16 p in
      if property_id =? 1 then Val (true, s, rest)
      else if property_id =? 10 then Val (true, analyse_login_pack s body, rest)
      else if property_id =? 12 then Val (true, s, rest)
      else Val (false, s, rest).
Proof.
  intros Hfl f Hlen. pose proof (Zlen_nonneg rest). pose proof (Zlen_nonneg body).
  pose proof (Zlen_wire_frame flags ttl from to p body) as HL. fold f in HL.
  pose proof (data_head_len_cases (Zlen body)) as Hd.
  rewrite Zlen_app in Hlen.
  rewrite (analyse_pack_bag s (f ++ rest) 20 _ _ (z2b flags)); [|lia| |lia| |done].
  2: lia.
  2: rewrite Zlen_app; lia.
  cbv zeta. rewrite <- HL, ztake_app_exact, zdrop_app_exact.
  rewrite b2z_z2b, Z.mod_small by lia.
  destruct (Z.ltb_spec (Zlen f) 20); [lia|].
  zcase; [done|].
  change (znth f 20) with (Some (z2b (p / 256 ^ Z.of_nat 1))).
  change (znth f (20 + 1)) with (Some (z2b (p / 256 ^ Z.of_nat 0))).
  cbn [or_undef mbind outcome_bind]. rewrite !b2z_z2b.
  change (256 ^ Z.of_nat 1) with 256. change (256 ^ Z.of_nat 0) with 1. rewrite Z.div_1_r.
  rewrite (lor_shiftl_byte 8 _ (p mod 256)) by (try apply Z.mod_pos_bound; lia).
  assert (p / 256 mod 256 * 2 ^ 8 + p mod 256 = u16 p) as ->.
  { unfold u16. change (2 ^ 16) with (256 * 256). rewrite Z.rem_mul_r by lia. lia. }
  assert (ztake (Zlen body) (zdrop (20 + data_head_len (Zlen body)) f) = body) as ->; [|done].
  unfold f, wire_frame. rewrite (assoc_L (++)), zdrop_app_r.
  - rewrite zdrop_0, ztake_all; [done|lia|].
    autorewrite with zlen. unfold data_head_len. destruct (_ >? _); lia.
  - autorewrite with zlen. unfold data_head_len. destruct (_ >? _); lia.
Qed.

(** ** Properties of the frame parser *)

(** Forwarding: when a frame with the forward flag is complete in the
    input buffer, [analyse_data] extracts exactly that frame with its source
    and destination ids, and leaves the bytes behind it untouched. *)
Lemma analyse_data_forward s flags ttl from to p body rest out :
  0 <= flags < 256 → Z.land flags 0x20 = 0 → Z.land flags 0x40 ≠ 0 →
  0 <= from < 2 ^ 64 → 0 <= to < 2 ^ 64 →
  Zlen body ≠ 0xFF00 → body ++ rest ≠ [] →
  let f := wire_frame flags ttl from to p body in
  Zlen (f ++ rest) < 2 ^ 31 →
  analyse_data s (f ++ rest) out =
    Val (true,
      {| ar_is_heart := ar_is_heart s; ar_login_data := ar_login_data s;
         ar_trans_data := Some
           {| td_from_id := from; td_to_id := to; td_work_thread := 0;
              td_msg_type := 0; td_data_size := Zlen f; td_data := f |} |}, rest, out).
Proof.
  intros Hfl Hh Ht Hf Hto Hn Hne f Hlen. unfold f.
  rewrite analyse_data_frame, analyse_pack_frame by done.
  apply Z.eqb_neq in Ht. rewrite Ht. simpl.
  by rewrite wire_frame_from, wire_frame_to.
Qed.

(** Login: a complete frame with property id 10 hands its data to the
    login parser and is consumed. *)
Theorem analyse_data_login s flags ttl from to body rest out :
  0 <= flags < 256 → Z.land flags 0x60 = 0 →
  Zlen body ≠ 0xFF00 → body ++ rest ≠ [] →
  let f := wire_frame flags ttl from to 10 body in
  Zlen (f ++ rest) < 2 ^ 31 →
  analyse_data s (f ++ rest) out = Val (true, analyse_login_pack s body, rest, out).
Proof.
  intros Hfl Hh Hn Hne f Hlen.
  assert (Z.land flags 0x20 = 0 ∧ Z.land flags 0x40 = 0) as [H20 H40].
  { split; [change 0x20 with (Z.land 0x60 0x20) | change 0x40 with (Z.land 0x60 0x40)];
      by rewrite Z.land_assoc, Hh. }
  unfold f. rewrite analyse_data_frame, analyse_pack_frame by done. by rewrite H40.
Qed.

Lemma analyse_data_few s inp out d0 d1 :
  znth inp 0 = Some d0 → znth inp 1 = Some d1 → Z.land (b2z d1) 0x20 = 0 →
  Zlen inp <= head_len_of d0 + 5 →
  analyse_data s inp out = Val (false, s, inp, out).
Proof.
  intros H0 H1 Hb Hlen. pose proof (head_len_range d0). pose proof (znth_Some _ _ _ H1).
  unfold analyse_data. change (evbuffer_get_length inp) with (Zlen inp).
  rewrite i32_small, list_pullup_some, !znth_ztake, H0, H1 by lia. simpl.
  change (Z.land (b2z d0) 15 * 4) with (head_len_of d0). rewrite Hb. simpl.
  destruct (Z.gtb_spec (Zlen inp) (head_len_of d0 + 5)); [lia|done].
Qed.

(** A frame that has not arrived completely is left alone: on every
    strict prefix [analyse_data] asks for more data and changes nothing. *)
Theorem analyse_data_partial s flags ttl from to p body k out :
  0 <= flags < 256 → Z.land flags 0x20 = 0 → Zlen body ≠ 0xFF00 →
  let f := wire_frame flags ttl from to p body in
  Zlen f < 2 ^ 31 → 0 <= k < Zlen f →
  analyse_data s (ztake k f) out = Val (false, s, ztake k f, out).
Proof.
  intros Hfl Hh Hn f Hlen Hk.
  destruct (decide (k <= 25)).
  - assert (Zlen (ztake k f) = k) as Hkl by (rewrite Zlen_ztake; lia).
    destruct (decide (k < 2)).
    { unfold analyse_data. by rewrite list_pullup_none by lia. }
    apply (analyse_data_few s _ out (z2b 0x15) (z2b flags)).
    + by rewrite znth_ztake by lia.
    + by rewrite znth_ztake by lia.
    + by rewrite b2z_z2b, Z.mod_small by lia.
    + by rewrite Hkl.
  - pose proof (analyse_data_stream s flags ttl from to p body [] k out Hfl Hh Hn) as P.
    cbv zeta in P. fold f in P. rewrite app_nil_r in P. rewrite P by lia.
    by destruct (Z.geb_spec k (Zlen f)); [lia|].
Qed.

(** ** A reference decoder *)

(** The number in the [n] bytes at [i]. *)
Definition field (i n : Z) (bs : list byte) : Z := be_dec (ztake n (zdrop i bs)).

(** The low half of the first byte counts the words of the header; bits of the second byte mark
    heartbeats and messages to forward. *)
Definition header_length (bs : list byte) : Z := 4 * (field 0 1 bs mod 16).
Definition is_heartbeat (bs : list byte) : bool := Z.testbit (field 1 1 bs) 5.
Definition is_forward (bs : list byte) : bool := Z.testbit (field 1 1 bs) 6.

(** Where the data begins and where the frame ends, once the length and a byte behind it are there. *)
Definition frame_extent (bs : list byte) : option (Z * Z) :=
  let h := header_length bs in
  if Zlen bs <=? h + 5 then None
  else if field (h + 3) 2 bs =? 0xFF00 then
    if Zlen bs <=? h + 9 then None else Some (h + 9, h + 9 + field (h + 5) 4 bs)
  else Some (h + 5, h + 5 + field (h + 3) 2 bs).

Definition got_heartbeat (s : AnalyseReq) : AnalyseReq :=
  {| ar_is_heart := true; ar_login_data := ar_login_data s; ar_trans_data := ar_trans_data s |}.
Definition got_message (s : AnalyseReq) (f : list byte) : AnalyseReq :=
  {| ar_is_heart := ar_is_heart s; ar_login_data := ar_login_data s;
     ar_trans_data := Some {| td_from_id := field 4 8 f; td_to_id := field 12 8 f; td_work_thread := 0;
                              td_msg_type := 0; td_data_size := Zlen f; td_data := f |} |}.

(** What is done with the frame [f] whose data is [data]: messages are kept whole, a login is
    parsed, properties 1 and 12 are ignored and all others refused. *)
Definition take_frame (s : AnalyseReq) (f data : list byte) : bool * AnalyseReq :=
  if is_forward f then (true, got_message s f)
  else
    let property := field (header_length f) 2 f in
    if property =? 10 then (true, analyse_login_pack s data) else ((property =? 1) || (property =? 12), s).

Definition decode (s : AnalyseReq) (inp out : list byte) : bool * AnalyseReq * list byte * list byte :=
  if Zlen inp <? 2 then (false, s, inp, out)
  else if is_heartbeat inp then (true, got_heartbeat s, zdrop 4 inp, out ++ ztake 4 inp)
  else
    match frame_extent inp with
    | Some (o, n) =>
        if n <=? Zlen inp then (take_frame s (ztake n inp) (zdrop o (ztake n inp)), zdrop n inp, out)
        else (false, s, inp, out)
    | None => (false, s, inp, out)
    end.

(** Frames of 2^31 bytes or more and messages without their ids are left out. *)
Definition frame_sane (inp : list byte) : Prop :=
  is_heartbeat inp = false → ∀ o n, frame_extent inp = Some (o, n) → n < 2 ^ 31 ∧ (is_forward inp = true → 20 <= n).

Lemma field_1 bs i b : znth bs i = Some b → field i 1 bs = b2z b.
Proof. intros Hb. unfold field. change 1 with (1 + 0). rewrite (ztake_zdrop_cons _ 0 i b) by (done || lia). by rewrite ztake_0 by lia. Qed.

Lemma field_2 bs i b c : znth bs i = Some b → znth bs (i + 1) = Some c → field i 2 bs = b2z b * 256 + b2z c.
Proof. intros Hb Hc. unfold field. by rewrite (ztake_zdrop_2 _ i b c) by done. Qed.

Lemma field_ztake i n m bs : 0 <= i → 0 <= n → i + n <= m → field i n (ztake m bs) = field i n bs.
Proof.
  intros. unfold field. rewrite !(ztake_zdrop_comm n i) by lia. rewrite ztake_ztake. do 3 f_equal. lia.
Qed.

Lemma header_length_eq bs d0 : znth bs 0 = Some d0 → header_length bs = head_len_of d0.
Proof.
  intros H0. unfold header_length, head_len_of. rewrite (field_1 bs 0 d0) by done.
  change 15 with (Z.ones 4). rewrite Z.land_ones by lia. change (2 ^ 4) with 16. lia.
Qed.

Lemma bit_of_land x k : 0 <= k → negb (Z.land x (2 ^ k) =? 0) = Z.testbit x k.
Proof.
  intros Hk. destruct (Z.testbit x k) eqn:E.
  - apply negb_true_iff, Z.eqb_neq. intros Hz. apply (f_equal (λ y, Z.testbit y k)) in Hz.
    rewrite Z.land_spec, E, Z.pow2_bits_true, Z.bits_0 in Hz by done. done.
  - apply negb_false_iff, Z.eqb_eq, Z.bits_inj'. intros n Hn. rewrite Z.land_spec, Z.bits_0.
    destruct (decide (n = k)) as [->|]; [by rewrite E|]. rewrite Z.pow2_bits_false by done. apply andb_false_r.
Qed.

Lemma property_field h f p0 p1 : znth f h = Some p0 → znth f (h + 1) = Some p1 → Z.lor (Z.shiftl (b2z p0) 8) (b2z p1) = field h 2 f.
Proof.
  intros H0 H1. rewrite (field_2 _ _ p0 p1) by done. rewrite lor_shiftl_byte; [done|lia|]. apply b2z_range.
Qed.

(** The tail of [analyse_data] once the length is known. *)
Lemma analyse_pack_decodes s inp h d l d0 d1 :
  znth inp 0 = Some d0 → znth inp 1 = Some d1 → h = head_len_of d0 → 5 <= d → 0 <= l → h + d + l <= Zlen inp < 2 ^ 31 →
  (is_forward inp = true → 20 <= h + d + l) →
  analyse_pack s inp h d l =
    let n := h + d + l in Val (take_frame s (ztake n inp) (zdrop (h + d) (ztake n inp)), zdrop n inp).
Proof.
  intros H0 H1 -> Hd Hl Hsz Hfw. set (h := head_len_of d0) in *. pose proof (head_len_range d0) as Hr. fold h in Hr.
  rewrite (analyse_pack_bag s inp h d l d1) by (done || lia). cbv zeta. set (n := h + d + l) in *.
  assert (Zlen (ztake n inp) = n) as HL by (rewrite Zlen_ztake; lia).
  assert (is_forward (ztake n inp) = is_forward inp) as Hf by (unfold is_forward; by rewrite field_ztake by lia).
  unfold take_frame. rewrite Hf.
  change 0x40 with (2 ^ 6). rewrite bit_of_land by lia. rewrite <- (field_1 inp 1 d1) by done. fold (is_forward inp).
  rewrite HL. destruct (is_forward inp).
  { specialize (Hfw eq_refl). destruct (Z.ltb_spec n 20); [lia|]. unfold got_message. by rewrite HL. }
  assert (header_length (ztake n inp) = h) as -> by (apply header_length_eq; by rewrite znth_ztake by lia).
  destruct (znth_lt (ztake n inp) h ltac:(lia)) as [p0 Hp0].
  destruct (znth_lt (ztake n inp) (h + 1) ltac:(lia)) as [p1 Hp1].
  rewrite Hp0, Hp1. cbn [or_undef mbind outcome_bind]. rewrite (property_field h _ p0 p1) by done.
  assert (ztake l (zdrop (h + d) (ztake n inp)) = zdrop (h + d) (ztake n inp)) as -> by (apply ztake_all; rewrite Zlen_zdrop; lia).
  destruct (Z.eqb_spec (field h 2 (ztake n inp)) 1) as [->|]; [done|].
  destruct (_ =? 10); [done|]. by destruct (_ =? 12).
Qed.

Lemma be_dec_2 (l0 l1 : byte) : b2z l0 * 256 + b2z l1 = 0xFF00 ↔ b2z l0 = 0xFF ∧ b2z l1 = 0.
Proof. pose proof (b2z_range l0). pose proof (b2z_range l1). lia. Qed.

Lemma analyse_data_list s inp out :
  Zlen inp < 2 ^ 31 → frame_sane inp → analyse_data s inp out = Val (decode s inp out).
Proof.
  intros Hlen Hs. unfold decode. destruct (Z.ltb_spec (Zlen inp) 2) as [|H2].
  { unfold analyse_data. by rewrite list_pullup_none by lia. }
  destruct (znth_lt inp 0 ltac:(lia)) as [d0 H0].
  destruct (znth_lt inp 1 ltac:(lia)) as [d1 H1].
  pose proof (header_length_eq _ _ H0) as Hh. set (h := head_len_of d0) in *.
  pose proof (head_len_range d0) as Hr. fold h in Hr.
  unfold frame_sane in Hs. unfold frame_extent in *. rewrite Hh in *.
  assert (is_heartbeat inp = negb (Z.land (b2z d1) 0x20 =? 0)) as Hb.
  { unfold is_heartbeat. rewrite (field_1 _ _ d1) by done. change 0x20 with (2 ^ 5). by rewrite bit_of_land by lia. }
  rewrite Hb in *. destruct (Z.eqb_spec (Z.land (b2z d1) 0x20) 0) as [Hz|Hz]; cbn [negb] in *.
  2: { destruct inp as [|x [|y inp]]; [done|done|].
       cbv in H0, H1. simplify_eq. by rewrite analyse_data_heart by done. }
  specialize (Hs eq_refl). destruct (Z.leb_spec (Zlen inp) (h + 5)).
  { by rewrite (analyse_data_few s inp out d0 d1) by done. }
  destruct (znth_lt inp (h + 3) ltac:(lia)) as [l0 Hl0].
  destruct (znth_lt inp (h + 4) ltac:(lia)) as [l1 Hl1].
  pose proof (b2z_range l0). pose proof (b2z_range l1).
  rewrite (field_2 inp (h + 3) l0 l1) in * by (done || by rewrite <- Z.add_assoc).
  destruct (Z.eqb_spec (b2z l0 * 256 + b2z l1) 0xFF00) as [He|He].
  - apply be_dec_2 in He as [He0 He1].
    rewrite (analyse_data_long s inp out d0 d1 l0 l1) by (done || (fold h; lia) || by rewrite He0, He1).
    fold h. cbv zeta. destruct (Z.gtb_spec (Zlen inp) (h + 9)), (Z.leb_spec (Zlen inp) (h + 9)); try lia; [|done].
    destruct (Hs _ _ eq_refl) as [Hn Hfw]. pose proof (be_dec_bound (ztake 4 (zdrop (h + 5) inp))).
    unfold field in *. rewrite (i32_small (be_dec _)), i32_small by lia.
    destruct (Z.geb_spec (Zlen inp) (h + 9 + be_dec (ztake 4 (zdrop (h + 5) inp)))),
      (Z.leb_spec (h + 9 + be_dec (ztake 4 (zdrop (h + 5) inp))) (Zlen inp)); try lia; [|done].
    rewrite (analyse_pack_decodes s inp h 9 _ d0 d1) by (done || lia). cbv zeta. cbn [mbind outcome_bind]. by destruct (take_frame _ _ _).
  - rewrite (analyse_data_short s inp out d0 d1 l0 l1)
      by (done || (fold h; lia) || (apply not_true_iff_false; rewrite andb_true_iff, !Z.eqb_eq; intros ?%be_dec_2; lia)).
    fold h. cbv zeta. destruct (Hs _ _ eq_refl) as [Hn Hfw].
    destruct (Z.geb_spec (Zlen inp) (h + 5 + (b2z l0 * 256 + b2z l1))),
      (Z.leb_spec (h + 5 + (b2z l0 * 256 + b2z l1)) (Zlen inp)); try lia; [|done].
    rewrite (analyse_pack_decodes s inp h 5 _ d0 d1) by (done || lia). cbv zeta. cbn [mbind outcome_bind]. by destruct (take_frame _ _ _).
Qed.

(** What [analyse_pack] leaves is a proper suffix of its input. *)
Lemma analyse_pack_consumes s inp h d l r s' inp' :
  analyse_pack s inp h d l = Val (r, s', inp') →
  inp' = inp ∧ r = false ∨ ∃ k, 0 < k ∧ inp ≠ [] ∧ inp' = zdrop k inp.
Proof.
  unfold analyse_pack. set (sz := i32 (h + d + l)).
  pose proof (i32_range (h + d + l)) as Hr. fold sz in Hr.
  change (evbuffer_pullup inp sz) with (list_pullup inp sz).
  destruct (list_pullup inp sz) as [[bag|] i1] eqn:E.
  2: { assert (i1 = inp) as -> by (revert E; unfold list_pullup; by repeat case_match; intros; simplify_eq).
       intros [= <- <- <-]. auto. }
  assert (i1 = inp ∧ inp ≠ [] ∧ 0 < u64 sz) as (-> & Hne & Hu).
  { revert E. unfold list_pullup. pose proof (Zlen_nonneg inp).
    destruct (Z.ltb_spec sz 0); zcase; intros; simplify_eq; split_and!; try done.
    - intros ->. done.
    - unfold u64. rewrite <- (Z_mod_plus_full sz 1), Z.mod_small; lia.
    - intros ->. unfold Zlen in *. simpl in *. lia.
    - rewrite u64_small; lia. }
  destruct (znth bag 1) as [fl|]; simpl; [|done].
  assert (∀ n, 0 < n → ∃ k, 0 < k ∧ inp ≠ [] ∧ zdrop n inp = zdrop k inp) by eauto.
  zcase.
  - zcase; [done|]. zcase; [done|]. intros [= <- <- <-]. eauto.
  - destruct (znth bag h); simpl; [|done]. destruct (znth bag (h + 1)); simpl; [|done].
    repeat zcase; intros; simplify_eq; eauto.
Qed.

(** Progress: whenever [analyse_data] reports a handled frame, the input
    buffer got strictly shorter and what is left is its tail, so the read loop
    of a connection cannot spin. *)
Lemma analyse_data_progress s inp out s' inp' out' :
  analyse_data s inp out = Val (true, s', inp', out') →
  Zlen inp' < Zlen inp ∧ ∃ used, inp = used ++ inp'.
Proof.
  intros E. enough (∃ k, 0 < k ∧ inp ≠ [] ∧ inp' = zdrop k inp) as (k & Hk & Hne & ->).
  { rewrite Zlen_zdrop. pose proof (Zlen_nonneg inp). split.
    - enough (Zlen inp ≠ 0) by lia. by intros ?%Zlen_0_inv.
    - exists (ztake k inp). symmetry. apply ztake_zdrop. }
  revert E. unfold analyse_data.
  assert (∀ i n o i', list_pullup i n = (o, i') → i' = i) as Hp.
  { intros i n o i'. unfold list_pullup. by repeat case_match; intros; simplify_eq. }
  assert (∀ h d l o,
    ('(r, s0, i0) ← analyse_pack s inp h d l; Val (r, s0, i0, o)) = Val (true, s', inp', out') →
    ∃ k, 0 < k ∧ inp ≠ [] ∧ inp' = zdrop k inp) as Hpack.
  { intros h d l o. destruct (analyse_pack s inp h d l) as [[[r s0] i0]|] eqn:E; simpl; [|done].
    intros; simplify_eq. by destruct (analyse_pack_consumes _ _ _ _ _ _ _ _ E) as [[_ ?]|?]. }
  change (@evbuffer_pullup _ _) with list_pullup.
  destruct (list_pullup inp 2) as [[d|] i1] eqn:E1; [|done].
  assert (inp ≠ []) as Hne by (intros ->; vm_compute in E1; congruence).
  apply Hp in E1 as ->.
  destruct (znth d 0) as [d0|]; simpl; [|done]. destruct (znth d 1) as [d1|]; simpl; [|done].
  zcase; [cbv [evbuffer_remove_buffer list_evbuffer]; intros; simplify_eq; by exists 4|].
  zcase; [|done].
  destruct (list_pullup inp _) as [[e|] i1] eqn:Ep; [|done]. apply Hp in Ep as ->.
  destruct (znth e (_ + 3)) as [l0|]; simpl; [|done]. destruct (znth e (_ + 4)) as [l1|]; simpl; [|done].
  zcase; [zcase; [|done]|zcase; [|done]; apply Hpack].
  destruct (list_pullup inp _) as [[g|] i1] eqn:Ep; [|done]. apply Hp in Ep as ->.
  zcase; [|done]. apply Hpack.
Qed.
End list_level.

(** C11.  The frame parser implements the wire format, on any evbuffer implementation that keeps the
    interface's laws and while memory lasts: with less than 2^31 bytes buffered, and unless the first
    frame claims 2^31 bytes or more or is a message too short for its ids ([frame_sane]), [analyse_data]
    touches nothing outside the buffer and does to the byte sequences what the reference decoder does:
    heartbeats are echoed, a complete frame is taken off the input with its ids, its login or
    nothing, and an incomplete one waits. *)
Theorem analyse_data_decodes `{EvbufferSpec B} `{CometProto} s (input output : B) :
  evb_ok input → evb_ok output → evb_writable output → evb_reliable → Zlen (content input) < 2 ^ 31 → frame_sane (content input) →
  ∃ r s' input' output', analyse_data s input output = Val (r, s', input', output') ∧ evb_ok input' ∧ evb_ok output' ∧
    decode s (content input) (content output) = (r, s', content input', content output').
Proof.
  intros Hi Ho Hw Hrel Hlen Hs.
  assert (Zlen (content input) <= evb_limit) as Hfit by (etrans; [apply Z.lt_le_incl, Hlen|]; apply evb_limit_int).
  pose proof (analyse_data_refines s input output Hi Ho Hw Hfit Hrel) as P.
  rewrite (analyse_data_list s _ _ Hlen Hs) in P.
  destruct (analyse_data s input output) as [[[[r s'] i'] o']|u]; [|done].
  destruct P as (? & ? & P). apply Val_inj in P. eauto 8.
Qed.

(** ** Building frames and reading them back *)

(** The same store by recursion on the array, which evaluates on arrays whose
    first bytes are known by name. *)
Fixpoint overlay (n : nat) (l src : list byte) : option (list byte) :=
  match n, l with
  | S n', x :: l' => match overlay n' l' src with Some r => Some (x :: r) | None => None end
  | S _, [] => None
  | O, _ =>
      (fix go (l src : list byte) {struct src} : option (list byte) :=
         match src, l with
         | [], _ => Some l
         | y :: src', _ :: l' => match go l' src' with Some r => Some (y :: r) | None => None end
         | _ :: _, [] => None
         end) l src
  end.

Lemma overlay_0 l t src : Zlen l = Zlen src → overlay 0 (l ++ t) src = Some (src ++ t).
Proof.
  revert src. induction l as [|x l IH]; intros [|y src]; unfold Zlen in *; simpl; try lia.
  - by destruct t.
  - intros. specialize (IH src). simpl in IH. rewrite IH by lia. done.
Qed.

Lemma overlay_None n l src : Zlen l < Z.of_nat n + Zlen src → src ≠ [] → overlay n l src = None.
Proof.
  revert l. induction n as [|n IH]; intros l.
  - revert src. induction l as [|x l IHl]; intros [|y src] Hl Hs; try done.
    rewrite !Zlen_cons in Hl. simpl. destruct src as [|z src].
    + pose proof (Zlen_nonneg l). unfold Zlen in *. simpl in *. lia.
    + specialize (IHl (z :: src) ltac:(lia) ltac:(done)). simpl in IHl. by rewrite IHl.
  - destruct l as [|x l]; intros; [done|]. rewrite Zlen_cons in *. simpl. by rewrite IH by (done || lia).
Qed.

Lemma overlay_Some n l src :
  Z.of_nat n + Zlen src <= Zlen l → overlay n l src = Some (splice l (Z.of_nat n) src).
Proof.
  revert l. induction n as [|n IH]; intros l Hl.
  - unfold splice. rewrite ztake_0 by lia. simpl app. pose proof (Zlen_nonneg src).
    rewrite <- (ztake_zdrop (Zlen src) l) at 1. rewrite overlay_0; [done|].
    rewrite Zlen_ztake. lia.
  - destruct l as [|x l]; [pose proof (Zlen_nonneg src); unfold Zlen in *; simpl in *; lia|].
    rewrite Zlen_cons in Hl. cbn [overlay]. rewrite IH by lia.
    unfold splice, ztake, zdrop.
    replace (Z.to_nat (Z.of_nat (S n))) with (S (Z.to_nat (Z.of_nat n))) by lia.
    replace (Z.to_nat (Z.of_nat (S n) + Zlen src))
      with (S (Z.to_nat (Z.of_nat n + Zlen src))) by (pose proof (Zlen_nonneg src); lia).
    done.
Qed.

Lemma poke_overlay l off src :
  0 <= off → src ≠ [] → poke l off src = or_undef OutOfBounds (overlay (Z.to_nat off) l src).
Proof.
  intros Hoff Hs. destruct (decide (off + Zlen src <= Zlen l)).
  - rewrite poke_val, overlay_Some by lia. simpl. do 2 f_equal. lia.
  - rewrite poke_oob, overlay_None by (done || lia). done.
Qed.

(** Name the first [n] bytes of an array known to be long enough. *)
Tactic Notation "uncons" ident(l) integer(n) :=
  do n (destruct l as [|? l]; [exfalso; unfold Zlen in *; simpl in *; lia|]).

(** Evaluate the next store. *)
Ltac poke_step :=
  cbn [be_enc replicate];
  match goal with
  | |- context [poke ?l ?off ?src] =>
      let n := eval vm_compute in (Z.to_nat off) in
      rewrite (poke_overlay l off src) by (lia || done); change (Z.to_nat off) with n;
      cbn [overlay or_undef mbind outcome_bind app]
  end.

(** Store the data part: [Ht] gives the bytes it overwrites. *)
Ltac poke_src Ht t :=
  match goal with
  | |- context [poke ?l ?off ?src] =>
      let n := eval vm_compute in (Z.to_nat off) in
      rewrite (poke_overlay l off src) by (lia || done); change (Z.to_nat off) with n;
      cbn [overlay];
      let Ho := fresh in
      pose proof (overlay_0 _ t src Ht) as Ho; cbn [overlay] in Ho; rewrite Ho; clear Ho;
      cbn [or_undef mbind outcome_bind app]
  end.

Lemma split_src (des src : list byte) :
  Zlen src <= Zlen des → ∃ t1 t2, des = t1 ++ t2 ∧ Zlen t1 = Zlen src.
Proof.
  intros. exists (ztake (Zlen src) des), (zdrop (Zlen src) des).
  rewrite ztake_zdrop, Zlen_ztake. pose proof (Zlen_nonneg src). split; [done|lia].
Qed.

(** [pack_data] builds the frame of [src]: with room in [des] for the
    headers and the data it writes a server frame around [src], keeps the TTL
    byte it found and everything behind the frame, and reports the length. *)
Lemma pack_data_frame src property des ttl :
  let f := wire_frame 0 ttl 0 0 12 src in
  src ≠ [] → Zlen src < 2 ^ 31 → Zlen f <= Zlen des → znth des 2 = Some ttl →
  pack_data src (Zlen src) property des = Val (f ++ zdrop (Zlen f) des, Zlen f).
Proof.
  intros f Hne Hsrc Hdes Httl. unfold f in *. rewrite Zlen_wire_frame in *.
  pose proof (Zlen_nonneg src).
  unfold pack_data. destruct (Z.ltb_spec (Zlen src) (Zlen src)); [lia|].
  rewrite ztake_all by lia. unfold data_head_len, wire_frame, wire_data_head in *.
  destruct (Z.gtb_spec (Zlen src) 0xFF00).
  - uncons des 29. injection Httl as ->. rewrite u32_small by lia.
    destruct (split_src des src) as (t1 & t2 & -> & Ht); [autorewrite with zlen in Hdes; lia|].
    do 3 poke_step. poke_src Ht t2. do 7 poke_step.
    unfold zdrop. replace (Z.to_nat (20 + 9 + Zlen src)) with (29 + length t1)%nat
      by (unfold Zlen in *; lia).
    cbn [drop Nat.add]. rewrite drop_app_length. done.
  - uncons des 25. injection Httl as ->. rewrite (u16_small (Zlen src)) by lia.
    destruct (split_src des src) as (t1 & t2 & -> & Ht); [autorewrite with zlen in Hdes; lia|].
    poke_step. poke_src Ht t2. do 7 poke_step.
    unfold zdrop. replace (Z.to_nat (20 + 5 + Zlen src)) with (25 + length t1)%nat
      by (unfold Zlen in *; lia).
    cbn [drop Nat.add]. rewrite drop_app_length. done.
Qed.

Section built_frames.
Context `{CometProto}.
Implicit Types (s : AnalyseReq) (out : list byte).

(** The login answer is a well-formed frame with property id 11 around the
    serialized S2CLogin message (code 200 or 401), whatever the freshly
    allocated array held before. *)
Lemma get_login_rsp_frame uninit (ok : bool) msg ping_time :
  let body := S2CLogin_Serialize (if ok then 200 else 401) msg ping_time in
  body ≠ [] → Zlen body < 2 ^ 31 →
  get_login_rsp uninit ok msg ping_time = Val (wire_frame 0 (z2b 0) 0 0 11 body).
Proof.
  intros body Hne Hb. unfold get_login_rsp. fold body. pose proof (Zlen_nonneg body).
  unfold wire_frame, wire_data_head. destruct (Z.gtb_spec (Zlen body) 0xFF00).
  - assert (Zlen (replicate (Z.to_nat (20 + 9 + Zlen body)) uninit) = 29 + Zlen body) as Hr
      by (rewrite Zlen_replicate; lia).
    revert Hr. generalize (replicate (Z.to_nat (20 + 9 + Zlen body)) uninit). intros des Hr.
    uncons des 29. autorewrite with zlen in Hr. rewrite u32_small by lia.
    assert (Zlen des = Zlen body) as Hd by lia. rewrite <- (app_nil_r des).
    do 3 poke_step. poke_src Hd (@nil byte). do 8 poke_step. by rewrite app_nil_r.
  - assert (Zlen (replicate (Z.to_nat (20 + 5 + Zlen body)) uninit) = 25 + Zlen body) as Hr
      by (rewrite Zlen_replicate; lia).
    revert Hr. generalize (replicate (Z.to_nat (20 + 5 + Zlen body)) uninit). intros des Hr.
    uncons des 25. autorewrite with zlen in Hr. rewrite (u16_small (Zlen body)) by lia.
    assert (Zlen des = Zlen body) as Hd by lia. rewrite <- (app_nil_r des).
    poke_step. poke_src Hd (@nil byte). do 8 poke_step. by rewrite app_nil_r.
Qed.

(** Where a frame ends and where its data begins, as the decoder sees it. *)
Lemma wire_frame_extent flags ttl from to p body rest :
  Zlen body ≠ 0xFF00 → Zlen body < 2 ^ 31 → body ++ rest ≠ [] →
  let f := wire_frame flags ttl from to p body in
  frame_extent (f ++ rest) = Some (20 + data_head_len (Zlen body), Zlen f) ∧ zdrop (20 + data_head_len (Zlen body)) f = body.
Proof.
  intros Hff Hlt Hne f. pose proof (Zlen_nonneg body) as Hb. pose proof (Zlen_nonneg rest) as Hr.
  assert (0 < Zlen body + Zlen rest) as Hpos.
  { rewrite <- Zlen_app. pose proof (Zlen_nonneg (body ++ rest)).
    destruct (decide (Zlen (body ++ rest) = 0)) as [E|]; [by apply Zlen_0_inv in E|lia]. }
  pose proof (Zlen_wire_frame flags ttl from to p body) as HL. fold f in HL. split.
  - unfold frame_extent. change (header_length (f ++ rest)) with 20. rewrite Zlen_app, HL.
    pose proof (wire_frame_nth flags ttl from to p body rest 3 ltac:(lia)) as N3. fold f in N3.
    pose proof (wire_frame_nth flags ttl from to p body rest 4 ltac:(lia)) as N4. fold f in N4.
    unfold data_head_len in *. destruct (Z.gtb_spec (Zlen body) 0xFF00).
    + destruct (wire_data_head_long p (Zlen body) (body ++ rest)) as (E3 & E4 & ND); [lia|].
      destruct (Z.leb_spec (20 + 9 + Zlen body + Zlen rest) (20 + 5)); [lia|].
      rewrite (field_2 _ (20 + 3) (z2b 0xFF) (z2b 0)) by (try change (20 + 3 + 1) with (20 + 4); congruence).
      rewrite !b2z_z2b. change (255 mod 256 * 256 + 0 mod 256 =? 65280) with true. cbn iota.
      destruct (Z.leb_spec (20 + 9 + Zlen body + Zlen rest) (20 + 9)); [lia|]. do 3 f_equal.
      unfold field. etransitivity; [|apply ND]. do 2 f_equal. unfold f, wire_frame.
      rewrite <- !(assoc_L (++)), zdrop_app_r by zlia. done.
    + destruct (wire_data_head_short p (Zlen body)) as (l0 & l1 & E3 & E4 & _ & ND); [lia|].
      destruct (Z.leb_spec (20 + 5 + Zlen body + Zlen rest) (20 + 5)); [lia|].
      rewrite (field_2 _ (20 + 3) l0 l1) by (try change (20 + 3 + 1) with (20 + 4); congruence).
      rewrite ND. destruct (Z.eqb_spec (Zlen body) 65280); [lia|done].
  - unfold f, wire_frame. rewrite (assoc_L (++)), zdrop_app_r; autorewrite with zlen; unfold data_head_len; destruct (_ >? _); try lia;
      rewrite zdrop_0 by lia; done.
Qed.

(** C38.  Round trip: with room in the array, [pack_data] packs data that is neither empty nor of 0xFF00
    bytes (see [length_ff00_misread] and [empty_frame_waits]); in a buffer of less than 2^31 bytes, whatever follows it, the decoder
    finds one frame with property 12 and exactly this data, and [analyse_data] takes exactly the frame
    off the buffer. *)
Theorem pack_analyse_roundtrip `{CometProto} s src property des ttl rest out :
  src ≠ [] → Zlen src ≠ 0xFF00 → 29 + Zlen src + Zlen rest < 2 ^ 31 →
  29 + Zlen src <= Zlen des → znth des 2 = Some ttl →
  ∃ des' n o, pack_data src (Zlen src) property des = Val (des', n) ∧
    frame_extent (ztake n des' ++ rest) = Some (o, n) ∧ zdrop o (ztake n des') = src ∧ field (header_length des') 2 des' = 12 ∧
    analyse_data s (ztake n des' ++ rest) out = Val (true, s, rest, out).
Proof.
  intros Hne Hff Hlen Hdes Httl. pose proof (Zlen_nonneg rest).
  pose proof (Zlen_wire_frame 0 ttl 0 0 12 src) as HL.
  pose proof (data_head_len_cases (Zlen src)).
  assert (src ++ rest ≠ []) as Hne' by (intros [? _]%app_eq_nil; done).
  destruct (wire_frame_extent 0 ttl 0 0 12 src rest Hff ltac:(lia) Hne') as [E1 E2].
  eexists _, _, _. split; [apply (pack_data_frame src property des ttl); (done || lia)|].
  rewrite ztake_app_exact. split; [exact E1|]. split; [exact E2|]. split; [reflexivity|].
  rewrite analyse_data_frame, analyse_pack_frame; try done; rewrite ?Zlen_app; lia.
Qed.

(** The one length the format cannot carry: data of exactly FF00 bytes is
    packed with the 16-bit length FF 00, which the parser reads as the escape
    to a 32-bit length taken from the data itself; when the data starts with a
    large number, the complete frame is treated as incomplete for ever. *)
Theorem length_ff00_misread s property src out :
  Zlen src = 0xFF00 → 0xFF00 - 4 < be_dec (ztake 4 src) < 2 ^ 31 - 29 →
  let f := wire_frame 0 (z2b 0) 0 0 12 src in
  pack_data src (Zlen src) property (replicate (Z.to_nat (Zlen f)) (z2b 0)) = Val (f, Zlen f) ∧
  analyse_data s f out = Val (false, s, f, out).
Proof.
  intros Hs Hn f.
  assert (Zlen f = 25 + 0xFF00) as Hf.
  { unfold f. rewrite Zlen_wire_frame, Hs. done. }
  split.
  - pose proof (pack_data_frame src property (replicate (Z.to_nat (Zlen f)) (z2b 0)) (z2b 0)) as P.
    cbv zeta in P. fold f in P. rewrite P.
    + rewrite zdrop_all, app_nil_r; [done|]. rewrite Zlen_replicate. lia.
    + intros E. rewrite E in Hs. done.
    + lia.
    + rewrite Zlen_replicate. lia.
    + rewrite Hf. replace (Z.to_nat (25 + 0xFF00)) with (3 + Z.to_nat (22 + 0xFF00))%nat by lia.
      done.
  - assert (wire_data_head 12 (Zlen src) = be_enc 2 12 ++ [z2b 1; z2b 0xFF; z2b 0]) as Hd
      by (by rewrite Hs).
    assert (f = wire_header 0 (z2b 0) 0 0 ++ (be_enc 2 12 ++ [z2b 1; z2b 0xFF; z2b 0]) ++ src)
      as Hf' by (unfold f, wire_frame; by rewrite Hd).
    rewrite (analyse_data_long s f out (z2b 0x15) (z2b 0) (z2b 0xFF) (z2b 0));
      [|by rewrite Hf'|by rewrite Hf'|done| |by rewrite Hf'|by rewrite Hf'|done].
    + change (head_len_of (z2b 0x15)) with 20. rewrite Hf.
      destruct (Z.gtb_spec (25 + 0xFF00) (20 + 9)); [|lia].
      assert (ztake 4 (zdrop (20 + 5) f) = ztake 4 src) as -> by (by rewrite Hf').
      cbv zeta. rewrite (i32_small (be_dec _)), i32_small by lia.
      destruct (Z.geb_spec (25 + 0xFF00) (20 + 9 + be_dec (ztake 4 src))); [lia|done].
    + rewrite Hf. change (head_len_of (z2b 0x15)) with 20. lia.
Qed.

(** A forward frame whose escaped length is negative as an [int] (2^31 and
    above) makes [analyse_pack] allocate the message with a size that has
    wrapped around and write outside it: the lengths of a frame are not
    validated. *)
Theorem negative_length_overflow s flags ttl from to p n rest out :
  0 <= flags < 256 → Z.land flags 0x20 = 0 → Z.land flags 0x40 ≠ 0 →
  2 ^ 31 <= n < 2 ^ 32 - 29 → rest ≠ [] → 29 + Zlen rest < 2 ^ 31 →
  analyse_data s
    (wire_header flags ttl from to ++ be_enc 2 p ++ [z2b 1; z2b 0xFF; z2b 0] ++ be_enc 4 n ++ rest)
    out = Undef OutOfBounds.
Proof.
  intros Hfl Hh Ht Hn Hr Hlen.
  assert (0 < Zlen rest) by (destruct rest; [done|rewrite Zlen_cons; zlen_pos; lia]).
  set (inp := wire_header _ _ _ _ ++ _).
  assert (Zlen inp = 29 + Zlen rest) as HL by (unfold inp; zlia).
  rewrite (analyse_data_long s inp out (z2b 0x15) (z2b flags) (z2b 0xFF) (z2b 0)); try done;
    [|by rewrite b2z_z2b, Z.mod_small by lia
     |change (head_len_of (z2b 0x15)) with 20; lia].
  change (head_len_of (z2b 0x15)) with 20. rewrite HL.
  destruct (Z.gtb_spec (29 + Zlen rest) (20 + 9)); [|lia].
  change (ztake 4 (zdrop (20 + 5) inp)) with (be_enc 4 n).
  rewrite be_dec_enc by (change (256 ^ Z.of_nat 4) with (2 ^ 32); lia).
  assert (i32 n = n - 2 ^ 32) as ->.
  { unfold i32. rewrite <- (Z_mod_plus_full _ (-1)), Z.mod_small by lia. lia. }
  cbv zeta. rewrite (i32_small (20 + 9 + _)) by lia.
  destruct (Z.geb_spec (29 + Zlen rest) (20 + 9 + (n - 2 ^ 32))); [|lia].
  unfold analyse_pack. set (sz := 20 + 9 + (n - 2 ^ 32)) in *. rewrite (i32_small sz) by lia.
  change (evbuffer_pullup inp sz) with (list_pullup inp sz). unfold list_pullup.
  destruct (Z.ltb_spec sz 0); [|lia].
  destruct (Z.eqb_spec (Zlen inp) 0); [lia|]. destruct (Z.gtb_spec (Zlen inp) (Zlen inp)); [lia|].
  cbn [orb]. rewrite ztake_all by lia.
  change (znth inp 1) with (Some (z2b flags)). cbn [or_undef mbind outcome_bind].
  rewrite b2z_z2b, Z.mod_small by lia. apply Z.eqb_neq in Ht. rewrite Ht. cbn [negb].
  unfold sizeof_TransData.
  destruct (Z.ltb_spec (u64 (32 + sz)) 32); [done|].
  destruct (Z.geb_spec (u64 (32 + sz)) (2 ^ 63)); [done|].
  exfalso. unfold u64 in *. destruct (decide (0 <= 32 + sz)).
  - rewrite Z.mod_small in * by lia. lia.
  - rewrite <- (Z_mod_plus_full _ 1), Z.mod_small in * by lia. lia.
Qed.

(** A frame without data is never handled on its own: although all its
    bytes are there, the parser keeps waiting for more. *)
Theorem empty_frame_waits s flags ttl from to p out :
  0 <= flags < 256 → Z.land flags 0x20 = 0 →
  let f := wire_frame flags ttl from to p [] in
  analyse_data s f out = Val (false, s, f, out).
Proof.
  intros Hfl Hh f. apply (analyse_data_few s f out (z2b 0x15) (z2b flags)); try done.
  by rewrite b2z_z2b, Z.mod_small by lia.
Qed.
End built_frames.
