(* ===== verification/Account.v ===== *)
(** The account checks over HTTP (analyse_req.cc: get_login_post_data,
    get_relation_post_data, analyse_login_data, analyse_relation_data): requests
    stay inside the caller's array, and the body of an answer is found behind the
    last CR LF. *)

From S2P Require Import Prelude AnalyseReq.

(** No CR LF pair in the answer's body. *)
Definition no_crlf (body : list byte) : Prop :=
  ∀ i, znth body i = Some (z2b 10) → znth body (i - 1) ≠ Some (z2b 13).

Lemma b2z_eq_z2b b k : 0 <= k < 256 → b2z b = k → b = z2b k.
Proof. intros. apply b2z_inj. rewrite b2z_z2b, Z.mod_small; lia. Qed.

Lemma find_body_step head body tail (k : nat) fuel :
  no_crlf body → Z.of_nat k <= Zlen body → (k < fuel)%nat →
  find_body fuel (head ++ crlf ++ body ++ tail) (Zlen head + 1 + Z.of_nat k)
    = Val (Zlen head + 1).
Proof.
  intros Hno. revert fuel. pose proof (Zlen_nonneg head).
  set (data := head ++ crlf ++ body ++ tail).
  assert (znth data (Zlen head) = Some (z2b 13)) as Ecr.
  { unfold data. rewrite znth_app_r, Z.sub_diag by lia. done. }
  assert (znth data (Zlen head + 1) = Some (z2b 10)) as Elf.
  { unfold data. rewrite znth_app_r by lia.
    replace (Zlen head + 1 - Zlen head) with 1 by lia. done. }
  assert (∀ i, 0 <= i < Zlen body → znth data (Zlen head + 2 + i) = znth body i) as Ebody.
  { intros i Hi. unfold data. rewrite znth_app_r by lia.
    rewrite (assoc_L (++)), <- (assoc_L (++)), znth_app_r by (unfold crlf; zlia).
    rewrite znth_app_l by (unfold crlf; zlia). f_equal. unfold crlf. zlia. }
  induction k as [|k IH]; intros fuel Hk Hf; (destruct fuel as [|fuel]; [lia|]); cbn [find_body].
  - rewrite Z.add_0_r, Elf. cbn [or_undef mbind outcome_bind].
    replace (Zlen head + 1 - 1) with (Zlen head) by lia. by rewrite Ecr.
  - replace (Zlen head + 1 + Z.of_nat (S k)) with (Zlen head + 2 + Z.of_nat k) by lia.
    rewrite Ebody by lia. destruct (znth_lt body (Z.of_nat k) ltac:(lia)) as [c Hc].
    rewrite Hc. cbn [or_undef mbind outcome_bind].
    assert (∃ d, znth data (Zlen head + 2 + Z.of_nat k - 1) = Some d ∧
      (b2z c = 10 → b2z d ≠ 13)) as (d & Hd & Hmiss).
    { destruct k as [|k].
      - replace (Zlen head + 2 + Z.of_nat 0 - 1) with (Zlen head + 1) by lia. rewrite Elf. by eauto.
      - replace (Zlen head + 2 + Z.of_nat (S k) - 1) with (Zlen head + 2 + Z.of_nat k) by lia.
        rewrite Ebody by lia. destruct (znth_lt body (Z.of_nat k) ltac:(lia)) as [d Hd].
        exists d. split; [done|]. intros Ec Ed.
        apply (Hno (Z.of_nat (S k))); [by rewrite Hc, (b2z_eq_z2b c 10)|].
        replace (Z.of_nat (S k) - 1) with (Z.of_nat k) by lia. by rewrite Hd, (b2z_eq_z2b d 13). }
    rewrite Hd. cbn [or_undef mbind outcome_bind].
    assert ((if negb (b2z c =? 10) then Val true else Val (negb (b2z d =? 13))) = Val true) as ->.
    { destruct (Z.eqb_spec (b2z c) 10); [|done]. simpl.
      destruct (Z.eqb_spec (b2z d) 13); [by exfalso; apply Hmiss|done]. }
    cbn [mbind outcome_bind].
    destruct (Z.gtb_spec (Zlen head + 2 + Z.of_nat k) 1); [|lia]. cbn [andb].
    replace (Zlen head + 2 + Z.of_nat k - 1) with (Zlen head + 1 + Z.of_nat k) by lia.
    apply IH; lia.
Qed.

Section account.
Context `{CometProto}.

(** The answer to an account check is parsed from exactly the bytes behind
    the last CR LF: with a head ending in CR LF and a body without that pair,
    [analyse_post_data] yields the parameters of the body (and terminates). *)
Theorem analyse_post_data_body head body :
  no_crlf body →
  let data := head ++ crlf ++ body in
  analyse_post_data (data ++ [z2b 0]) (Zlen data) =
    Val (match RspPacket_Parse_params body with [] => None | ps => Some ps end).
Proof.
  intros Hno data. unfold analyse_post_data.
  assert (Zlen data = Zlen head + 2 + Zlen body) as HL by (unfold data, crlf; zlia).
  pose proof (Zlen_nonneg head). pose proof (Zlen_nonneg body).
  pose proof (find_body_step head body [z2b 0] (Z.to_nat (Zlen body))
                (S (Z.to_nat (Zlen data))) Hno ltac:(lia) ltac:(lia)) as P.
  replace (data ++ [z2b 0]) with (head ++ crlf ++ body ++ [z2b 0])
    by (unfold data; by rewrite <- !(assoc_L (++))).
  replace (Zlen data - 1) with (Zlen head + 1 + Z.of_nat (Z.to_nat (Zlen body))) by lia.
  rewrite P. cbn [mbind outcome_bind].
  replace (ztake (Zlen data - (Zlen head + 1) - 1) _) with body; [by destruct (RspPacket_Parse_params body)|].
  rewrite (assoc_L (++)), zdrop_app_r by (unfold crlf; zlia).
  rewrite zdrop_0 by (unfold crlf; zlia).
  replace (Zlen data - (Zlen head + 1) - 1) with (Zlen body) by lia.
  by rewrite ztake_app_exact.
Qed.

Lemma c_str_id bs : (∀ b, b ∈ bs → b2z b ≠ 0) → c_str bs = bs.
Proof.
  induction bs as [|b bs IH]; intros Hb; [done|]. simpl.
  destruct (Z.eqb_spec (b2z b) 0) as [E|]; [by apply Hb in E; [|left]|].
  f_equal. apply IH. intros. apply Hb. by right.
Qed.

(** The request is built in an array of 1024 bytes (http_login_event)
    without looking at the length of the client's token: when the serialized
    check is 1024 bytes or longer, the builder writes past the array. *)
Theorem login_request_overflow id token url :
  (∀ r p, p ∈ rq_params r → Zlen p <= Zlen (ReqPacket_Serialize r)) →
  let check := ReqCheckTokenByID_Serialize (i64 id) token in
  (∀ b, b ∈ check → b2z b ≠ 0) → 1024 <= Zlen check →
  get_login_post_data 1024 id token url = Undef OutOfBounds.
Proof.
  intros Hser check Hnul Hlen. unfold get_login_post_data, pack_post_data. fold check.
  set (req := {| rq_mask := 0 |}).
  assert (Zlen check <= Zlen (ReqPacket_Serialize req)).
  { apply Hser. simpl. rewrite c_str_id by done. by left. }
  set (head := http_post _ _).
  assert (0 < Zlen head).
  { unfold head, http_post. rewrite Zlen_app.
    change (Zlen (bytes_of "POST / HTTP/1.1")) with 15. zlen_pos. lia. }
  destruct (Z.gtb_spec (Zlen head + Zlen (ReqPacket_Serialize req)) 1024); [|lia].
  by rewrite orb_true_r.
Qed.
End account.
