(* ===== verification/WorkThread.v ===== *)
(** The worker threads of the server: src/core/work_thread.{h,cc},
    work_thread-inl.h and subscriber.{h,cc}.

    [WorkThread] is the state of one thread (the two pipes that wake it up, the
    maps from ids to subscribers and from connections to ids, the redis commands
    it has issued); [World] is all threads, the live bufferevents and the clock.
    Every libevent/hiredis callback of the class is a function on [World]; an
    access the program must not make is [Undef].  Connections hold byte lists for
    their evbuffers (AnalyseReq, [analyse_data_refines]). *)

From S2P Require Import Prelude EvbufferApi AnalyseReq.
From stdpp Require Import pretty.
#[local] Open Scope Z_scope.

(** ** Subscriber (subscriber.h) *)

Record Subscriber := { sub_last_heartbeat_time : Z; sub_id : Z; sub_bev : Z }.

(** [now] is what gettimeofday returns, [None] when it fails. *)
Definition update_heartbeat (now : option Z) (s : Subscriber) : Subscriber :=
  match now with
  | Some now => {| sub_last_heartbeat_time := now; sub_id := sub_id s; sub_bev := sub_bev s |}
  | None => s
  end.

Definition set_id_bev (now : option Z) (id bev : Z) : Subscriber :=
  update_heartbeat now {| sub_last_heartbeat_time := 0; sub_id := i64 id; sub_bev := bev |}.

Definition is_valid (s : Subscriber) : bool := negb (sub_id s =? 0).

(** ** Redis replies and the commands a thread has issued *)

Inductive redisReply :=
  | ReplyString (str : list byte)
  | ReplyArray (elements : list (list byte))
  | ReplyInteger (n : Z)
  | ReplyNil
  | ReplyStatus (str : list byte)
  | ReplyError (str : list byte).

(** [reply->str]. *)
Definition reply_str (r : redisReply) : option (list byte) :=
  match r with
  | ReplyString s | ReplyStatus s | ReplyError s => Some s
  | _ => None
  end.

Record OnlineInfo := { oi_id : Z; oi_bev : Z; oi_work_thread : nat }.
Record OfflineInfo := { fi_id : Z; fi_work_thread : nat }.

Inductive RedisCmd :=
  | GET_sToken (key : Z) (privdata : LoginData)
  | ZSCORE_ssUD (from_id to_id : Z) (privdata : TransData)
  | ZRANGE_online (id : Z) (privdata : OnlineInfo)
  | ZRANGE_offline (id : Z) (privdata : OfflineInfo).

(** ** Threads, bufferevents, world *)

Record WorkThread := {
  wt_conn_num : Z;
  wt_ping_time : Z;
  wt_http_url : list byte;
  wt_new_conn_fd : list Z;         (** ints waiting in the connection pipe *)
  wt_new_msg_fd : list TransData;  (** messages waiting in the message pipe *)
  wt_sub_map : gmap Z Subscriber;  (** id to subscriber *)
  wt_bev_id : gmap Z Z;            (** bufferevent to id, 0 before login *)
  wt_analyse_req : AnalyseReq;
  wt_cmds : list RedisCmd;
  wt_stopped : bool }.

(** The last argument a bufferevent's callbacks are registered with. *)
Inductive BevCtx :=
  | CtxThread (t : nat) | CtxLogin (ld : LoginData) | CtxTrans (td : TransData).

Record Bev := { bev_input : list byte; bev_output : list byte; bev_ctx : BevCtx }.

Record World := { w_threads : list WorkThread; w_bevs : gmap Z Bev; w_now : option Z }.

(** What the environment decides during a callback: the address of a new
    bufferevent, whether [connect] starts, the bytes of uninitialised memory. *)
Record Env := { env_ptr : Z; env_connect : bool; env_uninit : byte }.

(** Field updates. *)
Definition set_conn_num (n : Z) (t : WorkThread) : WorkThread :=
  {| wt_conn_num := n; wt_ping_time := wt_ping_time t; wt_http_url := wt_http_url t;
     wt_new_conn_fd := wt_new_conn_fd t; wt_new_msg_fd := wt_new_msg_fd t;
     wt_sub_map := wt_sub_map t; wt_bev_id := wt_bev_id t;
     wt_analyse_req := wt_analyse_req t; wt_cmds := wt_cmds t; wt_stopped := wt_stopped t |}.
Definition set_new_conn_fd (p : list Z) (t : WorkThread) : WorkThread :=
  {| wt_conn_num := wt_conn_num t; wt_ping_time := wt_ping_time t; wt_http_url := wt_http_url t;
     wt_new_conn_fd := p; wt_new_msg_fd := wt_new_msg_fd t;
     wt_sub_map := wt_sub_map t; wt_bev_id := wt_bev_id t;
     wt_analyse_req := wt_analyse_req t; wt_cmds := wt_cmds t; wt_stopped := wt_stopped t |}.
Definition set_new_msg_fd (p : list TransData) (t : WorkThread) : WorkThread :=
  {| wt_conn_num := wt_conn_num t; wt_ping_time := wt_ping_time t; wt_http_url := wt_http_url t;
     wt_new_conn_fd := wt_new_conn_fd t; wt_new_msg_fd := p;
     wt_sub_map := wt_sub_map t; wt_bev_id := wt_bev_id t;
     wt_analyse_req := wt_analyse_req t; wt_cmds := wt_cmds t; wt_stopped := wt_stopped t |}.
Definition set_maps (sm : gmap Z Subscriber) (bi : gmap Z Z) (t : WorkThread) : WorkThread :=
  {| wt_conn_num := wt_conn_num t; wt_ping_time := wt_ping_time t; wt_http_url := wt_http_url t;
     wt_new_conn_fd := wt_new_conn_fd t; wt_new_msg_fd := wt_new_msg_fd t;
     wt_sub_map := sm; wt_bev_id := bi;
     wt_analyse_req := wt_analyse_req t; wt_cmds := wt_cmds t; wt_stopped := wt_stopped t |}.
Definition set_sub_map (sm : gmap Z Subscriber) (t : WorkThread) : WorkThread :=
  set_maps sm (wt_bev_id t) t.
Definition set_bev_id (bi : gmap Z Z) (t : WorkThread) : WorkThread :=
  set_maps (wt_sub_map t) bi t.
Definition set_analyse_req (a : AnalyseReq) (t : WorkThread) : WorkThread :=
  {| wt_conn_num := wt_conn_num t; wt_ping_time := wt_ping_time t; wt_http_url := wt_http_url t;
     wt_new_conn_fd := wt_new_conn_fd t; wt_new_msg_fd := wt_new_msg_fd t;
     wt_sub_map := wt_sub_map t; wt_bev_id := wt_bev_id t;
     wt_analyse_req := a; wt_cmds := wt_cmds t; wt_stopped := wt_stopped t |}.
Definition set_cmds (c : list RedisCmd) (t : WorkThread) : WorkThread :=
  {| wt_conn_num := wt_conn_num t; wt_ping_time := wt_ping_time t; wt_http_url := wt_http_url t;
     wt_new_conn_fd := wt_new_conn_fd t; wt_new_msg_fd := wt_new_msg_fd t;
     wt_sub_map := wt_sub_map t; wt_bev_id := wt_bev_id t;
     wt_analyse_req := wt_analyse_req t; wt_cmds := c; wt_stopped := wt_stopped t |}.
Definition set_stopped (t : WorkThread) : WorkThread :=
  {| wt_conn_num := wt_conn_num t; wt_ping_time := wt_ping_time t; wt_http_url := wt_http_url t;
     wt_new_conn_fd := wt_new_conn_fd t; wt_new_msg_fd := wt_new_msg_fd t;
     wt_sub_map := wt_sub_map t; wt_bev_id := wt_bev_id t;
     wt_analyse_req := wt_analyse_req t; wt_cmds := wt_cmds t; wt_stopped := true |}.

(** [redisAsyncCommand] on the thread's context. *)
Definition redisAsyncCommand (c : RedisCmd) (t : WorkThread) : WorkThread :=
  set_cmds (wt_cmds t ++ [c]) t.

Definition set_thread (j : nat) (t : WorkThread) (w : World) : World :=
  {| w_threads := <[j := t]> (w_threads w); w_bevs := w_bevs w; w_now := w_now w |}.
Definition set_bevs (b : gmap Z Bev) (w : World) : World :=
  {| w_threads := w_threads w; w_bevs := b; w_now := w_now w |}.

(** The [WorkThread *] a callback was registered with. *)
Definition get_thread (w : World) (j : nat) : outcome WorkThread :=
  or_undef NullDeref (w_threads w !! j).

(** [bufferevent_free], [bufferevent_get_output] + [evbuffer_add]. *)
Definition bufferevent_free (b : Z) (w : World) : outcome World :=
  match w_bevs w !! b with
  | Some _ => Val (set_bevs (delete b (w_bevs w)) w)
  | None => Undef UseAfterFree
  end.
Definition bev_write (b : Z) (data : list byte) (w : World) : outcome World :=
  match w_bevs w !! b with
  | Some be =>
      Val (set_bevs (<[b := {| bev_input := bev_input be;
                               bev_output := (evbuffer_add (bev_output be) data).2;
                               bev_ctx := bev_ctx be |}]> (w_bevs w)) w)
  | None => Undef UseAfterFree
  end.

(** Decimal text: [sprintf("%ld")] and [atoll]. *)
Definition print_ld (z : Z) : list byte := bytes_of (pretty (i64 z)).

Definition is_space (c : Z) : bool := (c =? 32) || ((9 <=? c) && (c <=? 13)).
Fixpoint atoll_digits (acc : Z) (bs : list byte) : Z :=
  match bs with
  | b :: bs' =>
      if (48 <=? b2z b) && (b2z b <=? 57) then atoll_digits (acc * 10 + (b2z b - 48)) bs' else acc
  | [] => acc
  end.
Fixpoint atoll (bs : list byte) : Z :=
  match bs with
  | b :: bs' =>
      if is_space (b2z b) then atoll bs'
      else if b2z b =? 45 then i64 (- atoll_digits 0 bs')
      else if b2z b =? 43 then i64 (atoll_digits 0 bs')
      else i64 (atoll_digits 0 bs)
  | [] => 0
  end.

Section callbacks.
Context `{CometProto}.
(** Capacity of the two pipes, in entries: a write to a full non-blocking pipe
    fails. *)
Context (conn_cap msg_cap : nat).

(** ** Calls between threads (work_thread-inl.h and work_thread.cc) *)

Definition check_id_is_online (id : Z) (t : WorkThread) : bool :=
  bool_decide (is_Some (wt_sub_map t !! id)).

Definition notify_new_conn (fd : Z) (t : WorkThread) : bool * WorkThread :=
  if (length (wt_new_conn_fd t) <? conn_cap)%nat
  then (true, set_new_conn_fd (wt_new_conn_fd t ++ [fd]) t)
  else (false, t).

(** The [do ... while (res == EAGAIN)] around [write] runs once: [write] returns
    8 or -1, never the value of EAGAIN. *)
Definition notify_new_msg (td : TransData) (t : WorkThread) : bool * WorkThread :=
  match wt_sub_map t !! td_to_id td with
  | Some _ =>
      if (length (wt_new_msg_fd t) <? msg_cap)%nat
      then (true, set_new_msg_fd (wt_new_msg_fd t ++ [td]) t)
      else (false, t)
  | None => (false, t)
  end.

Definition notify_del_id (id : Z) (t : WorkThread) : WorkThread :=
  if check_id_is_online id t then
    (notify_new_msg {| td_from_id := 0; td_to_id := id; td_work_thread := 0;
                       td_msg_type := 1; td_data_size := 0; td_data := [] |} t).2
  else t.

(** The loop of [send_message], [redis_trans_callback] and [http_trans_read]:
    the first thread that takes the message. *)
Fixpoint send_first (td : TransData) (ts : list WorkThread) : bool * list WorkThread :=
  match ts with
  | [] => (false, [])
  | t :: ts' =>
      let '(ok, t') := notify_new_msg td t in
      if ok then (true, t' :: ts')
      else let '(ok', ts'') := send_first td ts' in (ok', t' :: ts'')
  end.

Definition send_message (td : TransData) (w : World) : bool * World :=
  let '(ok, ts) := send_first td (w_threads w) in
  (ok, {| w_threads := ts; w_bevs := w_bevs w; w_now := w_now w |}).

(** ** Pipe callbacks *)

(** The value of a computation in [int]. *)
Definition int_val (z : Z) : outcome Z := if (- 2 ^ 31 <=? z) && (z <? 2 ^ 31) then Val z else Undef Overflow.

(** One iteration of [del_expire_client]: the connection [b]. *)
Definition expire_one (j : nat) (now b : Z) (w : World) : outcome World :=
  t ← get_thread w j;
  match wt_bev_id t !! b with
  | None => Val w
  | Some id =>
    match wt_sub_map t !! id with
    | Some sub =>
      limit ← int_val (2 * wt_ping_time t);
      if now - sub_last_heartbeat_time sub >? limit then
        w ← bufferevent_free b w;
        let t := set_maps (delete id (wt_sub_map t)) (delete b (wt_bev_id t)) t in
        let t := set_conn_num (wt_conn_num t - 1) t in
        let t := if negb (id =? 0) then
                   redisAsyncCommand
                     (ZRANGE_offline id {| fi_id := id; fi_work_thread := j |}) t
                 else t in
        Val (set_thread j t w)
      else Val w
    | None => Val w
    end
  end.

(** [del_expire_client] visits the connections in the map's iteration order,
    which is the environment's; nothing is done when gettimeofday fails. *)
Fixpoint expire_loop (j : nat) (now : Z) (order : list Z) (w : World) : outcome World :=
  match order with
  | [] => Val w
  | b :: order' => w ← expire_one j now b w; expire_loop j now order' w
  end.

Definition del_expire_client (j : nat) (order : list Z) (w : World) : outcome World :=
  match w_now w with Some now => expire_loop j now order w | None => Val w end.

Definition new_connection (j : nat) (ptr : Z) (w : World) : outcome World :=
  t ← get_thread w j;
  let w := set_bevs (<[ptr := {| bev_input := []; bev_output := []; bev_ctx := CtxThread j |}]>
                       (w_bevs w)) w in
  let bi := match wt_bev_id t !! ptr with
            | Some _ => wt_bev_id t        (* unordered_map::insert keeps *)
            | None => <[ptr := 0]> (wt_bev_id t)
            end in
  Val (set_thread j (set_conn_num (wt_conn_num t + 1) (set_bev_id bi t)) w).

(** [notify_new_conn_callback]: [read] is evaluated before [i < 10], so the
    entry read by the last test is gone.  [ptrs] are the addresses of the new
    bufferevents, [order] the iteration order of a timeout sweep. *)
Fixpoint notify_new_conn_loop (j : nat) (pipe : list Z) (i : nat) (ptrs order : list Z)
    (w : World) : outcome (list Z * World) :=
  match pipe with
  | [] => Val ([], w)
  | data :: pipe =>
    if (i <? 10)%nat then
      if data >? 0 then
        w ← new_connection j (hd 0 ptrs) w;
        notify_new_conn_loop j pipe (S i) (tl ptrs) order w
      else if data =? -1 then
        t ← get_thread w j;
        Val (pipe, set_thread j (set_stopped t) w)
      else if data =? -2 then
        w ← del_expire_client j order w;
        notify_new_conn_loop j pipe (S i) ptrs order w
      else notify_new_conn_loop j pipe (S i) ptrs order w
    else Val (pipe, w)
  end.

Definition notify_new_conn_callback (j : nat) (ptrs order : list Z) (w : World)
  : outcome World :=
  t ← get_thread w j;
  '(pipe, w) ← notify_new_conn_loop j (wt_new_conn_fd t) 0 ptrs order w;
  t ← get_thread w j;
  Val (set_thread j (set_new_conn_fd pipe t) w).

(** One message of [notify_new_msg_callback]. *)
Definition handle_msg (j : nat) (td : TransData) (w : World) : outcome World :=
  t ← get_thread w j;
  if td_msg_type td =? 0 then
    match wt_sub_map t !! td_to_id td with
    | Some sub => bev_write (sub_bev sub) (ztake (td_data_size td) (td_data td)) w
    | None => Val w
    end
  else if td_msg_type td =? 1 then
    match wt_sub_map t !! td_to_id td with
    | Some sub =>
        match wt_bev_id t !! sub_bev sub with
        | Some _ =>
            w ← bufferevent_free (sub_bev sub) w;
            Val (set_thread j
                   (set_maps (delete (td_to_id td) (wt_sub_map t))
                             (delete (sub_bev sub) (wt_bev_id t)) t) w)
        | None => Undef BadErase    (* erase(end()) *)
        end
    | None => Val w
    end
  else Undef AssertFail.

Fixpoint handle_msgs (j : nat) (pipe : list TransData) (w : World) : outcome World :=
  match pipe with
  | [] => Val w
  | td :: pipe => w ← handle_msg j td w; handle_msgs j pipe w
  end.

Definition notify_new_msg_callback (j : nat) (w : World) : outcome World :=
  t ← get_thread w j;
  handle_msgs j (wt_new_msg_fd t) (set_thread j (set_new_msg_fd [] t) w).

(** ** Connection callbacks *)

Definition ID_HIGH : Z := 0xFFFF000000000000.
Definition ID_LOW : Z := 0x0000FFFFFFFFFFFF.

(** The three parts of the read loop after [analyse_data] returned true: hand a
    login request to redis, refresh the heartbeat, route a message. *)
Definition frame_login (j : nat) (b : Z) (t : WorkThread) : WorkThread :=
  let '(login_data, ar) := get_login_data (wt_analyse_req t) in
  let t := set_analyse_req ar t in
  match login_data with
  | Some ld =>
      redisAsyncCommand
        (GET_sToken (Z.land (ld_id ld) ID_LOW)
           {| ld_id := ld_id ld; ld_token := ld_token ld;
              ld_work_thread := j; ld_bev := b |}) t
  | None => t
  end.

Definition frame_heart (now : option Z) (id : Z) (t : WorkThread) : WorkThread :=
  let '(heart, ar) := is_heart (wt_analyse_req t) in
  let t := set_analyse_req ar t in
  if heart && negb (id =? 0) then
    match wt_sub_map t !! id with
    | Some sub => set_sub_map (<[id := update_heartbeat now sub]> (wt_sub_map t)) t
    | None => t
    end
  else t.

Definition frame_trans (j : nat) (id : Z) (t : WorkThread) (w : World) : World :=
  let '(trans_data, ar) := get_trans_data (wt_analyse_req t) in
  let t := set_analyse_req ar t in
  match trans_data with
  | Some td =>
      let td := {| td_from_id := td_from_id td; td_to_id := td_to_id td; td_work_thread := j;
                   td_msg_type := 0; td_data_size := td_data_size td; td_data := td_data td |} in
      if negb (id =? 0) && (id =? td_from_id td) then
        if negb (Z.land id ID_HIGH =? 0) || negb (Z.land (td_to_id td) ID_HIGH =? 0)
        then (send_message td (set_thread j t w)).2
        else set_thread j
               (redisAsyncCommand (ZSCORE_ssUD (td_from_id td) (td_to_id td) td) t) w
      else set_thread j t w
  | None => set_thread j t w
  end.

Definition after_frame (j : nat) (b id : Z) (w : World) : outcome World :=
  t ← get_thread w j;
  Val (frame_trans j id (frame_heart (w_now w) id (frame_login j b t)) w).

(** [while (len > 3)] of [bufferevent_read_callback]; every round takes at least
    one byte off the input ([analyse_data_progress]), so that one round more than
    there are bytes is enough; running out of them is [Undef Hang]. *)
Fixpoint read_loop (fuel : nat) (j : nat) (b id : Z) (w : World) : outcome World :=
  match fuel with
  | O => Undef Hang
  | S fuel =>
    be ← or_undef UseAfterFree (w_bevs w !! b);
    if evbuffer_get_length (bev_input be) >? 3 then
      t ← get_thread w j;
      '(r, ar, input, output) ← analyse_data (wt_analyse_req t) (bev_input be) (bev_output be);
      let w := set_thread j (set_analyse_req ar t)
                 (set_bevs (<[b := {| bev_input := input; bev_output := output;
                                      bev_ctx := bev_ctx be |}]> (w_bevs w)) w) in
      if (r : bool) then w ← after_frame j b id w; read_loop fuel j b id w
      else Val w
    else Val w
  end.

Definition bufferevent_read_callback (j : nat) (b : Z) (w : World) : outcome World :=
  t ← get_thread w j;
  let id := default 0 (wt_bev_id t !! b) in
  be ← or_undef UseAfterFree (w_bevs w !! b);
  read_loop (S (length (bev_input be))) j b id w.

(** Data has arrived from the socket. *)
Definition bufferevent_receive (b : Z) (data : list byte) (w : World) : World :=
  match w_bevs w !! b with
  | Some be => set_bevs (<[b := {| bev_input := bev_input be ++ data;
                                   bev_output := bev_output be; bev_ctx := bev_ctx be |}]>
                           (w_bevs w)) w
  | None => w
  end.

Definition BEV_EVENT_EOF : Z := 0x10.
Definition BEV_EVENT_ERROR : Z := 0x20.
Definition BEV_EVENT_CONNECTED : Z := 0x80.

Definition bufferevent_event_callback (j : nat) (b events : Z) (w : World) : outcome World :=
  t ← get_thread w j;
  if negb (Z.land events (Z.lor BEV_EVENT_EOF BEV_EVENT_ERROR) =? 0) then
    let '(id, t) :=
      match wt_bev_id t !! b with
      | Some id => (id, set_maps (delete id (wt_sub_map t)) (delete b (wt_bev_id t)) t)
      | None => (0, t)
      end in
    let t := set_conn_num (wt_conn_num t - 1) t in
    w ← bufferevent_free b w;
    let t := if negb (id =? 0) then
               redisAsyncCommand (ZRANGE_offline id {| fi_id := id; fi_work_thread := j |}) t
             else t in
    Val (set_thread j t w)
  else Val w.

(** ** HTTP checks *)

(** [http_login_check] and [http_trans_check]: a new bufferevent with the given
    argument; when the connect cannot start it is freed again. *)
Definition http_login_check (e : Env) (ld : LoginData) (w : World) : bool * World :=
  if env_connect e then
    (true, set_bevs (<[env_ptr e := {| bev_input := []; bev_output := [];
                                       bev_ctx := CtxLogin ld |}]> (w_bevs w)) w)
  else (false, w).
Definition http_trans_check (e : Env) (td : TransData) (w : World) : bool * World :=
  if env_connect e then
    (true, set_bevs (<[env_ptr e := {| bev_input := []; bev_output := [];
                                       bev_ctx := CtxTrans td |}]> (w_bevs w)) w)
  else (false, w).

(** ** Login *)

(** Close the connection an id was logged in on, in the same thread. *)
Definition drop_old_login (j : nat) (sub : Subscriber) (id : Z) (w : World) : outcome World :=
  t ← get_thread w j;
  match wt_bev_id t !! sub_bev sub with
  | Some _ =>
      w ← bufferevent_free (sub_bev sub) w;
      Val (set_thread j (set_maps (delete id (wt_sub_map t))
                                  (delete (sub_bev sub) (wt_bev_id t)) t) w)
  | None => Val (set_thread j (set_sub_map (delete id (wt_sub_map t)) t) w)
  end.

(** [notify_del_id] to the threads in [js]. *)
Fixpoint notify_del_all (js : list nat) (id : Z) (w : World) : World :=
  match js with
  | [] => w
  | j :: js =>
      notify_del_all js id
        match w_threads w !! j with
        | Some t => set_thread j (notify_del_id id t) w
        | None => w
        end
  end.

(** Register the login and ask redis for the friends. *)
Definition register_login (j : nat) (ld : LoginData) (w : World) : outcome World :=
  t ← get_thread w j;
  let sub := set_id_bev (w_now w) (ld_id ld) (ld_bev ld) in
  let sm := match wt_sub_map t !! ld_id ld with
            | Some _ => wt_sub_map t       (* unordered_map::insert keeps *)
            | None => <[ld_id ld := sub]> (wt_sub_map t)
            end in
  let t := set_maps sm (<[ld_bev ld := ld_id ld]> (wt_bev_id t)) t in
  let t := redisAsyncCommand
             (ZRANGE_online (ld_id ld)
                {| oi_id := ld_id ld; oi_bev := ld_bev ld; oi_work_thread := j |}) t in
  Val (set_thread j t w).

(** Accepting a login after the redis check: log the id off elsewhere, register
    it, answer 200. *)
Definition login_ok (e : Env) (ld : LoginData) (w : World) : outcome World :=
  let j := ld_work_thread ld in
  let w := notify_del_all (filter (λ k, k ≠ j) (seq 0 (length (w_threads w)))) (ld_id ld) w in
  t ← get_thread w j;
  rsp ← get_login_rsp (env_uninit e) true (bytes_of "200 ok") (wt_ping_time t);
  w ← register_login j ld w;
  bev_write (ld_bev ld) rsp w.

(** [redis_login_callback]: the answer to GET sToken:id. *)
Definition redis_login_callback (e : Env) (reply : option redisReply) (ld : LoginData)
    (w : World) : outcome World :=
  let j := ld_work_thread ld in
  t ← get_thread w j;
  match wt_bev_id t !! ld_bev ld with
  | None => Val w                                     (* the client has gone *)
  | Some _ =>
    match reply ≫= reply_str with
    | None => Val (http_login_check e ld w).2         (* redis failed: ask over http *)
    | Some str =>
      if bool_decide (c_str (ld_token ld) = c_str str) then
        match wt_sub_map t !! ld_id ld with
        | Some sub =>
            if sub_bev sub =? ld_bev ld then Val w    (* same connection again *)
            else
              w ← drop_old_login j sub (ld_id ld) w;
              login_ok e ld w
        | None => login_ok e ld w
        end
      else
        rsp ← get_login_rsp (env_uninit e) false (bytes_of "wrong id or token") (wt_ping_time t);
        bev_write (ld_bev ld) rsp w
    end
  end.

(** [http_login_read]: the account server's answer has (hopefully) arrived; [hb]
    is the HTTP bufferevent.  Unlike the redis path there is no test for a
    second login on the same connection, and every thread is notified. *)
Definition http_login_ok (e : Env) (ld : LoginData) (w : World) : outcome World :=
  let j := ld_work_thread ld in
  t ← get_thread w j;
  w ← match wt_sub_map t !! ld_id ld with
      | Some sub => drop_old_login j sub (ld_id ld) w
      | None => Val w
      end;
  let w := notify_del_all (seq 0 (length (w_threads w))) (ld_id ld) w in
  rsp ← get_login_rsp (env_uninit e) true (bytes_of "200 ok") (wt_ping_time t);
  w ← register_login j ld w;
  bev_write (ld_bev ld) rsp w.

Definition http_login_read (e : Env) (hb : Z) (w : World) : outcome World :=
  be ← or_undef UseAfterFree (w_bevs w !! hb);
  match bev_ctx be with
  | CtxLogin ld =>
    let data := bev_input be in
    let w := set_bevs (<[hb := {| bev_input := []; bev_output := bev_output be;
                                  bev_ctx := bev_ctx be |}]> (w_bevs w)) w in
    t ← get_thread w (ld_work_thread ld);
    w ← match wt_bev_id t !! ld_bev ld with
        | Some _ =>
            r ← analyse_login_data (data ++ [z2b 0]) (Zlen data);
            if (r : bool) then http_login_ok e ld w
            else
              rsp ← get_login_rsp (env_uninit e) false (bytes_of "wrong id or token")
                      (wt_ping_time t);
              bev_write (ld_bev ld) rsp w
        | None => Val w
        end;
    bufferevent_free hb w
  | _ => Undef OutOfBounds    (* the argument is not a LoginData *)
  end.

(** [http_login_event].  The test for a live client looks the id up in the map
    keyed by bufferevents. *)
Definition http_login_event (e : Env) (hb event : Z) (w : World) : outcome World :=
  be ← or_undef UseAfterFree (w_bevs w !! hb);
  match bev_ctx be with
  | CtxLogin ld =>
    t ← get_thread w (ld_work_thread ld);
    if negb (Z.land event (Z.lor BEV_EVENT_EOF BEV_EVENT_ERROR) =? 0) then
      w ← match wt_bev_id t !! ld_id ld with
          | Some _ =>
              rsp ← get_login_rsp (env_uninit e) false (bytes_of "http server error")
                      (wt_ping_time t);
              bev_write (ld_bev ld) rsp w
          | None => Val w
          end;
      bufferevent_free hb w
    else if negb (Z.land event BEV_EVENT_CONNECTED =? 0) then
      req ← get_login_post_data 1024 (ld_id ld) (ld_token ld) (wt_http_url t);
      bev_write hb req w
    else Val w
  | _ => Undef OutOfBounds
  end.

(** ** Messages between friends *)

(** [redis_trans_callback]: the answer to ZSCORE; the log line reads the reply
    before it is tested. *)
Definition redis_trans_callback (e : Env) (reply : option redisReply) (td : TransData)
    (w : World) : outcome World :=
  match reply with
  | None => Undef NullDeref
  | Some (ReplyString _) => Val (send_message td w).2
  | Some _ => Val (http_trans_check e td w).2
  end.

Definition http_trans_read (hb : Z) (w : World) : outcome World :=
  be ← or_undef UseAfterFree (w_bevs w !! hb);
  match bev_ctx be with
  | CtxTrans td =>
    let data := bev_input be in
    let w := set_bevs (<[hb := {| bev_input := []; bev_output := bev_output be;
                                  bev_ctx := bev_ctx be |}]> (w_bevs w)) w in
    r ← analyse_relation_data (data ++ [z2b 0]) (Zlen data);
    let w := if (r : bool) then (send_message td w).2 else w in
    bufferevent_free hb w
  | _ => Undef OutOfBounds
  end.

Definition http_trans_event (hb event : Z) (w : World) : outcome World :=
  be ← or_undef UseAfterFree (w_bevs w !! hb);
  match bev_ctx be with
  | CtxTrans td =>
    t ← get_thread w (td_work_thread td);
    if negb (Z.land event (Z.lor BEV_EVENT_EOF BEV_EVENT_ERROR) =? 0) then
      bufferevent_free hb w
    else if negb (Z.land event BEV_EVENT_CONNECTED =? 0) then
      req ← get_relation_post_data 1024 (td_from_id td) (td_to_id td) (wt_http_url t);
      bev_write hb req w
    else Val w
  | _ => Undef OutOfBounds
  end.

(** ** Presence *)

(** The status message of the id itself, packed into the array the callbacks
    declare: [29 + len] bytes where [len] is still 0. *)
Definition pack_me_status (e : Env) (id : Z) (status : byte) : outcome (list byte) :=
  let src := OnlineStatus_Serialize [print_ld id] [status] in
  '(des, des_len) ← pack_data src (Zlen src) 12 (replicate (Z.to_nat (29 + 0)) (env_uninit e));
  Val (ztake des_len des).

(** Tell one friend, in the first thread that has it online; [1] when found. *)
Fixpoint tell_friend (td : TransData) (ts : list WorkThread) : Z * list WorkThread :=
  match ts with
  | [] => (0, [])
  | t :: ts' =>
      if check_id_is_online (td_to_id td) t
      then (1, (notify_new_msg td t).2 :: ts')
      else let '(st, ts'') := tell_friend td ts' in (st, t :: ts'')
  end.

Fixpoint tell_friends (from_id : Z) (msg : list byte) (friends : list (list byte))
    (ts : list WorkThread) : list Z * list WorkThread :=
  match friends with
  | [] => ([], ts)
  | f :: friends =>
      let '(st, ts) :=
        tell_friend {| td_from_id := from_id; td_to_id := u64 (atoll f); td_work_thread := 0;
                       td_msg_type := 0; td_data_size := Zlen msg; td_data := msg |} ts in
      let '(sts, ts) := tell_friends from_id msg friends ts in (st :: sts, ts)
  end.

Definition redis_online_notify (e : Env) (reply : option redisReply) (oi : OnlineInfo)
    (w : World) : outcome World :=
  match reply with
  | Some (ReplyArray (f0 :: fs)) =>
    t ← get_thread w (oi_work_thread oi);
    match wt_bev_id t !! oi_bev oi with
    | Some _ =>
      msg ← pack_me_status e (oi_id oi) (z2b 1);
      let '(status, ts) := tell_friends (oi_id oi) msg (f0 :: fs) (w_threads w) in
      let w := {| w_threads := ts; w_bevs := w_bevs w; w_now := w_now w |} in
      let src := OnlineStatus_Serialize (c_str <$> f0 :: fs) (z2b <$> status) in
      '(des, des_len) ← pack_data src (Zlen src) 12
                          (replicate (Z.to_nat (29 + Zlen src)) (env_uninit e));
      bev_write (oi_bev oi) (ztake des_len des) w
    | None => Val w
    end
  | _ => Val w
  end.

Definition redis_offline_notify (e : Env) (reply : option redisReply) (fi : OfflineInfo)
    (w : World) : outcome World :=
  match reply with
  | Some (ReplyArray (f0 :: fs)) =>
    msg ← pack_me_status e (fi_id fi) (z2b 0);
    let '(_, ts) := tell_friends (fi_id fi) msg (f0 :: fs) (w_threads w) in
    Val {| w_threads := ts; w_bevs := w_bevs w; w_now := w_now w |}
  | _ => Val w
  end.
End callbacks.
