(* ===== verification/WorkInv.v ===== *)
(** Invariants of the worker threads.

    [thread_ok] ties the maps of a thread to each other and to the live
    bufferevents: the keys of [_bev_id] are exactly the live bufferevents of the
    thread, logged-in connections and subscribers correspond one to one, and
    [_conn_num] bounds the number of connections.  The lemmas of this file say
    how the primitive updates and then the callbacks of WorkThread.v keep it. *)

From S2P Require Import Prelude EvbufferApi AnalyseReq Frames WorkThread.

(** ** The invariant *)

(** Commands and messages carry their own thread and a known type. *)
Definition cmd_ok (j : nat) (c : RedisCmd) : Prop :=
  match c with
  | GET_sToken _ ld => ld_work_thread ld = j
  | ZSCORE_ssUD _ _ td => td_work_thread td = j ∧ td_msg_type td = 0
  | ZRANGE_online _ oi => oi_work_thread oi = j
  | ZRANGE_offline _ fi => fi_work_thread fi = j
  end.

Definition msg_ok (td : TransData) : Prop := td_msg_type td = 0 ∨ td_msg_type td = 1.

(** The arguments of the live bufferevents. *)
Definition ctxs (w : World) : gmap Z BevCtx := bev_ctx <$> w_bevs w.

Definition ctx_ok (n : nat) (c : BevCtx) : Prop :=
  match c with
  | CtxThread j => (j < n)%nat
  | CtxLogin ld => (ld_work_thread ld < n)%nat
  | CtxTrans td => (td_work_thread td < n)%nat ∧ td_msg_type td = 0
  end.

(** [tr]: the clients are trusted to log in under one id only. *)
Record thread_inv (tr : bool) (C : gmap Z BevCtx) (j : nat) (t : WorkThread) : Prop := {
  ok_live b : is_Some (wt_bev_id t !! b) ↔ C !! b = Some (CtxThread j);
  inv_sub id sub : tr = true → wt_sub_map t !! id = Some sub → wt_bev_id t !! sub_bev sub = Some id;
  ok_bev b id : wt_bev_id t !! b = Some id → id ≠ 0 →
    ∃ sub, wt_sub_map t !! id = Some sub ∧ sub_bev sub = b;
  inv_zero : tr = true → wt_sub_map t !! 0 = None;
  ok_num : Z.of_nat (size (wt_bev_id t)) <= wt_conn_num t;
  ok_cmds c : c ∈ wt_cmds t → cmd_ok j c;
  ok_msgs td : td ∈ wt_new_msg_fd t → msg_ok td;
  inv_ping : tr = true → - 2 ^ 30 <= wt_ping_time t < 2 ^ 30
}.
Arguments ok_live {tr}.
Arguments ok_bev {tr}.
Arguments ok_num {tr}.
Arguments ok_cmds {tr}.
Arguments ok_msgs {tr}.

Record world_inv (tr : bool) (w : World) : Prop := {
  ok_threads j t : w_threads w !! j = Some t → thread_inv tr (ctxs w) j t;
  ok_ctxs b c : ctxs w !! b = Some c → ctx_ok (length (w_threads w)) c
}.
Arguments ok_threads {tr}.
Arguments ok_ctxs {tr}.

Abbreviation thread_ok := (thread_inv true).
Abbreviation world_ok := (world_inv true).

Lemma ok_sub C j t : thread_ok C j t → ∀ id sub, wt_sub_map t !! id = Some sub → wt_bev_id t !! sub_bev sub = Some id.
Proof. intros Ht id sub. by apply (inv_sub _ _ _ _ Ht). Qed.
Lemma ok_zero C j t : thread_ok C j t → wt_sub_map t !! 0 = None.
Proof. intros Ht. by apply (inv_zero _ _ _ _ Ht). Qed.
Lemma ok_ping C j t : thread_ok C j t → - 2 ^ 30 <= wt_ping_time t < 2 ^ 30.
Proof. intros Ht. by apply (inv_ping _ _ _ _ Ht). Qed.

(** ** One thread *)

Section threads.
Context {tr : bool}.

Lemma thread_ok_maps C j t t' :
  wt_sub_map t' = wt_sub_map t → wt_bev_id t' = wt_bev_id t → wt_conn_num t' = wt_conn_num t → wt_ping_time t' = wt_ping_time t →
  (∀ c, c ∈ wt_cmds t' → cmd_ok j c) → (∀ td, td ∈ wt_new_msg_fd t' → msg_ok td) →
  thread_inv tr C j t → thread_inv tr C j t'.
Proof. intros E1 E2 E3 E4 Hc Hm [? ? ? ? ? ? ? ?]. constructor; rewrite ?E1, ?E2, ?E3, ?E4; done. Qed.

Lemma thread_ok_cmd C j t c : cmd_ok j c → thread_inv tr C j t → thread_inv tr C j (redisAsyncCommand c t).
Proof.
  intros Hc Ht. apply (thread_ok_maps C j t); try done; [|apply Ht].
  intros c'. simpl. rewrite elem_of_app, list_elem_of_singleton.
  intros [?| ->]; [|done]. by apply (ok_cmds _ _ _ Ht).
Qed.

(** Refreshing the heartbeat keeps the connection of the subscriber. *)
Lemma thread_ok_heartbeat C j t id sub now :
  thread_inv tr C j t → wt_sub_map t !! id = Some sub →
  thread_inv tr C j (set_sub_map (<[id := update_heartbeat now sub]> (wt_sub_map t)) t).
Proof.
  intros Ht Hs. assert (sub_bev (update_heartbeat now sub) = sub_bev sub) as Hsb by (by destruct now). constructor; simpl; try apply Ht.
  - intros id' sub' Htr [[<- <-]|[Hne Hs']]%lookup_insert_Some; [rewrite Hsb|]; by apply (inv_sub _ _ _ _ Ht).
  - intros b id' Hb' Hnz. destruct (ok_bev _ _ _ Ht _ _ Hb' Hnz) as (sub' & Hs' & <-).
    destruct (decide (id' = id)) as [->|].
    + exists (update_heartbeat now sub). rewrite lookup_insert_eq. simplify_eq. done.
    + exists sub'. by rewrite lookup_insert_ne.
  - intros Htr. rewrite lookup_insert_ne; [by apply Ht|]. intros ->. pose proof (inv_zero _ _ _ _ Ht Htr). congruence.
Qed.

(** Taking a connection out of both maps: that of the id, or the one its subscriber names. *)
Record removable (t : WorkThread) (b id : Z) : Prop := {
  rm_live : is_Some (wt_bev_id t !! b);
  rm_only b' : wt_bev_id t !! b' = Some id → id ≠ 0 → b' = b;
  rm_own : tr = true → wt_bev_id t !! b = Some id
}.

Lemma removable_bev C j t b id : thread_inv tr C j t → wt_bev_id t !! b = Some id → removable t b id.
Proof.
  intros Ht Hb. split; [by eexists| |done]. intros b' Hb' Hnz.
  destruct (ok_bev _ _ _ Ht _ _ Hb Hnz) as (sub & Hs & <-), (ok_bev _ _ _ Ht _ _ Hb' Hnz) as (sub' & ? & <-). congruence.
Qed.

Lemma removable_sub C j t id sub :
  thread_inv tr C j t → wt_sub_map t !! id = Some sub → is_Some (wt_bev_id t !! sub_bev sub) → removable t (sub_bev sub) id.
Proof.
  intros Ht Hs Hb. split; [done| |intros Htr; by apply (inv_sub _ _ _ _ Ht)]. intros b' Hb' Hnz.
  destruct (ok_bev _ _ _ Ht _ _ Hb' Hnz) as (sub' & ? & <-). congruence.
Qed.

(** Subscribers that are left do not name a connection. *)
Lemma thread_ok_remove C j t b id n :
  thread_inv tr C j t → removable t b id → wt_conn_num t - 1 <= n →
  thread_inv tr (delete b C) j
    (set_conn_num n (set_maps (delete id (wt_sub_map t)) (delete b (wt_bev_id t)) t)).
Proof.
  intros Ht [[i Hb] Honly Hown] Hn. constructor; simpl.
  - intros b'. rewrite !lookup_delete. case_decide; [split; [by intros []|done]|]. apply Ht.
  - intros id' sub Htr [Hne Hs]%lookup_delete_Some.
    pose proof (inv_sub _ _ _ _ Ht _ _ Htr Hs). specialize (Hown Htr). rewrite lookup_delete_ne; [done|]. intros Heq. congruence.
  - intros b' id' [Hne Hb']%lookup_delete_Some Hnz.
    destruct (ok_bev _ _ _ Ht _ _ Hb' Hnz) as (sub & Hs & Hsb). exists sub. split; [|done].
    rewrite lookup_delete_ne; [done|]. intros ->. by apply Hne, symmetry, Honly.
  - intros Htr. rewrite lookup_delete. case_decide; [done|]. by apply Ht.
  - rewrite map_size_delete_Some by done.
    pose proof (map_size_ne_0_lookup_2 _ _ (mk_is_Some _ _ Hb)). pose proof (ok_num _ _ _ Ht). lia.
  - apply Ht.
  - apply Ht.
  - apply Ht.
Qed.

(** A subscriber whose connection is gone. *)
Lemma thread_ok_forget C j t id sub :
  thread_inv tr C j t → wt_sub_map t !! id = Some sub → wt_bev_id t !! sub_bev sub = None →
  thread_inv tr C j (set_sub_map (delete id (wt_sub_map t)) t).
Proof.
  intros Ht Hs Hb. constructor; simpl; try apply Ht.
  - intros id' sub' Htr [_ ?]%lookup_delete_Some. by apply (inv_sub _ _ _ _ Ht).
  - intros b' id' Hb' Hnz. destruct (ok_bev _ _ _ Ht _ _ Hb' Hnz) as (sub' & Hs' & Hsb). exists sub'.
    rewrite lookup_delete_ne; [done|]. intros ->. congruence.
  - intros Htr. rewrite lookup_delete. case_decide; [done|]. by apply Ht.
Qed.

Lemma thread_ok_delete_other C j t b :
  C !! b ≠ Some (CtxThread j) → thread_inv tr C j t → thread_inv tr (delete b C) j t.
Proof.
  intros Hc Ht. constructor; try apply Ht.
  intros b'. rewrite lookup_delete. case_decide as Heq; [subst|apply Ht].
  split; [|done]. intros ?%Ht. done.
Qed.

Lemma thread_ok_insert_other C j t b c :
  C !! b = None → c ≠ CtxThread j → thread_inv tr C j t → thread_inv tr (<[b := c]> C) j t.
Proof.
  intros Hb Hc Ht. constructor; try apply Ht.
  intros b'. rewrite lookup_insert. case_decide as Heq; [subst|apply Ht].
  split; [|congruence]. intros ?%Ht. congruence.
Qed.

(** A login; with trusted clients, on a connection that was not logged in. *)
Lemma thread_ok_login C j t b id sub :
  thread_inv tr C j t → is_Some (wt_bev_id t !! b) → (tr = true → wt_bev_id t !! b = Some 0 ∧ id ≠ 0) → sub_bev sub = b →
  wt_sub_map t !! id = None →
  thread_inv tr C j (set_maps (<[id := sub]> (wt_sub_map t)) (<[b := id]> (wt_bev_id t)) t).
Proof.
  intros Ht [i Hb] Hid Hsb Hnone. constructor; simpl.
  - intros b'. rewrite lookup_insert. case_decide as Heq; [subst b'|apply Ht].
    rewrite <- (ok_live _ _ _ Ht), Hb. split; intros; by eexists.
  - intros id' sub' Htr [[<- <-]|[Hne Hs]]%lookup_insert_Some.
    + rewrite Hsb. apply lookup_insert_eq.
    + pose proof (inv_sub _ _ _ _ Ht _ _ Htr Hs). rewrite lookup_insert_ne; [done|].
      intros Heq. pose proof (inv_zero _ _ _ _ Ht Htr). destruct (Hid Htr). congruence.
  - intros b' id' [[<- <-]|[Hne Hb']]%lookup_insert_Some Hnz.
    + exists sub. by rewrite lookup_insert_eq.
    + destruct (ok_bev _ _ _ Ht _ _ Hb' Hnz) as (sub' & ? & ?). exists sub'.
      rewrite lookup_insert_ne; [done|]. intros <-. congruence.
  - intros Htr. rewrite lookup_insert_ne by (by apply Hid). by apply Ht.
  - rewrite map_size_insert_Some by (by rewrite Hb). apply Ht.
  - apply Ht.
  - apply Ht.
  - apply Ht.
Qed.

(** A new connection on a fresh bufferevent. *)
Lemma thread_ok_connect C j t b :
  thread_inv tr C j t → C !! b = None →
  thread_inv tr (<[b := CtxThread j]> C) j
    (set_conn_num (wt_conn_num t + 1) (set_bev_id (<[b := 0]> (wt_bev_id t)) t)).
Proof.
  intros Ht Hm.
  assert (wt_bev_id t !! b = None) as Hb.
  { apply eq_None_not_Some. rewrite (ok_live _ _ _ Ht). congruence. }
  constructor; simpl.
  - intros b'. rewrite !lookup_insert. case_decide; [split; [done|by eexists]|]. apply Ht.
  - intros id sub Htr Hs. pose proof (inv_sub _ _ _ _ Ht _ _ Htr Hs).
    rewrite lookup_insert_ne; [done|]. intros Heq. congruence.
  - intros b' id' [[<- <-]|[Hne Hb']]%lookup_insert_Some Hnz; [done|].
    by apply (ok_bev _ _ _ Ht).
  - apply Ht.
  - rewrite map_size_insert_None by done. pose proof (ok_num _ _ _ Ht). lia.
  - apply Ht.
  - apply Ht.
  - apply Ht.
Qed.
End threads.

(** ** The world *)

Lemma get_thread_Some w j t : get_thread w j = Val t ↔ w_threads w !! j = Some t.
Proof. unfold get_thread, or_undef. destruct (w_threads w !! j); naive_solver. Qed.

Lemma or_undef_Some {A} e (o : option A) v : or_undef e o = Val v ↔ o = Some v.
Proof. unfold or_undef. destruct o; naive_solver. Qed.

(** Splits [m ≫= k = Val v] into the steps that returned. *)
Ltac inv_outcome :=
  repeat match goal with
  | H : _ ≫= _ = Val _ |- _ => apply outcome_bind_Val in H as (? & ? & H)
  | H : Val _ = Val _ |- _ => apply Val_inj in H
  | H : get_thread _ _ = Val _ |- _ => apply get_thread_Some in H
  | H : or_undef _ _ = Val _ |- _ => apply or_undef_Some in H
  end; simpl in *.

Section worlds.
Context {tr : bool}.

Lemma ctxs_lookup w b : ctxs w !! b = bev_ctx <$> w_bevs w !! b.
Proof. apply lookup_fmap. Qed.

Lemma world_ok_ctx w j t b :
  world_inv tr w → w_threads w !! j = Some t → is_Some (wt_bev_id t !! b) →
  ∃ be, w_bevs w !! b = Some be ∧ bev_ctx be = CtxThread j.
Proof.
  intros Hw Ht Hb%(ok_live _ _ _ (ok_threads _ Hw _ _ Ht)).
  rewrite ctxs_lookup in Hb. destruct (w_bevs w !! b); naive_solver.
Qed.

(** Replacing one thread and the bufferevents. *)
Lemma world_ok_update w j t t' m :
  world_inv tr w → w_threads w !! j = Some t →
  thread_inv tr (bev_ctx <$> m) j t' →
  (∀ k u, k ≠ j → thread_inv tr (ctxs w) k u → thread_inv tr (bev_ctx <$> m) k u) →
  (∀ b c, (bev_ctx <$> m) !! b = Some c → ctx_ok (length (w_threads w)) c) →
  world_inv tr (set_thread j t' (set_bevs m w)).
Proof.
  intros Hw Hj Ht' Hother Hc. split; unfold ctxs; simpl.
  - intros k u. rewrite list_lookup_insert_Some.
    intros [(<- & -> & _)|(Hne & Hu)]; [done|]. apply Hother; [done|]. by apply Hw.
  - intros b c Hb. rewrite length_insert. by apply (Hc b).
Qed.

Lemma set_bevs_id w : set_bevs (w_bevs w) w = w.
Proof. by destruct w. Qed.

Lemma world_ok_set_thread w j t t' :
  world_inv tr w → w_threads w !! j = Some t → thread_inv tr (ctxs w) j t' → world_inv tr (set_thread j t' w).
Proof.
  intros Hw Hj Ht'. rewrite <- (set_bevs_id w).
  apply (world_ok_update w j t); try done. apply Hw.
Qed.

(** Changing the buffers of a bufferevent. *)
Lemma ctxs_same w b be be' :
  w_bevs w !! b = Some be → bev_ctx be' = bev_ctx be →
  ctxs (set_bevs (<[b := be']> (w_bevs w)) w) = ctxs w.
Proof.
  intros Hb Hc. apply map_eq. intros b'. rewrite !ctxs_lookup. simpl.
  rewrite lookup_insert. case_decide as Heq; [subst b'|done]. rewrite Hb. simpl. congruence.
Qed.

Lemma world_ok_ctxs w w' :
  w_threads w' = w_threads w → ctxs w' = ctxs w → world_inv tr w → world_inv tr w'.
Proof. intros E1 E2 [H1 H2]. split; rewrite E1, E2; done. Qed.

Lemma world_ok_buffers w b be be' :
  world_inv tr w → w_bevs w !! b = Some be → bev_ctx be' = bev_ctx be →
  world_inv tr (set_bevs (<[b := be']> (w_bevs w)) w).
Proof. intros Hw Hb Hc. apply (world_ok_ctxs w); [done|by eapply ctxs_same|done]. Qed.

Lemma bev_write_inv w b data w' :
  bev_write b data w = Val w' →
  w_threads w' = w_threads w ∧ w_now w' = w_now w ∧ ctxs w' = ctxs w ∧ is_Some (w_bevs w !! b).
Proof.
  unfold bev_write. destruct (w_bevs w !! b) as [be|] eqn:Hb; [|done].
  intros <-%Val_inj. repeat split; [|by eexists]. by eapply ctxs_same.
Qed.

Lemma world_ok_write w b data w' : world_inv tr w → bev_write b data w = Val w' → world_inv tr w'.
Proof. intros Hw (? & _ & ? & _)%bev_write_inv. by eapply world_ok_ctxs. Qed.

Lemma bufferevent_free_inv w b w' :
  bufferevent_free b w = Val w' →
  w' = set_bevs (delete b (w_bevs w)) w ∧ is_Some (w_bevs w !! b).
Proof. unfold bufferevent_free. destruct (w_bevs w !! b); [|done]. intros <-%Val_inj. eauto. Qed.

(** Freeing a connection of thread [j] and taking it out of the maps. *)
Lemma world_ok_remove w j t b id n w' t' :
  world_inv tr w → w_threads w !! j = Some t → removable (tr := tr) t b id → wt_conn_num t - 1 <= n →
  bufferevent_free b w = Val w' →
  (∀ C, thread_inv tr C j (set_conn_num n
        (set_maps (delete id (wt_sub_map t)) (delete b (wt_bev_id t)) t)) → thread_inv tr C j t') →
  world_inv tr (set_thread j t' w').
Proof.
  intros Hw Hj Hb Hn [-> _]%bufferevent_free_inv Ht'.
  pose proof (ok_threads _ Hw _ _ Hj) as Ht.
  apply (world_ok_update w j t); try done; rewrite fmap_delete; fold (ctxs w).
  - by apply Ht', thread_ok_remove.
  - intros k u Hk. apply thread_ok_delete_other.
    rewrite (proj1 (ok_live _ _ _ Ht b)) by apply Hb. congruence.
  - intros b' c [_ Hc]%lookup_delete_Some. by apply (ok_ctxs _ Hw b').
Qed.

(** HTTP bufferevents belong to no thread's map. *)
Lemma world_ok_free_http w b be w' :
  world_inv tr w → w_bevs w !! b = Some be → (∀ j, bev_ctx be ≠ CtxThread j) →
  bufferevent_free b w = Val w' → world_inv tr w'.
Proof.
  intros Hw Hb Hc [-> _]%bufferevent_free_inv.
  split; unfold ctxs; simpl; rewrite fmap_delete; fold (ctxs w).
  - intros j t Ht%(ok_threads _ Hw). apply thread_ok_delete_other; [|done].
    rewrite ctxs_lookup, Hb. simpl. intros [= ?]. by eapply Hc.
  - intros b' c [_ ?]%lookup_delete_Some. by apply (ok_ctxs _ Hw b').
Qed.

Lemma world_ok_new_http w b be :
  world_inv tr w → w_bevs w !! b = None → (∀ j, bev_ctx be ≠ CtxThread j) →
  ctx_ok (length (w_threads w)) (bev_ctx be) → world_inv tr (set_bevs (<[b := be]> (w_bevs w)) w).
Proof.
  intros Hw Hb Hne Hc. split; unfold ctxs; simpl; rewrite fmap_insert; fold (ctxs w).
  - intros j t Ht%(ok_threads _ Hw). apply thread_ok_insert_other; [|done..].
    by rewrite ctxs_lookup, Hb.
  - intros b' c [[_ <-]|[_ ?]]%lookup_insert_Some; [done|]. by apply (ok_ctxs _ Hw b').
Qed.

Lemma new_connection_ok j ptr w w' :
  world_inv tr w → w_bevs w !! ptr = None → new_connection j ptr w = Val w' → world_inv tr w'.
Proof.
  intros Hw Hp Hn. unfold new_connection in Hn. inv_outcome. subst w'.
  rename H into Hj. pose proof (ok_threads _ Hw _ _ Hj) as Ht.
  assert (ctxs w !! ptr = None) as Hc by (by rewrite ctxs_lookup, Hp).
  destruct (wt_bev_id x !! ptr) eqn:E.
  { assert (ctxs w !! ptr = Some (CtxThread j)) by (apply (ok_live _ _ _ Ht); eauto). congruence. }
  apply (world_ok_update w j x); try done; rewrite fmap_insert; fold (ctxs w).
  - by apply thread_ok_connect.
  - intros k u Hk. apply thread_ok_insert_other; [done|]. simpl. congruence.
  - intros b c [[_ <-]|[_ ?]]%lookup_insert_Some; [by eapply lookup_lt_Some|].
    by apply (ok_ctxs _ Hw b).
Qed.
End worlds.
