(* ===== verification/WorkStep.v ===== *)
(** The event loop of the worker threads as a transition system.

    [event] lists what libevent and hiredis can deliver to the program and
    [handle] runs the callback of WorkThread.v it triggers; [enabled] says when
    the event can happen.  The lemmas show that every callback keeps [world_ok];
    the theorems that it holds in every reachable state and that a state that
    satisfies it makes no invalid access. *)

From S2P Require Import Prelude EvbufferApi AnalyseReq Frames WorkThread WorkInv.

(** ** Messages put into pipes *)

(** [t'] is [t] with messages of a known type added to its pipe. *)
Definition msgs_more (t t' : WorkThread) : Prop :=
  ∃ p, t' = set_new_msg_fd p t ∧ (∀ td, td ∈ p → td ∈ wt_new_msg_fd t ∨ msg_ok td).

Lemma msgs_more_refl t : msgs_more t t.
Proof. exists (wt_new_msg_fd t). destruct t; eauto. Qed.

Lemma msgs_more_trans t1 t2 t3 : msgs_more t1 t2 → msgs_more t2 t3 → msgs_more t1 t3.
Proof. intros (p & -> & Hp) (q & -> & Hq). exists q. split; [done|].
  intros td [Ht|?]%Hq; [by apply Hp|by right]. Qed.

#[export] Instance msgs_more_preorder : PreOrder msgs_more.
Proof. split; [exact msgs_more_refl | exact msgs_more_trans]. Qed.

Lemma thread_ok_msgs_more {tr} C j t t' : msgs_more t t' → thread_inv tr C j t → thread_inv tr C j t'.
Proof.
  intros (p & -> & Hp) Ht. apply (thread_ok_maps C j t); try done; [apply Ht|].
  intros td [Htd|Htd]%Hp; [by apply (ok_msgs _ _ _ Ht)|done].
Qed.

Definition threads_more : list WorkThread → list WorkThread → Prop := Forall2 msgs_more.

#[export] Instance threads_more_preorder : PreOrder threads_more.
Proof. unfold threads_more. split; apply _. Qed.

Lemma threads_more_lookup ts ts' j t :
  threads_more ts ts' → ts !! j = Some t → ∃ t', ts' !! j = Some t' ∧ msgs_more t t'.
Proof. intros H1 H2. eapply Forall2_lookup_l in H1; eauto. Qed.

Lemma threads_more_insert ts j t t' :
  ts !! j = Some t → msgs_more t t' → threads_more ts (<[j := t']> ts).
Proof.
  intros Hj Ht. rewrite <- (list_insert_id ts j t Hj) at 1.
  apply Forall2_insert; [reflexivity|done].
Qed.

Lemma world_ok_more {tr} w w' :
  threads_more (w_threads w) (w_threads w') → w_bevs w' = w_bevs w → world_inv tr w → world_inv tr w'.
Proof.
  intros Hm Hb Hw. split; unfold ctxs; rewrite Hb; fold (ctxs w).
  - intros j t' Hj. destruct (Forall2_lookup_r _ _ _ _ _ Hm Hj) as (t & Ht & Hmore).
    eapply thread_ok_msgs_more; [done|]. by apply Hw.
  - intros b c Hc. rewrite <- (Forall2_length _ _ _ Hm). by apply (ok_ctxs _ Hw b).
Qed.

Section steps.
Context `{CometProto}.
Context (conn_cap msg_cap : nat) {tr : bool}.

Lemma notify_new_msg_more td t : msg_ok td → msgs_more t (notify_new_msg msg_cap td t).2.
Proof.
  intros Hm. unfold notify_new_msg.
  destruct (wt_sub_map t !! td_to_id td); [|reflexivity].
  destruct (_ <? _)%nat; [|reflexivity]. eexists; split; [done|].
  intros td'. rewrite elem_of_app, list_elem_of_singleton. intros [?| ->]; eauto.
Qed.

Lemma notify_del_id_more id t : msgs_more t (notify_del_id msg_cap id t).
Proof.
  unfold notify_del_id. destruct (check_id_is_online id t); [|reflexivity].
  apply notify_new_msg_more. by right.
Qed.

Lemma send_first_more td ts : msg_ok td → threads_more ts (send_first msg_cap td ts).2.
Proof.
  intros Hm. induction ts as [|t ts IH]; [constructor|]. simpl.
  pose proof (notify_new_msg_more td t Hm). destruct (notify_new_msg msg_cap td t) as [[] t'].
  - constructor; [done|]. reflexivity.
  - destruct (send_first msg_cap td ts). by constructor.
Qed.

Lemma send_message_ok td w : msg_ok td → world_inv tr w → world_inv tr (send_message msg_cap td w).2.
Proof.
  intros Hm Hw. pose proof (send_first_more td (w_threads w) Hm) as Hs.
  unfold send_message. destruct (send_first msg_cap td (w_threads w)).
  by apply (world_ok_more w).
Qed.

Lemma notify_del_all_more js id w :
  threads_more (w_threads w) (w_threads (notify_del_all msg_cap js id w)) ∧
  w_bevs (notify_del_all msg_cap js id w) = w_bevs w ∧
  w_now (notify_del_all msg_cap js id w) = w_now w.
Proof.
  revert w. induction js as [|j js IH]; intros w; simpl; [done|].
  destruct (w_threads w !! j) as [t|] eqn:Hj; [|apply IH].
  destruct (IH (set_thread j (notify_del_id msg_cap id t) w)) as (H1 & H2 & H3).
  repeat split; [|done..]. etrans; [|exact H1]. simpl.
  apply threads_more_insert with t; [done|]. apply notify_del_id_more.
Qed.

Lemma notify_del_all_ok js id w : world_inv tr w → world_inv tr (notify_del_all msg_cap js id w).
Proof. destruct (notify_del_all_more js id w) as (? & ? & _). by apply world_ok_more. Qed.

Lemma tell_friend_more td ts : msg_ok td → threads_more ts (tell_friend msg_cap td ts).2.
Proof.
  intros Hm. induction ts as [|t ts IH]; [constructor|]. simpl.
  destruct (check_id_is_online (td_to_id td) t).
  - constructor; [by apply notify_new_msg_more|reflexivity].
  - destruct (tell_friend msg_cap td ts). constructor; [reflexivity|done].
Qed.

Lemma tell_friends_more id msg fs ts : threads_more ts (tell_friends msg_cap id msg fs ts).2.
Proof.
  revert ts. induction fs as [|f fs IH]; intros ts; [reflexivity|]. cbn [tell_friends].
  match goal with |- context [tell_friend _ ?td _] =>
    pose proof (tell_friend_more td ts (or_introl eq_refl)) as Hf end.
  destruct (tell_friend _ _ _) as [st ts1]. specialize (IH ts1).
  destruct (tell_friends _ _ _ _ _) as [sts ts2]. by etrans.
Qed.

(** ** Callbacks *)

Lemma expire_one_ok j now b w w' : world_inv tr w → expire_one j now b w = Val w' → world_inv tr w'.
Proof.
  intros Hw He. unfold expire_one in He. inv_outcome. rename x into t, H0 into Hj.
  destruct (wt_bev_id t !! b) as [id|] eqn:Hb; [|by simplify_eq].
  destruct (wt_sub_map t !! id) as [sub|] eqn:Hs; [|by simplify_eq].
  inv_outcome. destruct (_ >? _); [|by simplify_eq].
  inv_outcome. subst w'. eapply (world_ok_remove w j t b id); [done..| |reflexivity|done|].
  - eapply removable_bev; [by apply Hw|done].
  - intros C HC. destruct (id =? 0); [done|]. by apply thread_ok_cmd.
Qed.

Lemma expire_loop_ok j now order w w' :
  world_inv tr w → expire_loop j now order w = Val w' → world_inv tr w'.
Proof.
  revert w. induction order as [|b order IH]; intros w Hw He; cbn in He; inv_outcome.
  - by subst.
  - eapply IH; [|done]. by eapply expire_one_ok.
Qed.

Lemma del_expire_client_ok j order w w' :
  world_inv tr w → del_expire_client j order w = Val w' → world_inv tr w'.
Proof. intros Hw. unfold del_expire_client. destruct (w_now w); [by apply expire_loop_ok|]. by intros <-%Val_inj. Qed.

(** The sweep frees bufferevents and adds none. *)
Lemma expire_one_bevs j now b w w' : expire_one j now b w = Val w' → w_bevs w' ⊆ w_bevs w.
Proof.
  intros He. unfold expire_one in He. inv_outcome.
  repeat (case_match; inv_outcome); subst; try done;
    match goal with H : bufferevent_free _ _ = _ |- _ => apply bufferevent_free_inv in H as [-> _] end;
    apply delete_subseteq.
Qed.

Lemma expire_loop_bevs j now order w w' :
  expire_loop j now order w = Val w' → w_bevs w' ⊆ w_bevs w.
Proof.
  revert w. induction order as [|b order IH]; intros w He; cbn in He; inv_outcome.
  - by subst.
  - etrans; [by eapply IH|]. by eapply expire_one_bevs.
Qed.

Lemma del_expire_client_bevs j order w w' :
  del_expire_client j order w = Val w' → w_bevs w' ⊆ w_bevs w.
Proof. unfold del_expire_client. destruct (w_now w); [apply expire_loop_bevs|]. by intros <-%Val_inj. Qed.

Lemma notify_new_conn_loop_ok j pipe i ptrs order w r :
  world_inv tr w → NoDup ptrs → (∀ p, p ∈ ptrs → w_bevs w !! p = None) → (10 <= i + length ptrs)%nat →
  notify_new_conn_loop j pipe i ptrs order w = Val r → world_inv tr r.2.
Proof.
  revert i ptrs w. induction pipe as [|data pipe IH]; intros i ptrs w Hw Hnd Hfresh Hlen He;
    cbn [notify_new_conn_loop] in He; [by inv_outcome; subst|].
  destruct (i <? 10)%nat eqn:Hi; [apply Nat.ltb_lt in Hi|by inv_outcome; subst].
  destruct (data >? 0).
  - destruct ptrs as [|p ptrs]; [simpl in Hlen; lia|]. inv_outcome. apply NoDup_cons in Hnd as [Hp Hnd].
    rename x into w1, H0 into Hc.
    eapply (IH (S i) ptrs w1); [|done| |simpl in *; lia|done].
    + eapply new_connection_ok; [done| |done]. apply Hfresh. by left.
    + intros q Hq. unfold new_connection in Hc. inv_outcome. subst w1. simpl.
      rewrite lookup_insert_ne by (by intros ->). apply Hfresh. by right.
  - destruct (data =? -1).
    + inv_outcome. subst r. simpl. eapply world_ok_set_thread; [done..|].
      rename H0 into Hj. apply (ok_threads _ Hw) in Hj as Ht.
      apply (thread_ok_maps _ _ x); try done; apply Ht.
    + destruct (data =? -2); [|by eapply (IH (S i) ptrs w); [..|lia|]].
      inv_outcome. rename x into w1, H0 into Hd.
      eapply (IH (S i) ptrs w1); [by eapply del_expire_client_ok|done| |lia|done].
      intros p Hp%Hfresh. apply del_expire_client_bevs in Hd.
      by eapply lookup_weaken_None.
Qed.

Lemma notify_new_conn_callback_ok j ptrs order w w' :
  world_inv tr w → NoDup ptrs → (∀ p, p ∈ ptrs → w_bevs w !! p = None) → (10 <= length ptrs)%nat →
  notify_new_conn_callback j ptrs order w = Val w' → world_inv tr w'.
Proof.
  intros Hw Hnd Hf Hl He. unfold notify_new_conn_callback in He. inv_outcome.
  destruct x0 as [pipe w1]. inv_outcome. subst w'.
  apply notify_new_conn_loop_ok in H1; try done. simpl in H1.
  eapply world_ok_set_thread; [done..|]. apply (ok_threads _ H1) in H2 as Ht.
  apply (thread_ok_maps _ _ x0); try done; apply Ht.
Qed.

Lemma handle_msg_ok j td w w' : world_inv tr w → handle_msg j td w = Val w' → world_inv tr w'.
Proof.
  intros Hw He. unfold handle_msg in He. inv_outcome. rename x into t, H0 into Hj.
  destruct (td_msg_type td =? 0).
  { case_match; [by eapply world_ok_write|by simplify_eq]. }
  destruct (td_msg_type td =? 1); [|done].
  destruct (wt_sub_map t !! td_to_id td) as [sub|] eqn:Hs; [|by simplify_eq].
  destruct (wt_bev_id t !! sub_bev sub) eqn:Hb; [|done]. inv_outcome. subst w'.
  eapply (world_ok_remove w j t (sub_bev sub) (td_to_id td) (wt_conn_num t)); [done|done| |lia|done|].
  - eapply removable_sub; [by apply Hw|done|by rewrite Hb].
  - intros C HC. by destruct t.
Qed.

Lemma handle_msgs_ok j pipe w w' : world_inv tr w → handle_msgs j pipe w = Val w' → world_inv tr w'.
Proof.
  revert w. induction pipe as [|td pipe IH]; intros w Hw He; cbn in He; inv_outcome.
  - by subst.
  - eapply IH; [|done]. by eapply handle_msg_ok.
Qed.

Lemma notify_new_msg_callback_ok j w w' :
  world_inv tr w → notify_new_msg_callback j w = Val w' → world_inv tr w'.
Proof.
  intros Hw He. unfold notify_new_msg_callback in He. inv_outcome.
  eapply handle_msgs_ok; [|done]. eapply world_ok_set_thread; [done..|].
  apply (ok_threads _ Hw) in H0 as Ht.
  apply (thread_ok_maps _ _ x); try done; [apply Ht|]. intros td []%not_elem_of_nil.
Qed.

Lemma thread_ok_analyse C j t a : thread_inv tr C j t → thread_inv tr C j (set_analyse_req a t).
Proof. intros Ht. apply (thread_ok_maps _ _ t); try done; apply Ht. Qed.

Lemma frame_login_ok C j b t : thread_inv tr C j t → thread_inv tr C j (frame_login j b t).
Proof.
  intros Ht. unfold frame_login. destruct (get_login_data _) as [[ld|] ar].
  - by apply thread_ok_cmd, thread_ok_analyse.
  - by apply thread_ok_analyse.
Qed.

Lemma frame_heart_ok C j now id t : thread_inv tr C j t → thread_inv tr C j (frame_heart now id t).
Proof.
  intros Ht. unfold frame_heart. destruct (is_heart _) as [heart ar].
  destruct (_ && _); [|by apply thread_ok_analyse].
  case_match; [|by apply thread_ok_analyse].
  apply thread_ok_heartbeat; [|done]. by apply thread_ok_analyse.
Qed.

Lemma frame_trans_ok j id t t' w :
  world_inv tr w → w_threads w !! j = Some t → thread_inv tr (ctxs w) j t' →
  world_inv tr (frame_trans msg_cap j id t' w).
Proof.
  intros Hw Hj Ht'. unfold frame_trans.
  destruct (get_trans_data _) as [td ar]. apply (thread_ok_analyse _ _ _ ar) in Ht'.
  assert (∀ u, thread_inv tr (ctxs w) j u → world_inv tr (set_thread j u w)) as Hset.
  { intros u. by apply world_ok_set_thread with t. }
  cbv zeta. repeat case_match; try by apply Hset.
  - apply send_message_ok; [by left|]. by apply Hset.
  - apply Hset, thread_ok_cmd; done.
Qed.

Lemma after_frame_ok j b id w w' :
  world_inv tr w → after_frame msg_cap j b id w = Val w' → world_inv tr w'.
Proof.
  intros Hw He. unfold after_frame in He.
  apply outcome_bind_Val in He as (t & Ht%get_thread_Some & <-%Val_inj).
  eapply frame_trans_ok; [done..|]. apply frame_heart_ok, frame_login_ok. by apply Hw.
Qed.

Lemma read_loop_ok fuel j b id w w' :
  world_inv tr w → read_loop msg_cap fuel j b id w = Val w' → world_inv tr w'.
Proof.
  revert w. induction fuel as [|fuel IH]; intros w Hw He; cbn [read_loop] in He; [done|].
  apply outcome_bind_Val in He as (be & Hb%or_undef_Some & He).
  destruct (_ >? 3); [|by simplify_eq].
  apply outcome_bind_Val in He as (t & Ht%get_thread_Some & He).
  apply outcome_bind_Val in He as ([[[r ar] input] output] & Ha & He).
  match type of He with context [after_frame _ _ _ _ ?u] => set (w1 := u) in * end.
  assert (world_inv tr w1) as Hw1.
  { subst w1. eapply world_ok_set_thread; [by eapply world_ok_buffers|done|].
    apply thread_ok_analyse. rewrite (ctxs_same _ _ be) by done. by apply Hw. }
  destruct r; [|by simplify_eq].
  apply outcome_bind_Val in He as (w2 & Hf & He).
  eapply IH; [|done]. by eapply after_frame_ok.
Qed.

Lemma bufferevent_read_callback_ok j b w w' :
  world_inv tr w → bufferevent_read_callback msg_cap j b w = Val w' → world_inv tr w'.
Proof.
  intros Hw (t & _ & (be & _ & He)%outcome_bind_Val)%outcome_bind_Val. by eapply read_loop_ok.
Qed.

Lemma bufferevent_receive_ok b data w : world_inv tr w → world_inv tr (bufferevent_receive b data w).
Proof.
  intros Hw. unfold bufferevent_receive. destruct (w_bevs w !! b) eqn:Hb; [|done].
  by eapply world_ok_buffers.
Qed.

Lemma bufferevent_event_callback_ok j b events be w w' :
  world_inv tr w → w_bevs w !! b = Some be → bev_ctx be = CtxThread j →
  bufferevent_event_callback j b events w = Val w' → world_inv tr w'.
Proof.
  intros Hw Hb Hc He. unfold bufferevent_event_callback in He. inv_outcome.
  rename x into t, H0 into Hj. destruct (negb _); [|by simplify_eq].
  assert (is_Some (wt_bev_id t !! b)) as [id Hid].
  { apply (ok_live _ _ _ (ok_threads _ Hw _ _ Hj)). rewrite ctxs_lookup, Hb. simpl. by f_equal. }
  rewrite Hid in He. inv_outcome. subst w'.
  eapply (world_ok_remove w j t b id); [done|done| | |done|].
  - eapply removable_bev; [by apply Hw|done].
  - reflexivity.
  - intros C HC. destruct (id =? 0); [done|]. by apply thread_ok_cmd.
Qed.

(** ** Logins *)

(** What is asked of the connection of a login: it is live and, with trusted clients, not logged in. *)
Definition registrable (t : WorkThread) (ld : LoginData) : Prop :=
  is_Some (wt_bev_id t !! ld_bev ld) ∧ wt_sub_map t !! ld_id ld = None ∧
  (tr = true → wt_bev_id t !! ld_bev ld = Some 0 ∧ ld_id ld ≠ 0).

Lemma sub_bev_set now id b : sub_bev (set_id_bev now id b) = b.
Proof. by destruct now. Qed.

Lemma register_login_ok j t ld w w' :
  world_inv tr w → w_threads w !! j = Some t → registrable t ld →
  register_login j ld w = Val w' → world_inv tr w'.
Proof.
  intros Hw Hj (Hb & Hs & Hid) He. unfold register_login in He.
  apply outcome_bind_Val in He as (t' & Hj'%get_thread_Some & <-%Val_inj).
  rewrite Hj in Hj'. injection Hj' as <-. rewrite Hs. apply world_ok_set_thread with t; [done..|].
  apply thread_ok_cmd; [done|]. apply thread_ok_login; try done; [by apply Hw|apply sub_bev_set].
Qed.

Lemma drop_old_login_ok j t sub id w w' :
  world_inv tr w → w_threads w !! j = Some t → wt_sub_map t !! id = Some sub →
  drop_old_login j sub id w = Val w' →
  world_inv tr w' ∧ w_threads w' !! j =
    Some (set_maps (delete id (wt_sub_map t)) (delete (sub_bev sub) (wt_bev_id t)) t) ∧
    (is_Some (wt_bev_id t !! sub_bev sub) → w_bevs w' !! sub_bev sub = None).
Proof.
  intros Hw Hj Hs He. unfold drop_old_login in He. pose proof (ok_threads _ Hw _ _ Hj) as Ht.
  apply outcome_bind_Val in He as (t' & Hj'%get_thread_Some & He).
  rewrite Hj in Hj'. injection Hj' as <-.
  destruct (wt_bev_id t !! sub_bev sub) as [i|] eqn:Hb.
  - apply outcome_bind_Val in He as (w1 & Hf & <-%Val_inj). split.
    + eapply (world_ok_remove w j t (sub_bev sub) id (wt_conn_num t)); [done|done| |lia|done|].
      * by eapply removable_sub; [..|rewrite Hb].
      * intros C HC. by destruct t.
    + apply bufferevent_free_inv in Hf as [-> _]. simpl. split; [|intros _; apply lookup_delete_eq].
      apply list_lookup_insert_eq. by eapply lookup_lt_Some.
  - apply Val_inj in He as <-. split; [|split; [|by intros []]].
    + apply world_ok_set_thread with t; [done..|]. by eapply thread_ok_forget.
    + rewrite (delete_id (wt_bev_id t)) by done. simpl. apply list_lookup_insert_eq. by eapply lookup_lt_Some.
Qed.

(** The tail both login paths share. *)
Lemma register_answer_ok j t ld rsp w w' :
  world_inv tr w → w_threads w !! j = Some t → registrable t ld →
  (w ← register_login j ld w; bev_write (ld_bev ld) rsp w) = Val w' → world_inv tr w'.
Proof.
  intros Hw Hj Hb (w1 & Hr & He)%outcome_bind_Val.
  eapply world_ok_write; [|done]. by eapply register_login_ok.
Qed.

Lemma login_ok_ok e t ld w w' :
  world_inv tr w → w_threads w !! ld_work_thread ld = Some t → registrable t ld →
  login_ok msg_cap e ld w = Val w' → world_inv tr w'.
Proof.
  intros Hw Hj Hb He. unfold login_ok in He.
  set (js := filter _ _) in He.
  destruct (notify_del_all_more js (ld_id ld) w) as (Hmore & _ & _).
  destruct (threads_more_lookup _ _ _ _ Hmore Hj) as (t' & Hj' & p & -> & _).
  apply outcome_bind_Val in He as (t1 & _ & He).
  apply outcome_bind_Val in He as (rsp & _ & He).
  eapply register_answer_ok; [by apply notify_del_all_ok|done..].
Qed.

(** The connection of a login is not logged in yet: what a client that logs in
    once guarantees.  Over redis a repeated login with the same id is harmless. *)
Definition login_fresh (ld : LoginData) (w : World) : Prop :=
  ld_id ld ≠ 0 ∧
  ∀ t id, w_threads w !! ld_work_thread ld = Some t → wt_bev_id t !! ld_bev ld = Some id → id = 0.

Definition login_same (ld : LoginData) (w : World) : Prop :=
  ld_id ld ≠ 0 ∧
  ∀ t id, w_threads w !! ld_work_thread ld = Some t → wt_bev_id t !! ld_bev ld = Some id →
    id = 0 ∨ id = ld_id ld.

Lemma http_login_check_ok e ld w :
  world_inv tr w → w_bevs w !! env_ptr e = None → (ld_work_thread ld < length (w_threads w))%nat →
  world_inv tr (http_login_check e ld w).2.
Proof.
  intros Hw Hp Hl. unfold http_login_check. destruct (env_connect e); [|done].
  by apply world_ok_new_http.
Qed.

Lemma redis_login_callback_ok e reply ld w w' :
  world_inv tr w → w_bevs w !! env_ptr e = None → (tr = true → login_same ld w) →
  redis_login_callback msg_cap e reply ld w = Val w' → world_inv tr w'.
Proof.
  intros Hw Hp Hsame He. unfold redis_login_callback in He.
  apply outcome_bind_Val in He as (t & Hj%get_thread_Some & He).
  destruct (wt_bev_id t !! ld_bev ld) as [i|] eqn:Hb; [|by simplify_eq].
  destruct (reply ≫= reply_str) as [str|].
  2: { apply Val_inj in He as <-. apply http_login_check_ok; [done..|]. by eapply lookup_lt_Some. }
  case_bool_decide.
  2: { apply outcome_bind_Val in He as (rsp & _ & He). by eapply world_ok_write. }
  pose proof (ok_bev _ _ _ (ok_threads _ Hw _ _ Hj) _ _ Hb) as Hi.
  assert (∀ sub, wt_sub_map t !! ld_id ld = Some sub → sub_bev sub ≠ ld_bev ld → tr = true → i = 0 ∧ ld_id ld ≠ 0) as Hz.
  { intros sub Hs Hne Htr. destruct (Hsame Htr) as [Hid Hf]. split; [|done].
    destruct (Hf _ _ Hj Hb) as [?| ->]; [done|]. destruct (Hi Hid) as (sub' & ? & ?). congruence. }
  assert (wt_sub_map t !! ld_id ld = None → tr = true → i = 0 ∧ ld_id ld ≠ 0) as Hz'.
  { intros Hs Htr. destruct (Hsame Htr) as [Hid Hf]. split; [|done].
    destruct (Hf _ _ Hj Hb) as [?| ->]; [done|]. destruct (Hi Hid) as (sub' & ? & ?). congruence. }
  destruct (wt_sub_map t !! ld_id ld) as [sub|] eqn:Hs.
  2: { eapply login_ok_ok; [done..| |done]. split; [by rewrite Hb|]. split; [done|]. intros Htr.
       destruct (Hz' eq_refl Htr) as [-> ?]. done. }
  destruct (sub_bev sub =? ld_bev ld) eqn:Hsb; [by simplify_eq|]. apply Z.eqb_neq in Hsb.
  apply outcome_bind_Val in He as (w1 & Hd & He).
  destruct (drop_old_login_ok _ _ _ _ _ _ Hw Hj Hs Hd) as (Hw1 & Hj1 & _).
  eapply login_ok_ok; [done..| |done]. unfold registrable. simpl. rewrite lookup_delete_ne, lookup_delete_eq, Hb by done.
  split; [done|]. split; [done|]. intros Htr. destruct (Hz _ eq_refl Hsb Htr) as [-> ?]. done.
Qed.

Lemma http_login_ok_ok e t ld w w' :
  world_inv tr w → w_threads w !! ld_work_thread ld = Some t → is_Some (wt_bev_id t !! ld_bev ld) →
  (tr = true → wt_bev_id t !! ld_bev ld = Some 0 ∧ ld_id ld ≠ 0) →
  http_login_ok msg_cap e ld w = Val w' → world_inv tr w'.
Proof.
  intros Hw Hj Hb Hid He. unfold http_login_ok in He.
  apply outcome_bind_Val in He as (t' & Hj'%get_thread_Some & He).
  rewrite Hj in Hj'. injection Hj' as <-.
  apply outcome_bind_Val in He as (w1 & Hd & He). cbv zeta in He.
  set (js := seq _ _) in He.
  destruct (notify_del_all_more js (ld_id ld) w1) as (Hmore & Hbevs & _).
  apply outcome_bind_Val in He as (rsp & _ & He).
  assert (∃ t, world_inv tr w1 ∧ w_threads w1 !! ld_work_thread ld = Some t ∧ registrable t ld) as (t1 & Hw1 & Hj1 & Hr1).
  { destruct (wt_sub_map t !! ld_id ld) as [sub|] eqn:Hs.
    - destruct (drop_old_login_ok _ _ _ _ _ _ Hw Hj Hs Hd) as (Hw1 & Hj1 & Hgone).
      eexists. split; [done|]. split; [done|]. unfold registrable. simpl. rewrite lookup_delete_eq.
      destruct (decide (sub_bev sub = ld_bev ld)) as [Heq|Hne]; [|by rewrite lookup_delete_ne].
      exfalso. apply outcome_bind_Val in He as (w2 & Hr & He).
      apply outcome_bind_Val in Hr as (t2 & _ & <-%Val_inj).
      apply bev_write_inv in He as (_ & _ & _ & Hlive). simpl in Hlive. rewrite Hbevs in Hlive.
      rewrite <- Heq in Hb, Hlive. rewrite (Hgone Hb) in Hlive. by destruct Hlive.
    - apply Val_inj in Hd as <-. exists t. done. }
  destruct (threads_more_lookup _ _ _ _ Hmore Hj1) as (t2 & Hj1' & p & -> & _).
  eapply register_answer_ok; [by apply notify_del_all_ok|done..].
Qed.

(** Logins free bufferevents and add none. *)
Lemma drop_old_login_ctxs j sub id w w' :
  drop_old_login j sub id w = Val w' → ctxs w' ⊆ ctxs w.
Proof.
  intros (t & _ & He)%outcome_bind_Val. case_match.
  - apply outcome_bind_Val in He as (w1 & [-> _]%bufferevent_free_inv & <-%Val_inj).
    unfold ctxs. simpl. rewrite fmap_delete. apply delete_subseteq.
  - by apply Val_inj in He as <-.
Qed.

Lemma http_login_ok_ctxs e ld w w' :
  http_login_ok msg_cap e ld w = Val w' → ctxs w' ⊆ ctxs w.
Proof.
  intros (t & _ & (w1 & Hd & (rsp & _ & (w2 & Hr & Hw)%outcome_bind_Val)%outcome_bind_Val)
    %outcome_bind_Val)%outcome_bind_Val.
  apply bev_write_inv in Hw as (_ & _ & -> & _).
  apply outcome_bind_Val in Hr as (t2 & _ & <-%Val_inj).
  unfold ctxs at 1. simpl. rewrite (proj1 (proj2 (notify_del_all_more _ _ _))). fold (ctxs w1).
  case_match; [by eapply drop_old_login_ctxs|]. by apply Val_inj in Hd as <-.
Qed.

(** Freeing the HTTP bufferevent at the end of its callback. *)
Lemma free_http_ok hb c w w1 w' :
  world_inv tr w1 → ctxs w1 ⊆ ctxs w → ctxs w !! hb = Some c → (∀ j, c ≠ CtxThread j) →
  bufferevent_free hb w1 = Val w' → world_inv tr w'.
Proof.
  intros Hw1 Hsub Hc Hne Hf. destruct (bufferevent_free_inv _ _ _ Hf) as [_ [be Hb]].
  eapply world_ok_free_http; [done..| |done]. intros j Hj. apply (Hne j).
  assert (ctxs w1 !! hb = Some (bev_ctx be)) as Hb' by (by rewrite ctxs_lookup, Hb).
  pose proof (lookup_weaken _ _ _ _ Hb' Hsub). congruence.
Qed.

Lemma http_login_read_ok e hb w w' :
  world_inv tr w → (tr = true → ∀ be ld, w_bevs w !! hb = Some be → bev_ctx be = CtxLogin ld → login_fresh ld w) →
  http_login_read msg_cap e hb w = Val w' → world_inv tr w'.
Proof.
  intros Hw Hfresh (be & Hb%or_undef_Some & He)%outcome_bind_Val.
  destruct (bev_ctx be) as [|ld|] eqn:Hc; [done| |done].
  cbv zeta in He.
  match type of He with context [get_thread ?u _] => set (w0 := u) in * end.
  assert (world_inv tr w0) as Hw0 by (by eapply world_ok_buffers).
  assert (ctxs w0 !! hb = Some (CtxLogin ld)) as Hhb.
  { rewrite ctxs_lookup. simpl. by rewrite lookup_insert_eq. }
  apply outcome_bind_Val in He as (t & Hj%get_thread_Some & He).
  apply outcome_bind_Val in He as (w1 & H1 & He).
  assert (world_inv tr w1 ∧ ctxs w1 ⊆ ctxs w0) as [Hw1 Hsub].
  { destruct (wt_bev_id t !! ld_bev ld) as [i|] eqn:Hbi; [|by apply Val_inj in H1 as <-].
    apply outcome_bind_Val in H1 as (r & _ & H1). destruct r.
    - split; [|by eapply http_login_ok_ctxs]. eapply http_login_ok_ok; [done..|by rewrite Hbi| |done].
      intros Htr. destruct (Hfresh Htr _ _ Hb Hc) as [Hid Hf0]. pose proof (Hf0 _ _ Hj Hbi) as ->. done.
    - apply outcome_bind_Val in H1 as (rsp & _ & H1).
      split; [by eapply world_ok_write|]. by apply bev_write_inv in H1 as (_ & _ & -> & _). }
  eapply free_http_ok; [done..| |done]. done.
Qed.

Lemma http_login_event_ok e hb event w w' :
  world_inv tr w → http_login_event e hb event w = Val w' → world_inv tr w'.
Proof.
  intros Hw (be & Hb%or_undef_Some & He)%outcome_bind_Val.
  destruct (bev_ctx be) as [|ld|] eqn:Hc; [done| |done].
  apply outcome_bind_Val in He as (t & Hj%get_thread_Some & He).
  assert (ctxs w !! hb = Some (CtxLogin ld)) as Hhb by (rewrite ctxs_lookup, Hb; simpl; by f_equal).
  destruct (negb _).
  - apply outcome_bind_Val in He as (w1 & H1 & He).
    assert (world_inv tr w1 ∧ ctxs w1 = ctxs w) as [Hw1 Hsub].
    { case_match; [|by apply Val_inj in H1 as <-].
      apply outcome_bind_Val in H1 as (rsp & _ & H1).
      split; [by eapply world_ok_write|]. by apply bev_write_inv in H1 as (_ & _ & -> & _). }
    eapply (free_http_ok hb _ w w1); [done|by rewrite Hsub|done| |done]. done.
  - destruct (negb _); [|by apply Val_inj in He as <-].
    apply outcome_bind_Val in He as (req & _ & He). by eapply world_ok_write.
Qed.

(** ** Messages and presence *)

Lemma http_trans_check_ok e td w :
  world_inv tr w → w_bevs w !! env_ptr e = None → (td_work_thread td < length (w_threads w))%nat →
  td_msg_type td = 0 → world_inv tr (http_trans_check e td w).2.
Proof.
  intros Hw Hp Hl Ht. unfold http_trans_check. destruct (env_connect e); [|done].
  by apply world_ok_new_http.
Qed.

Lemma redis_trans_callback_ok e reply td w w' :
  world_inv tr w → w_bevs w !! env_ptr e = None → (td_work_thread td < length (w_threads w))%nat →
  td_msg_type td = 0 → redis_trans_callback msg_cap e reply td w = Val w' → world_inv tr w'.
Proof.
  intros Hw Hp Hl Ht He. unfold redis_trans_callback in He.
  assert (msg_ok td) by (by left).
  destruct reply as [[]|]; [..|done]; apply Val_inj in He as <-;
    first [by apply send_message_ok | by apply http_trans_check_ok].
Qed.

Lemma http_trans_read_ok hb w w' :
  world_inv tr w → http_trans_read msg_cap hb w = Val w' → world_inv tr w'.
Proof.
  intros Hw (be & Hb%or_undef_Some & He)%outcome_bind_Val.
  destruct (bev_ctx be) as [| |td] eqn:Hc; [done|done|].
  cbv zeta in He.
  match type of He with context [send_message _ _ ?u] => set (w0 := u) in * end.
  assert (world_inv tr w0) as Hw0 by (by eapply world_ok_buffers).
  assert (ctxs w0 !! hb = Some (CtxTrans td)) as Hhb.
  { rewrite ctxs_lookup. simpl. by rewrite lookup_insert_eq. }
  destruct (ok_ctxs _ Hw0 _ _ Hhb) as [_ Hty].
  apply outcome_bind_Val in He as (r & _ & He). cbv zeta in He.
  match type of He with bufferevent_free _ ?u = _ => assert (world_inv tr u ∧ ctxs u = ctxs w0) as [Hw1 Hs] end.
  { destruct r; [|done]. split; [by apply send_message_ok; [left|]|].
    unfold send_message. by destruct (send_first _ _ _). }
  eapply (free_http_ok hb _ w0); [done|by rewrite Hs|done| |done]. done.
Qed.

Lemma http_trans_event_ok hb event w w' :
  world_inv tr w → http_trans_event hb event w = Val w' → world_inv tr w'.
Proof.
  intros Hw (be & Hb%or_undef_Some & He)%outcome_bind_Val.
  destruct (bev_ctx be) as [| |td] eqn:Hc; [done|done|].
  apply outcome_bind_Val in He as (t & Hj%get_thread_Some & He).
  destruct (negb _).
  - eapply world_ok_free_http; [done..| |done]. intros j. congruence.
  - destruct (negb _); [|by apply Val_inj in He as <-].
    apply outcome_bind_Val in He as (req & _ & He). by eapply world_ok_write.
Qed.

Lemma redis_online_notify_ok e reply oi w w' :
  world_inv tr w → redis_online_notify msg_cap e reply oi w = Val w' → world_inv tr w'.
Proof.
  intros Hw He. unfold redis_online_notify in He.
  destruct reply as [[|[|f0 fs]| | | |]|]; try by apply Val_inj in He as <-.
  apply outcome_bind_Val in He as (t & _ & He). case_match; [|by apply Val_inj in He as <-].
  apply outcome_bind_Val in He as (msg & _ & He).
  pose proof (tell_friends_more (oi_id oi) msg (f0 :: fs) (w_threads w)) as Hm.
  destruct (tell_friends _ _ _ _ _) as [sts ts].
  apply outcome_bind_Val in He as ([des len] & _ & He).
  eapply world_ok_write; [|done]. by apply (world_ok_more w).
Qed.

Lemma redis_offline_notify_ok e reply fi w w' :
  world_inv tr w → redis_offline_notify msg_cap e reply fi w = Val w' → world_inv tr w'.
Proof.
  intros Hw He. unfold redis_offline_notify in He.
  destruct reply as [[|[|f0 fs]| | | |]|]; try by apply Val_inj in He as <-.
  apply outcome_bind_Val in He as (msg & _ & He).
  pose proof (tell_friends_more (fi_id fi) msg (f0 :: fs) (w_threads w)) as Hm.
  destruct (tell_friends _ _ _ _ _) as [sts ts].
  apply Val_inj in He as <-. by apply (world_ok_more w).
Qed.

(** ** Events *)

Inductive event :=
  | EvPipe (j : nat) (data : Z)                 (** the acceptor writes to the pipe of [j] *)
  | EvClock (now : option Z)                    (** what gettimeofday will return *)
  | EvNewConn (j : nat) (ptrs order : list Z)   (** thread [j]'s connection pipe is readable *)
  | EvNewMsg (j : nat)                          (** thread [j]'s message pipe is readable *)
  | EvReceive (b : Z) (data : list byte)        (** bytes arrive on a socket *)
  | EvRead (e : Env) (b : Z)                    (** the read callback of [b] *)
  | EvEvent (e : Env) (b events : Z)            (** the event callback of [b] *)
  | EvRedis (e : Env) (j : nat) (reply : option redisReply).
                                                (** redis answers [j]'s oldest command *)

Definition set_now (now : option Z) (w : World) : World :=
  {| w_threads := w_threads w; w_bevs := w_bevs w; w_now := now |}.

Definition redis_reply (e : Env) (reply : option redisReply) (c : RedisCmd) (w : World)
  : outcome World :=
  match c with
  | GET_sToken _ ld => redis_login_callback msg_cap e reply ld w
  | ZSCORE_ssUD _ _ td => redis_trans_callback msg_cap e reply td w
  | ZRANGE_online _ oi => redis_online_notify msg_cap e reply oi w
  | ZRANGE_offline _ fi => redis_offline_notify msg_cap e reply fi w
  end.

Definition handle (ev : event) (w : World) : outcome World :=
  match ev with
  | EvPipe j data =>
      t ← get_thread w j; Val (set_thread j (notify_new_conn conn_cap data t).2 w)
  | EvClock now => Val (set_now now w)
  | EvNewConn j ptrs order => notify_new_conn_callback j ptrs order w
  | EvNewMsg j => notify_new_msg_callback j w
  | EvReceive b data => Val (bufferevent_receive b data w)
  | EvRead e b =>
      be ← or_undef UseAfterFree (w_bevs w !! b);
      match bev_ctx be with
      | CtxThread j => bufferevent_read_callback msg_cap j b w
      | CtxLogin _ => http_login_read msg_cap e b w
      | CtxTrans _ => http_trans_read msg_cap b w
      end
  | EvEvent e b events =>
      be ← or_undef UseAfterFree (w_bevs w !! b);
      match bev_ctx be with
      | CtxThread j => bufferevent_event_callback j b events w
      | CtxLogin _ => http_login_event e b events w
      | CtxTrans _ => http_trans_event b events w
      end
  | EvRedis e j reply =>
      t ← get_thread w j;
      match wt_cmds t with
      | [] => Val w
      | c :: cmds => redis_reply e reply c (set_thread j (set_cmds cmds t) w)
      end
  end.

(** What libevent and hiredis guarantee of an event: callbacks only for live bufferevents,
    fresh addresses for new ones. *)
Definition enabled (ev : event) (w : World) : Prop :=
  match ev with
  | EvPipe j _ | EvNewMsg j => (j < length (w_threads w))%nat
  | EvClock _ | EvReceive _ _ => True
  | EvNewConn j ptrs _ =>
      (j < length (w_threads w))%nat ∧ NoDup ptrs ∧ (10 <= length ptrs)%nat ∧
      (∀ p, p ∈ ptrs → w_bevs w !! p = None)
  | EvRead _ b | EvEvent _ b _ => is_Some (w_bevs w !! b)
  | EvRedis e j _ => (j < length (w_threads w))%nat ∧ w_bevs w !! env_ptr e = None
  end.

(** What the clients are trusted with, which nothing in the program enforces: an answer to a login
    (of redis, or of the account server) never comes for the id 0 or for a connection that is
    logged in under another id. *)
Definition one_login (ev : event) (w : World) : Prop :=
  match ev with
  | EvRead _ b => ∀ be ld, w_bevs w !! b = Some be → bev_ctx be = CtxLogin ld → login_fresh ld w
  | EvRedis e j _ => ∀ t k ld cmds, w_threads w !! j = Some t → wt_cmds t = GET_sToken k ld :: cmds → login_same ld w
  | _ => True
  end.

Inductive step (w w' : World) : Prop :=
  | step_event ev : enabled ev w → handle ev w = Val w' → step w w'.
Inductive trusted_step (w w' : World) : Prop :=
  | trusted_step_event ev : enabled ev w → one_login ev w → handle ev w = Val w' → trusted_step w w'.

(** A sequence of events, one callback after the other. *)
Fixpoint run (evs : list event) (w : World) : outcome World :=
  match evs with
  | [] => Val w
  | ev :: evs => w ← handle ev w; run evs w
  end.

Fixpoint run_enabled (evs : list event) (w : World) : Prop :=
  match evs with
  | [] => True
  | ev :: evs =>
      enabled ev w ∧ one_login ev w ∧ match handle ev w with Val w => run_enabled evs w | Undef _ => True end
  end.

Lemma run_rtc evs w w' : run_enabled evs w → run evs w = Val w' → rtc trusted_step w w'.
Proof.
  revert w. induction evs as [|ev evs IH]; intros w; cbn [run run_enabled].
  - by intros _ <-%Val_inj.
  - intros (Hen & Ho & Hr) (w1 & H1 & H2)%outcome_bind_Val. rewrite H1 in Hr.
    eapply rtc_l; [by eapply trusted_step_event|]. by apply IH.
Qed.

(** The state the constructor and [start_thread] set up; [_is_heart] is not
    initialised. *)
Definition init_thread (heart : bool) (ping_time : Z) (http_url : list byte) : WorkThread :=
  {| wt_conn_num := 0; wt_ping_time := ping_time; wt_http_url := http_url;
     wt_new_conn_fd := []; wt_new_msg_fd := []; wt_sub_map := ∅; wt_bev_id := ∅;
     wt_analyse_req := {| ar_is_heart := heart; ar_login_data := None; ar_trans_data := None |};
     wt_cmds := []; wt_stopped := false |}.

Definition init_world (n : nat) (heart : bool) (ping_time : Z) (http_url : list byte) (now : option Z)
  : World :=
  {| w_threads := replicate n (init_thread heart ping_time http_url); w_bevs := ∅; w_now := now |}.

Lemma init_world_ok n heart ping url now :
  (tr = true → - 2 ^ 30 <= ping < 2 ^ 30) → world_inv tr (init_world n heart ping url now).
Proof.
  intros Hping. split; unfold ctxs; simpl; rewrite fmap_empty.
  - intros j t [-> _]%lookup_replicate.
    split; simpl; try (by intros * []%not_elem_of_nil); try done.
    intros b. rewrite !lookup_empty. by split; [intros []|].
  - intros b c. by rewrite lookup_empty.
Qed.

Lemma redis_reply_ok e reply c j w w' :
  world_inv tr w → cmd_ok j c → (j < length (w_threads w))%nat → w_bevs w !! env_ptr e = None →
  (tr = true → ∀ k ld, c = GET_sToken k ld → login_same ld w) →
  redis_reply e reply c w = Val w' → world_inv tr w'.
Proof.
  intros Hw Hc Hj Hp Hl. destruct c as [k ld|f t td|i oi|i fi]; simpl in *.
  - apply redis_login_callback_ok; [done..|]. intros Htr. by eapply Hl.
  - destruct Hc as [<- ?]. by apply redis_trans_callback_ok.
  - by apply redis_online_notify_ok.
  - by apply redis_offline_notify_ok.
Qed.

Lemma thread_ok_pop C j t c cmds :
  thread_inv tr C j t → wt_cmds t = c :: cmds → thread_inv tr C j (set_cmds cmds t) ∧ cmd_ok j c.
Proof.
  intros Ht Hc. split; [|apply (ok_cmds _ _ _ Ht); rewrite Hc; by left].
  apply (thread_ok_maps _ _ t); try done; [|apply Ht].
  intros c' ?. apply (ok_cmds _ _ _ Ht). rewrite Hc. by right.
Qed.

(** [login_same] does not look at the command queue. *)
Lemma login_same_cmds ld j t cmds w :
  w_threads w !! j = Some t → login_same ld w → login_same ld (set_thread j (set_cmds cmds t) w).
Proof.
  intros Hj [Hid Hs]. split; [done|]. simpl. intros u id.
  rewrite list_lookup_insert_Some. intros [(Heq & Hu & _)|(_ & Hu)] Hb; [|by eapply Hs].
  subst u. apply (Hs t); [|done]. by rewrite <- Heq.
Qed.

Lemma handle_ok ev w w' : world_inv tr w → enabled ev w → (tr = true → one_login ev w) → handle ev w = Val w' → world_inv tr w'.
Proof.
  intros Hw Hen Ho He. destruct ev as [j data|now|j ptrs order|j|b data|e b|e b events|e j reply];
    cbn [handle enabled one_login] in *.
  - apply outcome_bind_Val in He as (t & Hj%get_thread_Some & <-%Val_inj).
    pose proof (ok_threads _ Hw _ _ Hj) as Ht. apply world_ok_set_thread with t; [done..|].
    unfold notify_new_conn. destruct (_ <? _)%nat; [|done].
    apply (thread_ok_maps _ _ t); try done; apply Ht.
  - apply Val_inj in He as <-. by apply (world_ok_ctxs w).
  - destruct Hen as (_ & ? & ? & ?). by eapply notify_new_conn_callback_ok.
  - by eapply notify_new_msg_callback_ok.
  - apply Val_inj in He as <-. by apply bufferevent_receive_ok.
  - destruct Hen as (be & Hb). rewrite Hb in He. cbn in He.
    destruct (bev_ctx be) eqn:Hc.
    + by eapply bufferevent_read_callback_ok.
    + by eapply http_login_read_ok.
    + by eapply http_trans_read_ok.
  - destruct Hen as (be & Hb). rewrite Hb in He. cbn in He. destruct (bev_ctx be) eqn:Hc.
    + by eapply bufferevent_event_callback_ok.
    + by eapply http_login_event_ok.
    + by eapply http_trans_event_ok.
  - destruct Hen as (Hlen & Hp).
    apply outcome_bind_Val in He as (t & Hj%get_thread_Some & He).
    destruct (wt_cmds t) as [|c cmds] eqn:Hc; [by apply Val_inj in He as <-|].
    destruct (thread_ok_pop _ _ _ _ _ (ok_threads _ Hw _ _ Hj) Hc) as [Ht Hcmd].
    eapply (redis_reply_ok e reply c j); [..|done]; [|done| |done|].
    + by apply world_ok_set_thread with t.
    + simpl. by rewrite length_insert.
    + intros Htr k ld ->. apply login_same_cmds; [done|]. by eapply Ho.
Qed.

Lemma rtc_step_ok w w' : tr = false → rtc step w w' → world_inv tr w → world_inv tr w'.
Proof.
  intros Htr. induction 1 as [|w1 w2 w3 [ev Hen He] _ IH]; [done|]. intros Hw. apply IH.
  eapply handle_ok; [done..| |done]. by rewrite Htr.
Qed.
Lemma rtc_trusted_ok w w' : rtc trusted_step w w' → world_inv tr w → world_inv tr w'.
Proof.
  induction 1 as [|w1 w2 w3 [ev Hen Ho He] _ IH]; [done|]. intros Hw. apply IH. by eapply handle_ok.
Qed.
End steps.

Section reachable.
Context `{CometProto} (conn_cap msg_cap : nat).

(** C1.  The invariant of the worker threads.  In every state the event loops can reach, whatever the
    clients send: for each thread the keys of [_bev_id] are exactly its live connections, a connection
    that is logged in is the one of the subscriber of its id, [_conn_num] is at least the number of
    connections, and what waits in pipes and at redis belongs to the thread.  If moreover logins are
    answered only for an id other than 0 and for connections that are not logged in under another id
    ([one_login], which the program does not enforce: work_thread.cc:450 and :684) and the ping time is
    within 2^30, then every subscriber has the connection that is logged in under its id, and id 0
    has none. *)
Theorem reachable_world_ok n heart ping url now w :
  (rtc (step conn_cap msg_cap) (init_world n heart ping url now) w → world_inv false w) ∧
  (- 2 ^ 30 <= ping < 2 ^ 30 → rtc (trusted_step conn_cap msg_cap) (init_world n heart ping url now) w → world_ok w).
Proof.
  split.
  - intros Hr. eapply rtc_step_ok; [done..|]. by apply init_world_ok.
  - intros Hp Hr. eapply rtc_trusted_ok; [done|]. by apply init_world_ok.
Qed.
End reachable.
