(* ===== verification/WorkProps.v ===== *)
(** What the worker threads do: safety of the callbacks, delivery of messages,
    routing between threads, logins, idle connections, and the defects of the
    callbacks that show in the model. *)

From S2P Require Import Prelude EvbufferApi AnalyseReq Frames WorkThread WorkInv WorkStep.

(** Serialized login answers are never empty ([code] is a required field) and
    stay below 2^31 bytes. *)
Class LoginAnswers `{CometProto} : Prop :=
  login_answer code msg ping : S2CLogin_Serialize code msg ping ≠ [] ∧
    Zlen (S2CLogin_Serialize code msg ping) < 2 ^ 31.

Section safety.
Context `{LoginAnswers}.
Context (conn_cap msg_cap : nat).

Lemma get_login_rsp_val u ok msg ping :
  get_login_rsp u ok msg ping =
    Val (wire_frame 0 (z2b 0) 0 0 11 (S2CLogin_Serialize (if ok then 200 else 401) msg ping)).
Proof. apply get_login_rsp_frame; apply login_answer. Qed.

Lemma get_thread_val w j t : w_threads w !! j = Some t → get_thread w j = Val t.
Proof. apply get_thread_Some. Qed.

Lemma bufferevent_free_safe w j t b :
  world_ok w → w_threads w !! j = Some t → is_Some (wt_bev_id t !! b) →
  bufferevent_free b w = Val (set_bevs (delete b (w_bevs w)) w).
Proof.
  intros Hw Hj Hb. destruct (world_ok_ctx _ _ _ _ Hw Hj Hb) as (be & Hbe & _).
  unfold bufferevent_free. by rewrite Hbe.
Qed.

Lemma bev_write_safe w j t b data :
  world_ok w → w_threads w !! j = Some t → is_Some (wt_bev_id t !! b) →
  ∃ w', bev_write b data w = Val w'.
Proof.
  intros Hw Hj Hb. destruct (world_ok_ctx _ _ _ _ Hw Hj Hb) as (be & Hbe & _).
  unfold bev_write. rewrite Hbe. eauto.
Qed.

(** Threads are never removed. *)
Lemma two_pings w j t : world_ok w → w_threads w !! j = Some t → int_val (2 * wt_ping_time t) = Val (2 * wt_ping_time t).
Proof.
  intros Hw Hj. pose proof (ok_ping _ _ _ (ok_threads _ Hw _ _ Hj)). unfold int_val.
  destruct (Z.leb_spec (- 2 ^ 31) (2 * wt_ping_time t)), (Z.ltb_spec (2 * wt_ping_time t) (2 ^ 31)); try lia. done.
Qed.














End safety.

(** ** Delivery of messages *)

(** The bytes message [td] adds to the output of connection [b]. *)
Definition sent_to (t : WorkThread) (b : Z) (td : TransData) : list byte :=
  match wt_sub_map t !! td_to_id td with
  | Some sub => if (td_msg_type td =? 0) && (sub_bev sub =? b) then ztake (td_data_size td) (td_data td) else []
  | None => []
  end.

(** The pipe has an order to log [id] off, or the id connection [b] is logged in under. *)
Definition logs_off (id : Z) (pipe : list TransData) : bool :=
  existsb (λ td, (td_msg_type td =? 1) && (td_to_id td =? id)) pipe.
Definition closes (t : WorkThread) (b : Z) (pipe : list TransData) : bool :=
  match wt_bev_id t !! b with Some id => negb (id =? 0) && logs_off id pipe | None => false end.

Definition add_output (data : list byte) (be : Bev) : Bev :=
  {| bev_input := bev_input be; bev_output := bev_output be ++ data; bev_ctx := bev_ctx be |}.

Section delivery.
Lemma add_output_app d1 d2 be : add_output d2 (add_output d1 be) = add_output (d1 ++ d2) be.
Proof. unfold add_output. simpl. by rewrite app_assoc. Qed.

Lemma add_output_nil be : add_output [] be = be.
Proof. unfold add_output. rewrite app_nil_r. by destruct be. Qed.

Lemma bev_write_output b data w w' :
  bev_write b data w = Val w' →
  w_threads w' = w_threads w ∧ w_now w' = w_now w ∧
  ∀ b', w_bevs w' !! b' = (if b' =? b then add_output data else id) <$> w_bevs w !! b'.
Proof.
  unfold bev_write. destruct (w_bevs w !! b) as [be|] eqn:Hb; [|done].
  intros <-%Val_inj. repeat split. intros b'. simpl. rewrite lookup_insert.
  case_decide; destruct (Z.eqb_spec b' b); subst; try done.
  - by rewrite Hb.
  - symmetry. apply option_fmap_id.
Qed.

(** What is left of thread [t] and of the bufferevents when the pipe has been handled. *)
Record delivered (t : WorkThread) (m : gmap Z Bev) (pipe : list TransData) (t' : WorkThread) (m' : gmap Z Bev) : Prop := {
  dl_bevs b : m' !! b = if closes t b pipe then None else add_output (mjoin (sent_to t b <$> pipe)) <$> m !! b;
  dl_bev_id b : wt_bev_id t' !! b = if closes t b pipe then None else wt_bev_id t !! b;
  dl_sub_map id : wt_sub_map t' !! id = if logs_off id pipe then None else wt_sub_map t !! id;
  dl_rest : t' = set_maps (wt_sub_map t') (wt_bev_id t') t
}.

Lemma closes_nil t b : closes t b [] = false.
Proof. unfold closes. destruct (wt_bev_id t !! b); [|done]. apply andb_false_r. Qed.

Lemma delivered_nil t m : delivered t m [] t m.
Proof.
  split; try done; [..|by destruct t]; intros b; rewrite closes_nil; [|done]. simpl.
  destruct (m !! b); simpl; [|done]. by rewrite add_output_nil.
Qed.

(** A message changes only the output of its recipient. *)
Lemma handle_msg_output j t td w :
  world_ok w → w_threads w !! j = Some t → td_msg_type td = 0 →
  ∃ w', handle_msg j td w = Val w' ∧ w_threads w' = w_threads w ∧
    ∀ b, w_bevs w' !! b = add_output (sent_to t b td) <$> w_bevs w !! b.
Proof.
  intros Hw Hj Hty. unfold handle_msg, sent_to. rewrite (get_thread_val _ _ _ Hj). cbn.
  rewrite Hty. cbn. destruct (wt_sub_map t !! td_to_id td) as [sub|] eqn:Hs.
  - destruct (bev_write_safe w j t (sub_bev sub) (ztake (td_data_size td) (td_data td)))
      as [w' Hw']; [done..|by rewrite (ok_sub _ _ _ (ok_threads _ Hw _ _ Hj) _ _ Hs)|].
    exists w'. split; [done|]. apply bev_write_output in Hw' as (? & _ & Hout). split; [done|].
    intros b. rewrite Hout. rewrite (Z.eqb_sym (sub_bev sub)). destruct (b =? _); [done|].
    destruct (w_bevs w !! b); simpl; [|done]. by rewrite add_output_nil.
  - exists w. repeat split. intros b. destruct (w_bevs w !! b); simpl; [|done].
    by rewrite add_output_nil.
Qed.

Lemma delivered_msg t m m1 td pipe t' m' :
  td_msg_type td = 0 → (∀ b, m1 !! b = add_output (sent_to t b td) <$> m !! b) →
  delivered t m1 pipe t' m' → delivered t m (td :: pipe) t' m'.
Proof.
  intros Hty Hm [D1 D2 D3 D4].
  assert (∀ id, logs_off id (td :: pipe) = logs_off id pipe) as Hl by (intros id; unfold logs_off; simpl; by rewrite Hty).
  assert (∀ b, closes t b (td :: pipe) = closes t b pipe) as Hc by (intros b; unfold closes; case_match; by rewrite ?Hl).
  split; [| | |done]; intros x; rewrite ?Hc, ?Hl; [|done..]. rewrite D1, Hm. simpl.
  destruct (closes t x pipe); [done|]. destruct (m !! x); simpl; [|done]. by rewrite add_output_app.
Qed.

(** An order to log an id off that is not here. *)
Lemma delivered_absent C j t m td pipe t' m' :
  thread_ok C j t → td_msg_type td = 1 → wt_sub_map t !! td_to_id td = None →
  delivered t m pipe t' m' → delivered t m (td :: pipe) t' m'.
Proof.
  intros Ht Hty Hs [D1 D2 D3 D4].
  assert (∀ id, logs_off id (td :: pipe) = (td_to_id td =? id) || logs_off id pipe) as Hl
    by (intros id; unfold logs_off; simpl; by rewrite Hty).
  assert (∀ b, closes t b (td :: pipe) = closes t b pipe) as Hc.
  { intros b. unfold closes. destruct (wt_bev_id t !! b) as [id|] eqn:Hb; [|done]. rewrite Hl.
    destruct (Z.eqb_spec id 0) as [->|Hnz]; [done|]. cbn [negb andb].
    destruct (Z.eqb_spec (td_to_id td) id) as [Heq|]; [|done].
    destruct (ok_bev _ _ _ Ht _ _ Hb Hnz) as (sub & ? & _). congruence. }
  split; [| | |done]; intros x; rewrite ?Hc; [|done|].
  - rewrite D1. destruct (closes t x pipe); [done|]. simpl. unfold sent_to at 2. by rewrite Hs.
  - rewrite D3, Hl. destruct (Z.eqb_spec (td_to_id td) x) as [<-|]; [|done]. rewrite Hs. by destruct (logs_off _ _).
Qed.

(** An order to log an id off that is here. *)
Lemma delivered_log_off C j t m td sub pipe t' m' :
  thread_ok C j t → td_msg_type td = 1 → wt_sub_map t !! td_to_id td = Some sub →
  delivered (set_maps (delete (td_to_id td) (wt_sub_map t)) (delete (sub_bev sub) (wt_bev_id t)) t)
    (delete (sub_bev sub) m) pipe t' m' →
  delivered t m (td :: pipe) t' m'.
Proof.
  intros Ht Hty Hs [D1 D2 D3 D4]. set (t1 := set_maps _ _ t) in *.
  pose proof (ok_sub _ _ _ Ht _ _ Hs) as Hb0. set (b0 := sub_bev sub) in *.
  assert (td_to_id td ≠ 0) as Hnz by (intros Heq; pose proof (ok_zero _ _ _ Ht); congruence).
  assert (∀ id, logs_off id (td :: pipe) = (td_to_id td =? id) || logs_off id pipe) as Hl
    by (intros id; unfold logs_off; simpl; by rewrite Hty).
  assert (closes t b0 (td :: pipe) = true) as Hc0.
  { unfold closes. rewrite Hb0, Hl, Z.eqb_refl. by rewrite (proj2 (Z.eqb_neq _ _) Hnz). }
  assert (closes t1 b0 pipe = false) as Hc1 by (unfold closes; simpl; by rewrite lookup_delete_eq).
  assert (∀ b, b ≠ b0 → closes t b (td :: pipe) = closes t1 b pipe) as Hc.
  { intros b Hne. unfold closes. change (wt_bev_id t1) with (delete b0 (wt_bev_id t)). rewrite lookup_delete_ne by done.
    destruct (wt_bev_id t !! b) as [id|] eqn:Hb; [|done]. rewrite Hl.
    destruct (Z.eqb_spec id 0) as [->|Hid]; [done|]. cbn [negb andb].
    destruct (Z.eqb_spec (td_to_id td) id) as [<-|]; [|done].
    destruct (ok_bev _ _ _ Ht _ _ Hb Hid) as (sub' & ? & ?). subst b0. congruence. }
  assert (∀ b td', b ≠ b0 → sent_to t1 b td' = sent_to t b td') as Hsent.
  { intros b td' Hne. unfold sent_to. simpl. rewrite lookup_delete. case_decide as Heq; [|done].
    rewrite <- Heq, Hs. fold b0. rewrite (proj2 (Z.eqb_neq b0 b)) by done. by rewrite andb_false_r. }
  split.
  - intros b. rewrite D1. destruct (decide (b = b0)) as [->|Hne].
    + by rewrite Hc0, Hc1, lookup_delete_eq.
    + rewrite Hc, lookup_delete_ne by done. destruct (closes t1 b pipe); [done|].
      assert (sent_to t b td = []) as E by (unfold sent_to; rewrite Hs, Hty; done).
      cbn [fmap list_fmap mjoin list_join]. rewrite E. cbn [app]. f_equal. f_equal. f_equal.
      apply list_fmap_ext. intros _ td' _. by apply Hsent.
  - intros b. rewrite D2. destruct (decide (b = b0)) as [->|Hne].
    + rewrite Hc0, Hc1. simpl. apply lookup_delete_eq.
    + rewrite Hc by done. simpl. by rewrite lookup_delete_ne.
  - intros id. rewrite D3, Hl. simpl. rewrite lookup_delete. destruct (Z.eqb_spec (td_to_id td) id); case_decide; try done.
    by destruct (logs_off id pipe).
  - rewrite D4 at 1. done.
Qed.

Lemma handle_msgs_output j t pipe w :
  world_ok w → w_threads w !! j = Some t → (∀ td, td ∈ pipe → msg_ok td) →
  ∃ w' t', handle_msgs j pipe w = Val w' ∧ w_threads w' = <[j := t']> (w_threads w) ∧ delivered t (w_bevs w) pipe t' (w_bevs w').
Proof.
  revert t w. induction pipe as [|td pipe IH]; intros t w Hw Hj Hok.
  { exists w, t. split; [done|]. split; [by rewrite list_insert_id|]. apply delivered_nil. }
  pose proof (ok_threads _ Hw _ _ Hj) as Ht. cbn [handle_msgs].
  destruct (Hok td ltac:(by left)) as [Hty|Hty].
  - destruct (handle_msg_output j t td w Hw Hj Hty) as (w1 & H1 & Ht1 & Hb1).
    destruct (IH t w1) as (w2 & t2 & H2 & Ht2 & D); [by eapply handle_msg_ok|by rewrite Ht1|intros; apply Hok; by right|].
    exists w2, t2. rewrite H1. split; [done|]. split; [by rewrite Ht2, Ht1|]. by eapply delivered_msg.
  - destruct (wt_sub_map t !! td_to_id td) as [sub|] eqn:Hs.
    + set (t1 := set_maps (delete (td_to_id td) (wt_sub_map t)) (delete (sub_bev sub) (wt_bev_id t)) t).
      assert (handle_msg j td w = Val (set_thread j t1 (set_bevs (delete (sub_bev sub) (w_bevs w)) w))) as H1.
      { unfold handle_msg. rewrite (get_thread_val _ _ _ Hj). cbn [mbind outcome_bind]. rewrite Hty, Hs. cbn -[bufferevent_free].
        pose proof (ok_sub _ _ _ Ht _ _ Hs) as Hb. rewrite Hb, (bufferevent_free_safe w j t) by (done || by rewrite Hb). done. }
      destruct (IH t1 (set_thread j t1 (set_bevs (delete (sub_bev sub) (w_bevs w)) w))) as (w2 & t2 & H2 & Ht2 & D);
        [by eapply handle_msg_ok|simpl; apply list_lookup_insert_eq; by eapply lookup_lt_Some|intros; apply Hok; by right|].
      exists w2, t2. rewrite H1. split; [done|]. split; [rewrite Ht2; apply list_insert_insert_eq|]. by eapply delivered_log_off.
    + assert (handle_msg j td w = Val w) as H1.
      { unfold handle_msg. rewrite (get_thread_val _ _ _ Hj). cbn [mbind outcome_bind]. by rewrite Hty, Hs. }
      destruct (IH t w Hw Hj) as (w2 & t2 & H2 & Ht2 & D); [intros; apply Hok; by right|].
      exists w2, t2. rewrite H1. split; [done|]. split; [done|]. by eapply delivered_absent.
Qed.

(** C3.  Delivery: when a thread of a world that satisfies the invariant of [reachable_world_ok] wakes up for its message
    pipe, the pipe is emptied; the connections whose ids are to be logged off are closed and forgotten, every
    other connection gets exactly the messages for its id, complete and in the order they
    were sent, and nothing else changes. *)
Theorem messages_delivered j t w :
  world_ok w → w_threads w !! j = Some t →
  ∃ w' t', notify_new_msg_callback j w = Val w' ∧
    w_threads w' = <[j := t']> (w_threads w) ∧
    delivered (set_new_msg_fd [] t) (w_bevs w) (wt_new_msg_fd t) t' (w_bevs w').
Proof.
  intros Hw Hj. unfold notify_new_msg_callback. rewrite (get_thread_val _ _ _ Hj).
  cbn -[handle_msgs]. set (w0 := set_thread _ _ _).
  pose proof (ok_threads _ Hw _ _ Hj) as Ht.
  assert (world_ok w0) as Hw0.
  { apply world_ok_set_thread with t; [done..|].
    apply (thread_ok_maps _ _ t); try done; [apply Ht|]. intros td []%not_elem_of_nil. }
  destruct (handle_msgs_output j (set_new_msg_fd [] t) (wt_new_msg_fd t) w0) as (w' & t' & H1 & H2 & H3); try done.
  - apply list_lookup_insert_eq. by eapply lookup_lt_Some.
  - apply Ht.
  - exists w', t'. split; [done|]. split; [|done]. rewrite H2. apply list_insert_insert_eq.
Qed.
End delivery.

(** ** Routing between threads *)

Section routing.
Context (msg_cap : nat).

(** Thread [t] takes message [td]: the recipient is online there and the pipe has
    room. *)
Definition takes (td : TransData) (t : WorkThread) : Prop :=
  is_Some (wt_sub_map t !! td_to_id td) ∧ (length (wt_new_msg_fd t) < msg_cap)%nat.

#[export] Instance takes_dec td t : Decision (takes td t).
Proof. unfold takes. apply _. Defined.

Lemma notify_new_msg_takes td t :
  notify_new_msg msg_cap td t =
    if decide (takes td t) then (true, set_new_msg_fd (wt_new_msg_fd t ++ [td]) t) else (false, t).
Proof.
  unfold notify_new_msg. case_decide as Hd.
  - destruct Hd as [[sub ->] Hlt%Nat.ltb_lt]. by rewrite Hlt.
  - destruct (wt_sub_map t !! td_to_id td) eqn:E; [|done].
    destruct (Nat.ltb_spec (length (wt_new_msg_fd t)) msg_cap); [|done].
    destruct Hd. by split.
Qed.

Lemma send_first_eq td ts :
  send_first msg_cap td ts =
    match list_find (takes td) ts with
    | Some (k, t) => (true, <[k := set_new_msg_fd (wt_new_msg_fd t ++ [td]) t]> ts)
    | None => (false, ts)
    end.
Proof.
  induction ts as [|t ts IH]; [done|]. cbn [send_first list_find]. rewrite notify_new_msg_takes.
  case_decide; [done|]. rewrite IH. by destruct (list_find _ ts) as [[k u]|].
Qed.

(** C12.  Routing: a message goes to the first thread that has its recipient
    online and room in its pipe, and to no other; it is reported as not sent
    exactly when there is no such thread, and then nothing changes. *)
Theorem send_message_first td w :
  send_message msg_cap td w =
    match list_find (takes td) (w_threads w) with
    | Some (k, t) => (true, set_thread k (set_new_msg_fd (wt_new_msg_fd t ++ [td]) t) w)
    | None => (false, w)
    end.
Proof.
  unfold send_message. rewrite send_first_eq.
  destruct (list_find _ _) as [[k t]|]; [done|]. by destruct w.
Qed.
End routing.

(** ** A frame a client sends *)

Definition idle_req : AnalyseReq :=
  {| ar_is_heart := false; ar_login_data := None; ar_trans_data := None |}.

(** [w] after connection [b] has consumed its input up to [rest]. *)
Definition consume_input (b : Z) (be : Bev) (rest : list byte) (w : World) : World :=
  set_bevs (<[b := {| bev_input := rest; bev_output := bev_output be; bev_ctx := bev_ctx be |}]>
              (w_bevs w)) w.

Definition message_of (j : nat) (from to : Z) (f : list byte) : TransData :=
  {| td_from_id := from; td_to_id := to; td_work_thread := j; td_msg_type := 0;
     td_data_size := Zlen f; td_data := f |}.

Section frames_of_clients.
Context `{CometProto} (msg_cap : nat).

(** The mask 0xFFFF000000000000 finds the ids from 2^48 on. *)
Lemma high_bits x : 0 <= x < 2 ^ 64 → (Z.land x ID_HIGH =? 0) = (x <? 2 ^ 48).
Proof.
  intros Hx.
  assert (Z.land x ID_HIGH = 2 ^ 48 * (x / 2 ^ 48)) as ->.
  { change ID_HIGH with (Z.shiftl (Z.ones 16) 48).
    rewrite Z.mul_comm, <- (Z.shiftl_mul_pow2 _ 48), <- Z.shiftr_div_pow2 by lia. apply Z.bits_inj'. intros n Hn.
    rewrite Z.land_spec. destruct (Z.ltb_spec n 48).
    - rewrite !Z.shiftl_spec_low by lia. by rewrite andb_false_r.
    - rewrite !Z.shiftl_spec, Z.shiftr_spec by lia. replace (n - 48 + 48) with n by lia.
      destruct (Z.ltb_spec n 64).
      + rewrite Z.ones_spec_low by lia. apply andb_true_r.
      + rewrite Z.ones_spec_high by lia. rewrite andb_false_r. symmetry.
        apply Z.bits_above_log2; [lia|]. destruct (decide (x = 0)) as [->|]; [simpl; lia|].
        apply Z.log2_lt_pow2; [lia|]. apply Z.lt_le_trans with (2 ^ 64); [lia|].
        apply Z.pow_le_mono_r; lia. }
  pose proof (Z.div_mod x (2 ^ 48) ltac:(lia)). pose proof (Z.mod_pos_bound x (2 ^ 48) ltac:(lia)).
  destruct (Z.ltb_spec x (2 ^ 48)).
  - by rewrite Z.div_small by lia.
  - apply Z.eqb_neq. lia.
Qed.

Lemma set_thread_id j t w : w_threads w !! j = Some t → set_thread j t w = w.
Proof. intros Hj. unfold set_thread. rewrite list_insert_id by done. by destruct w. Qed.

Lemma set_thread_twice j t t' w : set_thread j t' (set_thread j t w) = set_thread j t' w.
Proof. unfold set_thread. simpl. by rewrite list_insert_insert_eq. Qed.

Lemma set_analyse_req_id t : wt_analyse_req t = idle_req → set_analyse_req idle_req t = t.
Proof. intros <-. by destruct t. Qed.

Lemma frame_trans_bevs j id t w : w_bevs (frame_trans msg_cap j id t w) = w_bevs w.
Proof.
  unfold frame_trans. destruct (get_trans_data _) as [[td|] ar]; [|done].
  cbv zeta. repeat case_match; try done. unfold send_message. by destruct (send_first _ _ _).
Qed.

(** ** The read loop ends *)

Lemma after_frame_input j b id w w' :
  after_frame msg_cap j b id w = Val w' → w_bevs w' = w_bevs w.
Proof. intros (t & _ & <-%Val_inj)%outcome_bind_Val. apply frame_trans_bevs. Qed.

(** The rounds a bound of [m] allows are enough when there are less bytes. *)
Lemma read_loop_fuel m n j b id be w :
  w_bevs w !! b = Some be → (length (bev_input be) < m <= n)%nat →
  read_loop msg_cap n j b id w = read_loop msg_cap m j b id w.
Proof.
  revert n be w. induction m as [|m IH]; intros n be w Hb [Hlt Hmn]; [lia|].
  destruct n as [|n]; [lia|]. cbn [read_loop]. rewrite Hb. cbn -[read_loop analyse_data].
  destruct (_ >? 3); [|done]. destruct (get_thread w j) as [t|]; [|done]. cbn -[read_loop analyse_data].
  destruct (analyse_data _ _ _) as [[[[r ar] input] output]|] eqn:Ha; [|done].
  cbn -[read_loop after_frame]. destruct r; [|done].
  apply analyse_data_progress in Ha as [Hlen _].
  match goal with |- mbind _ (after_frame _ _ _ _ ?u) = _ => set (w1 := u) end.
  destruct (after_frame msg_cap j b id w1) as [w2|] eqn:Hf; [|done].
  apply after_frame_input in Hf. cbn -[read_loop].
  eapply IH; [rewrite Hf; apply lookup_insert_eq|]. simpl. unfold Zlen in Hlen. lia.
Qed.

Lemma analyse_data_no_hang s (inp out : list byte) : analyse_data s inp out ≠ Undef Hang.
Proof.
  assert (∀ h d l, analyse_pack s inp h d l ≠ Undef Hang) as Hp.
  { intros h d l. unfold analyse_pack, or_undef. change (@evbuffer_pullup _ _) with list_pullup. unfold list_pullup.
    repeat (case_match; cbn [mbind outcome_bind]; try done). }
  assert (∀ h d l, ('(r, s', i') ← analyse_pack s inp h d l; Val (r, s', i', out)) ≠ Undef Hang) as Hp'.
  { intros h d l. specialize (Hp h d l). destruct (analyse_pack s inp h d l) as [[[r s'] i']|u]; cbn; congruence. }
  unfold analyse_data, or_undef. change (@evbuffer_pullup _ _) with list_pullup. unfold list_pullup.
  repeat (case_match; cbn [mbind outcome_bind]; try done; simplify_eq); apply Hp'.
Qed.

Lemma read_loop_no_hang n j b id be w :
  w_bevs w !! b = Some be → (length (bev_input be) < n)%nat → read_loop msg_cap n j b id w ≠ Undef Hang.
Proof.
  revert be w. induction n as [|n IH]; intros be w Hb Hlt; [lia|].
  cbn [read_loop]. rewrite Hb. cbn -[read_loop analyse_data].
  destruct (_ >? 3); [|done]. unfold get_thread. destruct (w_threads w !! j) as [t|]; [|done]. cbn -[read_loop analyse_data].
  pose proof (analyse_data_no_hang (wt_analyse_req t) (bev_input be) (bev_output be)) as Hn.
  destruct (analyse_data _ _ _) as [[[[r ar] input] output]|u] eqn:Ha; [|cbn; congruence].
  cbn -[read_loop after_frame]. destruct r; [|done]. clear Hn.
  apply analyse_data_progress in Ha as [Hlen _].
  match goal with |- mbind _ (after_frame _ _ _ _ ?u) ≠ _ => set (w1 := u) end.
  destruct (after_frame msg_cap j b id w1) as [w2|u] eqn:Hf.
  - apply after_frame_input in Hf. cbn -[read_loop].
    eapply IH; [rewrite Hf; apply lookup_insert_eq|]. simpl. unfold Zlen in Hlen. lia.
  - unfold after_frame, get_thread, or_undef in Hf. destruct (w_threads w1 !! j); cbn in *; congruence.
Qed.

(** C39.  Termination: whatever has arrived on whatever connection, the read callback comes to an end;
    its loop runs at most once more than there are bytes in the input, since every round that
    goes on has taken some of them ([Undef Hang] is a loop that did not end within that bound). *)
Theorem read_loop_terminates j b w :
  bufferevent_read_callback msg_cap j b w ≠ Undef Hang ∧
  ∀ n id be, w_bevs w !! b = Some be → (length (bev_input be) < n)%nat → read_loop msg_cap n j b id w ≠ Undef Hang.
Proof.
  split; [|intros n id be; apply read_loop_no_hang].
  unfold bufferevent_read_callback, get_thread, or_undef. destruct (w_threads w !! j) as [t|]; [|done].
  cbn [mbind outcome_bind]. destruct (w_bevs w !! b) as [be|] eqn:Hb; [|done]. cbn [mbind outcome_bind].
  eapply read_loop_no_hang; [done|lia].
Qed.

(** ** Messages *)

Lemma frame_trans_message j id t from to f t' w :
  wt_analyse_req t = idle_req → w_threads w !! j = Some t →
  frame_trans msg_cap j id
    (set_analyse_req {| ar_is_heart := false; ar_login_data := None;
                        ar_trans_data := Some (message_of 0 from to f) |} t)
    (set_thread j t' w) =
  if negb (id =? 0) && (id =? from) then
    if negb (Z.land id ID_HIGH =? 0) || negb (Z.land to ID_HIGH =? 0)
    then (send_message msg_cap (message_of j from to f) w).2
    else set_thread j (redisAsyncCommand (ZSCORE_ssUD from to (message_of j from to f)) t) w
  else w.
Proof.
  intros Ha Hj. unfold frame_trans, get_trans_data. simpl.
  change (set_analyse_req _ (set_analyse_req _ t)) with (set_analyse_req idle_req t).
  rewrite set_analyse_req_id, !set_thread_twice by done. by rewrite (set_thread_id j t w Hj).
Qed.

(** What a frame with a message does to [w], on a connection logged in under [id]. *)
Definition forward_effect (j : nat) (t : WorkThread) (id from to : Z) (f : list byte) (w : World) : World :=
  if negb (id =? 0) && (id =? from) then
    if negb (Z.land id ID_HIGH =? 0) || negb (Z.land to ID_HIGH =? 0)
    then (send_message msg_cap (message_of j from to f) w).2
    else set_thread j (redisAsyncCommand (ZSCORE_ssUD from to (message_of j from to f)) t) w
  else w.

Lemma forward_effect_keeps j t id from to f w :
  w_threads w !! j = Some t →
  w_bevs (forward_effect j t id from to f w) = w_bevs w ∧
  ∃ t', w_threads (forward_effect j t id from to f w) !! j = Some t' ∧ wt_bev_id t' = wt_bev_id t.
Proof.
  intros Hj. unfold forward_effect. destruct (_ && _); [|by eauto]. destruct (_ || _).
  - pose proof (send_first_more msg_cap (message_of j from to f) (w_threads w) (or_introl eq_refl)) as Hm.
    unfold send_message. destruct (send_first _ _ _) as [ok ts]. simpl in *. split; [done|].
    destruct (threads_more_lookup _ _ _ _ Hm Hj) as (t' & Ht' & p & -> & _). eauto.
  - split; [done|]. eexists. split; [apply list_lookup_insert_eq; by eapply lookup_lt_Some|done].
Qed.

(** One complete forward frame at the front of the input of a connection. *)
Lemma read_one_forward j t b be flags ttl from to p body rest w :
  w_threads w !! j = Some t → w_bevs w !! b = Some be → wt_analyse_req t = idle_req →
  0 <= flags < 256 → Z.land flags 0x20 = 0 → Z.land flags 0x40 ≠ 0 →
  0 <= from < 2 ^ 64 → 0 <= to < 2 ^ 64 → Zlen body ≠ 0xFF00 → body ++ rest ≠ [] →
  let f := wire_frame flags ttl from to p body in
  Zlen (f ++ rest) < 2 ^ 31 → bev_input be = f ++ rest →
  bufferevent_read_callback msg_cap j b w =
    bufferevent_read_callback msg_cap j b
      (forward_effect j t (default 0 (wt_bev_id t !! b)) from to f (consume_input b be rest w)).
Proof.
  intros Hj Hb Ha Hfl Hh Ht Hf Hto Hn Hne f Hlen Hin. set (id := default 0 (wt_bev_id t !! b)).
  set (w0 := consume_input b be rest w). set (w1 := forward_effect j t id from to f w0).
  assert (25 <= Zlen f) as Hf25.
  { unfold f. rewrite Zlen_wire_frame. pose proof (Zlen_nonneg body).
    pose proof (data_head_len_cases (Zlen body)). lia. }
  pose proof (analyse_data_forward (wt_analyse_req t) flags ttl from to p body rest (bev_output be)
    Hfl Hh Ht Hf Hto Hn) as P. cbv zeta in P. fold f in P. rewrite Ha in P.
  specialize (P Hne Hlen).
  assert (w_threads w0 !! j = Some t) as Hj0 by done.
  destruct (forward_effect_keeps j t id from to f w0 Hj0) as (Hb1 & t1 & Hj1 & Hid1). fold w1 in Hb1, Hj1.
  clearbody f. clear Hne Hlen Hn Hf Hto Hfl Hh Ht.
  assert (w_bevs w1 !! b = Some {| bev_input := rest; bev_output := bev_output be; bev_ctx := bev_ctx be |}) as Hbev1
    by (rewrite Hb1; apply lookup_insert_eq).
  unfold bufferevent_read_callback at 2. rewrite (get_thread_val _ _ _ Hj1), Hbev1.
  cbn [or_undef mbind outcome_bind bev_input]. rewrite Hid1. fold id.
  unfold bufferevent_read_callback. rewrite (get_thread_val _ _ _ Hj). cbn -[read_loop]. fold id.
  rewrite Hb. cbn [or_undef mbind outcome_bind]. cbn [read_loop]. cbv zeta.
  rewrite Hb, (get_thread_val _ _ _ Hj). cbn -[read_loop analyse_data].
  change (evbuffer_get_length (bev_input be)) with (Zlen (bev_input be)). rewrite Hin, Ha.
  rewrite Zlen_app. pose proof (Zlen_nonneg rest).
  destruct (Z.gtb_spec (Zlen f + Zlen rest) 3); [|lia]. cbn -[read_loop analyse_data]. rewrite P.
  cbn -[read_loop after_frame]. unfold after_frame. erewrite get_thread_val
    by (simpl; apply list_lookup_insert_eq; by eapply lookup_lt_Some).
  cbn -[read_loop frame_trans send_message]. unfold frame_login, frame_heart.
  cbn -[read_loop frame_trans send_message].
  assert (∀ u v, frame_trans msg_cap j id u v = w1 →
    read_loop msg_cap (length (f ++ rest)) j b id (frame_trans msg_cap j id u v) = read_loop msg_cap (S (length rest)) j b id w1) as Hgo.
  { intros u v ->. eapply read_loop_fuel; [exact Hbev1|]. cbn [bev_input]. rewrite length_app. unfold Zlen in Hf25. lia. }
  apply Hgo. by apply (frame_trans_message j id t from to f _ w0).
Qed.

(** C13.  A message of a logged-in client: when a forward frame with the header of 20 bytes, complete, with a body of
    a length other than 0xFF00 and at least one byte of body or of what follows, stands at the front of the input
    between two frames and names the id of its connection as the sender, it is taken off the input; between ordinary users redis is asked for the friendship, a message
    from or to a privileged id (2^48 and up) is routed at once, the frame being passed on byte for byte; and the
    callback goes on with what follows the frame. *)
Theorem forward_from_client j t b be flags ttl from to p body rest w :
  w_threads w !! j = Some t → w_bevs w !! b = Some be → wt_analyse_req t = idle_req →
  wt_bev_id t !! b = Some from → from ≠ 0 →
  0 <= flags < 256 → Z.land flags 0x20 = 0 → Z.land flags 0x40 ≠ 0 →
  0 <= from < 2 ^ 64 → 0 <= to < 2 ^ 64 → Zlen body ≠ 0xFF00 → body ++ rest ≠ [] →
  let f := wire_frame flags ttl from to p body in
  Zlen (f ++ rest) < 2 ^ 31 → bev_input be = f ++ rest →
  let w0 := consume_input b be rest w in
  let td := message_of j from to f in
  bufferevent_read_callback msg_cap j b w = bufferevent_read_callback msg_cap j b
    (if decide (from < 2 ^ 48 ∧ to < 2 ^ 48)
     then set_thread j (redisAsyncCommand (ZSCORE_ssUD from to td) t) w0
     else (send_message msg_cap td w0).2).
Proof.
  intros Hj Hb Ha Hid Hnz Hfl Hh Ht Hf Hto Hn Hne f Hlen Hin w0 td.
  rewrite (read_one_forward j t b be flags ttl from to p body rest w) by done. f_equal.
  rewrite Hid. change (default 0 (Some from)) with from. unfold forward_effect.
  rewrite (proj2 (Z.eqb_neq _ _) Hnz), Z.eqb_refl. cbn [negb andb].
  rewrite !high_bits by done.
  destruct (Z.ltb_spec from (2 ^ 48)), (Z.ltb_spec to (2 ^ 48)); cbn [negb orb];
    case_decide; try done; lia.
Qed.

(** C14.  Nobody speaks in another's name: such a frame (as in [forward_from_client]: complete, between two frames, with the
    header of 20 bytes, a body of a length other than 0xFF00 and at least one byte of body or of what follows) on a connection
    that is not logged in, or whose id is not the sender it names, is taken off the input and has no
    other effect; the callback goes on with what follows it. *)
Theorem forged_sender_dropped j t b be flags ttl from to p body rest w :
  w_threads w !! j = Some t → w_bevs w !! b = Some be → wt_analyse_req t = idle_req →
  wt_bev_id t !! b = Some 0 ∨ wt_bev_id t !! b ≠ Some from →
  0 <= flags < 256 → Z.land flags 0x20 = 0 → Z.land flags 0x40 ≠ 0 →
  0 <= from < 2 ^ 64 → 0 <= to < 2 ^ 64 → Zlen body ≠ 0xFF00 → body ++ rest ≠ [] →
  Zlen (wire_frame flags ttl from to p body ++ rest) < 2 ^ 31 →
  bev_input be = wire_frame flags ttl from to p body ++ rest →
  bufferevent_read_callback msg_cap j b w = bufferevent_read_callback msg_cap j b (consume_input b be rest w).
Proof.
  intros Hj Hb Ha Hid Hfl Hh Ht Hf Hto Hn Hne Hlen Hin.
  rewrite (read_one_forward j t b be flags ttl from to p body rest w) by done. f_equal. unfold forward_effect.
  destruct (wt_bev_id t !! b) as [i|]; [|done].
  change (default 0 (Some i)) with i.
  destruct (Z.eqb_spec i 0), (Z.eqb_spec i from); cbn [negb andb]; try done. naive_solver.
Qed.
End frames_of_clients.

(** ** Logins *)

Section logins.
Context `{LoginAnswers} (msg_cap : nat).



Definition login_frame (code : Z) (msg : string) (ping : Z) : list byte :=
  wire_frame 0 (z2b 0) 0 0 11 (S2CLogin_Serialize code (bytes_of msg) ping).



(** C16.  A login redis refutes, on a live connection of a world that satisfies the invariant of [reachable_world_ok]: with
    another token on record the connection gets a login answer with the message "wrong id or token" and the ping time, and nothing
    else changes.  (Of the code in the answer nothing is claimed: the program sends 401 where
    comet.proto has 1.) *)
Theorem login_rejected e ld t i token w :
  world_ok w → w_threads w !! ld_work_thread ld = Some t → wt_bev_id t !! ld_bev ld = Some i →
  c_str (ld_token ld) ≠ c_str token →
  ∃ be code, w_bevs w !! ld_bev ld = Some be ∧
    redis_login_callback msg_cap e (Some (ReplyString token)) ld w = Val
      (set_bevs (<[ld_bev ld :=
         add_output (login_frame code "wrong id or token" (wt_ping_time t)) be]> (w_bevs w)) w).
Proof.
  intros Hw Hj Hb Htok. unfold redis_login_callback. rewrite (get_thread_val _ _ _ Hj).
  cbn -[login_ok drop_old_login get_login_rsp].
  destruct (world_ok_ctx _ _ _ (ld_bev ld) Hw Hj) as (be & Hbe & _); [done|].
  exists be, 401. split; [done|]. rewrite Hb, bool_decide_false by done. rewrite get_login_rsp_val.
  cbn -[login_frame]. unfold bev_write. rewrite Hbe. done.
Qed.

End logins.

(** ** Idle connections *)

(** No heartbeat for more than two ping periods. *)
Definition sub_idle (now : Z) (t : WorkThread) (sub : Subscriber) : bool :=
  now - sub_last_heartbeat_time sub >? 2 * wt_ping_time t.

Definition idle_at (now : Z) (t : WorkThread) (b : Z) : bool :=
  match wt_bev_id t !! b ≫= λ id, wt_sub_map t !! id with
  | Some sub => sub_idle now t sub
  | None => false
  end.

(** What a sweep over the connections [order] leaves of [w]. *)
Record swept (now : Z) (order : list Z) (j : nat) (t : WorkThread) (w w' : World) (t' : WorkThread) : Prop := {
  sw_bevs b : w_bevs w' !! b =
    if bool_decide (b ∈ order) && idle_at now t b then None else w_bevs w !! b;
  sw_bev_id b : wt_bev_id t' !! b =
    if bool_decide (b ∈ order) && idle_at now t b then None else wt_bev_id t !! b;
  sw_sub_map id : wt_sub_map t' !! id =
    sub ← wt_sub_map t !! id;
    if bool_decide (sub_bev sub ∈ order) && sub_idle now t sub then None else Some sub;
  sw_conn_num : wt_conn_num t' =
    wt_conn_num t - Z.of_nat (length (filter (λ b, idle_at now t b = true) order));
  sw_threads : w_threads w' = <[j := t']> (w_threads w);
  sw_now : w_now w' = w_now w;
  sw_ping : wt_ping_time t' = wt_ping_time t
}.

Section idle.
Context `{CometProto}.

(** One round, on a connection that is idle and on one that is not. *)
Lemma expire_one_idle j now b t w :
  world_ok w → w_threads w !! j = Some t → idle_at now t b = true →
  ∃ id sub t1, wt_bev_id t !! b = Some id ∧ wt_sub_map t !! id = Some sub ∧ sub_bev sub = b ∧
    expire_one j now b w = Val (set_thread j t1 (set_bevs (delete b (w_bevs w)) w)) ∧
    wt_sub_map t1 = delete id (wt_sub_map t) ∧ wt_bev_id t1 = delete b (wt_bev_id t) ∧
    wt_conn_num t1 = wt_conn_num t - 1 ∧ wt_ping_time t1 = wt_ping_time t.
Proof.
  intros Hw Hj Hi. unfold idle_at in Hi. pose proof (ok_threads _ Hw _ _ Hj) as Ht.
  destruct (wt_bev_id t !! b) as [id|] eqn:Hb; [|done]. simpl in Hi.
  destruct (wt_sub_map t !! id) as [sub|] eqn:Hs; [|done].
  assert (id ≠ 0) as Hnz by (intros ->; pose proof (ok_zero _ _ _ Ht); congruence).
  destruct (ok_bev _ _ _ Ht _ _ Hb Hnz) as (sub' & Hs' & Hsb).
  rewrite Hs in Hs'. injection Hs' as <-. eexists id, sub, _. repeat (split; [done|]).
  unfold expire_one. rewrite (get_thread_val _ _ _ Hj). cbn [mbind outcome_bind]. rewrite Hb, Hs, (two_pings _ _ _ Hw Hj). cbn [mbind outcome_bind].
  unfold sub_idle in Hi. rewrite Hi, (bufferevent_free_safe _ _ t _ Hw Hj) by done. cbn.
  rewrite (proj2 (Z.eqb_neq _ _) Hnz). split; [done|]. done.
Qed.

Lemma expire_one_busy j now b t w :
  world_ok w → w_threads w !! j = Some t → idle_at now t b = false → expire_one j now b w = Val w.
Proof.
  intros Hw Hj Hi. unfold idle_at in Hi. unfold expire_one. rewrite (get_thread_val _ _ _ Hj). cbn [mbind outcome_bind].
  destruct (wt_bev_id t !! b) as [id|]; [|done]. simpl in Hi.
  destruct (wt_sub_map t !! id) as [sub|]; [|done]. rewrite (two_pings _ _ _ Hw Hj). cbn [mbind outcome_bind]. unfold sub_idle in Hi. by rewrite Hi.
Qed.

(** Removing one connection leaves the idleness of the others. *)
Lemma idle_at_other C j now t t1 b b' id sub :
  thread_ok C j t → b' ≠ b → wt_bev_id t !! b = Some id → wt_sub_map t !! id = Some sub →
  sub_bev sub = b → wt_sub_map t1 = delete id (wt_sub_map t) →
  wt_bev_id t1 = delete b (wt_bev_id t) → wt_ping_time t1 = wt_ping_time t →
  idle_at now t1 b' = idle_at now t b'.
Proof.
  intros Ht Hne Hb Hs Hsb E1 E2 E3. unfold idle_at, sub_idle. rewrite E1, E2, E3.
  rewrite lookup_delete_ne by done. destruct (wt_bev_id t !! b') as [id'|] eqn:Hb'; [|done]. simpl.
  destruct (decide (id' = id)) as [->|]; [|by rewrite lookup_delete_ne].
  assert (id ≠ 0) as Hnz by (intros ->; pose proof (ok_zero _ _ _ Ht); congruence).
  destruct (ok_bev _ _ _ Ht _ _ Hb' Hnz) as (sub' & ? & ?). congruence.
Qed.

Lemma swept_nil now j t w : w_threads w !! j = Some t → swept now [] j t w w t.
Proof.
  intros Hj. split; try done.
  - intros id. by destruct (wt_sub_map t !! id).
  - simpl. lia.
  - by rewrite list_insert_id.
Qed.

Lemma swept_busy now b order j t w w' t' :
  world_ok w → w_threads w !! j = Some t → idle_at now t b = false →
  swept now order j t w w' t' → swept now (b :: order) j t w w' t'.
Proof.
  intros Hw Hj Hi [S1 S2 S3 S4 S5 S6 S7].
  assert (∀ b', bool_decide (b' ∈ b :: order) && idle_at now t b' =
    bool_decide (b' ∈ order) && idle_at now t b') as Hmem.
  { intros b'. destruct (decide (b' = b)) as [->|Hne]; [by rewrite Hi, !andb_false_r|].
    f_equal. apply bool_decide_ext. rewrite elem_of_cons. naive_solver. }
  split; try done.
  - intros b'. by rewrite S1, Hmem.
  - intros b'. by rewrite S2, Hmem.
  - intros i. rewrite S3. destruct (wt_sub_map t !! i) as [sub'|] eqn:Hs'; [|done]. simpl.
    pose proof (Hmem (sub_bev sub')) as Hm. unfold idle_at in Hm.
    rewrite (ok_sub _ _ _ (ok_threads _ Hw _ _ Hj) _ _ Hs') in Hm. simpl in Hm.
    rewrite Hs' in Hm. by rewrite Hm.
  - by rewrite S4, filter_cons_False by (by rewrite Hi).
Qed.

Lemma swept_idle now b id sub order j t t1 w w' t' :
  world_ok w → w_threads w !! j = Some t → b ∉ order → idle_at now t b = true →
  wt_bev_id t !! b = Some id → wt_sub_map t !! id = Some sub → sub_bev sub = b →
  wt_sub_map t1 = delete id (wt_sub_map t) → wt_bev_id t1 = delete b (wt_bev_id t) →
  wt_conn_num t1 = wt_conn_num t - 1 → wt_ping_time t1 = wt_ping_time t →
  swept now order j t1 (set_thread j t1 (set_bevs (delete b (w_bevs w)) w)) w' t' →
  swept now (b :: order) j t w w' t'.
Proof.
  intros Hw Hj Hbo Hi Hbi Hs Hsb E1 E2 E3 E4 [S1 S2 S3 S4 S5 S6 S7]. simpl in *.
  assert (∀ b', b' ≠ b → idle_at now t1 b' = idle_at now t b') as Hoth.
  { intros b' Hne. eapply idle_at_other; try done. by apply Hw. }
  assert (∀ b', bool_decide (b' ∈ b :: order) && idle_at now t b' =
    (b' =? b) || bool_decide (b' ∈ order) && idle_at now t1 b') as Hmem.
  { intros b'. destruct (Z.eqb_spec b' b) as [->|Hne].
    - rewrite Hi. by rewrite bool_decide_true by (by left).
    - rewrite Hoth by done. cbn [orb]. f_equal. apply bool_decide_ext. rewrite elem_of_cons. naive_solver. }
  split; [| | | | |done|congruence].
  - intros b'. rewrite S1, Hmem. rewrite lookup_delete.
    destruct (Z.eqb_spec b' b), (decide (b = b')); try congruence; simpl; by destruct (_ && _).
  - intros b'. rewrite S2, Hmem, E2, lookup_delete.
    destruct (Z.eqb_spec b' b), (decide (b = b')); try congruence; simpl; by destruct (_ && _).
  - intros i. rewrite S3, E1, lookup_delete. destruct (decide (id = i)) as [<-|Hid].
    + rewrite Hs. simpl. rewrite Hsb, bool_decide_true by (by left).
      unfold idle_at in Hi. rewrite Hbi in Hi. simpl in Hi. rewrite Hs in Hi. by rewrite Hi.
    + destruct (wt_sub_map t !! i) as [sub'|] eqn:Hs'; [|done]. simpl.
      assert (sub_bev sub' ≠ b) as Hne.
      { pose proof (ok_sub _ _ _ (ok_threads _ Hw _ _ Hj) _ _ Hs'). congruence. }
      unfold sub_idle. rewrite E4.
      assert (bool_decide (sub_bev sub' ∈ b :: order) = bool_decide (sub_bev sub' ∈ order)) as ->;
        [|done]. apply bool_decide_ext. rewrite elem_of_cons. naive_solver.
  - rewrite S4, E3, filter_cons_True by done. simpl.
    rewrite (filter_ext_in _ (λ b, idle_at now t b = true)); [lia|].
    intros b' Hb'. rewrite Hoth; [done|]. by intros ->.
  - rewrite S5. by rewrite list_insert_insert_eq.
Qed.

Lemma expire_loop_swept j now order t w :
  world_ok w → w_threads w !! j = Some t → NoDup order →
  ∃ w' t', expire_loop j now order w = Val w' ∧ swept now order j t w w' t'.
Proof.
  intros Hw Hj Hnd. revert t w Hw Hj. induction Hnd as [|b order Hb Hnd IH]; intros t w Hw Hj.
  { exists w, t. split; [done|]. by apply swept_nil. }
  cbn [expire_loop]. destruct (idle_at now t b) eqn:Hi.
  - destruct (expire_one_idle _ _ _ _ _ Hw Hj Hi)
      as (id & sub & t1 & Hbi & Hs & Hsb & He & E1 & E2 & E3 & E4).
    pose proof (expire_one_ok _ _ _ _ _ Hw He) as Hw1. rewrite He.
    destruct (IH t1 _ Hw1) as (w' & t' & Hd & Hsw).
    { apply list_lookup_insert_eq. by eapply lookup_lt_Some. }
    exists w', t'. split; [done|]. by eapply swept_idle.
  - rewrite (expire_one_busy _ _ _ _ _ Hw Hj Hi).
    destruct (IH t w Hw Hj) as (w' & t' & Hd & Hsw).
    exists w', t'. split; [done|]. by apply swept_busy.
Qed.

(** C17.  Idle connections: in a world that satisfies the invariant of [reachable_world_ok], which has the ping time within
    2^30, a sweep over the connections of a thread closes and
    forgets exactly those whose subscriber sent no heartbeat for more than two
    ping periods, counts them off [_conn_num], and keeps the rest, connections
    that never logged in included; when the clock cannot be read it does nothing. *)
Theorem idle_connections_swept j order t w :
  world_ok w → w_threads w !! j = Some t → NoDup order →
  match w_now w with
  | Some now => ∃ w' t', del_expire_client j order w = Val w' ∧ swept now order j t w w' t'
  | None => del_expire_client j order w = Val w
  end.
Proof.
  intros Hw Hj Hnd. unfold del_expire_client. destruct (w_now w); [by apply expire_loop_swept|done].
Qed.
End idle.

(** ** Defects *)

Section defects.
Context `{CometProto} (conn_cap msg_cap : nat).

Lemma new_connection_effect j ptr t w :
  w_threads w !! j = Some t →
  ∃ w1 t1, new_connection j ptr w = Val w1 ∧ w_threads w1 !! j = Some t1 ∧
    wt_conn_num t1 = wt_conn_num t + 1.
Proof.
  intros Hj. unfold new_connection. rewrite (get_thread_val _ _ _ Hj). cbn.
  eexists _, _. split; [done|]. simpl.
  split; [apply list_lookup_insert_eq; by eapply lookup_lt_Some|done].
Qed.

Lemma conn_loop_ten j fds x rest i ptrs order t w :
  w_threads w !! j = Some t → Forall (λ fd, 0 < fd) fds → (i + length fds = 10)%nat →
  ∃ w' t', notify_new_conn_loop j (fds ++ x :: rest) i ptrs order w = Val (rest, w') ∧
    w_threads w' !! j = Some t' ∧ wt_conn_num t' = wt_conn_num t + Z.of_nat (length fds).
Proof.
  revert i ptrs t w. induction fds as [|fd fds IH]; intros i ptrs t w Hj Hpos Hi; simpl in Hi.
  - assert (i = 10%nat) as -> by lia. exists w, t. simpl. split; [done|]. split; [done|lia].
  - apply Forall_cons in Hpos as [Hfd Hpos]. cbn [app notify_new_conn_loop].
    rewrite (proj2 (Nat.ltb_lt i 10)) by lia. rewrite (proj2 (Z.gtb_lt fd 0)) by lia.
    destruct (new_connection_effect j (hd 0 ptrs) t w Hj) as (w1 & t1 & H1 & Hj1 & Hc1).
    rewrite H1. cbn -[notify_new_conn_loop].
    destruct (IH (S i) (tl ptrs) t1 w1 Hj1 Hpos ltac:(lia)) as (w' & t' & He & Hj' & Hc').
    exists w', t'. split; [done|]. split; [done|]. simpl. lia.
Qed.

(** The eleventh waiting connection is lost: [read] takes the entry out of
    the pipe before the loop condition tests [i < 10], so with more than ten
    connections waiting ten are opened, the next one is dropped without being
    closed, and the rest stay for the next wake-up. *)
Theorem eleventh_connection_lost j fds x rest ptrs order t w :
  w_threads w !! j = Some t → wt_new_conn_fd t = fds ++ x :: rest → length fds = 10%nat →
  Forall (λ fd, 0 < fd) fds →
  ∃ w' t', notify_new_conn_callback j ptrs order w = Val w' ∧ w_threads w' !! j = Some t' ∧
    wt_conn_num t' = wt_conn_num t + 10 ∧ wt_new_conn_fd t' = rest.
Proof.
  intros Hj Hp Hl Hpos. unfold notify_new_conn_callback. rewrite (get_thread_val _ _ _ Hj).
  cbn -[notify_new_conn_loop]. rewrite Hp.
  destruct (conn_loop_ten j fds x rest 0 ptrs order t w Hj Hpos ltac:(lia)) as (w' & t' & He & Hj' & Hc).
  rewrite He. cbn. rewrite (get_thread_val _ _ _ Hj'). cbn. eexists _, _. split; [done|].
  split; [apply list_lookup_insert_eq; by eapply lookup_lt_Some|]. split; [|done]. simpl. lia.
Qed.

(** The status message a login or a closed connection sends to friends is
    packed into an array of 29 bytes, which was meant to have room for the
    message as well: any message of more than four bytes is written past its
    end. *)
Theorem status_message_overflow e id status :
  let src := OnlineStatus_Serialize [print_ld id] [status] in
  4 < Zlen src → Zlen src <= 0xFF00 → pack_me_status e id status = Undef OutOfBounds.
Proof.
  intros src H4 Hle. unfold pack_me_status, pack_data. fold src. cbv zeta.
  destruct (Z.ltb_spec (Zlen src) (Zlen src)); [lia|]. rewrite ztake_all by lia.
  destruct (Z.gtb_spec (Zlen src) 0xFF00); [lia|].
  assert (∀ x, Zlen (replicate (Z.to_nat (29 + 0)) x : list byte) = 29) as Hr
    by (intros; by rewrite Zlen_replicate).
  rewrite (poke_val _ 23) by (rewrite ?Hr, ?Zlen_be_enc; lia). cbn -[poke splice be_enc replicate Z.add Z.to_nat].
  rewrite poke_oob; [done|]. rewrite Zlen_splice by (rewrite ?Hr, ?Zlen_be_enc; lia).
  rewrite Hr. lia.
Qed.
End defects.
