(* ===== verification/Log.v ===== *)
(** The log: src/core/log.{h,cc}.

    [SingletonLog] is the log object (level and the two file descriptors kept
    open across a rotation); the open descriptors of the process are a set and
    [open]'s result is an argument.  Threads write to the log while the main
    thread rotates it, which is why the previous descriptor stays open. *)

From S2P Require Import Prelude AnalyseReq WorkThread.

(** ** Levels *)

Inductive LOG_LEVEL := FATAL | ERROR | WARN | INFO | DEBUG | TRACE.

#[export] Instance log_level_eq_dec : EqDecision LOG_LEVEL.
Proof. solve_decision. Defined.

(** The enumeration's values. *)
Definition level_value (l : LOG_LEVEL) : Z :=
  match l with FATAL => 0 | ERROR => 1 | WARN => 2 | INFO => 3 | DEBUG => 4 | TRACE => 5 end.

Definition get_log_level (log_level : string) : LOG_LEVEL :=
  if decide (log_level = "fatal"%string) then FATAL
  else if decide (log_level = "error"%string) then ERROR
  else if decide (log_level = "warn"%string) then WARN
  else if decide (log_level = "info"%string) then INFO
  else if decide (log_level = "debug"%string) then DEBUG
  else if decide (log_level = "trace"%string) then TRACE
  else TRACE.

Definition get_level_name (l : LOG_LEVEL) : string :=
  match l with
  | FATAL => "[FATAL]" | ERROR => "[ERROR]" | WARN => "[WARN ]"
  | INFO => "[INFO ]" | DEBUG => "[DEBUG]" | TRACE => "[TRACE]"
  end.

(** ** The log object *)

Record SingletonLog := { log_fd : Z; old_fd : Z; log_level : LOG_LEVEL; open_fds : gset Z;
                         written : list (Z * list byte) }.

(** The constructor; the level is set by [open_log] before anything is logged. *)
Definition init_log (level : LOG_LEVEL) (fds : gset Z) : SingletonLog :=
  {| log_fd := 0; old_fd := 0; log_level := level; open_fds := fds; written := [] |}.

(** [open_log]: [fd] is the result of [open] on the time-stamped path, [None] when
    it fails; the level changes in either case. *)
Definition open_log (fd : option Z) (level : string) (s : SingletonLog) : bool * SingletonLog :=
  let level := get_log_level level in
  match fd with
  | None =>
      (false, {| log_fd := log_fd s; old_fd := old_fd s; log_level := level;
                 open_fds := open_fds s; written := written s |})
  | Some fd =>
      let fds := {[fd]} ∪ open_fds s in
      let fds := if negb (old_fd s =? 0) then fds ∖ {[old_fd s]} else fds in
      (true, {| log_fd := fd; old_fd := log_fd s; log_level := level;
                open_fds := fds; written := written s |})
  end.

Definition close_log (s : SingletonLog) : bool * SingletonLog :=
  if decide (log_fd s ∈ open_fds s) then
    (true, {| log_fd := log_fd s; old_fd := old_fd s; log_level := log_level s;
              open_fds := open_fds s ∖ {[log_fd s]}; written := written s |})
  else (false, s).

(** ** Lines *)

Definition MAX_MSG_LENGTH : Z := 1024.

(** [%0nd] of a number that is not negative. *)
Fixpoint zero_pad (n : nat) (z : Z) : list byte :=
  match n with
  | O => []
  | S n => zero_pad n (z / 10) ++ [z2b (48 + z mod 10)]
  end.
Definition print_0d (n : nat) (z : Z) : list byte :=
  if z <? 10 ^ Z.of_nat n then zero_pad n z else print_ld z.

Record tm := { tm_year : Z; tm_mon : Z; tm_mday : Z; tm_hour : Z; tm_min : Z; tm_sec : Z }.

Definition log_prefix (t : tm) (usec thread_id : Z) (level : LOG_LEVEL) : list byte :=
  bytes_of "[" ++ print_0d 4 (tm_year t + 1900) ++ bytes_of "-" ++ print_0d 2 (tm_mon t + 1) ++
  bytes_of "-" ++ print_0d 2 (tm_mday t) ++ bytes_of " " ++ print_0d 2 (tm_hour t) ++
  bytes_of ":" ++ print_0d 2 (tm_min t) ++ bytes_of ":" ++ print_0d 2 (tm_sec t) ++
  bytes_of "." ++ print_0d 6 usec ++ bytes_of "] [" ++ print_ld thread_id ++ bytes_of "] " ++
  bytes_of (get_level_name level) ++ bytes_of ":".

(** [vsnprintf(buffer + len, size, fmt, ap)] for a formatted text. *)
Definition vsnprintf (size : Z) (text : list byte) : list byte := ztake (size - 1) text.

(** [write_log]; [text] is what the format and its arguments expand to.  The line
    is built in [buffer], an array of [MAX_MSG_LENGTH] bytes. *)
Definition write_log (level : LOG_LEVEL) (t : tm) (usec thread_id : Z) (text : list byte)
    (s : SingletonLog) : outcome SingletonLog :=
  if level_value level >? level_value (log_level s) then Val s
  else
    let prefix := log_prefix t usec thread_id level in
    let len := Zlen prefix in
    if len >=? MAX_MSG_LENGTH then Undef OutOfBounds       (* sprintf *)
    else
      let line := prefix ++ vsnprintf (MAX_MSG_LENGTH - len) (c_str text) in
      let len := Zlen line in
      (* the newline goes to buffer[len], the NUL to buffer[len + 1] *)
      if len + 1 >=? MAX_MSG_LENGTH then Undef OutOfBounds
      else Val {| log_fd := log_fd s; old_fd := old_fd s; log_level := log_level s;
                  open_fds := open_fds s;
                  written := written s ++ [(log_fd s, line ++ [z2b 10])] |}.

(** ** Properties *)

(** Descriptor 0 is never the log's, and the log's descriptors are open. *)
Record log_ok (s : SingletonLog) : Prop := {
  lo_log : log_fd s = 0 ∨ log_fd s ∈ open_fds s;
  lo_old : old_fd s = 0 ∨ old_fd s ∈ open_fds s;
  lo_first : log_fd s = 0 → old_fd s = 0;
  lo_distinct : log_fd s ≠ 0 → log_fd s ≠ old_fd s
}.

Lemma init_log_ok level fds : log_ok (init_log level fds).
Proof. split; simpl; auto. Qed.

Lemma open_log_ok fd level s :
  log_ok s → (∀ f, fd = Some f → f ∉ open_fds s ∧ f ≠ 0) → log_ok (open_log fd level s).2.
Proof.
  intros [H1 H2 H3 H4] Hf. destruct fd as [f|]; [|by split].
  destruct (Hf f eq_refl) as [Hfo Hf0]. cbn. destruct (Z.eqb_spec (old_fd s) 0); cbn.
  - split; cbn; [right; set_solver| |done|set_solver].
    destruct H1; [by left|right; set_solver].
  - split; cbn; [right; set_solver| |done|set_solver].
    destruct H1 as [H1|H1]; [by left|]. right.
    destruct (decide (log_fd s = 0)) as [E|E]; [naive_solver|]. pose proof (H4 E). set_solver.
Qed.

(** Every rotation: fresh descriptors that are not 0. *)
Fixpoint rotations (fds : list (option Z)) (level : string) (s : SingletonLog) : SingletonLog :=
  match fds with [] => s | fd :: fds => rotations fds level (open_log fd level s).2 end.

Fixpoint fresh_fds (fds : list (option Z)) (level : string) (s : SingletonLog) : Prop :=
  match fds with
  | [] => True
  | fd :: fds => (∀ f, fd = Some f → f ∉ open_fds s ∧ f ≠ 0) ∧
                 fresh_fds fds level (open_log fd level s).2
  end.

(** Rotating keeps what is open apart from the log: the log itself never holds
    more than its current and its previous descriptor. *)
Definition log_own (fds0 : gset Z) (s : SingletonLog) : Prop :=
  open_fds s = fds0 ∪ ({[log_fd s; old_fd s]} ∖ {[0]}) ∧ log_fd s ∉ fds0 ∖ {[0]} ∧
  old_fd s ∉ fds0 ∖ {[0]}.

Lemma open_log_own fds0 fd level s :
  log_ok s → log_own fds0 s → (∀ f, fd = Some f → f ∉ open_fds s ∧ f ≠ 0) →
  log_own fds0 (open_log fd level s).2.
Proof.
  intros Hok (Ho & Hl & Hold) Hf. destruct fd as [f|]; [|done].
  destruct (Hf f eq_refl) as [Hfo Hf0]. unfold log_own. cbn. pose proof (lo_distinct _ Hok).
  pose proof (lo_first _ Hok).
  destruct (Z.eqb_spec (old_fd s) 0) as [E|E]; cbn.
  - split; [|set_solver]. rewrite Ho, E. apply set_eq. intros x.
    destruct (decide (x = 0)); set_solver.
  - split; [|set_solver]. rewrite Ho. apply set_eq. intros x.
    assert (log_fd s ≠ 0) by (intros ?; naive_solver). assert (log_fd s ≠ old_fd s) by naive_solver.
    destruct (decide (x = 0)), (decide (x = old_fd s)); set_solver.
Qed.

(** Rotation: however often the log is reopened, successfully or not, the
    process keeps open, besides what was open at the start, exactly the current
    and the previous log file, so a thread that still writes to the previous one
    never writes to a closed or reused descriptor and no descriptor is leaked. *)
Theorem rotations_keep_two level l fds0 fds :
  let s := rotations fds level (init_log l fds0) in
  fresh_fds fds level (init_log l fds0) → log_ok s ∧ log_own fds0 s.
Proof.
  assert (log_own fds0 (init_log l fds0)) as Hown.
  { split; [|set_solver]. simpl. set_solver. }
  pose proof (init_log_ok l fds0) as Hok. revert Hok Hown. generalize (init_log l fds0).
  induction fds as [|fd fds IH]; intros s Hok Hown; [done|]. cbn [rotations fresh_fds].
  intros [Hf Hfr]. apply IH; [by apply open_log_ok|by apply open_log_own|done].
Qed.

(** Log lines: a message above the configured level is dropped; otherwise
    exactly the prefix, the text and a newline go to the current log file, as long
    as they fit the 1024-byte line buffer; a text that fills the buffer makes
    [write_log] store the terminating NUL one byte behind it. *)
Theorem write_log_line level t usec tid text s :
  let prefix := log_prefix t usec tid level in
  Zlen prefix < MAX_MSG_LENGTH →
  write_log level t usec tid text s =
    if level_value level >? level_value (log_level s) then Val s
    else if Zlen prefix + Zlen (c_str text) <? MAX_MSG_LENGTH - 1 then
      Val {| log_fd := log_fd s; old_fd := old_fd s; log_level := log_level s;
             open_fds := open_fds s;
             written := written s ++ [(log_fd s, prefix ++ c_str text ++ [z2b 10])] |}
    else Undef OutOfBounds.
Proof.
  intros prefix Hp. unfold write_log. destruct (_ >? _); [done|]. fold prefix.
  destruct (Z.geb_spec (Zlen prefix) MAX_MSG_LENGTH); [lia|].
  unfold vsnprintf. rewrite Zlen_app, Zlen_ztake. pose proof (Zlen_nonneg (c_str text)).
  unfold MAX_MSG_LENGTH in *. destruct (Z.ltb_spec (Zlen prefix + Zlen (c_str text)) (1024 - 1)).
  - rewrite ztake_all by lia. rewrite <- app_assoc. zcase; [lia|done].
  - zcase; [done|lia].
Qed.
