(* ===== verification/WorkStart.v ===== *)
(** Setting a worker thread up and running it: [init_work], [setnonblock],
    [asy_open_redis], [run], [free_data] and the redis connection callbacks of
    src/core/work_thread.cc, the thread-private data of src/core/log.h and
    shared_data.{h,cc}.

    [Setup] is what these functions change: the descriptors of the process with
    their status flags, the members of the thread object, the events of its event
    base.  Results of system calls come from [Oracle]. *)

From S2P Require Import Prelude AnalyseReq WorkThread Log.
From stdpp Require Import pretty.
#[local] Open Scope Z_scope.

(** ** State *)

Inductive notify := NewConn | NewMsg.
#[export] Instance notify_eq_dec : EqDecision notify.
Proof. solve_decision. Defined.

(** A redis context: whether connecting failed at once, the event base attached,
    the two callbacks set, the commands issued. *)
Record RedisCtx := {
  rc_addr : string * Z; rc_err : bool; rc_attached : bool;
  rc_connect_cb : bool; rc_disconnect_cb : bool; rc_cmds : list string }.

Record Setup := {
  su_flags : gmap Z Z;                (** open descriptors and their F_GETFL flags *)
  su_new_conn_fd : Z * Z; su_new_msg_fd : Z * Z;
  su_work_num : Z; su_work_thread_num : Z; su_ping_time : Z;
  su_http_url : string; su_http_ip : string;
  su_evbase : bool;
  su_events : list (Z * notify);      (** EV_READ | EV_PERSIST events added to the base *)
  su_redis : option RedisCtx }.

Definition set_flags (f : gmap Z Z) (s : Setup) : Setup :=
  {| su_flags := f; su_new_conn_fd := su_new_conn_fd s; su_new_msg_fd := su_new_msg_fd s;
     su_work_num := su_work_num s; su_work_thread_num := su_work_thread_num s;
     su_ping_time := su_ping_time s; su_http_url := su_http_url s; su_http_ip := su_http_ip s;
     su_evbase := su_evbase s; su_events := su_events s; su_redis := su_redis s |}.
Definition set_pipes (c m : Z * Z) (s : Setup) : Setup :=
  {| su_flags := su_flags s; su_new_conn_fd := c; su_new_msg_fd := m;
     su_work_num := su_work_num s; su_work_thread_num := su_work_thread_num s;
     su_ping_time := su_ping_time s; su_http_url := su_http_url s; su_http_ip := su_http_ip s;
     su_evbase := su_evbase s; su_events := su_events s; su_redis := su_redis s |}.
Definition set_params (num n ping : Z) (url ip : string) (s : Setup) : Setup :=
  {| su_flags := su_flags s; su_new_conn_fd := su_new_conn_fd s; su_new_msg_fd := su_new_msg_fd s;
     su_work_num := num; su_work_thread_num := n; su_ping_time := ping;
     su_http_url := url; su_http_ip := ip;
     su_evbase := su_evbase s; su_events := su_events s; su_redis := su_redis s |}.
Definition set_base (b : bool) (ev : list (Z * notify)) (s : Setup) : Setup :=
  {| su_flags := su_flags s; su_new_conn_fd := su_new_conn_fd s; su_new_msg_fd := su_new_msg_fd s;
     su_work_num := su_work_num s; su_work_thread_num := su_work_thread_num s;
     su_ping_time := su_ping_time s; su_http_url := su_http_url s; su_http_ip := su_http_ip s;
     su_evbase := b; su_events := ev; su_redis := su_redis s |}.
Definition set_redis (c : option RedisCtx) (s : Setup) : Setup :=
  {| su_flags := su_flags s; su_new_conn_fd := su_new_conn_fd s; su_new_msg_fd := su_new_msg_fd s;
     su_work_num := su_work_num s; su_work_thread_num := su_work_thread_num s;
     su_ping_time := su_ping_time s; su_http_url := su_http_url s; su_http_ip := su_http_ip s;
     su_evbase := su_evbase s; su_events := su_events s; su_redis := c |}.

(** Results of the system: the descriptors of the two pipes, [fcntl], the event
    base, creating and adding an event. *)
Record Oracle := {
  or_pipe : notify → option (Z * Z);
  or_getfl : Z → bool; or_setfl : Z → bool;
  or_base : bool;
  or_event_new : notify → bool; or_event_add : notify → bool }.

(** ** Steps that may fail *)

Definition setupM (A : Type) : Type := Setup → A * Setup.
#[export] Instance setupM_ret : MRet setupM := λ A a s, (a, s).
#[export] Instance setupM_bind : MBind setupM := λ A B k m s, let '(a, s) := m s in k a s.

(** [if (!call) return false; ...] *)
#[local] Notation "'check' m ; k" := (ok ← m; if ok : bool then k else mret false)
  (at level 100, k at level 200, only parsing).

Section start.
Context (o : Oracle).

Definition O_NONBLOCK : Z := 2048.
Definition O_WRONLY : Z := 1.

(** [pipe]: the read end, the write end. *)
Definition pipe (which : notify) : setupM bool := λ s,
  match or_pipe o which with
  | None => (false, s)
  | Some (r, w) =>
      let s := set_flags (<[w := O_WRONLY]> (<[r := 0%Z]> (su_flags s))) s in
      (true, match which with
             | NewConn => set_pipes (r, w) (su_new_msg_fd s) s
             | NewMsg => set_pipes (su_new_conn_fd s) (r, w) s
             end)
  end.
Definition get {A} (f : Setup → A) : setupM A := λ s, (f s, s).

Definition setnonblock (fd : Z) : setupM bool := λ s,
  match su_flags s !! fd with
  | Some fdflags =>
      if or_getfl o fd then
        if or_setfl o fd then (true, set_flags (<[fd := Z.lor fdflags O_NONBLOCK]> (su_flags s)) s)
        else (false, s)
      else (false, s)
  | None => (false, s)
  end.

Definition event_base_new : setupM bool := λ s,
  if or_base o then (true, set_base true [] s) else (false, s).
Definition event_add (fd : Z) (n : notify) : setupM bool := λ s,
  if or_event_add o n then (true, set_base (su_evbase s) (su_events s ++ [(fd, n)]) s) else (false, s).

(** Reserving space in the hash tables has no effect on the maps. *)
Definition init_work (work_num work_thread_num ping_time : Z) (http_url http_ip : string) : setupM bool :=
  check pipe NewConn;
  conn ← get su_new_conn_fd;
  check setnonblock conn.1;
  check setnonblock conn.2;
  check pipe NewMsg;
  msg ← get su_new_msg_fd;
  check setnonblock msg.1;
  check setnonblock msg.2;
  _ ← (λ s, (tt, set_params work_num work_thread_num ping_time http_url http_ip s)) : setupM unit;
  check event_base_new;
  check (mret (or_event_new o NewConn));
  check event_add conn.1 NewConn;
  check (mret (or_event_new o NewMsg));
  _ ← event_add msg.1 NewMsg;        (* only logged when it fails *)
  mret true.

(** [asy_open_redis]; [ctx] is the result of [redisAsyncConnect]: [None] for NULL
    (no memory), else whether the context carries an error.  The previous context
    is left behind. *)
Definition asy_open_redis (ctx : option bool) (ip : string) (port db_num : Z) (s : Setup) : outcome (bool * Setup) :=
  match ctx with
  | None => Undef NullDeref
  | Some err =>
      let c := {| rc_addr := (ip, port); rc_err := err; rc_attached := false; rc_connect_cb := false;
                  rc_disconnect_cb := false; rc_cmds := [] |} in
      if err then Val (false, set_redis (Some c) s)
      else
        Val (true, set_redis (Some {| rc_addr := (ip, port); rc_err := false; rc_attached := true;
                                      rc_connect_cb := true; rc_disconnect_cb := true;
                                      rc_cmds := ["SELECT " +:+ pretty db_num]%string |}) s)
  end.

(** [free_data]: the base with its events. *)
Definition free_data (s : Setup) : Setup := set_base false [] s.
End start.

(** ** Redis connection callbacks: the signals sent to the process *)

Inductive signal := SIGTERM | SIGUSR1.
Definition REDIS_OK : Z := 0.

Definition redis_connect_callback (status : Z) : list signal :=
  if negb (status =? REDIS_OK) then [SIGTERM] else [].
Definition redis_disconnect_callback (status : Z) : list signal := [SIGUSR1].

(** ** Thread-private data (log.h, shared_data.{h,cc}) *)

Record ThreadInfo := { ti_thread_id : Z; ti_evbase : bool }.

(** SharedData and the values the threads keep under its key. *)
Record SharedData := { sd_pthread_key : option Z; sd_private : gmap nat ThreadInfo }.

(** [create_pthread_key]; [res] is the key [pthread_key_create] stored, [None]
    when it failed. *)
Definition create_pthread_key (res : option Z) (d : SharedData) : bool * SharedData :=
  match res with
  | Some k => (true, {| sd_pthread_key := Some k; sd_private := ∅ |})
  | None => (false, d)
  end.
Definition set_private (p : gmap nat ThreadInfo) (d : SharedData) : SharedData :=
  {| sd_pthread_key := sd_pthread_key d; sd_private := p |}.

(** The moment a line is logged. *)
Record Now := { now_tm : tm; now_usec : Z }.

(** [write_log] in thread [self]: the level is tested first, then the thread's
    private data is read. *)
Definition log_in (self : nat) (d : SharedData) (level : LOG_LEVEL) (n : Now) (text : list byte)
    (s : SingletonLog) : outcome SingletonLog :=
  if level_value level >? level_value (log_level s) then Val s
  else
    ti ← or_undef NullDeref (sd_private d !! self);
    write_log level (now_tm n) (now_usec n) (ti_thread_id ti) text s.

(** The text of a message: __FILE__, __LINE__ and what the format expands to. *)
Definition at_line (file : list byte) (line : Z) (text : list byte) : list byte :=
  bytes_of "[" ++ file ++ bytes_of "(" ++ print_ld line ++ bytes_of ")]: " ++ text.

(** WorkThread::run, the body of thread [self]; [set_ok] is the result of
    [pthread_setspecific], [strerror] the text of its error, [dispatch] what the
    event loop does to the log and its exit code. *)
Definition thread_run (file strerror : list byte) (self : nat) (w : Setup) (set_ok : bool) (n1 n2 : Now)
    (dispatch : SharedData → SingletonLog → outcome (Z * SingletonLog)) (d : SharedData) (s : SingletonLog)
  : outcome (SharedData * SingletonLog) :=
  let thread_info := {| ti_thread_id := su_work_num w; ti_evbase := su_evbase w |} in
  if set_ok then
    let d := set_private (<[self := thread_info]> (sd_private d)) d in
    s ← log_in self d INFO n1 (at_line file 361 (bytes_of "work thread start loop")) s;
    '(res, s) ← dispatch d s;
    s ← log_in self d INFO n2
          (at_line file 363 (bytes_of "work thread exit loop. exit code:" ++ print_ld res)) s;
    Val (d, s)
  else
    s ← log_in self d ERROR n1
          (at_line file 357 (bytes_of "id:" ++ print_ld (su_work_num w) ++
             bytes_of ", set thread private data error. " ++ strerror ++ bytes_of ", thread exit!")) s;
    Val (d, s).

(** ** Properties *)

Definition nonblocking (s : Setup) (fd : Z) : Prop :=
  ∃ f, su_flags s !! fd = Some f ∧ Z.testbit f 11 = true.

Lemma setnonblock_spec o fd s s' :
  setnonblock o fd s = (true, s') →
  nonblocking s' fd ∧ (∀ fd', nonblocking s fd' → nonblocking s' fd') ∧ s' = set_flags (su_flags s') s.
Proof.
  unfold setnonblock. destruct (su_flags s !! fd) as [f|] eqn:Hf; [|done].
  destruct (or_getfl o fd), (or_setfl o fd); try done. intros [= <-]. assert (nonblocking (set_flags (<[fd := Z.lor f O_NONBLOCK]> (su_flags s)) s) fd) as P.
  { exists (Z.lor f O_NONBLOCK). split; [apply lookup_insert_eq|]. by rewrite Z.lor_spec, orb_true_r. }
  split; [done|]. split; [|done].
  intros fd' (f' & Hf' & Hb). destruct (decide (fd' = fd)) as [->|]; [done|].
  exists f'. split; [|done]. cbn. by rewrite lookup_insert_ne.
Qed.

(** A pipe's ends are new descriptors. *)
Definition fresh_pipes (o : Oracle) (s : Setup) : Prop :=
  ∀ k r w, or_pipe o k = Some (r, w) →
    r ≠ w ∧ su_flags s !! r = None ∧ su_flags s !! w = None ∧
    ∀ r' w', or_pipe o NewConn = Some (r', w') → k = NewMsg → r ≠ r' ∧ r ≠ w' ∧ w ≠ r' ∧ w ≠ w'.

Lemma pipe_keeps_nonblocking o k s s' fd r w :
  pipe o k s = (true, s') → or_pipe o k = Some (r, w) → fd ≠ r → fd ≠ w → nonblocking s fd → nonblocking s' fd.
Proof.
  unfold pipe. intros E Ho. rewrite Ho in E. injection E as <-. intros Hr Hw (f & Hf & Hb).
  exists f. destruct k; cbn; by rewrite !lookup_insert_ne.
Qed.

(** One step of a [check]ed sequence that succeeded. *)
Lemma check_step (m k : setupM bool) s s' :
  (ok ← m; if ok : bool then k else mret false) s = (true, s') → ∃ s1, m s = (true, s1) ∧ k s1 = (true, s').
Proof. unfold mbind, setupM_bind. destruct (m s) as [[|] s1]; [eauto|done]. Qed.

Lemma get_step {A B} (f : Setup → A) (k : A → setupM B) s : (get f ≫= k) s = k (f s) s.
Proof. done. Qed.
Lemma params_step {B} num n ping url ip (k : unit → setupM B) s :
  (((λ s, (tt, set_params num n ping url ip s)) : setupM unit) ≫= k) s = k tt (set_params num n ping url ip s).
Proof. done. Qed.

(** The two pipes after the first six steps. *)
Lemma pipes_nonblocking o s s1 s2 s3 s4 s5 s6 :
  fresh_pipes o s →
  pipe o NewConn s = (true, s1) → setnonblock o (su_new_conn_fd s1).1 s1 = (true, s2) →
  setnonblock o (su_new_conn_fd s1).2 s2 = (true, s3) →
  pipe o NewMsg s3 = (true, s4) → setnonblock o (su_new_msg_fd s4).1 s4 = (true, s5) →
  setnonblock o (su_new_msg_fd s4).2 s5 = (true, s6) →
  su_new_conn_fd s6 = su_new_conn_fd s1 ∧ su_new_msg_fd s6 = su_new_msg_fd s4 ∧
  Forall (nonblocking s6) [(su_new_conn_fd s1).1; (su_new_conn_fd s1).2; (su_new_msg_fd s4).1; (su_new_msg_fd s4).2].
Proof.
  intros Hfr E1 (N2 & K2 & F2)%setnonblock_spec (N3 & K3 & F3)%setnonblock_spec E4
    (N5 & K5 & F5)%setnonblock_spec (N6 & K6 & F6)%setnonblock_spec.
  destruct (or_pipe o NewConn) as [[r w]|] eqn:Ec; [|by unfold pipe in E1; rewrite Ec in E1].
  destruct (or_pipe o NewMsg) as [[r' w']|] eqn:Em; [|by unfold pipe in E4; rewrite Em in E4].
  assert (su_new_conn_fd s1 = (r, w)) as Hc by (unfold pipe in E1; rewrite Ec in E1; by injection E1 as <-).
  destruct (Hfr NewMsg r' w' Em) as (_ & _ & _ & Hne). destruct (Hne r w Ec eq_refl) as (? & ? & ? & ?).
  rewrite Hc in N2, N3. cbn [fst snd] in N2, N3.
  pose proof (pipe_keeps_nonblocking _ _ _ _ r r' w' E4 Em ltac:(done) ltac:(done) (K3 _ N2)) as P1.
  pose proof (pipe_keeps_nonblocking _ _ _ _ w r' w' E4 Em ltac:(done) ltac:(done) N3) as P2.
  split; [|split].
  - rewrite F6, F5. cbn. unfold pipe in E4. rewrite Em in E4. injection E4 as <-. cbn. by rewrite F3, F2.
  - by rewrite F6, F5.
  - rewrite Hc. cbn [fst snd]. repeat apply Forall_cons_2; auto.
Qed.

(** A worker that is set up is ready to be notified.  When [init_work] returns true,
    both pipes exist with all four ends non-blocking, the event base exists and
    watches the connection pipe, and the parameters are stored; the message pipe is
    watched only if adding its event succeeded, since that failure is not reported. *)
Theorem init_work_ready o num n ping url ip s s' :
  fresh_pipes o s → init_work o num n ping url ip s = (true, s') →
  Forall (nonblocking s') [(su_new_conn_fd s').1; (su_new_conn_fd s').2; (su_new_msg_fd s').1; (su_new_msg_fd s').2] ∧
  su_evbase s' = true ∧
  su_events s' = ((su_new_conn_fd s').1, NewConn) ::
                 (if or_event_add o NewMsg then [((su_new_msg_fd s').1, NewMsg)] else []) ∧
  (su_work_num s', su_work_thread_num s', su_ping_time s', su_http_url s', su_http_ip s') = (num, n, ping, url, ip).
Proof.
  intros Hfr (s1 & E1 & H)%check_step. rewrite get_step in H.
  apply check_step in H as (s2 & E2 & H). apply check_step in H as (s3 & E3 & H).
  apply check_step in H as (s4 & E4 & H). rewrite get_step in H.
  apply check_step in H as (s5 & E5 & H). apply check_step in H as (s6 & E6 & H).
  destruct (pipes_nonblocking _ _ _ _ _ _ _ _ Hfr E1 E2 E3 E4 E5 E6) as (Hc & Hm & Hn). clear E1 E2 E3 E4 E5 E6.
  rewrite params_step in H. apply check_step in H as (s7 & E7 & H). apply check_step in H as (s8 & E8 & H).
  apply check_step in H as (s9 & E9 & H). apply check_step in H as (s10 & E10 & H).
  unfold event_base_new in E7. destruct (or_base o); [|done]. injection E7 as <-.
  injection E8 as _ <-. injection E10 as _ <-. unfold event_add in E9.
  destruct (or_event_add o NewConn); [|done]. injection E9 as <-.
  rewrite <- Hc, <- Hm in Hn. rewrite <- Hc, <- Hm in H. unfold event_add, mbind, setupM_bind in H.
  destruct (or_event_add o NewMsg); injection H as <-; (split; [exact Hn|done]).
Qed.

(** A thread that cannot store its private data dies of it: the error message it
    logs needs that data. *)
Lemma run_without_private_data file err self w n1 n2 dispatch d s :
  sd_private d !! self = None → level_value ERROR <= level_value (log_level s) →
  thread_run file err self w false n1 n2 dispatch d s = Undef NullDeref.
Proof.
  intros Hd Hl. unfold thread_run, log_in. destruct (Z.gtb_spec (level_value ERROR) (level_value (log_level s))); [lia|].
  by rewrite Hd.
Qed.

(** With the private data in place every line the thread logs carries its number. *)
Lemma log_in_numbered self w d level n text s :
  sd_private d !! self = Some {| ti_thread_id := su_work_num w; ti_evbase := su_evbase w |} →
  log_in self d level n text s = write_log level (now_tm n) (now_usec n) (su_work_num w) text s.
Proof.
  intros Hd. unfold log_in. rewrite Hd. cbn. unfold write_log. by destruct (_ >? _).
Qed.
