(* ===== verification/Server.v ===== *)
(** The main thread: src/core/server.{h,cc}, shared_struct.h and eglcomet.cc.

    [Server] is the state the main thread keeps (configuration, worker threads,
    the redis server in use).  Its event callbacks are functions on it; the
    start-up code, a sequence of system calls with early returns, runs in a small
    monad that asks an oracle for the result of each call and records the calls. *)

From S2P Require Import Prelude AnalyseReq WorkThread Log.
From stdpp Require Import pretty.
#[local] Open Scope Z_scope.

(** ** Data (shared_struct.h, server.h) *)

Record RedisInfo := { ri_ip : string; ri_port : Z; ri_db_num : Z }.

Record Config := {
  pid_file_path : string; logger_level : string; logger_folder : string;
  http_url : string; redis_info : list RedisInfo; redis_info_count : Z;
  cur_conn_index : Z; listen : Z; work_thread_num : Z; max_num_per_thread : Z;
  heartbeat_time : Z; cfg_is_daemon : bool }.

Definition set_cur_conn_index (i : Z) (c : Config) : Config :=
  {| pid_file_path := pid_file_path c; logger_level := logger_level c;
     logger_folder := logger_folder c; http_url := http_url c; redis_info := redis_info c;
     redis_info_count := redis_info_count c; cur_conn_index := i; listen := listen c;
     work_thread_num := work_thread_num c; max_num_per_thread := max_num_per_thread c;
     heartbeat_time := heartbeat_time c; cfg_is_daemon := cfg_is_daemon c |}.

(** [srv_redis] is the server each worker's redis context was last opened to,
    [None] when that failed; [srv_killed] counts the SIGTERMs sent to itself. *)
Record Server := {
  srv_config : Config; srv_last_connect_time : Z; srv_threads : list WorkThread;
  srv_redis : list (option RedisInfo); srv_killed : nat }.

Definition set_srv_threads (ts : list WorkThread) (s : Server) : Server :=
  {| srv_config := srv_config s; srv_last_connect_time := srv_last_connect_time s;
     srv_threads := ts; srv_redis := srv_redis s; srv_killed := srv_killed s |}.

(** ** Configuration *)

Section config.
(** boost's property tree: [get] throws when a key is missing or not of the type
    asked for. *)
Context (pt_string : string → option string) (pt_int : string → option Z).

Definition redis_key (name : string) (i : nat) : string :=
  ("redis." +:+ name +:+ pretty i)%string.

Fixpoint read_redis_info (n i : nat) : option (list RedisInfo) :=
  match n with
  | O => Some []
  | S n =>
      ip ← pt_string (redis_key "ip" i);
      port ← pt_int (redis_key "port" i);
      db_num ← pt_int (redis_key "db_num" i);
      rest ← read_redis_info n (S i);
      Some ({| ri_ip := ip; ri_port := port; ri_db_num := db_num |} :: rest)
  end.

Definition analyse_config : option Config :=
  pid_file_path ← pt_string "pidfile";
  logger_level ← pt_string "logger.level";
  logger_folder ← pt_string "logger.folder";
  listen ← pt_int "server.listen";
  work_thread_num ← pt_int "server.work_thread";
  max_num_per_thread ← pt_int "server.max_num_per_thread";
  heartbeat_time ← pt_int "server.heartbeat_time";
  redis_info_count ← pt_int "redis.redis_info_count";
  if redis_info_count <? 0 then None                    (* new[] throws *)
  else
    redis_info ← read_redis_info (Z.to_nat redis_info_count) 0;
    http_url ← pt_string "http.url";
    is_daemon ← pt_string "daemon";
    Some {| pid_file_path := pid_file_path; logger_level := logger_level;
            logger_folder := logger_folder; http_url := http_url; redis_info := redis_info;
            redis_info_count := redis_info_count; cur_conn_index := 0; listen := listen;
            work_thread_num := work_thread_num; max_num_per_thread := max_num_per_thread;
            heartbeat_time := heartbeat_time;
            cfg_is_daemon := bool_decide (is_daemon = "on"%string) |}.
End config.

(** ** Event callbacks *)

Section callbacks.
Context (conn_cap : nat).

(** The loop of [accept_callback] over the threads from [i] on. *)
Fixpoint least_loaded (ts : list WorkThread) (i min_index : nat) (min_count : Z) : nat * Z :=
  match ts with
  | [] => (min_index, min_count)
  | t :: ts =>
      if wt_conn_num t <? min_count then least_loaded ts (S i) i (wt_conn_num t)
      else least_loaded ts (S i) min_index min_count
  end.

(** [accept_callback]: [conn_fd] is the result of [accept4], [None] for -1. *)
Definition accept_callback (conn_fd : option Z) (s : Server) : outcome Server :=
  match srv_threads s with
  | [] => Undef NullDeref
  | t0 :: ts =>
      let '(min_index, min_count) := least_loaded ts 1 0 (wt_conn_num t0) in
      if min_count <? max_num_per_thread (srv_config s) then
        match conn_fd with
        | Some fd =>
            match srv_threads s !! min_index with
            | Some t =>
                Val (set_srv_threads
                       (<[min_index := (notify_new_conn conn_cap fd t).2]> (srv_threads s)) s)
            | None => Undef OutOfBounds
            end
        | None => Val s
        end
      else Val s
  end.

(** [check_expire_client], the timer callback. *)
Definition check_expire_client (s : Server) : Server :=
  set_srv_threads ((λ t, (notify_new_conn conn_cap (-2) t).2) <$> srv_threads s) s.

(** [asy_open_redis] of every thread; [ok i] tells whether the context of thread
    [i] could be opened. *)
Fixpoint open_all (info : RedisInfo) (ok : nat → bool) (n i : nat) : list (option RedisInfo) * nat :=
  match n with
  | O => ([], 0%nat)
  | S n =>
      let '(rs, killed) := open_all info ok n (S i) in
      if ok i then (Some info :: rs, killed) else (None :: rs, S killed)
  end.

Definition reconnect_redis (now : Z) (ok : nat → bool) (s : Server) : outcome Server :=
  if now - srv_last_connect_time s >? 10 then
    let c := srv_config s in
    if redis_info_count c =? 0 then Undef AssertFail      (* division by zero *)
    else
      let c := set_cur_conn_index (Z.rem (cur_conn_index c + 1) (redis_info_count c)) c in
      info ← or_undef OutOfBounds (znth (redis_info c) (cur_conn_index c));
      let '(rs, killed) := open_all info ok (length (srv_threads s)) 0 in
      Val {| srv_config := c; srv_last_connect_time := now; srv_threads := srv_threads s;
             srv_redis := rs; srv_killed := srv_killed s + killed |}
  else Val s.

(** [close_server]: every thread in turn gets the stop command and is joined;
    a thread that did not get it is never joined and the server hangs. *)
Fixpoint stop_threads (ts : list WorkThread) : option (list WorkThread) :=
  match ts with
  | [] => Some []
  | t :: ts =>
      let '(ok, t) := notify_new_conn conn_cap (-1) t in
      if ok then ts ← stop_threads ts; Some (t :: ts) else None
  end.
Definition close_server (s : Server) : option Server :=
  ts ← stop_threads (srv_threads s); Some (set_srv_threads ts s).
End callbacks.

(** [log_for_libevent]: the levels a libevent message is logged at; a warning falls
    through to the error case. *)
Definition log_for_libevent (severity : Z) : list LOG_LEVEL :=
  if severity =? 0 then [DEBUG]
  else if severity =? 1 then [INFO]
  else if severity =? 2 then [WARN; ERROR]
  else if severity =? 3 then [ERROR]
  else [ERROR].

(** ** Start-up *)

Inductive syscall :=
  | SysGethostbyname | SysPthreadKey | SysOpenLog | SysEventBase | SysSetSpecific
  | SysSigint | SysSigterm | SysSigusr1 | SysSigusr2 | SysTimer (secs : Z)
  | SysPidExists | SysSocket | SysReuseaddr | SysBind (port : Z) | SysListen
  | SysBlockSignals | SysInitWork (i : nat) | SysOpenRedis (i : nat) (info : RedisInfo)
  | SysPthreadCreate (i : nat) | SysUnblockSignals | SysOpenPid | SysWritePid
  | SysDispatch | SysRemovePid
  | SysFork | SysSetsid | SysClose (fd : Z) | SysOpenNull | SysDup2 (fd : Z).

(** The result of each call is the oracle's; the calls made are recorded, the
    latest first. *)
Definition sysM (A : Type) : Type := (syscall → bool) → list syscall → A * list syscall.

#[export] Instance sysM_ret : MRet sysM := λ A a o tr, (a, tr).
#[export] Instance sysM_bind : MBind sysM := λ A B k m o tr, let '(a, tr) := m o tr in k a o tr.

Definition sys (c : syscall) : sysM bool := λ o tr, (o c, c :: tr).

(** [if (!call) return false; ...] *)
#[local] Notation "'check' m ; k" := (ok ← m; if ok : bool then k else mret false)
  (at level 100, k at level 200, only parsing).

(** The interval is an int; from a heartbeat time of 2^30 on the product overflows, which is shown wrapped. *)
Definition init_signal_and_timer (c : Config) : sysM bool :=
  check sys SysSigint;
  check sys SysSigterm;
  check sys SysSigusr1;
  check sys SysSigusr2;
  check sys (SysTimer (i32 (heartbeat_time c * 2)));
  mret true.

Definition init_server (c : Config) : sysM bool :=
  check sys SysGethostbyname;
  check sys SysPthreadKey;
  check sys SysOpenLog;
  check sys SysEventBase;
  check sys SysSetSpecific;
  check init_signal_and_timer c;
  exists_ ← sys SysPidExists;
  mret (negb exists_).

Definition start_listen (c : Config) : sysM bool :=
  check sys SysSocket;
  check sys SysReuseaddr;
  check sys (SysBind (u16 (listen c)));
  check sys SysListen;
  mret true.

(** Threads [i], ..., [i + n - 1]; each context is opened to the current server. *)
Fixpoint start_threads (info : RedisInfo) (n i : nat) : sysM bool :=
  match n with
  | O => mret true
  | S n =>
      check sys (SysInitWork i);
      check sys (SysOpenRedis i info);
      check sys (SysPthreadCreate i);
      start_threads info n (S i)
  end.

Definition start_work_thread (c : Config) : sysM bool :=
  match znth (redis_info c) (cur_conn_index c) with
  | Some info => start_threads info (Z.to_nat (work_thread_num c)) 0
  | None => mret (work_thread_num c <=? 0)
  end.

(** [run_server]; the result tells whether the event loop was entered. *)
Definition run_server (c : Config) : sysM bool :=
  check start_listen c;
  check sys SysBlockSignals;
  check start_work_thread c;
  check sys SysUnblockSignals;
  check sys SysOpenPid;
  _ ← sys SysWritePid;
  _ ← sys SysDispatch;
  _ ← sys SysRemovePid;
  mret true.

(** [to_daemon] in the child. *)
Definition to_daemon : sysM bool :=
  check sys SysFork;
  check sys SysSetsid;
  check sys (SysClose 0);
  check sys (SysClose 1);
  check sys (SysClose 2);
  check sys SysOpenNull;
  check sys (SysDup2 0);
  check sys (SysDup2 1);
  check sys (SysDup2 2);
  mret true.

(** [main] after the configuration was read. *)
Definition main_comet (c : Config) : sysM bool :=
  check (if cfg_is_daemon c then to_daemon else mret true);
  check init_server c;
  run_server c.

(** ** Properties *)

Section load.
Context (conn_cap : nat).

Lemma least_loaded_spec ts i m mc :
  let '(k, c) := least_loaded ts i m mc in
  c <= mc ∧ Forall (λ t, c <= wt_conn_num t) ts ∧
  ((k = m ∧ c = mc) ∨
   ∃ n t, k = (i + n)%nat ∧ ts !! n = Some t ∧ wt_conn_num t = c ∧ c < mc ∧
     Forall (λ t, c < wt_conn_num t) (take n ts)).
Proof.
  revert i m mc. induction ts as [|t ts IH]; intros i m mc; cbn [least_loaded]; [by auto with lia|].
  destruct (Z.ltb_spec (wt_conn_num t) mc) as [Hlt|Hge].
  - specialize (IH (S i) i (wt_conn_num t)). destruct (least_loaded _ _ _ _) as [k c].
    destruct IH as (Hc & Hall & Hk). split; [lia|]. split; [by constructor|]. right.
    destruct Hk as [[-> ->]|(n & u & -> & Hn & Hu & Hlt' & Htk)].
    + exists 0%nat, t. simpl. repeat split; [lia|done|]. constructor.
    + exists (S n), u. simpl. repeat split; [lia|done|done|lia|]. by constructor.
  - specialize (IH (S i) m mc). destruct (least_loaded _ _ _ _) as [k c].
    destruct IH as (Hc & Hall & Hk). split; [lia|]. split; [constructor; [lia|done]|].
    destruct Hk as [Hk|(n & u & -> & Hn & Hu & Hlt' & Htk)]; [by left|]. right.
    exists (S n), u. simpl. repeat split; [lia|done|done|lia|]. constructor; [lia|done].
Qed.

(** C40.  Load balancing: an accepted connection is handed to the first thread
    with the smallest connection count, and only if that count is below the
    configured limit; otherwise nothing is accepted and no thread changes. *)
Theorem accept_least_loaded fd s :
  srv_threads s ≠ [] →
  ∃ k t, srv_threads s !! k = Some t ∧
    Forall (λ u, wt_conn_num t <= wt_conn_num u) (srv_threads s) ∧
    Forall (λ u, wt_conn_num t < wt_conn_num u) (take k (srv_threads s)) ∧
    accept_callback conn_cap (Some fd) s =
      if wt_conn_num t <? max_num_per_thread (srv_config s)
      then Val (set_srv_threads (<[k := (notify_new_conn conn_cap fd t).2]> (srv_threads s)) s)
      else Val s.
Proof.
  intros Hne. unfold accept_callback. destruct (srv_threads s) as [|t0 ts]; [done|].
  pose proof (least_loaded_spec ts 1 0 (wt_conn_num t0)) as P.
  destruct (least_loaded _ _ _ _) as [k c]. destruct P as (Hc & Hall & Hk).
  destruct Hk as [[-> ->]|(n & u & -> & Hn & Hu & Hlt & Htk)].
  - exists 0%nat, t0. repeat split; [constructor; [lia|done]|constructor].
  - exists (S n), u. subst c. split; [done|]. split; [constructor; [lia|done]|].
    split; [simpl; by constructor|]. simpl. rewrite Hn. done.
Qed.
End load.

(** ** The redis server in use *)

Record config_ok (c : Config) : Prop := {
  co_count : 0 < redis_info_count c;
  co_len : Zlen (redis_info c) = redis_info_count c;
  co_index : 0 <= cur_conn_index c < redis_info_count c
}.

Lemma read_redis_info_length ps pi n i l :
  read_redis_info ps pi n i = Some l → length l = n.
Proof.
  revert i l. induction n as [|n IH]; intros i l; cbn [read_redis_info]; [by intros [= <-]|].
  intros (ip & _ & (port & _ & (db & _ & (rest & Hr & [= <-])%bind_Some)%bind_Some)%bind_Some)%bind_Some.
  simpl. f_equal. by eapply IH.
Qed.

(** A configuration that was read has all its redis servers. *)
Lemma analyse_config_ok ps pi c :
  analyse_config ps pi = Some c → redis_info_count c ≠ 0 → config_ok c.
Proof.
  unfold analyse_config. intros Hc Hne.
  do 8 (apply bind_Some in Hc as (? & _ & Hc)). destruct (Z.ltb_spec x6 0); [done|].
  apply bind_Some in Hc as (l & Hl & Hc). do 2 (apply bind_Some in Hc as (? & _ & Hc)).
  injection Hc as <-. simpl in Hne. split; cbn; [lia| |lia].
  apply read_redis_info_length in Hl. unfold Zlen. lia.
Qed.

Lemma open_all_spec info ok n i :
  length (open_all info ok n i).1 = n ∧
  ∀ k r, (open_all info ok n i).1 !! k = Some r → r = if ok (i + k)%nat then Some info else None.
Proof.
  revert i. induction n as [|n IH]; intros i; cbn [open_all]; [done|].
  destruct (IH (S i)) as [Hl Hk]. destruct (open_all info ok n (S i)) as [rs kd].
  split; [destruct (ok i); simpl; by f_equal|].
  intros [|k] r Hr.
  - rewrite Nat.add_0_r. destruct (ok i); simpl in Hr; congruence.
  - rewrite <- Nat.add_succ_comm. apply Hk. by destruct (ok i).
Qed.

(** Failover: at most every ten seconds a reconnect moves on to the next
    configured redis server, wrapping around at the end of the list, and opens
    every worker's context to that one server; before the ten seconds are over it
    does nothing. *)
Theorem redis_rotates now ok s :
  config_ok (srv_config s) →
  ∃ s', reconnect_redis now ok s = Val s' ∧
    if now - srv_last_connect_time s >? 10 then
      config_ok (srv_config s') ∧ srv_last_connect_time s' = now ∧
      cur_conn_index (srv_config s') =
        (cur_conn_index (srv_config s) + 1) mod redis_info_count (srv_config s) ∧
      ∃ info, znth (redis_info (srv_config s)) (cur_conn_index (srv_config s')) = Some info ∧
        length (srv_redis s') = length (srv_threads s) ∧
        ∀ k r, srv_redis s' !! k = Some r → r = if ok k then Some info else None
    else s' = s.
Proof.
  intros [H1 H2 H3]. unfold reconnect_redis. destruct (_ >? 10); [|by eexists].
  rewrite Z.rem_mod_nonneg by lia.
  destruct (Z.eqb_spec (redis_info_count (srv_config s)) 0); [lia|].
  pose proof (Z.mod_pos_bound (cur_conn_index (srv_config s) + 1) _ H1) as Hb.
  set (i := (cur_conn_index (srv_config s) + 1) mod redis_info_count (srv_config s)) in *.
  destruct (znth_lt (redis_info (srv_config s)) i) as [info Hinfo]; [lia|]. cbn. rewrite Hinfo. cbn.
  pose proof (open_all_spec info ok (length (srv_threads s)) 0) as [Hl Hk].
  destruct (open_all _ _ _ _) as [rs kd]. eexists. split; [done|]. cbn.
  split; [by split|]. split; [done|]. split; [done|]. eauto.
Qed.

(** ** Order of the start-up *)

Lemma app_split_middle {A} (P : A → Prop) (pre mid post l1 l2 : list A) x :
  P x → Forall (λ y, ¬ P y) pre → Forall (λ y, ¬ P y) post →
  pre ++ mid ++ post = l1 ++ x :: l2 → ∃ m1, l1 = pre ++ m1 ∧ m1 `prefix_of` mid.
Proof.
  intros Hx Hpre Hpost. revert l1. induction Hpre as [|y pre Hy _ IH]; intros l1 Heq; simpl in *.
  - exists l1. split; [done|]. revert mid Heq. induction l1 as [|z l1 IHl]; intros mid Heq.
    { apply prefix_nil. }
    destruct mid as [|m mid].
    + simpl in Heq. exfalso. rewrite Forall_forall in Hpost. apply (Hpost x); [|done].
      rewrite Heq. apply elem_of_cons. right. apply elem_of_app. right. by left.
    + simpl in Heq. injection Heq as -> Heq. apply prefix_cons. by apply IHl.
  - destruct l1 as [|z l1]; simpl in Heq; injection Heq as -> Heq; [done|].
    destruct (IH l1 Heq) as (m1 & -> & ?). by exists m1.
Qed.

Lemma Forall_prefix {A} (P : A → Prop) (l1 l2 : list A) :
  l1 `prefix_of` l2 → Forall P l2 → Forall P l1.
Proof. by intros [k ->] [? _]%Forall_app. Qed.

Definition is_thread_call (c : syscall) : Prop :=
  match c with SysInitWork _ | SysOpenRedis _ _ | SysPthreadCreate _ => True | _ => False end.

Lemma start_threads_trace info n i o tr :
  ∃ T, (start_threads info n i o tr).2 = T ++ tr ∧ Forall is_thread_call T.
Proof.
  revert i tr. induction n as [|n IH]; intros i tr; cbn; [by exists []|].
  unfold mbind, sysM_bind, mret, sysM_ret, sys. destruct (o (SysInitWork i)); [|exists [SysInitWork i]; split; [done|rewrite !Forall_cons; by split_and?]].
  destruct (o (SysOpenRedis i info));
    [|exists [SysOpenRedis i info; SysInitWork i]; split; [done|rewrite !Forall_cons; by split_and?]].
  destruct (o (SysPthreadCreate i));
    [|exists [SysPthreadCreate i; SysOpenRedis i info; SysInitWork i]; split; [done|rewrite !Forall_cons; by split_and?]].
  destruct (IH (S i) (SysPthreadCreate i :: SysOpenRedis i info :: SysInitWork i :: tr)) as (T & -> & HT).
  exists (T ++ [SysPthreadCreate i; SysOpenRedis i info; SysInitWork i]).
  split; [by rewrite <- app_assoc|]. apply Forall_app. split; [done|].
  rewrite !Forall_cons. by split_and?.
Qed.

Lemma start_work_thread_trace c o tr :
  ∃ T, (start_work_thread c o tr).2 = T ++ tr ∧ Forall is_thread_call T.
Proof.
  unfold start_work_thread. destruct (znth _ _) as [info|]; [apply start_threads_trace|].
  by exists [].
Qed.

(** The calls of [run_server]: a prefix of the listening calls, then the threads,
    then a prefix of the rest. *)
Lemma run_server_trace c o :
  ∃ pre mid post, rev (run_server c o []).2 = pre ++ mid ++ post ∧
    pre `prefix_of` [SysSocket; SysReuseaddr; SysBind (u16 (listen c)); SysListen; SysBlockSignals] ∧
    Forall is_thread_call mid ∧ (mid ≠ [] → SysBlockSignals ∈ pre) ∧
    post `prefix_of` [SysUnblockSignals; SysOpenPid; SysWritePid; SysDispatch; SysRemovePid].
Proof.
  assert (∀ pre rest, rev (run_server c o []).2 = pre → pre ++ rest =
      [SysSocket; SysReuseaddr; SysBind (u16 (listen c)); SysListen; SysBlockSignals] →
    ∃ pre mid post, rev (run_server c o []).2 = pre ++ mid ++ post ∧
    pre `prefix_of` [SysSocket; SysReuseaddr; SysBind (u16 (listen c)); SysListen; SysBlockSignals] ∧
    Forall is_thread_call mid ∧ (mid ≠ [] → SysBlockSignals ∈ pre) ∧
    post `prefix_of` [SysUnblockSignals; SysOpenPid; SysWritePid; SysDispatch; SysRemovePid]) as Hearly.
  { intros pre rest Hp Hr. exists pre, [], []. rewrite !app_nil_r. split; [done|].
    split; [by exists rest|]. split; [done|]. split; [done|]. apply prefix_nil. }
  unfold run_server, start_listen, mbind, sysM_bind, sys, mret, sysM_ret in *.
  destruct (o SysSocket); [|by eapply Hearly].
  destruct (o SysReuseaddr); [|by eapply Hearly].
  destruct (o (SysBind _)); [|by eapply Hearly].
  destruct (o SysListen); [|by eapply Hearly].
  destruct (o SysBlockSignals); [|by eapply Hearly]. clear Hearly.
  match goal with |- context [start_work_thread c o ?tr] =>
    destruct (start_work_thread_trace c o tr) as (T & HT & HF); set (base := tr) in * end.
  destruct (start_work_thread c o base) as [ok tr]. simpl in HT. subst tr.
  exists (rev base), (rev T).
  assert (∀ late : list syscall,
    rev (late ++ T ++ base) = rev base ++ rev T ++ rev late) as Hrev.
  { intros late. by rewrite !rev_app_distr, app_assoc. }
  assert (Forall is_thread_call (rev T)) as HF' by by apply Forall_rev.
  assert (SysBlockSignals ∈ rev base) as Hblk by (subst base; set_solver).
  assert (rev base `prefix_of` [SysSocket; SysReuseaddr; SysBind (u16 (listen c)); SysListen;
    SysBlockSignals]) as Hpre by (by exists []).
  destruct ok; [|exists []; split; [exact (Hrev [])|]; eauto using prefix_nil].
  destruct (o SysUnblockSignals).
  2: { exists [SysUnblockSignals]. split; [exact (Hrev [SysUnblockSignals])|].
       repeat split; eauto. by eexists. }
  destruct (o SysOpenPid).
  2: { exists [SysUnblockSignals; SysOpenPid].
       split; [exact (Hrev [SysOpenPid; SysUnblockSignals])|]. repeat split; eauto. by eexists. }
  eexists.
  split; [exact (Hrev [SysRemovePid; SysDispatch; SysWritePid; SysOpenPid; SysUnblockSignals])|].
  repeat split; eauto.
Qed.

(** Start-up order: worker threads are created only while SIGINT and SIGTERM
    are blocked, before the PID file is written and before the event loop runs,
    whatever system call fails on the way. *)
Theorem threads_start_with_signals_blocked c o before i after :
  rev (run_server c o []).2 = before ++ SysPthreadCreate i :: after →
  SysBlockSignals ∈ before ∧
  Forall (λ x, x ≠ SysUnblockSignals ∧ x ≠ SysOpenPid ∧ x ≠ SysDispatch) before.
Proof.
  destruct (run_server_trace c o) as (pre & mid & post & -> & Hpre & Hmid & Hblk & Hpost).
  assert (Forall (λ x, ¬ is_thread_call x) pre ∧
    Forall (λ x, x ≠ SysUnblockSignals ∧ x ≠ SysOpenPid ∧ x ≠ SysDispatch) pre) as [Hp1 Hp2].
  { split; (eapply Forall_prefix; [exact Hpre|]); repeat constructor; auto. }
  assert (Forall (λ x, ¬ is_thread_call x) post) as Hpost'.
  { eapply Forall_prefix; [exact Hpost|]. repeat constructor; auto. }
  intros Heq. destruct (app_split_middle is_thread_call _ _ _ _ _ (SysPthreadCreate i) I Hp1 Hpost' Heq)
    as (m1 & -> & [m2 Hm2]).
  assert (mid ≠ []) as Hmne.
  { intros ->. destruct m1; [|done]. simpl in Heq. rewrite app_nil_r in Heq.
    apply app_inv_head in Heq. rewrite Heq in Hpost'. by inversion Hpost'. }
  split; [apply elem_of_app; auto|]. apply Forall_app. split; [done|].
  rewrite Hm2 in Hmid. apply Forall_app in Hmid as [Hm1 _].
  eapply Forall_impl; [done|]. by intros [].
Qed.
