(* ===== verification/BufChain.v ===== *)
(** Evbuffers: the data structure and the operations that move bytes
    (deps/libevent-2.0.21-stable/buffer.c and evbuffer-internal.h).

    An evbuffer is a linked list of chains; here the list of its [Chain]s in
    order.  [first] is its head and [last] its last element; the pointer
    [last_with_datap] to the slot that points at a chain is the index of that
    chain: 0 is [&first] and [S i] is [&chain_i->next].  [size_t] totals are [Z]
    (they count bytes that are in memory); the size computation of a new chain,
    where wrap-around matters, is done at 64 bits. *)

From S2P Require Import Prelude.

(** ** Chains *)

Record Chain := {
  ch_buffer : list byte;      (** [buffer], [buffer_len] bytes *)
  ch_misalign : Z; ch_off : Z; ch_flags : Z }.

Definition ch_buffer_len (c : Chain) : Z := Zlen (ch_buffer c).

Definition EVBUFFER_SENDFILE : Z := 0x0002.
Definition EVBUFFER_REFERENCE : Z := 0x0004.
Definition EVBUFFER_IMMUTABLE : Z := 0x0008.
Definition EVBUFFER_MEM_PINNED_R : Z := 0x0010.
Definition EVBUFFER_MEM_PINNED_W : Z := 0x0020.

Definition has_flag (c : Chain) (f : Z) : bool := negb (Z.land (ch_flags c) f =? 0).
Definition CHAIN_PINNED (c : Chain) : bool :=
  has_flag c (Z.lor EVBUFFER_MEM_PINNED_R EVBUFFER_MEM_PINNED_W).
Definition CHAIN_PINNED_R (c : Chain) : bool := has_flag c EVBUFFER_MEM_PINNED_R.
Definition is_immutable (c : Chain) : bool := has_flag c EVBUFFER_IMMUTABLE.

Definition CHAIN_SPACE_LEN (c : Chain) : Z :=
  if is_immutable c then 0 else ch_buffer_len c - (ch_misalign c + ch_off c).

Definition set_off (o : Z) (c : Chain) : Chain :=
  {| ch_buffer := ch_buffer c; ch_misalign := ch_misalign c; ch_off := o; ch_flags := ch_flags c |}.
Definition set_misalign (m : Z) (c : Chain) : Chain :=
  {| ch_buffer := ch_buffer c; ch_misalign := m; ch_off := ch_off c; ch_flags := ch_flags c |}.

(** [memcpy(chain->buffer + at, data, len)], not allowed into a read-only chain; the
    bytes of the chain. *)
Definition chain_store (at_ : Z) (data : list byte) (c : Chain) : outcome Chain :=
  if negb (is_immutable c) && (0 <=? at_) && (at_ + Zlen data <=? ch_buffer_len c) then
    Val {| ch_buffer := splice (ch_buffer c) at_ data; ch_misalign := ch_misalign c;
           ch_off := ch_off c; ch_flags := ch_flags c |}
  else Undef OutOfBounds.
Definition chain_load (at_ len : Z) (c : Chain) : outcome (list byte) :=
  if (0 <=? at_) && (0 <=? len) && (at_ + len <=? ch_buffer_len c)
  then Val (ztake len (zdrop at_ (ch_buffer c))) else Undef OutOfBounds.

(** [memmove] of the data to the start of the buffer. *)
Definition evbuffer_chain_align (c : Chain) : outcome Chain :=
  if is_immutable c || CHAIN_PINNED c then Undef AssertFail
  else
    data ← chain_load (ch_misalign c) (ch_off c) c;
    c ← chain_store 0 data c;
    Val (set_misalign 0 c).

Definition MAX_TO_COPY_IN_EXPAND : Z := 4096.
Definition MAX_TO_REALIGN_IN_EXPAND : Z := 2048.

Definition evbuffer_chain_should_realign (c : Chain) (datlen : Z) : bool :=
  (ch_buffer_len c - ch_off c >=? datlen) && (ch_off c <? ch_buffer_len c / 2) &&
  (ch_off c <=? MAX_TO_REALIGN_IN_EXPAND).

(** ** Allocation *)

Class Malloc := { malloc_ok : Z → bool; uninit : byte }.

Definition MIN_BUFFER_SIZE : Z := 1024.
Definition EVBUFFER_CHAIN_SIZE : Z := 48.

(** [while (to_alloc < size) to_alloc <<= 1]: 64 doublings leave 0, and from then
    on the loop spins. *)
Fixpoint chain_alloc_size (fuel : nat) (to_alloc size : Z) : outcome Z :=
  if to_alloc <? size then
    match fuel with
    | O => Undef Hang
    | S fuel => chain_alloc_size fuel (u64 (Z.shiftl to_alloc 1)) size
    end
  else Val to_alloc.

Definition evbuffer_chain_new `{Malloc} (size : Z) : outcome (option Chain) :=
  let size := u64 (u64 size + EVBUFFER_CHAIN_SIZE) in
  to_alloc ← chain_alloc_size 64 MIN_BUFFER_SIZE size;
  if malloc_ok to_alloc then
    Val (Some {| ch_buffer := replicate (Z.to_nat (to_alloc - EVBUFFER_CHAIN_SIZE)) uninit;
                 ch_misalign := 0; ch_off := 0; ch_flags := 0 |})
  else Val None.

(** ** Buffers *)

(** A callback: its identity, flags, and whether it has the obsolete signature. *)
Record CbEntry := { cb_id : nat; cb_flags : Z }.
Record CbCall := { call_cb : nat; call_orig_size : Z; call_n_added : Z; call_n_deleted : Z }.

Record EvbCb := {
  eb_callbacks : list CbEntry; eb_deferred_cbs : bool; eb_queued : bool; eb_refcnt : Z;
  eb_calls : list CbCall     (** the invocations made so far *) }.

Record Evb := {
  eb_chains : list Chain;
  eb_lwd : nat;              (** [last_with_datap] *)
  eb_total_len : Z;
  eb_n_add_for_cb : Z; eb_n_del_for_cb : Z;
  eb_freeze_start : bool; eb_freeze_end : bool;
  eb_flags : Z;
  eb_cb : EvbCb }.

Definition eb_last (b : Evb) : option Chain := last (eb_chains b).
Definition last_index (b : Evb) : nat := pred (length (eb_chains b)).

Definition set_chains (cs : list Chain) (lwd : nat) (total : Z) (b : Evb) : Evb :=
  {| eb_chains := cs; eb_lwd := lwd; eb_total_len := total;
     eb_n_add_for_cb := eb_n_add_for_cb b; eb_n_del_for_cb := eb_n_del_for_cb b;
     eb_freeze_start := eb_freeze_start b; eb_freeze_end := eb_freeze_end b;
     eb_flags := eb_flags b; eb_cb := eb_cb b |}.
Definition set_counts (n_add n_del : Z) (b : Evb) : Evb :=
  {| eb_chains := eb_chains b; eb_lwd := eb_lwd b; eb_total_len := eb_total_len b;
     eb_n_add_for_cb := n_add; eb_n_del_for_cb := n_del;
     eb_freeze_start := eb_freeze_start b; eb_freeze_end := eb_freeze_end b;
     eb_flags := eb_flags b; eb_cb := eb_cb b |}.
Definition set_cb (c : EvbCb) (b : Evb) : Evb :=
  {| eb_chains := eb_chains b; eb_lwd := eb_lwd b; eb_total_len := eb_total_len b;
     eb_n_add_for_cb := eb_n_add_for_cb b; eb_n_del_for_cb := eb_n_del_for_cb b;
     eb_freeze_start := eb_freeze_start b; eb_freeze_end := eb_freeze_end b;
     eb_flags := eb_flags b; eb_cb := c |}.
Definition count_added (n : Z) (b : Evb) : Evb :=
  set_counts (eb_n_add_for_cb b + n) (eb_n_del_for_cb b) b.
Definition count_deleted (n : Z) (b : Evb) : Evb :=
  set_counts (eb_n_add_for_cb b) (eb_n_del_for_cb b + n) b.
Definition add_total (n : Z) (b : Evb) : Evb :=
  set_chains (eb_chains b) (eb_lwd b) (eb_total_len b + n) b.

(** [*chain = c] for the chain at index [i]. *)
Definition put_chain (i : nat) (c : Chain) (b : Evb) : Evb :=
  set_chains (<[i := c]> (eb_chains b)) (eb_lwd b) (eb_total_len b) b.

Definition evbuffer_new : Evb :=
  {| eb_chains := []; eb_lwd := 0; eb_total_len := 0; eb_n_add_for_cb := 0; eb_n_del_for_cb := 0;
     eb_freeze_start := false; eb_freeze_end := false; eb_flags := 0;
     eb_cb := {| eb_callbacks := []; eb_deferred_cbs := false; eb_queued := false; eb_refcnt := 1;
                 eb_calls := [] |} |}.

Definition ZERO_CHAIN (b : Evb) : Evb := set_chains [] 0 0 b.

Definition evbuffer_freeze (at_start : bool) (b : Evb) : Evb :=
  {| eb_chains := eb_chains b; eb_lwd := eb_lwd b; eb_total_len := eb_total_len b;
     eb_n_add_for_cb := eb_n_add_for_cb b; eb_n_del_for_cb := eb_n_del_for_cb b;
     eb_freeze_start := at_start || eb_freeze_start b;
     eb_freeze_end := negb at_start || eb_freeze_end b;
     eb_flags := eb_flags b; eb_cb := eb_cb b |}.
Definition evbuffer_unfreeze (at_start : bool) (b : Evb) : Evb :=
  {| eb_chains := eb_chains b; eb_lwd := eb_lwd b; eb_total_len := eb_total_len b;
     eb_n_add_for_cb := eb_n_add_for_cb b; eb_n_del_for_cb := eb_n_del_for_cb b;
     eb_freeze_start := negb at_start && eb_freeze_start b;
     eb_freeze_end := at_start && eb_freeze_end b;
     eb_flags := eb_flags b; eb_cb := eb_cb b |}.

(** ** Callbacks *)

Definition EVBUFFER_CB_ENABLED : Z := 1.
Definition EVBUFFER_CB_NODEFER : Z := 2.
Definition EVBUFFER_CB_INTERNAL_FLAGS : Z := 0xffff0000.

Definition set_callbacks (cbs : list CbEntry) (b : Evb) : Evb :=
  set_cb {| eb_callbacks := cbs; eb_deferred_cbs := eb_deferred_cbs (eb_cb b);
            eb_queued := eb_queued (eb_cb b); eb_refcnt := eb_refcnt (eb_cb b);
            eb_calls := eb_calls (eb_cb b) |} b.

(** The invocation of every entry whose flags match, in queue order.  The
    callbacks are observers: the call is recorded. *)
Definition evbuffer_run_callbacks (running_deferred : bool) (b : Evb) : Evb :=
  let '(mask, masked_val, clear) :=
    if running_deferred then
      (Z.lor EVBUFFER_CB_NODEFER EVBUFFER_CB_ENABLED, EVBUFFER_CB_ENABLED, true)
    else if eb_deferred_cbs (eb_cb b) then
      (Z.lor EVBUFFER_CB_NODEFER EVBUFFER_CB_ENABLED,
       Z.lor EVBUFFER_CB_NODEFER EVBUFFER_CB_ENABLED, false)
    else (EVBUFFER_CB_ENABLED, EVBUFFER_CB_ENABLED, true) in
  match eb_callbacks (eb_cb b) with
  | [] => set_counts 0 0 b
  | cbs =>
      if (eb_n_add_for_cb b =? 0) && (eb_n_del_for_cb b =? 0) then b
      else
        let orig_size := eb_total_len b + eb_n_del_for_cb b - eb_n_add_for_cb b in
        let n_added := eb_n_add_for_cb b in
        let n_deleted := eb_n_del_for_cb b in
        let called := filter (λ e, Z.land (cb_flags e) mask = masked_val) cbs in
        let calls := (λ e, {| call_cb := cb_id e; call_orig_size := orig_size;
                              call_n_added := n_added; call_n_deleted := n_deleted |}) <$> called in
        let b := if (clear : bool) then set_counts 0 0 b else b in
        set_cb {| eb_callbacks := cbs; eb_deferred_cbs := eb_deferred_cbs (eb_cb b);
                  eb_queued := eb_queued (eb_cb b); eb_refcnt := eb_refcnt (eb_cb b);
                  eb_calls := eb_calls (eb_cb b) ++ calls |} b
  end.

Definition evbuffer_invoke_callbacks (b : Evb) : Evb :=
  match eb_callbacks (eb_cb b) with
  | [] => set_counts 0 0 b
  | _ =>
      if eb_deferred_cbs (eb_cb b) then
        if eb_queued (eb_cb b) then b
        else
          evbuffer_run_callbacks false
            (set_cb {| eb_callbacks := eb_callbacks (eb_cb b); eb_deferred_cbs := true;
                       eb_queued := true; eb_refcnt := eb_refcnt (eb_cb b) + 1;
                       eb_calls := eb_calls (eb_cb b) |} b)
      else evbuffer_run_callbacks false b
  end.

(** The deferred queue runs the buffer's entry, which it has dequeued. *)
Definition evbuffer_deferred_callback (b : Evb) : Evb :=
  let b := evbuffer_run_callbacks true
             (set_cb {| eb_callbacks := eb_callbacks (eb_cb b);
                        eb_deferred_cbs := eb_deferred_cbs (eb_cb b);
                        eb_queued := false; eb_refcnt := eb_refcnt (eb_cb b);
                        eb_calls := eb_calls (eb_cb b) |} b) in
  set_cb {| eb_callbacks := eb_callbacks (eb_cb b); eb_deferred_cbs := eb_deferred_cbs (eb_cb b);
            eb_queued := eb_queued (eb_cb b); eb_refcnt := eb_refcnt (eb_cb b) - 1;
            eb_calls := eb_calls (eb_cb b) |} b.

Definition evbuffer_defer_callbacks (b : Evb) : Evb :=
  set_cb {| eb_callbacks := eb_callbacks (eb_cb b); eb_deferred_cbs := true; eb_queued := false;
            eb_refcnt := eb_refcnt (eb_cb b); eb_calls := eb_calls (eb_cb b) |} b.

Definition evbuffer_add_cb (id : nat) (b : Evb) : Evb :=
  set_callbacks ({| cb_id := id; cb_flags := EVBUFFER_CB_ENABLED |} :: eb_callbacks (eb_cb b)) b.

Fixpoint remove_cb (id : nat) (cbs : list CbEntry) : option (list CbEntry) :=
  match cbs with
  | [] => None
  | e :: cbs => if (cb_id e =? id)%nat then Some cbs else (e ::.) <$> remove_cb id cbs
  end.

Definition evbuffer_remove_cb (id : nat) (b : Evb) : Z * Evb :=
  match remove_cb id (eb_callbacks (eb_cb b)) with
  | Some cbs => (0, set_callbacks cbs b)
  | None => (-1, b)
  end.

Definition map_cb (id : nat) (f : Z → Z) (b : Evb) : Evb :=
  set_callbacks
    ((λ e, if (cb_id e =? id)%nat then {| cb_id := cb_id e; cb_flags := f (cb_flags e) |} else e)
       <$> eb_callbacks (eb_cb b)) b.

Definition evbuffer_cb_set_flags (id : nat) (flags : Z) (b : Evb) : Evb :=
  map_cb id (λ old, Z.lor old (Z.ldiff (u32 flags) EVBUFFER_CB_INTERNAL_FLAGS)) b.
Definition evbuffer_cb_clear_flags (id : nat) (flags : Z) (b : Evb) : Evb :=
  map_cb id (λ old, Z.ldiff old (Z.ldiff (u32 flags) EVBUFFER_CB_INTERNAL_FLAGS)) b.
