(* ===== verification/BufOps.v ===== *)
(** Evbuffers: the operations that add, remove and move bytes
    (deps/libevent-2.0.21-stable/buffer.c), on the data of BufChain.v.

    An operation returns the C result and the new buffer; a failed assertion or
    an access outside a chain's memory is [Undef].  Buffers passed to the
    two-buffer operations are distinct. *)

From S2P Require Import Prelude BufChain.

Module Buf.

Section ops.
Context `{Malloc}.

(** ** Adding chains *)

Definition all_empty (cs : list Chain) : bool := forallb (λ c, ch_off c =? 0) cs.

(** The distance to the first chain that is empty and not pinned. *)
Fixpoint victim (cs : list Chain) : nat :=
  match cs with
  | [] => 0
  | c :: cs => if negb (ch_off c =? 0) || CHAIN_PINNED c then S (victim cs) else 0
  end.

Definition victim_index (b : Evb) : nat := eb_lwd b + victim (drop (eb_lwd b) (eb_chains b)).

(** The result is the index of the slot the new chains go to. *)
Definition evbuffer_free_trailing_empty_chains (b : Evb) : outcome (nat * Evb) :=
  let v := victim_index b in
  if all_empty (drop v (eb_chains b)) then
    Val (v, set_chains (take v (eb_chains b)) (eb_lwd b) (eb_total_len b) b)
  else Undef AssertFail.

Definition evbuffer_chain_insert (chain : Chain) (b : Evb) : outcome Evb :=
  let cs := eb_chains b in
  b ← match cs !! eb_lwd b with
      | None =>
          if (eb_lwd b =? 0)%nat then Val (set_chains [chain] 0 (eb_total_len b) b)
          else Undef AssertFail
      | Some _ =>
          let v := victim_index b in
          if (v =? length cs)%nat then
            let lwd := if negb (ch_off chain =? 0) then length cs else eb_lwd b in
            Val (set_chains (cs ++ [chain]) lwd (eb_total_len b) b)
          else if all_empty (drop v cs) then
            Val (set_chains (take v cs ++ [chain]) (eb_lwd b) (eb_total_len b) b)
          else Undef AssertFail
      end;
  Val (add_total (ch_off chain) b).

Definition evbuffer_chain_insert_new (datlen : Z) (b : Evb) : outcome (option Evb) :=
  c ← evbuffer_chain_new datlen;
  match c with
  | None => Val None
  | Some c => b ← evbuffer_chain_insert c b; Val (Some b)
  end.

Definition EVBUFFER_CHAIN_MAX_AUTO_SIZE : Z := 4096.

(** The first case of [evbuffer_add] and [evbuffer_prepend]: a buffer without
    chains gets one; [None] when that fails. *)
Definition ensure_chain (datlen : Z) (b : Evb) : outcome (option Evb) :=
  match eb_chains b with
  | [] => evbuffer_chain_insert_new datlen b
  | _ => Val (Some b)
  end.

(** All of [data] goes to offset [at_] of the last chain. *)
Definition fill_last (at_ : Z) (data : list byte) (chain : Chain) (b : Evb) : outcome (Z * Evb) :=
  chain ← chain_store at_ data chain;
  let n := Zlen data in
  let b := put_chain (last_index b) (set_off (ch_off chain + n) chain) b in
  Val (0, evbuffer_invoke_callbacks (count_added n (add_total n b))).

(** [data] fills the [remain] free bytes of the last chain, the rest goes to a new
    chain. *)
Definition add_new_chain (remain : Z) (data : list byte) (chain : Chain) (b : Evb)
  : outcome (Z * Evb) :=
  let datlen := Zlen data in
  let to_alloc := ch_buffer_len chain in
  let to_alloc := if to_alloc <=? EVBUFFER_CHAIN_MAX_AUTO_SIZE / 2 then Z.shiftl to_alloc 1
                  else to_alloc in
  let to_alloc := if datlen >? to_alloc then datlen else to_alloc in
  tmp ← evbuffer_chain_new to_alloc;
  match tmp with
  | None => Val (-1, b)
  | Some tmp =>
      b ← (if negb (remain =? 0) then
             chain ← chain_store (ch_misalign chain + ch_off chain) (ztake remain data) chain;
             let b := put_chain (last_index b) (set_off (ch_off chain + remain) chain) b in
             Val (count_added remain (add_total remain b))
           else Val b);
      let data := zdrop remain data in
      tmp ← chain_store 0 data tmp;
      b ← evbuffer_chain_insert (set_off (Zlen data) tmp) b;
      Val (0, evbuffer_invoke_callbacks (count_added (Zlen data) b))
  end.

Definition evbuffer_add (data : list byte) (b : Evb) : outcome (Z * Evb) :=
  let datlen := Zlen data in
  if eb_freeze_end b then Val (-1, b)
  else
    ob ← ensure_chain datlen b;
    match ob with
    | None => Val (-1, b)
    | Some b =>
        chain ← or_undef NullDeref (eb_last b);
        if negb (is_immutable chain) then
          let remain := ch_buffer_len chain - ch_misalign chain - ch_off chain in
          if remain >=? datlen then fill_last (ch_misalign chain + ch_off chain) data chain b
          else if negb (CHAIN_PINNED chain) && evbuffer_chain_should_realign chain datlen then
            chain ← evbuffer_chain_align chain;
            fill_last (ch_off chain) data chain b
          else add_new_chain remain data chain b
        else add_new_chain 0 data chain b
    end.

(** Prepending what is left of the data in a new chain in front of [chain]. *)
Definition prepend_new_chain (data : list byte) (chain : Chain) (b : Evb) : outcome (Z * Evb) :=
  let datlen := Zlen data in
  tmp ← evbuffer_chain_new datlen;
  match tmp with
  | None => Val (-1, b)
  | Some tmp =>
      let tmp := set_misalign (ch_buffer_len tmp - datlen) (set_off datlen tmp) in
      tmp ← chain_store (ch_misalign tmp) data tmp;
      let b := set_chains (tmp :: eb_chains b) (S (eb_lwd b)) (eb_total_len b + datlen) b in
      (* the code adds chain->misalign, not datlen *)
      Val (0, evbuffer_invoke_callbacks (count_added (ch_misalign chain) b))
  end.

Definition evbuffer_prepend (data : list byte) (b : Evb) : outcome (Z * Evb) :=
  let datlen := Zlen data in
  if eb_freeze_start b then Val (-1, b)
  else
    ob ← ensure_chain datlen b;
    match ob with
    | None => Val (-1, b)
    | Some b =>
        chain ← or_undef NullDeref (head (eb_chains b));
        if negb (is_immutable chain) then
          let chain := if ch_off chain =? 0 then set_misalign (ch_buffer_len chain) chain else chain in
          let m := ch_misalign chain in
          if m >=? datlen then
            chain ← chain_store (m - datlen) data chain;
            let chain := set_misalign (m - datlen) (set_off (ch_off chain + datlen) chain) in
            Val (0, evbuffer_invoke_callbacks
                      (count_added datlen (add_total datlen (put_chain 0 chain b))))
          else if negb (m =? 0) then
            chain ← chain_store 0 (zdrop (datlen - m) data) chain;
            let chain := set_misalign 0 (set_off (ch_off chain + m) chain) in
            let b := count_added m (add_total m (put_chain 0 chain b)) in
            prepend_new_chain (ztake (datlen - m) data) chain b
          else prepend_new_chain data chain (put_chain 0 chain b)
        else prepend_new_chain data chain b
    end.

(** ** Removing bytes *)

Definition HAS_PINNED_R (b : Evb) : bool :=
  match eb_last b with Some c => CHAIN_PINNED_R c | None => false end.

(** The loop of [evbuffer_drain] at the chain of index [i]: the chains left, the
    number freed, whether [last_with_datap] was reset to [&first], and what is
    still to be taken off the first chain left. *)
Fixpoint drain_loop (cs : list Chain) (i lwd : nat) (reset : bool) (remaining : Z)
  : outcome (list Chain * nat * bool * Z) :=
  match cs with
  | [] => Undef NullDeref
  | c :: cs' =>
      if remaining >=? ch_off c then
        let remaining := remaining - ch_off c in
        let reset := reset || (i =? lwd)%nat || (S i =? lwd)%nat in
        if CHAIN_PINNED_R c then
          if remaining =? 0 then
            Val (set_off 0 (set_misalign (ch_misalign c + ch_off c) c) :: cs', i, reset, remaining)
          else Undef AssertFail
        else drain_loop cs' (S i) lwd reset remaining
      else Val (cs, i, reset, remaining)
  end.

(** [chain->misalign += n; chain->off -= n] on the first chain. *)
Definition trim_first (n : Z) (cs : list Chain) : list Chain :=
  match cs with
  | [] => []
  | c :: cs => set_off (ch_off c - n) (set_misalign (ch_misalign c + n) c) :: cs
  end.

Definition evbuffer_drain (len : Z) (b : Evb) : outcome (Z * Evb) :=
  let old_len := eb_total_len b in
  if old_len =? 0 then Val (0, b)
  else if eb_freeze_start b then Val (-1, b)
  else
    if (len >=? old_len) && negb (HAS_PINNED_R b) then
      Val (0, evbuffer_invoke_callbacks (count_deleted old_len (ZERO_CHAIN b)))
    else
      let len := if len >=? old_len then old_len else len in
      '(cs, freed, reset, remaining) ← drain_loop (eb_chains b) 0 (eb_lwd b) false len;
      let lwd := if (reset : bool) then 0%nat else (eb_lwd b - freed)%nat in
      let b := set_chains (trim_first remaining cs) lwd (old_len - len) b in
      Val (0, evbuffer_invoke_callbacks (count_deleted len b)).

Fixpoint copyout_loop (cs : list Chain) (datlen : Z) : outcome (list byte) :=
  if datlen =? 0 then Val []
  else
    match cs with
    | [] => Undef NullDeref
    | c :: cs' =>
        if datlen >=? ch_off c then
          data ← chain_load (ch_misalign c) (ch_off c) c;
          rest ← copyout_loop cs' (datlen - ch_off c);
          Val (data ++ rest)
        else chain_load (ch_misalign c) datlen c
    end.

(** The result and the bytes stored at [data_out]. *)
Definition evbuffer_copyout (datlen : Z) (b : Evb) : outcome (Z * list byte) :=
  let datlen := if datlen >=? eb_total_len b then eb_total_len b else datlen in
  if datlen =? 0 then Val (0, [])
  else if eb_freeze_start b then Val (-1, [])
  else data ← copyout_loop (eb_chains b) datlen; Val (datlen, data).

Definition evbuffer_remove (datlen : Z) (b : Evb) : outcome (Z * list byte * Evb) :=
  '(n, data) ← evbuffer_copyout datlen b;
  if n >? 0 then
    '(r, b) ← evbuffer_drain n b;
    Val (if r <? 0 then -1 else i32 n, data, b)
  else Val (n, data, b).

(** ** Making the front contiguous *)

(** None of the chains the next [remaining] bytes come from is pinned. *)
Fixpoint pullup_pinned (cs : list Chain) (remaining : Z) : bool :=
  match cs with
  | [] => false
  | c :: cs => CHAIN_PINNED c || (if ch_off c >=? remaining then false
                                  else pullup_pinned cs (remaining - ch_off c))
  end.

(** Copies every chunk that is pulled entirely into the target: the bytes, the
    chains left, the number freed, what is left of [size], and whether the chain
    or the slot of [last_with_datap] was freed. *)
Fixpoint pullup_loop (cs : list Chain) (i : nat) (lwd : nat) (size : Z) (rm rmp : bool)
  : outcome (list byte * list Chain * nat * Z * bool * bool) :=
  match cs with
  | [] => Val ([], [], 0%nat, size, rm, rmp)
  | c :: cs' =>
      if size >=? ch_off c then
        data ← chain_load (ch_misalign c) (ch_off c) c;
        '(rest, kept, freed, size, rm, rmp) ←
          pullup_loop cs' (S i) lwd (size - ch_off c)
            (rm || (i =? lwd)%nat) (rmp || (S i =? lwd)%nat);
        Val (data ++ rest, kept, S freed, size, rm, rmp)
      else Val ([], cs, 0%nat, size, rm, rmp)
  end.

(** Pulls [size] more bytes of [cs], whose first chain has index [i], to offset
    [at_] of the target [tmp]; [lwd] is the index [last_with_datap] leads to. *)
Definition pullup_into (tmp : Chain) (at_ : Z) (cs : list Chain) (i : nat) (size : Z) (b : Evb)
  : outcome (Chain * Evb) :=
  let lwd := eb_lwd b in
  (* with a new first chain, last_with_datap == &first leads to that one *)
  let seen := if (i =? 0)%nat && (lwd =? 0)%nat then S (length (eb_chains b)) else lwd in
  '(data, kept, freed, size, rm, rmp) ← pullup_loop cs i seen size false false;
  tmp ← chain_store at_ data tmp;
  tmp ← (match kept with
         | c :: _ => part ← chain_load (ch_misalign c) size c;
                     chain_store (at_ + Zlen data) part tmp
         | [] => Val tmp
         end);
  let cs' := tmp :: trim_first size kept in
  let lwd :=
    if (rm : bool) then 0%nat
    else if (rmp : bool) then
      match cs' !! 1%nat with
      | Some c => if ch_off c =? 0 then 0%nat else 1%nat
      | None => 0%nat
      end
    else if (i =? 0)%nat then (if (lwd =? 0)%nat then 0%nat else S (lwd - freed))
    else (lwd - freed)%nat in
  Val (tmp, set_chains cs' lwd (eb_total_len b) b).

Definition evbuffer_pullup (size : Z) (b : Evb) : outcome (option (list byte) * Evb) :=
  let size := if size <? 0 then eb_total_len b else size in
  if (size =? 0) || (size >? eb_total_len b) then Val (None, b)
  else
    match eb_chains b with
    | [] => Undef NullDeref
    | chain :: cs =>
        if ch_off chain >=? size then
          data ← chain_load (ch_misalign chain) size chain; Val (Some data, b)
        else if pullup_pinned cs (size - ch_off chain) then Val (None, b)
        else
          let in_place :=
            '(tmp, b) ← pullup_into (set_off size chain) (ch_misalign chain + ch_off chain) cs 1
                          (size - ch_off chain) b;
            data ← chain_load (ch_misalign tmp) size tmp;
            Val (Some data, b) in
          if CHAIN_PINNED chain then
            if CHAIN_SPACE_LEN chain <? size - ch_off chain then Val (None, b) else in_place
          else if ch_buffer_len chain - ch_misalign chain >=? size then in_place
          else
            tmp ← evbuffer_chain_new size;
            match tmp with
            | None => Val (None, b)
            | Some tmp =>
                '(tmp, b) ← pullup_into (set_off size tmp) 0 (chain :: cs) 0 size b;
                data ← chain_load (ch_misalign tmp) size tmp;
                Val (Some data, b)
            end
    end.

(** ** Moving bytes between buffers *)

(** Splits off the read-pinned chains, which stay; [None] when the data of the
    first of them cannot be copied. *)
Definition PRESERVE_PINNED (src : Evb) : outcome (option (Evb * list Chain)) :=
  if negb (HAS_PINNED_R src) then Val (Some (src, []))
  else
    let cs := eb_chains src in
    cd ← or_undef NullDeref (cs !! eb_lwd src);
    let p := if CHAIN_PINNED_R cd then eb_lwd src else S (eb_lwd src) in
    chain ← or_undef NullDeref (cs !! p);
    if negb (CHAIN_PINNED_R chain) then Undef AssertFail
    else if negb (ch_off chain =? 0) then
      if (p =? eb_lwd src)%nat then
        tmp ← evbuffer_chain_new (ch_off chain);
        match tmp with
        | None => Val None
        | Some tmp =>
            data ← chain_load (ch_misalign chain) (ch_off chain) chain;
            tmp ← chain_store 0 data tmp;
            let tmp := set_off (ch_off chain) tmp in
            let chain := set_off 0 (set_misalign (ch_misalign chain + ch_off chain) chain) in
            Val (Some (set_chains (take p cs ++ [tmp]) (eb_lwd src) (eb_total_len src) src,
                       chain :: drop (S p) cs))
        end
      else Undef AssertFail
    else Val (Some (set_chains (take p cs) (eb_lwd src) (eb_total_len src) src, drop p cs)).

Definition RESTORE_PINNED (src : Evb) (pinned : list Chain) : Evb :=
  match pinned with
  | [] => ZERO_CHAIN src
  | _ => set_chains pinned 0 0 src
  end.

Definition COPY_CHAIN (dst src : Evb) : Evb :=
  set_chains (eb_chains src) (eb_lwd src) (eb_total_len src) dst.

Definition APPEND_CHAIN (dst src : Evb) : outcome Evb :=
  match eb_chains dst with
  | [] => Undef NullDeref
  | cs => Val (set_chains (cs ++ eb_chains src) (length cs + eb_lwd src)
                 (eb_total_len dst + eb_total_len src) dst)
  end.

Definition PREPEND_CHAIN (dst src : Evb) : outcome Evb :=
  match eb_chains src with
  | [] => Undef NullDeref
  | cs =>
      let lwd := match eb_chains dst !! eb_lwd dst with
                 | None => eb_lwd src
                 | Some _ => (length cs + eb_lwd dst)%nat
                 end in
      Val (set_chains (cs ++ eb_chains dst) lwd (eb_total_len dst + eb_total_len src) dst)
  end.

(** The common body of [evbuffer_add_buffer] and [evbuffer_prepend_buffer]. *)
Definition move_buffer (join : Evb → Evb → outcome Evb) (outbuf inbuf : Evb)
  : outcome (Z * Evb * Evb) :=
  let in_total_len := eb_total_len inbuf in
  op ← PRESERVE_PINNED inbuf;
  match op with
  | None => Val (-1, outbuf, inbuf)
  | Some (inbuf, pinned) =>
      outbuf ← (if eb_total_len outbuf =? 0 then Val (COPY_CHAIN outbuf inbuf)
                else join outbuf inbuf);
      let inbuf := count_deleted in_total_len (RESTORE_PINNED inbuf pinned) in
      let outbuf := count_added in_total_len outbuf in
      Val (0, evbuffer_invoke_callbacks outbuf, evbuffer_invoke_callbacks inbuf)
  end.

Definition evbuffer_add_buffer (outbuf inbuf : Evb) : outcome (Z * Evb * Evb) :=
  if eb_total_len inbuf =? 0 then Val (0, outbuf, inbuf)
  else if eb_freeze_end outbuf || eb_freeze_start inbuf then Val (-1, outbuf, inbuf)
  else move_buffer APPEND_CHAIN outbuf inbuf.

Definition evbuffer_prepend_buffer (outbuf inbuf : Evb) : outcome (Z * Evb * Evb) :=
  if eb_total_len inbuf =? 0 then Val (0, outbuf, inbuf)
  else if eb_freeze_start outbuf || eb_freeze_start inbuf then Val (-1, outbuf, inbuf)
  else move_buffer PREPEND_CHAIN outbuf inbuf.

(** [advance_last_with_data]. *)
Fixpoint data_run (cs : list Chain) : nat :=
  match cs with
  | c :: cs => if negb (ch_off c =? 0) then S (data_run cs) else 0
  | [] => 0
  end.
Definition advance_last_with_data (b : Evb) : Evb :=
  match eb_chains b !! eb_lwd b with
  | None => b
  | Some _ => set_chains (eb_chains b) (eb_lwd b + data_run (drop (S (eb_lwd b)) (eb_chains b)))
                (eb_total_len b) b
  end.

(** [while (chain->off <= datlen)] of [evbuffer_remove_buffer]: the number of
    chains passed, their bytes, the rest of [datlen], and [last_with_datap]. *)
Fixpoint remove_loop (cs : list Chain) (i lwd : nat) (nread datlen : Z)
  : outcome (nat * nat * Z * Z) :=
  match cs with
  | [] => Undef NullDeref
  | c :: cs =>
      if ch_off c <=? datlen then
        if (i =? lwd)%nat then Undef AssertFail
        else remove_loop cs (S i) (if (lwd =? S i)%nat then 0%nat else lwd)
               (nread + ch_off c) (datlen - ch_off c)
      else Val (i, lwd, nread, datlen)
  end.

Definition evbuffer_remove_buffer (src dst : Evb) (datlen : Z) : outcome (Z * Evb * Evb) :=
  if datlen =? 0 then Val (0, src, dst)
  else if eb_freeze_end dst || eb_freeze_start src then Val (-1, src, dst)
  else if datlen >=? eb_total_len src then
    '(_, dst', src') ← evbuffer_add_buffer dst src;
    Val (i32 (eb_total_len src), src', dst')
  else
    '(k, lwd, nread, datlen) ← remove_loop (eb_chains src) 0 (eb_lwd src) 0 datlen;
    '(src, dst, k) ←
      (if negb (nread =? 0) then
         '(v, dst) ← evbuffer_free_trailing_empty_chains dst;
         let dst := set_chains (eb_chains dst ++ take k (eb_chains src)) (eb_lwd dst)
                      (eb_total_len dst) dst in
         let dst := count_added nread (add_total nread (advance_last_with_data dst)) in
         let lwd := if (lwd =? 0)%nat then 0%nat else (lwd - k)%nat in
         Val (set_chains (drop k (eb_chains src)) lwd (eb_total_len src) src, dst, 0%nat)
       else Val (set_chains (eb_chains src) lwd (eb_total_len src) src, dst, k));
    chain ← or_undef NullDeref (eb_chains src !! k);
    data ← chain_load (ch_misalign chain) datlen chain;
    '(_, dst) ← evbuffer_add data dst;
    let chain := set_off (ch_off chain - datlen) (set_misalign (ch_misalign chain + datlen) chain) in
    let src := put_chain k chain src in
    let nread := nread + datlen in
    let src := count_deleted nread
                 (set_chains (eb_chains src) (eb_lwd src) (eb_total_len src - nread) src) in
    if negb (nread =? 0)
    then Val (i32 nread, evbuffer_invoke_callbacks src, evbuffer_invoke_callbacks dst)
    else Val (i32 nread, src, dst).
End ops.

End Buf.
