(* ===== verification/BufRefine.v ===== *)
(** Evbuffers implement byte sequences.

    [bytes b] is the sequence a buffer holds and [evb_inv] the invariant of the
    operations of BufOps.v: chains with data, then empty ones, [last_with_datap]
    leading to the last chain with data.  [evb_tight] says in addition that no
    empty chains follow, which [evbuffer_add] needs, as it writes to the last chain.
    The lemmas say what each operation does to a buffer, and the last section packs
    them into an instance of the interface of EvbufferApi.v. *)

From S2P Require Import Prelude EvbufferApi BufChain BufOps.

(** ** Contents and invariant *)

Definition chain_data (c : Chain) : list byte := ztake (ch_off c) (zdrop (ch_misalign c) (ch_buffer c)).
Definition chains_data (cs : list Chain) : list byte := mjoin (chain_data <$> cs).
#[global] Arguments chains_data : simpl never.
#[global] Arguments chain_data : simpl never.
Definition bytes (b : Evb) : list byte := chains_data (eb_chains b).

Record chain_ok (c : Chain) : Prop := {
  ok_misalign : 0 <= ch_misalign c;
  ok_off : 0 <= ch_off c;
  ok_fits : ch_misalign c + ch_off c <= ch_buffer_len c;
  ok_mutable : is_immutable c = false;
  ok_unpinned : CHAIN_PINNED c = false;
  ok_small : ch_buffer_len c + EVBUFFER_CHAIN_SIZE <= 2 ^ 62;
  ok_room : ch_misalign c < ch_buffer_len c;
  ok_memory : has_flag c EVBUFFER_SENDFILE = false
}.

(** Every chain has data, or there is a single empty one. *)
Definition no_gaps (cs : list Chain) : Prop :=
  Forall (λ c, 0 < ch_off c) cs ∨ ∃ c, cs = [c] ∧ ch_off c = 0.

Record evb_tight (b : Evb) : Prop := {
  inv_chains : Forall chain_ok (eb_chains b);
  inv_gaps : no_gaps (eb_chains b);
  inv_lwd : eb_lwd b = last_index b;
  inv_total : eb_total_len b = Zlen (bytes b);
  inv_thawed : eb_freeze_start b = false ∧ eb_freeze_end b = false
}.

(** Chains with data, then empty ones; [lwd] leads to the last one with data. *)
Definition shape (cs : list Chain) (lwd : nat) : Prop :=
  ∃ full empt, cs = full ++ empt ∧ Forall (λ c, 0 < ch_off c) full ∧
    Forall (λ c, ch_off c = 0) empt ∧ lwd = pred (length full).

Record evb_inv (b : Evb) : Prop := {
  wf_chains : Forall chain_ok (eb_chains b);
  wf_shape : shape (eb_chains b) (eb_lwd b);
  wf_total : eb_total_len b = Zlen (bytes b);
  wf_thawed : eb_freeze_start b = false ∧ eb_freeze_end b = false
}.

Definition writable (b : Evb) : Prop := eb_lwd b = last_index b.

Lemma tight_inv b : evb_tight b → evb_inv b ∧ writable b.
Proof.
  intros [H1 H2 H3 H4 H5]. split; [|done]. split; [done| |done|done].
  unfold last_index in H3. destruct H2 as [H2|(c & H2 & H0)].
  - exists (eb_chains b), []. by rewrite app_nil_r.
  - exists [], [c]. rewrite H2 in *. split; [done|]. split; [done|]. split; [by apply Forall_singleton|done].
Qed.

Lemma inv_tight b : evb_inv b → writable b → evb_tight b.
Proof.
  intros [H1 (full & empt & Hcs & Hf & He & Hl) H3 H4] Hw. split; try done.
  unfold writable, last_index in Hw. rewrite Hcs, Hl, length_app in Hw. rewrite Hcs.
  destruct empt as [|e empt]; [left; by rewrite app_nil_r|].
  destruct full as [|f full]; [|cbn in Hw; lia].
  destruct empt as [|e' empt]; [|cbn in Hw; lia]. right. exists e. by rewrite Forall_singleton in He.
Qed.

Lemma evbuffer_new_inv : evb_inv evbuffer_new ∧ writable evbuffer_new.
Proof. apply tight_inv. split; try done. by left. Qed.

(** ** One chain *)

Lemma Zlen_chain_data c : chain_ok c → Zlen (chain_data c) = ch_off c.
Proof.
  intros [H1 H2 H3 _ _ _ _ _]. unfold chain_data, ch_buffer_len in *. rewrite Zlen_ztake, Zlen_zdrop. lia.
Qed.

Lemma chain_load_data c n :
  chain_ok c → 0 <= n <= ch_off c → chain_load (ch_misalign c) n c = Val (ztake n (chain_data c)).
Proof.
  intros [H1 H2 H3 _ _ _ _ _] Hn. unfold chain_load, chain_data, ch_buffer_len in *.
  destruct (Z.leb_spec 0 (ch_misalign c)); [|lia]. destruct (Z.leb_spec 0 n); [|lia].
  destruct (Z.leb_spec (ch_misalign c + n) (Zlen (ch_buffer c))); [|lia]. simpl.
  rewrite ztake_ztake. do 2 f_equal. lia.
Qed.

Lemma chain_load_all c :
  chain_ok c → chain_load (ch_misalign c) (ch_off c) c = Val (chain_data c).
Proof.
  intros Hc. pose proof (ok_off _ Hc). rewrite chain_load_data by (done || lia).
  by rewrite ztake_all by (rewrite Zlen_chain_data; [lia|done]).
Qed.

(** Taking [n] bytes off the front. *)
Definition trim (n : Z) (c : Chain) : Chain :=
  set_off (ch_off c - n) (set_misalign (ch_misalign c + n) c).

Lemma trim_ok n c : chain_ok c → 0 <= n < ch_off c → chain_ok (trim n c).
Proof.
  intros [H1 H2 H3 H4 H5 H6 H7 H8] Hn.
  split; unfold trim, ch_buffer_len in *; simpl in *; try lia; done.
Qed.

Lemma trim_data n c : chain_ok c → 0 <= n <= ch_off c → chain_data (trim n c) = zdrop n (chain_data c).
Proof.
  intros [H1 H2 H3 _ _ _ _ _] Hn. unfold chain_data, trim. simpl.
  rewrite Z.add_comm, <- zdrop_zdrop by lia. rewrite ztake_zdrop_comm by lia.
  by replace (ch_off c - n + n) with (ch_off c) by lia.
Qed.

(** Storing [data] right behind the data of a chain. *)
Lemma chain_store_end c data :
  chain_ok c → ch_misalign c + ch_off c + Zlen data <= ch_buffer_len c →
  ∃ c', chain_store (ch_misalign c + ch_off c) data c = Val c' ∧ ch_off c' = ch_off c ∧
    chain_ok (set_off (ch_off c + Zlen data) c') ∧
    chain_data (set_off (ch_off c + Zlen data) c') = chain_data c ++ data.
Proof.
  intros [H1 H2 H3 Himm H5 H6 H7 H8] Hfit. unfold chain_store. rewrite Himm.
  destruct (Z.leb_spec 0 (ch_misalign c + ch_off c)); [|lia].
  destruct (Z.leb_spec (ch_misalign c + ch_off c + Zlen data) (ch_buffer_len c)); [|lia].
  pose proof (Zlen_nonneg data). unfold ch_buffer_len in *.
  eexists. split; [done|]. split; [done|]. split.
  - split; unfold ch_buffer_len; simpl; rewrite ?Zlen_splice by lia; try lia; done.
  - unfold chain_data. simpl. unfold splice.
    rewrite zdrop_app_l by (rewrite Zlen_ztake; lia).
    replace (ch_misalign c + ch_off c) with (ch_off c + ch_misalign c) by lia.
    rewrite <- ztake_zdrop_comm by lia.
    replace (ch_off c + Zlen data) with (Zlen (ztake (ch_off c) (zdrop (ch_misalign c) (ch_buffer c)) ++ data))
      by (rewrite Zlen_app, Zlen_ztake, Zlen_zdrop; lia).
    rewrite app_assoc. by rewrite ztake_app_exact.
Qed.

(** ** Lists of chains *)

Lemma chains_data_cons c cs : chains_data (c :: cs) = chain_data c ++ chains_data cs.
Proof. done. Qed.

Lemma chains_data_app cs cs' : chains_data (cs ++ cs') = chains_data cs ++ chains_data cs'.
Proof. unfold chains_data. by rewrite fmap_app, join_app. Qed.

Lemma chains_data_one c : chains_data [c] = chain_data c.
Proof. unfold chains_data. simpl. by rewrite app_nil_r. Qed.

Lemma chain_data_empty c : ch_off c = 0 → chain_data c = [].
Proof. intros E. unfold chain_data. rewrite E. apply ztake_0. lia. Qed.

Lemma insert_last (cs : list Chain) i c c' :
  cs !! i = Some c → (i = pred (length cs))%nat →
  ∃ pre, cs = pre ++ [c] ∧ <[i := c']> cs = pre ++ [c'] ∧ length pre = i.
Proof.
  intros Hi Hl. pose proof (lookup_lt_Some _ _ _ Hi).
  destruct cs as [|d pre _] using rev_ind; [done|].
  rewrite length_app in *. simpl in *. assert (i = length pre) as -> by lia.
  rewrite list_lookup_middle in Hi by done. injection Hi as ->.
  exists pre. split; [done|]. split; [|done]. 
  by rewrite insert_app_r_alt, Nat.sub_diag by lia.
Qed.

Lemma last_lookup_index (cs : list Chain) : last cs = cs !! pred (length cs).
Proof. apply last_lookup. Qed.

(** ** Fields the invariant reads *)

Record same_data (b b' : Evb) : Prop := {
  same_chains : eb_chains b' = eb_chains b;
  same_lwd : eb_lwd b' = eb_lwd b;
  same_total : eb_total_len b' = eb_total_len b;
  same_start : eb_freeze_start b' = eb_freeze_start b;
  same_end : eb_freeze_end b' = eb_freeze_end b
}.

#[export] Instance same_data_equiv : Equivalence same_data.
Proof.
  split.
  - done.
  - intros b b' []. split; congruence.
  - intros b1 b2 b3 [] []. split; congruence.
Qed.

Lemma same_data_tight b b' : same_data b b' → evb_tight b → evb_tight b'.
Proof.
  intros [E1 E2 E3 E4 E5] [H1 H2 H3 H4 H5].
  split; unfold bytes, last_index in *; rewrite ?E1, ?E2, ?E3, ?E4, ?E5; done.
Qed.

Lemma same_data_inv b b' : same_data b b' → evb_inv b → evb_inv b'.
Proof.
  intros [E1 E2 E3 E4 E5] [H1 H2 H3 H4].
  split; unfold bytes, last_index in *; rewrite ?E1, ?E2, ?E3, ?E4, ?E5; done.
Qed.

Lemma same_data_bytes b b' : same_data b b' → bytes b' = bytes b.
Proof. intros [E _ _ _ _]. unfold bytes. by rewrite E. Qed.

#[export] Instance evb_tight_proper : Proper (same_data ==> iff) evb_tight.
Proof. intros b b' Hs. split; apply same_data_tight; [done|by symmetry]. Qed.

#[export] Instance evb_inv_proper : Proper (same_data ==> iff) evb_inv.
Proof. intros b b' Hs. split; apply same_data_inv; [done|by symmetry]. Qed.

#[export] Instance writable_proper : Proper (same_data ==> iff) writable.
Proof. intros b b' [E1 E2 _ _ _]. unfold writable, last_index. by rewrite E1, E2. Qed.

#[export] Instance bytes_proper : Proper (same_data ==> eq) bytes.
Proof. intros b b' Hs. symmetry. by apply same_data_bytes. Qed.

Lemma same_counts n m b : same_data (set_counts n m b) b.
Proof. done. Qed.

Lemma same_run_callbacks d b : same_data (evbuffer_run_callbacks d b) b.
Proof.
  unfold evbuffer_run_callbacks. destruct d, (eb_deferred_cbs (eb_cb b)); cbn;
    (destruct (eb_callbacks (eb_cb b)); [done|]); by destruct (_ && _).
Qed.

Lemma same_invoke b : same_data (evbuffer_invoke_callbacks b) b.
Proof.
  unfold evbuffer_invoke_callbacks. destruct (eb_callbacks (eb_cb b)) as [|e es]; [done|].
  destruct (eb_deferred_cbs (eb_cb b)); [|apply same_run_callbacks].
  destruct (eb_queued (eb_cb b)); [done|]. etrans; [apply same_run_callbacks|]. done.
Qed.

(** ** New chains *)

Section alloc.
Context `{Malloc}.

Lemma chain_alloc_size_ok fuel m t size :
  0 < t → (m <= fuel)%nat → size <= t * 2 ^ Z.of_nat m → t * 2 ^ Z.of_nat m <= 2 ^ 63 →
  ∃ r, chain_alloc_size fuel t size = Val r ∧ size <= r ∧ t <= r <= t * 2 ^ Z.of_nat m.
Proof.
  revert m t. induction fuel as [|fuel IH]; intros m t Ht Hm Hs Hb; cbn [chain_alloc_size].
  - assert (m = 0%nat) as -> by lia. simpl in Hs.
    destruct (Z.ltb_spec t size); [lia|]. exists t. split; [done|lia].
  - destruct (Z.ltb_spec t size).
    2: { exists t. split; [done|]. pose proof (Z.pow_pos_nonneg 2 (Z.of_nat m)). nia. }
    destruct m as [|m]; [simpl in Hs; lia|].
    rewrite Nat2Z.inj_succ, Z.pow_succ_r in * by lia.
    assert (1 <= 2 ^ Z.of_nat m) by (pose proof (Z.pow_pos_nonneg 2 (Z.of_nat m)); lia).
    rewrite Z.shiftl_mul_pow2 by lia. change (2 ^ 1) with 2.
    rewrite u64_small by nia.
    destruct (IH m (t * 2)) as (r & Hr & ? & ?); [lia|lia|lia|lia|].
    exists r. split; [done|]. lia.
Qed.

(** A request of up to 2^62 bytes yields room for it, or nothing. *)
Lemma chain_new_spec n :
  0 <= n → n + EVBUFFER_CHAIN_SIZE <= 2 ^ 62 →
  ∃ len, n <= len ∧ 0 < len ∧ len + EVBUFFER_CHAIN_SIZE <= 2 ^ 62 ∧ evbuffer_chain_new n =
    Val (if malloc_ok (len + EVBUFFER_CHAIN_SIZE) then
           Some {| ch_buffer := replicate (Z.to_nat len) uninit; ch_misalign := 0; ch_off := 0;
                   ch_flags := 0 |}
         else None).
Proof.
  intros Hn. unfold evbuffer_chain_new, EVBUFFER_CHAIN_SIZE. intros Hle. rewrite (u64_small n) by lia.
  rewrite u64_small by lia.
  assert (MIN_BUFFER_SIZE * 2 ^ Z.of_nat 52 = 2 ^ 62) as Hmax by reflexivity.
  destruct (chain_alloc_size_ok 64 52 MIN_BUFFER_SIZE (n + 48)) as (r & Hr & H1 & H2);
    [reflexivity|lia|lia|lia|].
  rewrite Hr, Hmax in *. assert (1024 <= r) by apply H2.
  exists (r - 48). split; [lia|]. split; [lia|]. split; [lia|]. cbn -[replicate Z.to_nat].
  replace (r - 48 + 48) with r by lia. by destruct (malloc_ok r).
Qed.

Lemma fresh_chain_ok len :
  0 < len → len + EVBUFFER_CHAIN_SIZE <= 2 ^ 62 →
  chain_ok {| ch_buffer := replicate (Z.to_nat len) uninit; ch_misalign := 0; ch_off := 0;
              ch_flags := 0 |}.
Proof.
  intros. split; unfold ch_buffer_len; cbn -[EVBUFFER_CHAIN_SIZE Z.pow];
    rewrite ?Zlen_replicate; try lia; done.
Qed.
End alloc.

(** ** Inserting a chain *)

Lemma inv_cases b :
  evb_tight b →
  (eb_chains b = [] ∧ eb_lwd b = 0%nat) ∨
  (∃ c, eb_chains b = [c] ∧ eb_lwd b = 0%nat ∧ ch_off c = 0) ∨
  (∃ pre c, eb_chains b = pre ++ [c] ∧ eb_lwd b = length pre ∧
     Forall (λ c, 0 < ch_off c) pre ∧ 0 < ch_off c).
Proof.
  intros [_ Hg Hl _ _]. unfold last_index in Hl.
  destruct (eb_chains b) as [|c pre _] using rev_ind; [by left|].
  rewrite length_app in Hl. simpl in Hl. rewrite Nat.add_1_r in Hl. simpl in Hl.
  destruct Hg as [Hall|(d & Hd & Hoff)].
  - right; right. apply Forall_app in Hall as [Hp Hc]. apply Forall_cons in Hc as [Hc _].
    exists pre, c. auto.
  - right; left. destruct pre as [|d' pre]; [|by destruct pre].
    injection Hd as ->. exists d. auto.
Qed.

(** The result of an operation that replaces the chains of a buffer. *)
Lemma inv_intro b cs lwd total :
  Forall chain_ok cs → no_gaps cs → lwd = pred (length cs) → total = Zlen (chains_data cs) →
  eb_freeze_start b = false ∧ eb_freeze_end b = false →
  evb_tight (set_chains cs lwd total b).
Proof. intros. by split. Qed.

Section insert.
Context `{Malloc}.

Lemma chain_insert_spec c b :
  evb_tight b → chain_ok c → 0 < ch_off c →
  ∃ b', Buf.evbuffer_chain_insert c b = Val b' ∧ evb_tight b' ∧ bytes b' = bytes b ++ chain_data c.
Proof.
  intros Hb Hc Hoff. pose proof (inv_total _ Hb) as Htot. pose proof (Zlen_chain_data _ Hc) as Hlen.
  pose proof (inv_thawed _ Hb) as Hth. pose proof (inv_chains _ Hb) as Hok.
  unfold Buf.evbuffer_chain_insert, Buf.victim_index, bytes in *.
  destruct (inv_cases _ Hb) as [[Hcs Hl]|[(d & Hcs & Hl & Hd)|(pre & d & Hcs & Hl & Hp & Hd)]];
    rewrite Hcs, Hl in *.
  - simpl. eexists. split; [done|]. split.
    + apply inv_intro; simpl; [by apply Forall_singleton| |done| |done].
      * left. by apply Forall_singleton.
      * by rewrite Htot, chains_data_one, Hlen.
    + simpl. by rewrite chains_data_one.
  - simpl. rewrite Hd. simpl.
    assert (CHAIN_PINNED d = false) as -> by (apply Forall_cons in Hok as [Hok _]; apply Hok). simpl.
    rewrite Hd. simpl. rewrite chains_data_one, chain_data_empty in Htot by done.
    eexists. split; [done|]. split.
    + apply inv_intro; simpl; [by apply Forall_singleton| |done| |done].
      * left. by apply Forall_singleton.
      * by rewrite Htot, chains_data_one, Hlen.
    + simpl. by rewrite !chains_data_one, (chain_data_empty d) by done.
  - rewrite list_lookup_middle by done.
    rewrite drop_app_length. simpl. destruct (Z.eqb_spec (ch_off d) 0); [lia|]. simpl.
    rewrite length_app. simpl. rewrite Nat.eqb_refl. destruct (Z.eqb_spec (ch_off c) 0); [lia|]. simpl.
    eexists. split; [done|]. split.
    + apply inv_intro; simpl; [| | | |done].
      * apply Forall_app. split; [done|by apply Forall_singleton].
      * left. rewrite !Forall_app. repeat split; try done; by apply Forall_singleton.
      * rewrite !length_app. simpl. lia.
      * by rewrite Htot, (chains_data_app (pre ++ [d])), Zlen_app, (chains_data_one c), Hlen.
    + simpl. by rewrite (chains_data_app (pre ++ [d])), (chains_data_one c).
Qed.

(** A buffer gets its first chain. *)
Lemma ensure_chain_spec n b :
  evb_tight b → 0 <= n → n + EVBUFFER_CHAIN_SIZE <= 2 ^ 62 →
  Buf.ensure_chain n b = Val None ∧ (∃ m, n <= m ∧ malloc_ok (m + EVBUFFER_CHAIN_SIZE) = false) ∨
  ∃ b' c pre, Buf.ensure_chain n b = Val (Some b') ∧ evb_tight b' ∧ bytes b' = bytes b ∧
    eb_chains b' = pre ++ [c] ∧ chain_ok c ∧
    (eb_chains b = [] → pre = [] ∧ ch_misalign c = 0 ∧ ch_off c = 0 ∧ is_immutable c = false ∧
       n <= ch_buffer_len c).
Proof.
  intros Hb Hn Hle. unfold Buf.ensure_chain.
  destruct (inv_cases _ Hb) as [[Hcs Hl]|Hne].
  - rewrite Hcs. unfold Buf.evbuffer_chain_insert_new.
    destruct (chain_new_spec n Hn Hle) as (len & Hlen & Hlen0 & Hmax & ->). cbn -[replicate Z.to_nat].
    destruct (malloc_ok _) eqn:Em; [|left; eauto]. right.
    unfold Buf.evbuffer_chain_insert. rewrite Hcs, Hl. cbn -[replicate Z.to_nat].
    pose proof (fresh_chain_ok len ltac:(lia) Hmax) as Hc.
    eexists _, _, []. split; [done|]. split; [|split; [|split; [done|split; [done|]]]].
    + apply inv_intro; simpl; [by apply Forall_singleton|right; eauto|done| |apply Hb].
      rewrite (inv_total _ Hb). unfold bytes. rewrite Hcs. done.
    + unfold bytes. rewrite Hcs. done.
    + intros _. unfold ch_buffer_len. cbn -[replicate Z.to_nat]. rewrite Zlen_replicate.
      repeat split; try done. lia.
  - right. pose proof (inv_chains _ Hb) as Hok.
    assert (∃ pre c, eb_chains b = pre ++ [c]) as (pre & c & Hcs).
    { destruct Hne as [(c & -> & _)|(pre & c & -> & _)]; [by exists [], c|eauto]. }
    rewrite Hcs in *. exists b, c, pre. destruct (pre ++ [c]) eqn:E; [by destruct pre|].
    split; [done|]. split; [done|]. split; [done|]. split; [by rewrite Hcs|].
    rewrite <- E in Hok. apply Forall_app in Hok as [_ Hok]. rewrite Forall_singleton in Hok.
    split; [done|discriminate].
Qed.
End insert.

(** ** Adding bytes *)

Lemma chain_align_spec c :
  chain_ok c →
  ∃ c', evbuffer_chain_align c = Val c' ∧ chain_ok c' ∧ chain_data c' = chain_data c ∧
    ch_off c' = ch_off c ∧ ch_misalign c' = 0 ∧ ch_buffer_len c' = ch_buffer_len c.
Proof.
  intros Hc. pose proof (Zlen_chain_data _ Hc) as Hlen.
  pose proof Hc as [H1 H2 H3 Himm H5 H6 H7 H8]. unfold evbuffer_chain_align. rewrite Himm, H5.
  rewrite chain_load_all by done. cbn -[chain_store]. unfold chain_store. rewrite Himm, Hlen.
  destruct (Z.leb_spec (0 + ch_off c) (ch_buffer_len c)); [|lia].
  assert (Zlen (splice (ch_buffer c) 0 (chain_data c)) = Zlen (ch_buffer c)) as Hs.
  { apply Zlen_splice; [lia|]. unfold ch_buffer_len in *. lia. }
  cbn. eexists. split; [done|]. unfold ch_buffer_len in *. cbn -[Z.pow EVBUFFER_CHAIN_SIZE].
  split; [|split; [|by rewrite Hs]].
  - split; unfold ch_buffer_len; cbn -[Z.pow EVBUFFER_CHAIN_SIZE]; rewrite ?Hs; try lia; done.
  - unfold chain_data at 1. cbn [ch_buffer ch_misalign ch_off set_misalign].
    rewrite zdrop_0 by lia. unfold splice. rewrite (ztake_0 0) by lia.
    rewrite app_nil_l, <- Hlen. apply ztake_app_exact.
Qed.

Lemma no_gaps_last pre c c' : no_gaps (pre ++ [c]) → ch_off c <= ch_off c' → no_gaps (pre ++ [c']).
Proof.
  intros [Hall|(d & Hd & Hoff)] Hle.
  - left. apply Forall_app in Hall as [Hp Hc]. rewrite Forall_singleton in Hc.
    apply Forall_app. split; [done|]. apply Forall_singleton. lia.
  - destruct pre as [|x pre]; [|by destruct pre]. simpl in *. injection Hd as ->.
    destruct (decide (ch_off c' = 0)); [right; eauto|]. left. apply Forall_singleton. lia.
Qed.

Lemma fill_last_spec b pre c c' data :
  evb_tight b → eb_chains b = pre ++ [c] → chain_ok c' → chain_data c' = chain_data c →
  ch_off c' = ch_off c →
  ch_misalign c' + ch_off c' + Zlen data <= ch_buffer_len c' →
  ∃ b', Buf.fill_last (ch_misalign c' + ch_off c') data c' b = Val (0, b') ∧
    evb_tight b' ∧ bytes b' = bytes b ++ data.
Proof.
  intros Hb Hcs Hc' Hd Hoff Hfit. unfold Buf.fill_last.
  destruct (chain_store_end c' data Hc' Hfit) as (c2 & -> & Ho2 & Hok2 & Hd2).
  cbn. rewrite Ho2. eexists. split; [done|].
  set (c3 := set_off (ch_off c' + Zlen data) c2) in *.
  pose proof (inv_chains _ Hb) as Hok. pose proof (inv_gaps _ Hb) as Hg.
  pose proof (inv_total _ Hb) as Ht. unfold bytes in Ht. rewrite Hcs in *.
  assert (<[last_index b := c3]> (pre ++ [c]) = pre ++ [c3]) as Hins.
  { unfold last_index. rewrite Hcs, length_app. simpl. rewrite Nat.add_1_r. simpl.
    by rewrite insert_app_r_alt, Nat.sub_diag by lia. }
  assert (chains_data (pre ++ [c3]) = chains_data (pre ++ [c]) ++ data) as Hdata.
  { rewrite !chains_data_app, !chains_data_one, Hd2, Hd. by rewrite app_assoc. }
  rewrite same_invoke. split.
  - unfold count_added. rewrite same_counts. unfold add_total, put_chain. cbn. rewrite Hcs, Hins.
    apply inv_intro.
    + apply Forall_app in Hok as [Hok _]. apply Forall_app. split; [done|]. by apply Forall_singleton.
    + eapply no_gaps_last; [done|]. simpl. pose proof (Zlen_nonneg data). lia.
    + rewrite length_app. simpl. rewrite (inv_lwd _ Hb). unfold last_index. rewrite Hcs, length_app. done.
    + rewrite Hdata, Zlen_app. lia.
    + apply Hb.
  - unfold bytes. cbn. by rewrite Hcs, Hins, Hdata.
Qed.

Section adding.
Context `{Malloc}.

(** The free bytes of the last chain are filled. *)
Lemma fill_rest_spec b pre c data remain :
  evb_tight b → eb_chains b = pre ++ [c] →
  remain = ch_buffer_len c - ch_misalign c - ch_off c → remain <= Zlen data →
  ∃ b', (if negb (remain =? 0) then
           chain ← chain_store (ch_misalign c + ch_off c) (ztake remain data) c;
           let b := put_chain (last_index b) (set_off (ch_off chain + remain) chain) b in
           Val (count_added remain (add_total remain b))
         else Val b) = Val b' ∧
    evb_tight b' ∧ bytes b' = bytes b ++ ztake remain data.
Proof.
  intros Hb Hcs Hrem Hle.
  assert (chain_ok c) as Hc.
  { pose proof (inv_chains _ Hb) as Hok. rewrite Hcs in Hok. apply Forall_app in Hok as [_ Hok].
    by rewrite Forall_singleton in Hok. }
  pose proof (ok_fits _ Hc).
  assert (Zlen (ztake remain data) = remain) as Hlt by (rewrite Zlen_ztake; lia).
  destruct (Z.eqb_spec remain 0) as [->|Hne]; cbn [negb].
  { exists b. rewrite ztake_0 by lia. by rewrite app_nil_r. }
  destruct (fill_last_spec b pre c c (ztake remain data)) as (b' & Hf & Hi & Hbs); try done; [lia|].
  unfold Buf.fill_last in Hf. apply outcome_bind_Val in Hf as (c2 & Hst & Hf). rewrite Hst. cbn.
  rewrite Hlt in Hf. apply Val_inj, pair_equal_spec in Hf as [_ <-].
  eexists. split; [done|]. by rewrite same_invoke in Hi, Hbs.
Qed.

(** Where allocation fails. *)
Definition out_of_memory : Prop := ∃ n, malloc_ok n = false.

Lemma add_new_chain_spec b pre c data remain :
  evb_tight b → eb_chains b = pre ++ [c] →
  remain = ch_buffer_len c - ch_misalign c - ch_off c →
  remain < Zlen data → Zlen data + EVBUFFER_CHAIN_SIZE <= 2 ^ 62 →
  (Buf.add_new_chain remain data c b = Val (-1, b) ∧ out_of_memory) ∨
  ∃ b', Buf.add_new_chain remain data c b = Val (0, b') ∧ evb_tight b' ∧ bytes b' = bytes b ++ data.
Proof.
  intros Hb Hcs Hrem Hlt Hsmall.
  assert (chain_ok c) as Hc.
  { pose proof (inv_chains _ Hb) as Hok. rewrite Hcs in Hok. apply Forall_app in Hok as [_ Hok].
    by rewrite Forall_singleton in Hok. }
  pose proof Hc as [H1 H2 H3 H4 H5 H6 H7 H8]. pose proof (Zlen_nonneg data).
  assert (0 <= remain) by lia.
  unfold Buf.add_new_chain, Buf.EVBUFFER_CHAIN_MAX_AUTO_SIZE. cbv zeta.
  set (to_alloc := if Zlen data >? _ then _ else _).
  assert (Zlen data <= to_alloc ∧ to_alloc + EVBUFFER_CHAIN_SIZE <= 2 ^ 62) as [Ha1 Ha2].
  { unfold to_alloc. rewrite Z.shiftl_mul_pow2 by lia. unfold EVBUFFER_CHAIN_SIZE in *.
    change (4096 / 2) with 2048. destruct (Z.leb_spec (ch_buffer_len c) 2048);
      match goal with |- context [Zlen data >? ?x] => destruct (Z.gtb_spec (Zlen data) x) end; lia. }
  destruct (chain_new_spec to_alloc ltac:(lia) Ha2) as (len & Hl1 & Hl0 & Hl2 & ->).
  destruct (malloc_ok _) eqn:Em; [right|left; split; [done|by eexists]].
  pose proof (fresh_chain_ok len ltac:(lia) Hl2) as Hnew.
  set (tmp := {| ch_buffer := _ |}) in *.
  assert (∃ b1, (if negb (remain =? 0) then
           chain ← chain_store (ch_misalign c + ch_off c) (ztake remain data) c;
           let b := put_chain (last_index b) (set_off (ch_off chain + remain) chain) b in
           Val (count_added remain (add_total remain b))
         else Val b) = Val b1 ∧ evb_tight b1 ∧ bytes b1 = bytes b ++ ztake remain data)
    as (b1 & E1 & Hb1 & Hbs1).
  { apply (fill_rest_spec b pre); [done..|lia]. }
  cbn -[chain_store Buf.evbuffer_chain_insert tmp]. cbn in E1. rewrite E1.
  assert (Zlen (zdrop remain data) = Zlen data - remain) as Hdl by (rewrite Zlen_zdrop; lia).
  destruct (chain_store_end tmp (zdrop remain data) Hnew) as (t2 & Hst & Ho & Hok2 & Hd2).
  { change (ch_misalign tmp) with 0. change (ch_off tmp) with 0. rewrite Hdl.
    unfold ch_buffer_len, tmp. cbn [ch_buffer]. rewrite Zlen_replicate. lia. }
  change (ch_misalign tmp + ch_off tmp) with 0 in Hst. change (ch_off tmp) with 0 in *.
  cbn -[chain_store Buf.evbuffer_chain_insert tmp]. rewrite Hst.
  cbn -[chain_store Buf.evbuffer_chain_insert tmp].
  destruct (chain_insert_spec (set_off (0 + Zlen (zdrop remain data)) t2) b1 Hb1 Hok2)
    as (b2 & Hin & Hb2 & Hbs2); [simpl; lia|].
  rewrite Z.add_0_l in *. rewrite Hin. cbn. eexists. split; [done|].
  rewrite same_invoke. unfold count_added. rewrite same_counts. split; [done|].
  rewrite Hbs2, Hbs1, Hd2. rewrite (chain_data_empty tmp) by done.
  rewrite <- app_assoc. cbn. by rewrite ztake_zdrop.
Qed.
End adding.

Section add.
Context `{Malloc}.

Lemma evbuffer_add_spec data b :
  evb_tight b → Zlen data + EVBUFFER_CHAIN_SIZE <= 2 ^ 62 →
  (∃ b', Buf.evbuffer_add data b = Val (-1, b') ∧ evb_tight b' ∧ bytes b' = bytes b ∧ out_of_memory) ∨
  ∃ b', Buf.evbuffer_add data b = Val (0, b') ∧ evb_tight b' ∧ bytes b' = bytes b ++ data.
Proof.
  intros Hb Hsmall. pose proof (Zlen_nonneg data). unfold Buf.evbuffer_add.
  rewrite (proj2 (inv_thawed _ Hb)).
  destruct (ensure_chain_spec (Zlen data) b Hb ltac:(lia) Hsmall)
    as [(-> & n & _ & Hn)|(b1 & c & pre & -> & Hb1 & Hbs & Hcs & Hc & _)].
  { left. exists b. cbn. repeat (split; [done|]). by eexists. }
  cbn -[Buf.add_new_chain Buf.fill_last evbuffer_chain_align].
  unfold eb_last. rewrite Hcs, last_snoc. cbn -[Buf.add_new_chain Buf.fill_last evbuffer_chain_align].
  pose proof Hc as [H1 H2 H3 H4 H5 H6 H7 H8]. rewrite <- Hbs, H4, H5.
  cbn -[Buf.add_new_chain Buf.fill_last evbuffer_chain_align].
  destruct (Z.geb_spec (ch_buffer_len c - ch_misalign c - ch_off c) (Zlen data)).
  { right. apply (fill_last_spec b1 pre c c data); try done. lia. }
  destruct (evbuffer_chain_should_realign c (Zlen data)) eqn:Hre.
  - destruct (chain_align_spec c Hc) as (c' & -> & Hc' & Hd & Ho & Hm & Hl).
    right. cbn -[Buf.fill_last].
    replace (ch_off c') with (ch_misalign c' + ch_off c') by lia.
    unfold evbuffer_chain_should_realign in Hre. rewrite !andb_true_iff in Hre.
    destruct Hre as [[Hre%Z.geb_le _] _].
    apply (fill_last_spec b1 pre c c' data); try done. lia.
  - destruct (add_new_chain_spec b1 pre c data (ch_buffer_len c - ch_misalign c - ch_off c))
      as [[-> ?]|?]; [done..|lia|done|left; by exists b1|by right].
Qed.
End add.

(** ** Removing bytes *)

Lemma Zlen_chains_data_cons c cs :
  chain_ok c → Zlen (chains_data (c :: cs)) = ch_off c + Zlen (chains_data cs).
Proof. intros Hc. by rewrite chains_data_cons, Zlen_app, Zlen_chain_data. Qed.

Lemma chains_data_take_drop k cs : chains_data (take k cs) ++ chains_data (drop k cs) = chains_data cs.
Proof. by rewrite <- chains_data_app, take_drop. Qed.

Lemma unpinned_r c : chain_ok c → CHAIN_PINNED_R c = false.
Proof.
  intros Hc. pose proof (ok_unpinned _ Hc) as Hp.
  unfold CHAIN_PINNED, CHAIN_PINNED_R, has_flag in *. apply negb_false_iff, Z.eqb_eq in Hp.
  apply negb_false_iff, Z.eqb_eq.
  change EVBUFFER_MEM_PINNED_R with
    (Z.land (Z.lor EVBUFFER_MEM_PINNED_R EVBUFFER_MEM_PINNED_W) EVBUFFER_MEM_PINNED_R).
  by rewrite Z.land_assoc, Hp.
Qed.

Lemma drain_loop_spec cs i lwd reset rem :
  Forall chain_ok cs → 0 <= rem < Zlen (chains_data cs) →
  ∃ k c cs' reset' rem', Buf.drain_loop cs i lwd reset rem = Val (drop k cs, (i + k)%nat, reset', rem') ∧
    drop k cs = c :: cs' ∧ (k < length cs)%nat ∧ 0 <= rem' < ch_off c ∧
    (reset' = true → reset = true ∨ (lwd <= i + k)%nat) ∧
    rem = Zlen (chains_data (take k cs)) + rem'.
Proof.
  revert i reset rem. induction cs as [|c cs IH]; intros i reset rem Hok Hrem.
  { change (Zlen (chains_data [])) with 0 in Hrem. lia. }
  apply Forall_cons in Hok as [Hc Hok]. rewrite Zlen_chains_data_cons in Hrem by done.
  cbn [Buf.drain_loop]. destruct (Z.geb_spec rem (ch_off c)).
  - rewrite (unpinned_r c Hc). pose proof (ok_off _ Hc).
    destruct (IH (S i) (reset || (i =? lwd)%nat || (S i =? lwd)%nat) (rem - ch_off c) Hok ltac:(lia))
      as (k & d & cs' & reset' & rem' & He & Hd & Hk & Hr & Hreset & Hdata).
    exists (S k), d, cs', reset', rem'. split; [by rewrite He, Nat.add_succ_comm|].
    split; [done|]. split; [simpl; lia|]. split; [done|]. split.
    + intros [Hor|Hle]%Hreset; [|right; lia].
      rewrite !orb_true_iff, !Nat.eqb_eq in Hor. destruct Hor as [[?|?]|?]; [by left|right; lia..].
    + cbn [take]. rewrite Zlen_chains_data_cons by done. lia.
  - exists 0%nat, c, cs, reset, rem. rewrite Nat.add_0_r. split; [done|]. split; [done|].
    split; [simpl; lia|]. split; [lia|]. split; [auto|]. done.
Qed.

(** ** The shape of a list of chains *)

Lemma data_empty cs : Forall (λ c, ch_off c = 0) cs → chains_data cs = [].
Proof. induction 1 as [|c cs Hc _ IH]; [done|]. by rewrite chains_data_cons, chain_data_empty, IH. Qed.

(** A chain with data: those before it have data, and it is not behind [lwd]. *)
Lemma shape_split k cs lwd c rest :
  shape cs lwd → drop k cs = c :: rest → 0 < ch_off c →
  ∃ full empt, rest = full ++ empt ∧ Forall (λ c, 0 < ch_off c) full ∧
    Forall (λ c, ch_off c = 0) empt ∧ lwd = (k + length full)%nat ∧
    length cs = (k + S (length rest))%nat.
Proof.
  intros (full & empt & -> & Hf & He & ->) Hd Hc.
  assert (length (full ++ empt) = (k + S (length rest))%nat) as Hlen.
  { pose proof (length_drop (full ++ empt) k) as E. rewrite Hd in E. cbn in E. lia. }
  destruct (decide (k < length full)%nat) as [Hk|Hk].
  - rewrite drop_app_le in Hd by lia. pose proof (length_drop full k) as El.
    apply (Forall_drop _ k) in Hf. destruct (drop k full) as [|d f]; [cbn in El; lia|].
    cbn in Hd. injection Hd as -> <-. apply Forall_cons in Hf as [_ Hf].
    exists f, empt. cbn in El. repeat (split; [done || lia|]). done.
  - exfalso. rewrite drop_app_ge in Hd by lia. apply (Forall_drop _ (k - length full)) in He.
    rewrite Hd in He. apply Forall_cons in He as [He _]. lia.
Qed.

Lemma shape_first c full empt lwd :
  0 < ch_off c → Forall (λ c, 0 < ch_off c) full → Forall (λ c, ch_off c = 0) empt →
  lwd = length full → shape (c :: full ++ empt) lwd.
Proof. intros. exists (c :: full), empt. split; [done|]. split; [by apply Forall_cons|]. by subst. Qed.

Lemma wf_intro b cs lwd total :
  Forall chain_ok cs → shape cs lwd → total = Zlen (chains_data cs) →
  eb_freeze_start b = false ∧ eb_freeze_end b = false →
  evb_inv (set_chains cs lwd total b).
Proof. intros. by split. Qed.

Lemma shape_nil : shape [] 0.
Proof. by exists [], []. Qed.

Lemma no_pinned_r b : evb_inv b → Buf.HAS_PINNED_R b = false.
Proof.
  intros Hb. unfold Buf.HAS_PINNED_R, eb_last. pose proof (wf_chains _ Hb) as Hok.
  destruct (eb_chains b) as [|c pre _] using rev_ind; [done|]. rewrite last_snoc.
  apply Forall_app in Hok as [_ Hok]. rewrite Forall_singleton in Hok. by apply unpinned_r.
Qed.

Lemma total_zero b : evb_inv b → eb_total_len b = 0 → bytes b = [].
Proof. intros Hb E. rewrite (wf_total _ Hb) in E. by apply Zlen_0_inv. Qed.

Lemma inv_empty b : evb_inv b → evb_inv (ZERO_CHAIN b) ∧ writable (ZERO_CHAIN b) ∧ bytes (ZERO_CHAIN b) = [].
Proof. intros Hb. split; [|done]. apply wf_intro; [constructor|apply shape_nil|done|apply Hb]. Qed.

(** What is left of a buffer once the chains before [c] are gone and [rem] bytes
    are taken off [c]. *)
Lemma cut_front_spec b k c rest rem lwd total :
  evb_inv b → drop k (eb_chains b) = c :: rest → 0 <= rem < ch_off c →
  lwd = (eb_lwd b - k)%nat →
  total = Zlen (bytes b) - (Zlen (chains_data (take k (eb_chains b))) + rem) →
  let b' := set_chains (trim rem c :: rest) lwd total b in
  evb_inv b' ∧ (writable b → writable b') ∧
  bytes b' = zdrop (Zlen (chains_data (take k (eb_chains b))) + rem) (bytes b).
Proof.
  intros Hb Hd Hrem Hl Htot b'. pose proof (wf_chains _ Hb) as Hok.
  destruct (shape_split k _ _ c rest (wf_shape _ Hb) Hd ltac:(lia)) as (full & empt & Hr & Hf & He & Hlw & Hlen).
  apply (Forall_drop _ k) in Hok. rewrite Hd in Hok. apply Forall_cons in Hok as [Hc Hok].
  pose proof (Zlen_nonneg (chains_data (take k (eb_chains b)))).
  assert (chains_data (trim rem c :: rest) =
    zdrop (Zlen (chains_data (take k (eb_chains b))) + rem) (bytes b)) as E.
  { unfold bytes. rewrite <- (chains_data_take_drop k (eb_chains b)), Hd.
    rewrite !chains_data_cons, trim_data by (done || lia).
    rewrite zdrop_app_r by lia. rewrite zdrop_app_l by (rewrite Zlen_chain_data by done; lia).
    do 2 f_equal. lia. }
  split; [apply wf_intro|split; [|exact E]].
  - apply Forall_cons. split; [apply trim_ok; [done|lia]|done].
  - rewrite Hr. apply shape_first; [cbn; lia|done..|lia].
  - rewrite E, Zlen_zdrop. unfold bytes in *.
    pose proof (chains_data_take_drop k (eb_chains b)) as Etd.
    rewrite <- Etd, Zlen_app, Hd, Zlen_chains_data_cons in * by done.
    pose proof (Zlen_nonneg (chains_data rest)). lia.
  - apply Hb.
  - unfold writable, last_index, b'. cbn [eb_chains eb_lwd set_chains length pred]. lia.
Qed.

Lemma evbuffer_drain_spec n b :
  evb_inv b → 0 <= n →
  ∃ b', Buf.evbuffer_drain n b = Val (0, b') ∧ evb_inv b' ∧ (writable b → writable b') ∧
    bytes b' = zdrop n (bytes b).
Proof.
  intros Hb Hn. unfold Buf.evbuffer_drain. pose proof (wf_total _ Hb) as Ht.
  destruct (Z.eqb_spec (eb_total_len b) 0) as [E|E].
  { exists b. rewrite (total_zero b Hb E). split; [done|]. split; [done|]. split; [done|].
    unfold zdrop. by rewrite drop_nil. }
  rewrite (proj1 (wf_thawed _ Hb)), no_pinned_r, andb_true_r by done.
  destruct (Z.geb_spec n (eb_total_len b)).
  - eexists. split; [done|]. destruct (inv_empty b Hb) as (? & ? & Hz).
    rewrite !same_invoke. unfold count_deleted. rewrite !same_counts, Hz, zdrop_all by lia. done.
  - destruct (drain_loop_spec (eb_chains b) 0 (eb_lwd b) false n (wf_chains _ Hb))
      as (k & c & cs' & reset & rem & He & Hd & Hk & Hr & Hreset & Hn'); [unfold bytes in Ht; lia|].
    rewrite He. cbn -[Buf.trim_first]. rewrite Hd in *. cbn [Buf.trim_first]. fold (trim rem c).
    destruct (shape_split k _ _ c cs' (wf_shape _ Hb) Hd ltac:(lia)) as (full & empt & _ & _ & _ & Hlw & _).
    destruct (cut_front_spec b k c cs' rem (if reset then 0%nat else (eb_lwd b - k)%nat)
                (eb_total_len b - n) Hb Hd Hr) as (H1 & H2 & H3).
    + destruct reset; [|done]. destruct (Hreset eq_refl) as [?|?]; [done|lia].
    + lia.
    + eexists. split; [done|]. rewrite !same_invoke. unfold count_deleted. rewrite !same_counts.
      split; [exact H1|]. split; [exact H2|]. rewrite Hn'. exact H3.
Qed.

Lemma copyout_loop_spec cs n :
  Forall chain_ok cs → 0 <= n <= Zlen (chains_data cs) →
  Buf.copyout_loop cs n = Val (ztake n (chains_data cs)).
Proof.
  revert n. induction cs as [|c cs IH]; intros n Hok Hn; cbn [Buf.copyout_loop].
  - change (Zlen (chains_data [])) with 0 in Hn. assert (n = 0) as -> by lia. done.
  - apply Forall_cons in Hok as [Hc Hok]. rewrite Zlen_chains_data_cons in Hn by done.
    destruct (Z.eqb_spec n 0) as [->|]; [by rewrite ztake_0 by lia|].
    rewrite chains_data_cons. destruct (Z.geb_spec n (ch_off c)).
    + rewrite chain_load_all by done. cbn [mbind outcome_bind]. rewrite IH by (done || lia).
      cbn. rewrite ztake_app_r; rewrite Zlen_chain_data by done; [done|lia].
    + rewrite chain_load_data by (done || lia). by rewrite ztake_app_l by (rewrite Zlen_chain_data by done; lia).
Qed.

Lemma evbuffer_copyout_spec n b :
  evb_inv b → 0 <= n →
  Buf.evbuffer_copyout n b = Val (Z.min n (Zlen (bytes b)), ztake n (bytes b)).
Proof.
  intros Hb Hn. unfold Buf.evbuffer_copyout. rewrite (wf_total _ Hb), (proj1 (wf_thawed _ Hb)).
  pose proof (Zlen_nonneg (bytes b)).
  set (m := if n >=? Zlen (bytes b) then _ else _).
  assert (m = Z.min n (Zlen (bytes b))) as -> by (unfold m; destruct (Z.geb_spec n (Zlen (bytes b))); lia).
  destruct (Z.eqb_spec (Z.min n (Zlen (bytes b))) 0) as [E|E].
  - rewrite E. f_equal. f_equal. destruct (decide (n = 0)) as [->|]; [by rewrite ztake_0 by lia|].
    assert (Zlen (bytes b) = 0) as E0%Zlen_0_inv by lia. rewrite E0. unfold ztake. by rewrite take_nil.
  - rewrite copyout_loop_spec by (try apply Hb; unfold bytes in *; lia). cbn. do 2 f_equal.
    fold (bytes b). destruct (decide (n <= Zlen (bytes b))).
    + f_equal. lia.
    + by rewrite !ztake_all by lia.
Qed.

Lemma evbuffer_remove_spec n b :
  evb_inv b → 0 <= n →
  ∃ b', Buf.evbuffer_remove n b = Val (i32 (Z.min n (Zlen (bytes b))), ztake n (bytes b), b') ∧
    evb_inv b' ∧ (writable b → writable b') ∧ bytes b' = zdrop n (bytes b).
Proof.
  intros Hb Hn. unfold Buf.evbuffer_remove. rewrite evbuffer_copyout_spec by done. cbn -[Buf.evbuffer_drain].
  pose proof (Zlen_nonneg (bytes b)).
  destruct (Z.gtb_spec (Z.min n (Zlen (bytes b))) 0) as [Hpos|Hz].
  - destruct (evbuffer_drain_spec (Z.min n (Zlen (bytes b))) b Hb ltac:(lia)) as (b' & -> & Hb' & Hw & Hbs).
    cbn. exists b'. split; [done|]. split; [done|]. split; [done|]. rewrite Hbs.
    destruct (decide (n <= Zlen (bytes b))); [f_equal; lia|]. by rewrite !zdrop_all by lia.
  - assert (Z.min n (Zlen (bytes b)) = 0) as -> by lia. exists b. split; [done|]. split; [done|]. split; [done|].
    destruct (decide (n = 0)) as [->|]; [by rewrite zdrop_0 by lia|].
    rewrite zdrop_all by lia. apply Zlen_0_inv. lia.
Qed.

(** ** Pulling up *)

(** Decides the comparisons of indices in a boolean equation. *)
Ltac index_cases :=
  repeat match goal with
  | |- context [Nat.eqb ?a ?b] => destruct (Nat.eqb_spec a b)
  | |- context [Nat.leb ?a ?b] => destruct (Nat.leb_spec a b)
  | |- context [Nat.ltb ?a ?b] => destruct (Nat.ltb_spec a b)
  end; try lia; cbn [andb orb]; rewrite ?orb_true_r, ?orb_false_r, ?andb_false_r, ?andb_true_r; try done; try lia.

Lemma pullup_loop_spec cs i lwd size rm rmp :
  Forall chain_ok cs → 0 <= size <= Zlen (chains_data cs) →
  ∃ k size' rm' rmp', Buf.pullup_loop cs i lwd size rm rmp =
      Val (chains_data (take k cs), drop k cs, k, size', rm', rmp') ∧
    (k <= length cs)%nat ∧ size = Zlen (chains_data (take k cs)) + size' ∧ 0 <= size' ∧
    match drop k cs with [] => size' = 0 | c :: _ => size' < ch_off c end ∧
    rm' = rm || ((i <=? lwd)%nat && (lwd <? i + k)%nat) ∧
    rmp' = rmp || ((i <? lwd)%nat && (lwd <=? i + k)%nat).
Proof.
  revert i size rm rmp. induction cs as [|c cs IH]; intros i size rm rmp Hok Hs; cbn [Buf.pullup_loop].
  - change (Zlen (chains_data [])) with 0 in Hs. exists 0%nat, size, rm, rmp. cbn [take drop length].
    split; [done|]. split; [lia|]. split; [change (Zlen (chains_data [])) with 0; lia|].
    split; [lia|]. split; [lia|]. split; index_cases.
  - apply Forall_cons in Hok as [Hc Hok]. rewrite Zlen_chains_data_cons in Hs by done.
    destruct (Z.geb_spec size (ch_off c)).
    + rewrite chain_load_all by done. cbn [mbind outcome_bind].
      destruct (IH (S i) (size - ch_off c) (rm || (i =? lwd)%nat) (rmp || (S i =? lwd)%nat) Hok ltac:(lia))
        as (k & s' & rm' & rmp' & -> & Hk & Hsz & Hs' & Hm & -> & ->).
      eexists (S k), s', _, _. cbn [mbind outcome_bind take drop length]. split; [done|]. split; [lia|].
      rewrite Zlen_chains_data_cons by done. split; [lia|]. split; [done|]. split; [done|].
      split; index_cases.
    + exists 0%nat, size, rm, rmp. cbn [take drop]. split; [done|]. split; [lia|].
      split; [change (Zlen (chains_data [])) with 0; lia|]. split; [lia|]. split; [done|].
      split; index_cases.
Qed.

(** Stores do not depend on the size of the data; two stores in a row. *)
Lemma chain_store_set_off o at_ data c c' :
  chain_store at_ data c = Val c' → chain_store at_ data (set_off o c) = Val (set_off o c').
Proof.
  unfold chain_store, is_immutable, has_flag, ch_buffer_len. simpl. destruct (_ && _); [|done].
  by intros <-%Val_inj.
Qed.

Lemma chain_store_fields at_ data c c' :
  chain_store at_ data c = Val c' →
  ch_misalign c' = ch_misalign c ∧ ch_off c' = ch_off c ∧ ch_flags c' = ch_flags c ∧
  ch_buffer_len c' = ch_buffer_len c.
Proof.
  unfold chain_store. destruct (_ && _) eqn:E; [|done]. intros <-%Val_inj. repeat split.
  rewrite !andb_true_iff in E. destruct E as [[_ H1%Z.leb_le] H2%Z.leb_le].
  unfold ch_buffer_len in *. simpl. by apply Zlen_splice.
Qed.

Lemma store_nil at_ c :
  is_immutable c = false → 0 <= at_ <= ch_buffer_len c → chain_store at_ [] c = Val c.
Proof.
  intros Hc Ha. unfold chain_store. rewrite Hc. cbn [negb andb].
  destruct (Z.leb_spec 0 at_); [|lia]. change (Zlen []) with 0.
  destruct (Z.leb_spec (at_ + 0) (ch_buffer_len c)); [|lia]. cbn. destruct c; simpl. do 2 f_equal.
  unfold splice. change (Zlen []) with 0. rewrite Z.add_0_r. simpl. apply ztake_zdrop.
Qed.

Lemma store_two c d1 d2 :
  chain_ok c → ch_misalign c + ch_off c + Zlen d1 + Zlen d2 <= ch_buffer_len c →
  ∃ c1 c2, chain_store (ch_misalign c + ch_off c) d1 c = Val c1 ∧
    chain_store (ch_misalign c + ch_off c + Zlen d1) d2 c1 = Val c2 ∧
    chain_ok (set_off (ch_off c + Zlen d1 + Zlen d2) c2) ∧
    chain_data (set_off (ch_off c + Zlen d1 + Zlen d2) c2) = chain_data c ++ d1 ++ d2.
Proof.
  intros Hc Hfit. pose proof (Zlen_nonneg d2).
  destruct (chain_store_end c d1 Hc) as (c1 & H1 & Ho1 & Hok1 & Hd1); [lia|].
  destruct (chain_store_fields _ _ _ _ H1) as (Hm & _ & Hf & Hl).
  destruct (chain_store_end _ d2 Hok1) as (c2 & H2 & Ho2 & Hok2 & Hd2).
  { unfold ch_buffer_len in *. simpl. lia. }
  exists c1, (set_off (ch_off c1) c2). split; [done|]. split.
  - apply (chain_store_set_off (ch_off c1)) in H2. simpl in H2. rewrite Hm in H2.
    rewrite Z.add_assoc in H2. destruct c1; exact H2.
  - change (set_off ?o (set_off _ c2)) with (set_off o c2). simpl in Hok2, Hd2. split; [done|].
    by rewrite Hd2, Hd1, app_assoc.
Qed.

(** Where [last_with_datap] ends up: [k] chains of [cs] went into [tgt]. *)
Lemma pullup_shape tgt cs full empt i lwd k s' :
  cs = full ++ empt → Forall (λ c, 0 < ch_off c) full → Forall (λ c, ch_off c = 0) empt →
  0 < ch_off tgt → (k <= length cs)%nat → full ≠ [] → 0 <= s' →
  match drop k cs with [] => s' = 0 | c :: _ => s' < ch_off c end →
  (i = 0%nat ∧ (1 <= lwd)%nat ∧ lwd = pred (length full) ∨ i = 1%nat ∧ lwd = length full) →
  let cs' := tgt :: Buf.trim_first s' (drop k cs) in
  let lwd' :=
    if (i <=? lwd)%nat && (lwd <? i + k)%nat then 0%nat
    else if (i <? lwd)%nat && (lwd <=? i + k)%nat then
      match cs' !! 1%nat with
      | Some c => if ch_off c =? 0 then 0%nat else 1%nat
      | None => 0%nat
      end
    else if (i =? 0)%nat then (if (lwd =? 0)%nat then 0%nat else S (lwd - k))
    else (lwd - k)%nat in
  shape cs' lwd' ∧ (empt = [] → lwd' = pred (length cs')).
Proof.
  intros Hcs Hpos Hzero Ht Hk Hne Hs' Hm Hi cs' lwd'.
  assert (1 <= length full)%nat as Hf1 by (destruct full; [done|cbn; lia]).
  assert (length cs = length full + length empt)%nat as Hlcs by by rewrite Hcs, length_app.
  pose proof (length_drop cs k) as Hld.
  destruct (drop k cs) as [|c rest] eqn:Hd; cbn [Buf.trim_first] in *.
  - cbn in Hld. assert (lwd' = 0%nat) as ->.
    { unfold lwd'. destruct Hi as [(-> & ? & ?)|(-> & ?)]; index_cases. }
    split; [|done]. apply (shape_first tgt [] []); done.
  - destruct (shape_split k cs (pred (length full)) c rest) as (f2 & e2 & Hr & Hf2 & He2 & Hl & Hlen);
      [by exists full, empt|done|lia|].
    change (set_off _ _) with (trim s' c) in *. assert (0 < ch_off (trim s' c)) as Hc' by (cbn; lia).
    assert (lwd' = S (length f2)) as ->.
    { unfold lwd', cs'. cbn [lookup list_lookup]. destruct (Z.eqb_spec (ch_off (trim s' c)) 0); [lia|].
      destruct Hi as [(-> & ? & ?)|(-> & ?)]; index_cases. }
    unfold cs'. rewrite Hr. split.
    + apply (shape_first tgt (trim s' c :: f2) e2); [done|by apply Forall_cons|done..].
    + intros ->. cbn [length pred] in *. f_equal. rewrite <- Hr. lia.
Qed.

(** The chain the last bytes are pulled from keeps the rest of its data. *)
Lemma trim_first_spec s' cs :
  Forall chain_ok cs → 0 <= s' → match cs with [] => s' = 0 | c :: _ => s' < ch_off c end →
  let part := match cs with [] => [] | c :: _ => ztake s' (chain_data c) end in
  Zlen part = s' ∧ chains_data (Buf.trim_first s' cs) = zdrop s' (chains_data cs) ∧
  part = ztake s' (chains_data cs) ∧ Forall chain_ok (Buf.trim_first s' cs).
Proof.
  intros Hok Hs0 Hs part. unfold part. destruct cs as [|c rest]; [subst s'; done|].
  apply Forall_cons in Hok as [Hc Hr]. cbn [Buf.trim_first]. fold (trim s' c). rewrite !chains_data_cons.
  rewrite Zlen_ztake, Zlen_chain_data, trim_data by (done || lia).
  rewrite zdrop_app_l, ztake_app_l by (rewrite Zlen_chain_data by done; lia).
  split; [lia|]. split; [done|]. split; [done|].
  apply Forall_cons. split; [apply trim_ok; [done|lia]|done].
Qed.

(** The second store of a pull-up happens only when a chain is left to pull from. *)
Lemma store_rest_spec cs s' o off t1 t2 :
  Forall chain_ok cs → 0 <= s' → match cs with [] => s' = 0 | c :: _ => s' < ch_off c end →
  chain_store o (match cs with [] => [] | c :: _ => ztake s' (chain_data c) end) t1 = Val t2 →
  is_immutable t1 = false → 0 <= o <= ch_buffer_len t1 →
  (match cs with
   | c :: _ => part ← chain_load (ch_misalign c) s' c; chain_store o part (set_off off t1)
   | [] => Val (set_off off t1)
   end) = Val (set_off off t2).
Proof.
  intros Hok Hs0 Hs Hst Himm Ho. destruct cs as [|c rest].
  - rewrite store_nil in Hst by done. by apply Val_inj in Hst as <-.
  - apply Forall_cons in Hok as [Hc _]. rewrite chain_load_data by (done || lia).
    cbn [mbind outcome_bind]. by rewrite (chain_store_set_off _ _ _ _ _ Hst).
Qed.

(** The target chain holds [d0] so far and its size was set to the final one. *)
Lemma pullup_into_spec tmp cs full empt i b size d0 :
  (* the target, before its size was changed *)
  chain_ok tmp → chain_data tmp = d0 → ch_misalign tmp + ch_off tmp + size <= ch_buffer_len tmp →
  (* the chains to pull from *)
  Forall chain_ok cs → cs = full ++ empt → Forall (λ c, 0 < ch_off c) full →
  Forall (λ c, ch_off c = 0) empt → 0 < size <= Zlen (chains_data cs) →
  (i = 0%nat ∧ (1 <= eb_lwd b)%nat ∧ eb_lwd b = pred (length full) ∨
   i = 1%nat ∧ eb_lwd b = length full) →
  eb_total_len b = Zlen (d0 ++ chains_data cs) →
  eb_freeze_start b = false ∧ eb_freeze_end b = false →
  ∃ tmp' b', Buf.pullup_into (set_off (ch_off tmp + size) tmp) (ch_misalign tmp + ch_off tmp) cs i size b
      = Val (tmp', b') ∧ evb_inv b' ∧ (empt = [] → writable b') ∧
    bytes b' = d0 ++ chains_data cs ∧
    chain_ok tmp' ∧ ch_off tmp' = ch_off tmp + size ∧
    chain_data tmp' = ztake (ch_off tmp + size) (d0 ++ chains_data cs).
Proof.
  intros Htmp Hd0 Hfit Hok Hcs Hpos Hzero Hsize Hi Htot Hth. unfold Buf.pullup_into. cbv zeta.
  set (seen := if ((i =? 0) && (eb_lwd b =? 0))%nat then S (length (eb_chains b)) else eb_lwd b).
  assert (seen = eb_lwd b) as ->.
  { unfold seen. destruct (Nat.eqb_spec (eb_lwd b) 0); [|by rewrite andb_false_r].
    rewrite andb_true_r. destruct (Nat.eqb_spec i 0); [lia|done]. }
  destruct (pullup_loop_spec cs i (eb_lwd b) size false false Hok ltac:(lia))
    as (k & s' & rm & rmp & -> & Hk & Hsz & Hs' & Hm & Hrm & Hrmp).
  cbn [orb] in Hrm, Hrmp. cbn [mbind outcome_bind].
  set (data := chains_data (take k cs)) in *.
  set (part := match drop k cs with [] => [] | c :: _ => ztake s' (chain_data c) end).
  assert (Forall chain_ok (drop k cs)) as Hokd by by apply Forall_drop.
  destruct (trim_first_spec s' (drop k cs) Hokd Hs' Hm) as (Hlp & Htr & Hpe & Hokt). fold part in Hlp, Hpe.
  assert (d0 ++ data ++ part = ztake (ch_off tmp + size) (d0 ++ chains_data cs)) as Hfull.
  { rewrite <- (chains_data_take_drop k cs). fold data. rewrite Hpe, app_assoc, (app_assoc d0).
    assert (Zlen (d0 ++ data) = ch_off tmp + Zlen data)
      by (by rewrite Zlen_app, <- Hd0, Zlen_chain_data).
    rewrite (ztake_app_r (ch_off tmp + size)) by lia. do 2 f_equal. lia. }
  destruct (store_two tmp data part Htmp) as (t1 & t2 & Hst1 & Hst2 & Hok2 & Hd2); [lia|].
  rewrite (chain_store_set_off _ _ _ _ _ Hst1). cbn [mbind outcome_bind].
  set (tgt := set_off (ch_off tmp + size) t2).
  assert (chain_ok tgt ∧ chain_data tgt = d0 ++ data ++ part ∧ ch_off tgt = ch_off tmp + size)
    as (Hokg & Hdg & Hog).
  { unfold tgt. replace (ch_off tmp + size) with (ch_off tmp + Zlen data + Zlen part) by lia.
    rewrite Hd2, Hd0. done. }
  destruct (chain_store_fields _ _ _ _ Hst1) as (_ & _ & Hf & Hl).
  pose proof (ok_misalign _ Htmp). pose proof (ok_off _ Htmp). pose proof (Zlen_nonneg data).
  match goal with |- context [mbind _ ?m] => assert (m = Val tgt) as -> end.
  { apply (store_rest_spec (drop k cs) s'); try done; [|lia].
    unfold is_immutable, has_flag. rewrite Hf. apply (ok_mutable _ Htmp). }
  cbn [mbind outcome_bind].
  exists tgt. eexists. split; [reflexivity|].
  assert (chains_data (tgt :: Buf.trim_first s' (drop k cs)) = d0 ++ chains_data cs) as Hall.
  { rewrite chains_data_cons, Hdg, Htr, Hpe, <- (chains_data_take_drop k cs). fold data.
    rewrite <- !app_assoc. by rewrite ztake_zdrop. }
  assert (0 < ch_off tgt) as Hog0 by (rewrite Hog; lia).
  set (lwd' := if rm then _ else _).
  assert (shape (tgt :: Buf.trim_first s' (drop k cs)) lwd' ∧
    (empt = [] → lwd' = pred (length (tgt :: Buf.trim_first s' (drop k cs))))) as [Hsh Hw].
  { subst rm rmp. apply (pullup_shape tgt cs full empt); try done.
    intros ->. rewrite Hcs in Hsize. cbn [app] in Hsize. rewrite data_empty in Hsize by done.
    change (Zlen []) with 0 in Hsize. lia. }
  split; [|split; [exact Hw|split; [exact Hall|split; [done|split; [done|by rewrite Hdg]]]]].
  apply wf_intro; [by apply Forall_cons|done|by rewrite Hall|done].
Qed.

Lemma pullup_unpinned cs n : Forall chain_ok cs → Buf.pullup_pinned cs n = false.
Proof.
  revert n. induction cs as [|c cs IH]; intros n Hok; [done|]. cbn [Buf.pullup_pinned].
  apply Forall_cons in Hok as [Hc Hok]. rewrite (ok_unpinned _ Hc). cbn [orb].
  destruct (_ >=? _); auto.
Qed.

Section pullup.
Context `{Malloc}.

(** The first [m] bytes are made contiguous, which only a failed allocation
    prevents; the contents stay. *)
Lemma evbuffer_pullup_spec n b :
  evb_inv b → Zlen (bytes b) + EVBUFFER_CHAIN_SIZE <= 2 ^ 62 →
  let m := if n <? 0 then Zlen (bytes b) else n in
  if (m =? 0) || (m >? Zlen (bytes b)) then Buf.evbuffer_pullup n b = Val (None, b)
  else (Buf.evbuffer_pullup n b = Val (None, b) ∧ out_of_memory) ∨
       ∃ b', Buf.evbuffer_pullup n b = Val (Some (ztake m (bytes b)), b') ∧ evb_inv b' ∧
         (writable b → writable b') ∧ bytes b' = bytes b.
Proof.
  intros Hb Hsmall m. unfold Buf.evbuffer_pullup. rewrite (wf_total _ Hb). fold m.
  destruct ((m =? 0) || (m >? Zlen (bytes b))) eqn:E; [done|].
  apply orb_false_iff in E as [E1%Z.eqb_neq E2].
  assert (0 < m <= Zlen (bytes b)) as Hm.
  { pose proof (Zlen_nonneg (bytes b)). destruct (Z.gtb_spec m (Zlen (bytes b))); [done|].
    unfold m in *. destruct (Z.ltb_spec n 0); lia. }
  pose proof (wf_chains _ Hb) as Hok. pose proof (wf_total _ Hb) as Ht. pose proof (wf_thawed _ Hb) as Hth.
  destruct (wf_shape _ Hb) as (full & empt & Hfe & Hpos & Hzero & Hl).
  assert (writable b → length full ≠ 0%nat → empt = []) as Hwr.
  { unfold writable, last_index. rewrite Hl, Hfe, length_app. intros. apply length_zero_iff_nil. lia. }
  unfold bytes in *. destruct full as [|c cs].
  { rewrite Hfe in Hm. cbn [app] in Hm. rewrite data_empty in Hm by done.
    change (Zlen []) with 0 in Hm. lia. }
  cbn [app] in Hfe. rewrite Hfe in *.
  pose proof Hok as Hok0. pose proof Hpos as Hpos0.
  apply Forall_cons in Hok as [Hc Hok]. apply Forall_cons in Hpos as [Hc0 Hpos].
  pose proof (Zlen_chain_data _ Hc) as Hlc. rewrite Zlen_chains_data_cons in Hm, Hsmall by done.
  destruct (Z.geb_spec (ch_off c) m) as [Hge|Hlt].
  { right. rewrite chain_load_data by (done || lia). cbn [mbind outcome_bind]. exists b.
    rewrite chains_data_cons, ztake_app_l by lia. split; [done|]. split; [done|]. split; [done|]. by rewrite Hfe. }
  rewrite pullup_unpinned, (ok_unpinned _ Hc) by done. cbn [length pred] in Hl.
  destruct (Z.geb_spec (ch_buffer_len c - ch_misalign c) m) as [Hin|Hout].
  - destruct (pullup_into_spec c (cs ++ empt) cs empt 1 b (m - ch_off c) (chain_data c))
      as (tmp & b' & Hp & Hb' & Hw & Hbs & Ht' & Ho & Hd); try done; try lia.
    replace (ch_off c + (m - ch_off c)) with m in * by lia.
    right. rewrite Hp. cbn [mbind outcome_bind]. rewrite chain_load_data by (done || lia).
    cbn [mbind outcome_bind]. exists b'. split; [|split; [done|split; [auto|exact Hbs]]].
    by rewrite Hd, ztake_ztake, Z.min_id.
  - destruct (chain_new_spec m ltac:(lia)) as (len & Hlen & Hlen0 & Hmax & ->); [unfold EVBUFFER_CHAIN_SIZE in *; lia|].
    destruct (malloc_ok _) eqn:Em; [|left; split; [done|by eexists]]. cbn [mbind outcome_bind].
    pose proof (fresh_chain_ok len ltac:(lia) Hmax) as Hnew. set (tmp0 := {| ch_buffer := _ |}) in *.
    destruct (pullup_into_spec tmp0 (c :: cs ++ empt) (c :: cs) empt 0 b m [])
      as (tmp & b' & Hp & Hb' & Hw & Hbs & Ht' & Ho & Hd); try done.
    + change (ch_misalign tmp0) with 0. change (ch_off tmp0) with 0. unfold ch_buffer_len, tmp0.
      cbn [ch_buffer]. rewrite Zlen_replicate. lia.
    + by rewrite Zlen_chains_data_cons.
    + left. split; [done|]. split; [|done]. destruct cs; [|cbn in Hl; lia].
      cbn [app] in Hm. rewrite data_empty in Hm by done. change (Zlen []) with 0 in Hm. lia.
    + right. change (ch_misalign tmp0 + ch_off tmp0) with 0 in Hp.
      change (ch_off tmp0 + m) with m in *. rewrite Hp. cbn [mbind outcome_bind].
      rewrite chain_load_data by (done || lia). cbn [mbind outcome_bind]. exists b'.
      split; [|split; [done|split; [auto|exact Hbs]]]. by rewrite Hd, ztake_ztake, Z.min_id.
Qed.
End pullup.

(** ** Moving bytes between buffers *)

Lemma total_pos b : evb_tight b → eb_total_len b ≠ 0 → Forall (λ c, 0 < ch_off c) (eb_chains b).
Proof.
  intros Hb Hne. destruct (inv_gaps _ Hb) as [?|(c & Hcs & Hoff)]; [done|].
  exfalso. apply Hne. rewrite (inv_total _ Hb). unfold bytes. rewrite Hcs, chains_data_one.
  by rewrite chain_data_empty.
Qed.

Lemma shape_app cs cs' lwd :
  Forall (λ c, 0 < ch_off c) cs → shape cs' lwd → chains_data cs' ≠ [] →
  shape (cs ++ cs') (length cs + lwd).
Proof.
  intros Hp (full & empt & -> & Hf & He & ->) Hne. exists (cs ++ full), empt.
  split; [by rewrite app_assoc|]. split; [by apply Forall_app|]. split; [done|].
  rewrite length_app. destruct full; [|cbn; lia]. by rewrite data_empty in Hne.
Qed.

Section moving.
Context `{Malloc}.

Lemma add_buffer_spec out inp :
  evb_inv out → writable out → evb_inv inp →
  ∃ out' inp', Buf.evbuffer_add_buffer out inp = Val (0, out', inp') ∧ evb_inv out' ∧ evb_inv inp' ∧
    (writable inp → writable out' ∧ writable inp') ∧
    bytes out' = bytes out ++ bytes inp ∧ bytes inp' = [].
Proof.
  intros Ho Hwo Hi. unfold Buf.evbuffer_add_buffer.
  destruct (Z.eqb_spec (eb_total_len inp) 0) as [E|E].
  { exists out, inp. rewrite (total_zero inp Hi E), app_nil_r. auto 10. }
  rewrite (proj2 (wf_thawed _ Ho)), (proj1 (wf_thawed _ Hi)). cbn [orb].
  unfold Buf.move_buffer, Buf.PRESERVE_PINNED. rewrite no_pinned_r by done. cbn [negb mbind outcome_bind].
  destruct (inv_empty inp Hi) as (Hz & Hzw & Hzb).
  destruct (Z.eqb_spec (eb_total_len out) 0) as [Eo|Eo].
  - cbn [mbind outcome_bind]. eexists _, _. split; [done|]. rewrite !same_invoke.
    unfold count_added, count_deleted. rewrite !same_counts. unfold Buf.COPY_CHAIN.
    split; [apply wf_intro; (apply Hi || apply Ho)|]. rewrite (total_zero out Ho Eo). done.
  - pose proof (total_pos _ (inv_tight _ Ho Hwo) Eo) as Hposo. unfold Buf.APPEND_CHAIN.
    destruct (eb_chains out) as [|c cs] eqn:Hcs.
    { exfalso. apply Eo. rewrite (wf_total _ Ho). unfold bytes. by rewrite Hcs. }
    cbn [mbind outcome_bind]. eexists _, _. split; [done|]. rewrite !same_invoke.
    unfold count_added, count_deleted. rewrite !same_counts. unfold bytes.
    cbn [eb_chains set_chains]. rewrite <- Hcs, chains_data_app in *.
    assert (chains_data (eb_chains inp) ≠ []) as Hne.
    { intros E0. apply E. rewrite (wf_total _ Hi). unfold bytes. by rewrite E0. }
    split; [|split; [done|split; [|done]]].
    + apply wf_intro; [| | |apply Ho].
      * apply Forall_app. split; [apply Ho|apply Hi].
      * apply shape_app; [done|apply Hi|done].
      * rewrite chains_data_app, Zlen_app, (wf_total _ Ho), (wf_total _ Hi). done.
    + intros Hwi. split; [|done]. unfold writable, last_index in *. cbn [eb_chains eb_lwd set_chains].
      rewrite Hwi, length_app. destruct (eb_chains inp); [done|cbn; lia].
Qed.

(** The chains passed are moved whole. *)
Lemma remove_loop_spec cs i nread n last :
  Forall chain_ok cs → shape cs last → 0 <= n < Zlen (chains_data cs) →
  ∃ k rem c rest lwd', Buf.remove_loop cs i (i + last) nread n =
      Val ((i + k)%nat, lwd', nread + Zlen (chains_data (take k cs)), rem) ∧
    drop k cs = c :: rest ∧ n = Zlen (chains_data (take k cs)) + rem ∧ 0 <= rem < ch_off c ∧
    lwd' = if (0 <? k)%nat && (k =? last)%nat then 0%nat else (i + last)%nat.
Proof.
  revert i nread n last. induction cs as [|c cs IH]; intros i nread n last Hok Hsh Hn.
  { change (Zlen (chains_data [])) with 0 in Hn. lia. }
  apply Forall_cons in Hok as [Hc Hok]. rewrite Zlen_chains_data_cons in Hn by done.
  cbn [Buf.remove_loop]. destruct (Z.leb_spec (ch_off c) n) as [Hle|Hgt].
  2: { exists 0%nat, n, c, cs, (i + last)%nat. rewrite Nat.add_0_r. cbn [take drop].
       change (Zlen (chains_data [])) with 0. rewrite Z.add_0_r. repeat (split; [done || lia|]). done. }
  destruct Hsh as (full & empt & Hcs & Hf & He & Hlast).
  destruct full as [|c' full]; cbn [app] in Hcs.
  { exfalso. rewrite <- Hcs in He. apply Forall_cons in He as [Hc0 He]. rewrite data_empty in Hn by done.
    change (Zlen []) with 0 in Hn. lia. }
  injection Hcs as <- ->. apply Forall_cons in Hf as [Hc0 Hf]. cbn [length pred] in Hlast. subst last.
  assert (full ≠ []) as Hne.
  { intros ->. cbn [app] in Hn. rewrite data_empty in Hn by done. change (Zlen []) with 0 in Hn. lia. }
  destruct full as [|d full]; [done|]. cbn [length].
  destruct (Nat.eqb_spec i (i + S (length full))); [lia|].
  destruct (Nat.eqb_spec (i + S (length full)) (S i)) as [E|E].
  - destruct full; [|cbn in E; lia]. cbn [length app] in *. rewrite chains_data_cons in Hn.
    rewrite data_empty, app_nil_r in Hn by done.
    apply Forall_cons in Hok as [Hd _]. rewrite Zlen_chain_data in Hn by done.
    cbn [Buf.remove_loop]. destruct (Z.leb_spec (ch_off d) (n - ch_off c)); [lia|].
    exists 1%nat, (n - ch_off c), d, empt, 0%nat. cbn [take drop]. rewrite chains_data_one, Zlen_chain_data by done.
    rewrite Nat.add_1_r. repeat (split; [done || lia|]). done.
  - destruct (IH (S i) (nread + ch_off c) (n - ch_off c) (length full) Hok) as (k & rem & e & rest & lwd' & Hl & Hd & Hsz & Hr & Hlw);
      [by exists (d :: full), empt|lia|].
    replace (i + S (length full))%nat with (S i + length full)%nat in * by lia.
    rewrite Hl. exists (S k), rem, e, rest, lwd'. cbn [take drop].
    rewrite Zlen_chains_data_cons by done. split; [by rewrite Nat.add_succ_r, Z.add_assoc|].
    split; [done|]. split; [lia|]. split; [done|]. rewrite Hlw. index_cases.
Qed.

Lemma tight_empty b lwd : evb_tight b → lwd = 0%nat → evb_tight (set_chains [] lwd 0 b).
Proof. intros Hb ->. apply inv_intro; try done; [by left|apply Hb]. Qed.

Lemma free_trailing_spec b :
  evb_tight b →
  ∃ v b', Buf.evbuffer_free_trailing_empty_chains b = Val (v, b') ∧ evb_tight b' ∧ bytes b' = bytes b ∧
    Forall (λ c, 0 < ch_off c) (eb_chains b').
Proof.
  intros Hb. pose proof (inv_thawed _ Hb) as Hth. pose proof (inv_chains _ Hb) as Hok.
  pose proof (inv_total _ Hb) as Ht. unfold Buf.evbuffer_free_trailing_empty_chains, Buf.victim_index.
  unfold bytes in *.
  destruct (inv_cases _ Hb) as [[Hcs Hl]|[(d & Hcs & Hl & Hd)|(pre & d & Hcs & Hl & Hp & Hd)]];
    rewrite Hcs, Hl in *.
  - exists 0%nat. eexists. split; [done|]. split; [|done]. rewrite Ht. by apply tight_empty.
  - rewrite Forall_singleton in Hok. cbn [drop Buf.victim]. rewrite Hd, (ok_unpinned _ Hok). cbn.
    rewrite Hd. exists 0%nat. eexists. split; [done|].
    rewrite chains_data_one, chain_data_empty in * by done. split; [|done]. rewrite Ht. by apply tight_empty.
  - rewrite drop_app_length. cbn [Buf.victim]. destruct (Z.eqb_spec (ch_off d) 0); [lia|]. cbn [negb orb].
    rewrite drop_ge by (rewrite length_app; cbn; lia). cbn [Buf.all_empty forallb].
    rewrite take_ge by (rewrite length_app; cbn; lia). eexists _, _. split; [done|].
    cbn [eb_chains set_chains]. rewrite Forall_app, Forall_singleton. split; [|done].
    apply inv_intro; try done; [by rewrite <- Hcs; apply Hb|]. rewrite length_app. cbn. lia.
Qed.

Lemma data_run_all cs : Forall (λ c, 0 < ch_off c) cs → Buf.data_run cs = length cs.
Proof.
  induction 1 as [|c cs Hc Hcs IH]; [done|]. cbn. destruct (Z.eqb_spec (ch_off c) 0); [lia|]. cbn. by rewrite IH.
Qed.

(** Whole chains are appended behind the data. *)
Lemma append_chains_spec b mv nread :
  evb_tight b → Forall (λ c, 0 < ch_off c) (eb_chains b) →
  Forall chain_ok mv → Forall (λ c, 0 < ch_off c) mv → nread = Zlen (chains_data mv) →
  let b' := count_added nread (add_total nread (Buf.advance_last_with_data
    (set_chains (eb_chains b ++ mv) (eb_lwd b) (eb_total_len b) b))) in
  evb_tight b' ∧ bytes b' = bytes b ++ chains_data mv.
Proof.
  intros Hb Hpos Hok Hposm Hn b'. subst b'. unfold count_added. rewrite same_counts.
  pose proof (inv_lwd _ Hb) as Hl. unfold last_index in Hl. pose proof (inv_total _ Hb) as Ht.
  unfold Buf.advance_last_with_data, add_total. cbn [eb_chains set_chains eb_lwd].
  destruct ((eb_chains b ++ mv) !! eb_lwd b) eqn:E; cbn [eb_chains set_chains eb_lwd eb_total_len].
  - split; [|unfold bytes; cbn; by rewrite chains_data_app]. apply inv_intro.
    + apply Forall_app. split; [apply Hb|done].
    + left. by apply Forall_app.
    + apply lookup_lt_Some in E. rewrite data_run_all by by apply Forall_drop, Forall_app.
      rewrite length_drop. rewrite length_app in *. lia.
    + rewrite chains_data_app, Zlen_app, Ht. unfold bytes. lia.
    + apply Hb.
  - apply lookup_ge_None in E. rewrite length_app in E.
    assert (eb_chains b ++ mv = []) as Ee by (apply length_zero_iff_nil; rewrite length_app; lia).
    unfold bytes in *. apply app_eq_nil in Ee as [Eb Em]. subst mv nread.
    rewrite Eb in *. cbn [eb_chains app length pred] in *. split; [|done].
    apply inv_intro; try done; [by left|rewrite Ht; done|apply Hb].
Qed.

(** The chains that move whole. *)
Lemma move_chains_spec src dst k c rest lwd :
  evb_inv src → evb_tight dst → drop k (eb_chains src) = c :: rest → 0 < ch_off c →
  lwd = (if (0 <? k)%nat && (k =? eb_lwd src)%nat then 0%nat else eb_lwd src) →
  let moved := chains_data (take k (eb_chains src)) in
  ∃ dst', (if negb (Zlen moved =? 0) then
         '(v, dst) ← Buf.evbuffer_free_trailing_empty_chains dst;
         let dst := set_chains (eb_chains dst ++ take k (eb_chains src)) (eb_lwd dst)
                      (eb_total_len dst) dst in
         let dst := count_added (Zlen moved) (add_total (Zlen moved) (Buf.advance_last_with_data dst)) in
         let lwd := if (lwd =? 0)%nat then 0%nat else (lwd - k)%nat in
         Val (set_chains (drop k (eb_chains src)) lwd (eb_total_len src) src, dst, 0%nat)
       else Val (set_chains (eb_chains src) lwd (eb_total_len src) src, dst, k)) =
      Val (set_chains (c :: rest) (eb_lwd src - k) (eb_total_len src) src, dst', 0%nat) ∧
    evb_tight dst' ∧ bytes dst' = bytes dst ++ moved.
Proof.
  intros Hs Hd Hdr Hc Hlw moved.
  destruct (shape_split k _ _ c rest (wf_shape _ Hs) Hdr Hc) as (full & empt & _ & _ & _ & Hl & Hlen).
  assert (Forall (λ c, 0 < ch_off c) (take k (eb_chains src))) as Hpos.
  { destruct (wf_shape _ Hs) as (f & e & -> & Hf & _ & Hlf). rewrite take_app_le by lia. by apply Forall_take. }
  destruct (Z.eqb_spec (Zlen moved) 0) as [E|E]; cbn [negb].
  - assert (k = 0%nat) as ->.
    { apply Zlen_0_inv in E. destruct (take k (eb_chains src)) as [|d ds] eqn:Et.
      - apply (f_equal length) in Et. rewrite length_take_le in Et by lia. done.
      - unfold moved in E. rewrite chains_data_cons in E. apply app_eq_nil in E as [E _].
        pose proof (Forall_take _ k _ (wf_chains _ Hs)) as Hok. rewrite Et in Hok.
        apply Forall_cons in Hok as [Hok _]. apply Forall_cons in Hpos as [Hp _].
        pose proof (Zlen_chain_data d Hok) as El. rewrite E in El. change (Zlen []) with 0 in El. lia. }
    exists dst. rewrite drop_0 in Hdr. cbn in Hlw. subst lwd. rewrite Hdr, Nat.sub_0_r.
    split; [done|]. split; [done|].
    by rewrite app_nil_r.
  - destruct (free_trailing_spec dst Hd) as (v & d1 & -> & Hd1 & Hb1 & Hp1). cbn [mbind outcome_bind].
    destruct (append_chains_spec d1 (take k (eb_chains src)) (Zlen moved) Hd1 Hp1) as [Hi Hb];
      [apply Forall_take, Hs|done|done|].
    eexists. split; [|split; [exact Hi|by rewrite Hb, Hb1]].
    rewrite Hdr. do 4 f_equal. subst lwd. destruct k; [by destruct E|].
    destruct (Nat.eqb_spec (S k) (eb_lwd src)); cbn [Nat.ltb Nat.leb andb]; index_cases.
Qed.

(** The part of a chain that is copied behind what was moved. *)
Lemma add_part_spec d1 c rem moved old :
  evb_tight d1 → chain_ok c → bytes d1 = old ++ moved →
  ∃ r d2, Buf.evbuffer_add (ztake rem (chain_data c)) d1 = Val (r, d2) ∧ evb_tight d2 ∧
    (bytes d2 = old ++ moved ++ ztake rem (chain_data c) ∨ out_of_memory ∧ bytes d2 = old ++ moved).
Proof.
  intros Hd1 Hc Hb1. assert (Zlen (ztake rem (chain_data c)) + EVBUFFER_CHAIN_SIZE <= 2 ^ 62).
  { pose proof (ok_small _ Hc). pose proof (ok_fits _ Hc). pose proof (ok_misalign _ Hc). pose proof (ok_off _ Hc).
    rewrite Zlen_ztake, Zlen_chain_data by done. lia. }
  destruct (evbuffer_add_spec (ztake rem (chain_data c)) d1 Hd1)
    as [(d2 & E & Hd2 & Hb2 & Hoom)|(d2 & E & Hd2 & Hb2)]; [done|exists (-1), d2|exists 0, d2];
    rewrite Hb2, Hb1; [auto|]. split; [done|]. split; [done|]. left. by rewrite app_assoc.
Qed.

(** The first [n] bytes move; bytes are lost only where memory runs out. *)
Lemma remove_buffer_spec src dst n :
  evb_inv src → evb_inv dst → writable dst → 0 <= n →
  Zlen (bytes src) + EVBUFFER_CHAIN_SIZE <= 2 ^ 62 →
  ∃ src' dst', Buf.evbuffer_remove_buffer src dst n
      = Val (i32 (Z.min n (Zlen (bytes src))), src', dst') ∧
    evb_inv src' ∧ evb_inv dst' ∧ (writable src → writable src' ∧ writable dst') ∧
    bytes src' = zdrop n (bytes src) ∧
    (bytes dst' = bytes dst ++ ztake n (bytes src) ∨
     out_of_memory ∧ ∃ m, 0 <= m <= n ∧ bytes dst' = bytes dst ++ ztake m (bytes src)).
Proof.
  intros Hs Hd Hwd Hn Hsmall. unfold Buf.evbuffer_remove_buffer. pose proof (Zlen_nonneg (bytes src)).
  destruct (Z.eqb_spec n 0) as [->|Hn0].
  { exists src, dst. rewrite Z.min_l, zdrop_0, ztake_0, app_nil_r by lia. auto 10. }
  rewrite (proj2 (wf_thawed _ Hd)), (proj1 (wf_thawed _ Hs)). cbn [orb].
  pose proof (wf_total _ Hs) as Ht.
  destruct (Z.geb_spec n (eb_total_len src)) as [Hall|Hlt].
  { destruct (add_buffer_spec dst src Hd Hwd Hs) as (dst' & src' & -> & Hd' & Hs' & Hw & Hbd & Hbs).
    cbn. exists src', dst'. rewrite Ht in *. rewrite Z.min_r, zdrop_all, ztake_all by lia. naive_solver. }
  destruct (remove_loop_spec (eb_chains src) 0 0 n (eb_lwd src) (wf_chains _ Hs) (wf_shape _ Hs)
              ltac:(unfold bytes in *; lia))
    as (k & rem & c & rest & lwd' & Hloop & Hdr & Hsz & Hrem & Hlw).
  rewrite Nat.add_0_l in *. rewrite Hloop. cbn [mbind outcome_bind].
  rewrite Z.add_0_l.
  destruct (move_chains_spec src dst k c rest lwd' Hs (inv_tight _ Hd Hwd) Hdr ltac:(lia) Hlw) as (d1 & Hmv & Hd1 & Hb1).
  cbn [mbind outcome_bind] in Hmv. change (0 + k)%nat with k. rewrite Hmv. cbn [mbind outcome_bind]. clear Hmv Hloop.
  set (moved := chains_data (take k (eb_chains src))) in *.
  pose proof (Forall_drop _ k _ (wf_chains _ Hs)) as Hok. rewrite Hdr in Hok.
  apply Forall_cons in Hok as [Hc _].
  cbn [eb_chains set_chains lookup list_lookup or_undef mbind outcome_bind].
  rewrite chain_load_data by (done || lia). cbn [mbind outcome_bind].
  assert (bytes src = moved ++ chain_data c ++ chains_data rest) as Hbs.
  { unfold bytes. rewrite <- (chains_data_take_drop k (eb_chains src)), Hdr. done. }
  assert (ztake n (bytes src) = moved ++ ztake rem (chain_data c)) as Htk.
  { rewrite Hbs, Hsz. rewrite ztake_app_r by lia. f_equal.
    rewrite ztake_app_l by (rewrite Zlen_chain_data by done; lia). f_equal. lia. }
  destruct (cut_front_spec src k c rest rem (eb_lwd src - k) (Zlen (bytes src) - n) Hs Hdr Hrem eq_refl)
    as (Hs' & Hws' & Hbs'); [by rewrite Hsz|]. fold moved in Hbs'. rewrite <- Hsz in Hbs'.
  destruct (add_part_spec d1 c rem moved (bytes dst) Hd1 Hc Hb1) as (r & d2 & Hadd & Hd2 & Hb2).
  rewrite Hadd. cbn [mbind outcome_bind]. rewrite <- Hsz.
  rewrite Z.min_l by lia. fold (trim rem c).
  destruct (Z.eqb_spec n 0); [done|]. cbn [negb].
  apply tight_inv in Hd2 as [Hd2 Hwd2].
  eexists _, _. split; [done|]. rewrite !same_invoke. unfold count_deleted. rewrite !same_counts.
  rewrite <- Ht in Hs', Hws', Hbs'. split; [exact Hs'|]. split; [done|]. split; [auto|].
  split; [exact Hbs'|].
  rewrite (same_data_bytes d2 (evbuffer_invoke_callbacks d2)) by (symmetry; apply same_invoke).
  rewrite Htk. destruct Hb2 as [Hb2|[Hoom Hb2]]; [by left|right]. split; [done|]. exists (Zlen moved).
  pose proof (Zlen_nonneg moved). split; [lia|]. by rewrite Hb2, Hbs, ztake_app_exact.
Qed.
End moving.

(** ** The interface of EvbufferApi.v *)

Section instance.
Context `{Malloc}.

(** The interface's operations are total; below [evb_limit] the ones of BufOps.v
    are too, by the lemmas above. *)
Definition defined {A} (d : A) (o : outcome A) : A := match o with Val a => a | Undef _ => d end.

#[export] Instance evb_evbuffer : Evbuffer Evb := {
  evbuffer_get_length := eb_total_len;
  evbuffer_pullup b n := defined (None, b) (Buf.evbuffer_pullup n b);
  evbuffer_drain b n := defined (-1, b) (Buf.evbuffer_drain n b);
  evbuffer_remove b n := defined (-1, [], b) (Buf.evbuffer_remove n b);
  evbuffer_add b bs := defined (-1, b) (Buf.evbuffer_add bs b);
  evbuffer_add_buffer out inp := defined (-1, out, inp) (Buf.evbuffer_add_buffer out inp);
  evbuffer_remove_buffer src dst n := defined (-1, src, dst) (Buf.evbuffer_remove_buffer src dst n)
}.

Lemma under_limit n : n <= evb_limit → n + EVBUFFER_CHAIN_SIZE <= 2 ^ 62.
Proof. unfold EVBUFFER_CHAIN_SIZE. intros Hn. change evb_limit with (2 ^ 61) in Hn. lia. Qed.

Definition reliable : Prop := ∀ n, malloc_ok n = true.

Lemma reliable_memory : reliable → ~ out_of_memory.
Proof. intros Hr (n & Hn). by rewrite Hr in Hn. Qed.

(** The three cases of a pullup, for the laws below. *)
Lemma pullup_cases b n :
  evb_inv b → Zlen (bytes b) <= evb_limit →
  ∃ o b', evbuffer_pullup b n = (o, b') ∧ evb_inv b' ∧ bytes b' = bytes b ∧
    let m := if n <? 0 then Zlen (bytes b) else n in
    match o with
    | Some bs => 0 < m <= Zlen (bytes b) ∧ bs = ztake m (bytes b)
    | None => m = 0 ∨ Zlen (bytes b) < m ∨ out_of_memory
    end.
Proof.
  intros Hb Hle. pose proof (evbuffer_pullup_spec n b Hb (under_limit _ Hle)) as P. cbv zeta in P.
  pose proof (Zlen_nonneg (bytes b)). cbv [evbuffer_pullup evb_evbuffer].
  set (m := if n <? 0 then _ else _) in *.
  assert (0 <= m) by (unfold m; destruct (Z.ltb_spec n 0); lia).
  destruct (Z.eqb_spec m 0).
  { cbn [orb] in P. rewrite P. exists None, b. do 3 (split; [done|]). by left. }
  destruct (Z.gtb_spec m (Zlen (bytes b))); cbn [orb] in P.
  { rewrite P. exists None, b. do 3 (split; [done|]). auto. }
  destruct P as [[-> ?]|(b' & -> & ? & _ & ?)]; [exists None, b; do 3 (split; [done|]); auto|].
  eexists _, b'. split; [done|]. split; [done|]. split; [done|]. split; [lia|done].
Qed.

#[local] Obligation Tactic := idtac.

#[export] Program Instance evb_evbuffer_spec : EvbufferSpec Evb := {
  content := bytes; evb_ok := evb_inv; evb_writable := writable; evb_reliable := reliable
}.
Next Obligation. intros b Hb. apply (wf_total _ Hb). Qed.
Next Obligation.
  intros b n Hb Hle. destruct (pullup_cases b n Hb Hle) as (o & b' & -> & ? & ? & _). done.
Qed.
Next Obligation.
  intros b n bs Hb Hle Hn. destruct (pullup_cases b n Hb Hle) as (o & b' & -> & _ & _ & P).
  destruct (Z.ltb_spec n 0); [lia|]. cbn. intros ->. done.
Qed.
Next Obligation.
  intros b n bs Hb Hle Hn. destruct (pullup_cases b n Hb Hle) as (o & b' & -> & _ & _ & P).
  destruct (Z.ltb_spec n 0); [|lia]. cbn. intros ->. destruct P as [P ->].
  rewrite ztake_all by lia. split; [|done]. intros E. rewrite E in P. change (Zlen []) with 0 in P. lia.
Qed.
Next Obligation.
  intros b n Hb Hle Hr. destruct (pullup_cases b n Hb Hle) as (o & b' & -> & _ & _ & P).
  cbn. intros ->. destruct P as [P|[P|P]]; [| |by apply reliable_memory in P].
  - destruct (Z.ltb_spec n 0); [|by left]. right; right. by apply Zlen_0_inv.
  - destruct (Z.ltb_spec n 0); [lia|]. auto.
Qed.
Next Obligation.
  intros b n Hb Hn. destruct (evbuffer_drain_spec n b Hb Hn) as (b' & E & ? & _ & ?).
  cbv [evbuffer_drain evb_evbuffer]. by rewrite E.
Qed.
Next Obligation.
  intros b n Hb Hn. destruct (evbuffer_remove_spec n b Hb Hn) as (b' & E & ? & _ & ?).
  cbv [evbuffer_remove evb_evbuffer]. rewrite E. by exists b'.
Qed.
Next Obligation.
  intros b bs r b' Hb Hw Hle. cbv [evbuffer_add evb_evbuffer].
  destruct (evbuffer_add_spec bs b (inv_tight _ Hb Hw) (under_limit _ Hle))
    as [(b1 & -> & Hb1 & ? & _)|(b1 & -> & Hb1 & ?)];
    apply tight_inv in Hb1 as [? ?]; cbn; intros [= <- <-]; auto.
Qed.
Next Obligation.
  intros b bs Hb Hw Hle Hr. cbv [evbuffer_add evb_evbuffer].
  destruct (evbuffer_add_spec bs b (inv_tight _ Hb Hw) (under_limit _ Hle)) as [(b1 & -> & ? & ? & P)|(b1 & -> & ? & ?)];
    [by apply reliable_memory in P|done].
Qed.
Next Obligation.
  intros out inp r out' inp' Ho Hw Hi. cbv [evbuffer_add_buffer evb_evbuffer].
  destruct (add_buffer_spec out inp Ho Hw Hi) as (o & i & -> & ? & ? & ? & ? & ?).
  cbn. by intros [= <- <- <-].
Qed.
Next Obligation.
  intros src dst n r src' dst' Hs Hd Hw Hle Hr Hn. cbv [evbuffer_remove_buffer evb_evbuffer].
  destruct (remove_buffer_spec src dst n Hs Hd Hw Hn (under_limit _ Hle)) as (s' & d' & -> & ? & ? & ? & ? & [?|[P _]]);
    [|by apply reliable_memory in P].
  cbn. by intros [= <- <- <-].
Qed.
Next Obligation.
  intros b n Hb Hn Hw. destruct (evbuffer_drain_spec n b Hb Hn) as (b' & E & ? & Hw' & ?).
  cbv [evbuffer_drain evb_evbuffer]. rewrite E. by apply Hw'.
Qed.
End instance.
