(* ===== verification/BufExpand.v ===== *)
(** Evbuffers: making room, reading from and writing to file descriptors, and the
    lifetime of chains (deps/libevent-2.0.21-stable/buffer.c), on the data of
    BufChain.v.

    A chain inside a buffer is named by its index.  The system calls are
    arguments: what [ioctl(FIONREAD)], [readv], [writev] and [sendfile] return. *)

From S2P Require Import Prelude BufChain BufOps.

(** ** Lifetime of chains *)

Definition EVBUFFER_MMAP : Z := 0x0001.
Definition EVBUFFER_DANGLING : Z := 0x0040.

Definition set_ch_flags (f : Z) (c : Chain) : Chain :=
  {| ch_buffer := ch_buffer c; ch_misalign := ch_misalign c; ch_off := ch_off c; ch_flags := f |}.

(** What freeing a chain does besides returning its memory. *)
Inductive free_act := ActCleanup | ActMunmap | ActClose | ActFree.

(** A pinned chain stays, marked as dangling. *)
Definition evbuffer_chain_free (c : Chain) : list free_act * option Chain :=
  if CHAIN_PINNED c then ([], Some (set_ch_flags (Z.lor (ch_flags c) EVBUFFER_DANGLING) c))
  else
    ((if has_flag c EVBUFFER_REFERENCE then [ActCleanup] else []) ++
     (if has_flag c EVBUFFER_MMAP then [ActMunmap; ActClose] else []) ++
     (if has_flag c EVBUFFER_SENDFILE then [ActClose] else []) ++ [ActFree], None).

Definition evbuffer_free_all_chains (cs : list Chain) : list free_act * list Chain :=
  (mjoin ((λ c, (evbuffer_chain_free c).1) <$> cs), omap (λ c, (evbuffer_chain_free c).2) cs).

Definition _evbuffer_chain_pin (flag : Z) (c : Chain) : outcome Chain :=
  if negb (has_flag c flag) then Val (set_ch_flags (Z.lor (ch_flags c) flag) c) else Undef AssertFail.

Definition _evbuffer_chain_unpin (flag : Z) (c : Chain) : outcome (list free_act * option Chain) :=
  if has_flag c flag then
    let c := set_ch_flags (Z.ldiff (ch_flags c) flag) c in
    Val (if has_flag c EVBUFFER_DANGLING then evbuffer_chain_free c else ([], Some c))
  else Undef AssertFail.

(** ** Lifetime of buffers *)

Definition set_refcnt (n : Z) (b : Evb) : Evb :=
  set_cb {| eb_callbacks := eb_callbacks (eb_cb b); eb_deferred_cbs := eb_deferred_cbs (eb_cb b);
            eb_queued := eb_queued (eb_cb b); eb_refcnt := n; eb_calls := eb_calls (eb_cb b) |} b.

Definition _evbuffer_incref (b : Evb) : Evb := set_refcnt (eb_refcnt (eb_cb b) + 1) b.

Definition evbuffer_remove_all_callbacks (b : Evb) : Evb := set_callbacks [] b.

(** The chains' effects, the pinned chains that stay, and the buffer, [None] once it
    is freed. *)
Definition _evbuffer_decref_and_unlock (b : Evb)
  : outcome (list free_act * list Chain * option Evb) :=
  if eb_refcnt (eb_cb b) >? 0 then
    let n := eb_refcnt (eb_cb b) - 1 in
    if n >? 0 then Val ([], [], Some (set_refcnt n b))
    else Val (evbuffer_free_all_chains (eb_chains b), None)
  else Undef AssertFail.

Definition set_eb_flags (f : Z) (b : Evb) : Evb :=
  {| eb_chains := eb_chains b; eb_lwd := eb_lwd b; eb_total_len := eb_total_len b;
     eb_n_add_for_cb := eb_n_add_for_cb b; eb_n_del_for_cb := eb_n_del_for_cb b;
     eb_freeze_start := eb_freeze_start b; eb_freeze_end := eb_freeze_end b;
     eb_flags := f; eb_cb := eb_cb b |}.
Definition evbuffer_set_flags (flags : Z) (b : Evb) : Z * Evb :=
  (0, set_eb_flags (Z.lor (eb_flags b) (u32 flags)) b).
Definition evbuffer_clear_flags (flags : Z) (b : Evb) : Z * Evb :=
  (0, set_eb_flags (Z.ldiff (eb_flags b) (u32 flags)) b).

Definition evbuffer_get_contiguous_space (b : Evb) : Z :=
  match eb_chains b with c :: _ => ch_off c | [] => 0 end.

(** ** Making room *)

Section expand.
Context `{Malloc}.

(** The slot of the first chain with free space. *)
Definition space_slot (b : Evb) : nat :=
  match eb_chains b !! eb_lwd b with
  | Some c => if CHAIN_SPACE_LEN c =? 0 then S (eb_lwd b) else eb_lwd b
  | None => eb_lwd b
  end.

(** The assertions at [ok:]. *)
Definition expanded (i : nat) (datlen : Z) (b : Evb) : outcome (option nat * Evb) :=
  c ← or_undef NullDeref (eb_chains b !! i);
  if CHAIN_SPACE_LEN c >=? datlen then Val (Some i, b) else Undef AssertFail.

Definition expand_new (datlen : Z) (b : Evb) : outcome (option nat * Evb) :=
  ob ← Buf.evbuffer_chain_insert_new datlen b;
  match ob with
  | None => Val (None, b)
  | Some b => expanded (last_index b) datlen b
  end.

(** The index of the chain that has the room; [None] when memory runs out. *)
Definition evbuffer_expand_singlechain (datlen : Z) (b : Evb) : outcome (option nat * Evb) :=
  let cs := eb_chains b in
  let p := space_slot b in
  match cs !! p with
  | None => expand_new datlen b
  | Some chain =>
      if is_immutable chain || CHAIN_PINNED chain then expand_new datlen b
      else if CHAIN_SPACE_LEN chain >=? datlen then expanded p datlen b
      else if ch_off chain =? 0 then expand_new datlen b
      else if evbuffer_chain_should_realign chain datlen then
        chain ← evbuffer_chain_align chain;
        expanded p datlen (put_chain p chain b)
      else if (CHAIN_SPACE_LEN chain <? ch_buffer_len chain / 8) ||
              (ch_off chain >? MAX_TO_COPY_IN_EXPAND) then
        match cs !! S p with
        | Some next =>
            if CHAIN_SPACE_LEN next >=? datlen then expanded (S p) datlen b
            else expand_new datlen b
        | None => expand_new datlen b
        end
      else
        tmp ← evbuffer_chain_new (ch_off chain + datlen);
        match tmp with
        | None => Val (None, b)
        | Some tmp =>
            data ← chain_load (ch_misalign chain) (ch_off chain) chain;
            tmp ← chain_store 0 data (set_off (ch_off chain) tmp);
            expanded p datlen (put_chain p tmp b)
        end
  end.

Definition evbuffer_expand (datlen : Z) (b : Evb) : outcome (Z * Evb) :=
  '(r, b) ← evbuffer_expand_singlechain datlen b;
  Val (match r with Some _ => 0 | None => -1 end, b).

(** The loop of [_evbuffer_expand_fast] over the chains from [*last_with_datap]
    ([first]): the chains, empty ones realigned, whether there is enough space,
    the space, and the number of chains it is in. *)
Fixpoint fast_loop (cs : list Chain) (first : bool) (avail : Z) (used n : nat) (datlen : Z)
  : outcome (list Chain * bool * Z * nat) :=
  match cs with
  | [] => Val ([], false, avail, used)
  | c :: cs =>
      '(c, avail, used) ←
        (if negb (ch_off c =? 0) then
           if (first : bool) then
             let space := CHAIN_SPACE_LEN c in
             Val (if negb (space =? 0) then (c, avail + space, S used) else (c, avail, used))
           else Undef AssertFail
         else Val (set_misalign 0 c, avail + ch_buffer_len c, S used));
      if avail >=? datlen then Val (c :: cs, true, avail, used)
      else if (used =? n)%nat then Val (c :: cs, false, avail, used)
      else
        '(cs, enough, avail, used) ← fast_loop cs false avail used n datlen;
        Val (c :: cs, enough, avail, used)
  end.

(** All empty chains are replaced by one. *)
Definition replace_empty (datlen : Z) (b : Evb) : outcome (Z * Evb) :=
  chain ← or_undef NullDeref (eb_chains b !! eb_lwd b);
  let rmv_all := ch_off chain =? 0 in
  if rmv_all && negb (eb_lwd b =? 0)%nat then Undef AssertFail
  else
    let avail := if rmv_all then 0 else CHAIN_SPACE_LEN chain in
    let keep := if rmv_all then eb_lwd b else S (eb_lwd b) in
    if Buf.all_empty (drop keep (eb_chains b)) then
      tmp ← evbuffer_chain_new (datlen - avail);
      match tmp with
      | None =>
          Val (-1, if rmv_all then ZERO_CHAIN b
                   else set_chains (take keep (eb_chains b)) (eb_lwd b) (eb_total_len b) b)
      | Some tmp =>
          Val (0, set_chains (take keep (eb_chains b) ++ [tmp]) (eb_lwd b) (eb_total_len b) b)
      end
    else Undef AssertFail.

Definition _evbuffer_expand_fast (datlen : Z) (n : nat) (b : Evb) : outcome (Z * Evb) :=
  if (n <? 2)%nat then Undef AssertFail
  else
    match eb_last b with
    | Some c =>
        if negb (is_immutable c) then
          '(cs, enough, avail, used) ← fast_loop (drop (eb_lwd b) (eb_chains b)) true 0 0 n datlen;
          let b := set_chains (take (eb_lwd b) (eb_chains b) ++ cs) (eb_lwd b) (eb_total_len b) b in
          if (enough : bool) then Val (0, b)
          else if (used <? n)%nat then
            tmp ← evbuffer_chain_new (datlen - avail);
            match tmp with
            | None => Val (-1, b)
            | Some tmp => Val (0, set_chains (eb_chains b ++ [tmp]) (eb_lwd b) (eb_total_len b) b)
            end
          else replace_empty datlen b
        else
          ob ← Buf.evbuffer_chain_insert_new datlen b;
          Val (match ob with None => (-1, b) | Some b => (0, b) end)
    | None =>
        ob ← Buf.evbuffer_chain_insert_new datlen b;
        Val (match ob with None => (-1, b) | Some b => (0, b) end)
    end.

(** ** Reserving and committing space *)

(** [iov_base] is offset [iov_at] of the buffer of chain [iov_chain]. *)
Record Iov := { iov_chain : nat; iov_at : Z; iov_len : Z }.

Definition CHAIN_SPACE_PTR (c : Chain) : Z := ch_misalign c + ch_off c.

Fixpoint setup_vecs (cs : list Chain) (i : nat) (n_vecs_avail : nat) (so_far howmuch : Z) (exact : bool)
  {struct n_vecs_avail} : outcome (list Iov) :=
  match n_vecs_avail with
  | O => Val []
  | S n =>
      if so_far <? howmuch then
        match cs with
        | [] => Undef NullDeref
        | c :: cs =>
            let avail := CHAIN_SPACE_LEN c in
            let avail := if (avail >? howmuch - so_far) && exact then howmuch - so_far else avail in
            rest ← setup_vecs cs (S i) n (so_far + avail) howmuch exact;
            Val ({| iov_chain := i; iov_at := CHAIN_SPACE_PTR c; iov_len := avail |} :: rest)
        end
      else Val []
  end.

(** The vectors and the slot of the first chain; [None] for the result -1. *)
Definition _evbuffer_read_setup_vecs (howmuch : Z) (n_vecs_avail : nat) (exact : bool) (b : Evb)
  : outcome (option (list Iov * nat)) :=
  if howmuch <? 0 then Val None
  else
    c ← or_undef NullDeref (eb_chains b !! eb_lwd b);
    let p := if CHAIN_SPACE_LEN c =? 0 then S (eb_lwd b) else eb_lwd b in
    vecs ← setup_vecs (drop p (eb_chains b)) p n_vecs_avail 0 howmuch exact;
    Val (Some (vecs, p)).

Definition evbuffer_reserve_space (size : Z) (n_vecs : Z) (b : Evb) : outcome (Z * list Iov * Evb) :=
  if eb_freeze_end b then Val (-1, [], b)
  else if n_vecs <? 1 then Val (-1, [], b)
  else if n_vecs =? 1 then
    '(r, b) ← evbuffer_expand_singlechain (u64 size) b;
    match r with
    | None => Val (-1, [], b)
    | Some i =>
        c ← or_undef NullDeref (eb_chains b !! i);
        Val (1, [{| iov_chain := i; iov_at := CHAIN_SPACE_PTR c; iov_len := CHAIN_SPACE_LEN c |}], b)
    end
  else
    '(r, b) ← _evbuffer_expand_fast (u64 size) (Z.to_nat n_vecs) b;
    if r <? 0 then Val (-1, [], b)
    else
      v ← _evbuffer_read_setup_vecs size (Z.to_nat n_vecs) false b;
      Val (match v with None => (-1, [], b) | Some (vecs, _) => (Zlen vecs, vecs, b) end).

(** Pass 1: the vectors lie in the chains. *)
Fixpoint vecs_in_bounds (cs : list Chain) (i : nat) (vec : list Iov) : bool :=
  match vec with
  | [] => true
  | v :: vec =>
      match cs with
      | [] => false
      | c :: cs => (iov_chain v =? i)%nat && (iov_at v =? CHAIN_SPACE_PTR c) &&
                   (u64 (iov_len v) <=? CHAIN_SPACE_LEN c) && vecs_in_bounds cs (S i) vec
      end
  end.

(** Pass 2: the sizes; the chains, the bytes added and [last_with_datap]. *)
Fixpoint commit_vecs (cs : list Chain) (i lwd : nat) (vec : list Iov) : list Chain * Z * nat :=
  match vec, cs with
  | v :: vec, c :: cs =>
      let '(cs, added, lwd) :=
        commit_vecs cs (S i) (if negb (iov_len v =? 0) then i else lwd) vec in
      (set_off (ch_off c + iov_len v) c :: cs, iov_len v + added, lwd)
  | _, _ => (cs, 0, lwd)
  end.

Definition commit_done (added : Z) (b : Evb) : Z * Evb :=
  (0, evbuffer_invoke_callbacks (count_added added (add_total added b))).

Definition evbuffer_commit_space (vec : list Iov) (b : Evb) : outcome (Z * Evb) :=
  if eb_freeze_end b then Val (-1, b)
  else
    let general :=
      match eb_chains b !! eb_lwd b with
      | None => Val (-1, b)
      | Some _ =>
          let p := space_slot b in
          if vecs_in_bounds (drop p (eb_chains b)) p vec then
            let '(cs, added, lwd) := commit_vecs (drop p (eb_chains b)) p (eb_lwd b) vec in
            Val (commit_done added
                   (set_chains (take p (eb_chains b) ++ cs) lwd (eb_total_len b) b))
          else Val (-1, b)
      end in
    match vec with
    | [] => Val (0, b)
    | [v] =>
        match eb_last b with
        | Some l =>
            if (iov_chain v =? last_index b)%nat && (iov_at v =? CHAIN_SPACE_PTR l) then
              if u64 (iov_len v) >? CHAIN_SPACE_LEN l then Val (-1, b)
              else
                let b := put_chain (last_index b) (set_off (ch_off l + iov_len v) l) b in
                let b := if negb (iov_len v =? 0) then Buf.advance_last_with_data b else b in
                Val (commit_done (iov_len v) b)
            else general
        | None => general
        end
    | _ => general
    end.

(** ** Reading *)

Definition NUM_READ_IOVEC : nat := 4.
Definition EVBUFFER_MAX_READ : Z := 4096.

(** [readv]: the bytes go to the vectors in order; vector [i] points into the
    [i]-th of the chains. *)
Fixpoint scatter (vecs : list Iov) (data : list byte) (cs : list Chain) : outcome (list Chain) :=
  match vecs, cs with
  | v :: vecs, c :: cs =>
      c ← chain_store (iov_at v) (ztake (iov_len v) data) c;
      cs ← scatter vecs (zdrop (iov_len v) data) cs;
      Val (c :: cs)
  | _, _ => Val cs
  end.

Fixpoint vecs_len (vecs : list Iov) : Z :=
  match vecs with [] => 0 | v :: vecs => iov_len v + vecs_len vecs end.

(** The sizes after a read of [remaining] bytes into [nvecs] chains. *)
Fixpoint read_commit (nvecs : nat) (cs : list Chain) (p lwd : nat) (remaining : Z)
  : outcome (list Chain * nat) :=
  match nvecs with
  | O => Val (cs, lwd)
  | S n =>
      match cs with
      | [] => Undef NullDeref
      | c :: cs =>
          let space := CHAIN_SPACE_LEN c in
          if space <? remaining then
            '(cs, lwd) ← read_commit n cs (S p) lwd (remaining - space);
            Val (set_off (ch_off c + space) c :: cs, lwd)
          else Val (set_off (ch_off c + remaining) c :: cs, p)
      end
  end.

(** [readable] is what [FIONREAD] reports (-1 for an error), [rd] what the
    descriptor has to give: [None] for an error, else the bytes, of which a read
    takes as many as fit. *)
Definition evbuffer_read (readable : Z) (rd : option (list byte)) (howmuch : Z) (b : Evb)
  : outcome (Z * Evb) :=
  if eb_freeze_end b then Val (-1, b)
  else
    let n := if (readable <=? 0) || (readable >? EVBUFFER_MAX_READ) then EVBUFFER_MAX_READ
             else readable in
    let howmuch := if (howmuch <? 0) || (howmuch >? n) then n else howmuch in
    '(r, b) ← _evbuffer_expand_fast howmuch NUM_READ_IOVEC b;
    if r =? -1 then Val (-1, b)
    else
      ov ← _evbuffer_read_setup_vecs howmuch NUM_READ_IOVEC true b;
      '(vecs, p) ← or_undef AssertFail ov;
      match rd with
      | None => Val (-1, b)
      | Some data =>
          let data := ztake (vecs_len vecs) data in
          let n := Zlen data in
          cs ← scatter vecs data (drop p (eb_chains b));
          if n =? 0 then
            Val (0, set_chains (take p (eb_chains b) ++ cs) (eb_lwd b) (eb_total_len b) b)
          else
            '(cs, lwd) ← read_commit (length vecs) cs p (eb_lwd b) n;
            let b := set_chains (take p (eb_chains b) ++ cs) lwd (eb_total_len b) b in
            Val (n, evbuffer_invoke_callbacks (count_added n (add_total n b)))
      end.

(** ** Writing *)

Definition NUM_WRITE_IOVEC : nat := 128.

(** The bytes of the vectors, and their number. *)
Fixpoint gather (cs : list Chain) (i : nat) (howmuch : Z) : outcome (list byte * nat) :=
  match i, cs with
  | S i, c :: cs =>
      if howmuch =? 0 then Val ([], 0%nat)
      else if has_flag c EVBUFFER_SENDFILE then Val ([], 0%nat)
      else if howmuch >=? ch_off c then
        data ← chain_load (ch_misalign c) (ch_off c) c;
        '(rest, n) ← gather cs i (howmuch - ch_off c);
        Val (data ++ rest, S n)
      else
        data ← chain_load (ch_misalign c) howmuch c;
        Val (data, 1%nat)
  | _, _ => Val ([], 0%nat)
  end.

(** [wr] is [writev] on the bytes of the vectors: how many of them it takes, or -1.  The second result is
    what the descriptor takes, the first bytes of those it is handed. *)
Definition evbuffer_write_iovec (wr : list byte → Z) (howmuch : Z) (b : Evb) : outcome (Z * list byte) :=
  if howmuch <? 0 then Val (-1, [])
  else
    '(data, i) ← gather (eb_chains b) NUM_WRITE_IOVEC howmuch;
    Val (if (i =? 0)%nat then (0, []) else (wr data, ztake (wr data) data)).

(** [sf] is [sendfile] from an offset, a number of bytes: its result, and whether
    [errno] says to try again. *)
Definition evbuffer_write_sendfile (sf : Z → Z → Z * bool) (chain : Chain) : Z :=
  let '(res, retriable) := sf (ch_misalign chain) (ch_off chain) in
  if (res =? -1) && retriable then 0 else res.

(** The result, what the descriptor took of the buffer (the bytes of a file, which [sendfile] takes, are not in the
    buffer), and the buffer. *)
Definition evbuffer_write_atmost (wr : list byte → Z) (sf : Z → Z → Z * bool) (howmuch : Z) (b : Evb)
  : outcome (Z * list byte * Evb) :=
  if eb_freeze_start b then Val (-1, [], b)
  else
    let howmuch := if (howmuch <? 0) || (howmuch >? eb_total_len b) then eb_total_len b else howmuch in
    '(n, took) ← (if howmuch >? 0 then
           match eb_chains b with
           | c :: _ => if has_flag c EVBUFFER_SENDFILE then Val (evbuffer_write_sendfile sf c, [])
                       else evbuffer_write_iovec wr howmuch b
           | [] => evbuffer_write_iovec wr howmuch b
           end
         else Val (-1, []));
    if n >? 0 then '(_, b) ← Buf.evbuffer_drain n b; Val (n, took, b) else Val (n, took, b).

Definition evbuffer_write (wr : list byte → Z) (sf : Z → Z → Z * bool) (b : Evb) : outcome (Z * list byte * Evb) :=
  evbuffer_write_atmost wr sf (-1) b.

(** ** Formatted output and references *)

(** [evutil_vsnprintf] of a format whose output is [text] (or that fails) into
    [space] bytes: the result and what is stored, with the final NUL. *)
Definition evutil_vsnprintf (text : option (list byte)) (space : Z) : Z * list byte :=
  if space =? 0 then (0, [])
  else
    match text with
    | None => (-1, [])
    | Some t => if Zlen t >? 2 ^ 31 - 1 then (-1, [])
                else (Zlen t, ztake (space - 1) t ++ [z2b 0])
    end.

(** The loop; it runs at most twice. *)
Fixpoint vprintf_loop (fuel : nat) (text : option (list byte)) (i : nat) (b : Evb) : outcome (Z * Evb) :=
  match fuel with
  | O => Undef Hang
  | S fuel =>
      chain ← or_undef NullDeref (eb_chains b !! i);
      let space := CHAIN_SPACE_LEN chain in
      let '(sz, out) := evutil_vsnprintf text space in
      chain ← chain_store (CHAIN_SPACE_PTR chain) out chain;
      let b := put_chain i chain b in
      if sz <? 0 then Val (-1, b)
      else if sz <? space then
        let b := count_added sz (add_total sz (put_chain i (set_off (ch_off chain + sz) chain) b)) in
        Val (sz, evbuffer_invoke_callbacks (Buf.advance_last_with_data b))
      else
        '(r, b) ← evbuffer_expand_singlechain (sz + 1) b;
        match r with
        | None => Val (-1, b)
        | Some i => vprintf_loop fuel text i b
        end
  end.

Definition evbuffer_add_vprintf (text : option (list byte)) (b : Evb) : outcome (Z * Evb) :=
  if eb_freeze_end b then Val (-1, b)
  else
    '(r, b) ← evbuffer_expand_singlechain 64 b;
    match r with
    | None => Val (-1, b)
    | Some i => vprintf_loop 2 text i b
    end.

(** A chain that shares the caller's memory. *)
Definition reference_chain (data : list byte) (c : Chain) : Chain :=
  {| ch_buffer := data; ch_misalign := ch_misalign c; ch_off := Zlen data;
     ch_flags := Z.lor (ch_flags c) (Z.lor EVBUFFER_REFERENCE EVBUFFER_IMMUTABLE) |}.

Definition evbuffer_add_reference (data : list byte) (b : Evb) : outcome (Z * Evb) :=
  c ← evbuffer_chain_new 16;
  match c with
  | None => Val (-1, b)
  | Some c =>
      if eb_freeze_end b then Val (-1, b)
      else
        b ← Buf.evbuffer_chain_insert (reference_chain data c) b;
        Val (0, evbuffer_invoke_callbacks (count_added (Zlen data) b))
  end.
End expand.
