(* ===== verification/BufIo.v ===== *)
(** What making room, reading and writing do to the bytes of an evbuffer
    (the operations of BufExpand.v). *)

From S2P Require Import Prelude EvbufferApi BufChain BufOps BufRefine BufExpand.

(** ** Free space *)

Lemma space_ok c : chain_ok c → CHAIN_SPACE_LEN c = ch_buffer_len c - (ch_misalign c + ch_off c).
Proof. intros Hc. unfold CHAIN_SPACE_LEN. by rewrite (ok_mutable _ Hc). Qed.

Lemma space_nonneg c : chain_ok c → 0 <= CHAIN_SPACE_LEN c.
Proof. intros Hc. rewrite space_ok by done. pose proof (ok_fits _ Hc). lia. Qed.

Definition space_sum (cs : list Chain) : Z := foldr (λ c n, CHAIN_SPACE_LEN c + n) 0 cs.

Lemma space_sum_app cs cs' : space_sum (cs ++ cs') = space_sum cs + space_sum cs'.
Proof. unfold space_sum. induction cs as [|c cs IH]; [done|]. cbn. rewrite IH. lia. Qed.

Lemma space_sum_nonneg cs : Forall chain_ok cs → 0 <= space_sum cs.
Proof.
  induction 1 as [|c cs Hc Hcs IH]; [done|]. change (space_sum (c :: cs)) with (CHAIN_SPACE_LEN c + space_sum cs).
  pose proof (space_nonneg c Hc). lia.
Qed.

Lemma realign_ok c : chain_ok c → ch_off c = 0 → chain_ok (set_misalign 0 c).
Proof.
  intros [H1 H2 H3 H4 H5 H6 H7 H8] H0. split; unfold ch_buffer_len in *; cbn in *; try lia; done.
Qed.

Lemma realign_space c : chain_ok c → ch_off c = 0 → CHAIN_SPACE_LEN (set_misalign 0 c) = ch_buffer_len c.
Proof.
  intros Hc H0. rewrite space_ok by by apply realign_ok. unfold ch_buffer_len. cbn. rewrite H0. lia.
Qed.

(** A chain that can take bytes, with what it holds. *)
Definition roomy (c : Chain) : Prop := 0 < ch_off c + CHAIN_SPACE_LEN c.

Lemma data_shorter c o :
  0 <= ch_off c <= o → chain_data c = ztake (ch_off c) (chain_data (set_off o c)).
Proof. intros Ho. unfold chain_data. cbn. rewrite ztake_ztake. f_equal. lia. Qed.

Lemma offs_zero cs cs' :
  (ch_off <$> cs') = (ch_off <$> cs) → Forall (λ c, ch_off c = 0) cs → Forall (λ c, ch_off c = 0) cs'.
Proof.
  revert cs'. induction cs as [|c cs IH]; intros [|c' cs'] E Hz; try done. injection E as E1 E2.
  apply Forall_cons in Hz as [Hc Hz]. apply Forall_cons. split; [congruence|auto].
Qed.

(** ** Reading into chains *)

Lemma setup_vecs_none cs p n so_far how cap : how <= so_far → setup_vecs cs p n so_far how cap = Val [].
Proof. intros Hle. destruct n; [done|]. destruct cs; cbn [setup_vecs]; by destruct (Z.ltb_spec so_far how); [lia|]. Qed.

(** Bytes stored behind the data of a chain, before its size says so. *)
Lemma store_behind c data :
  chain_ok c → Zlen data <= CHAIN_SPACE_LEN c →
  ∃ c1, chain_store (CHAIN_SPACE_PTR c) data c = Val c1 ∧ chain_ok c1 ∧ ch_off c1 = ch_off c ∧
    chain_data c1 = chain_data c ∧ CHAIN_SPACE_LEN c1 = CHAIN_SPACE_LEN c ∧
    chain_ok (set_off (ch_off c + Zlen data) c1) ∧
    chain_data (set_off (ch_off c + Zlen data) c1) = chain_data c ++ data.
Proof.
  intros Hc Hd. destruct (chain_store_end c data Hc) as (c1 & Hst & Ho1 & Hok1 & Hd1).
  { rewrite space_ok in Hd by done. lia. }
  destruct (chain_store_fields _ _ _ _ Hst) as (Hmis & _ & Hfl & Hbl).
  assert (chain_ok c1) as Hc1.
  { destruct Hc as [A1 A2 A3 A4 A5 A6 A7 A8]. split; unfold is_immutable, CHAIN_PINNED, has_flag in *;
      rewrite ?Hmis, ?Ho1, ?Hbl, ?Hfl; done. }
  exists c1. repeat (split; [done|]). split; [|split; [rewrite !space_ok by done; lia|done]].
  pose proof (Zlen_nonneg data). pose proof (ok_off _ Hc).
  rewrite (data_shorter c1 (ch_off c + Zlen data)), Hd1, Ho1 by lia.
  rewrite <- (Zlen_chain_data c Hc). apply ztake_app_exact.
Qed.

(** Bytes read go behind the data of the first chain and on into the empty chains
    after it. *)
Lemma read_into_spec vis rest n p lwd so_far how data :
  Forall chain_ok (vis ++ rest) → Forall roomy vis → Forall (λ c, ch_off c = 0) (tail (vis ++ rest)) →
  (length vis <= n)%nat → so_far <= how → how - so_far <= space_sum vis → Zlen data <= how - so_far →
  ∃ vecs cs1, setup_vecs (vis ++ rest) p n so_far how true = Val vecs ∧ vecs_len vecs = how - so_far ∧
    scatter vecs data (vis ++ rest) = Val cs1 ∧ Forall chain_ok cs1 ∧
    (ch_off <$> cs1) = (ch_off <$> vis ++ rest) ∧ chains_data cs1 = chains_data (vis ++ rest) ∧
    (0 < Zlen data → ∃ full empt, read_commit (length vecs) cs1 p lwd (Zlen data) =
         Val (full ++ empt, p + pred (length full))%nat ∧
       Forall chain_ok (full ++ empt) ∧ Forall (λ c, 0 < ch_off c) full ∧
       Forall (λ c, ch_off c = 0) empt ∧ full ≠ [] ∧
       chains_data (full ++ empt) = chains_data (vis ++ rest) ++ data).
Proof.
  revert n p so_far data. induction vis as [|c vis IH]; intros n p so_far data Hok Hro Hz Hn Hle Hsp Hd;
    pose proof (Zlen_nonneg data).
  { cbn in Hsp. exists [], rest. rewrite setup_vecs_none by lia.
    cbn [vecs_len scatter app]. do 6 (split; [done || lia|]). lia. }
  destruct (Z.ltb_spec so_far how) as [Hlt|Hge].
  2: { exists [], ((c :: vis) ++ rest). rewrite setup_vecs_none by lia.
    cbn [vecs_len scatter app]. do 6 (split; [done || lia|]). lia. }
  destruct n as [|n]; [cbn in Hn; lia|]. cbn [app] in *.
  apply Forall_cons in Hok as [Hc Hok]. apply Forall_cons in Hro as [Hr Hro]. cbn [tail] in Hz.
  pose proof (space_nonneg c Hc) as Hs. change (space_sum (c :: vis)) with (CHAIN_SPACE_LEN c + space_sum vis) in Hsp.
  assert (0 <= space_sum vis) by (apply Forall_app in Hok as [Hok _]; by apply space_sum_nonneg).
  cbn [setup_vecs]. destruct (Z.ltb_spec so_far how); [|lia].
  set (avail := if (CHAIN_SPACE_LEN c >? how - so_far) && true then _ else _).
  assert (avail = Z.min (CHAIN_SPACE_LEN c) (how - so_far)) as Hav.
  { unfold avail. rewrite andb_true_r. destruct (Z.gtb_spec (CHAIN_SPACE_LEN c) (how - so_far)); lia. }
  clearbody avail.
  assert (Zlen (ztake avail data) = Z.min avail (Zlen data)) as Hlt1 by (rewrite Zlen_ztake; lia).
  assert (Zlen (zdrop avail data) = Z.max 0 (Zlen data - avail)) as Hlt2 by (rewrite Zlen_zdrop; lia).
  destruct (IH n (S p) (so_far + avail) (zdrop avail data)) as
    (vecs & cs1 & -> & Hvl & Hsc & Hok1 & Hoffs & Hdata1 & Hcommit); try done; try lia;
    [by apply Forall_tail|cbn in Hn; lia|].
  destruct (store_behind c (ztake avail data) Hc) as (c1 & Hst & Hokc & Ho1 & Hdc & Hsp1 & Hokc1 & Hdc1); [lia|].
  cbn [mbind outcome_bind]. eexists _, (c1 :: cs1). split; [done|]. cbn [vecs_len iov_len].
  split; [lia|]. cbn [scatter iov_at iov_len]. rewrite Hst. cbn [mbind outcome_bind]. rewrite Hsc. split; [done|].
  split; [by apply Forall_cons|]. split; [cbn; by rewrite Ho1, Hoffs|].
  split; [by rewrite !chains_data_cons, Hdc, Hdata1|].
  intros Hpos. cbn [length read_commit]. rewrite Hsp1, Ho1.
  destruct (Z.ltb_spec (CHAIN_SPACE_LEN c) (Zlen data)) as [Hmore|Hfits].
  - assert (avail = CHAIN_SPACE_LEN c) as Eav by lia. rewrite <- Eav in *.
    assert (Zlen data - avail = Zlen (zdrop avail data)) as -> by lia.
    destruct (Hcommit ltac:(lia)) as (full & empt & -> & Hokf & Hpf & Hze & Hne & Hdf).
    assert (Zlen (ztake avail data) = avail) as Hl1 by lia. rewrite Hl1 in *.
    cbn [mbind outcome_bind]. exists (set_off (ch_off c + avail) c1 :: full), empt.
    split; [do 2 f_equal; destruct full; [done|cbn; lia]|].
    split; [by apply Forall_cons|]. split; [apply Forall_cons; split; [unfold roomy in Hr; cbn; lia|done]|].
    split; [done|]. split; [done|]. cbn [app]. rewrite !chains_data_cons, Hdc1, Hdf, (data_empty (vis ++ rest)) by done.
    rewrite app_nil_r, <- app_assoc. f_equal. apply ztake_zdrop.
  - exists [set_off (ch_off c + Zlen data) c1], cs1. assert (ztake avail data = data) as Et by (apply ztake_all; lia).
    rewrite Et in *. split; [cbn; by rewrite Nat.add_0_r|]. split; [by apply Forall_cons|].
    split; [apply Forall_singleton; pose proof (ok_off _ Hc); cbn; lia|].
    split; [by eapply offs_zero|]. split; [done|].
    cbn [app]. rewrite !chains_data_cons, Hdc1, Hdata1, (data_empty (vis ++ rest)) by done.
    by rewrite !app_nil_r.
Qed.

(** ** Making room in several chains *)

Lemma roomy_fresh c : chain_ok c → ch_off c = 0 → roomy (set_misalign 0 c).
Proof.
  intros Hc H0. unfold roomy. rewrite realign_space by done. cbn. pose proof (ok_room _ Hc). pose proof (ok_misalign _ Hc). lia.
Qed.

(** The empty chains behind the first. *)
Lemma fast_rest_spec cs first avail used n datlen :
  Forall chain_ok cs → Forall (λ c, ch_off c = 0) cs → (used < n)%nat →
  ∃ vis rest enough, fast_loop cs first avail used n datlen =
      Val (vis ++ rest, enough, avail + space_sum vis, (used + length vis)%nat) ∧
    Forall chain_ok (vis ++ rest) ∧ Forall (λ c, ch_off c = 0) (vis ++ rest) ∧
    length (vis ++ rest) = length cs ∧ Forall roomy vis ∧ (used + length vis <= n)%nat ∧
    (cs ≠ [] → vis ≠ []) ∧
    if enough : bool then datlen <= avail + space_sum vis
    else (avail + space_sum vis < datlen ∨ cs = []) ∧ (rest = [] ∨ used + length vis = n)%nat.
Proof.
  revert first avail used. induction cs as [|c cs IH]; intros first avail used Hok Hz Hn; cbn [fast_loop].
  { exists [], [], false. cbn [app length space_sum foldr]. rewrite Nat.add_0_r, Z.add_0_r. auto 10 with lia. }
  apply Forall_cons in Hok as [Hc Hok]. apply Forall_cons in Hz as [Hc0 Hz].
  rewrite Hc0. cbn [Z.eqb negb mbind outcome_bind].
  pose proof (realign_ok c Hc Hc0) as Hrc. pose proof (roomy_fresh c Hc Hc0) as Hrr.
  assert (∀ vis, space_sum (set_misalign 0 c :: vis) = ch_buffer_len c + space_sum vis) as Hsum.
  { intros vis. change (space_sum (set_misalign 0 c :: vis)) with
      (CHAIN_SPACE_LEN (set_misalign 0 c) + space_sum vis). by rewrite realign_space. }
  destruct (Z.geb_spec (avail + ch_buffer_len c) datlen) as [Hge|Hlt].
  { exists [set_misalign 0 c], cs, true. rewrite (Hsum []). cbn [app length space_sum foldr].
    rewrite Nat.add_1_r, Z.add_0_r. split; [done|]. split; [by apply Forall_cons|]. split; [by apply Forall_cons|].
    split; [done|]. split; [by apply Forall_singleton|]. split; [lia|]. done. }
  destruct (Nat.eqb_spec (S used) n) as [He|Hne].
  { exists [set_misalign 0 c], cs, false. rewrite (Hsum []). cbn [app length space_sum foldr].
    rewrite Nat.add_1_r, Z.add_0_r. split; [done|]. split; [by apply Forall_cons|]. split; [by apply Forall_cons|].
    split; [done|]. split; [by apply Forall_singleton|]. split; [lia|]. split; [done|]. auto. }
  destruct (IH false (avail + ch_buffer_len c) (S used) Hok Hz ltac:(lia))
    as (vis & rest & enough & -> & H1 & H2 & H3 & H4 & H5 & _ & H6). cbn [mbind outcome_bind].
  exists (set_misalign 0 c :: vis), rest, enough. rewrite Hsum, Z.add_assoc. cbn [length app].
  rewrite Nat.add_succ_r. split; [done|]. split; [by apply Forall_cons|]. split; [by apply Forall_cons|].
  split; [by rewrite H3|]. split; [by apply Forall_cons|]. split; [lia|]. split; [done|].
  destruct enough; [done|]. destruct H6 as [[?|Hnil] H6].
  - split; [by left|]. destruct H6; [by left|right; lia].
  - rewrite Hnil in H3. destruct vis, rest; try done. cbn [space_sum foldr]. rewrite Z.add_0_r. auto.
Qed.

(** Behind the slot of the first free byte there is room for [datlen] bytes in at most
    [n] chains. *)
Definition has_room (n : nat) (datlen : Z) (b : Evb) : Prop :=
  ∃ c vis rest, eb_chains b !! eb_lwd b = Some c ∧ roomy c ∧
    drop (space_slot b) (eb_chains b) = vis ++ rest ∧ Forall roomy vis ∧
    (length vis <= n)%nat ∧ datlen <= space_sum vis.

Lemma shape_offs cs cs' lwd : (ch_off <$> cs') = (ch_off <$> cs) → shape cs lwd → shape cs' lwd.
Proof.
  intros E (full & empt & -> & Hf & He & Hl). rewrite fmap_app in E.
  apply fmap_app_inv in E as (f' & e' & E1 & E2 & ->).
  exists f', e'. split; [done|]. split; [|split; [|]].
  - clear -E1 Hf. revert f' E1. induction full as [|c full IH]; intros [|c' f'] E; try done.
    injection E as E1 E2. apply Forall_cons in Hf as [? ?]. apply Forall_cons. split; [lia|auto].
  - by apply (offs_zero empt).
  - rewrite Hl. f_equal. apply (f_equal length) in E1. by rewrite !length_fmap in E1.
Qed.

(** The whole loop, from the chain [c] that [last_with_datap] leads to. *)
Lemma fast_top_spec c cs n datlen :
  chain_ok c → Forall chain_ok cs → Forall (λ c, ch_off c = 0) cs → (2 <= n)%nat →
  ∃ c' cs' enough vis rest, fast_loop (c :: cs) true 0 0 n datlen =
      Val (c' :: cs', enough, space_sum vis, length vis) ∧
    chain_ok c' ∧ Forall chain_ok cs' ∧ ch_off c' = ch_off c ∧ chain_data c' = chain_data c ∧
    length cs' = length cs ∧ Forall (λ c, ch_off c = 0) cs' ∧ roomy c' ∧
    (if CHAIN_SPACE_LEN c' =? 0 then cs' else c' :: cs') = vis ++ rest ∧ Forall roomy vis ∧
    (length vis <= n)%nat ∧ CHAIN_SPACE_LEN c' <= space_sum vis ∧
    if enough : bool then datlen <= space_sum vis
    else space_sum vis < datlen ∧ (rest = [] ∨ length vis = n).
Proof.
  intros Hc Hok Hz Hn. destruct (Z.eqb_spec (ch_off c) 0) as [H0|H0].
  - destruct (fast_rest_spec (c :: cs) true 0 0 n datlen) as (vis & rest & enough & E & H1 & H2 & H3 & H4 & H5 & H6 & H7);
      [by apply Forall_cons|by apply Forall_cons|lia|].
    rewrite Z.add_0_l in *. rewrite Nat.add_0_l in *. destruct vis as [|c' vis]; [by destruct H6|].
    rewrite E. cbn [app] in *. exists c', (vis ++ rest), enough, (c' :: vis), rest.
    apply Forall_cons in H1 as [Hc' H1]. apply Forall_cons in H2 as [Hc0 H2].
    split; [done|]. split; [done|]. split; [done|]. split; [congruence|].
    split; [by rewrite !chain_data_empty|]. split; [cbn in H3; lia|]. split; [done|].
    pose proof H4 as H4'. apply Forall_cons in H4' as [Hr Hrv]. split; [done|]. unfold roomy in Hr. rewrite Hc0 in Hr.
    destruct (Z.eqb_spec (CHAIN_SPACE_LEN c') 0); [lia|]. split; [done|]. split; [done|]. split; [done|].
    assert (0 <= space_sum vis) by (apply space_sum_nonneg; by apply Forall_app in H1 as [? _]).
    split; [cbn; fold (space_sum vis); lia|]. destruct enough; [done|]. by destruct H7 as [[?|?] ?].
  - cbn [fast_loop]. destruct (Z.eqb_spec (ch_off c) 0); [done|]. cbn [negb].
    pose proof (ok_off _ Hc) as Hoff. pose proof (space_nonneg c Hc) as Hsp.
    assert (roomy c) as Hr by (unfold roomy; lia).
    destruct (Z.eqb_spec (CHAIN_SPACE_LEN c) 0) as [Hs|Hs]; cbn [negb mbind outcome_bind].
    + destruct (Z.geb_spec 0 datlen).
      { exists c, cs, true, [], cs. rewrite Hs. cbn. auto 20 with lia. }
      destruct (Nat.eqb_spec 0 n); [lia|].
      destruct (fast_rest_spec cs false 0 0 n datlen Hok Hz) as (vis & rest & enough & -> & H1 & H2 & H3 & H4 & H5 & H6 & H7); [lia|].
      rewrite Z.add_0_l in *. rewrite Nat.add_0_l in *. cbn [mbind outcome_bind].
      exists c, (vis ++ rest), enough, vis, rest. rewrite Hs. cbn [Z.eqb].
      assert (0 <= space_sum vis) by (apply space_sum_nonneg; by apply Forall_app in H1 as [? _]).
      do 12 (split; [done|]). destruct enough; [done|]. destruct H7 as [[?| ->] ?]; [done|].
      destruct vis, rest; try done.
    + assert (∀ vis, space_sum (c :: vis) = CHAIN_SPACE_LEN c + space_sum vis) as Hsum by done.
      rewrite Z.add_0_l. destruct (Z.geb_spec (CHAIN_SPACE_LEN c) datlen).
      { exists c, cs, true, [c], cs. rewrite Hsum. change (space_sum []) with 0. rewrite Z.add_0_r.
        do 8 (split; [done|]). destruct (Z.eqb_spec (CHAIN_SPACE_LEN c) 0); [done|].
        split; [done|]. split; [by apply Forall_singleton|]. split; [cbn; lia|]. done. }
      destruct (Nat.eqb_spec 1 n); [lia|].
      destruct (fast_rest_spec cs false (CHAIN_SPACE_LEN c) 1 n datlen Hok Hz) as (vis & rest & enough & -> & H1 & H2 & H3 & H4 & H5 & H6 & H7); [lia|].
      cbn [mbind outcome_bind]. exists c, (vis ++ rest), enough, (c :: vis), rest. rewrite Hsum.
      assert (0 <= space_sum vis) by (apply space_sum_nonneg; by apply Forall_app in H1 as [? _]).
      do 8 (split; [done|]). destruct (Z.eqb_spec (CHAIN_SPACE_LEN c) 0); [done|].
      split; [done|]. split; [by apply Forall_cons|]. split; [cbn; lia|]. split; [lia|].
      destruct enough; [done|]. destruct H7 as [[?| ->] H7]; [by destruct H7; auto|].
      destruct vis, rest; try done. cbn. split; [lia|auto].
Qed.

(** The chain [last_with_datap] leads to, and the empty ones behind it. *)
Lemma inv_lwd_split b :
  evb_inv b → eb_chains b ≠ [] →
  ∃ pre c rest, eb_chains b = pre ++ c :: rest ∧ length pre = eb_lwd b ∧
    Forall (λ c, ch_off c = 0) rest ∧ Forall (λ c, 0 < ch_off c) pre ∧ (ch_off c = 0 → pre = []).
Proof.
  intros Hb Hne. destruct (wf_shape _ Hb) as (full & empt & Hcs & Hf & He & Hl).
  destruct full as [|c pre _] using rev_ind.
  - cbn in Hcs, Hl. destruct empt as [|c rest]; [done|]. exists [], c, rest.
    apply Forall_cons in He as [? ?]. rewrite Hl. done.
  - rewrite length_app in Hl. cbn in Hl. rewrite Nat.add_1_r in Hl. cbn in Hl.
    apply Forall_app in Hf as [Hf Hc]. rewrite Forall_singleton in Hc.
    exists pre, c, empt. rewrite <- app_assoc in Hcs. repeat (split; [done|]). lia.
Qed.

(** Replacing the chains from [last_with_datap] on by others with the same data. *)
Lemma replace_tail_spec b pre c rest c' rest' :
  evb_inv b → eb_chains b = pre ++ c :: rest → length pre = eb_lwd b →
  Forall (λ c, 0 < ch_off c) pre → (ch_off c = 0 → pre = []) → Forall (λ c, ch_off c = 0) rest →
  chain_ok c' → Forall chain_ok rest' → ch_off c' = ch_off c → chain_data c' = chain_data c →
  Forall (λ c, ch_off c = 0) rest' →
  let b' := set_chains (pre ++ c' :: rest') (eb_lwd b) (eb_total_len b) b in
  evb_inv b' ∧ bytes b' = bytes b.
Proof.
  intros Hb Hcs Hl Hpre H0 Hz Hc' Hr' Ho Hd Hz' b'.
  assert (chains_data (pre ++ c' :: rest') = bytes b) as Hbs.
  { unfold bytes. rewrite Hcs, !chains_data_app, !chains_data_cons, Hd, (data_empty rest), (data_empty rest') by done. done. }
  split; [|exact Hbs]. apply wf_intro; [| | |apply Hb].
  - pose proof (wf_chains _ Hb) as Hok. rewrite Hcs in Hok. apply Forall_app in Hok as [Hok _].
    apply Forall_app. split; [done|]. by apply Forall_cons.
  - rewrite <- Hl. destruct (decide (ch_off c = 0)) as [E|E].
    + rewrite (H0 E). exists [], (c' :: rest'). split; [done|]. split; [done|].
      split; [apply Forall_cons; split; [congruence|done]|done].
    + exists (pre ++ [c']), rest'. split; [by rewrite <- app_assoc|]. split; [|split; [done|]].
      * apply Forall_app. split; [done|]. apply Forall_singleton.
        pose proof (wf_chains _ Hb) as Hok. rewrite Hcs in Hok. apply Forall_app in Hok as [_ Hok].
        apply Forall_cons in Hok as [Hc _]. pose proof (ok_off _ Hc). lia.
      * rewrite length_app. cbn. lia.
  - by rewrite Hbs, (wf_total _ Hb).
Qed.

Lemma all_empty_true cs : Forall (λ c, ch_off c = 0) cs → Buf.all_empty cs = true.
Proof. intros Hz. unfold Buf.all_empty. induction Hz as [|c cs Hc _ IH]; [done|]. cbn. by rewrite Hc. Qed.

(** An empty buffer whose chains are replaced by one empty chain. *)
Lemma one_empty_spec b t :
  evb_inv b → bytes b = [] → chain_ok t → ch_off t = 0 →
  let b' := set_chains [t] 0 (eb_total_len b) b in evb_inv b' ∧ bytes b' = [].
Proof.
  intros Hb Hbs Ht Ht0 b'. assert (chains_data [t] = []) as Hd by by rewrite chains_data_one, chain_data_empty.
  split; [|exact Hd]. apply wf_intro; [by apply Forall_singleton| | |apply Hb].
  - exists [], [t]. split; [done|]. split; [done|]. split; [by apply Forall_singleton|done].
  - by rewrite (wf_total _ Hb), Hbs, Hd.
Qed.

(** A lone empty chain that can take bytes. *)
Lemma one_chain_room b t n datlen :
  eb_chains b = [t] → eb_lwd b = 0%nat → ch_off t = 0 → roomy t → datlen <= CHAIN_SPACE_LEN t → (1 <= n)%nat →
  has_room n datlen b.
Proof.
  intros Hcs Hl Ht0 Htr Hts Hn. exists t, [t], []. unfold space_slot. rewrite Hcs, Hl. cbn.
  destruct (Z.eqb_spec (CHAIN_SPACE_LEN t) 0); [unfold roomy in Htr; lia|].
  repeat (split; [done || lia|]). split; [by apply Forall_singleton|]. split; lia.
Qed.

Section fast.
Context `{Malloc}.

Lemma drop_slot pre c rest lwd total b :
  length pre = lwd →
  let b' := set_chains (pre ++ c :: rest) lwd total b in
  eb_chains b' !! eb_lwd b' = Some c ∧
  drop (space_slot b') (eb_chains b') = if CHAIN_SPACE_LEN c =? 0 then rest else c :: rest.
Proof.
  intros Hl b'. unfold b', space_slot. cbn [eb_chains eb_lwd set_chains].
  rewrite list_lookup_middle by done. split; [done|]. subst lwd.
  destruct (_ =? 0); [|by rewrite drop_app_length].
  rewrite drop_app_ge by lia. by replace (S (length pre) - length pre)%nat with 1%nat by lia.
Qed.

Lemma new_chain_room n :
  0 <= n → n + EVBUFFER_CHAIN_SIZE <= 2 ^ 62 →
  (evbuffer_chain_new n = Val None ∧ out_of_memory) ∨
  ∃ c, evbuffer_chain_new n = Val (Some c) ∧ chain_ok c ∧ ch_off c = 0 ∧ n <= CHAIN_SPACE_LEN c ∧
    roomy c ∧ ch_misalign c = 0.
Proof.
  intros Hn Hle. destruct (chain_new_spec n Hn Hle) as (len & H1 & H2 & H3 & ->).
  destruct (malloc_ok _) eqn:Em; [right|left; split; [done|by eexists]].
  pose proof (fresh_chain_ok len H2 H3) as Hc. eexists. split; [done|]. split; [done|]. split; [done|].
  unfold roomy. rewrite space_ok by done. unfold ch_buffer_len. cbn [ch_buffer ch_misalign ch_off].
  rewrite Zlen_replicate. split; [lia|]. split; [lia|done].
Qed.

Lemma replace_empty_spec b pre c rest n datlen :
  evb_inv b → eb_chains b = pre ++ c :: rest → length pre = eb_lwd b →
  Forall (λ c, 0 < ch_off c) pre → (ch_off c = 0 → pre = []) → Forall (λ c, ch_off c = 0) rest →
  (2 <= n)%nat → 0 <= datlen - (if ch_off c =? 0 then 0 else CHAIN_SPACE_LEN c) →
  datlen + EVBUFFER_CHAIN_SIZE <= 2 ^ 62 →
  ∃ r b', replace_empty datlen b = Val (r, b') ∧ evb_inv b' ∧ bytes b' = bytes b ∧
    (r = -1 ∧ out_of_memory ∨ r = 0 ∧ has_room n datlen b').
Proof.
  intros Hb Hcs Hl Hpre H0 Hz Hn Hdl Hle. unfold replace_empty.
  assert (chain_ok c) as Hc.
  { pose proof (wf_chains _ Hb) as Hok. rewrite Hcs in Hok. apply Forall_app in Hok as [_ Hok].
    by apply Forall_cons in Hok as [? _]. }
  pose proof (space_nonneg c Hc) as Hsp. pose proof (ok_off _ Hc) as Hoff.
  rewrite Hcs, <- Hl. rewrite list_lookup_middle by done. cbn [or_undef mbind outcome_bind].
  destruct (Z.eqb_spec (ch_off c) 0) as [E|E].
  - rewrite (H0 E) in *. cbn [length Nat.eqb negb andb app drop take].
    assert (Forall (λ c, ch_off c = 0) (c :: rest)) as Hcz by by apply Forall_cons.
    rewrite all_empty_true by done.
    assert (bytes b = []) as Hbs by (unfold bytes; rewrite Hcs; by apply data_empty).
    rewrite Z.sub_0_r in *. destruct (new_chain_room datlen Hdl Hle) as [[-> Hoom]|(t & -> & Ht & Ht0 & Hts & Htr & _)];
      cbn [mbind outcome_bind]; eexists _, _; (split; [done|]).
    + destruct (inv_empty b Hb) as (? & _ & ->). rewrite Hbs. auto.
    + destruct (one_empty_spec b t Hb Hbs Ht Ht0) as [Hi Hbt]. split; [exact Hi|]. split; [by rewrite Hbs|].
      right. split; [done|]. apply (one_chain_room _ t); (done || lia).
  - cbn [andb negb]. replace (S (length pre)) with (length (pre ++ [c])) by (rewrite length_app; cbn; lia).
    replace (pre ++ c :: rest) with ((pre ++ [c]) ++ rest) by by rewrite <- app_assoc.
    rewrite drop_app_length, take_app_length, all_empty_true, Hl by done.
    destruct (replace_tail_spec b pre c rest c [] Hb Hcs Hl Hpre H0 Hz Hc) as [Hi1 Hb1]; try done.
    destruct (new_chain_room (datlen - CHAIN_SPACE_LEN c)) as [[-> Hoom]|(t & -> & Ht & Ht0 & Hts & Htr & _)];
      [lia|lia|..]; cbn [mbind outcome_bind]; eexists _, _; (split; [done|]).
    + split; [exact Hi1|]. split; [exact Hb1|]. auto.
    + rewrite <- app_assoc. cbn [app].
      destruct (replace_tail_spec b pre c rest c [t] Hb Hcs Hl Hpre H0 Hz Hc) as [Hi2 Hb2]; try done;
        [by apply Forall_singleton..|].
      split; [exact Hi2|]. split; [exact Hb2|]. right. split; [done|].
      destruct (drop_slot pre c [t] (eb_lwd b) (eb_total_len b) b Hl) as [Hlk Hdr].
      assert (roomy c) as Hrc by (unfold roomy; lia). exists c, (if CHAIN_SPACE_LEN c =? 0 then [t] else [c; t]), [].
      rewrite app_nil_r. do 3 (split; [done|]).
      destruct (Z.eqb_spec (CHAIN_SPACE_LEN c) 0) as [Es|Es]; (split; [by repeat apply Forall_cons_2|]); cbn; lia.
Qed.

(** Chain [i] is where the next byte goes. *)
Definition at_end (b : Evb) (i : nat) : Prop :=
  i = eb_lwd b ∨ i = S (eb_lwd b) ∧ ∃ c, eb_chains b !! eb_lwd b = Some c ∧ 0 < ch_off c.

Lemma add_total_0 b cs lwd : add_total 0 (set_chains cs lwd (eb_total_len b) b) = set_chains cs lwd (eb_total_len b) b.
Proof. unfold add_total. cbn. by rewrite Z.add_0_r. Qed.

(** A new empty chain behind a chain with data. *)
Lemma insert_behind_data t b pre c rest :
  evb_inv b → chain_ok t → ch_off t = 0 → eb_chains b = pre ++ c :: rest → length pre = eb_lwd b →
  Forall (λ c, ch_off c = 0) rest → 0 < ch_off c →
  Buf.evbuffer_chain_insert t b = Val (set_chains (pre ++ [c; t]) (eb_lwd b) (eb_total_len b) b).
Proof.
  intros Hb Ht Ht0 Hcs Hl Hz Hc. unfold Buf.evbuffer_chain_insert. rewrite Ht0. cbn [Z.eqb negb].
  assert (Forall chain_ok (pre ++ c :: rest)) as Hok by (rewrite <- Hcs; apply Hb).
  apply Forall_app in Hok as [_ Hok]. apply Forall_cons in Hok as [_ Hokr].
  assert (Buf.victim rest = 0%nat) as Hv.
  { destruct rest as [|d rest]; [done|]. cbn. apply Forall_cons in Hz as [Hd _].
    apply Forall_cons in Hokr as [Hokd _]. by rewrite Hd, (ok_unpinned _ Hokd). }
  unfold Buf.victim_index. rewrite Hcs, <- Hl, list_lookup_middle, drop_app_length by done.
  cbn [Buf.victim]. destruct (Z.eqb_spec (ch_off c) 0); [lia|]. cbn [negb orb]. rewrite Hv.
  replace (pre ++ c :: rest) with ((pre ++ [c]) ++ rest) by by rewrite <- app_assoc.
  replace (length pre + 1)%nat with (length (pre ++ [c])) by (rewrite length_app; cbn; lia).
  rewrite drop_app_length, take_app_length, (all_empty_true rest) by done.
  destruct (Nat.eqb_spec (length (pre ++ [c])) (length ((pre ++ [c]) ++ rest))) as [El|El]; cbn [mbind outcome_bind];
    [|by rewrite add_total_0, <- app_assoc].
  rewrite (length_app _ rest) in El. destruct rest; [|cbn in El; lia]. by rewrite add_total_0, app_nil_r, <- app_assoc.
Qed.

(** A new empty chain replaces the ones that follow the data. *)
Lemma insert_empty_spec t b :
  evb_inv b → chain_ok t → ch_off t = 0 →
  ∃ b', Buf.evbuffer_chain_insert t b = Val b' ∧ evb_inv b' ∧ bytes b' = bytes b ∧
    eb_chains b' !! last_index b' = Some t ∧ at_end b' (last_index b') ∧
    (eb_chains b = [] → eb_chains b' = [t] ∧ eb_lwd b' = 0%nat).
Proof.
  intros Hb Ht Ht0.
  destruct (decide (eb_chains b = [])) as [E|E].
  - unfold Buf.evbuffer_chain_insert. rewrite Ht0. cbn [Z.eqb negb].
    assert (bytes b = []) as Hbs by (unfold bytes; by rewrite E).
    destruct (wf_shape _ Hb) as (full & empt & Hcs & _ & _ & Hl). rewrite E in Hcs.
    symmetry in Hcs. apply app_eq_nil in Hcs as [-> ->]. cbn in Hl.
    rewrite E, Hl. cbn -[add_total]. rewrite add_total_0, Hbs.
    destruct (one_empty_spec b t Hb Hbs Ht Ht0) as [Hi Hbt]. eexists. split; [done|]. split; [exact Hi|].
    split; [exact Hbt|]. split; [done|]. split; [by left|done].
  - destruct (inv_lwd_split b Hb E) as (pre & c & rest & Hcs & Hl & Hz & Hpre & H0).
    assert (Forall chain_ok (pre ++ c :: rest)) as Hok by (rewrite <- Hcs; apply Hb).
    apply Forall_app in Hok as [_ Hok]. apply Forall_cons in Hok as [Hc Hokr]. pose proof (ok_off _ Hc) as Hoff.
    destruct (decide (ch_off c = 0)) as [Ec|Ec].
    + unfold Buf.evbuffer_chain_insert, Buf.victim_index.
      rewrite (H0 Ec) in *. rewrite Ht0, Hcs, <- Hl.
      cbn [length lookup list_lookup app drop Buf.victim]. rewrite Ec, (ok_unpinned _ Hc).
      cbn [Z.eqb negb orb Nat.add Nat.eqb length drop take app].
      assert (Forall (λ c, ch_off c = 0) (c :: rest)) as Hcz by by apply Forall_cons.
      rewrite all_empty_true by done. cbn [mbind outcome_bind]. rewrite add_total_0.
      assert (bytes b = []) as Hbs by (unfold bytes; rewrite Hcs; by apply data_empty). rewrite Hbs.
      destruct (one_empty_spec b t Hb Hbs Ht Ht0) as [Hi Hbt]. eexists. split; [done|]. split; [exact Hi|].
      split; [exact Hbt|]. split; [done|]. split; [by left|done].
    + rewrite (insert_behind_data t b pre c rest) by (done || lia).
      destruct (replace_tail_spec b pre c rest c [t] Hb Hcs Hl Hpre H0 Hz Hc) as [Hi2 Hb2]; try done;
        [by apply Forall_singleton..|].
      eexists. split; [done|]. split; [exact Hi2|]. split; [exact Hb2|]. unfold at_end, last_index.
      cbn [eb_chains eb_lwd set_chains]. rewrite length_app, <- Hl. cbn [length].
      replace (pred (length pre + 2)) with (S (length pre)) by lia.
      split; [|split; [|done]].
      * rewrite lookup_app_r by lia. by replace (S (length pre) - length pre)%nat with 1%nat by lia.
      * right. split; [lia|]. exists c. rewrite list_lookup_middle by done. split; [done|lia].
Qed.

Lemma expand_fast_spec datlen n b :
  evb_inv b → (2 <= n)%nat → 0 <= datlen → datlen + EVBUFFER_CHAIN_SIZE <= 2 ^ 62 →
  ∃ r b', _evbuffer_expand_fast datlen n b = Val (r, b') ∧ evb_inv b' ∧ bytes b' = bytes b ∧
    (r = -1 ∧ out_of_memory ∨ r = 0 ∧ has_room n datlen b').
Proof.
  intros Hb Hn Hd Hle. unfold _evbuffer_expand_fast. destruct (Nat.ltb_spec n 2); [lia|].
  destruct (decide (eb_chains b = [])) as [E|E].
  { unfold eb_last. rewrite E. cbn [last]. unfold Buf.evbuffer_chain_insert_new.
    destruct (new_chain_room datlen Hd Hle) as [[-> Hoom]|(t & -> & Ht & Ht0 & Hts & Htr & _)];
      cbn [mbind outcome_bind].
    - exists (-1), b. do 3 (split; [done|]). by left.
    - destruct (insert_empty_spec t b Hb Ht Ht0) as (b' & -> & Hb' & Hbs & _ & _ & Hcs).
      destruct (Hcs E) as [Hcs' Hl']. cbn [mbind outcome_bind]. exists 0, b'. repeat (split; [done|]).
      right. split; [done|]. apply (one_chain_room _ t); (done || lia). }
  destruct (inv_lwd_split b Hb E) as (pre & c & rest & Hcs & Hl & Hz & Hpre & Hc0).
  assert (Forall chain_ok (pre ++ c :: rest)) as Hok by (rewrite <- Hcs; apply Hb).
  assert (∃ l, eb_last b = Some l ∧ chain_ok l) as (l & Hlast & Hokl).
  { unfold eb_last. destruct (last (eb_chains b)) as [l|] eqn:El; [|by apply last_None in El].
    exists l. split; [done|]. apply last_Some_elem_of in El. rewrite Hcs in El. rewrite Forall_forall in Hok. auto. }
  rewrite Hlast, (ok_mutable _ Hokl). cbn [negb].
  apply Forall_app in Hok as [Hokp Hok]. apply Forall_cons in Hok as [Hc Hokr].
  rewrite Hcs, <- Hl, drop_app_length, take_app_length.
  destruct (fast_top_spec c rest n datlen Hc Hokr Hz Hn) as
    (c' & rest' & enough & vis & rst & -> & Hc' & Hr' & Ho & Hdc & Hlen & Hz' & Hrc & Hvis & Hro & Hvn & Hsp & Hen).
  cbn [mbind outcome_bind]. rewrite Hl.
  destruct (replace_tail_spec b pre c rest c' rest' Hb Hcs Hl Hpre Hc0 Hz Hc' Hr' Ho Hdc Hz') as [Hi1 Hb1].
  destruct (drop_slot pre c' rest' (eb_lwd b) (eb_total_len b) b Hl) as [Hlk Hdr].
  set (b1 := set_chains (pre ++ c' :: rest') (eb_lwd b) (eb_total_len b) b) in *.
  destruct enough.
  { exists 0, b1. repeat (split; [done|]). right. split; [done|]. exists c', vis, rst.
    rewrite Hdr. auto 10. }
  destruct Hen as [Hlt Hrest]. destruct (Nat.ltb_spec (length vis) n) as [Hvlt|Hvge].
  - assert (rst = []) as -> by (destruct Hrest; [done|lia]). rewrite app_nil_r in Hvis.
    destruct (new_chain_room (datlen - space_sum vis)) as [[-> Hoom]|(t & -> & Ht & Ht0 & Hts & Htr & _)];
      [lia|unfold EVBUFFER_CHAIN_SIZE in *; pose proof (space_nonneg c' Hc'); lia|..]; cbn [mbind outcome_bind].
    + exists (-1), b1. do 3 (split; [done|]). by left.
    + destruct (replace_tail_spec b pre c rest c' (rest' ++ [t]) Hb Hcs Hl Hpre Hc0 Hz Hc') as [Hi2 Hb2]; try done;
        [apply Forall_app; split; [done|by apply Forall_singleton]..|].
      destruct (drop_slot pre c' (rest' ++ [t]) (eb_lwd b) (eb_total_len b) b Hl) as [Hlk2 Hdr2].
      set (b2 := set_chains (pre ++ c' :: rest' ++ [t]) (eb_lwd b) (eb_total_len b) b) in *.
      exists 0, b2. split.
      { unfold b1, b2. cbn [eb_chains eb_lwd eb_total_len set_chains]. by rewrite <- app_assoc. }
      split; [exact Hi2|]. split; [exact Hb2|]. right. split; [done|]. exists c', (vis ++ [t]), [].
      split; [done|]. split; [done|]. rewrite Hdr2, app_nil_r. split; [destruct (_ =? 0); by rewrite <- Hvis|].
      split; [apply Forall_app; split; [done|by apply Forall_singleton]|].
      split; [rewrite length_app; cbn; lia|]. rewrite space_sum_app. cbn. lia.
  - destruct (replace_empty_spec b1 pre c' rest' n datlen) as (r & b2 & -> & Hi2 & Hb2 & Hr); try done.
    + rewrite Ho. done.
    + clear -Hd Hsp Hlt. destruct (Z.eqb_spec (ch_off c') 0); lia.
    + exists r, b2. split; [done|]. split; [done|]. split; [congruence|done].
Qed.

(** Chains with data in front, then what a read left. *)
Lemma shape_front front full empt :
  Forall (λ c, 0 < ch_off c) front → Forall (λ c, 0 < ch_off c) full → Forall (λ c, ch_off c = 0) empt →
  full ≠ [] → shape (front ++ full ++ empt) (length front + pred (length full)).
Proof.
  intros. exists (front ++ full), empt. rewrite app_assoc. split; [done|].
  split; [by apply Forall_app|]. split; [done|]. rewrite length_app. destruct full; [done|cbn; lia].
Qed.

(** Before the slot of the first free byte there are only chains with data, behind
    its chain only empty ones. *)
Lemma slot_split b c vis rest :
  evb_inv b → eb_chains b !! eb_lwd b = Some c → roomy c →
  drop (space_slot b) (eb_chains b) = vis ++ rest →
  Forall (λ c, 0 < ch_off c) (take (space_slot b) (eb_chains b)) ∧
  Forall (λ c, ch_off c = 0) (tail (vis ++ rest)) ∧
  length (take (space_slot b) (eb_chains b)) = space_slot b.
Proof.
  intros Hb Hlk Hr <-. assert (eb_chains b ≠ []) as Hne by (intros E; by rewrite E in Hlk).
  destruct (inv_lwd_split b Hb Hne) as (pre & c' & rest0 & Hcs & Hl & Hz & Hpre & Hc0).
  pose proof (wf_chains _ Hb) as Hok. unfold space_slot. rewrite Hlk. rewrite Hcs, <- Hl in *.
  rewrite list_lookup_middle in Hlk by done. injection Hlk as ->.
  apply Forall_app in Hok as [_ Hok]. apply Forall_cons in Hok as [Hokc _].
  destruct (Z.eqb_spec (CHAIN_SPACE_LEN c) 0) as [E|E].
  - replace (S (length pre)) with (length (pre ++ [c])) by (rewrite length_app; cbn; lia).
    replace (pre ++ c :: rest0) with ((pre ++ [c]) ++ rest0) by by rewrite <- app_assoc.
    rewrite take_app_length, drop_app_length. split; [|split; [by apply Forall_tail|done]].
    apply Forall_app. split; [done|]. apply Forall_singleton. unfold roomy in Hr. lia.
  - rewrite take_app_length, drop_app_length. done.
Qed.

Definition read_size (readable howmuch : Z) : Z :=
  let n := if (readable <=? 0) || (readable >? EVBUFFER_MAX_READ) then EVBUFFER_MAX_READ else readable in
  if (howmuch <? 0) || (howmuch >? n) then n else howmuch.

Lemma read_size_range readable howmuch : 0 <= read_size readable howmuch <= 4096.
Proof.
  unfold read_size, EVBUFFER_MAX_READ. cbv zeta.
  destruct (Z.leb_spec readable 0), (Z.gtb_spec readable 4096); cbn [orb];
    match goal with |- context [howmuch >? ?n] => destruct (Z.gtb_spec howmuch n) end;
    destruct (Z.ltb_spec howmuch 0); cbn [orb]; lia.
Qed.

(** A read appends what the descriptor had to give, up to the size asked for. *)
Lemma evbuffer_read_spec readable rd howmuch b :
  evb_inv b →
  let m := read_size readable howmuch in
  ∃ r b', evbuffer_read readable rd howmuch b = Val (r, b') ∧ evb_inv b' ∧
    (r = -1 ∧ bytes b' = bytes b ∧ (rd = None ∨ out_of_memory) ∨
     ∃ data, rd = Some data ∧ r = Zlen (ztake m data) ∧ bytes b' = bytes b ++ ztake m data).
Proof.
  intros Hb m. unfold evbuffer_read. rewrite (proj2 (wf_thawed _ Hb)).
  pose proof (read_size_range readable howmuch) as Hm. fold m in Hm. change (if _ || _ then _ else howmuch) with m.
  destruct (expand_fast_spec m NUM_READ_IOVEC b Hb) as (r & b1 & -> & Hb1 & Hbs1 & [[-> Hoom]|[-> Hroom]]);
    [unfold NUM_READ_IOVEC; lia|lia|unfold EVBUFFER_CHAIN_SIZE; lia|..]; cbn [mbind outcome_bind Z.eqb].
  { exists (-1), b1. split; [done|]. split; [done|]. auto. }
  destruct Hroom as (c & vis & rest & Hlk & Hrc & Hdr & Hro & Hvn & Hsp).
  destruct (slot_split b1 c vis rest Hb1 Hlk Hrc Hdr) as (Hfront & Htail & Hlen).
  assert (Forall chain_ok (vis ++ rest) ∧ Forall chain_ok (take (space_slot b1) (eb_chains b1))) as [Hokv Hokt].
  { rewrite <- Hdr. split; [apply Forall_drop, Hb1|apply Forall_take, Hb1]. }
  assert (chains_data (take (space_slot b1) (eb_chains b1)) ++ chains_data (vis ++ rest) = bytes b1) as Hsplit.
  { rewrite <- Hdr. apply chains_data_take_drop. }
  set (data := match rd with Some d => ztake m d | None => [] end).
  assert (Zlen data <= m - 0) as Hdl.
  { unfold data. destruct rd; [rewrite Zlen_ztake; lia|]. change (Zlen []) with 0. lia. }
  destruct (read_into_spec vis rest NUM_READ_IOVEC (space_slot b1) (eb_lwd b1) 0 m data)
    as (vecs & cs1 & Hsv & Hvl & Hsc & Hok1 & Hoffs & Hdata1 & Hcommit); try done; [lia|lia|].
  unfold _evbuffer_read_setup_vecs. destruct (Z.ltb_spec m 0); [lia|].
  rewrite Hlk. cbn [or_undef mbind outcome_bind].
  assert ((if CHAIN_SPACE_LEN c =? 0 then S (eb_lwd b1) else eb_lwd b1) = space_slot b1) as ->.
  { unfold space_slot. by rewrite Hlk. }
  rewrite Hdr, Hsv. cbn [mbind outcome_bind or_undef].
  destruct rd as [d|]; [|exists (-1), b1; split; [done|]; split; [done|]; left; rewrite Hbs1; auto].
  rewrite Hvl, Z.sub_0_r. change (ztake m d) with data. rewrite Hdr, Hsc. cbn [mbind outcome_bind].
  destruct (Z.eqb_spec (Zlen data) 0) as [E|E].
  - exists 0. eexists. split; [done|]. apply Zlen_0_inv in E.
    assert (chains_data (take (space_slot b1) (eb_chains b1) ++ cs1) = bytes b1) as Hall.
    { by rewrite chains_data_app, Hdata1. }
    split.
    + apply wf_intro; [by apply Forall_app| |by rewrite Hall, (wf_total _ Hb1)|apply Hb1].
      apply (shape_offs (eb_chains b1)); [|apply Hb1].
      by rewrite fmap_app, Hoffs, <- fmap_app, <- Hdr, take_drop.
    + right. exists d. change (ztake m d) with data. rewrite E. split; [done|]. split; [done|].
      rewrite app_nil_r, <- Hbs1. exact Hall.
  - destruct Hcommit as (full & empt & -> & Hokf & Hpf & Hze & Hne & Hdf);
      [pose proof (Zlen_nonneg data); lia|]. cbn [mbind outcome_bind].
    eexists _, _. split; [done|].
    assert (chains_data (take (space_slot b1) (eb_chains b1) ++ full ++ empt) = bytes b ++ data) as Hall.
    { by rewrite chains_data_app, Hdf, app_assoc, Hsplit, Hbs1. }
    split.
    + rewrite same_invoke. unfold count_added. rewrite same_counts. unfold add_total.
      cbn [eb_chains eb_lwd eb_total_len set_chains]. apply wf_intro; [by apply Forall_app| | |apply Hb1].
      * rewrite <- Hlen at 2. by apply shape_front.
      * by rewrite Hall, Zlen_app, (wf_total _ Hb1), Hbs1.
    + right. exists d. change (ztake m d) with data. split; [done|]. split; [done|]. rewrite same_invoke. exact Hall.
Qed.
End fast.

(** ** Writing *)

Lemma gather_spec cs i h :
  Forall chain_ok cs → 0 <= h <= Zlen (chains_data cs) →
  ∃ k, gather cs i h = Val (ztake h (chains_data (take i cs)), k) ∧
    (k = 0%nat → ztake h (chains_data (take i cs)) = []).
Proof.
  revert i h. induction cs as [|c cs IH]; intros i h Hok Hh.
  { exists 0%nat. change (Zlen (chains_data [])) with 0 in Hh. rewrite take_nil.
    assert (h = 0) as -> by lia. split; [by destruct i|]. intros _. by apply ztake_0. }
  destruct i as [|i].
  { exists 0%nat. cbn [take]. assert (ztake h (chains_data []) = []) as -> by (unfold ztake; apply take_nil). done. }
  apply Forall_cons in Hok as [Hc Hok]. rewrite Zlen_chains_data_cons in Hh by done.
  cbn [gather take]. destruct (Z.eqb_spec h 0) as [->|Hne].
  { exists 0%nat. rewrite ztake_0 by lia. done. }
  rewrite (ok_memory _ Hc), chains_data_cons. pose proof (Zlen_chain_data c Hc).
  destruct (Z.geb_spec h (ch_off c)).
  - rewrite chain_load_all by done. cbn [mbind outcome_bind].
    destruct (IH i (h - ch_off c) Hok ltac:(lia)) as (k & -> & _). cbn [mbind outcome_bind].
    exists (S k). split; [|done]. rewrite ztake_app_r by lia. by rewrite H.
  - rewrite chain_load_data by (done || lia). cbn [mbind outcome_bind]. exists 1%nat. split; [|done].
    by rewrite ztake_app_l by lia.
Qed.

Section writing.
Context `{Malloc}.

Definition write_size (howmuch : Z) (b : Evb) : Z :=
  if (howmuch <? 0) || (howmuch >? eb_total_len b) then eb_total_len b else howmuch.

(** What a write offers to the kernel: bytes of the first 128 chains. *)
Definition offered (howmuch : Z) (b : Evb) : list byte :=
  ztake (write_size howmuch b) (chains_data (take NUM_WRITE_IOVEC (eb_chains b))).

Lemma offered_prefix howmuch b n :
  0 <= n <= Zlen (offered howmuch b) → ztake n (offered howmuch b) = ztake n (bytes b).
Proof.
  intros Hn. destruct (decide (n = 0)) as [->|Hne]; [by rewrite !ztake_0|].
  unfold offered, bytes in *. rewrite <- (chains_data_take_drop NUM_WRITE_IOVEC (eb_chains b)).
  set (d := chains_data (take NUM_WRITE_IOVEC (eb_chains b))) in *. rewrite Zlen_ztake in Hn.
  rewrite ztake_app_l, ztake_ztake by lia. f_equal. lia.
Qed.

Lemma write_atmost_spec wr sf howmuch b :
  evb_inv b → (∀ data, -1 <= wr data <= Zlen data) →
  ∃ n b', evbuffer_write_atmost wr sf howmuch b = Val (n, ztake n (bytes b), b') ∧ evb_inv b' ∧ (writable b → writable b') ∧
    n = (if write_size howmuch b >? 0 then
           match offered howmuch b with [] => n | data => wr data end else -1) ∧
    n <= Zlen (offered howmuch b) ∧
    bytes b' = zdrop (Z.max 0 n) (bytes b).
Proof.
  intros Hb Hwr. unfold evbuffer_write_atmost. rewrite (proj1 (wf_thawed _ Hb)). cbv zeta.
  change (if _ || _ then eb_total_len b else howmuch) with (write_size howmuch b).
  pose proof (wf_total _ Hb) as Ht. pose proof (Zlen_nonneg (bytes b)).
  assert (write_size howmuch b <= eb_total_len b ∧ 0 <= write_size howmuch b) as [Hw1 Hw2].
  { unfold write_size. destruct (Z.ltb_spec howmuch 0), (Z.gtb_spec howmuch (eb_total_len b)); cbn [orb]; lia. }
  destruct (gather_spec (eb_chains b) NUM_WRITE_IOVEC (write_size howmuch b) (wf_chains _ Hb)) as (k & Hg & Hk).
  { unfold bytes in *. lia. }
  fold (offered howmuch b) in Hg, Hk.
  assert (evbuffer_write_iovec wr (write_size howmuch b) b =
          Val (if (k =? 0)%nat then (0, []) else (wr (offered howmuch b), ztake (wr (offered howmuch b)) (offered howmuch b)))) as Hiov.
  { unfold evbuffer_write_iovec. destruct (Z.ltb_spec (write_size howmuch b) 0); [lia|]. by rewrite Hg. }
  set (n := if write_size howmuch b >? 0 then (if (k =? 0)%nat then 0 else wr (offered howmuch b)) else -1).
  specialize (Hwr (offered howmuch b)).
  match goal with |- context [mbind ?f ?m] => assert (m = Val (n, ztake n (bytes b))) as -> end.
  { unfold n. destruct (write_size howmuch b >? 0); [|by rewrite ztake_0 by lia].
    transitivity (evbuffer_write_iovec wr (write_size howmuch b) b).
    - destruct (eb_chains b) as [|c cs] eqn:Hcs; [done|]. pose proof (wf_chains _ Hb) as Hok. rewrite Hcs in Hok.
      apply Forall_cons in Hok as [Hc _]. by rewrite (ok_memory _ Hc).
    - rewrite Hiov. destruct (k =? 0)%nat; [by rewrite ztake_0 by lia|].
      destruct (decide (0 <= wr (offered howmuch b))); [by rewrite offered_prefix by lia|by rewrite !ztake_0 by lia]. }
  cbn [mbind outcome_bind]. pose proof (Zlen_nonneg (offered howmuch b)).
  assert (n <= Zlen (offered howmuch b)) as Hn.
  { unfold n. destruct (_ >? 0); [|lia]. destruct (k =? 0)%nat; lia. }
  assert (n = (if write_size howmuch b >? 0 then
           match offered howmuch b with [] => n | data => wr data end else -1)) as Hn'.
  { unfold n. destruct (write_size howmuch b >? 0); [|done].
    destruct (Nat.eqb_spec k 0) as [->|]; [by rewrite (Hk eq_refl)|]. by destruct (offered howmuch b). }
  destruct (Z.gtb_spec n 0) as [Hpos|Hneg].
  - destruct (evbuffer_drain_spec n b Hb ltac:(lia)) as (b' & -> & Hb' & Hwb & Hbs).
    cbn [mbind outcome_bind]. exists n, b'. rewrite Z.max_r by lia. auto 10.
  - exists n, b. rewrite Z.max_l, zdrop_0 by lia. auto 10.
Qed.
End writing.

(** ** Making room in one chain *)

Section single.
Context `{Malloc}.

Lemma expanded_ok i n b c :
  eb_chains b !! i = Some c → n <= CHAIN_SPACE_LEN c → expanded i n b = Val (Some i, b).
Proof.
  intros Hi Hn. unfold expanded. rewrite Hi. cbn [or_undef mbind outcome_bind].
  by destruct (Z.geb_spec (CHAIN_SPACE_LEN c) n); [|lia].
Qed.

(** Chain [i] of [b'] has room for [n] bytes at the end of the data of [b]. *)
Definition room_at (n : Z) (b : Evb) (i : nat) (b' : Evb) : Prop :=
  evb_inv b' ∧ bytes b' = bytes b ∧ at_end b' i ∧ (writable b → i = last_index b') ∧
  ∃ c, eb_chains b' !! i = Some c ∧ n <= CHAIN_SPACE_LEN c.

Lemma expand_new_spec n b :
  evb_inv b → 0 <= n → n + EVBUFFER_CHAIN_SIZE <= 2 ^ 62 →
  (expand_new n b = Val (None, b) ∧ out_of_memory) ∨
  ∃ i b', expand_new n b = Val (Some i, b') ∧ room_at n b i b'.
Proof.
  intros Hb Hn Hle. unfold expand_new, Buf.evbuffer_chain_insert_new.
  destruct (new_chain_room n Hn Hle) as [[-> Hoom]|(t & -> & Ht & Ht0 & Hts & _ & _)];
    cbn [mbind outcome_bind]; [by left|right].
  destruct (insert_empty_spec t b Hb Ht Ht0) as (b' & -> & Hb' & Hbs & Hlk & Hend & _).
  cbn [mbind outcome_bind]. exists (last_index b'), b'. split; [by eapply expanded_ok|].
  repeat (split; [done|]). by exists t.
Qed.

(** A chain with the same data in place of the one [last_with_datap] leads to. *)
Lemma put_lwd_spec b pre c rest c' :
  evb_inv b → eb_chains b = pre ++ c :: rest → length pre = eb_lwd b →
  Forall (λ c, 0 < ch_off c) pre → (ch_off c = 0 → pre = []) → Forall (λ c, ch_off c = 0) rest →
  chain_ok c' → ch_off c' = ch_off c → chain_data c' = chain_data c →
  let b' := put_chain (eb_lwd b) c' b in
  evb_inv b' ∧ bytes b' = bytes b ∧ eb_lwd b' = eb_lwd b ∧ eb_chains b' !! eb_lwd b = Some c'.
Proof.
  intros Hb Hcs Hl Hpre H0 Hz Hc' Ho Hd b'.
  assert (Forall chain_ok rest) as Hr.
  { pose proof (wf_chains _ Hb) as Hok. rewrite Hcs in Hok. apply Forall_app in Hok as [_ Hok].
    by apply Forall_cons in Hok as [_ ?]. }
  destruct (replace_tail_spec b pre c rest c' rest Hb Hcs Hl Hpre H0 Hz Hc' Hr Ho Hd Hz) as [H1 H2].
  assert (<[eb_lwd b := c']> (eb_chains b) = pre ++ c' :: rest) as E.
  { rewrite Hcs, <- Hl. by rewrite insert_app_r_alt, Nat.sub_diag by lia. }
  unfold b', put_chain. rewrite E. split; [exact H1|]. split; [exact H2|]. split; [done|].
  cbn [eb_chains set_chains]. by apply list_lookup_middle.
Qed.

Lemma behind_lwd b d : eb_chains b !! S (eb_lwd b) = Some d → writable b → S (eb_lwd b) = last_index b.
Proof. intros Hd. apply lookup_lt_Some in Hd. unfold writable, last_index. lia. Qed.

(** The empty chain behind the data, when it has the room. *)
Lemma room_behind n b c d :
  evb_inv b → eb_chains b !! eb_lwd b = Some c → 0 < ch_off c → eb_chains b !! S (eb_lwd b) = Some d →
  n <= CHAIN_SPACE_LEN d →
  ∃ i b', expanded (S (eb_lwd b)) n b = Val (Some i, b') ∧ room_at n b i b'.
Proof.
  intros Hb Hlk Hc Hd Hn. exists (S (eb_lwd b)), b. split; [by eapply expanded_ok|].
  split; [done|]. split; [done|]. split; [right; eauto|]. split; [exact (behind_lwd b d Hd)|eauto].
Qed.

(** The last chain with data, replaced by one with the same data and the room. *)
Lemma room_replaced n b pre c rest c' :
  evb_inv b → eb_chains b = pre ++ c :: rest → length pre = eb_lwd b →
  Forall (λ c, 0 < ch_off c) pre → (ch_off c = 0 → pre = []) → Forall (λ c, ch_off c = 0) rest →
  chain_ok c' → ch_off c' = ch_off c → chain_data c' = chain_data c → n <= CHAIN_SPACE_LEN c' →
  ∃ i b', expanded (eb_lwd b) n (put_chain (eb_lwd b) c' b) = Val (Some i, b') ∧ room_at n b i b'.
Proof.
  intros Hb Hcs Hl Hpre Hc0 Hz Hc' Ho Hd Hn.
  destruct (put_lwd_spec b pre c rest c' Hb Hcs Hl Hpre Hc0 Hz Hc' Ho Hd) as (Hp1 & Hp2 & Hp3 & Hp4).
  exists (eb_lwd b), (put_chain (eb_lwd b) c' b). split; [by eapply expanded_ok|].
  split; [done|]. split; [done|]. split; [left; by rewrite Hp3|split; [|eauto]].
  unfold writable, last_index, put_chain. cbn. by rewrite length_insert.
Qed.

(** The data of a chain copied to the front of a new one. *)
Lemma chain_copied c t n :
  chain_ok c → chain_ok t → ch_off t = 0 → ch_misalign t = 0 → ch_off c + n <= CHAIN_SPACE_LEN t → 0 <= n →
  ∃ t', chain_store 0 (chain_data c) (set_off (ch_off c) t) = Val (set_off (ch_off c) t') ∧
    chain_ok (set_off (ch_off c) t') ∧ chain_data (set_off (ch_off c) t') = chain_data c ∧
    n <= CHAIN_SPACE_LEN (set_off (ch_off c) t').
Proof.
  intros Hc Ht Ht0 Htm Hts Hn. rewrite space_ok in Hts by done. rewrite Ht0, Htm in Hts.
  destruct (chain_store_end t (chain_data c) Ht) as (t' & Hst & Ho & Hokt & Hdt).
  { rewrite Htm, Ht0, Zlen_chain_data by done. lia. }
  rewrite Htm, Ht0 in Hst. change (0 + 0) with 0 in Hst. rewrite Zlen_chain_data, Ht0 in Hokt, Hdt by done.
  rewrite Z.add_0_l in Hokt, Hdt. rewrite (chain_data_empty t) in Hdt by done. cbn [app] in Hdt.
  destruct (chain_store_fields _ _ _ _ Hst) as (Hm' & _ & _ & Hbl).
  exists t'. split; [by apply chain_store_set_off|]. split; [done|]. split; [done|].
  rewrite space_ok by done. unfold ch_buffer_len in *. cbn. lia.
Qed.

Lemma expand_singlechain_spec n b :
  evb_inv b → 0 <= n → n + MAX_TO_COPY_IN_EXPAND + EVBUFFER_CHAIN_SIZE <= 2 ^ 62 →
  (evbuffer_expand_singlechain n b = Val (None, b) ∧ out_of_memory) ∨
  ∃ i b', evbuffer_expand_singlechain n b = Val (Some i, b') ∧ room_at n b i b'.
Proof.
  intros Hb Hn Hle. unfold evbuffer_expand_singlechain.
  pose proof (expand_new_spec n b Hb Hn ltac:(unfold MAX_TO_COPY_IN_EXPAND, EVBUFFER_CHAIN_SIZE in *; lia)) as Hnew.
  destruct (decide (eb_chains b = [])) as [E|E].
  { rewrite E. by rewrite lookup_nil. }
  destruct (inv_lwd_split b Hb E) as (pre & c & rest & Hcs & Hl & Hz & Hpre & Hc0).
  assert (Forall chain_ok (pre ++ c :: rest)) as Hok by (rewrite <- Hcs; apply Hb).
  apply Forall_app in Hok as [_ Hok]. apply Forall_cons in Hok as [Hc Hokr].
  assert (eb_chains b !! eb_lwd b = Some c) as Hlk by (rewrite Hcs; by apply list_lookup_middle).
  assert (eb_chains b !! S (eb_lwd b) = head rest) as Hlk1.
  { rewrite Hcs, <- Hl, lookup_app_r by lia.
    replace (S (length pre) - length pre)%nat with 1%nat by lia. by destruct rest. }
  unfold space_slot. rewrite Hlk. cbv zeta. pose proof (space_nonneg c Hc) as Hsp. pose proof (ok_off _ Hc) as Hoff.
  destruct (Z.eqb_spec (CHAIN_SPACE_LEN c) 0) as [Es|Es].
  - rewrite Hlk1. destruct rest as [|d rest]; cbn [head]; [done|].
    apply Forall_cons in Hokr as [Hd _]. apply Forall_cons in Hz as [Hd0 _].
    rewrite (ok_mutable _ Hd), (ok_unpinned _ Hd), Hd0. cbn [orb Z.eqb].
    destruct (Z.geb_spec (CHAIN_SPACE_LEN d) n); [|done].
    right. apply (room_behind n b c d); try done. rewrite space_ok in Es by done. pose proof (ok_room _ Hc). lia.
  - rewrite Hlk, (ok_mutable _ Hc), (ok_unpinned _ Hc). cbn [orb].
    destruct (Z.geb_spec (CHAIN_SPACE_LEN c) n).
    { right. exists (eb_lwd b), b. split; [eapply expanded_ok; [exact Hlk|lia]|].
      split; [done|]. split; [done|]. split; [by left|split; [done|exists c; split; [done|lia]]]. }
    destruct (Z.eqb_spec (ch_off c) 0); [done|].
    destruct (evbuffer_chain_should_realign c n) eqn:Ere.
    { unfold evbuffer_chain_should_realign in Ere. rewrite !andb_true_iff in Ere.
      destruct Ere as [[Ere%Z.geb_le _] _].
      destruct (chain_align_spec c Hc) as (c' & -> & Hc' & Hd & Ho & Hm & Hbl). cbn [mbind outcome_bind].
      right. apply (room_replaced n b pre c rest c'); try done. rewrite space_ok by done. lia. }
    destruct (_ || _) eqn:Ew.
    { rewrite Hlk1. destruct rest as [|d rest]; cbn [head] in *; [done|].
      destruct (Z.geb_spec (CHAIN_SPACE_LEN d) n); [|done]. right. apply (room_behind n b c d); (done || lia). }
    apply orb_false_iff in Ew as [_ Ew]. destruct (Z.gtb_spec (ch_off c) MAX_TO_COPY_IN_EXPAND); [done|].
    destruct (new_chain_room (ch_off c + n)) as [[-> Hoom]|(t & -> & Ht & Ht0 & Hts & _ & Htm)];
      [lia|lia|by left|]. cbn [mbind outcome_bind].
    rewrite chain_load_all by done. cbn [mbind outcome_bind].
    destruct (chain_copied c t n Hc Ht Ht0 Htm Hts Hn) as (t' & -> & Ht' & Hdt & Hsp'). cbn [mbind outcome_bind].
    right. by apply (room_replaced n b pre c rest).
Qed.
End single.

(** ** Appending at a chain with room *)

Definition advanced (cs : list Chain) (lwd : nat) : nat :=
  match cs !! lwd with None => lwd | Some _ => lwd + Buf.data_run (drop (S lwd) cs) end.

Lemma advance_eq b :
  Buf.advance_last_with_data b =
    set_chains (eb_chains b) (advanced (eb_chains b) (eb_lwd b)) (eb_total_len b) b.
Proof. unfold Buf.advance_last_with_data, advanced. destruct (_ !! _); [done|]. by destruct b. Qed.

Lemma data_run_empty cs : Forall (λ c, ch_off c = 0) cs → Buf.data_run cs = 0%nat.
Proof. intros Hz. destruct Hz as [|c cs Hc _]; [done|]. cbn. by rewrite Hc. Qed.

Lemma append_at b i c c' data :
  evb_inv b → at_end b i → eb_chains b !! i = Some c → chain_ok c' →
  chain_data c' = chain_data c ++ data → ch_off c' = ch_off c + Zlen data →
  let cs := <[i := c']> (eb_chains b) in
  Forall chain_ok cs ∧ shape cs (advanced cs (eb_lwd b)) ∧ chains_data cs = bytes b ++ data.
Proof.
  intros Hb Hend Hi Hc' Hd Ho cs. pose proof (Zlen_nonneg data) as Hdl.
  assert (eb_chains b ≠ []) as Hne by (intros E; by rewrite E in Hi).
  destruct (inv_lwd_split b Hb Hne) as (pre & c0 & rest & Hcs & Hl & Hz & Hpre & Hc0).
  pose proof (wf_chains _ Hb) as Hok. unfold cs, bytes. split; [by apply Forall_insert|].
  rewrite Hcs in *. apply Forall_app in Hok as [_ Hok]. apply Forall_cons in Hok as [Hokc0 Hokr].
  destruct Hend as [->|[-> (d & Hlk & Hd0)]].
  - rewrite <- Hl in *. rewrite list_lookup_middle in Hi by done. injection Hi as ->.
    rewrite insert_app_r_alt, Nat.sub_diag by lia. cbn [insert list_insert]. unfold advanced.
    rewrite list_lookup_middle by done. rewrite drop_app_ge by lia.
    replace (S (length pre) - length pre)%nat with 1%nat by lia. cbn [drop].
    rewrite data_run_empty, Nat.add_0_r by done.
    rewrite !chains_data_app, !chains_data_cons, Hd, (data_empty rest) by done. rewrite !app_nil_r, app_assoc.
    split; [|done]. destruct (decide (ch_off c' = 0)) as [E|E].
    + pose proof (ok_off _ Hokc0). rewrite Hc0 by lia. exists [], (c' :: rest). split; [done|].
      split; [done|]. split; [by apply Forall_cons|done].
    + exists (pre ++ [c']), rest. split; [by rewrite <- app_assoc|]. split; [|split; [done|]].
      * apply Forall_app. split; [done|]. apply Forall_singleton. pose proof (ok_off _ Hc'). lia.
      * rewrite length_app. cbn. lia.
  - rewrite Hcs in Hlk. rewrite <- Hl in *. rewrite list_lookup_middle in Hlk by done. injection Hlk as ->.
    rewrite lookup_app_r in Hi by lia. rewrite insert_app_r_alt by lia.
    replace (S (length pre) - length pre)%nat with 1%nat in * by lia. destruct rest as [|c1 rest]; [done|].
    injection Hi as ->. cbn [insert list_insert]. unfold advanced. rewrite list_lookup_middle by done.
    rewrite drop_app_ge by lia. replace (S (length pre) - length pre)%nat with 1%nat by lia. cbn [drop].
    apply Forall_cons in Hz as [Hcz Hz]. cbn [Buf.data_run].
    rewrite !chains_data_app, !chains_data_cons, Hd, (data_empty rest), (chain_data_empty c) by done.
    rewrite !app_nil_r. cbn [app]. split; [|by rewrite <- !app_assoc].
    destruct (Z.eqb_spec (ch_off c') 0) as [E|E]; cbn [negb].
    + exists (pre ++ [d]), (c' :: rest). split; [by rewrite <- app_assoc|]. split; [|split; [by apply Forall_cons|]].
      * apply Forall_app. split; [done|]. by apply Forall_singleton.
      * rewrite length_app. cbn. lia.
    + rewrite data_run_empty by done. exists (pre ++ [d; c']), rest. split; [by rewrite <- app_assoc|].
      split; [|split; [done|]].
      * apply Forall_app. split; [done|]. apply Forall_cons. split; [done|]. apply Forall_singleton.
        pose proof (ok_off _ Hc'). lia.
      * rewrite length_app. cbn. lia.
Qed.

(** Storing [data] in the free space of a chain at the end. *)
Lemma store_at_end c data :
  chain_ok c → Zlen data <= CHAIN_SPACE_LEN c →
  ∃ c', chain_store (CHAIN_SPACE_PTR c) data c = Val c' ∧ chain_ok c' ∧ ch_off c' = ch_off c ∧
    chain_data c' = chain_data c ∧ CHAIN_SPACE_LEN c' = CHAIN_SPACE_LEN c ∧
    ∀ n, 0 <= n <= Zlen data → chain_ok (set_off (ch_off c + n) c') ∧
      chain_data (set_off (ch_off c + n) c') = chain_data c ++ ztake n data.
Proof.
  intros Hc Hs. rewrite space_ok in Hs by done. pose proof (ok_off _ Hc) as Hoff.
  destruct (chain_store_end c data Hc ltac:(lia)) as (c' & Hst & Ho & Hok & Hd).
  destruct (chain_store_fields _ _ _ _ Hst) as (Hm & _ & Hf & Hbl).
  assert (∀ n, 0 <= n <= Zlen data → chain_ok (set_off (ch_off c + n) c') ∧
      chain_data (set_off (ch_off c + n) c') = chain_data c ++ ztake n data) as Hall.
  { intros n Hn. split.
    - destruct Hok as [A1 A2 A3 A4 A5 A6 A7 A8]. unfold ch_buffer_len in *. cbn in *.
      split; unfold ch_buffer_len; cbn; try lia; done.
    - rewrite (data_shorter _ (ch_off c + Zlen data)); [|cbn; lia].
      change (set_off (ch_off c + Zlen data) (set_off (ch_off c + n) c')) with (set_off (ch_off c + Zlen data) c').
      rewrite Hd. cbn [ch_off set_off]. rewrite <- (Zlen_chain_data c Hc), ztake_app_r by lia. do 2 f_equal. lia. }
  exists c'. split; [done|]. destruct (Hall 0) as [H0 H1]; [pose proof (Zlen_nonneg data); lia|].
  rewrite Z.add_0_r, <- Ho in H0, H1. assert (set_off (ch_off c') c' = c') as E by by destruct c'.
  rewrite E in H0, H1. rewrite ztake_0, app_nil_r in H1 by lia.
  split; [done|]. split; [done|]. split; [done|]. split; [|done].
  rewrite !space_ok by done. lia.
Qed.

(** ** Formatted output *)

Section printing.
Context `{Malloc}.

(** Storing into the free space of a chain changes no data. *)
Lemma store_in_space b i c data :
  evb_inv b → at_end b i → eb_chains b !! i = Some c → Zlen data <= CHAIN_SPACE_LEN c →
  ∃ c', chain_store (CHAIN_SPACE_PTR c) data c = Val c' ∧ chain_ok c ∧ chain_ok c' ∧
    ch_off c' = ch_off c ∧ CHAIN_SPACE_LEN c' = CHAIN_SPACE_LEN c ∧
    evb_inv (put_chain i c' b) ∧ bytes (put_chain i c' b) = bytes b ∧ at_end (put_chain i c' b) i ∧
    ∀ n, 0 <= n <= Zlen data →
      let cs := <[i := set_off (ch_off c + n) c']> (eb_chains b) in
      Forall chain_ok cs ∧ shape cs (advanced cs (eb_lwd b)) ∧ chains_data cs = bytes b ++ ztake n data.
Proof.
  intros Hb Hend Hi Hs.
  assert (chain_ok c) as Hc by (eapply Forall_lookup_1; [apply Hb|exact Hi]).
  destruct (store_at_end c data Hc Hs) as (c' & Hst & Hc' & Ho & Hd & Hsp & Hall).
  exists c'. split; [done|]. split; [done|]. split; [done|]. split; [done|]. split; [done|].
  assert ((ch_off <$> <[i := c']> (eb_chains b)) = (ch_off <$> eb_chains b)) as Hoffs.
  { rewrite list_fmap_insert, Ho. apply list_insert_id. by rewrite list_lookup_fmap, Hi. }
  destruct (append_at b i c c' [] Hb Hend Hi Hc') as (H1 & _ & H3);
    [by rewrite app_nil_r|change (Zlen []) with 0; lia|]. rewrite app_nil_r in H3.
  split; [|split; [exact H3|split]].
  - apply wf_intro; [done|by eapply shape_offs; [exact Hoffs|apply Hb]| |apply Hb].
    by rewrite H3, (wf_total _ Hb).
  - destruct Hend as [->|[-> (d & Hlk & Hd0)]]; [by left|right]. split; [done|].
    exists d. split; [|done]. cbn [eb_chains eb_lwd put_chain set_chains].
    rewrite list_lookup_insert_ne by lia. done.
  - intros n Hn. destruct (Hall n Hn) as [Ha1 Ha2]. pose proof (Zlen_nonneg data).
    apply (append_at b i c); try done. cbn. rewrite Zlen_ztake. lia.
Qed.

Lemma vprintf_step fuel t i b c :
  evb_inv b → at_end b i → eb_chains b !! i = Some c → 0 < CHAIN_SPACE_LEN c → Zlen t <= 2 ^ 31 - 1 →
  if Zlen t <? CHAIN_SPACE_LEN c then
    ∃ b', vprintf_loop (S fuel) (Some t) i b = Val (Zlen t, b') ∧ evb_inv b' ∧ bytes b' = bytes b ++ t ∧
      length (eb_chains b') = length (eb_chains b) ∧ ∃ c', eb_chains b' !! i = Some c' ∧ ch_off c' = ch_off c + Zlen t
  else
    ∃ b1, vprintf_loop (S fuel) (Some t) i b =
        ('(r, b) ← evbuffer_expand_singlechain (Zlen t + 1) b1;
         match r with None => Val (-1, b) | Some i => vprintf_loop fuel (Some t) i b end) ∧
      evb_inv b1 ∧ bytes b1 = bytes b ∧ ∃ c', b1 = put_chain i c' b ∧ ch_off c' = ch_off c ∧ CHAIN_SPACE_LEN c' = CHAIN_SPACE_LEN c.
Proof.
  intros Hb Hend Hi Hs Ht. cbn [vprintf_loop]. rewrite Hi. cbn [or_undef mbind outcome_bind].
  set (s := CHAIN_SPACE_LEN c) in *. unfold evutil_vsnprintf. destruct (Z.eqb_spec s 0); [lia|].
  destruct (Z.gtb_spec (Zlen t) (2 ^ 31 - 1)); [lia|]. pose proof (Zlen_nonneg t).
  set (out := ztake (s - 1) t ++ [z2b 0]).
  assert (Zlen out = Z.min (s - 1) (Zlen t) + 1) as Hout.
  { unfold out. rewrite Zlen_app, Zlen_ztake. change (Zlen [z2b 0]) with 1. lia. }
  destruct (store_in_space b i c out Hb Hend Hi ltac:(fold s; lia))
    as (c' & -> & Hc & Hc' & Ho & Hsp & Hb1 & Hbs1 & Hend1 & Hall). cbn [mbind outcome_bind].
  destruct (Z.ltb_spec (Zlen t) 0); [lia|]. destruct (Z.ltb_spec (Zlen t) s).
  - destruct (Hall (Zlen t) ltac:(lia)) as (Ha1 & Ha2 & Ha3).
    assert (ztake (Zlen t) out = t) as Eo.
    { unfold out. rewrite (ztake_all (s - 1)) by lia. apply ztake_app_exact. }
    rewrite Eo in Ha3. eexists. split; [done|]. rewrite <- !(same_chains _ _ (same_invoke _)), !same_invoke, advance_eq, Ho.
    unfold count_added, add_total, put_chain. cbn [eb_chains eb_lwd eb_total_len set_chains set_counts].
    rewrite list_insert_insert_eq. split; [|split; [exact Ha3|split; [by rewrite length_insert|]]].
    2:{ exists (set_off (ch_off c + Zlen t) c'). split; [|done]. apply list_lookup_insert_eq. by eapply lookup_lt_Some. }
    split; [exact Ha1|exact Ha2| |apply Hb]. cbn [eb_total_len set_chains].
    change (eb_total_len b + Zlen t = Zlen (chains_data (<[i := set_off (ch_off c + Zlen t) c']> (eb_chains b)))).
    by rewrite Ha3, Zlen_app, (wf_total _ Hb).
  - eexists. split; [reflexivity|]. split; [done|]. split; [done|]. by exists c'.
Qed.

(** Formatted output.  [evbuffer_add_vprintf] appends the formatted text and returns
    its length, or returns -1 and leaves the bytes alone when the text cannot be
    formatted, is longer than an int or memory is short; the loop that makes room
    and formats again ends after at most two rounds. *)
Theorem add_vprintf_appends text b :
  evb_inv b →
  ∃ r b', evbuffer_add_vprintf text b = Val (r, b') ∧ evb_inv b' ∧
    match text with
    | Some t => if Zlen t <=? 2 ^ 31 - 1
                then r = -1 ∧ bytes b' = bytes b ∧ out_of_memory ∨ r = Zlen t ∧ bytes b' = bytes b ++ t
                else r = -1 ∧ bytes b' = bytes b
    | None => r = -1 ∧ bytes b' = bytes b
    end.
Proof.
  intros Hb. unfold evbuffer_add_vprintf. rewrite (proj2 (wf_thawed _ Hb)).
  destruct (expand_singlechain_spec 64 b Hb) as [[-> Hoom]|(i & b1 & -> & Hb1 & Hbs1 & Hend1 & _ & c & Hi & Hs)];
    [lia|unfold MAX_TO_COPY_IN_EXPAND, EVBUFFER_CHAIN_SIZE; lia|..]; cbn [mbind outcome_bind].
  { exists (-1), b. split; [done|]. split; [done|]. destruct text as [t|]; [|done]. destruct (_ <=? _); auto. }
  assert (∀ out, Zlen out <= CHAIN_SPACE_LEN c → (evutil_vsnprintf text (CHAIN_SPACE_LEN c)) = (-1, out) →
    ∃ b', vprintf_loop 2 text i b1 = Val (-1, b') ∧ evb_inv b' ∧ bytes b' = bytes b) as Hfail.
  { intros out Hout E. cbn [vprintf_loop]. rewrite Hi. cbn [or_undef mbind outcome_bind]. rewrite E.
    destruct (store_in_space b1 i c out Hb1 Hend1 Hi Hout) as (c' & -> & _ & _ & _ & _ & Hb2 & Hbs2 & _).
    cbn [mbind outcome_bind Z.ltb Z.compare]. eexists. split; [done|]. split; [done|]. congruence. }
  destruct text as [t|].
  2: { destruct (Hfail []) as (b' & -> & ? & ?); [change (Zlen []) with 0; lia| |eauto 10].
       unfold evutil_vsnprintf. destruct (Z.eqb_spec (CHAIN_SPACE_LEN c) 0); [lia|done]. }
  destruct (Z.leb_spec (Zlen t) (2 ^ 31 - 1)) as [Ht|Ht].
  2: { destruct (Hfail []) as (b' & -> & ? & ?); [change (Zlen []) with 0; lia| |eauto 10].
       unfold evutil_vsnprintf. destruct (Z.eqb_spec (CHAIN_SPACE_LEN c) 0); [lia|].
       by destruct (Z.gtb_spec (Zlen t) (2 ^ 31 - 1)); [|lia]. }
  pose proof (vprintf_step 1 t i b1 c Hb1 Hend1 Hi ltac:(lia) Ht) as P. pose proof (Zlen_nonneg t).
  destruct (Z.ltb_spec (Zlen t) (CHAIN_SPACE_LEN c)).
  { destruct P as (b' & -> & ? & Hbs & _). eexists _, _. split; [done|]. split; [done|]. right. by rewrite Hbs, Hbs1. }
  destruct P as (b2 & -> & Hb2 & Hbs2 & _).
  destruct (expand_singlechain_spec (Zlen t + 1) b2 Hb2)
    as [[-> Hoom]|(j & b3 & -> & Hb3 & Hbs3 & Hend3 & _ & d & Hj & Hsd)];
    [lia|unfold MAX_TO_COPY_IN_EXPAND, EVBUFFER_CHAIN_SIZE; lia|..]; cbn [mbind outcome_bind].
  { exists (-1), b2. split; [done|]. split; [done|]. left. rewrite Hbs2, Hbs1. auto. }
  pose proof (vprintf_step 0 t j b3 d Hb3 Hend3 Hj ltac:(lia) Ht) as P.
  destruct (Z.ltb_spec (Zlen t) (CHAIN_SPACE_LEN d)); [|lia].
  destruct P as (b' & -> & ? & Hbs & _). eexists _, _. split; [done|]. split; [done|]. right.
  split; [done|]. congruence.
Qed.
End printing.

(** ** Reserving and committing *)

Section reserving.
Context `{Malloc}.

(** The caller stores [data] where a vector points and shortens the vector. *)
Definition user_store (v : Iov) (data : list byte) (b : Evb) : outcome Evb :=
  c ← or_undef NullDeref (eb_chains b !! iov_chain v);
  c ← chain_store (iov_at v) data c;
  Val (put_chain (iov_chain v) c b).
Definition shorten (n : Z) (v : Iov) : Iov := {| iov_chain := iov_chain v; iov_at := iov_at v; iov_len := n |}.

Lemma reserve_one_spec size b :
  evb_inv b → 0 <= size <= evb_limit →
  (evbuffer_reserve_space size 1 b = Val (-1, [], b) ∧ out_of_memory) ∨
  ∃ v b1 c, evbuffer_reserve_space size 1 b = Val (1, [v], b1) ∧ room_at size b (iov_chain v) b1 ∧
    eb_chains b1 !! iov_chain v = Some c ∧ iov_at v = CHAIN_SPACE_PTR c ∧ iov_len v = CHAIN_SPACE_LEN c.
Proof.
  intros Hb Hs. unfold evbuffer_reserve_space. rewrite (proj2 (wf_thawed _ Hb)). cbn [Z.ltb Z.eqb Z.compare].
  change evb_limit with (2 ^ 61) in Hs. rewrite u64_small by lia.
  destruct (expand_singlechain_spec size b Hb) as [[-> Hoom]|(i & b1 & -> & Hr)];
    [lia|unfold MAX_TO_COPY_IN_EXPAND, EVBUFFER_CHAIN_SIZE; lia|..]; cbn [mbind outcome_bind].
  - by left.
  - pose proof Hr as (_ & _ & _ & _ & c & Hi & _). rewrite Hi. cbn [or_undef mbind outcome_bind].
    right. eexists _, b1, c. by split; [done|].
Qed.

Lemma commit_last_spec v data b b1 :
  room_at (Zlen data) b (iov_chain v) b1 → writable b → iov_at v = match eb_chains b1 !! iov_chain v with
    Some c => CHAIN_SPACE_PTR c | None => 0 end → Zlen data < 2 ^ 64 →
  ∃ b2 b3, user_store v data b1 = Val b2 ∧
    evbuffer_commit_space [shorten (Zlen data) v] b2 = Val (0, b3) ∧
    evb_inv b3 ∧ bytes b3 = bytes b ++ data.
Proof.
  intros (Hb1 & Hbs & Hend & Hlast & c & Hi & Hs) Hw Hat Hsmall. rewrite Hi in Hat. specialize (Hlast Hw).
  destruct (store_in_space b1 (iov_chain v) c data Hb1 Hend Hi Hs)
    as (c' & Hst & Hc & Hc' & Ho & Hsp & Hb2 & Hbs2 & Hend2 & Hall).
  unfold user_store. rewrite Hi. cbn [or_undef mbind outcome_bind]. rewrite Hat, Hst. cbn [mbind outcome_bind].
  set (b2 := put_chain (iov_chain v) c' b1) in *. exists b2.
  destruct (Hall (Zlen data)) as (H1 & H2 & H3); [pose proof (Zlen_nonneg data); lia|].
  rewrite ztake_all in H3 by lia.
  assert (last_index b2 = iov_chain v) as Hl2.
  { rewrite Hlast. unfold last_index, b2, put_chain. cbn. by rewrite length_insert. }
  pose proof (lookup_lt_Some _ _ _ Hi) as Hlt.
  assert (eb_last b2 = Some c') as Hel.
  { unfold eb_last. rewrite last_lookup_index. change (pred (length (eb_chains b2))) with (last_index b2).
    rewrite Hl2. unfold b2, put_chain. cbn [eb_chains set_chains]. by apply list_lookup_insert_eq. }
  assert (CHAIN_SPACE_PTR c' = CHAIN_SPACE_PTR c) as Hptr.
  { unfold CHAIN_SPACE_PTR. destruct (chain_store_fields _ _ _ _ Hst) as (Hm & _). lia. }
  eexists. split; [done|].
  unfold evbuffer_commit_space. rewrite (proj2 (wf_thawed _ Hb2)), Hel, Hl2. cbn [shorten iov_chain iov_at iov_len].
  rewrite Nat.eqb_refl, Hptr, Hat, Z.eqb_refl. cbn [andb]. pose proof (Zlen_nonneg data).
  rewrite u64_small by lia. destruct (Z.gtb_spec (Zlen data) (CHAIN_SPACE_LEN c')); [lia|].
  split; [reflexivity|]. cbn [commit_done]. rewrite !same_invoke. unfold count_added. rewrite !same_counts.
  assert ((if negb (Zlen data =? 0)
    then Buf.advance_last_with_data (put_chain (iov_chain v) (set_off (ch_off c' + Zlen data) c') b2)
    else put_chain (iov_chain v) (set_off (ch_off c' + Zlen data) c') b2) =
    Buf.advance_last_with_data (put_chain (iov_chain v) (set_off (ch_off c' + Zlen data) c') b2)) as ->.
  { destruct (Z.eqb_spec (Zlen data) 0) as [E|E]; [cbn [negb]|done]. rewrite E, Z.add_0_r.
    replace (set_off (ch_off c') c') with c' by by destruct c'. rewrite advance_eq.
    assert (put_chain (iov_chain v) c' b2 = b2) as ->.
    { unfold b2, put_chain. cbn [eb_chains eb_lwd eb_total_len set_chains]. by rewrite list_insert_insert_eq. }
    assert (advanced (eb_chains b2) (eb_lwd b2) = eb_lwd b2) as ->; [|by destruct b2].
    unfold advanced. destruct (eb_chains b2 !! eb_lwd b2) eqn:El; [|done].
    assert (eb_chains b2 ≠ []) as Hne by (intros E0; by rewrite E0 in El).
    destruct (inv_lwd_split b2 Hb2 Hne) as (pre & d & rest & Hcs & Hl & Hz & _).
    rewrite Hcs, <- Hl, drop_app_ge by lia. replace (S (length pre) - length pre)%nat with 1%nat by lia.
    cbn [drop]. rewrite data_run_empty by done. lia. }
  rewrite advance_eq, Ho. unfold b2, put_chain, add_total.
  cbn [eb_chains eb_lwd eb_total_len set_chains]. rewrite list_insert_insert_eq.
  split; [|unfold bytes at 1; cbn [eb_chains set_chains]; by rewrite H3, Hbs].
  apply wf_intro; [done|done| |apply Hb1]. rewrite H3, Zlen_app, (wf_total _ Hb1). done.
Qed.
End reserving.

(** ** Prepending *)

(** [data] right in front of the data of a chain. *)
Lemma store_front c data :
  0 < Zlen data <= ch_misalign c → 0 <= ch_off c → ch_misalign c + ch_off c <= ch_buffer_len c →
  is_immutable c = false → CHAIN_PINNED c = false → has_flag c EVBUFFER_SENDFILE = false →
  ch_buffer_len c + EVBUFFER_CHAIN_SIZE <= 2 ^ 62 →
  ∃ c1, chain_store (ch_misalign c - Zlen data) data c = Val c1 ∧ ch_off c1 = ch_off c ∧
    let c' := set_misalign (ch_misalign c - Zlen data) (set_off (ch_off c + Zlen data) c1) in
    chain_ok c' ∧ chain_data c' = data ++ chain_data c.
Proof.
  intros Hd Ho Hf Himm Hp Hm Hs. unfold chain_store. rewrite Himm. unfold ch_buffer_len in *.
  destruct (Z.leb_spec 0 (ch_misalign c - Zlen data)); [|lia].
  destruct (Z.leb_spec (ch_misalign c - Zlen data + Zlen data) (Zlen (ch_buffer c))); [|lia].
  cbn [negb andb]. eexists. split; [done|]. split; [done|]. cbv zeta.
  assert (Zlen (splice (ch_buffer c) (ch_misalign c - Zlen data) data) = Zlen (ch_buffer c)) as Hl
    by (apply Zlen_splice; lia). split.
  - split; unfold ch_buffer_len; cbn [ch_buffer ch_misalign ch_off ch_flags set_misalign set_off]; rewrite ?Hl; try lia; done.
  - unfold chain_data. cbn [ch_buffer ch_misalign ch_off ch_flags set_misalign set_off]. unfold splice.
    rewrite zdrop_app_r by (rewrite Zlen_ztake; lia).
    assert (Zlen (ztake (ch_misalign c - Zlen data) (ch_buffer c)) = ch_misalign c - Zlen data) as ->
      by (rewrite Zlen_ztake; lia).
    rewrite Z.sub_diag, zdrop_0 by lia. rewrite ztake_app_r by lia. f_equal. f_equal; [lia|]. f_equal. lia.
Qed.

Lemma shape_replace_head c c' rest lwd :
  shape (c :: rest) lwd → 0 <= ch_off c → 0 < ch_off c' → shape (c' :: rest) lwd.
Proof.
  intros (full & empt & Hcs & Hf & He & Hl) Ho Hc'. destruct full as [|d full]; cbn [app] in Hcs.
  - rewrite <- Hcs in He. apply Forall_cons in He as [_ He]. by apply (shape_first c' [] rest).
  - injection Hcs as <- ->. apply Forall_cons in Hf as [_ Hf]. by apply shape_first.
Qed.

Lemma shape_cons c c' rest lwd :
  shape (c :: rest) lwd → 0 < ch_off c → 0 < ch_off c' → shape (c' :: c :: rest) (S lwd).
Proof.
  intros (full & empt & Hcs & Hf & He & Hl) Hc Hc'. destruct full as [|d full]; cbn [app] in Hcs.
  - rewrite <- Hcs in He. apply Forall_cons in He as [? _]. lia.
  - injection Hcs as <- ->. exists (c' :: c :: full), empt. split; [done|]. split; [by apply Forall_cons|].
    split; [done|]. by subst.
Qed.

Section prepending.
Context `{Malloc}.

Lemma prepend_new_chain_spec data b c rest chain :
  evb_inv b → eb_chains b = c :: rest → 0 < ch_off c → 0 < Zlen data → Zlen data <= evb_limit →
  (Buf.prepend_new_chain data chain b = Val (-1, b) ∧ out_of_memory) ∨
  ∃ b', Buf.prepend_new_chain data chain b = Val (0, b') ∧ evb_inv b' ∧ (writable b → writable b') ∧
    bytes b' = data ++ bytes b.
Proof.
  intros Hb Hcs Hc Hd Hle. unfold Buf.prepend_new_chain.
  destruct (chain_new_spec (Zlen data) ltac:(lia) (under_limit _ Hle)) as (len & H1 & H2 & H3 & ->).
  destruct (malloc_ok _) eqn:Em; cbn [mbind outcome_bind]; [right|left; split; [done|by eexists]].
  pose proof (fresh_chain_ok len H2 H3) as Hnew. set (tmp0 := {| ch_buffer := _ |}) in *.
  assert (ch_buffer_len tmp0 = len) as Hbl.
  { unfold ch_buffer_len, tmp0. cbn [ch_buffer]. rewrite Zlen_replicate. lia. }
  rewrite Hbl. cbn [ch_misalign set_misalign set_off].
  destruct (store_front (set_misalign len tmp0) data) as (t1 & Hst & Ho & Hok & Hdt);
    try (unfold ch_buffer_len in *; cbn [ch_misalign ch_off set_misalign tmp0]; cbn [ch_buffer set_misalign]; (done || lia)).
  cbn [ch_misalign set_misalign] in Hst, Hok, Hdt. cbn [ch_off set_misalign tmp0] in Ho, Hok, Hdt.
  assert (∃ t2, chain_store (len - Zlen data) data (set_misalign (len - Zlen data) (set_off (Zlen data) tmp0)) = Val t2 ∧
    t2 = set_misalign (len - Zlen data) (set_off (Zlen data) t1)) as (t2 & -> & ->).
  { revert Hst. unfold chain_store, is_immutable, has_flag, ch_buffer_len. cbn [ch_buffer ch_flags set_misalign set_off].
    destruct (_ && _); [|done]. intros <-%Val_inj. by eexists. }
  cbn [mbind outcome_bind]. rewrite Z.add_0_l in Hok, Hdt.
  set (t := set_misalign (len - Zlen data) (set_off (Zlen data) t1)) in *.
  rewrite (chain_data_empty (set_misalign len tmp0)), app_nil_r in Hdt by done.
  eexists. split; [done|]. rewrite !same_invoke. unfold count_added. rewrite !same_counts.
  assert (chains_data (t :: eb_chains b) = data ++ bytes b) as Hall by by rewrite chains_data_cons, Hdt.
  split; [|split; [|exact Hall]].
  - apply wf_intro; [apply Forall_cons; split; [done|apply Hb]| | |apply Hb].
    + rewrite Hcs. apply shape_cons; [rewrite <- Hcs; apply Hb|done|]. cbn. lia.
    + rewrite Hall, Zlen_app, (wf_total _ Hb). lia.
  - unfold writable, last_index. cbn [eb_chains eb_lwd set_chains length]. rewrite Hcs. cbn. lia.
Qed.

(** The first chain replaced by one with [data] in front. *)
Lemma prepend_head_spec b c rest c' data :
  evb_inv b → eb_chains b = c :: rest → 0 < Zlen data → chain_ok c' →
  ch_off c' = ch_off c + Zlen data → chain_data c' = data ++ chain_data c →
  let b' := add_total (Zlen data) (put_chain 0 c' b) in
  evb_inv b' ∧ (writable b → writable b') ∧ bytes b' = data ++ bytes b ∧ eb_chains b' = c' :: rest.
Proof.
  intros Hb Hcs Hd Hc' Ho Hdata b'. unfold b', add_total, put_chain.
  cbn [eb_chains eb_lwd eb_total_len set_chains]. rewrite Hcs. cbn [insert list_insert].
  pose proof (wf_chains _ Hb) as Hok. rewrite Hcs in Hok. apply Forall_cons in Hok as [Hc Hok].
  pose proof (ok_off _ Hc).
  assert (chains_data (c' :: rest) = data ++ bytes b) as Hall.
  { unfold bytes. rewrite Hcs, !chains_data_cons, Hdata. by rewrite app_assoc. }
  split; [|split; [|by split]].
  - apply wf_intro; [by apply Forall_cons| | |apply Hb].
    + apply (shape_replace_head c); [rewrite <- Hcs; apply Hb|lia|lia].
    + rewrite Hall, Zlen_app, (wf_total _ Hb). lia.
  - unfold writable, last_index. rewrite Hcs. done.
Qed.

(** A buffer to prepend to has a first chain. *)
Lemma first_chain_spec n b :
  evb_inv b → 0 <= n <= evb_limit →
  (Buf.ensure_chain n b = Val None ∧ out_of_memory) ∨
  ∃ b1 c rest, Buf.ensure_chain n b = Val (Some b1) ∧ evb_inv b1 ∧ bytes b1 = bytes b ∧
    (writable b → writable b1) ∧ eb_chains b1 = c :: rest.
Proof.
  intros Hb [Hn Hle]. unfold Buf.ensure_chain. destruct (eb_chains b) as [|c rest] eqn:E; [|right; by exists b, c, rest].
  unfold Buf.evbuffer_chain_insert_new.
  destruct (new_chain_room n Hn (under_limit _ Hle)) as [[-> Hoom]|(t & -> & Ht & Ht0 & _)];
    cbn [mbind outcome_bind]; [by left|right].
  destruct (insert_empty_spec t b Hb Ht Ht0) as (b1 & -> & Hb1 & Hbs1 & _ & _ & Hcs). destruct (Hcs E) as [Hcs1 Hl1].
  exists b1, t, []. repeat (split; [done|]). split; [|done]. intros _. unfold writable, last_index. by rewrite Hcs1, Hl1.
Qed.

(** The first chain, an empty one with its free space in front of the data, gets [data]
    into that space. *)
Lemma prepend_into_spec b c rest data :
  evb_inv b → eb_chains b = c :: rest →
  let c0 := if ch_off c =? 0 then set_misalign (ch_buffer_len c) c else c in
  0 < Zlen data <= ch_misalign c0 →
  ∃ c1, chain_store (ch_misalign c0 - Zlen data) data c0 = Val c1 ∧
    let b' := add_total (Zlen data)
      (put_chain 0 (set_misalign (ch_misalign c0 - Zlen data) (set_off (ch_off c1 + Zlen data) c1)) b) in
    ch_off c1 = ch_off c0 ∧ evb_inv b' ∧ (writable b → writable b') ∧ bytes b' = data ++ bytes b ∧
    eb_chains b' = set_misalign (ch_misalign c0 - Zlen data) (set_off (ch_off c1 + Zlen data) c1) :: rest.
Proof.
  intros Hb Hcs c0 Hd. pose proof (wf_chains _ Hb) as Hok. rewrite Hcs in Hok. apply Forall_cons in Hok as [Hc Hok].
  pose proof Hc as [A1 A2 A3 A4 A5 A6 A7 A8].
  assert (ch_off c0 = ch_off c ∧ chain_data c0 = chain_data c ∧ ch_misalign c0 + ch_off c0 <= ch_buffer_len c0 ∧
    ch_buffer_len c0 = ch_buffer_len c ∧ ch_flags c0 = ch_flags c) as (B1 & B2 & B3 & B4 & B5).
  { unfold c0. destruct (Z.eqb_spec (ch_off c) 0) as [E|E].
    - unfold ch_buffer_len in *. cbn. rewrite !chain_data_empty by done. repeat split; lia.
    - repeat split; lia. }
  assert (is_immutable c0 = false ∧ CHAIN_PINNED c0 = false ∧ has_flag c0 EVBUFFER_SENDFILE = false) as (B8 & B9 & B10).
  { unfold is_immutable, CHAIN_PINNED, has_flag in *. by rewrite B5. }
  destruct (store_front c0 data) as (c1 & Hst & Ho & Hok1 & Hd1); try done; try lia.
  exists c1. split; [done|]. rewrite Ho. split; [done|].
  apply (prepend_head_spec b c rest); try done; [lia|cbn; lia|by rewrite Hd1, B2].
Qed.

(** Prepending; when memory runs out half-way, the tail of [data] stays in the buffer. *)
Lemma evbuffer_prepend_spec data b :
  evb_inv b → 0 < Zlen data → Zlen data <= evb_limit →
  (∃ b' k, Buf.evbuffer_prepend data b = Val (-1, b') ∧ out_of_memory ∧ evb_inv b' ∧ 0 <= k ∧
     bytes b' = zdrop k data ++ bytes b) ∨
  ∃ b', Buf.evbuffer_prepend data b = Val (0, b') ∧ evb_inv b' ∧ (writable b → writable b') ∧
    bytes b' = data ++ bytes b.
Proof.
  intros Hb Hd Hle. unfold Buf.evbuffer_prepend. rewrite (proj1 (wf_thawed _ Hb)).
  destruct (first_chain_spec (Zlen data) b Hb ltac:(lia)) as
    [[-> Hoom]|(b1 & c & rest & -> & Hb1 & Hbs1 & Hw1 & Hcs)].
  { left. exists b, (Zlen data). cbn. rewrite zdrop_all by lia. auto 10 with lia. }
  cbn [mbind outcome_bind]. rewrite Hcs. cbn [head or_undef mbind outcome_bind].
  pose proof (wf_chains _ Hb1) as Hok. rewrite Hcs in Hok. apply Forall_cons in Hok as [Hc _].
  rewrite (ok_mutable _ Hc), <- Hbs1. cbn [negb]. pose proof (ok_off _ Hc) as Hoff. pose proof (ok_misalign _ Hc) as Hmis.
  pose proof (prepend_into_spec b1 c rest) as Hinto. cbv zeta in Hinto.
  pose proof (ok_room _ Hc) as Hroom.
  set (c0 := if ch_off c =? 0 then set_misalign (ch_buffer_len c) c else c) in *.
  assert (ch_misalign c0 = 0 → c0 = c ∧ 0 < ch_off c) as Hnone.
  { unfold c0. destruct (Z.eqb_spec (ch_off c) 0); cbn; [lia|]. intros _. split; [done|lia]. }
  assert (0 <= ch_misalign c0 ∧ 0 <= ch_off c0) as [Hm0 Ho0] by (unfold c0; destruct (_ =? 0); cbn; lia).
  destruct (Z.geb_spec (ch_misalign c0) (Zlen data)) as [Hfit|Hpart].
  - destruct (Hinto data Hb1 Hcs ltac:(lia)) as (c1 & -> & Ho & H1 & H2 & H3 & _). cbn [mbind outcome_bind]. right.
    eexists. split; [done|]. rewrite !same_invoke. unfold count_added. rewrite !same_counts. auto 10.
  - destruct (Z.eqb_spec (ch_misalign c0) 0) as [E0|E0]; cbn [negb].
    + destruct (Hnone E0) as [-> Hpos]. assert (put_chain 0 c b1 = b1) as ->.
      { unfold put_chain. rewrite Hcs. cbn. rewrite <- Hcs. by destruct b1. }
      destruct (prepend_new_chain_spec data b1 c rest c Hb1 Hcs Hpos Hd Hle) as [[-> Hoom]|(b2 & -> & H1 & H2 & H3)].
      * left. exists b1, (Zlen data). rewrite zdrop_all by lia. auto 10 with lia.
      * right. exists b2. split; [done|]. split; [done|]. split; [auto|done].
    + set (m := ch_misalign c0) in *. set (hd := ztake (Zlen data - m) data). set (tl := zdrop (Zlen data - m) data).
      assert (Zlen tl = m) as Htl by (unfold tl; rewrite Zlen_zdrop; lia).
      assert (Zlen hd = Zlen data - m) as Hhd by (unfold hd; rewrite Zlen_ztake; lia).
      destruct (Hinto tl Hb1 Hcs ltac:(lia)) as (c1 & Hst & Ho & H1 & H2 & H3 & H4).
      rewrite Htl, Z.sub_diag in *. rewrite Hst. cbn [mbind outcome_bind].
      set (bb := count_added m _). assert (evb_inv bb) as Hbb by by (unfold bb, count_added; rewrite same_counts).
      destruct (prepend_new_chain_spec hd bb _ rest (set_misalign 0 (set_off (ch_off c1 + m) c1)) Hbb H4)
        as [[-> Hoom]|(b2 & -> & G1 & G2 & G3)]; [cbn; lia|lia|lia|..].
      * left. exists bb, (Zlen data - m). split; [done|]. split; [done|]. split; [done|]. split; [lia|]. exact H3.
      * right. exists b2. split; [done|]. split; [done|]. split; [auto|]. rewrite G3.
        change (bytes bb) with (bytes (add_total m (put_chain 0 (set_misalign 0 (set_off (ch_off c1 + m) c1)) b1))).
        rewrite H3, app_assoc. f_equal. unfold hd, tl. apply ztake_zdrop.
Qed.
End prepending.
