(* ===== verification/BufProps.v ===== *)
(** What evbuffers promise their users: sequences of operations on a pool of
    buffers, streams through a buffer, formatted output, reserved space, and
    where buffer.c does not keep its promises. *)

From S2P Require Import Prelude EvbufferApi BufChain BufOps BufRefine BufExpand BufIo.

(** ** A pool of buffers and a pool of byte sequences *)

(** Calls on the buffers of a pool, named by their positions. *)
Inductive buf_op :=
  | OpAdd (i : nat) (data : list byte)
  | OpPrepend (i : nat) (data : list byte)
  | OpDrain (i : nat) (n : Z)
  | OpRemove (i : nat) (n : Z)
  | OpCopyout (i : nat) (n : Z)
  | OpPullup (i : nat) (n : Z)
  | OpAddBuffer (out inp : nat)
  | OpRemoveBuffer (src dst : nat) (n : Z).

Section pool.
Context `{Malloc}.

(** The result, the bytes handed to the caller, the pool. *)
Definition exec_one (f : Evb → outcome (Z * list byte * Evb)) (i : nat) (p : list Evb)
  : outcome (Z * list byte * list Evb) :=
  match p !! i with
  | Some b => '(r, out, b) ← f b; Val (r, out, <[i := b]> p)
  | None => Val (0, [], p)
  end.
Definition exec_two (f : Evb → Evb → outcome (Z * Evb * Evb)) (i j : nat) (p : list Evb)
  : outcome (Z * list byte * list Evb) :=
  match p !! i, p !! j with
  | Some b, Some b' =>
      if (i =? j)%nat then Val (0, [], p)
      else '(r, b, b') ← f b b'; Val (r, [], <[i := b]> (<[j := b']> p))
  | _, _ => Val (0, [], p)
  end.

Definition exec (op : buf_op) (p : list Evb) : outcome (Z * list byte * list Evb) :=
  match op with
  | OpAdd i data => exec_one (λ b, '(r, b) ← Buf.evbuffer_add data b; Val (r, [], b)) i p
  | OpPrepend i data => exec_one (λ b, '(r, b) ← Buf.evbuffer_prepend data b; Val (r, [], b)) i p
  | OpDrain i n => exec_one (λ b, '(r, b) ← Buf.evbuffer_drain n b; Val (r, [], b)) i p
  | OpRemove i n => exec_one (λ b, Buf.evbuffer_remove n b) i p
  | OpCopyout i n => exec_one (λ b, '(r, out) ← Buf.evbuffer_copyout n b; Val (r, out, b)) i p
  | OpPullup i n =>
      exec_one (λ b, '(o, b) ← Buf.evbuffer_pullup n b;
                     Val (match o with Some bs => (1, bs, b) | None => (0, [], b) end)) i p
  | OpAddBuffer i j => exec_two Buf.evbuffer_add_buffer i j p
  | OpRemoveBuffer i j n => exec_two (λ b b', Buf.evbuffer_remove_buffer b b' n) i j p
  end.

(** The same calls on byte sequences. *)
Definition ref_one (f : list byte → Z * list byte * list byte) (i : nat) (q : list (list byte))
  : Z * list byte * list (list byte) :=
  match q !! i with
  | Some l => let '(r, out, l) := f l in (r, out, <[i := l]> q)
  | None => (0, [], q)
  end.
Definition ref_two (f : list byte → list byte → Z * list byte * list byte) (i j : nat) (q : list (list byte))
  : Z * list byte * list (list byte) :=
  match q !! i, q !! j with
  | Some l, Some l' =>
      if (i =? j)%nat then (0, [], q)
      else let '(r, l, l') := f l l' in (r, [], <[i := l]> (<[j := l']> q))
  | _, _ => (0, [], q)
  end.

Definition ref (op : buf_op) (q : list (list byte)) : Z * list byte * list (list byte) :=
  match op with
  | OpAdd i data => ref_one (λ l, (0, [], l ++ data)) i q
  | OpPrepend i data => ref_one (λ l, (0, [], data ++ l)) i q
  | OpDrain i n => ref_one (λ l, (0, [], zdrop n l)) i q
  | OpRemove i n => ref_one (λ l, (i32 (Z.min n (Zlen l)), ztake n l, zdrop n l)) i q
  | OpCopyout i n => ref_one (λ l, (Z.min n (Zlen l), ztake n l, l)) i q
  | OpPullup i n =>
      ref_one (λ l, let m := if n <? 0 then Zlen l else n in
                    if (m =? 0) || (m >? Zlen l) then (0, [], l) else (1, ztake m l, l)) i q
  | OpAddBuffer i j => ref_two (λ l l', (0, l ++ l', [])) i j q
  | OpRemoveBuffer i j n => ref_two (λ l l', (i32 (Z.min n (Zlen l)), zdrop n l, l' ++ ztake n l)) i j q
  end.

(** Sizes a 64-bit process can ask for, on sequences that fit in memory. *)
Definition op_fits (op : buf_op) (q : list (list byte)) : Prop :=
  Forall (λ l, Zlen l <= evb_limit) q ∧
  match op with
  | OpAdd _ data => Zlen data <= evb_limit
  | OpPrepend _ data => 0 < Zlen data <= evb_limit
  | OpDrain _ n | OpRemove _ n | OpCopyout _ n | OpRemoveBuffer _ _ n => 0 <= n
  | _ => True
  end.

Definition holds_bytes (b : Evb) (l : list byte) : Prop := evb_inv b ∧ writable b ∧ bytes b = l.
Definition pool_ok (p : list Evb) (q : list (list byte)) : Prop := Forall2 holds_bytes p q.

Lemma exec_one_sim f g i p q :
  pool_ok p q →
  (∀ b l, holds_bytes b l → l ∈ q → ∃ b', f b = Val ((g l).1, b') ∧ holds_bytes b' (g l).2) →
  ∃ p', exec_one f i p = Val ((ref_one g i q).1, p') ∧ pool_ok p' (ref_one g i q).2.
Proof.
  intros Hp Hf. unfold exec_one, ref_one. destruct (p !! i) as [b|] eqn:Hb.
  - destruct (Forall2_lookup_l _ _ _ _ _ Hp Hb) as (l & Hl & Hbl). rewrite Hl.
    destruct (Hf b l Hbl) as (b' & -> & Hb'); [by eapply list_elem_of_lookup_2|].
    destruct (g l) as [[r out] l']. cbn. eexists. split; [done|]. by apply Forall2_insert.
  - assert (q !! i = None) as -> by (apply lookup_ge_None; apply lookup_ge_None in Hb; by rewrite <- (Forall2_length _ _ _ Hp)).
    by exists p.
Qed.

Lemma exec_two_sim f g i j p q :
  pool_ok p q →
  (∀ b l b' l', holds_bytes b l → holds_bytes b' l' → l ∈ q → ∃ c c', f b b' = Val ((g l l').1.1, c, c') ∧
     holds_bytes c (g l l').1.2 ∧ holds_bytes c' (g l l').2) →
  ∃ p', exec_two f i j p = Val ((ref_two g i j q).1, p') ∧ pool_ok p' (ref_two g i j q).2.
Proof.
  intros Hp Hf. unfold exec_two, ref_two.
  assert (∀ k, p !! k = None → q !! k = None) as Hnone.
  { intros k Hk. apply lookup_ge_None. apply lookup_ge_None in Hk. by rewrite <- (Forall2_length _ _ _ Hp). }
  destruct (p !! i) as [b|] eqn:Hb; [|rewrite (Hnone i) by done; by exists p].
  destruct (Forall2_lookup_l _ _ _ _ _ Hp Hb) as (l & Hl & Hbl). rewrite Hl.
  destruct (p !! j) as [b'|] eqn:Hb'; [|rewrite (Hnone j) by done; by exists p].
  destruct (Forall2_lookup_l _ _ _ _ _ Hp Hb') as (l' & Hl' & Hbl'). rewrite Hl'.
  destruct (i =? j)%nat; [by exists p|].
  destruct (Hf b l b' l' Hbl Hbl') as (c & c' & -> & Hc & Hc'); [by eapply list_elem_of_lookup_2|].
  destruct (g l l') as [[r m] m']. cbn. eexists. split; [done|]. apply Forall2_insert; [|done]. by apply Forall2_insert.
Qed.

(** One call: on buffers with memory to spare it does what it does on sequences. *)
Lemma exec_sim op p q :
  reliable → pool_ok p q → op_fits op q →
  ∃ p', exec op p = Val ((ref op q).1, p') ∧ pool_ok p' (ref op q).2.
Proof.
  intros Hr Hp [Hq Hop]. apply reliable_memory in Hr as Hmem. rewrite Forall_forall in Hq.
  destruct op as [i data|i data|i n|i n|i n|i n|i j|i j n]; cbn [exec ref].
  - apply exec_one_sim; [done|]. intros b l (Hb & Hw & <-) _.
    destruct (evbuffer_add_spec data b (inv_tight _ Hb Hw) (under_limit _ Hop)) as [(?&_&_&_&?)|(b' & -> & Hb' & Hbs)]; [done|].
    apply tight_inv in Hb' as [? ?]. cbn. by exists b'.
  - apply exec_one_sim; [done|]. intros b l (Hb & Hw & <-) _.
    destruct (evbuffer_prepend_spec data b Hb (proj1 Hop) (proj2 Hop)) as [(?&?&_&?&_)|(b' & -> & Hb' & Hw' & Hbs)]; [done|].
    cbn. exists b'. split; [done|]. exact (conj Hb' (conj (Hw' Hw) Hbs)).
  - apply exec_one_sim; [done|]. intros b l (Hb & Hw & <-) _.
    destruct (evbuffer_drain_spec n b Hb Hop) as (b' & -> & Hb' & Hw' & Hbs).
    cbn. exists b'. split; [done|]. exact (conj Hb' (conj (Hw' Hw) Hbs)).
  - apply exec_one_sim; [done|]. intros b l (Hb & Hw & <-) _.
    destruct (evbuffer_remove_spec n b Hb Hop) as (b' & -> & Hb' & Hw' & Hbs).
    cbn. exists b'. split; [done|]. exact (conj Hb' (conj (Hw' Hw) Hbs)).
  - apply exec_one_sim; [done|]. intros b l (Hb & Hw & <-) _.
    rewrite evbuffer_copyout_spec by done. cbn. by exists b.
  - apply exec_one_sim; [done|]. intros b l (Hb & Hw & <-) Hl.
    pose proof (evbuffer_pullup_spec n b Hb (under_limit _ (Hq _ Hl))) as P. cbv zeta in P. cbv zeta.
    destruct (_ || _) eqn:E; [rewrite P; cbn; by exists b|].
    destruct P as [[_ ?]|(b' & -> & Hb' & Hw' & Hbs)]; [done|].
    cbn. exists b'. split; [done|]. exact (conj Hb' (conj (Hw' Hw) Hbs)).
  - apply exec_two_sim; [done|]. intros b l b' l' (Hb & Hw & <-) (Hb' & Hw' & <-) _.
    destruct (add_buffer_spec b b' Hb Hw Hb') as (o & i' & -> & Ho & Hi & Hww & Hbo & Hbi).
    destruct (Hww Hw') as [Hwo Hwi]. cbn. exists o, i'. split; [done|].
    exact (conj (conj Ho (conj Hwo Hbo)) (conj Hi (conj Hwi Hbi))).
  - apply exec_two_sim; [done|]. intros b l b' l' (Hb & Hw & <-) (Hb' & Hw' & <-) Hl.
    destruct (remove_buffer_spec b b' n Hb Hb' Hw' Hop (under_limit _ (Hq _ Hl)))
      as (s & d & -> & Hs & Hd & Hww & Hbs & [Hbd|[? _]]); [|done].
    destruct (Hww Hw) as [Hws Hwd]. cbn. exists s, d. split; [done|].
    exact (conj (conj Hs (conj Hws Hbs)) (conj Hd (conj Hwd Hbd))).
Qed.

(** A run of calls: the results, the bytes handed out, the pool. *)
Fixpoint exec_all (ops : list buf_op) (p : list Evb) : outcome (list (Z * list byte) * list Evb) :=
  match ops with
  | [] => Val ([], p)
  | op :: ops =>
      '(r, out, p) ← exec op p;
      '(rs, p) ← exec_all ops p;
      Val ((r, out) :: rs, p)
  end.
Fixpoint ref_all (ops : list buf_op) (q : list (list byte)) : list (Z * list byte) * list (list byte) :=
  match ops with
  | [] => ([], q)
  | op :: ops =>
      let '(r, out, q) := ref op q in
      let '(rs, q) := ref_all ops q in ((r, out) :: rs, q)
  end.
Fixpoint ops_fit (ops : list buf_op) (q : list (list byte)) : Prop :=
  match ops with
  | [] => True
  | op :: ops => op_fits op q ∧ ops_fit ops (ref op q).2
  end.

(** C4.  Evbuffers are byte sequences.  Any run of calls that add, prepend, drain, remove,
    copy out, pull up and move bytes on a pool of evbuffers is defined, returns what
    the same run returns on plain byte sequences, and leaves every buffer well formed
    and holding the bytes of its sequence. *)
Theorem buffers_are_sequences ops p q :
  reliable → pool_ok p q → ops_fit ops q →
  ∃ p', exec_all ops p = Val ((ref_all ops q).1, p') ∧ pool_ok p' (ref_all ops q).2.
Proof.
  intros Hr. revert p q. induction ops as [|op ops IH]; intros p q Hp Hf; cbn [exec_all ref_all].
  { by exists p. }
  destruct Hf as [Hop Hf]. destruct (exec_sim op p q Hr Hp Hop) as (p1 & -> & Hp1).
  destruct (ref op q) as [[r out] q1]. cbn in *. destruct (IH p1 q1 Hp1 Hf) as (p2 & -> & Hp2).
  destruct (ref_all ops q1) as [rs q2]. cbn in *. by exists p2.
Qed.
End pool.

(** ** A stream through a buffer *)

(** What happens to the buffer of a connection: the descriptor is read, written
    to, or the program takes bytes. *)
Inductive io_op :=
  | IoRead (readable : Z) (rd : option (list byte)) (howmuch : Z)
  | IoWrite (wr : list byte → Z) (howmuch : Z)
  | IoTake (n : Z).

Section stream.
Context `{Malloc}.

(** The buffer, what the descriptor gave, and what it took or the program removed. *)
Definition io_step (op : io_op) (s : Evb * list byte * list byte) : outcome (Evb * list byte * list byte) :=
  let '(b, came, went) := s in
  match op with
  | IoRead readable rd howmuch =>
      '(r, b') ← evbuffer_read readable rd howmuch b;
      Val (b', came ++ ztake r (default [] rd), went)
  | IoWrite wr howmuch =>
      '(_, took, b') ← evbuffer_write_atmost wr (λ _ _, (-1, false)) howmuch b;
      Val (b', came, went ++ took)
  | IoTake n =>
      '(_, out, b') ← Buf.evbuffer_remove n b;
      Val (b', came, went ++ out)
  end.
Fixpoint io_run (ops : list io_op) (s : Evb * list byte * list byte)
  : outcome (Evb * list byte * list byte) :=
  match ops with
  | [] => Val s
  | op :: ops => s ← io_step op s; io_run ops s
  end.

(** [writev] takes at most what it is offered. *)
Definition io_fair (op : io_op) : Prop :=
  match op with
  | IoRead _ _ _ => True
  | IoWrite wr _ => ∀ data, -1 <= wr data <= Zlen data
  | IoTake n => 0 <= n
  end.

Lemma io_step_spec op b came went :
  evb_inv b → came = went ++ bytes b → io_fair op →
  ∃ b' came' went', io_step op (b, came, went) = Val (b', came', went') ∧ evb_inv b' ∧
    came' = went' ++ bytes b' ∧ came `prefix_of` came' ∧ went `prefix_of` went'.
Proof.
  intros Hb -> Hf. destruct op as [readable rd howmuch|wr howmuch|n]; cbn [io_step].
  - destruct (evbuffer_read_spec readable rd howmuch b Hb) as (r & b' & -> & Hb' & Hr). cbn.
    eexists _, _, _. split; [done|]. split; [done|].
    destruct Hr as [(-> & -> & _)|(data & -> & -> & ->)]; cbn [from_option id default].
    + rewrite ztake_0, app_nil_r by lia. auto.
    + split; [rewrite <- app_assoc; do 2 f_equal|split; [by apply prefix_app_r|done]].
      pose proof (read_size_range readable howmuch). rewrite Zlen_ztake.
      destruct (decide (read_size readable howmuch <= Zlen data)); [f_equal; pose proof (Zlen_nonneg data); lia|].
      by rewrite !ztake_all by (pose proof (Zlen_nonneg data); lia).
  - destruct (write_atmost_spec wr (λ _ _, (-1, false)) howmuch b Hb Hf) as (n & b' & -> & Hb' & _ & _ & Hn & Hbs). cbn.
    eexists _, _, _. split; [done|]. split; [done|]. split; [|split; [done|by apply prefix_app_r]].
    rewrite <- app_assoc. f_equal. rewrite Hbs. destruct (decide (n <= 0)).
    + by rewrite ztake_0, Z.max_l, zdrop_0 by lia.
    + rewrite Z.max_r by lia. symmetry. apply ztake_zdrop.
  - destruct (evbuffer_remove_spec n b Hb Hf) as (b' & -> & Hb' & _ & Hbs). cbn.
    eexists _, _, _. split; [done|]. split; [done|]. split; [|split; [done|by apply prefix_app_r]].
    rewrite <- app_assoc, Hbs. f_equal. symmetry. apply ztake_zdrop.
Qed.

(** C23.  A buffer is a first-in first-out stream.  Assumed ([io_fair]): writev reports an error or at
    most the bytes it was handed, and the program asks to remove a number that is not negative;
    sendfile is not used.  Then however reads from the descriptor, writes to it and removals follow
    each other, from a fresh buffer on: every call is defined, and the bytes that went out so far -
    what was in the vectors handed to writev, as far as it was taken, and what the program was
    given - followed by the bytes in the buffer are exactly the bytes that came in, in order. *)
Theorem stream_is_fifo ops :
  Forall io_fair ops →
  ∃ b came went, io_run ops (evbuffer_new, [], []) = Val (b, came, went) ∧ evb_inv b ∧
    came = went ++ bytes b.
Proof.
  intros Hf.
  enough (∀ s, evb_inv s.1.1 → s.1.2 = s.2 ++ bytes s.1.1 →
    ∃ b came went, io_run ops s = Val (b, came, went) ∧ evb_inv b ∧ came = went ++ bytes b) as P.
  { apply P; [apply evbuffer_new_inv|done]. }
  induction Hf as [|op ops Hop _ IH]; intros [[b came] went] Hb Hs; cbn in Hb, Hs; cbn [io_run].
  - by exists b, came, went.
  - destruct (io_step_spec op b came went Hb Hs Hop) as (b' & came' & went' & -> & Hb' & Hs' & _).
    cbn [mbind outcome_bind]. by apply IH.
Qed.

(** Space reserved in one piece, filled and committed is data appended, on a buffer
    without unused chains and with memory to spare. *)
Theorem reserve_then_commit size data b :
  evb_inv b → writable b → reliable → Zlen data <= size <= evb_limit →
  ∃ v b1 b2 b3, evbuffer_reserve_space size 1 b = Val (1, [v], b1) ∧ size <= iov_len v ∧
    user_store v data b1 = Val b2 ∧ evbuffer_commit_space [shorten (Zlen data) v] b2 = Val (0, b3) ∧
    evb_inv b3 ∧ bytes b3 = bytes b ++ data.
Proof.
  intros Hb Hw Hr Hs. pose proof (Zlen_nonneg data).
  destruct (reserve_one_spec size b Hb ltac:(lia)) as [[_ Hoom]|(v & b1 & c & E & Hroom & Hc & Hat & Hlen)];
    [by apply reliable_memory in Hoom|].
  destruct Hroom as (Hb1 & Hbs1 & Hend & Hlast & c' & Hc' & Hsz).
  rewrite Hc in Hc'. injection Hc' as <-.
  destruct (commit_last_spec v data b b1) as (b2 & b3 & E2 & E3 & Hb3 & Hbs3).
  - repeat (split; [done|]). exists c. split; [done|lia].
  - done.
  - by rewrite Hc.
  - change evb_limit with (2 ^ 61) in Hs. lia.
  - exists v, b1, b2, b3. repeat (split; [done || lia|]). done.
Qed.
End stream.

(** ** Where buffer.c falls short *)

Section limits.
Context `{Malloc}.

Lemma alloc_zero fuel s : 0 < s → chain_alloc_size fuel 0 s = Undef Hang.
Proof.
  intros Hs. induction fuel as [|fuel IH]; cbn [chain_alloc_size]; (destruct (Z.ltb_spec 0 s); [|lia]); [done|].
  exact IH.
Qed.

Lemma alloc_hangs k fuel s :
  (k <= 63)%nat → 2 ^ 63 < s < 2 ^ 64 → chain_alloc_size fuel (2 ^ Z.of_nat (63 - k)) s = Undef Hang.
Proof.
  revert fuel. induction k as [|k IH]; intros fuel Hk Hs; destruct fuel as [|fuel]; cbn [chain_alloc_size].
  1-2: change (2 ^ Z.of_nat (63 - 0)) with (2 ^ 63); destruct (Z.ltb_spec (2 ^ 63) s); [|lia]; try done.
  - rewrite <- (alloc_zero fuel s) by lia. f_equal.
  - destruct (Z.ltb_spec (2 ^ Z.of_nat (63 - S k)) s); [done|].
    assert (2 ^ Z.of_nat (63 - S k) <= 2 ^ 63) by (apply Z.pow_le_mono_r; lia). lia.
  - assert (2 ^ Z.of_nat (63 - S k) <= 2 ^ 62) by (apply Z.pow_le_mono_r; lia).
    destruct (Z.ltb_spec (2 ^ Z.of_nat (63 - S k)) s); [|lia].
    assert (u64 (Z.shiftl (2 ^ Z.of_nat (63 - S k)) 1) = 2 ^ Z.of_nat (63 - k)) as ->; [|apply IH; lia].
    rewrite Z.shiftl_mul_pow2, u64_small by (try lia; pose proof (Z.pow_pos_nonneg 2 (Z.of_nat (63 - S k))); lia).
    replace (63 - k)%nat with (S (63 - S k)) by lia. rewrite Nat2Z.inj_succ, Z.pow_succ_r by lia. lia.
Qed.

(** The size of a new chain is computed without a check.  Requests up to 2^62 - 48 bytes
    get the room they ask for; from 2^63 - 47 bytes on the doubling loop never ends, and
    within 48 bytes of 2^64 the sum wraps around and the chain has 976 bytes. *)
Theorem chain_new_sizes size :
  0 <= size < 2 ^ 64 → malloc_ok 1024 = true →
  (size + 48 <= 2 ^ 62 → ∃ c, evbuffer_chain_new size = Val c ∧ ∀ ch, c = Some ch → size <= ch_buffer_len ch) ∧
  (2 ^ 63 - 48 < size < 2 ^ 64 - 48 → evbuffer_chain_new size = Undef Hang) ∧
  (2 ^ 64 - 48 <= size → ∃ ch, evbuffer_chain_new size = Val (Some ch) ∧ ch_buffer_len ch = 976).
Proof.
  intros Hs Hm. split; [|split].
  - intros Hle. destruct (chain_new_spec size ltac:(lia) Hle) as (len & H1 & H2 & H3 & ->).
    eexists. split; [done|]. intros ch E. destruct (malloc_ok (len + EVBUFFER_CHAIN_SIZE)); [|done].
    injection E as <-.
    unfold ch_buffer_len. cbn [ch_buffer]. rewrite Zlen_replicate. lia.
  - intros Hr. unfold evbuffer_chain_new. rewrite (u64_small size) by lia. unfold EVBUFFER_CHAIN_SIZE.
    rewrite u64_small by lia. change MIN_BUFFER_SIZE with (2 ^ Z.of_nat (63 - 53)).
    by rewrite alloc_hangs by lia.
  - intros Hr. unfold evbuffer_chain_new, EVBUFFER_CHAIN_SIZE. rewrite (u64_small size) by lia.
    assert (u64 (size + 48) = size + 48 - 2 ^ 64) as ->.
    { unfold u64. symmetry. apply (Z.mod_unique_pos _ _ 1); lia. }
    cbn [chain_alloc_size]. unfold MIN_BUFFER_SIZE. destruct (Z.ltb_spec 1024 (size + 48 - 2 ^ 64)); [lia|].
    cbn [mbind outcome_bind]. rewrite Hm. eexists. split; [done|]. unfold ch_buffer_len. cbn [ch_buffer].
    rewrite Zlen_replicate. lia.
Qed.

(** Adding to a buffer that ends in two unused chains puts the bytes behind an empty
    chain and leaves [last_with_datap] behind; inserting a chain after that trips an
    assertion. *)
Theorem add_behind_unused_chains b pre c e l data :
  evb_inv b → eb_chains b = pre ++ [c; e; l] → eb_lwd b = length pre → 0 < ch_off c →
  0 < Zlen data <= CHAIN_SPACE_LEN l →
  ∃ b', Buf.evbuffer_add data b = Val (0, b') ∧ bytes b' = bytes b ++ data ∧
    ∀ t, Buf.evbuffer_chain_insert t b' = Undef AssertFail.
Proof.
  intros Hb Hcs Hl Hc Hd. pose proof (wf_chains _ Hb) as Hok.
  destruct (shape_split (length pre) (eb_chains b) (eb_lwd b) c [e; l]) as (full & empt & Hr & Hf & He & Hlw & _);
    [apply Hb|rewrite Hcs; by rewrite drop_app_length|done|].
  assert (full = []) as -> by (apply length_zero_iff_nil; lia). cbn [app] in Hr. subst empt.
  apply Forall_cons in He as [He0 Hl0]. rewrite Forall_singleton in Hl0.
  rewrite Hcs in Hok. apply Forall_app in Hok as [_ Hok]. rewrite !Forall_cons in Hok.
  destruct Hok as (Hokc & Hoke & Hokl & _).
  unfold Buf.evbuffer_add. rewrite (proj2 (wf_thawed _ Hb)).
  assert (Buf.ensure_chain (Zlen data) b = Val (Some b)) as ->.
  { unfold Buf.ensure_chain. rewrite Hcs. by destruct pre. }
  cbn [mbind outcome_bind]. unfold eb_last.
  replace (pre ++ [c; e; l]) with ((pre ++ [c; e]) ++ [l]) in Hcs by by rewrite <- app_assoc.
  rewrite Hcs, last_snoc. cbn [or_undef mbind outcome_bind]. rewrite (ok_mutable _ Hokl). cbn [negb].
  rewrite space_ok in Hd by done.
  destruct (Z.geb_spec (ch_buffer_len l - ch_misalign l - ch_off l) (Zlen data)); [|lia].
  destruct (chain_store_end l data Hokl ltac:(lia)) as (l' & Hst & Ho & Hok' & Hd'). unfold Buf.fill_last. rewrite Hst.
  cbn [mbind outcome_bind]. eexists. split; [done|]. rewrite Ho. set (l2 := set_off _ l') in *.
  assert (<[last_index b := l2]> (eb_chains b) = (pre ++ [c; e]) ++ [l2]) as Hins.
  { unfold last_index. rewrite Hcs, length_app. cbn [length]. rewrite Nat.add_1_r. cbn [pred].
    by rewrite insert_app_r_alt, Nat.sub_diag by lia. }
  assert (eb_chains (evbuffer_invoke_callbacks (count_added (Zlen data)
     (add_total (Zlen data) (put_chain (last_index b) l2 b)))) = pre ++ [c; e; l2]) as Hcs'.
  { rewrite <- (same_chains _ _ (same_invoke _)). cbn. rewrite Hins. by rewrite <- app_assoc. }
  assert (eb_lwd (evbuffer_invoke_callbacks (count_added (Zlen data)
     (add_total (Zlen data) (put_chain (last_index b) l2 b)))) = length pre) as Hl'.
  { rewrite <- (same_lwd _ _ (same_invoke _)). done. }
  split.
  - unfold bytes. rewrite Hcs', Hcs, <- app_assoc. cbn [app].
    rewrite !chains_data_app, !chains_data_cons, Hd', (chain_data_empty l), (chain_data_empty e) by done.
    change (chains_data []) with (@nil byte). rewrite !app_nil_r. cbn [app]. by rewrite <- app_assoc.
  - intros t. unfold Buf.evbuffer_chain_insert, Buf.victim_index. rewrite Hcs', Hl'.
    rewrite list_lookup_middle by done. rewrite drop_app_length. cbn [Buf.victim].
    destruct (Z.eqb_spec (ch_off c) 0); [lia|]. rewrite He0, (ok_unpinned _ Hoke). cbn [negb orb Z.eqb].
    rewrite length_app. cbn [length]. destruct (Nat.eqb_spec (length pre + 1) (length pre + 3)); [lia|].
    rewrite drop_app_ge by lia. replace (length pre + 1 - length pre)%nat with 1%nat by lia. cbn [drop Buf.all_empty forallb].
    rewrite He0. unfold l2. cbn [ch_off set_off]. destruct (Z.eqb_spec (ch_off l + Zlen data) 0); [lia|]. done.
Qed.

(** Bytes prepended in a new chain in front of a chain without a gap are not
    reported to the callbacks: the count added is the gap, not the bytes. *)
Theorem prepend_not_reported data b c rest :
  evb_inv b → eb_chains b = c :: rest → 0 < ch_off c → ch_misalign c = 0 → 0 < Zlen data <= evb_limit →
  reliable → eb_n_add_for_cb b = 0 → eb_n_del_for_cb b = 0 → eb_deferred_cbs (eb_cb b) = false →
  ∃ b', Buf.evbuffer_prepend data b = Val (0, b') ∧ bytes b' = data ++ bytes b ∧
    eb_calls (eb_cb b') = eb_calls (eb_cb b).
Proof.
  intros Hb Hcs Hc Hm Hd Hr Hna Hnd Hdef. pose proof (wf_chains _ Hb) as Hok. rewrite Hcs in Hok.
  apply Forall_cons in Hok as [Hokc _].
  unfold Buf.evbuffer_prepend, Buf.ensure_chain. rewrite (proj1 (wf_thawed _ Hb)), Hcs. cbn [mbind outcome_bind].
  rewrite Hcs. cbn [head or_undef mbind outcome_bind]. rewrite (ok_mutable _ Hokc). cbn [negb].
  destruct (Z.eqb_spec (ch_off c) 0); [lia|]. rewrite Hm. destruct (Z.geb_spec 0 (Zlen data)); [lia|]. cbn [Z.eqb negb].
  assert (put_chain 0 c b = b) as ->.
  { unfold put_chain. rewrite Hcs. cbn. rewrite <- Hcs. by destruct b. }
  destruct (prepend_new_chain_spec data b c rest c Hb Hcs Hc (proj1 Hd) (proj2 Hd)) as [[_ Hoom]|(b' & E & _ & _ & Hbs)];
    [by apply reliable_memory in Hoom|].
  exists b'. split; [done|]. split; [done|]. revert E. unfold Buf.prepend_new_chain.
  destruct (evbuffer_chain_new (Zlen data)) as [[t|]|]; cbn [mbind outcome_bind]; [|done..].
  destruct (chain_store _ _ _) as [t'|]; [|done]. cbn [mbind outcome_bind]. rewrite Hm.
  intros E. apply Val_inj, pair_equal_spec in E as [_ <-].
  unfold evbuffer_invoke_callbacks. cbn [eb_cb count_added set_counts set_chains].
  destruct (eb_callbacks (eb_cb b)) eqn:Ecb; [done|]. rewrite Hdef. unfold evbuffer_run_callbacks.
  cbn [eb_cb count_added set_counts set_chains eb_n_add_for_cb eb_n_del_for_cb]. rewrite Hdef, Ecb, Hna, Hnd. done.
Qed.
End limits.
