(* ===== verification/BufSearch.v ===== *)
(** Evbuffers: positions, searching and lines
    (deps/libevent-2.0.21-stable/buffer.c), on the data of BufChain.v.

    A position names a chain by its index, [None] for the null pointer.  The
    [memchr] and [memcmp] of the C library are the definitions on byte lists. *)

From S2P Require Import Prelude BufChain BufOps.

(** ** Bytes *)

Definition CR : byte := z2b 13.
Definition LF : byte := z2b 10.

(** The index of the first byte with [f]. *)
Fixpoint index_of (f : byte → bool) (l : list byte) : option Z :=
  match l with
  | [] => None
  | x :: l => if f x then Some 0 else Z.succ <$> index_of f l
  end.

Definition byte_eqb (x y : byte) : bool := b2z x =? b2z y.
Definition memchr (chr : byte) (l : list byte) : option Z := index_of (byte_eqb chr) l.

Fixpoint memcmp (l l' : list byte) : Z :=
  match l, l' with
  | x :: l, y :: l' => if b2z x =? b2z y then memcmp l l' else b2z x - b2z y
  | _, _ => 0
  end.

(** ** Positions *)

Record evbuffer_ptr := { p_pos : Z; p_chain : option nat; p_in : Z }.

Definition ptr_start (b : Evb) : evbuffer_ptr :=
  {| p_pos := 0; p_chain := match eb_chains b with [] => None | _ => Some 0%nat end; p_in := 0 |}.

(** The pointer to chain [k] of the list [cs]. *)
Definition chain_at (cs : list Chain) (k : nat) : option nat :=
  match cs !! k with Some _ => Some k | None => None end.
Definition next_chain (b : Evb) (k : nat) : option nat := chain_at (eb_chains b) (S k).

Inductive evbuffer_ptr_how := EVBUFFER_PTR_SET | EVBUFFER_PTR_ADD.

(** The walk over the chains; [size_t] arithmetic. *)
Fixpoint ptr_walk (cs : list Chain) (k : nat) (position left : Z) : option (nat * Z) :=
  match cs with
  | [] => None
  | c :: cs =>
      if u64 (position + left) >=? ch_off c
      then ptr_walk cs (S k) 0 (u64 (left - (ch_off c - position)))
      else Some (k, u64 (position + left))
  end.

Definition evbuffer_ptr_set (b : Evb) (pos : evbuffer_ptr) (position : Z) (how : evbuffer_ptr_how)
  : Z * evbuffer_ptr :=
  let '(k, newpos, position') :=
    match how with
    | EVBUFFER_PTR_SET => (p_chain (ptr_start b), i64 position, 0)
    | EVBUFFER_PTR_ADD => (p_chain pos, i64 (p_pos pos + position), p_in pos)
    end in
  match match k with
        | Some k => ptr_walk (drop k (eb_chains b)) k position' position
        | None => None
        end with
  | Some (k, i) => (0, {| p_pos := newpos; p_chain := Some k; p_in := i |})
  | None => (-1, {| p_pos := -1; p_chain := None; p_in := p_in pos |})
  end.

(** ** Scanning *)

(** The loop of [evbuffer_strchr] and [evbuffer_find_eol_char]: [find] is applied to
    what is left of each chain. *)
Fixpoint scan_chains (find : list byte → option Z) (cs : list Chain) (k : nat) (i pos : Z)
  : outcome (option evbuffer_ptr) :=
  match cs with
  | [] => Val None
  | c :: cs =>
      data ← chain_load (ch_misalign c + i) (ch_off c - i) c;
      match find data with
      | Some n => Val (Some {| p_pos := pos + n; p_chain := Some k; p_in := i + n |})
      | None => scan_chains find cs (S k) 0 (pos + (ch_off c - i))
      end
  end.

(** [None] for the result -1. *)
Definition scan (find : list byte → option Z) (b : Evb) (it : evbuffer_ptr)
  : outcome (option evbuffer_ptr) :=
  match p_chain it with
  | Some k => scan_chains find (drop k (eb_chains b)) k (p_in it) (p_pos it)
  | None => Val None
  end.

Definition evbuffer_strchr (b : Evb) (it : evbuffer_ptr) (chr : byte) : outcome (option evbuffer_ptr) :=
  scan (memchr chr) b it.

(** Chunks of 128 bytes. *)
Definition CHUNK_SZ : Z := 128.
Fixpoint eol_chunks (fuel : nat) (s : list byte) : option Z :=
  match fuel, s with
  | S fuel, _ :: _ =>
      let chunk := ztake CHUNK_SZ s in
      match memchr CR chunk, memchr LF chunk with
      | Some cr, Some lf => if lf <? cr then Some lf else Some cr
      | Some cr, None => Some cr
      | None, Some lf => Some lf
      | None, None => Z.add CHUNK_SZ <$> eol_chunks fuel (zdrop CHUNK_SZ s)
      end
  | _, _ => None
  end.
Definition find_eol_char (s : list byte) : option Z := eol_chunks (length s) s.

Definition evbuffer_find_eol_char (b : Evb) (it : evbuffer_ptr) : outcome (option evbuffer_ptr) :=
  scan find_eol_char b it.

(** The number of bytes of [chrset] at the front. *)
Fixpoint span (chrset : list byte) (l : list byte) : Z :=
  match l with
  | x :: l => if existsb (byte_eqb x) chrset then 1 + span chrset l else 0
  | [] => 0
  end.

(** [count] is an int. *)
Fixpoint strspn_chains (chrset : list byte) (cs : list Chain) (k : nat) (i pos count : Z)
  : outcome (Z * evbuffer_ptr) :=
  match cs with
  | [] => Undef NullDeref
  | c :: cs =>
      data ← (if i <? ch_off c then chain_load (ch_misalign c + i) (ch_off c - i) c else Val []);
      let n := span chrset data in
      if count + n >? 2 ^ 31 - 1 then Undef Overflow
      else if n <? Zlen data then
        Val (count + n, {| p_pos := pos + (count + n); p_chain := Some k; p_in := i + n |})
      else
        match cs with
        | [] => Val (count + n, {| p_pos := pos + (count + n); p_chain := Some k; p_in := 0 |})
        | _ => strspn_chains chrset cs (S k) 0 pos (count + n)
        end
  end.

Definition evbuffer_strspn (b : Evb) (ptr : evbuffer_ptr) (chrset : list byte) : outcome (Z * evbuffer_ptr) :=
  match p_chain ptr with
  | Some k => strspn_chains chrset (drop k (eb_chains b)) k (p_in ptr) (p_pos ptr) 0
  | None => Val (-1, ptr)
  end.

Definition evbuffer_getchr (b : Evb) (it : evbuffer_ptr) : outcome byte :=
  k ← or_undef NullDeref (p_chain it);
  c ← or_undef NullDeref (eb_chains b !! k);
  data ← chain_load (ch_misalign c + p_in it) 1 c;
  or_undef OutOfBounds (head data).

(** ** Comparing and searching *)

Fixpoint memcmp_chains (cs : list Chain) (position : Z) (mem : list byte) : outcome Z :=
  match mem, cs with
  | [], _ | _, [] => Val 0
  | _, c :: cs =>
      let n_comparable := if Zlen mem + position >? ch_off c then ch_off c - position else Zlen mem in
      data ← chain_load (ch_misalign c + position) n_comparable c;
      let r := memcmp data (ztake n_comparable mem) in
      if negb (r =? 0) then Val r else memcmp_chains cs 0 (zdrop n_comparable mem)
  end.

Definition evbuffer_ptr_memcmp (b : Evb) (pos : evbuffer_ptr) (mem : list byte) : outcome Z :=
  if u64 (p_pos pos + Zlen mem) >? eb_total_len b then Val (-1)
  else
    match p_chain pos with
    | Some k => memcmp_chains (drop k (eb_chains b)) (p_in pos) mem
    | None => Val 0
    end.

Definition not_found (pos : evbuffer_ptr) : evbuffer_ptr :=
  {| p_pos := -1; p_chain := None; p_in := p_in pos |}.

(** The search loop; a round either moves to the next chain or passes a byte. *)
Fixpoint search_loop (fuel : nat) (b : Evb) (what : list byte) (first : byte) (end_ : option evbuffer_ptr)
  (pos : evbuffer_ptr) : outcome evbuffer_ptr :=
  match fuel with
  | O => Undef Hang
  | S fuel =>
      match p_chain pos with
      | None => Val (not_found pos)
      | Some k =>
          c ← or_undef NullDeref (eb_chains b !! k);
          data ← chain_load (ch_misalign c + p_in pos) (ch_off c - p_in pos) c;
          match memchr first data with
          | Some n =>
              let pos := {| p_pos := p_pos pos + n; p_chain := Some k; p_in := p_in pos + n |} in
              r ← evbuffer_ptr_memcmp b pos what;
              if r =? 0 then
                Val (match end_ with
                     | Some e => if p_pos pos + Zlen what >? p_pos e then not_found pos else pos
                     | None => pos
                     end)
              else
                let i := p_in pos + 1 in
                search_loop fuel b what first end_
                  (if i =? ch_off c
                   then {| p_pos := p_pos pos + 1; p_chain := next_chain b k; p_in := 0 |}
                   else {| p_pos := p_pos pos + 1; p_chain := Some k; p_in := i |})
          | None =>
              if match end_ with
                 | Some e => match p_chain e with Some l => (k =? l)%nat | None => false end
                 | None => false
                 end
              then Val (not_found pos)
              else
                search_loop fuel b what first end_
                  {| p_pos := p_pos pos + (ch_off c - p_in pos); p_chain := next_chain b k; p_in := 0 |}
          end
      end
  end.

Definition search_fuel (b : Evb) : nat := S (Z.to_nat (eb_total_len b) + length (eb_chains b)).

Definition evbuffer_search_range (b : Evb) (what : list byte) (start end_ : option evbuffer_ptr)
  : outcome evbuffer_ptr :=
  let pos := match start with Some p => p | None => ptr_start b end in
  match what with
  | [] => Val pos
  | first :: _ =>
      if Zlen what >? 2 ^ 63 - 1 then Val pos
      else search_loop (search_fuel b) b what first end_ pos
  end.

Definition evbuffer_search (b : Evb) (what : list byte) (start : option evbuffer_ptr) : outcome evbuffer_ptr :=
  evbuffer_search_range b what start None.

(** ** Lines *)

Inductive evbuffer_eol_style :=
  | EVBUFFER_EOL_ANY | EVBUFFER_EOL_CRLF | EVBUFFER_EOL_CRLF_STRICT | EVBUFFER_EOL_LF.

(** The loop for [EVBUFFER_EOL_CRLF]. *)
Fixpoint crlf_loop (fuel : nat) (b : Evb) (it : evbuffer_ptr) : outcome (option (evbuffer_ptr * Z)) :=
  match fuel with
  | O => Undef Hang
  | S fuel =>
      found ← evbuffer_find_eol_char b it;
      match found with
      | None => Val None
      | Some it =>
          ch ← evbuffer_getchr b it;
          if byte_eqb ch LF then Val (Some (it, 1))
          else
            r ← evbuffer_ptr_memcmp b it [CR; LF];
            if r =? 0 then Val (Some (it, 2))
            else
              let '(r, it) := evbuffer_ptr_set b it 1 EVBUFFER_PTR_ADD in
              if r <? 0 then Val None else crlf_loop fuel b it
      end
  end.

(** The position and the length of the end of line; [None] for [pos] = -1. *)
Definition evbuffer_search_eol (b : Evb) (start : option evbuffer_ptr) (style : evbuffer_eol_style)
  : outcome (option (evbuffer_ptr * Z)) :=
  let it := match start with Some p => p | None => ptr_start b end in
  match style with
  | EVBUFFER_EOL_ANY =>
      found ← evbuffer_find_eol_char b it;
      match found with
      | None => Val None
      | Some it => '(n, _) ← evbuffer_strspn b it [CR; LF]; Val (Some (it, n))
      end
  | EVBUFFER_EOL_CRLF_STRICT =>
      it ← evbuffer_search b [CR; LF] (Some it);
      Val (if p_pos it <? 0 then None else Some (it, 2))
  | EVBUFFER_EOL_CRLF => crlf_loop (search_fuel b) b it
  | EVBUFFER_EOL_LF =>
      found ← evbuffer_strchr b it LF;
      Val (match found with None => None | Some it => Some (it, 1) end)
  end.

(** The line without its end, [None] for the null pointer. *)
Definition evbuffer_readln `{Malloc} (b : Evb) (style : evbuffer_eol_style) : outcome (option (list byte) * Evb) :=
  if eb_freeze_start b then Val (None, b)
  else
    e ← evbuffer_search_eol b None style;
    match e with
    | None => Val (None, b)
    | Some (it, extra_drain) =>
        let n_to_copy := p_pos it in
        if malloc_ok (n_to_copy + 1) then
          '(_, line, b) ← Buf.evbuffer_remove n_to_copy b;
          '(_, b) ← Buf.evbuffer_drain extra_drain b;
          Val (Some line, b)
        else Val (None, b)
    end.

Definition evbuffer_readline `{Malloc} (b : Evb) : outcome (option (list byte) * Evb) :=
  evbuffer_readln b EVBUFFER_EOL_ANY.

(** The bytes found, made contiguous, from the position on. *)
Definition evbuffer_find `{Malloc} (b : Evb) (what : list byte) : outcome (option (list byte) * Evb) :=
  ptr ← evbuffer_search b what None;
  if p_pos ptr <? 0 then Val (None, b)
  else
    '(search, b) ← Buf.evbuffer_pullup (p_pos ptr + Zlen what) b;
    Val (match search with Some s => Some (zdrop (p_pos ptr) s) | None => None end, b).

(** ** Looking at the chains *)

Fixpoint peek_loop (cs : list Chain) (k idx : nat) (len len_so_far n_vec : Z) : list (nat * Z * Z) * nat :=
  match cs with
  | [] => ([], idx)
  | c :: cs =>
      if (len >=? 0) && (len_so_far >=? len) then ([], idx)
      else if (Z.of_nat idx <? n_vec) then
        let '(vs, idx) := peek_loop cs (S k) (S idx) len (len_so_far + ch_off c) n_vec in
        ((k, ch_misalign c, ch_off c) :: vs, idx)
      else if len <? 0 then ([], idx)
      else peek_loop cs (S k) (S idx) len (len_so_far + ch_off c) n_vec
  end.

(** The number of vectors needed and those filled in: chain, offset, length. *)
Definition evbuffer_peek (b : Evb) (len : Z) (start_at : option evbuffer_ptr) (n_vec : Z)
  : outcome (Z * list (nat * Z * Z)) :=
  match start_at with
  | Some p =>
      k ← or_undef NullDeref (p_chain p);
      c ← or_undef NullDeref (eb_chains b !! k);
      let len_so_far := ch_off c - p_in p in
      let v0 := if n_vec >? 0 then [(k, ch_misalign c + p_in p, len_so_far)] else [] in
      let len := if (n_vec =? 0) && (len <? 0) then eb_total_len b - len_so_far else len in
      let '(vs, idx) := peek_loop (drop (S k) (eb_chains b)) (S k) 1 len len_so_far n_vec in
      Val (Z.of_nat idx, v0 ++ vs)
  | None =>
      let len := if (n_vec =? 0) && (len <? 0) then eb_total_len b else len in
      let '(vs, idx) := peek_loop (eb_chains b) 0 0 len 0 n_vec in
      Val (Z.of_nat idx, vs)
  end.
