(* ===== verification/BufLines.v ===== *)
(** Searching an evbuffer is searching its bytes: the operations of BufSearch.v
    against reference definitions on byte lists. *)

From S2P Require Import Prelude EvbufferApi BufChain BufOps BufRefine BufSearch.

(** ** Searching byte lists *)

Lemma byte_eqb_eq x y : byte_eqb x y = true ↔ x = y.
Proof.
  unfold byte_eqb. rewrite Z.eqb_eq. split; [|by intros ->]. intros E.
  rewrite <- (z2b_b2z x), <- (z2b_b2z y). by rewrite E.
Qed.

Lemma byte_eqb_refl x : byte_eqb x x = true.
Proof. by apply byte_eqb_eq. Qed.

Lemma index_of_app f l l' :
  index_of f (l ++ l') =
    match index_of f l with Some n => Some n | None => Z.add (Zlen l) <$> index_of f l' end.
Proof.
  induction l as [|x l IH]; cbn [app index_of].
  - by destruct (index_of f l') as [n|].
  - destruct (f x); [done|]. rewrite IH. destruct (index_of f l); [done|].
    rewrite Zlen_cons. destruct (index_of f l'); cbn; [f_equal; lia|done].
Qed.

Lemma index_of_range f l n : index_of f l = Some n → 0 <= n < Zlen l.
Proof.
  revert n. induction l as [|x l IH]; intros n; cbn [index_of]; [done|]. rewrite Zlen_cons.
  destruct (f x); [intros [= <-]; pose proof (Zlen_nonneg l); lia|].
  destruct (index_of f l) as [m|]; [|done]. intros [= <-]. specialize (IH m eq_refl). lia.
Qed.

(** The bytes before the index fail [f], the one at it satisfies [f]. *)
Lemma index_of_split f l n :
  index_of f l = Some n → ∃ x tl, zdrop n l = x :: tl ∧ f x = true ∧ index_of f (ztake n l) = None.
Proof.
  revert n. induction l as [|y l IH]; intros n; cbn [index_of]; [done|].
  destruct (f y) eqn:Ey; [intros [= <-]; by exists y, l|].
  destruct (index_of f l) as [m|] eqn:E; [|done]. intros [= <-].
  destruct (IH m eq_refl) as (x & tl & H1 & H2 & H3). pose proof (index_of_range _ _ _ E).
  exists x, tl. rewrite zdrop_cons, ztake_cons by lia.
  replace (Z.succ m - 1) with m by lia.
  split; [done|]. split; [done|]. cbn. by rewrite Ey, H3.
Qed.

Lemma index_of_or f g l :
  index_of (λ x, f x || g x) l =
    match index_of f l, index_of g l with
    | Some a, Some b => Some (Z.min a b) | Some a, None => Some a | None, o => o
    end.
Proof.
  induction l as [|x l IH]; cbn [index_of]; [done|]. destruct (f x) eqn:Ef, (g x) eqn:Eg; cbn [orb].
  - done.
  - destruct (index_of g l) eqn:E; cbn; [|done]. pose proof (index_of_range _ _ _ E). f_equal. lia.
  - destruct (index_of f l) eqn:E; cbn; [|done]. pose proof (index_of_range _ _ _ E). f_equal. lia.
  - rewrite IH. destruct (index_of f l), (index_of g l); cbn; try done. f_equal. lia.
Qed.

Definition is_eol (x : byte) : bool := byte_eqb CR x || byte_eqb LF x.

(** Looking at chunks of 128 bytes finds the first end-of-line byte. *)
Lemma eol_chunks_index fuel s : (length s <= fuel)%nat → eol_chunks fuel s = index_of is_eol s.
Proof.
  revert s. induction fuel as [|fuel IH]; intros s Hf; destruct s as [|x s]; try done; [cbn in Hf; lia|].
  cbn [eol_chunks]. set (l := x :: s) in *. 
  replace (index_of is_eol l) with (index_of is_eol (ztake CHUNK_SZ l ++ zdrop CHUNK_SZ l)) by by rewrite ztake_zdrop.
  rewrite index_of_app. unfold is_eol at 1. rewrite index_of_or. fold (memchr CR (ztake CHUNK_SZ l)).
  fold (memchr LF (ztake CHUNK_SZ l)).
  destruct (memchr CR (ztake CHUNK_SZ l)) as [cr|], (memchr LF (ztake CHUNK_SZ l)) as [lf|].
  - destruct (Z.ltb_spec lf cr); f_equal; lia.
  - done.
  - done.
  - rewrite IH.
    + destruct (index_of is_eol (zdrop CHUNK_SZ l)) as [n|] eqn:E; cbn; [|done]. f_equal.
      rewrite Zlen_ztake. destruct (decide (Zlen l <= CHUNK_SZ)).
      * rewrite zdrop_all in E by done. done.
      * unfold CHUNK_SZ in *. lia.
    + unfold zdrop. rewrite length_drop. subst l. cbn [length] in *. change (Z.to_nat CHUNK_SZ) with 128%nat. lia.
Qed.

Lemma find_eol_char_index s : find_eol_char s = index_of is_eol s.
Proof. by apply eol_chunks_index. Qed.

(** ** The bytes at a position *)

Lemma chain_load_part c i n :
  chain_ok c → 0 <= i → 0 <= n → i + n <= ch_off c →
  chain_load (ch_misalign c + i) n c = Val (ztake n (zdrop i (chain_data c))).
Proof.
  intros [H1 H2 H3 _ _ _ _ _] Hi Hn Hle. unfold chain_load, chain_data, ch_buffer_len in *.
  destruct (Z.leb_spec 0 (ch_misalign c + i)); [|lia]. destruct (Z.leb_spec 0 n); [|lia].
  destruct (Z.leb_spec (ch_misalign c + i + n) (Zlen (ch_buffer c))); [|lia]. cbn [andb]. f_equal.
  replace (ztake (ch_off c)) with (@ztake byte (ch_off c - i + i)) by (f_equal; lia).
  rewrite <- ztake_zdrop_comm by lia. rewrite zdrop_zdrop, ztake_ztake by lia. f_equal; [lia|]. f_equal. lia.
Qed.

Lemma chain_load_rest c i :
  chain_ok c → 0 <= i <= ch_off c → chain_load (ch_misalign c + i) (ch_off c - i) c = Val (zdrop i (chain_data c)).
Proof.
  intros Hc Hi. rewrite chain_load_part by (done || lia). rewrite ztake_all; [done|].
  rewrite Zlen_zdrop, Zlen_chain_data by done. lia.
Qed.

(** A position [p] of [b]: its chain and offset lead to byte [p_pos p]. *)
Definition ptr_ok (b : Evb) (p : evbuffer_ptr) : Prop :=
  match p_chain p with
  | Some k => ∃ c, eb_chains b !! k = Some c ∧ 0 <= p_in p <= ch_off c ∧
                p_pos p = Zlen (chains_data (take k (eb_chains b))) + p_in p
  | None => p_pos p = Zlen (bytes b)
  end.

Lemma ptr_start_ok b : evb_inv b → ptr_ok b (ptr_start b).
Proof.
  intros Hb. unfold ptr_ok, ptr_start. cbn. destruct (eb_chains b) as [|c cs] eqn:E.
  - unfold bytes. by rewrite E.
  - exists c. split; [done|]. pose proof (wf_chains _ Hb) as Hok. rewrite E in Hok.
    apply Forall_cons in Hok as [Hc _]. pose proof (ok_off _ Hc). split; [lia|done].
Qed.

(** The bytes from a position on. *)
Lemma ptr_rest b p k c :
  evb_inv b → ptr_ok b p → p_chain p = Some k → eb_chains b !! k = Some c →
  zdrop (p_pos p) (bytes b) = zdrop (p_in p) (chain_data c) ++ chains_data (drop (S k) (eb_chains b)) ∧
  drop k (eb_chains b) = c :: drop (S k) (eb_chains b) ∧ chain_ok c ∧ 0 <= p_in p <= ch_off c ∧
  0 <= p_pos p <= Zlen (bytes b).
Proof.
  intros Hb Hp Hk Hc. unfold ptr_ok in Hp. rewrite Hk in Hp. destruct Hp as (c' & Hc' & Hin & Hpos).
  rewrite Hc in Hc'. injection Hc' as <-.
  assert (chain_ok c) as Hok by (eapply Forall_lookup_1; [apply Hb|exact Hc]).
  assert (drop k (eb_chains b) = c :: drop (S k) (eb_chains b)) as Hd by by apply drop_S.
  pose proof (Zlen_nonneg (chains_data (take k (eb_chains b)))) as H0.
  pose proof (Zlen_nonneg (chains_data (drop (S k) (eb_chains b)))) as H1.
  assert (bytes b = chains_data (take k (eb_chains b)) ++ chain_data c ++ chains_data (drop (S k) (eb_chains b))) as E.
  { unfold bytes. rewrite <- (chains_data_take_drop k (eb_chains b)) at 1. by rewrite Hd. }
  pose proof (Zlen_chain_data c Hok) as Hlc.
  split; [|split; [done|split; [done|split; [done|]]]].
  - rewrite E, Hpos, zdrop_app_r by lia. rewrite zdrop_app_l by lia. do 2 f_equal. lia.
  - rewrite E, !Zlen_app. lia.
Qed.

(** Moving on to the next chain. *)
Lemma ptr_next_ok b p k c :
  evb_inv b → ptr_ok b p → p_chain p = Some k → eb_chains b !! k = Some c →
  ptr_ok b {| p_pos := p_pos p + (ch_off c - p_in p); p_chain := next_chain b k; p_in := 0 |}.
Proof.
  intros Hb Hp Hk Hc. destruct (ptr_rest b p k c Hb Hp Hk Hc) as (_ & Hd & Hok & Hin & _).
  unfold ptr_ok in Hp. rewrite Hk in Hp. destruct Hp as (c' & Hc' & _ & Hpos).
  rewrite Hc in Hc'. injection Hc' as <-.
  assert (take (S k) (eb_chains b) = take k (eb_chains b) ++ [c]) as Ht by by apply take_S_r.
  assert (Zlen (chains_data (take (S k) (eb_chains b))) = Zlen (chains_data (take k (eb_chains b))) + ch_off c) as Hl.
  { by rewrite Ht, chains_data_app, chains_data_one, Zlen_app, Zlen_chain_data. }
  unfold ptr_ok, next_chain, chain_at. cbn. destruct (eb_chains b !! S k) as [d|] eqn:Ed; cbn.
  - exists d. split; [done|]. pose proof (wf_chains _ Hb) as Hall.
    assert (chain_ok d) as Hd' by (eapply Forall_lookup_1; [exact Hall|exact Ed]). pose proof (ok_off _ Hd').
    split; [lia|]. lia.
  - apply lookup_ge_None in Ed. rewrite take_ge in Hl by done. unfold bytes. lia.
Qed.

(** Moving within a chain. *)
Lemma ptr_add_ok b p k c n :
  ptr_ok b p → p_chain p = Some k → eb_chains b !! k = Some c → 0 <= n → p_in p + n <= ch_off c →
  ptr_ok b {| p_pos := p_pos p + n; p_chain := Some k; p_in := p_in p + n |}.
Proof.
  intros Hp Hk Hc Hn Hle. unfold ptr_ok in *. rewrite Hk in Hp. cbn. destruct Hp as (c' & Hc' & Hin & Hpos).
  rewrite Hc in Hc'. injection Hc' as <-. exists c. split; [done|]. lia.
Qed.

(** A position with a byte. *)
Definition at_byte (b : Evb) (p : evbuffer_ptr) : Prop :=
  ptr_ok b p ∧ ∃ k c, p_chain p = Some k ∧ eb_chains b !! k = Some c ∧ p_in p < ch_off c.

Lemma ptr_end b p : ptr_ok b p → p_chain p = None → zdrop (p_pos p) (bytes b) = [].
Proof. intros Hp E. unfold ptr_ok in Hp. rewrite E in Hp. apply zdrop_all. lia. Qed.

Lemma next_chain_scan find b k pos :
  (match next_chain b k with
   | Some k' => scan_chains find (drop k' (eb_chains b)) k' 0 pos
   | None => Val None
   end) = scan_chains find (drop (S k) (eb_chains b)) (S k) 0 pos.
Proof.
  unfold next_chain, chain_at. destruct (eb_chains b !! S k) eqn:E; [done|].
  apply lookup_ge_None in E. by rewrite drop_ge.
Qed.

Lemma scan_spec find f b p :
  evb_inv b → ptr_ok b p → (∀ l, find l = index_of f l) →
  match index_of f (zdrop (p_pos p) (bytes b)) with
  | Some n => ∃ q, scan find b p = Val (Some q) ∧ p_pos q = p_pos p + n ∧ at_byte b q
  | None => scan find b p = Val None
  end.
Proof.
  intros Hb Hp Hf. unfold scan. destruct (p_chain p) as [k|] eqn:Hk; [|by rewrite (ptr_end b p)].
  remember (length (eb_chains b) - k)%nat as m eqn:Hm. revert p k Hp Hk Hm.
  induction m as [|m IH]; intros p k Hp Hk Hm.
  { pose proof Hp as Hp'. unfold ptr_ok in Hp'. rewrite Hk in Hp'. destruct Hp' as (c & Hc & _).
    apply lookup_lt_Some in Hc. lia. }
  pose proof Hp as Hp'. unfold ptr_ok in Hp'. rewrite Hk in Hp'. destruct Hp' as (c & Hc & _).
  destruct (ptr_rest b p k c Hb Hp Hk Hc) as (Hrest & Hd & Hok & Hin & _).
  rewrite Hrest, Hd. cbn [scan_chains]. rewrite chain_load_rest by done. cbn [mbind outcome_bind].
  rewrite Hf, index_of_app. destruct (index_of f (zdrop (p_in p) (chain_data c))) as [n|] eqn:E.
  - apply index_of_range in E. rewrite Zlen_zdrop, Zlen_chain_data in E by done.
    eexists. split; [done|]. split; [done|]. split; [apply (ptr_add_ok b p k c); (done || lia)|].
    exists k, c. cbn. repeat (split; [done|]). lia.
  - set (q := {| p_pos := p_pos p + (ch_off c - p_in p); p_chain := next_chain b k; p_in := 0 |}).
    pose proof (ptr_next_ok b p k c Hb Hp Hk Hc) as Hq. fold q in Hq.
    assert (zdrop (p_pos q) (bytes b) = chains_data (drop (S k) (eb_chains b))) as Hqr.
    { unfold q. cbn [p_pos]. rewrite Z.add_comm, <- zdrop_zdrop, Hrest, zdrop_app_r.
      - rewrite Zlen_zdrop, Zlen_chain_data by done. by rewrite zdrop_0 by lia.
      - rewrite Zlen_zdrop, Zlen_chain_data by done. lia.
      - lia.
      - apply (ptr_rest b p k c Hb Hp Hk Hc). }
    rewrite <- next_chain_scan.
    replace (Zlen (zdrop (p_in p) (chain_data c))) with (ch_off c - p_in p)
      by (rewrite Zlen_zdrop, Zlen_chain_data by done; lia).
    destruct (next_chain b k) as [k'|] eqn:En.
    + assert (k' = S k) as ->.
      { unfold next_chain, chain_at in En. by destruct (eb_chains b !! S k); simplify_eq. }
      specialize (IH q (S k) Hq eq_refl ltac:(lia)). rewrite Hqr in IH. unfold q in IH. cbn [p_pos p_in] in IH.
      destruct (index_of f (chains_data (drop (S k) (eb_chains b)))) as [n|]; cbn; [|done].
      destruct IH as (q' & -> & Hpos & Hq'). exists q'. split; [done|]. split; [lia|done].
    + assert (index_of f (chains_data (drop (S k) (eb_chains b))) = None) as ->; [|done].
      rewrite <- Hqr, (ptr_end b q) by done. done.
Qed.

(** ** Comparing *)

Lemma memcmp_eq l l' : length l = length l' → memcmp l l' = 0 ↔ l = l'.
Proof.
  revert l'. induction l as [|x l IH]; intros [|y l'] Hl; try done. cbn [memcmp].
  destruct (Z.eqb_spec (b2z x) (b2z y)) as [E|E].
  - assert (x = y) as -> by by apply byte_eqb_eq, Z.eqb_eq. rewrite IH by by injection Hl. naive_solver.
  - split; [lia|]. intros [= -> ->]. done.
Qed.

Lemma memcmp_chains_spec cs position mem :
  Forall chain_ok cs → 0 <= position → match cs with [] => position = 0 | c :: _ => position <= ch_off c end →
  Zlen mem <= Zlen (zdrop position (chains_data cs)) →
  ∃ r, memcmp_chains cs position mem = Val r ∧
    (r = 0 ↔ ztake (Zlen mem) (zdrop position (chains_data cs)) = mem).
Proof.
  revert position mem. induction cs as [|c cs IH]; intros position mem Hok Hp0 Hpos Hl.
  { assert (mem = []) as ->.
    { apply Zlen_0_inv. rewrite Zlen_zdrop in Hl. change (Zlen (chains_data [])) with 0 in Hl.
      pose proof (Zlen_nonneg mem). lia. }
    by exists 0. }
  destruct mem as [|x mem']; [by exists 0|]. set (mem := x :: mem') in *. pose proof (Zlen_nonneg mem) as Hm0.
  apply Forall_cons in Hok as [Hc Hok]. cbn [memcmp_chains]. fold mem. cbv zeta.
  set (n := if Zlen mem + position >? ch_off c then ch_off c - position else Zlen mem).
  assert (n = Z.min (Zlen mem) (ch_off c - position)) as Hn.
  { unfold n. destruct (Z.gtb_spec (Zlen mem + position) (ch_off c)); lia. }
  clearbody n. rewrite chain_load_part by (done || lia). cbn [mbind outcome_bind].
  pose proof (Zlen_chain_data c Hc) as Hlc. rewrite chains_data_cons in *.
  rewrite zdrop_app_l in * by lia. set (d := zdrop position (chain_data c)) in *.
  assert (Zlen d = ch_off c - position) as Hld by (unfold d; rewrite Zlen_zdrop; lia).
  assert (memcmp (ztake n d) (ztake n mem) = 0 ↔ ztake n d = ztake n mem) as Hcmp.
  { apply memcmp_eq, Nat2Z.inj. fold (Zlen (ztake n d)) (Zlen (ztake n mem)). rewrite !Zlen_ztake. lia. }
  assert (ztake (Zlen mem) (d ++ chains_data cs) = mem ↔
    ztake n d = ztake n mem ∧ ztake (Zlen (zdrop n mem)) (chains_data cs) = zdrop n mem) as Hsplit.
  { destruct (decide (Zlen mem <= Zlen d)) as [Hle|Hgt].
    - assert (n = Zlen mem) as -> by lia. rewrite zdrop_all, (ztake_all (Zlen mem) mem), ztake_app_l by lia.
      change (Zlen []) with 0. rewrite (ztake_0 0 (chains_data cs)) by lia. naive_solver.
    - assert (n = Zlen d) as -> by lia. rewrite ztake_app_r, (ztake_all (Zlen d) d) by lia.
      rewrite Zlen_zdrop. replace (Z.max 0 (Zlen mem - Z.max 0 (Zlen d))) with (Zlen mem - Zlen d)
        by (pose proof (Zlen_nonneg d); lia).
      set (t := ztake (Zlen mem - Zlen d) (chains_data cs)). clearbody t. clearbody d. split.
      + intros E. rewrite <- E. by rewrite ztake_app_exact, zdrop_app_exact.
      + intros [E1 E2]. transitivity (ztake (Zlen d) mem ++ zdrop (Zlen d) mem); [by f_equal|apply ztake_zdrop]. }
  destruct (Z.eqb_spec (memcmp (ztake n d) (ztake n mem)) 0) as [E|E]; cbn [negb].
  2: { eexists. split; [done|]. rewrite Hsplit, <- Hcmp. tauto. }
  destruct (IH 0 (zdrop n mem) Hok ltac:(lia)) as (r & -> & Hr).
  - destruct cs as [|c' cs]; [done|]. apply Forall_cons in Hok as [Hc' _]. pose proof (ok_off _ Hc'). lia.
  - rewrite (zdrop_0 0 (chains_data cs)), Zlen_zdrop by lia. rewrite Zlen_app in Hl. pose proof (Zlen_nonneg (chains_data cs)). lia.
  - exists r. split; [done|]. rewrite (zdrop_0 0 (chains_data cs)) in Hr by lia. rewrite Hsplit, <- Hcmp. tauto.
Qed.

Lemma ptr_memcmp_spec b p mem :
  evb_inv b → ptr_ok b p → Zlen (bytes b) + Zlen mem < 2 ^ 64 →
  ∃ r, evbuffer_ptr_memcmp b p mem = Val r ∧
    (r = 0 ↔ ztake (Zlen mem) (zdrop (p_pos p) (bytes b)) = mem).
Proof.
  intros Hb Hp Hs. unfold evbuffer_ptr_memcmp. rewrite (wf_total _ Hb).
  pose proof (Zlen_nonneg (bytes b)). pose proof (Zlen_nonneg mem).
  assert (0 <= p_pos p <= Zlen (bytes b)) as Hpos.
  { destruct (p_chain p) as [k|] eqn:Hk.
    - pose proof Hp as Hp'. unfold ptr_ok in Hp'. rewrite Hk in Hp'. destruct Hp' as (c & Hc & _).
      apply (ptr_rest b p k c Hb Hp Hk Hc).
    - unfold ptr_ok in Hp. rewrite Hk in Hp. lia. }
  rewrite u64_small by lia. destruct (Z.gtb_spec (p_pos p + Zlen mem) (Zlen (bytes b))) as [Hgt|Hle].
  - exists (-1). split; [done|]. split; [lia|]. intros E. apply (f_equal Zlen) in E.
    rewrite Zlen_ztake, Zlen_zdrop in E. lia.
  - destruct (p_chain p) as [k|] eqn:Hk.
    + pose proof Hp as Hp'. unfold ptr_ok in Hp'. rewrite Hk in Hp'. destruct Hp' as (c & Hc & _).
      destruct (ptr_rest b p k c Hb Hp Hk Hc) as (Hrest & Hd & Hok & Hin & _).
      assert (zdrop (p_pos p) (bytes b) = zdrop (p_in p) (chains_data (drop k (eb_chains b)))) as E.
      { rewrite Hrest, Hd, chains_data_cons, zdrop_app_l; [done|]. rewrite Zlen_chain_data by done. lia. }
      rewrite E. apply memcmp_chains_spec.
      * apply Forall_drop, Hb.
      * lia.
      * rewrite Hd. lia.
      * rewrite <- E, Zlen_zdrop. lia.
    + exists 0. split; [done|]. rewrite (ptr_end b p) by done. unfold ptr_ok in Hp. rewrite Hk in Hp.
      assert (mem = []) as -> by (apply Zlen_0_inv; lia). done.
Qed.

(** ** The first occurrence *)

Fixpoint find_sub (w l : list byte) : option Z :=
  if bool_decide (ztake (Zlen w) l = w) then Some 0
  else match l with [] => None | _ :: l => Z.succ <$> find_sub w l end.

(** [find_sub] finds the first place where [w] occurs. *)
Lemma find_sub_first w l :
  match find_sub w l with
  | Some n => 0 <= n <= Zlen l ∧ ztake (Zlen w) (zdrop n l) = w ∧
              ∀ m, 0 <= m < n → ztake (Zlen w) (zdrop m l) ≠ w
  | None => ∀ m, 0 <= m <= Zlen l → ztake (Zlen w) (zdrop m l) ≠ w
  end.
Proof.
  induction l as [|x l IH]; cbn [find_sub]; (case_bool_decide as E; [rewrite zdrop_0 by lia|]).
  - split; [done|]. split; [done|lia].
  - intros m Hm. change (Zlen []) with 0 in Hm. by rewrite zdrop_0 by lia.
  - pose proof (Zlen_nonneg (x :: l)). split; [lia|]. split; [done|lia].
  - rewrite Zlen_cons. destruct (find_sub w l) as [n|]; cbn.
    + destruct IH as (H1 & H2 & H3). split; [lia|]. rewrite zdrop_cons by lia. replace (Z.succ n - 1) with n by lia.
      split; [done|]. intros m Hm. destruct (decide (m = 0)) as [->|]; [by rewrite zdrop_0 by lia|].
      rewrite zdrop_cons by lia. apply H3. lia.
    + intros m Hm. destruct (decide (m = 0)) as [->|]; [by rewrite zdrop_0 by lia|].
      rewrite zdrop_cons by lia. apply IH. lia.
Qed.

(** Bytes that do not start [w] are passed over. *)
Lemma find_sub_skip x w l l' :
  index_of (byte_eqb x) l = None → find_sub (x :: w) (l ++ l') = Z.add (Zlen l) <$> find_sub (x :: w) l'.
Proof.
  induction l as [|y l IH]; cbn [index_of app]; [by destruct (find_sub (x :: w) l')|].
  destruct (byte_eqb x y) eqn:E; [done|]. destruct (index_of (byte_eqb x) l); [done|]. intros _.
  cbn [find_sub]. rewrite bool_decide_false.
  - rewrite IH by done. rewrite Zlen_cons. destruct (find_sub (x :: w) l'); cbn; [f_equal; lia|done].
  - rewrite Zlen_cons, ztake_cons by (pose proof (Zlen_nonneg w); lia). intros [= -> _].
    by rewrite byte_eqb_refl in E.
Qed.

Lemma find_sub_here w l : ztake (Zlen w) l = w → find_sub w l = Some 0.
Proof. intros E. destruct l; cbn [find_sub]; by rewrite bool_decide_true. Qed.

Lemma find_sub_next w x l : ztake (Zlen w) (x :: l) ≠ w → find_sub w (x :: l) = Z.succ <$> find_sub w l.
Proof. intros E. cbn [find_sub]. by rewrite bool_decide_false. Qed.

(** ** Searching *)

(** The bytes behind a position, one on. *)
Lemma zdrop_succ (p : Z) (l tl : list byte) (x : byte) :
  0 <= p → zdrop p l = x :: tl → zdrop (p + 1) l = tl.
Proof. intros Hp E. rewrite Z.add_comm, <- zdrop_zdrop, E by lia. by rewrite zdrop_cons, zdrop_0 by lia. Qed.

(** One byte on from a position with a byte. *)
Lemma ptr_succ_ok b p k c :
  evb_inv b → ptr_ok b p → p_chain p = Some k → eb_chains b !! k = Some c → p_in p < ch_off c →
  ptr_ok b (if p_in p + 1 =? ch_off c
            then {| p_pos := p_pos p + 1; p_chain := next_chain b k; p_in := 0 |}
            else {| p_pos := p_pos p + 1; p_chain := Some k; p_in := p_in p + 1 |}).
Proof.
  intros Hb Hp Hk Hc Hlt. destruct (ptr_rest b p k c Hb Hp Hk Hc) as (_ & _ & _ & Hin & _).
  destruct (Z.eqb_spec (p_in p + 1) (ch_off c)) as [E|E].
  - replace 1 with (ch_off c - p_in p) by lia. by apply ptr_next_ok.
  - apply (ptr_add_ok b p k c); (done || lia).
Qed.

Definition chains_left (b : Evb) (p : evbuffer_ptr) : nat :=
  match p_chain p with Some k => length (eb_chains b) - k | None => 0 end.

Lemma next_chain_left b k pos : (k < length (eb_chains b))%nat →
  (chains_left b {| p_pos := pos; p_chain := next_chain b k; p_in := 0 |} < length (eb_chains b) - k)%nat.
Proof.
  intros Hk. unfold chains_left, next_chain, chain_at. cbn.
  destruct (eb_chains b !! S k) eqn:E; [|lia]. lia.
Qed.

(** The first occurrence of the first byte in the rest of a chain, and what follows it. *)
Lemma candidate_spec b p k c x w n :
  evb_inv b → ptr_ok b p → p_chain p = Some k → eb_chains b !! k = Some c →
  memchr x (zdrop (p_in p) (chain_data c)) = Some n →
  let q := {| p_pos := p_pos p + n; p_chain := Some k; p_in := p_in p + n |} in
  ptr_ok b q ∧ 0 <= n < ch_off c - p_in p ∧
  ∃ rest, zdrop (p_pos q) (bytes b) = x :: rest ∧
    find_sub (x :: w) (zdrop (p_pos p) (bytes b)) = Z.add n <$> find_sub (x :: w) (x :: rest).
Proof.
  intros Hb Hp Hk Hc Em q. destruct (ptr_rest b p k c Hb Hp Hk Hc) as (Hrest & Hd & Hok & Hin & Hpos).
  set (data := zdrop (p_in p) (chain_data c)) in *. set (rest := chains_data (drop (S k) (eb_chains b))) in *.
  assert (Zlen data = ch_off c - p_in p) as Hdl by (unfold data; rewrite Zlen_zdrop, Zlen_chain_data by done; lia).
  unfold memchr in Em. destruct (index_of_split _ _ _ Em) as (y & tl & Hsp & Hy & Hnone). apply byte_eqb_eq in Hy as <-.
  apply index_of_range in Em as Hn.
  split; [apply (ptr_add_ok b p k c); (done || lia)|]. split; [lia|]. exists (tl ++ rest). split.
  - unfold q. cbn [p_pos]. rewrite Z.add_comm, <- zdrop_zdrop, Hrest, zdrop_app_l, Hsp by lia. done.
  - rewrite Hrest, <- (ztake_zdrop n data), <- app_assoc, Hsp. rewrite find_sub_skip by done.
    rewrite Zlen_ztake. by replace (Z.max 0 (Z.min n (Zlen data))) with n by lia.
Qed.

(** No candidate in the rest of a chain: the search goes on in the next one. *)
Lemma no_candidate_spec b p k c x w :
  evb_inv b → ptr_ok b p → p_chain p = Some k → eb_chains b !! k = Some c →
  memchr x (zdrop (p_in p) (chain_data c)) = None →
  find_sub (x :: w) (zdrop (p_pos p) (bytes b)) =
    Z.add (ch_off c - p_in p) <$> find_sub (x :: w) (zdrop (p_pos p + (ch_off c - p_in p)) (bytes b)).
Proof.
  intros Hb Hp Hk Hc Em. destruct (ptr_rest b p k c Hb Hp Hk Hc) as (Hrest & Hd & Hok & Hin & Hpos).
  set (data := zdrop (p_in p) (chain_data c)) in *.
  assert (Zlen data = ch_off c - p_in p) as Hdl by (unfold data; rewrite Zlen_zdrop, Zlen_chain_data by done; lia).
  rewrite (Z.add_comm (p_pos p)), <- zdrop_zdrop, Hrest, <- Hdl, zdrop_app_exact by lia.
  unfold memchr in Em. by rewrite find_sub_skip.
Qed.

Lemma search_loop_spec fuel b x w p :
  evb_inv b → ptr_ok b p → Zlen (bytes b) + Zlen (x :: w) < 2 ^ 64 →
  (Z.to_nat (Zlen (bytes b) - p_pos p) + chains_left b p < fuel)%nat →
  ∃ q, search_loop fuel b (x :: w) x None p = Val q ∧
    match find_sub (x :: w) (zdrop (p_pos p) (bytes b)) with
    | Some n => p_pos q = p_pos p + n ∧ at_byte b q
    | None => p_pos q = -1
    end.
Proof.
  intros Hb Hp Hs. revert p Hp. induction fuel as [|fuel IH]; intros p Hp Hfuel; [lia|].
  cbn [search_loop]. destruct (p_chain p) as [k|] eqn:Hk.
  2: { eexists. split; [done|]. rewrite (ptr_end b p) by done. cbn [find_sub].
       by rewrite bool_decide_false by (unfold ztake; by rewrite take_nil). }
  assert (∃ c, eb_chains b !! k = Some c) as [c Hc].
  { unfold ptr_ok in Hp. rewrite Hk in Hp. destruct Hp as (c & Hc & _). eauto. }
  pose proof (lookup_lt_Some _ _ _ Hc) as Hkl.
  destruct (ptr_rest b p k c Hb Hp Hk Hc) as (Hrest & Hd & Hok & Hin & Hpos).
  rewrite Hc. cbn [or_undef mbind outcome_bind]. rewrite chain_load_rest by done. cbn [mbind outcome_bind].
  assert (ch_off c - p_in p <= Zlen (bytes b) - p_pos p) as Hlen.
  { pose proof (f_equal Zlen Hrest) as E. rewrite Zlen_zdrop, Zlen_app, Zlen_zdrop, Zlen_chain_data in E by done.
    pose proof (Zlen_nonneg (chains_data (drop (S k) (eb_chains b)))). lia. }
  unfold chains_left in Hfuel. rewrite Hk in Hfuel.
  destruct (memchr x _) as [n|] eqn:Em.
  - destruct (candidate_spec b p k c x w n Hb Hp Hk Hc Em) as (Hq & Hn & rest & Hqr & Hfs).
    set (q := {| p_pos := p_pos p + n; p_chain := Some k; p_in := p_in p + n |}) in *.
    destruct (ptr_memcmp_spec b q (x :: w) Hb Hq Hs) as (r & -> & Hr). rewrite Hqr in Hr.
    cbn [mbind outcome_bind]. rewrite Hfs. destruct (Z.eqb_spec r 0) as [->|Hr0].
    + exists q. split; [done|]. rewrite find_sub_here by by apply Hr. cbn. split; [lia|].
      split; [done|]. exists k, c. unfold q. cbn. split; [done|]. split; [done|lia].
    + rewrite find_sub_next by (intros E; by apply Hr0, Hr).
      pose proof (ptr_succ_ok b q k c Hb Hq eq_refl Hc) as Hq1. cbn [p_in p_pos q] in Hq1. specialize (Hq1 ltac:(lia)).
      cbn [p_in p_pos q].
      set (q1 := if p_in p + n + 1 =? ch_off c then _ else _) in *.
      assert (p_pos q1 = p_pos p + n + 1) as Hp1 by (unfold q1; by destruct (_ =? _)).
      assert (chains_left b q1 <= length (eb_chains b) - k)%nat as Hcl.
      { unfold q1. destruct (_ =? _); [|cbn; lia].
        pose proof (next_chain_left b k (p_pos p + n + 1) Hkl). lia. }
      destruct (IH q1 Hq1) as (q2 & -> & Hq2); [rewrite Hp1; lia|].
      exists q2. split; [done|]. rewrite Hp1 in Hq2. unfold q in Hqr. cbn [p_pos] in Hqr.
      rewrite (zdrop_succ (p_pos p + n) _ rest x) in Hq2 by (done || lia).
      destruct (find_sub (x :: w) rest); cbn; [|done]. destruct Hq2. split; [lia|done].
  - cbn [p_in p_pos]. pose proof (ptr_next_ok b p k c Hb Hp Hk Hc) as Hq1.
    set (q1 := {| p_pos := p_pos p + (ch_off c - p_in p); p_chain := next_chain b k; p_in := 0 |}) in *.
    pose proof (next_chain_left b k (p_pos q1) Hkl) as Hcl.
    destruct (IH q1 Hq1) as (q2 & -> & Hq2); [unfold q1 in *; cbn [p_pos] in *; lia|].
    exists q2. split; [done|]. rewrite (no_candidate_spec b p k c) by done. unfold q1 in Hq2. cbn [p_pos] in Hq2.
    destruct (find_sub (x :: w) _); cbn; [|done]. destruct Hq2. split; [lia|done].
Qed.

(** ** Moving a position *)

Lemma ptr_walk_spec cs k position left :
  Forall chain_ok cs → match cs with [] => position = 0 | c :: _ => 0 <= position <= ch_off c end →
  0 <= left → position + left < 2 ^ 64 →
  if position + left <? Zlen (chains_data cs) then
    ∃ j i c, ptr_walk cs k position left = Some ((k + j)%nat, i) ∧ cs !! j = Some c ∧ 0 <= i < ch_off c ∧
      Zlen (chains_data (take j cs)) + i = position + left
  else ptr_walk cs k position left = None.
Proof.
  revert k position left. induction cs as [|c cs IH]; intros k position left Hok Hp Hl Hs; cbn [ptr_walk].
  { change (Zlen (chains_data [])) with 0. by destruct (Z.ltb_spec (position + left) 0); [lia|]. }
  apply Forall_cons in Hok as [Hc Hok]. rewrite Zlen_chains_data_cons by done.
  rewrite (u64_small (position + left)) by lia. pose proof (Zlen_nonneg (chains_data cs)).
  destruct (Z.geb_spec (position + left) (ch_off c)).
  - rewrite u64_small by lia. specialize (IH (S k) 0 (left - (ch_off c - position)) Hok).
    assert (∀ P, (match cs with [] => 0 = 0 | c :: _ => 0 <= 0 <= ch_off c end → P) → P) as Hhd.
    { intros P HP. apply HP. destruct cs as [|d cs]; [done|]. apply Forall_cons in Hok as [Hd _].
      pose proof (ok_off _ Hd). lia. }
    apply Hhd in IH. specialize (IH ltac:(lia) ltac:(lia)).
    destruct (Z.ltb_spec (0 + (left - (ch_off c - position))) (Zlen (chains_data cs))),
      (Z.ltb_spec (position + left) (ch_off c + Zlen (chains_data cs))); try lia; [|done].
    destruct IH as (j & i & d & -> & Hd & Hi & He). exists (S j), i, d.
    split; [by rewrite Nat.add_succ_r|]. split; [done|]. split; [done|].
    cbn [take]. rewrite Zlen_chains_data_cons by done. lia.
  - destruct (Z.ltb_spec (position + left) (ch_off c + Zlen (chains_data cs))); [|lia].
    exists 0%nat, (position + left), c. rewrite Nat.add_0_r. split; [done|]. split; [done|]. split; [lia|].
    cbn [take]. change (Zlen (chains_data [])) with 0. lia.
Qed.

(** [EVBUFFER_PTR_ADD] moves on by [n] bytes, or fails at the end of the data. *)
Lemma ptr_add_spec b p n :
  evb_inv b → ptr_ok b p → 0 <= n → Zlen (bytes b) + n < 2 ^ 63 →
  if p_pos p + n <? Zlen (bytes b) then
    ∃ q, evbuffer_ptr_set b p n EVBUFFER_PTR_ADD = (0, q) ∧ at_byte b q ∧ p_pos q = p_pos p + n
  else (evbuffer_ptr_set b p n EVBUFFER_PTR_ADD).1 = -1.
Proof.
  intros Hb Hp Hn Hs. unfold evbuffer_ptr_set. destruct (p_chain p) as [k|] eqn:Hk.
  2: { unfold ptr_ok in Hp. rewrite Hk in Hp. by destruct (Z.ltb_spec (p_pos p + n) (Zlen (bytes b))); [lia|]. }
  assert (∃ c, eb_chains b !! k = Some c) as [c Hc].
  { unfold ptr_ok in Hp. rewrite Hk in Hp. destruct Hp as (c & Hc & _). eauto. }
  destruct (ptr_rest b p k c Hb Hp Hk Hc) as (Hrest & Hd & Hok & Hin & Hpos).
  assert (p_pos p = Zlen (chains_data (take k (eb_chains b))) + p_in p) as Hpp.
  { unfold ptr_ok in Hp. rewrite Hk in Hp. by destruct Hp as (_ & _ & _ & ?). }
  pose proof (chains_data_take_drop k (eb_chains b)) as Htd. apply (f_equal Zlen) in Htd. rewrite Zlen_app in Htd.
  fold (bytes b) in Htd. pose proof (Zlen_nonneg (chains_data (take k (eb_chains b)))).
  pose proof (ptr_walk_spec (drop k (eb_chains b)) k (p_in p) n) as W.
  rewrite Hd in W at 2. specialize (W ltac:(apply Forall_drop, Hb) Hin Hn ltac:(lia)).
  destruct (Z.ltb_spec (p_in p + n) (Zlen (chains_data (drop k (eb_chains b))))),
    (Z.ltb_spec (p_pos p + n) (Zlen (bytes b))); try lia; [|by rewrite W].
  destruct W as (j & i & d & -> & Hj & Hi & He). eexists. split; [done|]. rewrite lookup_drop in Hj.
  rewrite i64_small by lia. split; [|done]. split; [|exists (k + j)%nat, d; cbn; split; [done|split; [done|lia]]].
  unfold ptr_ok. cbn. exists d. split; [done|]. split; [lia|].
  assert (take (k + j) (eb_chains b) = take k (eb_chains b) ++ take j (drop k (eb_chains b))) as ->
    by by rewrite take_take_drop.
  rewrite chains_data_app, Zlen_app. lia.
Qed.

Lemma getchr_spec b p x tl :
  evb_inv b → at_byte b p → zdrop (p_pos p) (bytes b) = x :: tl → evbuffer_getchr b p = Val x.
Proof.
  intros Hb [Hp (k & c & Hk & Hc & Hlt)] Hx.
  destruct (ptr_rest b p k c Hb Hp Hk Hc) as (Hrest & Hd & Hok & Hin & Hpos).
  unfold evbuffer_getchr. rewrite Hk. cbn [or_undef mbind outcome_bind]. rewrite Hc. cbn [or_undef mbind outcome_bind].
  rewrite chain_load_part by (done || lia). cbn [mbind outcome_bind]. rewrite Hrest in Hx.
  destruct (zdrop (p_in p) (chain_data c)) as [|y d] eqn:E.
  - apply (f_equal Zlen) in E. rewrite Zlen_zdrop, Zlen_chain_data in E by done. change (Zlen []) with 0 in E. lia.
  - cbn in Hx. injection Hx as -> _. by rewrite ztake_cons by lia.
Qed.

(** ** Spans *)

Lemma span_range set l : 0 <= span set l <= Zlen l.
Proof.
  induction l as [|x l IH]; cbn [span]; [done|]. rewrite Zlen_cons. destruct (existsb _ _); lia.
Qed.

Lemma span_app set l l' :
  span set (l ++ l') = if span set l <? Zlen l then span set l else Zlen l + span set l'.
Proof.
  induction l as [|x l IH]; cbn [app span]; [done|]. rewrite Zlen_cons.
  pose proof (Zlen_nonneg l). destruct (existsb _ _); [|by destruct (Z.ltb_spec 0 (1 + Zlen l)); [|lia]].
  rewrite IH. destruct (Z.ltb_spec (span set l) (Zlen l)), (Z.ltb_spec (1 + span set l) (1 + Zlen l)); lia.
Qed.

(** A count of bytes that is kept as an int. *)
Definition counted_as (n : Z) (o : outcome (Z * evbuffer_ptr)) : Prop := if n <? 2 ^ 31 then ∃ q, o = Val (n, q) else o = Undef Overflow.

Lemma strspn_chains_spec set cs k i pos count :
  Forall chain_ok cs → match cs with [] => False | c :: _ => 0 <= i <= ch_off c end →
  counted_as (count + span set (zdrop i (chains_data cs))) (strspn_chains set cs k i pos count).
Proof.
  revert k i count. induction cs as [|c cs IH]; intros k i count Hok Hi; [done|].
  apply Forall_cons in Hok as [Hc Hok]. cbn [strspn_chains].
  assert ((if i <? ch_off c then chain_load (ch_misalign c + i) (ch_off c - i) c else Val []) =
          Val (zdrop i (chain_data c))) as ->.
  { destruct (Z.ltb_spec i (ch_off c)); [by apply chain_load_rest|].
    rewrite zdrop_all; [done|]. rewrite Zlen_chain_data by done. lia. }
  cbn [mbind outcome_bind]. rewrite chains_data_cons, zdrop_app_l by (rewrite Zlen_chain_data by done; lia).
  rewrite span_app. set (d := zdrop i (chain_data c)). pose proof (span_range set d). pose proof (span_range set (chains_data cs)). unfold counted_as.
  destruct (Z.gtb_spec (count + span set d) (2 ^ 31 - 1)).
  { destruct (Z.ltb_spec (count + (if span set d <? Zlen d then span set d else Zlen d + span set (chains_data cs))) (2 ^ 31)) as [Hlt|]; [|done]. destruct (Z.ltb_spec (span set d) (Zlen d)); lia. }
  destruct (Z.ltb_spec (span set d) (Zlen d)); [destruct (Z.ltb_spec (count + span set d) (2 ^ 31)); [by eexists|lia]|].
  destruct cs as [|c' cs].
  - change (span set (chains_data [])) with 0. destruct (Z.ltb_spec (count + (Zlen d + 0)) (2 ^ 31)); [|lia]. eexists. do 2 f_equal. lia.
  - specialize (IH (S k) 0 (count + span set d) Hok). rewrite zdrop_0 in IH by lia. replace (count + (Zlen d + span set (chains_data (c' :: cs)))) with (count + span set d + span set (chains_data (c' :: cs))) by lia. apply IH.
    apply Forall_cons in Hok as [Hc' _]. pose proof (ok_off _ Hc'). lia.
Qed.

Lemma strspn_spec b p set :
  evb_inv b → at_byte b p → counted_as (span set (zdrop (p_pos p) (bytes b))) (evbuffer_strspn b p set).
Proof.
  intros Hb [Hp (k & c & Hk & Hc & Hlt)].
  destruct (ptr_rest b p k c Hb Hp Hk Hc) as (Hrest & Hd & Hok & Hin & Hpos).
  unfold evbuffer_strspn. rewrite Hk.
  pose proof (strspn_chains_spec set (drop k (eb_chains b)) k (p_in p) (p_pos p) 0) as Hq. rewrite Hd in Hq |- *.
  rewrite Hrest. rewrite Z.add_0_l, chains_data_cons, zdrop_app_l in Hq; [|rewrite Zlen_chain_data by done; lia]. apply Hq; [|lia].
  rewrite <- Hd. apply Forall_drop, Hb.
Qed.

(** ** Lines *)

Definition shift (n : Z) (o : option (Z * Z)) : option (Z * Z) :=
  match o with Some (m, d) => Some (n + m, d) | None => None end.

Fixpoint crlf_ref (l : list byte) : option (Z * Z) :=
  match l with
  | [] => None
  | x :: l =>
      if byte_eqb LF x then Some (0, 1)
      else if byte_eqb CR x && match l with y :: _ => byte_eqb LF y | [] => false end then Some (0, 2)
      else shift 1 (crlf_ref l)
  end.

(** Where the first line of [l] ends and how long its end is. *)
Definition ref_eol (style : evbuffer_eol_style) (l : list byte) : option (Z * Z) :=
  match style with
  | EVBUFFER_EOL_ANY =>
      match index_of is_eol l with Some n => Some (n, span [CR; LF] (zdrop n l)) | None => None end
  | EVBUFFER_EOL_CRLF => crlf_ref l
  | EVBUFFER_EOL_CRLF_STRICT =>
      match find_sub [CR; LF] l with Some n => Some (n, 2) | None => None end
  | EVBUFFER_EOL_LF => match index_of (byte_eqb LF) l with Some n => Some (n, 1) | None => None end
  end.

Lemma crlf_ref_skip l l' : index_of is_eol l = None → crlf_ref (l ++ l') = shift (Zlen l) (crlf_ref l').
Proof.
  induction l as [|x l IH]; cbn [index_of app crlf_ref]; [by destruct (crlf_ref l') as [[]|]|].
  destruct (is_eol x) eqn:E; [done|]. destruct (index_of is_eol l); [done|]. intros _.
  unfold is_eol in E. apply orb_false_iff in E as [-> ->]. cbn [andb]. rewrite IH by done. rewrite Zlen_cons.
  destruct (crlf_ref l') as [[m d]|]; cbn; [do 2 f_equal; lia|done].
Qed.

Lemma byte_eqb_neq x y : byte_eqb x y = false ↔ x ≠ y.
Proof. rewrite <- byte_eqb_eq. by destruct (byte_eqb x y). Qed.

Lemma crlf_loop_spec fuel b p :
  evb_inv b → ptr_ok b p → Zlen (bytes b) < 2 ^ 62 →
  (Z.to_nat (Zlen (bytes b) - p_pos p) < fuel)%nat →
  match crlf_ref (zdrop (p_pos p) (bytes b)) with
  | Some (n, d) => ∃ q, crlf_loop fuel b p = Val (Some (q, d)) ∧ p_pos q = p_pos p + n
  | None => crlf_loop fuel b p = Val None
  end.
Proof.
  intros Hb Hp Hs. revert p Hp. induction fuel as [|fuel IH]; intros p Hp Hfuel; [lia|]. cbn [crlf_loop].
  unfold evbuffer_find_eol_char. pose proof (scan_spec find_eol_char is_eol b p Hb Hp find_eol_char_index) as Hscan.
  set (l := zdrop (p_pos p) (bytes b)) in *. destruct (index_of is_eol l) as [n|] eqn:Ei.
  2: { rewrite Hscan. rewrite <- (app_nil_r l), crlf_ref_skip by done. done. }
  destruct Hscan as (q & -> & Hq & Hat). cbn [mbind outcome_bind].
  destruct (index_of_split _ _ _ Ei) as (x & tl & Hsp & Hx & Hnone). apply index_of_range in Ei as Hn.
  assert (0 <= p_pos p) as Hp0.
  { destruct (p_chain p) as [k|] eqn:Hk.
    - pose proof Hp as Hp'. unfold ptr_ok in Hp'. rewrite Hk in Hp'. destruct Hp' as (c & Hc & _).
      apply (ptr_rest b p k c Hb Hp Hk Hc).
    - unfold ptr_ok in Hp. rewrite Hk in Hp. pose proof (Zlen_nonneg (bytes b)). lia. }
  assert (zdrop (p_pos q) (bytes b) = x :: tl) as Hqx.
  { rewrite Hq, Z.add_comm, <- zdrop_zdrop by lia. done. }
  assert (crlf_ref l = shift n (crlf_ref (x :: tl))) as ->.
  { rewrite <- (ztake_zdrop n l), Hsp, crlf_ref_skip by done. f_equal. rewrite Zlen_ztake. lia. }
  assert (Zlen (bytes b) - p_pos q = 1 + Zlen tl) as Hlen.
  { pose proof (f_equal Zlen Hqx) as E. rewrite Zlen_zdrop, Zlen_cons in E. pose proof (Zlen_nonneg tl). lia. }
  rewrite (getchr_spec b q x tl Hb Hat Hqx). cbn [mbind outcome_bind crlf_ref].
  assert (byte_eqb x LF = byte_eqb LF x) as -> by (unfold byte_eqb; apply Z.eqb_sym).
  destruct (byte_eqb LF x) eqn:Elf; [exists q; split; [done|cbn; lia]|].
  unfold is_eol in Hx. rewrite Elf, orb_false_r in Hx. rewrite Hx. apply byte_eqb_eq in Hx as <-. cbn [andb].
  destruct (ptr_memcmp_spec b q [CR; LF] Hb (proj1 Hat)) as (r & -> & Hr); [change (Zlen [CR; LF]) with 2; lia|].
  rewrite Hqx in Hr. cbn [mbind outcome_bind].
  assert (r = 0 ↔ match tl with y :: _ => byte_eqb LF y | [] => false end = true) as Hr'.
  { rewrite Hr. destruct tl as [|y tl']; [done|]. rewrite byte_eqb_eq.
    change (ztake (Zlen [CR; LF]) (CR :: y :: tl')) with [CR; y]. naive_solver. }
  destruct (Z.eqb_spec r 0) as [E0|E0].
  { rewrite (proj1 Hr' E0). exists q. split; [done|cbn; lia]. }
  assert (match tl with y :: _ => byte_eqb LF y | [] => false end = false) as ->.
  { apply not_true_is_false. intros E. by apply E0, Hr'. }
  pose proof (ptr_add_spec b q 1 Hb (proj1 Hat) ltac:(lia) ltac:(lia)) as Hadd.
  destruct (Z.ltb_spec (p_pos q + 1) (Zlen (bytes b))) as [Hlt|Hge].
  - destruct Hadd as (q1 & -> & Hq1 & Hp1). cbn [Z.ltb Z.compare].
    specialize (IH q1 (proj1 Hq1) ltac:(lia)). rewrite Hp1 in IH.
    rewrite (zdrop_succ (p_pos q) _ tl CR) in IH by (done || lia).
    destruct (crlf_ref tl) as [[m d]|]; cbn; [|done].
    destruct IH as (q2 & -> & Hq2). exists q2. split; [done|lia].
  - assert (tl = []) as -> by (apply Zlen_0_inv; pose proof (Zlen_nonneg tl); lia).
    destruct (evbuffer_ptr_set b q 1 EVBUFFER_PTR_ADD) as [r1 q1]. cbn in Hadd. subst r1. done.
Qed.

Lemma crlf_end l n d : crlf_ref l = Some (n, d) → 0 <= n ∧ 0 <= d <= 2.
Proof.
  revert n d. induction l as [|x l IH]; intros n d; cbn [crlf_ref]; [done|]. destruct (byte_eqb LF x); [intros [= <- <-]; lia|].
  destruct (_ && _); [intros [= <- <-]; lia|]. destruct (crlf_ref l) as [[m e]|]; cbn; [|done].
  intros [= <- <-]. destruct (IH m e eq_refl). lia.
Qed.

Lemma search_eol_spec b style :
  evb_inv b → Zlen (bytes b) < 2 ^ 62 →
  match ref_eol style (bytes b) with
  | Some (n, d) => if d <? 2 ^ 31 then ∃ q, evbuffer_search_eol b None style = Val (Some (q, d)) ∧ p_pos q = n ∧ 0 <= n ∧ 0 <= d else evbuffer_search_eol b None style = Undef Overflow
  | None => evbuffer_search_eol b None style = Val None
  end.
Proof.
  intros Hb Hs. pose proof (ptr_start_ok b Hb) as Hp. pose proof (Zlen_nonneg (bytes b)).
  assert (zdrop (p_pos (ptr_start b)) (bytes b) = bytes b) as Hall by done.
  destruct style; cbn [evbuffer_search_eol ref_eol].
  - pose proof (scan_spec find_eol_char is_eol b _ Hb Hp find_eol_char_index) as P. rewrite Hall in P.
    unfold evbuffer_find_eol_char. destruct (index_of is_eol (bytes b)) as [n|] eqn:E; [|by rewrite P].
    destruct P as (q & -> & Hq & Hat). cbn [mbind outcome_bind]. change (p_pos (ptr_start b)) with 0 in Hq.
    pose proof (strspn_spec b q [CR; LF] Hb Hat) as Hc. rewrite Hq, Z.add_0_l in Hc. unfold counted_as in Hc. destruct (_ <? 2 ^ 31); [|by rewrite Hc]. destruct Hc as (q' & ->). cbn [mbind outcome_bind].
    apply index_of_range in E. exists q. rewrite Hq. pose proof (span_range [CR; LF] (zdrop n (bytes b))).
    split; [done|]. lia.
  - pose proof (crlf_loop_spec (search_fuel b) b _ Hb Hp Hs) as P. rewrite Hall in P.
    specialize (P ltac:(change (p_pos (ptr_start b)) with 0; unfold search_fuel; rewrite (wf_total _ Hb); lia)).
    destruct (crlf_ref (bytes b)) as [[n d]|] eqn:E; [|done]. destruct P as (q & -> & Hq). destruct (crlf_end _ _ _ E).
    destruct (Z.ltb_spec d (2 ^ 31)); [|lia]. exists q. split; [done|]. split; [cbn in Hq; lia|]. lia.
  - unfold evbuffer_search, evbuffer_search_range. cbn [mbind outcome_bind].
    change (Zlen [CR; LF] >? 2 ^ 63 - 1) with false.
    destruct (search_loop_spec (search_fuel b) b CR [LF] _ Hb Hp) as (q & Hq & P).
    + change (Zlen [CR; LF]) with 2. lia.
    + change (p_pos (ptr_start b)) with 0. unfold search_fuel, chains_left. rewrite (wf_total _ Hb).
      destruct (p_chain (ptr_start b)); lia.
    + cbn [mbind outcome_bind]. rewrite Hq. cbn [mbind outcome_bind]. rewrite Hall in P.
      pose proof (find_sub_first [CR; LF] (bytes b)) as F.
      destruct (find_sub [CR; LF] (bytes b)) as [n|].
      * destruct P as [Hpq _]. change (p_pos (ptr_start b)) with 0 in Hpq.
        destruct (Z.ltb_spec (p_pos q) 0); [lia|]. exists q. split; [done|]. lia.
      * rewrite P. done.
  - pose proof (scan_spec (memchr LF) (byte_eqb LF) b _ Hb Hp (λ _, eq_refl)) as P. rewrite Hall in P.
    unfold evbuffer_strchr. destruct (index_of (byte_eqb LF) (bytes b)) as [n|] eqn:E; [|by rewrite P].
    destruct P as (q & -> & Hq & Hat). cbn [mbind outcome_bind]. apply index_of_range in E.
    exists q. split; [done|]. cbn in Hq. lia.
Qed.

Section lines.
Context `{Malloc}.

(** C25.  Lines.  For each of the four end-of-line styles, [evbuffer_readln] returns the first
    line of the buffered bytes without its end and consumes both, and leaves a
    buffer without a complete line alone; scanning the chains in pieces never
    misses or invents an end of line.  The end of the line is shorter than 2^31 bytes: with
    EVBUFFER_EOL_ANY it may be longer, and then the int that counts it overflows.  Memory does not fail, and the buffer
    has fewer than 2^62 bytes. *)
Theorem readln_takes_line b style :
  evb_inv b → Zlen (bytes b) < 2 ^ 62 → reliable →
  (∀ n d, ref_eol style (bytes b) = Some (n, d) → 2 ^ 31 <= d → evbuffer_readln b style = Undef Overflow) ∧
  ((∀ n d, ref_eol style (bytes b) = Some (n, d) → d < 2 ^ 31) →
    ∃ b', evbuffer_readln b style =
        Val (match ref_eol style (bytes b) with Some (n, _) => Some (ztake n (bytes b)) | None => None end, b') ∧
      evb_inv b' ∧
      bytes b' = match ref_eol style (bytes b) with Some (n, d) => zdrop (n + d) (bytes b) | None => bytes b end).
Proof.
  intros Hb Hs Hr. unfold evbuffer_readln. rewrite (proj1 (wf_thawed _ Hb)).
  pose proof (search_eol_spec b style Hb Hs) as P. split.
  - intros n d E Hd. rewrite E in P. destruct (Z.ltb_spec d (2 ^ 31)); [lia|]. by rewrite P.
  - intros Hsmall. destruct (ref_eol style (bytes b)) as [[n d]|].
    + specialize (Hsmall n d eq_refl). destruct (Z.ltb_spec d (2 ^ 31)); [|lia]. destruct P as (q & -> & <- & Hn & Hd). cbn [mbind outcome_bind]. rewrite Hr.
      destruct (evbuffer_remove_spec (p_pos q) b Hb Hn) as (b1 & -> & Hb1 & _ & Hbs1). cbn [mbind outcome_bind].
      destruct (evbuffer_drain_spec d b1 Hb1 Hd) as (b2 & -> & Hb2 & _ & Hbs2). cbn [mbind outcome_bind].
      exists b2. split; [done|]. split; [done|]. rewrite Hbs2, Hbs1, zdrop_zdrop by done. f_equal. lia.
    + rewrite P. cbn [mbind outcome_bind]. by exists b.
Qed.
End lines.

(** C24.  Searching.  [evbuffer_search] returns the position of the first occurrence of a
    non-empty string in the buffered bytes, however they are spread over chains,
    and -1 if there is none; the loop always ends. *)
Theorem search_finds_first b x w :
  evb_inv b → Zlen (bytes b) + Zlen (x :: w) < 2 ^ 63 →
  ∃ q, evbuffer_search b (x :: w) None = Val q ∧
    let occurs m := ztake (Zlen (x :: w)) (zdrop m (bytes b)) = x :: w in
    (0 <= p_pos q ∧ occurs (p_pos q) ∧ ∀ m, 0 <= m < p_pos q → ~ occurs m) ∨
    (p_pos q = -1 ∧ ∀ m, 0 <= m → ~ occurs m).
Proof.
  intros Hb Hs. pose proof (ptr_start_ok b Hb) as Hp. pose proof (Zlen_nonneg (bytes b)).
  unfold evbuffer_search, evbuffer_search_range.
  destruct (Z.gtb_spec (Zlen (x :: w)) (2 ^ 63 - 1)); [lia|].
  destruct (search_loop_spec (search_fuel b) b x w _ Hb Hp) as (q & -> & P); [lia| |].
  { change (p_pos (ptr_start b)) with 0. unfold search_fuel, chains_left. rewrite (wf_total _ Hb).
    destruct (p_chain (ptr_start b)); lia. }
  exists q. split; [done|]. cbv zeta. change (zdrop (p_pos (ptr_start b)) (bytes b)) with (bytes b) in P.
  change (p_pos (ptr_start b)) with 0 in P. pose proof (find_sub_first (x :: w) (bytes b)) as F.
  destruct (find_sub (x :: w) (bytes b)) as [n|].
  - left. destruct P as [-> _]. destruct F as (F1 & F2 & F3). rewrite Z.add_0_l. split; [lia|]. done.
  - right. split; [done|]. intros m Hm E. destruct (decide (m <= Zlen (bytes b))); [by eapply F; eauto|].
    rewrite zdrop_all in E by lia. unfold ztake in E. by rewrite take_nil in E.
Qed.
