(* ===== verification/BufNotify.v ===== *)
(** What the operations of evbuffers do besides moving bytes: they keep the freeze
    flags and report what was added and removed to the callbacks once. *)

From S2P Require Import Prelude EvbufferApi BufChain BufOps BufRefine BufExpand BufIo.

(** ** Frozen ends *)

Definition refreeze (fs fe : bool) (b : Evb) : Evb :=
  {| eb_chains := eb_chains b; eb_lwd := eb_lwd b; eb_total_len := eb_total_len b;
     eb_n_add_for_cb := eb_n_add_for_cb b; eb_n_del_for_cb := eb_n_del_for_cb b;
     eb_freeze_start := fs; eb_freeze_end := fe; eb_flags := eb_flags b; eb_cb := eb_cb b |}.

(** Well formed, whatever is frozen. *)
Definition evb_frozen_inv (fs fe : bool) (b : Evb) : Prop :=
  evb_inv (refreeze false false b) ∧ eb_freeze_start b = fs ∧ eb_freeze_end b = fe.

Lemma refreeze_id b : refreeze (eb_freeze_start b) (eb_freeze_end b) b = b.
Proof. by destruct b. Qed.
Lemma frozen_is fs fe b : evb_frozen_inv fs fe b → b = refreeze fs fe (refreeze false false b).
Proof. intros (_ & <- & <-). by destruct b. Qed.
Lemma frozen_intro fs fe b : evb_inv b → evb_frozen_inv fs fe (refreeze fs fe b).
Proof.
  intros Hb. split; [|done]. pose proof (wf_thawed _ Hb) as [H1 H2]. destruct b; cbn in *. by subst.
Qed.

Lemma invoke_refreeze fs fe b :
  evbuffer_invoke_callbacks (refreeze fs fe b) = refreeze fs fe (evbuffer_invoke_callbacks b).
Proof.
  destruct b as [cs lwd tot na nd s e fl [cbs d q rc cl]]. unfold evbuffer_invoke_callbacks, evbuffer_run_callbacks. cbn.
  destruct cbs as [|c cbs]; [done|]. destruct d, q; cbn; try done; by destruct (_ && _).
Qed.

(** ** The callbacks *)

Definition quiet (b : Evb) : Prop :=
  eb_deferred_cbs (eb_cb b) = false ∧ eb_n_add_for_cb b = 0 ∧ eb_n_del_for_cb b = 0.

(** The calls of the enabled callbacks. *)
Definition report (b : Evb) (orig added deleted : Z) : list CbCall :=
  if (added =? 0) && (deleted =? 0) then []
  else (λ e, {| call_cb := cb_id e; call_orig_size := orig; call_n_added := added; call_n_deleted := deleted |})
         <$> filter (λ e, Z.land (cb_flags e) EVBUFFER_CB_ENABLED = EVBUFFER_CB_ENABLED) (eb_callbacks (eb_cb b)).

Record notified (added deleted : Z) (b b' : Evb) : Prop := {
  nt_quiet : quiet b';
  nt_callbacks : eb_callbacks (eb_cb b') = eb_callbacks (eb_cb b);
  nt_start : eb_freeze_start b' = eb_freeze_start b;
  nt_end : eb_freeze_end b' = eb_freeze_end b;
  nt_calls : eb_calls (eb_cb b') =
             eb_calls (eb_cb b) ++ report b (eb_total_len b' + deleted - added) added deleted
}.

(** Before its callbacks run an operation has only counted. *)
Record held (added deleted : Z) (b b' : Evb) : Prop := {
  hd_cb : eb_cb b' = eb_cb b;
  hd_start : eb_freeze_start b' = eb_freeze_start b;
  hd_end : eb_freeze_end b' = eb_freeze_end b;
  hd_add : eb_n_add_for_cb b' = eb_n_add_for_cb b + added;
  hd_del : eb_n_del_for_cb b' = eb_n_del_for_cb b + deleted
}.

Lemma held_refl b : held 0 0 b b.
Proof. split; try done; lia. Qed.
Lemma held_chains cs l t a d b b' : held a d b b' → held a d b (set_chains cs l t b').
Proof. by intros []. Qed.
Lemma held_added n a d b b' : held a d b b' → held (a + n) d b (count_added n b').
Proof. intros []. split; cbn; try done; lia. Qed.
Lemma held_deleted n a d b b' : held a d b b' → held a (d + n) b (count_deleted n b').
Proof. intros []. split; cbn; try done; lia. Qed.

Lemma notified_refl b : quiet b → notified 0 0 b b.
Proof. intros Hq. split; try done. unfold report. cbn. by rewrite app_nil_r. Qed.
Lemma held_notified b b' : quiet b → held 0 0 b b' → notified 0 0 b b'.
Proof.
  intros (Hd & Ha & Hdl) [E1 E2 E3 E4 E5]. split; rewrite ?E1; try done.
  - split; [by rewrite E1|]. lia.
  - unfold report. cbn. by rewrite app_nil_r.
Qed.

Lemma invoke_notified a d b b' : quiet b → held a d b b' → notified a d b (evbuffer_invoke_callbacks b').
Proof.
  intros (Hd & Ha & Hdl) [E1 E2 E3 E4 E5]. rewrite Ha in E4. rewrite Hdl in E5. rewrite Z.add_0_l in E4, E5.
  unfold evbuffer_invoke_callbacks, evbuffer_run_callbacks. rewrite E1, Hd, E4, E5.
  assert (quiet (set_counts 0 0 b')) as Hq by (split; [cbn; by rewrite E1|done]).
  destruct (eb_callbacks (eb_cb b)) as [|c cbs] eqn:Ec.
  - split; cbn; rewrite ?E1; try done.
    unfold report. rewrite Ec. destruct (_ && _); by rewrite app_nil_r.
  - destruct ((a =? 0) && (d =? 0)) eqn:Ez.
    + apply andb_true_iff in Ez as [Za%Z.eqb_eq Zd%Z.eqb_eq].
      split; rewrite ?E1; try done; [|by unfold report; rewrite Za, Zd; cbn; rewrite app_nil_r].
      split; [by rewrite E1|lia].
    + split; cbn; rewrite ?E1; try done. unfold report. by rewrite Ez, Ec.
Qed.

#[export] Hint Resolve held_refl held_chains held_added held_deleted : comet.

(** ** Adding *)

Section notify.
Context `{Malloc}.

Lemma insert_held c b b' : Buf.evbuffer_chain_insert c b = Val b' → held 0 0 b b'.
Proof.
  unfold Buf.evbuffer_chain_insert. intros (b1 & E & [= <-])%outcome_bind_Val. unfold add_total. apply held_chains.
  destruct (eb_chains b !! eb_lwd b); [|destruct (_ =? _)%nat; [|done]; injection E as <-; auto with comet].
  destruct (_ =? _)%nat; [injection E as <-; auto with comet|].
  destruct (Buf.all_empty _); [|done]. injection E as <-. auto with comet.
Qed.

Lemma insert_new_held n b ob b' : Buf.evbuffer_chain_insert_new n b = Val ob → ob = Some b' → held 0 0 b b'.
Proof.
  unfold Buf.evbuffer_chain_insert_new. intros (c & _ & E)%outcome_bind_Val ->.
  destruct c as [c|]; [|done]. apply outcome_bind_Val in E as (b1 & E & [= <-]). by apply insert_held in E.
Qed.

Lemma ensure_held n b ob b' : Buf.ensure_chain n b = Val ob → ob = Some b' → held 0 0 b b'.
Proof.
  unfold Buf.ensure_chain. destruct (eb_chains b); [apply insert_new_held|]. intros [= <-] [= <-]. apply held_refl.
Qed.

Lemma held_trans a a' b b1 b2 : held 0 0 b b1 → held a a' b1 b2 → held a a' b b2.
Proof. intros [] []. split; try congruence; lia. Qed.

Lemma held_quiet b b' : held 0 0 b b' → quiet b → quiet b'.
Proof. intros [E1 _ _ E4 E5] (Hd & Ha & Hdl). split; [by rewrite E1|]. lia. Qed.

Lemma held_before a d b b1 b2 : held 0 0 b b1 → notified a d b1 b2 → notified a d b b2.
Proof.
  intros [E1 E2 E3 _ _] [N1 N2 N3 N4 N5]. split; [done|congruence..|]. unfold report in *. by rewrite N5, E1.
Qed.

Lemma fill_last_notified at_ data c b r b' :
  quiet b → Buf.fill_last at_ data c b = Val (r, b') → r = 0 ∧ notified (Zlen data) 0 b b'.
Proof.
  intros Hq. unfold Buf.fill_last. intros (c' & _ & E)%outcome_bind_Val.
  apply Val_inj, pair_equal_spec in E as [<- <-]. split; [done|]. apply invoke_notified; [done|].
  apply (held_added _ 0). unfold add_total, put_chain. auto with comet.
Qed.

Lemma add_new_chain_notified remain data c b r b' :
  quiet b → 0 <= remain <= Zlen data → Buf.add_new_chain remain data c b = Val (r, b') →
  r = 0 ∧ notified (Zlen data) 0 b b' ∨ r = -1 ∧ notified 0 0 b b'.
Proof.
  intros Hq Hrem. unfold Buf.add_new_chain. intros (tmp & _ & E)%outcome_bind_Val.
  destruct tmp as [tmp|]; [|apply Val_inj, pair_equal_spec in E as [<- <-]; right; split; [done|by apply notified_refl]].
  apply outcome_bind_Val in E as (b1 & E1 & E). apply outcome_bind_Val in E as (t & _ & E).
  apply outcome_bind_Val in E as (b2 & E2%insert_held & E). apply Val_inj, pair_equal_spec in E as [<- <-].
  left. split; [done|]. apply invoke_notified; [done|].
  assert (held remain 0 b b1) as Hb1.
  { destruct (Z.eqb_spec remain 0) as [->|]; cbn [negb] in E1; [injection E1 as <-; apply held_refl|].
    apply outcome_bind_Val in E1 as (c' & _ & [= <-]). apply (held_added _ 0). unfold add_total, put_chain. auto with comet. }
  replace (Zlen data) with (remain + Zlen (zdrop remain data)) by (rewrite Zlen_zdrop; lia).
  apply held_added. destruct Hb1, E2. split; try congruence; lia.
Qed.

Definition in_range (c : Chain) : Prop := ch_misalign c + ch_off c <= ch_buffer_len c.

Lemma ensure_in_range n b b1 c :
  Forall in_range (eb_chains b) → Buf.ensure_chain n b = Val (Some b1) → eb_last b1 = Some c → in_range c.
Proof.
  intros Hcs. unfold Buf.ensure_chain. destruct (eb_chains b) as [|c0 cs] eqn:Eb.
  - unfold Buf.evbuffer_chain_insert_new. intros (oc & Ec & E)%outcome_bind_Val. destruct oc as [t|]; [|done].
    apply outcome_bind_Val in E as (b2 & E2 & [= <-]). unfold Buf.evbuffer_chain_insert in E2. rewrite Eb in E2. cbn in E2.
    destruct (eb_lwd b =? 0)%nat; [|done]. injection E2 as <-. unfold eb_last. cbn. intros [= <-].
    unfold evbuffer_chain_new in Ec. apply outcome_bind_Val in Ec as (sz & _ & Ec).
    destruct (malloc_ok sz); [|done]. injection Ec as <-. unfold in_range, ch_buffer_len. cbn. apply Zlen_nonneg.
  - intros [= <-]. unfold eb_last. rewrite Eb. intros Hc%last_Some_elem_of. rewrite Forall_forall in Hcs. by apply Hcs.
Qed.

(** A successful add reports the bytes, a failed one nothing. *)
Lemma add_notified data b r b' :
  quiet b → Forall in_range (eb_chains b) →
  Buf.evbuffer_add data b = Val (r, b') →
  r = 0 ∧ notified (Zlen data) 0 b b' ∨ r = -1 ∧ notified 0 0 b b'.
Proof.
  intros Hq Hcs. unfold Buf.evbuffer_add. pose proof (Zlen_nonneg data).
  assert (∀ r b', Val (-1, b) = Val (r, b') → r = 0 ∧ notified (Zlen data) 0 b b' ∨ r = -1 ∧ notified 0 0 b b') as Hno.
  { intros r1 b1 E. apply Val_inj, pair_equal_spec in E as [<- <-]. right. split; [done|]. by apply notified_refl. }
  destruct (eb_freeze_end b); [apply Hno|]. intros (ob & E1 & E)%outcome_bind_Val.
  destruct ob as [b1|]; [|by apply Hno]. pose proof (ensure_held _ _ _ _ E1 eq_refl) as H1.
  pose proof (held_quiet _ _ H1 Hq) as Hq1. apply outcome_bind_Val in E as (c & Hc & E).
  assert (r = 0 ∧ notified (Zlen data) 0 b1 b' ∨ r = -1 ∧ notified 0 0 b1 b') as [[-> ?]|[-> ?]];
    [|left; split; [done|by eapply held_before]|right; split; [done|by eapply held_before]].
  destruct (negb (is_immutable c)); [|by apply add_new_chain_notified in E; [..|lia]].
  destruct (Z.geb_spec (ch_buffer_len c - ch_misalign c - ch_off c) (Zlen data)); [left; by eapply fill_last_notified|].
  destruct (_ && _).
  - apply outcome_bind_Val in E as (c' & _ & E). left. by eapply fill_last_notified.
  - eapply add_new_chain_notified; [done| |done]. split; [|lia].
    unfold or_undef in Hc. destruct (eb_last b1) as [c0|] eqn:El; [|done]. injection Hc as <-.
    pose proof (ensure_in_range _ _ _ _ Hcs E1 El). unfold in_range in *. lia.
Qed.

Lemma insert_refreeze fs fe c b :
  Buf.evbuffer_chain_insert c (refreeze fs fe b) = (b' ← Buf.evbuffer_chain_insert c b; Val (refreeze fs fe b')).
Proof.
  unfold Buf.evbuffer_chain_insert, Buf.victim_index. cbn [eb_chains eb_lwd eb_total_len refreeze].
  destruct (eb_chains b !! eb_lwd b); [|by destruct (_ =? _)%nat].
  destruct (_ =? _)%nat; [done|]. by destruct (Buf.all_empty _).
Qed.

Lemma ensure_refreeze fs fe n b :
  Buf.ensure_chain n (refreeze fs fe b) = 
  (ob ← Buf.ensure_chain n b; Val (option_map (refreeze fs fe) ob)).
Proof.
  unfold Buf.ensure_chain. cbn [eb_chains refreeze]. destruct (eb_chains b); [|done].
  unfold Buf.evbuffer_chain_insert_new. destruct (evbuffer_chain_new n) as [[c|]|]; cbn [mbind outcome_bind]; [|done..].
  rewrite insert_refreeze. by destruct (Buf.evbuffer_chain_insert c b).
Qed.

Lemma fill_last_refreeze fs fe at_ data c b :
  Buf.fill_last at_ data c (refreeze fs fe b) =
  ('(r, b') ← Buf.fill_last at_ data c b; Val (r, refreeze fs fe b')).
Proof.
  unfold Buf.fill_last. destruct (chain_store at_ data c); [|done]. cbn [mbind outcome_bind].
  by rewrite <- invoke_refreeze.
Qed.

Lemma add_new_chain_refreeze fs fe remain data c b :
  Buf.add_new_chain remain data c (refreeze fs fe b) =
  ('(r, b') ← Buf.add_new_chain remain data c b; Val (r, refreeze fs fe b')).
Proof.
  unfold Buf.add_new_chain. cbv zeta. destruct (evbuffer_chain_new _) as [[t|]|]; cbn [mbind outcome_bind]; [|done..].
  destruct (negb (remain =? 0)); cbn [mbind outcome_bind].
  - destruct (chain_store (ch_misalign c + ch_off c) _ c) as [c'|]; cbn [mbind outcome_bind]; [|done].
    destruct (chain_store 0 _ t) as [t'|]; cbn [mbind outcome_bind]; [|done].
    change (count_added remain (add_total remain (put_chain (last_index (refreeze fs fe b)) (set_off (ch_off c' + remain) c')
      (refreeze fs fe b)))) with (refreeze fs fe (count_added remain (add_total remain (put_chain (last_index b)
      (set_off (ch_off c' + remain) c') b)))).
    rewrite insert_refreeze. destruct (Buf.evbuffer_chain_insert _ _); cbn [mbind outcome_bind]; [|done].
    by rewrite <- invoke_refreeze.
  - destruct (chain_store 0 _ t) as [t'|]; cbn [mbind outcome_bind]; [|done].
    rewrite insert_refreeze. destruct (Buf.evbuffer_chain_insert _ _); cbn [mbind outcome_bind]; [|done].
    by rewrite <- invoke_refreeze.
Qed.

(** Adding does not look at the start. *)
Lemma add_refreeze fs data b :
  eb_freeze_end b = false →
  Buf.evbuffer_add data (refreeze fs false b) = ('(r, b') ← Buf.evbuffer_add data b; Val (r, refreeze fs false b')).
Proof.
  intros He. unfold Buf.evbuffer_add. rewrite He. cbn [eb_freeze_end refreeze]. rewrite ensure_refreeze.
  destruct (Buf.ensure_chain (Zlen data) b) as [[b1|]|]; cbn [mbind outcome_bind option_map]; [|done..].
  change (eb_last (refreeze fs false b1)) with (eb_last b1).
  destruct (or_undef NullDeref (eb_last b1)) as [c|]; cbn [mbind outcome_bind]; [|done].
  destruct (negb (is_immutable c)); [|apply add_new_chain_refreeze].
  destruct (_ >=? _); [apply fill_last_refreeze|]. destruct (_ && _); [|apply add_new_chain_refreeze].
  destruct (evbuffer_chain_align c); cbn [mbind outcome_bind]; [apply fill_last_refreeze|done].
Qed.

(** ** Removing *)

(** A removal reports what the length lost. *)
Lemma drain_notified n b r b' :
  quiet b → Buf.evbuffer_drain n b = Val (r, b') → notified 0 (eb_total_len b - eb_total_len b') b b'.
Proof.
  intros Hq. unfold Buf.evbuffer_drain.
  assert (∀ x, Val (x, b) = Val (r, b') → notified 0 (eb_total_len b - eb_total_len b') b b') as Hno.
  { intros x [_ <-]%Val_inj%pair_equal_spec. rewrite Z.sub_diag. by apply notified_refl. }
  destruct (eb_total_len b =? 0); [apply Hno|]. destruct (eb_freeze_start b); [apply Hno|].
  destruct (_ && _).
  - intros [_ <-]%Val_inj%pair_equal_spec. rewrite <- (same_total _ _ (same_invoke _)).
    change (eb_total_len (count_deleted _ (ZERO_CHAIN b))) with 0. rewrite Z.sub_0_r. apply invoke_notified; [done|]. apply (held_deleted _ 0 0).
    unfold ZERO_CHAIN. auto with comet.
  - intros ([[[cs fr] rs] rem] & _ & E)%outcome_bind_Val. apply Val_inj, pair_equal_spec in E as [_ <-].
    rewrite <- (same_total _ _ (same_invoke _)). cbn [eb_total_len set_chains count_deleted set_counts].
    rewrite Z.sub_sub_distr, Z.sub_diag, Z.add_0_l. apply invoke_notified; [done|]. apply (held_deleted _ 0 0). auto with comet.
Qed.

Lemma drain_refreeze fe n b :
  eb_freeze_start b = false →
  Buf.evbuffer_drain n (refreeze false fe b) = ('(r, b') ← Buf.evbuffer_drain n b; Val (r, refreeze false fe b')).
Proof.
  intros Hs. unfold Buf.evbuffer_drain. cbn [eb_total_len eb_freeze_start refreeze eb_chains eb_lwd]. rewrite Hs.
  destruct (eb_total_len b =? 0); [done|]. change (Buf.HAS_PINNED_R (refreeze false fe b)) with (Buf.HAS_PINNED_R b).
  destruct (_ && _); [cbn [mbind outcome_bind]; by rewrite <- invoke_refreeze|].
  destruct (Buf.drain_loop _ _ _ _ _) as [[[[cs fr] rs] rem]|]; cbn [mbind outcome_bind]; [|done].
  by rewrite <- invoke_refreeze.
Qed.

Lemma remove_refreeze fe n b :
  eb_freeze_start b = false →
  Buf.evbuffer_remove n (refreeze false fe b) =
  ('(r, data, b') ← Buf.evbuffer_remove n b; Val (r, data, refreeze false fe b')).
Proof.
  intros Hs. unfold Buf.evbuffer_remove.
  assert (Buf.evbuffer_copyout n (refreeze false fe b) = Buf.evbuffer_copyout n b) as ->.
  { unfold Buf.evbuffer_copyout. cbn [eb_total_len eb_freeze_start refreeze eb_chains]. by rewrite Hs. }
  destruct (Buf.evbuffer_copyout n b) as [[k data]|]; cbn [mbind outcome_bind]; [|done].
  destruct (k >? 0); [|done]. rewrite drain_refreeze by done. by destruct (Buf.evbuffer_drain k b) as [[r b']|].
Qed.

Lemma remove_notified n b r data b' :
  quiet b → Buf.evbuffer_remove n b = Val (r, data, b') → notified 0 (eb_total_len b - eb_total_len b') b b'.
Proof.
  intros Hq. unfold Buf.evbuffer_remove. intros ([k d] & _ & E)%outcome_bind_Val. destruct (k >? 0).
  - apply outcome_bind_Val in E as ([r1 b1] & E1 & E). apply Val_inj, pair_equal_spec in E as [_ <-].
    by eapply drain_notified.
  - apply Val_inj, pair_equal_spec in E as [_ <-]. rewrite Z.sub_diag. by apply notified_refl.
Qed.

(** ** The descriptor *)

Lemma write_atmost_notified wr sf howmuch b r took b' :
  quiet b → evbuffer_write_atmost wr sf howmuch b = Val (r, took, b') →
  notified 0 (eb_total_len b - eb_total_len b') b b'.
Proof.
  intros Hq. unfold evbuffer_write_atmost.
  assert (∀ x y, Val (x, y, b) = Val (r, took, b') → notified 0 (eb_total_len b - eb_total_len b') b b') as Hno.
  { intros x y [_ <-]%Val_inj%pair_equal_spec. rewrite Z.sub_diag. by apply notified_refl. }
  destruct (eb_freeze_start b); [apply Hno|]. intros ([k y] & _ & E)%outcome_bind_Val.
  destruct (k >? 0); [|by eapply Hno]. apply outcome_bind_Val in E as ([r1 b1] & E1 & E).
  apply Val_inj, pair_equal_spec in E as [_ <-]. by eapply drain_notified.
Qed.

Lemma expand_fast_held n k b r b' : _evbuffer_expand_fast n k b = Val (r, b') → held 0 0 b b'.
Proof.
  unfold _evbuffer_expand_fast. destruct (k <? 2)%nat; [done|].
  assert (∀ ob, Buf.evbuffer_chain_insert_new n b = Val ob →
    Val (match ob with None => (-1, b) | Some b => (0, b) end) = Val (r, b') → held 0 0 b b') as Hins.
  { intros [b1|] E; intros [_ <-]%Val_inj%pair_equal_spec; [by eapply insert_new_held|apply held_refl]. }
  destruct (eb_last b) as [c|]; [|by intros (ob & E & E')%outcome_bind_Val; eapply Hins].
  destruct (negb (is_immutable c)); [|by intros (ob & E & E')%outcome_bind_Val; eapply Hins].
  intros ([[[cs enough] avail] used] & _ & E)%outcome_bind_Val. set (b1 := set_chains _ _ _ b) in E.
  assert (held 0 0 b b1) as H1 by (unfold b1; auto with comet). destruct enough.
  { by apply Val_inj, pair_equal_spec in E as [_ <-]. }
  destruct (used <? k)%nat.
  - apply outcome_bind_Val in E as ([t|] & _ & E); apply Val_inj, pair_equal_spec in E as [_ <-]; auto with comet.
  - unfold replace_empty in E. apply outcome_bind_Val in E as (c1 & _ & E).
    destruct (_ && _); [done|]. destruct (Buf.all_empty _); [|done].
    apply outcome_bind_Val in E as ([t|] & _ & E); apply Val_inj, pair_equal_spec in E as [_ <-]; [auto with comet|].
    unfold ZERO_CHAIN. destruct (_ =? 0); auto with comet.
Qed.

(** A read reports the bytes it got. *)
Lemma read_notified readable rd howmuch b r b' :
  quiet b → evbuffer_read readable rd howmuch b = Val (r, b') → notified (Z.max 0 r) 0 b b'.
Proof.
  intros Hq. unfold evbuffer_read.
  assert (∀ x b1, x <= 0 → held 0 0 b b1 → Val (x, b1) = Val (r, b') → notified (Z.max 0 r) 0 b b') as Hno.
  { intros x b1 Hx Hh [<- <-]%Val_inj%pair_equal_spec. rewrite Z.max_l by lia. by apply held_notified. }
  destruct (eb_freeze_end b); [by apply Hno; [lia|apply held_refl]|].
  intros ([r1 b1] & E1%expand_fast_held & E)%outcome_bind_Val.
  destruct (r1 =? -1); [by eapply Hno; [| |done]; [lia|]|].
  apply outcome_bind_Val in E as (ov & _ & E). apply outcome_bind_Val in E as ([vecs p] & _ & E).
  destruct rd as [data|]; [|by eapply Hno; [| |done]; [lia|]].
  apply outcome_bind_Val in E as (cs & _ & E). destruct (_ =? 0).
  { eapply Hno; [| |done]; [lia|]. auto with comet. }
  apply outcome_bind_Val in E as ([cs' l] & _ & E). apply Val_inj, pair_equal_spec in E as [<- <-].
  rewrite Z.max_r by apply Zlen_nonneg. apply invoke_notified; [done|]. apply (held_added _ 0). unfold add_total. auto with comet.
Qed.

(** ** Operations on the two buffers of a bufferevent *)

(** The program adds to a buffer whose start is frozen. *)
Lemma frozen_add_spec data b :
  evb_frozen_inv true false b → writable b → quiet b → Zlen data <= evb_limit →
  ∃ r b', Buf.evbuffer_add data b = Val (r, b') ∧ evb_frozen_inv true false b' ∧ writable b' ∧
    (r = 0 ∧ bytes b' = bytes b ++ data ∧ notified (Zlen data) 0 b b' ∨
     r = -1 ∧ bytes b' = bytes b ∧ notified 0 0 b b').
Proof.
  intros Hb Hw Hq Hd. pose proof (frozen_is _ _ _ Hb) as Eb. destruct Hb as (Hi & _). set (b0 := refreeze false false b) in *.
  assert (Buf.evbuffer_add data b = ('(r, b') ← Buf.evbuffer_add data b0; Val (r, refreeze true false b'))) as Ea.
  { rewrite Eb at 1. by apply add_refreeze. }
  assert (∀ r b', Buf.evbuffer_add data b = Val (r, b') →
    r = 0 ∧ notified (Zlen data) 0 b b' ∨ r = -1 ∧ notified 0 0 b b') as Hn.
  { intros r b'. apply add_notified; [done|]. eapply Forall_impl; [apply (wf_chains _ Hi)|]. intros c Hc. apply (ok_fits _ Hc). }
  destruct (evbuffer_add_spec data b0 (inv_tight _ Hi Hw) (under_limit _ Hd)) as [(b1 & E & Hb1 & Hbs & _)|(b1 & E & Hb1 & Hbs)];
    apply tight_inv in Hb1 as [Hb1 Hw1]; rewrite E in Ea; cbn [mbind outcome_bind] in Ea; eexists _, _; (split; [exact Ea|]);
    (split; [by apply frozen_intro|]); (split; [done|]); destruct (Hn _ _ Ea) as [[? ?]|[? ?]]; try done.
  - right. done.
  - left. done.
Qed.

(** The program takes bytes from a buffer whose end is frozen. *)
Lemma frozen_remove_spec n b :
  evb_frozen_inv false true b → quiet b → 0 <= n →
  ∃ b', Buf.evbuffer_remove n b = Val (i32 (Z.min n (Zlen (bytes b))), ztake n (bytes b), b') ∧
    evb_frozen_inv false true b' ∧ bytes b' = zdrop n (bytes b) ∧
    notified 0 (eb_total_len b - eb_total_len b') b b'.
Proof.
  intros Hb Hq Hn. pose proof (frozen_is _ _ _ Hb) as Eb. destruct Hb as (Hi & _). set (b0 := refreeze false false b) in *.
  assert (Buf.evbuffer_remove n b = ('(r, data, b') ← Buf.evbuffer_remove n b0; Val (r, data, refreeze false true b'))) as Ea.
  { rewrite Eb at 1. by apply remove_refreeze. }
  destruct (evbuffer_remove_spec n b0 Hi Hn) as (b1 & E & Hb1 & _ & Hbs). rewrite E in Ea. cbn [mbind outcome_bind] in Ea.
  eexists. split; [exact Ea|]. split; [by apply frozen_intro|]. split; [done|]. by eapply remove_notified.
Qed.

Lemma unfreeze_end b : evb_frozen_inv false true b → evbuffer_unfreeze false b = refreeze false false b.
Proof. intros (_ & E & _). destruct b. cbn in *. by subst. Qed.
Lemma unfreeze_start b : evb_frozen_inv true false b → evbuffer_unfreeze true b = refreeze false false b.
Proof. intros (_ & _ & E). destruct b. cbn in *. by subst. Qed.
Lemma freeze_end b : evb_inv b → evbuffer_freeze false b = refreeze false true b.
Proof. intros Hb. destruct (wf_thawed _ Hb) as [E1 E2]. destruct b. cbn in *. by subst. Qed.
Lemma freeze_start b : evb_inv b → evbuffer_freeze true b = refreeze true false b.
Proof. intros Hb. destruct (wf_thawed _ Hb) as [E1 E2]. destruct b. cbn in *. by subst. Qed.

Lemma notified_refreeze a d fs fe b b1 :
  evb_frozen_inv fs fe b → notified a d (refreeze false false b) b1 → notified a d b (refreeze fs fe b1).
Proof. intros (_ & <- & <-) [N1 N2 N3 N4 N5]. by split. Qed.

(** The bufferevent reads into and writes from a buffer it thaws for the call. *)
Lemma thawed_read_spec readable rd howmuch b :
  evb_frozen_inv false true b → quiet b →
  let m := read_size readable howmuch in
  ∃ r b', evbuffer_read readable rd howmuch (evbuffer_unfreeze false b) = Val (r, b') ∧
    evb_frozen_inv false true (evbuffer_freeze false b') ∧
    notified (Z.max 0 r) 0 b (evbuffer_freeze false b') ∧
    (r = -1 ∧ bytes b' = bytes b ∧ (rd = None ∨ out_of_memory) ∨
     ∃ data, rd = Some data ∧ r = Zlen (ztake m data) ∧ bytes b' = bytes b ++ ztake m data).
Proof.
  intros Hb Hq m. rewrite (unfreeze_end _ Hb).
  destruct (evbuffer_read_spec readable rd howmuch (refreeze false false b) (proj1 Hb)) as (r & b1 & E & Hb1 & Hr).
  exists r, b1. split; [done|]. rewrite freeze_end by done. split; [by apply frozen_intro|]. split; [|done].
  eapply notified_refreeze; [done|]. by eapply read_notified.
Qed.

Lemma thawed_write_spec wr sf howmuch b :
  evb_frozen_inv true false b → writable b → quiet b → (∀ data, -1 <= wr data <= Zlen data) →
  ∃ r b', evbuffer_write_atmost wr sf howmuch (evbuffer_unfreeze true b) = Val (r, ztake r (bytes b), b') ∧
    evb_frozen_inv true false (evbuffer_freeze true b') ∧ writable (evbuffer_freeze true b') ∧
    notified 0 (eb_total_len b - eb_total_len b') b (evbuffer_freeze true b') ∧
    r = (if write_size howmuch b >? 0 then match offered howmuch b with [] => r | data => wr data end else -1) ∧
    r <= Zlen (offered howmuch b) ∧ bytes b' = zdrop (Z.max 0 r) (bytes b).
Proof.
  intros Hb Hw Hq Hwr. rewrite (unfreeze_start _ Hb).
  destruct (write_atmost_spec wr sf howmuch (refreeze false false b) (proj1 Hb) Hwr) as (r & b1 & E & Hb1 & Hw1 & Hr & Hle & Hbs).
  exists r, b1. split; [done|]. rewrite freeze_start by done. split; [by apply frozen_intro|]. split; [by apply Hw1|].
  split; [|done]. eapply notified_refreeze; [done|].
  by eapply (write_atmost_notified wr sf howmuch (refreeze false false b) r).
Qed.
End notify.
