(* ===== verification/Chars.v ===== *)
(** Characters and C strings: the ctype functions of evutil.c and what its callers use of string.h.

    A C string is the list of its characters without the NUL that ends it, and a pointer into one is
    the rest of the string from there on. *)

From S2P Require Import Prelude.

(** ** Character classes (evutil.c) *)

Definition EVUTIL_ISALPHA_TABLE : list Z := [0; 0; 0x7fffffe; 0x7fffffe; 0; 0; 0; 0].
Definition EVUTIL_ISALNUM_TABLE : list Z := [0; 0x3ff0000; 0x7fffffe; 0x7fffffe; 0; 0; 0; 0].
Definition EVUTIL_ISSPACE_TABLE : list Z := [0x3e00; 0x1; 0; 0; 0; 0; 0; 0].
Definition EVUTIL_ISXDIGIT_TABLE : list Z := [0; 0x3ff0000; 0x7e; 0x7e; 0; 0; 0; 0].
Definition EVUTIL_ISDIGIT_TABLE : list Z := [0; 0x3ff0000; 0; 0; 0; 0; 0; 0].
Definition EVUTIL_ISPRINT_TABLE : list Z := [0; 0xffffffff; 0xffffffff; 0x7fffffff; 0; 0; 0; 0].
Definition EVUTIL_ISUPPER_TABLE : list Z := [0; 0; 0x7fffffe; 0; 0; 0; 0; 0].
Definition EVUTIL_ISLOWER_TABLE : list Z := [0; 0; 0; 0x7fffffe; 0; 0; 0; 0].

(** The macro IMPL_CTYPE_FN. *)
Definition IMPL_CTYPE_FN (table : list Z) (c : byte) : bool :=
  let u := b2z c in
  negb (Z.land (default 0 (znth table (Z.land (Z.shiftr u 5) 7))) (Z.shiftl 1 (Z.land u 31)) =? 0).

Definition EVUTIL_ISALPHA : byte → bool := IMPL_CTYPE_FN EVUTIL_ISALPHA_TABLE.
Definition EVUTIL_ISALNUM : byte → bool := IMPL_CTYPE_FN EVUTIL_ISALNUM_TABLE.
Definition EVUTIL_ISSPACE : byte → bool := IMPL_CTYPE_FN EVUTIL_ISSPACE_TABLE.
Definition EVUTIL_ISDIGIT : byte → bool := IMPL_CTYPE_FN EVUTIL_ISDIGIT_TABLE.
Definition EVUTIL_ISXDIGIT : byte → bool := IMPL_CTYPE_FN EVUTIL_ISXDIGIT_TABLE.
Definition EVUTIL_ISPRINT : byte → bool := IMPL_CTYPE_FN EVUTIL_ISPRINT_TABLE.
Definition EVUTIL_ISLOWER : byte → bool := IMPL_CTYPE_FN EVUTIL_ISLOWER_TABLE.
Definition EVUTIL_ISUPPER : byte → bool := IMPL_CTYPE_FN EVUTIL_ISUPPER_TABLE.

(** The tables of 256 numbers, by the runs they consist of. *)
Definition EVUTIL_TOUPPER_TABLE : list Z := seqZ 0 97 ++ seqZ 65 26 ++ seqZ 123 133.
Definition EVUTIL_TOLOWER_TABLE : list Z := seqZ 0 65 ++ seqZ 97 26 ++ seqZ 91 165.
Definition EVUTIL_TOLOWER (c : byte) : byte := z2b (default 0 (znth EVUTIL_TOLOWER_TABLE (b2z c))).
Definition EVUTIL_TOUPPER (c : byte) : byte := z2b (default 0 (znth EVUTIL_TOUPPER_TABLE (b2z c))).

(** ** Strings *)

Definition isc (c x : byte) : bool := Byte.eqb x c.
Definition NUL : byte := "000"%byte.

(** [*s] *)
Definition head0 (s : list byte) : byte := match s with [] => NUL | c :: _ => c end.

(** The characters before the first one in [f], and the rest. *)
Fixpoint break (f : byte → bool) (s : list byte) : list byte * list byte :=
  match s with
  | [] => ([], [])
  | c :: s => if f c then ([], c :: s) else let '(l, r) := break f s in (c :: l, r)
  end.

(** Where [c] is first, split there. *)
Definition strchr (s : list byte) (c : byte) : option (list byte * list byte) :=
  let '(l, r) := break (isc c) s in match r with [] => None | _ :: r => Some (l, r) end.

(** [strchr(set, c)] as a test; the NUL is in every string. *)
Definition in_set (set : list byte) (c : byte) : bool := existsb (isc c) set || isc NUL c.

(** The C string at the beginning of an array, which ends with a NUL or the array. *)
Definition c_str (mem : list byte) : list byte := (break (isc NUL) mem).1.

(** A [char] is signed. *)
Definition char_val (c : byte) : Z := if b2z c <? 128 then b2z c else b2z c - 256.

Fixpoint evutil_ascii_strcasecmp (s1 s2 : list byte) : Z :=
  let c1 := char_val (EVUTIL_TOLOWER (head0 s1)) in
  let c2 := char_val (EVUTIL_TOLOWER (head0 s2)) in
  if c1 <? c2 then -1
  else if c1 >? c2 then 1
  else if c1 =? 0 then 0
  else match s1, s2 with _ :: s1, _ :: s2 => evutil_ascii_strcasecmp s1 s2 | _, _ => 0 end.

Fixpoint evutil_ascii_strncasecmp (s1 s2 : list byte) (n : nat) : Z :=
  match n with
  | O => 0
  | S n =>
      let c1 := char_val (EVUTIL_TOLOWER (head0 s1)) in
      let c2 := char_val (EVUTIL_TOLOWER (head0 s2)) in
      if c1 <? c2 then -1
      else if c1 >? c2 then 1
      else if c1 =? 0 then 0
      else match s1, s2 with _ :: s1, _ :: s2 => evutil_ascii_strncasecmp s1 s2 n | _, _ => 0 end
  end.

Definition evutil_hex_char_to_int (c : byte) : Z :=
  let u := b2z c in
  if (48 <=? u) && (u <=? 57) then u - 48
  else if (65 <=? u) && (u <=? 70) then u - 55
  else if (97 <=? u) && (u <=? 102) then u - 87
  else -1.

(** ** What holds of every character *)

Definition all_bytes : list byte := z2b <$> seqZ 0 256.

Lemma in_all_bytes c : c ∈ all_bytes.
Proof. apply list_elem_of_fmap. exists (b2z c). split; [by rewrite z2b_b2z|]. apply elem_of_seqZ. pose proof (b2z_range c). lia. Qed.

(** Decided by looking at all of them. *)
Lemma each_byte (f : byte → bool) : forallb f all_bytes = true → ∀ c, f c = true.
Proof. rewrite forallb_forall. intros H c. apply H. apply list_elem_of_In, in_all_bytes. Qed.

Lemma each_byte2 (f : byte → byte → bool) : forallb (λ a, forallb (f a) all_bytes) all_bytes = true → ∀ a b, f a b = true.
Proof. intros H a. apply each_byte. revert a. by apply each_byte. Qed.

(** One class is a part of another. *)
Lemma class_sub (f g : byte → bool) : forallb (λ c, implb (f c) (g c)) all_bytes = true → ∀ c, f c = true → g c = true.
Proof. intros H c Hf. pose proof (each_byte _ H c) as Hi. cbn in Hi. by rewrite Hf in Hi. Qed.

Lemma is_eq c x : isc c x = true ↔ x = c.
Proof. unfold isc. split; [apply Byte.byte_dec_bl|intros ->; by apply Byte.byte_dec_lb]. Qed.
Lemma is_same c : isc c c = true.
Proof. by apply is_eq. Qed.

(** A class that does not have [c] says so. *)
Lemma class_not (f : byte → bool) c : f c = false → ∀ x, f x = true → isc c x = false.
Proof. intros Hf x Hx. apply not_true_is_false. rewrite is_eq. intros ->. congruence. Qed.

Definition all_in (f : byte → bool) (s : list byte) : bool := forallb f s.

Lemma all_in_cons f c s : all_in f (c :: s) = f c && all_in f s.
Proof. done. Qed.
Lemma all_in_app f s t : all_in f (s ++ t) = all_in f s && all_in f t.
Proof. apply forallb_app. Qed.
Lemma all_in_sub (f g : byte → bool) s : (∀ c, f c = true → g c = true) → all_in f s = true → all_in g s = true.
Proof. intros H. unfold all_in. rewrite !forallb_forall. eauto. Qed.

(** ** Splitting *)

Lemma break_app f s : (break f s).1 ++ (break f s).2 = s.
Proof. induction s as [|c s IH]; [done|]. cbn. destruct (f c); [done|]. destruct (break f s). cbn in *. by rewrite IH. Qed.

Lemma break_out f s : all_in (λ c, negb (f c)) (break f s).1 = true.
Proof. induction s as [|c s IH]; [done|]. cbn. destruct (f c) eqn:E; [done|]. destruct (break f s). cbn in *. by rewrite E. Qed.

(** The rest begins with one of [f], or is empty. *)
Lemma break_rest f s : match (break f s).2 with [] => True | c :: _ => f c = true end.
Proof. induction s as [|c s IH]; [done|]. cbn. destruct (f c) eqn:E; [done|]. by destruct (break f s). Qed.

Lemma break_at f s t : all_in (λ c, negb (f c)) s = true → match t with [] => True | c :: _ => f c = true end → break f (s ++ t) = (s, t).
Proof.
  induction s as [|c s IH]; cbn; intros Hs Ht.
  - destruct t as [|c t]; [done|]. cbn. by rewrite Ht.
  - apply andb_true_iff in Hs as [Hc Hs]. apply negb_true_iff in Hc. rewrite Hc, IH; done.
Qed.

Lemma strchr_some s c l r : strchr s c = Some (l, r) ↔ s = l ++ c :: r ∧ all_in (λ x, negb (isc c x)) l = true.
Proof.
  unfold strchr. split.
  - pose proof (break_app (isc c) s) as Ha. pose proof (break_out (isc c) s) as Ho. pose proof (break_rest (isc c) s) as Hr. destruct (break (isc c) s) as [l' [|x r']]; [done|].
    intros [= <- <-]. cbn in *. apply is_eq in Hr as ->. done.
  - intros [-> Hl]. rewrite break_at; [done|done|]. apply is_same.
Qed.

Lemma strchr_none s c : strchr s c = None ↔ all_in (λ x, negb (isc c x)) s = true.
Proof.
  unfold strchr. split.
  - pose proof (break_app (isc c) s) as Ha. pose proof (break_out (isc c) s) as Ho. destruct (break (isc c) s) as [l' [|x r']]; [|done]. cbn in *. rewrite app_nil_r in Ha. by subst.
  - intros Hs. pose proof (break_at (isc c) s [] Hs I) as E. rewrite app_nil_r in E. by rewrite E.
Qed.
