(* ===== verification/Tagging.v ===== *)
(** Tagged data: event_tagging.c of libevent 2.0.21, which writes values with a tag and a
    length into an evbuffer and reads them back.

    Arrays are lists of bytes and every access is checked.  A pointer that evbuffer_pullup
    returns is good for the bytes asked for.  Results through pointers are an [option]:
    [None] where the function leaves the variable as it was.  [(lower & 0x7f) << 28] is
    taken modulo 2^32, which is what compilers make of it. *)

From S2P Require Import Prelude EvFlags EvbufferApi BufChain Chars.

Section tagging.
Context {HM : Malloc} `{Evbuffer B}.

(** ** Integers: a nibble with the number of nibbles less one, then the nibbles *)

(** [while (number) ...] of ENCODE_INT_INTERNAL. *)
Fixpoint encode_loop (fuel : nat) (off number : Z) (data : list byte) : outcome (Z * list byte) :=
  if number =? 0 then Val (off, data)
  else
    match fuel with
    | O => Undef Hang
    | S fuel =>
        old ← or_undef OutOfBounds (znth data (off / 2));
        let v :=
          if Z.odd off then Z.lor (Z.land (b2z old) 0xf0) (Z.land number 0x0f)
          else Z.lor (Z.land (b2z old) 0x0f) (Z.shiftl (Z.land number 0x0f) 4) in
        data ← poke data (off / 2) [z2b v];
        encode_loop fuel (off + 1) (Z.shiftr number 4) data
    end.

(** [size] is [sizeof(number)]; the result is the number of bytes used and the array. *)
Definition ENCODE_INT_INTERNAL (size : Z) (data : list byte) (number : Z) : outcome (Z * list byte) :=
  data ← poke data 0 (replicate (Z.to_nat (size + 1)) (z2b 0));
  '(off, data) ← encode_loop (Z.to_nat (2 * size)) 1 number data;
  let nibbles := if off >? 2 then off - 2 else 0 in
  old ← or_undef OutOfBounds (znth data 0);
  data ← poke data 0 [z2b (Z.lor (Z.land (b2z old) 0x0f) (Z.shiftl (Z.land nibbles 0x0f) 4))];
  Val ((off + 1) / 2, data).

Definition encode_int_internal (data : list byte) (number : Z) : outcome (Z * list byte) :=
  ENCODE_INT_INTERNAL 4 data number.
Definition encode_int64_internal (data : list byte) (number : Z) : outcome (Z * list byte) :=
  ENCODE_INT_INTERNAL 8 data number.

(** A local array of [n] bytes. *)
Definition array (n : nat) : list byte := replicate n uninit.

(** [memcpy] and the like read [n] bytes at a pointer. *)
Definition read_at (p : option (list byte)) (n : Z) : outcome (list byte) :=
  if n =? 0 then Val []
  else
    match p with
    | None => Undef NullDeref
    | Some bs => if n <=? Zlen bs then Val (ztake n bs) else Undef OutOfBounds
    end.

(** [evbuffer_add(evbuf, data, len)] for an array; the result is not looked at. *)
Definition add_array (evbuf : B) (data : list byte) (len : Z) : outcome B :=
  bs ← read_at (Some data) (u64 len);
  Val (evbuffer_add evbuf bs).2.

Definition evtag_encode_int (evbuf : B) (number : Z) : outcome B :=
  '(len, data) ← encode_int_internal (array 5) number;
  add_array evbuf data len.

Definition evtag_encode_int64 (evbuf : B) (number : Z) : outcome B :=
  '(len, data) ← encode_int64_internal (array 9) number;
  add_array evbuf data len.

(** ** Tags: seven bits a byte, the high bit says that more follow *)

Fixpoint encode_tag_loop (fuel : nat) (bytes tag : Z) (data : list byte) : outcome (Z * list byte) :=
  match fuel with
  | O => Undef Hang
  | S fuel =>
      let lower := Z.land tag 0x7f in
      let tag := Z.shiftr tag 7 in
      let lower := if tag =? 0 then lower else Z.lor lower 0x80 in
      data ← poke data bytes [z2b lower];
      if tag =? 0 then Val (bytes + 1, data) else encode_tag_loop fuel (bytes + 1) tag data
  end.

Definition evtag_encode_tag (evbuf : option B) (tag : Z) : outcome (Z * option B) :=
  data ← poke (array 5) 0 (replicate 5 (z2b 0));
  '(bytes, data) ← encode_tag_loop 5 0 tag data;
  match evbuf with
  | None => Val (bytes, None)
  | Some evbuf => evbuf ← add_array evbuf data bytes; Val (bytes, Some evbuf)
  end.

(** The loop over the bytes at [data]; the result is [count] and [number] when it is done. *)
Fixpoint decode_tag_loop (data : list byte) (len count number shift : Z) : outcome (option (Z * Z)) :=
  if count <? len then
    match data with
    | [] => Undef OutOfBounds
    | lower :: data =>
        let number := Z.lor number (u32 (Z.shiftl (Z.land (b2z lower) 0x7f) shift)) in
        if Z.land (b2z lower) 0x80 =? 0 then Val (Some (count + 1, number))
        else decode_tag_loop data len (count + 1) number (shift + 7)
    end
  else Val None.

Definition INT_MAX : Z := 2 ^ 31 - 1.

Definition decode_tag_internal (evbuf : B) (dodrain : bool) : outcome (Z * option Z * B) :=
  let len := evbuffer_get_length evbuf in
  let '(p, evbuf) := evbuffer_pullup evbuf (if len <? 5 then len else 5) in
  if len =? 0 then Val (-1, None, evbuf)
  else
    data ← or_undef NullDeref p;
    r ← decode_tag_loop data len 0 0 0;
    match r with
    | None => Val (-1, None, evbuf)
    | Some (count, number) =>
        let evbuf := if dodrain then (evbuffer_drain evbuf count).2 else evbuf in
        Val (if count >? INT_MAX then INT_MAX else count, Some number, evbuf)
    end.

Definition evtag_decode_tag (evbuf : B) : outcome (Z * option Z * B) := decode_tag_internal evbuf true.

(** ** Writing *)

Definition encode_tag (evbuf : B) (tag : Z) : outcome B :=
  '(_, evbuf) ← evtag_encode_tag (Some evbuf) tag;
  or_undef NullDeref evbuf.

(** [len] bytes of [data]. *)
Definition evtag_marshal (evbuf : B) (tag : Z) (data : list byte) (len : Z) : outcome B :=
  evbuf ← encode_tag evbuf tag;
  evbuf ← evtag_encode_int evbuf len;
  add_array evbuf data len.

Definition evtag_marshal_buffer (evbuf : B) (tag : Z) (data : B) : outcome (B * B) :=
  evbuf ← encode_tag evbuf tag;
  evbuf ← evtag_encode_int evbuf (u32 (evbuffer_get_length data));
  let '(_, evbuf, data) := evbuffer_add_buffer evbuf data in
  Val (evbuf, data).

Definition evtag_marshal_int (evbuf : B) (tag integer : Z) : outcome B :=
  '(len, data) ← encode_int_internal (array 5) integer;
  evbuf ← encode_tag evbuf tag;
  evbuf ← evtag_encode_int evbuf (u32 len);
  add_array evbuf data len.

Definition evtag_marshal_int64 (evbuf : B) (tag integer : Z) : outcome B :=
  '(len, data) ← encode_int64_internal (array 9) integer;
  evbuf ← encode_tag evbuf tag;
  evbuf ← evtag_encode_int evbuf (u32 len);
  add_array evbuf data len.

(** [string] is the memory at the pointer; its strlen is that of [c_str]. *)
Definition evtag_marshal_string (evbuf : B) (tag : Z) (string : list byte) : outcome B :=
  evtag_marshal evbuf tag string (u32 (Zlen (c_str string))).

(** The second number is written at [data + len]. *)
Definition evtag_marshal_timeval (evbuf : B) (tag : Z) (tv : timeval) : outcome B :=
  '(len, data) ← encode_int_internal (array 10) (u32 (tv_sec tv));
  '(len2, data2) ← encode_int_internal (zdrop len data) (u32 (tv_usec tv));
  evtag_marshal evbuf tag (ztake len data ++ data2) (u32 (len + len2)).

(** ** Reading integers *)

(** [while (nibbles > 0) ...] of DECODE_INT_INTERNAL on a number of [w] bits. *)
Fixpoint decode_nibbles (nibbles : nat) (w : Z) (data : list byte) (number : Z) : outcome Z :=
  match nibbles with
  | O => Val number
  | S n =>
      let i := Z.of_nat nibbles in
      let number := Z.shiftl number 4 mod 2 ^ w in
      byte ← or_undef OutOfBounds (znth data (Z.shiftr i 1));
      let nibble := if Z.odd i then Z.land (b2z byte) 0x0f else Z.shiftr (Z.land (b2z byte) 0xf0) 4 in
      decode_nibbles n w data (Z.lor number nibble)
  end.

(** The bytes from [offset] on of those pulled up. *)
Definition pullup_at (evbuf : B) (n offset : Z) : outcome (list byte * B) :=
  let '(p, evbuf) := evbuffer_pullup evbuf n in
  data ← or_undef NullDeref p;
  Val (zdrop offset data, evbuf).

Definition DECODE_INT_INTERNAL (w maxnibbles : Z) (evbuf : B) (offset : Z) : outcome (Z * option Z * B) :=
  let len := i64 (evbuffer_get_length evbuf - offset) in
  if len <=? 0 then Val (-1, None, evbuf)
  else
    '(data, evbuf) ← pullup_at evbuf (offset + 1) offset;
    byte ← or_undef OutOfBounds (znth data 0);
    let nibbles := Z.shiftr (Z.land (b2z byte) 0xf0) 4 + 1 in
    if (nibbles >? maxnibbles) || (Z.shiftr nibbles 1 + 1 >? len) then Val (-1, None, evbuf)
    else
      let len := Z.shiftr nibbles 1 + 1 in
      '(data, evbuf) ← pullup_at evbuf (offset + len) offset;
      number ← decode_nibbles (Z.to_nat nibbles) w data 0;
      Val (len, Some number, evbuf).

Definition decode_int_internal (evbuf : B) (offset : Z) : outcome (Z * option Z * B) :=
  DECODE_INT_INTERNAL 32 8 evbuf offset.
Definition decode_int64_internal (evbuf : B) (offset : Z) : outcome (Z * option Z * B) :=
  DECODE_INT_INTERNAL 64 16 evbuf offset.

Definition evtag_decode_int (evbuf : B) : outcome (Z * option Z * B) :=
  '(res, number, evbuf) ← decode_int_internal evbuf 0;
  if res =? -1 then Val (-1, number, evbuf) else Val (0, number, (evbuffer_drain evbuf (u64 res)).2).

Definition evtag_decode_int64 (evbuf : B) : outcome (Z * option Z * B) :=
  '(res, number, evbuf) ← decode_int64_internal evbuf 0;
  if res =? -1 then Val (-1, number, evbuf) else Val (0, number, (evbuffer_drain evbuf (u64 res)).2).

(** ** Looking ahead *)

Definition evtag_peek (evbuf : B) : outcome (Z * option Z * B) := decode_tag_internal evbuf false.

Definition evtag_peek_length (evbuf : B) : outcome (Z * option Z * B) :=
  '(len, _, evbuf) ← decode_tag_internal evbuf false;
  if len =? -1 then Val (-1, None, evbuf)
  else
    '(res, plength, evbuf) ← decode_int_internal evbuf len;
    if res =? -1 then Val (-1, plength, evbuf)
    else Val (0, option_map (λ n, u32 (n + u32 (res + len))) plength, evbuf).

Definition evtag_payload_length (evbuf : B) : outcome (Z * option Z * B) :=
  '(len, _, evbuf) ← decode_tag_internal evbuf false;
  if len =? -1 then Val (-1, None, evbuf)
  else
    '(res, plength, evbuf) ← decode_int_internal evbuf len;
    Val (if res =? -1 then -1 else 0, plength, evbuf).

(** ** Reading *)

(** The result is the length as an [int]. *)
Definition evtag_unmarshal_header (evbuf : B) : outcome (Z * option Z * B) :=
  '(r, tag, evbuf) ← decode_tag_internal evbuf true;
  if r =? -1 then Val (-1, tag, evbuf)
  else
    '(r, len, evbuf) ← evtag_decode_int evbuf;
    if r =? -1 then Val (-1, tag, evbuf)
    else
      len ← or_undef OutOfBounds len;
      if evbuffer_get_length evbuf <? len then Val (-1, tag, evbuf) else Val (i32 len, tag, evbuf).

Definition evtag_consume (evbuf : B) : outcome (Z * B) :=
  '(len, _, evbuf) ← evtag_unmarshal_header evbuf;
  if len =? -1 then Val (-1, evbuf) else Val (0, (evbuffer_drain evbuf (u64 len)).2).

Definition evtag_unmarshal (src dst : B) : outcome (Z * option Z * B * B) :=
  '(len, tag, src) ← evtag_unmarshal_header src;
  if len =? -1 then Val (-1, tag, src, dst)
  else
    let '(p, src) := evbuffer_pullup src len in
    bs ← read_at p (u64 len);
    let '(r, dst) := evbuffer_add dst bs in
    if r =? -1 then Val (-1, tag, src, dst) else Val (len, tag, (evbuffer_drain src (u64 len)).2, dst).

(** evtag_unmarshal_int and evtag_unmarshal_int64 are alike but for the decoder. *)
Definition unmarshal_number (decode : B → Z → outcome (Z * option Z * B)) (evbuf : B) (need_tag : Z) :
    outcome (Z * option Z * B) :=
  '(r, tag, evbuf) ← decode_tag_internal evbuf true;
  if r =? -1 then Val (-1, None, evbuf)
  else
    tag ← or_undef OutOfBounds tag;
    if negb (need_tag =? tag) then Val (-1, None, evbuf)
    else
      '(r, len, evbuf) ← evtag_decode_int evbuf;
      if r =? -1 then Val (-1, None, evbuf)
      else
        len ← or_undef OutOfBounds len;
        if evbuffer_get_length evbuf <? len then Val (-1, None, evbuf)
        else
          '(result, pinteger, evbuf) ← decode evbuf 0;
          let evbuf := (evbuffer_drain evbuf len).2 in
          if (result <? 0) || (u64 result >? len) then Val (-1, pinteger, evbuf)
          else Val (result, pinteger, evbuf).

Definition evtag_unmarshal_int (evbuf : B) (need_tag : Z) : outcome (Z * option Z * B) :=
  unmarshal_number decode_int_internal evbuf need_tag.
Definition evtag_unmarshal_int64 (evbuf : B) (need_tag : Z) : outcome (Z * option Z * B) :=
  unmarshal_number decode_int64_internal evbuf need_tag.

(** The bytes written to [data]. *)
Definition evtag_unmarshal_fixed (src : B) (need_tag len : Z) : outcome (Z * option (list byte) * B) :=
  '(tag_len, tag, src) ← evtag_unmarshal_header src;
  if tag_len <? 0 then Val (-1, None, src)
  else
    tag ← or_undef OutOfBounds tag;
    if negb (tag =? need_tag) then Val (-1, None, src)
    else if negb (u64 tag_len =? len) then Val (-1, None, src)
    else let '(_, data, src) := evbuffer_remove src len in Val (0, Some data, src).

(** The memory that [*pstring] points to. *)
Definition evtag_unmarshal_string (evbuf : B) (need_tag : Z) : outcome (Z * option (list byte) * B) :=
  '(tag_len, tag, evbuf) ← evtag_unmarshal_header evbuf;
  if tag_len =? -1 then Val (-1, None, evbuf)
  else
    tag ← or_undef OutOfBounds tag;
    if negb (tag =? need_tag) then Val (-1, None, evbuf)
    else
      let size := u64 (i32 (tag_len + 1)) in
      if negb (malloc_ok size) then Val (-1, None, evbuf)
      else
        let '(_, data, evbuf) := evbuffer_remove evbuf (u64 tag_len) in
        mem ← poke (replicate (Z.to_nat size) uninit) 0 data;
        mem ← poke mem tag_len [z2b 0];
        Val (0, Some mem, evbuf).

(** [ptv] before and after. *)
Definition evtag_unmarshal_timeval (evbuf : B) (need_tag : Z) (ptv : timeval) : outcome (Z * timeval * B) :=
  '(len, tag, evbuf) ← evtag_unmarshal_header evbuf;
  if len =? -1 then Val (-1, ptv, evbuf)
  else
    let done result ptv evbuf := Val (result, ptv, (evbuffer_drain evbuf (u64 len)).2) in
    tag ← or_undef OutOfBounds tag;
    if negb (tag =? need_tag) then done (-1) ptv evbuf
    else
      '(offset, integer, evbuf) ← decode_int_internal evbuf 0;
      if offset =? -1 then done (-1) ptv evbuf
      else
        sec ← or_undef OutOfBounds integer;
        let ptv := {| tv_sec := sec; tv_usec := tv_usec ptv |} in
        '(offset2, integer, evbuf) ← decode_int_internal evbuf offset;
        if offset2 =? -1 then done (-1) ptv evbuf
        else
          usec ← or_undef OutOfBounds integer;
          let ptv := {| tv_sec := tv_sec ptv; tv_usec := usec |} in
          if offset + offset2 >? len then done (-1) ptv evbuf else done 0 ptv evbuf.
End tagging.
