(* ===== verification/TagFormat.v ===== *)
(** The wire format of tagged data: how event_tagging.c (Tagging.v) writes tags and
    integers into arrays, and what its loops read.

    A tag is written seven bits a byte, the lowest first.  An integer is a sequence of
    nibbles, two a byte and the upper half first: the number of digits less one, then its
    hexadecimal digits, the lowest first. *)

From S2P Require Import Prelude EvbufferApi BufChain Tagging.

(** ** Bits of bytes *)

Lemma byte_low b : Z.land (b2z b) 0x0f = b2z b mod 16.
Proof. apply (Z.land_ones _ 4). lia. Qed.
Lemma byte_high b : Z.shiftr (Z.land (b2z b) 0xf0) 4 = b2z b / 16.
Proof. by destruct b. Qed.
Lemma byte_high_part b : Z.land (b2z b) 0xf0 = Z.shiftl (b2z b / 16) 4.
Proof. by destruct b. Qed.
Lemma byte_seven b : Z.land (b2z b) 0x7f = b2z b mod 128.
Proof. apply (Z.land_ones _ 7). lia. Qed.
Lemma byte_more b : (Z.land (b2z b) 0x80 =? 0) = (b2z b <? 128).
Proof. by destruct b. Qed.
Lemma land_nibble n : Z.land n 0x0f = n mod 16.
Proof. apply (Z.land_ones _ 4). lia. Qed.

(** ** Integers *)

(** Half [j] of a byte sequence. *)
Definition nibble (bs : list byte) (j : Z) : Z :=
  match znth bs (j / 2) with Some b => if Z.odd j then b2z b mod 16 else b2z b / 16 | None => 0 end.

(** The number with the [k] digits that follow the first nibble. *)
Fixpoint digits (k : nat) (bs : list byte) : Z :=
  match k with O => 0 | S k' => digits k' bs + nibble bs (Z.of_nat k) * 16 ^ Z.of_nat k' end.

(** An integer at the start of [bs]: how many bytes it takes, and its value. *)
Definition parse_int (maxnibbles : Z) (bs : list byte) : option (Z * Z) :=
  match bs with
  | [] => None
  | b :: _ =>
      let k := b2z b / 16 + 1 in
      if (k >? maxnibbles) || (k / 2 + 1 >? Zlen bs) then None else Some (k / 2 + 1, digits (Z.to_nat k) bs)
  end.

(** The nibbles of the code of [n], and the code. *)
Definition nib (n j : Z) : Z := if j =? 0 then Z.log2 n / 4 else (n / 16 ^ (j - 1)) mod 16.
Definition row (m : Z → Z) (size : Z) : list byte := (λ i, z2b (16 * m (2 * i) + m (2 * i + 1))) <$> seqZ 0 size.
Definition int_len (n : Z) : Z := (Z.log2 n / 4 + 1) / 2 + 1.
Definition int_code (n : Z) : list byte := row (nib n) (int_len n).

Lemma Zlen_row m size : 0 <= size → Zlen (row m size) = size.
Proof. intros. unfold Zlen, row. rewrite length_fmap, length_seqZ. lia. Qed.
Lemma znth_row m size i : 0 <= i < size → znth (row m size) i = Some (z2b (16 * m (2 * i) + m (2 * i + 1))).
Proof.
  intros. unfold znth, row. destruct (Z.ltb_spec i 0); [lia|]. rewrite list_lookup_fmap, lookup_seqZ_lt by lia.
  by replace (0 + Z.of_nat (Z.to_nat i)) with i by lia.
Qed.
Lemma row_ext m m' size : (∀ j, 0 <= j < 2 * size → m j = m' j) → row m size = row m' size.
Proof.
  intros Hm. apply list_fmap_ext. intros i x Hx. apply lookup_seqZ in Hx as [-> ?].
  by rewrite !Hm by lia.
Qed.
Lemma ztake_row m n size : 0 <= n <= size → ztake n (row m size) = row m n.
Proof.
  intros. unfold row. replace size with (n + (size - n)) by lia. rewrite seqZ_app, fmap_app by lia.
  rewrite ztake_app_l, ztake_all; (done || (unfold Zlen; rewrite length_fmap, length_seqZ; lia)).
Qed.

(** Storing one byte of a row. *)
Lemma poke_row m m' size post i v : 0 <= i < size → v = z2b (16 * m' (2 * i) + m' (2 * i + 1)) →
  (∀ j, 0 <= j → j / 2 ≠ i → m' j = m j) → poke (row m size ++ post) i [v] = Val (row m' size ++ post).
Proof.
  intros Hi -> Hm. rewrite poke_val by (try rewrite Zlen_app, Zlen_row by lia; zlia). f_equal.
  assert (∀ k, row k size = row k i ++ z2b (16 * k (2 * i) + k (2 * i + 1)) :: zdrop (i + 1) (row k size)) as Hsplit.
  { intros k. rewrite <- (ztake_zdrop i (row k size)) at 1. rewrite ztake_row by lia. f_equal.
    pose proof (ztake_zdrop_cons (row k size) (Zlen (row k size)) i _ (Zlen_nonneg _) (znth_row k size i Hi)) as E.
    rewrite !ztake_all in E by zlia. done. }
  unfold splice. rewrite ztake_app_l by (rewrite Zlen_row; lia). rewrite ztake_row by lia. change (Zlen [_]) with 1.
  rewrite zdrop_app_l by (rewrite Zlen_row; lia). rewrite (Hsplit m'). rewrite <- app_assoc. cbn [app]. f_equal.
  - apply row_ext. intros j Hj. symmetry. apply Hm; [lia|]. pose proof (Z.mul_div_le j 2 ltac:(lia)). lia.
  - do 2 f_equal. unfold row, zdrop. rewrite <- !fmap_drop. apply list_fmap_ext. intros j x Hx.
    rewrite lookup_drop in Hx. apply lookup_seqZ in Hx as [-> ?].
    assert (∀ z r, 0 <= r < 2 → (2 * z + r) / 2 = z) as Hd.
    { intros z r Hr. rewrite (Z.mul_comm 2 z), Z.div_add_l, Z.div_small by lia. lia. }
    rewrite (Hm (2 * _)), (Hm (2 * _ + 1)); [done|lia| |lia|].
    + rewrite Hd by lia. lia.
    + replace (2 * (0 + Z.of_nat (Z.to_nat (i + 1) + j))) with (2 * (0 + Z.of_nat (Z.to_nat (i + 1) + j)) + 0) by lia. rewrite Hd by lia. lia.
Qed.

(** The digits written so far. *)
Definition written (n j k : Z) : Z := if k =? 0 then 0 else if k <=? j then nib n k else 0.

Lemma nib_range n j : 0 <= n < 2 ^ 64 → 0 <= nib n j < 16.
Proof.
  intros Hn. unfold nib. destruct (Z.eqb_spec j 0); [|by apply Z.mod_pos_bound]. pose proof (Z.log2_nonneg n).
  destruct (decide (n = 0)) as [->|]; [done|]. assert (Z.log2 n < 64) by (apply Z.log2_lt_pow2; lia).
  split; [apply Z.div_pos; lia|]. apply Z.div_lt_upper_bound; lia.
Qed.

(** The number of digits: one also for zero in the code, but none are written for it. *)
Definition ndigits (n : Z) : Z := if n =? 0 then 0 else Z.log2 n / 4 + 1.

Lemma ndigits_spec n j : 0 <= n → 0 <= j → n / 16 ^ j = 0 ↔ ndigits n <= j.
Proof.
  intros Hn Hj. assert (0 < 16 ^ j) by (apply Z.pow_pos_nonneg; lia). unfold ndigits.
  destruct (Z.eqb_spec n 0) as [->|Hz]; [rewrite Z.div_0_l by lia; lia|].
  rewrite Z.div_small_iff by lia. replace (16 ^ j) with (2 ^ (4 * j)) in * by (rewrite Z.pow_mul_r by lia; done).
  transitivity (n < 2 ^ (4 * j)); [lia|]. rewrite Z.log2_lt_pow2 by lia.
  pose proof (Z.div_mod (Z.log2 n) 4 ltac:(lia)). pose proof (Z.mod_pos_bound (Z.log2 n) 4 ltac:(lia)). lia.
Qed.
Lemma ndigits_nonneg n : 0 <= ndigits n.
Proof.
  unfold ndigits. destruct (Z.eqb_spec n 0); [done|]. pose proof (Z.log2_nonneg n).
  pose proof (Z.div_pos (Z.log2 n) 4 ltac:(lia) ltac:(lia)). lia.
Qed.
Lemma nib_0_above n j : 0 <= n → ndigits n < j → nib n j = 0.
Proof.
  intros Hn Hj. pose proof (ndigits_nonneg n). unfold nib. destruct (Z.eqb_spec j 0); [lia|].
  by rewrite (proj2 (ndigits_spec n (j - 1) Hn ltac:(lia))) by lia.
Qed.

Lemma half j : j = 2 * (j / 2) + (if Z.odd j then 1 else 0).
Proof. rewrite <- Zmod_odd. apply Z.div_mod. lia. Qed.

(** One more digit of an array. *)
Lemma put_digit n j size post : 0 <= n < 2 ^ 64 → 0 <= j → (j + 1) / 2 < size →
  ∃ old, znth (row (written n j) size ++ post) ((j + 1) / 2) = Some old ∧
    poke (row (written n j) size ++ post) ((j + 1) / 2)
      [z2b (if Z.odd (j + 1) then Z.lor (Z.land (b2z old) 0xf0) (Z.land (n / 16 ^ j) 0x0f)
            else Z.lor (Z.land (b2z old) 0x0f) (Z.shiftl (Z.land (n / 16 ^ j) 0x0f) 4))] =
      Val (row (written n (j + 1)) size ++ post).
Proof.
  intros Hn Hj Hs. set (i := (j + 1) / 2) in *. pose proof (half (j + 1)) as Hh. fold i in Hh.
  assert (0 <= i) by (apply Z.div_pos; lia).
  assert (∀ k, 0 <= written n j k < 16) as Hw.
  { intros k. unfold written. destruct (k =? 0); [lia|]. destruct (k <=? j); [by apply nib_range|lia]. }
  eexists. split; [rewrite znth_app_l by (rewrite Zlen_row; lia); apply znth_row; lia|].
  pose proof (Hw (2 * i)) as H0. pose proof (Hw (2 * i + 1)) as H1.
  assert (n / 16 ^ j mod 16 = written n (j + 1) (j + 1)) as Hd.
  { unfold written, nib. destruct (Z.eqb_spec (j + 1) 0); [lia|]. destruct (Z.leb_spec (j + 1) (j + 1)); [|lia]. do 3 f_equal. lia. }
  assert (∀ k, k ≠ j + 1 → written n (j + 1) k = written n j k) as Hsame.
  { intros k Hk. unfold written. destruct (Z.eqb_spec k 0); [done|]. destruct (Z.leb_spec k (j + 1)), (Z.leb_spec k j); done || lia. }
  apply poke_row; [lia| |intros k _ Hk; apply Hsame; intros ->; done].
  rewrite byte_low, byte_high_part, land_nibble, !b2z_z2b, Hd.
  assert (0 <= written n (j + 1) (j + 1) < 16) by (rewrite <- Hd; by apply Z.mod_pos_bound).
  rewrite (Z.mod_small _ 256) by lia. f_equal. destruct (Z.odd (j + 1)).
  - rewrite lor_shiftl_byte by (change (2 ^ 4) with 16; lia). change (2 ^ 4) with 16.
    rewrite (Z.mul_comm 16), Z.div_add_l, Z.div_small by lia. rewrite <- Hh, (Hsame (2 * i)) by lia. lia.
  - assert (written n j (2 * i) = 0) as Hz.
    { unfold written. destruct (Z.eqb_spec (2 * i) 0); [done|]. destruct (Z.leb_spec (2 * i) j); [lia|done]. }
    assert (written n j (2 * i + 1) = 0) as Hz1.
    { unfold written. destruct (Z.eqb_spec (2 * i + 1) 0); [done|]. destruct (Z.leb_spec (2 * i + 1) j); [lia|done]. }
    rewrite (Hsame (2 * i + 1)), Hz, Hz1, Z.lor_0_l by lia. rewrite Z.add_0_r in Hh.
    rewrite <- Hh, Z.shiftl_mul_pow2 by lia. change (2 ^ 4) with 16. lia.
Qed.

Lemma encode_loop_spec fuel n j size post : 0 <= n < 2 ^ 64 → 0 <= j <= ndigits n → (ndigits n + 2) / 2 <= size →
  ndigits n <= j + Z.of_nat fuel →
  encode_loop fuel (j + 1) (n / 16 ^ j) (row (written n j) size ++ post) =
    Val (ndigits n + 1, row (written n (ndigits n)) size ++ post).
Proof.
  intros Hn. revert j. induction fuel as [|fuel IH]; intros j Hj Hs Hf; cbn [encode_loop].
  all: pose proof (ndigits_spec n j ltac:(lia) ltac:(lia)) as Hz.
  all: destruct (Z.eqb_spec (n / 16 ^ j) 0) as [E|E]; [replace j with (ndigits n) by lia; done|].
  { destruct E. apply Hz. lia. }
  destruct (put_digit n j size post Hn ltac:(lia)) as (old & -> & Hp).
  { apply Z.lt_le_trans with ((ndigits n + 2) / 2); [|done]. apply Z.div_lt_upper_bound; [lia|].
    pose proof (half (ndigits n + 2)). destruct (Z.odd (ndigits n + 2)); lia. }
  cbn [or_undef mbind outcome_bind]. rewrite Hp. cbn [mbind outcome_bind].
  rewrite Z.shiftr_div_pow2, Z.div_div by (try (apply Z.pow_nonzero; lia); lia).
  replace (16 ^ j * 2 ^ 4) with (16 ^ (j + 1)) by (rewrite Z.pow_add_r by lia; lia). apply IH; lia.
Qed.

Lemma int_len_spec n : 0 <= n → int_len n = (ndigits n + 2) / 2.
Proof.
  intros. unfold int_len, ndigits. destruct (Z.eqb_spec n 0) as [->|]; [done|].
  replace (Z.log2 n / 4 + 1 + 2) with (Z.log2 n / 4 + 1 + 1 * 2) by lia. by rewrite Z.div_add by lia.
Qed.
Lemma int_len_pos n : 0 <= n → 1 <= int_len n.
Proof.
  intros. rewrite int_len_spec by done. pose proof (ndigits_nonneg n). apply Z.div_le_lower_bound; lia.
Qed.
Lemma Zlen_int_code n : 0 <= n → Zlen (int_code n) = int_len n.
Proof. intros. pose proof (int_len_pos n). apply Zlen_row. lia. Qed.

(** The width bounds the digits. *)
Lemma ndigits_width n w : 0 <= n < 2 ^ (8 * w) → 0 <= w → ndigits n <= 2 * w.
Proof.
  intros Hn Hw. apply ndigits_spec; [lia|lia|]. apply Z.div_small.
  by replace (16 ^ (2 * w)) with (2 ^ (8 * w)) by (change 16 with (2 ^ 4); rewrite <- Z.pow_mul_r by lia; f_equal; lia).
Qed.

(** The code of a number fits the array and is written there. *)
Lemma encode_spec size data n : 0 <= size <= 8 → 0 <= n < 2 ^ (8 * size) → size + 1 <= Zlen data →
  ∃ data', ENCODE_INT_INTERNAL size data n = Val (int_len n, data') ∧ Zlen data' = Zlen data ∧
    int_len n <= size + 1 ∧ ztake (int_len n) data' = int_code n.
Proof.
  intros Hsz Hn Hd. assert (0 <= n < 2 ^ 64) as Hn64 by (pose proof (Z.pow_le_mono_r 2 (8 * size) 64); lia).
  pose proof (ndigits_width n size Hn ltac:(lia)) as Hnd. pose proof (ndigits_nonneg n).
  set (post := zdrop (size + 1) data). exists (row (nib n) (size + 1) ++ post). unfold ENCODE_INT_INTERNAL.
  assert (∀ m, Zlen (row m (size + 1)) = size + 1) as Hrow by (intros; apply Zlen_row; lia).
  rewrite poke_val by (rewrite ?Zlen_replicate; lia). cbn [mbind outcome_bind].
  replace (splice data 0 _) with (row (written n 0) (size + 1) ++ post).
  2:{ unfold splice. rewrite ztake_0 by lia. cbn [app]. rewrite Zlen_replicate. unfold post. f_equal; [|f_equal; lia].
      transitivity (row (λ _, 0) (size + 1)).
      - apply row_ext. intros j Hj. unfold written. destruct (Z.eqb_spec j 0); [done|]. destruct (Z.leb_spec j 0); [lia|done].
      - unfold row. symmetry. apply replicate_as_elem_of. rewrite length_fmap, length_seqZ. split; [done|]. by intros y (? & -> & _)%list_elem_of_fmap. }
  pose proof (encode_loop_spec (Z.to_nat (2 * size)) n 0 (size + 1) post Hn64) as E. change (16 ^ 0) with 1 in E. change (0 + 1) with 1 in E. rewrite Z.div_1_r in E.
  assert ((ndigits n + 2) / 2 <= size + 1) as Hlen by (apply Z.div_le_upper_bound; lia). rewrite E by lia. clear E. cbn [mbind outcome_bind].
  rewrite (znth_app_l _ post) by (rewrite Hrow; lia). rewrite znth_row by lia. cbn [or_undef mbind outcome_bind].
  pose proof (nib_range n 0 Hn64) as Hn0. pose proof (nib_range n 1 Hn64) as Hn1.
  assert ((if ndigits n + 1 >? 2 then ndigits n + 1 - 2 else 0) = nib n 0) as ->.
  { unfold nib, ndigits. cbn [Z.eqb]. destruct (Z.eqb_spec n 0) as [->|]; [done|]. pose proof (Z.div_pos (Z.log2 n) 4 (Z.log2_nonneg n) ltac:(lia)).
    destruct (Z.gtb_spec (Z.log2 n / 4 + 1 + 1) 2); lia. }
  assert (∀ j, 0 < j → written n (ndigits n) j = nib n j) as Hw.
  { intros j Hj. unfold written. destruct (Z.eqb_spec j 0); [lia|]. destruct (Z.leb_spec j (ndigits n)); [done|]. by rewrite nib_0_above by lia. }
  rewrite (poke_row _ (nib n)); [|lia| |].
  - cbn [mbind outcome_bind]. rewrite int_len_spec by lia. replace (ndigits n + 1 + 1) with (ndigits n + 2) by lia.
    assert (0 <= (ndigits n + 2) / 2) by (apply Z.div_pos; lia). split; [done|]. split.
    { rewrite Zlen_app, Hrow. unfold post. zlia. }
    split; [done|]. rewrite ztake_app_l by (rewrite Hrow; lia). rewrite ztake_row by lia. unfold int_code. by rewrite int_len_spec by lia.
  - change (2 * 0 + 1) with 1. change (2 * 0) with 0. rewrite byte_low, b2z_z2b, land_nibble, (Hw 1) by lia.
    change (written n (ndigits n) 0) with 0. rewrite Z.mul_0_r, Z.add_0_l.
    rewrite (Z.mod_small _ 256), !Z.mod_small by lia. f_equal. rewrite Z.lor_comm, lor_shiftl_byte by (change (2 ^ 4) with 16; lia). lia.
  - intros j Hj0 Hj. destruct (decide (j = 0)) as [->|]; [done|]. by rewrite Hw by lia.
Qed.

(** *** Reading *)

Lemma nibble_range bs j : 0 <= nibble bs j < 16.
Proof.
  unfold nibble. destruct (znth bs (j / 2)) as [b|]; [|lia]. pose proof (b2z_range b). destruct (Z.odd j); [by apply Z.mod_pos_bound|].
  split; [apply Z.div_pos; lia|]. apply Z.div_lt_upper_bound; lia.
Qed.
Lemma digits_range k bs : 0 <= digits k bs < 16 ^ Z.of_nat k.
Proof.
  induction k as [|k IH]; [done|]. cbn [digits]. pose proof (nibble_range bs (Z.of_nat (S k))).
  rewrite Nat2Z.inj_succ, Z.pow_succ_r by lia. rewrite Nat2Z.inj_succ in *. nia.
Qed.

Lemma decode_nibbles_spec k w data acc : 0 <= acc → (acc + 1) * 16 ^ Z.of_nat k <= 2 ^ w → Z.of_nat k / 2 < Zlen data →
  decode_nibbles k w data acc = Val (acc * 16 ^ Z.of_nat k + digits k data).
Proof.
  revert acc. induction k as [|k IH]; intros acc Ha Hw Hl; cbn [decode_nibbles digits]; [f_equal; lia|].
  rewrite Z.shiftr_div_pow2 by lia. change (2 ^ 1) with 2. assert (0 <= Z.of_nat (S k) / 2) by (apply Z.div_pos; lia).
  destruct (znth_lt data (Z.of_nat (S k) / 2)) as [b Hb]; [lia|]. rewrite Hb. cbn [or_undef mbind outcome_bind].
  rewrite Nat2Z.inj_succ in *. rewrite Z.pow_succ_r in * by lia. assert (0 < 16 ^ Z.of_nat k) by (apply Z.pow_pos_nonneg; lia).
  rewrite (Z.mod_small (Z.shiftl acc 4)) by (rewrite Z.shiftl_mul_pow2 by lia; change (2 ^ 4) with 16; nia).
  assert ((if Z.odd (Z.succ (Z.of_nat k)) then Z.land (b2z b) 15 else Z.shiftr (Z.land (b2z b) 240) 4) = nibble data (Z.succ (Z.of_nat k))) as ->.
  { unfold nibble. rewrite Hb, byte_low, byte_high. done. }
  pose proof (nibble_range data (Z.succ (Z.of_nat k))). rewrite lor_shiftl_byte by (change (2 ^ 4) with 16; lia). change (2 ^ 4) with 16.
  rewrite IH; [f_equal; nia|nia|nia|].
  apply Z.le_lt_trans with (Z.succ (Z.of_nat k) / 2); [apply Z.div_le_mono; lia|done].
Qed.

(** Digits and nibbles only depend on the bytes they are in. *)
Lemma digits_prefix k bs bs' : Z.of_nat k / 2 < Zlen bs → digits k (bs ++ bs') = digits k bs.
Proof.
  induction k as [|k IH]; intros Hk; [done|]. cbn [digits].
  rewrite IH by (apply Z.le_lt_trans with (Z.of_nat (S k) / 2); [apply Z.div_le_mono; lia|done]). do 2 f_equal.
  unfold nibble. by rewrite znth_app_l.
Qed.

Lemma nibble_code n j : 0 <= n < 2 ^ 64 → 0 <= j → j / 2 < int_len n → nibble (int_code n) j = nib n j.
Proof.
  intros Hn Hj Hl. assert (0 <= j / 2) by (apply Z.div_pos; lia). unfold nibble, int_code. rewrite znth_row by lia. rewrite b2z_z2b.
  pose proof (nib_range n (2 * (j / 2)) Hn). pose proof (nib_range n (2 * (j / 2) + 1) Hn). rewrite (Z.mod_small _ 256) by lia.
  pose proof (half j) as Hh. destruct (Z.odd j).
  - rewrite (Z.mul_comm 16), Z.add_comm, Z.mod_add, Z.mod_small by lia. by rewrite <- Hh.
  - rewrite (Z.mul_comm 16), Z.div_add_l, (Z.div_small (nib n (2 * (j / 2) + 1))), Z.add_0_r by lia. rewrite Z.add_0_r in Hh. by rewrite <- Hh.
Qed.

Lemma digits_code k n : 0 <= n < 2 ^ 64 → Z.of_nat k / 2 < int_len n → digits k (int_code n) = n mod 16 ^ Z.of_nat k.
Proof.
  intros Hn. induction k as [|k IH]; intros Hk; [by rewrite Z.mod_1_r|]. cbn [digits].
  rewrite IH by (apply Z.le_lt_trans with (Z.of_nat (S k) / 2); [apply Z.div_le_mono; lia|done]).
  rewrite nibble_code by (done || lia). unfold nib. destruct (Z.eqb_spec (Z.of_nat (S k)) 0); [lia|].
  replace (Z.of_nat (S k) - 1) with (Z.of_nat k) by lia. rewrite Nat2Z.inj_succ, Z.pow_succ_r by lia.
  assert (0 < 16 ^ Z.of_nat k) by (apply Z.pow_pos_nonneg; lia). rewrite (Z.mul_comm 16 (16 ^ _)), Z.rem_mul_r by lia. lia.
Qed.

(** A coded number is read back, whatever follows it. *)
Lemma parse_int_code n mx rest : 0 <= n < 16 ^ mx → 0 < mx <= 16 →
  parse_int mx (int_code n ++ rest) = Some (int_len n, n).
Proof.
  intros Hn Hmx. assert (0 <= n < 2 ^ 64) as Hn64.
  { change (2 ^ 64) with (16 ^ 16). pose proof (Z.pow_le_mono_r 16 mx 16). lia. }
  pose proof (int_len_pos n ltac:(lia)). pose proof (Zlen_int_code n ltac:(lia)) as Hlen.
  assert (nibble (int_code n) 0 = Z.log2 n / 4) as Hk by (rewrite nibble_code by (done || (change (0 / 2) with 0; lia)); done).
  destruct (int_code n) as [|b code] eqn:Ec; [rewrite Zlen_nil in Hlen; lia|]. cbn [parse_int app].
  change (b2z b / 16 = Z.log2 n / 4) in Hk. rewrite Hk. set (k := Z.log2 n / 4 + 1).
  assert (1 <= k) by (unfold k; pose proof (Z.div_pos (Z.log2 n) 4 (Z.log2_nonneg n) ltac:(lia)); lia).
  assert (k <= mx) as Hkm.
  { destruct (decide (n = 0)) as [->|]; [unfold k; change (Z.log2 0 / 4 + 1) with 1; lia|].
    assert (ndigits n <= mx) as Hd by (apply ndigits_spec; [lia|lia|apply Z.div_small; lia]). unfold ndigits in Hd.
    destruct (Z.eqb_spec n 0); [done|]. done. }
  assert (int_len n = k / 2 + 1) as Hil by done. rewrite !Zlen_cons, Zlen_app in *.
  destruct (Z.gtb_spec k mx); [lia|]. destruct (Z.gtb_spec (k / 2 + 1) (1 + (Zlen code + Zlen rest))); [zlen_pos; lia|]. cbn [orb].
  do 2 f_equal. change (b :: code ++ rest) with ((b :: code) ++ rest).
  assert (Z.of_nat (Z.to_nat k) / 2 < int_len n) by (rewrite Z2Nat.id by lia; lia).
  rewrite digits_prefix by (rewrite Zlen_cons; lia). rewrite <- Ec, digits_code by done.
  rewrite Z2Nat.id by lia. apply Z.mod_small. split; [lia|].
  destruct (decide (n = 0)) as [->|]; [apply Z.pow_pos_nonneg; lia|].
  assert (n / 16 ^ k = 0) as E; [|apply Z.div_small_iff in E; [lia|apply Z.pow_nonzero; lia]].
  apply ndigits_spec; [lia|lia|]. unfold ndigits. destruct (Z.eqb_spec n 0); [done|]. done.
Qed.

Lemma parse_int_bounds mx bs k v : parse_int mx bs = Some (k, v) → 0 < k <= Zlen bs ∧ 0 <= v.
Proof.
  destruct bs as [|b bs]; [done|]. cbn [parse_int]. pose proof (b2z_range b). pose proof (Z.div_pos (b2z b) 16 ltac:(lia) ltac:(lia)).
  pose proof (Z.div_pos (b2z b / 16 + 1) 2 ltac:(lia) ltac:(lia)).
  destruct (orb _ _) eqn:E; [done|]. zbool. intros [= <- <-]. split; [lia|]. apply digits_range.
Qed.
Lemma parse_int_range mx bs k v : 0 <= mx → parse_int mx bs = Some (k, v) → v < 16 ^ mx.
Proof.
  intros Hmx. destruct bs as [|b bs]; [done|]. cbn [parse_int]. pose proof (b2z_range b). pose proof (Z.div_pos (b2z b) 16 ltac:(lia) ltac:(lia)).
  destruct (orb _ _) eqn:E; [done|]. zbool. intros [= <- <-]. eapply Z.lt_le_trans; [apply digits_range|]. apply Z.pow_le_mono_r; lia.
Qed.

(** Whether an integer is read does not depend on what follows it. *)
Lemma parse_int_app mx bs bs' : 
  parse_int mx (bs ++ bs') = parse_int mx bs ∨ parse_int mx bs = None ∧ (∀ k v, parse_int mx (bs ++ bs') = Some (k, v) → Zlen bs < k).
Proof.
  destruct bs as [|b bs]; [right; split; [done|]; intros k v Hp; apply parse_int_bounds in Hp; zlia|]. cbn [parse_int app].
  pose proof (b2z_range b). pose proof (Z.div_pos (b2z b) 16 ltac:(lia) ltac:(lia)). set (k0 := b2z b / 16 + 1).
  destruct (Z.gtb_spec k0 mx); cbn [orb]; [by left|]. rewrite !Zlen_cons, Zlen_app. zlen_pos.
  destruct (Z.gtb_spec (k0 / 2 + 1) (1 + Zlen bs)).
  - right. split; [done|]. intros k v. destruct (Z.gtb_spec (k0 / 2 + 1) (1 + (Zlen bs + Zlen bs'))); [done|]. intros [= <- <-]. lia.
  - left. destruct (Z.gtb_spec (k0 / 2 + 1) (1 + (Zlen bs + Zlen bs'))); [lia|]. do 2 f_equal.
    change (b :: bs ++ bs') with ((b :: bs) ++ bs'). apply digits_prefix. rewrite Z2Nat.id, Zlen_cons by lia. lia.
Qed.

(** ** Tags *)

(** The bytes of a tag: [n + 1] at most. *)
Fixpoint tag_code (n : nat) (t : Z) : list byte :=
  match n with
  | O => [z2b (t mod 128)]
  | S n => if t / 128 =? 0 then [z2b (t mod 128)] else z2b (128 + t mod 128) :: tag_code n (t / 128)
  end.

(** A tag at the start of [bs], which may take [n] bytes: how many it takes, and its value.  Nothing
    where [bs] ends before it, and undefined where it does not end after [n] bytes. *)
Fixpoint parse_tag (n : nat) (bs : list byte) : outcome (option (Z * Z)) :=
  match bs with
  | [] => Val None
  | b :: bs =>
      match n with
      | O => Undef OutOfBounds
      | S n =>
          if b2z b <? 128 then Val (Some (1, b2z b))
          else
            r ← parse_tag n bs;
            Val (match r with None => None | Some (c, t) => Some (c + 1, b2z b mod 128 + 128 * t) end)
      end
  end.

Lemma tag_code_len n t : 1 <= Zlen (tag_code n t) <= Z.of_nat (S n).
Proof.
  revert t. induction n as [|n IH]; intros t; cbn [tag_code]; [done|]. destruct (_ =? _); rewrite Zlen_cons; [rewrite Zlen_nil; lia|].
  pose proof (IH (t / 128)). lia.
Qed.

Lemma lower_spec t : Z.land t 0x7f = t mod 128.
Proof. apply (Z.land_ones _ 7). lia. Qed.
Lemma lower_more t : Z.lor (Z.land t 0x7f) 0x80 = 128 + t mod 128.
Proof.
  rewrite lower_spec, Z.lor_comm. change 0x80 with (Z.shiftl 1 7).
  rewrite lor_shiftl_byte; [done|lia|]. by apply Z.mod_pos_bound.
Qed.

(** The tag is written to the array. *)
Lemma encode_tag_loop_spec n t pre mem : 0 <= t < 128 ^ Z.of_nat (S n) → Z.of_nat (S n) <= Zlen mem →
  ∃ mem', encode_tag_loop (S n) (Zlen pre) t (pre ++ mem) = Val (Zlen pre + Zlen (tag_code n t), pre ++ tag_code n t ++ mem').
Proof.
  revert t pre mem. induction n as [|n IH]; intros t pre mem Ht Hm; [|set (m := S n) in |- * at 1].
  all: cbn [encode_tag_loop]; rewrite Z.shiftr_div_pow2 by lia; change (2 ^ 7) with 128.
  all: destruct mem as [|x mem]; [rewrite Zlen_nil in Hm; lia|]; rewrite Zlen_cons in Hm.
  all: assert (∀ v, poke (pre ++ x :: mem) (Zlen pre) [v] = Val (pre ++ v :: mem)) as Hp.
  1,3: intros v; rewrite poke_val by zlia; unfold splice; rewrite ztake_app_exact; change (Zlen [v]) with 1;
    rewrite zdrop_app_r by lia; replace (Zlen pre + 1 - Zlen pre) with 1 by lia; done.
  all: rewrite Hp; cbn [mbind outcome_bind].
  - rewrite (Z.div_small t 128) by (change (128 ^ Z.of_nat 1) with 128 in Ht; lia). cbn [Z.eqb tag_code]. exists mem.
    rewrite lower_spec. done.
  - cbn [tag_code]. destruct (Z.eqb_spec (t / 128) 0); [exists mem; by rewrite lower_spec|]. rewrite lower_more.
    destruct (IH (t / 128) (pre ++ [z2b (128 + t mod 128)]) mem) as [mem' E]; [|lia|].
    + rewrite Nat2Z.inj_succ, Z.pow_succ_r in Ht by lia. split; [apply Z.div_pos; lia|apply Z.div_lt_upper_bound; lia].
    + exists mem'. rewrite Zlen_app in E. change (Zlen [_]) with 1 in E. rewrite <- app_assoc in E. cbn [app] in E. unfold m. rewrite E. rewrite <- app_assoc, Zlen_cons.
      f_equal. f_equal. lia.
Qed.

(** A written tag is read back, whatever follows. *)
Lemma parse_tag_code n m t rest : 0 <= t < 128 ^ Z.of_nat (S n) → (n < m)%nat →
  parse_tag m (tag_code n t ++ rest) = Val (Some (Zlen (tag_code n t), t)).
Proof.
  revert m t. induction n as [|n IH]; intros m t Ht Hm; destruct m as [|m]; try lia; cbn [tag_code].
  - change (128 ^ Z.of_nat 1) with 128 in Ht. rewrite Z.mod_small by lia. cbn [app parse_tag]. rewrite b2z_z2b, Z.mod_small by lia.
    destruct (Z.ltb_spec t 128); [done|lia].
  - pose proof (Z.mod_pos_bound t 128 ltac:(lia)). pose proof (Z.div_mod t 128 ltac:(lia)).
    destruct (Z.eqb_spec (t / 128) 0) as [E|E]; cbn [app parse_tag]; rewrite b2z_z2b, (Z.mod_small _ 256) by lia.
    + destruct (Z.ltb_spec (t mod 128) 128); [|lia]. do 3 f_equal. lia.
    + destruct (Z.ltb_spec (128 + t mod 128) 128); [lia|]. rewrite IH; [|rewrite Nat2Z.inj_succ, Z.pow_succ_r in Ht by lia; split; [apply Z.div_pos; lia|apply Z.div_lt_upper_bound; lia]|lia].
      cbn [mbind outcome_bind]. rewrite Zlen_cons. do 2 f_equal. f_equal; [lia|]. 
      replace (128 + t mod 128) with (t mod 128 + 1 * 128) by lia. rewrite Z.mod_add, Z.mod_mod by lia. lia.
Qed.

Lemma parse_tag_bounds n bs c t : parse_tag n bs = Val (Some (c, t)) → 0 < c <= Zlen bs ∧ c <= Z.of_nat n ∧ 0 <= t.
Proof.
  revert bs c t. induction n as [|n IH]; intros [|b bs] c t; try done. cbn [parse_tag]. rewrite Zlen_cons. pose proof (b2z_range b).
  destruct (b2z b <? 128); [intros [= <- <-]; zlen_pos; lia|]. destruct (parse_tag n bs) as [[[c' t']|]|] eqn:E; try done.
  cbn [mbind outcome_bind]. intros [= <- <-]. apply IH in E. pose proof (Z.mod_pos_bound (b2z b) 128 ltac:(lia)). lia.
Qed.

(** Five bytes of a tag with more to come, and another byte. *)
Definition long_tag (bs : list byte) : bool := (5 <? Zlen bs) && forallb (λ b, 128 <=? b2z b) (ztake 5 bs).

Lemma parse_tag_undef n bs :
  (∃ r, parse_tag n bs = Val r ∧ (Z.of_nat n <? Zlen bs) && forallb (λ b, 128 <=? b2z b) (ztake (Z.of_nat n) bs) = false) ∨
  parse_tag n bs = Undef OutOfBounds ∧ (Z.of_nat n <? Zlen bs) && forallb (λ b, 128 <=? b2z b) (ztake (Z.of_nat n) bs) = true.
Proof.
  revert bs. induction n as [|n IH]; intros [|b bs]; cbn [parse_tag].
  - left. by eexists.
  - right. rewrite Zlen_cons. zlen_pos. destruct (Z.ltb_spec (Z.of_nat 0) (1 + Zlen bs)); [done|lia].
  - left. eexists. split; [done|]. destruct (Z.ltb_spec (Z.of_nat (S n)) (Zlen (@nil byte))); [|done]. rewrite Zlen_nil in *. lia.
  - rewrite ztake_cons, Zlen_cons by lia. cbn [forallb]. replace (Z.of_nat (S n) - 1) with (Z.of_nat n) by lia.
    replace (Z.of_nat (S n) <? 1 + Zlen bs) with (Z.of_nat n <? Zlen bs) by (apply eq_true_iff_eq; rewrite !Z.ltb_lt; lia).
    destruct (Z.ltb_spec (b2z b) 128), (Z.leb_spec 128 (b2z b)); try lia.
    + left. eexists. split; [done|]. apply andb_false_r.
    + cbn [andb]. destruct (IH bs) as [(r & -> & Hr)|[-> Hr]]; [left; by eexists|by right].
Qed.

(** One byte more of a tag, with the number kept to 32 bits. *)
Lemma tag_step number x shift : 0 <= shift <= 28 → 0 <= number < 2 ^ shift → 0 <= x < 128 →
  Z.lor number (u32 (Z.shiftl x shift)) = u32 (number + x * 2 ^ shift) ∧ u32 (number + x * 2 ^ shift) < 2 ^ (shift + 7).
Proof.
  intros Hs Hn Hx. assert (2 ^ 32 = 2 ^ (32 - shift) * 2 ^ shift) as Hp by (rewrite <- Z.pow_add_r by lia; f_equal; lia).
  assert (0 < 2 ^ shift) by (apply Z.pow_pos_nonneg; lia). assert (0 < 2 ^ (32 - shift)) by (apply Z.pow_pos_nonneg; lia).
  pose proof (Z.mod_pos_bound x (2 ^ (32 - shift)) ltac:(lia)).
  assert (u32 (number + x * 2 ^ shift) = number + (x mod 2 ^ (32 - shift)) * 2 ^ shift) as E.
  { unfold u32. symmetry. apply Z.mod_unique with (x / 2 ^ (32 - shift)); [left; nia|]. rewrite Hp.
    pose proof (Z.div_mod x (2 ^ (32 - shift)) ltac:(lia)). nia. }
  split.
  - rewrite E. unfold u32. rewrite Z.shiftl_mul_pow2, Hp, Z.mul_mod_distr_r by lia. rewrite <- Z.shiftl_mul_pow2 by lia.
    rewrite Z.lor_comm, lor_shiftl_byte by lia. rewrite Z.shiftl_mul_pow2 by lia. lia.
  - apply Z.le_lt_trans with (number + x * 2 ^ shift); [apply Z.mod_le; lia|]. rewrite Z.pow_add_r by lia. change (2 ^ 7) with 128. nia.
Qed.

(** The loop reads what the format says. *)
Lemma decode_tag_loop_spec n bs count number shift : 0 <= shift → shift + 7 * Z.of_nat n = 35 → 0 <= number < 2 ^ shift →
  decode_tag_loop (ztake (Z.of_nat n) bs) (count + Zlen bs) count number shift =
    (r ← parse_tag n bs;
     Val (match r with None => None | Some (c, t) => Some (count + c, u32 (number + t * 2 ^ shift)) end)).
Proof.
  revert bs count number shift. induction n as [|n IH]; intros [|b bs] count number shift Hs Hn Hnum.
  - rewrite ztake_0 by lia. cbn [decode_tag_loop parse_tag]. rewrite Zlen_nil. destruct (Z.ltb_spec count (count + 0)); [lia|done].
  - rewrite ztake_0 by lia. cbn [decode_tag_loop parse_tag]. rewrite Zlen_cons. zlen_pos. destruct (Z.ltb_spec count (count + (1 + Zlen bs))); [done|lia].
  - cbn [parse_tag]. unfold ztake. rewrite take_nil. cbn [decode_tag_loop]. rewrite Zlen_nil. destruct (Z.ltb_spec count (count + 0)); [lia|done].
  - rewrite ztake_cons by lia. replace (Z.of_nat (S n) - 1) with (Z.of_nat n) by lia. cbn [decode_tag_loop parse_tag]. rewrite Zlen_cons. zlen_pos.
    destruct (Z.ltb_spec count (count + (1 + Zlen bs))); [|lia]. pose proof (b2z_range b). pose proof (Z.mod_pos_bound (b2z b) 128 ltac:(lia)).
    rewrite byte_more, byte_seven. destruct (tag_step number (b2z b mod 128) shift) as [-> Hlt]; [lia|lia|lia|].
    destruct (Z.ltb_spec (b2z b) 128) as [Hb|Hb].
    + cbn [mbind outcome_bind]. by rewrite (Z.mod_small (b2z b) 128) by lia.
    + replace (count + (1 + Zlen bs)) with (count + 1 + Zlen bs) by lia.
      rewrite IH; [|lia|lia|split; [apply Z.mod_pos_bound|]; done]. destruct (parse_tag n bs) as [[[c t]|]|]; [|done..]. cbn [mbind outcome_bind].
      do 2 f_equal. f_equal; [lia|]. unfold u32. rewrite Zplus_mod_idemp_l. f_equal. rewrite Z.pow_add_r by lia. change (2 ^ 7) with 128. lia.
Qed.
