(* ===== verification/TagProps.v ===== *)
(** What event_tagging.c (Tagging.v) promises on any evbuffer that keeps the laws of
    EvbufferApi.v: the functions that read agree with a parser of the wire format, the ones
    that look ahead foretell what will be read, and values written are read back. *)

From S2P Require Import Prelude EvFlags EvbufferApi BufChain Chars Tagging TagFormat.

(** ** Records on the wire *)

(** A record at the start of [bs]: its tag, its data and what follows. *)
Definition next_record (bs : list byte) : outcome (option (Z * list byte * list byte)) :=
  r ← parse_tag 5 bs;
  Val (match r with
       | None => None
       | Some (c, t) =>
           match parse_int 8 (zdrop c bs) with
           | None => None
           | Some (k, len) =>
               let rest := zdrop (c + k) bs in
               if Zlen rest <? len then None else Some (u32 t, ztake len rest, zdrop len rest)
           end
       end).

(** A record with this tag and data. *)
Definition record (tag : Z) (data : list byte) : list byte := tag_code 4 tag ++ int_code (Zlen data) ++ data.

Lemma next_record_record tag data rest : 0 <= tag < 2 ^ 32 → Zlen data < 2 ^ 32 →
  next_record (record tag data ++ rest) = Val (Some (tag, data, rest)).
Proof.
  intros Ht Hd. unfold next_record, record. rewrite <- !app_assoc, parse_tag_code by (change (128 ^ Z.of_nat 5) with (2 ^ 35); lia).
  cbn [mbind outcome_bind]. rewrite zdrop_app_exact, parse_int_code by (change (16 ^ 8) with (2 ^ 32); zlen_pos; lia).
  rewrite app_assoc, zdrop_app_r; rewrite Zlen_app, Zlen_int_code by apply Zlen_nonneg; [|lia]. rewrite zdrop_0 by lia. rewrite Zlen_app.
  destruct (Z.ltb_spec (Zlen data + Zlen rest) (Zlen data)); [zlen_pos; lia|]. rewrite ztake_app_exact, zdrop_app_exact, u32_small by done. done.
Qed.

Lemma next_record_defined bs : long_tag bs = false → ∃ r, next_record bs = Val r.
Proof.
  unfold next_record, long_tag. change 5 with (Z.of_nat 5). destruct (parse_tag_undef 5 bs) as [(r & -> & ->)|[-> ->]]; [|done]. eauto.
Qed.

(** A record is a header and its data. *)
Lemma next_record_split bs tag data rest : next_record bs = Val (Some (tag, data, rest)) →
  ∃ c t k, parse_tag 5 bs = Val (Some (c, t)) ∧ tag = u32 t ∧ parse_int 8 (zdrop c bs) = Some (k, Zlen data) ∧
    zdrop (c + k) bs = data ++ rest ∧ 0 < c <= 5 ∧ 0 < k ∧ Zlen bs = c + k + Zlen data + Zlen rest.
Proof.
  unfold next_record. destruct (parse_tag 5 bs) as [[[c t]|]|] eqn:Et; [|done..]. cbn [mbind outcome_bind].
  destruct (parse_int 8 (zdrop c bs)) as [[k len]|] eqn:Ei; [|done]. pose proof (parse_tag_bounds _ _ _ _ Et). pose proof (parse_int_bounds _ _ _ _ Ei) as [Hk Hv].
  rewrite Zlen_zdrop in Hk. destruct (Z.ltb_spec (Zlen (zdrop (c + k) bs)) len) as [|Hlen]; [done|]. intros [= <- <- <-]. rewrite Zlen_zdrop in Hlen.
  assert (Zlen (ztake len (zdrop (c + k) bs)) = len) as El by (rewrite Zlen_ztake, Zlen_zdrop; lia).
  exists c, t, k. rewrite El, ztake_zdrop. repeat split; try done; try lia. rewrite !Zlen_zdrop. lia.
Qed.

(** ** Values in records *)

(** What a reader expects, and what it gets. *)
Inductive Shape :=
  | SData | SFixed (tag len : Z) | SInt (tag : Z) | SInt64 (tag : Z) | SString (tag : Z) | STimeval (tag : Z).
Inductive Item :=
  | IData (tag : Z) (data : list byte) | IFixed (tag : Z) (data : list byte) | IInt (tag n : Z) | IInt64 (tag n : Z)
  | IString (tag : Z) (string : list byte) | ITimeval (tag : Z) (tv : timeval).

Definition shape (it : Item) : Shape :=
  match it with
  | IData _ _ => SData | IFixed tag data => SFixed tag (Zlen data) | IInt tag _ => SInt tag | IInt64 tag _ => SInt64 tag
  | IString tag _ => SString tag | ITimeval tag _ => STimeval tag
  end.

(** The value in a record with this tag and data, if it is of the shape. *)
Definition item_of (sh : Shape) (tag : Z) (data : list byte) : option Item :=
  match sh with
  | SData => Some (IData tag data)
  | SFixed t len => if (tag =? t) && (Zlen data =? len) then Some (IFixed t data) else None
  | SInt t => if tag =? t then match parse_int 8 data with Some (_, n) => Some (IInt t n) | None => None end else None
  | SInt64 t => if tag =? t then match parse_int 16 data with Some (_, n) => Some (IInt64 t n) | None => None end else None
  | SString t => if tag =? t then Some (IString t data) else None
  | STimeval t =>
      if tag =? t then
        match parse_int 8 data with
        | Some (k, sec) =>
            match parse_int 8 (zdrop k data) with
            | Some (_, usec) => Some (ITimeval t {| tv_sec := sec; tv_usec := usec |})
            | None => None
            end
        | None => None
        end
      else None
  end.

(** A value of the shape at the start of [bs], and what follows. *)
Definition parse_item (sh : Shape) (bs : list byte) : outcome (option (Item * list byte)) :=
  r ← next_record bs;
  Val (match r with
       | None => None
       | Some (tag, data, rest) => match item_of sh tag data with Some it => Some (it, rest) | None => None end
       end).

(** What goes over the wire for a value. *)
Definition item_code (it : Item) : list byte :=
  match it with
  | IData tag data | IFixed tag data | IString tag data => record tag data
  | IInt tag n | IInt64 tag n => record tag (int_code n)
  | ITimeval tag tv => record tag (int_code (tv_sec tv) ++ int_code (tv_usec tv))
  end.

Definition item_ok (it : Item) : Prop :=
  match it with
  | IData tag data | IFixed tag data | IString tag data => 0 <= tag < 2 ^ 32 ∧ Zlen data < 2 ^ 32
  | IInt tag n => 0 <= tag < 2 ^ 32 ∧ 0 <= n < 2 ^ 32
  | IInt64 tag n => 0 <= tag < 2 ^ 32 ∧ 0 <= n < 2 ^ 64
  | ITimeval tag tv => 0 <= tag < 2 ^ 32 ∧ 0 <= tv_sec tv < 2 ^ 32 ∧ 0 <= tv_usec tv < 2 ^ 32
  end.

(** What a value is written as: a string ends with its first NUL. *)
Definition written (it : Item) : Item := match it with IString tag string => IString tag (c_str string) | _ => it end.

Lemma c_str_prefix s : ztake (Zlen (c_str s)) s = c_str s ∧ Zlen (c_str s) <= Zlen s.
Proof.
  unfold c_str. pose proof (break_app (isc NUL) s) as E. destruct (break (isc NUL) s) as [l r]. cbn [fst snd] in *. subst s. rewrite ztake_app_exact, Zlen_app. pose proof (Zlen_nonneg r). split; [done|lia].
Qed.

Lemma written_ok it : item_ok it → item_ok (written it) ∧ shape (written it) = shape it.
Proof. destruct it; cbn; intros Hok; try done. destruct (c_str_prefix string) as [_ Hl]. split; [|done]. destruct Hok. split; [done|lia]. Qed.

Lemma int_len_bound n w : 0 <= n < 2 ^ (8 * w) → 0 <= w → int_len n <= w + 1.
Proof.
  intros Hn Hw. rewrite int_len_spec by lia. pose proof (ndigits_width n w Hn Hw). apply Z.div_le_upper_bound; lia.
Qed.

(** What is written for a value is read as the value, whatever follows. *)
Lemma parse_item_code it rest : item_ok it → parse_item (shape it) (item_code it ++ rest) = Val (Some (it, rest)).
Proof.
  assert (∀ n mx, 0 <= n < 16 ^ mx → 0 < mx <= 16 → parse_int mx (int_code n) = Some (int_len n, n)) as Hp.
  { intros n mx H1 H2. rewrite <- (app_nil_r (int_code n)). by apply parse_int_code. }
  unfold parse_item. destruct it as [tag data|tag data|tag n|tag n|tag data|tag tv]; cbn [item_ok item_code shape]; intros Hok.
  - rewrite next_record_record by apply Hok. done.
  - rewrite next_record_record by apply Hok. cbn. by rewrite !Z.eqb_refl.
  - pose proof (int_len_bound n 4). rewrite next_record_record by (rewrite ?Zlen_int_code; lia). cbn. rewrite Z.eqb_refl, Hp by (change (16 ^ 8) with (2 ^ 32); lia). done.
  - pose proof (int_len_bound n 8). rewrite next_record_record by (rewrite ?Zlen_int_code; lia). cbn. rewrite Z.eqb_refl, Hp by (change (16 ^ 16) with (2 ^ 64); lia). done.
  - rewrite next_record_record by apply Hok. cbn. by rewrite !Z.eqb_refl.
  - destruct Hok as (Ht & Hs & Hu). pose proof (int_len_bound (tv_sec tv) 4). pose proof (int_len_bound (tv_usec tv) 4).
    rewrite next_record_record by (rewrite ?Zlen_app, ?Zlen_int_code; lia). cbn [mbind outcome_bind item_of].
    rewrite Z.eqb_refl, parse_int_code by (change (16 ^ 8) with (2 ^ 32); lia).
    rewrite <- (Zlen_int_code (tv_sec tv)), zdrop_app_exact, Hp by (change (16 ^ 8) with (2 ^ 32); lia). by destruct tv.
Qed.

Section props.
Context {HM : Malloc} `{HB : EvbufferSpec B}.
Context (Hrel : evb_reliable).

(** The bytes a buffer holds. *)
Definition holds (b : B) (bs : list byte) : Prop := evb_ok b ∧ content b = bs.

Lemma small_limit n : n < 2 ^ 31 → n <= evb_limit.
Proof. change evb_limit with (2 ^ 61). lia. Qed.

Lemma pullup_spec b bs n : holds b bs → Zlen bs < 2 ^ 31 → 0 < n <= Zlen bs →
  ∃ b', evbuffer_pullup b n = (Some (ztake n bs), b') ∧ holds b' bs.
Proof.
  intros [Hok <-] Hs Hn. pose proof (small_limit _ Hs) as Hl. destruct (evbuffer_pullup b n) as [o b'] eqn:E. exists b'.
  pose proof (pullup_keeps b n Hok Hl) as [H1 H2]. rewrite E in H1, H2. split; [|by split]. f_equal. destruct o as [d|].
  - destruct (pullup_some b n d Hok Hl) as [_ ->]; [lia|by rewrite E|done].
  - destruct (pullup_none b n Hok Hl Hrel ltac:(by rewrite E)) as [|[|Hz]]; [lia|lia|]. rewrite Hz in Hn. change (Zlen (@nil byte)) with 0 in Hn. lia.
Qed.

Lemma drain_holds b bs n : holds b bs → 0 <= n → holds (evbuffer_drain b n).2 (zdrop n bs).
Proof. intros [Hok <-] Hn. destruct (drain_spec b n Hok Hn) as (_ & ? & ?). by split. Qed.

Lemma length_holds b bs : holds b bs → evbuffer_get_length b = Zlen bs.
Proof. intros [Hok <-]. by apply get_length_spec. Qed.

Lemma decode_tag_spec b bs dodrain : holds b bs → Zlen bs < 2 ^ 31 →
  match parse_tag 5 bs with
  | Undef u => decode_tag_internal b dodrain = Undef u
  | Val None => ∃ b', decode_tag_internal b dodrain = Val (-1, None, b') ∧ holds b' bs
  | Val (Some (c, t)) => ∃ b', decode_tag_internal b dodrain = Val (c, Some (u32 t), b') ∧ holds b' (if dodrain then zdrop c bs else bs)
  end.
Proof.
  intros Hb Hs. unfold decode_tag_internal. rewrite (length_holds b bs Hb). zlen_pos. destruct (Z.eqb_spec (Zlen bs) 0) as [Hz|Hz].
  { rewrite Hz. apply Zlen_0_inv in Hz as ->. cbn [parse_tag]. change (0 <? 5) with true. cbn iota.
    pose proof (pullup_keeps b 0 (proj1 Hb) ltac:(apply small_limit; by rewrite (proj2 Hb))) as [H1 H2].
    destruct (evbuffer_pullup b 0) as [o b']. exists b'. split; [done|]. split; [done|]. cbn in H2. rewrite H2. apply Hb. }
  set (n := if Zlen bs <? 5 then Zlen bs else 5).
  assert (ztake n bs = ztake (Z.of_nat 5) bs ∧ 0 < n <= Zlen bs) as [Hn Hn'].
  { unfold n. destruct (Z.ltb_spec (Zlen bs) 5); [rewrite !ztake_all by lia|]; split; done || lia. }
  destruct (pullup_spec b bs n Hb Hs Hn') as (b' & -> & Hb'). rewrite Hn. cbn [or_undef mbind outcome_bind].
  pose proof (decode_tag_loop_spec 5 bs 0 0 0 ltac:(lia) eq_refl ltac:(done)) as E. rewrite Z.add_0_l in E. rewrite E. clear E.
  destruct (parse_tag 5 bs) as [[[c t]|]|] eqn:Et; cbn [mbind outcome_bind]; [|by exists b'|done].
  pose proof (parse_tag_bounds _ _ _ _ Et). rewrite Z.mul_1_r, !Z.add_0_l. unfold INT_MAX.
  destruct (Z.gtb_spec c (2 ^ 31 - 1)); [lia|]. eexists. split; [done|]. destruct dodrain; [|done]. apply drain_holds; [done|lia].
Qed.

Lemma pullup_at_spec b bs n offset : holds b bs → Zlen bs < 2 ^ 31 → 0 < n <= Zlen bs →
  ∃ b', pullup_at b n offset = Val (zdrop offset (ztake n bs), b') ∧ holds b' bs.
Proof.
  intros Hb Hs Hn. unfold pullup_at. destruct (pullup_spec b bs n Hb Hs Hn) as (b' & -> & Hb'). by exists b'.
Qed.

Lemma decode_int_spec w mx b bs offset : holds b bs → Zlen bs < 2 ^ 31 → 0 <= offset <= Zlen bs → 2 ^ w = 16 ^ mx → 0 <= mx →
  ∃ b', holds b' bs ∧ DECODE_INT_INTERNAL w mx b offset =
    Val (match parse_int mx (zdrop offset bs) with None => (-1, None, b') | Some (k, v) => (k, Some v, b') end).
Proof.
  intros Hb Hs Ho Hw Hmx. unfold DECODE_INT_INTERNAL. rewrite (length_holds b bs Hb).
  assert (i64 (Zlen bs - offset) = Zlen (zdrop offset bs)) as ->.
  { rewrite Zlen_zdrop. unfold i64. rewrite Z.mod_small by lia. lia. }
  set (s := zdrop offset bs). destruct (Z.leb_spec (Zlen s) 0) as [Hz|Hz].
  { assert (s = []) as -> by (apply Zlen_0_inv; zlen_pos; lia). by exists b. }
  assert (Zlen s = Zlen bs - offset) as Hls by (unfold s; zlia).
  assert (∀ n, 0 <= n → zdrop offset (ztake (offset + n) bs) = ztake n s) as Hzd.
  { intros n Hn. unfold s. rewrite ztake_zdrop_comm by lia. do 2 f_equal. lia. }
  destruct (pullup_at_spec b bs (offset + 1) offset Hb Hs ltac:(lia)) as (b1 & -> & Hb1). cbn [mbind outcome_bind]. rewrite Hzd by lia.
  rewrite znth_ztake by lia. destruct s as [|c s'] eqn:Es; [discriminate Hz|]. rewrite <- Es in *.
  assert (znth s 0 = Some c) as -> by (by rewrite Es). cbn [or_undef mbind outcome_bind]. rewrite byte_high.
  rewrite Z.shiftr_div_pow2 by lia. change (2 ^ 1) with 2. pose proof (b2z_range c). pose proof (Z.div_pos (b2z c) 16 ltac:(lia) ltac:(lia)).
  assert (parse_int mx s = let k := b2z c / 16 + 1 in
    if (k >? mx) || (k / 2 + 1 >? Zlen s) then None else Some (k / 2 + 1, digits (Z.to_nat k) s)) as -> by (by rewrite Es).
  cbv zeta. set (k := b2z c / 16 + 1). assert (0 <= k / 2) by (apply Z.div_pos; lia).
  destruct (Z.gtb_spec k mx); cbn [orb]; [by exists b1|]. destruct (Z.gtb_spec (k / 2 + 1) (Zlen s)); [by exists b1|].
  destruct (pullup_at_spec b1 bs (offset + (k / 2 + 1)) offset Hb1 Hs ltac:(lia)) as (b2 & -> & Hb2). cbn [mbind outcome_bind]. rewrite Hzd by lia.
  assert (Zlen (ztake (k / 2 + 1) s) = k / 2 + 1) as Hlt by (rewrite Zlen_ztake; lia).
  rewrite decode_nibbles_spec; [|lia| |rewrite Hlt, Z2Nat.id by lia; lia].
  2:{ rewrite Z2Nat.id, Hw by lia. pose proof (Z.pow_le_mono_r 16 k mx). lia. }
  cbn [mbind outcome_bind]. exists b2. split; [done|]. do 3 f_equal.
  rewrite <- (ztake_zdrop (k / 2 + 1) s) at 2. rewrite digits_prefix; [f_equal; lia|]. rewrite Hlt, Z2Nat.id by lia. lia.
Qed.

Lemma decode_int_drain b bs : holds b bs → Zlen bs < 2 ^ 31 →
  ∃ b', evtag_decode_int b =
      Val (match parse_int 8 bs with None => (-1, None, b') | Some (_, v) => (0, Some v, b') end) ∧
    holds b' (match parse_int 8 bs with None => bs | Some (k, _) => zdrop k bs end).
Proof.
  intros Hb Hs. unfold evtag_decode_int, decode_int_internal. zlen_pos.
  destruct (decode_int_spec 32 8 b bs 0 Hb Hs ltac:(lia) eq_refl ltac:(lia)) as (b' & Hb' & ->). rewrite (zdrop_0 0) by lia. cbn [mbind outcome_bind].
  destruct (parse_int 8 bs) as [[k v]|] eqn:E; [|by exists b']. pose proof (parse_int_bounds _ _ _ _ E).
  destruct (Z.eqb_spec k (-1)); [lia|]. rewrite u64_small by lia. eexists. split; [done|]. apply drain_holds; [done|lia].
Qed.

(** *** Records *)

Lemma header_spec b bs : holds b bs → Zlen bs < 2 ^ 31 →
  match next_record bs with
  | Undef u => evtag_unmarshal_header b = Undef u
  | Val None => ∃ tag b' bs', evtag_unmarshal_header b = Val (-1, tag, b') ∧ holds b' bs' ∧ bs' `suffix_of` bs
  | Val (Some (tag, data, rest)) => ∃ b', evtag_unmarshal_header b = Val (Zlen data, Some tag, b') ∧ holds b' (data ++ rest)
  end.
Proof.
  intros Hb Hs. unfold evtag_unmarshal_header, next_record. pose proof (decode_tag_spec b bs true Hb Hs) as Ht.
  destruct (parse_tag 5 bs) as [[[c t]|]|u] eqn:Et; cbn [mbind outcome_bind].
  2:{ destruct Ht as (b1 & -> & Hb1). cbn [mbind outcome_bind]. by eexists _, _, bs. }
  2:{ by rewrite Ht. }
  pose proof (parse_tag_bounds _ _ _ _ Et) as Hc. destruct Ht as (b1 & -> & Hb1). cbn [mbind outcome_bind]. destruct (Z.eqb_spec c (-1)); [lia|].
  assert (Zlen (zdrop c bs) < 2 ^ 31) as Hs1 by (rewrite Zlen_zdrop; lia).
  destruct (decode_int_drain b1 _ Hb1 Hs1) as (b2 & -> & Hb2). cbn [mbind outcome_bind].
  destruct (parse_int 8 (zdrop c bs)) as [[k len]|] eqn:Ei; cbn iota in *.
  2:{ change (-1 =? -1) with true. cbn iota. eexists _, _, _. split; [done|]. split; [exact Hb2|]. apply suffix_drop. }
  pose proof (parse_int_bounds _ _ _ _ Ei) as [Hk Hv]. change (0 =? -1) with false. cbn iota. cbn [or_undef mbind outcome_bind].
  rewrite (length_holds _ _ Hb2). rewrite (zdrop_zdrop k c) in Hb2 |- * by lia. rewrite (Z.add_comm k c) in *.
  destruct (Z.ltb_spec (Zlen (zdrop (c + k) bs)) len) as [|Hlen].
  { eexists _, _, _. split; [done|]. split; [exact Hb2|]. apply suffix_drop. }
  exists b2. rewrite ztake_zdrop. split; [|done]. rewrite Zlen_zdrop in Hlen. rewrite i32_small by lia. do 4 f_equal. rewrite Zlen_ztake, Zlen_zdrop. lia.
Qed.

(** What a reader of [parse] owes: nothing where the tag is too long, the value with the rest of the
    bytes left, or a failure with some suffix left. *)
Definition reads (parse : outcome (option (Item * list byte))) (bs : list byte) (r : outcome (option Item * B)) : Prop :=
  match parse with
  | Undef u => r = Undef u
  | Val (Some (it, rest)) => ∃ b', r = Val (Some it, b') ∧ holds b' rest
  | Val None => ∃ b' bs', r = Val (None, b') ∧ holds b' bs' ∧ bs' `suffix_of` bs
  end.

Definition read_fixed (tag len : Z) (src : B) : outcome (option Item * B) :=
  '(r, data, src) ← evtag_unmarshal_fixed src tag len;
  Val (if r =? -1 then None else option_map (IFixed tag) data, src).
Definition read_int (tag : Z) (src : B) : outcome (option Item * B) :=
  '(r, n, src) ← evtag_unmarshal_int src tag;
  Val (if r =? -1 then None else option_map (IInt tag) n, src).
Definition read_int64 (tag : Z) (src : B) : outcome (option Item * B) :=
  '(r, n, src) ← evtag_unmarshal_int64 src tag;
  Val (if r =? -1 then None else option_map (IInt64 tag) n, src).
(** The string is what comes before the NUL that ends the memory. *)
Definition read_string (tag : Z) (src : B) : outcome (option Item * B) :=
  '(r, mem, src) ← evtag_unmarshal_string src tag;
  Val (if r =? -1 then None else option_map (λ mem, IString tag (ztake (Zlen mem - 1) mem)) mem, src).
Definition read_timeval (tag : Z) (src : B) : outcome (option Item * B) :=
  '(r, tv, src) ← evtag_unmarshal_timeval src tag evutil_timerclear;
  Val (if r =? -1 then None else Some (ITimeval tag tv), src).

Lemma suffix_record bs tag data rest : next_record bs = Val (Some (tag, data, rest)) →
  (data ++ rest) `suffix_of` bs ∧ rest `suffix_of` bs.
Proof.
  intros (c & t & k & _ & _ & _ & Hd & _)%next_record_split. assert ((data ++ rest) `suffix_of` bs) as Hs by (rewrite <- Hd; apply suffix_drop).
  split; [done|]. transitivity (data ++ rest); [by exists data|done].
Qed.

(** A failure with some suffix left. *)
Lemma reads_none bs b' bs' : holds b' bs' → bs' `suffix_of` bs → reads (Val None) bs (Val (None, b')).
Proof. intros. by exists b', bs'. Qed.

(** The reader of numbers. *)
Lemma read_number_spec w mx con tag b bs : holds b bs → Zlen bs < 2 ^ 31 → 2 ^ w = 16 ^ mx → 0 <= mx →
  reads (r ← next_record bs;
         Val (match r with
              | None => None
              | Some (t, data, rest) =>
                  match (if t =? tag then match parse_int mx data with Some (_, n) => Some (con n) | None => None end else None) with
                  | Some it => Some (it, rest) | None => None end
              end)) bs
    ('(r, n, src) ← unmarshal_number (DECODE_INT_INTERNAL w mx) b tag; Val (if r =? -1 then None else option_map con n, src)).
Proof.
  intros Hb Hs Hw Hmx. unfold unmarshal_number, next_record. pose proof (decode_tag_spec b bs true Hb Hs) as Ht.
  destruct (parse_tag 5 bs) as [[[c t]|]|u] eqn:Et; cbn [mbind outcome_bind].
  2:{ destruct Ht as (b1 & -> & Hb1). cbn [mbind outcome_bind]. by eapply reads_none. }
  2:{ by rewrite Ht. }
  pose proof (parse_tag_bounds _ _ _ _ Et) as Hc. destruct Ht as (b1 & -> & Hb1). cbn [mbind outcome_bind or_undef]. destruct (Z.eqb_spec c (-1)); [lia|].
  assert (zdrop c bs `suffix_of` bs) as Hsuf by apply suffix_drop.
  destruct (Z.eqb_spec tag (u32 t)) as [->|Htag]; cbn [negb].
  2:{ destruct (parse_int 8 (zdrop c bs)) as [[k len]|]; [|by eapply reads_none]. destruct (_ <? _); [by eapply reads_none|].
      destruct (Z.eqb_spec (u32 t) tag); [congruence|]. by eapply reads_none. }
  assert (Zlen (zdrop c bs) < 2 ^ 31) as Hs1 by (rewrite Zlen_zdrop; lia).
  destruct (decode_int_drain b1 _ Hb1 Hs1) as (b2 & -> & Hb2). cbn [mbind outcome_bind].
  destruct (parse_int 8 (zdrop c bs)) as [[k len]|] eqn:Ei; cbn iota in *; [|by eapply reads_none].
  pose proof (parse_int_bounds _ _ _ _ Ei) as [Hk Hv]. change (0 =? -1) with false. cbn iota. cbn [or_undef mbind outcome_bind].
  rewrite (length_holds _ _ Hb2). rewrite (zdrop_zdrop k c) in Hb2 |- * by lia. rewrite (Z.add_comm k c) in *.
  set (s := zdrop (c + k) bs) in *. assert (s `suffix_of` bs) as Hsuf2 by apply suffix_drop. assert (Zlen s <= Zlen bs) as Hls by (unfold s; rewrite Zlen_zdrop; lia).
  destruct (Z.ltb_spec (Zlen s) len) as [|Hlen]; [by eapply reads_none|]. cbn iota. rewrite Z.eqb_refl.
  destruct (decode_int_spec w mx b2 s 0 Hb2 ltac:(lia) ltac:(lia) Hw Hmx) as (b3 & Hb3 & ->). rewrite (zdrop_0 0 s) by lia. cbn [mbind outcome_bind].
  assert (zdrop len s `suffix_of` bs) as Hsuf3 by (transitivity s; [apply suffix_drop|done]). pose proof (drain_holds b3 s len Hb3 Hv) as Hb4.
  pose proof (parse_int_app mx (ztake len s) (zdrop len s)) as Hp. rewrite ztake_zdrop in Hp.
  assert (Zlen (ztake len s) = len) as Htl by (rewrite Zlen_ztake; lia).
  destruct (parse_int mx s) as [[k' v]|] eqn:Ep.
  - pose proof (parse_int_bounds _ _ _ _ Ep). destruct (Z.ltb_spec k' 0); [lia|]. cbn [orb]. rewrite u64_small by lia.
    destruct Hp as [Hp|[Hp Hk']].
    + rewrite <- Hp. symmetry in Hp. apply parse_int_bounds in Hp. destruct (Z.gtb_spec k' len); [lia|]. cbn [mbind outcome_bind].
      destruct (Z.eqb_spec k' (-1)); [lia|]. eexists. split; [done|exact Hb4].
    + rewrite Hp. specialize (Hk' _ _ eq_refl). destruct (Z.gtb_spec k' len); [|lia]. by eapply reads_none.
  - assert (parse_int mx (ztake len s) = None) as -> by (destruct Hp as [<-|[-> _]]; done). by eapply reads_none.
Qed.

(** The readers that start with the header. *)
Lemma reads_header b bs (K : Z * option Z * B → outcome (option Item * B)) sh : holds b bs → Zlen bs < 2 ^ 31 →
  (∀ tag b', K (-1, tag, b') = Val (None, b')) →
  (∀ tag data rest b', next_record bs = Val (Some (tag, data, rest)) → holds b' (data ++ rest) →
     reads (Val (match item_of sh tag data with Some it => Some (it, rest) | None => None end)) bs (K (Zlen data, Some tag, b'))) →
  reads (parse_item sh bs) bs (evtag_unmarshal_header b ≫= K).
Proof.
  intros Hb Hs Hfail Hok. pose proof (header_spec b bs Hb Hs) as Hh. unfold parse_item. destruct (next_record bs) as [[[[tag data] rest]|]|u]; cbn [mbind outcome_bind].
  - destruct Hh as (b' & -> & Hb'). cbn [mbind outcome_bind]. by apply Hok.
  - destruct Hh as (tag & b' & bs' & -> & Hb' & Hsuf). cbn [mbind outcome_bind]. rewrite Hfail. by eapply reads_none.
  - by rewrite Hh.
Qed.

Lemma bind_assoc {A C D} (m : outcome A) (f : A → outcome C) (g : C → outcome D) : (m ≫= f) ≫= g = m ≫= (λ x, f x ≫= g).
Proof. by destruct m. Qed.

Lemma record_len bs tag data rest : next_record bs = Val (Some (tag, data, rest)) → Zlen data + 2 <= Zlen bs.
Proof. intros (c & t & k & _ & _ & _ & _ & ? & ? & ->)%next_record_split. zlen_pos. lia. Qed.

Lemma read_fixed_spec tag len b bs : holds b bs → Zlen bs < 2 ^ 31 → reads (parse_item (SFixed tag len) bs) bs (read_fixed tag len b).
Proof.
  intros Hb Hs. unfold read_fixed, evtag_unmarshal_fixed. rewrite bind_assoc. apply reads_header; [done|done|done|].
  intros t data rest b' Hr Hb'. pose proof (record_len _ _ _ _ Hr) as Hl. destruct (suffix_record _ _ _ _ Hr) as [Hsuf _]. zlen_pos. cbn [item_of].
  destruct (Z.ltb_spec (Zlen data) 0); [lia|]. cbn [or_undef mbind outcome_bind].
  destruct (Z.eqb_spec t tag); cbn [negb andb]; [|by eapply reads_none]. rewrite u64_small by lia.
  destruct (Z.eqb_spec (Zlen data) len) as [<-|]; cbn [negb]; [|by eapply reads_none].
  destruct Hb' as [Hok Hc]. destruct (remove_spec b' (Zlen data) Hok ltac:(lia)) as (b2 & -> & Hok2 & Hc2). rewrite Hc, ztake_app_exact.
  cbn [mbind outcome_bind]. exists b2. split; [done|]. split; [done|]. by rewrite Hc2, Hc, zdrop_app_exact.
Qed.

(** A string and its NUL in memory of the right size. *)
Lemma store_string mem (data : list byte) z : Zlen mem = Zlen data + 1 →
  ∃ mem', poke mem 0 data = Val mem' ∧ poke mem' (Zlen data) [z] = Val (data ++ [z]).
Proof.
  intros Hm. zlen_pos. destruct (zdrop (Zlen data) mem) as [|x [|y l]] eqn:E; apply (f_equal Zlen) in E as El; rewrite Zlen_zdrop in El; [change (Zlen (@nil byte)) with 0 in El; lia| |rewrite !Zlen_cons in El; zlen_pos; lia].
  exists (data ++ [x]). rewrite poke_val by lia. unfold splice at 1. rewrite ztake_0, Z.add_0_l, E by lia. split; [done|].
  rewrite poke_val by zlia. unfold splice. rewrite ztake_app_exact, zdrop_all; [done|]. rewrite !Zlen_app, !Zlen_cons, !Zlen_nil. lia.
Qed.

Lemma read_string_spec tag b bs : (∀ n, malloc_ok n = true) → holds b bs → Zlen bs < 2 ^ 31 → reads (parse_item (SString tag) bs) bs (read_string tag b).
Proof.
  intros Hm Hb Hs. unfold read_string, evtag_unmarshal_string. rewrite bind_assoc. apply reads_header; [done|done|done|].
  intros t data rest b' Hr Hb'. pose proof (record_len _ _ _ _ Hr) as Hl. destruct (suffix_record _ _ _ _ Hr) as [Hsuf _]. zlen_pos. cbn [item_of].
  destruct (Z.eqb_spec (Zlen data) (-1)); [lia|]. cbn [or_undef mbind outcome_bind].
  destruct (Z.eqb_spec t tag); cbn [negb]; [|by eapply reads_none]. rewrite Hm. cbn [negb].
  rewrite i32_small, !u64_small by lia. destruct Hb' as [Hok Hc]. destruct (remove_spec b' (Zlen data) Hok ltac:(lia)) as (b2 & -> & Hok2 & Hc2).
  rewrite Hc, ztake_app_exact. set (mem := replicate _ _). assert (Zlen mem = Zlen data + 1) as Hmem by (unfold mem; rewrite Zlen_replicate; lia).
  destruct (store_string mem data (z2b 0) Hmem) as (mem' & -> & E). cbn [mbind outcome_bind]. rewrite E. cbn [mbind outcome_bind option_map].
  exists b2. split; [|split; [done|by rewrite Hc2, Hc, zdrop_app_exact]]. rewrite Zlen_app. change (Zlen [z2b 0]) with 1.
  replace (Zlen data + 1 - 1) with (Zlen data) by lia. by rewrite ztake_app_exact.
Qed.

Lemma read_timeval_spec tag b bs : holds b bs → Zlen bs < 2 ^ 31 → reads (parse_item (STimeval tag) bs) bs (read_timeval tag b).
Proof.
  intros Hb Hs. unfold read_timeval, evtag_unmarshal_timeval. rewrite bind_assoc. apply reads_header; [done|done|done|].
  intros t data rest b' Hr Hb'. pose proof (record_len _ _ _ _ Hr) as Hl. destruct (suffix_record _ _ _ _ Hr) as [_ Hsuf]. zlen_pos. cbn [item_of].
  assert (Zlen (data ++ rest) < 2 ^ 31) as Hs1.
  { destruct (proj1 (suffix_record _ _ _ _ Hr)) as [k ->]. rewrite Zlen_app in Hs. zlen_pos. lia. }
  destruct (Z.eqb_spec (Zlen data) (-1)); [lia|]. cbn [or_undef mbind outcome_bind]. rewrite u64_small by lia.
  assert (∀ b0, holds b0 (data ++ rest) → holds (evbuffer_drain b0 (Zlen data)).2 rest) as Hdr.
  { intros b0 Hb0. rewrite <- (zdrop_app_exact data rest). by apply drain_holds. }
  destruct (Z.eqb_spec t tag); cbn [negb]; [|eapply reads_none; eauto].
  unfold decode_int_internal. destruct (decode_int_spec 32 8 b' _ 0 Hb' Hs1 ltac:(zlen_pos; lia) eq_refl ltac:(lia)) as (b1 & Hb1 & ->).
  rewrite (zdrop_0 0) by lia. cbn [mbind outcome_bind]. destruct (parse_int_app 8 data rest) as [Hp|[Hp Hlong]].
  - rewrite Hp. destruct (parse_int 8 data) as [[k sec]|] eqn:Ep; [|eapply reads_none; eauto]. apply parse_int_bounds in Ep as [Hk _].
    destruct (Z.eqb_spec k (-1)); [lia|]. cbn [or_undef mbind outcome_bind].
    destruct (decode_int_spec 32 8 b1 _ k Hb1 Hs1 ltac:(zlia) eq_refl ltac:(lia)) as (b2 & Hb2 & ->). rewrite zdrop_app_l by lia. cbn [mbind outcome_bind].
    destruct (parse_int_app 8 (zdrop k data) rest) as [Hp2|[Hp2 Hlong]].
    + rewrite Hp2. destruct (parse_int 8 (zdrop k data)) as [[k2 usec]|] eqn:Ep2; [|eapply reads_none; eauto]. apply parse_int_bounds in Ep2 as [Hk2 _].
      rewrite Zlen_zdrop in Hk2. destruct (Z.eqb_spec k2 (-1)); [lia|]. cbn [or_undef mbind outcome_bind tv_sec tv_usec].
      destruct (Z.gtb_spec (k + k2) (Zlen data)); [lia|]. cbn [mbind outcome_bind]. eexists. split; [done|]. eauto.
    + rewrite Hp2. destruct (parse_int 8 (zdrop k data ++ rest)) as [[k2 usec]|] eqn:Ep2; [|eapply reads_none; eauto].
      specialize (Hlong _ _ eq_refl). rewrite Zlen_zdrop in Hlong. destruct (Z.eqb_spec k2 (-1)); [lia|]. cbn [or_undef mbind outcome_bind].
      destruct (Z.gtb_spec (k + k2) (Zlen data)); [|lia]. eapply reads_none; eauto.
  - rewrite Hp. destruct (parse_int 8 (data ++ rest)) as [[k sec]|] eqn:Ep; [|eapply reads_none; eauto].
    specialize (Hlong _ _ eq_refl). apply parse_int_bounds in Ep as [Hk _]. destruct (Z.eqb_spec k (-1)); [lia|]. cbn [or_undef mbind outcome_bind].
    destruct (decode_int_spec 32 8 b1 _ k Hb1 Hs1 ltac:(lia) eq_refl ltac:(lia)) as (b2 & Hb2 & ->). cbn [mbind outcome_bind].
    destruct (parse_int 8 (zdrop k (data ++ rest))) as [[k2 usec]|] eqn:Ep2; [|eapply reads_none; eauto]. apply parse_int_bounds in Ep2 as [Hk2 _].
    destruct (Z.eqb_spec k2 (-1)); [lia|]. cbn [or_undef mbind outcome_bind]. destruct (Z.gtb_spec (k + k2) (Zlen data)); [|lia]. eapply reads_none; eauto.
Qed.

(** Data goes into a fresh buffer. *)
Definition read_data (fresh src : B) : outcome (option Item * B) :=
  '(r, tag, src, dst) ← evtag_unmarshal src fresh;
  if r =? -1 then Val (None, src)
  else
    tag ← or_undef OutOfBounds tag;
    let '(_, data, _) := evbuffer_remove dst (evbuffer_get_length dst) in
    Val (Some (IData tag data), src).

Lemma unmarshal_spec src dst old bs : holds src bs → Zlen bs < 2 ^ 31 → holds dst old → evb_writable dst →
  match next_record bs with
  | Undef u => evtag_unmarshal src dst = Undef u
  | Val None => ∃ tag src' bs', evtag_unmarshal src dst = Val (-1, tag, src', dst) ∧ holds src' bs' ∧ bs' `suffix_of` bs
  | Val (Some (tag, data, rest)) => ∃ src' dst', evtag_unmarshal src dst = Val (Zlen data, Some tag, src', dst') ∧ holds src' rest ∧
      holds dst' (old ++ data) ∧ evb_writable dst'
  end.
Proof.
  intros Hb Hs Hd Hwr. unfold evtag_unmarshal. pose proof (header_spec src bs Hb Hs) as Hh.
  destruct (next_record bs) as [[[[tag data] rest]|]|u] eqn:Er; cbn [mbind outcome_bind].
  2:{ destruct Hh as (tag & b' & bs' & -> & Hb' & Hsuf). by exists tag, b', bs'. }
  2:{ by rewrite Hh. }
  destruct Hh as (b1 & -> & Hb1). cbn [mbind outcome_bind]. pose proof (record_len _ _ _ _ Er) as Hl. zlen_pos.
  destruct (Z.eqb_spec (Zlen data) (-1)); [lia|]. rewrite u64_small by lia.
  assert (Zlen (data ++ rest) < 2 ^ 31) as Hs1.
  { destruct (proj1 (suffix_record _ _ _ _ Er)) as [k ->]. rewrite Zlen_app in Hs. zlen_pos. lia. }
  assert (∃ b2, evbuffer_pullup b1 (Zlen data) = (if Zlen data =? 0 then (evbuffer_pullup b1 0).1 else Some data, b2) ∧ holds b2 (data ++ rest)) as (b2 & -> & Hb2).
  { destruct (Z.eqb_spec (Zlen data) 0) as [Hz|Hz].
    - rewrite Hz. pose proof (pullup_keeps b1 0 (proj1 Hb1) ltac:(apply small_limit; by rewrite (proj2 Hb1))) as [G1 G2].
      destruct (evbuffer_pullup b1 0) as [o b2]. exists b2. split; [done|]. split; [done|]. cbn in G2. rewrite G2. apply Hb1.
    - destruct (pullup_spec b1 _ (Zlen data) Hb1 Hs1 ltac:(zlia)) as (b2 & -> & Hb2). exists b2. by rewrite ztake_app_exact. }
  assert (∀ o, read_at (if Zlen data =? 0 then o else Some data) (Zlen data) = Val data) as Hread.
  { intros o. unfold read_at. destruct (Z.eqb_spec (Zlen data) 0) as [Hz|Hz]; [by rewrite (Zlen_0_inv data Hz)|].
    destruct (Z.leb_spec (Zlen data) (Zlen data)); [|lia]. by rewrite ztake_all by lia. }
  rewrite Hread. cbn [mbind outcome_bind]. destruct Hd as [Hdok Hdc]. assert (Zlen data <= evb_limit) as Hlim by (apply small_limit; lia).
  destruct (evbuffer_add dst data) as [r dst'] eqn:Ea. pose proof (add_reliable dst data Hdok Hwr Hlim Hrel) as Hr0. rewrite Ea in Hr0. cbn in Hr0. subst r.
  destruct (add_spec dst data 0 dst' Hdok Hwr Hlim Ea) as (G1 & G2 & [[_ G3]|[? _]]); [|done].
  cbn [Z.eqb]. eexists _, dst'. split; [done|]. split; [|split; [split; [done|by rewrite G3, Hdc]|done]].
  rewrite <- (zdrop_app_exact data rest). apply drain_holds; [done|lia].
Qed.

Lemma read_data_spec fresh b bs : holds fresh [] → evb_writable fresh → holds b bs → Zlen bs < 2 ^ 31 →
  reads (parse_item SData bs) bs (read_data fresh b).
Proof.
  intros Hf Hwr Hb Hs. unfold read_data, parse_item. pose proof (unmarshal_spec b fresh [] bs Hb Hs Hf Hwr) as Hu.
  destruct (next_record bs) as [[[[tag data] rest]|]|u]; cbn [mbind outcome_bind].
  - destruct Hu as (src' & dst' & -> & Hsrc & Hdst & _). cbn [mbind outcome_bind]. zlen_pos. destruct (Z.eqb_spec (Zlen data) (-1)); [lia|].
    cbn [or_undef mbind outcome_bind]. rewrite (length_holds _ _ Hdst). destruct Hdst as [Hok Hc].
    destruct (remove_spec dst' (Zlen ([] ++ data)) Hok ltac:(apply Zlen_nonneg)) as (b2 & -> & _ & _). rewrite Hc. cbn [app]. rewrite ztake_all by lia.
    exists src'. done.
  - destruct Hu as (tag & src' & bs' & -> & Hsrc & Hsuf). by eapply reads_none.
  - by rewrite Hu.
Qed.

(** *** Reading any input *)

Definition read_item (fresh : B) (sh : Shape) (src : B) : outcome (option Item * B) :=
  match sh with
  | SData => read_data fresh src
  | SFixed tag len => read_fixed tag len src
  | SInt tag => read_int tag src
  | SInt64 tag => read_int64 tag src
  | SString tag => read_string tag src
  | STimeval tag => read_timeval tag src
  end.

Lemma read_item_spec fresh sh b bs : (∀ n, malloc_ok n = true) → holds fresh [] → evb_writable fresh → holds b bs → Zlen bs < 2 ^ 31 →
  reads (parse_item sh bs) bs (read_item fresh sh b).
Proof.
  intros Hm Hf Hw Hb Hs. destruct sh; cbn [read_item].
  - by apply read_data_spec.
  - by apply read_fixed_spec.
  - by apply (read_number_spec 32 8 (IInt tag)).
  - by apply (read_number_spec 64 16 (IInt64 tag)).
  - by apply read_string_spec.
  - by apply read_timeval_spec.
Qed.


(** Looking ahead: evtag_peek_length fails only where no record can be read, and otherwise all three
    functions that look ahead succeed without changing the input.  A record can be read exactly
    when as many bytes are there as evtag_peek_length says, it then has the tag that evtag_peek and
    the length that evtag_payload_length say, and takes that many bytes (for records of less than
    2^32 bytes with their header, as the sum wraps around). *)
Theorem peek_foretells b bs : holds b bs → Zlen bs < 2 ^ 31 → long_tag bs = false →
  ∃ r n b1, evtag_peek_length b = Val (r, n, b1) ∧ holds b1 bs ∧
    match n with
    | None => r = -1 ∧ next_record bs = Val None
    | Some n => r = 0 ∧ ∃ c tag b2 len b3,
        (evtag_peek b = Val (c, Some tag, b2) ∧ holds b2 bs) ∧
        (evtag_payload_length b = Val (0, Some len, b3) ∧ holds b3 bs) ∧
        (len < 2 ^ 32 - 10 →
           next_record bs = Val (if Zlen bs <? n then None else Some (tag, zdrop (n - len) (ztake n bs), zdrop n bs)))
    end.
Proof.
  intros Hb Hs Hl. unfold evtag_peek_length, evtag_payload_length, evtag_peek, next_record. pose proof (decode_tag_spec b bs false Hb Hs) as Ht.
  destruct (parse_tag 5 bs) as [[[c t]|]|u] eqn:Et; cbn [mbind outcome_bind].
  2:{ destruct Ht as (b1 & -> & Hb1). by exists (-1), None, b1. }
  2:{ destruct (next_record_defined bs Hl) as [r Hr]. unfold next_record in Hr. by rewrite Et in Hr. }
  pose proof (parse_tag_bounds _ _ _ _ Et) as Hc. destruct Ht as (b1 & -> & Hb1). cbn [mbind outcome_bind]. destruct (Z.eqb_spec c (-1)); [lia|].
  unfold decode_int_internal. destruct (decode_int_spec 32 8 b1 bs c Hb1 Hs ltac:(lia) eq_refl ltac:(lia)) as (b2 & Hb2 & ->). cbn [mbind outcome_bind].
  destruct (parse_int 8 (zdrop c bs)) as [[k len]|] eqn:Ei; [|by exists (-1), None, b2].
  pose proof (parse_int_bounds _ _ _ _ Ei) as [Hk Hv]. pose proof (parse_int_range 8 _ _ _ ltac:(lia) Ei) as Hv2. rewrite Zlen_zdrop in Hk.
  assert (k <= 5) as Hk5.
  { destruct (zdrop c bs) as [|x s]; [done|]. cbn [parse_int] in Ei. destruct (orb _ _) eqn:E; [done|]. zbool. injection Ei as <- _.
    assert ((b2z x / 16 + 1) / 2 <= 4) by (apply Z.div_le_upper_bound; lia). lia. }
  destruct (Z.eqb_spec k (-1)); [lia|]. cbn [option_map]. eexists 0, _, b2. split; [done|]. split; [done|]. split; [done|].
  exists c, (u32 t), b1, len, b2. split; [done|]. split; [done|]. intros Hlen.
  rewrite (u32_small (k + c)), (u32_small (len + _)) by lia. rewrite Zlen_zdrop. replace (len + (k + c)) with (len + (c + k)) by lia. do 2 f_equal.
  destruct (Z.ltb_spec (Z.max 0 (Zlen bs - Z.max 0 (c + k))) len), (Z.ltb_spec (Zlen bs) (len + (c + k))); try lia; [done|].
  replace (len + (c + k) - len) with (c + k) by lia. rewrite ztake_zdrop_comm, zdrop_zdrop by lia. done.
Qed.

(** *** Writing *)

(** A buffer that can be added to, and its bytes. *)
Definition grows (b : B) (bs : list byte) : Prop := holds b bs ∧ evb_writable b.

Lemma add_array_spec b bs data len : grows b bs → 0 <= len <= Zlen data → len < 2 ^ 32 →
  ∃ b', add_array b data len = Val b' ∧ grows b' (bs ++ ztake len data).
Proof.
  intros [[Hok Hc] Hw] Hl Hl2. unfold add_array, read_at. rewrite u64_small by lia.
  assert ((if len =? 0 then Val [] else if len <=? Zlen data then Val (ztake len data) else Undef OutOfBounds) = Val (ztake len data)) as ->.
  { destruct (Z.eqb_spec len 0) as [->|]; [by rewrite ztake_0|]. destruct (Z.leb_spec len (Zlen data)); [done|lia]. }
  cbn [mbind outcome_bind]. assert (Zlen (ztake len data) <= evb_limit) as Hlim by (rewrite Zlen_ztake; change evb_limit with (2 ^ 61); lia).
  destruct (evbuffer_add b _) as [r b'] eqn:Ea. pose proof (add_reliable b _ Hok Hw Hlim Hrel) as Hr0. rewrite Ea in Hr0. cbn in Hr0. subst r.
  destruct (add_spec b _ 0 b' Hok Hw Hlim Ea) as (G1 & G2 & [[_ G3]|[? _]]); [|done]. exists b'. split; [done|]. split; [|done]. split; [done|]. by rewrite G3, Hc.
Qed.

Lemma encode_tag_spec b bs tag : grows b bs → 0 <= tag < 2 ^ 32 → ∃ b', encode_tag b tag = Val b' ∧ grows b' (bs ++ tag_code 4 tag).
Proof.
  intros Hb Ht. unfold encode_tag, evtag_encode_tag. rewrite poke_val by (unfold array; rewrite ?Zlen_replicate; lia). cbn [mbind outcome_bind].
  destruct (encode_tag_loop_spec 4 tag [] (splice (array 5) 0 (replicate 5 (z2b 0)))) as [mem' E].
  { change (128 ^ Z.of_nat 5) with (2 ^ 35). lia. }
  { rewrite Zlen_splice; unfold array; rewrite ?Zlen_replicate; lia. }
  cbn [app] in E. change (Zlen []) with 0 in E. rewrite E. cbn [mbind outcome_bind]. pose proof (tag_code_len 4 tag).
  destruct (add_array_spec b bs (tag_code 4 tag ++ mem') (0 + Zlen (tag_code 4 tag)) Hb) as (b' & -> & Hb'); [zlia|lia|].
  cbn [mbind outcome_bind or_undef]. exists b'. split; [done|]. by rewrite Z.add_0_l, ztake_app_exact in Hb'.
Qed.

Lemma encode_int_spec b bs n : grows b bs → 0 <= n < 2 ^ 32 → ∃ b', evtag_encode_int b n = Val b' ∧ grows b' (bs ++ int_code n).
Proof.
  intros Hb Hn. unfold evtag_encode_int, encode_int_internal. destruct (encode_spec 4 (array 5) n) as (data' & -> & Hd & Hlen & <-); [lia|done|done|].
  cbn [mbind outcome_bind]. pose proof (int_len_pos n ltac:(lia)). change (Zlen (array 5)) with 5 in Hd. apply add_array_spec; [done|lia|lia].
Qed.

Lemma marshal_spec b bs tag data len : grows b bs → 0 <= tag < 2 ^ 32 → 0 <= len <= Zlen data → len < 2 ^ 32 →
  ∃ b', evtag_marshal b tag data len = Val b' ∧ grows b' (bs ++ record tag (ztake len data)).
Proof.
  intros Hb Ht Hl Hl2. unfold evtag_marshal, record. destruct (encode_tag_spec b bs tag Hb Ht) as (b1 & -> & Hb1). cbn [mbind outcome_bind].
  destruct (encode_int_spec b1 _ len Hb1 ltac:(lia)) as (b2 & -> & Hb2). cbn [mbind outcome_bind].
  destruct (add_array_spec b2 _ data len Hb2 Hl Hl2) as (b3 & -> & Hb3). exists b3. split; [done|].
  rewrite Zlen_ztake. replace (Z.max 0 (Z.min len (Zlen data))) with len by lia. by rewrite !app_assoc.
Qed.

(** A number in a record of its own. *)
Lemma marshal_number_spec size b bs tag n : grows b bs → 0 <= tag < 2 ^ 32 → 0 <= size <= 8 → 0 <= n < 2 ^ (8 * size) →
  ∃ b', ('(len, data) ← ENCODE_INT_INTERNAL size (array (Z.to_nat (size + 1))) n;
         evbuf ← encode_tag b tag; evbuf ← evtag_encode_int evbuf (u32 len); add_array evbuf data len) = Val b' ∧
    grows b' (bs ++ record tag (int_code n)).
Proof.
  intros Hb Ht Hsz Hn. assert (Zlen (array (Z.to_nat (size + 1))) = size + 1) as Ha by (unfold array; rewrite Zlen_replicate; lia).
  destruct (encode_spec size (array (Z.to_nat (size + 1))) n Hsz Hn ltac:(rewrite Ha; lia)) as (data' & -> & Hd & Hlen & Hc). cbn [mbind outcome_bind].
  pose proof (int_len_pos n ltac:(lia)). rewrite u32_small by lia.
  destruct (marshal_spec b bs tag data' (int_len n) Hb Ht ltac:(lia) ltac:(lia)) as (b' & E & Hb'). rewrite Hc in Hb'. by exists b'.
Qed.

Lemma marshal_timeval_spec b bs tag tv : grows b bs → item_ok (ITimeval tag tv) →
  ∃ b', evtag_marshal_timeval b tag tv = Val b' ∧ grows b' (bs ++ item_code (ITimeval tag tv)).
Proof.
  intros Hb (Ht & Hs & Hu). unfold evtag_marshal_timeval, encode_int_internal. rewrite !(u32_small (tv_sec tv)), !(u32_small (tv_usec tv)) by done.
  destruct (encode_spec 4 (array 10) (tv_sec tv)) as (d1 & -> & Hd1 & Hl1 & Hc1); [lia|done|done|]. cbn [mbind outcome_bind].
  change (Zlen (array 10)) with 10 in Hd1. pose proof (int_len_pos (tv_sec tv) ltac:(lia)). pose proof (int_len_pos (tv_usec tv) ltac:(lia)).
  destruct (encode_spec 4 (zdrop (int_len (tv_sec tv)) d1) (tv_usec tv)) as (d2 & -> & Hd2 & Hl2 & Hc2); [lia|done|rewrite Zlen_zdrop; lia|].
  cbn [mbind outcome_bind]. rewrite Zlen_zdrop in Hd2. rewrite u32_small by lia. assert (Zlen (int_code (tv_sec tv)) = int_len (tv_sec tv)) as Hi by (apply Zlen_int_code; lia).
  rewrite Hc1. destruct (marshal_spec b bs tag (int_code (tv_sec tv) ++ d2) (int_len (tv_sec tv) + int_len (tv_usec tv)) Hb Ht) as (b' & -> & Hb'); [zlia|lia|].
  exists b'. split; [done|]. rewrite ztake_app_r, Hi in Hb' by lia. replace (int_len (tv_sec tv) + _ - _) with (int_len (tv_usec tv)) in Hb' by lia. by rewrite Hc2 in Hb'.
Qed.

Definition marshal_item (b : B) (it : Item) : outcome B :=
  match it with
  | IData tag data | IFixed tag data => evtag_marshal b tag data (Zlen data)
  | IInt tag n => evtag_marshal_int b tag n
  | IInt64 tag n => evtag_marshal_int64 b tag n
  | IString tag string => evtag_marshal_string b tag string
  | ITimeval tag tv => evtag_marshal_timeval b tag tv
  end.

Lemma marshal_item_spec b bs it : grows b bs → item_ok it → ∃ b', marshal_item b it = Val b' ∧ grows b' (bs ++ item_code (written it)).
Proof.
  intros Hb Hok. destruct it as [tag data|tag data|tag n|tag n|tag data|tag tv]; cbn [marshal_item item_code written].
  6: by apply marshal_timeval_spec.
  3: apply (marshal_number_spec 4); [done|apply Hok|lia|apply Hok].
  3: apply (marshal_number_spec 8); [done|apply Hok|lia|apply Hok].
  3: { destruct Hok as [Ht Hl]. destruct (c_str_prefix data) as [Hc Hle]. pose proof (Zlen_nonneg (c_str data)). unfold evtag_marshal_string. rewrite u32_small by lia.
    destruct (marshal_spec b bs tag data (Zlen (c_str data)) Hb Ht ltac:(lia) ltac:(lia)) as (b' & -> & Hb'). rewrite Hc in Hb'. by exists b'. }
  all: destruct Hok as [Ht Hl]; zlen_pos.
  all: destruct (marshal_spec b bs tag data (Zlen data) Hb Ht ltac:(lia) Hl) as (b' & -> & Hb'); rewrite ztake_all in Hb' by lia; by exists b'.
Qed.

(** A buffer is moved into a record. *)
Lemma marshal_buffer_spec b bs tag inp data : grows b bs → holds inp data → 0 <= tag < 2 ^ 32 → Zlen data < 2 ^ 32 →
  ∃ b' inp', evtag_marshal_buffer b tag inp = Val (b', inp') ∧ holds b' (bs ++ record tag data) ∧ holds inp' [].
Proof.
  intros Hb Hi Ht Hl. unfold evtag_marshal_buffer, record. rewrite (length_holds _ _ Hi). zlen_pos. rewrite u32_small by lia.
  destruct (encode_tag_spec b bs tag Hb Ht) as (b1 & -> & Hb1). cbn [mbind outcome_bind].
  destruct (encode_int_spec b1 _ (Zlen data) Hb1 ltac:(lia)) as (b2 & -> & [[Hok Hc] Hw]). cbn [mbind outcome_bind].
  destruct (evbuffer_add_buffer b2 inp) as [[r b3] inp'] eqn:Ea. destruct (add_buffer_spec _ _ _ _ _ Hok Hw (proj1 Hi) Ea) as (_ & G1 & G2 & _ & G3 & G4).
  exists b3, inp'. split; [done|]. split; [|done]. split; [done|]. by rewrite G3, Hc, (proj2 Hi), !app_assoc.
Qed.

(** *** Streams of values *)

Fixpoint marshal_all (b : B) (its : list Item) : outcome B :=
  match its with [] => Val b | it :: its => b ← marshal_item b it; marshal_all b its end.

(** Reading stops at the first failure. *)
Fixpoint read_all (fresh : B) (shs : list Shape) (src : B) : outcome (list Item * B) :=
  match shs with
  | [] => Val ([], src)
  | sh :: shs =>
      '(r, src) ← read_item fresh sh src;
      match r with
      | None => Val ([], src)
      | Some it => '(its, src) ← read_all fresh shs src; Val (it :: its, src)
      end
  end.

Lemma marshal_all_spec b bs its : grows b bs → Forall item_ok its → ∃ b', marshal_all b its = Val b' ∧ grows b' (bs ++ concat ((λ it, item_code (written it)) <$> its)).
Proof.
  intros Hb Hok. revert b bs Hb. induction Hok as [|it its Hit _ IH]; intros b bs Hb; cbn [marshal_all fmap list_fmap concat].
  { exists b. by rewrite app_nil_r. }
  destruct (marshal_item_spec b bs it Hb Hit) as (b1 & -> & Hb1). cbn [mbind outcome_bind]. destruct (IH b1 _ Hb1) as (b2 & -> & Hb2).
  exists b2. by rewrite <- app_assoc in Hb2.
Qed.

(** C26.  Values of any kinds written one after the other into a buffer are read back from any buffer
    that the bytes have got to: the same values in the same order, with what followed them left.  A string
    is what it is in C, the bytes before its first NUL. *)
Theorem tagged_stream_roundtrip fresh b old its :
  (∀ n, malloc_ok n = true) → holds fresh [] → evb_writable fresh → grows b old → Forall item_ok its →
  ∃ b' wire, marshal_all b its = Val b' ∧ grows b' (old ++ wire) ∧
    ∀ src rest, holds src (wire ++ rest) → Zlen (wire ++ rest) < 2 ^ 31 →
      ∃ src', read_all fresh (shape <$> its) src = Val (written <$> its, src') ∧ holds src' rest.
Proof.
  intros Hm Hf Hw Hb Hok. destruct (marshal_all_spec b old its Hb Hok) as (b' & Hb' & Hg). exists b', (concat ((λ it, item_code (written it)) <$> its)).
  split; [done|]. split; [done|]. clear b b' old Hb Hb' Hg. induction Hok as [|it its Hit _ IH]; intros src rest Hsrc Hs; cbn [read_all fmap list_fmap concat] in *.
  { by exists src. }
  destruct (written_ok it Hit) as [Hwo Hsh]. rewrite <- app_assoc in Hsrc, Hs. pose proof (read_item_spec fresh (shape it) src _ Hm Hf Hw Hsrc Hs) as Hr. rewrite <- Hsh, parse_item_code, Hsh in Hr by done.
  destruct Hr as (src1 & -> & Hsrc1). cbn [mbind outcome_bind]. rewrite Zlen_app in Hs. zlen_pos.
  destruct (IH src1 rest Hsrc1 ltac:(lia)) as (src2 & -> & Hsrc2). cbn [mbind outcome_bind]. by exists src2.
Qed.
End props.
