(* ===== verification/BufevData.v ===== *)
(** The state of a bufferevent: struct bufferevent of
    include/event2/bufferevent_struct.h and struct bufferevent_private of
    bufferevent-internal.h, of libevent 2.0.21, with the two events it owns.

    Locks, [errno] and rate limits (no bufferevent of the program has one) are left
    out; [BevLog] records what cannot be seen in the fields: the user callbacks run,
    the descriptors closed and the bytes that passed each end. *)

From S2P Require Import Prelude EvFlags EvbufferApi BufChain BufOps BufRefine.

Definition BEV_EVENT_READING : Z := 0x01.
Definition BEV_EVENT_WRITING : Z := 0x02.
Definition BEV_EVENT_EOF : Z := 0x10.
Definition BEV_EVENT_ERROR : Z := 0x20.
Definition BEV_EVENT_TIMEOUT : Z := 0x40.
Definition BEV_EVENT_CONNECTED : Z := 0x80.
Definition BEV_OPT_CLOSE_ON_FREE : Z := 1.
Definition BEV_OPT_DEFER_CALLBACKS : Z := 4.
Definition BEV_OPT_UNLOCK_CALLBACKS : Z := 8.
Definition BEV_SUSPEND_WM : Z := 1.
Definition BEV_SUSPEND_LOOKUP : Z := 8.
Definition MAX_TO_READ_EVER : Z := 16384.
Definition MAX_TO_WRITE_EVER : Z := 16384.

(** A persistent event: its descriptor, whether it is added to the base or made
    active by hand, its timeout. *)
Record Event := { ev_fd : Z; ev_added : bool; ev_active : bool; ev_tv : option (Z * Z) }.
Record Watermark := { wm_low : Z; wm_high : Z }.

Inductive BevCall := CallRead | CallWrite | CallEvent (what : Z).

Record Io := {
  io_input : Evb;
  io_output : Evb;
  io_ev_read : Event;
  io_ev_write : Event }.

Record Conf := {
  cf_timeout_read : Z * Z;
  cf_timeout_write : Z * Z;
  cf_wm_read : Watermark;
  cf_wm_write : Watermark;
  cf_readcb : bool;  (** set, or NULL *)
  cf_writecb : bool;
  cf_errorcb : bool;
  cf_options : Z;
  cf_read_watermarks_cb : bool }.  (** the callback on [input] exists *)

Record Priv := {
  pv_enabled : Z;
  pv_read_suspended : Z;
  pv_write_suspended : Z;
  pv_connecting : bool;
  pv_connection_refused : bool;
  pv_refcnt : Z;
  pv_dns_error : Z;
  pv_readcb_pending : bool;
  pv_writecb_pending : bool;
  pv_eventcb_pending : Z;
  pv_queued : bool }.  (** the deferred entry is queued *)

Record BevLog := {
  lg_freed : bool;  (** the memory was released *)
  lg_closed : list Z;  (** descriptors closed *)
  lg_calls : list BevCall;  (** user callbacks run *)
  lg_received : list byte;  (** bytes read off the descriptor *)
  lg_consumed : list byte;  (** bytes the user took from [input] *)
  lg_submitted : list byte;  (** bytes the user put into [output] *)
  lg_sent : list byte }.  (** bytes the descriptor took *)

Record Bufferevent := {
  bv_io : Io;
  bv_conf : Conf;
  bv_priv : Priv;
  bv_log : BevLog }.

(** Fields and field updates. *)

Definition input (s : Bufferevent) : Evb := io_input (bv_io s).
Definition output (s : Bufferevent) : Evb := io_output (bv_io s).
Definition ev_read (s : Bufferevent) : Event := io_ev_read (bv_io s).
Definition ev_write (s : Bufferevent) : Event := io_ev_write (bv_io s).
Definition timeout_read (s : Bufferevent) : Z * Z := cf_timeout_read (bv_conf s).
Definition timeout_write (s : Bufferevent) : Z * Z := cf_timeout_write (bv_conf s).
Definition wm_read (s : Bufferevent) : Watermark := cf_wm_read (bv_conf s).
Definition wm_write (s : Bufferevent) : Watermark := cf_wm_write (bv_conf s).
Definition readcb (s : Bufferevent) : bool := cf_readcb (bv_conf s).
Definition writecb (s : Bufferevent) : bool := cf_writecb (bv_conf s).
Definition errorcb (s : Bufferevent) : bool := cf_errorcb (bv_conf s).
Definition options (s : Bufferevent) : Z := cf_options (bv_conf s).
Definition read_watermarks_cb (s : Bufferevent) : bool := cf_read_watermarks_cb (bv_conf s).
Definition enabled (s : Bufferevent) : Z := pv_enabled (bv_priv s).
Definition read_suspended (s : Bufferevent) : Z := pv_read_suspended (bv_priv s).
Definition write_suspended (s : Bufferevent) : Z := pv_write_suspended (bv_priv s).
Definition connecting (s : Bufferevent) : bool := pv_connecting (bv_priv s).
Definition connection_refused (s : Bufferevent) : bool := pv_connection_refused (bv_priv s).
Definition refcnt (s : Bufferevent) : Z := pv_refcnt (bv_priv s).
Definition dns_error (s : Bufferevent) : Z := pv_dns_error (bv_priv s).
Definition readcb_pending (s : Bufferevent) : bool := pv_readcb_pending (bv_priv s).
Definition writecb_pending (s : Bufferevent) : bool := pv_writecb_pending (bv_priv s).
Definition eventcb_pending (s : Bufferevent) : Z := pv_eventcb_pending (bv_priv s).
Definition queued (s : Bufferevent) : bool := pv_queued (bv_priv s).
Definition freed (s : Bufferevent) : bool := lg_freed (bv_log s).
Definition closed (s : Bufferevent) : list Z := lg_closed (bv_log s).
Definition calls (s : Bufferevent) : list BevCall := lg_calls (bv_log s).
Definition received (s : Bufferevent) : list byte := lg_received (bv_log s).
Definition consumed (s : Bufferevent) : list byte := lg_consumed (bv_log s).
Definition submitted (s : Bufferevent) : list byte := lg_submitted (bv_log s).
Definition sent (s : Bufferevent) : list byte := lg_sent (bv_log s).

Definition upd_io (f : Io → Io) (s : Bufferevent) : Bufferevent :=
  {| bv_io := f (bv_io s); bv_conf := bv_conf s; bv_priv := bv_priv s; bv_log := bv_log s |}.
Definition upd_conf (f : Conf → Conf) (s : Bufferevent) : Bufferevent :=
  {| bv_io := bv_io s; bv_conf := f (bv_conf s); bv_priv := bv_priv s; bv_log := bv_log s |}.
Definition upd_priv (f : Priv → Priv) (s : Bufferevent) : Bufferevent :=
  {| bv_io := bv_io s; bv_conf := bv_conf s; bv_priv := f (bv_priv s); bv_log := bv_log s |}.
Definition upd_log (f : BevLog → BevLog) (s : Bufferevent) : Bufferevent :=
  {| bv_io := bv_io s; bv_conf := bv_conf s; bv_priv := bv_priv s; bv_log := f (bv_log s) |}.
Definition set_input (v : Evb) : Bufferevent → Bufferevent :=
  upd_io (λ r, {| io_input := v; io_output := io_output r; io_ev_read := io_ev_read r; io_ev_write := io_ev_write r |}).
Definition set_output (v : Evb) : Bufferevent → Bufferevent :=
  upd_io (λ r, {| io_input := io_input r; io_output := v; io_ev_read := io_ev_read r; io_ev_write := io_ev_write r |}).
Definition set_ev_read (v : Event) : Bufferevent → Bufferevent :=
  upd_io (λ r, {| io_input := io_input r; io_output := io_output r; io_ev_read := v; io_ev_write := io_ev_write r |}).
Definition set_ev_write (v : Event) : Bufferevent → Bufferevent :=
  upd_io (λ r, {| io_input := io_input r; io_output := io_output r; io_ev_read := io_ev_read r; io_ev_write := v |}).
Definition set_timeout_read (v : Z * Z) : Bufferevent → Bufferevent :=
  upd_conf (λ r, {| cf_timeout_read := v; cf_timeout_write := cf_timeout_write r; cf_wm_read := cf_wm_read r;
     cf_wm_write := cf_wm_write r; cf_readcb := cf_readcb r; cf_writecb := cf_writecb r;
     cf_errorcb := cf_errorcb r; cf_options := cf_options r; cf_read_watermarks_cb := cf_read_watermarks_cb r |}).
Definition set_timeout_write (v : Z * Z) : Bufferevent → Bufferevent :=
  upd_conf (λ r, {| cf_timeout_read := cf_timeout_read r; cf_timeout_write := v; cf_wm_read := cf_wm_read r;
     cf_wm_write := cf_wm_write r; cf_readcb := cf_readcb r; cf_writecb := cf_writecb r;
     cf_errorcb := cf_errorcb r; cf_options := cf_options r; cf_read_watermarks_cb := cf_read_watermarks_cb r |}).
Definition set_wm_read (v : Watermark) : Bufferevent → Bufferevent :=
  upd_conf (λ r, {| cf_timeout_read := cf_timeout_read r; cf_timeout_write := cf_timeout_write r; cf_wm_read := v;
     cf_wm_write := cf_wm_write r; cf_readcb := cf_readcb r; cf_writecb := cf_writecb r;
     cf_errorcb := cf_errorcb r; cf_options := cf_options r; cf_read_watermarks_cb := cf_read_watermarks_cb r |}).
Definition set_wm_write (v : Watermark) : Bufferevent → Bufferevent :=
  upd_conf (λ r, {| cf_timeout_read := cf_timeout_read r; cf_timeout_write := cf_timeout_write r;
     cf_wm_read := cf_wm_read r; cf_wm_write := v; cf_readcb := cf_readcb r; cf_writecb := cf_writecb r;
     cf_errorcb := cf_errorcb r; cf_options := cf_options r; cf_read_watermarks_cb := cf_read_watermarks_cb r |}).
Definition set_readcb (v : bool) : Bufferevent → Bufferevent :=
  upd_conf (λ r, {| cf_timeout_read := cf_timeout_read r; cf_timeout_write := cf_timeout_write r;
     cf_wm_read := cf_wm_read r; cf_wm_write := cf_wm_write r; cf_readcb := v; cf_writecb := cf_writecb r;
     cf_errorcb := cf_errorcb r; cf_options := cf_options r; cf_read_watermarks_cb := cf_read_watermarks_cb r |}).
Definition set_writecb (v : bool) : Bufferevent → Bufferevent :=
  upd_conf (λ r, {| cf_timeout_read := cf_timeout_read r; cf_timeout_write := cf_timeout_write r;
     cf_wm_read := cf_wm_read r; cf_wm_write := cf_wm_write r; cf_readcb := cf_readcb r; cf_writecb := v;
     cf_errorcb := cf_errorcb r; cf_options := cf_options r; cf_read_watermarks_cb := cf_read_watermarks_cb r |}).
Definition set_errorcb (v : bool) : Bufferevent → Bufferevent :=
  upd_conf (λ r, {| cf_timeout_read := cf_timeout_read r; cf_timeout_write := cf_timeout_write r;
     cf_wm_read := cf_wm_read r; cf_wm_write := cf_wm_write r; cf_readcb := cf_readcb r;
     cf_writecb := cf_writecb r; cf_errorcb := v; cf_options := cf_options r;
     cf_read_watermarks_cb := cf_read_watermarks_cb r |}).
Definition set_options (v : Z) : Bufferevent → Bufferevent :=
  upd_conf (λ r, {| cf_timeout_read := cf_timeout_read r; cf_timeout_write := cf_timeout_write r;
     cf_wm_read := cf_wm_read r; cf_wm_write := cf_wm_write r; cf_readcb := cf_readcb r;
     cf_writecb := cf_writecb r; cf_errorcb := cf_errorcb r; cf_options := v;
     cf_read_watermarks_cb := cf_read_watermarks_cb r |}).
Definition set_read_watermarks_cb (v : bool) : Bufferevent → Bufferevent :=
  upd_conf (λ r, {| cf_timeout_read := cf_timeout_read r; cf_timeout_write := cf_timeout_write r;
     cf_wm_read := cf_wm_read r; cf_wm_write := cf_wm_write r; cf_readcb := cf_readcb r;
     cf_writecb := cf_writecb r; cf_errorcb := cf_errorcb r; cf_options := cf_options r;
     cf_read_watermarks_cb := v |}).
Definition set_enabled (v : Z) : Bufferevent → Bufferevent :=
  upd_priv (λ r, {| pv_enabled := v; pv_read_suspended := pv_read_suspended r; pv_write_suspended := pv_write_suspended r;
     pv_connecting := pv_connecting r; pv_connection_refused := pv_connection_refused r;
     pv_refcnt := pv_refcnt r; pv_dns_error := pv_dns_error r; pv_readcb_pending := pv_readcb_pending r;
     pv_writecb_pending := pv_writecb_pending r; pv_eventcb_pending := pv_eventcb_pending r;
     pv_queued := pv_queued r |}).
Definition set_read_suspended (v : Z) : Bufferevent → Bufferevent :=
  upd_priv (λ r, {| pv_enabled := pv_enabled r; pv_read_suspended := v; pv_write_suspended := pv_write_suspended r;
     pv_connecting := pv_connecting r; pv_connection_refused := pv_connection_refused r;
     pv_refcnt := pv_refcnt r; pv_dns_error := pv_dns_error r; pv_readcb_pending := pv_readcb_pending r;
     pv_writecb_pending := pv_writecb_pending r; pv_eventcb_pending := pv_eventcb_pending r;
     pv_queued := pv_queued r |}).
Definition set_write_suspended (v : Z) : Bufferevent → Bufferevent :=
  upd_priv (λ r, {| pv_enabled := pv_enabled r; pv_read_suspended := pv_read_suspended r; pv_write_suspended := v;
     pv_connecting := pv_connecting r; pv_connection_refused := pv_connection_refused r;
     pv_refcnt := pv_refcnt r; pv_dns_error := pv_dns_error r; pv_readcb_pending := pv_readcb_pending r;
     pv_writecb_pending := pv_writecb_pending r; pv_eventcb_pending := pv_eventcb_pending r;
     pv_queued := pv_queued r |}).
Definition set_connecting (v : bool) : Bufferevent → Bufferevent :=
  upd_priv (λ r, {| pv_enabled := pv_enabled r; pv_read_suspended := pv_read_suspended r;
     pv_write_suspended := pv_write_suspended r; pv_connecting := v;
     pv_connection_refused := pv_connection_refused r; pv_refcnt := pv_refcnt r;
     pv_dns_error := pv_dns_error r; pv_readcb_pending := pv_readcb_pending r;
     pv_writecb_pending := pv_writecb_pending r; pv_eventcb_pending := pv_eventcb_pending r;
     pv_queued := pv_queued r |}).
Definition set_connection_refused (v : bool) : Bufferevent → Bufferevent :=
  upd_priv (λ r, {| pv_enabled := pv_enabled r; pv_read_suspended := pv_read_suspended r;
     pv_write_suspended := pv_write_suspended r; pv_connecting := pv_connecting r;
     pv_connection_refused := v; pv_refcnt := pv_refcnt r; pv_dns_error := pv_dns_error r;
     pv_readcb_pending := pv_readcb_pending r; pv_writecb_pending := pv_writecb_pending r;
     pv_eventcb_pending := pv_eventcb_pending r; pv_queued := pv_queued r |}).
Definition set_refcnt (v : Z) : Bufferevent → Bufferevent :=
  upd_priv (λ r, {| pv_enabled := pv_enabled r; pv_read_suspended := pv_read_suspended r;
     pv_write_suspended := pv_write_suspended r; pv_connecting := pv_connecting r;
     pv_connection_refused := pv_connection_refused r; pv_refcnt := v; pv_dns_error := pv_dns_error r;
     pv_readcb_pending := pv_readcb_pending r; pv_writecb_pending := pv_writecb_pending r;
     pv_eventcb_pending := pv_eventcb_pending r; pv_queued := pv_queued r |}).
Definition set_dns_error (v : Z) : Bufferevent → Bufferevent :=
  upd_priv (λ r, {| pv_enabled := pv_enabled r; pv_read_suspended := pv_read_suspended r;
     pv_write_suspended := pv_write_suspended r; pv_connecting := pv_connecting r;
     pv_connection_refused := pv_connection_refused r; pv_refcnt := pv_refcnt r; pv_dns_error := v;
     pv_readcb_pending := pv_readcb_pending r; pv_writecb_pending := pv_writecb_pending r;
     pv_eventcb_pending := pv_eventcb_pending r; pv_queued := pv_queued r |}).
Definition set_readcb_pending (v : bool) : Bufferevent → Bufferevent :=
  upd_priv (λ r, {| pv_enabled := pv_enabled r; pv_read_suspended := pv_read_suspended r;
     pv_write_suspended := pv_write_suspended r; pv_connecting := pv_connecting r;
     pv_connection_refused := pv_connection_refused r; pv_refcnt := pv_refcnt r;
     pv_dns_error := pv_dns_error r; pv_readcb_pending := v; pv_writecb_pending := pv_writecb_pending r;
     pv_eventcb_pending := pv_eventcb_pending r; pv_queued := pv_queued r |}).
Definition set_writecb_pending (v : bool) : Bufferevent → Bufferevent :=
  upd_priv (λ r, {| pv_enabled := pv_enabled r; pv_read_suspended := pv_read_suspended r;
     pv_write_suspended := pv_write_suspended r; pv_connecting := pv_connecting r;
     pv_connection_refused := pv_connection_refused r; pv_refcnt := pv_refcnt r;
     pv_dns_error := pv_dns_error r; pv_readcb_pending := pv_readcb_pending r; pv_writecb_pending := v;
     pv_eventcb_pending := pv_eventcb_pending r; pv_queued := pv_queued r |}).
Definition set_eventcb_pending (v : Z) : Bufferevent → Bufferevent :=
  upd_priv (λ r, {| pv_enabled := pv_enabled r; pv_read_suspended := pv_read_suspended r;
     pv_write_suspended := pv_write_suspended r; pv_connecting := pv_connecting r;
     pv_connection_refused := pv_connection_refused r; pv_refcnt := pv_refcnt r;
     pv_dns_error := pv_dns_error r; pv_readcb_pending := pv_readcb_pending r;
     pv_writecb_pending := pv_writecb_pending r; pv_eventcb_pending := v; pv_queued := pv_queued r |}).
Definition set_queued (v : bool) : Bufferevent → Bufferevent :=
  upd_priv (λ r, {| pv_enabled := pv_enabled r; pv_read_suspended := pv_read_suspended r;
     pv_write_suspended := pv_write_suspended r; pv_connecting := pv_connecting r;
     pv_connection_refused := pv_connection_refused r; pv_refcnt := pv_refcnt r;
     pv_dns_error := pv_dns_error r; pv_readcb_pending := pv_readcb_pending r;
     pv_writecb_pending := pv_writecb_pending r; pv_eventcb_pending := pv_eventcb_pending r; pv_queued := v |}).
Definition set_freed (v : bool) : Bufferevent → Bufferevent :=
  upd_log (λ r, {| lg_freed := v; lg_closed := lg_closed r; lg_calls := lg_calls r; lg_received := lg_received r;
     lg_consumed := lg_consumed r; lg_submitted := lg_submitted r; lg_sent := lg_sent r |}).
Definition set_closed (v : list Z) : Bufferevent → Bufferevent :=
  upd_log (λ r, {| lg_freed := lg_freed r; lg_closed := v; lg_calls := lg_calls r; lg_received := lg_received r;
     lg_consumed := lg_consumed r; lg_submitted := lg_submitted r; lg_sent := lg_sent r |}).
Definition set_calls (v : list BevCall) : Bufferevent → Bufferevent :=
  upd_log (λ r, {| lg_freed := lg_freed r; lg_closed := lg_closed r; lg_calls := v; lg_received := lg_received r;
     lg_consumed := lg_consumed r; lg_submitted := lg_submitted r; lg_sent := lg_sent r |}).
Definition set_received (v : list byte) : Bufferevent → Bufferevent :=
  upd_log (λ r, {| lg_freed := lg_freed r; lg_closed := lg_closed r; lg_calls := lg_calls r; lg_received := v;
     lg_consumed := lg_consumed r; lg_submitted := lg_submitted r; lg_sent := lg_sent r |}).
Definition set_consumed (v : list byte) : Bufferevent → Bufferevent :=
  upd_log (λ r, {| lg_freed := lg_freed r; lg_closed := lg_closed r; lg_calls := lg_calls r; lg_received := lg_received r;
     lg_consumed := v; lg_submitted := lg_submitted r; lg_sent := lg_sent r |}).
Definition set_submitted (v : list byte) : Bufferevent → Bufferevent :=
  upd_log (λ r, {| lg_freed := lg_freed r; lg_closed := lg_closed r; lg_calls := lg_calls r; lg_received := lg_received r;
     lg_consumed := lg_consumed r; lg_submitted := v; lg_sent := lg_sent r |}).
Definition set_sent (v : list byte) : Bufferevent → Bufferevent :=
  upd_log (λ r, {| lg_freed := lg_freed r; lg_closed := lg_closed r; lg_calls := lg_calls r; lg_received := lg_received r;
     lg_consumed := lg_consumed r; lg_submitted := lg_submitted r; lg_sent := v |}).
