(* ===== verification/Bufev.v ===== *)
(** Socket bufferevents: bufferevent.c and bufferevent_sock.c of libevent 2.0.21.

    The operations of [be_ops] for sockets, enabling and suspending, watermarks,
    the callbacks of the two events, connecting, deferred callbacks and reference
    counts, as functions on [Bufferevent].  The program's own callbacks are a
    strategy [user]: the calls it makes on the bufferevent, decided from its state. *)

From S2P Require Import Prelude EvFlags EvbufferApi BufChain BufOps BufRefine BufExpand BufevData.

(** What the program may do with a bufferevent from a callback. *)
Inductive user_op :=
  | UWrite (data : list byte)
  | URead (n : Z)
  | UEnable (event : Z)
  | UDisable (event : Z)
  | UWatermark (events low high : Z)
  | UTimeouts (tv_read tv_write : option (Z * Z))
  | USetcb (read write event : bool)
  | UFree.

(** The evbuffer callbacks a bufferevent installs. *)
Definition OUTBUF_CB : nat := 0.
Definition INBUF_WM_CB : nat := 1.

Section bufferevent.
Context `{Malloc}.
(** Whether the base can add an event of a kind, and the program. *)
Context (add_ok : Z → bool) (user : BevCall → Bufferevent → list user_op).

(** ** Events *)

Definition event_assign (fd : Z) : Event := {| ev_fd := fd; ev_added := false; ev_active := false; ev_tv := None |}.
Definition event_add (kind : Z) (tv : option (Z * Z)) (e : Event) : Z * Event :=
  if add_ok kind then
    (0, {| ev_fd := ev_fd e; ev_added := true; ev_active := ev_active e;
           ev_tv := match tv with Some _ => tv | None => ev_tv e end |})
  else (-1, e).
Definition event_del (e : Event) : Event := event_assign (ev_fd e).
Definition event_pending (e : Event) : bool := ev_added e || ev_active e.
Definition event_active (e : Event) : Event :=
  {| ev_fd := ev_fd e; ev_added := ev_added e; ev_active := true; ev_tv := ev_tv e |}.

Definition _bufferevent_add_event (kind : Z) (tv : Z * Z) (e : Event) : Z * Event :=
  if (tv.1 =? 0) && (tv.2 =? 0) then event_add kind None e else event_add kind (Some tv) e.

(** ** The operations of sockets *)

Definition add_read (s : Bufferevent) : Z * Bufferevent :=
  let '(r, e) := _bufferevent_add_event EV_READ (timeout_read s) (ev_read s) in (r, set_ev_read e s).
Definition add_write (s : Bufferevent) : Z * Bufferevent :=
  let '(r, e) := _bufferevent_add_event EV_WRITE (timeout_write s) (ev_write s) in (r, set_ev_write e s).
Definition del_read (s : Bufferevent) : Bufferevent := set_ev_read (event_del (ev_read s)) s.
Definition del_write (s : Bufferevent) : Bufferevent := set_ev_write (event_del (ev_write s)) s.

Definition be_socket_enable (event : Z) (s : Bufferevent) : Z * Bufferevent :=
  let '(r, s) := if has event EV_READ then add_read s else (0, s) in
  if r =? -1 then (-1, s)
  else
    let '(r, s) := if has event EV_WRITE then add_write s else (0, s) in
    if r =? -1 then (-1, s) else (0, s).

(** [event_del] on an assigned event succeeds. *)
Definition be_socket_disable (event : Z) (s : Bufferevent) : Z * Bufferevent :=
  let s := if has event EV_READ then del_read s else s in
  let s := if has event EV_WRITE && negb (connecting s) then del_write s else s in
  (0, s).

Definition be_socket_destruct (s : Bufferevent) : Bufferevent :=
  let fd := ev_fd (ev_read s) in
  let s := del_write (del_read s) in
  if has (options s) BEV_OPT_CLOSE_ON_FREE && (fd >=? 0) then set_closed (closed s ++ [fd]) s else s.

Definition be_socket_adj_timeouts (s : Bufferevent) : Z * Bufferevent :=
  let '(r, s) := if event_pending (ev_read s) then add_read s else (0, s) in
  let '(r', s) := if event_pending (ev_write s) then add_write s else (0, s) in
  (if (r <? 0) || (r' <? 0) then -1 else 0, s).

Definition be_socket_flush (s : Bufferevent) : Z := 0.

(** ** Suspending and enabling *)

Definition bufferevent_suspend_read (what : Z) (s : Bufferevent) : Bufferevent :=
  let s := if read_suspended s =? 0 then (be_socket_disable EV_READ s).2 else s in
  set_read_suspended (Z.lor (read_suspended s) what) s.
Definition bufferevent_unsuspend_read (what : Z) (s : Bufferevent) : Bufferevent :=
  let s := set_read_suspended (Z.ldiff (read_suspended s) what) s in
  if (read_suspended s =? 0) && has (enabled s) EV_READ then (be_socket_enable EV_READ s).2 else s.
Definition bufferevent_suspend_write (what : Z) (s : Bufferevent) : Bufferevent :=
  let s := if write_suspended s =? 0 then (be_socket_disable EV_WRITE s).2 else s in
  set_write_suspended (Z.lor (write_suspended s) what) s.
Definition bufferevent_unsuspend_write (what : Z) (s : Bufferevent) : Bufferevent :=
  let s := set_write_suspended (Z.ldiff (write_suspended s) what) s in
  if (write_suspended s =? 0) && has (enabled s) EV_WRITE then (be_socket_enable EV_WRITE s).2 else s.
Definition bufferevent_wm_suspend_read : Bufferevent → Bufferevent := bufferevent_suspend_read BEV_SUSPEND_WM.
Definition bufferevent_wm_unsuspend_read : Bufferevent → Bufferevent := bufferevent_unsuspend_read BEV_SUSPEND_WM.

Definition bufferevent_enable (event : Z) (s : Bufferevent) : Z * Bufferevent :=
  let impl_events := if negb (read_suspended s =? 0) then Z.ldiff event EV_READ else event in
  let impl_events := if negb (write_suspended s =? 0) then Z.ldiff impl_events EV_WRITE else impl_events in
  let s := set_enabled (Z.lor (enabled s) event) s in
  if negb (impl_events =? 0) then
    let '(r, s) := be_socket_enable impl_events s in (if r <? 0 then -1 else 0, s)
  else (0, s).

Definition bufferevent_disable (event : Z) (s : Bufferevent) : Z * Bufferevent :=
  be_socket_disable event (set_enabled (Z.ldiff (enabled s) event) s).
Definition bufferevent_disable_hard (event : Z) (s : Bufferevent) : Z * Bufferevent :=
  be_socket_disable event (set_connecting false (set_enabled (Z.ldiff (enabled s) event) s)).

Definition bufferevent_set_timeouts (tv_read tv_write : option (Z * Z)) (s : Bufferevent) : Z * Bufferevent :=
  let s := set_timeout_read (default (0, 0) tv_read) s in
  let s := set_timeout_write (default (0, 0) tv_write) s in
  be_socket_adj_timeouts s.
Definition bufferevent_settimeout (timeout_read timeout_write : Z) (s : Bufferevent) : Bufferevent :=
  (bufferevent_set_timeouts
     (if timeout_read =? 0 then None else Some (timeout_read, 0))
     (if timeout_write =? 0 then None else Some (timeout_write, 0)) s).2.

(** ** The callbacks on the two buffers *)

Definition bufferevent_socket_outbuf_cb (c : CbCall) (s : Bufferevent) : Bufferevent :=
  if negb (call_n_added c =? 0) && has (enabled s) EV_WRITE && negb (event_pending (ev_write s)) &&
     (write_suspended s =? 0)
  then (add_write s).2 else s.

Definition bufferevent_inbuf_wm_cb (c : CbCall) (s : Bufferevent) : Bufferevent :=
  if eb_total_len (input s) >=? wm_high (wm_read s) then bufferevent_wm_suspend_read s
  else bufferevent_wm_unsuspend_read s.

(** Storing the buffer an operation left, and running the callbacks it invoked. *)
Definition new_calls (before after : Evb) : list CbCall :=
  drop (length (eb_calls (eb_cb before))) (eb_calls (eb_cb after)).
Definition put_output (b : Evb) (s : Bufferevent) : Bufferevent :=
  foldl (λ s c, if (call_cb c =? OUTBUF_CB)%nat then bufferevent_socket_outbuf_cb c s else s)
        (set_output b s) (new_calls (output s) b).
Definition put_input (b : Evb) (s : Bufferevent) : Bufferevent :=
  foldl (λ s c, if (call_cb c =? INBUF_WM_CB)%nat then bufferevent_inbuf_wm_cb c s else s)
        (set_input b s) (new_calls (input s) b).

Definition bufferevent_setwatermark (events lowmark highmark : Z) (s : Bufferevent) : Bufferevent :=
  let marks := {| wm_low := lowmark; wm_high := highmark |} in
  let s := if has events EV_WRITE then set_wm_write marks s else s in
  if has events EV_READ then
    let s := set_wm_read marks s in
    if negb (highmark =? 0) then
      let s := if read_watermarks_cb s then s
               else set_read_watermarks_cb true (set_input (evbuffer_add_cb INBUF_WM_CB (input s)) s) in
      let s := set_input (evbuffer_cb_set_flags INBUF_WM_CB
                            (Z.lor EVBUFFER_CB_ENABLED EVBUFFER_CB_NODEFER) (input s)) s in
      if eb_total_len (input s) >? highmark then bufferevent_wm_suspend_read s
      else if eb_total_len (input s) <? highmark then bufferevent_wm_unsuspend_read s
      else s
    else
      let s := if read_watermarks_cb s
               then set_input (evbuffer_cb_clear_flags INBUF_WM_CB EVBUFFER_CB_ENABLED (input s)) s else s in
      bufferevent_wm_unsuspend_read s
  else s.

(** ** Reference counts *)

Definition _bufferevent_incref_and_lock (s : Bufferevent) : outcome Bufferevent :=
  if freed s then Undef UseAfterFree else Val (set_refcnt (refcnt s + 1) s).

Definition _bufferevent_decref_and_unlock (s : Bufferevent) : outcome Bufferevent :=
  if refcnt s >? 0 then
    let s := set_refcnt (refcnt s - 1) s in
    if negb (refcnt s =? 0) then Val s else Val (set_freed true (be_socket_destruct s))
  else Undef AssertFail.

Definition bufferevent_setcb (r w e : bool) (s : Bufferevent) : Bufferevent :=
  set_readcb r (set_writecb w (set_errorcb e s)).
Definition bufferevent_free (s : Bufferevent) : outcome Bufferevent :=
  if freed s then Undef UseAfterFree
  else _bufferevent_decref_and_unlock (bufferevent_setcb false false false s).

(** ** Reading and writing by the program *)

Definition bufferevent_write (data : list byte) (s : Bufferevent) : outcome (Z * Bufferevent) :=
  '(r, b) ← Buf.evbuffer_add data (output s);
  let s := put_output b s in
  if r =? -1 then Val (-1, s) else Val (0, set_submitted (submitted s ++ data) s).

Definition bufferevent_write_buffer (buf : Evb) (s : Bufferevent) : outcome (Z * Evb * Bufferevent) :=
  let data := bytes buf in
  '(r, b, buf) ← Buf.evbuffer_add_buffer (output s) buf;
  let s := put_output b s in
  if r =? -1 then Val (-1, buf, s) else Val (0, buf, set_submitted (submitted s ++ data) s).

Definition bufferevent_read (size : Z) (s : Bufferevent) : outcome (Z * list byte * Bufferevent) :=
  '(r, data, b) ← Buf.evbuffer_remove size (input s);
  let s := put_input b s in
  Val (r, data, set_consumed (consumed s ++ data) s).

Definition bufferevent_read_buffer (buf : Evb) (s : Bufferevent) : outcome (Z * Evb * Bufferevent) :=
  let data := bytes (input s) in
  '(r, buf, b) ← Buf.evbuffer_add_buffer buf (input s);
  let s := put_input b s in
  Val (r, buf, if r =? 0 then set_consumed (consumed s ++ data) s else s).

(** ** User callbacks *)

(** The program does not touch a bufferevent it has freed. *)
Fixpoint run_user (ops : list user_op) (s : Bufferevent) : outcome Bufferevent :=
  match ops with
  | [] => Val s
  | UWrite data :: ops => '(_, s) ← bufferevent_write data s; run_user ops s
  | URead n :: ops => '(_, _, s) ← bufferevent_read n s; run_user ops s
  | UEnable e :: ops => run_user ops (bufferevent_enable e s).2
  | UDisable e :: ops => run_user ops (bufferevent_disable e s).2
  | UWatermark e low high :: ops => run_user ops (bufferevent_setwatermark e low high s)
  | UTimeouts r w :: ops => run_user ops (bufferevent_set_timeouts r w s).2
  | USetcb r w e :: ops => run_user ops (bufferevent_setcb r w e s)
  | UFree :: _ => bufferevent_free s
  end.

Definition call_user (k : BevCall) (s : Bufferevent) : outcome Bufferevent :=
  run_user (user k s) (set_calls (calls s ++ [k]) s).

(** [SCHEDULE_DEFERRED]. *)
Definition schedule_deferred (s : Bufferevent) : Bufferevent :=
  if queued s then s else set_queued true (set_refcnt (refcnt s + 1) s).

Definition _bufferevent_run_readcb (s : Bufferevent) : outcome Bufferevent :=
  if negb (readcb s) then Val s
  else if has (options s) BEV_OPT_DEFER_CALLBACKS then Val (schedule_deferred (set_readcb_pending true s))
  else call_user CallRead s.
Definition _bufferevent_run_writecb (s : Bufferevent) : outcome Bufferevent :=
  if negb (writecb s) then Val s
  else if has (options s) BEV_OPT_DEFER_CALLBACKS then Val (schedule_deferred (set_writecb_pending true s))
  else call_user CallWrite s.
Definition _bufferevent_run_eventcb (what : Z) (s : Bufferevent) : outcome Bufferevent :=
  if negb (errorcb s) then Val s
  else if has (options s) BEV_OPT_DEFER_CALLBACKS then
    Val (schedule_deferred (set_eventcb_pending (Z.lor (eventcb_pending s) what) s))
  else call_user (CallEvent what) s.

(** The deferred entry, taken off the queue. *)
Definition bufferevent_run_deferred_callbacks (s : Bufferevent) : outcome Bufferevent :=
  let s := set_queued false s in
  s ← (if has (eventcb_pending s) BEV_EVENT_CONNECTED && errorcb s then
         call_user (CallEvent BEV_EVENT_CONNECTED)
           (set_eventcb_pending (Z.ldiff (eventcb_pending s) BEV_EVENT_CONNECTED) s)
       else Val s);
  s ← (if readcb_pending s && readcb s then call_user CallRead (set_readcb_pending false s) else Val s);
  s ← (if writecb_pending s && writecb s then call_user CallWrite (set_writecb_pending false s) else Val s);
  s ← (if negb (eventcb_pending s =? 0) && errorcb s then
         call_user (CallEvent (eventcb_pending s)) (set_eventcb_pending 0 s)
       else Val s);
  _bufferevent_decref_and_unlock s.

(** ** The callbacks of the two events *)

Definition read_error (what : Z) (s : Bufferevent) : outcome Bufferevent :=
  _bufferevent_run_eventcb what (bufferevent_disable EV_READ s).2.
Definition write_error (what : Z) (s : Bufferevent) : outcome Bufferevent :=
  _bufferevent_run_eventcb what (bufferevent_disable EV_WRITE s).2.

(** [readable], [rd]: see [evbuffer_read]; [retriable] tells whether the error is
    EINTR or EAGAIN. *)
Definition read_some (readable : Z) (rd : option (list byte)) (retriable : bool) (howmuch : Z) (s : Bufferevent)
  : outcome Bufferevent :=
  '(res, b) ← evbuffer_read readable rd (i32 howmuch) (evbuffer_unfreeze false (input s));
  let s := put_input (evbuffer_freeze false b) s in
  let s := set_received (received s ++ ztake res (default [] rd)) s in
  if res =? -1 then
    if retriable then Val s else read_error (Z.lor BEV_EVENT_READING BEV_EVENT_ERROR) s
  else if res =? 0 then read_error (Z.lor BEV_EVENT_READING BEV_EVENT_EOF) s
  else if res <=? 0 then read_error BEV_EVENT_READING s
  else if eb_total_len (input s) >=? wm_low (wm_read s) then _bufferevent_run_readcb s
  else Val s.

Definition bufferevent_readcb (event readable : Z) (rd : option (list byte)) (retriable : bool) (s : Bufferevent)
  : outcome Bufferevent :=
  s ← _bufferevent_incref_and_lock s;
  s ← (if event =? EV_TIMEOUT then read_error (Z.lor BEV_EVENT_READING BEV_EVENT_TIMEOUT) s
       else
         let high := wm_high (wm_read s) in
         let howmuch := if negb (high =? 0) then i64 (high - eb_total_len (input s)) else -1 in
         if negb (high =? 0) && (howmuch <=? 0) then Val (bufferevent_wm_suspend_read s)
         else
           let howmuch := if (howmuch <? 0) || (howmuch >? MAX_TO_READ_EVER) then MAX_TO_READ_EVER else howmuch in
           if negb (read_suspended s =? 0) then Val s
           else read_some readable rd retriable howmuch s);
  _bufferevent_decref_and_unlock s.

(** The part of [bufferevent_writecb] for a bufferevent that is connecting;
    [finished] is the result of [evutil_socket_finished_connecting].  Whether to go
    on writing, and whether the connection was just made. *)
Definition write_connecting (finished : Z) (s : Bufferevent) : outcome (bool * bool * Bufferevent) :=
  let '(c, s) := if connection_refused s then (-1, set_connection_refused false s) else (finished, s) in
  if c =? 0 then Val (false, false, s)
  else
    let s := set_connecting false s in
    if c <? 0 then
      s ← _bufferevent_run_eventcb BEV_EVENT_ERROR (del_read (del_write s));
      Val (false, false, s)
    else
      s ← _bufferevent_run_eventcb BEV_EVENT_CONNECTED s;
      if negb (has (enabled s) EV_WRITE) || negb (write_suspended s =? 0) then Val (false, true, del_write s)
      else Val (true, true, s).

Definition after_write (res : Z) (connected : bool) (s : Bufferevent) : outcome Bufferevent :=
  let s := if eb_total_len (output s) =? 0 then del_write s else s in
  if (negb (res =? 0) || negb connected) && (eb_total_len (output s) <=? wm_low (wm_write s))
  then _bufferevent_run_writecb s else Val s.

(** [wr], [sf]: see [evbuffer_write_atmost]. *)
Definition write_some (wr : list byte → Z) (sf : Z → Z → Z * bool) (retriable connected : bool) (s : Bufferevent)
  : outcome Bufferevent :=
  if negb (write_suspended s =? 0) then Val s
  else if negb (eb_total_len (output s) =? 0) then
    '(res, took, b) ← evbuffer_write_atmost wr sf MAX_TO_WRITE_EVER (evbuffer_unfreeze true (output s));
    let s := put_output (evbuffer_freeze true b) s in
    let s := set_sent (sent s ++ took) s in
    if (res =? -1) && retriable then Val (if eb_total_len (output s) =? 0 then del_write s else s)
    else if res <=? 0 then
      write_error (Z.lor BEV_EVENT_WRITING
                     (if res =? -1 then BEV_EVENT_ERROR else if res =? 0 then BEV_EVENT_EOF else 0)) s
    else after_write res connected s
  else after_write 0 connected s.

Definition bufferevent_writecb (event finished : Z) (wr : list byte → Z) (sf : Z → Z → Z * bool) (retriable : bool)
    (s : Bufferevent) : outcome Bufferevent :=
  s ← _bufferevent_incref_and_lock s;
  s ← (if event =? EV_TIMEOUT then write_error (Z.lor BEV_EVENT_WRITING BEV_EVENT_TIMEOUT) s
       else
         '(go, connected, s) ← (if connecting s then write_connecting finished s else Val (true, false, s));
         if go : bool then write_some wr sf retriable connected s else Val s);
  _bufferevent_decref_and_unlock s.

(** ** Making, connecting and redirecting *)

Definition empty_log : BevLog :=
  {| lg_freed := false; lg_closed := []; lg_calls := []; lg_received := []; lg_consumed := [];
     lg_submitted := []; lg_sent := [] |}.

(** [bufferevent_init_common] on zeroed memory; [None] when a buffer cannot be
    allocated or the options are inconsistent. *)
Definition bufferevent_init_common (mem_ok : bool) (options : Z) : option Bufferevent :=
  if negb mem_ok then None
  else if has options BEV_OPT_UNLOCK_CALLBACKS && negb (has options BEV_OPT_DEFER_CALLBACKS) then None
  else
    Some {| bv_io := {| io_input := evbuffer_new; io_output := evbuffer_new;
                        io_ev_read := event_assign (-1); io_ev_write := event_assign (-1) |};
            bv_conf := {| cf_timeout_read := (0, 0); cf_timeout_write := (0, 0);
                          cf_wm_read := {| wm_low := 0; wm_high := 0 |};
                          cf_wm_write := {| wm_low := 0; wm_high := 0 |};
                          cf_readcb := false; cf_writecb := false; cf_errorcb := false;
                          cf_options := options; cf_read_watermarks_cb := false |};
            bv_priv := {| pv_enabled := EV_WRITE; pv_read_suspended := 0; pv_write_suspended := 0;
                          pv_connecting := false; pv_connection_refused := false; pv_refcnt := 1;
                          pv_dns_error := 0; pv_readcb_pending := false; pv_writecb_pending := false;
                          pv_eventcb_pending := 0; pv_queued := false |};
            bv_log := empty_log |}.

Definition EVBUFFER_FLAG_DRAINS_TO_FD : Z := 1.

Definition bufferevent_socket_new (mem_ok : bool) (fd options : Z) : option Bufferevent :=
  s ← bufferevent_init_common mem_ok options;
  let s := set_output (evbuffer_set_flags EVBUFFER_FLAG_DRAINS_TO_FD (output s)).2 s in
  let s := set_ev_read (event_assign fd) (set_ev_write (event_assign fd) s) in
  let s := set_output (evbuffer_add_cb OUTBUF_CB (output s)) s in
  let s := set_input (evbuffer_freeze false (input s)) s in
  Some (set_output (evbuffer_freeze true (output s)) s).

Definition bufferevent_new (mem_ok : bool) (fd : Z) (r w e : bool) : option Bufferevent :=
  s ← bufferevent_socket_new mem_ok fd 0; Some (bufferevent_setcb r w e s).

Definition be_socket_setfd (fd : Z) (s : Bufferevent) : Bufferevent :=
  let s := set_ev_read (event_assign fd) (set_ev_write (event_assign fd) s) in
  if fd >=? 0 then (bufferevent_enable (enabled s) s).2 else s.
Definition bufferevent_getfd (s : Bufferevent) : Z := ev_fd (ev_read s).

(** [bufferevent_socket_connect]: [sa] tells whether an address is given, [sock] is
    the result of [socket], [nonblock] of making it non-blocking, [conn] of
    [evutil_socket_connect] (-1 error, 0 in progress, 1 connected, 2 refused). *)
Definition bufferevent_socket_connect (sa : bool) (sock : option Z) (nonblock : bool) (conn : Z) (s : Bufferevent)
  : outcome (Z * Bufferevent) :=
  s ← _bufferevent_incref_and_lock s;
  '(result, s) ←
    (let fd := bufferevent_getfd s in
     let target := if fd <? 0 then
                     if sa then match sock with
                                | Some fd => if nonblock then Some (fd, true) else None
                                | None => None
                                end
                     else None
                   else Some (fd, false) in
     match target with
     | None => Val (-1, s)
     | Some (fd, ownfd) =>
         let r := if sa then conn else 0 in
         if sa && (r <? 0) then
           s ← _bufferevent_run_eventcb BEV_EVENT_ERROR s;
           Val (-1, if (ownfd : bool) then set_closed (closed s ++ [fd]) s else s)
         else
           let s := be_socket_setfd fd s in
           if r =? 0 then
             let '(e, s) := be_socket_enable EV_WRITE s in
             if e =? 0 then Val (0, set_connecting true s) else Val (-1, s)
           else
             let s := if r =? 1 then s else set_connection_refused true s in
             let s := set_connecting true s in
             Val (0, set_ev_write (event_active (ev_write s)) s)
     end);
  s ← _bufferevent_decref_and_unlock s;
  Val (result, s).

(** [bufferevent_socket_connect_hostname] with the result [err] of starting the
    lookup, and the callback at its end with [result] (0 and an address, or an error). *)
Definition bufferevent_socket_connect_hostname (family_ok : bool) (port err : Z) (s : Bufferevent) : Z * Bufferevent :=
  if negb family_ok then (-1, s)
  else if (port <? 1) || (port >? 65535) then (-1, s)
  else
    let s := set_dns_error 0 s in
    let s := bufferevent_suspend_read BEV_SUSPEND_LOOKUP (bufferevent_suspend_write BEV_SUSPEND_LOOKUP s) in
    let s := set_refcnt (refcnt s + 1) s in
    if err =? 0 then (0, s)
    else (-1, bufferevent_unsuspend_read BEV_SUSPEND_LOOKUP (bufferevent_unsuspend_write BEV_SUSPEND_LOOKUP s)).

Definition bufferevent_connect_getaddrinfo_cb (result : Z) (sock : option Z) (nonblock : bool) (conn : Z)
    (s : Bufferevent) : outcome Bufferevent :=
  let s := bufferevent_unsuspend_read BEV_SUSPEND_LOOKUP (bufferevent_unsuspend_write BEV_SUSPEND_LOOKUP s) in
  if negb (result =? 0) then
    s ← _bufferevent_run_eventcb BEV_EVENT_ERROR (set_dns_error result s);
    _bufferevent_decref_and_unlock s
  else
    '(_, s) ← bufferevent_socket_connect true sock nonblock conn s;
    _bufferevent_decref_and_unlock s.
End bufferevent.
