(* ===== verification/BufevInv.v ===== *)
(** The invariant of a bufferevent on a connected socket, and what each of its
    operations does to it. *)

From S2P Require Import Prelude EvFlags EvbufferApi BufChain BufOps BufRefine BufExpand BufIo BufNotify BufevData Bufev.

(** ** Flags *)

(** ** The invariant *)

Definition wm_entry (flags : Z) : CbEntry := {| cb_id := INBUF_WM_CB; cb_flags := flags |}.
Definition cb_on (e : CbEntry) : Prop := Z.land (cb_flags e) EVBUFFER_CB_ENABLED = EVBUFFER_CB_ENABLED.

Record bev_core (fd opts n : Z) (s : Bufferevent) : Prop := {
  bc_in : evb_frozen_inv false true (input s);
  bc_out : evb_frozen_inv true false (output s);
  bc_out_tight : writable (output s);
  bc_in_quiet : quiet (input s);
  bc_out_quiet : quiet (output s);
  bc_out_cb : eb_callbacks (eb_cb (output s)) = [{| cb_id := OUTBUF_CB; cb_flags := EVBUFFER_CB_ENABLED |}];
  bc_in_cb : if read_watermarks_cb s
             then ∃ f, eb_callbacks (eb_cb (input s)) = [wm_entry f] ∧
                       (wm_high (wm_read s) ≠ 0 ↔ cb_on (wm_entry f))
             else eb_callbacks (eb_cb (input s)) = [] ∧ wm_high (wm_read s) = 0;
  bc_received : received s = consumed s ++ bytes (input s);
  bc_submitted : submitted s = sent s ++ bytes (output s);
  bc_connected : connecting s = false;
  bc_opts : options s = opts;
  bc_ref : refcnt s = n;
  bc_alive : freed s = false ∧ closed s = [];
  bc_fd : ev_fd (ev_read s) = fd;
  bc_suspended : read_suspended s = 0 ∨ read_suspended s = BEV_SUSPEND_WM;
  bc_write_suspended : write_suspended s = 0;
  bc_reading : event_pending (ev_read s) = has (enabled s) EV_READ && (read_suspended s =? 0);
  bc_high : 0 <= wm_high (wm_read s) < 2 ^ 63
}.

(** Bytes to be written are never forgotten. *)
Definition write_armed (s : Bufferevent) : Prop :=
  bytes (output s) ≠ [] → has (enabled s) EV_WRITE = true → event_pending (ev_write s) = true.

(** Reading is suspended above the high watermark and not below it. *)
Definition wm_ok (s : Bufferevent) : Prop :=
  let high := wm_high (wm_read s) in
  (read_suspended s ≠ 0 → high ≠ 0 ∧ high <= eb_total_len (input s)) ∧
  (high ≠ 0 → high < eb_total_len (input s) → read_suspended s ≠ 0).

Definition bev_ok (fd opts n : Z) (s : Bufferevent) : Prop :=
  bev_core fd opts n s ∧ write_armed s ∧ wm_ok s.

Definition all_added (add_ok : Z → bool) : Prop := ∀ k, add_ok k = true.

(** A state that differs only in what the invariant does not mention. *)
Ltac bev_split H := destruct H; split; try assumption.

Section inv.
Context `{Malloc} (add_ok : Z → bool) (Hadd : all_added add_ok).
Context (fd opts : Z).
Implicit Types (s : Bufferevent) (n : Z).

(** ** Events *)

Lemma add_read_ok s :
  (add_read add_ok s).1 = 0 ∧ ∃ e, (add_read add_ok s).2 = set_ev_read e s ∧
    event_pending e = true ∧ ev_fd e = ev_fd (ev_read s).
Proof.
  unfold add_read, _bufferevent_add_event, event_add. rewrite Hadd.
  destruct (_ && _); cbn; (split; [done|]; eexists; split; [done|done]).
Qed.
Lemma add_write_ok s :
  (add_write add_ok s).1 = 0 ∧ ∃ e, (add_write add_ok s).2 = set_ev_write e s ∧ event_pending e = true.
Proof.
  unfold add_write, _bufferevent_add_event, event_add. rewrite Hadd.
  destruct (_ && _); cbn; (split; [done|]; eexists; split; [done|done]).
Qed.

Lemma set_ev_write_core e n s : bev_core fd opts n s → bev_core fd opts n (set_ev_write e s).
Proof. intros Hs. bev_split Hs. Qed.

(** Replacing the read event, with the flag that says whether it is wanted. *)
Lemma set_reading_core e n s en rs :
  bev_core fd opts n s → ev_fd e = fd → (rs = 0 ∨ rs = BEV_SUSPEND_WM) →
  event_pending e = has en EV_READ && (rs =? 0) →
  bev_core fd opts n (set_read_suspended rs (set_enabled en (set_ev_read e s))).
Proof. intros Hs ???. bev_split Hs. Qed.

(** ** Suspending and resuming *)

Record kept (s s' : Bufferevent) : Prop := {
  kp_input : input s' = input s;
  kp_output : output s' = output s;
  kp_ev_write : ev_write s' = ev_write s;
  kp_enabled : enabled s' = enabled s;
  kp_conf : bv_conf s' = bv_conf s;
  kp_log : bv_log s' = bv_log s
}.

Lemma wm_suspend_ok n s :
  bev_core fd opts n s →
  let s' := bufferevent_wm_suspend_read s in
  bev_core fd opts n s' ∧ read_suspended s' = BEV_SUSPEND_WM ∧ kept s s'.
Proof.
  intros Hs. cbv zeta. unfold bufferevent_wm_suspend_read, bufferevent_suspend_read.
  destruct (Z.eqb_spec (read_suspended s) 0) as [E|E].
  - assert (read_suspended (be_socket_disable EV_READ s).2 = 0) as -> by exact E.
    split; [|by split]. bev_split Hs; [by right|]. cbn. by rewrite andb_false_r.
  - destruct (bc_suspended _ _ _ _ Hs) as [?|E']; [done|]. rewrite E'.
    split; [|by split]. bev_split Hs; [by right|]. rewrite E' in bc_reading0. exact bc_reading0.
Qed.

Lemma wm_unsuspend_ok n s :
  bev_core fd opts n s →
  let s' := bufferevent_wm_unsuspend_read add_ok s in
  bev_core fd opts n s' ∧ read_suspended s' = 0 ∧ kept s s'.
Proof.
  intros Hs. cbv zeta. unfold bufferevent_wm_unsuspend_read, bufferevent_unsuspend_read.
  assert (Z.ldiff (read_suspended s) BEV_SUSPEND_WM = 0) as -> by (by destruct (bc_suspended _ _ _ _ Hs) as [->| ->]).
  cbn [read_suspended set_read_suspended upd_priv bv_priv pv_read_suspended]. cbn [Z.eqb andb].
  change (enabled (set_read_suspended 0 s)) with (enabled s).
  destruct (has (enabled s) EV_READ) eqn:E.
  - unfold be_socket_enable. cbn [has]. change (has EV_READ EV_READ) with true. change (has EV_READ EV_WRITE) with false. cbv iota.
    destruct (add_read_ok (set_read_suspended 0 s)) as (H1 & e & H2 & Hp & Hf).
    destruct (add_read add_ok (set_read_suspended 0 s)) as [r s1]. cbn [fst snd] in H1, H2. subst r s1. cbn [Z.eqb snd].
    split; [|by split]. bev_split Hs; [by rewrite <- bc_fd0|by left|].
    change (event_pending e = has (enabled s) EV_READ && true). by rewrite E, Hp.
  - split; [|by split]. bev_split Hs; [by left|]. rewrite E in bc_reading0. cbn [andb] in bc_reading0.
    change (event_pending (ev_read s) = has (enabled s) EV_READ && true). by rewrite E.
Qed.

Lemma kept_armed s s' : kept s s' → write_armed s → write_armed s'.
Proof. intros [_ E1 E2 E3 _ _] Hw. unfold write_armed. by rewrite E1, E2, E3. Qed.

(** The watermark callback restores what a change of the input's length broke. *)
Lemma inbuf_wm_ok c n s :
  bev_core fd opts n s → wm_high (wm_read s) ≠ 0 →
  let s' := bufferevent_inbuf_wm_cb add_ok c s in bev_core fd opts n s' ∧ wm_ok s' ∧ kept s s'.
Proof.
  intros Hs Hh. cbv zeta. unfold bufferevent_inbuf_wm_cb.
  destruct (Z.geb_spec (eb_total_len (input s)) (wm_high (wm_read s))) as [Hge|Hlt].
  - destruct (wm_suspend_ok n s Hs) as (H1 & H2 & H3). split; [done|]. split; [|done].
    unfold wm_ok, wm_read. rewrite H2, (kp_input _ _ H3), (kp_conf _ _ H3). by split.
  - destruct (wm_unsuspend_ok n s Hs) as (H1 & H2 & H3). split; [done|]. split; [|done].
    unfold wm_ok, wm_read. rewrite H2, (kp_input _ _ H3), (kp_conf _ _ H3). split; [done|].
    unfold wm_read in Hlt. lia.
Qed.

(** ** Storing a buffer *)

(** Callbacks on buffers do not look at what is recorded. *)
Lemma wm_cb_log f c s :
  upd_log f (bufferevent_inbuf_wm_cb add_ok c s) = bufferevent_inbuf_wm_cb add_ok c (upd_log f s).
Proof.
  unfold bufferevent_inbuf_wm_cb. change (input (upd_log f s)) with (input s). change (wm_read (upd_log f s)) with (wm_read s).
  destruct (_ >=? _).
  - unfold bufferevent_wm_suspend_read, bufferevent_suspend_read.
    change (read_suspended (upd_log f s)) with (read_suspended s). by destruct (_ =? 0).
  - unfold bufferevent_wm_unsuspend_read, bufferevent_unsuspend_read.
    change (read_suspended (upd_log f s)) with (read_suspended s).
    set (k := Z.ldiff _ _). change (read_suspended (set_read_suspended k (upd_log f s))) with k.
    change (read_suspended (set_read_suspended k s)) with k.
    change (enabled (set_read_suspended k (upd_log f s))) with (enabled (set_read_suspended k s)).
    destruct (_ && _); [|done]. unfold be_socket_enable, add_read, _bufferevent_add_event, event_add.
    change (has EV_READ EV_READ) with true. change (has EV_READ EV_WRITE) with false. cbv iota. rewrite Hadd.
    change (timeout_read (set_read_suspended k (upd_log f s))) with (timeout_read (set_read_suspended k s)).
    by destruct (_ && _).
Qed.

(** The record of a run that reads and takes bytes of the input only. *)
Definition input_log (f : BevLog → BevLog) (b : Evb) (l : BevLog) : Prop :=
  lg_freed (f l) = lg_freed l ∧ lg_closed (f l) = lg_closed l ∧ lg_calls (f l) = lg_calls l ∧
  lg_submitted (f l) = lg_submitted l ∧ lg_sent (f l) = lg_sent l ∧
  lg_received (f l) = lg_consumed (f l) ++ bytes b.

Lemma set_input_core f b a d n s :
  bev_core fd opts n s → evb_frozen_inv false true b → notified a d (input s) b → input_log f b (bv_log s) →
  bev_core fd opts n (upd_log f (set_input b s)).
Proof.
  intros Hs Hb [N1 N2 _ _ _] (L1 & L2 & L3 & L4 & L5 & L6). bev_split Hs.
  - cbn. by rewrite N2.
  - change (lg_submitted (f (bv_log s)) = lg_sent (f (bv_log s)) ++ bytes (output s)). by rewrite L4, L5.
  - change (lg_freed (f (bv_log s)) = false ∧ lg_closed (f (bv_log s)) = []). by rewrite L1, L2.
Qed.

Lemma new_calls_report a d b b' :
  notified a d b b' → new_calls b b' = report b (eb_total_len b' + d - a) a d.
Proof. intros Hn. unfold new_calls. by rewrite (nt_calls _ _ _ _ Hn), drop_app_length. Qed.

(** Storing the input runs the watermark callback if there is something to tell. *)
Lemma put_input_ok f b a d n s :
  bev_core fd opts n s → wm_ok s → evb_frozen_inv false true b → notified a d (input s) b →
  (a = 0 → d = 0 → eb_total_len b = eb_total_len (input s)) → input_log f b (bv_log s) →
  let s' := upd_log f (put_input add_ok b s) in
  bev_core fd opts n s' ∧ wm_ok s' ∧ kept (upd_log f (set_input b s)) s'.
Proof.
  intros Hs Hw Hb Hn Hsame Hf. cbv zeta. unfold put_input. rewrite (new_calls_report _ _ _ _ Hn).
  pose proof (set_input_core f b a d n s Hs Hb Hn Hf) as Hc. unfold report.
  assert (eb_total_len b = eb_total_len (input s) ∨ wm_high (wm_read s) = 0 → wm_ok (upd_log f (set_input b s))) as Hno.
  { destruct Hw as [W1 W2]. unfold wm_ok. change (input (upd_log f (set_input b s))) with b.
    change (wm_read (upd_log f (set_input b s))) with (wm_read s).
    change (read_suspended (upd_log f (set_input b s))) with (read_suspended s).
    intros [-> | Hz]; [by split|]. split; [intros Hr; by destruct (W1 Hr)|done]. }
  destruct (Z.eqb_spec a 0) as [Ha|Ha], (Z.eqb_spec d 0) as [Hd|Hd]; cbn [andb].
  { split; [done|]. split; [apply Hno; left; by apply Hsame|done]. }
  all: pose proof (bc_in_cb _ _ _ _ Hs) as Hcb; destruct (read_watermarks_cb s).
  all: try (destruct Hcb as [-> Hz]; split; [done|]; split; [by apply Hno; right|done]).
  all: destruct Hcb as (fl & -> & Hon); destruct (decide (wm_high (wm_read s) = 0)) as [Hz|Hz].
  all: try (rewrite filter_cons_False by (intros E; by apply Hon in E); split; [done|]; split; [by apply Hno; right|done]).
  all: rewrite filter_cons_True by (by apply Hon); cbn [filter list_filter fmap list_fmap foldl Nat.eqb call_cb cb_id wm_entry INBUF_WM_CB];
    rewrite wm_cb_log; by apply inbuf_wm_ok.
Qed.

(** The record of a run that fills and empties the output only. *)
Definition output_log (f : BevLog → BevLog) (b : Evb) (l : BevLog) : Prop :=
  lg_freed (f l) = lg_freed l ∧ lg_closed (f l) = lg_closed l ∧ lg_calls (f l) = lg_calls l ∧
  lg_received (f l) = lg_received l ∧ lg_consumed (f l) = lg_consumed l ∧
  lg_submitted (f l) = lg_sent (f l) ++ bytes b.

Lemma set_output_core f b a d n s :
  bev_core fd opts n s → evb_frozen_inv true false b → writable b → notified a d (output s) b →
  output_log f b (bv_log s) → bev_core fd opts n (upd_log f (set_output b s)).
Proof.
  intros Hs Hb Hwb [N1 N2 _ _ _] (L1 & L2 & L3 & L4 & L5 & L6). bev_split Hs.
  - cbn. by rewrite N2.
  - change (lg_received (f (bv_log s)) = lg_consumed (f (bv_log s)) ++ bytes (input s)). by rewrite L4, L5.
  - change (lg_freed (f (bv_log s)) = false ∧ lg_closed (f (bv_log s)) = []). by rewrite L1, L2.
Qed.

Lemma outbuf_cb_log f c s :
  upd_log f (bufferevent_socket_outbuf_cb add_ok c s) = bufferevent_socket_outbuf_cb add_ok c (upd_log f s).
Proof.
  unfold bufferevent_socket_outbuf_cb. change (enabled (upd_log f s)) with (enabled s).
  change (ev_write (upd_log f s)) with (ev_write s). change (write_suspended (upd_log f s)) with (write_suspended s).
  destruct (_ && _); [|done]. unfold add_write, _bufferevent_add_event, event_add.
  change (timeout_write (upd_log f s)) with (timeout_write s). rewrite Hadd. by destruct (_ && _).
Qed.

(** Bytes were added: the write event is armed if it is wanted. *)
Lemma outbuf_added_ok c n s :
  bev_core fd opts n s → call_n_added c ≠ 0 →
  let s' := bufferevent_socket_outbuf_cb add_ok c s in
  bev_core fd opts n s' ∧ write_armed s' ∧ (s' = s ∨ ∃ e, s' = set_ev_write e s).
Proof.
  intros Hs Hc. cbv zeta. unfold bufferevent_socket_outbuf_cb. destruct (Z.eqb_spec (call_n_added c) 0); [done|].
  rewrite (bc_write_suspended _ _ _ _ Hs). cbn [negb andb Z.eqb]. rewrite andb_true_r.
  destruct (has (enabled s) EV_WRITE) eqn:He; cbn [andb]; [|split; [done|]; split; [intros _ ?; congruence|by left]].
  destruct (event_pending (ev_write s)) eqn:Hp; cbn [negb]; [split; [done|]; split; [by intros _ _|by left]|].
  destruct (add_write_ok s) as (_ & e & -> & Hpe). split; [by apply set_ev_write_core|].
  split; [by intros _ _|right; by exists e].
Qed.

(** Storing the output arms the write event if bytes were added. *)
Lemma put_output_ok f b a d n s :
  bev_core fd opts n s → write_armed s → evb_frozen_inv true false b → writable b → notified a d (output s) b →
  (a = 0 → bytes b ≠ [] → bytes (output s) ≠ []) → output_log f b (bv_log s) →
  let s' := upd_log f (put_output add_ok b s) in
  bev_core fd opts n s' ∧ write_armed s' ∧
    (s' = upd_log f (set_output b s) ∨ ∃ e, s' = set_ev_write e (upd_log f (set_output b s))).
Proof.
  intros Hs Hw Hb Hwb Hn Hsame Hf. cbv zeta. unfold put_output. rewrite (new_calls_report _ _ _ _ Hn).
  pose proof (set_output_core f b a d n s Hs Hb Hwb Hn Hf) as Hc. unfold report. rewrite (bc_out_cb _ _ _ _ Hs).
  assert (a = 0 → write_armed (upd_log f (set_output b s))) as Hno.
  { intros Ha Hb1 He. apply Hw; [by apply Hsame|done]. }
  destruct ((a =? 0) && (d =? 0)) eqn:Ez.
  { apply andb_true_iff in Ez as [Ha%Z.eqb_eq _]. split; [done|]. split; [by apply Hno|by left]. }
  rewrite filter_cons_True by done. cbn [filter list_filter fmap list_fmap foldl Nat.eqb call_cb cb_id OUTBUF_CB].
  rewrite outbuf_cb_log. destruct (decide (a = 0)) as [Ha|Ha]; [|by apply outbuf_added_ok].
  unfold bufferevent_socket_outbuf_cb. cbn [call_n_added]. destruct (Z.eqb_spec a 0); [|done]. cbn [negb andb].
  split; [done|]. split; [by apply Hno|by left].
Qed.

(** ** Calls of the program *)

Lemma upd_log_id s : upd_log (λ l, l) s = s.
Proof. by destruct s. Qed.

Lemma outbuf_cb_keeps_log c s : bv_log (bufferevent_socket_outbuf_cb add_ok c s) = bv_log s.
Proof.
  unfold bufferevent_socket_outbuf_cb. destruct (_ && _); [|done]. destruct (add_write_ok s) as (_ & e & -> & _). done.
Qed.
Lemma wm_cb_keeps_log c s : bv_log (bufferevent_inbuf_wm_cb add_ok c s) = bv_log s.
Proof.
  unfold bufferevent_inbuf_wm_cb. destruct (_ >=? _).
  - unfold bufferevent_wm_suspend_read, bufferevent_suspend_read. by destruct (_ =? 0).
  - unfold bufferevent_wm_unsuspend_read, bufferevent_unsuspend_read. destruct (_ && _); [|done].
    unfold be_socket_enable. change (has EV_READ EV_READ) with true. change (has EV_READ EV_WRITE) with false. cbv iota.
    set (s1 := set_read_suspended _ _). destruct (add_read_ok s1) as (H1 & e & H2 & _).
    destruct (add_read add_ok s1) as [r s2]. cbn in H1, H2. by subst.
Qed.
Lemma put_output_log b s : bv_log (put_output add_ok b s) = bv_log s.
Proof.
  unfold put_output. change (bv_log s) with (bv_log (set_output b s)). generalize (set_output b s).
  induction (new_calls (output s) b) as [|c cs IH]; intros s0; [done|]. cbn [foldl]. rewrite IH.
  destruct (_ =? _)%nat; [apply outbuf_cb_keeps_log|done].
Qed.
Lemma put_input_log b s : bv_log (put_input add_ok b s) = bv_log s.
Proof.
  unfold put_input. change (bv_log s) with (bv_log (set_input b s)). generalize (set_input b s).
  induction (new_calls (input s) b) as [|c cs IH]; intros s0; [done|]. cbn [foldl]. rewrite IH.
  destruct (_ =? _)%nat; [apply wm_cb_keeps_log|done].
Qed.

(** After the output was stored: the watermark side is as before. *)
Lemma put_output_wm f b s s' :
  s' = upd_log f (set_output b s) ∨ (∃ e, s' = set_ev_write e (upd_log f (set_output b s))) → wm_ok s → wm_ok s'.
Proof. by intros [->|[e ->]]. Qed.

Lemma write_op_ok data n s :
  bev_ok fd opts n s → Zlen data <= evb_limit →
  ∃ r s', bufferevent_write add_ok data s = Val (r, s') ∧ bev_ok fd opts n s' ∧
    (r = 0 ∧ submitted s' = submitted s ++ data ∨ r = -1 ∧ submitted s' = submitted s).
Proof.
  intros (Hs & Hw & Hwm) Hd. unfold bufferevent_write.
  destruct (frozen_add_spec data (output s)) as (r & b & -> & Hb & Hwb & Hr); [apply Hs..|done|].
  cbn [mbind outcome_bind]. assert (submitted (put_output add_ok b s) = submitted s) as Hsub.
  { unfold submitted. by rewrite put_output_log. }
  rewrite Hsub. pose proof (bc_submitted _ _ _ _ Hs) as Hss. unfold submitted, sent in Hss.
  destruct Hr as [(-> & Hbs & Hn)|(-> & Hbs & Hn)]; cbn [Z.eqb]; eexists _, _; (split; [reflexivity|]).
  - split; [|by left]. unfold set_submitted.
    match goal with |- bev_ok _ _ _ (upd_log ?f _) => destruct (put_output_ok f b (Zlen data) 0 n s) as (H1 & H2 & H3) end;
      try done.
    + intros E%Zlen_0_inv. by rewrite Hbs, E, app_nil_r.
    + unfold output_log. cbn. unfold submitted. rewrite Hss, Hbs. by rewrite app_assoc.
    + split; [done|]. split; [done|]. by eapply put_output_wm.
  - rewrite <- (upd_log_id (put_output _ _ _)). split; [|right; split; [done|]; exact Hsub].
    destruct (put_output_ok (λ l, l) b 0 0 n s) as (H1 & H2 & H3); try done.
    + intros _. by rewrite Hbs.
    + unfold output_log. by rewrite Hbs.
    + split; [done|]. split; [done|]. by eapply put_output_wm.
Qed.

Lemma read_op_ok k n s :
  bev_ok fd opts n s → 0 <= k →
  ∃ r s', bufferevent_read add_ok k s = Val (r, ztake k (bytes (input s)), s') ∧ bev_ok fd opts n s' ∧
    consumed s' = consumed s ++ ztake k (bytes (input s)).
Proof.
  intros (Hs & Hw & Hwm) Hk. unfold bufferevent_read.
  destruct (frozen_remove_spec k (input s)) as (b & -> & Hb & Hbs & Hn); [apply Hs..|done|].
  cbn [mbind outcome_bind]. assert (consumed (put_input add_ok b s) = consumed s) as -> by (unfold consumed; by rewrite put_input_log).
  eexists _, _. split; [reflexivity|]. split; [|done]. unfold set_consumed.
  match goal with |- bev_ok _ _ _ (upd_log ?f _) => destruct (put_input_ok f b 0 (eb_total_len (input s) - eb_total_len b) n s)
    as (H1 & H2 & H3) end; try done.
  - lia.
  - unfold input_log. cbn. pose proof (bc_received _ _ _ _ Hs) as E. unfold received, consumed in E.
    rewrite E, Hbs, <- app_assoc. by rewrite ztake_zdrop.
  - split; [done|]. split; [|done]. by eapply kept_armed.
Qed.

Lemma set_ev_read_id s : set_ev_read (ev_read s) s = s.
Proof. by destruct s as [[] ? ? ?]. Qed.
Lemma set_ev_write_id s : set_ev_write (ev_write s) s = s.
Proof. by destruct s as [[] ? ? ?]. Qed.

Lemma socket_enable_ok e s :
  ∃ er ew, be_socket_enable add_ok e s = (0, set_ev_write ew (set_ev_read er s)) ∧ ev_fd er = ev_fd (ev_read s) ∧
    event_pending er = event_pending (ev_read s) || has e EV_READ ∧
    event_pending ew = event_pending (ev_write s) || has e EV_WRITE.
Proof.
  unfold be_socket_enable.
  assert (∃ er, (if has e EV_READ then add_read add_ok s else (0, s)) = (0, set_ev_read er s) ∧ ev_fd er = ev_fd (ev_read s) ∧
    event_pending er = event_pending (ev_read s) || has e EV_READ) as (er & -> & Hf & Hp).
  { destruct (has e EV_READ).
    - destruct (add_read_ok s) as (H1 & er & H2 & Hp & Hf). exists er. split; [|by rewrite Hp, orb_true_r].
      destruct (add_read add_ok s). cbn in *. by subst.
    - exists (ev_read s). by rewrite set_ev_read_id, orb_false_r. }
  cbn [Z.eqb]. set (s1 := set_ev_read er s). exists er.
  destruct (has e EV_WRITE).
  - destruct (add_write_ok s1) as (H1 & ew & H2 & Hpw). exists ew. split; [|by rewrite Hpw, orb_true_r].
    destruct (add_write add_ok s1). cbn in *. by subst.
  - exists (ev_write s1). by rewrite set_ev_write_id, orb_false_r.
Qed.

Lemma socket_enable_none s : be_socket_enable add_ok 0 s = (0, s).
Proof. done. Qed.

(** New events, a new set of enabled events: consistent ones. *)
Lemma events_core er ew en n s :
  bev_core fd opts n s → ev_fd er = fd →
  event_pending er = has en EV_READ && (read_suspended s =? 0) →
  bev_core fd opts n (set_ev_write ew (set_ev_read er (set_enabled en s))).
Proof. intros Hs ??. bev_split Hs. Qed.

Lemma enable_op_ok e n s : bev_ok fd opts n s → bev_ok fd opts n (bufferevent_enable add_ok e s).2.
Proof.
  intros (Hs & Hw & Hwm). unfold bufferevent_enable. rewrite (bc_write_suspended _ _ _ _ Hs). cbn [Z.eqb negb].
  set (i := if negb (read_suspended s =? 0) then Z.ldiff e EV_READ else e). set (s1 := set_enabled (Z.lor (enabled s) e) s).
  assert ((if negb (i =? 0) then let '(r, s0) := be_socket_enable add_ok i s1 in (if r <? 0 then -1 else 0, s0) else (0, s1)).2 =
    (be_socket_enable add_ok i s1).2) as ->.
  { destruct (Z.eqb_spec i 0) as [->|]; [done|]. by destruct (be_socket_enable add_ok i s1). }
  assert (has i EV_READ = has e EV_READ && (read_suspended s =? 0)) as Hir.
  { unfold i. rewrite !has_read. destruct (_ =? 0); cbn [negb]; [by rewrite andb_true_r|].
    rewrite Z.ldiff_spec. by destruct (Z.testbit e 1). }
  assert (has i EV_WRITE = has e EV_WRITE) as Hiw.
  { unfold i. rewrite !has_write. destruct (_ =? 0); [done|]. cbn [negb]. rewrite Z.ldiff_spec. by destruct (Z.testbit e 2). }
  destruct (socket_enable_ok i s1) as (er & ew & -> & Hf & Hpr & Hpw). cbn [snd].
  change (ev_read s1) with (ev_read s) in *. change (ev_write s1) with (ev_write s) in *.
  split; [|split; [|done]].
  - apply events_core; [done|rewrite Hf; apply Hs|]. rewrite Hpr, (bc_reading _ _ _ _ Hs), Hir, !has_read, Z.lor_spec.
    destruct (Z.testbit (enabled s) 1), (Z.testbit e 1), (read_suspended s =? 0); done.
  - intros Hne He. change (event_pending ew = true). rewrite Hpw, Hiw.
    change (has (Z.lor (enabled s) e) EV_WRITE = true) in He. rewrite has_write, Z.lor_spec in He.
    rewrite has_write. apply orb_true_iff in He as [He|He]; [|by rewrite He, orb_true_r].
    rewrite Hw; [done|done|by rewrite has_write].
Qed.

Lemma disable_op_ok e n s : bev_ok fd opts n s → bev_ok fd opts n (bufferevent_disable e s).2.
Proof.
  intros (Hs & Hw & Hwm). unfold bufferevent_disable, be_socket_disable. cbn [snd].
  set (s1 := set_enabled (Z.ldiff (enabled s) e) s).
  assert (∃ er, (if has e EV_READ then del_read s1 else s1) = set_ev_read er s1 ∧ ev_fd er = fd ∧
    event_pending er = event_pending (ev_read s) && negb (has e EV_READ)) as (er & -> & Hf & Hp).
  { destruct (has e EV_READ).
    - eexists. split; [done|]. split; [apply Hs|]. by rewrite andb_false_r.
    - exists (ev_read s1). rewrite set_ev_read_id, andb_true_r. split; [done|]. split; [apply Hs|done]. }
  assert (connecting (set_ev_read er s1) = false) as -> by apply Hs. cbn [negb]. rewrite andb_true_r.
  assert (∃ ew, (if has e EV_WRITE then del_write (set_ev_read er s1) else set_ev_read er s1) = set_ev_write ew (set_ev_read er s1) ∧
    (has e EV_WRITE = false → ew = ev_write s)) as (ew & -> & Hew).
  { destruct (has e EV_WRITE); [by eexists|]. exists (ev_write (set_ev_read er s1)). by rewrite set_ev_write_id. }
  split; [|split; [|done]].
  - apply events_core; [done|done|]. rewrite Hp, (bc_reading _ _ _ _ Hs), !has_read, Z.ldiff_spec.
    destruct (Z.testbit (enabled s) 1), (Z.testbit e 1), (read_suspended s =? 0); done.
  - intros Hne He. change (event_pending ew = true). change (has (Z.ldiff (enabled s) e) EV_WRITE = true) in He.
    rewrite has_write, Z.ldiff_spec in He. apply andb_true_iff in He as [He1 He2%negb_true_iff].
    rewrite Hew by (by rewrite has_write). apply Hw; [done|]. by rewrite has_write.
Qed.

Lemma timeouts_op_ok r w n s : bev_ok fd opts n s → bev_ok fd opts n (bufferevent_set_timeouts add_ok r w s).2.
Proof.
  intros (Hs & Hw & Hwm). unfold bufferevent_set_timeouts, be_socket_adj_timeouts.
  set (s1 := set_timeout_write _ _). assert (bev_core fd opts n s1) as Hs1 by (bev_split Hs).
  assert (∃ er, (if event_pending (ev_read s1) then add_read add_ok s1 else (0, s1)) = (0, set_ev_read er s1) ∧
    ev_fd er = fd ∧ event_pending er = event_pending (ev_read s)) as (er & -> & Hf & Hp).
  { change (ev_read s1) with (ev_read s). destruct (event_pending (ev_read s)) eqn:E.
    - destruct (add_read_ok s1) as (H1 & er & H2 & Hp & Hf). exists er. split; [|split; [rewrite Hf; apply Hs|done]].
      destruct (add_read add_ok s1). cbn in *. by subst.
    - exists (ev_read s1). rewrite set_ev_read_id. split; [done|]. split; [apply Hs|done]. }
  assert (∃ ew, (if event_pending (ev_write (set_ev_read er s1)) then add_write add_ok (set_ev_read er s1) else (0, set_ev_read er s1)) =
    (0, set_ev_write ew (set_ev_read er s1)) ∧ event_pending ew = event_pending (ev_write s)) as (ew & -> & Hpw).
  { change (ev_write (set_ev_read er s1)) with (ev_write s). destruct (event_pending (ev_write s)) eqn:E.
    - destruct (add_write_ok (set_ev_read er s1)) as (H1 & ew & H2 & Hpw). exists ew. split; [|done].
      destruct (add_write add_ok (set_ev_read er s1)). cbn in *. by subst.
    - exists (ev_write (set_ev_read er s1)). by rewrite set_ev_write_id. }
  cbn [snd]. split; [|split; [|done]].
  - bev_split Hs. change (event_pending er = has (enabled s) EV_READ && (read_suspended s =? 0)). by rewrite Hp.
  - intros Hne He. change (event_pending ew = true). rewrite Hpw. by apply Hw.
Qed.

(** ** Watermarks *)

Lemma callbacks_frozen cbs fs fe b : evb_frozen_inv fs fe b → evb_frozen_inv fs fe (set_callbacks cbs b).
Proof. intros ([] & ? & ?). split; [by split|done]. Qed.

(** New marks and a new callback on the input. *)
Lemma marks_core m cbs n s :
  bev_core fd opts n s → 0 <= wm_high m < 2 ^ 63 →
  (∃ f, cbs = [wm_entry f] ∧ (wm_high m ≠ 0 ↔ cb_on (wm_entry f))) →
  bev_core fd opts n (set_input (set_callbacks cbs (input s)) (set_read_watermarks_cb true (set_wm_read m s))).
Proof.
  intros Hs Hm Hcb. bev_split Hs. by apply callbacks_frozen.
Qed.

Lemma on_off f : cb_on (wm_entry (Z.lor f 3)) ∧ ~ cb_on (wm_entry (Z.ldiff f 1)).
Proof.
  unfold cb_on. cbn [cb_flags wm_entry]. unfold EVBUFFER_CB_ENABLED. split.
  - apply Z.bits_inj'. intros i Hi. rewrite Z.land_spec, Z.lor_spec. destruct (decide (i = 0)) as [->|Hne].
    + by rewrite orb_true_r.
    + assert (Z.testbit 1 i = false) as -> by (apply (Z.pow2_bits_false 0); done). apply andb_false_r.
  - intros E. assert (Z.testbit (Z.land (Z.ldiff f 1) 1) 0 = true) as P by (by rewrite E).
    rewrite Z.land_spec, Z.ldiff_spec in P. cbn in P. rewrite andb_false_r in P. done.
Qed.

Lemma set_watermarks_cb_id s : read_watermarks_cb s = true → set_read_watermarks_cb true s = s.
Proof. destruct s as [? [] ? ?]. unfold read_watermarks_cb. cbn. intros ->. done. Qed.

(** With a high mark the callback is on the input and enabled. *)
Lemma watch_input_ok m n s :
  bev_core fd opts n s → 0 < wm_high m < 2 ^ 63 →
  let s' := set_wm_read m s in
  let s' := if read_watermarks_cb s' then s'
            else set_read_watermarks_cb true (set_input (evbuffer_add_cb INBUF_WM_CB (input s')) s') in
  let s' := set_input (evbuffer_cb_set_flags INBUF_WM_CB (Z.lor EVBUFFER_CB_ENABLED EVBUFFER_CB_NODEFER) (input s')) s' in
  bev_core fd opts n s' ∧ eb_total_len (input s') = eb_total_len (input s) ∧ output s' = output s ∧
    ev_write s' = ev_write s ∧ enabled s' = enabled s ∧ wm_read s' = m ∧ read_suspended s' = read_suspended s.
Proof.
  intros Hs Hm. cbv zeta. change (read_watermarks_cb (set_wm_read m s)) with (read_watermarks_cb s).
  pose proof (bc_in_cb _ _ _ _ Hs) as Hcb. destruct (read_watermarks_cb s) eqn:E.
  - destruct Hcb as (f & Hcb & _). split; [|done].
    rewrite <- (set_watermarks_cb_id (set_wm_read m s)) by exact E.
    unfold evbuffer_cb_set_flags, map_cb. change (input (set_read_watermarks_cb true (set_wm_read m s))) with (input s).
    rewrite Hcb. apply marks_core; [done|lia|]. eexists. split; [reflexivity|]. split; [|lia]. intros _. apply on_off.
  - destruct Hcb as [Hcb _]. split; [|done]. unfold evbuffer_cb_set_flags, map_cb, evbuffer_add_cb.
    change (input (set_wm_read m s)) with (input s). rewrite Hcb.
    apply (marks_core m [wm_entry 3] n s); [done|lia|]. exists 3. split; [done|]. split; [|lia]. intros _. apply (on_off 1).
Qed.

(** Without one the callback is off or absent. *)
Lemma unwatch_input_ok m n s :
  bev_core fd opts n s → wm_high m = 0 →
  let s' := set_wm_read m s in
  let s' := if read_watermarks_cb s'
            then set_input (evbuffer_cb_clear_flags INBUF_WM_CB EVBUFFER_CB_ENABLED (input s')) s' else s' in
  bev_core fd opts n s' ∧ output s' = output s ∧ ev_write s' = ev_write s ∧ enabled s' = enabled s ∧ wm_read s' = m.
Proof.
  intros Hs Hm. cbv zeta. change (read_watermarks_cb (set_wm_read m s)) with (read_watermarks_cb s).
  pose proof (bc_in_cb _ _ _ _ Hs) as Hcb. destruct (read_watermarks_cb s) eqn:E.
  - destruct Hcb as (f & Hcb & _). split; [|done].
    rewrite <- (set_watermarks_cb_id (set_wm_read m s)) by exact E.
    unfold evbuffer_cb_clear_flags, map_cb. change (input (set_read_watermarks_cb true (set_wm_read m s))) with (input s).
    rewrite Hcb. apply marks_core; [done|lia|]. eexists. split; [reflexivity|]. rewrite Hm.
    split; [done|]. by intros P%on_off.
  - split; [|done]. bev_split Hs; [|change (0 <= wm_high m < 2 ^ 63); by rewrite Hm].
    change (if read_watermarks_cb s then ∃ f, eb_callbacks (eb_cb (input s)) = [wm_entry f] ∧ (wm_high m ≠ 0 ↔ cb_on (wm_entry f))
      else eb_callbacks (eb_cb (input s)) = [] ∧ wm_high m = 0). rewrite E. by destruct Hcb.
Qed.

Lemma watermark_op_ok e low high n s :
  bev_ok fd opts n s → 0 <= high < 2 ^ 63 → bev_ok fd opts n (bufferevent_setwatermark add_ok e low high s).
Proof.
  intros (Hs & Hw & Hwm) Hh. unfold bufferevent_setwatermark. set (m := {| wm_low := low; wm_high := high |}).
  set (s1 := if has e EV_WRITE then set_wm_write m s else s).
  assert (bev_ok fd opts n s1) as (Hs1 & Hw1 & Hwm1).
  { unfold s1. destruct (has e EV_WRITE); [|done]. split; [bev_split Hs|done]. }
  clearbody s1. destruct (has e EV_READ); [|done]. destruct (Z.eqb_spec high 0) as [E|E]; cbn [negb].
  - destruct (unwatch_input_ok m n s1 Hs1 E) as (H1 & H2 & H3 & H4 & H5). cbv zeta in *.
    set (s2 := if read_watermarks_cb (set_wm_read m s1) then _ else _) in *. clearbody s2.
    destruct (wm_unsuspend_ok n s2 H1) as (C1 & C2 & C3). split; [done|]. split.
    + eapply kept_armed; [done|]. unfold write_armed. by rewrite H2, H3, H4.
    + unfold wm_ok. rewrite C2. split; [done|]. unfold wm_read. rewrite (kp_conf _ _ C3). fold (wm_read s2). by rewrite H5.
  - destruct (watch_input_ok m n s1 Hs1) as (H1 & H2 & H3 & H4 & H5 & H6 & H7); [cbn; lia|]. cbv zeta in *.
    set (s2 := if read_watermarks_cb (set_wm_read m s1) then _ else _) in *.
    set (s3 := set_input (evbuffer_cb_set_flags _ _ _) s2) in *. clearbody s3. clear s2.
    assert (write_armed s3) as Hw3 by (unfold write_armed; by rewrite H3, H4, H5).
    assert (∀ s', kept s3 s' → wm_read s' = m ∧ input s' = input s3) as Hk.
    { intros s' K. split; [|apply K]. unfold wm_read. rewrite (kp_conf _ _ K). done. }
    destruct (Z.gtb_spec (eb_total_len (input s3)) high).
    + destruct (wm_suspend_ok n s3 H1) as (C1 & C2 & C3). destruct (Hk _ C3) as [K1 K2].
      split; [done|]. split; [by eapply kept_armed|]. unfold wm_ok. rewrite C2, K1, K2. cbn. split; [lia|done].
    + destruct (Z.ltb_spec (eb_total_len (input s3)) high).
      * destruct (wm_unsuspend_ok n s3 H1) as (C1 & C2 & C3). destruct (Hk _ C3) as [K1 K2].
        split; [done|]. split; [by eapply kept_armed|]. unfold wm_ok. rewrite C2, K1, K2. cbn. split; [done|lia].
      * split; [done|]. split; [done|]. unfold wm_ok. rewrite H6. cbn. lia.
Qed.

(** ** The program *)

(** Sizes of a 64-bit process. *)
Definition user_fits (op : user_op) : Prop :=
  match op with
  | UWrite data => Zlen data <= evb_limit
  | URead n => 0 <= n
  | UWatermark _ _ high => 0 <= high < 2 ^ 63
  | _ => True
  end.

(** What is left of a bufferevent that was freed: its events are deleted and its
    descriptor was closed once, if that was asked for. *)
Record bev_dead (s : Bufferevent) : Prop := {
  bd_freed : freed s = true;
  bd_closed : closed s = if has opts BEV_OPT_CLOSE_ON_FREE && (fd >=? 0) then [fd] else [];
  bd_events : event_pending (ev_read s) = false ∧ event_pending (ev_write s) = false;
  bd_received : received s = consumed s ++ bytes (input s);
  bd_submitted : submitted s = sent s ++ bytes (output s)
}.

Lemma decref_ok n s :
  bev_ok fd opts n s → 0 < n →
  ∃ s', _bufferevent_decref_and_unlock s = Val s' ∧ if n =? 1 then bev_dead s' else bev_ok fd opts (n - 1) s'.
Proof.
  intros (Hs & Hw & Hwm) Hn. unfold _bufferevent_decref_and_unlock. rewrite (bc_ref _ _ _ _ Hs).
  destruct (Z.gtb_spec n 0); [|lia]. change (refcnt (set_refcnt (n - 1) s)) with (n - 1).
  destruct (Z.eqb_spec (n - 1) 0) as [E|E]; cbn [negb].
  - destruct (Z.eqb_spec n 1); [|lia]. eexists. split; [done|]. unfold be_socket_destruct.
    change (ev_fd (ev_read (set_refcnt (n - 1) s))) with (ev_fd (ev_read s)). rewrite (bc_fd _ _ _ _ Hs).
    assert (options (del_write (del_read (set_refcnt (n - 1) s))) = opts) as -> by apply Hs.
    destruct (bc_alive _ _ _ _ Hs) as [_ Hcl].
    destruct (_ && _) eqn:Ec; (split; [done| |done|apply Hs|apply Hs]); rewrite Ec; [|exact Hcl].
    change (closed s ++ [fd] = [fd]). by rewrite Hcl.
  - destruct (Z.eqb_spec n 1); [lia|]. eexists. split; [done|]. split; [|done]. bev_split Hs. done.
Qed.

Lemma setcb_ok r w e n s : bev_ok fd opts n s → bev_ok fd opts n (bufferevent_setcb r w e s).
Proof. intros (Hs & Hw & Hwm). split; [bev_split Hs|done]. Qed.

Lemma run_user_ok ops n s :
  bev_ok fd opts n s → 1 < n → Forall user_fits ops →
  ∃ s' n', run_user add_ok ops s = Val s' ∧ bev_ok fd opts n' s' ∧ (n' = n ∨ n' = n - 1).
Proof.
  intros Hs Hn Hf. revert s Hs. induction Hf as [|op ops Hop Hf IH]; intros s Hs; cbn [run_user].
  { exists s, n. auto. }
  destruct op as [data|k|e|e|e low high|r w|r w e|]; cbn in Hop.
  - destruct (write_op_ok data n s Hs Hop) as (r & s1 & -> & Hs1 & _). cbn [mbind outcome_bind]. by apply IH.
  - destruct (read_op_ok k n s Hs Hop) as (r & s1 & -> & Hs1 & _). cbn [mbind outcome_bind]. by apply IH.
  - by apply IH, enable_op_ok.
  - by apply IH, disable_op_ok.
  - by apply IH, watermark_op_ok.
  - by apply IH, timeouts_op_ok.
  - by apply IH, setcb_ok.
  - unfold bufferevent_free. destruct (bc_alive _ _ _ _ (proj1 Hs)) as [-> _].
    destruct (decref_ok n _ (setcb_ok false false false n s Hs) ltac:(lia)) as (s1 & -> & H1).
    destruct (Z.eqb_spec n 1); [lia|]. exists s1, (n - 1). auto.
Qed.

(** ** What the program's calls do not change *)

(** The callbacks run so far, the bytes read, the bytes written. *)
Definition past (s : Bufferevent) : list BevCall * list byte * list byte := (calls s, received s, sent s).

Lemma past_log s s' : bv_log s' = bv_log s → past s' = past s.
Proof. intros E. unfold past, calls, received, sent. by rewrite E. Qed.

Lemma socket_enable_log e s : bv_log (be_socket_enable add_ok e s).2 = bv_log s.
Proof. destruct (socket_enable_ok e s) as (er & ew & -> & _). done. Qed.
Lemma enable_log e s : bv_log (bufferevent_enable add_ok e s).2 = bv_log s.
Proof.
  unfold bufferevent_enable. destruct (negb _); [|done].
  match goal with |- context [be_socket_enable add_ok ?i ?s1] => pose proof (socket_enable_log i s1) as E;
    destruct (be_socket_enable add_ok i s1) end. exact E.
Qed.
Lemma disable_log e s : bv_log (bufferevent_disable e s).2 = bv_log s.
Proof. unfold bufferevent_disable, be_socket_disable. cbn. destruct (has e EV_READ), (_ && _); done. Qed.
Lemma suspend_log s : bv_log (bufferevent_wm_suspend_read s) = bv_log s.
Proof. unfold bufferevent_wm_suspend_read, bufferevent_suspend_read. by destruct (_ =? 0). Qed.
Lemma unsuspend_log s : bv_log (bufferevent_wm_unsuspend_read add_ok s) = bv_log s.
Proof.
  unfold bufferevent_wm_unsuspend_read, bufferevent_unsuspend_read. destruct (_ && _); [|done].
  etrans; [apply socket_enable_log|done].
Qed.
Lemma watermark_log e low high s : bv_log (bufferevent_setwatermark add_ok e low high s) = bv_log s.
Proof.
  unfold bufferevent_setwatermark. set (s1 := if has e EV_WRITE then _ else _).
  assert (bv_log s1 = bv_log s) as <- by (unfold s1; by destruct (has e EV_WRITE)). clearbody s1.
  destruct (has e EV_READ); [|done]. destruct (negb _).
  - set (s2 := if read_watermarks_cb _ then _ else _). assert (bv_log s2 = bv_log s1) as <- by (unfold s2; by destruct (read_watermarks_cb _)).
    clearbody s2. destruct (_ >? _); [by rewrite suspend_log|]. destruct (_ <? _); [by rewrite unsuspend_log|done].
  - rewrite unsuspend_log. by destruct (read_watermarks_cb _).
Qed.
Lemma timeouts_log r w s : bv_log (bufferevent_set_timeouts add_ok r w s).2 = bv_log s.
Proof.
  unfold bufferevent_set_timeouts, be_socket_adj_timeouts. set (s1 := set_timeout_write _ _).
  assert (∃ r e, (if event_pending (ev_read s1) then add_read add_ok s1 else (0, s1)) = (r, set_ev_read e s1)) as (r1 & e & ->).
  { unfold add_read. destruct (event_pending _); [|exists 0, (ev_read s1); by rewrite set_ev_read_id].
    destruct (_bufferevent_add_event _ _ _ _) as [r1 e]. by exists r1, e. }
  unfold add_write. destruct (event_pending _); [|done]. by destruct (_bufferevent_add_event _ _ _ _).
Qed.

Lemma run_user_past ops s s' : run_user add_ok ops s = Val s' → past s' = past s.
Proof.
  revert s. induction ops as [|op ops IH]; intros s; cbn [run_user]; [by intros [= ->]|].
  destruct op as [data|k|e|e|e low high|r w|r w e|].
  - intros ([r s1] & E & E')%outcome_bind_Val. rewrite (IH _ E'). unfold bufferevent_write in E.
    apply outcome_bind_Val in E as ([r1 b] & _ & E). pose proof (put_output_log b s) as EL.
    destruct (r1 =? -1); apply Val_inj, pair_equal_spec in E as [_ <-]; [by apply past_log|].
    unfold past, calls, received, sent. cbn. by rewrite EL.
  - intros ([[r data] s1] & E & E')%outcome_bind_Val. rewrite (IH _ E'). unfold bufferevent_read in E.
    apply outcome_bind_Val in E as ([[r1 d] b] & _ & E). pose proof (put_input_log b s) as EL.
    apply Val_inj, pair_equal_spec in E as [_ <-]. unfold past, calls, received, sent. cbn. by rewrite EL.
  - intros E. rewrite (IH _ E). apply past_log, enable_log.
  - intros E. rewrite (IH _ E). apply past_log, disable_log.
  - intros E. rewrite (IH _ E). apply past_log, watermark_log.
  - intros E. rewrite (IH _ E). apply past_log, timeouts_log.
  - intros E. by rewrite (IH _ E).
  - unfold bufferevent_free, _bufferevent_decref_and_unlock. destruct (freed s); [done|]. destruct (_ >? 0); [|done].
    destruct (negb _); intros [= <-]; [done|]. unfold be_socket_destruct. by destruct (_ && _).
Qed.

(** What the program took from the input it does not put back. *)
Lemma run_user_consumed ops s s' : run_user add_ok ops s = Val s' → Zlen (consumed s) <= Zlen (consumed s').
Proof.
  assert (∀ s1 s2, bv_log s2 = bv_log s1 → consumed s2 = consumed s1) as Hl by (intros ? ? E; unfold consumed; by rewrite E).
  revert s. induction ops as [|op ops IH]; intros s; cbn [run_user]; [by intros [= ->]|].
  destruct op as [data|k|e|e|e low high|r w|r w e|].
  - intros ([r s1] & E & E'%IH)%outcome_bind_Val. unfold bufferevent_write in E.
    apply outcome_bind_Val in E as ([r1 b] & _ & E). pose proof (Hl _ _ (put_output_log b s)) as EL.
    destruct (r1 =? -1); apply Val_inj, pair_equal_spec in E as [_ <-]; [by rewrite EL in E'|].
    change (consumed (put_output add_ok b s)) with (lg_consumed (bv_log (put_output add_ok b s))) in EL. cbn in E'. by rewrite <- EL.
  - intros ([[r data] s1] & E & E'%IH)%outcome_bind_Val. unfold bufferevent_read in E.
    apply outcome_bind_Val in E as ([[r1 d] b] & _ & E). pose proof (Hl _ _ (put_input_log b s)) as EL.
    apply Val_inj, pair_equal_spec in E as [_ <-]. unfold consumed at 1 in E'. cbn in E'. rewrite EL, Zlen_app in E'.
    pose proof (Zlen_nonneg d). lia.
  - intros E%IH. by rewrite (Hl _ _ (enable_log _ _)) in E.
  - intros E%IH. by rewrite (Hl _ _ (disable_log _ _)) in E.
  - intros E%IH. by rewrite (Hl _ _ (watermark_log _ _ _ _)) in E.
  - intros E%IH. by rewrite (Hl _ _ (timeouts_log _ _ _)) in E.
  - by intros E%IH.
  - unfold bufferevent_free, _bufferevent_decref_and_unlock. destruct (freed s); [done|]. destruct (_ >? 0); [|done].
    destruct (negb _); intros [= <-]; [done|]. unfold be_socket_destruct. by destruct (_ && _).
Qed.
End inv.
