(* ===== verification/BufevProps.v ===== *)
(** Bufferevents as transition systems: what the program can rely on. *)

From S2P Require Import Prelude EvFlags EvbufferApi BufChain BufOps BufRefine BufExpand BufIo BufNotify BufevData Bufev BufevInv.

Section events.
Context `{Malloc} (add_ok : Z → bool) (user : BevCall → Bufferevent → list user_op).
Context (Hadd : all_added add_ok) (Huser : ∀ k s, Forall user_fits (user k s)).
Context (fd opts : Z) (Hopts : has opts BEV_OPT_DEFER_CALLBACKS = false).
Implicit Types (s : Bufferevent).

(** ** User callbacks *)

(** Inside a callback of its events the bufferevent has two references, one of
    which the program may drop. *)
Definition in_callback (s : Bufferevent) : Prop := bev_ok fd opts 2 s ∨ bev_ok fd opts 1 s.

Lemma call_user_ok k s : bev_ok fd opts 2 s → ∃ s', call_user add_ok user k s = Val s' ∧ in_callback s'.
Proof.
  intros (Hs & Hw & Hwm). unfold call_user.
  destruct (run_user_ok add_ok Hadd fd opts (user k s) 2 (set_calls (calls s ++ [k]) s)) as (s' & n' & -> & Hs' & Hn);
    [split; [bev_split Hs|done]|lia|apply Huser|].
  exists s'. split; [done|]. destruct Hn as [-> | ->]; [by left|by right].
Qed.

Lemma no_deferring n s : bev_core fd opts n s → has (options s) BEV_OPT_DEFER_CALLBACKS = false.
Proof. intros Hs. by rewrite (bc_opts _ _ _ _ Hs). Qed.

Lemma run_readcb_ok s : bev_ok fd opts 2 s → ∃ s', _bufferevent_run_readcb add_ok user s = Val s' ∧ in_callback s'.
Proof.
  intros Hs. unfold _bufferevent_run_readcb. rewrite (no_deferring 2 s) by apply Hs.
  destruct (readcb s); cbn [negb]; [by apply call_user_ok|]. exists s. split; [done|by left].
Qed.
Lemma run_writecb_ok s : bev_ok fd opts 2 s → ∃ s', _bufferevent_run_writecb add_ok user s = Val s' ∧ in_callback s'.
Proof.
  intros Hs. unfold _bufferevent_run_writecb. rewrite (no_deferring 2 s) by apply Hs.
  destruct (writecb s); cbn [negb]; [by apply call_user_ok|]. exists s. split; [done|by left].
Qed.
Lemma run_eventcb_ok what s :
  bev_ok fd opts 2 s → ∃ s', _bufferevent_run_eventcb add_ok user what s = Val s' ∧ in_callback s'.
Proof.
  intros Hs. unfold _bufferevent_run_eventcb. rewrite (no_deferring 2 s) by apply Hs.
  destruct (errorcb s); cbn [negb]; [by apply call_user_ok|]. exists s. split; [done|by left].
Qed.
Lemma read_error_ok what s : bev_ok fd opts 2 s → ∃ s', read_error add_ok user what s = Val s' ∧ in_callback s'.
Proof. intros Hs. apply run_eventcb_ok. by apply disable_op_ok. Qed.
Lemma write_error_ok what s : bev_ok fd opts 2 s → ∃ s', write_error add_ok user what s = Val s' ∧ in_callback s'.
Proof. intros Hs. apply run_eventcb_ok. by apply disable_op_ok. Qed.

(** A callback of an event: a reference is held while it runs. *)
Lemma in_event (body : Bufferevent → outcome Bufferevent) s :
  bev_ok fd opts 1 s →
  (∀ s, bev_ok fd opts 2 s → ∃ s', body s = Val s' ∧ in_callback s') →
  ∃ s', (s ← _bufferevent_incref_and_lock s; s ← body s; _bufferevent_decref_and_unlock s) = Val s' ∧
    (bev_ok fd opts 1 s' ∨ bev_dead fd opts s').
Proof.
  intros (Hs & Hw & Hwm) Hbody. unfold _bufferevent_incref_and_lock.
  destruct (bc_alive _ _ _ _ Hs) as [-> _]. rewrite (bc_ref _ _ _ _ Hs). cbn [mbind outcome_bind].
  destruct (Hbody (set_refcnt (1 + 1) s)) as (s1 & -> & H1); [split; [bev_split Hs; done|done]|].
  cbn [mbind outcome_bind]. destruct H1 as [H1|H1].
  - destruct (decref_ok fd opts 2 s1 H1 ltac:(lia)) as (s2 & -> & H2). exists s2. split; [done|]. by left.
  - destruct (decref_ok fd opts 1 s1 H1 ltac:(lia)) as (s2 & -> & H2). exists s2. split; [done|]. by right.
Qed.

(** ** Reading *)

(** What [evbuffer_read] took from the descriptor. *)
Definition taken (readable : Z) (rd : option (list byte)) (howmuch : Z) : list byte :=
  ztake (read_size readable howmuch) (default [] rd).

Lemma read_input_ok readable rd howmuch n s :
  bev_ok fd opts n s → 0 <= howmuch < 2 ^ 31 →
  ∃ r b, evbuffer_read readable rd (i32 howmuch) (evbuffer_unfreeze false (input s)) = Val (r, b) ∧
    let s1 := put_input add_ok (evbuffer_freeze false b) s in
    let s2 := set_received (received s1 ++ ztake r (default [] rd)) s1 in
    bev_ok fd opts n s2 ∧ eb_total_len (input s2) = eb_total_len (input s) + Z.max 0 r ∧ r <= howmuch ∧
    (calls s2, enabled s2, bv_conf s2) = (calls s, enabled s, bv_conf s) ∧
    (r = -1 ∧ (rd = None ∨ out_of_memory) ∨
     ∃ data, rd = Some data ∧ r = Zlen (ztake (read_size readable howmuch) data)).
Proof.
  intros (Hs & Hw & Hwm) Hh. rewrite i32_small by lia.
  destruct (thawed_read_spec readable rd howmuch (input s)) as (r & b & E & Hb & Hn & Hr); [apply Hs..|].
  exists r, b. split; [done|]. cbv zeta.
  assert (bytes b = bytes (input s) ++ ztake r (default [] rd) ∧ r <= howmuch ∧ eb_total_len b = eb_total_len (input s) + Z.max 0 r)
    as (Hbs & Hle & Htot).
  { assert (evb_inv (refreeze false false b)) as Hib by (destruct Hb as (Hib & _); exact Hib).
    assert (eb_total_len b = Zlen (bytes b)) as -> by apply (wf_total _ Hib).
    assert (eb_total_len (input s) = Zlen (bytes (input s))) as -> by apply (wf_total _ (proj1 (bc_in _ _ _ _ Hs))).
    pose proof (read_size_range readable howmuch). 
    destruct Hr as [(-> & -> & _)|(data & -> & -> & ->)].
    - rewrite ztake_0, app_nil_r by lia. split; [done|]. lia.
    - cbn [default from_option id]. rewrite Zlen_app. split; [f_equal|].
      + rewrite Zlen_ztake. pose proof (Zlen_nonneg data).
        destruct (decide (read_size readable howmuch <= Zlen data)); [f_equal; lia|]. by rewrite !ztake_all by lia.
      + rewrite Zlen_ztake. split; [|lia]. unfold read_size. cbv zeta.
        destruct (Z.ltb_spec howmuch 0); [lia|]. cbn [orb].
        match goal with |- context [howmuch >? ?n] => destruct (Z.gtb_spec howmuch n); lia end. }
  assert (received (put_input add_ok (evbuffer_freeze false b) s) = received s) as ->.
  { unfold received. by rewrite put_input_log. }
  unfold set_received. pose proof (bc_received _ _ _ _ Hs) as Hrc.
  match goal with |- bev_ok _ _ _ (upd_log ?f _) ∧ _ =>
    destruct (put_input_ok add_ok Hadd fd opts f (evbuffer_freeze false b) (Z.max 0 r) 0 n s) as (H1 & H2 & H3) end; try done.
  - intros Hz _. change (eb_total_len (evbuffer_freeze false b)) with (eb_total_len b). lia.
  - unfold input_log. cbn. change (bytes (evbuffer_freeze false b)) with (bytes b).
    rewrite Hrc, Hbs. unfold consumed. by rewrite app_assoc.
  - split; [split; [done|]; split; [by eapply kept_armed|done]|]. rewrite (kp_input _ _ H3). 
    split; [exact Htot|]. split; [done|]. split; [|by destruct Hr as [(? & _ & ?)|(d & ? & ? & _)]; eauto].
    destruct H3 as [_ _ _ E1 E2 E3]. unfold calls. by rewrite E1, E2, E3.
Qed.

(** ** Writing *)

Lemma del_write_ok n s : bev_ok fd opts n s → bytes (output s) = [] → bev_ok fd opts n (del_write s).
Proof. intros (Hs & Hw & Hwm) E. split; [bev_split Hs|]. split; [|done]. intros Hne. by destruct (Hne E). Qed.

Lemma output_len n s : bev_core fd opts n s → eb_total_len (output s) = Zlen (bytes (output s)).
Proof. intros Hs. apply (wf_total _ (proj1 (bc_out _ _ _ _ Hs))). Qed.
Lemma input_len n s : bev_core fd opts n s → eb_total_len (input s) = Zlen (bytes (input s)).
Proof. intros Hs. apply (wf_total _ (proj1 (bc_in _ _ _ _ Hs))). Qed.

Lemma del_if_empty_ok n s :
  bev_ok fd opts n s → bev_ok fd opts n (if eb_total_len (output s) =? 0 then del_write s else s).
Proof.
  intros Hs. destruct (Z.eqb_spec (eb_total_len (output s)) 0) as [E|]; [|done].
  apply del_write_ok; [done|]. apply Zlen_0_inv. by rewrite <- (output_len n s) by apply Hs.
Qed.

Lemma write_output_ok wr sf n s :
  bev_ok fd opts n s → (∀ data, -1 <= wr data <= Zlen data) →
  ∃ r b, evbuffer_write_atmost wr sf MAX_TO_WRITE_EVER (evbuffer_unfreeze true (output s)) = Val (r, ztake r (bytes (output s)), b) ∧
    let s1 := put_output add_ok (evbuffer_freeze true b) s in
    let s2 := set_sent (sent s1 ++ ztake r (bytes (output s))) s1 in
    bev_ok fd opts n s2 ∧ bytes (output s2) = zdrop r (bytes (output s)) ∧
    (calls s2, enabled s2, bv_conf s2) = (calls s, enabled s, bv_conf s) ∧
    r = (if write_size MAX_TO_WRITE_EVER (output s) >? 0
         then match offered MAX_TO_WRITE_EVER (output s) with [] => r | data => wr data end else -1) ∧
    r <= Zlen (offered MAX_TO_WRITE_EVER (output s)).
Proof.
  intros (Hs & Hw & Hwm) Hwr.
  destruct (thawed_write_spec wr sf MAX_TO_WRITE_EVER (output s)) as (r & b & E & Hb & Hwb & Hn & Hr & Hle & Hbs); [apply Hs..|done|].
  exists r, b. split; [done|]. cbv zeta.
  assert (sent (put_output add_ok (evbuffer_freeze true b) s) = sent s) as ->.
  { unfold sent. by rewrite put_output_log. }
  assert (zdrop (Z.max 0 r) (bytes (output s)) = zdrop r (bytes (output s))) as Hz.
  { destruct (decide (0 <= r)); [by rewrite Z.max_r|]. by rewrite !zdrop_0 by lia. }
  rewrite Hz in Hbs. unfold set_sent. pose proof (bc_submitted _ _ _ _ Hs) as Hss.
  match goal with |- bev_ok _ _ _ (upd_log ?f _) ∧ _ =>
    destruct (put_output_ok add_ok Hadd fd opts f (evbuffer_freeze true b) 0 (eb_total_len (output s) - eb_total_len b) n s)
      as (H1 & H2 & H3) end; try done.
  - change (bytes (evbuffer_freeze true b)) with (bytes b). rewrite Hbs. intros _ Hne E0. apply Hne. rewrite E0.
    unfold zdrop. by rewrite drop_nil.
  - unfold output_log. cbn. change (bytes (evbuffer_freeze true b)) with (bytes b).
    unfold submitted in Hss. rewrite Hss, Hbs, <- app_assoc. by rewrite ztake_zdrop.
  - split; [split; [done|]; split; [done|by eapply put_output_wm]|].
    destruct H3 as [->|[e ->]]; (split; [exact Hbs|]; split; done).
Qed.

Lemma after_write_ok res connected s :
  bev_ok fd opts 2 s → ∃ s', after_write add_ok user res connected s = Val s' ∧ in_callback s'.
Proof.
  intros Hs. unfold after_write. pose proof (del_if_empty_ok 2 s Hs) as H1.
  destruct (_ && _); [by apply run_writecb_ok|]. eexists. split; [done|by left].
Qed.

Lemma write_some_ok wr sf retriable connected s :
  bev_ok fd opts 2 s → (∀ data, -1 <= wr data <= Zlen data) →
  ∃ s', write_some add_ok user wr sf retriable connected s = Val s' ∧ in_callback s'.
Proof.
  intros Hs Hwr. unfold write_some. rewrite (bc_write_suspended _ _ _ _ (proj1 Hs)). cbn [Z.eqb negb].
  destruct (negb (eb_total_len (output s) =? 0)); [|by apply after_write_ok].
  destruct (write_output_ok wr sf 2 s Hs Hwr) as (r & b & -> & H2 & _). cbn [mbind outcome_bind]. cbv zeta in *.
  set (s2 := set_sent _ _) in *. clearbody s2.
  destruct (_ && retriable); [eexists; split; [done|]; left; by apply del_if_empty_ok|].
  destruct (r <=? 0); [by apply write_error_ok|by apply after_write_ok].
Qed.

Lemma read_some_ok readable rd retriable howmuch s :
  bev_ok fd opts 2 s → 0 <= howmuch < 2 ^ 31 →
  ∃ s', read_some add_ok user readable rd retriable howmuch s = Val s' ∧ in_callback s'.
Proof.
  intros Hs Hh. unfold read_some.
  destruct (read_input_ok readable rd howmuch 2 s Hs Hh) as (r & b & -> & H2 & _). cbn [mbind outcome_bind]. cbv zeta in *.
  set (s2 := set_received _ _) in *. clearbody s2.
  destruct (r =? -1); [destruct retriable; [eexists; split; [done|by left]|by apply read_error_ok]|].
  destruct (r =? 0); [by apply read_error_ok|]. destruct (r <=? 0); [by apply read_error_ok|].
  destruct (_ >=? _); [by apply run_readcb_ok|]. eexists. split; [done|by left].
Qed.

(** ** The two events *)

(** The signed difference is positive below the mark. *)
Lemma room_left high len : i64 (high - len) <= 0 → 0 <= len → 0 <= high < 2 ^ 63 → high <= len.
Proof.
  intros Hi Hl Hh. destruct (decide (high <= len)); [done|]. unfold i64 in Hi. rewrite Z.mod_small in Hi; lia.
Qed.

Lemma readcb_ok event readable rd retriable s :
  bev_ok fd opts 1 s →
  ∃ s', bufferevent_readcb add_ok user event readable rd retriable s = Val s' ∧
    (bev_ok fd opts 1 s' ∨ bev_dead fd opts s').
Proof.
  intros Hs. apply (in_event (λ s, if event =? EV_TIMEOUT then _ else _)); [done|]. clear s Hs. intros s Hs.
  destruct (event =? EV_TIMEOUT); [by apply read_error_ok|]. cbv zeta.
  pose proof (bc_high _ _ _ _ (proj1 Hs)) as Hhigh.
  destruct (negb (wm_high (wm_read s) =? 0) && _) eqn:Ew.
  { eexists. split; [done|]. left. destruct Hs as (Hs & Hw & Hwm). destruct (wm_suspend_ok fd opts 2 s Hs) as (C1 & C2 & C3).
    split; [done|]. split; [by eapply kept_armed|]. apply andb_true_iff in Ew as [Ew1 Ew2%Z.leb_le].
    rewrite Ew1 in Ew2. apply negb_true_iff, Z.eqb_neq in Ew1. apply room_left in Ew2; [|by rewrite (input_len 2 s); [apply Zlen_nonneg|]|lia].
    unfold wm_ok, wm_read. rewrite C2, (kp_conf _ _ C3), (kp_input _ _ C3). by split. }
  destruct (negb (read_suspended s =? 0)); [eexists; split; [done|by left]|].
  apply read_some_ok; [done|]. unfold MAX_TO_READ_EVER.
  match goal with |- context [(?x <? 0) || _] => destruct (Z.ltb_spec x 0), (Z.gtb_spec x 16384); cbn [orb]; lia end.
Qed.

Lemma writecb_ok event finished wr sf retriable s :
  bev_ok fd opts 1 s → (∀ data, -1 <= wr data <= Zlen data) →
  ∃ s', bufferevent_writecb add_ok user event finished wr sf retriable s = Val s' ∧
    (bev_ok fd opts 1 s' ∨ bev_dead fd opts s').
Proof.
  intros Hs Hwr. apply (in_event (λ s, if event =? EV_TIMEOUT then _ else _)); [done|]. clear s Hs. intros s Hs.
  destruct (event =? EV_TIMEOUT); [by apply write_error_ok|]. rewrite (bc_connected _ _ _ _ (proj1 Hs)).
  cbn [mbind outcome_bind]. by apply write_some_ok.
Qed.

(** ** Runs *)

(** What happens to a bufferevent: its read event fires with what the descriptor
    has to give, its write event fires, or the program calls it. *)
Inductive bev_event :=
  | BRead (event readable : Z) (rd : option (list byte)) (retriable : bool)
  | BWrite (event finished : Z) (wr : list byte → Z) (sf : Z → Z → Z * bool) (retriable : bool)
  | BCall (op : user_op).

Definition bev_step (e : bev_event) (s : Bufferevent) : outcome Bufferevent :=
  match e with
  | BRead event readable rd retriable => bufferevent_readcb add_ok user event readable rd retriable s
  | BWrite event finished wr sf retriable => bufferevent_writecb add_ok user event finished wr sf retriable s
  | BCall op => run_user add_ok [op] s
  end.

(** The run ends when the bufferevent is freed. *)
Fixpoint bev_run (es : list bev_event) (s : Bufferevent) : outcome Bufferevent :=
  match es with
  | [] => Val s
  | e :: es => if freed s then Val s else s ← bev_step e s; bev_run es s
  end.

Definition event_fits (e : bev_event) : Prop :=
  match e with
  | BWrite _ _ wr _ _ => ∀ data, -1 <= wr data <= Zlen data
  | BCall op => user_fits op
  | _ => True
  end.

Lemma call_ok op s :
  bev_ok fd opts 1 s → user_fits op →
  ∃ s', run_user add_ok [op] s = Val s' ∧ (bev_ok fd opts 1 s' ∨ bev_dead fd opts s').
Proof.
  intros Hs Hop. cbn [run_user]. destruct op as [data|k|e|e|e low high|r w|r w e|]; cbn in Hop.
  - destruct (write_op_ok add_ok Hadd fd opts data 1 s Hs Hop) as (r & s1 & -> & Hs1 & _). exists s1. auto.
  - destruct (read_op_ok add_ok Hadd fd opts k 1 s Hs Hop) as (r & s1 & -> & Hs1 & _). exists s1. auto.
  - eexists. split; [done|]. left. by apply enable_op_ok.
  - eexists. split; [done|]. left. by apply disable_op_ok.
  - eexists. split; [done|]. left. by apply watermark_op_ok.
  - eexists. split; [done|]. left. by apply timeouts_op_ok.
  - eexists. split; [done|]. left. by apply setcb_ok.
  - unfold bufferevent_free. destruct (bc_alive _ _ _ _ (proj1 Hs)) as [-> _].
    destruct (decref_ok fd opts 1 _ (setcb_ok fd opts false false false 1 s Hs) ltac:(lia)) as (s1 & -> & H1).
    exists s1. split; [done|]. by right.
Qed.

Lemma socket_new_ok s : bufferevent_socket_new true fd opts = Some s → bev_ok fd opts 1 s.
Proof.
  unfold bufferevent_socket_new, bufferevent_init_common. cbn [negb]. rewrite Hopts. cbn [negb].
  destruct (has opts BEV_OPT_UNLOCK_CALLBACKS); [done|]. intros [= <-].
  split; [|split; [intros Hne; by destruct Hne|by split]]. split; try done; try (by left).
  - apply (frozen_intro false true evbuffer_new). apply evbuffer_new_inv.
  - destruct (frozen_intro true false evbuffer_new (proj1 evbuffer_new_inv)) as ([] & ? & ?). split; [by split|done].
Qed.

Lemma run_ok es s0 :
  bev_ok fd opts 1 s0 → Forall event_fits es →
  ∃ s, bev_run es s0 = Val s ∧ (bev_ok fd opts 1 s ∨ bev_dead fd opts s).
Proof.
  intros Hs0 Hes. assert (bev_ok fd opts 1 s0 ∨ bev_dead fd opts s0) as Hs by (by left). clear Hs0. revert s0 Hs.
  induction Hes as [|e es He _ IH]; intros s Hs; cbn [bev_run]; [by exists s|].
  destruct Hs as [Hs|Hs]; [|exists s; rewrite (bd_freed _ _ _ Hs); by auto].
  destruct (bc_alive _ _ _ _ (proj1 Hs)) as [-> _].
  assert (∃ s', bev_step e s = Val s' ∧ (bev_ok fd opts 1 s' ∨ bev_dead fd opts s')) as (s' & -> & Hs');
    [|cbn [mbind outcome_bind]; by apply IH].
  destruct e; cbn [bev_step]; [by apply readcb_ok|by apply writecb_ok|by apply call_ok].
Qed.

(** C5.  A bufferevent on a connected socket, made by [bufferevent_socket_new] with any options but
    BEV_OPT_DEFER_CALLBACKS.  Assumed of the surroundings: event_add never fails ([all_added]), the
    socket reports of each write -1 or at most the bytes it was handed ([event_fits]), and the
    program's calls have sizes in range ([user_fits]: at most [evb_limit] bytes written at once, no
    negative read, a high watermark below 2^63); memory may fail.  Then for any sequence of read
    events, write events and calls, and any calls the program makes inside its callbacks: every
    callback is defined; the bytes read are those the program took followed by those in the input
    buffer, and the bytes the program wrote are those handed to writev that the socket took, followed
    by those in the output buffer, in order; bytes waiting in the output keep the write event pending
    while writing is enabled; the read event is pending exactly while reading is enabled and not
    suspended, and it is suspended above the high watermark and never below it.  Freed, even from its
    own callback, the bufferevent stays until the callback returns, and its descriptor is closed
    once, if it was to be closed at all. *)
Theorem bufferevent_run_ok es s0 :
  bufferevent_socket_new true fd opts = Some s0 → Forall event_fits es →
  ∃ s, bev_run es s0 = Val s ∧ (bev_ok fd opts 1 s ∨ bev_dead fd opts s).
Proof. intros Hnew. apply run_ok. by apply socket_new_ok. Qed.

(** ** What the program is told *)

Lemma call_user_past k s s' :
  call_user add_ok user k s = Val s' → past s' = (calls s ++ [k], received s, sent s).
Proof. intros E%run_user_past; [|done]. by rewrite E. Qed.
Lemma decref_past s s' : _bufferevent_decref_and_unlock s = Val s' → past s' = past s.
Proof.
  unfold _bufferevent_decref_and_unlock. destruct (_ >? 0); [|done]. destruct (negb _); intros [= <-]; [done|].
  unfold be_socket_destruct. by destruct (_ && _).
Qed.

Lemma read_error_past what s s' :
  bev_ok fd opts 2 s → errorcb s = true → read_error add_ok user what s = Val s' →
  past s' = (calls s ++ [CallEvent what], received s, sent s).
Proof.
  intros Hs He. unfold read_error, _bufferevent_run_eventcb.
  assert (errorcb (bufferevent_disable EV_READ s).2 = true) as -> by exact He.
  rewrite (no_deferring 2 (bufferevent_disable EV_READ s).2) by apply (disable_op_ok fd opts EV_READ 2 s Hs). cbn [negb].
  intros E%call_user_past. rewrite E. unfold calls, received, sent. by rewrite disable_log.
Qed.

Lemma read_size_pos readable room : 0 < room → 0 < read_size readable room.
Proof.
  intros Hr. unfold read_size, EVBUFFER_MAX_READ. cbv zeta.
  destruct (Z.leb_spec readable 0), (Z.gtb_spec readable 4096); cbn [orb];
    match goal with |- context [room >? ?n] => destruct (Z.gtb_spec room n) end; destruct (Z.ltb_spec room 0); cbn [orb]; lia.
Qed.

(** The calls one read event leads to. *)
Definition reported (rd : option (list byte)) (retriable : bool) (low len : Z) : list BevCall :=
  match rd with
  | None => if retriable then [] else [CallEvent (Z.lor BEV_EVENT_READING BEV_EVENT_ERROR)]
  | Some [] => [CallEvent (Z.lor BEV_EVENT_READING BEV_EVENT_EOF)]
  | Some _ => if low <=? len then [CallRead] else []
  end.

Lemma read_some_past readable rd retriable room s s' :
  bev_ok fd opts 2 s → reliable → readcb s = true → errorcb s = true → 0 < room < 2 ^ 31 →
  read_some add_ok user readable rd retriable room s = Val s' →
  let data := taken readable rd room in
  past s' = (calls s ++ reported rd retriable (wm_low (wm_read s)) (eb_total_len (input s) + Zlen data),
             received s ++ data, sent s).
Proof.
  intros Hs Hrel Hrc Her Hroom. unfold read_some.
  destruct (read_input_ok readable rd room 2 s Hs ltac:(lia)) as (r & b & -> & H2 & Hlen & _ & Hkeep & Hr). cbn [mbind outcome_bind].
  cbv zeta in *. set (s1 := put_input add_ok _ s) in *. set (s2 := set_received _ _) in *.
  assert (received s1 = received s ∧ sent s1 = sent s) as [Erc Ese] by (unfold received, sent, s1; by rewrite put_input_log).
  assert (received s2 = received s ++ ztake r (default [] rd) ∧ sent s2 = sent s) as [Hrc2 Hse2].
  { unfold s2. rewrite Erc. split; [done|exact Ese]. }
  apply pair_equal_spec in Hkeep as [[Ecalls _]%pair_equal_spec Econf]. clearbody s2. clear s1 Erc Ese.
  assert (errorcb s2 = true) as He2 by (unfold errorcb; by rewrite Econf).
  assert (readcb s2 = true) as Hr2 by (unfold readcb; by rewrite Econf).
  pose proof (read_size_pos readable room ltac:(lia)) as Hpos. unfold taken.
  destruct Hr as [(-> & [-> | Hoom])|(data & -> & ->)]; [|by apply reliable_memory in Hoom|]; cbn [default from_option id] in *.
  - rewrite (ztake_0 (-1)) in Hrc2 by lia. cbn [Z.eqb reported]. unfold ztake. rewrite take_nil.
    destruct retriable.
    + intros [= <-]. unfold past. rewrite Ecalls, Hrc2, Hse2. by rewrite !app_nil_r.
    + intros ->%read_error_past; [|done..]. by rewrite Ecalls, Hrc2, Hse2.
  - rewrite Zlen_ztake in *. pose proof (Zlen_nonneg data).
    assert (ztake (0 `max` (read_size readable room `min` Zlen data)) data = ztake (read_size readable room) data) as Et.
    { destruct (decide (read_size readable room <= Zlen data)); [f_equal; lia|]. by rewrite !ztake_all by lia. }
    rewrite Et in Hrc2. assert (0 <= 0 `max` (read_size readable room `min` Zlen data)) as Hk0 by lia.
    assert (0 `max` (read_size readable room `min` Zlen data) = 0 → data = []) as Hk by (intros; apply Zlen_0_inv; lia).
    assert (data = [] → 0 `max` (read_size readable room `min` Zlen data) = 0) as Hk'
      by (intros ->; change (Zlen []) with 0; lia).
    set (k := 0 `max` (read_size readable room `min` Zlen data)) in *. clearbody k. rewrite Z.max_r in Hlen by lia.
    destruct (Z.eqb_spec k (-1)); [lia|]. destruct data as [|x data]; cbn [reported].
    + rewrite (Hk' eq_refl). cbn [Z.eqb]. intros ->%read_error_past; [|done..]. by rewrite Ecalls, Hrc2, Hse2.
    + destruct (Z.eqb_spec k 0) as [E0|]; [by apply Hk in E0|]. destruct (Z.leb_spec k 0); [lia|].
      assert (wm_read s2 = wm_read s) as -> by (unfold wm_read; by rewrite Econf). rewrite Hlen.
      destruct (Z.geb_spec (eb_total_len (input s) + k) (wm_low (wm_read s))),
        (Z.leb_spec (wm_low (wm_read s)) (eb_total_len (input s) + k)); try lia.
      * unfold _bufferevent_run_readcb. rewrite Hr2, (no_deferring 2 s2) by apply H2. cbn [negb].
        intros ->%call_user_past. by rewrite Ecalls, Hrc2, Hse2.
      * intros [= <-]. unfold past. rewrite Ecalls, Hrc2, Hse2. by rewrite !app_nil_r.
Qed.

(** A call that hands input to the program's callbacks never puts bytes back that it took. *)
Lemma call_user_consumed k s s' : call_user add_ok user k s = Val s' → Zlen (consumed s) <= Zlen (consumed s').
Proof. by intros E%run_user_consumed. Qed.
Lemma read_error_consumed what s s' : read_error add_ok user what s = Val s' → Zlen (consumed s) <= Zlen (consumed s').
Proof.
  unfold read_error. assert (consumed (bufferevent_disable EV_READ s).2 = consumed s) as E by (unfold consumed; by rewrite disable_log).
  revert E. generalize (bufferevent_disable EV_READ s).2. intros s1 <-. unfold _bufferevent_run_eventcb, schedule_deferred.
  destruct (errorcb s1); cbn [negb]; [|by intros [= ->]].
  case_match; [|apply call_user_consumed]. intros [= <-]. by case_match.
Qed.
Lemma read_some_consumed readable rd retriable room s s' :
  read_some add_ok user readable rd retriable room s = Val s' → Zlen (consumed s) <= Zlen (consumed s').
Proof.
  unfold read_some. intros ([r b] & _ & E)%outcome_bind_Val. revert E. cbv zeta. set (s1 := put_input add_ok _ s). set (s2 := set_received _ _).
  assert (consumed s2 = consumed s) as <- by (unfold consumed; cbn; unfold s1; by rewrite put_input_log). clearbody s2.
  repeat case_match; try apply read_error_consumed; try by intros [= ->].
  unfold _bufferevent_run_readcb, schedule_deferred. destruct (readcb s2); cbn [negb]; [|by intros [= ->]].
  case_match; [|apply call_user_consumed]. intros [= <-]. by case_match.
Qed.
Lemma decref_consumed s s' : _bufferevent_decref_and_unlock s = Val s' → consumed s' = consumed s.
Proof.
  unfold _bufferevent_decref_and_unlock. destruct (_ >? 0); [|done]. destruct (negb _); intros [= <-]; [done|].
  unfold be_socket_destruct. by destruct (_ && _).
Qed.

(** C19.  A read event of a connected bufferevent is reported at once.  Assumed: the callbacks run
    directly (no BEV_OPT_DEFER_CALLBACKS, with which they are only scheduled), the read and event
    callbacks are set, event_add and memory do not fail, the program's calls have sizes in range
    ([user_fits]), reading is not suspended and the input is below the high watermark if there is
    one.  Then the bytes taken from the socket, at most 16384, go behind those of the input buffer,
    and what the program took with what is still in the buffer afterwards is exactly what it had
    taken, the old content and these bytes; the input buffer ends with no more bytes than the high
    watermark; the read callback runs, once, exactly if bytes came and the low watermark is
    reached; at the end of the stream and on an error the event callback is told which; when the
    read is to be retried no callback runs. *)
Theorem read_event_reported readable rd retriable s :
  bev_ok fd opts 1 s → reliable → readcb s = true → errorcb s = true → read_suspended s = 0 →
  let high := wm_high (wm_read s) in
  let len := eb_total_len (input s) in
  (high = 0 ∨ len < high) →
  let data := taken readable rd (if high =? 0 then MAX_TO_READ_EVER else Z.min MAX_TO_READ_EVER (high - len)) in
  ∃ s', bufferevent_readcb add_ok user EV_READ readable rd retriable s = Val s' ∧
    calls s' = calls s ++ reported rd retriable (wm_low (wm_read s)) (len + Zlen data) ∧
    received s' = received s ++ data ∧ Zlen data <= MAX_TO_READ_EVER ∧
    consumed s' ++ bytes (input s') = consumed s ++ bytes (input s) ++ data ∧
    (high = 0 ∨ Zlen (bytes (input s')) <= high).
Proof.
  intros Hok Hrel Hr He Hsus high len Hroom data. pose proof Hok as (Hs & Hw & Hwm).
  set (room := if high =? 0 then MAX_TO_READ_EVER else Z.min MAX_TO_READ_EVER (high - len)) in *.
  pose proof (bc_high _ _ _ _ Hs) as Hh. fold high in Hh.
  assert (0 <= len) as Hl by (unfold len; rewrite (input_len 1 s) by done; apply Zlen_nonneg).
  assert (0 < room <= 16384 ∧ (high = 0 ∨ room <= high - len)) as (Hroom1 & Hroom2).
  { unfold room, MAX_TO_READ_EVER. destruct (Z.eqb_spec high 0); lia. }
  destruct (readcb_ok EV_READ readable rd retriable s Hok) as (s' & E & Hafter). exists s'. split; [done|].
  assert (Zlen data <= room) as Hdl.
  { unfold data, taken. rewrite Zlen_ztake. unfold read_size. cbv zeta.
    destruct (Z.ltb_spec room 0); [lia|]. cbn [orb].
    match goal with |- context [room >? ?n] => destruct (Z.gtb_spec room n); lia end. }
  revert E. unfold bufferevent_readcb, _bufferevent_incref_and_lock. destruct (bc_alive _ _ _ _ Hs) as [-> _].
  rewrite (bc_ref _ _ _ _ Hs). cbn [mbind outcome_bind]. change (EV_READ =? EV_TIMEOUT) with false. cbv iota zeta.
  set (s1 := set_refcnt (1 + 1) s). assert (bev_ok fd opts 2 s1) as H1 by (split; [bev_split Hs; done|done]).
  change (wm_high (wm_read s1)) with high. change (eb_total_len (input s1)) with len. change (read_suspended s1) with (read_suspended s).
  rewrite Hsus. cbn [Z.eqb negb]. unfold data.
  assert (room = let h := if negb (high =? 0) then i64 (high - len) else -1 in
    if (h <? 0) || (h >? MAX_TO_READ_EVER) then MAX_TO_READ_EVER else h) as Er.
  { unfold room, MAX_TO_READ_EVER. cbv zeta. destruct (Z.eqb_spec high 0) as [|Hne]; cbn [negb]; [done|].
    destruct Hroom; [done|]. unfold i64. rewrite Z.mod_small by lia.
    match goal with |- context [(?x <? 0) || _] => destruct (Z.ltb_spec x 0), (Z.gtb_spec x 16384); cbn [orb]; lia end. }
  assert (negb (high =? 0) && ((if negb (high =? 0) then i64 (high - len) else -1) <=? 0) = false) as ->.
  { destruct (Z.eqb_spec high 0) as [|Hne]; cbn [negb andb]; [done|]. apply Z.leb_gt.
    destruct Hroom; [done|]. unfold i64. rewrite Z.mod_small by lia. lia. }
  cbv zeta in Er. rewrite <- Er. intros (s2 & E2 & E3)%outcome_bind_Val.
  pose proof (read_some_consumed _ _ _ _ _ _ E2) as Hmore. rewrite <- (decref_consumed _ _ E3) in Hmore.
  change (consumed s1) with (consumed s) in Hmore. apply decref_past in E3.
  pose proof (read_some_past readable rd retriable room s1 s2 H1 Hrel Hr He ltac:(lia) E2) as P. cbv zeta in P.
  rewrite P in E3. apply pair_equal_spec in E3 as [[E4 E5]%pair_equal_spec _]. split; [exact E4|]. split; [exact E5|].
  change (received s1) with (received s) in E5. fold data in E5.
  assert (received s' = consumed s' ++ bytes (input s')) as Ein by (destruct Hafter as [[Hs' _]|Hd]; [apply Hs'|apply Hd]).
  assert (consumed s' ++ bytes (input s') = consumed s ++ bytes (input s) ++ data) as Eall.
  { rewrite <- Ein, E5, (bc_received _ _ _ _ Hs). by rewrite <- app_assoc. }
  fold data. split; [unfold MAX_TO_READ_EVER; lia|]. split; [exact Eall|]. apply (f_equal Zlen) in Eall. rewrite !Zlen_app in Eall.
  assert (len = Zlen (bytes (input s))) as Elen by exact (input_len 1 s Hs). lia.
Qed.

(** ** Output *)

Lemma offered_nonempty m b : evb_inv b → bytes b ≠ [] → 0 < m → offered m b ≠ [].
Proof.
  intros Hb Hne Hm. pose proof (wf_total _ Hb) as Ht. pose proof (wf_chains _ Hb) as Hok.
  assert (0 < Zlen (bytes b)) as Hpos by (destruct (bytes b); [done|]; rewrite Zlen_cons; pose proof (Zlen_nonneg l); lia).
  assert (0 < write_size m b) as Hw.
  { unfold write_size. destruct (Z.ltb_spec m 0); [lia|]. cbn [orb]. destruct (Z.gtb_spec m (eb_total_len b)); lia. }
  destruct (wf_shape _ Hb) as (full & empt & Hcs & Hf & He & _). unfold offered, bytes in *. rewrite Hcs in *.
  destruct full as [|c full].
  { exfalso. apply Hne. cbn [app]. clear -He. induction He as [|c cs Hc _ IH]; [done|].
    rewrite chains_data_cons, chain_data_empty by done. done. }
  intros E. apply (f_equal Zlen) in E. revert E. change (Zlen []) with 0. cbn [app NUM_WRITE_IOVEC take].
  rewrite chains_data_cons, Zlen_ztake, Zlen_app. apply Forall_cons in Hf as [Hc _]. apply Forall_cons in Hok as [Hokc _].
  rewrite Zlen_chain_data by done. pose proof (Zlen_nonneg (chains_data (take 127 (full ++ empt)))). lia.
Qed.

(** The event loop runs a write event only while it is pending. *)
Definition write_event (wr : list byte → Z) (sf : Z → Z → Z * bool) (s : Bufferevent) : outcome Bufferevent :=
  if event_pending (ev_write s) then bufferevent_writecb add_ok user EV_WRITE 0 wr sf false s else Val s.
Fixpoint write_events (n : nat) (wr : list byte → Z) (sf : Z → Z → Z * bool) (s : Bufferevent) : outcome Bufferevent :=
  match n with
  | O => Val s
  | S n => s ← write_event wr sf s; write_events n wr sf s
  end.

(** A socket that takes something whenever it is offered something. *)
Definition accepting (wr : list byte → Z) : Prop :=
  ∀ data, -1 <= wr data <= Zlen data ∧ (data ≠ [] → 0 < wr data).

(** What such a socket takes of the output is something. *)
Lemma accepting_sends wr r s :
  bev_ok fd opts 1 s → accepting wr → bytes (output s) ≠ [] →
  r = (if write_size MAX_TO_WRITE_EVER (output s) >? 0
       then match offered MAX_TO_WRITE_EVER (output s) with [] => r | data => wr data end else -1) → 0 < r.
Proof.
  intros Hok Hacc Hne Hr. pose proof Hok as (Hs & _). assert (0 < Zlen (bytes (output s))) as Hpos.
  { destruct (bytes (output s)) as [|x l]; [done|]. rewrite Zlen_cons. pose proof (Zlen_nonneg l). lia. }
  assert (evb_inv (refreeze false false (output s))) as Hi by apply (bc_out _ _ _ _ Hs).
  pose proof (offered_nonempty MAX_TO_WRITE_EVER _ Hi Hne ltac:(done)) as Ho.
  change (offered MAX_TO_WRITE_EVER (refreeze false false (output s))) with (offered MAX_TO_WRITE_EVER (output s)) in Ho.
  assert (write_size MAX_TO_WRITE_EVER (output s) >? 0 = true) as Hws.
  { unfold write_size, MAX_TO_WRITE_EVER. rewrite (output_len 1 s) by done. cbn [Z.ltb Z.compare orb].
    destruct (Z.gtb_spec 16384 (Zlen (bytes (output s)))); apply Z.gtb_lt; lia. }
  rewrite Hws in Hr. destruct (offered MAX_TO_WRITE_EVER (output s)) as [|x l]; [done|]. rewrite Hr. by apply Hacc.
Qed.

(** A write callback that does nothing leaves the buffers and events alone. *)
Lemma quiet_writecb ref s :
  bev_ok fd opts ref s → (∀ s, user CallWrite s = []) →
  ∃ s', (if eb_total_len (output s) <=? wm_low (wm_write s) then _bufferevent_run_writecb add_ok user s else Val s) = Val s' ∧
    bev_ok fd opts ref s' ∧ output s' = output s ∧ sent s' = sent s ∧ enabled s' = enabled s ∧ ev_write s' = ev_write s.
Proof.
  intros H3 Hquiet. destruct (_ <=? _); [|by exists s]. unfold _bufferevent_run_writecb.
  rewrite (no_deferring ref s) by apply H3.
  destruct (writecb s); cbn [negb]; [|by exists s]. unfold call_user. rewrite Hquiet. cbn [run_user].
  eexists. split; [done|]. split; [|done]. destruct H3 as (H3 & ? & ?). split; [bev_split H3|done].
Qed.

Lemma write_event_step wr sf s :
  bev_ok fd opts 1 s → has (enabled s) EV_WRITE = true → accepting wr → (∀ s, user CallWrite s = []) →
  bytes (output s) ≠ [] →
  ∃ s' r, write_event wr sf s = Val s' ∧ bev_ok fd opts 1 s' ∧ 0 < r ∧ enabled s' = enabled s ∧
    bytes (output s') = zdrop r (bytes (output s)) ∧ sent s' = sent s ++ ztake r (bytes (output s)) ∧
    (bytes (output s') = [] → event_pending (ev_write s') = false).
Proof.
  intros Hok Hen Hacc Hquiet Hne. pose proof Hok as (Hs & Hw & Hwm). unfold write_event. rewrite (Hw Hne Hen).
  unfold bufferevent_writecb, _bufferevent_incref_and_lock. destruct (bc_alive _ _ _ _ Hs) as [-> _].
  rewrite (bc_ref _ _ _ _ Hs). cbn [mbind outcome_bind]. change (EV_WRITE =? EV_TIMEOUT) with false. cbv iota.
  set (s1 := set_refcnt (1 + 1) s). assert (bev_ok fd opts 2 s1) as H1 by (split; [bev_split Hs; done|done]).
  rewrite (bc_connected _ _ _ _ (proj1 H1)). cbn [mbind outcome_bind]. unfold write_some.
  rewrite (bc_write_suspended _ _ _ _ (proj1 H1)). cbn [Z.eqb negb].
  change (output s1) with (output s). assert (0 < Zlen (bytes (output s))) as Hpos.
  { destruct (bytes (output s)) as [|x l]; [done|]. rewrite Zlen_cons. pose proof (Zlen_nonneg l). lia. }
  rewrite (output_len 1 s) by done. destruct (Z.eqb_spec (Zlen (bytes (output s))) 0); [lia|]. cbn [negb].
  destruct (write_output_ok wr sf 2 s1 H1 (λ data, proj1 (Hacc data))) as (r & b & E & H2 & Hb2 & Hk & Hr & Hle).
  change (output s1) with (output s) in *. rewrite E. cbn [mbind outcome_bind]. cbv zeta in *.
  assert (0 < r) as Hr0 by by apply (accepting_sends wr r s).
  assert (sent (put_output add_ok (evbuffer_freeze true b) s1) = sent s) as Es.
  { unfold sent. rewrite put_output_log by done. done. }
  set (s2 := set_sent _ _) in *. assert (sent s2 = sent s ++ ztake r (bytes (output s))) as Hs2 by (unfold s2; by rewrite Es).
  apply pair_equal_spec in Hk as [[Hcalls Hen2]%pair_equal_spec _]. clearbody s2. cbn [andb].
  destruct (Z.eqb_spec r (-1)); [lia|]. cbn [andb]. destruct (Z.leb_spec r 0); [lia|]. unfold after_write.
  destruct (Z.eqb_spec r 0); [lia|]. cbn [negb orb andb].
  set (s3 := if eb_total_len (output s2) =? 0 then del_write s2 else s2).
  assert (bev_ok fd opts 2 s3) as H3 by by apply del_if_empty_ok.
  assert (output s3 = output s2 ∧ sent s3 = sent s2 ∧ enabled s3 = enabled s2 ∧
    (bytes (output s2) = [] → event_pending (ev_write s3) = false)) as (O3 & S3 & E3 & P3).
  { unfold s3. rewrite (output_len 2 s2) by apply H2. destruct (Z.eqb_spec (Zlen (bytes (output s2))) 0) as [Ez|Ez]; [done|].
    repeat split. intros Eb. by rewrite Eb in Ez. }
  clearbody s3.
  destruct (quiet_writecb 2 s3 H3 Hquiet) as (s4 & -> & H4 & O4 & S4 & E4 & P4).
  cbn [mbind outcome_bind]. destruct (decref_ok fd opts 2 s4 H4 ltac:(lia)) as (s5 & E5 & H5). cbn [Z.eqb] in H5.
  exists s5, r. split; [done|]. split; [exact H5|]. split; [done|].
  unfold _bufferevent_decref_and_unlock in E5. rewrite (bc_ref _ _ _ _ (proj1 H4)) in E5. injection E5 as <-.
  change (enabled s4 = enabled s ∧ bytes (output s4) = zdrop r (bytes (output s)) ∧
    sent s4 = sent s ++ ztake r (bytes (output s)) ∧ (bytes (output s4) = [] → event_pending (ev_write s4) = false)).
  rewrite E4, E3, Hen2, O4, O3, Hb2, S4, S3, Hs2, P4. split; [done|]. split; [done|]. split; [done|].
  intros Eb. apply P3. by rewrite Hb2.
Qed.

(** C18.  Output drains.  Assumed: a connected bufferevent with bytes in its output, writing enabled,
    callbacks not deferred, event_add never failing, a write callback that makes no call on the
    bufferevent, and a socket that takes at least one byte, and at most all, whenever it is handed
    some ([accepting]).  Then as many rounds of the write event as there are bytes are enough: what
    was handed to writev and taken is exactly the buffered bytes in order, the buffer is empty and
    the write event is no longer pending. *)
Theorem output_drains wr sf s :
  bev_ok fd opts 1 s → has (enabled s) EV_WRITE = true → accepting wr → (∀ s, user CallWrite s = []) →
  bytes (output s) ≠ [] →
  ∃ s', write_events (length (bytes (output s))) wr sf s = Val s' ∧ bev_ok fd opts 1 s' ∧
    bytes (output s') = [] ∧ sent s' = sent s ++ bytes (output s) ∧ event_pending (ev_write s') = false.
Proof.
  intros Hs Hen Hacc Hq Hne.
  enough (∀ n s, bev_ok fd opts 1 s → has (enabled s) EV_WRITE = true → (length (bytes (output s)) <= n)%nat →
    (bytes (output s) = [] → event_pending (ev_write s) = false) →
    ∃ s', write_events n wr sf s = Val s' ∧ bev_ok fd opts 1 s' ∧ bytes (output s') = [] ∧
      sent s' = sent s ++ bytes (output s) ∧ event_pending (ev_write s') = false) as P.
  { apply P; [done|done|done|]. by intros E. }
  clear s Hs Hen Hne. induction n as [|n IH]; intros s Hs Hen Hlen Hemp; cbn [write_events].
  - assert (bytes (output s) = []) as E by (apply length_zero_iff_nil; lia).
    exists s. rewrite E, app_nil_r. exact (conj eq_refl (conj Hs (conj eq_refl (conj eq_refl (Hemp E))))).
  - destruct (decide (bytes (output s) = [])) as [E|Hne].
    + unfold write_event. rewrite (Hemp E). cbn [mbind outcome_bind]. apply IH; [done|done|rewrite E; cbn; lia|done].
    + destruct (write_event_step wr sf s Hs Hen Hacc Hq Hne) as (s1 & r & -> & H1 & Hr & He1 & Hb1 & Hs1 & Hp1).
      cbn [mbind outcome_bind]. destruct (IH s1) as (s2 & -> & H2 & Hb2 & Hs2 & Hp2); [done|by rewrite He1| |done|].
      { rewrite Hb1. unfold zdrop. rewrite length_drop. destruct (bytes (output s)); [done|]. cbn [length] in *. lia. }
      exists s2. split; [done|]. split; [done|]. split; [done|]. split; [|done].
      rewrite Hs2, Hs1, Hb1, <- app_assoc. by rewrite ztake_zdrop.
Qed.
End events.

Lemma socket_enable_refcnt add_ok e s : refcnt (be_socket_enable add_ok e s).2 = refcnt s.
Proof.
  unfold be_socket_enable, add_read, add_write.
  destruct (has e EV_READ); [destruct (_bufferevent_add_event add_ok EV_READ _ _) as [r1 e1]|]; cbn;
    try (destruct (_ =? -1); [done|]); (destruct (has e EV_WRITE); [|done]);
    destruct (_bufferevent_add_event add_ok EV_WRITE _ _) as [r2 e2]; cbn; by destruct (_ =? -1).
Qed.
Lemma suspend_refcnt what s :
  refcnt (bufferevent_suspend_read what s) = refcnt s ∧ refcnt (bufferevent_suspend_write what s) = refcnt s.
Proof.
  unfold bufferevent_suspend_read, bufferevent_suspend_write. split.
  - by destruct (read_suspended s =? 0).
  - destruct (write_suspended s =? 0); [|done]. unfold be_socket_disable. change (has EV_WRITE EV_READ) with false.
    cbv iota zeta. by destruct (_ && _).
Qed.
Lemma unsuspend_refcnt add_ok what s :
  refcnt (bufferevent_unsuspend_read add_ok what s) = refcnt s ∧
  refcnt (bufferevent_unsuspend_write add_ok what s) = refcnt s.
Proof.
  unfold bufferevent_unsuspend_read, bufferevent_unsuspend_write. cbv zeta.
  split; (destruct (_ && _); [by rewrite socket_enable_refcnt|done]).
Qed.

(** A lookup that cannot be started leaves a reference behind: the bufferevent is
    never freed. *)
Lemma failed_lookup_leaks add_ok port err s :
  1 <= port <= 65535 → err ≠ 0 →
  refcnt (bufferevent_socket_connect_hostname add_ok true port err s).2 = refcnt s + 1.
Proof.
  intros Hp He. unfold bufferevent_socket_connect_hostname. cbn [negb].
  destruct (Z.ltb_spec port 1); [lia|]. destruct (Z.gtb_spec port 65535); [lia|]. cbn [orb].
  destruct (Z.eqb_spec err 0); [done|]. cbn [snd].
  rewrite (proj1 (unsuspend_refcnt _ _ _)), (proj2 (unsuspend_refcnt _ _ _)).
  match goal with |- refcnt (set_refcnt ?n ?s) = _ => change (refcnt (set_refcnt n s)) with n end.
  by rewrite (proj1 (suspend_refcnt _ _)), (proj2 (suspend_refcnt _ _)).
Qed.
