(* ===== verification/PrintApi.v ===== *)
(** Creating evbuffers and printing into them, as an interface on top of EvbufferApi.v.  The chained
    buffers of buffer.c keep it: printing leaves no unused chain behind, so that bytes can be
    added afterwards. *)

From S2P Require Import Prelude EvbufferApi BufChain BufOps BufRefine BufExpand BufIo.

(** [evbuffer_add_printf] is given the text its arguments are formatted to. *)
Class EvbufferText (B : Type) := {
  evbuffer_create : option B;
  evbuffer_add_printf : B → list byte → Z * B
}.

Class EvbufferTextSpec (B : Type) `{EvbufferSpec B, !EvbufferText B} := {
  create_spec b : evbuffer_create = Some b → evb_ok b ∧ evb_writable b ∧ content b = [];
  create_reliable : evb_reliable → is_Some evbuffer_create;
  printf_spec b t r b' : evb_ok b → evb_writable b → t ≠ [] → Zlen t < 2 ^ 31 → evbuffer_add_printf b t = (r, b') →
    evb_ok b' ∧ (r = Zlen t ∧ evb_writable b' ∧ content b' = content b ++ t ∨ r = -1 ∧ content b' = content b);
  printf_reliable b t : evb_ok b → evb_writable b → t ≠ [] → Zlen t < 2 ^ 31 → evb_reliable → (evbuffer_add_printf b t).1 = Zlen t
}.

#[export] Instance list_text : EvbufferText (list byte) := { evbuffer_create := Some []; evbuffer_add_printf b t := (Zlen t, b ++ t) }.

#[export] Instance list_text_spec : EvbufferTextSpec (list byte).
Proof. split; [by intros b [= <-]|eauto| |done]. intros b t r b' _ _ _ _ [= <- <-]. split; [done|]. by left. Qed.

(** ** Chained buffers *)

Section chained.
Context `{Malloc}.

(** The size of struct evbuffer. *)
Definition sizeof_evbuffer : Z := 144.

#[export] Instance evb_text : EvbufferText Evb := {
  evbuffer_create := if malloc_ok sizeof_evbuffer then Some evbuffer_new else None;
  evbuffer_add_printf b t := defined (-1, b) (evbuffer_add_vprintf (Some t) b)
}.

(** Printing fills the last chain. *)
Lemma vprintf_fills fuel t i b c :
  evb_inv b → at_end b i → i = last_index b → eb_chains b !! i = Some c → Zlen t < CHAIN_SPACE_LEN c → t ≠ [] → Zlen t < 2 ^ 31 →
  ∃ b', vprintf_loop (S fuel) (Some t) i b = Val (Zlen t, b') ∧ evb_inv b' ∧ writable b' ∧ bytes b' = bytes b ++ t.
Proof.
  intros Hb Hend Hlast Hi Hs Hne Ht. assert (0 < Zlen t) as Hpos by (pose proof (Zlen_nonneg t); destruct (Z.eq_dec (Zlen t) 0) as [E%Zlen_0_inv|]; [done|lia]).
  pose proof (vprintf_step fuel t i b c Hb Hend Hi ltac:(lia) ltac:(lia)) as P. destruct (Z.ltb_spec (Zlen t) (CHAIN_SPACE_LEN c)); [|lia].
  destruct P as (b' & E & Hb' & Hbs & Hlen & c' & Hc' & Ho). exists b'. split; [done|]. split; [done|]. split; [|done].
  assert (chain_ok c) as Hc by (eapply Forall_lookup_1; [apply Hb|exact Hi]). pose proof (ok_off _ Hc).
  unfold writable, last_index in *. rewrite Hlen, <- Hlast. assert (eb_chains b' ≠ []) as Hne' by (intros E'; by rewrite E' in Hc').
  destruct (inv_lwd_split b' Hb' Hne') as (pre & c0 & rest & Hcs & Hl & Hz & _). rewrite <- Hl. destruct (decide (i < length pre)%nat) as [Hlt|].
  - exfalso. apply (f_equal length) in Hcs. rewrite length_app in Hcs. cbn in Hcs. lia.
  - rewrite Hcs, lookup_app_r in Hc' by lia. destruct (i - length pre)%nat as [|k] eqn:Ek; [lia|]. cbn in Hc'.
    pose proof (Forall_lookup_1 _ _ _ _ Hz Hc') as Hz'. cbn in Hz'. lia.
Qed.

Lemma data_at b i c : evb_inv b → eb_chains b !! i = Some c → 0 < ch_off c → bytes b ≠ [].
Proof.
  intros Hb Hi Ho E. assert (chain_ok c) as Hc by (eapply Forall_lookup_1; [apply Hb|exact Hi]). apply list_elem_of_split_length in Hi as (l1 & l2 & Hcs & _).
  unfold bytes in E. rewrite Hcs, chains_data_app, chains_data_cons in E. apply app_eq_nil in E as [_ E]. apply app_eq_nil in E as [E _].
  pose proof (Zlen_chain_data c Hc) as Hlen. rewrite E in Hlen. change (Zlen (@nil byte)) with 0 in Hlen. lia.
Qed.

(** A last chain with data that is not worth extending. *)
Definition poor (n : Z) (c : Chain) : Prop :=
  0 < ch_off c ∧ CHAIN_SPACE_LEN c < Z.max 1 n ∧
  (CHAIN_SPACE_LEN c ≠ 0 → evbuffer_chain_should_realign c n = false ∧ (CHAIN_SPACE_LEN c <? ch_buffer_len c / 8) || (ch_off c >? MAX_TO_COPY_IN_EXPAND) = true).

Lemma expand_new_poor n b pre c i b1 : evb_inv b → eb_chains b = pre ++ [c] → length pre = eb_lwd b → 0 < ch_off c → 0 <= n → n + EVBUFFER_CHAIN_SIZE <= 2 ^ 62 →
  expand_new n b = Val (Some i, b1) → eb_chains b1 !! eb_lwd b1 = Some c ∧ i = S (eb_lwd b1) ∧ ∃ t, eb_chains b1 !! i = Some t ∧ ch_off t = 0.
Proof.
  intros Hb Hcs Hl Ho Hn Hle. unfold expand_new, Buf.evbuffer_chain_insert_new.
  destruct (new_chain_room n Hn Hle) as [[-> _]|(t & -> & Ht & Ht0 & Hts & _ & _)]; cbn [mbind outcome_bind]; [done|].
  rewrite (insert_behind_data t b pre c [] Hb Ht Ht0 Hcs Hl) by done. cbn [mbind outcome_bind]. unfold last_index. cbn [eb_chains set_chains]. rewrite length_app. cbn [length].
  replace (pred (length pre + 2)) with (S (eb_lwd b)) by lia. unfold expanded. cbn [eb_chains set_chains].
  rewrite lookup_app_r by lia. replace (S (eb_lwd b) - length pre)%nat with 1%nat by lia. cbn [lookup list_lookup or_undef mbind outcome_bind].
  destruct (_ >=? _); [|done]. intros [= <- <-]. cbn [eb_chains set_chains eb_lwd]. rewrite !lookup_app_r by lia. replace (eb_lwd b - length pre)%nat with 0%nat by lia.
  replace (S (eb_lwd b) - length pre)%nat with 1%nat by lia. split; [done|]. split; [done|]. by exists t.
Qed.

(** What a buffer that can be added to looks like after it was expanded. *)
Lemma expand_poor n b i b1 : evb_inv b → writable b → 0 <= n → n + MAX_TO_COPY_IN_EXPAND + EVBUFFER_CHAIN_SIZE <= 2 ^ 62 →
  evbuffer_expand_singlechain n b = Val (Some i, b1) →
  writable b1 ∨ ∃ c, eb_chains b1 !! eb_lwd b1 = Some c ∧ poor n c ∧ i = S (eb_lwd b1) ∧ ∃ t, eb_chains b1 !! i = Some t ∧ ch_off t = 0.
Proof.
  intros Hb Hw Hn Hle. assert (n + EVBUFFER_CHAIN_SIZE <= 2 ^ 62) as Hle' by (unfold MAX_TO_COPY_IN_EXPAND in Hle; lia).
  assert (bytes b = [] → expand_new n b = Val (Some i, b1) → writable b1) as Hempty.
  { intros Hbs E. destruct (expand_new_spec n b Hb Hn Hle') as [[E' _]|(j & b2 & E' & Hb2 & Hbs2 & Hend & _)]; rewrite E' in E; [done|]. injection E as <- <-.
    unfold expand_new, Buf.evbuffer_chain_insert_new in E'. destruct (new_chain_room n Hn Hle') as [[Et _]|(t & Et & Ht & Ht0 & _)]; rewrite Et in E'; [done|]. cbn [mbind outcome_bind] in E'.
    destruct (insert_empty_spec t b Hb Ht Ht0) as (b3 & Ei & _ & _ & _ & He3 & _). rewrite Ei in E'. cbn [mbind outcome_bind] in E'. unfold expanded in E'.
    destruct (eb_chains b3 !! last_index b3); [|done]. cbn [or_undef mbind outcome_bind] in E'. destruct (_ >=? _); [|done]. injection E' as <- <-.
    destruct He3 as [He3|[_ (c3 & Hc3 & Hpos)]]; [done|]. exfalso. rewrite Hbs in Hbs2. apply (data_at b3 (eb_lwd b3) c3 Hb2 Hc3 Hpos Hbs2). }
  destruct (decide (eb_chains b = [])) as [E|E].
  { intros Hx. left. apply Hempty; [unfold bytes; by rewrite E|]. unfold evbuffer_expand_singlechain in Hx. by rewrite E, lookup_nil in Hx. }
  destruct (inv_lwd_split b Hb E) as (pre & c & rest & Hcs & Hl & Hz & Hpre & Hc0).
  assert (rest = []) as ->. { unfold writable, last_index in Hw. rewrite Hcs, length_app in Hw. cbn in Hw. destruct rest; [done|]. cbn in Hw. lia. }
  assert (chain_ok c) as Hc by (eapply (Forall_lookup_1 _ _ (length pre)); [apply Hb|]; rewrite Hcs; by apply list_lookup_middle).
  assert (eb_chains b !! eb_lwd b = Some c) as Hlk by (rewrite Hcs; by apply list_lookup_middle).
  assert (eb_chains b !! S (eb_lwd b) = None) as Hlk1. { apply lookup_ge_None. rewrite Hcs, length_app. cbn. lia. }
  pose proof (expand_new_poor n b pre c i b1 Hb Hcs Hl) as Hpoor. pose proof (space_nonneg c Hc) as Hsp. pose proof (ok_off _ Hc) as Hoff.
  unfold evbuffer_expand_singlechain, space_slot. rewrite Hlk. destruct (Z.eqb_spec (CHAIN_SPACE_LEN c) 0) as [Es|Es].
  - rewrite Hlk1. intros Hx. right. assert (0 < ch_off c) as Ho. { rewrite space_ok in Es by done. pose proof (ok_room _ Hc). lia. }
    destruct (Hpoor Ho Hn Hle' Hx) as (H1 & H2 & H3). exists c. split; [done|]. split; [|done]. split; [done|]. split; [lia|done].
  - rewrite Hlk, (ok_mutable _ Hc), (ok_unpinned _ Hc). cbn [orb]. destruct (Z.geb_spec (CHAIN_SPACE_LEN c) n) as [Hge|Hlt].
    { unfold expanded. rewrite Hlk. cbn [or_undef mbind outcome_bind]. destruct (_ >=? _); [|done]. intros [= _ <-]. by left. }
    destruct (Z.eqb_spec (ch_off c) 0) as [Ho|Ho].
    { intros Hx. left. apply Hempty; [|done]. unfold bytes. rewrite Hcs, Hc0 by done. cbn. rewrite chains_data_cons, chain_data_empty by done. done. }
    assert (∀ d, expanded (eb_lwd b) n (put_chain (eb_lwd b) d b) = Val (Some i, b1) → writable b1) as Hput.
    { intros d. unfold expanded. destruct (eb_chains (put_chain (eb_lwd b) d b) !! eb_lwd b); [|done]. cbn [or_undef mbind outcome_bind]. destruct (_ >=? _); [|done]. intros [= _ <-].
      unfold writable, last_index, put_chain in *. cbn. by rewrite length_insert. }
    destruct (evbuffer_chain_should_realign c n) eqn:Ere.
    { destruct (evbuffer_chain_align c) as [c'|]; [|done]. cbn [mbind outcome_bind]. intros Hx. left. by eapply Hput. }
    destruct (_ || _) eqn:Ew.
    { rewrite Hlk1. intros Hx. right. destruct (Hpoor ltac:(lia) Hn Hle' Hx) as (H1 & H2 & H3). exists c. split; [done|]. split; [|done]. split; [lia|]. split; [lia|done]. }
    destruct (evbuffer_chain_new _) as [[tmp|]|]; [|done|done]. cbn [mbind outcome_bind]. destruct (chain_load _ _ _); [|done]. cbn [mbind outcome_bind].
    destruct (chain_store _ _ _); [|done]. cbn [mbind outcome_bind]. intros Hx. left. by eapply Hput.
Qed.

(** Asked for more, such a buffer gets a new chain in place of the unused one. *)
Lemma expand_poor_new n m b c t : evb_inv b → eb_chains b !! eb_lwd b = Some c → poor n c → eb_chains b !! S (eb_lwd b) = Some t → ch_off t = 0 →
  CHAIN_SPACE_LEN t < m → n <= m → evbuffer_expand_singlechain m b = expand_new m b.
Proof.
  intros Hb Hlk (Ho & Hs & Hp) Hlt Ht0 Hm Hnm. assert (chain_ok c) as Hc by (eapply Forall_lookup_1; [apply Hb|exact Hlk]).
  assert (chain_ok t) as Ht by (eapply Forall_lookup_1; [apply Hb|exact Hlt]). pose proof (space_nonneg c Hc).
  unfold evbuffer_expand_singlechain, space_slot. rewrite Hlk. destruct (Z.eqb_spec (CHAIN_SPACE_LEN c) 0) as [Es|Es].
  - rewrite Hlt, (ok_mutable _ Ht), (ok_unpinned _ Ht), Ht0. cbn [orb]. by destruct (Z.geb_spec (CHAIN_SPACE_LEN t) m); [lia|].
  - rewrite Hlk, (ok_mutable _ Hc), (ok_unpinned _ Hc). cbn [orb]. destruct (Z.geb_spec (CHAIN_SPACE_LEN c) m); [lia|]. destruct (Z.eqb_spec (ch_off c) 0); [lia|].
    destruct (Hp Es) as [Hr ->]. rewrite Hlt. assert (evbuffer_chain_should_realign c m = false) as ->.
    { unfold evbuffer_chain_should_realign in *. destruct (Z.geb_spec (ch_buffer_len c - ch_off c) m), (Z.geb_spec (ch_buffer_len c - ch_off c) n); try done; lia. }
    by destruct (Z.geb_spec (CHAIN_SPACE_LEN t) m); [lia|].
Qed.

Lemma expand_new_last n b : evb_inv b → 0 <= n → n + EVBUFFER_CHAIN_SIZE <= 2 ^ 62 →
  (expand_new n b = Val (None, b) ∧ out_of_memory) ∨ ∃ b', expand_new n b = Val (Some (last_index b'), b') ∧ room_at n b (last_index b') b'.
Proof.
  intros Hb Hn Hle. destruct (expand_new_spec n b Hb Hn Hle) as [?|(i & b' & E & Hr)]; [by left|]. right. exists b'.
  assert (i = last_index b') as ->; [|done]. revert E. unfold expand_new. destruct (Buf.evbuffer_chain_insert_new n b) as [[b0|]|]; [|done|done]. cbn [mbind outcome_bind]. unfold expanded.
  destruct (eb_chains b0 !! last_index b0); [|done]. cbn [or_undef mbind outcome_bind]. destruct (_ >=? _); [|done]. by intros [= <- <-].
Qed.

Lemma writable_put i c b : writable (put_chain i c b) ↔ writable b.
Proof. unfold writable, last_index, put_chain. cbn. by rewrite length_insert. Qed.

Lemma add_printf_spec t b : evb_inv b → writable b → t ≠ [] → Zlen t < 2 ^ 31 →
  ∃ r b', evbuffer_add_vprintf (Some t) b = Val (r, b') ∧ evb_inv b' ∧
    (r = -1 ∧ bytes b' = bytes b ∧ out_of_memory ∨ r = Zlen t ∧ writable b' ∧ bytes b' = bytes b ++ t).
Proof.
  intros Hb Hw Hne Ht. pose proof (Zlen_nonneg t). unfold evbuffer_add_vprintf. rewrite (proj2 (wf_thawed _ Hb)).
  assert (64 + MAX_TO_COPY_IN_EXPAND + EVBUFFER_CHAIN_SIZE <= 2 ^ 62 ∧ (Zlen t + 1) + MAX_TO_COPY_IN_EXPAND + EVBUFFER_CHAIN_SIZE <= 2 ^ 62) as [Hle Hle'] by (unfold MAX_TO_COPY_IN_EXPAND, EVBUFFER_CHAIN_SIZE; lia).
  destruct (expand_singlechain_spec 64 b Hb) as [[-> Hoom]|(i & b1 & E1 & Hb1 & Hbs1 & Hend1 & Hl1 & c & Hi & Hs)]; [lia|done|..].
  { cbn [mbind outcome_bind]. exists (-1), b. split; [done|]. split; [done|]. by left. }
  rewrite E1. cbn [mbind outcome_bind]. specialize (Hl1 Hw). destruct (Z.lt_ge_cases (Zlen t) (CHAIN_SPACE_LEN c)) as [Hlt|Hge].
  { destruct (vprintf_fills 1 t i b1 c Hb1 Hend1 Hl1 Hi Hlt Hne Ht) as (b' & -> & Hb' & Hw' & Hbs). exists (Zlen t), b'. split; [done|]. split; [done|]. right. by rewrite Hbs, Hbs1. }
  pose proof (vprintf_step 1 t i b1 c Hb1 Hend1 Hi ltac:(lia) ltac:(lia)) as P. destruct (Z.ltb_spec (Zlen t) (CHAIN_SPACE_LEN c)); [lia|].
  destruct P as (b2 & -> & Hb2 & Hbs2 & c' & Eb2 & Ho & Hsp). assert (i < length (eb_chains b1))%nat as Hlti by (by eapply lookup_lt_Some).
  assert ((evbuffer_expand_singlechain (Zlen t + 1) b2 = Val (None, b2) ∧ out_of_memory) ∨
    ∃ b3, evbuffer_expand_singlechain (Zlen t + 1) b2 = Val (Some (last_index b3), b3) ∧ room_at (Zlen t + 1) b2 (last_index b3) b3) as [[-> Hoom]|(b3 & -> & Hb3 & Hbs3 & Hend3 & _ & d & Hd & Hsd)].
  { destruct (expand_poor 64 b i b1 Hb Hw ltac:(lia) Hle E1) as [Hw1|(c0 & Hc0 & Hpoor & -> & x & Hx & Hx0)].
    - destruct (expand_singlechain_spec (Zlen t + 1) b2 Hb2 ltac:(lia) Hle') as [?|(j & b3 & E3 & Hr)]; [by left|]. right. exists b3. pose proof Hr as (_ & _ & _ & Hl3 & _).
      rewrite <- Hl3; [done|]. rewrite Eb2. by apply writable_put.
    - rewrite (expand_poor_new 64 (Zlen t + 1) b2 c0 c' Hb2).
      + apply expand_new_last; [done|lia|]. unfold MAX_TO_COPY_IN_EXPAND in Hle'. lia.
      + rewrite Eb2. cbn. by rewrite list_lookup_insert_ne by lia.
      + done.
      + rewrite Eb2. cbn. by apply list_lookup_insert_eq.
      + rewrite Hi in Hx. injection Hx as <-. lia.
      + lia.
      + lia. }
  { cbn [mbind outcome_bind]. exists (-1), b2. split; [done|]. split; [done|]. left. split; [done|]. split; [congruence|done]. }
  cbn [mbind outcome_bind]. destruct (vprintf_fills 0 t (last_index b3) b3 d Hb3 Hend3 eq_refl Hd ltac:(lia) Hne Ht) as (b' & -> & Hb' & Hw' & Hbs). exists (Zlen t), b'. split; [done|]. split; [done|]. right.
  split; [done|]. split; [done|]. congruence.
Qed.

#[export] Instance evb_text_spec : EvbufferTextSpec Evb.
Proof.
  split.
  - intros b. cbn. destruct (malloc_ok _); [|done]. intros [= <-]. destruct evbuffer_new_inv as [? ?]. done.
  - intros Hr. cbn. rewrite (Hr sizeof_evbuffer). eauto.
  - intros b t r b' Hb Hw Hne Ht. cbn [evbuffer_add_printf evb_text]. destruct (add_printf_spec t b Hb Hw Hne Ht) as (r1 & b1 & -> & Hb1 & Hc). cbn [defined]. intros [= <- <-]. split; [done|].
    destruct Hc as [(-> & ? & _)|(-> & ? & ?)]; [by right|by left].
  - intros b t Hb Hw Hne Ht Hr. cbn [evbuffer_add_printf evb_text]. destruct (add_printf_spec t b Hb Hw Hne Ht) as (r1 & b1 & -> & Hb1 & Hc). cbn [defined fst].
    destruct Hc as [(_ & _ & Ho)|(-> & _)]; [|done]. by apply reliable_memory in Ho.
Qed.
End chained.
