(* ===== verification/Uri.v ===== *)
(** URIs: the last part of http.c of libevent 2.0.21, with the table of unreserved characters.

    Strings are as in Chars.v.  A range [s, eos) inside a string is the list of its characters;
    where the code looks behind [eos], the rest of the string is an argument.  evutil_inet_pton,
    which calls inet_pton of the system, is the parameter [inet_pton6], and memory is as in
    BufChain.v. *)

From S2P Require Import Prelude EvbufferApi BufChain Chars PrintApi.

(** ** Characters *)

Definition uri_chars : list Z := [
  0; 0; 0; 0; 0; 0; 0; 0;   0; 0; 0; 0; 0; 0; 0; 0;
  0; 0; 0; 0; 0; 0; 0; 0;   0; 0; 0; 0; 0; 0; 0; 0;
  0; 0; 0; 0; 0; 0; 0; 0;   0; 0; 0; 0; 0; 1; 1; 0;
  1; 1; 1; 1; 1; 1; 1; 1;   1; 1; 0; 0; 0; 0; 0; 0;
  0; 1; 1; 1; 1; 1; 1; 1;   1; 1; 1; 1; 1; 1; 1; 1;
  1; 1; 1; 1; 1; 1; 1; 1;   1; 1; 1; 0; 0; 0; 0; 1;
  0; 1; 1; 1; 1; 1; 1; 1;   1; 1; 1; 1; 1; 1; 1; 1;
  1; 1; 1; 1; 1; 1; 1; 1;   1; 1; 1; 0; 0; 0; 1; 0] ++ replicate 128 0.

Definition CHAR_IS_UNRESERVED (c : byte) : bool := negb (default 0 (znth uri_chars (b2z c)) =? 0).
Definition SUBDELIMS : list byte := bytes_of "!$&'()*+,;=".

(** [mm_malloc] and [mm_strdup]. *)
Definition mm_strdup `{Malloc} (s : list byte) : option (list byte) := if malloc_ok (Zlen s + 1) then Some s else None.

Record evhttp_uri := {
  u_flags : Z;
  u_scheme : option (list byte);
  u_userinfo : option (list byte);
  u_host : option (list byte);
  u_port : Z;
  u_path : option (list byte);
  u_query : option (list byte);
  u_fragment : option (list byte) }.

Definition EVHTTP_URI_NONCONFORMANT : Z := 0x01.

Definition scheme_ok (s : list byte) : bool :=
  match s with
  | [] => false
  | c :: s => EVUTIL_ISALPHA c && all_in (λ c, EVUTIL_ISALNUM c || isc "+"%byte c || isc "-"%byte c || isc "."%byte c) s
  end.

Fixpoint userinfo_ok (s : list byte) : bool :=
  match s with
  | [] => true
  | c :: s =>
      if CHAR_IS_UNRESERVED c || in_set SUBDELIMS c || isc ":"%byte c then userinfo_ok s
      else if isc "%"%byte c then match s with a :: b :: s => EVUTIL_ISXDIGIT a && EVUTIL_ISXDIGIT b && userinfo_ok s | _ => false end
      else false
  end.

(** [tail] is what follows behind [eos]; an escape may reach into it. *)
Fixpoint regname_ok (s tail : list byte) : bool :=
  match s with
  | [] => true
  | c :: s =>
      if CHAR_IS_UNRESERVED c || in_set SUBDELIMS c then regname_ok s tail
      else if isc "%"%byte c then
        match s with
        | a :: b :: s => EVUTIL_ISXDIGIT a && EVUTIL_ISXDIGIT b && regname_ok s tail
        | [a] => EVUTIL_ISXDIGIT a && EVUTIL_ISXDIGIT (head0 tail)
        | [] => EVUTIL_ISXDIGIT (head0 tail) && EVUTIL_ISXDIGIT (head0 (drop 1 tail))
        end
      else false
  end.

Fixpoint port_loop (portnum : Z) (s : list byte) : outcome Z :=
  match s with
  | [] => Val portnum
  | c :: s =>
      if negb (EVUTIL_ISDIGIT c) then Val (-1)
      else
        let portnum := portnum * 10 + (b2z c - 48) in
        if portnum >? 2 ^ 31 - 1 then Undef Overflow else port_loop portnum s
  end.
Definition parse_port : list byte → outcome Z := port_loop 0.

Section uri.
Context `{Malloc} (inet_pton6 : list byte → bool).

Definition bracket_addr_ok (s : list byte) : Z :=
  if (Zlen s <? 3) || negb (isc "["%byte (head0 s)) || negb (isc "]"%byte (List.last s NUL)) then 0
  else if isc "v"%byte (head0 (drop 1 s)) then
    let s := removelast (drop 2 s) in
    if negb (EVUTIL_ISXDIGIT (head0 (s ++ [("]"%byte : byte)]))) then 0
    else
      let '(version, rest) := break (isc "."%byte) s in
      if negb (all_in EVUTIL_ISXDIGIT version) then 0
      else
        match rest with
        | [] => 0
        | _ :: rest => if all_in (λ c, CHAR_IS_UNRESERVED c || in_set SUBDELIMS c || isc ":"%byte c) rest then 2 else 0
        end
  else
    let buf := removelast (drop 1 s) in
    if Zlen buf >=? 64 then 0 else if inet_pton6 buf then 1 else 0.

Definition set_userinfo (o : option (list byte)) (u : evhttp_uri) : evhttp_uri :=
  {| u_flags := u_flags u; u_scheme := u_scheme u; u_userinfo := o; u_host := u_host u; u_port := u_port u; u_path := u_path u;
     u_query := u_query u; u_fragment := u_fragment u |}.
Definition set_host (o : option (list byte)) (u : evhttp_uri) : evhttp_uri :=
  {| u_flags := u_flags u; u_scheme := u_scheme u; u_userinfo := u_userinfo u; u_host := o; u_port := u_port u; u_path := u_path u;
     u_query := u_query u; u_fragment := u_fragment u |}.
Definition set_port (port : Z) (u : evhttp_uri) : evhttp_uri :=
  {| u_flags := u_flags u; u_scheme := u_scheme u; u_userinfo := u_userinfo u; u_host := u_host u; u_port := port; u_path := u_path u;
     u_query := u_query u; u_fragment := u_fragment u |}.

(** The [for] loop from the end: the digits at the end of [cp, eos), behind a colon. *)
Definition split_port (cp : list byte) : option (list byte * list byte) :=
  let '(digits, rest) := break (λ c, negb (EVUTIL_ISDIGIT c)) (rev cp) in
  match rest with
  | c :: rest => if isc ":"%byte c then Some (rev rest, rev digits) else None
  | [] => None
  end.

(** The host, which [tail] follows. *)
Definition parse_host (cp tail : list byte) (uri : evhttp_uri) : option evhttp_uri :=
  let ok :=
    if isc "["%byte (head0 cp) && (Zlen cp >=? 2) && isc "]"%byte (List.last cp NUL) then negb (bracket_addr_ok cp =? 0)
    else regname_ok cp tail in
  if ok then if malloc_ok (Zlen cp + 1) then Some (set_host (Some cp) uri) else None else None.

(** [None] is the result -1. *)
Definition parse_authority (s tail : list byte) (uri : evhttp_uri) : outcome (option evhttp_uri) :=
  match s with
  | [] => Val (match mm_strdup [] with Some h => Some (set_host (Some h) uri) | None => None end)
  | _ =>
      let go cp uri :=
        match split_port cp with
        | Some (host, digits) =>
            port ← (match digits with [] => Val (Some (-1)) | _ => p ← parse_port digits; Val (if p <? 0 then None else Some p) end);
            Val (match port with
                 | Some port => parse_host host (":"%byte :: digits ++ tail) (set_port port uri)
                 | None => None
                 end)
        | None => Val (parse_host cp tail uri)
        end in
      match strchr s "@"%byte with
      | Some (userinfo, cp) =>
          if userinfo_ok userinfo then
            match mm_strdup userinfo with Some i => go cp (set_userinfo (Some i) uri) | None => Val None end
          else Val None
      | None => go s uri
      end
  end.

(** The authority and what follows. *)
Definition end_of_authority : list byte → list byte * list byte := break (λ c, isc "?"%byte c || isc "#"%byte c || isc "/"%byte c).

Inductive uri_part := PART_PATH | PART_QUERY | PART_FRAGMENT.

Definition is_part_path (p : uri_part) : bool := match p with PART_PATH => true | _ => false end.

(** The characters a part may consist of, escapes apart. *)
Definition part_char (part : uri_part) (c : byte) : bool :=
  CHAR_IS_UNRESERVED c || in_set SUBDELIMS c || isc ":"%byte c || isc "@"%byte c || isc "/"%byte c || (isc "?"%byte c && negb (is_part_path part)).

(** The longest prefix that matches, and the rest. *)
Fixpoint path_loop (part : uri_part) (cp : list byte) : list byte * list byte :=
  match cp with
  | [] => ([], [])
  | c :: cp' =>
      if part_char part c then let '(l, r) := path_loop part cp' in (c :: l, r)
      else if isc "%"%byte c then
        match cp' with
        | a :: b :: cp'' =>
            if EVUTIL_ISXDIGIT a && EVUTIL_ISXDIGIT b then let '(l, r) := path_loop part cp'' in (c :: a :: b :: l, r) else ([], cp)
        | _ => ([], cp)
        end
      else ([], cp)
  end.

Definition end_of_path (part : uri_part) (flags : Z) (cp : list byte) : list byte * list byte :=
  if negb (Z.land flags EVHTTP_URI_NONCONFORMANT =? 0) then
    match part with
    | PART_PATH => break (λ c, isc "#"%byte c || isc "?"%byte c) cp
    | PART_QUERY => break (isc "#"%byte) cp
    | PART_FRAGMENT => (cp, [])
    end
  else path_loop part cp.

Fixpoint path_matches_noscheme (cp : list byte) : bool :=
  match cp with
  | [] => true
  | c :: cp => if isc ":"%byte c then false else if isc "/"%byte c then true else path_matches_noscheme cp
  end.

Definition sizeof_evhttp_uri : Z := 64.
Definition blank_uri (flags : Z) : evhttp_uri :=
  {| u_flags := flags; u_scheme := None; u_userinfo := None; u_host := None; u_port := -1; u_path := None; u_query := None; u_fragment := None |}.

Definition evhttp_uri_new : option evhttp_uri := if malloc_ok sizeof_evhttp_uri then Some (blank_uri 0) else None.

Definition set_scheme (o : option (list byte)) (u : evhttp_uri) : evhttp_uri :=
  {| u_flags := u_flags u; u_scheme := o; u_userinfo := u_userinfo u; u_host := u_host u; u_port := u_port u; u_path := u_path u;
     u_query := u_query u; u_fragment := u_fragment u |}.
Definition set_path (o : option (list byte)) (u : evhttp_uri) : evhttp_uri :=
  {| u_flags := u_flags u; u_scheme := u_scheme u; u_userinfo := u_userinfo u; u_host := u_host u; u_port := u_port u; u_path := o;
     u_query := u_query u; u_fragment := u_fragment u |}.
Definition set_query (o : option (list byte)) (u : evhttp_uri) : evhttp_uri :=
  {| u_flags := u_flags u; u_scheme := u_scheme u; u_userinfo := u_userinfo u; u_host := u_host u; u_port := u_port u; u_path := u_path u;
     u_query := o; u_fragment := u_fragment u |}.
Definition set_fragment (o : option (list byte)) (u : evhttp_uri) : evhttp_uri :=
  {| u_flags := u_flags u; u_scheme := u_scheme u; u_userinfo := u_userinfo u; u_host := u_host u; u_port := u_port u; u_path := u_path u;
     u_query := u_query u; u_fragment := o |}.

(** [mm_strdup] of a string that may be absent; [None] when there is no memory. *)
Definition dup_opt (o : option (list byte)) : option (option (list byte)) :=
  match o with Some s => match mm_strdup s with Some s => Some (Some s) | None => None end | None => Some None end.

(** A part that begins with a character: the part, if it is there, and the rest. *)
Definition take_part (c : byte) (part : uri_part) (flags : Z) (readp : list byte) : option (list byte) * list byte :=
  match readp with
  | x :: readp' => if isc c x then let '(l, r) := end_of_path part flags readp' in (Some l, r) else (None, readp)
  | [] => (None, readp)
  end.

(** Path, query and fragment. *)
Definition parse_parts (got_authority : bool) (readp : list byte) (uri : evhttp_uri) : option evhttp_uri :=
  let flags := u_flags uri in
  let '(path, readp) := end_of_path PART_PATH flags readp in
  let '(query, readp) := take_part "?"%byte PART_QUERY flags readp in
  let '(fragment, readp) := take_part "#"%byte PART_FRAGMENT flags readp in
  match readp with
  | _ :: _ => None
  | [] =>
      if negb got_authority && isc "/"%byte (head0 path) && isc "/"%byte (head0 (drop 1 path)) then None
      else if got_authority && negb (isc "/"%byte (head0 path)) && negb (isc NUL (head0 path)) then None
      else if match u_scheme uri with None => true | Some _ => false end && negb (path_matches_noscheme path) then None
      else
        match mm_strdup path, dup_opt query, dup_opt fragment with
        | Some path, Some query, Some fragment => Some (set_fragment fragment (set_query query (set_path (Some path) uri)))
        | _, _, _ => None
        end
  end.

Definition evhttp_uri_parse_with_flags (source_uri : list byte) (flags : Z) : outcome (option evhttp_uri) :=
  if negb (malloc_ok sizeof_evhttp_uri && malloc_ok (Zlen source_uri + 1)) then Val None
  else
    let uri := blank_uri flags in
    let start :=
      match strchr source_uri ":"%byte with
      | Some (scheme, rest) =>
          if scheme_ok scheme then
            match mm_strdup scheme with Some s => Some (rest, set_scheme (Some s) uri) | None => None end
          else Some (source_uri, uri)
      | None => Some (source_uri, uri)
      end in
    match start with
    | None => Val None
    | Some (readp, uri) =>
        if isc "/"%byte (head0 readp) && isc "/"%byte (head0 (drop 1 readp)) then
          let '(authority, path) := end_of_authority (drop 2 readp) in
          o ← parse_authority authority path uri;
          Val (match o with Some uri => parse_parts true path uri | None => None end)
        else Val (parse_parts false readp uri)
    end.

Definition evhttp_uri_parse (source_uri : list byte) : outcome (option evhttp_uri) := evhttp_uri_parse_with_flags source_uri 0.

(** ** Joining *)

(** [%d] of a number that is not negative. *)
Fixpoint decimal_loop (fuel : nat) (n : Z) (acc : list byte) : list byte :=
  let acc := z2b (48 + n mod 10) :: acc in
  match fuel with
  | S fuel => if n <? 10 then acc else decimal_loop fuel (n / 10) acc
  | O => acc
  end.
Definition decimal (n : Z) : list byte := decimal_loop 10 n [].

Definition add_opt `{Evbuffer B} (before : list byte) (o : option (list byte)) (tmp : B) : B :=
  match o with
  | Some s =>
      let tmp := match before with [] => tmp | _ => (evbuffer_add tmp before).2 end in
      (evbuffer_add tmp s).2
  | None => tmp
  end.

(** The string with its NUL; the caller's buffer has room for [limit] bytes. *)
Definition evhttp_uri_join `{Evbuffer B, !EvbufferText B} (uri : evhttp_uri) (limit : Z) : option (list byte) :=
  if limit =? 0 then None
  else
    match evbuffer_create with
    | None => None
    | Some tmp =>
        let tmp := match u_scheme uri with Some s => (evbuffer_add (evbuffer_add (tmp : B) s).2 [(":"%byte : byte)]).2 | None => tmp end in
        let joined :=
          match u_host uri with
          | Some host =>
              let tmp := (evbuffer_add tmp (bytes_of "//")).2 in
              let tmp := match u_userinfo uri with Some i => (evbuffer_add_printf tmp (i ++ [("@"%byte : byte)])).2 | None => tmp end in
              let tmp := (evbuffer_add tmp host).2 in
              let tmp := if u_port uri >=? 0 then (evbuffer_add_printf tmp (":"%byte :: decimal (u_port uri))).2 else tmp in
              match u_path uri with
              | Some path => if negb (isc "/"%byte (head0 path)) && negb (isc NUL (head0 path)) then None else Some tmp
              | None => Some tmp
              end
          | None => Some tmp
          end in
        match joined with
        | None => None
        | Some tmp =>
            let tmp := add_opt [] (u_path uri) tmp in
            let tmp := add_opt [("?"%byte : byte)] (u_query uri) tmp in
            let tmp := add_opt [("#"%byte : byte)] (u_fragment uri) tmp in
            let tmp := (evbuffer_add tmp [NUL]).2 in
            let joined_size := evbuffer_get_length tmp in
            if joined_size >? limit then None else Some (evbuffer_remove tmp joined_size).1.2
        end
    end.

(** ** Changing *)

(** The macro _URI_SET_STR. *)
Definition URI_SET_STR (set : option (list byte) → evhttp_uri → evhttp_uri) (f : option (list byte)) (uri : evhttp_uri) : Z * evhttp_uri :=
  match dup_opt f with Some o => (0, set o uri) | None => (-1, set None uri) end.

Definition evhttp_uri_set_flags (flags : Z) (uri : evhttp_uri) : evhttp_uri :=
  {| u_flags := flags; u_scheme := u_scheme uri; u_userinfo := u_userinfo uri; u_host := u_host uri; u_port := u_port uri; u_path := u_path uri;
     u_query := u_query uri; u_fragment := u_fragment uri |}.
Definition evhttp_uri_set_scheme (scheme : option (list byte)) (uri : evhttp_uri) : Z * evhttp_uri :=
  if match scheme with Some s => negb (scheme_ok s) | None => false end then (-1, uri) else URI_SET_STR set_scheme scheme uri.
Definition evhttp_uri_set_userinfo (userinfo : option (list byte)) (uri : evhttp_uri) : Z * evhttp_uri :=
  if match userinfo with Some s => negb (userinfo_ok s) | None => false end then (-1, uri) else URI_SET_STR set_userinfo userinfo uri.
Definition evhttp_uri_set_host (host : option (list byte)) (uri : evhttp_uri) : Z * evhttp_uri :=
  if match host with Some h => if isc "["%byte (head0 h) then bracket_addr_ok h =? 0 else negb (regname_ok h []) | None => false end then (-1, uri)
  else URI_SET_STR set_host host uri.
Definition evhttp_uri_set_port (port : Z) (uri : evhttp_uri) : Z * evhttp_uri := if port <? -1 then (-1, uri) else (0, set_port port uri).
Definition set_part (part : uri_part) (set : option (list byte) → evhttp_uri → evhttp_uri) (o : option (list byte)) (uri : evhttp_uri) : Z * evhttp_uri :=
  if match o with Some s => match (end_of_path part (u_flags uri) s).2 with [] => false | _ => true end | None => false end then (-1, uri)
  else URI_SET_STR set o uri.
Definition evhttp_uri_set_path : option (list byte) → evhttp_uri → Z * evhttp_uri := set_part PART_PATH set_path.
Definition evhttp_uri_set_query : option (list byte) → evhttp_uri → Z * evhttp_uri := set_part PART_QUERY set_query.
Definition evhttp_uri_set_fragment : option (list byte) → evhttp_uri → Z * evhttp_uri := set_part PART_FRAGMENT set_fragment.
End uri.
