(* ===== verification/UriProps.v ===== *)
(** What the URI functions of Uri.v promise: the parser accepts exactly the strings that spell a URI,
    and joining a URI gives a string that is parsed back to it. *)

From S2P Require Import Prelude EvbufferApi BufChain BufRefine Chars PrintApi Uri.

(** ** Strings with escapes *)

(** Either the first character is dropped or three of them are. *)
Lemma escape_ind (P : list byte → Prop) : P [] → (∀ c s, P s → (∀ a b s', s = a :: b :: s' → P s') → P (c :: s)) → ∀ s, P s.
Proof.
  intros H0 Hc s. assert (∀ n s, (length s < n)%nat → P s) as H; [|apply (H (S (length s))); lia]. clear s. intros n. induction n as [|n IH]; intros s Hs; [lia|].
  destruct s as [|c s]; [done|]. cbn in Hs. apply Hc; [apply IH; lia|]. intros a b s' ->. apply IH. cbn in Hs. lia.
Qed.

Definition pct : byte := "%"%byte.
Definition name_char (c : byte) : bool := CHAR_IS_UNRESERVED c || in_set SUBDELIMS c.
Definition info_char (c : byte) : bool := name_char c || isc ":"%byte c.

Lemma xdigit_name c : EVUTIL_ISXDIGIT c = true → name_char c = true.
Proof. revert c. by apply class_sub. Qed.

Lemma xdigits_in (f : byte → bool) a b : (∀ c, name_char c = true → f c = true) → EVUTIL_ISXDIGIT a && EVUTIL_ISXDIGIT b = true → f a = true ∧ f b = true.
Proof. intros Hf [Ha Hb]%andb_true_iff. split; by apply Hf, xdigit_name. Qed.

Lemma userinfo_chars s : userinfo_ok s = true → all_in (λ c, info_char c || isc pct c) s = true.
Proof.
  induction s as [|c s IH1 IH2] using escape_ind; [done|]. cbn [userinfo_ok]. fold (name_char c). fold (info_char c). rewrite all_in_cons. destruct (info_char c); [done|].
  fold pct. destruct (isc pct c); [|done]. destruct s as [|a [|b s]]; try done. intros [Hx Hs]%andb_true_iff.
  destruct (xdigits_in (λ c, info_char c || isc pct c) a b) as [Ha Hb]; [by intros x Hx'; unfold info_char; rewrite Hx'|done|]. rewrite !all_in_cons, Ha, Hb. cbn [orb andb]. by apply (IH2 a b).
Qed.

Lemma regname_chars s : regname_ok s [] = true → all_in (λ c, name_char c || isc pct c) s = true.
Proof.
  induction s as [|c s IH1 IH2] using escape_ind; [done|]. cbn [regname_ok]. fold (name_char c). rewrite all_in_cons. destruct (name_char c); [done|].
  fold pct. destruct (isc pct c); [|done]. destruct s as [|a [|b s]]; [done|by rewrite andb_false_r|]. intros [Hx Hs]%andb_true_iff.
  destruct (xdigits_in (λ c, name_char c || isc pct c) a b) as [Ha Hb]; [by intros x ->|done|]. rewrite !all_in_cons, Ha, Hb. cbn [orb andb]. by apply (IH2 a b).
Qed.

(** An escape does not reach over a delimiter. *)
Lemma regname_tail s tail : EVUTIL_ISXDIGIT (head0 tail) = false → regname_ok s tail = regname_ok s [].
Proof.
  intros Ht. induction s as [|c s IH1 IH2] using escape_ind; [done|]. cbn [regname_ok]. destruct (_ || _); [done|]. destruct (isc _ _); [|done].
  destruct s as [|a [|b s]]; [by rewrite Ht|by rewrite Ht, !andb_false_r|]. by rewrite (IH2 a b).
Qed.

(** ** Paths, queries and fragments *)

Lemma path_loop_split part s : let '(l, r) := path_loop part s in s = l ++ r ∧ path_loop part l = (l, []).
Proof.
  induction s as [|c s IH1 IH2] using escape_ind; [done|]. cbn [path_loop]. destruct (part_char part c) eqn:Ec.
  - destruct (path_loop part s) as [l r]. destruct IH1 as [-> IH]. split; [done|]. cbn [path_loop]. by rewrite Ec, IH.
  - destruct (isc "%"%byte c) eqn:Ep; [|done]. destruct s as [|a [|b s]]; try done. destruct (EVUTIL_ISXDIGIT a && EVUTIL_ISXDIGIT b) eqn:Ex; [|done].
    specialize (IH2 a b s eq_refl). destruct (path_loop part s) as [l r]. destruct IH2 as [-> IH]. split; [done|]. cbn [path_loop]. by rewrite Ec, Ep, Ex, IH.
Qed.

Lemma path_loop_app part s r : (path_loop part s).2 = [] → (match r with [] => True | c :: _ => part_char part c = false ∧ isc pct c = false ∧ EVUTIL_ISXDIGIT c = false end) →
  path_loop part (s ++ r) = (s, r).
Proof.
  intros Hs Hr. revert Hs. induction s as [|c s IH1 IH2] using escape_ind.
  { intros _. destruct r as [|c r]; [done|]. destruct Hr as (Hc & Hp & _). cbn [app path_loop]. rewrite Hc. fold pct. by rewrite Hp. }
  cbn [path_loop app]. destruct (part_char part c); [destruct (path_loop part s) as [l q]; intros Hq; by rewrite IH1|].
  destruct (isc "%"%byte c); [|done]. destruct s as [|a [|b s]]; [done|done|]. destruct (EVUTIL_ISXDIGIT a && EVUTIL_ISXDIGIT b) eqn:Ex; [|done]. cbn [app]. rewrite Ex.
  specialize (IH2 a b s eq_refl). destruct (path_loop part s) as [l q]. intros Hq. by rewrite IH2.
Qed.

Lemma path_loop_chars part s : (path_loop part s).2 = [] → all_in (λ c, part_char part c || isc pct c) s = true.
Proof.
  induction s as [|c s IH1 IH2] using escape_ind; [done|]. cbn [path_loop]. rewrite all_in_cons. destruct (part_char part c); [destruct (path_loop part s); done|].
  fold pct. destruct (isc pct c); [|done]. destruct s as [|a [|b s]]; [done|done|]. destruct (EVUTIL_ISXDIGIT a && EVUTIL_ISXDIGIT b) eqn:Ex; [|done].
  destruct (xdigits_in (λ c, part_char part c || isc pct c) a b) as [Ha Hb]; [by intros x Hx; unfold part_char; fold (name_char x); rewrite Hx|done|].
  specialize (IH2 a b s eq_refl). destruct (path_loop part s). rewrite !all_in_cons, Ha, Hb. done.
Qed.

Definition part_ok (part : uri_part) (flags : Z) (s : list byte) : Prop := (end_of_path part flags s).2 = [].

(** What ends a part: nothing, or a delimiter of a later part. *)
Definition part_ends (part : uri_part) (r : list byte) : Prop :=
  match r with
  | [] => True
  | c :: _ => match part with PART_PATH => c = "?"%byte ∨ c = "#"%byte | PART_QUERY => c = "#"%byte | PART_FRAGMENT => False end
  end.

Lemma end_of_path_split part flags s l r : end_of_path part flags s = (l, r) → s = l ++ r ∧ part_ok part flags l.
Proof.
  unfold part_ok, end_of_path. destruct (negb _).
  - assert (∀ f, break f s = (l, r) → s = l ++ r ∧ (break f l).2 = []) as Hb.
    { intros f E. pose proof (break_app f s) as Ha. pose proof (break_out f s) as Ho. rewrite E in Ha, Ho. cbn in Ha, Ho. split; [done|].
      pose proof (break_at f l [] Ho I) as E'. rewrite app_nil_r in E'. by rewrite E'. }
    destruct part; [apply Hb|apply Hb|]. intros [= <- <-]. by rewrite app_nil_r.
  - intros E. pose proof (path_loop_split part s) as Hp. rewrite E in Hp. destruct Hp as [? ->]. done.
Qed.

Lemma end_of_path_app part flags s r : part_ok part flags s → part_ends part r → end_of_path part flags (s ++ r) = (s, r).
Proof.
  unfold part_ok, end_of_path. destruct (negb _).
  - assert (∀ f, (break f s).2 = [] → match r with [] => True | c :: _ => f c = true end → break f (s ++ r) = (s, r)) as Hb.
    { intros f E Hr. apply break_at; [|done]. pose proof (break_app f s) as Ha. pose proof (break_out f s) as Ho. rewrite E, app_nil_r in Ha. by rewrite Ha in Ho. }
    intros Hs Hr. destruct part; [apply Hb|apply Hb|]; try done; destruct r as [|c r]; try done; cbn in Hr.
    + by destruct Hr as [-> | ->].
    + by subst c.
    + by rewrite app_nil_r.
  - intros Hs Hr. apply path_loop_app; [done|]. destruct r as [|c r]; [done|]. destruct part; cbn in Hr; [destruct Hr as [-> | ->]|subst c|done]; by vm_compute.
Qed.

(** ** Authorities *)

Definition opt_text (f : list byte → list byte) (o : option (list byte)) : list byte := match o with Some s => f s | None => [] end.

(** A port and how it may be written: an empty one counts as none. *)
Definition port_text (p : Z) (t : list byte) : Prop :=
  (p = -1 ∧ (t = [] ∨ t = [(":"%byte : byte)])) ∨
  ∃ ds, t = ":"%byte :: ds ∧ ds ≠ [] ∧ all_in EVUTIL_ISDIGIT ds = true ∧ parse_port ds = Val p.

Lemma split_port_some cp h ds : split_port cp = Some (h, ds) ↔ cp = h ++ ":"%byte :: ds ∧ all_in EVUTIL_ISDIGIT ds = true.
Proof.
  set (f := λ c, negb (EVUTIL_ISDIGIT c)). assert (∀ s, all_in (λ c, negb (f c)) s = all_in EVUTIL_ISDIGIT (rev s)) as Hf.
  { intros s. unfold f, all_in. induction s as [|c s IH]; [done|]. cbn [forallb rev]. rewrite forallb_app, negb_involutive, IH. cbn. by rewrite andb_true_r, andb_comm. }
  unfold split_port. fold f. split.
  - pose proof (break_app f (rev cp)) as Ha. pose proof (break_out f (rev cp)) as Ho. destruct (break f (rev cp)) as [d [|c rest]]; [done|]. destruct (isc ":"%byte c) eqn:Ec; [|done].
    apply is_eq in Ec as ->. intros [= <- <-]. cbn in Ha, Ho. apply (f_equal (@rev byte)) in Ha. rewrite rev_involutive, rev_app_distr in Ha. cbn in Ha. rewrite <- app_assoc in Ha.
    split; [by rewrite <- Ha|]. by rewrite Hf in Ho.
  - intros [-> Hd]. rewrite rev_app_distr. cbn [rev]. rewrite <- app_assoc. cbn [app]. rewrite break_at; [|by rewrite Hf, rev_involutive|done]. by rewrite is_same, !rev_involutive.
Qed.

Lemma port_loop_nonneg ds n p : all_in EVUTIL_ISDIGIT ds = true → 0 <= n → port_loop n ds = Val p → 0 <= p.
Proof.
  revert n. induction ds as [|c ds IH]; intros n; cbn [port_loop]; [by intros _ ? [= <-]|]. rewrite all_in_cons. intros [Hc Hd]%andb_true_iff Hn. rewrite Hc. cbn [negb]. destruct (_ >? _); [done|].
  apply IH; [done|]. assert (48 <= b2z c); [|lia]. apply Z.leb_le. revert c Hc. by apply class_sub.
Qed.

Lemma port_loop_undef ds n e : port_loop n ds = Undef e → e = Overflow.
Proof. revert n. induction ds as [|c ds IH]; intros n; cbn [port_loop]; [done|]. destruct (negb _); [done|]. destruct (_ >? _); [by intros [= <-]|]. apply IH. Qed.

Definition auth_char (c : byte) : bool := info_char c || isc pct c || isc "["%byte c || isc "]"%byte c.

Section spec.
Context `{Malloc} (inet_pton6 : list byte → bool).

(** What the documentation of inet_pton says of an IPv6 address: hexadecimal digits, colons and dots. *)
Definition pton_chars : Prop := ∀ s, inet_pton6 s = true → all_in (λ c, EVUTIL_ISXDIGIT c || isc ":"%byte c || isc "."%byte c) s = true.
Context (Hpton : pton_chars) (Hmem : reliable).

Definition bracketed (h : list byte) : bool := isc "["%byte (head0 h) && (Zlen h >=? 2) && isc "]"%byte (List.last h NUL).
Definition host_ok (h : list byte) : bool := if bracketed h then negb (bracket_addr_ok inet_pton6 h =? 0) else regname_ok h [].

Lemma bracketed_split h : bracketed h = true → ∃ m, h = "["%byte :: m ++ [("]"%byte : byte)].
Proof.
  unfold bracketed. rewrite !andb_true_iff. intros [[Hh Hl] He]. destruct h as [|c h]; [done|]. apply is_eq in Hh. cbn in Hh. subst c.
  destruct h as [|d m _] using rev_ind; [done|]. exists m. rewrite app_comm_cons, last_last in He. by apply is_eq in He as ->.
Qed.

Lemma bracket_chars h : bracketed h = true → negb (bracket_addr_ok inet_pton6 h =? 0) = true → all_in auth_char h = true.
Proof.
  intros Hb. destruct (bracketed_split h Hb) as [m ->]. unfold bracket_addr_ok. destruct (_ || _); [done|]. cbn [drop head0].
  rewrite all_in_cons, all_in_app. replace (auth_char "["%byte) with true by done. replace (all_in auth_char ["]"%byte]) with true by done. rewrite andb_true_r. cbn [andb].
  assert (∀ f s, (∀ c, implb (f c) (auth_char c) = true) → all_in f s = true → all_in auth_char s = true) as Hsub.
  { intros f s Hi. apply all_in_sub. intros c Hf. specialize (Hi c). by rewrite Hf in Hi. }
  destruct (isc "v"%byte _) eqn:Ev.
  - destruct m as [|c m]; [done|]. cbn [app head0 drop] in *. apply is_eq in Ev as ->. rewrite drop_0, removelast_last, all_in_cons. replace (auth_char "v"%byte) with true by done. cbn [andb].
    destruct (EVUTIL_ISXDIGIT (head0 (m ++ _))); cbn [negb]; [|done]. pose proof (break_app (isc "."%byte) m) as Ha. pose proof (break_rest (isc "."%byte) m) as Hr. destruct (break (isc "."%byte) m) as [v [|c r]]; cbn in Ha, Hr.
    + by destruct (negb (all_in _ _)).
    + destruct (all_in EVUTIL_ISXDIGIT v) eqn:Hv; [|done]. cbn [negb]. destruct (all_in _ r) eqn:Hr'; [|done]. intros _. apply is_eq in Hr as ->. rewrite <- Ha, all_in_app, all_in_cons.
      rewrite (Hsub _ _ (each_byte (λ c, implb (EVUTIL_ISXDIGIT c) (auth_char c)) eq_refl) Hv). rewrite (Hsub _ _ (each_byte (λ c, implb (CHAR_IS_UNRESERVED c || in_set SUBDELIMS c || isc ":"%byte c) (auth_char c)) eq_refl) Hr'). done.
  - rewrite drop_0, removelast_last. destruct (_ >=? _); [done|]. destruct (inet_pton6 m) eqn:Hm; [|done]. intros _. apply Hpton in Hm.
    exact (Hsub _ _ (each_byte (λ c, implb (EVUTIL_ISXDIGIT c || isc ":"%byte c || isc "."%byte c) (auth_char c)) eq_refl) Hm).
Qed.

Lemma host_chars h : host_ok h = true → all_in auth_char h = true.
Proof.
  unfold host_ok. destruct (bracketed h) eqn:Hb; [by apply bracket_chars|]. intros Hr%regname_chars. revert Hr. apply all_in_sub. intros c. unfold auth_char, info_char. by destruct (name_char c), (isc pct c), (isc ":"%byte c).
Qed.

(** A host has no port at its end. *)
Lemma host_no_port h : host_ok h = true → split_port h = None.
Proof.
  intros Hh. destruct (split_port h) as [[h' ds]|] eqn:E; [|done]. apply split_port_some in E as [-> Hd]. exfalso. unfold host_ok in Hh. destruct (bracketed _) eqn:Hb.
  - unfold bracketed in Hb. apply andb_true_iff in Hb as [_ Hb]. apply is_eq in Hb. destruct ds as [|d ds _] using rev_ind; [by rewrite last_last in Hb|].
    rewrite app_comm_cons, app_assoc, last_last in Hb. subst d. rewrite all_in_app in Hd. apply andb_true_iff in Hd as [_ Hd]. done.
  - apply regname_chars in Hh. rewrite all_in_app, all_in_cons in Hh. apply andb_true_iff in Hh as [_ Hh]. done.
Qed.

Lemma parse_host_spec cp tail uri : EVUTIL_ISXDIGIT (head0 tail) = false →
  parse_host inet_pton6 cp tail uri = if host_ok cp then Some (set_host (Some cp) uri) else None.
Proof.
  intros Ht. unfold parse_host, host_ok, bracketed. rewrite regname_tail by done. rewrite Hmem. by destruct (_ && _).
Qed.

Definition with_authority (ui : option (list byte)) (h : list byte) (p : Z) (uri : evhttp_uri) : evhttp_uri := set_host (Some h) (set_port p (set_userinfo ui uri)).

(** A user, a host and a port, and how they are written. *)
Definition authority_ok (ui : option (list byte)) (h : list byte) (p : Z) (t : list byte) : Prop :=
  (∀ i, ui = Some i → userinfo_ok i = true) ∧ host_ok h = true ∧ port_text p t.
Definition authority_text (ui : option (list byte)) (h t : list byte) : list byte := opt_text (λ i, i ++ [("@"%byte : byte)]) ui ++ h ++ t.

(** The part behind the user. *)
Definition parse_hostport (tail cp : list byte) (uri : evhttp_uri) : outcome (option evhttp_uri) :=
  match split_port cp with
  | Some (host, digits) =>
      port ← (match digits with [] => Val (Some (-1)) | _ => p ← parse_port digits; Val (if p <? 0 then None else Some p) end);
      Val (match port with Some port => parse_host inet_pton6 host (":"%byte :: digits ++ tail) (set_port port uri) | None => None end)
  | None => Val (parse_host inet_pton6 cp tail uri)
  end.

Lemma hostport_sound tail cp uri uri' : EVUTIL_ISXDIGIT (head0 tail) = false → u_port uri = -1 → parse_hostport tail cp uri = Val (Some uri') →
  ∃ h p t, cp = h ++ t ∧ host_ok h = true ∧ port_text p t ∧ uri' = set_host (Some h) (set_port p uri).
Proof.
  intros Ht Hp. unfold parse_hostport. destruct (split_port cp) as [[h ds]|] eqn:Es.
  - apply split_port_some in Es as [-> Hd]. destruct ds as [|d ds].
    + cbn [mbind outcome_bind]. rewrite parse_host_spec by done. destruct (host_ok h) eqn:Hh; [|done]. intros [= <-]. exists h, (-1), [(":"%byte : byte)]. split; [done|]. split; [done|]. split; [|done]. left. auto.
    + destruct (parse_port (d :: ds)) as [q|] eqn:Eq; [|done]. cbn [mbind outcome_bind]. destruct (Z.ltb_spec q 0); [done|]. rewrite parse_host_spec by done. destruct (host_ok h) eqn:Hh; [|done].
      intros [= <-]. exists h, q, (":"%byte :: d :: ds). split; [done|]. split; [done|]. split; [|done]. right. by exists (d :: ds).
  - rewrite parse_host_spec by done. destruct (host_ok cp) eqn:Hh; [|done]. intros [= <-]. exists cp, (-1), []. rewrite app_nil_r. split; [done|]. split; [done|]. split; [left; auto|].
    destruct uri; cbn in *. by subst.
Qed.

Lemma hostport_complete tail h p t uri : EVUTIL_ISXDIGIT (head0 tail) = false → u_port uri = -1 → host_ok h = true → port_text p t →
  parse_hostport tail (h ++ t) uri = Val (Some (set_host (Some h) (set_port p uri))).
Proof.
  intros Ht Hu Hh Hp. unfold parse_hostport. assert (∀ ds, all_in EVUTIL_ISDIGIT ds = true → split_port (h ++ ":"%byte :: ds) = Some (h, ds)) as Hs by (intros ds Hd; by apply split_port_some).
  destruct Hp as [[-> [-> | ->]]|(ds & -> & Hne & Hd & Hp)].
  - rewrite app_nil_r, host_no_port, parse_host_spec, Hh by done. do 2 f_equal. destruct uri; cbn in *. by subst.
  - rewrite (Hs []) by done. cbn [mbind outcome_bind]. by rewrite parse_host_spec, Hh by done.
  - rewrite Hs by done. destruct ds as [|d ds]; [done|]. rewrite Hp. cbn [mbind outcome_bind]. pose proof (port_loop_nonneg _ 0 p Hd ltac:(lia) Hp). destruct (Z.ltb_spec p 0); [lia|].
    by rewrite parse_host_spec, Hh by done.
Qed.

Lemma parse_authority_eq s tail uri : parse_authority inet_pton6 s tail uri =
  match s with
  | [] => Val (Some (set_host (Some []) uri))
  | _ => match strchr s "@"%byte with
         | Some (i, cp) => if userinfo_ok i then parse_hostport tail cp (set_userinfo (Some i) uri) else Val None
         | None => parse_hostport tail s uri
         end
  end.
Proof. unfold parse_authority, mm_strdup. rewrite Hmem. destruct s; [done|]. destruct (strchr _ _) as [[i cp]|]; [|done]. destruct (userinfo_ok i); [|done]. by rewrite Hmem. Qed.

Lemma no_at (f : byte → bool) s : (f "@"%byte) = false → all_in f s = true → all_in (λ x, negb (isc "@"%byte x)) s = true.
Proof. intros Hf. apply all_in_sub. intros c Hc. apply negb_true_iff. by apply (class_not f). Qed.

Lemma authority_sound s tail uri uri' : EVUTIL_ISXDIGIT (head0 tail) = false → u_port uri = -1 → u_userinfo uri = None →
  parse_authority inet_pton6 s tail uri = Val (Some uri') →
  ∃ ui h p t, s = authority_text ui h t ∧ authority_ok ui h p t ∧ uri' = with_authority ui h p uri.
Proof.
  intros Ht Hp Hu. rewrite parse_authority_eq. destruct s as [|c s].
  { intros [= <-]. exists None, [], (-1), []. split; [done|]. split; [|destruct uri; cbn in *; by subst]. split; [done|]. split; [done|]. left. auto. }
  destruct (strchr (c :: s) "@"%byte) as [[i cp]|] eqn:Ea.
  - apply strchr_some in Ea as [-> _]. destruct (userinfo_ok i) eqn:Hi; [|done]. intros E. apply hostport_sound in E as (h & p & t & -> & Hh & Hpt & ->); [|done|by destruct uri].
    exists (Some i), h, p, t. split; [unfold authority_text, opt_text; by rewrite <- app_assoc|]. split; [|done]. split; [by intros ? [= <-]|done].
  - intros E. apply hostport_sound in E as (h & p & t & -> & Hh & Hpt & ->); [|done|done]. exists None, h, p, t. split; [done|]. split; [by split|]. destruct uri; cbn in *. by subst.
Qed.

Lemma authority_complete ui h p t tail uri : EVUTIL_ISXDIGIT (head0 tail) = false → u_port uri = -1 → u_userinfo uri = None → authority_ok ui h p t →
  parse_authority inet_pton6 (authority_text ui h t) tail uri = Val (Some (with_authority ui h p uri)).
Proof.
  intros Ht Hp Hu (Hi & Hh & Hpt). rewrite parse_authority_eq. pose proof (hostport_complete tail h p t) as Hhp.
  assert (all_in (λ x, negb (isc "@"%byte x)) (h ++ t) = true) as Hat.
  { rewrite all_in_app. rewrite (no_at auth_char h eq_refl (host_chars h Hh)). destruct Hpt as [[_ [-> | ->]]|(ds & -> & _ & Hd & _)]; [done|done|]. rewrite all_in_cons, (no_at EVUTIL_ISDIGIT ds eq_refl Hd). done. }
  destruct ui as [i|]; cbn [authority_text opt_text].
  - specialize (Hi i eq_refl). unfold authority_text, opt_text. rewrite <- app_assoc. cbn [app]. assert (strchr (i ++ "@"%byte :: h ++ t) "@"%byte = Some (i, h ++ t)) as E.
    { apply strchr_some. split; [done|]. exact (no_at _ i eq_refl (userinfo_chars i Hi)). }
    destruct (i ++ "@"%byte :: h ++ t) as [|c s] eqn:Es; [by destruct i|]. rewrite E, Hi, Hhp by (by destruct uri). done.
  - unfold authority_text, opt_text. cbn [app]. apply strchr_none in Hat as E. destruct (h ++ t) as [|c s] eqn:Es.
    + apply app_eq_nil in Es as [-> ->]. unfold with_authority. destruct Hpt as [[-> _]|(ds & ? & _)]; [|done]. destruct uri; cbn in *. by subst.
    + rewrite E, Hhp by done. unfold with_authority. destruct uri; cbn in *. by subst.
Qed.

(** ** Path, query and fragment together *)

Definition tail_text (p : list byte) (q f : option (list byte)) : list byte := p ++ opt_text (cons "?"%byte) q ++ opt_text (cons "#"%byte) f.

(** What may stand behind the scheme and the authority. *)
Definition tail_ok (flags : Z) (scheme authority : bool) (p : list byte) (q f : option (list byte)) : Prop :=
  part_ok PART_PATH flags p ∧ (∀ s, q = Some s → part_ok PART_QUERY flags s) ∧ (∀ s, f = Some s → part_ok PART_FRAGMENT flags s) ∧
  (if authority then p = [] ∨ head0 p = "/"%byte else ¬ (head0 p = "/"%byte ∧ head0 (drop 1 p) = "/"%byte)) ∧
  (scheme = false → path_matches_noscheme p = true).

Definition with_tail (p : list byte) (q f : option (list byte)) (uri : evhttp_uri) : evhttp_uri := set_fragment f (set_query q (set_path (Some p) uri)).
Definition present (o : option (list byte)) : bool := match o with Some _ => true | None => false end.

Lemma take_part_sound c part flags s o r : take_part c part flags s = (o, r) → s = opt_text (cons c) o ++ r ∧ ∀ l, o = Some l → part_ok part flags l.
Proof.
  unfold take_part. destruct s as [|x s]; [by intros [= <- <-]|]. destruct (isc c x) eqn:Ec; [|by intros [= <- <-]]. apply is_eq in Ec as ->.
  destruct (end_of_path part flags s) as [l r'] eqn:E. apply end_of_path_split in E as [-> Hl]. intros [= <- <-]. split; [done|]. by intros ? [= <-].
Qed.

Lemma take_part_complete c part flags o r : (∀ l, o = Some l → part_ok part flags l) → (if present o then part_ends part r else match r with [] => True | x :: _ => x ≠ c end) →
  take_part c part flags (opt_text (cons c) o ++ r) = (o, r).
Proof.
  intros Ho Hr. destruct o as [l|]; cbn [opt_text app present] in *; unfold take_part.
  - rewrite is_same, end_of_path_app; [done|by apply Ho|done].
  - destruct r as [|x r]; [done|]. destruct (isc c x) eqn:E; [|done]. by apply is_eq in E.
Qed.

Lemma parts_sound got readp uri u' : all_in (λ c, negb (isc NUL c)) readp = true → parse_parts got readp uri = Some u' →
  ∃ p q f, readp = tail_text p q f ∧ tail_ok (u_flags uri) (present (u_scheme uri)) got p q f ∧ u' = with_tail p q f uri.
Proof.
  intros Hnul. unfold parse_parts, dup_opt, mm_strdup. destruct (end_of_path PART_PATH (u_flags uri) readp) as [p r1] eqn:E1. apply end_of_path_split in E1 as [-> Hp].
  destruct (take_part "?"%byte _ _ r1) as [q r2] eqn:E2. apply take_part_sound in E2 as [-> Hq]. destruct (take_part "#"%byte _ _ r2) as [f r3] eqn:E3. apply take_part_sound in E3 as [-> Hf].
  destruct r3; [|done]. rewrite app_nil_r in *. destruct (negb got && _ && _) eqn:C1; [done|]. destruct (got && _ && _) eqn:C2; [done|]. destruct (_ && negb (path_matches_noscheme p)) eqn:C3; [done|].
  rewrite Hmem. destruct q as [q|]; rewrite ?Hmem; (destruct f as [f|]; rewrite ?Hmem); intros [= <-]; (eexists p, _, _; split; [done|]; split; [|done]).
  all: split; [done|]; split; [done|]; split; [done|]; split; [|intros Hs; destruct (u_scheme uri); [done|]; cbn in C3; by apply negb_false_iff].
  all: rewrite all_in_app in Hnul; apply andb_true_iff in Hnul as [Hnul _]; destruct got; cbn [negb andb] in C1, C2.
  all: try (intros [H1 H2]; by rewrite H1, H2, is_same in C1).
  all: destruct p as [|c p]; [by left|right]; cbn [head0] in *; rewrite all_in_cons in Hnul; destruct (isc "/"%byte c) eqn:Ec; [by apply is_eq|];
    destruct (isc NUL c); done.
Qed.

Lemma parts_complete got p q f uri : tail_ok (u_flags uri) (present (u_scheme uri)) got p q f → parse_parts got (tail_text p q f) uri = Some (with_tail p q f uri).
Proof.
  intros (Hp & Hq & Hf & Hpath & Hns). unfold parse_parts, tail_text, dup_opt, mm_strdup.
  rewrite end_of_path_app; [|done|by destruct q; [left|destruct f; [right|]]].
  rewrite take_part_complete; [|done|by destruct q, f].
  replace (opt_text (cons "#"%byte) f) with (opt_text (cons "#"%byte) f ++ []) by apply app_nil_r. rewrite take_part_complete; [|done|by destruct f].
  assert (negb got && isc "/"%byte (head0 p) && isc "/"%byte (head0 (drop 1 p)) = false) as ->.
  { destruct got; [done|]. apply not_true_is_false. intros [H1%is_eq H2%is_eq]%andb_true_iff. by apply Hpath. }
  assert (got && negb (isc "/"%byte (head0 p)) && negb (isc NUL (head0 p)) = false) as ->. { destruct got; [|done]. by destruct Hpath as [-> | ->]. }
  assert ((match u_scheme uri with Some _ => false | None => true end) && negb (path_matches_noscheme p) = false) as ->.
  { destruct (u_scheme uri); [done|]. cbn. by rewrite Hns. }
  rewrite Hmem. destruct q; rewrite ?Hmem; destruct f; by rewrite ?Hmem.
Qed.

(** ** URIs *)

(** The string a URI is written as, with [t] for the port. *)
Definition spell (u : evhttp_uri) (t : list byte) : list byte :=
  opt_text (λ s, s ++ [(":"%byte : byte)]) (u_scheme u) ++
  match u_host u with Some h => bytes_of "//" ++ authority_text (u_userinfo u) h t | None => [] end ++
  tail_text (default [] (u_path u)) (u_query u) (u_fragment u).

(** A URI that can be written, with [t] for its port. *)
Record uri_ok (flags : Z) (u : evhttp_uri) (t : list byte) : Prop := {
  ok_flags : u_flags u = flags;
  ok_scheme : ∀ s, u_scheme u = Some s → scheme_ok s = true;
  ok_authority : match u_host u with Some h => authority_ok (u_userinfo u) h (u_port u) t | None => u_userinfo u = None ∧ u_port u = -1 ∧ t = [] end;
  ok_path : is_Some (u_path u);
  ok_tail : tail_ok flags (present (u_scheme u)) (present (u_host u)) (default [] (u_path u)) (u_query u) (u_fragment u) }.

Definition scheme_char (c : byte) : bool := EVUTIL_ISALNUM c || isc "+"%byte c || isc "-"%byte c || isc "."%byte c.

Lemma scheme_chars s : scheme_ok s = true → all_in scheme_char s = true.
Proof. destruct s as [|c s]; [done|]. cbn [scheme_ok]. rewrite all_in_cons. intros [Hc Hs]%andb_true_iff. unfold scheme_char at 2. rewrite Hs, andb_true_r. revert c Hc. by apply class_sub. Qed.

(** What is behind the authority begins with a delimiter. *)
Lemma tail_delim flags sch p q f : tail_ok flags sch true p q f →
  match tail_text p q f with [] => True | c :: _ => isc "?"%byte c || isc "#"%byte c || isc "/"%byte c = true end ∧ EVUTIL_ISXDIGIT (head0 (tail_text p q f)) = false.
Proof. intros (_ & _ & _ & Hp & _). unfold tail_text. destruct Hp as [-> |Hp]; [by destruct q, f|]. destruct p as [|c p]; [done|]. cbn in Hp |- *. by subst. Qed.

Definition authority_char (c : byte) : bool := auth_char c || isc "@"%byte c.

Lemma end_of_authority_spec a r : all_in authority_char a = true → match r with [] => True | c :: _ => isc "?"%byte c || isc "#"%byte c || isc "/"%byte c = true end →
  end_of_authority (a ++ r) = (a, r).
Proof. intros Ha Hr. apply break_at; [|done]. revert Ha. apply all_in_sub. by apply class_sub. Qed.

Lemma authority_chars ui h p t : authority_ok ui h p t → all_in authority_char (authority_text ui h t) = true.
Proof.
  intros (Hi & Hh & Hp). unfold authority_text. rewrite !all_in_app. assert (all_in authority_char t = true) as ->.
  { destruct Hp as [[_ [-> | ->]]|(ds & -> & _ & Hd & _)]; [done|done|]. rewrite all_in_cons. cbn [andb]. revert Hd. apply all_in_sub. by apply class_sub. }
  rewrite (all_in_sub auth_char authority_char h) by first [by apply class_sub | by apply host_chars]. rewrite !andb_true_r. destruct ui as [i|]; [|done].
  cbn [opt_text]. rewrite all_in_app. rewrite (all_in_sub (λ c, info_char c || isc pct c) authority_char i); [done|by apply class_sub|]. by apply userinfo_chars, Hi.
Qed.

(** Without a scheme there is no colon that could end one. *)
Lemma no_scheme p r l l' : path_matches_noscheme p = true → match r with [] => True | c :: _ => scheme_char c = false ∧ c ≠ ":"%byte end → all_in scheme_char l = true →
  p ++ r ≠ l ++ ":"%byte :: l'.
Proof.
  revert l. induction p as [|c p IH]; intros l Hp Hr Hl.
  - cbn [app]. intros ->. destruct l as [|x l]; [by destruct Hr|]. cbn [app] in Hr. rewrite all_in_cons in Hl. destruct Hr as [Hr _]. by rewrite Hr in Hl.
  - cbn [path_matches_noscheme] in Hp. destruct (isc ":"%byte c) eqn:Ec; [done|]. destruct l as [|x l]; [intros [= -> _]; done|]. intros [= <- Hx]. rewrite all_in_cons in Hl. apply andb_true_iff in Hl as [Hc Hl].
    destruct (isc "/"%byte c) eqn:Es; [apply is_eq in Es; by subst|]. by apply (IH l).
Qed.

(** Where parsing starts, behind the scheme. *)
Definition parse_rest (readp : list byte) (uri : evhttp_uri) : outcome (option evhttp_uri) :=
  if isc "/"%byte (head0 readp) && isc "/"%byte (head0 (drop 1 readp)) then
    let '(authority, path) := end_of_authority (drop 2 readp) in
    o ← parse_authority inet_pton6 authority path uri;
    Val (match o with Some uri => parse_parts true path uri | None => None end)
  else Val (parse_parts false readp uri).

Lemma parse_eq s flags : evhttp_uri_parse_with_flags inet_pton6 s flags =
  match strchr s ":"%byte with
  | Some (sch, r) => if scheme_ok sch then parse_rest r (set_scheme (Some sch) (blank_uri flags)) else parse_rest s (blank_uri flags)
  | None => parse_rest s (blank_uri flags)
  end.
Proof.
  unfold evhttp_uri_parse_with_flags, mm_strdup. rewrite !Hmem. cbn [andb negb]. destruct (strchr s ":"%byte) as [[sch r]|]; [|done]. destruct (scheme_ok sch); [|done]. by rewrite Hmem.
Qed.

Lemma rest_sound readp uri u : all_in (λ c, negb (isc NUL c)) readp = true → u_port uri = -1 → u_userinfo uri = None → u_host uri = None → parse_rest readp uri = Val (Some u) →
  ∃ ui h port t p q f, readp = match h with Some h => bytes_of "//" ++ authority_text ui h t | None => [] end ++ tail_text p q f ∧
    match h with Some h => authority_ok ui h port t | None => ui = None ∧ port = -1 ∧ t = [] end ∧ tail_ok (u_flags uri) (present (u_scheme uri)) (present h) p q f ∧
    u = with_tail p q f (match h with Some h => with_authority ui h port uri | None => uri end).
Proof.
  intros Hnul Hport Hui Hhost. unfold parse_rest. destruct (_ && _) eqn:Es.
  - apply andb_true_iff in Es as [E1%is_eq E2%is_eq]. destruct readp as [|c1 [|c2 readp]]; [done|done|]. cbn in E1, E2. subst c1 c2. cbn [drop]. rewrite drop_0.
    unfold end_of_authority. set (g := λ c, _). pose proof (break_app g readp) as Ha. pose proof (break_rest g readp) as Hr. destruct (break g readp) as [a path]. cbn [fst snd] in Ha, Hr.
    assert (EVUTIL_ISXDIGIT (head0 path) = false) as Hx.
    { destruct path as [|c path]; [done|]. cbn [head0]. apply not_true_is_false. intros Hx. assert (∀ c, EVUTIL_ISXDIGIT c = true → negb (g c) = true) as Hg by (by apply class_sub).
      specialize (Hg c Hx). by rewrite Hr in Hg. }
    destruct (parse_authority inet_pton6 a path uri) as [[uri'|]|] eqn:Ea; [|done|done]. cbn [mbind outcome_bind]. intros [= E].
    apply authority_sound in Ea as (ui & h & port & t & -> & Hok & ->); [|done..]. rewrite !all_in_cons, <- Ha, all_in_app in Hnul. apply andb_true_iff in Hnul as [_ Hnul]. apply andb_true_iff in Hnul as [_ Hnul].
    apply andb_true_iff in Hnul as [_ Hnul]. apply parts_sound in E as (p & q & f & -> & Ht & ->); [|done].
    exists ui, (Some h), port, t, p, q, f. split; [by rewrite <- Ha|]. done.
  - intros [= E]. apply parts_sound in E as (p & q & f & -> & Ht & ->); [|done]. exists None, None, (-1), [], p, q, f. done.
Qed.

Lemma rest_complete ui h port t p q f uri : u_port uri = -1 → u_userinfo uri = None → u_host uri = None →
  match h with Some h => authority_ok ui h port t | None => ui = None ∧ port = -1 ∧ t = [] end → tail_ok (u_flags uri) (present (u_scheme uri)) (present h) p q f →
  parse_rest (match h with Some h => bytes_of "//" ++ authority_text ui h t | None => [] end ++ tail_text p q f) uri =
    Val (Some (with_tail p q f (match h with Some h => with_authority ui h port uri | None => uri end))).
Proof.
  intros Hport Hui Hhost Ha Ht. unfold parse_rest. destruct h as [h|]; cbn [present] in Ht.
  - destruct (tail_delim _ _ _ _ _ Ht) as [Hd Hx]. change (bytes_of "//") with [("/"%byte : byte); "/"%byte]. cbn [app head0 drop]. rewrite !is_same, drop_0. cbn [andb].
    rewrite end_of_authority_spec; [|by eapply authority_chars|done]. rewrite (authority_complete ui h port) by done. cbn [mbind outcome_bind]. by rewrite parts_complete.
  - cbn [app]. assert (isc "/"%byte (head0 (tail_text p q f)) && isc "/"%byte (head0 (drop 1 (tail_text p q f))) = false) as ->.
    { destruct Ht as (_ & _ & _ & Hp & _). apply not_true_is_false. intros [H1%is_eq H2%is_eq]%andb_true_iff. unfold tail_text in *. destruct p as [|c1 [|c2 p]].
      - destruct q; [done|]. by destruct f.
      - cbn in H1, H2. destruct q; [done|]. by destruct f.
      - by apply Hp. }
    by rewrite parts_complete.
Qed.

Lemma parse_undef s flags e : evhttp_uri_parse_with_flags inet_pton6 s flags = Undef e → e = Overflow.
Proof.
  assert (∀ readp uri, parse_rest readp uri = Undef e → e = Overflow) as Hrest.
  { intros readp uri. unfold parse_rest. destruct (_ && _); [|done]. destruct (end_of_authority _) as [a path]. destruct (parse_authority inet_pton6 a path uri) as [?|e'] eqn:Ea; [done|]. intros [= <-].
    assert (∀ tail cp uri, parse_hostport tail cp uri = Undef e' → e' = Overflow) as Hhp.
    { intros tail cp uri'. unfold parse_hostport. destruct (split_port cp) as [[h ds]|]; [|done]. destruct ds as [|d ds]; [done|].
      destruct (parse_port (d :: ds)) as [?|e''] eqn:Ep; [done|]. intros [= <-]. by eapply port_loop_undef. }
    rewrite parse_authority_eq in Ea. destruct a as [|c a]; [done|]. destruct (strchr _ _) as [[i cp]|]; [destruct (userinfo_ok i); [|done]|]; by eapply Hhp. }
  rewrite parse_eq. destruct (strchr s ":"%byte) as [[sch r]|]; [destruct (scheme_ok sch)|]; apply Hrest.
Qed.

Lemma parse_complete flags u t : uri_ok flags u t → evhttp_uri_parse_with_flags inet_pton6 (spell u t) flags = Val (Some u).
Proof.
  intros [Hfl Hs Ha [p Hp] Ht]. rewrite parse_eq. unfold spell. rewrite Hp in *. cbn [default] in *.
  assert (∀ uri, u_port uri = -1 → u_userinfo uri = None → u_host uri = None → u_flags uri = flags → u_scheme uri = u_scheme u →
    parse_rest (match u_host u with Some h => bytes_of "//" ++ authority_text (u_userinfo u) h t | None => [] end ++ tail_text p (u_query u) (u_fragment u)) uri =
      Val (Some (with_tail p (u_query u) (u_fragment u) (match u_host u with Some h => with_authority (u_userinfo u) h (u_port u) uri | None => uri end)))) as Hrest.
  { intros uri H1 H2 H3 H4 H5. apply rest_complete; try done. by rewrite H4, H5. }
  destruct (u_scheme u) as [sch|] eqn:Esch; cbn [opt_text].
  - specialize (Hs sch eq_refl). rewrite <- app_assoc. cbn [app]. erewrite (proj2 (strchr_some _ ":"%byte sch _)); [|split; [done|]].
    2:{ generalize (scheme_chars sch Hs). apply all_in_sub. by apply class_sub. }
    rewrite Hs, Hrest by done. do 2 f_equal. destruct (u_host u) eqn:Eh; destruct u; cbn in *; [by subst|]. destruct Ha as (-> & -> & _). by subst.
  - cbn [app]. set (text := _ ++ tail_text _ _ _) in *.
    assert (∀ l r, strchr text ":"%byte = Some (l, r) → scheme_ok l = false) as Hno.
    { intros l r [E _]%strchr_some. apply not_true_is_false. intros Hl. unfold text in E. destruct (u_host u) as [h|].
      - change (bytes_of "//") with [("/"%byte : byte); "/"%byte] in E. destruct l as [|c l]; [done|]. injection E as <- _. done.
      - destruct Ht as (_ & _ & _ & _ & Hn). cbn [app] in E. unfold tail_text in E. revert E. apply no_scheme; [by apply Hn| |by apply scheme_chars]. destruct (u_query u); [done|]. by destruct (u_fragment u). }
    assert (Val (Some (with_tail p (u_query u) (u_fragment u) (match u_host u with Some h => with_authority (u_userinfo u) h (u_port u) (blank_uri flags) | None => blank_uri flags end))) = Val (Some u)) as Eu.
    { do 2 f_equal. destruct (u_host u) eqn:Eh; destruct u; cbn in *; [by subst|]. destruct Ha as (-> & -> & _). by subst. }
    destruct (strchr text ":"%byte) as [[l r]|] eqn:El; [rewrite (Hno l r eq_refl)|]; by rewrite Hrest.
Qed.

Lemma parse_sound s flags u : all_in (λ c, negb (isc NUL c)) s = true → evhttp_uri_parse_with_flags inet_pton6 s flags = Val (Some u) → ∃ t, uri_ok flags u t ∧ s = spell u t.
Proof.
  intros Hnul. rewrite parse_eq.
  assert (∀ r sch, all_in (λ c, negb (isc NUL c)) r = true → (∀ x, sch = Some x → scheme_ok x = true) → parse_rest r (set_scheme sch (blank_uri flags)) = Val (Some u) →
    ∃ t, uri_ok flags u t ∧ opt_text (λ s, s ++ [(":"%byte : byte)]) sch ++ r = spell u t) as Hrest.
  { intros r sch Hr Hsch E. apply rest_sound in E as (ui & h & port & t & p & q & f & -> & Ha & Ht & ->); [|done..]. exists t. split.
    - destruct h as [h|]; split; cbn; try done; eauto; try by intros ? ?; apply Hsch. by destruct Ha as (_ & _ & ->).
    - unfold spell. destruct h as [h|]; cbn; done. }
  destruct (strchr s ":"%byte) as [[l r]|] eqn:El.
  - apply strchr_some in El as [-> _]. destruct (scheme_ok l) eqn:Hl.
    + intros E. rewrite all_in_app, all_in_cons in Hnul. apply andb_true_iff in Hnul as [_ Hnul]. apply andb_true_iff in Hnul as [_ Hnul].
      destruct (Hrest r (Some l) Hnul) as (t & H1 & H2); [by intros ? [= <-]|done|]. exists t. split; [done|]. rewrite <- H2. cbn. by rewrite <- app_assoc.
    + intros E. destruct (Hrest (l ++ ":"%byte :: r) None Hnul) as (t & H1 & H2); [done|done|]. by exists t.
  - intros E. destruct (Hrest s None Hnul) as (t & H1 & H2); [done|done|]. by exists t.
Qed.

End spec.

(** ** Ports *)

Lemma digit_byte n : 0 <= n < 10 → EVUTIL_ISDIGIT (z2b (48 + n)) = true ∧ b2z (z2b (48 + n)) - 48 = n.
Proof.
  intros Hn. rewrite b2z_z2b, Z.mod_small by lia. split; [|lia].
  assert (n = 0 ∨ n = 1 ∨ n = 2 ∨ n = 3 ∨ n = 4 ∨ n = 5 ∨ n = 6 ∨ n = 7 ∨ n = 8 ∨ n = 9) as [->|[->|[->|[->|[->|[->|[->|[->|[->| ->]]]]]]]]] by lia; reflexivity.
Qed.

Lemma port_loop_digit m n acc : 0 <= n < 10 → m * 10 + n <= 2 ^ 31 - 1 → port_loop m (z2b (48 + n) :: acc) = port_loop (m * 10 + n) acc.
Proof. intros Hn Hm. destruct (digit_byte n Hn) as [Hd Hv]. cbn [port_loop]. rewrite Hd, Hv. cbn [negb]. by destruct (Z.gtb_spec (m * 10 + n) (2 ^ 31 - 1)); [lia|]. Qed.

Lemma decimal_port fuel n acc : 0 <= n <= 2 ^ 31 - 1 → n < 10 ^ (Z.of_nat fuel + 1) → port_loop 0 (decimal_loop fuel n acc) = port_loop n acc.
Proof.
  revert n acc. induction fuel as [|fuel IH]; intros n acc Hn Hf; cbn [decimal_loop].
  - rewrite Z.mod_small by (cbn in Hf; lia). rewrite port_loop_digit by (cbn in Hf; lia). f_equal.
  - destruct (Z.ltb_spec n 10); [rewrite Z.mod_small, port_loop_digit by lia; f_equal|]. pose proof (Z.div_mod n 10 ltac:(lia)). pose proof (Z.mod_pos_bound n 10 ltac:(lia)).
    rewrite IH; [|split; [apply Z.div_pos; lia|lia]|apply Z.div_lt_upper_bound; [lia|]]; [rewrite port_loop_digit by lia; f_equal; lia|].
    rewrite <- Z.pow_succ_r by lia. by replace (Z.succ (Z.of_nat fuel + 1)) with (Z.of_nat (S fuel) + 1) by lia.
Qed.

Lemma decimal_digits fuel n acc : 0 <= n → all_in EVUTIL_ISDIGIT acc = true → all_in EVUTIL_ISDIGIT (decimal_loop fuel n acc) = true.
Proof.
  revert n acc. induction fuel as [|fuel IH]; intros n acc Hn Ha; cbn [decimal_loop]; destruct (digit_byte (n mod 10) (Z.mod_pos_bound n 10 ltac:(lia))) as [Hd _];
    assert (all_in EVUTIL_ISDIGIT (z2b (48 + n mod 10) :: acc) = true) as Hc by (by rewrite all_in_cons, Hd); [done|]. destruct (n <? 10); [done|]. apply IH; [apply Z.div_pos; lia|done].
Qed.

Lemma decimal_len fuel n acc : 0 < Zlen (decimal_loop fuel n acc) <= Z.of_nat fuel + 1 + Zlen acc.
Proof.
  pose proof (Zlen_nonneg acc). revert n acc H. induction fuel as [|fuel IH]; intros n acc Ha; cbn [decimal_loop]; [rewrite Zlen_cons; lia|]. destruct (n <? 10); [rewrite Zlen_cons; lia|].
  specialize (IH (n / 10) (z2b (48 + n mod 10) :: acc)). rewrite Zlen_cons in IH. lia.
Qed.

(** How evhttp_uri_join writes a port. *)
Definition join_port (p : Z) : list byte := if p >=? 0 then ":"%byte :: decimal p else [].

Lemma join_port_text p : -1 <= p <= 2 ^ 31 - 1 → port_text p (join_port p).
Proof.
  intros Hp. unfold join_port. destruct (Z.geb_spec p 0); [|left; split; [lia|by left]]. right. exists (decimal p). split; [done|]. pose proof (decimal_len 10 p []) as Hl. split; [intros E; unfold decimal in E; rewrite E in Hl; by destruct Hl|].
  split; [by apply decimal_digits|]. unfold parse_port, decimal. rewrite decimal_port; [done|lia|]. cbn. lia.
Qed.

(** ** Joining *)

Section join.
Context `{EvbufferSpec B, !EvbufferText B, !EvbufferTextSpec B} (Hrel : evb_reliable).

Definition holding (b : B) (bs : list byte) : Prop := evb_ok b ∧ evb_writable b ∧ content b = bs.

Lemma holding_add b bs x : holding b bs → Zlen x <= evb_limit → holding (evbuffer_add b x).2 (bs ++ x).
Proof.
  intros (Hok & Hw & <-) Hx. pose proof (add_reliable b x Hok Hw Hx Hrel) as Hr. destruct (evbuffer_add b x) as [r b'] eqn:E. destruct (add_spec b x r b' Hok Hw Hx E) as (Hok' & Hw' & Hc).
  cbn in Hr. subst r. destruct Hc as [[_ Hc]|[? _]]; [|done]. done.
Qed.

Lemma holding_printf b bs x : holding b bs → x ≠ [] → Zlen x < 2 ^ 31 → holding (evbuffer_add_printf b x).2 (bs ++ x).
Proof.
  intros (Hok & Hw & <-) Hne Hx. pose proof (printf_reliable b x Hok Hw Hne Hx Hrel) as Hr. destruct (evbuffer_add_printf b x) as [r b'] eqn:E. destruct (printf_spec b x r b' Hok Hw Hne Hx E) as (Hok' & Hc).
  cbn in Hr. subst r. pose proof (Zlen_nonneg x). destruct Hc as [(_ & Hw2 & Hc)|[? _]]; [|lia]. done.
Qed.

Lemma holding_opt b bs before o : holding b bs → Zlen before <= 1 → Zlen (opt_text id o) < 2 ^ 31 → holding (add_opt before o b) (bs ++ opt_text (app before) o).
Proof.
  intros Hb Hl Ho. assert (∀ n, n < 2 ^ 32 → n <= evb_limit) as Hlim by (change evb_limit with (2 ^ 61); lia). destruct o as [s|]; cbn [opt_text add_opt] in *; [|by rewrite app_nil_r]. unfold id in Ho.
  rewrite app_assoc. apply holding_add; [|apply Hlim; lia]. destruct before as [|c before]; [by rewrite app_nil_r|]. apply holding_add; [done|]. apply Hlim. lia.
Qed.

(** A part that the URI has is shorter than the URI. *)
Lemma parts_short u t n : Zlen (spell u t) < n → Zlen (opt_text id (u_scheme u)) < n ∧ (∀ h, u_host u = Some h → Zlen (opt_text id (u_userinfo u)) + 1 < n ∧ Zlen h < n) ∧
  Zlen (opt_text id (u_path u)) < n ∧ Zlen (opt_text id (u_query u)) < n ∧ Zlen (opt_text id (u_fragment u)) < n.
Proof.
  intros Hn. unfold spell, tail_text, authority_text in Hn. rewrite !Zlen_app in Hn. pose proof (Zlen_nonneg (default [] (u_path u))). pose proof (Zlen_nonneg t).
  assert (∀ f o k, (∀ s, Zlen (f s) = k + Zlen s) → 0 <= k → 0 <= Zlen (opt_text id o) <= Zlen (opt_text f o)) as Hopt.
  { intros f o k Hf Hk. destruct o as [x|]; cbn; [rewrite Hf|]; pose proof (Zlen_nonneg (@nil byte)); try pose proof (Zlen_nonneg x); lia. }
  pose proof (Hopt (λ s, s ++ [(":"%byte : byte)]) (u_scheme u) 1 ltac:(intros s; cbv beta; rewrite Zlen_app; change (Zlen [(":"%byte : byte)]) with 1; lia) ltac:(lia)).
  pose proof (Hopt (cons "?"%byte) (u_query u) 1 ltac:(intros; by rewrite Zlen_cons) ltac:(lia)). pose proof (Hopt (cons "#"%byte) (u_fragment u) 1 ltac:(intros; by rewrite Zlen_cons) ltac:(lia)).
  pose proof (Hopt (λ s, s ++ [("@"%byte : byte)]) (u_userinfo u) 1 ltac:(intros s; cbv beta; rewrite Zlen_app; change (Zlen [("@"%byte : byte)]) with 1; lia) ltac:(lia)).
  assert (Zlen (opt_text id (u_path u)) = Zlen (default [] (u_path u))) as -> by (by destruct (u_path u)).
  destruct (u_host u) as [h|]; [rewrite !Zlen_app in Hn; change (Zlen (bytes_of "//")) with 2 in Hn; pose proof (Zlen_nonneg h)|change (Zlen (@nil byte)) with 0 in Hn].
  - split; [lia|]. split; [intros ? [= <-]; lia|lia].
  - split; [lia|]. split; [done|lia].
Qed.

Lemma uri_join_spec u limit : Zlen (spell u (join_port (u_port u))) < 2 ^ 31 - 1 → (∀ h p, u_host u = Some h → u_path u = Some p → p = [] ∨ head0 p = "/"%byte) →
  evhttp_uri_join (B := B) u limit = if limit <? Zlen (spell u (join_port (u_port u))) + 1 then None else Some (spell u (join_port (u_port u)) ++ [NUL]).
Proof.
  intros Hlen Hpath. set (t := join_port (u_port u)) in *. pose proof (Zlen_nonneg (spell u t)) as Hnn. destruct (parts_short u t (2 ^ 31 - 1) Hlen) as (S1 & S2 & S3 & S4 & S5).
  assert (∀ n, n < 2 ^ 31 → n <= evb_limit) as Hlim by (change evb_limit with (2 ^ 61); lia). unfold evhttp_uri_join.
  destruct (Z.eqb_spec limit 0) as [->|]; [by destruct (Z.ltb_spec 0 (Zlen (spell u t) + 1)); [|lia]|].
  destruct (create_reliable Hrel) as [b0 E0]. rewrite E0. destruct (create_spec b0 E0) as (H1 & H2 & H3). assert (holding b0 []) as Hb0 by done. clear H1 H2 H3 E0.
  set (b1 := match u_scheme u with Some s => _ | None => b0 end). assert (holding b1 (opt_text (λ s, s ++ [(":"%byte : byte)]) (u_scheme u))) as Hb1.
  { unfold b1. destruct (u_scheme u) as [s|]; [|done]. cbn [opt_text] in *. apply holding_add; [|by apply Hlim]. apply (holding_add b0 []); [done|]. apply Hlim. unfold id in S1. lia. }
  set (joined := match u_host u with Some _ => _ | None => _ end).
  assert (∃ b2, joined = Some b2 ∧ holding b2 (opt_text (λ s, s ++ [(":"%byte : byte)]) (u_scheme u) ++ match u_host u with Some h => bytes_of "//" ++ authority_text (u_userinfo u) h t | None => [] end)) as (b2 & -> & Hb2).
  { unfold joined. destruct (u_host u) as [h|]; [|exists b1; split; [done|]; by rewrite app_nil_r]. destruct (S2 h eq_refl) as [Si Sh].
    set (b2 := (evbuffer_add b1 (bytes_of "//")).2). assert (holding b2 (opt_text (λ s, s ++ [(":"%byte : byte)]) (u_scheme u) ++ bytes_of "//")) as Hb2 by (apply holding_add; [done|by apply Hlim]).
    set (b3 := match u_userinfo u with Some i => _ | None => b2 end).
    assert (holding b3 ((opt_text (λ s, s ++ [(":"%byte : byte)]) (u_scheme u) ++ bytes_of "//") ++ opt_text (λ i, i ++ [("@"%byte : byte)]) (u_userinfo u))) as Hb3.
    { unfold b3. destruct (u_userinfo u) as [i|]; [|by rewrite app_nil_r]. cbn [opt_text] in *. unfold id in Si. apply holding_printf; [done|by destruct i|]. rewrite Zlen_app. change (Zlen [("@"%byte : byte)]) with 1. lia. }
    set (b4 := (evbuffer_add b3 h).2). pose proof (holding_add b3 _ h Hb3 ltac:(apply Hlim; lia)) as Hb4. fold b4 in Hb4.
    set (b5 := if u_port u >=? 0 then _ else b4). assert (holding b5 ((((opt_text (λ s, s ++ [(":"%byte : byte)]) (u_scheme u) ++ bytes_of "//") ++ opt_text (λ i, i ++ [("@"%byte : byte)]) (u_userinfo u)) ++ h) ++ t)) as Hb5.
    { unfold b5, t, join_port. destruct (u_port u >=? 0); [|by rewrite app_nil_r]. apply holding_printf; [done|done|]. rewrite Zlen_cons. pose proof (decimal_len 10 (u_port u) []) as Hd.
      change (Zlen (@nil byte)) with 0 in Hd. unfold decimal. lia. }
    exists b5. split; [|unfold authority_text; by rewrite !app_assoc in *]. destruct (u_path u) as [p|]; [|done]. by destruct (Hpath h p eq_refl eq_refl) as [-> | ->]. }
  pose proof (holding_opt b2 _ [] (u_path u) Hb2 ltac:(done) ltac:(lia)) as Hb3. pose proof (holding_opt _ _ [("?"%byte : byte)] (u_query u) Hb3 ltac:(done) ltac:(lia)) as Hb4.
  pose proof (holding_opt _ _ [("#"%byte : byte)] (u_fragment u) Hb4 ltac:(done) ltac:(lia)) as Hb5. pose proof (holding_add _ _ [NUL] Hb5 ltac:(by apply Hlim)) as Hb6.
  set (b6 := (evbuffer_add _ [NUL]).2) in *. assert (content b6 = spell u t ++ [NUL]) as Hc.
  { destruct Hb6 as (_ & _ & ->). f_equal. unfold spell, tail_text. rewrite <- !app_assoc. do 2 f_equal. }
  destruct Hb6 as (Hok & _ & _). rewrite get_length_spec, Hc, Zlen_app by done. change (Zlen [NUL]) with 1.
  destruct (Z.gtb_spec (Zlen (spell u t) + 1) limit), (Z.ltb_spec limit (Zlen (spell u t) + 1)); try lia; [done|].
  destruct (remove_spec b6 (Zlen (spell u t) + 1) Hok ltac:(lia)) as (b7 & -> & _). cbn. rewrite Hc. f_equal. apply ztake_all. rewrite Zlen_app. change (Zlen [NUL]) with 1. lia.
Qed.

Lemma port_loop_le ds n p : n <= 2 ^ 31 - 1 → port_loop n ds = Val p → p <= 2 ^ 31 - 1.
Proof.
  revert n. induction ds as [|c ds IH]; intros n Hn; cbn [port_loop]; [by intros [= <-]|]. destruct (negb _); [intros [= <-]; lia|].
  destruct (Z.gtb_spec (n * 10 + (b2z c - 48)) (2 ^ 31 - 1)); [done|]. apply IH. lia.
Qed.

Lemma port_range p t : port_text p t → -1 <= p <= 2 ^ 31 - 1.
Proof. intros [[-> _]|(ds & _ & _ & Hd & Hp)]; [lia|]. pose proof (port_loop_nonneg ds 0 p Hd ltac:(lia) Hp). pose proof (port_loop_le ds 0 p ltac:(lia) Hp). lia. Qed.

Context `{Malloc} (inet_pton6 : list byte → bool) (Hpton : pton_chars inet_pton6) (Hmem : reliable).

Lemma spell_port u t t' : Zlen (spell u t') <= Zlen (spell u t) + Zlen t'.
Proof.
  unfold spell, authority_text. rewrite !Zlen_app. destruct (u_host u); [rewrite !Zlen_app|]; pose proof (Zlen_nonneg t); pose proof (Zlen_nonneg t'); lia.
Qed.

Lemma uri_ok_port flags u t t' : uri_ok inet_pton6 flags u t → (u_host u ≠ None → port_text (u_port u) t') → (u_host u = None → t' = []) → uri_ok inet_pton6 flags u t'.
Proof.
  intros [K1 K2 K3 K4 K5] Hp Hn. split; try done. destruct (u_host u); [|destruct K3 as (? & ? & _); auto]. destruct K3 as (? & ? & _). split; [done|]. split; [done|]. by apply Hp.
Qed.

(** Joining a URI that was parsed gives a string that is parsed to the same URI, and that differs from
    the first at most in how the port is written; it is given out exactly when the caller's
    buffer is large enough. *)
Theorem uri_join_parse s flags u limit : all_in (λ c, negb (isc NUL c)) s = true → Zlen s < 2 ^ 30 → evhttp_uri_parse_with_flags inet_pton6 s flags = Val (Some u) →
  ∃ s' t, evhttp_uri_join (B := B) u limit = (if limit <? Zlen s' + 1 then None else Some (s' ++ [NUL])) ∧
    evhttp_uri_parse_with_flags inet_pton6 s' flags = Val (Some u) ∧ s = spell u t ∧ s' = spell u (join_port (u_port u)).
Proof.
  intros Hnul Hlen (t & Hu & ->)%parse_sound; [|done..]. exists (spell u (join_port (u_port u))), t. pose proof (ok_authority _ _ _ _ Hu) as Ha. destruct (ok_tail _ _ _ _ Hu) as (_ & _ & _ & Hp & _).
  assert (uri_ok inet_pton6 flags u (join_port (u_port u))) as Hu'.
  { apply (uri_ok_port flags u t); [done| |]; destruct (u_host u); try done; [|by destruct Ha as (_ & -> & _)]. intros _. destruct Ha as (_ & _ & Hpt). by eapply join_port_text, port_range. }
  split; [|split; [by apply parse_complete|done]]. apply uri_join_spec.
  - pose proof (spell_port u t (join_port (u_port u))). assert (Zlen (join_port (u_port u)) <= 12); [|lia]. unfold join_port. destruct (_ >=? _); [|done].
    pose proof (decimal_len 10 (u_port u) []) as Hd. change (Zlen (@nil byte)) with 0 in Hd. rewrite Zlen_cons. unfold decimal. lia.
  - intros h p Hh Hpa. rewrite Hh, Hpa in Hp. done.
Qed.
End join.
