(* ===== verification/UriGrammar.v ===== *)
(** The grammar of URIs, written without the functions of http.c, and the parser's agreement with it. *)

From S2P Require Import Prelude EvbufferApi BufChain BufRefine Chars PrintApi Uri UriProps.

(** ** Classes of characters *)

Definition between (lo hi : Z) (c : byte) : bool := (lo <=? b2z c) && (b2z c <=? hi).
Definition one_of (set : string) (c : byte) : bool := existsb (isc c) (bytes_of set).
Definition letter (c : byte) : bool := between 65 90 c || between 97 122 c.
Definition digit (c : byte) : bool := between 48 57 c.
Definition hexdig (c : byte) : bool := digit c || between 65 70 c || between 97 102 c.
Definition unreserved (c : byte) : bool := letter c || digit c || one_of "-._~" c.
Definition sub_delim (c : byte) : bool := one_of "!$&'()*+,;=" c.
Definition host_char (c : byte) : bool := unreserved c || sub_delim c.
Definition user_char (c : byte) : bool := host_char c || one_of ":" c.
(** Of a path, and of a query or a fragment. *)
Definition path_char (part : uri_part) (c : byte) : bool :=
  user_char c || one_of "@/" c || match part with PART_PATH => false | PART_QUERY | PART_FRAGMENT => one_of "?" c end.

(** Two classes have the same characters; a string has no NUL. *)
Definition same_class (f g : byte → bool) : Prop := ∀ c, isc NUL c = false → f c = g c.

Lemma same_class_check f g : forallb (λ c, isc NUL c || Bool.eqb (f c) (g c)) all_bytes = true → same_class f g.
Proof. intros Hf c Hc. pose proof (each_byte _ Hf c) as E. cbn beta in E. rewrite Hc in E. by apply eqb_prop in E. Qed.

Lemma digit_class : same_class EVUTIL_ISDIGIT digit.
Proof. by apply same_class_check. Qed.
Lemma hexdig_class : same_class EVUTIL_ISXDIGIT hexdig.
Proof. by apply same_class_check. Qed.
Lemma host_class : same_class name_char host_char.
Proof. by apply same_class_check. Qed.
Lemma user_class : same_class info_char user_char.
Proof. by apply same_class_check. Qed.
Lemma path_class part : same_class (part_char part) (path_char part).
Proof. by destruct part; apply same_class_check. Qed.

Definition no_nul (s : list byte) : Prop := all_in (λ c, negb (isc NUL c)) s = true.

Lemma no_nul_app s t : no_nul (s ++ t) ↔ no_nul s ∧ no_nul t.
Proof. unfold no_nul. by rewrite all_in_app, andb_true_iff. Qed.
Lemma no_nul_cons c s : no_nul (c :: s) ↔ isc NUL c = false ∧ no_nul s.
Proof. unfold no_nul. by rewrite all_in_cons, andb_true_iff, negb_true_iff. Qed.

Lemma all_in_class f g s : same_class f g → no_nul s → all_in f s = all_in g s.
Proof. intros Hfg. induction s as [|c s IH]; [done|]. intros [Hc Hs]%no_nul_cons. rewrite !all_in_cons, IH by done. by rewrite Hfg. Qed.

(** A class without NUL needs no such condition. *)
Lemma class_no_nul f s : f NUL = false → all_in f s = true → no_nul s.
Proof. intros Hf. apply all_in_sub. intros c Hc. apply negb_true_iff. by apply (class_not f). Qed.

(** ** URIs *)

(** Characters of a class and escapes of two hexadecimal digits. *)
Inductive escaped (f : byte → bool) : list byte → Prop :=
  | escaped_nil : escaped f []
  | escaped_char c s : f c = true → escaped f s → escaped f (c :: s)
  | escaped_byte a b s : hexdig a = true → hexdig b = true → escaped f s → escaped f ("%"%byte :: a :: b :: s).

Definition nonconformant (flags : Z) : bool := negb (Z.land flags EVHTTP_URI_NONCONFORMANT =? 0).

(** What ends a part of a URI that does not conform to the grammar. *)
Definition part_stop (part : uri_part) (c : byte) : bool :=
  match part with PART_PATH => one_of "#?" c | PART_QUERY => one_of "#" c | PART_FRAGMENT => false end.

Definition part_grammar (part : uri_part) (flags : Z) (s : list byte) : Prop :=
  if nonconformant flags then all_in (λ c, negb (part_stop part c)) s = true else escaped (path_char part) s.

(** The number that decimal digits stand for. *)
Definition number (ds : list byte) : Z := foldl (λ n c, 10 * n + (b2z c - 48)) 0 ds.

(** A port of an int, or none; an empty one counts as none. *)
Definition port_grammar (p : Z) (t : list byte) : Prop :=
  (p = -1 ∧ (t = [] ∨ t = bytes_of ":")) ∨ ∃ ds, t = bytes_of ":" ++ ds ∧ ds ≠ [] ∧ all_in digit ds = true ∧ p = number ds ∧ p < 2 ^ 31.

(** An address of a later version: "v", hexadecimal digits, a dot and at least one character. *)
Definition future_host (h : list byte) : Prop :=
  ∃ version address, h = bytes_of "[v" ++ version ++ bytes_of "." ++ address ++ bytes_of "]" ∧
    version ≠ [] ∧ all_in hexdig version = true ∧ address ≠ [] ∧ all_in user_char address = true.

Section grammar.
Context `{Malloc} (inet_pton6 : list byte → bool) (Hpton : pton_chars inet_pton6) (Hmem : reliable).

(** An IPv6 address of at most 63 characters, a later address or a name. *)
Definition host_grammar (h : list byte) : Prop :=
  (∃ address, h = bytes_of "[" ++ address ++ bytes_of "]" ∧ 0 < Zlen address < 64 ∧ inet_pton6 address = true) ∨ future_host h ∨ escaped host_char h.

Record uri_grammar (flags : Z) (u : evhttp_uri) (t : list byte) : Prop := {
  gr_flags : u_flags u = flags;
  gr_scheme : ∀ s, u_scheme u = Some s → ∃ c s', s = c :: s' ∧ letter c = true ∧ all_in (λ c, letter c || digit c || one_of "+-." c) s' = true;
  gr_user : ∀ i, u_userinfo u = Some i → escaped user_char i;
  gr_host : match u_host u with
            | Some h => host_grammar h ∧ port_grammar (u_port u) t
            | None => u_userinfo u = None ∧ u_port u = -1 ∧ t = []
            end;
  gr_path : ∃ p, u_path u = Some p ∧ part_grammar PART_PATH flags p ∧
    (if present (u_host u) then p = [] ∨ head0 p = "/"%byte else ¬ (head0 p = "/"%byte ∧ head0 (drop 1 p) = "/"%byte)) ∧
    (u_scheme u = None → ∀ a b, p = a ++ ":"%byte :: b → ("/"%byte : byte) ∈ a);
  gr_query : ∀ s, u_query u = Some s → part_grammar PART_QUERY flags s;
  gr_fragment : ∀ s, u_fragment u = Some s → part_grammar PART_FRAGMENT flags s }.

(** ** The functions and the grammar *)

Lemma hex_pair a b : isc NUL a = false → isc NUL b = false → EVUTIL_ISXDIGIT a && EVUTIL_ISXDIGIT b = hexdig a && hexdig b.
Proof. intros Ha Hb. by rewrite !hexdig_class. Qed.

Lemma escaped_no_nul f s : f NUL = false → escaped f s → no_nul s.
Proof.
  intros Hf. induction 1 as [|c s Hc Hs IH|a b s Ha Hb Hs IH]; [done|apply no_nul_cons; split; [by apply (class_not f)|done]|].
  rewrite !no_nul_cons. split; [done|]. split; [by apply (class_not hexdig)|]. split; [by apply (class_not hexdig)|done].
Qed.

Lemma userinfo_grammar s : no_nul s → userinfo_ok s = true ↔ escaped user_char s.
Proof.
  intros Hn. split.
  - revert Hn. induction s as [|c s IH1 IH2] using escape_ind; [constructor|]. intros [Hc Hn]%no_nul_cons. cbn [userinfo_ok]. fold (name_char c). fold (info_char c). rewrite (user_class c Hc). destruct (user_char c) eqn:Ec; [constructor; auto|].
    destruct (isc "%"%byte c) eqn:Ep; [|done]. apply is_eq in Ep as ->. destruct s as [|a [|b s]]; [done|done|]. rewrite !no_nul_cons in Hn. destruct Hn as (Ha & Hb & Hn). rewrite hex_pair by done.
    intros [[Hxa Hxb]%andb_true_iff Hs]%andb_true_iff. apply escaped_byte; eauto.
  - clear Hn. induction 1 as [|c s Hc Hs IH|a b s Ha Hb Hs IH]; [done| |]; cbn [userinfo_ok].
    + fold (name_char c). fold (info_char c). rewrite user_class by (by apply (class_not user_char)). by rewrite Hc.
    + cbn. rewrite (hex_pair a b) by (by apply (class_not hexdig)). by rewrite Ha, Hb, IH.
Qed.

Lemma regname_grammar s : no_nul s → regname_ok s [] = true ↔ escaped host_char s.
Proof.
  intros Hn. split.
  - revert Hn. induction s as [|c s IH1 IH2] using escape_ind; [constructor|]. intros [Hc Hn]%no_nul_cons. cbn [regname_ok]. fold (name_char c). rewrite (host_class c Hc). destruct (host_char c) eqn:Ec; [constructor; auto|].
    destruct (isc "%"%byte c) eqn:Ep; [|done]. apply is_eq in Ep as ->. destruct s as [|a [|b s]]; [done|by rewrite andb_false_r|]. rewrite !no_nul_cons in Hn. destruct Hn as (Ha & Hb & Hn). rewrite hex_pair by done.
    intros [[Hxa Hxb]%andb_true_iff Hs]%andb_true_iff. apply escaped_byte; eauto.
  - clear Hn. induction 1 as [|c s Hc Hs IH|a b s Ha Hb Hs IH]; [done| |]; cbn [regname_ok].
    + fold (name_char c). rewrite host_class by (by apply (class_not host_char)). by rewrite Hc.
    + cbn. rewrite (hex_pair a b) by (by apply (class_not hexdig)). by rewrite Ha, Hb, IH.
Qed.

Lemma part_char_pct part : part_char part "%"%byte = false.
Proof. by destruct part. Qed.

Lemma stop_class : (∀ c, isc "#"%byte c || isc "?"%byte c = one_of "#?" c) ∧ (∀ c, isc "#"%byte c = one_of "#" c).
Proof.
  split; intros c; apply eqb_prop; revert c; [apply (each_byte (λ c, Bool.eqb (isc "#"%byte c || isc "?"%byte c) (one_of "#?" c)))|apply (each_byte (λ c, Bool.eqb (isc "#"%byte c) (one_of "#" c)))]; reflexivity.
Qed.

Lemma part_ok_grammar part flags s : no_nul s → part_ok part flags s ↔ part_grammar part flags s.
Proof.
  intros Hn. unfold part_ok, part_grammar, end_of_path. fold (nonconformant flags). destruct (nonconformant flags).
  - assert (∀ f g, (∀ c, f c = g c) → (break f s).2 = [] ↔ all_in (λ c, negb (g c)) s = true) as Hb.
    { intros f g Hfg. assert (all_in (λ c, negb (g c)) s = all_in (λ c, negb (f c)) s) as -> by (clear Hn; induction s as [|c s IH]; [done|]; by rewrite !all_in_cons, IH, Hfg). split; intros Hs.
      - pose proof (break_app f s) as Ha. pose proof (break_out f s) as Ho. rewrite Hs, app_nil_r in Ha. by rewrite Ha in Ho.
      - pose proof (break_at f s [] Hs I) as E. rewrite app_nil_r in E. by rewrite E. }
    destruct part; [apply Hb, stop_class|apply Hb, stop_class|]. cbn. split; [intros _|done]. clear. by induction s.
  - split.
    + revert Hn. induction s as [|c s IH1 IH2] using escape_ind; [constructor|]. intros [Hc Hn]%no_nul_cons. cbn [path_loop]. rewrite (path_class part c Hc). destruct (path_char part c) eqn:Ec; [destruct (path_loop part s); intros Hq; apply escaped_char; auto|].
      destruct (isc "%"%byte c) eqn:Ep; [|done]. apply is_eq in Ep as ->. destruct s as [|a [|b s]]; [done|done|]. rewrite !no_nul_cons in Hn. destruct Hn as (Ha & Hb & Hn). rewrite hex_pair by done.
      destruct (_ && _) eqn:Ex; [|done]. apply andb_true_iff in Ex as [Hxa Hxb]. specialize (IH2 a b s eq_refl Hn). destruct (path_loop part s). intros Hq. apply escaped_byte; auto.
    + clear Hn. induction 1 as [|c s Hc Hs IH|a b s Ha Hb Hs IH]; [done| |]; cbn [path_loop].
      * rewrite path_class by (by apply (class_not (path_char part)); [destruct part|]). rewrite Hc. by destruct (path_loop part s).
      * rewrite part_char_pct, is_same, (hex_pair a b) by (by apply (class_not hexdig)). rewrite Ha, Hb. cbn [andb]. by destruct (path_loop part s).
Qed.

Lemma noscheme_grammar p : path_matches_noscheme p = true ↔ ∀ a b, p = a ++ ":"%byte :: b → ("/"%byte : byte) ∈ a.
Proof.
  split.
  - induction p as [|c p IH]; intros Hp a b E; [by destruct a|]. cbn [path_matches_noscheme] in Hp. destruct (isc ":"%byte c) eqn:Ec; [done|]. destruct a as [|x a]; [injection E as -> _; done|].
    injection E as <- ->. destruct (isc "/"%byte c) eqn:Es; [apply is_eq in Es as ->; left|]. right. by apply (IH Hp a b).
  - induction p as [|c p IH]; intros Hp; [done|]. cbn [path_matches_noscheme]. destruct (isc ":"%byte c) eqn:Ec; [apply is_eq in Ec as ->; by specialize (Hp [] p eq_refl) as ?%not_elem_of_nil|].
    destruct (isc "/"%byte c) eqn:Es; [done|]. apply IH. intros a b ->. specialize (Hp (c :: a) b eq_refl). apply elem_of_cons in Hp as [<-|?]; [|done]. done.
Qed.

(** *** Ports *)

Lemma digit_eq c : EVUTIL_ISDIGIT c = digit c.
Proof. apply eqb_prop. revert c. by apply (each_byte (λ c, Bool.eqb (EVUTIL_ISDIGIT c) (digit c))). Qed.

Lemma all_digits ds : all_in EVUTIL_ISDIGIT ds = all_in digit ds.
Proof. induction ds as [|c ds IH]; [done|]. by rewrite !all_in_cons, IH, digit_eq. Qed.

Lemma number_grows ds n : all_in digit ds = true → 0 <= n → n <= foldl (λ n c, 10 * n + (b2z c - 48)) n ds.
Proof.
  revert n. induction ds as [|c ds IH]; intros n; cbn [foldl]; [lia|]. rewrite all_in_cons. intros [Hc Hd]%andb_true_iff Hn. unfold digit, between in Hc. apply andb_true_iff in Hc as [Hc%Z.leb_le _].
  specialize (IH (10 * n + (b2z c - 48)) Hd ltac:(lia)). lia.
Qed.

Lemma port_loop_number ds n : all_in digit ds = true → 0 <= n < 2 ^ 31 →
  port_loop n ds = if foldl (λ n c, 10 * n + (b2z c - 48)) n ds <? 2 ^ 31 then Val (foldl (λ n c, 10 * n + (b2z c - 48)) n ds) else Undef Overflow.
Proof.
  revert n. induction ds as [|c ds IH]; intros n; cbn [foldl port_loop]; [by intros _ Hn; destruct (Z.ltb_spec n (2 ^ 31)); [|lia]|]. rewrite all_in_cons. intros [Hc Hd]%andb_true_iff Hn. rewrite digit_eq, Hc. cbn [negb].
  unfold digit, between in Hc. apply andb_true_iff in Hc as [Hc%Z.leb_le _]. replace (n * 10 + (b2z c - 48)) with (10 * n + (b2z c - 48)) by lia. destruct (Z.gtb_spec (10 * n + (b2z c - 48)) (2 ^ 31 - 1)).
  - pose proof (number_grows ds (10 * n + (b2z c - 48)) Hd ltac:(lia)). by destruct (Z.ltb_spec (foldl (λ n c, 10 * n + (b2z c - 48)) (10 * n + (b2z c - 48)) ds) (2 ^ 31)); [lia|].
  - apply IH; [done|lia].
Qed.

Lemma parse_port_number ds : all_in digit ds = true → parse_port ds = if number ds <? 2 ^ 31 then Val (number ds) else Undef Overflow.
Proof. intros Hd. by apply port_loop_number. Qed.

Lemma port_text_grammar p t : port_text p t ↔ port_grammar p t.
Proof.
  unfold port_text, port_grammar. apply or_iff_compat_l. split; intros (ds & -> & Hne & Hd).
  - destruct Hd as [Hd Hp]. rewrite all_digits in Hd. rewrite parse_port_number in Hp by done. exists ds. destruct (Z.ltb_spec (number ds) (2 ^ 31)); [|done]. by injection Hp as <-.
  - destruct Hd as (Hd & -> & Hlt). exists ds. split; [done|]. split; [done|]. split; [by rewrite all_digits|]. rewrite parse_port_number by done. by destruct (Z.ltb_spec (number ds) (2 ^ 31)); [|lia].
Qed.

(** *** Hosts *)

(** A later address with nothing behind the dot, which the grammar forbids. *)
Definition dotted_host (h : list byte) : Prop := ∃ version, h = bytes_of "[v" ++ version ++ bytes_of ".]" ∧ version ≠ [] ∧ all_in hexdig version = true.

Lemma bracketed_addr m : bracketed ("["%byte :: m ++ [("]"%byte : byte)]) = true.
Proof. unfold bracketed. cbn [head0]. rewrite is_same, app_comm_cons, last_last, is_same, Zlen_app, Zlen_cons. change (Zlen [("]"%byte : byte)]) with 1. pose proof (Zlen_nonneg m). by destruct (Z.geb_spec (1 + Zlen m + 1) 2); [|lia]. Qed.

(** What is between the brackets, for both kinds of address. *)
Lemma bracket_addr_eq m : bracket_addr_ok inet_pton6 ("["%byte :: m ++ [("]"%byte : byte)]) =
  match m with
  | [] => 0
  | c :: m' =>
      if isc "v"%byte c then
        if negb (EVUTIL_ISXDIGIT (head0 (m' ++ [("]"%byte : byte)]))) then 0
        else let '(version, rest) := break (isc "."%byte) m' in
          if negb (all_in EVUTIL_ISXDIGIT version) then 0
          else match rest with [] => 0 | _ :: rest => if all_in info_char rest then 2 else 0 end
      else if Zlen m >=? 64 then 0 else if inet_pton6 m then 1 else 0
  end.
Proof.
  unfold bracket_addr_ok. cbn [head0]. rewrite is_same, app_comm_cons, last_last, is_same, Zlen_app, Zlen_cons. change (Zlen [("]"%byte : byte)]) with 1. cbn [negb]. rewrite !orb_false_r. destruct m as [|c m']; [done|].
  rewrite Zlen_cons. pose proof (Zlen_nonneg m'). destruct (Z.ltb_spec (1 + (1 + Zlen m') + 1) 3); [lia|]. cbn [drop app head0]. rewrite !drop_0. rewrite removelast_last. change (c :: m' ++ ["]"%byte]) with ((c :: m') ++ [("]"%byte : byte)]). rewrite removelast_last, Zlen_cons. done.
Qed.

Lemma host_ok_grammar h : no_nul h → host_ok inet_pton6 h = true ↔ host_grammar h ∨ dotted_host h.
Proof.
  intros Hn. unfold host_ok. split.
  - destruct (bracketed h) eqn:Hb; [|intros Hr; left; right; right; by apply regname_grammar]. destruct (bracketed_split h Hb) as [m ->]. rewrite bracket_addr_eq. rewrite no_nul_cons, no_nul_app in Hn. destruct Hn as (_ & Hn & _).
    destruct m as [|c m]; [done|]. destruct (isc "v"%byte c) eqn:Ev.
    + apply is_eq in Ev as ->. apply no_nul_cons in Hn as [_ Hn]. destruct (EVUTIL_ISXDIGIT (head0 (m ++ _))) eqn:Ex; cbn [negb]; [|done]. pose proof (break_app (isc "."%byte) m) as Ha. pose proof (break_rest (isc "."%byte) m) as Hr.
      destruct (break (isc "."%byte) m) as [v [|c r]]; cbn in Ha, Hr; [by destruct (negb (all_in _ _))|]. apply is_eq in Hr as ->. subst m. apply no_nul_app in Hn as [Hnv [_ Hnr]%no_nul_cons].
      rewrite (all_in_class _ _ v hexdig_class Hnv). destruct (all_in hexdig v) eqn:Hv; [|done]. rewrite (all_in_class _ _ r user_class Hnr). cbn [negb]. destruct (all_in user_char r) eqn:Hr; [|done]. intros _.
      assert (v ≠ []) as Hvne by (intros ->; done). destruct r as [|x r].
      * right. exists v. split; [cbn; by rewrite <- app_assoc|done].
      * left. right. left. exists v, (x :: r). split; [cbn; by rewrite <- app_assoc|done].
    + destruct (Z.geb_spec (Zlen (c :: m)) 64); [done|]. destruct (inet_pton6 (c :: m)) eqn:Ep; [|done]. intros _. left. left. exists (c :: m). split; [done|]. split; [|done]. rewrite Zlen_cons in *. pose proof (Zlen_nonneg m). lia.
  - assert (∀ v r, all_in hexdig v = true → v ≠ [] → all_in user_char r = true → bracket_addr_ok inet_pton6 ("["%byte :: ("v"%byte :: v ++ "."%byte :: r) ++ [("]"%byte : byte)]) = 2) as Hfut.
    { intros v r Hv Hne Hr. rewrite bracket_addr_eq. change (isc "v"%byte "v"%byte) with true. cbv iota. assert (no_nul v) as Hnv by (by apply (class_no_nul hexdig)). assert (no_nul r) as Hnr by (by apply (class_no_nul user_char)).
      rewrite <- (all_in_class _ _ v hexdig_class Hnv) in Hv. rewrite <- (all_in_class _ _ r user_class Hnr) in Hr. rewrite break_at; [|revert Hv; apply all_in_sub; by apply class_sub|done]. rewrite Hv, Hr. cbn [negb].
      destruct v as [|x v]; [done|]. cbn [app head0]. rewrite all_in_cons in Hv. apply andb_true_iff in Hv as [-> _]. done. }
    assert (∀ m, bracket_addr_ok inet_pton6 ("["%byte :: m ++ [("]"%byte : byte)]) ≠ 0 → (if bracketed ("["%byte :: m ++ [("]"%byte : byte)]) then negb (bracket_addr_ok inet_pton6 ("["%byte :: m ++ [("]"%byte : byte)]) =? 0) else regname_ok ("["%byte :: m ++ [("]"%byte : byte)]) []) = true) as Hin.
    { intros m Hm. rewrite bracketed_addr. by apply negb_true_iff, Z.eqb_neq. }
    intros [[(a & -> & Ha & Hp)|[(v & r & -> & Hne & Hv & _ & Hr)|He]]|(v & -> & Hne & Hv)].
    + apply Hin. rewrite bracket_addr_eq. destruct a as [|c a]; [by destruct Ha|]. pose proof (Hpton _ Hp) as Hc. rewrite all_in_cons in Hc. apply andb_true_iff in Hc as [Hc _].
      destruct (isc "v"%byte c) eqn:Ev; [apply is_eq in Ev as ->; done|]. destruct (Z.geb_spec (Zlen (c :: a)) 64); [lia|]. by rewrite Hp.
    + replace (bytes_of "[v" ++ v ++ bytes_of "." ++ r ++ bytes_of "]") with ("["%byte :: ("v"%byte :: v ++ "."%byte :: r) ++ [("]"%byte : byte)]) by (cbn; by rewrite <- app_assoc). apply Hin. by rewrite Hfut.
    + destruct (bracketed h) eqn:Hb; [|by apply regname_grammar]. destruct (bracketed_split h Hb) as [m ->]. inversion He; subst; done.
    + replace (bytes_of "[v" ++ v ++ bytes_of ".]") with ("["%byte :: ("v"%byte :: v ++ "."%byte :: []) ++ [("]"%byte : byte)]) by (cbn; by rewrite <- app_assoc). apply Hin. by rewrite Hfut.
Qed.

(** *** Whole URIs *)

Lemma scheme_grammar s : no_nul s → scheme_ok s = true ↔ ∃ c s', s = c :: s' ∧ letter c = true ∧ all_in (λ c, letter c || digit c || one_of "+-." c) s' = true.
Proof.
  assert (same_class EVUTIL_ISALPHA letter) as Ha by (by apply same_class_check). assert (same_class scheme_char (λ c, letter c || digit c || one_of "+-." c)) as Hc by (by apply same_class_check). intros Hn. split.
  - destruct s as [|c s]; [done|]. apply no_nul_cons in Hn as [Hnc Hn]. cbn [scheme_ok]. rewrite (Ha c Hnc). intros [H1 H2]%andb_true_iff. exists c, s. split; [done|]. split; [done|]. by rewrite <- (all_in_class _ _ s Hc Hn).
  - intros (c & s' & -> & H1 & H2). apply no_nul_cons in Hn as [Hnc Hn]. cbn [scheme_ok]. rewrite (Ha c Hnc), H1. by rewrite <- (all_in_class _ _ s' Hc Hn) in H2.
Qed.

(** The parts of a string have no NUL if it has none. *)
Lemma parts_no_nul u t : no_nul (spell u t) → (∀ s, u_scheme u = Some s → no_nul s) ∧ (∀ h, u_host u = Some h → no_nul h ∧ ∀ i, u_userinfo u = Some i → no_nul i) ∧
  no_nul (default [] (u_path u)) ∧ (∀ s, u_query u = Some s → no_nul s) ∧ (∀ s, u_fragment u = Some s → no_nul s).
Proof.
  unfold spell, tail_text, authority_text. rewrite !no_nul_app. intros (N1 & N2 & N3 & N4 & N5). split; [intros s Hs; rewrite Hs in N1; cbn in N1; by apply no_nul_app in N1 as [? _]|].
  split; [|split; [done|]; split; intros s Hs; [rewrite Hs in N4; cbn in N4; by apply no_nul_cons in N4 as [_ ?]|rewrite Hs in N5; cbn in N5; by apply no_nul_cons in N5 as [_ ?]]].
  intros h Hh. rewrite Hh in N2. rewrite !no_nul_app in N2. destruct N2 as (_ & N6 & N7 & _). split; [done|]. intros i Hi. rewrite Hi in N6. cbn in N6. by apply no_nul_app in N6 as [? _].
Qed.

Lemma uri_ok_grammar flags u t : no_nul (spell u t) → (∀ h, u_host u = Some h → ¬ dotted_host h) → uri_ok inet_pton6 flags u t ↔ uri_grammar flags u t.
Proof.
  intros (N1 & N2 & N3 & N4 & N5)%parts_no_nul Hdot. split.
  - intros [H1 H2 H3 [p Hp] H5]. rewrite Hp in H5, N3. cbn in H5, N3. destruct H5 as (T1 & T2 & T3 & T4 & T5). split; try done.
    + intros s Hs. apply scheme_grammar; [by apply N1|by apply H2].
    + intros i Hi. destruct (u_host u) as [h|]; [|by rewrite (proj1 H3) in Hi]. apply userinfo_grammar; [by apply (N2 h)|by apply H3].
    + destruct (u_host u) as [h|]; [|done]. destruct H3 as (_ & Hh & Hpt). split; [|by apply port_text_grammar]. apply host_ok_grammar in Hh as [?|Hd]; [done|by apply (Hdot h) in Hd|by apply N2].
    + exists p. split; [done|]. split; [by apply part_ok_grammar|]. split; [done|]. intros Hs. apply noscheme_grammar, T5. by rewrite Hs.
    + intros s Hs. apply part_ok_grammar; [by apply N4|by apply T2].
    + intros s Hs. apply part_ok_grammar; [by apply N5|by apply T3].
  - intros [H1 H2 H3 H4 (p & Hp & T1 & T4 & T5) T2 T3]. rewrite Hp in N3. cbn in N3. split; try done.
    + intros s Hs. apply scheme_grammar; [by apply N1|by apply H2].
    + destruct (u_host u) as [h|]; [|done]. destruct (N2 h eq_refl) as [Nh Ni]. destruct H4 as [Hh Hpt]. split; [intros i Hi; apply userinfo_grammar; [by apply Ni|by apply H3]|]. split; [|by apply port_text_grammar]. apply host_ok_grammar; [done|by left].
    + rewrite Hp. split; [by apply part_ok_grammar|]. split; [intros s Hs; apply part_ok_grammar; [by apply N4|by apply T2]|]. split; [intros s Hs; apply part_ok_grammar; [by apply N5|by apply T3]|]. split; [done|].
      intros Hs. apply noscheme_grammar, T5. by destruct (u_scheme u).
Qed.

(** A port that does not fit into an int, somewhere in the string. *)
Definition port_too_large (s : list byte) : Prop := ∃ before ds after, s = before ++ bytes_of ":" ++ ds ++ after ∧ all_in digit ds = true ∧ 2 ^ 31 <= number ds.

Lemma too_large_within a s b : port_too_large s → port_too_large (a ++ s ++ b).
Proof. intros (x & ds & y & -> & Hd & Hn). exists (a ++ x), ds, (y ++ b). split; [by rewrite <- !app_assoc|done]. Qed.

Lemma hostport_undef tail cp uri e : parse_hostport inet_pton6 tail cp uri = Undef e → e = Overflow ∧ port_too_large cp.
Proof.
  unfold parse_hostport. destruct (split_port cp) as [[h ds]|] eqn:Es; [|done]. apply split_port_some in Es as [-> Hd]. rewrite all_digits in Hd. destruct ds as [|d ds]; [done|]. rewrite parse_port_number by done.
  destruct (Z.ltb_spec (number (d :: ds)) (2 ^ 31)); [done|]. intros [= <-]. split; [done|]. exists h, (d :: ds), []. split; [by rewrite app_nil_r|done].
Qed.

Lemma rest_undef readp uri e : parse_rest inet_pton6 readp uri = Undef e → e = Overflow ∧ port_too_large readp.
Proof.
  unfold parse_rest. destruct (_ && _); [|done]. rewrite <- (take_drop 2 readp) at 2. unfold end_of_authority. set (g := λ c, _). pose proof (break_app g (drop 2 readp)) as Ha. destruct (break g (drop 2 readp)) as [a path]. cbn [fst snd] in Ha. rewrite <- Ha.
  destruct (parse_authority inet_pton6 a path uri) as [?|e'] eqn:E; [done|]. intros [= <-]. rewrite parse_authority_eq in E by done. destruct a as [|c a]; [done|]. destruct (strchr (c :: a) "@"%byte) as [[i cp]|] eqn:Es.
  - apply strchr_some in Es as [-> _]. destruct (userinfo_ok i); [|done]. apply hostport_undef in E as [-> Hl]. split; [done|]. replace (take 2 readp ++ (i ++ "@"%byte :: cp) ++ path) with ((take 2 readp ++ i ++ bytes_of "@") ++ cp ++ path) by (by rewrite <- !app_assoc). by apply too_large_within.
  - apply hostport_undef in E as [-> Hl]. split; [done|]. by apply too_large_within.
Qed.

Lemma uri_undef s flags e : evhttp_uri_parse_with_flags inet_pton6 s flags = Undef e → e = Overflow ∧ port_too_large s.
Proof.
  rewrite parse_eq by done. destruct (strchr s ":"%byte) as [[sch r]|] eqn:Es; [|apply rest_undef]. destruct (scheme_ok sch); [|apply rest_undef]. intros [-> Hl]%rest_undef. split; [done|]. apply strchr_some in Es as [-> _].
  replace (sch ++ ":"%byte :: r) with ((sch ++ bytes_of ":") ++ r ++ []) by (rewrite app_nil_r; by rewrite <- app_assoc). by apply too_large_within.
Qed.

(** C36.  The parser accepts exactly the strings that spell a URI of the grammar, and returns that URI: scheme,
    user, host, port, path, query and fragment, each of its characters and escapes, the IPv6 and later addresses in brackets, decimal ports below 2^31, a path that is
    empty or begins with a slash behind an authority and not with two slashes without one, and no
    colon in the first segment of a path without a scheme.  What is an IPv6 address is up to inet_pton, of which it is only known that it takes hexadecimal digits, colons and dots. The
    strings have no NUL and memory does not fail.  The result is not one whose host is a later address with nothing behind the dot: the parser takes
    those, against its own comment.  Nothing is undefined but the overflow of a port of 2^31 or more. *)
Theorem uri_parse_exact s flags u : no_nul s →
  ((∀ h, u_host u = Some h → ¬ dotted_host h) → evhttp_uri_parse_with_flags inet_pton6 s flags = Val (Some u) ↔ ∃ t, uri_grammar flags u t ∧ s = spell u t) ∧
  (∀ e, evhttp_uri_parse_with_flags inet_pton6 s flags = Undef e → e = Overflow ∧ port_too_large s).
Proof.
  intros Hnul. split; [|apply uri_undef]. intros Hdot. split.
  - intros (t & Hu & ->)%parse_sound; [|done..]. exists t. by rewrite <- uri_ok_grammar.
  - intros (t & Hu & ->). apply parse_complete; [done|done|]. by apply uri_ok_grammar.
Qed.

End grammar.
