(* ===== verification/HttpText.v ===== *)
(** Texts of HTTP: escaping, headers and queries of http.c of libevent 2.0.21.

    Strings are as in Chars.v; the arrays the functions write to are lists of bytes, and every access
    to them is checked. *)

From S2P Require Import Prelude EvbufferApi BufChain Chars PrintApi Uri.

Section text.
Context `{Malloc}.

(** A new array. *)
Definition array_of (n : Z) : list byte := replicate (Z.to_nat n) uninit.

Definition EV_SIZE_MAX : Z := 2 ^ 64 - 1.

(** ** HTML *)

(** The size, and the text if the character is replaced. *)
Definition html_replace (ch : byte) : Z * option (list byte) :=
  if isc "<"%byte ch then (4, Some (bytes_of "&lt;"))
  else if isc ">"%byte ch then (4, Some (bytes_of "&gt;"))
  else if isc "034"%byte ch then (6, Some (bytes_of "&quot;"))
  else if isc "'"%byte ch then (6, Some (bytes_of "&#039;"))
  else if isc "&"%byte ch then (5, Some (bytes_of "&amp;"))
  else (1, None).

(** The first loop; [None] when the size overflows. *)
Fixpoint html_size (html : list byte) (new_size : Z) : option Z :=
  match html with
  | [] => Some new_size
  | ch :: html =>
      let replace_size := (html_replace ch).1 in
      if replace_size >? EV_SIZE_MAX - new_size then None else html_size html (new_size + replace_size)
  end.

(** The second loop, with [memcpy] of [len] bytes. *)
Fixpoint html_copy (html : list byte) (p : Z) (escaped : list byte) : outcome (Z * list byte) :=
  match html with
  | [] => Val (p, escaped)
  | ch :: rest =>
      let '(len, replaced) := html_replace ch in
      let replaced := default (ch :: rest) replaced in
      if len >? Zlen replaced then Undef OutOfBounds
      else escaped ← poke escaped p (ztake len replaced); html_copy rest (p + len) escaped
  end.

Definition evhttp_htmlescape (html : list byte) : outcome (option (list byte)) :=
  match html_size html 0 with
  | None => Val None
  | Some new_size =>
      if new_size =? EV_SIZE_MAX then Val None
      else if negb (malloc_ok (new_size + 1)) then Val None
      else
        '(p, escaped_html) ← html_copy html 0 (array_of (new_size + 1));
        escaped_html ← poke escaped_html p [NUL];
        Val (Some escaped_html)
  end.

(** ** Encoding for URIs *)

(** ["%%%02X"] *)
Definition hex_digit (n : Z) : byte := z2b (if n <? 10 then 48 + n else 55 + n).
Definition percent (c : byte) : list byte := ["%"%byte; hex_digit (b2z c / 16); hex_digit (b2z c mod 16)].

Definition encode_char `{Evbuffer B, !EvbufferText B} (space_as_plus : bool) (buf : B) (c : byte) : B :=
  if CHAR_IS_UNRESERVED c then (evbuffer_add buf [c]).2
  else if isc " "%byte c && space_as_plus then (evbuffer_add buf [("+"%byte : byte)]).2
  else (evbuffer_add_printf buf (percent c)).2.

(** [uri] is the array; without a length it is a C string. *)
Definition evhttp_uriencode `{Evbuffer B, !EvbufferText B} (uri : list byte) (len : Z) (space_as_plus : bool) : outcome (option (list byte)) :=
  match evbuffer_create with
  | None => Val None
  | Some buf =>
      chars ← (if len >=? 0 then if len <=? Zlen uri then Val (ztake len uri) else Undef OutOfBounds else Val (c_str uri));
      let buf := foldl (encode_char space_as_plus) (buf : B) chars in
      let buf := (evbuffer_add buf [NUL]).2 in
      let size := evbuffer_get_length buf in
      Val (if malloc_ok size then Some (evbuffer_remove buf size).1.2 else None)
  end.

Definition evhttp_encode_uri `{Evbuffer B, !EvbufferText B} (str : list byte) : outcome (option (list byte)) := evhttp_uriencode (B := B) str (-1) false.

(** ** Decoding *)

(** [strtol] of two hexadecimal digits. *)
Definition strtol16 (a b : byte) : byte := z2b (evutil_hex_char_to_int a * 16 + evutil_hex_char_to_int b).

(** The loop: [uri] is the string with its NUL, [ret] the array written to, [i] an unsigned and [j] an int. *)
Fixpoint decode_loop (fuel : nat) (uri : list byte) (length : Z) (decode_plus_ctl : Z) (decode_plus : bool) (i j : Z) (ret : list byte) : outcome (Z * list byte) :=
  if i <? length then
    match fuel with
    | O => Undef Hang
    | S fuel =>
        c ← or_undef OutOfBounds (znth uri i);
        '(c, i, decode_plus) ←
          (if isc "?"%byte c then Val (c, i, if decode_plus_ctl <? 0 then true else decode_plus)
           else if isc "+"%byte c && decode_plus then Val (" "%byte, i, decode_plus)
           else if isc "%"%byte c then
             a ← or_undef OutOfBounds (znth uri (u32 (i + 1)));
             if EVUTIL_ISXDIGIT a then
               b ← or_undef OutOfBounds (znth uri (u32 (i + 2)));
               Val (if EVUTIL_ISXDIGIT b then (strtol16 a b, u32 (i + 2), decode_plus) else (c, i, decode_plus))
             else Val (c, i, decode_plus)
           else Val (c, i, decode_plus));
        ret ← poke ret j [c];
        if j =? 2 ^ 31 - 1 then Undef Overflow else decode_loop fuel uri length decode_plus_ctl decode_plus (u32 (i + 1)) (j + 1) ret
    end
  else Val (j, ret).

Definition evhttp_decode_uri_internal (uri : list byte) (decode_plus_ctl : Z) (ret : list byte) : outcome (Z * list byte) :=
  '(j, ret) ← decode_loop (length uri) (uri ++ [NUL]) (Zlen uri) decode_plus_ctl (decode_plus_ctl =? 1) 0 0 ret;
  ret ← poke ret j [NUL];
  Val (j, ret).

Definition evhttp_decode_uri (uri : list byte) : outcome (option (list byte)) :=
  if negb (malloc_ok (Zlen uri + 1)) then Val None
  else '(_, ret) ← evhttp_decode_uri_internal uri (-1) (array_of (Zlen uri + 1)); Val (Some ret).

(** The array and the size for [size_out]. *)
Definition evhttp_uridecode (uri : list byte) (decode_plus : bool) : outcome (option (list byte * Z)) :=
  if negb (malloc_ok (Zlen uri + 1)) then Val None
  else '(n, ret) ← evhttp_decode_uri_internal uri (if decode_plus then 1 else 0) (array_of (Zlen uri + 1)); Val (Some (ret, n)).

(** ** Headers *)

Record evkeyval := { key : list byte; value : list byte }.

Definition sizeof_evkeyval : Z := 32.

Definition same_key (k : list byte) (header : evkeyval) : bool := evutil_ascii_strcasecmp (key header) k =? 0.

Definition evhttp_find_header (headers : list evkeyval) (k : list byte) : option (list byte) := value <$> List.find (same_key k) headers.

Definition evhttp_clear_headers (headers : list evkeyval) : list evkeyval := [].

Fixpoint evhttp_remove_header (headers : list evkeyval) (k : list byte) : Z * list evkeyval :=
  match headers with
  | [] => (-1, [])
  | h :: headers => if same_key k h then (0, headers) else let '(r, headers) := evhttp_remove_header headers k in (r, h :: headers)
  end.

Definition is_newline (c : byte) : bool := isc "013"%byte c || isc "010"%byte c.

(** [strpbrk] to the next end of line, [strspn] over it. *)
Fixpoint valid_value_loop (fuel : nat) (p : list byte) : bool :=
  match fuel with
  | O => true
  | S fuel =>
      match (break is_newline p).2 with
      | [] => true
      | p =>
          let p := (break (λ c, negb (is_newline c)) p).2 in
          if negb (isc " "%byte (head0 p)) && negb (isc "009"%byte (head0 p)) then false else valid_value_loop fuel p
      end
  end.
Definition evhttp_header_is_valid_value (value : list byte) : bool := valid_value_loop (S (length value)) value.

Definition evhttp_add_header_internal (headers : list evkeyval) (k v : list byte) : Z * list evkeyval :=
  if negb (malloc_ok sizeof_evkeyval) then (-1, headers)
  else
    match mm_strdup k, mm_strdup v with
    | Some k, Some v => (0, headers ++ [{| key := k; value := v |}])
    | _, _ => (-1, headers)
    end.

Definition evhttp_add_header (headers : list evkeyval) (k v : list byte) : Z * list evkeyval :=
  if existsb is_newline k then (-1, headers)
  else if negb (evhttp_header_is_valid_value v) then (-1, headers)
  else evhttp_add_header_internal headers k v.

(** ** Queries *)

(** [strsep] with one delimiter: the token and the rest, if there is one. *)
Definition strsep (s : list byte) (del : byte) : list byte * option (list byte) :=
  match strchr s del with Some (tok, rest) => (tok, Some rest) | None => (s, None) end.

(** The loop over the arguments; [None] is a jump to the label [error]. *)
Fixpoint query_loop (fuel : nat) (p : option (list byte)) (headers : list evkeyval) : outcome (option (list evkeyval)) :=
  match p with
  | None | Some [] => Val (Some headers)
  | Some line =>
      match fuel with
      | O => Undef Hang
      | S fuel =>
          let '(argument, p) := strsep line "&"%byte in
          let '(k, v) := strsep argument "="%byte in
          match k, v with
          | _ :: _, Some v =>
              if negb (malloc_ok (Zlen v + 1)) then Val None
              else
                '(_, decoded_value) ← evhttp_decode_uri_internal v 1 (array_of (Zlen v + 1));
                query_loop fuel p (evhttp_add_header_internal headers k (c_str decoded_value)).2
          | _, _ => Val None
          end
      end
  end.

(** The query part; the result and the headers. *)
Definition parse_query_part (query_part : option (list byte)) : outcome (Z * list evkeyval) :=
  match query_part with
  | None | Some [] => Val (0, [])
  | Some line =>
      if negb (malloc_ok (Zlen line + 1)) then Val (-1, [])
      else
        o ← query_loop (length line) (Some line) [];
        Val (match o with Some headers => (0, headers) | None => (-1, []) end)
  end.

Definition evhttp_parse_query_impl (inet_pton6 : list byte → bool) (str : list byte) (is_whole_uri : bool) : outcome (Z * list evkeyval) :=
  if is_whole_uri then
    o ← evhttp_uri_parse inet_pton6 str;
    match o with None => Val (-1, []) | Some uri => parse_query_part (u_query uri) end
  else parse_query_part (Some str).
Definition evhttp_parse_query (inet_pton6 : list byte → bool) (uri : list byte) : outcome (Z * list evkeyval) := evhttp_parse_query_impl inet_pton6 uri true.
Definition evhttp_parse_query_str (inet_pton6 : list byte → bool) (uri : list byte) : outcome (Z * list evkeyval) := evhttp_parse_query_impl inet_pton6 uri false.
End text.
