(* ===== verification/HttpProps.v ===== *)
(** What the functions of HttpText.v promise: encoded data is decoded to itself, queries and HTML are
    read as they were meant. *)

From S2P Require Import Prelude EvbufferApi BufChain BufRefine Chars PrintApi Uri UriProps HttpText.

(** ** Writing into an array *)

Lemma poke_app out src old space : Zlen old = Zlen src → poke (out ++ old ++ space) (Zlen out) src = Val (out ++ src ++ space).
Proof.
  intros Hl. pose proof (Zlen_nonneg out). pose proof (Zlen_nonneg space). pose proof (Zlen_nonneg src). rewrite poke_val by (rewrite ?Zlen_app; lia). f_equal. unfold splice. rewrite ztake_app_exact. do 2 f_equal.
  rewrite zdrop_app_r by lia. replace (Zlen out + Zlen src - Zlen out) with (Zlen old) by lia. apply zdrop_app_exact.
Qed.

(** The next [Zlen src] bytes of the free space are written. *)
Lemma poke_space out src space : Zlen src <= Zlen space → poke (out ++ space) (Zlen out) src = Val ((out ++ src) ++ zdrop (Zlen src) space).
Proof.
  intros Hl. rewrite <- (ztake_zdrop (Zlen src) space) at 1. rewrite poke_app, app_assoc; [done|]. pose proof (Zlen_nonneg src). rewrite Zlen_ztake. lia.
Qed.

(** ** Encoding *)

Definition encoded_char (plus : bool) (c : byte) : list byte :=
  if CHAR_IS_UNRESERVED c then [c] else if isc " "%byte c && plus then [("+"%byte : byte)] else percent c.
Definition encoded (plus : bool) (s : list byte) : list byte := mjoin (encoded_char plus <$> s).

Lemma encoded_cons plus c s : encoded plus (c :: s) = encoded_char plus c ++ encoded plus s.
Proof. done. Qed.

Lemma encoded_char_len plus c : 1 <= Zlen (encoded_char plus c) <= 3.
Proof. unfold encoded_char. destruct (CHAR_IS_UNRESERVED c); [done|]. by destruct (_ && _). Qed.

Lemma encoded_len plus s : Zlen s <= Zlen (encoded plus s) <= 3 * Zlen s.
Proof. induction s as [|c s IH]; [done|]. rewrite encoded_cons, Zlen_cons, Zlen_app. pose proof (encoded_char_len plus c). lia. Qed.

(** What encoded text consists of. *)
Definition plain (c : byte) : bool := CHAR_IS_UNRESERVED c || isc "%"%byte c || isc "+"%byte c.

Lemma encoded_plain plus s : all_in plain (encoded plus s) = true.
Proof.
  induction s as [|c s IH]; [done|]. rewrite encoded_cons, all_in_app, IH, andb_true_r. revert c.
  assert (∀ b, forallb (λ c, all_in plain (encoded_char b c)) all_bytes = true) as H by (by intros []). apply (each_byte (λ c, all_in plain (encoded_char plus c))), H.
Qed.

Section encode.
Context `{EvbufferSpec B, !EvbufferText B, !EvbufferTextSpec B} (Hrel : evb_reliable).

Lemma holding_encode plus chars (b : B) bs : holding b bs → holding (foldl (encode_char plus) b chars) (bs ++ encoded plus chars).
Proof.
  revert b bs. induction chars as [|c chars IH]; intros b bs Hb; [by rewrite app_nil_r|]. cbn [foldl]. rewrite encoded_cons, app_assoc. apply IH. unfold encode_char, encoded_char.
  assert (1 <= evb_limit) by (change evb_limit with (2 ^ 61); lia). destruct (CHAR_IS_UNRESERVED c); [by apply holding_add|]. destruct (_ && _); [by apply holding_add|]. by apply holding_printf.
Qed.

Lemma uriencode_spec `{Malloc} (Hmem : reliable) uri len plus : let chars := if len >=? 0 then ztake len uri else c_str uri in
  len <= Zlen uri → Zlen uri <= 2 ^ 59 → evhttp_uriencode (B := B) uri len plus = Val (Some (encoded plus chars ++ [NUL])).
Proof.
  intros chars Hlen Hsize. unfold evhttp_uriencode. destruct (create_reliable Hrel) as [b0 E0]. rewrite E0. destruct (create_spec b0 E0) as (K1 & K2 & K3). assert (holding b0 []) as Hb0 by done.
  destruct (Z.leb_spec len (Zlen uri)); [|lia].
  assert ((if len >=? 0 then Val (ztake len uri) else Val (c_str uri)) = Val chars) as -> by (unfold chars; by destruct (len >=? 0)). cbn [mbind outcome_bind].
  pose proof (holding_encode plus chars b0 [] Hb0) as Hb1. set (b1 := foldl _ _ _) in *. assert (1 <= evb_limit) by (change evb_limit with (2 ^ 61); lia).
  pose proof (holding_add Hrel b1 _ [NUL] Hb1 ltac:(done)) as (Hok & _ & Hc). set (b2 := (evbuffer_add b1 [NUL]).2) in *. rewrite Hmem, get_length_spec, Hc by done. cbn [app].
  set (out := encoded plus chars ++ [NUL]). destruct (remove_spec b2 (Zlen out) Hok ltac:(apply Zlen_nonneg)) as (b3 & -> & _). cbn [fst snd]. rewrite Hc. cbn [app]. fold out. by rewrite ztake_all.
Qed.
End encode.

(** ** Decoding *)

(** What decoding gives; [ctl] and [plus] as in the code. *)
Fixpoint decoded (ctl : Z) (plus : bool) (s : list byte) : list byte :=
  match s with
  | [] => []
  | c :: s =>
      if isc "?"%byte c then c :: decoded ctl (if ctl <? 0 then true else plus) s
      else if isc "+"%byte c && plus then " "%byte :: decoded ctl plus s
      else if isc "%"%byte c then
        match s with
        | a :: b :: s' => if EVUTIL_ISXDIGIT a && EVUTIL_ISXDIGIT b then strtol16 a b :: decoded ctl plus s' else c :: decoded ctl plus s
        | _ => c :: decoded ctl plus s
        end
      else c :: decoded ctl plus s
  end.

Lemma decoded_len ctl plus s : Zlen (decoded ctl plus s) <= Zlen s.
Proof.
  revert plus. induction s as [|c s IH1 IH2] using escape_ind; intros plus; [done|]. cbn [decoded]. destruct (isc _ c); [rewrite !Zlen_cons; specialize (IH1 (if ctl <? 0 then true else plus)); lia|].
  destruct (_ && _); [rewrite !Zlen_cons; specialize (IH1 plus); lia|]. specialize (IH1 plus). destruct (isc _ c); [|rewrite !Zlen_cons; lia].
  destruct s as [|a [|b s]]; [rewrite !Zlen_cons in *; lia..|]. destruct (_ && _); [|rewrite Zlen_cons; rewrite (Zlen_cons c); lia].
  specialize (IH2 a b s eq_refl plus). rewrite !Zlen_cons. lia.
Qed.

Lemma znth_here (pre : list byte) c s : znth (pre ++ c :: s) (Zlen pre) = Some c.
Proof. rewrite znth_app_r by lia. by rewrite Z.sub_diag. Qed.

Lemma decode_step fuel pre c s ctl plus out space : let i := Zlen pre in let text := pre ++ (c :: s) ++ [NUL] in
  i + Zlen (c :: s) < 2 ^ 31 - 1 → Zlen out < 2 ^ 31 - 1 → space ≠ [] →
  decode_loop (S fuel) text (i + Zlen (c :: s)) ctl plus i (Zlen out) (out ++ space) =
    let next n x plus := decode_loop fuel text (i + Zlen (c :: s)) ctl plus (i + n) (Zlen (out ++ [x])) ((out ++ [x]) ++ drop 1 space) in
    if isc "?"%byte c then next 1 c (if ctl <? 0 then true else plus)
    else if isc "+"%byte c && plus then next 1 (" "%byte) plus
    else if isc "%"%byte c then
      match s with
      | a :: b :: _ => if EVUTIL_ISXDIGIT a && EVUTIL_ISXDIGIT b then next 3 (strtol16 a b) plus else next 1 c plus
      | _ => next 1 c plus
      end
    else next 1 c plus.
Proof.
  intros i text Hlen Hout Hsp.
  set (next := λ (n : Z) x plus, decode_loop fuel text (i + Zlen (c :: s)) ctl plus (i + n) (Zlen (out ++ [x])) ((out ++ [x]) ++ drop 1 space)). cbv zeta. pose proof (Zlen_nonneg pre). pose proof (Zlen_nonneg s). pose proof (Zlen_nonneg out). assert (Zlen (c :: s) = 1 + Zlen s) as El by apply Zlen_cons.
  assert (∀ x (n : Z) p, 0 <= n <= 2 → (ret ← poke (out ++ space) (Zlen out) [x]; if Zlen out =? 2 ^ 31 - 1 then Undef Overflow else
      decode_loop fuel text (i + Zlen (c :: s)) ctl p (u32 (i + n + 1)) (Zlen out + 1) ret) = next (n + 1) x p) as Hnext.
  { intros x n p Hn. destruct space as [|y space]; [done|]. change (out ++ y :: space) with (out ++ [y] ++ space). rewrite (poke_app out [x] [y] space) by done. cbn [mbind outcome_bind]. destruct (Z.eqb_spec (Zlen out) (2 ^ 31 - 1)); [lia|].
    rewrite u32_small by lia. unfold next. rewrite Zlen_app. change (Zlen [x]) with 1. rewrite <- app_assoc. cbn [drop app]. rewrite drop_0. f_equal. lia. }
  cbn [decode_loop]. destruct (Z.ltb_spec i (i + Zlen (c :: s))); [|lia].
  assert (znth text i = Some c) as Ec by apply znth_here. rewrite Ec. cbn [or_undef mbind outcome_bind].
  assert (∀ x p, (ret ← poke (out ++ space) (Zlen out) [x]; if Zlen out =? 2 ^ 31 - 1 then Undef Overflow else
      decode_loop fuel text (i + Zlen (c :: s)) ctl p (u32 (i + 1)) (Zlen out + 1) ret) = next 1 x p) as Hone by (intros x p; pose proof (Hnext x 0 p ltac:(lia)) as E; by rewrite Z.add_0_r in E).
  destruct (isc "?"%byte c); [apply Hone|]. destruct (_ && plus); [apply Hone|]. destruct (isc "%"%byte c); [|apply Hone].
  rewrite (u32_small (i + 1)), (u32_small (i + 2)) by lia. assert (∀ k t, znth (pre ++ (c :: t) ++ [NUL]) (i + 1 + Z.of_nat k) = (t ++ [NUL]) !! k) as Hat.
  { intros k t. unfold i. rewrite znth_app_r by lia. unfold znth. destruct (Z.ltb_spec (Zlen pre + 1 + Z.of_nat k - Zlen pre) 0); [lia|].
    replace (Z.to_nat (Zlen pre + 1 + Z.of_nat k - Zlen pre)) with (S k) by lia. done. }
  pose proof (Hat 0%nat s) as Ha0. change (Z.of_nat 0) with 0 in Ha0. rewrite Z.add_0_r in Ha0. fold text in Ha0.
  rewrite Ha0.
  destruct s as [|a s]; [cbn; apply Hone|]. cbn [app lookup list_lookup or_undef mbind outcome_bind].
  pose proof (Hat 1%nat (a :: s)) as H1'. fold text in H1'. replace (i + 2) with (i + 1 + Z.of_nat 1) by lia. rewrite H1'.
  destruct s as [|b s]; [cbn; by destruct (EVUTIL_ISXDIGIT a); cbn; apply Hone|]. cbn [app lookup list_lookup or_undef mbind outcome_bind].
  destruct (EVUTIL_ISXDIGIT a); [|apply Hone]. cbn [mbind outcome_bind andb]. destruct (EVUTIL_ISXDIGIT b); [|apply Hone]. replace (i + 1 + Z.of_nat 1) with (i + 2) by lia.
  exact (Hnext (strtol16 a b) 2 plus ltac:(lia)).
Qed.

Lemma decode_loop_spec ctl fuel pre s plus out space : Zlen pre + Zlen s < 2 ^ 31 - 1 → Zlen out <= Zlen pre → Zlen s <= Zlen space → (length s <= fuel)%nat →
  let d := decoded ctl plus s in
  decode_loop fuel (pre ++ s ++ [NUL]) (Zlen pre + Zlen s) ctl plus (Zlen pre) (Zlen out) (out ++ space) = Val (Zlen (out ++ d), (out ++ d) ++ zdrop (Zlen d) space).
Proof.
  revert fuel pre plus out space. induction s as [|c s IH1 IH2] using escape_ind; intros fuel pre plus out space Hlen Hout Hsp Hf d.
  { unfold d. cbn [decoded]. rewrite app_nil_r, zdrop_0 by done. destruct fuel; cbn [decode_loop]; (destruct (Z.ltb_spec (Zlen pre) (Zlen pre + Zlen (@nil byte))) as [Hx|_]; [change (Zlen (@nil byte)) with 0 in Hx; lia|done]). }
  destruct fuel as [|fuel]; [cbn in Hf; lia|]. pose proof (Zlen_nonneg s). rewrite Zlen_cons in Hlen, Hsp. rewrite decode_step; [|rewrite Zlen_cons; lia|lia|intros ->; change (Zlen (@nil byte)) with 0 in Hsp; lia].
  assert (∀ x p, decode_loop fuel (pre ++ (c :: s) ++ [NUL]) (Zlen pre + Zlen (c :: s)) ctl p (Zlen pre + 1) (Zlen (out ++ [x])) ((out ++ [x]) ++ drop 1 space) =
      Val (Zlen (out ++ x :: decoded ctl p s), (out ++ x :: decoded ctl p s) ++ zdrop (Zlen (x :: decoded ctl p s)) space)) as Hone.
  { intros x p. specialize (IH1 fuel (pre ++ [c]) p (out ++ [x]) (drop 1 space)). cbv zeta in IH1. rewrite !Zlen_app in IH1. change (Zlen [c]) with 1 in IH1. change (Zlen [x]) with 1 in IH1.
    change (drop 1 space) with (zdrop 1 space) in *. rewrite Zlen_zdrop, <- !app_assoc, zdrop_zdrop in IH1 by (try lia; apply Zlen_nonneg). cbn [app] in *. rewrite !Zlen_app, !Zlen_cons.
    change (Zlen [x]) with 1. replace (Zlen pre + (1 + Zlen s)) with (Zlen pre + 1 + Zlen s) by lia. cbn in Hf. rewrite <- !app_assoc. cbn [app]. etrans; [apply IH1; lia|].
    rewrite (Z.add_comm (Zlen (decoded ctl p s)) 1). by rewrite Z.add_assoc. }
  cbv zeta. unfold d. cbn [decoded]. destruct (isc "?"%byte c); [apply Hone|]. destruct (_ && plus); [apply Hone|]. destruct (isc "%"%byte c); [|apply Hone].
  destruct s as [|a [|b s]]; [apply Hone|apply Hone|]. destruct (_ && _); [|apply Hone]. specialize (IH2 a b s eq_refl fuel (pre ++ [c; a; b]) plus (out ++ [strtol16 a b]) (drop 1 space)). cbv zeta in IH2.
  rewrite !Zlen_cons in *. rewrite !Zlen_app in IH2. change (Zlen [c; a; b]) with 3 in IH2. change (Zlen [strtol16 a b]) with 1 in IH2. pose proof (Zlen_nonneg s).
  change (drop 1 space) with (zdrop 1 space) in *. rewrite Zlen_zdrop, <- !app_assoc, zdrop_zdrop in IH2 by (try lia; apply Zlen_nonneg). cbn [app] in *. rewrite !Zlen_app.
  change (Zlen [strtol16 a b]) with 1. replace (Zlen pre + (1 + (1 + (1 + Zlen s)))) with (Zlen pre + 3 + Zlen s) by lia. cbn in Hf. rewrite <- !app_assoc. cbn [app]. etrans; [apply IH2; lia|].
  rewrite !Zlen_cons, (Z.add_comm (Zlen (decoded ctl plus s)) 1). by rewrite Z.add_assoc.
Qed.

Lemma decode_internal_spec uri ctl ret : Zlen uri < 2 ^ 31 - 1 → Zlen uri < Zlen ret →
  let d := decoded ctl (ctl =? 1) uri in evhttp_decode_uri_internal uri ctl ret = Val (Zlen d, (d ++ [NUL]) ++ zdrop (Zlen d + 1) ret).
Proof.
  intros Hu Hr d. pose proof (Zlen_nonneg uri). unfold evhttp_decode_uri_internal. pose proof (decoded_len ctl (ctl =? 1) uri) as Hd. pose proof (Zlen_nonneg d).
  pose proof (decode_loop_spec ctl (length uri) [] uri (ctl =? 1) [] ret ltac:(done) ltac:(done) ltac:(lia) ltac:(lia)) as E. cbn [app] in E. change (Zlen (@nil byte)) with 0 in E.
  rewrite Z.add_0_l in E. rewrite E. cbn [mbind outcome_bind]. fold d in Hd. fold d. rewrite (poke_space d [NUL]); [|rewrite Zlen_zdrop; change (Zlen [NUL]) with 1; lia].
  cbn [mbind outcome_bind]. rewrite zdrop_zdrop by (try done; lia). do 3 f_equal. change (Zlen [NUL]) with 1. f_equal. lia.
Qed.

(** The two digits of a character give the character. *)
Lemma percent_digits c : EVUTIL_ISXDIGIT (hex_digit (b2z c / 16)) = true ∧ EVUTIL_ISXDIGIT (hex_digit (b2z c mod 16)) = true ∧ strtol16 (hex_digit (b2z c / 16)) (hex_digit (b2z c mod 16)) = c.
Proof.
  pose proof (each_byte (λ c, EVUTIL_ISXDIGIT (hex_digit (b2z c / 16)) && EVUTIL_ISXDIGIT (hex_digit (b2z c mod 16)) && isc c (strtol16 (hex_digit (b2z c / 16)) (hex_digit (b2z c mod 16)))) eq_refl c) as Hc.
  cbn beta in Hc. apply andb_true_iff in Hc as [[Ha Hb]%andb_true_iff Hc%is_eq]. done.
Qed.

Lemma decoded_char ctl (plus plus' : bool) c r : (plus' = true → plus = true) → decoded ctl plus (encoded_char plus' c ++ r) = c :: decoded ctl plus r.
Proof.
  intros Hp. unfold encoded_char. destruct (CHAR_IS_UNRESERVED c) eqn:Eu.
  - assert (isc "?"%byte c = false ∧ isc "+"%byte c = false ∧ isc "%"%byte c = false) as (H1 & H2 & H3) by (repeat split; by apply (class_not CHAR_IS_UNRESERVED)).
    cbn [app decoded]. by rewrite H1, H2, H3.
  - destruct (isc " "%byte c && plus') eqn:Es; [apply andb_true_iff in Es as [Es%is_eq Ep]; subst c; cbn [app decoded]; by rewrite Hp|].
    destruct (percent_digits c) as (Ha & Hb & Hc). unfold percent. cbn [app decoded]. cbn [isc]. rewrite Ha, Hb, Hc. done.
Qed.

Lemma decoded_encoded ctl (plus plus' : bool) s r : (plus' = true → plus = true) → decoded ctl plus (encoded plus' s ++ r) = s ++ decoded ctl plus r.
Proof. intros Hp. induction s as [|c s IH]; [done|]. by rewrite encoded_cons, <- app_assoc, decoded_char, IH. Qed.

Section roundtrips.
Context `{EvbufferSpec B, !EvbufferText B, !EvbufferTextSpec B} `{Malloc} (Hrel : evb_reliable) (Hmem : reliable).

Lemma array_len n : 0 <= n → Zlen (array_of n) = n.
Proof. intros. unfold array_of. rewrite Zlen_replicate. lia. Qed.

(** Any bytes, NULs included, survive encoding for a URI and decoding: the decoder returns them with
    their number and writes only into the array it allocated; the encoded text consists of
    unreserved characters, percent signs and, for spaces if asked, plus signs. *)
Theorem uriencode_roundtrip data (plus : bool) : Zlen data < 2 ^ 28 →
  ∃ text ret, evhttp_uriencode (B := B) data (Zlen data) plus = Val (Some (text ++ [NUL])) ∧ all_in plain text = true ∧ (plus = false → all_in (λ c, negb (isc "+"%byte c)) text = true) ∧
    evhttp_uridecode text plus = Val (Some (ret, Zlen data)) ∧ ztake (Zlen data + 1) ret = data ++ [NUL].
Proof.
  intros Hlen. pose proof (Zlen_nonneg data). pose proof (encoded_len plus data) as He. exists (encoded plus data). pose proof (uriencode_spec Hrel Hmem data (Zlen data) plus ltac:(lia) ltac:(lia)) as Eu.
  destruct (Z.geb_spec (Zlen data) 0); [|lia]. rewrite ztake_all in Eu by lia. rewrite Eu. pose proof (Zlen_nonneg (encoded plus data)).
  set (d := decoded (if plus then 1 else 0) ((if plus then 1 else 0) =? 1) (encoded plus data)).
  assert (d = data) as Ed. { unfold d. rewrite <- (app_nil_r (encoded plus data)), decoded_encoded by (by intros ->). cbn [decoded]. apply app_nil_r. }
  eexists. split; [done|]. split; [apply encoded_plain|]. split.
  { intros ->. clear. induction data as [|c data IH]; [done|]. rewrite encoded_cons, all_in_app, IH, andb_true_r. revert c. by apply (each_byte (λ c, all_in (λ c, negb (isc "+"%byte c)) (encoded_char false c))). }
  unfold evhttp_uridecode. rewrite Hmem. cbn [negb]. rewrite decode_internal_spec; [|lia|rewrite array_len; lia]. fold d. rewrite Ed. cbn [mbind outcome_bind]. split; [done|].
  rewrite ztake_app_l by (rewrite Zlen_app; change (Zlen [NUL]) with 1; lia). apply ztake_all. rewrite Zlen_app. change (Zlen [NUL]) with 1. lia.
Qed.

(** ** Queries *)

(** Arguments with their values encoded, joined by ampersands. *)
Fixpoint query_text (args : list (list byte * list byte)) : list byte :=
  match args with
  | [] => []
  | (k, e) :: args => k ++ "="%byte :: e ++ match args with [] => [] | _ => "&"%byte :: query_text args end
  end.

Definition key_char (c : byte) : bool := negb (isc "&"%byte c || isc "="%byte c || isc NUL c).
(** A key is not empty and has no delimiter, and neither it nor the value has a NUL. *)
Definition arg_ok (a : evkeyval) : Prop := key a ≠ [] ∧ all_in key_char (key a) = true ∧ all_in (λ c, negb (isc NUL c)) (value a) = true ∧ Zlen (value a) < 2 ^ 28.

Lemma strsep_some s r del : all_in (λ c, negb (isc del c)) s = true → strsep (s ++ del :: r) del = (s, Some r).
Proof. intros Hs. unfold strsep. by rewrite (proj2 (strchr_some _ del s r)). Qed.
Lemma strsep_none s del : all_in (λ c, negb (isc del c)) s = true → strsep s del = (s, None).
Proof. intros Hs. unfold strsep. by rewrite (proj2 (strchr_none s del)). Qed.

Lemma c_str_at s r : all_in (λ c, negb (isc NUL c)) s = true → c_str ((s ++ [NUL]) ++ r) = s.
Proof. intros Hs. unfold c_str. rewrite <- app_assoc. by rewrite break_at. Qed.

Lemma query_value fuel k v p headers : all_in (λ c, negb (isc NUL c)) v = true → Zlen v < 2 ^ 28 → k ≠ [] → all_in key_char k = true →
  ∀ line, line ≠ [] → strsep line "&"%byte = (k ++ "="%byte :: encoded true v, p) →
  query_loop (S fuel) (Some line) headers = query_loop fuel p (headers ++ [{| key := k; value := v |}]).
Proof.
  intros Hv Hl Hk Hkc line Hne Es. cbn [query_loop]. destruct line as [|c line]; [done|]. rewrite Es, strsep_some; [|revert Hkc; apply all_in_sub; by apply class_sub].
  destruct k as [|x k]; [done|]. rewrite Hmem. cbn [negb]. pose proof (encoded_len true v). pose proof (Zlen_nonneg (encoded true v)).
  rewrite decode_internal_spec; [|lia|rewrite array_len; lia]. cbn [mbind outcome_bind]. assert (decoded 1 (1 =? 1) (encoded true v) = v) as ->.
  { rewrite <- (app_nil_r (encoded true v)), decoded_encoded by done. apply app_nil_r. }
  rewrite c_str_at by done. unfold evhttp_add_header_internal, mm_strdup. by rewrite !Hmem.
Qed.

Lemma query_loop_spec args fuel headers : Forall arg_ok args → (length args <= fuel)%nat →
  query_loop fuel (Some (query_text ((λ a, (key a, encoded true (value a))) <$> args))) headers = Val (Some (headers ++ args)).
Proof.
  revert fuel headers. induction args as [|[k v] args IH]; intros fuel headers Hok Hf; [by destruct fuel; rewrite app_nil_r|].
  apply Forall_cons in Hok as [(Hk & Hkc & Hv & Hl) Hok]. cbn in Hk, Hkc, Hv, Hl. destruct fuel as [|fuel]; [cbn in Hf; lia|].
  assert (all_in (λ c, negb (isc "&"%byte c)) (k ++ "="%byte :: encoded true v) = true) as Ha.
  { rewrite all_in_app, all_in_cons. rewrite (all_in_sub key_char _ k) by first [by apply class_sub | done]. rewrite (all_in_sub plain _ (encoded true v)) by first [by apply class_sub | by apply encoded_plain]. done. }
  cbn [fmap list_fmap query_text key value]. destruct args as [|a args].
  - rewrite (query_value fuel k v None headers Hv Hl Hk Hkc); [by destruct fuel|by destruct k|]. cbn [fmap list_fmap]. rewrite app_nil_r. by apply strsep_none.
  - set (rest := query_text _) in IH |- *. rewrite (query_value fuel k v (Some rest) headers Hv Hl Hk Hkc); [|by destruct k|].
    + cbn in Hf. rewrite IH by (done || (cbn; lia)). by rewrite <- app_assoc.
    + cbn [fmap list_fmap]. rewrite <- (strsep_some (k ++ "="%byte :: encoded true v) rest "&"%byte) by done. by rewrite <- app_assoc.
Qed.

Lemma query_text_len args : (length args <= length (query_text args))%nat.
Proof.
  induction args as [|[k e] args IH]; [done|]. cbn [query_text length]. rewrite length_app. cbn [length]. rewrite length_app. destruct args as [|a args]; [cbn; lia|]. cbn [length] in *. lia.
Qed.

Lemma uriencode_string v plus : all_in (λ c, negb (isc NUL c)) v = true → Zlen v < 2 ^ 28 → evhttp_uriencode (B := B) v (-1) plus = Val (Some (encoded plus v ++ [NUL])).
Proof.
  intros Hv Hl. pose proof (Zlen_nonneg v). rewrite uriencode_spec by (done || lia). cbn [Z.geb Z.compare]. do 3 f_equal. f_equal. unfold c_str. pose proof (break_at (isc NUL) v [] Hv I) as E. rewrite app_nil_r in E. by rewrite E.
Qed.

(** Arguments whose values are encoded with evhttp_uriencode and joined to a query are parsed to the
    same keys and values in the same order, from the query alone and from a URI that has it. *)
Theorem query_roundtrip inet_pton6 args : Forall arg_ok args →
  ∃ texts, Forall2 (λ a e, evhttp_uriencode (B := B) (value a) (-1) true = Val (Some (e ++ [NUL]))) args texts ∧
    evhttp_parse_query_str inet_pton6 (query_text (zip (key <$> args) texts)) = Val (0, args) ∧
    ∀ s u, evhttp_uri_parse inet_pton6 s = Val (Some u) → u_query u = Some (query_text (zip (key <$> args) texts)) → evhttp_parse_query inet_pton6 s = Val (0, args).
Proof.
  intros Hok. exists (encoded true ∘ value <$> args).
  assert (zip (key <$> args) (encoded true ∘ value <$> args) = (λ a, (key a, encoded true (value a))) <$> args) as -> by (clear; induction args as [|a args IH]; [done|]; cbn; by f_equal).
  set (text := query_text _). assert (parse_query_part (Some text) = Val (0, args)) as Hp.
  { unfold parse_query_part. destruct text as [|c text'] eqn:Et; [destruct args as [|[k v] args]; [done|]; unfold text in Et; by destruct k|]. rewrite Hmem. cbn [negb].
    rewrite <- Et. pose proof (query_loop_spec args (length text) [] Hok) as Hq. fold text in Hq. rewrite Hq; [done|]. pose proof (query_text_len ((λ a, (key a, encoded true (value a))) <$> args)) as Hl. by rewrite length_fmap in Hl. }
  split; [|split; [done|]].
  - apply Forall2_fmap_r, Forall_Forall2_diag. apply (Forall_impl arg_ok _ _ Hok). intros a (_ & _ & Hv & Hl). by apply uriencode_string.
  - intros s u Hs Hq. unfold evhttp_parse_query, evhttp_parse_query_impl. rewrite Hs. cbn [mbind outcome_bind]. by rewrite Hq.
Qed.
End roundtrips.

(** ** HTML *)

Definition entity (c : byte) : list byte := default [c] (html_replace c).2.
Definition html_escaped (s : list byte) : list byte := mjoin (entity <$> s).

Lemma html_escaped_cons c s : html_escaped (c :: s) = entity c ++ html_escaped s.
Proof. done. Qed.

Lemma entity_len c : (html_replace c).1 = Zlen (entity c) ∧ 1 <= Zlen (entity c) <= 6.
Proof.
  pose proof (each_byte (λ c, ((html_replace c).1 =? Zlen (entity c)) && (1 <=? Zlen (entity c)) && (Zlen (entity c) <=? 6)) eq_refl c) as Hc. cbn beta in Hc.
  apply andb_true_iff in Hc as [[H1%Z.eqb_eq H2%Z.leb_le]%andb_true_iff H3%Z.leb_le]. done.
Qed.

Lemma html_escaped_len s : 0 <= Zlen (html_escaped s) <= 6 * Zlen s.
Proof. induction s as [|c s IH]; [done|]. rewrite html_escaped_cons, Zlen_app, Zlen_cons. pose proof (entity_len c). lia. Qed.

Lemma html_size_spec s n : 0 <= n → n + 6 * Zlen s < 2 ^ 64 → html_size s n = Some (n + Zlen (html_escaped s)).
Proof.
  revert n. induction s as [|c s IH]; intros n Hn Hs; cbn [html_size]; [f_equal; change (Zlen (html_escaped [])) with 0; lia|]. rewrite Zlen_cons in Hs. pose proof (Zlen_nonneg s).
  destruct (entity_len c) as [-> He]. unfold EV_SIZE_MAX. destruct (Z.gtb_spec (Zlen (entity c)) (2 ^ 64 - 1 - n)); [lia|]. rewrite IH by lia. rewrite html_escaped_cons, Zlen_app. f_equal. lia.
Qed.

Lemma html_copy_spec s out space : Zlen (html_escaped s) <= Zlen space →
  html_copy s (Zlen out) (out ++ space) = Val (Zlen (out ++ html_escaped s), (out ++ html_escaped s) ++ zdrop (Zlen (html_escaped s)) space).
Proof.
  revert out space. induction s as [|c s IH]; intros out space Hs; cbn [html_copy]; [by rewrite app_nil_r, zdrop_0|]. rewrite html_escaped_cons, Zlen_app in *.
  destruct (entity_len c) as [Hl He]. pose proof (html_escaped_len s). pose proof (Zlen_nonneg s). unfold entity in *. destruct (html_replace c) as [len o]. cbn [fst snd] in *. subst len.
  assert (Zlen (default [c] o) <= Zlen (default (c :: s) o) ∧ ztake (Zlen (default [c] o)) (default (c :: s) o) = default [c] o) as [Hle Htk].
  { destruct o as [t|]; cbn [default]; [split; [lia|by apply ztake_all]|]. split; [rewrite !Zlen_cons; change (Zlen (@nil byte)) with 0; lia|done]. }
  destruct (Z.gtb_spec (Zlen (default [c] o)) (Zlen (default (c :: s) o))); [lia|]. rewrite Htk. rewrite (poke_space out) by lia. cbn [mbind outcome_bind]. rewrite <- Zlen_app.
  rewrite IH by (rewrite Zlen_zdrop; lia). rewrite zdrop_zdrop, <- !app_assoc by lia.
  rewrite !Zlen_app. by rewrite (Z.add_comm (Zlen (html_escaped s))), !Z.add_assoc.
Qed.

(** Reading HTML text back. *)
Fixpoint starts (t s : list byte) : bool := match t, s with [], _ => true | c :: t, d :: s => isc c d && starts t s | _ :: _, [] => false end.
Definition entities : list (list byte * byte) :=
  [(bytes_of "&lt;", "<"%byte); (bytes_of "&gt;", ">"%byte); (bytes_of "&quot;", "034"%byte); (bytes_of "&#039;", "'"%byte); (bytes_of "&amp;", "&"%byte)].
Fixpoint unescape (fuel : nat) (s : list byte) : list byte :=
  match fuel, s with
  | S fuel, c :: s' =>
      match List.find (λ e, starts e.1 s) entities with
      | Some (t, d) => d :: unescape fuel (drop (length t) s)
      | None => c :: unescape fuel s'
      end
  | _, _ => []
  end.

Lemma unescape_entity fuel c r : unescape (S fuel) (entity c ++ r) = c :: unescape fuel r.
Proof.
  assert (∀ t d, html_replace c = (Zlen t, Some t) → d = c → List.find (λ e, starts e.1 (t ++ r)) entities = Some (t, d) → unescape (S fuel) (entity c ++ r) = c :: unescape fuel r) as Hsp.
  { intros t d Ht -> Hf. unfold entity. rewrite Ht. cbn [snd default]. destruct (entity_len c) as [_ He]. unfold entity in He. rewrite Ht in He. cbn [snd default] in He. unfold id in *. destruct t as [|x t].
    { change (1 <= 0 <= 6) in He. lia. }
    cbn [unescape app] in *. rewrite Hf. do 2 f_equal. cbn [length drop]. apply drop_app_length. }
  unfold html_replace in Hsp. destruct (isc "<"%byte c) eqn:E1; [apply is_eq in E1 as ->; by apply (Hsp (bytes_of "&lt;") "<"%byte)|]. destruct (isc ">"%byte c) eqn:E2; [apply is_eq in E2 as ->; by apply (Hsp (bytes_of "&gt;") ">"%byte)|].
  destruct (isc "034"%byte c) eqn:E3; [apply is_eq in E3 as ->; by apply (Hsp (bytes_of "&quot;") "034"%byte)|]. destruct (isc "'"%byte c) eqn:E4; [apply is_eq in E4 as ->; by apply (Hsp (bytes_of "&#039;") "'"%byte)|].
  destruct (isc "&"%byte c) eqn:E5; [apply is_eq in E5 as ->; by apply (Hsp (bytes_of "&amp;") "&"%byte)|]. clear Hsp. unfold entity, html_replace. rewrite E1, E2, E3, E4, E5. cbn [snd default app unescape].
  assert (List.find (λ e, starts e.1 (c :: r)) entities = None) as ->; [|done]. cbn [entities List.find fst]. change (bytes_of "&lt;") with ["&"%byte; "l"; "t"; ";"]%byte.
  change (bytes_of "&gt;") with ["&"%byte; "g"; "t"; ";"]%byte. change (bytes_of "&quot;") with ["&"%byte; "q"; "u"; "o"; "t"; ";"]%byte. change (bytes_of "&#039;") with ["&"%byte; "#"; "0"; "3"; "9"; ";"]%byte.
  change (bytes_of "&amp;") with ["&"%byte; "a"; "m"; "p"; ";"]%byte. cbn [starts]. by rewrite E5.
Qed.

(** Escaping a text for HTML fills exactly the array it measured and allocated; the result has no angle
    bracket and no quote, and a browser that replaces the entities reads the text it was made from. *)
Theorem htmlescape_safe `{Malloc} (Hmem : reliable) html : Zlen html < 2 ^ 60 →
  ∃ text, evhttp_htmlescape html = Val (Some (text ++ [NUL])) ∧ all_in (λ c, negb (isc "<"%byte c || isc ">"%byte c || isc "034"%byte c || isc "'"%byte c)) text = true ∧
    unescape (length html) text = html.
Proof.
  intros Hl. pose proof (Zlen_nonneg html). pose proof (html_escaped_len html). exists (html_escaped html). unfold evhttp_htmlescape. rewrite html_size_spec, Z.add_0_l by lia.
  destruct (Z.eqb_spec (Zlen (html_escaped html)) EV_SIZE_MAX) as [E|_]; [unfold EV_SIZE_MAX in E; lia|]. rewrite Hmem. cbn [negb]. set (mem := array_of _). assert (Zlen mem = Zlen (html_escaped html) + 1) as Hm by (apply array_len; lia).
  pose proof (html_copy_spec html [] mem ltac:(lia)) as Ec. cbn [app] in Ec. change (Zlen (@nil byte)) with 0 in Ec. rewrite Ec. cbn [mbind outcome_bind]. split; [|split].
  - rewrite (poke_space (html_escaped html) [NUL]); [|rewrite Zlen_zdrop; change (Zlen [NUL]) with 1; lia]. cbn [mbind outcome_bind]. change (Zlen [NUL]) with 1. rewrite zdrop_zdrop, zdrop_all by lia. by rewrite app_nil_r.
  - clear. induction html as [|c s IH]; [done|]. rewrite html_escaped_cons, all_in_app, IH, andb_true_r. revert c. by apply (each_byte (λ c, all_in (λ c, negb (isc "<"%byte c || isc ">"%byte c || isc "034"%byte c || isc "'"%byte c)) (entity c))).
  - clear. induction html as [|c s IH]; [done|]. cbn [length]. by rewrite html_escaped_cons, unescape_entity, IH.
Qed.
