(* ===== verification/LineApi.v ===== *)
(** Reading lines from evbuffers, as an interface on top of EvbufferApi.v, and the chained buffers of
    buffer.c keeping it. *)

From S2P Require Import Prelude EvbufferApi BufChain BufOps BufRefine BufSearch BufLines Chars.

(** [evbuffer_readln] with EVBUFFER_EOL_CRLF: the line, if there is one. *)
Class EvbufferLines (B : Type) := { evbuffer_read_line : B → option (list byte) * B }.

(** A line ends with a line feed and a carriage return before it, if there is one. *)
Definition drop_cr (l : list byte) : list byte := match List.rev l with c :: r => if isc "013"%byte c then List.rev r else l | [] => l end.
Definition cut_line (s : list byte) : option (list byte * list byte) :=
  match strchr s "010"%byte with Some (l, r) => Some (drop_cr l, r) | None => None end.

Class EvbufferLinesSpec (B : Type) `{EvbufferSpec B, !EvbufferLines B} := {
  read_line_spec b : evb_ok b → Zlen (content b) <= evb_limit → evb_reliable →
    match cut_line (content b) with
    | Some (l, r) => ∃ b', evbuffer_read_line b = (Some l, b') ∧ evb_ok b' ∧ (evb_writable b → evb_writable b') ∧ content b' = r
    | None => evbuffer_read_line b = (None, b)
    end
}.

#[export] Instance list_lines : EvbufferLines (list byte) :=
  { evbuffer_read_line b := match cut_line b with Some (l, r) => (Some l, r) | None => (None, b) end }.

#[export] Instance list_lines_spec : EvbufferLinesSpec (list byte).
Proof. split. intros b _ _ _. cbn. destruct (cut_line b) as [[l r]|]; [|done]. by exists r. Qed.

(** ** Chained buffers *)

Lemma drop_cr_cons c l : drop_cr (c :: l) = match l with [] => if isc "013"%byte c then [] else [c] | _ => c :: drop_cr l end.
Proof.
  unfold drop_cr. destruct l as [|d l]; [done|]. change (List.rev (c :: d :: l)) with (List.rev (d :: l) ++ [c]). destruct (List.rev (d :: l)) as [|x r] eqn:E.
  { apply (f_equal (@length byte)) in E. rewrite length_rev in E. done. }
  cbn [app]. destruct (isc _ x); [|done]. by rewrite rev_app_distr.
Qed.

(** The end of line that the chains are searched for. *)
Lemma crlf_ref_line s : crlf_ref s = match cut_line s with Some (l, r) => Some (Zlen l, Zlen s - Zlen l - Zlen r) | None => None end.
Proof.
  induction s as [|c s IH]; [done|]. cbn [crlf_ref]. rewrite IH. unfold cut_line, strchr. cbn [break].
  assert (∀ x y, byte_eqb x y = isc x y) as Heq. { intros x y. apply eq_true_iff_eq. rewrite byte_eqb_eq, is_eq. naive_solver. }
  change LF with ("010"%byte : byte). change CR with ("013"%byte : byte). rewrite !Heq. destruct (isc "010"%byte c) eqn:E; [change (drop_cr []) with (@nil byte); change (Zlen (@nil byte)) with 0; rewrite Zlen_cons; f_equal; f_equal; lia|].
  destruct (break (isc "010"%byte) s) as [l r] eqn:Eb. pose proof (break_app (isc "010"%byte) s) as Ha. pose proof (break_rest (isc "010"%byte) s) as Hr. rewrite Eb in Ha, Hr. cbn in Ha, Hr.
  destruct s as [|d s]; [destruct l, r; try done; by rewrite andb_false_r|].
  rewrite Heq. destruct (isc "013"%byte c) eqn:Ec; cbn [andb].
  - destruct l as [|x l].
    + cbn in Ha. subst r. rewrite Hr. rewrite drop_cr_cons, Ec, !Zlen_cons. change (Zlen (@nil byte)) with 0. f_equal. f_equal; lia.
    + injection Ha as <- Ha. cbn [break] in Eb. destruct (isc "010"%byte x); [done|]. destruct r as [|y r]; [done|]. rewrite (drop_cr_cons c), !Zlen_cons. cbn [shift]. f_equal; f_equal; lia.
  - destruct r as [|y r]; [done|]. rewrite (drop_cr_cons c). destruct l as [|x l]; [rewrite Ec; change (drop_cr []) with (@nil byte); cbn [shift]; rewrite !Zlen_cons; change (Zlen (@nil byte)) with 0; f_equal; f_equal; lia|].
    rewrite !Zlen_cons. cbn [shift]. f_equal; f_equal; lia.
Qed.

Lemma drop_cr_prefix l : ∃ t, l = drop_cr l ++ t.
Proof.
  unfold drop_cr. destruct (List.rev l) as [|c r] eqn:E; [exists []; by rewrite app_nil_r|]. destruct (isc _ c); [|exists []; by rewrite app_nil_r].
  exists [c]. rewrite <- (rev_involutive l), E. done.
Qed.

Section chained.
Context `{Malloc}.

#[export] Instance evb_lines : EvbufferLines Evb := { evbuffer_read_line b := defined (None, b) (evbuffer_readln b EVBUFFER_EOL_CRLF) }.

#[export] Instance evb_lines_spec : EvbufferLinesSpec Evb.
Proof.
  split. intros b Hb Hlim Hr. change (evb_inv b) in Hb. change (content b) with (bytes b) in *. change evb_limit with (2 ^ 61) in Hlim. cbn [evbuffer_read_line evb_lines].
  unfold evbuffer_readln. rewrite (proj1 (wf_thawed _ Hb)). pose proof (search_eol_spec b EVBUFFER_EOL_CRLF Hb ltac:(lia)) as P. cbn [ref_eol] in P. pose proof (crlf_end (bytes b)) as Hend. rewrite crlf_ref_line in P, Hend.
  destruct (cut_line (bytes b)) as [[l r]|] eqn:Ec; [|by rewrite P].
  specialize (Hend _ _ eq_refl). destruct (Z.ltb_spec (Zlen (bytes b) - Zlen l - Zlen r) (2 ^ 31)); [|lia]. destruct P as (q & -> & Hq & Hn & Hd). cbn [mbind outcome_bind]. rewrite (Hr _).
  destruct (evbuffer_remove_spec (p_pos q) b Hb ltac:(lia)) as (b1 & -> & Hb1 & Hw1 & Hbs1). cbn [mbind outcome_bind].
  destruct (evbuffer_drain_spec (Zlen (bytes b) - Zlen l - Zlen r) b1 Hb1 Hd) as (b2 & -> & Hb2 & Hw2 & Hbs2). cbn [mbind outcome_bind defined].
  unfold cut_line in Ec. destruct (strchr (bytes b) "010"%byte) as [[l' r']|] eqn:Es; [|done]. injection Ec as <- <-. apply strchr_some in Es as [Es _]. destruct (drop_cr_prefix l') as [t Ht].
  exists b2. split.
  - do 2 f_equal. rewrite Hq, Es. clear Es. revert Ht. generalize (drop_cr l'). intros d ->. rewrite <- app_assoc. apply ztake_app_exact.
  - split; [done|]. split; [intros Hw; apply Hw2, Hw1, Hw|]. change (bytes b2 = r'). rewrite Hbs2, Hbs1, zdrop_zdrop by lia. rewrite Hq, Es, !Zlen_app, Zlen_cons.
    replace (Zlen l' + (1 + Zlen r') - Zlen (drop_cr l') - Zlen r' + Zlen (drop_cr l')) with (Zlen (l' ++ [("010"%byte : byte)])) by (rewrite Zlen_app; change (Zlen [("010"%byte : byte)]) with 1; lia).
    change (l' ++ "010"%byte :: r') with (l' ++ [("010"%byte : byte)] ++ r'). rewrite app_assoc. apply zdrop_app_exact.
Qed.
End chained.
