(* ===== verification/HttpVhost.v ===== *)
(** Which server object, callback and phrase belong to a request: virtual hosts, the dispatch on paths
    and the phrases of status codes, from http.c of libevent 2.0.21. *)

From S2P Require Import Prelude BufChain BufRefine Chars PrintApi Uri HttpText HttpProps.

(** ** Server objects *)

(** struct evhttp; a callback is the number the user knows it by. *)
Inductive evhttp := Evhttp (vhost_pattern : list byte) (aliases : list (list byte)) (virtualhosts : list evhttp)
  (callbacks : list (list byte * Z)) (allowed_methods : Z) (gencb : option Z).
Definition vhost_pattern '(Evhttp p _ _ _ _ _) : list byte := p.
Definition aliases '(Evhttp _ a _ _ _ _) : list (list byte) := a.
Definition virtualhosts '(Evhttp _ _ v _ _ _) : list evhttp := v.
Definition callbacks '(Evhttp _ _ _ c _ _) : list (list byte * Z) := c.
Definition allowed_methods '(Evhttp _ _ _ _ m _) : Z := m.
Definition gencb '(Evhttp _ _ _ _ _ g) : option Z := g.

Fixpoint prefix_suffix_match (pattern name : list byte) (ignorecase : bool) {struct pattern} : bool :=
  match pattern with
  | [] => match name with [] => true | _ => false end
  | c :: pattern =>
      if isc "*"%byte c then
        (fix star name := match name with [] => false | _ :: name' => prefix_suffix_match pattern name ignorecase || star name' end) name
      else if isc c (head0 name) || (ignorecase && isc (EVUTIL_TOLOWER c) (EVUTIL_TOLOWER (head0 name))) then
        prefix_suffix_match pattern (drop 1 name) ignorecase
      else false
  end.

(** The first server object with the alias, before the objects below it. *)
Fixpoint evhttp_find_alias (http : evhttp) (hostname : list byte) {struct http} : option evhttp :=
  if existsb (λ a, evutil_ascii_strcasecmp a hostname =? 0) (aliases http) then Some http
  else
    let '(Evhttp _ _ vhosts _ _ _) := http in
    (fix go vs := match vs with [] => None | v :: vs => match evhttp_find_alias v hostname with Some h => Some h | None => go vs end end) vhosts.

(** The [do] loop: down to the first virtual host whose pattern matches, as long as there is one. *)
Fixpoint vhost_loop (http : evhttp) (hostname : list byte) {struct http} : bool * evhttp :=
  let '(Evhttp _ _ vhosts _ _ _) := http in
  (fix go vs :=
     match vs with
     | [] => (false, http)
     | v :: vs => if prefix_suffix_match (vhost_pattern v) hostname true then (true, (vhost_loop v hostname).2) else go vs
     end) vhosts.

Definition evhttp_find_vhost (http : evhttp) (hostname : list byte) : bool * evhttp :=
  match evhttp_find_alias http hostname with Some h => (true, h) | None => vhost_loop http hostname end.

Section dispatch.
Context `{Malloc}.

(** [None] for the null pointer. *)
Definition evhttp_dispatch_callback (callbacks : list (list byte * Z)) (path : list byte) : outcome (option Z) :=
  if negb (malloc_ok (Zlen path + 1)) then Val None
  else
    '(_, translated) ← evhttp_decode_uri_internal path 0 (array_of (Zlen path + 1));
    Val (snd <$> List.find (λ cb, bool_decide (cb.1 = c_str translated)) callbacks).

(** The host of the URI, or that of the header without its port. *)
Definition evhttp_request_get_host (uri_elems : option evhttp_uri) (input_headers : list evkeyval) : option (list byte) :=
  match uri_elems ≫= u_host with
  | Some host => Some host
  | None =>
      match evhttp_find_header input_headers (bytes_of "Host") with
      | None => None
      | Some host =>
          let '(digits, rest) := break (λ c, negb (EVUTIL_ISDIGIT c)) (rev host) in
          match rest with
          | c :: (_ :: _ as name) => if isc ":"%byte c then if malloc_ok (Zlen name + 1) then Some (rev name) else None else Some host
          | _ => Some host
          end
      end
  end.
End dispatch.

(** ** Phrases *)

Definition informational_phrases : list string := ["Continue"; "Switching Protocols"].
Definition success_phrases : list string :=
  ["OK"; "Created"; "Accepted"; "Non-Authoritative Information"; "No Content"; "Reset Content"; "Partial Content"].
Definition redirection_phrases : list string :=
  ["Multiple Choices"; "Moved Permanently"; "Found"; "See Other"; "Not Modified"; "Use Proxy"; "Temporary Redirect"].
Definition client_error_phrases : list string :=
  ["Bad Request"; "Unauthorized"; "Payment Required"; "Forbidden"; "Not Found"; "Method Not Allowed"; "Not Acceptable";
   "Proxy Authentication Required"; "Request Time-out"; "Conflict"; "Gone"; "Length Required"; "Precondition Failed";
   "Request Entity Too Large"; "Request-URI Too Large"; "Unsupported Media Type"; "Requested range not satisfiable"; "Expectation Failed"].
Definition server_error_phrases : list string :=
  ["Internal Server Error"; "Not Implemented"; "Bad Gateway"; "Service Unavailable"; "Gateway Time-out"; "HTTP Version not supported"].
Definition response_classes : list (string * list string) :=
  [("Informational", informational_phrases); ("Success", success_phrases); ("Redirection", redirection_phrases);
   ("Client Error", client_error_phrases); ("Server Error", server_error_phrases)].

Definition evhttp_response_phrase_internal (code : Z) : list byte :=
  let klass := Z.quot code 100 - 1 in
  let subcode := Z.rem code 100 in
  if klass <? 0 then bytes_of "Unknown Status Class"
  else
    match response_classes !! Z.to_nat klass with
    | None => bytes_of "Unknown Status Class"
    | Some (name, responses) =>
        match responses !! Z.to_nat subcode with None => bytes_of name | Some phrase => bytes_of phrase end
    end.

(** ** What is selected *)

(** Names are compared without case. *)
Definition same_name (a b : list byte) : Prop := EVUTIL_TOLOWER <$> a = EVUTIL_TOLOWER <$> b.
Definition c_string (s : list byte) : bool := all_in (λ c, negb (isc NUL c)) s.

(** Shell matching without case, of patterns of stars, each of which stands for any characters, and characters that stand for themselves. *)
Inductive glob : list byte → list byte → Prop :=
  | glob_nil : glob [] []
  | glob_star p skipped n : glob p n → glob ("*"%byte :: p) (skipped ++ n)
  | glob_char c d p n : c ≠ "*"%byte → EVUTIL_TOLOWER c = EVUTIL_TOLOWER d → glob p n → glob (c :: p) (d :: n).

(** The patterns of this kind that do not end with a star; a shell takes [?], [[] and [\] for something else than themselves. *)
Definition shell_literal (c : byte) : bool := negb (isc "?"%byte c || isc "["%byte c || isc "\"%byte c || isc NUL c).
Definition plain_pattern (p : list byte) : bool := all_in shell_literal p && negb (isc "*"%byte (List.last p NUL)).

Lemma plain_tail c p : plain_pattern (c :: p) = true → shell_literal c = true ∧ plain_pattern p = true ∧ (c = "*"%byte → p ≠ []).
Proof.
  unfold plain_pattern. rewrite all_in_cons, !andb_true_iff. intros [[Hc Hp] Hl]. split; [done|]. split; [split; [done|]; by destruct p|]. by intros -> ->.
Qed.

Lemma plain_nonempty p n : glob p n → plain_pattern p = true → p ≠ [] → n ≠ [].
Proof.
  induction 1 as [|p skipped n Hg IH|c d p n Hc Hl Hg IH]; [done| |done]. intros (_ & Hp & Hne)%plain_tail _ [_ ->]%app_eq_nil. by apply IH; [|apply Hne|].
Qed.

Lemma lower_NUL c : EVUTIL_TOLOWER c = NUL → c = NUL.
Proof.
  intros E. pose proof (each_byte (λ c, negb (isc NUL (EVUTIL_TOLOWER c)) || isc NUL c) eq_refl c) as Hc. cbn beta in Hc. rewrite E, is_same in Hc. by apply is_eq in Hc.
Qed.

Lemma char_val_inj c d : char_val c = char_val d → c = d.
Proof. unfold char_val. pose proof (b2z_range c). pose proof (b2z_range d). intros Hv. rewrite <- (z2b_b2z c), <- (z2b_b2z d). f_equal. destruct (Z.ltb_spec (b2z c) 128), (Z.ltb_spec (b2z d) 128); lia. Qed.

Lemma strcasecmp_same s t : c_string s = true → c_string t = true → evutil_ascii_strcasecmp s t = 0 ↔ same_name s t.
Proof.
  unfold same_name. revert t. induction s as [|c s IH]; intros t Hs Ht; cbn [evutil_ascii_strcasecmp].
  - destruct t as [|d t]; [done|]. cbn [head0]. apply andb_true_iff in Ht as [Hd _]. apply negb_true_iff in Hd. change (char_val (EVUTIL_TOLOWER NUL)) with 0.
    split; [|done]. destruct (Z.ltb_spec 0 (char_val (EVUTIL_TOLOWER d))); [done|]. destruct (Z.gtb_spec 0 (char_val (EVUTIL_TOLOWER d))) as [|Hz]; [done|].
    assert (d = NUL) as ->; [|done]. apply lower_NUL, char_val_inj. change (char_val NUL) with 0. lia.
  - apply andb_true_iff in Hs as [Hc Hs]. apply negb_true_iff in Hc. cbn [head0]. destruct (Z.ltb_spec (char_val (EVUTIL_TOLOWER c)) (char_val (EVUTIL_TOLOWER (head0 t)))) as [|Hle].
    { split; [done|]. intros E. destruct t as [|d t]; [done|]. injection E as E _. cbn [head0] in *. rewrite E in *. lia. }
    destruct (Z.gtb_spec (char_val (EVUTIL_TOLOWER c)) (char_val (EVUTIL_TOLOWER (head0 t)))) as [|Hge].
    { split; [done|]. intros E. destruct t as [|d t]; [done|]. injection E as E _. cbn [head0] in *. rewrite E in *. lia. }
    assert (EVUTIL_TOLOWER c = EVUTIL_TOLOWER (head0 t)) as E by (apply char_val_inj; lia).
    destruct (Z.eqb_spec (char_val (EVUTIL_TOLOWER c)) 0) as [Hz|_].
    { assert (c = NUL) as ->; [|done]. apply lower_NUL, char_val_inj. done. }
    destruct t as [|d t]; [assert (c = NUL) as -> by (by apply lower_NUL); done|]. apply andb_true_iff in Ht as [_ Ht]. rewrite IH by done. cbn. rewrite E. cbn [head0]. split; [by intros ->|by intros [= ->]].
Qed.

Lemma glob_star_inv p n : glob ("*"%byte :: p) n → ∃ s m, n = s ++ m ∧ glob p m.
Proof. inversion 1; subst; [eauto|done]. Qed.

(** The loop wants something behind a star, which such a pattern has. *)
Lemma match_glob p n : plain_pattern p = true → c_string n = true → prefix_suffix_match p n true = true ↔ glob p n.
Proof.
  revert n. induction p as [|c p IH]; intros n Hp Hn; cbn [prefix_suffix_match].
  - destruct n; split; try done; [constructor|by inversion 1].
  - apply plain_tail in Hp as (Hc & Hp & Hne). destruct (isc "*"%byte c) eqn:Es.
    + apply is_eq in Es as ->. specialize (Hne eq_refl). induction n as [|d n IHn].
      { split; [done|]. intros (s & m & Heq & Hm)%glob_star_inv. apply plain_nonempty in Hm; [|done|done]. by destruct s, m. }
      pose proof Hn as Hn'. apply andb_true_iff in Hn' as [_ Hn']. rewrite orb_true_iff, IH, IHn by done. split.
      * intros [Hg|Hg]; [by apply (glob_star _ [])|]. apply glob_star_inv in Hg as (s & m & -> & Hm). by apply (glob_star _ (d :: s)).
      * intros (s & m & Heq & Hm)%glob_star_inv. destruct s as [|x s]; cbn in Heq; [left; by subst|]. injection Heq as -> ->. right. by constructor.
    + assert (c ≠ "*"%byte) as Hst by (intros ->; done). assert (∀ x, isc c x || (true && isc (EVUTIL_TOLOWER c) (EVUTIL_TOLOWER x)) = true ↔ EVUTIL_TOLOWER c = EVUTIL_TOLOWER x) as Hm.
      { intros x. cbn [andb]. rewrite orb_true_iff, !is_eq. split; [by intros [-> | ->]|]. intros E. right. by symmetry. }
      destruct n as [|d n].
      * cbn [head0]. destruct (_ || _) eqn:E; [|split; [done|by inversion 1]]. apply Hm in E. change (EVUTIL_TOLOWER NUL) with NUL in E. apply lower_NUL in E as ->. done.
      * cbn [head0 drop]. apply andb_true_iff in Hn as [_ Hn]. destruct (_ || _) eqn:E.
        -- apply Hm in E. rewrite drop_0, IH by done. split; [by constructor|]. inversion 1; subst; done.
        -- split; [done|]. inversion 1; subst; [done|]. exfalso. apply not_true_iff_false in E. apply E. by apply Hm.
Qed.

(** [h] is the object itself or a virtual host of it, at any depth. *)
Inductive below : evhttp → evhttp → Prop :=
  | below_refl h : below h h
  | below_vhost h v h' : v ∈ virtualhosts h → below v h' → below h h'.

Definition named (hostname : list byte) (h : evhttp) : Prop := Exists (same_name hostname) (aliases h).

(** Down to the first virtual host that matches, as long as there is one. *)
Inductive descends (hostname : list byte) : evhttp → evhttp → Prop :=
  | desc_stop h : Forall (λ v, ¬ glob (vhost_pattern v) hostname) (virtualhosts h) → descends hostname h h
  | desc_step h before v after h' : virtualhosts h = before ++ v :: after → Forall (λ v, ¬ glob (vhost_pattern v) hostname) before →
      glob (vhost_pattern v) hostname → descends hostname v h' → descends hostname h h'.

Section evhttp_induction.
Context (P : evhttp → Prop) (Hstep : ∀ p a vs cs m g, Forall P vs → P (Evhttp p a vs cs m g)).

Fixpoint evhttp_tree_ind (h : evhttp) : P h :=
  match h with
  | Evhttp p a vs cs m g =>
      Hstep p a vs cs m g ((fix go vs : Forall P vs := match vs with [] => Forall_nil_2 P | v :: vs => Forall_cons_2 P v vs (evhttp_tree_ind v) (go vs) end) vs)
  end.
End evhttp_induction.

(** The strings of a server object and its virtual hosts. *)
Definition names_ok (http : evhttp) : Prop := ∀ h, below http h → plain_pattern (vhost_pattern h) = true ∧ Forall (λ a, c_string a = true) (aliases h).

Lemma names_below http v : names_ok http → v ∈ virtualhosts http → names_ok v.
Proof. intros Hn Hv h Hh. apply Hn. by eapply below_vhost. Qed.

Lemma find_alias_spec http hostname : names_ok http → c_string hostname = true →
  match evhttp_find_alias http hostname with
  | Some h => below http h ∧ named hostname h
  | None => ∀ h, below http h → ¬ named hostname h
  end.
Proof.
  intros Hok Hs. induction http as [p a vs cs m g IH] using evhttp_tree_ind. cbn [evhttp_find_alias aliases].
  assert (existsb (λ a, evutil_ascii_strcasecmp a hostname =? 0) a = true ↔ named hostname (Evhttp p a vs cs m g)) as Ha.
  { destruct (Hok _ (below_refl _)) as [_ Hal]. unfold named. cbn [aliases] in *. rewrite List.existsb_exists, Exists_exists. setoid_rewrite Z.eqb_eq. rewrite Forall_forall in Hal.
    split; intros (x & Hx & Hm).
    - exists x. apply list_elem_of_In in Hx. split; [done|]. apply strcasecmp_same in Hm; [|by apply Hal|done]. unfold same_name in *. by symmetry.
    - exists x. split; [by apply list_elem_of_In|]. apply strcasecmp_same; [by apply Hal|done|]. unfold same_name in *. by symmetry. }
  destruct (existsb _ a); [split; [constructor|by apply Ha]|]. assert (¬ named hostname (Evhttp p a vs cs m g)) as Hna by (rewrite <- Ha; done). clear Ha.
  assert (∀ vs', (∀ v, v ∈ vs' → v ∈ vs) → Forall (λ v, names_ok v → match evhttp_find_alias v hostname with Some h => below v h ∧ named hostname h | None => ∀ h, below v h → ¬ named hostname h end) vs' →
    match (fix go vs := match vs with [] => None | v :: vs => match evhttp_find_alias v hostname with Some h => Some h | None => go vs end end) vs' with
    | Some h => below (Evhttp p a vs cs m g) h ∧ named hostname h
    | None => Forall (λ v, ∀ h, below v h → ¬ named hostname h) vs' end) as Hgo.
  { induction vs' as [|v vs' IHv]; intros Hin Hf; [constructor|]. apply Forall_cons in Hf as [Hv Hf]. specialize (Hv (names_below _ v Hok (Hin v ltac:(left)))).
    destruct (evhttp_find_alias v hostname) as [h|]; [destruct Hv; split; [|done]; by eapply below_vhost; [apply Hin; left|]|].
    specialize (IHv ltac:(intros; apply Hin; by right) Hf). destruct (_ vs') as [h|]; [done|]. by constructor. }
  specialize (Hgo vs ltac:(done) IH). destruct (_ vs) as [h|]; [done|]. intros h Hb. inversion Hb as [|? v ? Hv Hbv]; subst; [done|]. cbn in Hv. rewrite Forall_forall in Hgo. by eapply Hgo.
Qed.

Lemma vhost_loop_spec http hostname : names_ok http → c_string hostname = true →
  descends hostname http (vhost_loop http hostname).2 ∧ below http (vhost_loop http hostname).2 ∧
  ((vhost_loop http hostname).1 = false → (vhost_loop http hostname).2 = http) ∧
  ((vhost_loop http hostname).1 = true ↔ Exists (λ v, glob (vhost_pattern v) hostname) (virtualhosts http)).
Proof.
  intros Hok Hs. induction http as [p a vs cs m g IH] using evhttp_tree_ind. cbn [vhost_loop virtualhosts]. set (http := Evhttp p a vs cs m g) in *.
  assert (∀ before vs', vs = before ++ vs' → Forall (λ v, ¬ glob (vhost_pattern v) hostname) before →
    let r := (fix go vs := match vs with [] => (false, http) | v :: vs => if prefix_suffix_match (vhost_pattern v) hostname true then (true, (vhost_loop v hostname).2) else go vs end) vs' in
    descends hostname http r.2 ∧ below http r.2 ∧ (r.1 = false → r.2 = http) ∧ (r.1 = true ↔ Exists (λ v, glob (vhost_pattern v) hostname) vs')) as Hgo.
  { intros before vs'. revert before. induction vs' as [|v vs' IHv]; intros before Hvs Hb; cbn zeta.
    - rewrite app_nil_r in Hvs. split; [apply desc_stop; unfold http; cbn; by subst before|]. split; [constructor|]. split; [done|]. cbn. rewrite Exists_nil. done.
    - assert (v ∈ vs) as Hv by (rewrite Hvs, elem_of_app; right; left). destruct (prefix_suffix_match (vhost_pattern v) hostname true) eqn:Em.
      + assert (glob (vhost_pattern v) hostname) as Hg. { apply match_glob; [|done|done]. apply (proj1 (names_below http v Hok Hv v (below_refl v))). }
        rewrite Forall_forall in IH. destruct (IH v Hv (names_below http v Hok Hv)) as (H1 & H2 & _). cbn. split; [by eapply desc_step|]. split; [by eapply below_vhost|]. split; [done|]. split; [|done]. intros _. by left.
      + assert (¬ glob (vhost_pattern v) hostname) as Hg. { rewrite <- match_glob; [by rewrite Em| |done]. apply (proj1 (names_below http v Hok Hv v (below_refl v))). }
        destruct (IHv (before ++ [v])) as (H1 & H2 & H3 & H4); [by rewrite <- app_assoc|by apply Forall_app_2; [|by apply Forall_singleton]|]. split; [done|]. split; [done|]. split; [done|].
        rewrite H4. rewrite Exists_cons. naive_solver. }
  by apply (Hgo [] vs).
Qed.

(** C35.  A request goes to the server object that has its host name as an alias, if one of the tree does; else
    down the tree to the first virtual host at each level whose pattern matches the name, as a shell matches but without case; else it stays with the root and 0 is
    returned.  The patterns are those of stars and literal characters that do not end with a star: a
    pattern that does matches no name at all, and [?], [[] and [\] stand for themselves, where http.h promises shell matching. *)
Theorem vhost_selected http hostname : names_ok http → c_string hostname = true →
  let '(found, h) := evhttp_find_vhost http hostname in
  below http h ∧ (found = false → h = http) ∧
  ((∃ h', below http h' ∧ named hostname h') → found = true ∧ named hostname h) ∧
  (¬ (∃ h', below http h' ∧ named hostname h') →
    descends hostname http h ∧ (found = true ↔ Exists (λ v, glob (vhost_pattern v) hostname) (virtualhosts http))).
Proof.
  intros Hok Hs. unfold evhttp_find_vhost. pose proof (find_alias_spec http hostname Hok Hs) as Ha. destruct (evhttp_find_alias http hostname) as [h|].
  - destruct Ha as [Hb Hn]. split; [done|]. split; [done|]. split; [done|]. intros Hno. exfalso. apply Hno. eauto.
  - destruct (vhost_loop_spec http hostname Hok Hs) as (H1 & H2 & H3 & H4). destruct (vhost_loop http hostname) as [found h]. split; [done|]. split; [done|]. split; [|done].
    intros (h' & Hb & Hn). exfalso. by eapply Ha.
Qed.
