(* ===== verification/HttpMsg.v ===== *)
(** HTTP messages: making, parsing and reading requests and responses, from http.c of libevent 2.0.21.

    A connection is modelled as far as its reading and writing of messages goes: the input and output
    of its bufferevent, its state, its limits, whether reading is enabled, and the request it
    works on, which is the first of its queue.  What reading ends in (evhttp_connection_done,
    evhttp_connection_fail, evhttp_send_error, the user's callbacks) is an action of the result.
    Strings are as in Chars.v, buffers as in EvbufferApi.v, and memory is as in BufChain.v. *)

From S2P Require Import Prelude EvFlags EvbufferApi BufChain Chars PrintApi LineApi Uri HttpText HttpVhost.

(** ** Numbers in texts *)

Definition skip_space (s : list byte) : list byte := (break (λ c, negb (EVUTIL_ISSPACE c)) s).2.

Definition scan_sign (s : list byte) : Z * list byte :=
  match s with c :: r => if isc "-"%byte c then (-1, r) else if isc "+"%byte c then (1, r) else (1, s) | [] => (1, s) end.

Definition base_digit (base : Z) (c : byte) : bool := (0 <=? evutil_hex_char_to_int c) && (evutil_hex_char_to_int c <? base).
Definition digits_value (base : Z) (ds : list byte) : Z := foldl (λ n c, n * base + evutil_hex_char_to_int c) 0 ds.

(** In base 16 the digits may follow 0x. *)
Definition skip_0x (base : Z) (s : list byte) : list byte :=
  match s with
  | z :: x :: d :: r => if (base =? 16) && isc "0"%byte z && (isc "x"%byte x || isc "X"%byte x) && base_digit 16 d then d :: r else s
  | _ => s
  end.

(** The number at the beginning of a text and the rest, as [strtol] and [sscanf] find it. *)
Definition scan_number (base : Z) (s : list byte) : option (Z * list byte) :=
  let '(sign, s) := scan_sign (skip_space s) in
  let '(ds, rest) := break (λ c, negb (base_digit base c)) (skip_0x base s) in
  match ds with [] => None | _ => Some (sign * digits_value base ds, rest) end.

(** The number is limited to 64 bits; without one it is 0 and [endptr] is the beginning. *)
Definition evutil_strtoll (s : list byte) (base : Z) : Z * list byte :=
  match scan_number base s with Some (n, rest) => (Z.max (- 2 ^ 63) (Z.min (2 ^ 63 - 1) n), rest) | None => (0, s) end.

Definition fits_int (n : Z) : bool := (- 2 ^ 31 <=? n) && (n <? 2 ^ 31).
Definition atoi (s : list byte) : outcome Z :=
  match scan_number 10 s with Some (n, _) => if fits_int n then Val n else Undef Overflow | None => Val 0 end.

(** An int stored in a [char]. *)
Definition i8 (z : Z) : Z := (z + 2 ^ 7) mod 2 ^ 8 - 2 ^ 7.

(** [%d] and the format of a size_t. *)
Definition print_int (n : Z) : list byte := if n <? 0 then "-"%byte :: decimal (- n) else decimal n.
Definition print_size (n : Z) : list byte := decimal_loop 20 n [].

Fixpoint hex_loop (fuel : nat) (n : Z) (acc : list byte) : list byte :=
  let acc := z2b (if n mod 16 <? 10 then 48 + n mod 16 else 87 + n mod 16) :: acc in
  match fuel with
  | S fuel => if n <? 16 then acc else hex_loop fuel (n / 16) acc
  | O => acc
  end.
(** [%x] of an unsigned. *)
Definition print_hex (n : Z) : list byte := hex_loop 8 n [].

(** ** Requests *)

Inductive evhttp_cmd_type :=
  | EVHTTP_REQ_GET | EVHTTP_REQ_POST | EVHTTP_REQ_HEAD | EVHTTP_REQ_PUT | EVHTTP_REQ_DELETE | EVHTTP_REQ_OPTIONS
  | EVHTTP_REQ_TRACE | EVHTTP_REQ_CONNECT | EVHTTP_REQ_PATCH | EVHTTP_REQ_UNKNOWN.
#[export] Instance evhttp_cmd_type_eq : EqDecision evhttp_cmd_type.
Proof. solve_decision. Defined.

Inductive evhttp_request_kind := EVHTTP_REQUEST | EVHTTP_RESPONSE.
#[export] Instance evhttp_request_kind_eq : EqDecision evhttp_request_kind.
Proof. solve_decision. Defined.

Definition EVHTTP_PROXY_REQUEST : Z := 0x0002.

(** struct evhttp_request.  [r_chunk_cb] is the user's callback for chunks: given the bytes it finds, it
    says whether it cancels the request. *)
Record evhttp_request {B : Type} := {
  r_kind : evhttp_request_kind; r_type : evhttp_cmd_type; r_flags : Z;
  r_input_headers : list evkeyval; r_output_headers : list evkeyval;
  r_headers_size : Z; r_body_size : Z;
  r_uri : option (list byte); r_uri_elems : option evhttp_uri; r_major : Z; r_minor : Z;
  r_response_code : Z; r_response_code_line : option (list byte);
  r_input_buffer : B; r_ntoread : Z; r_chunked : bool; r_output_buffer : B;
  r_chunk_cb : option (list byte → bool) }.
Arguments evhttp_request B : clear implicits.

(** What the first line of a message sets. *)
Definition set_version {B} (major minor : Z) (r : evhttp_request B) : evhttp_request B :=
  {| r_kind := r_kind r; r_type := r_type r; r_flags := r_flags r; r_input_headers := r_input_headers r; r_output_headers := r_output_headers r;
     r_headers_size := r_headers_size r; r_body_size := r_body_size r; r_uri := r_uri r; r_uri_elems := r_uri_elems r; r_major := major; r_minor := minor;
     r_response_code := r_response_code r; r_response_code_line := r_response_code_line r; r_input_buffer := r_input_buffer r; r_ntoread := r_ntoread r;
     r_chunked := r_chunked r; r_output_buffer := r_output_buffer r; r_chunk_cb := r_chunk_cb r |}.
Definition set_request_line {B} (type : evhttp_cmd_type) (uri : option (list byte)) (elems : option evhttp_uri) (flags : Z) (r : evhttp_request B) : evhttp_request B :=
  {| r_kind := r_kind r; r_type := type; r_flags := flags; r_input_headers := r_input_headers r; r_output_headers := r_output_headers r;
     r_headers_size := r_headers_size r; r_body_size := r_body_size r; r_uri := uri; r_uri_elems := elems; r_major := r_major r; r_minor := r_minor r;
     r_response_code := r_response_code r; r_response_code_line := r_response_code_line r; r_input_buffer := r_input_buffer r; r_ntoread := r_ntoread r;
     r_chunked := r_chunked r; r_output_buffer := r_output_buffer r; r_chunk_cb := r_chunk_cb r |}.
Definition set_status {B} (kind : evhttp_request_kind) (code : Z) (line : option (list byte)) (r : evhttp_request B) : evhttp_request B :=
  {| r_kind := kind; r_type := r_type r; r_flags := r_flags r; r_input_headers := r_input_headers r; r_output_headers := r_output_headers r;
     r_headers_size := r_headers_size r; r_body_size := r_body_size r; r_uri := r_uri r; r_uri_elems := r_uri_elems r; r_major := r_major r; r_minor := r_minor r;
     r_response_code := code; r_response_code_line := line; r_input_buffer := r_input_buffer r; r_ntoread := r_ntoread r;
     r_chunked := r_chunked r; r_output_buffer := r_output_buffer r; r_chunk_cb := r_chunk_cb r |}.
Definition set_input_headers {B} (headers : list evkeyval) (size : Z) (r : evhttp_request B) : evhttp_request B :=
  {| r_kind := r_kind r; r_type := r_type r; r_flags := r_flags r; r_input_headers := headers; r_output_headers := r_output_headers r;
     r_headers_size := size; r_body_size := r_body_size r; r_uri := r_uri r; r_uri_elems := r_uri_elems r; r_major := r_major r; r_minor := r_minor r;
     r_response_code := r_response_code r; r_response_code_line := r_response_code_line r; r_input_buffer := r_input_buffer r; r_ntoread := r_ntoread r;
     r_chunked := r_chunked r; r_output_buffer := r_output_buffer r; r_chunk_cb := r_chunk_cb r |}.
Definition set_body {B} (buffer : B) (size ntoread : Z) (chunked : bool) (r : evhttp_request B) : evhttp_request B :=
  {| r_kind := r_kind r; r_type := r_type r; r_flags := r_flags r; r_input_headers := r_input_headers r; r_output_headers := r_output_headers r;
     r_headers_size := r_headers_size r; r_body_size := size; r_uri := r_uri r; r_uri_elems := r_uri_elems r; r_major := r_major r; r_minor := r_minor r;
     r_response_code := r_response_code r; r_response_code_line := r_response_code_line r; r_input_buffer := buffer; r_ntoread := ntoread;
     r_chunked := chunked; r_output_buffer := r_output_buffer r; r_chunk_cb := r_chunk_cb r |}.
Definition set_output {B} (headers : list evkeyval) (buffer : B) (r : evhttp_request B) : evhttp_request B :=
  {| r_kind := r_kind r; r_type := r_type r; r_flags := r_flags r; r_input_headers := r_input_headers r; r_output_headers := headers;
     r_headers_size := r_headers_size r; r_body_size := r_body_size r; r_uri := r_uri r; r_uri_elems := r_uri_elems r; r_major := r_major r; r_minor := r_minor r;
     r_response_code := r_response_code r; r_response_code_line := r_response_code_line r; r_input_buffer := r_input_buffer r; r_ntoread := r_ntoread r;
     r_chunked := r_chunked r; r_output_buffer := buffer; r_chunk_cb := r_chunk_cb r |}.

Definition evhttp_method (type : evhttp_cmd_type) : option (list byte) :=
  match type with
  | EVHTTP_REQ_GET => Some (bytes_of "GET") | EVHTTP_REQ_POST => Some (bytes_of "POST") | EVHTTP_REQ_HEAD => Some (bytes_of "HEAD")
  | EVHTTP_REQ_PUT => Some (bytes_of "PUT") | EVHTTP_REQ_DELETE => Some (bytes_of "DELETE") | EVHTTP_REQ_OPTIONS => Some (bytes_of "OPTIONS")
  | EVHTTP_REQ_TRACE => Some (bytes_of "TRACE") | EVHTTP_REQ_CONNECT => Some (bytes_of "CONNECT") | EVHTTP_REQ_PATCH => Some (bytes_of "PATCH")
  | EVHTTP_REQ_UNKNOWN => None
  end.

Definition HTTP_NOCONTENT : Z := 204.
Definition HTTP_NOTMODIFIED : Z := 304.

Definition evhttp_response_needs_body {B} (req : evhttp_request B) : bool :=
  negb (r_response_code req =? HTTP_NOCONTENT) && negb (r_response_code req =? HTTP_NOTMODIFIED) &&
  ((r_response_code req <? 100) || (r_response_code req >=? 200)) && negb (bool_decide (r_type req = EVHTTP_REQ_HEAD)).

Definition REQ_VERSION_ATLEAST {B} (req : evhttp_request B) (major_v minor_v : Z) : bool :=
  (r_major req >? major_v) || ((r_major req =? major_v) && (r_minor req >=? minor_v)).
Definition REQ_VERSION_BEFORE {B} (req : evhttp_request B) (major_v minor_v : Z) : bool :=
  (r_major req <? major_v) || ((r_major req =? major_v) && (r_minor req <? minor_v)).

(** ** Making messages *)

Definition CRLF : list byte := ["013"%byte; "010"%byte].

(** [gmtime_r] and [strftime] for the time [t], in seconds since the epoch. *)
Definition civil (days : Z) : Z * Z * Z :=
  let z := days + 719468 in
  let era := z / 146097 in
  let doe := z mod 146097 in
  let yoe := (doe - doe / 1460 + doe / 36524 - doe / 146096) / 365 in
  let doy := doe - (365 * yoe + yoe / 4 - yoe / 100) in
  let mp := (5 * doy + 2) / 153 in
  let m := if mp <? 10 then mp + 3 else mp - 9 in
  (yoe + era * 400 + (if m <=? 2 then 1 else 0), m, doy - (153 * mp + 2) / 5 + 1).
Definition two (n : Z) : list byte := [z2b (48 + (n / 10) mod 10); z2b (48 + n mod 10)].
Definition name_of (names : list string) (n : Z) : list byte := bytes_of (default "" (znth names n)).
Definition http_date (t : Z) : list byte :=
  let '(y, m, d) := civil (t / 86400) in
  let s := t mod 86400 in
  name_of ["Sun"; "Mon"; "Tue"; "Wed"; "Thu"; "Fri"; "Sat"] ((t / 86400 + 4) mod 7) ++ bytes_of ", " ++ two d ++ bytes_of " " ++
  name_of ["Jan"; "Feb"; "Mar"; "Apr"; "May"; "Jun"; "Jul"; "Aug"; "Sep"; "Oct"; "Nov"; "Dec"] (m - 1) ++ bytes_of " " ++ decimal y ++ bytes_of " " ++
  two (s / 3600) ++ bytes_of ":" ++ two (s / 60 mod 60) ++ bytes_of ":" ++ two (s mod 60) ++ bytes_of " GMT".

Definition absent (headers : list evkeyval) (name : string) : bool := match evhttp_find_header headers (bytes_of name) with None => true | Some _ => false end.

Section messages.
Context `{Evbuffer B, !EvbufferText B, !EvbufferLines B, Malloc}.

(** [evhttp_add_header] where the result is not looked at. *)
Definition add_header (name : string) (value : list byte) (headers : list evkeyval) : list evkeyval := (evhttp_add_header headers (bytes_of name) value).2.
Definition remove_header (name : string) (headers : list evkeyval) : list evkeyval := (evhttp_remove_header headers (bytes_of name)).2.

Definition version_text (req : evhttp_request B) : list byte := bytes_of "HTTP/" ++ print_int (r_major req) ++ bytes_of "." ++ print_int (r_minor req).

(** The connection's output and the request. *)
Definition evhttp_make_header_request (output : B) (req : evhttp_request B) : outcome (B * evhttp_request B) :=
  let headers := remove_header "Proxy-Connection" (r_output_headers req) in
  method ← or_undef NullDeref (evhttp_method (r_type req));
  uri ← or_undef NullDeref (r_uri req);
  let output := (evbuffer_add_printf output (method ++ bytes_of " " ++ uri ++ bytes_of " " ++ version_text req ++ CRLF)).2 in
  let headers :=
    if bool_decide (r_type req = EVHTTP_REQ_POST ∨ r_type req = EVHTTP_REQ_PUT) && absent headers "Content-Length"
    then add_header "Content-Length" (print_size (evbuffer_get_length (r_output_buffer req))) headers
    else headers in
  Val (output, set_output headers (r_output_buffer req) req).

Definition evhttp_is_connection_close (flags : Z) (headers : list evkeyval) : bool :=
  if has flags EVHTTP_PROXY_REQUEST then
    match evhttp_find_header headers (bytes_of "Proxy-Connection") with
    | None => true
    | Some connection => negb (evutil_ascii_strcasecmp connection (bytes_of "keep-alive") =? 0)
    end
  else
    match evhttp_find_header headers (bytes_of "Connection") with
    | None => false
    | Some connection => evutil_ascii_strcasecmp connection (bytes_of "close") =? 0
    end.

Definition evhttp_is_connection_keepalive (headers : list evkeyval) : bool :=
  match evhttp_find_header headers (bytes_of "Connection") with
  | None => false
  | Some connection => evutil_ascii_strncasecmp connection (bytes_of "keep-alive") 10 =? 0
  end.

Definition evhttp_maybe_add_date_header (now : Z) (headers : list evkeyval) : list evkeyval :=
  if absent headers "Date" then add_header "Date" (http_date now) headers else headers.

Definition evhttp_maybe_add_content_length_header (headers : list evkeyval) (content_length : Z) : list evkeyval :=
  if absent headers "Transfer-Encoding" && absent headers "Content-Length" then add_header "Content-Length" (print_size content_length) headers else headers.

(** The headers a response gets. *)
Definition response_headers (now : Z) (req : evhttp_request B) : list evkeyval :=
  let is_keepalive := evhttp_is_connection_keepalive (r_input_headers req) in
  let headers := r_output_headers req in
  let headers :=
    if r_major req =? 1 then
      let headers := if r_minor req >=? 1 then evhttp_maybe_add_date_header now headers else headers in
      let headers := if (r_minor req =? 0) && is_keepalive then add_header "Connection" (bytes_of "keep-alive") headers else headers in
      if ((r_minor req >=? 1) || is_keepalive) && evhttp_response_needs_body req
      then evhttp_maybe_add_content_length_header headers (evbuffer_get_length (r_output_buffer req))
      else headers
    else headers in
  let headers :=
    if evhttp_response_needs_body req && absent headers "Content-Type" then add_header "Content-Type" (bytes_of "text/html; charset=ISO-8859-1") headers
    else headers in
  if evhttp_is_connection_close (r_flags req) (r_input_headers req) then
    let headers := remove_header "Connection" headers in
    let headers := if has (r_flags req) EVHTTP_PROXY_REQUEST then headers else add_header "Connection" (bytes_of "close") headers in
    remove_header "Proxy-Connection" headers
  else headers.

Definition evhttp_make_header_response (now : Z) (output : B) (req : evhttp_request B) : outcome (B * evhttp_request B) :=
  line ← or_undef NullDeref (r_response_code_line req);
  let output := (evbuffer_add_printf output (version_text req ++ bytes_of " " ++ print_int (r_response_code req) ++ bytes_of " " ++ line ++ CRLF)).2 in
  Val (output, set_output (response_headers now req) (r_output_buffer req) req).

Definition header_line (h : evkeyval) : list byte := key h ++ bytes_of ": " ++ value h ++ CRLF.

Definition evhttp_make_header (now : Z) (output : B) (req : evhttp_request B) : outcome (B * evhttp_request B) :=
  '(output, req) ← (match r_kind req with EVHTTP_REQUEST => evhttp_make_header_request output req | EVHTTP_RESPONSE => evhttp_make_header_response now output req end);
  let output := foldl (λ output h, (evbuffer_add_printf output (header_line h)).2) output (r_output_headers req) in
  let output := (evbuffer_add output CRLF).2 in
  if evbuffer_get_length (r_output_buffer req) >? 0 then
    let '(_, output, rest) := evbuffer_add_buffer output (r_output_buffer req) in
    Val (output, set_output (r_output_headers req) rest req)
  else Val (output, req).

Definition evhttp_response_code (code : Z) (reason : option (list byte)) (req : evhttp_request B) : evhttp_request B :=
  let reason := match reason with Some r => r | None => evhttp_response_phrase_internal code end in
  set_status EVHTTP_RESPONSE code (mm_strdup reason) req.

(** Replies of a request that still has its connection.  What they add to the output is modelled;
    evhttp_write_buffer, which has the event loop send it, is not.  Whether the reply is sent in chunks is a field of the request. *)
Definition evhttp_send_reply_start (now : Z) (code : Z) (reason : option (list byte)) (output : B) (req : evhttp_request B) : outcome (B * evhttp_request B) :=
  let req := evhttp_response_code code reason req in
  let chunked := absent (r_output_headers req) "Content-Length" && REQ_VERSION_ATLEAST req 1 1 && evhttp_response_needs_body req in
  let headers := if chunked then add_header "Transfer-Encoding" (bytes_of "chunked") (r_output_headers req) else r_output_headers req in
  let req := set_output headers (r_output_buffer req) (set_body (r_input_buffer req) (r_body_size req) (r_ntoread req) chunked req) in
  evhttp_make_header now output req.

Definition evhttp_send_reply_chunk (databuf output : B) (req : evhttp_request B) : B :=
  if evbuffer_get_length databuf =? 0 then output
  else if negb (evhttp_response_needs_body req) then output
  else
    let output := if r_chunked req then (evbuffer_add_printf output (print_hex (u32 (evbuffer_get_length databuf)) ++ CRLF)).2 else output in
    let '(_, output, _) := evbuffer_add_buffer output databuf in
    if r_chunked req then (evbuffer_add output CRLF).2 else output.

(** The output, the request, and whether evhttp_send_done is called at once and not when the output has been written. *)
Definition evhttp_send_reply_end (output : B) (req : evhttp_request B) : B * evhttp_request B * bool :=
  if r_chunked req then ((evbuffer_add output (bytes_of "0" ++ CRLF ++ CRLF)).2, set_body (r_input_buffer req) (r_body_size req) (r_ntoread req) false req, false)
  else (output, req, evbuffer_get_length output =? 0).

Definition evhttp_send (now : Z) (databuf : option B) (output : B) (req : evhttp_request B) : outcome (B * evhttp_request B) :=
  let req := match databuf with Some d => set_output (r_output_headers req) (evbuffer_add_buffer (r_output_buffer req) d).1.2 req | None => req end in
  evhttp_make_header now output req.

Definition evhttp_send_reply (now code : Z) (reason : option (list byte)) (databuf : option B) (output : B) (req : evhttp_request B) : outcome (B * evhttp_request B) :=
  evhttp_send now databuf output (evhttp_response_code code reason req).

Definition evhttp_send_page (now : Z) (databuf output : B) (req : evhttp_request B) : outcome (B * evhttp_request B) :=
  let req := if (r_major req =? 0) || (r_minor req =? 0) then set_version 1 1 req else req in
  let req := if bool_decide (r_kind req = EVHTTP_RESPONSE) then req else evhttp_response_code 200 (Some (bytes_of "OK")) req in
  let headers := add_header "Connection" (bytes_of "close") (add_header "Content-Type" (bytes_of "text/html") (evhttp_clear_headers (r_output_headers req))) in
  evhttp_send now (Some databuf) output (set_output headers (r_output_buffer req) req).

Definition error_page (error : Z) (reason : list byte) : list byte :=
  bytes_of "<HTML><HEAD>" ++ ["010"%byte] ++ bytes_of "<TITLE>" ++ print_int error ++ bytes_of " " ++ reason ++ bytes_of "</TITLE>" ++ ["010"%byte] ++
  bytes_of "</HEAD><BODY>" ++ ["010"%byte] ++ bytes_of "<H1>" ++ reason ++ bytes_of "</H1>" ++ ["010"%byte] ++ bytes_of "</BODY></HTML>" ++ ["010"%byte].

(** [None] when the connection is freed instead. *)
Definition evhttp_send_error (now error : Z) (reason : option (list byte)) (output : B) (req : evhttp_request B) : outcome (option (B * evhttp_request B)) :=
  match evbuffer_create with
  | None => Val None
  | Some buf =>
      let reason := match reason with Some r => r | None => evhttp_response_phrase_internal error end in
      let req := evhttp_response_code error (Some reason) req in
      let buf := (evbuffer_add_printf buf (error_page error reason)).2 in
      r ← evhttp_send_page now buf output req;
      Val (Some r)
  end.

(** ** Parsing messages *)

Inductive message_read_status := ALL_DATA_READ | MORE_DATA_EXPECTED | DATA_CORRUPTED | REQUEST_CANCELED | DATA_TOO_LONG.

(** [sscanf] with "HTTP/%d.%d%c"; [None] unless two numbers are found. *)
Definition scan_version (version : list byte) : outcome (option (Z * Z)) :=
  if negb (bool_decide (take 5 version = bytes_of "HTTP/")) then Val None
  else
    match scan_number 10 (drop 5 version) with
    | None => Val None
    | Some (major, rest) =>
        if negb (fits_int major) then Undef Overflow
        else if negb (isc "."%byte (head0 rest)) then Val None
        else
          match scan_number 10 (drop 1 rest) with
          | None => Val None
          | Some (minor, rest) =>
              if negb (fits_int minor) then Undef Overflow
              else match rest with [] => Val (Some (major, minor)) | _ => Val None end
          end
    end.

Definition evhttp_parse_http_version (version : list byte) (req : evhttp_request B) : outcome (Z * evhttp_request B) :=
  o ← scan_version version;
  match o with
  | None => Val (-1, req)
  | Some (major, minor) => if major >? 1 then Val (-1, req) else Val (0, set_version (i8 major) (i8 minor) req)
  end.

Definition evhttp_valid_response_code (code : Z) : bool := negb (code =? 0).

Definition evhttp_parse_response_line (req : evhttp_request B) (line : list byte) : outcome (Z * evhttp_request B) :=
  let '(protocol, rest) := strsep line " "%byte in
  match rest with
  | None => Val (-1, req)
  | Some rest =>
      let '(number, readable) := strsep rest " "%byte in
      let readable := default [] readable in
      '(r, req) ← evhttp_parse_http_version protocol req;
      if r <? 0 then Val (-1, req)
      else
        code ← atoi number;
        let req := set_status (r_kind req) code (r_response_code_line req) req in
        if negb (evhttp_valid_response_code code) then Val (-1, req)
        else
          let dup := mm_strdup readable in
          Val (match dup with None => -1 | Some _ => 0 end, set_status (r_kind req) code dup req)
  end.

Definition cmd_of (method : list byte) : evhttp_cmd_type :=
  if bool_decide (method = bytes_of "GET") then EVHTTP_REQ_GET
  else if bool_decide (method = bytes_of "POST") then EVHTTP_REQ_POST
  else if bool_decide (method = bytes_of "HEAD") then EVHTTP_REQ_HEAD
  else if bool_decide (method = bytes_of "PUT") then EVHTTP_REQ_PUT
  else if bool_decide (method = bytes_of "DELETE") then EVHTTP_REQ_DELETE
  else if bool_decide (method = bytes_of "OPTIONS") then EVHTTP_REQ_OPTIONS
  else if bool_decide (method = bytes_of "TRACE") then EVHTTP_REQ_TRACE
  else if bool_decide (method = bytes_of "PATCH") then EVHTTP_REQ_PATCH
  else EVHTTP_REQ_UNKNOWN.

Context (inet_pton6 : list byte → bool).

(** An absolute URI for a host that is none of this server's. *)
Definition is_proxy (http_server : evhttp) (elems : evhttp_uri) : bool :=
  match u_scheme elems, u_host elems with
  | Some scheme, Some hostname =>
      ((evutil_ascii_strcasecmp scheme (bytes_of "http") =? 0) || (evutil_ascii_strcasecmp scheme (bytes_of "https") =? 0)) &&
      negb (evhttp_find_vhost http_server hostname).1
  | _, _ => false
  end.

Definition evhttp_parse_request_line (http_server : evhttp) (req : evhttp_request B) (line : list byte) : outcome (Z * evhttp_request B) :=
  let '(method, rest) := strsep line " "%byte in
  match rest with
  | None => Val (-1, req)
  | Some rest =>
      let '(uri, rest) := strsep rest " "%byte in
      match rest with
      | None => Val (-1, req)
      | Some rest =>
          let '(version, rest) := strsep rest " "%byte in
          match rest with
          | Some _ => Val (-1, req)
          | None =>
              let type := cmd_of method in
              let req := set_request_line type (r_uri req) (r_uri_elems req) (r_flags req) req in
              '(r, req) ← evhttp_parse_http_version version req;
              if r <? 0 then Val (-1, req)
              else
                match mm_strdup uri with
                | None => Val (-1, set_request_line type None (r_uri_elems req) (r_flags req) req)
                | Some uri =>
                    elems ← evhttp_uri_parse_with_flags inet_pton6 uri EVHTTP_URI_NONCONFORMANT;
                    match elems with
                    | None => Val (-1, set_request_line type (Some uri) None (r_flags req) req)
                    | Some e =>
                        let flags := if is_proxy http_server e then Z.lor (r_flags req) EVHTTP_PROXY_REQUEST else r_flags req in
                        Val (0, set_request_line type (Some uri) (Some e) flags req)
                    end
                end
          end
      end
  end.

(** The status, the request and the buffer. *)
Definition evhttp_parse_firstline (max_headers_size : Z) (http_server : evhttp) (req : evhttp_request B) (buffer : B)
  : outcome (message_read_status * evhttp_request B * B) :=
  let '(line, buffer) := evbuffer_read_line buffer in
  match line with
  | None => Val (if evbuffer_get_length buffer >? max_headers_size then DATA_TOO_LONG else MORE_DATA_EXPECTED, req, buffer)
  | Some line =>
      if Zlen line >? max_headers_size then Val (DATA_TOO_LONG, req, buffer)
      else
        let req := set_input_headers (r_input_headers req) (Zlen line) req in
        '(r, req) ← (match r_kind req with
                     | EVHTTP_REQUEST => evhttp_parse_request_line http_server req (c_str line)
                     | EVHTTP_RESPONSE => evhttp_parse_response_line req (c_str line)
                     end);
        Val (if r =? -1 then DATA_CORRUPTED else ALL_DATA_READ, req, buffer)
  end.

Definition evhttp_append_to_last_header (headers : list evkeyval) (line : list byte) : Z * list evkeyval :=
  match List.rev headers with
  | [] => (-1, headers)
  | h :: before =>
      if malloc_ok (Zlen (value h) + Zlen line + 1) then (0, List.rev ({| key := key h; value := value h ++ line |} :: before)) else (-1, headers)
  end.

(** One line of the headers; [None] for an error. *)
Definition parse_header_line (headers : list evkeyval) (line : list byte) : option (list evkeyval) :=
  if isc " "%byte (head0 line) || isc "009"%byte (head0 line) then
    let '(r, headers) := evhttp_append_to_last_header headers line in if r =? -1 then None else Some headers
  else
    let '(skey, svalue) := strsep line ":"%byte in
    match svalue with
    | None => None
    | Some svalue =>
        let svalue := (break (λ c, negb (isc " "%byte c)) svalue).2 in
        let '(r, headers) := evhttp_add_header headers skey svalue in if r =? -1 then None else Some headers
    end.

Fixpoint headers_loop (fuel : nat) (max_headers_size : Z) (req : evhttp_request B) (buffer : B) : outcome (message_read_status * evhttp_request B * B) :=
  match fuel with
  | O => Undef Hang
  | S fuel =>
      let '(line, buffer) := evbuffer_read_line buffer in
      match line with
      | None => Val (if u64 (r_headers_size req + evbuffer_get_length buffer) >? max_headers_size then DATA_TOO_LONG else MORE_DATA_EXPECTED, req, buffer)
      | Some line =>
          let size := u64 (r_headers_size req + Zlen line) in
          let req := set_input_headers (r_input_headers req) size req in
          if size >? max_headers_size then Val (DATA_TOO_LONG, req, buffer)
          else
            match c_str line with
            | [] => Val (ALL_DATA_READ, req, buffer)
            | line =>
                match parse_header_line (r_input_headers req) line with
                | None => Val (DATA_CORRUPTED, req, buffer)
                | Some headers => headers_loop fuel max_headers_size (set_input_headers headers size req) buffer
                end
            end
      end
  end.

Definition evhttp_parse_headers (max_headers_size : Z) (req : evhttp_request B) (buffer : B) : outcome (message_read_status * evhttp_request B * B) :=
  headers_loop (S (Z.to_nat (evbuffer_get_length buffer))) max_headers_size req buffer.

Definition evhttp_get_body_length (req : evhttp_request B) : option Z :=
  match evhttp_find_header (r_input_headers req) (bytes_of "Content-Length"), evhttp_find_header (r_input_headers req) (bytes_of "Connection") with
  | None, None => Some (-1)
  | None, Some connection => if negb (evutil_ascii_strcasecmp connection (bytes_of "Close") =? 0) then None else Some (-1)
  | Some content_length, _ =>
      let '(ntoread, endp) := evutil_strtoll content_length 10 in
      match content_length, endp with
      | _ :: _, [] => if ntoread <? 0 then None else Some ntoread
      | _, _ => None
      end
  end.

Definition evhttp_method_may_have_body (type : evhttp_cmd_type) : bool :=
  match type with EVHTTP_REQ_POST | EVHTTP_REQ_PUT | EVHTTP_REQ_PATCH => true | _ => false end.
End messages.
