(* ===== verification/HttpRead.v ===== *)
(** Reading a message on a connection: the callbacks of http.c of libevent 2.0.21 that are run when
    bytes have arrived. *)

From S2P Require Import Prelude EvFlags EvbufferApi BufChain Chars PrintApi LineApi Uri HttpText HttpVhost HttpMsg.

Inductive evhttp_connection_state :=
  | EVCON_DISCONNECTED | EVCON_CONNECTING | EVCON_IDLE | EVCON_READING_FIRSTLINE | EVCON_READING_HEADERS | EVCON_READING_BODY
  | EVCON_READING_TRAILER | EVCON_WRITING.

Inductive evhttp_connection_error := EVCON_HTTP_TIMEOUT | EVCON_HTTP_EOF | EVCON_HTTP_INVALID_HEADER | EVCON_HTTP_BUFFER_ERROR | EVCON_HTTP_REQUEST_CANCEL.

(** struct evhttp_connection: [hc_input] and [hc_output] are the buffers of its bufferevent, [hc_reading] says
    whether EV_READ is enabled on it and [hc_read_more] whether the deferred callback is scheduled. *)
Record evhttp_connection {B : Type} := {
  hc_state : evhttp_connection_state;
  hc_max_headers_size : Z;
  hc_max_body_size : Z;
  hc_http_server : evhttp;
  hc_input : B;
  hc_output : B;
  hc_reading : bool;
  hc_read_more : bool;
  hc_req : evhttp_request B }.
Arguments evhttp_connection B : clear implicits.

(** What the rest of http.c and the user are called for. *)
Inductive http_action :=
  | ConnectionDone
  | ConnectionFail (error : evhttp_connection_error)
  | ConnectionReset
  | ChunkCallback (data : list byte)
  | RequestFree
  | SendError (code : Z).

Definition con_update {B} (state : evhttp_connection_state) (input output : B) (reading read_more : bool) (req : evhttp_request B) (c : evhttp_connection B) : evhttp_connection B :=
  {| hc_state := state; hc_max_headers_size := hc_max_headers_size c; hc_max_body_size := hc_max_body_size c; hc_http_server := hc_http_server c;
     hc_input := input; hc_output := output; hc_reading := reading; hc_read_more := read_more; hc_req := req |}.
Definition set_state {B} (state : evhttp_connection_state) (c : evhttp_connection B) : evhttp_connection B :=
  con_update state (hc_input c) (hc_output c) (hc_reading c) (hc_read_more c) (hc_req c) c.
Definition set_reading {B} (reading : bool) (c : evhttp_connection B) : evhttp_connection B :=
  con_update (hc_state c) (hc_input c) (hc_output c) reading (hc_read_more c) (hc_req c) c.
Definition set_message {B} (req : evhttp_request B) (input : B) (c : evhttp_connection B) : evhttp_connection B :=
  con_update (hc_state c) input (hc_output c) (hc_reading c) (hc_read_more c) req c.

Definition EV_SSIZE_MAX : Z := 2 ^ 63 - 1.
Definition EV_INT64_MAX : Z := 2 ^ 63 - 1.
Definition HTTP_ENTITYTOOLARGE : Z := 413.
Definition HTTP_EXPECTATIONFAILED : Z := 417.

Section reading.
Context `{Evbuffer B, !EvbufferText B, !EvbufferLines B, Malloc} (inet_pton6 : list byte → bool).
Implicit Types req : evhttp_request B.

Definition evhttp_connection_set_max_headers_size (new_max_headers_size : Z) (c : evhttp_connection B) : evhttp_connection B :=
  {| hc_state := hc_state c; hc_max_headers_size := if new_max_headers_size <? 0 then EV_SIZE_MAX else new_max_headers_size; hc_max_body_size := hc_max_body_size c;
     hc_http_server := hc_http_server c; hc_input := hc_input c; hc_output := hc_output c; hc_reading := hc_reading c; hc_read_more := hc_read_more c; hc_req := hc_req c |}.
Definition evhttp_connection_set_max_body_size (new_max_body_size : Z) (c : evhttp_connection B) : evhttp_connection B :=
  {| hc_state := hc_state c; hc_max_headers_size := hc_max_headers_size c; hc_max_body_size := if new_max_body_size <? 0 then 2 ^ 64 - 1 else new_max_body_size;
     hc_http_server := hc_http_server c; hc_input := hc_input c; hc_output := hc_output c; hc_reading := hc_reading c; hc_read_more := hc_read_more c; hc_req := hc_req c |}.

(** The bytes of a buffer, as the chunk callback finds them. *)
Definition buffer_bytes (b : B) : list byte := (evbuffer_remove b (evbuffer_get_length b)).1.2.

(** The chunk callback and draining what it was given: the calls, whether it cancelled, the request. *)
Definition call_chunk_cb (cb : list byte → bool) (req : evhttp_request B) : list http_action * bool * evhttp_request B :=
  let data := buffer_bytes (r_input_buffer req) in
  let drained := (evbuffer_drain (r_input_buffer req) (evbuffer_get_length (r_input_buffer req))).2 in
  ([ChunkCallback data], cb data, set_body drained (r_body_size req) (r_ntoread req) (r_chunked req) req).

Fixpoint chunked_loop (fuel : nat) (max_body_size : Z) (req : evhttp_request B) (buf : B) (acts : list http_action)
  : outcome (message_read_status * list http_action * evhttp_request B * B) :=
  match fuel with
  | O => Undef Hang
  | S fuel =>
      let buflen := evbuffer_get_length buf in
      if buflen =? 0 then Val (MORE_DATA_EXPECTED, acts, req, buf)
      else if buflen >? EV_SSIZE_MAX then Val (DATA_CORRUPTED, acts, req, buf)
      else if r_ntoread req <? 0 then
        let '(p, buf) := evbuffer_read_line buf in
        match p with
        | None => Val (MORE_DATA_EXPECTED, acts, req, buf)
        | Some p =>
            match c_str p with
            | [] => chunked_loop fuel max_body_size req buf acts
            | p =>
                let '(ntoread, endp) := evutil_strtoll p 16 in
                if (negb (isc NUL (head0 endp)) && negb (isc " "%byte (head0 endp))) || (ntoread <? 0) then Val (DATA_CORRUPTED, acts, req, buf)
                else if ntoread >? u64 (EV_SIZE_MAX - r_body_size req) then Val (DATA_CORRUPTED, acts, req, buf)
                else if u64 (r_body_size req + ntoread) >? max_body_size then Val (DATA_TOO_LONG, acts, req, buf)
                else
                  let req := set_body (r_input_buffer req) (u64 (r_body_size req + ntoread)) ntoread (r_chunked req) req in
                  if ntoread =? 0 then Val (ALL_DATA_READ, acts, req, buf) else chunked_loop fuel max_body_size req buf acts
            end
        end
      else if r_ntoread req >? EV_SSIZE_MAX then Val (DATA_CORRUPTED, acts, req, buf)
      else if (r_ntoread req >? 0) && (buflen <? r_ntoread req) then Val (MORE_DATA_EXPECTED, acts, req, buf)
      else
        let '(_, buf, input_buffer) := evbuffer_remove_buffer buf (r_input_buffer req) (r_ntoread req) in
        let req := set_body input_buffer (r_body_size req) (-1) (r_chunked req) req in
        match r_chunk_cb req with
        | None => chunked_loop fuel max_body_size req buf acts
        | Some cb =>
            let '(called, cancelled, req) := call_chunk_cb cb req in
            if cancelled then Val (REQUEST_CANCELED, acts ++ called, req, buf) else chunked_loop fuel max_body_size req buf (acts ++ called)
        end
  end.

Definition evhttp_handle_chunked_read (max_body_size : Z) (req : evhttp_request B) (buf : B) : outcome (message_read_status * list http_action * evhttp_request B * B) :=
  chunked_loop (S (S (Z.to_nat (evbuffer_get_length buf)))) max_body_size req buf [].

Definition evhttp_read_trailer (acts : list http_action) (c : evhttp_connection B) : outcome (list http_action * evhttp_connection B) :=
  '(status, req, buf) ← evhttp_parse_headers (hc_max_headers_size c) (hc_req c) (hc_input c);
  let c := set_message req buf c in
  Val (match status with
       | DATA_CORRUPTED | DATA_TOO_LONG => (acts ++ [ConnectionFail EVCON_HTTP_INVALID_HEADER], c)
       | ALL_DATA_READ => (acts ++ [ConnectionDone], set_reading false c)
       | MORE_DATA_EXPECTED | REQUEST_CANCELED => (acts, set_reading true c)
       end).

(** Behind the chunked and the plain body: limits, the chunk callback and the end. *)
Definition read_body_end (acts : list http_action) (c : evhttp_connection B) : list http_action * evhttp_connection B :=
  let req := hc_req c in
  if (r_body_size req >? hc_max_body_size c) || (negb (r_chunked req) && (r_ntoread req >=? 0) && (r_ntoread req >? hc_max_body_size c))
  then (acts ++ [ConnectionFail EVCON_HTTP_INVALID_HEADER], c)
  else
    let '(acts, cancelled, req) :=
      match r_chunk_cb req with
      | Some cb =>
          if evbuffer_get_length (r_input_buffer req) >? 0 then let '(called, cancelled, req) := call_chunk_cb cb req in (acts ++ called, cancelled, req)
          else (acts, false, req)
      | None => (acts, false, req)
      end in
    let c := set_message req (hc_input c) c in
    if cancelled then (acts ++ [RequestFree], c)
    else if r_ntoread req =? 0 then (acts ++ [ConnectionDone], set_reading false c)
    else (acts, set_reading true c).

Definition evhttp_read_body (c : evhttp_connection B) : outcome (list http_action * evhttp_connection B) :=
  let req := hc_req c in
  let buf := hc_input c in
  if r_chunked req then
    '(status, acts, req, buf) ← evhttp_handle_chunked_read (hc_max_body_size c) req buf;
    let c := set_message req buf c in
    match status with
    | ALL_DATA_READ => evhttp_read_trailer acts (set_state EVCON_READING_TRAILER c)
    | DATA_CORRUPTED | DATA_TOO_LONG => Val (acts ++ [ConnectionFail EVCON_HTTP_INVALID_HEADER], c)
    | REQUEST_CANCELED => Val (acts ++ [RequestFree], c)
    | MORE_DATA_EXPECTED => Val (read_body_end acts c)
    end
  else if r_ntoread req <? 0 then
    if u64 (r_body_size req + evbuffer_get_length buf) <? r_body_size req then Val ([ConnectionFail EVCON_HTTP_INVALID_HEADER], c)
    else
      let size := u64 (r_body_size req + evbuffer_get_length buf) in
      let '(_, input_buffer, buf) := evbuffer_add_buffer (r_input_buffer req) buf in
      Val (read_body_end [] (set_message (set_body input_buffer size (r_ntoread req) (r_chunked req) req) buf c))
  else if match r_chunk_cb req with Some _ => true | None => false end || (evbuffer_get_length buf >=? r_ntoread req) then
    let n := if evbuffer_get_length buf >? r_ntoread req then r_ntoread req else evbuffer_get_length buf in
    let '(_, buf, input_buffer) := evbuffer_remove_buffer buf (r_input_buffer req) n in
    Val (read_body_end [] (set_message (set_body input_buffer (u64 (r_body_size req + n)) (r_ntoread req - n) (r_chunked req) req) buf c))
  else Val (read_body_end [] c).

(** The expectation of a request; [None] to go on with the body. *)
Definition check_expect (c : evhttp_connection B) : option Z * evhttp_connection B :=
  let req := hc_req c in
  if bool_decide (r_kind req = EVHTTP_REQUEST) && REQ_VERSION_ATLEAST req 1 1 then
    match evhttp_find_header (r_input_headers req) (bytes_of "Expect") with
    | None => (None, c)
    | Some expect =>
        if evutil_ascii_strcasecmp expect (bytes_of "100-continue") =? 0 then
          if (r_ntoread req >? 0) && (hc_max_body_size c <=? EV_INT64_MAX) && (r_ntoread req >? hc_max_body_size c) then (Some HTTP_ENTITYTOOLARGE, c)
          else if evbuffer_get_length (hc_input c) =? 0 then
            let output := (evbuffer_add_printf (hc_output c) (version_text req ++ bytes_of " 100 Continue" ++ CRLF ++ CRLF)).2 in
            (None, con_update (hc_state c) (hc_input c) output (hc_reading c) (hc_read_more c) req c)
          else (None, c)
        else (Some HTTP_EXPECTATIONFAILED, c)
    end
  else (None, c).

Definition evhttp_get_body (c : evhttp_connection B) : outcome (list http_action * evhttp_connection B) :=
  let req := hc_req c in
  if bool_decide (r_kind req = EVHTTP_REQUEST) && negb (evhttp_method_may_have_body (r_type req)) then Val ([ConnectionDone], c)
  else
    let c := set_state EVCON_READING_BODY c in
    let chunked := match evhttp_find_header (r_input_headers req) (bytes_of "Transfer-Encoding") with Some e => evutil_ascii_strcasecmp e (bytes_of "chunked") =? 0 | None => false end in
    match (if chunked then Some (-1) else evhttp_get_body_length req) with
    | None => Val ([ConnectionFail EVCON_HTTP_INVALID_HEADER], c)
    | Some ntoread =>
        let req := set_body (r_input_buffer req) (r_body_size req) ntoread (chunked || r_chunked req) req in
        let c := set_message req (hc_input c) c in
        if negb chunked && bool_decide (r_kind req = EVHTTP_REQUEST) && (ntoread <? 1) then Val ([ConnectionDone], c)
        else
          let '(error, c) := check_expect c in
          match error with Some code => Val ([SendError code], c) | None => evhttp_read_body c end
    end.

Definition evhttp_start_read (c : evhttp_connection B) : evhttp_connection B :=
  con_update EVCON_READING_FIRSTLINE (hc_input c) (hc_output c) true (negb (evbuffer_get_length (hc_input c) =? 0) || hc_read_more c) (hc_req c) c.

(** All headers are there. *)
Definition headers_done (c : evhttp_connection B) : outcome (list http_action * evhttp_connection B) :=
  let req := hc_req c in
  match r_kind req with
  | EVHTTP_REQUEST => evhttp_get_body c
  | EVHTTP_RESPONSE =>
      if r_response_code req =? 100 then Val ([], evhttp_start_read c)
      else if negb (evhttp_response_needs_body req) then Val ([ConnectionDone], c)
      else evhttp_get_body c
  end.

Definition evhttp_read_header (c : evhttp_connection B) : outcome (list http_action * evhttp_connection B) :=
  '(status, req, buf) ← evhttp_parse_headers (hc_max_headers_size c) (hc_req c) (hc_input c);
  let c := set_message req buf c in
  match status with
  | DATA_CORRUPTED | DATA_TOO_LONG => Val ([ConnectionFail EVCON_HTTP_INVALID_HEADER], c)
  | MORE_DATA_EXPECTED => Val ([], c)
  | ALL_DATA_READ | REQUEST_CANCELED => headers_done (set_reading false c)
  end.

Definition evhttp_read_firstline (c : evhttp_connection B) : outcome (list http_action * evhttp_connection B) :=
  '(status, req, buf) ← evhttp_parse_firstline inet_pton6 (hc_max_headers_size c) (hc_http_server c) (hc_req c) (hc_input c);
  let c := set_message req buf c in
  match status with
  | DATA_CORRUPTED | DATA_TOO_LONG => Val ([ConnectionFail EVCON_HTTP_INVALID_HEADER], c)
  | MORE_DATA_EXPECTED => Val ([], c)
  | ALL_DATA_READ | REQUEST_CANCELED => evhttp_read_header (set_state EVCON_READING_HEADERS c)
  end.

Definition evhttp_read_cb (c : evhttp_connection B) : outcome (list http_action * evhttp_connection B) :=
  let c := con_update (hc_state c) (hc_input c) (hc_output c) (hc_reading c) false (hc_req c) c in
  match hc_state c with
  | EVCON_READING_FIRSTLINE => evhttp_read_firstline c
  | EVCON_READING_HEADERS => evhttp_read_header c
  | EVCON_READING_BODY => evhttp_read_body c
  | EVCON_READING_TRAILER => evhttp_read_trailer [] c
  | EVCON_IDLE => Val ([ConnectionReset], c)
  | EVCON_DISCONNECTED | EVCON_CONNECTING | EVCON_WRITING => Undef AssertFail
  end.

(** Bytes arrive in pieces: the bufferevent adds each to the input and runs the callback. *)
Definition arrive (piece : list byte) (c : evhttp_connection B) : evhttp_connection B := set_message (hc_req c) (evbuffer_add (hc_input c) piece).2 c.
Fixpoint deliver (pieces : list (list byte)) (c : evhttp_connection B) : outcome (list http_action * evhttp_connection B) :=
  match pieces with
  | [] => Val ([], c)
  | piece :: pieces =>
      '(acts, c) ← evhttp_read_cb (arrive piece c);
      '(more, c) ← deliver pieces c;
      Val (acts ++ more, c)
  end.
End reading.
