(* ===== verification/HttpParse.v ===== *)
(** Numbers and lines of messages: what is printed is found again, wherever the bytes are cut. *)

From S2P Require Import Prelude EvFlags EvbufferApi BufChain BufRefine Chars PrintApi LineApi Uri UriProps HttpText HttpProps HttpVhost HttpMsg.

(** ** Numbers *)

Lemma scan_plain base n ds rest : ds ≠ [] → all_in (base_digit base) ds = true → negb (base_digit base (head0 rest)) = true ∨ rest = [] →
  skip_0x base (ds ++ rest) = ds ++ rest → digits_value base ds = n → scan_number base (ds ++ rest) = Some (n, rest).
Proof.
  intros Hne Hd Hr Hx Hv. unfold scan_number. destruct ds as [|c ds]; [done|]. pose proof Hd as Hc. apply andb_true_iff in Hc as [Hc _].
  assert (EVUTIL_ISSPACE c = false ∧ isc "-"%byte c = false ∧ isc "+"%byte c = false) as (H1 & H2 & H3).
  { assert (0 <= evutil_hex_char_to_int c) as Hh by (unfold base_digit in Hc; apply andb_true_iff in Hc as [Hc%Z.leb_le _]; done). clear -Hh.
    pose proof (each_byte (λ c, (evutil_hex_char_to_int c <? 0) || negb (EVUTIL_ISSPACE c) && negb (isc "-"%byte c) && negb (isc "+"%byte c)) eq_refl c) as Hb.
    cbn beta in Hb. destruct (Z.ltb_spec (evutil_hex_char_to_int c) 0); [lia|]. cbn [orb] in Hb. rewrite !andb_true_iff, !negb_true_iff in Hb. naive_solver. }
  unfold skip_space. cbn [app break]. rewrite H1. cbn [negb snd]. unfold scan_sign. rewrite H2, H3. cbv zeta beta iota. change (c :: ds ++ rest) with ((c :: ds) ++ rest). rewrite Hx.
  rewrite break_at.
  - do 2 f_equal. rewrite Z.mul_1_l. exact Hv.
  - revert Hd. apply all_in_sub. intros x Hx'. by rewrite negb_involutive.
  - destruct rest as [|d rest]; [done|]. destruct Hr as [Hr|]; [|done]. exact Hr.
Qed.

Lemma decimal_value fuel n acc : 0 <= n < 10 ^ (Z.of_nat fuel + 1) →
  digits_value 10 (decimal_loop fuel n acc) = foldl (λ n c, n * 10 + evutil_hex_char_to_int c) n acc.
Proof.
  assert (∀ m k acc, 0 <= k < 10 → foldl (λ n c, n * 10 + evutil_hex_char_to_int c) m (z2b (48 + k) :: acc) = foldl (λ n c, n * 10 + evutil_hex_char_to_int c) (m * 10 + k) acc) as Hdig.
  { intros m k acc' Hk. cbn [foldl]. do 2 f_equal. assert (k = 0 ∨ k = 1 ∨ k = 2 ∨ k = 3 ∨ k = 4 ∨ k = 5 ∨ k = 6 ∨ k = 7 ∨ k = 8 ∨ k = 9) as Hks by lia. by destruct_or! Hks; subst k. }
  unfold digits_value. revert n acc. induction fuel as [|fuel IH]; intros n acc Hn; cbn [decimal_loop].
  - rewrite Hdig by (apply Z.mod_pos_bound; lia). f_equal. rewrite Z.mod_small; [lia|]. cbn in Hn. lia.
  - destruct (Z.ltb_spec n 10).
    + rewrite Hdig by (apply Z.mod_pos_bound; lia). f_equal. rewrite Z.mod_small; lia.
    + rewrite IH.
      * rewrite Hdig by (apply Z.mod_pos_bound; lia). f_equal. pose proof (Z.div_mod n 10). lia.
      * split; [apply Z.div_pos; lia|]. apply Z.div_lt_upper_bound; [lia|]. rewrite <- Z.pow_succ_r by lia. replace (Z.succ (Z.of_nat fuel + 1)) with (Z.of_nat (S fuel) + 1) by lia. lia.
Qed.

Lemma decimal_base fuel n : 0 <= n → all_in (base_digit 10) (decimal_loop fuel n []) = true.
Proof. intros Hn. apply (all_in_sub EVUTIL_ISDIGIT); [by apply class_sub|]. by apply decimal_digits. Qed.

Lemma scan_decimal fuel n rest : 0 <= n < 10 ^ (Z.of_nat fuel + 1) → negb (base_digit 10 (head0 rest)) = true ∨ rest = [] →
  scan_number 10 (decimal_loop fuel n [] ++ rest) = Some (n, rest).
Proof.
  intros Hn Hr. apply scan_plain; [|apply decimal_base; lia|done| |by rewrite decimal_value].
  - intros E. pose proof (decimal_len fuel n []) as Hl. rewrite E in Hl. change (Zlen (@nil byte)) with 0 in Hl. lia.
  - unfold skip_0x. by destruct (_ ++ rest) as [|? [|? [|? ?]]].
Qed.

Lemma print_int_scan n rest : 0 <= n < 2 ^ 31 → negb (base_digit 10 (head0 rest)) = true ∨ rest = [] → scan_number 10 (print_int n ++ rest) = Some (n, rest).
Proof. intros Hn Hr. unfold print_int, decimal. destruct (Z.ltb_spec n 0); [lia|]. apply scan_decimal; [lia|done]. Qed.

Lemma print_size_scan n : 0 <= n < 2 ^ 63 → evutil_strtoll (print_size n) 10 = (n, []).
Proof.
  intros Hn. unfold evutil_strtoll, print_size. pose proof (scan_decimal 20 n [] ltac:(change (10 ^ (Z.of_nat 20 + 1)) with 1000000000000000000000; lia) ltac:(by right)) as E.
  rewrite app_nil_r in E. rewrite E. f_equal. lia.
Qed.

Definition hex_char (c : byte) : bool := base_digit 16 c && negb (isc "x"%byte c) && negb (isc "X"%byte c).

Lemma hex_char_ok k : 0 <= k < 16 → hex_char (z2b (if k <? 10 then 48 + k else 87 + k)) = true ∧ evutil_hex_char_to_int (z2b (if k <? 10 then 48 + k else 87 + k)) = k.
Proof.
  intros Hk. assert (k = 0 ∨ k = 1 ∨ k = 2 ∨ k = 3 ∨ k = 4 ∨ k = 5 ∨ k = 6 ∨ k = 7 ∨ k = 8 ∨ k = 9 ∨ k = 10 ∨ k = 11 ∨ k = 12 ∨ k = 13 ∨ k = 14 ∨ k = 15) as Hks by lia.
  by destruct_or! Hks; subst k.
Qed.

Lemma hex_digits fuel n acc : all_in hex_char acc = true → all_in hex_char (hex_loop fuel n acc) = true ∧ hex_loop fuel n acc ≠ [].
Proof.
  revert n acc. induction fuel as [|fuel IH]; intros n acc Ha; cbn [hex_loop]; destruct (hex_char_ok (n mod 16) (Z.mod_pos_bound n 16 ltac:(lia))) as [Hc _];
    [by rewrite all_in_cons, Hc|]. destruct (n <? 16); [by rewrite all_in_cons, Hc|]. apply IH. by rewrite all_in_cons, Hc.
Qed.

Lemma hex_value fuel n acc : 0 <= n < 16 ^ (Z.of_nat fuel + 1) → digits_value 16 (hex_loop fuel n acc) = foldl (λ n c, n * 16 + evutil_hex_char_to_int c) n acc.
Proof.
  assert (∀ m k acc, 0 <= k < 16 → foldl (λ n c, n * 16 + evutil_hex_char_to_int c) m (z2b (if k <? 10 then 48 + k else 87 + k) :: acc) = foldl (λ n c, n * 16 + evutil_hex_char_to_int c) (m * 16 + k) acc) as Hdig.
  { intros m k acc' Hk. cbn [foldl]. by rewrite (proj2 (hex_char_ok k Hk)). }
  unfold digits_value. revert n acc. induction fuel as [|fuel IH]; intros n acc Hn; cbn [hex_loop].
  - rewrite Hdig by (apply Z.mod_pos_bound; lia). f_equal. rewrite Z.mod_small; [lia|]. cbn in Hn. lia.
  - destruct (Z.ltb_spec n 16).
    + rewrite Hdig by (apply Z.mod_pos_bound; lia). f_equal. rewrite Z.mod_small; lia.
    + rewrite IH.
      * rewrite Hdig by (apply Z.mod_pos_bound; lia). f_equal. pose proof (Z.div_mod n 16). lia.
      * split; [apply Z.div_pos; lia|]. apply Z.div_lt_upper_bound; [lia|]. rewrite <- Z.pow_succ_r by lia. replace (Z.succ (Z.of_nat fuel + 1)) with (Z.of_nat (S fuel) + 1) by lia. lia.
Qed.

Lemma print_hex_scan n : 0 <= n < 2 ^ 32 → evutil_strtoll (print_hex n) 16 = (n, []).
Proof.
  intros Hn. destruct (hex_digits 8 n [] eq_refl) as [Hd Hne]. unfold evutil_strtoll, print_hex. set (ds := hex_loop 8 n []) in *.
  assert (scan_number 16 (ds ++ []) = Some (n, [])) as E; [|rewrite app_nil_r in E; rewrite E; f_equal; lia].
  apply scan_plain; [done| |by right| |].
  - revert Hd. apply all_in_sub. intros c Hc. apply andb_true_iff in Hc as [Hc _]. by apply andb_true_iff in Hc as [Hc _].
  - rewrite app_nil_r. unfold skip_0x. destruct ds as [|z [|x [|d r]]]; try done. rewrite !all_in_cons in Hd.
    apply andb_true_iff in Hd as [_ Hd]. apply andb_true_iff in Hd as [Hx _]. apply andb_true_iff in Hx as [Hx HX%negb_true_iff]. apply andb_true_iff in Hx as [_ Hx%negb_true_iff].
    rewrite Hx, HX. by rewrite andb_false_r.
  - unfold ds. rewrite hex_value; [done|]. change (16 ^ (Z.of_nat 8 + 1)) with (2 ^ 36). lia.
Qed.

(** ** Lines *)

Definition no_lf (s : list byte) : bool := all_in (λ c, negb (isc "010"%byte c)) s.

Lemma cut_line_crlf l r : no_lf l = true → cut_line (l ++ CRLF ++ r) = Some (l, r).
Proof.
  intros Hl. unfold cut_line, CRLF. assert (strchr (l ++ ["013"%byte; "010"%byte] ++ r) "010"%byte = Some (l ++ [("013"%byte : byte)], r)) as ->.
  { apply strchr_some. split; [by rewrite <- app_assoc|]. rewrite all_in_app. unfold no_lf in Hl. by rewrite Hl. }
  unfold drop_cr. rewrite List.rev_app_distr. cbn. by rewrite rev_involutive.
Qed.

Lemma cut_line_none s : no_lf s = true → cut_line s = None.
Proof. intros Hs. unfold cut_line. by rewrite (proj2 (strchr_none s "010"%byte) Hs). Qed.

(** A part of the bytes of a line and what follows either has the whole line or no end of line. *)
Lemma line_prefix x rest l t : no_lf l = true → x ++ rest = l ++ CRLF ++ t →
  (∃ x', x = l ++ CRLF ++ x' ∧ x' ++ rest = t) ∨ (no_lf x = true ∧ Zlen x <= Zlen l + 1 ∧ rest ≠ []).
Proof.
  intros Hl E. rewrite app_assoc in E. apply app_eq_app in E as (k & [[-> ->]|[E ->]]); [left; exists k; by rewrite <- app_assoc|].
  destruct k as [|c k _] using rev_ind; [left; exists []; rewrite !app_nil_r in *; done|]. right.
  rewrite app_assoc in E. change (l ++ CRLF) with (l ++ [("013"%byte : byte)] ++ [("010"%byte : byte)]) in E. rewrite app_assoc in E. apply app_inj_tail in E as [E _].
  assert (no_lf (x ++ k) = true) as Hn by (rewrite <- E; unfold no_lf in *; by rewrite all_in_app, Hl). unfold no_lf in Hn. rewrite all_in_app in Hn. apply andb_true_iff in Hn as [Hn _].
  split; [done|]. split; [|by destruct k]. apply (f_equal Zlen) in E. rewrite !Zlen_app in E. change (Zlen [("013"%byte : byte)]) with 1 in E. pose proof (Zlen_nonneg k). lia.
Qed.

Lemma c_str_whole s : all_in (λ c, negb (isc NUL c)) s = true → c_str s = s.
Proof. intros Hs. unfold c_str. pose proof (break_at (isc NUL) s [] Hs I) as E. rewrite app_nil_r in E. by rewrite E. Qed.

(** ** Headers *)

Definition key_ok (k : list byte) : bool :=
  all_in (λ c, negb (isc ":"%byte c || is_newline c || isc NUL c)) k && negb (isc " "%byte (head0 k)) && negb (isc "009"%byte (head0 k)).
Definition value_ok (v : list byte) : bool := all_in (λ c, negb (is_newline c || isc NUL c)) v && negb (isc " "%byte (head0 v)).
(** A header that arrives as it was sent: one line, a key without a colon, no blank before the value. *)
Definition header_ok (h : evkeyval) : bool := key_ok (key h) && value_ok (value h).

Definition header_text (h : evkeyval) : list byte := key h ++ bytes_of ": " ++ value h.
Lemma header_line_text h : header_line h = header_text h ++ CRLF.
Proof. unfold header_line, header_text. by rewrite <- !app_assoc. Qed.

Lemma header_text_ok h : header_ok h = true → no_lf (header_text h) = true ∧ all_in (λ c, negb (isc NUL c)) (header_text h) = true ∧ header_text h ≠ [].
Proof.
  unfold header_ok, key_ok, value_ok, header_text, no_lf. rewrite !andb_true_iff. intros [[[Hk _] _] [Hv _]]. rewrite !all_in_app.
  rewrite !(all_in_sub (λ c, negb (isc ":"%byte c || is_newline c || isc NUL c)) _ (key h)) by first [by apply class_sub | done].
  rewrite !(all_in_sub (λ c, negb (is_newline c || isc NUL c)) _ (value h)) by first [by apply class_sub | done]. split; [done|]. split; [done|]. by destruct (key h).
Qed.

Lemma break_none f s : all_in (λ c, negb (f c)) s = true → break f s = (s, []).
Proof. intros Hs. pose proof (break_at f s [] Hs I) as E. by rewrite app_nil_r in E. Qed.

Section headers.
Context `{Malloc} (Hmem : reliable).

Lemma add_header_ok hs k v : existsb is_newline k = false → all_in (λ c, negb (is_newline c)) v = true → evhttp_add_header hs k v = (0, hs ++ [{| key := k; value := v |}]).
Proof.
  intros Hk Hv. unfold evhttp_add_header. rewrite Hk. unfold evhttp_header_is_valid_value. cbn [valid_value_loop]. rewrite break_none by done. cbn [snd negb].
  unfold evhttp_add_header_internal, mm_strdup. by rewrite !Hmem.
Qed.

Lemma existsb_none f (s : list byte) : existsb f s = false ↔ all_in (λ c, negb (f c)) s = true.
Proof. unfold all_in. induction s as [|c s IH]; [done|]. cbn. rewrite orb_false_iff, andb_true_iff, negb_true_iff. by rewrite IH. Qed.

Lemma parse_header_ok hs h : header_ok h = true → parse_header_line hs (header_text h) = Some (hs ++ [h]).
Proof.
  unfold header_ok, key_ok, value_ok, header_text, parse_header_line. rewrite !andb_true_iff, !negb_true_iff. intros [[[Hk H1] H2] [Hv H3]].
  assert (head0 (key h ++ bytes_of ": " ++ value h) = match key h with [] => ":"%byte | c :: _ => c end) as -> by (by destruct (key h)).
  assert (∀ c, isc c ":"%byte = false → isc c (head0 (key h)) = false → isc c (match key h with [] => ":"%byte | c :: _ => c end) = false) as Hh by (by destruct (key h)).
  rewrite !Hh by done. cbn [orb]. change (bytes_of ": " ++ value h) with (":"%byte :: " "%byte :: value h). rewrite (strsep_some (key h) (" "%byte :: value h) ":"%byte); [|revert Hk; apply all_in_sub; by apply class_sub].
  cbn [break]. change (isc " " " ") with true. cbn [negb snd]. rewrite (surjective_pairing (break _ (value h))). cbn [snd].
  assert ((break (λ c, negb (isc " "%byte c)) (value h)).2 = value h) as ->. { destruct (value h) as [|c v]; [done|]. cbn [break]. cbn [head0] in H3. rewrite H3. done. }
  rewrite add_header_ok.
  - cbn. by destruct h.
  - apply existsb_none. revert Hk. apply all_in_sub. by apply class_sub.
  - revert Hv. apply all_in_sub. by apply class_sub.
Qed.
End headers.

Definition headers_text (hs : list evkeyval) : list byte := mjoin (header_line <$> hs).

Lemma headers_text_cons h hs : headers_text (h :: hs) = header_text h ++ CRLF ++ headers_text hs.
Proof. unfold headers_text. cbn [fmap list_fmap mjoin list_join]. by rewrite header_line_text, <- app_assoc. Qed.

(** Wherever the bytes are cut, what has arrived is some of the lines and a part without an end of line. *)
Lemma headers_prefix hs x rest body : Forall (λ h, header_ok h = true) hs → x ++ rest = headers_text hs ++ CRLF ++ body →
  (∃ x', x = headers_text hs ++ CRLF ++ x' ∧ x' ++ rest = body) ∨
  (∃ hs1 hs2 part, hs = hs1 ++ hs2 ∧ x = headers_text hs1 ++ part ∧ no_lf part = true ∧ part ++ rest = headers_text hs2 ++ CRLF ++ body ∧ rest ≠ [] ∧ Zlen part <= Zlen (headers_text hs2) + 1).
Proof.
  intros Hhs. revert x. induction Hhs as [|h hs Hh Hhs IH]; intros x E.
  - destruct (line_prefix x rest [] body eq_refl E) as [(x' & -> & E')|(Hn & Hl & Hne)]; [left; by exists x'|]. right. exists [], [], x. done.
  - rewrite headers_text_cons, <- !app_assoc in E. destruct (header_text_ok h Hh) as (Hl & _ & _). destruct (line_prefix x rest _ _ Hl E) as [(x' & -> & E')|(Hn & Hlen & Hne)].
    + destruct (IH x' E') as [(x'' & -> & E'')|(hs1 & hs2 & part & -> & -> & Hp)].
      * left. exists x''. rewrite headers_text_cons, <- !app_assoc. done.
      * right. exists (h :: hs1), hs2, part. split; [done|]. split; [|done]. by rewrite headers_text_cons, <- !app_assoc.
    + right. exists [], (h :: hs), x. split; [done|]. split; [done|]. split; [done|]. rewrite headers_text_cons, <- !app_assoc. split; [done|]. split; [done|]. rewrite !Zlen_app.
      change (Zlen CRLF) with 2. pose proof (Zlen_nonneg (headers_text hs)). lia.
Qed.
