(* ===== verification/HttpTrip.v ===== *)
(** A message is read as it was sent, wherever the bytes are cut on the way: the lemmas. *)

From S2P Require Import Prelude EvFlags EvbufferApi BufChain BufRefine Chars PrintApi LineApi Uri UriProps HttpText HttpProps HttpVhost HttpMsg HttpRead HttpParse.

Section trip.
Context `{EvbufferSpec B, !EvbufferText B, !EvbufferTextSpec B, !EvbufferLines B, !EvbufferLinesSpec B} `{Malloc} (inet_pton6 : list byte → bool).
Context (Hrel : evb_reliable) (Hmem : reliable).
Implicit Types req : evhttp_request B.

Definition short (s : list byte) : Prop := Zlen s <= evb_limit.

Lemma read_line_at b l r : holding b (l ++ CRLF ++ r) → no_lf l = true → short (l ++ CRLF ++ r) → ∃ b', evbuffer_read_line b = (Some l, b') ∧ holding b' r.
Proof.
  intros (Hok & Hw & Hc) Hl Hs. pose proof (read_line_spec b Hok) as P. rewrite Hc, cut_line_crlf in P by done. destruct (P Hs Hrel) as (b' & E & Hok' & Hw' & Hc'). exists b'. split; [done|]. split; [done|]. split; [by apply Hw'|done].
Qed.

Lemma read_line_part b s : holding b s → no_lf s = true → short s → evbuffer_read_line b = (None, b).
Proof. intros (Hok & Hw & Hc) Hl Hs. pose proof (read_line_spec b Hok) as P. rewrite Hc, cut_line_none in P by done. by apply P. Qed.

Lemma length_at b s : holding b s → evbuffer_get_length b = Zlen s.
Proof. intros (Hok & _ & <-). by apply get_length_spec. Qed.

Lemma holding_remove src dst s s' t : holding src (s ++ s') → holding dst t → short (s ++ s') →
  ∃ r src' dst', evbuffer_remove_buffer src dst (Zlen s) = (r, src', dst') ∧ holding src' s' ∧ holding dst' (t ++ s).
Proof.
  intros (Hs1 & Hs2 & Hs3) (Hd1 & Hd2 & Hd3) Hsh. destruct (evbuffer_remove_buffer src dst (Zlen s)) as [[r src'] dst'] eqn:E. exists r, src', dst'. split; [done|].
  destruct (EvbufferApi.remove_buffer_spec src dst _ r src' dst' Hs1 Hd1 Hd2 ltac:(by rewrite Hs3) Hrel (Zlen_nonneg s) E) as (Q1 & Q2 & Q3 & Q4 & Q5). destruct (Q3 Hs2) as [Q6 Q7].
  rewrite Hs3, zdrop_app_exact in Q4. rewrite Hs3, Hd3, ztake_app_exact in Q5. done.
Qed.

(** The chunk callback is given what is in the buffer, which is then empty. *)
Lemma call_chunk_cb_spec cb req y : holding (r_input_buffer req) y →
  ∃ ib, call_chunk_cb cb req = ([ChunkCallback y], cb y, set_body ib (r_body_size req) (r_ntoread req) (r_chunked req) req) ∧ holding ib [].
Proof.
  intros Hy. pose proof Hy as (I1 & I2 & I3). pose proof (Zlen_nonneg y). unfold call_chunk_cb. assert (buffer_bytes (r_input_buffer req) = y) as ->.
  { unfold buffer_bytes. rewrite (length_at _ _ Hy). destruct (remove_spec (r_input_buffer req) (Zlen y) I1 (Zlen_nonneg y)) as (b' & -> & _). cbn. rewrite I3. apply ztake_all. lia. }
  eexists. split; [done|]. rewrite (length_at _ _ Hy). destruct (drain_spec (r_input_buffer req) (Zlen y) I1 (Zlen_nonneg y)) as (_ & D1 & D2).
  split; [done|]. split; [by apply drain_writable; [|apply Zlen_nonneg|]|]. rewrite D2, I3. apply zdrop_all. lia.
Qed.

(** ** Headers *)

Lemma set_input_headers_id req : set_input_headers (r_input_headers req) (r_headers_size req) req = req.
Proof. by destruct req. Qed.

(** What the lines count for; their ends do not. *)
Definition counted (hs : list evkeyval) : Z := Zlen (headers_text hs) - 2 * Zlen hs.

Lemma counted_cons h hs : counted (h :: hs) = Zlen (header_text h) + counted hs.
Proof. unfold counted. rewrite headers_text_cons, !Zlen_app, Zlen_cons. change (Zlen CRLF) with 2. lia. Qed.
Lemma counted_nonneg hs : 0 <= counted hs.
Proof. induction hs as [|h hs IH]; [done|]. rewrite counted_cons. pose proof (Zlen_nonneg (header_text h)). lia. Qed.
Lemma counted_app hs hs' : counted (hs ++ hs') = counted hs + counted hs'.
Proof. induction hs as [|h hs IH]; [done|]. cbn [app]. rewrite !counted_cons, IH. lia. Qed.

Lemma short_app_r s t : short (s ++ t) → short t.
Proof. unfold short. rewrite Zlen_app. pose proof (Zlen_nonneg s). lia. Qed.

Lemma headers_run hs req buf tail fuel max : Forall (λ h, header_ok h = true) hs → holding buf (headers_text hs ++ tail) → short (headers_text hs ++ tail) →
  0 <= r_headers_size req → r_headers_size req + counted hs <= max < 2 ^ 64 →
  ∃ buf', headers_loop (length hs + fuel) max req buf = headers_loop fuel max (set_input_headers (r_input_headers req ++ hs) (r_headers_size req + counted hs) req) buf' ∧ holding buf' tail.
Proof.
  intros Hhs. revert req buf. induction Hhs as [|h hs Hh Hhs IH]; intros req buf Hb Hs Hz Hmax.
  - exists buf. split; [|done]. cbn [length Nat.add]. f_equal. destruct req. cbn. rewrite app_nil_r. unfold set_input_headers. cbn. f_equal. change (counted []) with 0. lia.
  - rewrite headers_text_cons, <- !app_assoc in Hb, Hs. destruct (header_text_ok h Hh) as (Hl & Hn & Hne). destruct (read_line_at _ _ _ Hb Hl Hs) as (b' & E & Hb').
    cbn [length Nat.add headers_loop]. rewrite E. rewrite counted_cons in Hmax. pose proof (counted_nonneg hs). pose proof (Zlen_nonneg (header_text h)).
    assert (u64 (r_headers_size req + Zlen (header_text h)) = r_headers_size req + Zlen (header_text h)) as -> by (apply Z.mod_small; lia).
    destruct (Z.gtb_spec (r_headers_size req + Zlen (header_text h)) max); [lia|]. rewrite c_str_whole by done. destruct (header_text h) as [|x l] eqn:El; [done|]. rewrite <- El in *. clear El.
    rewrite parse_header_ok by done. cbn [set_input_headers r_input_headers].
    destruct (IH (set_input_headers (r_input_headers req ++ [h]) (r_headers_size req + Zlen (header_text h)) req) b' Hb') as (b'' & E' & Hb'').
    + by apply short_app_r, short_app_r in Hs.
    + cbn. lia.
    + cbn. lia.
    + exists b''. split; [|done]. cbn [set_input_headers r_input_headers] in E'. etransitivity; [exact E'|]. f_equal. unfold set_input_headers. cbn. rewrite <- app_assoc. f_equal. rewrite counted_cons. lia.
Qed.

Lemma headers_more req buf part fuel max : holding buf part → no_lf part = true → short part → 0 <= r_headers_size req → r_headers_size req + Zlen part <= max < 2 ^ 64 →
  headers_loop (S fuel) max req buf = Val (MORE_DATA_EXPECTED, req, buf).
Proof.
  intros Hb Hn Hs Hz Hmax. cbn [headers_loop]. rewrite (read_line_part _ _ Hb Hn Hs), (length_at _ _ Hb). pose proof (Zlen_nonneg part).
  assert (u64 (r_headers_size req + Zlen part) = r_headers_size req + Zlen part) as -> by (apply Z.mod_small; lia). by destruct (Z.gtb_spec (r_headers_size req + Zlen part) max); [lia|].
Qed.

Lemma headers_end req buf rest fuel max : holding buf (CRLF ++ rest) → short (CRLF ++ rest) → 0 <= r_headers_size req <= max → max < 2 ^ 64 →
  ∃ buf', headers_loop (S fuel) max req buf = Val (ALL_DATA_READ, req, buf') ∧ holding buf' rest.
Proof.
  intros Hb Hs Hz Hmax. destruct (read_line_at buf [] rest Hb eq_refl Hs) as (b' & E & Hb'). exists b'. split; [|done]. cbn [headers_loop]. rewrite E. change (Zlen (@nil byte)) with 0. rewrite Z.add_0_r.
  assert (u64 (r_headers_size req) = r_headers_size req) as -> by (apply Z.mod_small; lia). destruct (Z.gtb_spec (r_headers_size req) max); [lia|]. cbn. by destruct req.
Qed.

Lemma headers_fuel hs tail : ∃ fuel, S (Z.to_nat (Zlen (headers_text hs ++ tail))) = (length hs + S fuel)%nat.
Proof.
  exists (Z.to_nat (Zlen (headers_text hs ++ tail)) - length hs)%nat. assert (length hs <= Z.to_nat (Zlen (headers_text hs ++ tail)))%nat; [|lia].
  pose proof (counted_nonneg hs) as Hc. unfold counted in Hc. rewrite Zlen_app. pose proof (Zlen_nonneg tail). unfold Zlen in *. lia.
Qed.

Lemma parse_headers_spec hs x rest body req buf max : Forall (λ h, header_ok h = true) hs → holding buf x → x ++ rest = headers_text hs ++ CRLF ++ body → short x →
  0 <= r_headers_size req → r_headers_size req + Zlen (headers_text hs) + 1 <= max < 2 ^ 64 →
  (∃ x' buf', evhttp_parse_headers max req buf = Val (ALL_DATA_READ, set_input_headers (r_input_headers req ++ hs) (r_headers_size req + counted hs) req, buf') ∧ holding buf' x' ∧ x' ++ rest = body) ∨
  (∃ hs1 hs2 part buf', hs = hs1 ++ hs2 ∧ evhttp_parse_headers max req buf = Val (MORE_DATA_EXPECTED, set_input_headers (r_input_headers req ++ hs1) (r_headers_size req + counted hs1) req, buf') ∧
    holding buf' part ∧ part ++ rest = headers_text hs2 ++ CRLF ++ body ∧ rest ≠ []).
Proof.
  intros Hhs Hb E Hs Hz Hmax. unfold evhttp_parse_headers. rewrite (length_at _ _ Hb). pose proof (Zlen_nonneg hs).
  destruct (headers_prefix hs x rest body Hhs E) as [(x' & -> & E')|(hs1 & hs2 & part & -> & -> & Hn & E' & Hne & Hlen)].
  - left. exists x'. destruct (headers_fuel hs (CRLF ++ x')) as [fuel ->]. pose proof (counted_nonneg hs). destruct (headers_run hs req buf (CRLF ++ x') (S fuel) max Hhs Hb Hs Hz) as (b1 & -> & Hb1); [unfold counted in *; lia|].
    destruct (headers_end (set_input_headers (r_input_headers req ++ hs) (r_headers_size req + counted hs) req) b1 x' fuel max Hb1) as (b2 & -> & Hb2); [by apply short_app_r in Hs|cbn; unfold counted in *; lia|lia|]. by exists b2.
  - right. exists hs1, hs2, part. apply Forall_app in Hhs as [Hhs1 Hhs2]. destruct (headers_fuel hs1 part) as [fuel ->]. pose proof (counted_nonneg hs1).
    assert (Zlen (headers_text (hs1 ++ hs2)) = Zlen (headers_text hs1) + Zlen (headers_text hs2)) as Hl by (unfold headers_text; by rewrite fmap_app, join_app, Zlen_app). rewrite Hl in Hmax. pose proof (Zlen_nonneg (headers_text hs2)).
    destruct (headers_run hs1 req buf part (S fuel) max Hhs1 Hb Hs Hz) as (b1 & -> & Hb1); [unfold counted in *; pose proof (Zlen_nonneg hs1); lia|].
    rewrite (headers_more _ b1 part); [|done|done|by apply short_app_r in Hs|cbn; lia|cbn; unfold counted in *; pose proof (Zlen_nonneg hs1); lia]. exists b1. split; [done|]. done.
Qed.

(** What the callback finds. *)
Lemma read_cb_finds c part piece : holding (hc_input c) part → short piece →
  ∃ c1, hc_state c1 = hc_state c ∧ hc_req c1 = hc_req c ∧ hc_max_headers_size c1 = hc_max_headers_size c ∧ hc_max_body_size c1 = hc_max_body_size c ∧ hc_http_server c1 = hc_http_server c ∧
    hc_output c1 = hc_output c ∧ holding (hc_input c1) (part ++ piece) ∧
    evhttp_read_cb inet_pton6 (arrive piece c) =
      match hc_state c with
      | EVCON_READING_FIRSTLINE => evhttp_read_firstline inet_pton6 c1
      | EVCON_READING_HEADERS => evhttp_read_header c1
      | EVCON_READING_BODY => evhttp_read_body c1
      | EVCON_READING_TRAILER => evhttp_read_trailer [] c1
      | EVCON_IDLE => Val ([ConnectionReset], c1)
      | EVCON_DISCONNECTED | EVCON_CONNECTING | EVCON_WRITING => Undef AssertFail
      end.
Proof.
  intros Hp Hs. exists (con_update (hc_state c) (evbuffer_add (hc_input c) piece).2 (hc_output c) (hc_reading c) false (hc_req c) c). repeat (split; [done|]).
  split; [|done]. cbn. by apply holding_add.
Qed.

(** ** A message in pieces *)

Section message.
Context (max_headers max_body : Z) (server : evhttp) (r0 r1 : evhttp_request B) (line : list byte) (hs : list evkeyval) (body : list byte).

Definition head_text : list byte := line ++ CRLF ++ headers_text hs ++ CRLF.

Record message_ok : Prop := {
  mo_line : no_lf line = true;
  mo_chars : all_in (λ c, negb (isc NUL c)) line = true;
  mo_headers : Forall (λ h, header_ok h = true) hs;
  mo_size : Zlen head_text <= max_headers < 2 ^ 64;
  mo_short : Zlen head_text + Zlen body <= evb_limit;
  mo_parse : (let req := set_input_headers (r_input_headers r0) (Zlen line) r0 in
              match r_kind r0 with EVHTTP_REQUEST => evhttp_parse_request_line inet_pton6 server req line | EVHTTP_RESPONSE => evhttp_parse_response_line req line end) = Val (0, r1);
  mo_fresh : r_input_headers r1 = [];
  mo_count : r_headers_size r1 = Zlen line }.

Definition limits (c : evhttp_connection B) : Prop := hc_max_headers_size c = max_headers ∧ hc_max_body_size c = max_body ∧ hc_http_server c = server.

(** How reading the body goes on, and where it ends, after the actions so far; the bytes are still to come. *)
Context (Body : list http_action → evhttp_connection B → list byte → Prop) (Final : list http_action → evhttp_connection B → Prop).
Definition reached (acts : list http_action) (c : evhttp_connection B) (rest : list byte) : Prop := match rest with [] => Final acts c | _ => Body acts c rest end.
Definition complete_headers (c : evhttp_connection B) : Prop :=
  limits c ∧ hc_state c = EVCON_READING_HEADERS ∧ hc_req c = set_input_headers hs (Zlen line + counted hs) r1.

(** Where the bytes may be cut: what is still to come is nothing, or more than what follows the message. *)
Context (extra : list byte).
Definition pending (rest : list byte) : Prop := rest = [] ∨ Zlen extra < Zlen rest.

Context (Hok : message_ok).
Context (Hstart : ∀ c x rest, pending rest → complete_headers c → holding (hc_input c) x → x ++ rest = body → ∃ acts c', headers_done c = Val (acts, c') ∧ reached acts c' rest).
Context (Hstep : ∀ acts c piece rest, piece ≠ [] → pending rest → Body acts c (piece ++ rest) → ∃ acts' c', evhttp_read_cb inet_pton6 (arrive piece c) = Val (acts', c') ∧ reached (acts ++ acts') c' rest).

Inductive waits : list http_action → evhttp_connection B → list byte → Prop :=
  | waits_line c part rest : limits c → hc_state c = EVCON_READING_FIRSTLINE → hc_req c = r0 → holding (hc_input c) part →
      part ++ rest = head_text ++ body → waits [] c rest
  | waits_headers c hs1 hs2 part rest : limits c → hc_state c = EVCON_READING_HEADERS → hs = hs1 ++ hs2 →
      hc_req c = set_input_headers hs1 (Zlen line + counted hs1) r1 → holding (hc_input c) part → part ++ rest = headers_text hs2 ++ CRLF ++ body → waits [] c rest
  | waits_body acts c rest : Body acts c rest → waits acts c rest.

Lemma headers_size_le : Zlen line + Zlen (headers_text hs) + 4 <= max_headers ∧ max_headers < 2 ^ 64.
Proof. pose proof (mo_size Hok) as Hs. unfold head_text in Hs. rewrite !Zlen_app in Hs. change (Zlen CRLF) with 2 in Hs. lia. Qed.

Lemma read_header_waits c hs1 hs2 x rest : pending rest → limits c → hc_state c = EVCON_READING_HEADERS → hs = hs1 ++ hs2 → hc_req c = set_input_headers hs1 (Zlen line + counted hs1) r1 →
  holding (hc_input c) x → x ++ rest = headers_text hs2 ++ CRLF ++ body →
  ∃ acts c', evhttp_read_header c = Val (acts, c') ∧ match rest with [] => Final acts c' | _ => waits acts c' rest end.
Proof.
  intros Hpd Hlim Hst Hhs Hreq Hx E. pose proof headers_size_le as [Hle Hlt]. pose proof (mo_short Hok) as Hsh. unfold head_text in Hsh. rewrite !Zlen_app in Hsh. change (Zlen CRLF) with 2 in Hsh.
  pose proof (counted_nonneg hs1). pose proof (Zlen_nonneg hs1). pose proof (Zlen_nonneg line). pose proof (Zlen_nonneg rest).
  assert (Zlen (headers_text hs) = Zlen (headers_text hs1) + Zlen (headers_text hs2)) as Hl by (rewrite Hhs; unfold headers_text; by rewrite fmap_app, join_app, Zlen_app).
  pose proof (f_equal Zlen E) as El. rewrite !Zlen_app in El. change (Zlen CRLF) with 2 in El. pose proof (Zlen_nonneg (headers_text hs1)).
  unfold evhttp_read_header. rewrite (proj1 Hlim), Hreq. destruct (parse_headers_spec hs2 x rest body (set_input_headers hs1 (Zlen line + counted hs1) r1) (hc_input c) max_headers) as
    [(x' & buf & -> & Hb & E')|(hs3 & hs4 & part & buf & -> & -> & Hb & E' & Hne)].
  - pose proof (mo_headers Hok) as Hh. rewrite Hhs in Hh. by apply Forall_app in Hh as [_ Hh].
  - done.
  - done.
  - unfold short. lia.
  - cbn. lia.
  - cbn. unfold counted. lia.
  - cbn [mbind outcome_bind set_input_headers r_input_headers r_headers_size]. destruct (Hstart (set_reading false (set_message (set_input_headers hs (Zlen line + counted hs) r1) buf c)) x' rest Hpd) as (acts & c' & Ed & Hr).
    + split; [done|]. split; [done|]. done.
    + done.
    + done.
    + exists acts, c'. split.
      * rewrite <- Ed. do 3 f_equal. replace (counted hs) with (counted hs1 + counted hs2) by (by rewrite Hhs, counted_app). rewrite Z.add_assoc, <- Hhs. done.
      * destruct rest; [done|]. by apply waits_body.
  - cbn [mbind outcome_bind set_input_headers r_input_headers r_headers_size]. eexists [], _. split; [done|]. destruct rest; [done|].
    eapply (waits_headers _ (hs1 ++ hs3) hs4 part); [done|done|by rewrite Hhs, app_assoc| |done|done].
    cbn. unfold set_input_headers. cbn. rewrite counted_app. f_equal. lia.
Qed.

Lemma waits_step acts c piece rest : piece ≠ [] → pending rest → waits acts c (piece ++ rest) →
  ∃ acts' c', evhttp_read_cb inet_pton6 (arrive piece c) = Val (acts', c') ∧ match rest with [] => Final (acts ++ acts') c' | _ => waits (acts ++ acts') c' rest end.
Proof.
  intros Hne Hpd Hw. pose proof (mo_short Hok) as Hsh. pose proof headers_size_le as [Hle Hlt]. inversion Hw as [? part ? Hlim Hst Hreq Hin E|? hs1 hs2 part ? Hlim Hst Hhs Hreq Hin E|? ? ? Hb]; subst.
  - pose proof (f_equal Zlen E) as El. rewrite !Zlen_app in El. pose proof (Zlen_nonneg part). pose proof (Zlen_nonneg piece). pose proof (Zlen_nonneg rest).
    destruct (read_cb_finds c part piece Hin) as (c1 & Hst1 & Hreq1 & Hm1 & Hb1 & Hv1 & _ & Ha & ->); [unfold short; lia|]. rewrite Hst. destruct Hlim as (Hm & Hmb & Hsv). rewrite Hm in Hm1. rewrite Hsv in Hv1.
    unfold evhttp_read_firstline, evhttp_parse_firstline. rewrite Hm1, Hv1, Hreq1, ?Hreq.
    unfold head_text in E. rewrite <- !app_assoc in E. rewrite app_assoc in E. destruct (line_prefix _ _ _ _ (mo_line Hok) E) as [(x' & Ex & E')|(Hn & Hl & Hr)].
    + rewrite Ex in Ha. assert (short (line ++ CRLF ++ x')) as Hsx by (rewrite <- Ex; unfold short; rewrite Zlen_app; lia). destruct (read_line_at _ _ _ Ha (mo_line Hok) Hsx) as (b' & -> & Hb').
      pose proof (Zlen_nonneg (headers_text hs)). destruct (Z.gtb_spec (Zlen line) max_headers); [lia|]. rewrite (c_str_whole line) by apply Hok. pose proof (mo_parse Hok) as Hp. cbv zeta in Hp. cbn [set_input_headers r_kind] in Hp |- *.
      rewrite Hp. cbn [mbind outcome_bind Z.eqb]. apply (read_header_waits _ [] hs x' rest); [done|split; [done|]; split; [cbn; congruence|done]|done|done| |done|done].
      change (counted []) with 0. rewrite Z.add_0_r, <- (mo_count Hok), <- (mo_fresh Hok). symmetry. apply set_input_headers_id.
    + rewrite (read_line_part _ _ Ha Hn) by (unfold short; rewrite Zlen_app; lia). rewrite (length_at _ _ Ha). rewrite Zlen_app in Hl |- *. pose proof (Zlen_nonneg (headers_text hs)).
      destruct (Z.gtb_spec (Zlen part + Zlen piece) max_headers); [lia|]. cbn [mbind outcome_bind]. eexists [], _. split; [done|]. destruct rest; [done|].
      eapply (waits_line _ (part ++ piece)); [split; [done|]; split; [cbn; congruence|done]|cbn; congruence|done|done|]. unfold head_text. by rewrite <- !app_assoc in *.
  - pose proof (f_equal Zlen E) as El. unfold head_text in Hsh. rewrite !Zlen_app in El. rewrite !Zlen_app in Hsh. change (Zlen CRLF) with 2 in El, Hsh. pose proof (Zlen_nonneg part). pose proof (Zlen_nonneg piece). pose proof (Zlen_nonneg rest). pose proof (Zlen_nonneg line).
    assert (Zlen (headers_text (hs1 ++ hs2)) = Zlen (headers_text hs1) + Zlen (headers_text hs2)) as Hl by (unfold headers_text; by rewrite fmap_app, join_app, Zlen_app). rewrite <- Hhs in Hl. pose proof (Zlen_nonneg (headers_text hs1)).
    destruct (read_cb_finds c part piece Hin) as (c1 & Hst1 & Hreq1 & Hm1 & Hb1 & Hv1 & _ & Ha & ->); [unfold short; lia|]. rewrite Hst. destruct Hlim as (Hm & Hmb & Hsv).
    rewrite app_assoc in E. apply (read_header_waits c1 hs1 hs2 (part ++ piece) rest); [done| |congruence|done|congruence|done|done]. split; [congruence|]. split; congruence.
  - destruct (Hstep acts c piece rest Hne Hpd Hb) as (acts' & c' & Er & Hr). exists acts', c'. split; [done|]. destruct rest; [done|]. by apply waits_body.
Qed.

(** The pieces: none is empty, and what follows one of them is pending. *)
Fixpoint cuts (pieces : list (list byte)) : Prop :=
  match pieces with [] => True | piece :: pieces => piece ≠ [] ∧ pending (mjoin pieces) ∧ cuts pieces end.

Lemma deliver_all pieces acts c : cuts pieces → pieces ≠ [] → waits acts c (mjoin pieces) → ∃ acts' c', deliver inet_pton6 pieces c = Val (acts', c') ∧ Final (acts ++ acts') c'.
Proof.
  revert acts c. induction pieces as [|piece pieces IH]; intros acts c Hcut Hn Hw; [done|]. destruct Hcut as (Hp & Hpd & Hps). cbn [mjoin list_join] in Hw. destruct (waits_step acts c piece (mjoin pieces) Hp Hpd Hw) as (a1 & c1 & E & Hr).
  cbn [deliver]. rewrite E. cbn [mbind outcome_bind]. destruct pieces as [|p2 pieces].
  - cbn in Hr |- *. eexists _, _. split; [done|]. by rewrite app_nil_r.
  - destruct (mjoin (p2 :: pieces)) as [|x l] eqn:El; [destruct Hps as [Hp2 _]; by destruct p2|]. destruct (IH (acts ++ a1) c1 Hps ltac:(done) Hr) as (a2 & c2 & E2 & Hf). rewrite E2. cbn [mbind outcome_bind].
    eexists _, _. split; [done|]. by rewrite app_assoc.
Qed.
End message.
End trip.
