(* ===== verification/HttpBody.v ===== *)
(** First lines and bodies of messages: what is written is read, in whatever pieces it arrives. *)

From S2P Require Import Prelude EvFlags EvbufferApi BufChain BufRefine Chars PrintApi LineApi Uri UriProps HttpText HttpProps HttpVhost HttpMsg HttpRead HttpParse HttpTrip.

Section bodies.
Context `{EvbufferSpec B, !EvbufferText B, !EvbufferTextSpec B, !EvbufferLines B, !EvbufferLinesSpec B} `{Malloc} (inet_pton6 : list byte → bool).
Context (Hrel : evb_reliable) (Hmem : reliable).
Implicit Types req : evhttp_request B.

(** ** First lines *)

Definition version_bytes (major minor : Z) : list byte := bytes_of "HTTP/" ++ print_int major ++ bytes_of "." ++ print_int minor.

Lemma scan_version_print major minor : 0 <= major < 2 ^ 31 → 0 <= minor < 2 ^ 31 → scan_version (version_bytes major minor) = Val (Some (major, minor)).
Proof.
  intros Hmj Hmn. unfold scan_version, version_bytes. assert (take 5 (bytes_of "HTTP/" ++ print_int major ++ bytes_of "." ++ print_int minor) = bytes_of "HTTP/") as -> by done.
  rewrite bool_decide_true by done. cbn [negb]. change (drop 5 (bytes_of "HTTP/" ++ print_int major ++ bytes_of "." ++ print_int minor)) with (print_int major ++ bytes_of "." ++ print_int minor).
  rewrite print_int_scan by (done || by left). assert (∀ n, 0 <= n < 2 ^ 31 → fits_int n = true) as Hf by (intros n Hn; unfold fits_int; destruct (Z.leb_spec (- 2 ^ 31) n), (Z.ltb_spec n (2 ^ 31)); (done || lia)).
  rewrite Hf by done. cbn [negb bytes_of]. change (isc "."%byte (head0 (bytes_of "." ++ print_int minor))) with true. cbn [negb].
  change (drop 1 (bytes_of "." ++ print_int minor)) with (print_int minor). pose proof (print_int_scan minor [] Hmn ltac:(by right)) as E. rewrite app_nil_r in E. by rewrite E, Hf.
Qed.

Lemma version_no_space major minor : 0 <= major → 0 <= minor → all_in (λ x, negb (isc " "%byte x)) (version_bytes major minor) = true.
Proof.
  intros Hmj Hmn. unfold version_bytes, print_int, decimal. destruct (Z.ltb_spec major 0); [lia|]. destruct (Z.ltb_spec minor 0); [lia|]. rewrite !all_in_app.
  by rewrite !(all_in_sub EVUTIL_ISDIGIT _ (decimal_loop 10 _ [])) by first [by apply class_sub | by apply decimal_digits].
Qed.

Definition request_line (m uri : list byte) (major minor : Z) : list byte := m ++ bytes_of " " ++ uri ++ bytes_of " " ++ version_bytes major minor.

(** The methods the parser of request lines knows. *)
Definition known (type : evhttp_cmd_type) : bool := match type with EVHTTP_REQ_CONNECT | EVHTTP_REQ_UNKNOWN => false | _ => true end.

Lemma i8_small n : 0 <= n < 128 → i8 n = n.
Proof. intros Hn. unfold i8. rewrite Z.mod_small; lia. Qed.

Lemma parse_request_line_print server req type m uri major minor e : known type = true → evhttp_method type = Some m → all_in (λ x, negb (isc " "%byte x)) uri = true →
  0 <= major <= 1 → 0 <= minor < 128 → evhttp_uri_parse_with_flags inet_pton6 uri EVHTTP_URI_NONCONFORMANT = Val (Some e) →
  evhttp_parse_request_line inet_pton6 server req (request_line m uri major minor) =
    Val (0, set_request_line type (Some uri) (Some e) (if is_proxy server e then Z.lor (r_flags req) EVHTTP_PROXY_REQUEST else r_flags req) (set_version major minor req)).
Proof.
  intros Hk Hm Hu Hmj Hmn He. unfold evhttp_parse_request_line, request_line.
  assert (all_in (λ x, negb (isc " "%byte x)) m = true ∧ cmd_of m = type) as [Hms Hc] by (destruct type; try done; injection Hm as <-; done).
  change (m ++ bytes_of " " ++ uri ++ bytes_of " " ++ version_bytes major minor) with (m ++ " "%byte :: uri ++ bytes_of " " ++ version_bytes major minor). rewrite strsep_some by done.
  change (uri ++ bytes_of " " ++ version_bytes major minor) with (uri ++ " "%byte :: version_bytes major minor). rewrite strsep_some by done.
  rewrite strsep_none by (apply version_no_space; lia). unfold evhttp_parse_http_version. rewrite scan_version_print by lia. cbn [mbind outcome_bind]. destruct (Z.gtb_spec major 1); [lia|].
  rewrite !i8_small by lia. cbn [Z.ltb Z.compare]. unfold mm_strdup. rewrite Hmem, He. cbn [mbind outcome_bind]. rewrite Hc. done.
Qed.

Definition status_line (major minor code : Z) (reason : list byte) : list byte := version_bytes major minor ++ bytes_of " " ++ print_int code ++ bytes_of " " ++ reason.

Lemma parse_response_line_print req major minor code reason : 0 <= major <= 1 → 0 <= minor < 128 → 0 < code < 2 ^ 31 →
  evhttp_parse_response_line req (status_line major minor code reason) = Val (0, set_status (r_kind req) code (Some reason) (set_version major minor req)).
Proof.
  intros Hmj Hmn Hc. unfold evhttp_parse_response_line, status_line.
  change (version_bytes major minor ++ bytes_of " " ++ print_int code ++ bytes_of " " ++ reason) with (version_bytes major minor ++ " "%byte :: print_int code ++ bytes_of " " ++ reason).
  rewrite strsep_some by (apply version_no_space; lia). change (print_int code ++ bytes_of " " ++ reason) with (print_int code ++ " "%byte :: reason).
  rewrite strsep_some; [|unfold print_int; destruct (Z.ltb_spec code 0); [lia|]; apply (all_in_sub EVUTIL_ISDIGIT); [by apply class_sub|apply decimal_digits; [lia|done]]].
  unfold evhttp_parse_http_version. rewrite scan_version_print by lia. cbn [mbind outcome_bind]. destruct (Z.gtb_spec major 1); [lia|]. rewrite !i8_small by lia. cbn [Z.ltb Z.compare].
  unfold atoi. pose proof (print_int_scan code [] ltac:(lia) ltac:(by right)) as E. rewrite app_nil_r in E. rewrite E. assert (fits_int code = true) as -> by (unfold fits_int; destruct (Z.leb_spec (- 2 ^ 31) code), (Z.ltb_spec code (2 ^ 31)); (done || lia)).
  cbn [mbind outcome_bind]. unfold evhttp_valid_response_code. destruct (Z.eqb_spec code 0); [lia|]. cbn [negb]. unfold mm_strdup. by rewrite Hmem.
Qed.

(** ** Bodies of a length that is known *)

(** What the first line has set is kept. *)
Definition same_line (r r' : evhttp_request B) : Prop :=
  r_kind r = r_kind r' ∧ r_type r = r_type r' ∧ r_flags r = r_flags r' ∧ r_uri r = r_uri r' ∧ r_uri_elems r = r_uri_elems r' ∧ r_major r = r_major r' ∧ r_minor r = r_minor r' ∧
  r_response_code r = r_response_code r' ∧ r_response_code_line r = r_response_code_line r'.

Section fixed.
Context (max_headers max_body : Z) (server : evhttp) (r1 : evhttp_request B) (line : list byte) (hs : list evkeyval) (body extra : list byte).
Context (Hbody : Zlen body <= max_body) (Hshort : short (body ++ extra)).
Context (Hbuf : holding (r_input_buffer r1) []) (Hsize : r_body_size r1 = 0) (Hchunk : r_chunked r1 = false) (Hcb : r_chunk_cb r1 = None).

Definition received (acts : list http_action) (c : evhttp_connection B) : Prop :=
  acts = [ConnectionDone] ∧ holding (hc_input c) extra ∧ holding (r_input_buffer (hc_req c)) body ∧ r_input_headers (hc_req c) = hs ∧ same_line (hc_req c) r1.

Definition fixed_request : evhttp_request B := set_body (r_input_buffer r1) 0 (Zlen body) false (set_input_headers hs (Zlen line + counted hs) r1).

Ltac fixed_fields := change (r_chunked fixed_request) with false; change (r_ntoread fixed_request) with (Zlen body); change (r_chunk_cb fixed_request) with (r_chunk_cb r1);
  change (r_body_size fixed_request) with 0; change (r_input_buffer fixed_request) with (r_input_buffer r1).

Definition fixed_waits (acts : list http_action) (c : evhttp_connection B) (rest : list byte) : Prop :=
  acts = [] ∧ limits max_headers max_body server c ∧ hc_state c = EVCON_READING_BODY ∧ hc_req c = fixed_request ∧ ∃ part, holding (hc_input c) part ∧ part ++ rest = body ++ extra.

Lemma body_short : Zlen body + Zlen extra <= 2 ^ 61.
Proof. unfold short in Hshort. rewrite Zlen_app in Hshort. exact Hshort. Qed.

(** When the body is there, nothing is to come any more. *)
Lemma body_there x rest : pending extra rest → x ++ rest = body ++ extra → Zlen body <= Zlen x → rest = [] ∧ x = body ++ extra.
Proof.
  intros Hpd E Hge. pose proof (f_equal Zlen E) as El. rewrite !Zlen_app in El. assert (rest = []) as -> by (destruct Hpd; [done|lia]). by rewrite app_nil_r in E.
Qed.

Lemma fixed_read c x rest : pending extra rest → limits max_headers max_body server c → hc_state c = EVCON_READING_BODY → hc_req c = fixed_request → holding (hc_input c) x → x ++ rest = body ++ extra →
  ∃ acts c', evhttp_read_body c = Val (acts, c') ∧ reached fixed_waits received acts c' rest.
Proof.
  intros Hpd Hlim Hst Hreq Hx E. pose proof (Zlen_nonneg body). pose proof (Zlen_nonneg extra). pose proof body_short. pose proof (f_equal Zlen E) as El. rewrite !Zlen_app in El. pose proof (Zlen_nonneg rest). unfold evhttp_read_body. rewrite Hreq. fixed_fields.
  destruct (Z.ltb_spec (Zlen body) 0); [lia|]. rewrite Hcb. cbn [orb]. rewrite (length_at _ _ Hx). unfold limits in Hlim. destruct (Z.geb_spec (Zlen x) (Zlen body)) as [Hge|Hlt].
  - destruct (body_there x rest Hpd E Hge) as [-> ->]. replace (if Zlen (body ++ extra) >? Zlen body then Zlen body else Zlen (body ++ extra)) with (Zlen body) by (rewrite Zlen_app; destruct (Z.gtb_spec (Zlen body + Zlen extra) (Zlen body)); lia).
    destruct (holding_remove Hrel (hc_input c) (r_input_buffer r1) body extra [] Hx Hbuf Hshort) as (r & buf & ib & -> & Hbuf' & Hib).
    eexists _, _. split; [apply f_equal, surjective_pairing|]. unfold read_body_end. cbn [set_message con_update hc_req set_body r_body_size r_chunked r_ntoread r_chunk_cb hc_max_body_size]. fixed_fields. rewrite Z.add_0_l, Z.sub_diag, Hcb.
    assert (u64 (Zlen body) = Zlen body) as -> by (apply Z.mod_small; lia). destruct Hlim as (_ & -> & _).
    destruct (Z.gtb_spec (Zlen body) max_body); [lia|]. destruct (Z.gtb_spec 0 max_body); [lia|]. cbn [orb andb negb Z.geb Z.eqb Z.compare reached]. split; [done|]. split; [done|]. split; [done|]. split; [done|]. repeat (split; [done|]). done.
  - destruct rest as [|y rest]; [change (Zlen (@nil byte)) with 0 in El; lia|]. eexists _, _. split; [apply f_equal, surjective_pairing|]. unfold read_body_end. rewrite Hreq. fixed_fields.
    rewrite Hcb. destruct Hlim as (Hm1 & Hm2 & Hm3). rewrite Hm2. destruct (Z.gtb_spec 0 max_body); [lia|]. destruct (Z.gtb_spec (Zlen body) max_body); [lia|]. rewrite andb_false_r. cbn [orb]. fixed_fields. destruct (Z.eqb_spec (Zlen body) 0); [pose proof (Zlen_nonneg x); lia|].
    cbn [reached]. split; [done|]. split; [done|]. split; [done|]. split; [done|]. by exists x.
Qed.

Lemma fixed_step acts c piece rest : piece ≠ [] → pending extra rest → fixed_waits acts c (piece ++ rest) →
  ∃ acts' c', evhttp_read_cb inet_pton6 (arrive piece c) = Val (acts', c') ∧ reached fixed_waits received (acts ++ acts') c' rest.
Proof.
  intros Hne Hpd (-> & Hlim & Hst & Hreq & part & Hp & E). pose proof body_short. pose proof (f_equal Zlen E) as El. rewrite !Zlen_app in El. pose proof (Zlen_nonneg part). pose proof (Zlen_nonneg piece). pose proof (Zlen_nonneg rest).
  destruct (read_cb_finds inet_pton6 Hrel c part piece Hp) as (c1 & Hst1 & Hreq1 & Hm1 & Hb1 & Hv1 & _ & Ha & ->); [unfold short; change evb_limit with (2 ^ 61); lia|]. rewrite Hst. rewrite app_assoc in E. cbn [app].
  apply (fixed_read c1 (part ++ piece) rest); [done| |congruence|congruence|done|done]. destruct Hlim as (? & ? & ?). split; [congruence|]. split; congruence.
Qed.

Definition header_value (name : string) : option (list byte) := evhttp_find_header hs (bytes_of name).
Definition length_given : Prop := header_value "Content-Length" = Some (print_size (Zlen body)) ∧ header_value "Transfer-Encoding" = None.

(** Where the headers say how long the body is. *)
Definition body_known : Prop :=
  match r_kind r1 with
  | EVHTTP_REQUEST => if evhttp_method_may_have_body (r_type r1) then length_given ∧ header_value "Expect" = None else body = []
  | EVHTTP_RESPONSE => r_response_code r1 ≠ 100 ∧ if evhttp_response_needs_body r1 then length_given else body = []
  end.

Lemma get_body_fixed c x rest : pending extra rest → complete_headers max_headers max_body server r1 line hs c → holding (hc_input c) x → x ++ rest = body ++ extra → length_given →
  (r_kind r1 = EVHTTP_REQUEST → evhttp_method_may_have_body (r_type r1) = true ∧ header_value "Expect" = None) →
  ∃ acts c', evhttp_get_body c = Val (acts, c') ∧ reached fixed_waits received acts c' rest.
Proof.
  intros Hpd (Hlim & Hst & Hreq) Hx E (Hcl & Hte) Hrq. pose proof (Zlen_nonneg body). pose proof (Zlen_nonneg extra). pose proof body_short. unfold header_value in *. set (rh := set_input_headers hs (Zlen line + counted hs) r1) in *.
  assert (evhttp_get_body_length rh = Some (Zlen body)) as Hgl.
  { unfold evhttp_get_body_length. change (r_input_headers rh) with hs. rewrite Hcl. rewrite print_size_scan by lia.
    pose proof (decimal_len 20 (Zlen body) []) as Hd. unfold print_size. destruct (decimal_loop 20 (Zlen body) []) as [|d ds]; [change (Zlen (@nil byte)) with 0 in Hd; lia|]. by destruct (Z.ltb_spec (Zlen body) 0); [lia|]. }
  unfold evhttp_get_body. rewrite Hreq, Hgl. change (r_input_headers rh) with hs. rewrite Hte. change (r_chunked rh) with (r_chunked r1). change (r_body_size rh) with (r_body_size r1). rewrite Hchunk, Hsize. cbn [orb negb andb].
  change (set_body (r_input_buffer rh) 0 (Zlen body) false rh) with fixed_request. change (r_kind rh) with (r_kind r1). change (r_kind fixed_request) with (r_kind r1). change (r_type rh) with (r_type r1).
  set (c1 := set_message fixed_request _ _). assert (limits max_headers max_body server c1 ∧ hc_state c1 = EVCON_READING_BODY ∧ hc_req c1 = fixed_request ∧ hc_input c1 = hc_input c) as (Hl1 & Hs1 & Hr1 & Hi1) by done.
  assert (∃ acts c', evhttp_read_body c1 = Val (acts, c') ∧ reached fixed_waits received acts c' rest) as Hread by (apply (fixed_read c1 x rest); by rewrite ?Hi1).
  destruct (r_kind r1) eqn:Ek.
  - destruct (Hrq eq_refl) as [Hmb Hex]. rewrite Hmb. rewrite bool_decide_true by done. cbn [negb andb]. destruct (Z.ltb_spec (Zlen body) 1) as [Hz|_].
    + assert (body = []) as Hb by (apply Zlen_0_inv; lia). destruct (body_there x rest Hpd E) as [-> ->]; [pose proof (Zlen_nonneg x); lia|]. rewrite Hb in Hx. eexists _, _. split; [done|]. cbn [reached]. unfold received. split; [done|]. split; [by rewrite Hi1|]. split; [by rewrite Hb|]. split; [done|]. repeat (split; [done|]). done.
    + unfold check_expect. rewrite Hr1. change (r_kind fixed_request) with (r_kind r1). change (r_input_headers fixed_request) with hs. rewrite Ek, Hex. rewrite bool_decide_true by done. by destruct (REQ_VERSION_ATLEAST fixed_request 1 1).
  - rewrite !bool_decide_false by done. cbn [andb negb]. unfold check_expect. rewrite Hr1. change (r_kind fixed_request) with (r_kind r1). rewrite Ek. rewrite bool_decide_false by done. done.
Qed.

Lemma fixed_start c x rest : body_known → pending extra rest → complete_headers max_headers max_body server r1 line hs c → holding (hc_input c) x → x ++ rest = body ++ extra →
  ∃ acts c', headers_done c = Val (acts, c') ∧ reached fixed_waits received acts c' rest.
Proof.
  intros Hk Hpd Hc Hx E. unfold body_known in Hk. assert (body = [] → r_input_buffer r1 = r_input_buffer (hc_req c) → ∃ acts c', Val ([ConnectionDone], c) = Val (acts, c') ∧ reached fixed_waits received acts c' rest) as Hnone.
  { intros Hb _. destruct (body_there x rest Hpd E) as [-> ->]; [rewrite Hb; apply Zlen_nonneg|]. rewrite Hb in Hx. destruct Hc as (_ & _ & Hreq). eexists _, _. split; [done|]. cbn [reached]. unfold received. split; [done|]. split; [done|]. rewrite Hreq. split; [by rewrite Hb|]. split; [done|]. repeat (split; [done|]). done. }
  unfold headers_done. pose proof Hc as (_ & _ & Hreq). rewrite Hreq. set (rh := set_input_headers hs (Zlen line + counted hs) r1) in *. change (r_kind rh) with (r_kind r1). destruct (r_kind r1) eqn:Ek.
  - destruct (evhttp_method_may_have_body (r_type r1)) eqn:Em.
    + destruct Hk as [Hl Hex]. by apply (get_body_fixed c x rest).
    + unfold evhttp_get_body. rewrite Hreq. change (r_kind rh) with (r_kind r1). change (r_type rh) with (r_type r1). rewrite Ek, Em. rewrite bool_decide_true by done. cbn [andb negb]. apply Hnone; [done|]. by rewrite Hreq.
  - destruct Hk as [Hcode Hk]. change (r_response_code rh) with (r_response_code r1). destruct (Z.eqb_spec (r_response_code r1) 100); [done|].
    change (evhttp_response_needs_body rh) with (evhttp_response_needs_body r1). destruct (evhttp_response_needs_body r1) eqn:En.
    + apply (get_body_fixed c x rest); [done|done|done|done|done|by rewrite Ek].
    + apply Hnone; [done|]. by rewrite Hreq.
Qed.
End fixed.
End bodies.
