(* ===== verification/HttpSend.v ===== *)
(** What is sent: the headers a message is given and the bytes that are written. *)

From S2P Require Import Prelude EvFlags EvbufferApi BufChain BufRefine Chars PrintApi LineApi Uri UriProps HttpText HttpProps HttpVhost HttpMsg HttpRead HttpParse HttpTrip HttpBody.

(** ** Looking headers up *)

Lemma find_header_app hs hs' k : evhttp_find_header (hs ++ hs') k = match evhttp_find_header hs k with Some v => Some v | None => evhttp_find_header hs' k end.
Proof. unfold evhttp_find_header. induction hs as [|h hs IH]; [done|]. cbn. by destruct (same_key k h). Qed.

Lemma remove_header_elem hs k h : h ∈ (evhttp_remove_header hs k).2 → h ∈ hs.
Proof.
  induction hs as [|x hs IH]; [done|]. cbn. destruct (same_key k x); [by right|]. destruct (evhttp_remove_header hs k) as [r hs']. cbn in *. rewrite !elem_of_cons. naive_solver.
Qed.

(** Removing one header does not hide another. *)
Lemma find_removed hs k k' : Forall (λ h, header_ok h = true) hs → c_string k = true → c_string k' = true → ¬ same_name k k' →
  evhttp_find_header (evhttp_remove_header hs k').2 k = evhttp_find_header hs k.
Proof.
  intros Hhs Hk Hk' Hne. induction Hhs as [|h hs Hh Hhs IH]; [done|]. cbn. destruct (same_key k' h) eqn:E'.
  - unfold evhttp_find_header. cbn. destruct (same_key k h) eqn:E; [|done]. exfalso. apply Hne. unfold same_key in E, E'. apply Z.eqb_eq in E, E'.
    assert (c_string (key h) = true) as Hc. { unfold header_ok, key_ok in Hh. rewrite !andb_true_iff in Hh. destruct Hh as [[[Hh _] _] _]. revert Hh. apply all_in_sub. by apply class_sub. }
    apply strcasecmp_same in E, E'; [|done|done|done|done]. unfold same_name in *. congruence.
  - destruct (evhttp_remove_header hs k') as [r hs'] eqn:Er. unfold evhttp_find_header in *. cbn in *. by destruct (same_key k h).
Qed.

Section send.
Context `{EvbufferSpec B, !EvbufferText B, !EvbufferTextSpec B, !EvbufferLines B, !EvbufferLinesSpec B} `{Malloc}.
Context (Hrel : evb_reliable) (Hmem : reliable).

(** A header that is sent in one line of less than 2^31 bytes. *)
Definition sendable (h : evkeyval) : Prop := header_ok h = true ∧ Zlen (header_line h) < 2 ^ 31.

Lemma sendable_ok hs : Forall sendable hs → Forall (λ h, header_ok h = true) hs.
Proof. intros Hs. apply (Forall_impl sendable _ _ Hs). by intros h [Hh _]. Qed.

Lemma add_header_sendable name v hs : sendable {| key := bytes_of name; value := v |} → add_header name v hs = hs ++ [{| key := bytes_of name; value := v |}].
Proof.
  intros [Hok _]. unfold add_header. unfold header_ok, key_ok, value_ok in Hok. cbn [key value] in Hok. rewrite !andb_true_iff in Hok. destruct Hok as [[[Hk _] _] [Hv _]].
  rewrite add_header_ok; [done|done| |].
  - apply existsb_none. revert Hk. apply all_in_sub. by apply class_sub.
  - revert Hv. apply all_in_sub. by apply class_sub.
Qed.

Lemma remove_sendable name hs : Forall sendable hs → Forall sendable (remove_header name hs).
Proof. rewrite !Forall_forall. intros Hs h Hh. apply Hs. by eapply remove_header_elem. Qed.

Lemma print_size_sendable n : 0 <= n → sendable {| key := bytes_of "Content-Length"; value := print_size n |}.
Proof.
  intros Hn. pose proof (decimal_digits 20 n [] Hn eq_refl) as Hd. pose proof (decimal_len 20 n []) as Hl. change (Zlen (@nil byte)) with 0 in Hl. split.
  - unfold header_ok, value_ok, print_size. cbn [key value]. change (key_ok (bytes_of "Content-Length")) with true. cbn [andb]. rewrite (all_in_sub EVUTIL_ISDIGIT _ (decimal_loop 20 n [])) by first [by apply class_sub | done].
    cbn [andb]. destruct (decimal_loop 20 n []) as [|d ds]; [done|]. cbn [head0]. apply andb_true_iff in Hd as [Hd _]. apply negb_true_iff. by apply (class_not EVUTIL_ISDIGIT).
  - unfold header_line, print_size. cbn [key value]. rewrite !Zlen_app. change (Zlen (bytes_of "Content-Length")) with 14. change (Zlen (bytes_of ": ")) with 2. change (Zlen CRLF) with 2. lia.
Qed.

Lemma print_headers out s hs : Forall sendable hs → holding out s → holding (foldl (λ output h, (evbuffer_add_printf output (header_line h)).2) out hs) (s ++ headers_text hs).
Proof.
  intros Hhs. revert out s. induction Hhs as [|h hs [Hh Hl] Hhs IH]; intros out s Ho; [by rewrite app_nil_r|]. cbn [foldl]. unfold headers_text. cbn [fmap list_fmap mjoin list_join]. rewrite app_assoc. apply IH.
  apply holding_printf; [done|done| |done]. unfold header_line. by destruct (key h).
Qed.

Lemma print_int_len n : Zlen (print_int n) <= 12.
Proof.
  unfold print_int, decimal. pose proof (decimal_len 10 n []) as D1. pose proof (decimal_len 10 (- n) []) as D2. change (Zlen (@nil byte)) with 0 in D1, D2. destruct (n <? 0); rewrite ?Zlen_cons; lia.
Qed.

(** Numbers that are printed, and the version of a message. *)
Lemma print_int_class f n : 0 <= n → forallb (λ x, implb (EVUTIL_ISDIGIT x) (f x)) all_bytes = true → all_in f (print_int n) = true.
Proof. intros Hn Hf. unfold print_int. destruct (Z.ltb_spec n 0); [lia|]. apply (all_in_sub EVUTIL_ISDIGIT); [by apply class_sub|by apply decimal_digits]. Qed.

Lemma version_class f major minor : 0 <= major → 0 <= minor → forallb (λ x, implb (EVUTIL_ISDIGIT x) (f x)) all_bytes = true → all_in f (bytes_of "HTTP/") = true → all_in f (bytes_of ".") = true →
  all_in f (version_bytes major minor) = true.
Proof. intros Hmj Hmn Hf H1' H2'. unfold version_bytes. by rewrite !all_in_app, !print_int_class, H1', H2' by done. Qed.

(** Behind the first line: the headers, the empty line and the body. *)
Lemma make_header_rest out s hs (req : evhttp_request B) body : Forall sendable hs → holding out s → r_output_headers req = hs → holding (r_output_buffer req) body →
  ∃ out' req', (let output := foldl (λ output h, (evbuffer_add_printf output (header_line h)).2) out (r_output_headers req) in
    let output := (evbuffer_add output CRLF).2 in
    if evbuffer_get_length (r_output_buffer req) >? 0 then
      let '(_, output, rest) := evbuffer_add_buffer output (r_output_buffer req) in Val (output, set_output (r_output_headers req) rest req)
    else Val (output, req)) = Val (out', req') ∧ holding out' (s ++ headers_text hs ++ CRLF ++ body) ∧ r_output_headers req' = hs ∧ holding (r_output_buffer req') [] ∧
    r_kind req' = r_kind req ∧ r_type req' = r_type req ∧ r_chunked req' = r_chunked req ∧ r_response_code req' = r_response_code req.
Proof.
  intros Hhs Ho Hh Hb. cbv zeta. rewrite Hh. pose proof (print_headers out s hs Hhs Ho) as H1'. assert (Zlen CRLF <= evb_limit) as Hc by (change evb_limit with (2 ^ 61); done).
  pose proof (holding_add Hrel _ _ CRLF H1' Hc) as H2'. rewrite (length_at _ _ Hb). set (o2 := (evbuffer_add _ CRLF).2) in *. destruct (Z.gtb_spec (Zlen body) 0) as [Hpos|Hz].
  - destruct (evbuffer_add_buffer o2 (r_output_buffer req)) as [[r o3] rest] eqn:E. destruct H2' as (A1 & A2 & A3), Hb as (B1 & B2 & B3).
    destruct (EvbufferApi.add_buffer_spec o2 (r_output_buffer req) r o3 rest A1 A2 B1 E) as (_ & Q1 & Q2 & Q3 & Q4 & Q5). destruct (Q3 B2) as [Q6 Q7].
    eexists _, _. split; [done|]. split; [|done]. split; [done|]. split; [done|]. rewrite Q4, A3, B3. by rewrite <- !app_assoc.
  - assert (body = []) as -> by (apply Zlen_0_inv; pose proof (Zlen_nonneg body); lia). eexists _, _. split; [done|]. split; [|done]. by rewrite !app_nil_r, <- app_assoc in *.
Qed.

(** ** Requests *)

Definition request_headers (type : evhttp_cmd_type) (length : Z) (hs : list evkeyval) : list evkeyval :=
  let hs := remove_header "Proxy-Connection" hs in
  if bool_decide (type = EVHTTP_REQ_POST ∨ type = EVHTTP_REQ_PUT) then hs ++ [{| key := bytes_of "Content-Length"; value := print_size length |}] else hs.

(** No header of the name. *)
Definition lacks (hs : list evkeyval) (name : string) : Prop := evhttp_find_header hs (bytes_of name) = None.

Lemma lacks_absent hs name : lacks hs name → absent hs name = true.
Proof. unfold lacks, absent. by intros ->. Qed.

Lemma removed_lacks hs name : Forall sendable hs → lacks hs name → c_string (bytes_of name) = true → ¬ same_name (bytes_of name) (bytes_of "Proxy-Connection") → lacks (remove_header "Proxy-Connection" hs) name.
Proof. intros Hs Hl Hc Hn. unfold lacks, remove_header. rewrite find_removed; [done|by apply sendable_ok|done|done|done]. Qed.

Lemma make_request_spec now out s (req : evhttp_request B) m uri body : r_kind req = EVHTTP_REQUEST → evhttp_method (r_type req) = Some m → r_uri req = Some uri → Zlen uri < 2 ^ 30 →
  Forall sendable (r_output_headers req) → lacks (r_output_headers req) "Content-Length" → holding (r_output_buffer req) body → holding out s →
  ∃ out' req', evhttp_make_header now out req = Val (out', req') ∧
    holding out' (s ++ request_line m uri (r_major req) (r_minor req) ++ CRLF ++ headers_text (request_headers (r_type req) (Zlen body) (r_output_headers req)) ++ CRLF ++ body) ∧
    r_output_headers req' = request_headers (r_type req) (Zlen body) (r_output_headers req) ∧ Forall sendable (r_output_headers req').
Proof.
  intros Hk Hm Hu Hul Hs Hcl Hb Ho. unfold evhttp_make_header. rewrite Hk. unfold evhttp_make_header_request. rewrite Hm, Hu. cbn [or_undef mbind outcome_bind].
  assert (Forall sendable (remove_header "Proxy-Connection" (r_output_headers req))) as Hs' by (by apply remove_sendable). pose proof (Zlen_nonneg body). pose proof (print_size_sendable (Zlen body) ltac:(lia)) as Hps.
  rewrite lacks_absent by (by apply removed_lacks). rewrite andb_true_r, (length_at _ _ Hb), add_header_sendable by done. fold (request_headers (r_type req) (Zlen body) (r_output_headers req)).
  set (hs := request_headers _ _ _). assert (Forall sendable hs) as Hhs. { unfold hs, request_headers. case_bool_decide; [|done]. apply Forall_app_2; [done|]. by apply Forall_singleton. }
  set (req1 := set_output hs (r_output_buffer req) req). set (first := m ++ _).
  assert (first = request_line m uri (r_major req) (r_minor req) ++ CRLF) as Hf by (unfold first, request_line, version_text, version_bytes; by rewrite <- !app_assoc).
  assert (holding (evbuffer_add_printf out first).2 (s ++ first)) as Ho1.
  { apply holding_printf; [done|done|by destruct (r_type req); try done; injection Hm as <-|]. rewrite Hf. unfold request_line, version_bytes. rewrite !Zlen_app.
    assert (Zlen m <= 7) as Hml by (destruct (r_type req); try done; injection Hm as <-; done). change (Zlen CRLF) with 2. change (Zlen (bytes_of " ")) with 1. change (Zlen (bytes_of "HTTP/")) with 5. change (Zlen (bytes_of ".")) with 1.
    pose proof (print_int_len (r_major req)). pose proof (print_int_len (r_minor req)). lia. }
  destruct (make_header_rest _ _ hs req1 body Hhs Ho1 eq_refl Hb) as (out' & req' & E & Hout & Hh & _). exists out', req'. split; [exact E|]. split; [|by rewrite Hh]. rewrite Hf, <- !app_assoc in Hout. done.
Qed.

(** ** Responses *)

Lemma decimal_any fuel n acc : all_in EVUTIL_ISDIGIT acc = true → all_in EVUTIL_ISDIGIT (decimal_loop fuel n acc) = true.
Proof.
  revert n acc. induction fuel as [|fuel IH]; intros n acc Ha; cbn [decimal_loop]; destruct (digit_byte (n mod 10) (Z.mod_pos_bound n 10 ltac:(lia))) as [Hd _];
    [by rewrite all_in_cons, Hd|]. destruct (n <? 10); [by rewrite all_in_cons, Hd|]. apply IH. by rewrite all_in_cons, Hd.
Qed.

Definition line_char (c : byte) : bool := negb (is_newline c || isc NUL c).

Lemma two_len n : Zlen (two n) = 2.
Proof. done. Qed.
Lemma two_chars n : all_in line_char (two n) = true.
Proof.
  apply (all_in_sub EVUTIL_ISDIGIT); [by apply class_sub|]. unfold two. rewrite !all_in_cons.
  by rewrite (proj1 (digit_byte ((n / 10) mod 10) (Z.mod_pos_bound _ 10 ltac:(lia)))), (proj1 (digit_byte (n mod 10) (Z.mod_pos_bound _ 10 ltac:(lia)))).
Qed.

Lemma name_of_ok names n : forallb (λ s, all_in line_char (bytes_of s) && (Zlen (bytes_of s) <=? 3)) names = true → all_in line_char (name_of names n) = true ∧ Zlen (name_of names n) <= 3.
Proof.
  intros Hn. unfold name_of. destruct (znth names n) as [s|] eqn:E; [|done]. cbn [default]. rewrite forallb_forall in Hn. unfold znth in E. destruct (n <? 0); [done|]. apply list_elem_of_lookup_2, list_elem_of_In, Hn in E.
  apply andb_true_iff in E as [? ?%Z.leb_le]. done.
Qed.

Lemma date_sendable now : sendable {| key := bytes_of "Date"; value := http_date now |}.
Proof.
  unfold http_date. destruct (civil (now / 86400)) as [[y m] d]. set (day := name_of _ ((now / 86400 + 4) mod 7)).
  assert (all_in line_char day = true ∧ Zlen day <= 3 ∧ day ≠ [] ∧ isc " "%byte (head0 day) = false) as (D1 & D2 & D3 & D4).
  { unfold day. pose proof (Z.mod_pos_bound (now / 86400 + 4) 7 ltac:(lia)) as Hm. revert Hm. generalize ((now / 86400 + 4) mod 7). intros k Hk.
    assert (k = 0 ∨ k = 1 ∨ k = 2 ∨ k = 3 ∨ k = 4 ∨ k = 5 ∨ k = 6) as Hks by lia. by destruct_or! Hks; subst k. }
  set (month := name_of _ (m - 1)). destruct (name_of_ok ["Jan"; "Feb"; "Mar"; "Apr"; "May"; "Jun"; "Jul"; "Aug"; "Sep"; "Oct"; "Nov"; "Dec"] (m - 1) eq_refl) as [M1 M2]. fold month in M1, M2.
  assert (all_in line_char (decimal y) = true ∧ Zlen (decimal y) <= 11) as [Y1 Y2].
  { split; [apply (all_in_sub EVUTIL_ISDIGIT); [by apply class_sub|by apply decimal_any]|]. pose proof (decimal_len 10 y []) as Hl. change (Zlen (@nil byte)) with 0 in Hl. unfold decimal. lia. }
  split.
  - unfold header_ok, value_ok. cbn [key value]. change (key_ok (bytes_of "Date")) with true. cbn [andb]. fold line_char. rewrite !all_in_app, D1, M1, Y1, !two_chars. cbn [andb]. destruct day as [|x day]; [done|]. cbn [head0 app] in *. by rewrite D4.
  - unfold header_line. cbn [key value]. rewrite !Zlen_app, !two_len. repeat match goal with |- context [Zlen (bytes_of ?s)] => let n := eval vm_compute in (Zlen (bytes_of s)) in change (Zlen (bytes_of s)) with n end.
    change (Zlen CRLF) with 2. lia.
Qed.

(** A header that is added under another name does not change what is found. *)
Lemma find_added name v hs k : sendable {| key := bytes_of name; value := v |} → evutil_ascii_strcasecmp (bytes_of name) k <> 0 → evhttp_find_header (add_header name v hs) k = evhttp_find_header hs k.
Proof.
  intros Hs Hn. rewrite add_header_sendable, find_header_app by done. destruct (evhttp_find_header hs k); [done|]. unfold evhttp_find_header. cbn. unfold same_key. cbn [key]. by destruct (Z.eqb_spec (evutil_ascii_strcasecmp (bytes_of name) k) 0).
Qed.

(** What is known of the headers of a response on the way. *)
Record headers_so_far (hs : list evkeyval) (length encoding : option (list byte)) : Prop := {
  so_sendable : Forall sendable hs;
  so_length : evhttp_find_header hs (bytes_of "Content-Length") = length;
  so_encoding : evhttp_find_header hs (bytes_of "Transfer-Encoding") = encoding }.

Lemma so_far_add name v hs l e : headers_so_far hs l e → sendable {| key := bytes_of name; value := v |} →
  evutil_ascii_strcasecmp (bytes_of name) (bytes_of "Content-Length") <> 0 → evutil_ascii_strcasecmp (bytes_of name) (bytes_of "Transfer-Encoding") <> 0 → headers_so_far (add_header name v hs) l e.
Proof.
  intros [S1 S2 S3] Hs N1 N2. split.
  - rewrite add_header_sendable by done. apply Forall_app_2; [done|]. by apply Forall_singleton.
  - by rewrite find_added.
  - by rewrite find_added.
Qed.

Lemma so_far_remove name hs l e : headers_so_far hs l e → c_string (bytes_of name) = true → ¬ same_name (bytes_of "Content-Length") (bytes_of name) → ¬ same_name (bytes_of "Transfer-Encoding") (bytes_of name) →
  headers_so_far (remove_header name hs) l e.
Proof.
  intros [S1 S2 S3] Hc N1 N2. split; [by apply remove_sendable|..]; unfold remove_header; rewrite find_removed; (done || by apply sendable_ok).
Qed.

Lemma constant_sendable name v : (header_ok {| key := bytes_of name; value := v |} && (Zlen (header_line {| key := bytes_of name; value := v |}) <? 2 ^ 31)) = true → sendable {| key := bytes_of name; value := v |}.
Proof. intros Hb. apply andb_true_iff in Hb as [? ?%Z.ltb_lt]. done. Qed.

(** With version 1.1 or later a response says how long it is, unless the length or the encoding is given. *)
Lemma response_headers_spec now (req : evhttp_request B) body l e : r_major req = 1 → 1 <= r_minor req → holding (r_output_buffer req) body → headers_so_far (r_output_headers req) l e →
  headers_so_far (response_headers now req)
    (match l, e with None, None => if evhttp_response_needs_body req then Some (print_size (Zlen body)) else None | _, _ => l end) e.
Proof.
  intros Hmj Hmn Hb Hs. unfold response_headers. rewrite Hmj. cbn [Z.eqb Pos.eqb]. destruct (Z.geb_spec (r_minor req) 1); [|lia]. destruct (Z.eqb_spec (r_minor req) 0); [lia|]. cbn [andb orb].
  set (h1 := evhttp_maybe_add_date_header now (r_output_headers req)). assert (headers_so_far h1 l e) as Hh1.
  { unfold h1, evhttp_maybe_add_date_header. destruct (absent _ _); [|done]. by apply so_far_add; [|apply date_sendable|..]. }
  set (h2 := if evhttp_response_needs_body req then _ else h1).
  assert (headers_so_far h2 (match l, e with None, None => if evhttp_response_needs_body req then Some (print_size (Zlen body)) else None | _, _ => l end) e) as Hh2.
  { unfold h2. destruct (evhttp_response_needs_body req); [|by destruct l, e]. unfold evhttp_maybe_add_content_length_header, absent. rewrite (so_length _ _ _ Hh1), (so_encoding _ _ _ Hh1).
    destruct l, e; try done. cbn [andb]. rewrite (length_at _ _ Hb). pose proof (print_size_sendable (Zlen body) (Zlen_nonneg body)) as Hps. rewrite add_header_sendable by done. split.
    - apply Forall_app_2; [apply Hh1|]. by apply Forall_singleton.
    - by rewrite find_header_app, (so_length _ _ _ Hh1).
    - by rewrite find_header_app, (so_encoding _ _ _ Hh1). }
  set (h3 := if evhttp_response_needs_body req && absent h2 "Content-Type" then _ else h2). assert (headers_so_far h3 (match l, e with None, None => if evhttp_response_needs_body req then Some (print_size (Zlen body)) else None | _, _ => l end) e) as Hh3.
  { unfold h3. destruct (_ && _); [|done]. apply so_far_add; [done|by apply constant_sendable|done|done]. }
  destruct (evhttp_is_connection_close _ _); [|done]. apply so_far_remove; [|done|done|done]. destruct (has _ _); [by apply so_far_remove|]. apply so_far_add; [by apply so_far_remove|by apply constant_sendable|done|done].
Qed.

(** A status line and the rest of a response. *)
Lemma make_response_spec now out s (req : evhttp_request B) reason body l e : r_kind req = EVHTTP_RESPONSE → r_response_code_line req = Some reason → Zlen reason < 2 ^ 30 → r_major req = 1 → 1 <= r_minor req →
  headers_so_far (r_output_headers req) l e → holding (r_output_buffer req) body → holding out s →
  ∃ out' req', evhttp_make_header now out req = Val (out', req') ∧
    holding out' (s ++ status_line (r_major req) (r_minor req) (r_response_code req) reason ++ CRLF ++ headers_text (response_headers now req) ++ CRLF ++ body) ∧
    r_output_headers req' = response_headers now req ∧ holding (r_output_buffer req') [] ∧ r_kind req' = r_kind req ∧ r_type req' = r_type req ∧ r_chunked req' = r_chunked req ∧ r_response_code req' = r_response_code req.
Proof.
  intros Hk Hl Hrl Hmj Hmn Hs Hb Ho. unfold evhttp_make_header. rewrite Hk. unfold evhttp_make_header_response. rewrite Hl. cbn [or_undef mbind outcome_bind]. set (first := version_text req ++ _).
  assert (first = status_line (r_major req) (r_minor req) (r_response_code req) reason ++ CRLF) as Hf by (unfold first, status_line, version_text, version_bytes; by rewrite <- !app_assoc).
  assert (holding (evbuffer_add_printf out first).2 (s ++ first)) as Ho1.
  { apply holding_printf; [done|done|done|]. rewrite Hf. unfold status_line, version_bytes. rewrite !Zlen_app. change (Zlen CRLF) with 2. change (Zlen (bytes_of " ")) with 1. change (Zlen (bytes_of "HTTP/")) with 5. change (Zlen (bytes_of ".")) with 1.
    pose proof (print_int_len (r_major req)). pose proof (print_int_len (r_minor req)). pose proof (print_int_len (r_response_code req)). lia. }
  destruct (response_headers_spec now req body l e Hmj Hmn Hb Hs) as [Hhs _ _].
  destruct (make_header_rest _ _ (response_headers now req) (set_output (response_headers now req) (r_output_buffer req) req) body Hhs Ho1 eq_refl Hb) as (out' & req' & E & Hout & Hh & Hob & Hq). exists out', req'.
  split; [exact E|]. split; [|split; [done|]; split; [done|]; by destruct Hq as (-> & -> & -> & ->)]. rewrite Hf, <- !app_assoc in Hout. done.
Qed.
End send.
