(* ===== verification/HttpChunks.v ===== *)
(** Bodies in chunks: whatever pieces the bytes arrive in, the chunks are found one after the other. *)

From S2P Require Import Prelude EvFlags EvbufferApi BufChain BufRefine Chars PrintApi LineApi Uri UriProps HttpText HttpProps HttpVhost HttpMsg HttpRead HttpParse HttpTrip HttpBody HttpSend.

Definition chunk_text (d : list byte) : list byte := print_hex (Zlen d) ++ CRLF ++ d ++ CRLF.
Definition chunks_text (ds : list (list byte)) : list byte := mjoin (chunk_text <$> ds) ++ bytes_of "0" ++ CRLF ++ CRLF.
(** A chunk is not empty and its size is an unsigned int. *)
Definition chunk_ok (d : list byte) : Prop := d ≠ [] ∧ Zlen d < 2 ^ 32.

Lemma chunks_text_cons d ds : chunks_text (d :: ds) = print_hex (Zlen d) ++ CRLF ++ d ++ CRLF ++ chunks_text ds.
Proof. unfold chunks_text. cbn [fmap list_fmap mjoin list_join]. unfold chunk_text at 1. by rewrite <- !app_assoc. Qed.

Lemma Zlen_mjoin_cons (d : list byte) ds : Zlen (mjoin (d :: ds)) = Zlen d + Zlen (mjoin ds).
Proof. apply Zlen_app. Qed.

Lemma print_hex_line n : no_lf (print_hex n) = true ∧ c_str (print_hex n) = print_hex n ∧ print_hex n ≠ [].
Proof.
  destruct (hex_digits 8 n [] eq_refl) as [Hd Hne]. split; [|split; [|done]].
  - revert Hd. apply all_in_sub. by apply class_sub.
  - apply c_str_whole. revert Hd. apply all_in_sub. by apply class_sub.
Qed.

Lemma hex_len fuel n acc : Zlen (hex_loop fuel n acc) <= Z.of_nat fuel + 1 + Zlen acc.
Proof.
  revert n acc. induction fuel as [|fuel IH]; intros n acc; cbn [hex_loop]; [rewrite Zlen_cons; lia|]. destruct (n <? 16); [rewrite Zlen_cons; lia|].
  specialize (IH (n / 16) (z2b (if n mod 16 <? 10 then 48 + n mod 16 else 87 + n mod 16) :: acc)). rewrite Zlen_cons in IH. lia.
Qed.
Lemma print_hex_len n : Zlen (print_hex n) <= 9.
Proof. apply (hex_len 8 n []). Qed.

Section chunks.
Context `{EvbufferSpec B, !EvbufferText B, !EvbufferTextSpec B, !EvbufferLines B, !EvbufferLinesSpec B} `{Malloc} (inet_pton6 : list byte → bool).
Context (Hrel : evb_reliable) (Hmem : reliable).
Context (max_headers max_body : Z) (server : evhttp) (r1 : evhttp_request B) (line : list byte) (hs : list evkeyval) (chunks : list (list byte)) (extra : list byte).
Context (Hchunks : Forall chunk_ok chunks) (Htotal : Zlen (mjoin chunks) <= max_body) (Hmax : max_body < 2 ^ 64) (Hshort : Zlen (chunks_text chunks ++ extra) + 2 <= evb_limit).
Context (Hroom : Zlen line + counted hs + 1 <= max_headers < 2 ^ 64).

(** What the bytes are from a chunk on: the message, and what follows it. *)
Definition stream (ds : list (list byte)) : list byte := chunks_text ds ++ extra.

Lemma stream_cons d ds : stream (d :: ds) = print_hex (Zlen d) ++ CRLF ++ d ++ CRLF ++ stream ds.
Proof. unfold stream. rewrite chunks_text_cons. by rewrite <- !app_assoc. Qed.

(** The chunks so far: collected in the buffer, or given to the user's callback, which does not cancel. *)
Definition got (ds : list (list byte)) (acts : list http_action) (req : evhttp_request B) : Prop :=
  match r_chunk_cb r1 with
  | None => acts = [] ∧ holding (r_input_buffer req) (mjoin ds)
  | Some cb => (∀ d, cb d = false) ∧ acts = ChunkCallback <$> ds ∧ holding (r_input_buffer req) []
  end.

Record chunk_request (size ntoread : Z) (ds : list (list byte)) (acts : list http_action) (req : evhttp_request B) : Prop := {
  ck_chunked : r_chunked req = true;
  ck_size : r_body_size req = size;
  ck_ntoread : r_ntoread req = ntoread;
  ck_got : got ds acts req;
  ck_line : same_line req r1;
  ck_headers : r_input_headers req = hs;
  ck_count : r_headers_size req = Zlen line + counted hs;
  ck_cb : r_chunk_cb req = r_chunk_cb r1 }.

(** Where reading may stop: in the line of a size, with the end of the chunk before, or in a chunk. *)
Inductive chunk_waits (acts : list http_action) (req : evhttp_request B) (buf : B) (part rest : list byte) : Prop :=
  | in_size pre ds ds' : pre = [] ∨ pre = CRLF → chunks = ds ++ ds' → holding buf part → part ++ rest = pre ++ stream ds' →
      chunk_request (Zlen (mjoin ds)) (-1) ds acts req → chunk_waits acts req buf part rest
  | in_data d ds ds' : chunks = ds ++ d :: ds' → holding buf part → part ++ rest = d ++ CRLF ++ stream ds' →
      chunk_request (Zlen (mjoin ds) + Zlen d) (Zlen d) ds acts req → chunk_waits acts req buf part rest.

Definition chunks_read (acts : list http_action) (req : evhttp_request B) (buf : B) (rest : list byte) : Prop :=
  ∃ part, holding buf part ∧ part ++ rest = CRLF ++ extra ∧ chunk_request (Zlen (mjoin chunks)) 0 chunks acts req.

Lemma sizes ds ds' : chunks = ds ++ ds' → Zlen (mjoin ds) + Zlen (mjoin ds') <= max_body.
Proof. intros E. rewrite E, join_app, Zlen_app in Htotal. done. Qed.

Lemma set_body_request size size' n n' ds acts req : chunk_request size n ds acts req → chunk_request size' n' ds acts (set_body (r_input_buffer req) size' n' (r_chunked req) req).
Proof. intros [C1 C2 C3 C4 C5 C6 C7 C8]. by split. Qed.

(** One more chunk is there. *)
Lemma chunk_complete prev size d ds acts req ib : chunk_request size (Zlen d) ds (prev ++ acts) req → holding ib (match r_chunk_cb r1 with None => mjoin ds ++ d | Some _ => d end) →
  let req := set_body ib (r_body_size req) (-1) (r_chunked req) req in
  match r_chunk_cb req with
  | None => chunk_request size (-1) (ds ++ [d]) (prev ++ acts) req
  | Some cb => let '(called, cancelled, req') := call_chunk_cb cb req in cancelled = false ∧ chunk_request size (-1) (ds ++ [d]) (prev ++ acts ++ called) req'
  end.
Proof.
  intros [C1 C2 C3 C4 C5 C6 C7 C8] Hib. cbn [set_body r_chunk_cb]. rewrite C8. unfold got in C4. destruct (r_chunk_cb r1) as [cb|] eqn:Ecb.
  - destruct C4 as (G1 & G2 & G3). destruct (call_chunk_cb_spec cb (set_body ib (r_body_size req) (-1) (r_chunked req) req) d Hib) as (ib' & -> & Hib').
    split; [done|]. split; [done|done|done| |done|done|done|by rewrite Ecb]. unfold got. rewrite Ecb. split; [done|]. split; [by rewrite app_assoc, G2, fmap_app|done].
  - destruct C4 as [G1 G2]. split; [done|done|done| |done|done|done|by rewrite Ecb]. unfold got. rewrite Ecb. split; [done|]. cbn. rewrite join_app. cbn. by rewrite app_nil_r.
Qed.

(** A round of the loop either ends it or goes on with fewer bytes. *)
Definition loop_ends (prev : list http_action) (rest : list byte) (o : outcome (message_read_status * list http_action * evhttp_request B * B)) : Prop :=
  ∃ status acts req buf, o = Val (status, acts, req, buf) ∧
    ((status = MORE_DATA_EXPECTED ∧ rest ≠ [] ∧ ∃ part, chunk_waits (prev ++ acts) req buf part rest) ∨ (status = ALL_DATA_READ ∧ chunks_read (prev ++ acts) req buf rest)).
Definition round (fuel : nat) (prev acts : list http_action) (req : evhttp_request B) (buf : B) (part rest : list byte) : Prop :=
  loop_ends prev rest (chunked_loop (S fuel) max_body req buf acts) ∨
  ∃ acts' req' buf' part', chunked_loop (S fuel) max_body req buf acts = chunked_loop fuel max_body req' buf' acts' ∧ chunk_waits (prev ++ acts') req' buf' part' rest ∧ Zlen part' < Zlen part ∧ short part'.

Lemma loop_body buf part : holding buf part → part ≠ [] → short part →
  (evbuffer_get_length buf =? 0) = false ∧ (evbuffer_get_length buf >? EV_SSIZE_MAX) = false.
Proof.
  intros Hb Hne Hsh. rewrite (length_at _ _ Hb). unfold short in Hsh. change evb_limit with (2 ^ 61) in Hsh. split.
  - by destruct (Z.eqb_spec (Zlen part) 0) as [Hz%Zlen_0_inv|].
  - destruct (Z.gtb_spec (Zlen part) EV_SSIZE_MAX) as [Hbig|_]; [unfold EV_SSIZE_MAX in Hbig; lia|done].
Qed.

Lemma chunk_is_ok ds d ds' : chunks = ds ++ d :: ds' → chunk_ok d.
Proof. intros Hc. rewrite Hc in Hchunks. by apply Forall_app in Hchunks as [_ [Hd _]%Forall_cons]. Qed.

Lemma short_tail l x : short (l ++ CRLF ++ x) → short x ∧ Zlen x < Zlen (l ++ CRLF ++ x).
Proof. unfold short. rewrite !Zlen_app. change (Zlen CRLF) with 2. pose proof (Zlen_nonneg l). lia. Qed.

(** What the line of a size says and what is behind it. *)
Lemma size_line ds ds' : chunks = ds ++ ds' → ∃ n t, stream ds' = print_hex n ++ CRLF ++ t ∧ 0 <= n < 2 ^ 32 ∧ Zlen (mjoin ds) + n <= max_body ∧
  match ds' with [] => n = 0 ∧ t = CRLF ++ extra | d :: ds'' => n = Zlen d ∧ n ≠ 0 ∧ t = d ++ CRLF ++ stream ds'' end.
Proof.
  intros Hc. pose proof (sizes _ _ Hc) as Hsz. destruct ds' as [|d ds''].
  - exists 0, (CRLF ++ extra). change (Zlen (mjoin (@nil (list byte)))) with 0 in Hsz. repeat (split; [done || lia|]). done.
  - destruct (chunk_is_ok _ _ _ Hc) as [Hne Hd]. pose proof (Zlen_nonneg d). rewrite Zlen_mjoin_cons in Hsz. pose proof (Zlen_nonneg (mjoin ds'')).
    exists (Zlen d), (d ++ CRLF ++ stream ds''). split; [apply stream_cons|]. split; [lia|]. split; [lia|]. split; [done|]. split; [|done]. by intros Hz%Zlen_0_inv.
Qed.

Lemma round_size fuel prev acts req buf part rest ds ds' : chunks = ds ++ ds' → holding buf part → part ≠ [] → short part → part ++ rest = stream ds' →
  chunk_request (Zlen (mjoin ds)) (-1) ds (prev ++ acts) req → round fuel prev acts req buf part rest.
Proof.
  intros Hc Hb Hne Hsh E Hr. unfold round. cbn [chunked_loop]. destruct (loop_body buf part Hb Hne Hsh) as [-> ->]. rewrite (ck_ntoread _ _ _ _ _ Hr). change (-1 <? 0) with true. cbv iota.
  destruct (size_line _ _ Hc) as (n & t & Et & Hn & Hle & Hnt). destruct (print_hex_line n) as (Hn1 & Hn2 & Hn3). pose proof (Zlen_nonneg (mjoin ds)). rewrite Et in E. destruct (line_prefix part rest _ _ Hn1 E) as [(x' & -> & E')|(Hnl & _ & Hr0)].
  2: { left. rewrite (read_line_part Hrel _ _ Hb Hnl Hsh). eexists _, _, _, _. split; [done|]. left. split; [done|]. split; [done|]. exists part. apply (in_size _ _ _ _ _ [] ds ds'); [by left|done|done|by rewrite Et|done]. }
  destruct (read_line_at Hrel _ _ _ Hb Hn1 Hsh) as (b' & -> & Hb'). rewrite Hn2. destruct (print_hex n) as [|q qs] eqn:Eq; [done|]. rewrite <- Eq in *.
  rewrite print_hex_scan by lia. cbn [head0]. change (isc NUL NUL) with true. cbn [negb andb orb]. destruct (Z.ltb_spec n 0); [lia|]. rewrite (ck_size _ _ _ _ _ Hr).
  assert (u64 (EV_SIZE_MAX - Zlen (mjoin ds)) = EV_SIZE_MAX - Zlen (mjoin ds)) as -> by (apply Z.mod_small; unfold EV_SIZE_MAX; lia).
  destruct (Z.gtb_spec n (EV_SIZE_MAX - Zlen (mjoin ds))) as [Hg|_]; [unfold EV_SIZE_MAX in Hg; lia|]. assert (u64 (Zlen (mjoin ds) + n) = Zlen (mjoin ds) + n) as -> by (apply Z.mod_small; lia).
  destruct (Z.gtb_spec (Zlen (mjoin ds) + n) max_body); [lia|]. destruct (short_tail _ _ Hsh) as [Hsx Hlx]. destruct ds' as [|d ds''].
  - left. destruct Hnt as [-> ->]. cbn [Z.eqb]. eexists _, _, _, _. split; [done|]. right. split; [done|]. exists x'. split; [done|]. split; [done|]. rewrite app_nil_r in Hc. subst ds. rewrite Z.add_0_r. by eapply set_body_request.
  - right. destruct Hnt as (-> & Hn0 & ->). destruct (Z.eqb_spec (Zlen d) 0) as [|_]; [done|]. eexists _, _, _, x'. split; [done|]. split; [|done]. apply (in_data _ _ _ _ _ d ds ds''); [done|done|done|]. by eapply set_body_request.
Qed.

Lemma round_crlf fuel prev acts req buf part rest ds ds' : chunks = ds ++ ds' → holding buf part → part ≠ [] → short part → part ++ rest = CRLF ++ stream ds' →
  chunk_request (Zlen (mjoin ds)) (-1) ds (prev ++ acts) req → round fuel prev acts req buf part rest.
Proof.
  intros Hc Hb Hne Hsh E Hr. unfold round. cbn [chunked_loop]. destruct (loop_body buf part Hb Hne Hsh) as [-> ->]. rewrite (ck_ntoread _ _ _ _ _ Hr). change (-1 <? 0) with true. cbv iota.
  destruct (line_prefix part rest [] _ eq_refl E) as [(x' & -> & E')|(Hnl & _ & Hr0)].
  - right. destruct (read_line_at Hrel buf [] x' Hb eq_refl Hsh) as (b' & -> & Hb'). cbn [c_str break fst]. destruct (short_tail [] x' Hsh) as [Hsx Hlx]. eexists _, _, _, x'. split; [done|]. split; [|done]. apply (in_size _ _ _ _ _ [] ds ds'); [by left|done|done|done|done].
  - left. rewrite (read_line_part Hrel _ _ Hb Hnl Hsh). eexists _, _, _, _. split; [done|]. left. split; [done|]. split; [done|]. exists part. apply (in_size _ _ _ _ _ CRLF ds ds'); [by right|done|done|done|done].
Qed.

Lemma round_data fuel prev acts req buf part rest d ds ds' : chunks = ds ++ d :: ds' → holding buf part → part ≠ [] → short part → part ++ rest = d ++ CRLF ++ stream ds' →
  chunk_request (Zlen (mjoin ds) + Zlen d) (Zlen d) ds (prev ++ acts) req → round fuel prev acts req buf part rest.
Proof.
  intros Hc Hb Hne Hsh E Hr. unfold round. cbn [chunked_loop]. destruct (loop_body buf part Hb Hne Hsh) as [-> ->]. rewrite (ck_ntoread _ _ _ _ _ Hr), (length_at _ _ Hb). destruct (chunk_is_ok _ _ _ Hc) as [Hdne Hdl].
  pose proof (Zlen_nonneg d). assert (Zlen d ≠ 0) by (intros Hz%Zlen_0_inv; done). destruct (Z.ltb_spec (Zlen d) 0); [lia|]. destruct (Z.gtb_spec (Zlen d) EV_SSIZE_MAX) as [Hbig|_]; [unfold EV_SSIZE_MAX in Hbig; lia|].
  destruct (Z.gtb_spec (Zlen d) 0); [|lia]. cbn [andb]. pose proof (f_equal Zlen E) as El. rewrite !Zlen_app in El. destruct (Z.ltb_spec (Zlen part) (Zlen d)) as [Hlt|Hge].
  { left. eexists _, _, _, _. split; [done|]. left. split; [done|]. split; [|exists part; by apply (in_data _ _ _ _ _ d ds ds')].
    intros ->. rewrite app_nil_r in E. change (Zlen (@nil byte)) with 0 in El. change (Zlen CRLF) with 2 in El. pose proof (Zlen_nonneg (stream ds')). lia. }
  right. assert (∃ x', part = d ++ x' ∧ x' ++ rest = CRLF ++ stream ds') as (x' & -> & E').
  { apply app_eq_app in E as (k & [[-> E]|[E E2]]); [by exists k|]. destruct k as [|y k]; [exists []; rewrite app_nil_r in *; done|]. rewrite E, Zlen_app, Zlen_cons in Hge. pose proof (Zlen_nonneg k). lia. }
  assert (holding (r_input_buffer req) (match r_chunk_cb r1 with None => mjoin ds | Some _ => [] end)) as Hib.
  { pose proof (ck_got _ _ _ _ _ Hr) as Hg. unfold got in Hg. destruct (r_chunk_cb r1); [by destruct Hg as (_ & _ & ?)|by destruct Hg]. }
  destruct (holding_remove Hrel buf (r_input_buffer req) d x' _ Hb Hib Hsh) as (r & buf' & ib & -> & Hb' & Hib'). set (req1 := set_body ib (r_body_size req) (-1) (r_chunked req) req).
  pose proof (chunk_complete prev _ d ds acts req ib Hr) as Hcc. cbv zeta in Hcc. fold req1 in Hcc. specialize (Hcc ltac:(by destruct (r_chunk_cb r1))).
  assert (Zlen (mjoin ds) + Zlen d = Zlen (mjoin (ds ++ [d]))) as Hsum by (rewrite join_app, Zlen_app; cbn; by rewrite app_nil_r). rewrite Hsum in Hcc.
  assert (chunks = (ds ++ [d]) ++ ds') as Hc' by (by rewrite <- app_assoc). assert (Zlen x' < Zlen (d ++ x') ∧ short x') as Hsx by (unfold short in *; rewrite Zlen_app in *; lia).
  destruct (r_chunk_cb req1) as [cb|] eqn:Ecb.
  - destruct (call_chunk_cb cb req1) as [[called cancelled] req2]. destruct Hcc as [-> Hcc]. eexists _, _, _, x'. split; [done|]. split; [|done]. apply (in_size _ _ _ _ _ CRLF (ds ++ [d]) ds'); [by right|done|done|done|done].
  - eexists _, _, _, x'. split; [done|]. split; [|done]. apply (in_size _ _ _ _ _ CRLF (ds ++ [d]) ds'); [by right|done|done|done|done].
Qed.

Lemma stream_ne ds : stream ds ≠ [].
Proof. unfold stream, chunks_text. intros [[_ E]%app_eq_nil _]%app_eq_nil. done. Qed.

Lemma chunk_loop_spec fuel prev acts req buf part rest : chunk_waits (prev ++ acts) req buf part rest → short part → (Z.to_nat (Zlen part) < fuel)%nat →
  loop_ends prev rest (chunked_loop fuel max_body req buf acts).
Proof.
  revert acts req buf part. induction fuel as [|fuel IH]; intros acts req buf part Hw Hsh Hf; [lia|]. destruct part as [|p part].
  - cbn [chunked_loop]. assert (holding buf []) as Hb by (by destruct Hw). rewrite (length_at _ _ Hb). change (Zlen (@nil byte) =? 0) with true. cbv iota.
    eexists _, _, _, _. split; [done|]. left. split; [done|]. split; [|by exists []]. destruct Hw as [pre ds ds' _ _ _ E _|d ds ds' Hc _ E _]; cbn [app] in E; rewrite E; intros [_ E']%app_eq_nil; [by apply stream_ne in E'|done].
  - assert (round fuel prev acts req buf (p :: part) rest) as [Hend|(acts' & req' & buf' & part' & -> & Hw' & Hlt & Hsh')]; [|done|].
    + destruct Hw as [pre ds ds' [-> | ->] Hc Hb E Hr|d ds ds' Hc Hb E Hr]; [by eapply round_size|by eapply round_crlf|by eapply round_data].
    + apply (IH _ _ _ part'); [done|done|]. pose proof (Zlen_nonneg part'). lia.
Qed.
(** ** On the connection *)

Definition chunks_wait (acts : list http_action) (c : evhttp_connection B) (rest : list byte) : Prop :=
  limits max_headers max_body server c ∧
  ((hc_state c = EVCON_READING_BODY ∧ ∃ part, chunk_waits acts (hc_req c) (hc_input c) part rest) ∨ (hc_state c = EVCON_READING_TRAILER ∧ chunks_read acts (hc_req c) (hc_input c) rest)).

(** The calls that are made for the chunks and what is in the buffer behind them. *)
Definition chunk_calls : list http_action := match r_chunk_cb r1 with None => [] | Some _ => ChunkCallback <$> chunks end.
Definition chunk_data : list byte := match r_chunk_cb r1 with None => mjoin chunks | Some _ => [] end.
Definition chunks_received (acts : list http_action) (c : evhttp_connection B) : Prop :=
  acts = chunk_calls ++ [ConnectionDone] ∧ holding (hc_input c) extra ∧ holding (r_input_buffer (hc_req c)) chunk_data ∧ r_input_headers (hc_req c) = hs ∧ same_line (hc_req c) r1.

Lemma got_all acts req : got chunks acts req → acts = chunk_calls ∧ holding (r_input_buffer req) chunk_data.
Proof. unfold got, chunk_calls, chunk_data. destruct (r_chunk_cb r1); [intros (_ & ? & ?)|intros [? ?]]; done. Qed.

Lemma trailer_read prev acts c rest : pending extra rest → limits max_headers max_body server c → hc_state c = EVCON_READING_TRAILER → chunks_read (prev ++ acts) (hc_req c) (hc_input c) rest →
  ∃ acts' c', evhttp_read_trailer acts c = Val (acts', c') ∧ reached chunks_wait chunks_received (prev ++ acts') c' rest.
Proof.
  intros Hpd Hlim Hst (x & Hx & E & Hr). unfold evhttp_read_trailer. pose proof (Zlen_nonneg extra). pose proof (Zlen_nonneg (chunks_text chunks)). rewrite Zlen_app in Hshort. rewrite (proj1 Hlim). pose proof (counted_nonneg hs). pose proof (Zlen_nonneg line). pose proof (Zlen_nonneg rest). pose proof (f_equal Zlen E) as El. rewrite !Zlen_app in El. change (Zlen CRLF) with 2 in El.
  assert (∀ req : evhttp_request B, set_input_headers (r_input_headers req ++ []) (r_headers_size req + counted []) req = req) as Hid.
  { intros req. rewrite app_nil_r. change (counted []) with 0. rewrite Z.add_0_r. apply set_input_headers_id. }
  destruct (parse_headers_spec Hrel Hmem [] x rest extra (hc_req c) (hc_input c) max_headers) as [(x' & buf & -> & Hb & E')|(hs1 & hs2 & part & buf & E1 & -> & Hb & E' & Hne)].
  - done.
  - done.
  - done.
  - unfold short. lia.
  - rewrite (ck_count _ _ _ _ _ Hr). lia.
  - rewrite (ck_count _ _ _ _ _ Hr). change (Zlen (headers_text [])) with 0. lia.
  - rewrite Hid. cbn [mbind outcome_bind]. eexists _, _. split; [done|]. assert (rest = []) as -> by (apply (f_equal Zlen) in E'; rewrite Zlen_app in E'; pose proof (Zlen_nonneg x'); destruct Hpd; [done|lia]). rewrite app_nil_r in E'. subst x'. destruct (got_all _ _ (ck_got _ _ _ _ _ Hr)) as [Ea Hg].
    cbn [reached]. split; [by rewrite app_assoc, Ea|]. split; [done|]. split; [done|]. split; [apply Hr|apply Hr].
  - symmetry in E1. apply app_eq_nil in E1 as [-> ->]. rewrite Hid. cbn [mbind outcome_bind]. eexists _, _. split; [done|]. destruct rest as [|y rest]; [done|]. cbn [reached]. split; [done|]. right. split; [done|].
    by exists part.
Qed.

(** Where a chunk is still open the request goes on waiting. *)
Lemma read_body_waits acts req buf part rest : chunk_waits acts req buf part rest →
  r_chunked req = true ∧ r_body_size req <= max_body ∧ r_ntoread req ≠ 0 ∧ (r_chunk_cb req = None ∨ holding (r_input_buffer req) []).
Proof.
  intros Hw. assert (∃ size n ds, size <= max_body ∧ n ≠ 0 ∧ chunk_request size n ds acts req) as (size & n & ds & Hs & Hn & Hr).
  { destruct Hw as [pre ds ds' _ Hc _ _ Hr|d ds ds' Hc _ _ Hr]; pose proof (sizes _ _ Hc) as Hsz.
    - exists (Zlen (mjoin ds)), (-1), ds. pose proof (Zlen_nonneg (mjoin ds')). split; [lia|done].
    - rewrite Zlen_mjoin_cons in Hsz. pose proof (Zlen_nonneg (mjoin ds')). exists (Zlen (mjoin ds) + Zlen d), (Zlen d), ds. split; [lia|]. split; [|done]. destruct (chunk_is_ok _ _ _ Hc) as [Hne _]. by intros Hz%Zlen_0_inv. }
  destruct Hr as [C1 C2 C3 C4 C5 C6 C7 C8]. split; [done|]. split; [by rewrite C2|]. split; [by rewrite C3|]. rewrite C8. unfold got in C4. destruct (r_chunk_cb r1); [right; by destruct C4 as (_ & _ & ?)|by left].
Qed.

Lemma body_end_waits acts c part rest acts0 : hc_max_body_size c = max_body → chunk_waits acts0 (hc_req c) (hc_input c) part rest → read_body_end acts c = (acts, set_reading true (set_message (hc_req c) (hc_input c) c)).
Proof.
  intros Hm Hw. destruct (read_body_waits _ _ _ _ _ Hw) as (C1 & C2 & C3 & C4). unfold read_body_end. rewrite Hm, C1. destruct (Z.gtb_spec (r_body_size (hc_req c)) max_body); [lia|]. cbn [orb negb andb].
  assert ((match r_chunk_cb (hc_req c) with Some cb => if evbuffer_get_length (r_input_buffer (hc_req c)) >? 0 then let '(called, cancelled, req) := call_chunk_cb cb (hc_req c) in (acts ++ called, cancelled, req) else (acts, false, hc_req c) | None => (acts, false, hc_req c) end) = (acts, false, hc_req c)) as ->.
  { destruct (r_chunk_cb (hc_req c)) as [cb|]; [|done]. destruct C4 as [|C4]; [done|]. by rewrite (length_at _ _ C4). }
  by destruct (Z.eqb_spec (r_ntoread (hc_req c)) 0).
Qed.

Lemma chunked_read prev c x rest : pending extra rest → limits max_headers max_body server c → hc_state c = EVCON_READING_BODY → chunk_waits prev (hc_req c) (hc_input c) x rest → short x →
  ∃ acts c', evhttp_read_body c = Val (acts, c') ∧ reached chunks_wait chunks_received (prev ++ acts) c' rest.
Proof.
  intros Hpd Hlim Hst Hw Hsh. pose proof Hlim as (_ & Hm & _). assert (holding (hc_input c) x) as Hx by (by destruct Hw). unfold evhttp_read_body. rewrite (proj1 (read_body_waits _ _ _ _ _ Hw)). unfold evhttp_handle_chunked_read. rewrite (length_at _ _ Hx), Hm. rewrite <- (app_nil_r prev) in Hw.
  destruct (chunk_loop_spec (S (S (Z.to_nat (Zlen x)))) prev [] (hc_req c) (hc_input c) x rest Hw Hsh ltac:(lia)) as (status & acts & req & buf & -> & [(-> & Hne & part & Hw')|[-> Hr]]); cbn [mbind outcome_bind].
  - rewrite (body_end_waits _ _ part rest (prev ++ acts)) by done. eexists _, _. split; [done|]. destruct rest as [|y rest]; [done|]. cbn [reached]. split; [done|]. left. split; [done|]. by exists part.
  - by apply trailer_read.
Qed.

Lemma waiting_short acts req buf part rest : chunk_waits acts req buf part rest → Zlen part + Zlen rest <= evb_limit.
Proof.
  assert (∀ ds ds', chunks = ds ++ ds' → Zlen (stream ds') + 2 <= evb_limit) as Hle.
  { intros ds ds' Hc. revert Hshort. rewrite Hc. unfold stream, chunks_text. rewrite fmap_app, join_app, !Zlen_app. pose proof (Zlen_nonneg (mjoin (chunk_text <$> ds))). lia. }
  intros [pre ds ds' Hpre Hc _ E _|d ds ds' Hc _ E _]; apply (f_equal Zlen) in E; rewrite !Zlen_app in E.
  - specialize (Hle _ _ Hc). destruct Hpre as [-> | ->]; [change (Zlen (@nil byte)) with 0 in E|change (Zlen CRLF) with 2 in E]; lia.
  - specialize (Hle _ _ Hc). rewrite stream_cons, !Zlen_app in Hle. change (Zlen CRLF) with 2 in *. pose proof (Zlen_nonneg (print_hex (Zlen d))). lia.
Qed.

(** More bytes behind the ones that are there. *)
Lemma waits_more acts req buf buf' part piece rest : holding buf' (part ++ piece) → chunk_waits acts req buf part (piece ++ rest) → chunk_waits acts req buf' (part ++ piece) rest.
Proof.
  intros Hb [pre ds ds' Hpre Hc _ E Hr|d ds ds' Hc _ E Hr]; rewrite app_assoc in E.
  - by apply (in_size _ _ _ _ _ pre ds ds').
  - by apply (in_data _ _ _ _ _ d ds ds').
Qed.

Lemma chunked_step acts c piece rest : piece ≠ [] → pending extra rest → chunks_wait acts c (piece ++ rest) →
  ∃ acts' c', evhttp_read_cb inet_pton6 (arrive piece c) = Val (acts', c') ∧ reached chunks_wait chunks_received (acts ++ acts') c' rest.
Proof.
  intros Hne Hpd [Hlim [(Hst & part & Hw)|(Hst & part & Hb & E & Hr)]].
  - pose proof (waiting_short _ _ _ _ _ Hw) as Hsh. rewrite Zlen_app in Hsh. pose proof (Zlen_nonneg part). pose proof (Zlen_nonneg rest). pose proof (Zlen_nonneg piece). assert (holding (hc_input c) part) as Hb by (by destruct Hw).
    destruct (read_cb_finds inet_pton6 Hrel c part piece Hb) as (c1 & Hst1 & Hreq1 & Hm1 & Hb1 & Hv1 & _ & Ha & ->); [unfold short; lia|]. rewrite Hst.
    apply (chunked_read acts c1 (part ++ piece) rest); [done| |congruence| |unfold short; rewrite Zlen_app; lia]. { destruct Hlim as (? & ? & ?). split; [congruence|]. split; congruence. }
    rewrite Hreq1. by apply (waits_more _ _ (hc_input c)).
  - pose proof (f_equal Zlen E) as El. rewrite !Zlen_app in El. change (Zlen CRLF) with 2 in El. pose proof (Zlen_nonneg part). pose proof (Zlen_nonneg rest).
    destruct (read_cb_finds inet_pton6 Hrel c part piece Hb) as (c1 & Hst1 & Hreq1 & Hm1 & Hb1 & Hv1 & _ & Ha & ->); [rewrite Zlen_app in Hshort; pose proof (Zlen_nonneg (chunks_text chunks)); unfold short; lia|]. rewrite Hst.
    apply trailer_read; [done| |congruence|]. { destruct Hlim as (? & ? & ?). split; [congruence|]. split; congruence. }
    rewrite app_nil_r, Hreq1. exists (part ++ piece). split; [done|]. by rewrite <- app_assoc.
Qed.

(** The headers announce chunks. *)
Definition chunks_announced : Prop :=
  header_value hs "Transfer-Encoding" = Some (bytes_of "chunked") ∧
  match r_kind r1 with
  | EVHTTP_REQUEST => evhttp_method_may_have_body (r_type r1) = true ∧ header_value hs "Expect" = None
  | EVHTTP_RESPONSE => r_response_code r1 ≠ 100 ∧ evhttp_response_needs_body r1 = true
  end.

Lemma chunked_start c x rest : chunks_announced → holding (r_input_buffer r1) [] → r_body_size r1 = 0 → (∀ cb d, r_chunk_cb r1 = Some cb → cb d = false) → pending extra rest →
  complete_headers max_headers max_body server r1 line hs c → holding (hc_input c) x → x ++ rest = stream chunks →
  ∃ acts c', headers_done c = Val (acts, c') ∧ reached chunks_wait chunks_received acts c' rest.
Proof.
  intros [Hte Hk] Hbuf Hsize Hcb Hpd (Hlim & Hst & Hreq) Hx E. set (rh := set_input_headers hs (Zlen line + counted hs) r1) in *. set (rc := set_body (r_input_buffer r1) 0 (-1) true rh).
  set (c1 := set_message rc (hc_input c) (set_state EVCON_READING_BODY c)).
  assert (∃ acts c', evhttp_read_body c1 = Val (acts, c') ∧ reached chunks_wait chunks_received acts c' rest) as Hread.
  { apply (chunked_read [] c1 x rest); [done|done|done| |].
    - apply (in_size _ _ _ _ _ [] [] chunks); [by left|done|done|done|]. split; [done|done|done| |by repeat (split; [done|])|done|done|done].
      unfold got. destruct (r_chunk_cb r1) as [cb|] eqn:Ecb; [|done]. split; [intros d; by apply (Hcb cb)|done].
    - unfold short. apply (f_equal Zlen) in E. rewrite Zlen_app in E. pose proof (Zlen_nonneg rest). fold (stream chunks) in Hshort. lia. }
  assert (evhttp_get_body c = (let '(error, c) := check_expect c1 in match error with Some code => Val ([SendError code], c) | None => evhttp_read_body c end)) as Hget.
  { unfold evhttp_get_body. rewrite Hreq. change (r_input_headers rh) with hs. unfold header_value in Hte. rewrite Hte. change (evutil_ascii_strcasecmp (bytes_of "chunked") (bytes_of "chunked") =? 0) with true. cbn [orb negb andb].
    change (r_kind rh) with (r_kind r1). change (r_type rh) with (r_type r1). change (r_body_size rh) with (r_body_size r1). rewrite Hsize. destruct (r_kind r1); [|by rewrite bool_decide_false]. destruct Hk as [-> _]. by rewrite andb_false_r. }
  unfold headers_done. rewrite Hreq. change (r_kind rh) with (r_kind r1). change (r_response_code rh) with (r_response_code r1). change (evhttp_response_needs_body rh) with (evhttp_response_needs_body r1).
  rewrite Hget. unfold check_expect. change (r_kind (hc_req c1)) with (r_kind r1). change (r_input_headers (hc_req c1)) with hs. destruct (r_kind r1) eqn:Ek.
  - destruct Hk as [_ Hex]. unfold header_value in Hex. rewrite Hex. by destruct (bool_decide _ && _).
  - destruct Hk as [Hcode Hnb]. destruct (Z.eqb_spec (r_response_code r1) 100); [done|]. by rewrite Hnb, bool_decide_false.
Qed.
End chunks.
