(* ===== verification/HttpMsgProps.v ===== *)
(** Messages survive the way from one end to the other. *)

From S2P Require Import Prelude EvFlags EvbufferApi BufChain BufRefine Chars PrintApi LineApi Uri UriProps HttpText HttpProps HttpVhost HttpMsg HttpRead HttpParse HttpTrip HttpBody HttpSend HttpChunks.

Section roundtrips.
Context `{EvbufferSpec B, !EvbufferText B, !EvbufferTextSpec B, !EvbufferLines B, !EvbufferLinesSpec B} `{Malloc} (inet_pton6 : list byte → bool).
Context (Hrel : evb_reliable) (Hmem : reliable).

(** A connection that has begun to read. *)
Record listening (kind : evhttp_request_kind) (c : evhttp_connection B) : Prop := {
  li_state : hc_state c = EVCON_READING_FIRSTLINE;
  li_input : holding (hc_input c) [];
  li_kind : r_kind (hc_req c) = kind;
  li_headers : r_input_headers (hc_req c) = [];
  li_buffer : holding (r_input_buffer (hc_req c)) [];
  li_size : r_body_size (hc_req c) = 0;
  li_chunked : r_chunked (hc_req c) = false;
  li_max_headers : hc_max_headers_size c < 2 ^ 64;
  li_max_body : hc_max_body_size c < 2 ^ 64 }.

(** A message and the bytes that follow it on the connection arrive in pieces: none is empty, and the
    message is complete with the last one and not before. *)
Definition in_pieces (wire extra : list byte) (pieces : list (list byte)) : Prop :=
  mjoin pieces = wire ++ extra ∧ Forall (λ p, p ≠ []) pieces ∧ ∀ before last, pieces = before ++ [last] → Zlen (mjoin before) < Zlen wire.

Lemma pieces_cut extra pieces w : Zlen (mjoin pieces) = w + Zlen extra → Forall (λ p, p ≠ []) pieces → (∀ before last, pieces = before ++ [last] → Zlen (mjoin before) < w) → cuts extra pieces.
Proof.
  intros E Hne. revert w E. induction Hne as [|p ps Hp Hps IH]; intros w E Hb; [done|]. rewrite Zlen_mjoin_cons in E. split; [done|]. split.
  - destruct ps as [|last before _] using rev_ind; [by left|]. right. specialize (Hb (p :: before) last eq_refl). rewrite Zlen_mjoin_cons in Hb. pose proof (Zlen_nonneg (mjoin before)). lia.
  - apply (IH (w - Zlen p)); [lia|]. intros before last ->. specialize (Hb (p :: before) last eq_refl). rewrite Zlen_mjoin_cons in Hb. lia.
Qed.

Lemma in_pieces_cuts wire extra pieces : wire ≠ [] → in_pieces wire extra pieces → cuts extra pieces ∧ pieces ≠ [].
Proof.
  intros Hw (E & Hne & Hb). split; [apply (pieces_cut extra pieces (Zlen wire)); [by rewrite E, Zlen_app|done|done]|]. intros ->. cbn in E. symmetry in E. by apply app_eq_nil in E as [? _].
Qed.

Lemma head_text_ne line hs t : head_text line hs ++ t ≠ [].
Proof. unfold head_text. by destruct line. Qed.

(** A message whose length is known, in any pieces, and what follows it. *)
Lemma fixed_message kind c r1 line hs body extra pieces : listening kind c → r_chunk_cb (hc_req c) = None →
  message_ok inet_pton6 (hc_max_headers_size c) (hc_http_server c) (hc_req c) r1 line hs (body ++ extra) → Zlen body <= hc_max_body_size c →
  holding (r_input_buffer r1) [] → r_body_size r1 = 0 → r_chunked r1 = false → r_chunk_cb r1 = None → body_known r1 hs body →
  in_pieces (head_text line hs ++ body) extra pieces → ∃ c', deliver inet_pton6 pieces c = Val ([ConnectionDone], c') ∧ received r1 hs body extra [ConnectionDone] c'.
Proof.
  intros [L1 L2 L3 L4 L5 L6 L7 L8 L9] Hcb Hok Hmax Hb1 Hb2 Hb3 Hb4 Hk Hp.
  assert (short (body ++ extra)) as Hsh. { pose proof (mo_short _ _ _ _ _ _ _ _ Hok). pose proof (Zlen_nonneg (head_text line hs)). unfold short. lia. }
  destruct (in_pieces_cuts _ _ _ (head_text_ne line hs body) Hp) as [Hcut Hne].
  destruct (deliver_all inet_pton6 Hrel Hmem (hc_max_headers_size c) (hc_max_body_size c) (hc_http_server c) (hc_req c) r1 line hs (body ++ extra)
    (fixed_waits (hc_max_headers_size c) (hc_max_body_size c) (hc_http_server c) r1 line hs body extra) (received r1 hs body extra) extra Hok) with (pieces := pieces) (acts := @nil http_action) (c := c) as (acts & c' & E & Hf).
  - intros c0 x rest Hpd Hc Hx Ex. by apply (fixed_start Hrel _ _ _ r1 line hs body extra Hmax Hsh Hb1 Hb2 Hb3 Hb4 c0 x rest).
  - intros acts c0 piece rest Hpc Hpd Hw. by apply (fixed_step inet_pton6 Hrel _ _ _ r1 line hs body extra Hmax Hsh Hb1 Hb4).
  - done.
  - done.
  - rewrite (proj1 Hp). apply (waits_line _ _ _ _ _ _ _ _ _ _ []); [done|done|done|done|]. cbn [app]. by rewrite <- app_assoc.
  - cbn [app] in Hf. pose proof Hf as [-> _]. exists c'. done.
Qed.

(** The methods that evhttp_make_header sends so that the other end knows the length of the body. *)
Definition carries (type : evhttp_cmd_type) (body : list byte) : Prop :=
  match type with
  | EVHTTP_REQ_POST | EVHTTP_REQ_PUT => True
  | EVHTTP_REQ_GET | EVHTTP_REQ_HEAD | EVHTTP_REQ_DELETE | EVHTTP_REQ_OPTIONS | EVHTTP_REQ_TRACE => body = []
  | EVHTTP_REQ_CONNECT | EVHTTP_REQ_PATCH | EVHTTP_REQ_UNKNOWN => False
  end.

Definition uri_char (c : byte) : bool := negb (isc " "%byte c || is_newline c || isc NUL c).

Lemma request_headers_length hs type n : Forall sendable hs → lacks hs "Content-Length" → lacks hs "Transfer-Encoding" → lacks hs "Expect" → (type = EVHTTP_REQ_POST ∨ type = EVHTTP_REQ_PUT) →
  evhttp_find_header (request_headers type n hs) (bytes_of "Content-Length") = Some (print_size n) ∧ lacks (request_headers type n hs) "Transfer-Encoding" ∧ lacks (request_headers type n hs) "Expect".
Proof.
  intros Hs H1' H2' H3' Ht. unfold request_headers, lacks. rewrite bool_decide_true by done. rewrite !find_header_app.
  rewrite (removed_lacks hs "Content-Length"), (removed_lacks hs "Transfer-Encoding"), (removed_lacks hs "Expect") by done. done.
Qed.

(** C31.  A request that a client sends with evhttp_make_header arrives as the request it was, wherever its bytes are cut
    on the way and whatever bytes follow it on the connection: the server reads to its end and no
    further, so that the bytes behind it are what is left in the input, and finds the method, the URI, the
    version, the headers and the body that were sent.  This holds where memory does not fail; the method is one that the
    sender frames, POST or PUT with any body, or GET, HEAD, DELETE, OPTIONS or TRACE without one
    (CONNECT is not read and PATCH has no length); the version is 0.x or 1.x with x below 128; the URI has no blank,
    line end or NUL and parses; the headers are [sendable] and none of them is Content-Length,
    Transfer-Encoding or Expect; the server waits for a request, with no chunk callback; and the sizes are within its limits. *)
Theorem request_roundtrip now out sent (req : evhttp_request B) uri e body c :
  r_kind req = EVHTTP_REQUEST → r_uri req = Some uri → all_in uri_char uri = true → Zlen uri < 2 ^ 30 → 0 <= r_major req <= 1 → 0 <= r_minor req < 128 →
  Forall sendable (r_output_headers req) → lacks (r_output_headers req) "Content-Length" → lacks (r_output_headers req) "Transfer-Encoding" → lacks (r_output_headers req) "Expect" →
  holding (r_output_buffer req) body → carries (r_type req) body → holding out sent →
  evhttp_uri_parse_with_flags inet_pton6 uri EVHTTP_URI_NONCONFORMANT = Val (Some e) → listening EVHTTP_REQUEST c → r_chunk_cb (hc_req c) = None →
  ∃ out' req' wire, evhttp_make_header now out req = Val (out', req') ∧ holding out' (sent ++ wire) ∧
    (Zlen wire - Zlen body <= hc_max_headers_size c → Zlen body <= hc_max_body_size c → ∀ extra pieces, Zlen wire + Zlen extra <= evb_limit → in_pieces wire extra pieces →
      ∃ c', deliver inet_pton6 pieces c = Val ([ConnectionDone], c') ∧ content (hc_input c') = extra ∧
        r_type (hc_req c') = r_type req ∧ r_uri (hc_req c') = Some uri ∧ r_uri_elems (hc_req c') = Some e ∧ r_major (hc_req c') = r_major req ∧ r_minor (hc_req c') = r_minor req ∧
        r_input_headers (hc_req c') = r_output_headers req' ∧ content (r_input_buffer (hc_req c')) = body).
Proof.
  intros Hk Hu Huc Hul Hmj Hmn Hs L1 L2 L3 Hb Hcar Ho He Hc Hcb. assert (∃ m, evhttp_method (r_type req) = Some m) as [m Hm] by (destruct (r_type req); eauto; done).
  destruct (make_request_spec Hrel Hmem now out sent req m uri body Hk Hm Hu Hul Hs L1 Hb Ho) as (out' & req' & Em & Hout & Hh & Hs'). set (line := request_line m uri (r_major req) (r_minor req)) in *.
  set (hs := request_headers (r_type req) (Zlen body) (r_output_headers req)) in *. exists out', req', (head_text line hs ++ body). split; [done|]. split.
  { unfold head_text. by rewrite <- !app_assoc. }
  rewrite Zlen_app. intros Hmh Hmb extra pieces Hlim Hp. pose proof (Zlen_app body extra) as Hbe. rewrite Hh in Hs'.
  set (r1 := set_request_line (r_type req) (Some uri) (Some e) (if is_proxy (hc_http_server c) e then Z.lor (r_flags (hc_req c)) EVHTTP_PROXY_REQUEST else r_flags (hc_req c)) (set_version (r_major req) (r_minor req) (set_input_headers (r_input_headers (hc_req c)) (Zlen line) (hc_req c)))).
  assert (no_lf line = true ∧ all_in (λ c, negb (isc NUL c)) line = true) as [Hl1 Hl2].
  { unfold line, request_line, no_lf. rewrite !all_in_app. rewrite !(all_in_sub uri_char _ uri) by first [by apply class_sub | done].
    rewrite !version_class by (done || lia). by destruct (r_type req); try done; injection Hm as <-. }
  destruct (fixed_message EVHTTP_REQUEST c r1 line hs body extra pieces Hc Hcb) as (c' & E & _ & (_ & _ & Hc1) & (_ & _ & Hc2) & Hc3 & Hc4); [|done|..|done|].
  - split; [done|done|by apply sendable_ok|split; [lia|apply Hc]|lia| |apply Hc|done]. cbv zeta. rewrite (li_kind _ _ Hc).
    apply (parse_request_line_print inet_pton6 Hmem (hc_http_server c) (set_input_headers (r_input_headers (hc_req c)) (Zlen line) (hc_req c)) (r_type req) m uri); [by destruct (r_type req)|done| |done|done|done]. revert Huc. apply all_in_sub. by apply class_sub.
  - apply Hc.
  - apply Hc.
  - apply Hc.
  - done.
  - unfold body_known. change (r_kind r1) with (r_kind (hc_req c)). change (r_type r1) with (r_type req). rewrite (li_kind _ _ Hc). unfold length_given, header_value, hs.
    destruct (r_type req) eqn:Et; try done; cbn [evhttp_method_may_have_body]; (destruct (request_headers_length (r_output_headers req) (r_type req) (Zlen body) Hs L1 L2 L3) as (Q1 & Q2 & Q3); [rewrite Et; auto|rewrite Et in *; done]).
  - exists c'. split; [done|]. split; [done|]. destruct Hc4 as (_ & -> & _ & -> & -> & -> & -> & _). repeat (split; [done|]). rewrite Hh. done.
Qed.

(** The text behind a status code. *)
Definition phrase (code : Z) (reason : option (list byte)) : list byte := match reason with Some r => r | None => evhttp_response_phrase_internal code end.

Lemma status_line_chars major minor code reason : 0 <= major → 0 <= minor → 0 <= code → all_in line_char reason = true →
  no_lf (status_line major minor code reason) = true ∧ all_in (λ c, negb (isc NUL c)) (status_line major minor code reason) = true.
Proof.
  intros Hmj Hmn Hc Hr. unfold status_line, no_lf. rewrite !all_in_app. rewrite !(all_in_sub line_char _ reason) by first [by apply class_sub | done]. by rewrite !version_class, !print_int_class by done.
Qed.

(** The request of the client when it has read a status line. *)
Definition status_read (c : evhttp_connection B) (minor code : Z) (text : list byte) : evhttp_request B :=
  set_status (r_kind (hc_req c)) code (Some text) (set_version 1 minor (set_input_headers (r_input_headers (hc_req c)) (Zlen (status_line 1 minor code text)) (hc_req c))).

Lemma reply_message_ok c minor code text hs body : listening EVHTTP_RESPONSE c → 0 < code < 2 ^ 31 → 1 <= minor < 128 → all_in line_char text = true → Forall sendable hs →
  Zlen (head_text (status_line 1 minor code text) hs) <= hc_max_headers_size c → Zlen (head_text (status_line 1 minor code text) hs) + Zlen body <= evb_limit →
  message_ok inet_pton6 (hc_max_headers_size c) (hc_http_server c) (hc_req c) (status_read c minor code text) (status_line 1 minor code text) hs body.
Proof.
  intros Hc Hcode Hmn Hrc Hs Hmh Hlim. destruct (status_line_chars 1 minor code text ltac:(lia) ltac:(lia) ltac:(lia) Hrc) as [Hl1 Hl2].
  split; [done|done|by apply sendable_ok|split; [lia|apply Hc]|done| |apply Hc|done]. cbv zeta. rewrite (li_kind _ _ Hc).
  apply (parse_response_line_print Hmem (set_input_headers (r_input_headers (hc_req c)) (Zlen (status_line 1 minor code text)) (hc_req c)) 1 minor code text); lia.
Qed.

Lemma response_line_set code reason (req : evhttp_request B) : r_response_code_line (evhttp_response_code code reason req) = Some (phrase code reason).
Proof. unfold evhttp_response_code, mm_strdup. fold (phrase code reason). by rewrite Hmem. Qed.

(** C34.  A reply that a server sends with evhttp_send_reply is read by the client, wherever its bytes are cut and whatever
    bytes follow it, to its end and no further: the bytes behind it are what is left in the input, and
    the client finds the code, the phrase, the headers and the body, the length of which the server has added to the
    headers.  This holds where memory does not fail; the code is positive and not 100; the phrase has no line end or NUL; the version
    is 1.x with x from 1 to 127; the headers are [sendable] and none is Content-Length or
    Transfer-Encoding; the body is empty where the code or the method forbids one; the client waits for a response to a request of the same method, without a
    chunk callback; and the sizes are within its limits. *)
Theorem reply_roundtrip now code reason data out sent (req : evhttp_request B) body c :
  0 < code < 2 ^ 31 → code ≠ 100 → all_in line_char (phrase code reason) = true → Zlen (phrase code reason) < 2 ^ 30 → r_major req = 1 → 1 <= r_minor req < 128 →
  Forall sendable (r_output_headers req) → lacks (r_output_headers req) "Content-Length" → lacks (r_output_headers req) "Transfer-Encoding" →
  holding (r_output_buffer req) [] → holding data body → holding out sent → (evhttp_response_needs_body (evhttp_response_code code reason req) = true ∨ body = []) →
  listening EVHTTP_RESPONSE c → r_chunk_cb (hc_req c) = None → r_type (hc_req c) = r_type req →
  ∃ out' req' wire, evhttp_send_reply now code reason (Some data) out req = Val (out', req') ∧ holding out' (sent ++ wire) ∧
    (Zlen wire - Zlen body <= hc_max_headers_size c → Zlen body <= hc_max_body_size c → ∀ extra pieces, Zlen wire + Zlen extra <= evb_limit → in_pieces wire extra pieces →
      ∃ c', deliver inet_pton6 pieces c = Val ([ConnectionDone], c') ∧ content (hc_input c') = extra ∧
        r_response_code (hc_req c') = code ∧ r_response_code_line (hc_req c') = Some (phrase code reason) ∧ r_major (hc_req c') = 1 ∧ r_minor (hc_req c') = r_minor req ∧
        r_input_headers (hc_req c') = r_output_headers req' ∧ content (r_input_buffer (hc_req c')) = body).
Proof.
  intros Hcode H100 Hrc Hrl Hmj Hmn Hs L1 L2 Hob Hd Ho Hnb Hc Hcb Hty. unfold evhttp_send_reply, evhttp_send. set (req0 := evhttp_response_code code reason req) in *. pose proof (response_line_set code reason req) as Hl. fold req0 in Hl.
  set (ob := (evbuffer_add_buffer (r_output_buffer req0) data).1.2). assert (holding ob body) as Hob'.
  { unfold ob. change (r_output_buffer req0) with (r_output_buffer req). destruct (evbuffer_add_buffer (r_output_buffer req) data) as [[r o] rest] eqn:E. destruct Hob as (A1 & A2 & A3), Hd as (B1 & B2 & B3).
    destruct (EvbufferApi.add_buffer_spec _ _ _ _ _ A1 A2 B1 E) as (_ & Q1 & Q2 & Q3 & Q4 & Q5). destruct (Q3 B2) as [Q6 Q7]. split; [done|]. split; [done|]. cbn. by rewrite Q4, A3, B3. }
  set (req1 := set_output (r_output_headers req0) ob req0). assert (headers_so_far (r_output_headers req1) None None) as Hsf by done.
  destruct (make_response_spec Hrel Hmem now out sent req1 (phrase code reason) body None None eq_refl Hl Hrl Hmj ltac:(cbn; lia) Hsf Hob' Ho) as (out' & req' & Em & Hout & Hh & _).
  destruct (response_headers_spec Hmem now req1 body None None Hmj ltac:(cbn; lia) Hob' Hsf) as [S1 S2 S3]. set (hs := response_headers now req1) in *.
  change (r_major req1) with (r_major req) in Hout. change (r_minor req1) with (r_minor req) in Hout. change (r_response_code req1) with code in Hout. rewrite Hmj in Hout. set (line := status_line 1 (r_minor req) code (phrase code reason)) in *.
  exists out', req', (head_text line hs ++ body). split; [done|]. split; [unfold head_text; by rewrite <- !app_assoc|].
  rewrite Zlen_app. intros Hmh Hmb extra pieces Hlim Hp. pose proof (Zlen_app body extra) as Hbe. set (r1 := status_read c (r_minor req) code (phrase code reason)).
  destruct (fixed_message EVHTTP_RESPONSE c r1 line hs body extra pieces Hc Hcb) as (c' & E & _ & (_ & _ & Hc1) & (_ & _ & Hc2) & Hc3 & Hc4); [|done|apply Hc|apply Hc|apply Hc|done| |done|].
  - apply reply_message_ok; fold line; (done || lia).
  - unfold body_known. change (r_kind r1) with (r_kind (hc_req c)). rewrite (li_kind _ _ Hc). split; [done|]. assert (evhttp_response_needs_body r1 = evhttp_response_needs_body req0) as -> by (unfold evhttp_response_needs_body; cbn; by rewrite Hty).
    change (evhttp_response_needs_body req1) with (evhttp_response_needs_body req0) in S2. destruct (evhttp_response_needs_body req0); [done|]. by destruct Hnb.
  - exists c'. split; [done|]. split; [done|]. destruct Hc4 as (_ & _ & _ & _ & _ & -> & -> & -> & ->). repeat (split; [done|]). rewrite Hh. done.
Qed.

(** ** Replies in chunks *)

Lemma chunked_message kind c r1 line hs chunks extra pieces : listening kind c → Forall chunk_ok chunks →
  message_ok inet_pton6 (hc_max_headers_size c) (hc_http_server c) (hc_req c) r1 line hs (chunks_text chunks ++ extra) → Zlen (mjoin chunks) <= hc_max_body_size c →
  holding (r_input_buffer r1) [] → r_body_size r1 = 0 → (∀ cb d, r_chunk_cb r1 = Some cb → cb d = false) → chunks_announced r1 hs →
  in_pieces (head_text line hs ++ chunks_text chunks) extra pieces →
  ∃ c', deliver inet_pton6 pieces c = Val (chunk_calls r1 chunks ++ [ConnectionDone], c') ∧ chunks_received r1 hs chunks extra (chunk_calls r1 chunks ++ [ConnectionDone]) c'.
Proof.
  intros [L1 L2 L3 L4 L5 L6 L7 L8 L9] Hch Hok Hmax Hb1 Hb2 Hcb Hk Hp.
  assert (Zlen (chunks_text chunks ++ extra) + 2 <= evb_limit) as Hsh. { pose proof (mo_short _ _ _ _ _ _ _ _ Hok) as Hs. unfold head_text in Hs. rewrite !Zlen_app in Hs. change (Zlen CRLF) with 2 in Hs. rewrite Zlen_app. pose proof (Zlen_nonneg line). pose proof (Zlen_nonneg (headers_text hs)). lia. }
  assert (Zlen line + counted hs + 1 <= hc_max_headers_size c < 2 ^ 64) as Hroom.
  { pose proof (mo_size _ _ _ _ _ _ _ _ Hok) as Hs. unfold head_text in Hs. rewrite !Zlen_app in Hs. change (Zlen CRLF) with 2 in Hs. unfold counted. pose proof (Zlen_nonneg hs). lia. }
  destruct (in_pieces_cuts _ _ _ (head_text_ne line hs _) Hp) as [Hcut Hne].
  destruct (deliver_all inet_pton6 Hrel Hmem (hc_max_headers_size c) (hc_max_body_size c) (hc_http_server c) (hc_req c) r1 line hs (chunks_text chunks ++ extra)
    (chunks_wait (hc_max_headers_size c) (hc_max_body_size c) (hc_http_server c) r1 line hs chunks extra) (chunks_received r1 hs chunks extra) extra Hok) with (pieces := pieces) (acts := @nil http_action) (c := c) as (acts & c' & E & Hf).
  - intros c0 x rest Hpd Hc Hx Ex. by apply (chunked_start Hrel Hmem _ _ _ r1 line hs chunks extra Hch Hmax L9 Hsh Hroom c0 x rest).
  - intros acts c0 piece rest Hpc Hpd Hw. by apply (chunked_step inet_pton6 Hrel Hmem _ _ _ r1 line hs chunks extra Hch Hmax L9 Hsh Hroom).
  - done.
  - done.
  - rewrite (proj1 Hp). apply (waits_line _ _ _ _ _ _ _ _ _ _ []); [done|done|done|done|]. cbn [app]. by rewrite <- app_assoc.
  - cbn [app] in Hf. pose proof Hf as [-> _]. exists c'. done.
Qed.

(** The chunks that are sent: nothing is sent for empty data. *)
Definition sent_chunks (datas : list (list byte)) : list (list byte) := filter (λ d, d ≠ []) datas.

Lemma sent_chunks_data datas : mjoin (sent_chunks datas) = mjoin datas.
Proof. induction datas as [|d datas IH]; [done|]. unfold sent_chunks. rewrite filter_cons. case_decide as Hd; cbn; [by f_equal|]. destruct d; [done|]. discriminate Hd. Qed.

Lemma sent_chunks_ok datas : Forall (λ d, Zlen d < 2 ^ 32) datas → Forall chunk_ok (sent_chunks datas).
Proof. rewrite !Forall_forall. intros Hd d [Hne Hin]%list_elem_of_filter. split; [done|]. by apply Hd. Qed.

Lemma send_chunks_spec (req : evhttp_request B) bufs datas out s : r_chunked req = true → evhttp_response_needs_body req = true → Forall2 holding bufs datas → Forall (λ d, Zlen d < 2 ^ 32) datas → holding out s →
  holding (foldl (λ output buf, evhttp_send_reply_chunk buf output req) out bufs) (s ++ mjoin (chunk_text <$> sent_chunks datas)).
Proof.
  intros Hc Hn Hbs. revert out s. induction Hbs as [|buf d bufs datas Hb Hbs IH]; intros out s Hd Ho; cbn [foldl]; [by rewrite app_nil_r|]. apply Forall_cons in Hd as [Hd Hds].
  unfold evhttp_send_reply_chunk at 2. rewrite (length_at _ _ Hb), Hc, Hn. unfold sent_chunks. rewrite filter_cons. destruct (Z.eqb_spec (Zlen d) 0) as [Hz%Zlen_0_inv|Hz].
  - rewrite decide_False by (intros Hne; done). by apply IH.
  - assert (d ≠ []) as Hdne by (intros ->; done). rewrite decide_True by done. cbn [negb]. pose proof (Zlen_nonneg d). assert (u32 (Zlen d) = Zlen d) as -> by (apply Z.mod_small; lia).
    assert (holding (evbuffer_add_printf out (print_hex (Zlen d) ++ CRLF)).2 (s ++ print_hex (Zlen d) ++ CRLF)) as Ho1.
    { apply holding_printf; [done|done|intros [_ E]%app_eq_nil; done|]. rewrite Zlen_app. change (Zlen CRLF) with 2. pose proof (print_hex_len (Zlen d)). lia. }
    destruct (evbuffer_add_buffer _ buf) as [[r o] rest] eqn:E. destruct Ho1 as (A1 & A2 & A3), Hb as (B1 & B2 & B3). destruct (EvbufferApi.add_buffer_spec _ _ _ _ _ A1 A2 B1 E) as (_ & Q1 & Q2 & Q3 & Q4 & Q5). destruct (Q3 B2) as [Q6 Q7].
    assert (holding o (s ++ print_hex (Zlen d) ++ CRLF ++ d)) as Ho2 by (split; [done|]; split; [done|]; rewrite Q4, A3, B3; by rewrite <- !app_assoc).
    cbn [fmap list_fmap]. change (mjoin (chunk_text d :: (chunk_text <$> filter (λ d, d ≠ []) datas))) with (chunk_text d ++ mjoin (chunk_text <$> sent_chunks datas)). rewrite app_assoc. apply IH; [done|].
    pose proof (holding_add Hrel o _ CRLF Ho2 ltac:(change evb_limit with (2 ^ 61); done)) as Ho3. unfold chunk_text. by rewrite <- !app_assoc in Ho3.
Qed.

(** C32.  A reply that is sent with evhttp_send_reply_start, any number of calls of evhttp_send_reply_chunk and
    evhttp_send_reply_end goes out in chunks, and wherever the bytes are cut and whatever bytes follow them the client
    reads to the end of it and no further: the bytes behind it are what is left in the input, the code, the phrase and the headers are found,
    and the data is in the buffer of the request, or was given to the chunk callback, one call for each chunk.  This holds where memory
    does not fail; the code is positive, not 100, and allows a body with the method; the phrase has no line end or NUL; the version is 1.x with x from 1 to 127; the headers
    are [sendable] and none is Content-Length or Transfer-Encoding; each piece of data is shorter than 2^32 bytes; the client waits for a
    response to a request of the same method; a chunk callback does not cancel; and the sizes are within its limits. *)
Theorem chunked_reply_roundtrip now code reason bufs datas out sent (req : evhttp_request B) c :
  0 < code < 2 ^ 31 → code ≠ 100 → all_in line_char (phrase code reason) = true → Zlen (phrase code reason) < 2 ^ 30 → r_major req = 1 → 1 <= r_minor req < 128 →
  Forall sendable (r_output_headers req) → lacks (r_output_headers req) "Content-Length" → lacks (r_output_headers req) "Transfer-Encoding" →
  evhttp_response_needs_body (evhttp_response_code code reason req) = true → holding (r_output_buffer req) [] → Forall2 holding bufs datas → Forall (λ d, Zlen d < 2 ^ 32) datas → holding out sent →
  listening EVHTTP_RESPONSE c → (∀ cb d, r_chunk_cb (hc_req c) = Some cb → cb d = false) → r_type (hc_req c) = r_type req →
  ∃ out1 req1 head, evhttp_send_reply_start now code reason out req = Val (out1, req1) ∧
    let '(out2, req2, _) := evhttp_send_reply_end (foldl (λ output buf, evhttp_send_reply_chunk buf output req1) out1 bufs) req1 in
    let chunks := sent_chunks datas in let wire := head ++ chunks_text chunks in
    holding out2 (sent ++ wire) ∧
    (Zlen head <= hc_max_headers_size c → Zlen (mjoin datas) <= hc_max_body_size c → ∀ extra pieces, Zlen wire + Zlen extra <= evb_limit → in_pieces wire extra pieces →
      ∃ c', deliver inet_pton6 pieces c = Val (match r_chunk_cb (hc_req c) with Some _ => ChunkCallback <$> chunks | None => [] end ++ [ConnectionDone], c') ∧ content (hc_input c') = extra ∧
        r_response_code (hc_req c') = code ∧ r_response_code_line (hc_req c') = Some (phrase code reason) ∧ r_major (hc_req c') = 1 ∧ r_minor (hc_req c') = r_minor req ∧
        r_input_headers (hc_req c') = r_output_headers req1 ∧ content (r_input_buffer (hc_req c')) = match r_chunk_cb (hc_req c) with Some _ => [] | None => mjoin datas end).
Proof.
  intros Hcode H100 Hrc Hrl Hmj Hmn Hs L1 L2 Hnb Hob Hbs Hds Ho Hc Hcb Hty. unfold evhttp_send_reply_start. set (req0 := evhttp_response_code code reason req) in *. pose proof (response_line_set code reason req) as Hl. fold req0 in Hl.
  change (r_output_headers req0) with (r_output_headers req). rewrite (lacks_absent _ _ L1), Hnb. assert (REQ_VERSION_ATLEAST req0 1 1 = true) as -> by (unfold REQ_VERSION_ATLEAST; change (r_major req0) with (r_major req); change (r_minor req0) with (r_minor req); rewrite Hmj; cbn; lia).
  cbn [andb]. assert (sendable {| key := bytes_of "Transfer-Encoding"; value := bytes_of "chunked" |}) as Hte by (by apply constant_sendable). rewrite add_header_sendable by done.
  set (req1 := set_output _ _ _). assert (headers_so_far (r_output_headers req1) None (Some (bytes_of "chunked"))) as Hsf.
  { split; [apply Forall_app_2; [done|by apply Forall_singleton]|..]; cbn [req1 set_output r_output_headers]; rewrite find_header_app; [by rewrite L1|by rewrite L2]. }
  destruct (make_response_spec Hrel Hmem now out sent req1 (phrase code reason) [] None (Some (bytes_of "chunked")) eq_refl Hl Hrl Hmj ltac:(cbn; lia) Hsf Hob Ho) as (out1 & req' & Em & Hout & Hh & _ & Hq1 & Hq2 & Hq3 & Hq4).
  destruct (response_headers_spec Hmem now req1 [] None (Some (bytes_of "chunked")) Hmj ltac:(cbn; lia) Hob Hsf) as [S1 S2 S3]. set (hs := response_headers now req1) in *.
  change (r_major req1) with (r_major req) in Hout. change (r_minor req1) with (r_minor req) in Hout. change (r_response_code req1) with code in Hout. rewrite Hmj, app_nil_r in Hout. set (line := status_line 1 (r_minor req) code (phrase code reason)) in *.
  exists out1, req', (head_text line hs). split; [done|]. unfold evhttp_send_reply_end. change (r_chunked req1) with true in Hq3. rewrite Hq3.
  assert (evhttp_response_needs_body req' = true) as Hnb' by (rewrite <- Hnb; unfold evhttp_response_needs_body; by rewrite Hq2, Hq4). split.
  { pose proof (send_chunks_spec req' bufs datas out1 _ Hq3 Hnb' Hbs Hds Hout) as Hsent. pose proof (holding_add Hrel _ _ (bytes_of "0" ++ CRLF ++ CRLF) Hsent ltac:(change evb_limit with (2 ^ 61); done)) as Hend.
    unfold chunks_text, head_text. rewrite <- !app_assoc in Hend. rewrite <- !app_assoc. exact Hend. }
  rewrite Zlen_app. intros Hmh Hmb extra pieces Hlim Hp. pose proof (Zlen_app (chunks_text (sent_chunks datas)) extra) as Hbe. set (r1 := status_read c (r_minor req) code (phrase code reason)). change (r_chunk_cb (hc_req c)) with (r_chunk_cb r1) in Hcb |- *.
  destruct (chunked_message EVHTTP_RESPONSE c r1 line hs (sent_chunks datas) extra pieces Hc) as (c' & E & _ & (_ & _ & Hc1) & (_ & _ & Hc2) & Hc3 & Hc4); [by apply sent_chunks_ok| |by rewrite sent_chunks_data|apply Hc|apply Hc|done| |done|].
  - apply reply_message_ok; fold line; (done || lia).
  - split; [done|]. change (r_kind r1) with (r_kind (hc_req c)). rewrite (li_kind _ _ Hc). split; [done|]. rewrite <- Hnb. unfold evhttp_response_needs_body. cbn. by rewrite Hty.
  - exists c'. split; [rewrite E; unfold chunk_calls; done|]. split; [done|]. destruct Hc4 as (_ & _ & _ & _ & _ & -> & -> & -> & ->). repeat (split; [done|]). rewrite Hh. split; [done|]. rewrite Hc2. unfold chunk_data. by rewrite sent_chunks_data.
Qed.
End roundtrips.
