(* ===== verification/HttpSafe.v ===== *)
(** Whatever bytes arrive, what is kept of a message stays within the limits of the connection. *)

From S2P Require Import Prelude EvFlags EvbufferApi BufChain BufRefine Chars PrintApi LineApi Uri UriProps HttpText HttpProps HttpVhost HttpMsg HttpRead HttpParse HttpTrip.

(** What is kept of a request: the sizes that are counted and the buffer. *)
Definition same_body {B} (r r' : evhttp_request B) : Prop :=
  r_headers_size r = r_headers_size r' ∧ r_body_size r = r_body_size r' ∧ r_chunked r = r_chunked r' ∧ r_input_buffer r = r_input_buffer r' ∧ r_ntoread r = r_ntoread r' ∧ r_input_headers r = r_input_headers r'.

(** A computation that gives a value, or overflows an int. *)
Definition value_or_overflow {A} (Q : A → Prop) (o : outcome A) : Prop := match o with Val a => Q a | Undef e => e = Overflow end.

Lemma or_overflow_bind {A C} (P : A → Prop) (Q : C → Prop) (o : outcome A) (f : A → outcome C) : value_or_overflow P o → (∀ a, P a → value_or_overflow Q (f a)) → value_or_overflow Q (a ← o; f a).
Proof. destruct o; cbn; auto. Qed.

(** The bytes of the headers that are stored. *)
Fixpoint headers_bytes (hs : list evkeyval) : Z := match hs with [] => 0 | h :: hs => Zlen (key h) + Zlen (value h) + headers_bytes hs end.

Lemma headers_bytes_app hs hs' : headers_bytes (hs ++ hs') = headers_bytes hs + headers_bytes hs'.
Proof. induction hs as [|h hs IH]; cbn; [lia|]. rewrite IH. lia. Qed.

Section safe.
Context `{EvbufferSpec B, !EvbufferText B, !EvbufferTextSpec B, !EvbufferLines B, !EvbufferLinesSpec B} `{Malloc} (inet_pton6 : list byte → bool).
Context (Hrel : evb_reliable) (Hmem : reliable).
Implicit Types req : evhttp_request B.

(** ** The parsers *)

Lemma version_safe version req : value_or_overflow (λ '(_, req'), same_body req' req) (evhttp_parse_http_version version req).
Proof.
  unfold evhttp_parse_http_version. apply (or_overflow_bind (λ _, True)).
  - unfold scan_version. destruct (negb _); [done|]. destruct (scan_number _ _) as [[major rest]|]; [|done]. destruct (negb _); [done|]. destruct (negb _); [done|].
    destruct (scan_number _ _) as [[minor rest']|]; [|done]. destruct (negb _); [done|]. by destruct rest'.
  - intros [[major minor]|] _; [|by split]. by destruct (major >? 1).
Qed.

Lemma response_line_safe req line : value_or_overflow (λ '(_, req'), same_body req' req) (evhttp_parse_response_line req line).
Proof.
  unfold evhttp_parse_response_line. destruct (strsep _ _) as [protocol [rest|]]; [|by split]. destruct (strsep _ _) as [number readable].
  eapply or_overflow_bind; [apply version_safe|]. intros [r req'] Hs. destruct (r <? 0); [done|]. apply (or_overflow_bind (λ _, True)); [unfold atoi; destruct (scan_number _ _) as [[n ?]|]; [by destruct (fits_int n)|done]|].
  intros code _. by destruct (negb _).
Qed.

Lemma request_line_safe server req line : value_or_overflow (λ '(_, req'), same_body req' req) (evhttp_parse_request_line inet_pton6 server req line).
Proof.
  unfold evhttp_parse_request_line. destruct (strsep _ _) as [method [rest|]]; [|by split]. destruct (strsep _ _) as [uri [rest'|]]; [|by split]. destruct (strsep _ _) as [version [?|]]; [by split|].
  eapply or_overflow_bind; [apply version_safe|]. intros [r req'] Hs. destruct (r <? 0); [done|]. destruct (mm_strdup uri) as [u|]; [|done].
  apply (or_overflow_bind (λ _, True)); [destruct (evhttp_uri_parse_with_flags _ _ _) eqn:E; [done|by apply (parse_undef inet_pton6 Hmem) in E]|]. by intros [e|] _.
Qed.

Lemma cut_line_length s l r : cut_line s = Some (l, r) → Zlen l + Zlen r + 1 <= Zlen s.
Proof.
  unfold cut_line. destruct (strchr s "010"%byte) as [[l' r']|] eqn:E; [|done]. intros [= <- <-]. apply strchr_some in E as [-> _]. destruct (drop_cr_prefix l') as [t Ht]. rewrite Zlen_app, Zlen_cons.
  rewrite Ht at 2. rewrite Zlen_app. pose proof (Zlen_nonneg t). lia.
Qed.

(** Reading a line: there is none, or it and the rest are shorter. *)
Lemma read_line_any buf x : holding buf x → short x →
  evbuffer_read_line buf = (None, buf) ∨ ∃ line buf' x', evbuffer_read_line buf = (Some line, buf') ∧ holding buf' x' ∧ Zlen line + Zlen x' + 1 <= Zlen x.
Proof.
  intros (Hok & Hw & Hc) Hs. pose proof (read_line_spec buf Hok) as P. rewrite Hc in P. specialize (P Hs Hrel). destruct (cut_line x) as [[l r]|] eqn:E; [right|by left].
  destruct P as (b' & E' & Hok' & Hw' & Hc'). exists l, b', r. split; [done|]. split; [split; [done|]; split; [by apply Hw'|done]|]. by apply cut_line_length.
Qed.

(** A line adds no more bytes to the headers than it has. *)
Lemma header_line_bytes hs line hs' : parse_header_line hs line = Some hs' → headers_bytes hs' <= headers_bytes hs + Zlen line.
Proof.
  unfold parse_header_line. destruct (_ || _).
  - unfold evhttp_append_to_last_header. destruct (List.rev hs) as [|h before] eqn:E; [done|]. apply (f_equal (@List.rev evkeyval)) in E. rewrite List.rev_involutive in E. cbn [List.rev] in E. subst hs.
    destruct (malloc_ok _); [|done]. intros [= <-]. cbn [List.rev]. rewrite !headers_bytes_app. cbn. rewrite Zlen_app. lia.
  - destruct (strsep line ":"%byte) as [skey [svalue|]] eqn:E; [|done]. unfold strsep in E. destruct (strchr line ":"%byte) as [[l r]|] eqn:Es; [|done]. injection E as <- <-. apply strchr_some in Es as [-> _].
    destruct (break _ r) as [blank v] eqn:Eb. pose proof (break_app (λ c, negb (isc " "%byte c)) r) as Hb. rewrite Eb in Hb. cbn [fst snd] in *. subst r. unfold evhttp_add_header, evhttp_add_header_internal, mm_strdup.
    rewrite !Hmem. destruct (existsb _ _); [done|]. destruct (negb (evhttp_header_is_valid_value _)); [done|]. cbn. intros [= <-]. rewrite headers_bytes_app. cbn. rewrite !Zlen_app, Zlen_cons, Zlen_app. pose proof (Zlen_nonneg blank). lia.
Qed.

Lemma c_str_length line : Zlen (c_str line) <= Zlen line.
Proof. unfold c_str. rewrite <- (break_app (isc NUL) line) at 2. rewrite Zlen_app. pose proof (Zlen_nonneg (break (isc NUL) line).2). lia. Qed.

(** What parsing leaves: the headers are counted, and while more is expected the rest counts too. *)
Definition parsed (max : Z) (x : list byte) (req : evhttp_request B) (r : message_read_status * evhttp_request B * B) : Prop :=
  let '(status, req', buf') := r in ∃ headers size x', req' = set_input_headers headers size req ∧ holding buf' x' ∧ Zlen x' <= Zlen x ∧ 0 <= size ∧
  (max < 2 ^ 63 → headers_bytes headers + r_headers_size req <= headers_bytes (r_input_headers req) + size) ∧
  match status with ALL_DATA_READ => size <= max | MORE_DATA_EXPECTED => size <= max ∧ Zlen x' <= max | DATA_CORRUPTED | DATA_TOO_LONG => True | REQUEST_CANCELED => False end.

Lemma headers_loop_safe max fuel req buf x : holding buf x → short x → 0 <= r_headers_size req <= max → max < 2 ^ 64 → (Z.to_nat (Zlen x) < fuel)%nat →
  ∃ r, headers_loop fuel max req buf = Val r ∧ parsed max x req r.
Proof.
  intros Hb Hs Hsz Hmax. revert req buf x Hb Hs Hsz. induction fuel as [|fuel IH]; intros req buf x Hb Hs Hsz Hf; [lia|]. cbn [headers_loop]. pose proof (Zlen_nonneg x) as Hx0. unfold short in Hs. change evb_limit with (2 ^ 61) in Hs.
  destruct (read_line_any buf x Hb Hs) as [-> | (line & buf' & x' & -> & Hb' & Hl)].
  - eexists _. split; [done|]. exists (r_input_headers req), (r_headers_size req), x. rewrite set_input_headers_id, (length_at _ _ Hb). split; [done|]. split; [done|]. split; [lia|]. split; [lia|]. split; [lia|].
    destruct (Z.gtb_spec (u64 (r_headers_size req + Zlen x)) max) as [|Hle]; [done|]. split; [lia|]. destruct (Z_lt_le_dec (r_headers_size req + Zlen x) (2 ^ 64)) as [Hlt|]; [|lia].
    unfold u64 in Hle. rewrite Z.mod_small in Hle by lia. lia.
  - pose proof (Zlen_nonneg line). pose proof (Zlen_nonneg x'). pose proof (Z.mod_pos_bound (r_headers_size req + Zlen line) (2 ^ 64) ltac:(lia)) as Hu. fold (u64 (r_headers_size req + Zlen line)) in Hu. set (size := u64 (r_headers_size req + Zlen line)) in *.
    assert (max < 2 ^ 63 → size = r_headers_size req + Zlen line) as Hsum by (intros; apply Z.mod_small; lia).
    assert (∀ status, match status with ALL_DATA_READ => size <= max | DATA_CORRUPTED | DATA_TOO_LONG => True | _ => False end → parsed max x req (status, set_input_headers (r_input_headers req) size req, buf')) as Hend.
    { intros status Hst. exists (r_input_headers req), size, x'. split; [done|]. split; [done|]. split; [lia|]. split; [lia|]. split; [intros ?%Hsum; lia|]. by destruct status. }
    destruct (Z.gtb_spec size max); [eexists _; split; [done|]; by apply Hend|]. pose proof (c_str_length line) as Hcl. destruct (c_str line) as [|b l]; [eexists _; split; [done|]; by apply Hend|].
    destruct (parse_header_line _ _) as [headers|] eqn:Eh; [apply header_line_bytes in Eh; cbn [set_input_headers r_input_headers] in Eh|eexists _; split; [done|]; by apply Hend].
    destruct (IH (set_input_headers headers size (set_input_headers (r_input_headers req) size req)) buf' x' Hb') as (r & E & Hp); [unfold short; change evb_limit with (2 ^ 61); lia|cbn; lia|lia|].
    exists r. split; [exact E|]. destruct r as [[status req'] buf'']. destruct Hp as (hs & sz & x'' & -> & Hb'' & Hle & Hz & Hbytes & Hp). exists hs, sz, x''. split; [done|]. split; [done|]. split; [lia|]. split; [done|]. split; [|done].
    intros Hm. specialize (Hbytes Hm). specialize (Hsum Hm). cbn [set_input_headers r_input_headers r_headers_size] in Hbytes. lia.
Qed.

Lemma parse_headers_safe max req buf x : holding buf x → short x → 0 <= r_headers_size req <= max → max < 2 ^ 64 → ∃ r, evhttp_parse_headers max req buf = Val r ∧ parsed max x req r.
Proof. intros Hb Hs Hsz Hmax. unfold evhttp_parse_headers. rewrite (length_at _ _ Hb). apply headers_loop_safe; try done. lia. Qed.

(** ** Bodies *)

(** The buffer holds no more than has been counted; of a chunk, what is still to come is counted too. *)
Definition stored req : Prop :=
  0 <= r_body_size req ∧ ∃ y, holding (r_input_buffer req) y ∧ Zlen y + (if r_chunked req then Z.max 0 (r_ntoread req) else 0) <= r_body_size req.

(** The loop over chunks. *)
Definition chunks_safe (max : Z) (x : list byte) req (acts : list http_action) (r : message_read_status * list http_action * evhttp_request B * B) : Prop :=
  let '(status, acts', req', buf') := r in
  (∃ calls, acts' = acts ++ (ChunkCallback <$> calls)) ∧ stored req' ∧ r_body_size req' <= max ∧ r_chunked req' = true ∧ r_headers_size req' = r_headers_size req ∧ r_input_headers req' = r_input_headers req ∧ -1 <= r_ntoread req' ∧
  (∃ x', holding buf' x' ∧ Zlen x' <= Zlen x ∧ (status = MORE_DATA_EXPECTED → r_ntoread req' ≠ 0 ∧ (r_ntoread req' < 0 ∨ Zlen x' <= max))).

Lemma chunks_safe_step max x x1 req req1 acts calls r : Zlen x1 <= Zlen x → r_headers_size req1 = r_headers_size req → r_input_headers req1 = r_input_headers req → chunks_safe max x1 req1 (acts ++ (ChunkCallback <$> calls)) r → chunks_safe max x req acts r.
Proof.
  intros Hx Hh Hi. destruct r as [[[status acts'] req'] buf']. intros ((calls' & ->) & S1 & S2 & S3 & S4 & S5 & S6 & x' & X1 & X2 & X3). split; [exists (calls ++ calls'); by rewrite fmap_app, app_assoc|].
  repeat (split; [done || congruence|]). exists x'. split; [done|]. split; [lia|done].
Qed.

Lemma chunked_loop_safe max fuel req buf x acts : holding buf x → short x → max < 2 ^ 64 → stored req → r_body_size req <= max → r_chunked req = true → -1 <= r_ntoread req → r_ntoread req ≠ 0 → (Z.to_nat (Zlen x) < fuel)%nat →
  ∃ r, chunked_loop fuel max req buf acts = Val r ∧ chunks_safe max x req acts r.
Proof.
  intros Hb Hs Hmax. revert req buf x acts Hb Hs. induction fuel as [|fuel IH]; intros req buf x acts Hb Hs Hst Hsz Hch Hn1 Hn0 Hf; [lia|]. cbn [chunked_loop]. rewrite (length_at _ _ Hb). pose proof (Zlen_nonneg x) as Hx0. pose proof Hst as (Hbs & y & Hy & Hle). rewrite Hch in Hle.
  assert (∀ status, (status = MORE_DATA_EXPECTED → r_ntoread req < 0 ∨ Zlen x <= max) → chunks_safe max x req acts (status, acts, req, buf)) as Hstop.
  { intros status Hm. split; [exists []; by rewrite app_nil_r|]. repeat (split; [done|]). exists x. split; [done|]. split; [lia|]. intros Es. split; [done|by apply Hm]. }
  destruct (Z.eqb_spec (Zlen x) 0) as [|Hxne]; [eexists _; split; [done|]; apply Hstop; lia|]. destruct (Z.gtb_spec (Zlen x) EV_SSIZE_MAX); [eexists _; split; [done|]; by apply Hstop|].
  destruct (Z.ltb_spec (r_ntoread req) 0) as [Hneg|Hpos].
  - destruct (read_line_any buf x Hb Hs) as [-> | (line & buf' & x' & -> & Hb' & Hl)]; [eexists _; split; [done|]; apply Hstop; auto|]. pose proof (Zlen_nonneg line). pose proof (Zlen_nonneg x'). assert (short x') as Hs' by (unfold short in *; lia).
    assert (∀ status, status ≠ MORE_DATA_EXPECTED → chunks_safe max x req acts (status, acts, req, buf')) as Hstop'.
    { intros status Hm. split; [exists []; by rewrite app_nil_r|]. repeat (split; [done|]). exists x'. split; [done|]. split; [lia|done]. }
    destruct (c_str line) as [|b p]; [destruct (IH req buf' x' acts Hb' Hs' Hst Hsz Hch Hn1 Hn0 ltac:(lia)) as (r & E & Hr); exists r; split; [done|]; apply (chunks_safe_step max x x' req req acts []); [lia|done|done|by rewrite app_nil_r]|].
    destruct (evutil_strtoll (b :: p) 16) as [n endp]. destruct (_ || _) eqn:Eb; [eexists _; split; [done|]; by apply Hstop'|]. apply orb_false_iff in Eb as [_ Eb]. apply Z.ltb_ge in Eb.
    assert (u64 (EV_SIZE_MAX - r_body_size req) = EV_SIZE_MAX - r_body_size req) as -> by (apply Z.mod_small; unfold EV_SIZE_MAX; lia). destruct (Z.gtb_spec n (EV_SIZE_MAX - r_body_size req)) as [|Hg]; [eexists _; split; [done|]; by apply Hstop'|].
    unfold EV_SIZE_MAX in Hg. assert (u64 (r_body_size req + n) = r_body_size req + n) as -> by (apply Z.mod_small; lia). destruct (Z.gtb_spec (r_body_size req + n) max); [eexists _; split; [done|]; by apply Hstop'|].
    set (req1 := set_body _ _ _ _ _). assert (stored req1) as Hst1. { split; [cbn; lia|]. exists y. split; [done|]. cbn. rewrite Hch. lia. }
    destruct (Z.eqb_spec n 0) as [->|Hn].
    + eexists _. split; [done|]. split; [exists []; by rewrite app_nil_r|]. repeat (split; [done|]). exists x'. split; [done|]. split; [lia|done].
    + destruct (IH req1 buf' x' acts Hb' Hs' Hst1) as (r & E & Hr); [cbn; lia|done|cbn; lia|done|lia|]. exists r. split; [done|]. apply (chunks_safe_step max x x' req req1 acts []); [lia|done|done|by rewrite app_nil_r].
  - destruct (Z.gtb_spec (r_ntoread req) EV_SSIZE_MAX); [eexists _; split; [done|]; by apply Hstop|]. destruct (Z.gtb_spec (r_ntoread req) 0); [|lia]. cbn [andb]. pose proof (Zlen_nonneg y). destruct (Z.ltb_spec (Zlen x) (r_ntoread req)) as [Hlt|Hge]; [eexists _; split; [done|]; apply Hstop; lia|].
    rewrite <- (ztake_zdrop (r_ntoread req) x) in Hb, Hs. assert (Zlen (ztake (r_ntoread req) x) = r_ntoread req) as Ht by (rewrite Zlen_ztake; lia). destruct (holding_remove Hrel buf (r_input_buffer req) _ _ y Hb Hy Hs) as (r0 & buf' & ib & E & Hb' & Hib). rewrite Ht in E. rewrite E. clear E.
    set (req1 := set_body _ _ _ _ _). assert (stored req1) as Hst1. { split; [done|]. eexists. split; [exact Hib|]. cbn. rewrite Hch, Zlen_app. lia. }
    set (x' := zdrop (r_ntoread req) x) in *. assert (Zlen x' = Zlen x - r_ntoread req) as Hx' by (unfold x'; rewrite Zlen_zdrop; lia). assert (short x') as Hs' by (by apply short_app_r in Hs). change (r_chunk_cb req1) with (r_chunk_cb req). destruct (r_chunk_cb req) as [cb|].
    + destruct (call_chunk_cb_spec cb req1 _ Hib) as (ib' & -> & Hib'). set (req2 := set_body _ _ _ _ _). assert (stored req2) as Hst2. { split; [done|]. exists []. split; [done|]. cbn. rewrite Hch. cbn. done. }
      destruct (cb _).
      * eexists _. split; [done|]. split; [by eexists [_]|]. repeat (split; [done|]). exists x'. split; [done|]. split; [lia|done].
      * destruct (IH req2 buf' x' (acts ++ [ChunkCallback (y ++ ztake (r_ntoread req) x)]) Hb' Hs' Hst2) as (r & E & Hr); [done|done|done|done|lia|]. exists r. split; [done|]. apply (chunks_safe_step max x x' req req2 acts [y ++ ztake (r_ntoread req) x]); [lia|done|done|done].
    + destruct (IH req1 buf' x' acts Hb' Hs' Hst1) as (r & E & Hr); [done|done|done|done|lia|]. exists r. split; [done|]. apply (chunks_safe_step max x x' req req1 acts []); [lia|done|done|by rewrite app_nil_r].
Qed.

(** ** The connection *)

(** Nothing that is kept of the message exceeds the limits.  The headers that are stored are those that have been
    counted, and [base] bytes of headers from before; a limit of 2^63 bytes or more counts as none. *)
Record within (base : Z) (c : evhttp_connection B) : Prop := {
  wi_max_headers : hc_max_headers_size c < 2 ^ 64;
  wi_max_body : hc_max_body_size c < 2 ^ 64;
  wi_input : ∃ x, holding (hc_input c) x ∧ short x;
  wi_headers : 0 <= r_headers_size (hc_req c) <= hc_max_headers_size c;
  wi_stored : stored (hc_req c);
  wi_size : r_body_size (hc_req c) <= hc_max_body_size c;
  wi_kept : hc_max_headers_size c < 2 ^ 63 → headers_bytes (r_input_headers (hc_req c)) <= base + r_headers_size (hc_req c) }.

Definition phase (base : Z) (c : evhttp_connection B) : Prop :=
  let req := hc_req c in
  match hc_state c with
  | EVCON_READING_FIRSTLINE => r_body_size req = 0 ∧ r_chunked req = false ∧ (hc_max_headers_size c < 2 ^ 63 → headers_bytes (r_input_headers req) <= base)
  | EVCON_READING_HEADERS => r_body_size req = 0 ∧ r_chunked req = false
  | EVCON_READING_BODY => -1 <= r_ntoread req ∧ if r_chunked req then r_ntoread req ≠ 0 else r_body_size req + r_ntoread req < 2 ^ 64
  | EVCON_READING_TRAILER => True
  | EVCON_DISCONNECTED | EVCON_CONNECTING | EVCON_IDLE | EVCON_WRITING => False
  end.

(** When a callback has not scheduled itself again, the bytes it has left fit into the limits, but for the line of the size of a chunk. *)
Definition room (c : evhttp_connection B) : Prop :=
  hc_read_more c = false → (hc_state c = EVCON_READING_BODY ∧ r_chunked (hc_req c) = true ∧ r_ntoread (hc_req c) < 0) ∨
  Zlen (content (hc_input c)) <= Z.max (hc_max_headers_size c) (hc_max_body_size c).

Definition reading (base : Z) (c : evhttp_connection B) : Prop := within base c ∧ phase base c ∧ room c.

(** A response with the code 100 has been read, and another one is waited for. *)
Definition continued (c : evhttp_connection B) : Prop := r_kind (hc_req c) = EVHTTP_RESPONSE ∧ r_response_code (hc_req c) = 100 ∧ hc_state c = EVCON_READING_FIRSTLINE.

(** The actions that end the reading of a message. *)
Definition stops (a : http_action) : bool := match a with ChunkCallback _ | ConnectionReset => false | _ => true end.

(** A callback waits for more, or it ends: what is handed on then is within the limits.  The headers of a response with the
    code 100 are kept with those of the next one. *)
Definition goes_on (base : Z) (r : list http_action * evhttp_connection B) : Prop :=
  let '(acts, c) := r in ∃ calls,
    (acts = ChunkCallback <$> calls ∧ (reading base c ∨ (continued c ∧ reading (base + hc_max_headers_size c) c))) ∨
    (∃ last, acts = (ChunkCallback <$> calls) ++ [last] ∧ stops last = true ∧ (last = ConnectionDone → within base c)).

Lemma goes_on_stop base calls last c : stops last = true → (last = ConnectionDone → within base c) → goes_on base ((ChunkCallback <$> calls) ++ [last], c).
Proof. intros Hs Hw. exists calls. right. by exists last. Qed.

Lemma goes_on_wait base calls c : within base c → phase base c → room c → goes_on base (ChunkCallback <$> calls, c).
Proof. intros Hw Hp Hr. exists calls. left. split; [done|]. by left. Qed.

(** The same but for the headers and the input. *)
Lemma within_parsed base headers size x buf c : within base c → holding buf x → short x → 0 <= size <= hc_max_headers_size c →
  (hc_max_headers_size c < 2 ^ 63 → headers_bytes headers + r_headers_size (hc_req c) <= headers_bytes (r_input_headers (hc_req c)) + size) → within base (set_message (set_input_headers headers size (hc_req c)) buf c).
Proof. intros [W1 W2 W3 W4 W5 W6 W7] Hb Hs Hz Hk. split; try done; [by exists x|]. intros Hm. specialize (W7 Hm). specialize (Hk Hm). cbn. lia. Qed.

(** Nor do the state, the output and what is enabled matter. *)
Lemma within_flags base state output on more c : within base c → within base (con_update state (hc_input c) output on more (hc_req c) c).
Proof. by intros [W1 W2 W3 W4 W5 W6 W7]. Qed.

Lemma read_trailer_safe base calls c : within base c → hc_state c = EVCON_READING_TRAILER → value_or_overflow (goes_on base) (evhttp_read_trailer (ChunkCallback <$> calls) c).
Proof.
  intros Hw Hst. destruct (wi_input _ _ Hw) as (x & Hx & Hs). unfold evhttp_read_trailer. destruct (parse_headers_safe _ (hc_req c) _ x Hx Hs (wi_headers _ _ Hw) (wi_max_headers _ _ Hw)) as ([[status req] buf] & -> & headers & size & x' & -> & Hb & Hle & Hz & Hk & Hstat).
  cbn [mbind outcome_bind value_or_overflow]. assert (short x') as Hs' by (unfold short in *; lia). destruct status; [| | |done|].
  - apply goes_on_stop; [done|]. intros _. by apply within_flags, (within_parsed base headers size x').
  - destruct Hstat as [Hm Hx']. apply goes_on_wait; [by apply within_flags, (within_parsed base headers size x')| |].
    + unfold phase. cbn. by rewrite Hst.
    + intros _. right. cbn. destruct Hb as (_ & _ & ->). lia.
  - by apply goes_on_stop.
  - by apply goes_on_stop.
Qed.

(** Behind a part of the body: what has been moved may still be too much. *)
Lemma body_end_safe base calls c x : hc_max_headers_size c < 2 ^ 64 → hc_max_body_size c < 2 ^ 64 → holding (hc_input c) x → short x → 0 <= r_headers_size (hc_req c) <= hc_max_headers_size c →
  stored (hc_req c) → (hc_max_headers_size c < 2 ^ 63 → headers_bytes (r_input_headers (hc_req c)) <= base + r_headers_size (hc_req c)) → hc_state c = EVCON_READING_BODY → phase base c →
  (r_chunked (hc_req c) = true ∧ r_ntoread (hc_req c) < 0) ∨ r_ntoread (hc_req c) = 0 ∨ Zlen x <= hc_max_body_size c ∨ (r_chunked (hc_req c) = false ∧ Zlen x <= r_ntoread (hc_req c)) → goes_on base (read_body_end (ChunkCallback <$> calls) c).
Proof.
  intros Hmh Hmb Hx Hs Hh Hst Hkept Hstate Hph Hroom. unfold read_body_end. destruct (Z.gtb_spec (r_body_size (hc_req c)) (hc_max_body_size c)); [by apply goes_on_stop|]. cbn [orb].
  destruct (negb (r_chunked (hc_req c)) && (r_ntoread (hc_req c) >=? 0) && (r_ntoread (hc_req c) >? hc_max_body_size c)) eqn:Elim; [by apply goes_on_stop|].
  set (after := match r_chunk_cb (hc_req c) with Some _ => _ | None => _ end). assert (∃ calls' cancelled ib, after = (ChunkCallback <$> calls', cancelled, set_body ib (r_body_size (hc_req c)) (r_ntoread (hc_req c)) (r_chunked (hc_req c)) (hc_req c)) ∧
    stored (set_body ib (r_body_size (hc_req c)) (r_ntoread (hc_req c)) (r_chunked (hc_req c)) (hc_req c))) as (calls' & cancelled & ib & -> & Hst').
  { destruct Hst as (Hbs & y & Hy & Hle). pose proof (Zlen_nonneg y). assert (∃ calls' cancelled ib, (ChunkCallback <$> calls, false, hc_req c) = (ChunkCallback <$> calls', cancelled, set_body ib (r_body_size (hc_req c)) (r_ntoread (hc_req c)) (r_chunked (hc_req c)) (hc_req c)) ∧
      stored (set_body ib (r_body_size (hc_req c)) (r_ntoread (hc_req c)) (r_chunked (hc_req c)) (hc_req c))) as Hno by (exists calls, false, (r_input_buffer (hc_req c)); split; [by destruct (hc_req c)|]; split; [done|]; by exists y).
    unfold after. destruct (r_chunk_cb (hc_req c)) as [cb|]; [|done]. destruct (_ >? 0); [|done]. destruct (call_chunk_cb_spec cb (hc_req c) y Hy) as (ib & -> & Hib). exists (calls ++ [y]), (cb y), ib. split; [by rewrite fmap_app|].
    split; [done|]. exists []. split; [done|]. cbn [set_body r_chunked r_ntoread r_body_size]. change (Zlen (@nil byte)) with 0. destruct (r_chunked (hc_req c)); lia. }
  set (req := set_body _ _ _ _ _) in *. assert (within base (set_message req (hc_input c) c)) as Hw by (split; try done; by exists x).
  destruct cancelled; [by apply goes_on_stop|]. change (r_ntoread req) with (r_ntoread (hc_req c)). destruct (Z.eqb_spec (r_ntoread (hc_req c)) 0) as [Hz|Hnz]; [apply goes_on_stop; [done|]; intros _; by apply within_flags|].
  apply goes_on_wait; [by apply within_flags|done|]. intros _. cbn. unfold room. destruct Hx as (_ & _ & ->). destruct Hroom as [[? ?]|[?|[?|[Hc Hle]]]]; [by left|done|right; lia|right]. rewrite Hc in Elim. cbn [negb andb] in Elim.
  apply andb_false_iff in Elim as [Hn|Hn]; [destruct (Z.geb_spec (r_ntoread (hc_req c)) 0); [done|]; pose proof (Zlen_nonneg x); lia|]. destruct (Z.gtb_spec (r_ntoread (hc_req c)) (hc_max_body_size c)); [done|lia].
Qed.

Lemma read_body_safe base c : within base c → hc_state c = EVCON_READING_BODY → phase base c → value_or_overflow (goes_on base) (evhttp_read_body c).
Proof.
  intros Hw Hst Hph. pose proof Hw as [W1 W2 (x & Hx & Hs) W4 W5 W6 W7]. pose proof (Zlen_nonneg x). unfold phase in Hph. rewrite Hst in Hph. destruct Hph as [Hn1 Hph]. unfold evhttp_read_body. destruct (r_chunked (hc_req c)) eqn:Ech.
  - unfold evhttp_handle_chunked_read. rewrite (length_at _ _ Hx). destruct (chunked_loop_safe (hc_max_body_size c) (S (S (Z.to_nat (Zlen x)))) (hc_req c) (hc_input c) x [] Hx Hs W2 W5 W6 Ech Hn1 Hph ltac:(lia)) as ([[[status acts] req] buf] & -> & (calls & ->) & S1 & S2 & S3 & S4 & S4' & S5 & x' & X1 & X2 & X3).
    cbn [mbind outcome_bind app]. assert (short x') as Hs' by (unfold short in *; lia). assert (within base (set_message req buf c)) as Hw' by (split; [done|done|by exists x'|cbn; lia|done|done|cbn; by rewrite S4, S4']). destruct status.
    + apply read_trailer_safe; [by apply within_flags|done].
    + destruct (X3 eq_refl) as [Hnz Hroom]. cbn [value_or_overflow]. apply (body_end_safe base _ _ x'); [done|done|done|done|apply Hw'|done|apply Hw'|done| |].
      * unfold phase. cbn. rewrite Hst, S3. done.
      * cbn. rewrite S3. destruct Hroom; auto.
    + by apply goes_on_stop.
    + by apply goes_on_stop.
    + by apply goes_on_stop.
  - destruct W5 as (Hbs & y & Hy & Hle). rewrite Ech in Hle. unfold short in Hs. change evb_limit with (2 ^ 61) in Hs. rewrite (length_at _ _ Hx). destruct (Z.ltb_spec (r_ntoread (hc_req c)) 0) as [Hneg|Hpos].
    + destruct (Z.ltb_spec (u64 (r_body_size (hc_req c) + Zlen x)) (r_body_size (hc_req c))) as [|Hnw]; [apply (goes_on_stop base []); done|]. destruct (evbuffer_add_buffer (r_input_buffer (hc_req c)) (hc_input c)) as [[r ib] buf] eqn:E.
      pose proof Hy as (A1 & A2 & A3). pose proof Hx as (B1 & B2 & B3). destruct (EvbufferApi.add_buffer_spec _ _ _ _ _ A1 A2 B1 E) as (_ & Q1 & Q2 & Q3 & Q4 & Q5). destruct (Q3 B2) as [Q6 Q7].
      assert (u64 (r_body_size (hc_req c) + Zlen x) = r_body_size (hc_req c) + Zlen x) as Hu. { unfold u64 in *. destruct (Z_lt_le_dec (r_body_size (hc_req c) + Zlen x) (2 ^ 64)); [apply Z.mod_small; lia|]. rewrite <- (Z_mod_plus_full _ (-1)), Z.mod_small in Hnw; lia. }
      cbn [value_or_overflow]. apply (body_end_safe base [] _ []); [done|done|done|done|done| |done|done| |].
      * split; [cbn; lia|]. exists (y ++ x). split; [split; [done|]; split; [done|]; cbn; by rewrite Q4, A3, B3|]. cbn. rewrite Zlen_app. lia.
      * unfold phase. cbn. rewrite Hst, Hu. split; [done|]. pose proof (Z.mod_pos_bound (r_body_size (hc_req c) + Zlen x) (2 ^ 64) ltac:(lia)) as Hb64. unfold u64 in Hu. lia.
      * right. right. left. cbn. change (Zlen (@nil byte)) with 0. lia.
    + destruct (_ || _) eqn:Eor.
      * set (n := if Zlen x >? r_ntoread (hc_req c) then r_ntoread (hc_req c) else Zlen x). assert (0 <= n <= Zlen x ∧ n <= r_ntoread (hc_req c) ∧ (n = Zlen x ∨ n = r_ntoread (hc_req c))) as (Hn0 & Hn2 & Hn3) by (unfold n; destruct (Z.gtb_spec (Zlen x) (r_ntoread (hc_req c))); lia).
        rewrite <- (ztake_zdrop n x) in Hx. assert (Zlen (ztake n x) = n) as Ht by (rewrite Zlen_ztake; lia). destruct (holding_remove Hrel (hc_input c) (r_input_buffer (hc_req c)) _ _ y Hx Hy ltac:(rewrite ztake_zdrop; exact Hs)) as (r0 & buf & ib & E & Hb & Hib). rewrite Ht in E. rewrite E.
        assert (u64 (r_body_size (hc_req c) + n) = r_body_size (hc_req c) + n) as Hu by (apply Z.mod_small; lia). cbn [value_or_overflow]. apply (body_end_safe base [] _ (zdrop n x)); [done|done|done| |done| |done|done| |].
        -- unfold short. change evb_limit with (2 ^ 61). rewrite Zlen_zdrop. lia.
        -- split; [cbn; lia|]. eexists. split; [exact Hib|]. cbn. rewrite Zlen_app. lia.
        -- unfold phase. cbn. rewrite Hst, Hu. split; lia.
        -- cbn. rewrite Zlen_zdrop. destruct Hn3 as [->| ->]; [right; right; left; lia|right; left; lia].
      * apply orb_false_iff in Eor as [_ Hlt]. destruct (Z.geb_spec (Zlen x) (r_ntoread (hc_req c))) as [|Hlt']; [done|]. cbn [value_or_overflow]. apply (body_end_safe base [] _ x); [done|done|done|done|done| |done|done| |].
        -- split; [done|]. exists y. by rewrite Ech.
        -- unfold phase. by rewrite Hst, Ech.
        -- right. right. right. split; [done|lia].
Qed.

Lemma body_length_range req n : evhttp_get_body_length req = Some n → -1 <= n < 2 ^ 63.
Proof.
  unfold evhttp_get_body_length. destruct (evhttp_find_header _ (bytes_of "Content-Length")) as [l|].
  - destruct l as [|b l]; [by destruct (evutil_strtoll _ _)|]. unfold evutil_strtoll. destruct (scan_number 10 (b :: l)) as [[v [|? ?]]|]; [|done|done].
    destruct (Z.ltb_spec (Z.max (- 2 ^ 63) (Z.min (2 ^ 63 - 1) v)) 0); [done|]. intros [= <-]. lia.
  - destruct (evhttp_find_header _ _) as [connection|]; [destruct (negb _); [done|]|]; intros [= <-]; lia.
Qed.

Lemma check_expect_same c error c' : check_expect c = (error, c') → ∃ output, c' = con_update (hc_state c) (hc_input c) output (hc_reading c) (hc_read_more c) (hc_req c) c.
Proof.
  assert (c = con_update (hc_state c) (hc_input c) (hc_output c) (hc_reading c) (hc_read_more c) (hc_req c) c) as Hid by (by destruct c).
  unfold check_expect. destruct (_ && _); [|intros [= <- <-]; by exists (hc_output c)]. destruct (evhttp_find_header _ _) as [expect|]; [|intros [= <- <-]; by exists (hc_output c)].
  destruct (_ =? 0); [|intros [= <- <-]; by exists (hc_output c)]. destruct (_ && _); [intros [= <- <-]; by exists (hc_output c)|]. destruct (_ =? 0); intros [= <- <-]; [by eexists|by exists (hc_output c)].
Qed.

Lemma get_body_safe base c : within base c → r_body_size (hc_req c) = 0 → r_chunked (hc_req c) = false → value_or_overflow (goes_on base) (evhttp_get_body c).
Proof.
  intros Hw Hbs Hch. pose proof Hw as [W1 W2 W3 W4 (_ & y & Hy & Hle) W6 W7]. unfold evhttp_get_body. destruct (_ && _); [by apply (goes_on_stop base [])|]. set (chunked := match evhttp_find_header _ _ with Some _ => _ | None => _ end). rewrite Hch, orb_false_r, Hbs.
  destruct (if chunked then Some (-1) else evhttp_get_body_length (hc_req c)) as [n|] eqn:En; [|by apply (goes_on_stop base [])].
  assert (-1 <= n < 2 ^ 63 ∧ (chunked = true → n = -1)) as [Hn Hcn] by (destruct chunked; [by injection En as <-|]; split; [by eapply body_length_range|done]).
  set (c1 := set_message _ _ _). rewrite Hch in Hle. assert (stored (hc_req c1)) as Hst. { split; [done|]. exists y. split; [done|]. cbn. destruct chunked; [rewrite Hcn by done; cbn; lia|lia]. }
  assert (within base c1) as Hw1 by (split; (done || cbn; lia)). destruct (_ && _); [by apply (goes_on_stop base [])|]. destruct (check_expect c1) as [error c2] eqn:E. apply check_expect_same in E as [output ->]. destruct error; [by apply (goes_on_stop base [])|].
  apply read_body_safe; [by apply within_flags|done|]. unfold phase. cbn. split; [lia|]. destruct chunked; [rewrite Hcn by done; done|lia].
Qed.

Lemma within_more base base' c : base <= base' → within base c → within base' c.
Proof. intros Hle [W1 W2 W3 W4 W5 W6 W7]. split; try done. intros Hm. specialize (W7 Hm). lia. Qed.

Lemma headers_done_safe base c : within base c → hc_state c = EVCON_READING_HEADERS → phase base c → value_or_overflow (goes_on base) (headers_done c).
Proof.
  intros Hw Hst Hph. unfold phase in Hph. rewrite Hst in Hph. destruct Hph as [Hbs Hch]. unfold headers_done. destruct (r_kind (hc_req c)) eqn:Ek; [by apply get_body_safe|]. destruct (Z.eqb_spec (r_response_code (hc_req c)) 100).
  - exists []. left. split; [done|]. right. split; [done|]. pose proof (wi_headers _ _ Hw) as Hh. split; [apply within_flags, (within_more base); [cbn; lia|done]|]. split; [split; [done|]; split; [done|]; intros Hm; pose proof (wi_kept _ _ Hw Hm); cbn in *; lia|]. unfold room. cbn. intros [Hz _]%orb_false_iff. right. apply negb_false_iff, Z.eqb_eq in Hz. destruct (wi_input _ _ Hw) as (x & Hx & _). rewrite (length_at _ _ Hx) in Hz. destruct Hx as (_ & _ & ->). cbn. lia.
  - destruct (negb _); [by apply (goes_on_stop base [])|by apply get_body_safe].
Qed.

Lemma read_header_safe base c : within base c → hc_state c = EVCON_READING_HEADERS → phase base c → value_or_overflow (goes_on base) (evhttp_read_header c).
Proof.
  intros Hw Hst Hph. destruct (wi_input _ _ Hw) as (x & Hx & Hs). unfold evhttp_read_header. destruct (parse_headers_safe _ (hc_req c) _ x Hx Hs (wi_headers _ _ Hw) (wi_max_headers _ _ Hw)) as ([[status req] buf] & -> & headers & size & x' & -> & Hb & Hle & Hz & Hk & Hstat).
  cbn [mbind outcome_bind]. assert (short x') as Hs' by (unfold short in *; lia). unfold phase in Hph. rewrite Hst in Hph. destruct status; [| | |done|].
  - apply headers_done_safe; [by apply within_flags, (within_parsed base headers size x')|done|]. unfold phase. cbn. by rewrite Hst.
  - destruct Hstat as [Hm Hx']. apply (goes_on_wait base []); [by apply (within_parsed base headers size x')| |].
    + unfold phase. cbn. by rewrite Hst.
    + intros _. right. cbn. destruct Hb as (_ & _ & ->). lia.
  - by apply (goes_on_stop base []).
  - by apply (goes_on_stop base []).
Qed.

Lemma read_firstline_safe base c : within base c → hc_state c = EVCON_READING_FIRSTLINE → phase base c → value_or_overflow (goes_on base) (evhttp_read_firstline inet_pton6 c).
Proof.
  intros Hw Hst Hph. pose proof Hw as [W1 W2 (x & Hx & Hs) W4 W5 W6 W7]. unfold phase in Hph. rewrite Hst in Hph. unfold evhttp_read_firstline, evhttp_parse_firstline. destruct (read_line_any (hc_input c) x Hx Hs) as [-> | (line & buf & x' & -> & Hb & Hl)].
  - rewrite (length_at _ _ Hx). cbn [mbind outcome_bind]. destruct (Z.gtb_spec (Zlen x) (hc_max_headers_size c)); [by apply (goes_on_stop base [])|]. apply (goes_on_wait base []); [by apply within_flags| |].
    + unfold phase. cbn. by rewrite Hst.
    + intros _. right. cbn. destruct Hx as (_ & _ & ->). lia.
  - pose proof (Zlen_nonneg line). destruct (Z.gtb_spec (Zlen line) (hc_max_headers_size c)); [by apply (goes_on_stop base [])|]. cbv zeta. set (req1 := set_input_headers _ _ _).
    eapply (or_overflow_bind (λ '(status, req, buf'), status ≠ MORE_DATA_EXPECTED ∧ buf' = buf ∧ same_body req req1)).
    + eapply (or_overflow_bind (λ '(_, req), same_body req req1)); [destruct (r_kind req1); [apply request_line_safe|apply response_line_safe]|]. intros [r req] Hq. by destruct (r =? -1).
    + intros [[status req] buf'] (Hnm & -> & Q1 & Q2 & Q3 & Q4 & Q5 & Q6). change (r_input_headers req1) with (r_input_headers (hc_req c)) in Q6. change (r_body_size req1) with (r_body_size (hc_req c)) in Q2. change (r_chunked req1) with (r_chunked (hc_req c)) in Q3. change (r_headers_size req1) with (Zlen line) in Q1. change (r_input_buffer req1) with (r_input_buffer (hc_req c)) in Q4. change (r_ntoread req1) with (r_ntoread (hc_req c)) in Q5.
      assert (value_or_overflow (goes_on base) (evhttp_read_header (set_state EVCON_READING_HEADERS (set_message req buf c)))) as Hgo.
      { apply read_header_safe; [|done|]. 2: { unfold phase. cbn. rewrite Q2, Q3. destruct Hph as (? & ? & _). done. } apply within_flags. split; cbn; rewrite ?Q1, ?Q2; try done.
        - exists x'. split; [done|]. unfold short in *. lia.
        - unfold stored in *. by rewrite Q2, Q3, Q4, Q5.
        - intros Hm. rewrite Q6. destruct Hph as (_ & _ & Hph). specialize (Hph Hm). lia. }
      destruct status; [done|done|by apply (goes_on_stop base [])|done|by apply (goes_on_stop base [])].
Qed.

(** C33.  Whatever bytes arrive while a message is read, evhttp_read_cb returns, unless a number in the first line of
    the message does not fit into an int.  It calls the chunk callback any number of times and then
    waits for more or is done with the message.  All the time the names and values of the headers that are stored have no more bytes
    than are counted for the message, and the count is within max_headers_size; the body that is counted, and what of it is in memory, is within
    max_body_size; what is left in the input is within the greater of the two, but for the line of the size of a chunk, which has no limit.
    [base] is what the headers had before the first line, nothing for a new request: a client
    keeps the headers of a response with the code 100, so that each of those may add max_headers_size bytes.  The bound on the stored headers is for limits below
    2^63 (by default there is none); memory does not fail, and what is in the input is within the size of a buffer. *)
Theorem reading_bounded base c piece : reading base c → Zlen (content (hc_input c)) + Zlen piece <= evb_limit →
  value_or_overflow (goes_on base) (evhttp_read_cb inet_pton6 (arrive piece c)).
Proof.
  intros (Hw & Hph & _) Hs. pose proof Hw as [W1 W2 (x & Hx & Hxs) W4 W5 W6 W7]. pose proof (Zlen_nonneg (content (hc_input c))). pose proof (Zlen_nonneg piece). pose proof Hx as (_ & _ & Ec). rewrite Ec in *.
  destruct (read_cb_finds inet_pton6 Hrel c x piece Hx) as (c1 & Hst & Hreq & Hmh & Hmb & Hsv & _ & Ha & ->); [unfold short; lia|].
  assert (within base c1) as Hw1. { split; rewrite ?Hmh, ?Hmb, ?Hreq; try done. exists (x ++ piece). split; [done|]. unfold short. by rewrite Zlen_app. }
  assert (phase base c1) as Hph1 by (unfold phase in *; by rewrite Hst, Hreq, Hmh). unfold phase in Hph. rewrite <- Hst in Hph |- *.
  destruct (hc_state c1) eqn:E; try done; [by apply read_firstline_safe|by apply read_header_safe|by apply read_body_safe|by apply (read_trailer_safe base [])].
Qed.
End safe.
