(* ===== verification/RateLimit.v ===== *)
(** Rate limits of bufferevents: bufferevent_ratelim.c of libevent 2.0.21, with the structs of
    ratelim-internal.h and bufferevent-internal.h.

    A [World] holds the bufferevents (Bufev.v) with their rate limits, the groups, and the time
    that event_base_gettimeofday_cached returns.  Bufferevents and groups are numbers, and so
    are the addresses of configurations.  Reading and writing are handled by the same code with
    the names exchanged; [Dir] says which is meant.  Without thread support locks are no-ops and
    EVLOCK_TRY_LOCK succeeds.  [add_ok] says, as in Bufev.v, whether event_add
    succeeds for an event of a kind, [weakrand] is what _evutil_weakrand returns next. *)

From stdpp Require Import functions.
From S2P Require Import Prelude EvFlags BufChain BufevData Bufev.

Inductive Dir := DRead | DWrite.

#[global] Instance dir_eq_dec : EqDecision Dir.
Proof. solve_decision. Defined.

(** ** Token buckets *)

Record Bucket := { read_limit : Z; write_limit : Z; last_updated : Z }.

Record Cfg := {
  cfg_addr : nat;
  read_rate : Z;
  read_maximum : Z;
  write_rate : Z;
  write_maximum : Z;
  tick_timeout : timeval;
  msec_per_tick : Z }.

(** The macro LIM, and the members of a direction. *)
Definition LIM (d : Dir) (b : Bucket) : Z := match d with DRead => read_limit b | DWrite => write_limit b end.
Definition rate (d : Dir) (c : Cfg) : Z := match d with DRead => read_rate c | DWrite => write_rate c end.
Definition maximum (d : Dir) (c : Cfg) : Z := match d with DRead => read_maximum c | DWrite => write_maximum c end.
Definition set_LIM (d : Dir) (v : Z) (b : Bucket) : Bucket :=
  match d with
  | DRead => {| read_limit := v; write_limit := write_limit b; last_updated := last_updated b |}
  | DWrite => {| read_limit := read_limit b; write_limit := v; last_updated := last_updated b |}
  end.

Definition ev_token_bucket_init (bucket : Bucket) (cfg : Cfg) (current_tick : Z) (reinitialize : bool) : Bucket :=
  if reinitialize then
    {| read_limit := if read_limit bucket >? i64 (read_maximum cfg) then i64 (read_maximum cfg) else read_limit bucket;
       write_limit := if write_limit bucket >? i64 (write_maximum cfg) then i64 (write_maximum cfg) else write_limit bucket;
       last_updated := last_updated bucket |}
  else {| read_limit := i64 (read_rate cfg); write_limit := i64 (write_rate cfg); last_updated := current_tick |}.

Definition UINT_TICKS_MAX : Z := 2 ^ 31 - 1.

(** The limit after [n_ticks]; the subtraction and the product are of type size_t. *)
Definition refill (limit max rt n_ticks : Z) : Z :=
  if u64 (max - limit) / n_ticks <? rt then i64 max else i64 (limit + u64 (n_ticks * rt)).

Definition ev_token_bucket_update (bucket : Bucket) (cfg : Cfg) (current_tick : Z) : Z * Bucket :=
  let n_ticks := u32 (current_tick - last_updated bucket) in
  if (n_ticks =? 0) || (n_ticks >? UINT_TICKS_MAX) then (0, bucket)
  else
    (1, {| read_limit := refill (read_limit bucket) (read_maximum cfg) (read_rate cfg) n_ticks;
           write_limit := refill (write_limit bucket) (write_maximum cfg) (write_rate cfg) n_ticks;
           last_updated := current_tick |}).

Definition ev_token_bucket_get_tick (tv : timeval) (cfg : Cfg) : outcome Z :=
  let msec := u64 (u64 (tv_sec tv) * 1000 + Z.quot (tv_usec tv) 1000) in
  if msec_per_tick cfg =? 0 then Undef DivByZero else Val (u32 (msec / msec_per_tick cfg)).

Definition EV_RATE_LIMIT_MAX : Z := 2 ^ 63 - 1.
Definition COMMON_TIMEOUT_MICROSECONDS_MASK : Z := 0x000fffff.

(** [addr] is where mm_calloc puts the new configuration. *)
Definition ev_token_bucket_cfg_new (addr : option nat) (rd_rate rd_burst wr_rate wr_burst : Z) (tick_len : option timeval) : option Cfg :=
  let tick_len := default {| tv_sec := 1; tv_usec := 0 |} tick_len in
  if (rd_rate >? rd_burst) || (wr_rate >? wr_burst) || (rd_rate <? 1) || (wr_rate <? 1) then None
  else if (rd_rate >? EV_RATE_LIMIT_MAX) || (wr_rate >? EV_RATE_LIMIT_MAX) || (rd_burst >? EV_RATE_LIMIT_MAX) || (wr_burst >? EV_RATE_LIMIT_MAX)
  then None
  else
    match addr with
    | None => None
    | Some addr =>
        Some {| cfg_addr := addr; read_rate := rd_rate; read_maximum := rd_burst; write_rate := wr_rate; write_maximum := wr_burst;
                tick_timeout := tick_len;
                msec_per_tick := u32 (tv_sec tick_len * 1000 + Z.land (tv_usec tick_len) COMMON_TIMEOUT_MICROSECONDS_MASK / 1000) |}
    end.

(** ** Bufferevents and groups *)

(** The refill timer: not assigned, assigned and not added, or added. *)
Inductive Timer := Unassigned | Idle | Pending.

#[global] Instance timer_eq_dec : EqDecision Timer.
Proof. solve_decision. Defined.

Record Rlim := { rl_group : option nat; rl_limit : Bucket; rl_cfg : option Cfg; rl_refill : Timer }.

Record Bev := { bev : Bufferevent; rate_limiting : option Rlim }.

Record Group := {
  members : list nat;
  rate_limit : Bucket;
  rate_limit_cfg : Cfg;
  g_read_suspended : bool;
  g_write_suspended : bool;
  pending_unsuspend_read : bool;
  pending_unsuspend_write : bool;
  total_read : Z;
  total_written : Z;
  n_members : Z;
  min_share : Z;
  configured_min_share : Z;
  master_refill : Timer }.

Record World := {
  bevs : nat → Bev;
  groups : nat → Group;
  now : timeval;
  weakrand : Z }.

Definition upd_bev (i : nat) (f : Bev → Bev) (w : World) : World :=
  {| bevs := <[i := f (bevs w i)]> (bevs w); groups := groups w; now := now w; weakrand := weakrand w |}.
Definition upd_group (g : nat) (f : Group → Group) (w : World) : World :=
  {| bevs := bevs w; groups := <[g := f (groups w g)]> (groups w); now := now w; weakrand := weakrand w |}.
Definition set_bev (s : Bufferevent) (b : Bev) : Bev := {| bev := s; rate_limiting := rate_limiting b |}.
Definition set_rlim (r : option Rlim) (b : Bev) : Bev := {| bev := bev b; rate_limiting := r |}.
Definition set_limit (l : Bucket) (r : Rlim) : Rlim := {| rl_group := rl_group r; rl_limit := l; rl_cfg := rl_cfg r; rl_refill := rl_refill r |}.
Definition set_group (g : option nat) (r : Rlim) : Rlim := {| rl_group := g; rl_limit := rl_limit r; rl_cfg := rl_cfg r; rl_refill := rl_refill r |}.
Definition set_cfg (c : option Cfg) (r : Rlim) : Rlim := {| rl_group := rl_group r; rl_limit := rl_limit r; rl_cfg := c; rl_refill := rl_refill r |}.
Definition set_refill (t : Timer) (r : Rlim) : Rlim := {| rl_group := rl_group r; rl_limit := rl_limit r; rl_cfg := rl_cfg r; rl_refill := t |}.
Definition upd_rlim (i : nat) (f : Rlim → Rlim) : World → World := upd_bev i (λ b, set_rlim (f <$> rate_limiting b) b).
Definition upd_state (i : nat) (f : Bufferevent → Bufferevent) : World → World := upd_bev i (λ b, set_bev (f (bev b)) b).

Definition set_rate_limit (l : Bucket) (g : Group) : Group :=
  {| members := members g; rate_limit := l; rate_limit_cfg := rate_limit_cfg g; g_read_suspended := g_read_suspended g; g_write_suspended := g_write_suspended g;
     pending_unsuspend_read := pending_unsuspend_read g; pending_unsuspend_write := pending_unsuspend_write g; total_read := total_read g;
     total_written := total_written g; n_members := n_members g; min_share := min_share g; configured_min_share := configured_min_share g;
     master_refill := master_refill g |}.
Definition set_members (l : list nat) (n : Z) (g : Group) : Group :=
  {| members := l; rate_limit := rate_limit g; rate_limit_cfg := rate_limit_cfg g; g_read_suspended := g_read_suspended g; g_write_suspended := g_write_suspended g;
     pending_unsuspend_read := pending_unsuspend_read g; pending_unsuspend_write := pending_unsuspend_write g; total_read := total_read g;
     total_written := total_written g; n_members := n; min_share := min_share g; configured_min_share := configured_min_share g;
     master_refill := master_refill g |}.
Definition set_totals (rd wr : Z) (g : Group) : Group :=
  {| members := members g; rate_limit := rate_limit g; rate_limit_cfg := rate_limit_cfg g; g_read_suspended := g_read_suspended g; g_write_suspended := g_write_suspended g;
     pending_unsuspend_read := pending_unsuspend_read g; pending_unsuspend_write := pending_unsuspend_write g; total_read := rd;
     total_written := wr; n_members := n_members g; min_share := min_share g; configured_min_share := configured_min_share g;
     master_refill := master_refill g |}.
Definition set_shares (share configured : Z) (g : Group) : Group :=
  {| members := members g; rate_limit := rate_limit g; rate_limit_cfg := rate_limit_cfg g; g_read_suspended := g_read_suspended g; g_write_suspended := g_write_suspended g;
     pending_unsuspend_read := pending_unsuspend_read g; pending_unsuspend_write := pending_unsuspend_write g; total_read := total_read g;
     total_written := total_written g; n_members := n_members g; min_share := share; configured_min_share := configured;
     master_refill := master_refill g |}.
Definition set_group_cfg (c : Cfg) (t : Timer) (g : Group) : Group :=
  {| members := members g; rate_limit := rate_limit g; rate_limit_cfg := c; g_read_suspended := g_read_suspended g; g_write_suspended := g_write_suspended g;
     pending_unsuspend_read := pending_unsuspend_read g; pending_unsuspend_write := pending_unsuspend_write g; total_read := total_read g;
     total_written := total_written g; n_members := n_members g; min_share := min_share g; configured_min_share := configured_min_share g;
     master_refill := t |}.
(** The suspension of a direction and whether some member could not be resumed. *)
Definition set_suspended (d : Dir) (susp pending : bool) (g : Group) : Group :=
  {| members := members g; rate_limit := rate_limit g; rate_limit_cfg := rate_limit_cfg g;
     g_read_suspended := match d with DRead => susp | DWrite => g_read_suspended g end;
     g_write_suspended := match d with DRead => g_write_suspended g | DWrite => susp end;
     pending_unsuspend_read := match d with DRead => pending | DWrite => pending_unsuspend_read g end;
     pending_unsuspend_write := match d with DRead => pending_unsuspend_write g | DWrite => pending end; total_read := total_read g;
     total_written := total_written g; n_members := n_members g; min_share := min_share g; configured_min_share := configured_min_share g;
     master_refill := master_refill g |}.

(** The macro GROUP_SUSPENDED. *)
Definition GROUP_SUSPENDED (d : Dir) (g : Group) : bool := match d with DRead => g_read_suspended g | DWrite => g_write_suspended g end.
Definition pending_unsuspend (d : Dir) (g : Group) : bool := match d with DRead => pending_unsuspend_read g | DWrite => pending_unsuspend_write g end.

Definition BEV_SUSPEND_BW : Z := 0x02.
Definition BEV_SUSPEND_BW_GROUP : Z := 0x04.

Definition suspended (d : Dir) (s : Bufferevent) : Z := match d with DRead => BufevData.read_suspended s | DWrite => BufevData.write_suspended s end.
Section ratelim.
(** Whether the base can add an event of a kind. *)
Context (add_ok : Z → bool).

Definition suspend (d : Dir) (what : Z) (s : Bufferevent) : Bufferevent :=
  match d with DRead => bufferevent_suspend_read what s | DWrite => bufferevent_suspend_write what s end.
Definition unsuspend (d : Dir) (what : Z) (s : Bufferevent) : Bufferevent :=
  match d with DRead => bufferevent_unsuspend_read add_ok what s | DWrite => bufferevent_unsuspend_write add_ok what s end.
Definition other (d : Dir) : Dir := match d with DRead => DWrite | DWrite => DRead end.

(** [event_add] of the refill timer. *)
Definition add_refill (i : nat) (w : World) : Z * World :=
  if add_ok EV_TIMEOUT then (0, upd_rlim i (set_refill Pending) w) else (-1, w).
Definition del_refill (i : nat) : World → World := upd_rlim i (set_refill Idle).

(** ** Groups suspend and resume their members *)

(** [TAILQ_FOREACH] with one call for each member. *)
Definition for_members (l : list nat) (f : Bufferevent → Bufferevent) (w : World) : World := foldl (λ w i, upd_state i f w) w l.

Definition bev_group_suspend (d : Dir) (g : nat) (w : World) : World :=
  let w := upd_group g (set_suspended d true false) w in
  for_members (members (groups w g)) (suspend d BEV_SUSPEND_BW_GROUP) w.
Definition _bev_group_suspend_reading : nat → World → World := bev_group_suspend DRead.
Definition _bev_group_suspend_writing : nat → World → World := bev_group_suspend DWrite.

(** The position of the element. *)
Definition _bev_group_random_element (g : Group) (rand : Z) : outcome (option nat) :=
  if n_members g =? 0 then Val None
  else
    match members g with
    | [] => Undef AssertFail
    | _ =>
        let which := Z.to_nat (Z.rem rand (n_members g)) in
        if decide (which < length (members g))%nat then Val (Some which) else Undef NullDeref
    end.

(** The order in which the two loops of FOREACH_RANDOM_ORDER visit the members. *)
Definition FOREACH_RANDOM_ORDER (g : Group) (rand : Z) : outcome (list nat) :=
  first ← _bev_group_random_element g rand;
  Val (match first with Some k => drop k (members g) ++ take k (members g) | None => members g end).

Definition bev_group_unsuspend (d : Dir) (g : nat) (w : World) : outcome World :=
  let w := upd_group g (set_suspended d false (pending_unsuspend d (groups w g))) w in
  l ← FOREACH_RANDOM_ORDER (groups w g) (weakrand w);
  let w := for_members l (unsuspend d BEV_SUSPEND_BW_GROUP) w in
  Val (upd_group g (set_suspended d false false) w).
Definition _bev_group_unsuspend_reading : nat → World → outcome World := bev_group_unsuspend DRead.
Definition _bev_group_unsuspend_writing : nat → World → outcome World := bev_group_unsuspend DWrite.

(** ** Spending *)

Definition rlim_of (i : nat) (w : World) : option Rlim := rate_limiting (bevs w i).

Definition bufferevent_update_buckets (i : nat) (w : World) : outcome World :=
  r ← or_undef NullDeref (rlim_of i w);
  cfg ← or_undef NullDeref (rl_cfg r);
  tick ← ev_token_bucket_get_tick (now w) cfg;
  Val (if negb (tick =? last_updated (rl_limit r)) then upd_rlim i (set_limit (ev_token_bucket_update (rl_limit r) cfg tick).2) w else w).

(** The part for the group: the share of a member, which is suspended with its group. *)
Definition group_share (d : Dir) (i g : nat) (w : World) : outcome (Z * World) :=
  if GROUP_SUSPENDED d (groups w g) then Val (0, upd_state i (suspend d BEV_SUSPEND_BW_GROUP) w)
  else if n_members (groups w g) =? 0 then Undef DivByZero
  else
    let share := Z.quot (LIM d (rate_limit (groups w g))) (n_members (groups w g)) in
    Val (if share <? min_share (groups w g) then min_share (groups w g) else share, w).

Definition _bufferevent_get_rlim_max (d : Dir) (i : nat) (w : World) : outcome (Z * World) :=
  let max_so_far := match d with DRead => MAX_TO_READ_EVER | DWrite => MAX_TO_WRITE_EVER end in
  match rlim_of i w with
  | None => Val (max_so_far, w)
  | Some r =>
      '(max_so_far, w) ←
        match rl_cfg r with
        | None => Val (max_so_far, w)
        | Some _ =>
            w ← bufferevent_update_buckets i w;
            r ← or_undef NullDeref (rlim_of i w);
            Val (LIM d (rl_limit r), w)
        end;
      '(max_so_far, w) ←
        match rl_group r with
        | None => Val (max_so_far, w)
        | Some g =>
            '(share, w) ← group_share d i g w;
            Val (if max_so_far >? share then share else max_so_far, w)
        end;
      Val (if max_so_far <? 0 then 0 else max_so_far, w)
  end.
Definition _bufferevent_get_read_max : nat → World → outcome (Z * World) := _bufferevent_get_rlim_max DRead.
Definition _bufferevent_get_write_max : nat → World → outcome (Z * World) := _bufferevent_get_rlim_max DWrite.

(** The bufferevent's own bucket. *)
Definition decrement_own (d : Dir) (i : nat) (bytes : Z) (w : World) : Z * World :=
  match rlim_of i w with
  | Some r =>
      match rl_cfg r with
      | None => (0, w)
      | Some _ =>
          let limit := i64 (LIM d (rl_limit r) - bytes) in
          let w := upd_rlim i (set_limit (set_LIM d limit (rl_limit r))) w in
          if limit <=? 0 then add_refill i (upd_state i (suspend d BEV_SUSPEND_BW) w)
          else if has (suspended d (bev (bevs w i))) BEV_SUSPEND_BW then
            let w := if has (suspended (other d) (bev (bevs w i))) BEV_SUSPEND_BW then w else del_refill i w in
            (0, upd_state i (unsuspend d BEV_SUSPEND_BW) w)
          else (0, w)
      end
  | None => (0, w)
  end.

Definition add_total (d : Dir) (bytes : Z) (g : Group) : Group :=
  match d with
  | DRead => set_totals (u64 (total_read g + bytes)) (total_written g) g
  | DWrite => set_totals (total_read g) (u64 (total_written g + bytes)) g
  end.

(** The bucket of its group. *)
Definition decrement_group (d : Dir) (g : nat) (bytes : Z) (w : World) : outcome World :=
  let limit := i64 (LIM d (rate_limit (groups w g)) - bytes) in
  let w := upd_group g (λ gr, add_total d bytes (set_rate_limit (set_LIM d limit (rate_limit gr)) gr)) w in
  if limit <=? 0 then Val (bev_group_suspend d g w)
  else if GROUP_SUSPENDED d (groups w g) then bev_group_unsuspend d g w
  else Val w.

Definition bufferevent_decrement_buckets (d : Dir) (i : nat) (bytes : Z) (w : World) : outcome (Z * World) :=
  match rlim_of i w with
  | None => Val (0, w)
  | Some r =>
      let '(rc, w) := decrement_own d i bytes w in
      match rl_group r with
      | None => Val (rc, w)
      | Some g => w ← decrement_group d g bytes w; Val (rc, w)
      end
  end.
Definition _bufferevent_decrement_read_buckets : nat → Z → World → outcome (Z * World) := bufferevent_decrement_buckets DRead.
Definition _bufferevent_decrement_write_buckets : nat → Z → World → outcome (Z * World) := bufferevent_decrement_buckets DWrite.

(** ** The timers *)

(** One direction of a bufferevent whose bucket was refilled; the result says whether it needs another. *)
Definition refill_resume (d : Dir) (i : nat) (w : World) : bool * World :=
  match rlim_of i w with
  | Some r =>
      if has (suspended d (bev (bevs w i))) BEV_SUSPEND_BW then
        if LIM d (rl_limit r) >? 0 then (false, upd_state i (unsuspend d BEV_SUSPEND_BW) w) else (true, w)
      else (false, w)
  | None => (false, w)
  end.

Definition _bev_refill_callback (i : nat) (w : World) : outcome World :=
  match rlim_of i w with
  | None => Val w
  | Some r =>
      match rl_cfg r with
      | None => Val w
      | Some cfg =>
          tick ← ev_token_bucket_get_tick (now w) cfg;
          let w := upd_rlim i (set_limit (ev_token_bucket_update (rl_limit r) cfg tick).2) w in
          let '(again_r, w) := refill_resume DRead i w in
          let '(again_w, w) := refill_resume DWrite i w in
          Val (if again_r || again_w then (add_refill i w).2 else w)
      end
  end.

(** One direction of a group whose bucket was refilled. *)
Definition group_resume (d : Dir) (g : nat) (w : World) : outcome World :=
  let gr := groups w g in
  if pending_unsuspend d gr || (GROUP_SUSPENDED d gr && (LIM d (rate_limit gr) >=? min_share gr)) then bev_group_unsuspend d g w else Val w.

Definition _bev_group_refill_callback (g : nat) (w : World) : outcome World :=
  let gr := groups w g in
  tick ← ev_token_bucket_get_tick (now w) (rate_limit_cfg gr);
  let w := upd_group g (set_rate_limit (ev_token_bucket_update (rate_limit gr) (rate_limit_cfg gr) tick).2) w in
  w ← group_resume DRead g w;
  group_resume DWrite g w.

(** ** Configuring *)

Definition no_bucket : Bucket := {| read_limit := 0; write_limit := 0; last_updated := 0 |}.
(** What mm_calloc gives. *)
Definition calloc_rlim : Rlim := {| rl_group := None; rl_limit := no_bucket; rl_cfg := None; rl_refill := Unassigned |}.

(** Suspend or resume a direction by the limit; the result says whether it is suspended. *)
Definition apply_limit (d : Dir) (i : nat) (limit : Bucket) (w : World) : bool * World :=
  if LIM d limit >? 0 then (false, upd_state i (unsuspend d BEV_SUSPEND_BW) w)
  else (true, upd_state i (suspend d BEV_SUSPEND_BW) w).

(** [calloc] says whether there is memory for a bufferevent_rate_limit. *)
Definition bufferevent_set_rate_limit (calloc : bool) (i : nat) (cfg : option Cfg) (w : World) : outcome (Z * World) :=
  match cfg with
  | None =>
      match rlim_of i w with
      | None => Val (0, w)
      | Some r =>
          let w := upd_rlim i (set_cfg None) w in
          let w := upd_state i (unsuspend DRead BEV_SUSPEND_BW) w in
          let w := upd_state i (unsuspend DWrite BEV_SUSPEND_BW) w in
          Val (0, match rl_refill r with Unassigned => w | _ => del_refill i w end)
      end
  | Some cfg =>
      tick ← ev_token_bucket_get_tick (now w) cfg;
      if match rlim_of i w with Some r => match rl_cfg r with Some c => (cfg_addr c =? cfg_addr cfg)%nat | None => false end | None => false end
      then Val (0, w)
      else
        match rlim_of i w, calloc with
        | None, false => Val (-1, w)
        | o, _ =>
            let rlim := default calloc_rlim o in
            let reinit := match rl_cfg rlim with Some _ => true | None => false end in
            let limit := ev_token_bucket_init (rl_limit rlim) cfg tick reinit in
            if reinit && match rl_refill rlim with Unassigned => true | _ => false end then Undef AssertFail
            else
              let rlim := {| rl_group := rl_group rlim; rl_limit := limit; rl_cfg := Some cfg; rl_refill := Idle |} in
              let w := upd_bev i (set_rlim (Some rlim)) w in
              let '(susp_r, w) := apply_limit DRead i limit w in
              let '(susp_w, w) := apply_limit DWrite i limit w in
              Val (0, if susp_r || susp_w then (add_refill i w).2 else w)
        end
  end.

Definition bufferevent_rate_limit_group_set_min_share (share : Z) (g : Group) : Z * Group :=
  if share >? 2 ^ 63 - 1 then (-1, g)
  else
    let configured := share in
    let share := if share >? read_rate (rate_limit_cfg g) then read_rate (rate_limit_cfg g) else share in
    let share := if share >? write_rate (rate_limit_cfg g) then write_rate (rate_limit_cfg g) else share in
    (0, set_shares (i64 share) (i64 configured) g).

(** [g] is the number of the new group. *)
Definition bufferevent_rate_limit_group_new (calloc : bool) (g : nat) (cfg : Cfg) (w : World) : outcome (Z * World) :=
  tick ← ev_token_bucket_get_tick (now w) cfg;
  if negb calloc then Val (-1, w)
  else
    let gr := {| members := []; rate_limit := ev_token_bucket_init no_bucket cfg tick false; rate_limit_cfg := cfg;
                 g_read_suspended := false; g_write_suspended := false; pending_unsuspend_read := false; pending_unsuspend_write := false;
                 total_read := 0; total_written := 0; n_members := 0; min_share := 0; configured_min_share := 0;
                 master_refill := if add_ok EV_TIMEOUT then Pending else Idle |} in
    Val (0, upd_group g (λ _, (bufferevent_rate_limit_group_set_min_share 64 gr).2) w).

Definition bufferevent_rate_limit_group_set_cfg (g : nat) (cfg : option Cfg) (w : World) : Z * World :=
  match cfg with
  | None => (-1, w)
  | Some cfg =>
      let gr := groups w g in
      let same_tick := evutil_timercmp Z.eqb (tick_timeout (rate_limit_cfg gr)) (tick_timeout cfg) in
      let l := rate_limit gr in
      let l := if read_limit l >? i64 (read_maximum cfg) then set_LIM DRead (i64 (read_maximum cfg)) l else l in
      let l := if write_limit l >? i64 (write_maximum cfg) then set_LIM DWrite (i64 (write_maximum cfg)) l else l in
      let timer := if negb same_tick && add_ok EV_TIMEOUT then Pending else master_refill gr in
      let gr := set_rate_limit l (set_group_cfg cfg timer gr) in
      (0, upd_group g (λ _, (bufferevent_rate_limit_group_set_min_share (u64 (configured_min_share gr)) gr).2) w)
  end.

(** The timer of a group that does not exist is [Unassigned]. *)
Definition bufferevent_rate_limit_group_free (g : nat) (w : World) : outcome World :=
  if n_members (groups w g) =? 0 then Val (upd_group g (λ gr, set_group_cfg (rate_limit_cfg gr) Unassigned gr) w) else Undef AssertFail.

Definition bufferevent_remove_from_rate_limit_group_internal (i : nat) (unsusp : bool) (w : World) : World :=
  let w :=
    match rlim_of i w with
    | Some r =>
        match rl_group r with
        | Some g => upd_group g (λ gr, set_members (filter (.≠ i) (members gr)) (n_members gr - 1) gr) (upd_rlim i (set_group None) w)
        | None => w
        end
    | None => w
    end in
  if unsusp then upd_state i (unsuspend DWrite BEV_SUSPEND_BW_GROUP) (upd_state i (unsuspend DRead BEV_SUSPEND_BW_GROUP) w) else w.

Definition bufferevent_remove_from_rate_limit_group (i : nat) : World → World := bufferevent_remove_from_rate_limit_group_internal i true.

Definition join_group (i g : nat) (w : World) : World :=
  let w := upd_rlim i (set_group (Some g)) w in
  let w := upd_group g (λ gr, set_members (members gr ++ [i]) (n_members gr + 1) gr) w in
  let rsuspend := g_read_suspended (groups w g) in
  let wsuspend := g_write_suspended (groups w g) in
  let w := if rsuspend then upd_state i (suspend DRead BEV_SUSPEND_BW_GROUP) w else w in
  if wsuspend then upd_state i (suspend DWrite BEV_SUSPEND_BW_GROUP) w else w.

Definition bufferevent_add_to_rate_limit_group (calloc : bool) (i g : nat) (w : World) : Z * World :=
  match rlim_of i w, calloc with
  | None, false => (-1, w)
  | o, _ =>
      let rlim := default (set_refill Idle calloc_rlim) o in
      let w := upd_bev i (set_rlim (Some rlim)) w in
      if decide (rl_group rlim = Some g) then (0, w)
      else
        let w := match rl_group rlim with Some _ => bufferevent_remove_from_rate_limit_group i w | None => w end in
        (0, join_group i g w)
  end.

(** ** For the program *)

Definition EV_SSIZE_MAX : Z := 2 ^ 63 - 1.

Definition bufferevent_get_limit (d : Dir) (i : nat) (w : World) : outcome (Z * World) :=
  match rlim_of i w with
  | Some r =>
      match rl_cfg r with
      | Some _ =>
          w ← bufferevent_update_buckets i w;
          r ← or_undef NullDeref (rlim_of i w);
          Val (LIM d (rl_limit r), w)
      | None => Val (EV_SSIZE_MAX, w)
      end
  | None => Val (EV_SSIZE_MAX, w)
  end.
Definition bufferevent_get_read_limit : nat → World → outcome (Z * World) := bufferevent_get_limit DRead.
Definition bufferevent_get_write_limit : nat → World → outcome (Z * World) := bufferevent_get_limit DWrite.
Definition bufferevent_get_max_to_read : nat → World → outcome (Z * World) := _bufferevent_get_read_max.
Definition bufferevent_get_max_to_write : nat → World → outcome (Z * World) := _bufferevent_get_write_max.
Definition bufferevent_rate_limit_group_get_read_limit (g : nat) (w : World) : Z := read_limit (rate_limit (groups w g)).
Definition bufferevent_rate_limit_group_get_write_limit (g : nat) (w : World) : Z := write_limit (rate_limit (groups w g)).

Definition bufferevent_decrement_limit (d : Dir) (i : nat) (decr : Z) (w : World) : outcome (Z * World) :=
  match rlim_of i w with
  | Some r =>
      match rl_cfg r with
      | Some _ =>
          let old_limit := LIM d (rl_limit r) in
          let new_limit := i64 (old_limit - decr) in
          let w := upd_rlim i (set_limit (set_LIM d new_limit (rl_limit r))) w in
          if (old_limit >? 0) && (new_limit <=? 0) then Val (add_refill i (upd_state i (suspend d BEV_SUSPEND_BW) w))
          else if (old_limit <=? 0) && (new_limit >? 0) then
            let w := if has (suspended (other d) (bev (bevs w i))) BEV_SUSPEND_BW then w else del_refill i w in
            Val (0, upd_state i (unsuspend d BEV_SUSPEND_BW) w)
          else Val (0, w)
      | None => Undef AssertFail
      end
  | None => Undef AssertFail
  end.
Definition bufferevent_decrement_read_limit : nat → Z → World → outcome (Z * World) := bufferevent_decrement_limit DRead.
Definition bufferevent_decrement_write_limit : nat → Z → World → outcome (Z * World) := bufferevent_decrement_limit DWrite.

Definition group_decrement (d : Dir) (g : nat) (decr : Z) (w : World) : outcome World :=
  let old_limit := LIM d (rate_limit (groups w g)) in
  let new_limit := i64 (old_limit - decr) in
  let w := upd_group g (λ gr, set_rate_limit (set_LIM d new_limit (rate_limit gr)) gr) w in
  if (old_limit >? 0) && (new_limit <=? 0) then Val (bev_group_suspend d g w)
  else if (old_limit <=? 0) && (new_limit >? 0) then bev_group_unsuspend d g w
  else Val w.
Definition bufferevent_rate_limit_group_decrement_read : nat → Z → World → outcome World := group_decrement DRead.
Definition bufferevent_rate_limit_group_decrement_write : nat → Z → World → outcome World := group_decrement DWrite.

Definition bufferevent_rate_limit_group_get_totals (g : nat) (w : World) : Z * Z := (total_read (groups w g), total_written (groups w g)).
Definition bufferevent_rate_limit_group_reset_totals (g : nat) (w : World) : World := upd_group g (set_totals 0 0) w.
End ratelim.
