(* ===== verification/RateInv.v ===== *)
(** The invariant of rate limits (RateLimit.v): a bufferevent without tokens is suspended and its
    timer is running, a group's members are suspended with it, and every operation keeps that. *)

From stdpp Require Import functions.
From S2P Require Import Prelude EvFlags BufChain BufevData Bufev RateLimit.

(** ** Buckets *)

Definition cfg_ok (c : Cfg) : Prop := (∀ d, 1 <= rate d c <= maximum d c ∧ maximum d c < 2 ^ 63) ∧ 0 < msec_per_tick c.
Definition bucket_ok (c : Cfg) (b : Bucket) : Prop := (∀ d, - 2 ^ 63 <= LIM d b <= maximum d c) ∧ 0 <= last_updated b < 2 ^ 32.

(** What ev_token_bucket_cfg_new gives, if a tick takes a millisecond. *)
Lemma cfg_new_ok addr rr rb wr wb tick c : ev_token_bucket_cfg_new addr rr rb wr wb tick = Some c → msec_per_tick c ≠ 0 → cfg_ok c.
Proof.
  unfold ev_token_bucket_cfg_new. destruct (_ || _) eqn:E1; [done|]. destruct (_ || _) eqn:E2 in |- *; [done|]. destruct addr as [a|]; [|done]. intros [= <-] Hm. cbn in Hm.
  rewrite !orb_false_iff in E1, E2. unfold EV_RATE_LIMIT_MAX in E2. split; [intros []; cbn; lia|]. cbn. pose proof (Z.mod_pos_bound (tv_sec (default {| tv_sec := 1; tv_usec := 0 |} tick) * 1000 +
    Z.land (tv_usec (default {| tv_sec := 1; tv_usec := 0 |} tick)) COMMON_TIMEOUT_MICROSECONDS_MASK / 1000) (2 ^ 32) eq_refl). unfold u32 in *. lia.
Qed.

(** The refill that avoids overflow is the naive one. *)
Lemma refill_spec limit max rt n : - 2 ^ 63 <= limit <= max → 1 <= rt <= max → max < 2 ^ 63 → 0 < n < 2 ^ 31 →
  refill limit max rt n = Z.min max (limit + n * rt).
Proof.
  intros Hl Hr Hm Hn. unfold refill. rewrite (u64_small (max - limit)) by lia.
  destruct (Z.ltb_spec ((max - limit) / n) rt) as [Hlt|Hge].
  - rewrite i64_small by lia. pose proof (Z.mul_succ_div_gt (max - limit) n ltac:(lia)). nia.
  - pose proof (Z.mul_div_le (max - limit) n ltac:(lia)). assert (n * rt <= max - limit) by nia. rewrite u64_small by nia. rewrite i64_small by nia. lia.
Qed.

(** The ticks from one to another, as the code counts them: none where the time went back. *)
Definition ticks (last tick : Z) : Z := let n := u32 (tick - last) in if n <? 2 ^ 31 then n else 0.

Definition refilled (b : Bucket) (c : Cfg) (tick : Z) : Bucket :=
  {| read_limit := Z.min (read_maximum c) (read_limit b + ticks (last_updated b) tick * read_rate c);
     write_limit := Z.min (write_maximum c) (write_limit b + ticks (last_updated b) tick * write_rate c);
     last_updated := if ticks (last_updated b) tick =? 0 then last_updated b else tick |}.

Lemma ticks_range last tick : 0 <= ticks last tick < 2 ^ 31.
Proof. unfold ticks. pose proof (u32_range (tick - last)). destruct (Z.ltb_spec (u32 (tick - last)) (2 ^ 31)); lia. Qed.

Lemma LIM_refilled d b c tick : LIM d (refilled b c tick) = Z.min (maximum d c) (LIM d b + ticks (last_updated b) tick * rate d c).
Proof. by destruct d. Qed.

Lemma update_spec b c tick : cfg_ok c → bucket_ok c b → (ev_token_bucket_update b c tick).2 = refilled b c tick.
Proof.
  intros [Hc _] [Hb _]. pose proof (Hc DRead) as Hr. pose proof (Hc DWrite) as Hw. pose proof (Hb DRead) as Lr. pose proof (Hb DWrite) as Lw. cbn in Hr, Hw, Lr, Lw.
  unfold ev_token_bucket_update, refilled, ticks, UINT_TICKS_MAX. pose proof (u32_range (tick - last_updated b)). set (n := u32 (tick - last_updated b)) in *.
  destruct (Z.ltb_spec n (2 ^ 31)), (Z.eqb_spec n 0) as [->|]; try lia; cbn [orb].
  - rewrite !Z.mul_0_l, !Z.add_0_r, !Z.min_r by lia. by destruct b.
  - destruct (Z.gtb_spec n (2 ^ 31 - 1)); [lia|]. destruct (Z.eqb_spec n 0); [done|]. cbn [snd]. by rewrite !refill_spec by lia.
  - destruct (Z.gtb_spec n (2 ^ 31 - 1)); [|lia]. cbn [Z.eqb snd]. rewrite !Z.mul_0_l, !Z.add_0_r, !Z.min_r by lia. by destruct b.
Qed.

Lemma refilled_ok b c tick : cfg_ok c → bucket_ok c b → 0 <= tick < 2 ^ 32 → bucket_ok c (refilled b c tick).
Proof.
  intros [Hc _] [Hb Hl] Ht. split.
  - intros d. rewrite LIM_refilled. pose proof (Hc d). pose proof (Hb d). pose proof (ticks_range (last_updated b) tick). nia.
  - cbn. by destruct (_ =? _).
Qed.
Lemma refilled_more b c tick d : cfg_ok c → bucket_ok c b → LIM d b <= LIM d (refilled b c tick).
Proof.
  intros [Hc _] [Hb _]. rewrite LIM_refilled. pose proof (Hc d). pose proof (Hb d). pose proof (ticks_range (last_updated b) tick). nia.
Qed.

Lemma init_ok b c c' tick reinit : cfg_ok c' → (reinit = true → bucket_ok c b) → 0 <= tick < 2 ^ 32 → bucket_ok c' (ev_token_bucket_init b c' tick reinit).
Proof.
  intros [Hc _] Hb Ht. pose proof (Hc DRead) as Hr. pose proof (Hc DWrite) as Hw. cbn in Hr, Hw. unfold ev_token_bucket_init. destruct reinit.
  - destruct (Hb eq_refl) as [Hb' Hl]. pose proof (Hb' DRead). pose proof (Hb' DWrite). cbn in *. rewrite !i64_small by lia. split; [|done].
    intros []; cbn; zcase; lia.
  - rewrite !i64_small by lia. split; [|done]. intros []; cbn; lia.
Qed.

Lemma get_tick_spec tv c : cfg_ok c → ∃ t, ev_token_bucket_get_tick tv c = Val t ∧ 0 <= t < 2 ^ 32.
Proof.
  intros [_ Hm]. unfold ev_token_bucket_get_tick. destruct (Z.eqb_spec (msec_per_tick c) 0); [lia|]. eexists. split; [done|]. apply u32_range.
Qed.
Lemma LIM_set d d' v b : LIM d (set_LIM d' v b) = if decide (d = d') then v else LIM d b.
Proof. by destruct d, d'. Qed.
Lemma last_set d v b : last_updated (set_LIM d v b) = last_updated b.
Proof. by destruct d. Qed.

(** ** Suspension *)

Section inv.
Context (add_ok : Z → bool).

(** Whether a direction of a bufferevent is suspended by its own limit, or by that of its group. *)
Definition flag (q : Z) (w : World) (i : nat) (d : Dir) : bool := has (suspended d (bev (bevs w i))) q.
Definition bw : World → nat → Dir → bool := flag BEV_SUSPEND_BW.
Definition bwg : World → nat → Dir → bool := flag BEV_SUSPEND_BW_GROUP.

Definition is_bw (what : Z) : Prop := what = BEV_SUSPEND_BW ∨ what = BEV_SUSPEND_BW_GROUP.

Lemma bw_lor f what q : is_bw what → is_bw q → has (Z.lor f what) q = if decide (q = what) then true else has f q.
Proof.
  intros Hw Hq. destruct Hw as [->| ->], Hq as [->| ->]; unfold BEV_SUSPEND_BW, BEV_SUSPEND_BW_GROUP; rewrite ?(has_bit _ 1), ?(has_bit _ 2) by lia;
    rewrite Z.lor_spec; cbn; rewrite ?orb_true_r, ?orb_false_r; done.
Qed.
Lemma bw_ldiff f what q : is_bw what → is_bw q → has (Z.ldiff f what) q = if decide (q = what) then false else has f q.
Proof.
  intros Hw Hq. destruct Hw as [->| ->], Hq as [->| ->]; unfold BEV_SUSPEND_BW, BEV_SUSPEND_BW_GROUP; rewrite ?(has_bit _ 1), ?(has_bit _ 2) by lia;
    rewrite Z.ldiff_spec; cbn; rewrite ?andb_true_r, ?andb_false_r; done.
Qed.

Lemma lor_has f what : is_bw what → has f what = true → Z.lor f what = f.
Proof.
  intros Hw Hh. apply Z.bits_inj'. intros n Hn. rewrite Z.lor_spec. destruct Hw as [->| ->]; unfold BEV_SUSPEND_BW, BEV_SUSPEND_BW_GROUP in *.
  - change 2 with (2 ^ 1) in Hh. rewrite (has_bit f 1) in Hh by lia. destruct (Z.eq_dec n 1) as [->|]; [by rewrite Hh|]. change 2 with (2 ^ 1). rewrite Z.pow2_bits_false by lia. apply orb_false_r.
  - change 4 with (2 ^ 2) in Hh. rewrite (has_bit f 2) in Hh by lia. destruct (Z.eq_dec n 2) as [->|]; [by rewrite Hh|]. change 4 with (2 ^ 2). rewrite Z.pow2_bits_false by lia. apply orb_false_r.
Qed.

Lemma suspended_suspend d d' what s : suspended d (suspend d' what s) = if decide (d = d') then Z.lor (suspended d s) what else suspended d s.
Proof. destruct d, d'; cbn; unfold bufferevent_suspend_read, bufferevent_suspend_write; repeat zcase; done. Qed.
Lemma suspended_unsuspend d d' what s :
  suspended d (unsuspend add_ok d' what s) = if decide (d = d') then Z.ldiff (suspended d s) what else suspended d s.
Proof.
  destruct d, d'; cbn; unfold bufferevent_unsuspend_read, bufferevent_unsuspend_write; destruct (andb _ _); try done.
  all: unfold be_socket_enable, add_read, add_write, _bufferevent_add_event, event_add; repeat (zcase; try done); done.
Qed.

Lemma bit_suspend d d' what q s : is_bw what → is_bw q →
  has (suspended d (suspend d' what s)) q = if decide (d = d' ∧ q = what) then true else has (suspended d s) q.
Proof. clear add_ok.
  intros Hw Hq. rewrite suspended_suspend. destruct (decide (d = d')) as [->|]; [rewrite bw_lor by done|]; repeat case_decide; naive_solver.
Qed.
Lemma bit_unsuspend d d' what q s : is_bw what → is_bw q →
  has (suspended d (unsuspend add_ok d' what s)) q = if decide (d = d' ∧ q = what) then false else has (suspended d s) q.
Proof.
  intros Hw Hq. rewrite suspended_unsuspend. destruct (decide (d = d')) as [->|]; [rewrite bw_ldiff by done|]; repeat case_decide; naive_solver.
Qed.

(** ** What the operations on a world change *)

Lemma bevs_upd i f w j : bevs (upd_bev i f w) j = if decide (j = i) then f (bevs w i) else bevs w j.
Proof. cbn. case_decide; [subst; by rewrite fn_lookup_insert|by rewrite fn_lookup_insert_ne]. Qed.
Lemma groups_upd g f w h : groups (upd_group g f w) h = if decide (h = g) then f (groups w g) else groups w h.
Proof. cbn. case_decide; [subst; by rewrite fn_lookup_insert|by rewrite fn_lookup_insert_ne]. Qed.

Lemma rlim_upd_rlim i f w j : rlim_of j (upd_rlim i f w) = if decide (j = i) then f <$> rlim_of i w else rlim_of j w.
Proof. unfold rlim_of, upd_rlim. rewrite bevs_upd. by case_decide. Qed.
Lemma rlim_upd_state i f w j : rlim_of j (upd_state i f w) = rlim_of j w.
Proof. unfold rlim_of, upd_state. rewrite bevs_upd. case_decide; by subst. Qed.
Lemma rlim_upd_group g f w j : rlim_of j (upd_group g f w) = rlim_of j w.
Proof. done. Qed.
Lemma bev_upd_rlim i f w j : bev (bevs (upd_rlim i f w) j) = bev (bevs w j).
Proof. unfold upd_rlim. rewrite bevs_upd. case_decide; by subst. Qed.
Lemma flag_upd_rlim q i f w j d : flag q (upd_rlim i f w) j d = flag q w j d.
Proof. unfold flag, upd_rlim. rewrite bevs_upd. case_decide; by subst. Qed.
Lemma flag_suspend q i d what w j d' : is_bw what → is_bw q →
  flag q (upd_state i (suspend d what) w) j d' = if decide (j = i ∧ d' = d ∧ q = what) then true else flag q w j d'.
Proof. clear add_ok.
  intros Hw Hq. unfold flag, upd_state. rewrite bevs_upd. destruct (decide (j = i)) as [->|].
  - cbn [bev set_bev]. rewrite bit_suspend by done. repeat case_decide; naive_solver.
  - case_decide; [naive_solver|done].
Qed.
Lemma flag_unsuspend q i d what w j d' : is_bw what → is_bw q →
  flag q (upd_state i (unsuspend add_ok d what) w) j d' = if decide (j = i ∧ d' = d ∧ q = what) then false else flag q w j d'.
Proof.
  intros Hw Hq. unfold flag, upd_state. rewrite bevs_upd. destruct (decide (j = i)) as [->|].
  - cbn [bev set_bev]. rewrite bit_unsuspend by done. repeat case_decide; naive_solver.
  - case_decide; [naive_solver|done].
Qed.

(** Each member of a list is suspended, or resumed. *)
Lemma for_members_rest l f w : (∀ j, rlim_of j (for_members l f w) = rlim_of j w) ∧ groups (for_members l f w) = groups w ∧ now (for_members l f w) = now w.
Proof.
  unfold for_members. revert w. induction l as [|x l IH]; intros w; [done|]. cbn [foldl]. destruct (IH (upd_state x f w)) as (H1 & H2 & H3).
  rewrite H2, H3. split; [|done]. intros j. by rewrite H1, rlim_upd_state.
Qed.
Lemma for_members_suspend l q d what w j d' : is_bw what → is_bw q →
  flag q (for_members l (suspend d what) w) j d' = if decide (j ∈ l ∧ d' = d ∧ q = what) then true else flag q w j d'.
Proof. clear add_ok.
  intros Hw Hq. unfold for_members. revert w. induction l as [|x l IH]; intros w; cbn [foldl].
  { case_decide as H; [by destruct H as [?%not_elem_of_nil _]|done]. }
  rewrite IH, flag_suspend by done. clear IH. pose proof (elem_of_cons l j x) as Hx. clear Hw Hq. destruct (decide (j ∈ l)), (decide (j = x)), (decide (d' = d)), (decide (q = what)); repeat case_decide; try done; tauto.
Qed.
Lemma for_members_unsuspend l q d what w j d' : is_bw what → is_bw q →
  flag q (for_members l (unsuspend add_ok d what) w) j d' = if decide (j ∈ l ∧ d' = d ∧ q = what) then false else flag q w j d'.
Proof.
  intros Hw Hq. unfold for_members. revert w. induction l as [|x l IH]; intros w; cbn [foldl].
  { case_decide as H; [by destruct H as [?%not_elem_of_nil _]|done]. }
  rewrite IH, flag_unsuspend by done. clear IH. pose proof (elem_of_cons l j x) as Hx. clear Hw Hq. destruct (decide (j ∈ l)), (decide (j = x)), (decide (d' = d)), (decide (q = what)); repeat case_decide; try done; tauto.
Qed.

(** ** The invariant *)

(** A bufferevent and its own bucket: without tokens it is suspended, and while it is suspended its
    timer is running. *)
Definition own_ok (o : option Rlim) (bw : Dir → bool) : Prop :=
  match o with
  | Some r =>
      match rl_cfg r with
      | Some c => cfg_ok c ∧ bucket_ok c (rl_limit r) ∧ rl_refill r ≠ Unassigned ∧
          ∀ d, (LIM d (rl_limit r) <= 0 → bw d = true) ∧ (bw d = true → rl_refill r = Pending)
      | None => ∀ d, bw d = false
      end
  | None => ∀ d, bw d = false
  end.

Definition group_of (o : option Rlim) : option nat := match o with Some r => rl_group r | None => None end.
Definition live (G : nat → Group) (g : nat) : Prop := master_refill (G g) ≠ Unassigned.

(** A bufferevent and its group: it is suspended exactly when the group is. *)
Definition member_ok (i : nat) (o : option nat) (bwg : Dir → bool) (G : nat → Group) : Prop :=
  match o with
  | Some g => live G g ∧ i ∈ members (G g) ∧ ∀ d, bwg d = GROUP_SUSPENDED d (G g)
  | None => ∀ d, bwg d = false
  end.

Record group_ok (R : nat → option nat) (g : nat) (gr : Group) : Prop := {
  gr_nodup : NoDup (members gr);
  gr_members : ∀ i, i ∈ members gr → R i = Some g;
  gr_count : n_members gr = Zlen (members gr);
  gr_cfg : cfg_ok (rate_limit_cfg gr);
  gr_bucket : bucket_ok (rate_limit_cfg gr) (rate_limit gr);
  gr_empty : ∀ d, LIM d (rate_limit gr) <= 0 → GROUP_SUSPENDED d gr = true;
  gr_settled : ∀ d, pending_unsuspend d gr = false;
  gr_share : ∀ d, 1 <= min_share gr <= rate d (rate_limit_cfg gr);
  gr_configured : 1 <= configured_min_share gr < 2 ^ 63 }.

Record inv (w : World) : Prop := {
  iv_own : ∀ i, own_ok (rlim_of i w) (bw w i);
  iv_member : ∀ i, member_ok i (group_of (rlim_of i w)) (bwg w i) (groups w);
  iv_group : ∀ g, live (groups w) g → group_ok (λ i, group_of (rlim_of i w)) g (groups w g);
  iv_rand : 0 <= weakrand w }.

(** Only the own part of bufferevent [i] changes. *)
Lemma inv_own i w w' : inv w → (∀ j, j ≠ i → rlim_of j w' = rlim_of j w) → (∀ j, j ≠ i → ∀ d, bw w' j d = bw w j d) →
  group_of (rlim_of i w') = group_of (rlim_of i w) → (∀ j d, bwg w' j d = bwg w j d) → groups w' = groups w → weakrand w' = weakrand w →
  own_ok (rlim_of i w') (bw w' i) → inv w'.
Proof.
  intros [H1 H2 H3 H4] Hr Hb Hg Hbg HG Hw Ho.
  assert (∀ j, group_of (rlim_of j w') = group_of (rlim_of j w)) as Hgr by (intros j; destruct (decide (j = i)) as [->|]; [done|by rewrite Hr]).
  split; [..|by rewrite Hw].
  - intros j. destruct (decide (j = i)) as [->|Hj]; [done|]. rewrite Hr by done. specialize (H1 j). unfold own_ok in *.
    destruct (rlim_of j w) as [r|]; [|intros d; by rewrite Hb]. destruct (rl_cfg r); [|intros d; by rewrite Hb].
    destruct H1 as (C1 & C2 & C3 & C4). split; [done|]. split; [done|]. split; [done|]. intros d. rewrite Hb by done. apply C4.
  - intros j. rewrite Hgr, HG. specialize (H2 j). unfold member_ok in *. destruct (group_of (rlim_of j w)).
    + destruct H2 as (C1 & C2 & C3). split; [done|]. split; [done|]. intros d. by rewrite Hbg.
    + intros d. by rewrite Hbg.
  - intros g. rewrite HG. intros Hl. destruct (H3 g Hl). split; try done. intros j Hj. rewrite Hgr. auto.
Qed.

(** Only group [g] changes, and the suspension of its members with it. *)
Lemma inv_group g w w' : inv w → live (groups w) g →
  (∀ j, rlim_of j w' = rlim_of j w) → (∀ j d, bw w' j d = bw w j d) → (∀ h, h ≠ g → groups w' h = groups w h) → weakrand w' = weakrand w →
  members (groups w' g) = members (groups w g) → live (groups w') g →
  (∀ j d, bwg w' j d = if decide (j ∈ members (groups w g)) then GROUP_SUSPENDED d (groups w' g) else bwg w j d) →
  group_ok (λ i, group_of (rlim_of i w)) g (groups w' g) → inv w'.
Proof.
  intros [H1 H2 H3 H4] Hl Hr Hb HG Hw Hm Hl' Hbg Hg. split; [..|by rewrite Hw].
  - intros j. rewrite Hr. specialize (H1 j). unfold own_ok in *. destruct (rlim_of j w) as [r|]; [|intros d; by rewrite Hb].
    destruct (rl_cfg r); [|intros d; by rewrite Hb]. destruct H1 as (C1 & C2 & C3 & C4). split; [done|]. split; [done|]. split; [done|]. intros d. rewrite Hb. apply C4.
  - intros j. rewrite Hr. specialize (H2 j). unfold member_ok in *. destruct (group_of (rlim_of j w)) as [h|] eqn:Eg.
    + destruct H2 as (C1 & C2 & C3). destruct (decide (h = g)) as [->|Hh].
      * split; [done|]. rewrite Hm. split; [done|]. intros d. rewrite Hbg. by rewrite decide_True.
      * unfold live. rewrite HG by done. split; [done|]. split; [done|]. intros d. rewrite Hbg, decide_False; [done|].
        intros Hj. pose proof (gr_members _ _ _ (H3 g Hl) j Hj) as E. cbn in E. congruence.
    + intros d. rewrite Hbg, decide_False; [done|]. intros Hj. pose proof (gr_members _ _ _ (H3 g Hl) j Hj) as E. cbn in E. congruence.
  - intros h Hlh. destruct (decide (h = g)) as [->|Hh].
    + destruct Hg as [G1 G2 G3 G4 G5 G6 G7 G8 G9]. split; try done. intros j Hj. rewrite Hr. auto.
    + unfold live in Hlh. rewrite HG in * by done. destruct (H3 h Hlh). split; try done. intros j Hj. rewrite Hr. auto.
Qed.

Lemma member_flags g w j d : inv w → live (groups w) g → j ∈ members (groups w g) → bwg w j d = GROUP_SUSPENDED d (groups w g).
Proof.
  intros [H1 H2 H3 H4] Hl Hj. pose proof (gr_members _ _ _ (H3 g Hl) j Hj) as E. cbn in E. specialize (H2 j). rewrite E in H2. apply H2.
Qed.

(** ** Groups *)

Lemma suspended_set d d' b p g : GROUP_SUSPENDED d (set_suspended d' b p g) = if decide (d = d') then b else GROUP_SUSPENDED d g.
Proof. by destruct d, d'. Qed.
Lemma pending_set d d' b p g : pending_unsuspend d (set_suspended d' b p g) = if decide (d = d') then p else pending_unsuspend d g.
Proof. by destruct d, d'. Qed.

(** A world in which group [g] has been replaced by [gr], with its members as they were. *)
Record regrouped (g : nat) (gr : Group) (w w' : World) : Prop := {
  rg_rlim : ∀ j, rlim_of j w' = rlim_of j w;
  rg_bw : ∀ j d, bw w' j d = bw w j d;
  rg_others : ∀ h, h ≠ g → groups w' h = groups w h;
  rg_group : groups w' g = gr;
  rg_rand : weakrand w' = weakrand w;
  rg_now : now w' = now w }.

Lemma for_members_rand l f w : weakrand (for_members l f w) = weakrand w.
Proof. unfold for_members. revert w. induction l as [|x l IH]; intros w; [done|]. cbn [foldl]. by rewrite IH. Qed.

Lemma group_suspend_spec d g w :
  regrouped g (set_suspended d true false (groups w g)) w (bev_group_suspend d g w) ∧
  ∀ j d', bwg (bev_group_suspend d g w) j d' = if decide (j ∈ members (groups w g) ∧ d' = d) then true else bwg w j d'.
Proof. clear add_ok.
  unfold bev_group_suspend. set (w1 := upd_group _ _ _). set (l := members _). assert (l = members (groups w g)) as El.
  { unfold l, w1. rewrite groups_upd, decide_True by done. done. }
  destruct (for_members_rest l (suspend d BEV_SUSPEND_BW_GROUP) w1) as (R1 & R2 & R3). split; [split|].
  - done.
  - intros j d'. unfold bw. rewrite for_members_suspend by (by left + by right). rewrite decide_False; [done|]. by intros (_ & _ & ?).
  - intros h Hh. rewrite R2. unfold w1. by rewrite groups_upd, decide_False.
  - rewrite R2. unfold w1. by rewrite groups_upd, decide_True.
  - by rewrite for_members_rand.
  - done.
  - intros j d'. unfold bwg. rewrite for_members_suspend by (by right). rewrite El. apply decide_ext. naive_solver.
Qed.

Lemma random_order gr rand : n_members gr = Zlen (members gr) → 0 <= rand → ∃ l, FOREACH_RANDOM_ORDER gr rand = Val l ∧ l ≡ₚ members gr.
Proof.
  intros Hn Hr. unfold FOREACH_RANDOM_ORDER, _bev_group_random_element. rewrite Hn.
  destruct (Z.eqb_spec (Zlen (members gr)) 0) as [Hz|Hz]; [by exists (members gr)|]. destruct (members gr) as [|x m] eqn:Em; [done|]. rewrite <- Em in *.
  zlen_pos. pose proof (Z.rem_bound_pos rand (Zlen (members gr)) Hr ltac:(lia)) as Hb. rewrite decide_True by (unfold Zlen in *; lia). cbn [mbind outcome_bind].
  eexists. split; [done|]. rewrite Permutation_app_comm. by rewrite take_drop.
Qed.

Lemma group_unsuspend_spec d g w : n_members (groups w g) = Zlen (members (groups w g)) → 0 <= weakrand w →
  ∃ w', bev_group_unsuspend add_ok d g w = Val w' ∧ regrouped g (set_suspended d false false (groups w g)) w w' ∧
    ∀ j d', bwg w' j d' = if decide (j ∈ members (groups w g) ∧ d' = d) then false else bwg w j d'.
Proof.
  intros Hn Hr. unfold bev_group_unsuspend. set (w1 := upd_group g _ w).
  assert (groups w1 g = set_suspended d false (pending_unsuspend d (groups w g)) (groups w g)) as E1 by (unfold w1; by rewrite groups_upd, decide_True).
  destruct (random_order (groups w1 g) (weakrand w1)) as (l & -> & Hl); [by rewrite E1|done|]. cbn [mbind outcome_bind]. eexists. split; [done|].
  destruct (for_members_rest l (unsuspend add_ok d BEV_SUSPEND_BW_GROUP) w1) as (R1 & R2 & R3). split; [split|].
  - intros j. rewrite rlim_upd_group, R1. done.
  - intros j d'. change (bw (upd_group g (set_suspended d false false) ?x)) with (bw x). unfold bw. rewrite for_members_unsuspend by (by left + by right). rewrite decide_False; [done|]. by intros (_ & _ & ?).
  - intros h Hh. rewrite groups_upd, decide_False, R2 by done. unfold w1. by rewrite groups_upd, decide_False.
  - rewrite groups_upd, decide_True, R2, E1 by done. by destruct d.
  - cbn. by rewrite for_members_rand.
  - done.
  - intros j d'. change (bwg (upd_group g (set_suspended d false false) ?x)) with (bwg x). unfold bwg. rewrite for_members_unsuspend by (by right).
    apply decide_ext. rewrite Hl, E1. naive_solver.
Qed.

(** The group's limit becomes [limit], and it is suspended or resumed. *)
Lemma inv_regroup d g w w1 w' gr s : inv w → live (groups w) g → regrouped g gr w w1 → (∀ j d', bwg w1 j d' = bwg w j d') →
  regrouped g (set_suspended d s false gr) w1 w' → (∀ j d', bwg w' j d' = if decide (j ∈ members gr ∧ d' = d) then s else bwg w1 j d') →
  members gr = members (groups w g) → master_refill gr = master_refill (groups w g) → (∀ d', d' ≠ d → GROUP_SUSPENDED d' gr = GROUP_SUSPENDED d' (groups w g)) →
  group_ok (λ i, group_of (rlim_of i w)) g (set_suspended d s false gr) → inv w'.
Proof.
  intros Hi Hl [A1 A2 A3 A4 A5 A6] Hbg1 [B1 B2 B3 B4 B5 B6] Hbg Hm Hmr Hs Hg. apply (inv_group g w); try done.
  - intros j. by rewrite B1, A1.
  - intros j d'. by rewrite B2, A2.
  - intros h Hh. by rewrite B3, A3.
  - congruence.
  - by rewrite B4, <- Hm.
  - unfold live. rewrite B4. cbn. by rewrite Hmr.
  - intros j d'. rewrite Hbg, Hbg1, B4, Hm, suspended_set. destruct (decide (j ∈ members (groups w g))) as [Hj|Hj].
    + destruct (decide (d' = d)) as [->|Hd]; [by rewrite decide_True|]. rewrite decide_False by naive_solver. rewrite Hs by done. by apply member_flags.
    + by rewrite decide_False by naive_solver.
  - by rewrite B4.
Qed.

(** ** Spending *)

Lemma refilled_same b c : bucket_ok c b → refilled b c (last_updated b) = b.
Proof.
  intros [Hb Hl]. unfold refilled. assert (ticks (last_updated b) (last_updated b) = 0) as -> by (unfold ticks; by rewrite Z.sub_diag).
  pose proof (Hb DRead). pose proof (Hb DWrite). cbn in *. rewrite !Z.add_0_r, !Z.min_r by lia. by destruct b.
Qed.

(** What stays as it is when only the own bucket of [i] changes. *)
Record own_step (i : nat) (w w' : World) : Prop := {
  os_others : ∀ j, j ≠ i → rlim_of j w' = rlim_of j w;
  os_bw : ∀ j, j ≠ i → ∀ d, bw w' j d = bw w j d;
  os_bwg : ∀ j d, bwg w' j d = bwg w j d;
  os_groups : groups w' = groups w;
  os_rand : weakrand w' = weakrand w;
  os_now : now w' = now w;
  os_group : group_of (rlim_of i w') = group_of (rlim_of i w) }.

Lemma own_step_refl i w : own_step i w w.
Proof. done. Qed.
Lemma own_step_trans i w1 w2 w3 : own_step i w1 w2 → own_step i w2 w3 → own_step i w1 w3.
Proof.
  intros [A1 A2 A3 A4 A5 A6 A7] [B1 B2 B3 B4 B5 B6 B7]. split; [| | |congruence..].
  - intros j Hj. by rewrite B1, A1.
  - intros j Hj d. by rewrite B2, A2.
  - intros j d. by rewrite B3, A3.
Qed.
Lemma own_rlim i f w : (∀ r, rl_group (f r) = rl_group r) → own_step i w (upd_rlim i f w).
Proof.
  intros Hf. split; [| | |done..|].
  - intros j Hj. by rewrite rlim_upd_rlim, decide_False.
  - intros j Hj d. apply flag_upd_rlim.
  - intros j d. apply flag_upd_rlim.
  - rewrite rlim_upd_rlim, decide_True by done. destruct (rlim_of i w) as [r|]; cbn; [apply Hf|done].
Qed.
Lemma own_suspend i d w : own_step i w (upd_state i (suspend d BEV_SUSPEND_BW) w).
Proof. clear add_ok.
  split; [| | |done..|].
  - intros j Hj. apply rlim_upd_state.
  - intros j Hj d'. unfold bw. rewrite flag_suspend by (by left). by rewrite decide_False by naive_solver.
  - intros j d'. unfold bwg. rewrite flag_suspend by (by left + by right). rewrite decide_False; [done|]. by intros (_ & _ & ?).
  - by rewrite rlim_upd_state.
Qed.
Lemma own_unsuspend i d w : own_step i w (upd_state i (unsuspend add_ok d BEV_SUSPEND_BW) w).
Proof.
  split; [| | |done..|].
  - intros j Hj. apply rlim_upd_state.
  - intros j Hj d'. unfold bw. rewrite flag_unsuspend by (by left). by rewrite decide_False by naive_solver.
  - intros j d'. unfold bwg. rewrite flag_unsuspend by (by left + by right). rewrite decide_False; [done|]. by intros (_ & _ & ?).
  - by rewrite rlim_upd_state.
Qed.
Lemma bw_suspend i d w d' : bw (upd_state i (suspend d BEV_SUSPEND_BW) w) i d' = if decide (d' = d) then true else bw w i d'.
Proof. clear add_ok. unfold bw. rewrite flag_suspend by (by left). apply decide_ext. naive_solver. Qed.
Lemma bw_unsuspend i d w d' : bw (upd_state i (unsuspend add_ok d BEV_SUSPEND_BW) w) i d' = if decide (d' = d) then false else bw w i d'.
Proof. unfold bw. rewrite flag_unsuspend by (by left). apply decide_ext. naive_solver. Qed.
Lemma bw_rlim i f w j d : bw (upd_rlim i f w) j d = bw w j d.
Proof. apply flag_upd_rlim. Qed.

Lemma own_inv i w w' : inv w → own_step i w w' → own_ok (rlim_of i w') (bw w' i) → inv w'.
Proof. intros Hi [A1 A2 A3 A4 A5 A6 A7] Ho. by apply (inv_own i w). Qed.

Lemma own_ok_cfg i w r c : inv w → rlim_of i w = Some r → rl_cfg r = Some c →
  cfg_ok c ∧ bucket_ok c (rl_limit r) ∧ rl_refill r ≠ Unassigned ∧ ∀ d, (LIM d (rl_limit r) <= 0 → bw w i d = true) ∧ (bw w i d = true → rl_refill r = Pending).
Proof. intros Hi Hr Hc. pose proof (iv_own _ Hi i) as Ho. unfold own_ok in Ho. by rewrite Hr, Hc in Ho. Qed.

Lemma update_buckets_spec i w r c : inv w → rlim_of i w = Some r → rl_cfg r = Some c →
  ∃ t w', ev_token_bucket_get_tick (now w) c = Val t ∧ bufferevent_update_buckets i w = Val w' ∧ inv w' ∧ own_step i w w' ∧
    rlim_of i w' = Some (set_limit (refilled (rl_limit r) c t) r) ∧ (∀ j, bev (bevs w' j) = bev (bevs w j)).
Proof.
  intros Hi Hr Hc. destruct (own_ok_cfg i w r c Hi Hr Hc) as (Hcfg & Hb & Hre & Hd). destruct (get_tick_spec (now w) c Hcfg) as (t & Ht & Htr).
  unfold bufferevent_update_buckets. rewrite Hr. cbn [or_undef mbind outcome_bind]. rewrite Hc. cbn [or_undef mbind outcome_bind]. rewrite Ht. cbn [mbind outcome_bind].
  exists t. destruct (Z.eqb_spec t (last_updated (rl_limit r))) as [->|Hne]; cbn [negb].
  { exists w. rewrite refilled_same by done. destruct r. done. }
  rewrite update_spec by done. set (w' := upd_rlim _ _ _). exists w'. assert (own_step i w w') as Hos by (by apply own_rlim).
  assert (rlim_of i w' = Some (set_limit (refilled (rl_limit r) c t) r)) as Hr' by (unfold w'; rewrite rlim_upd_rlim, decide_True, Hr; done).
  assert (∀ d, bw w' i d = bw w i d) as Hbw by (intros d; apply bw_rlim).
  assert (∀ j, bev (bevs w' j) = bev (bevs w j)) as Hbev by (intros j; apply bev_upd_rlim).
  split; [done|]. split; [done|]. split; [|done]. apply (own_inv i w); [done|done|]. unfold own_ok. rewrite Hr'. cbn. rewrite Hc.
  split; [done|]. split; [by apply refilled_ok|]. split; [done|]. intros d. rewrite Hbw. destruct (Hd d) as [D1 D2]. split; [|done].
  intros Hle. apply D1. pose proof (refilled_more (rl_limit r) c t d Hcfg Hb). lia.
Qed.

(** There is memory for timers. *)
Context (Hadd : add_ok EV_TIMEOUT = true).

Lemma add_refill_spec i w : add_refill add_ok i w = (0, upd_rlim i (set_refill Pending) w).
Proof. unfold add_refill. by rewrite Hadd. Qed.

(** The own bucket of [i] changes to [v] in direction [d]; the direction is then suspended, resumed, or
    left as it is. *)
Definition exhausted (d : Dir) (i : nat) (w : World) : World := upd_rlim i (set_refill Pending) (upd_state i (suspend d BEV_SUSPEND_BW) w).
Definition resumed (d : Dir) (i : nat) (w : World) : World :=
  upd_state i (unsuspend add_ok d BEV_SUSPEND_BW) (if bw w i (other d) then w else del_refill i w).

Definition relimited (d : Dir) (i : nat) (v : Z) (r : Rlim) (c : Cfg) (w w' : World) : Prop :=
  inv w' ∧ own_step i w w' ∧ ∃ r', rlim_of i w' = Some r' ∧ rl_cfg r' = Some c ∧ rl_limit r' = set_LIM d v (rl_limit r).

Lemma own_limit_spec d i v w r c : inv w → rlim_of i w = Some r → rl_cfg r = Some c → - 2 ^ 63 <= v <= maximum d c →
  let w1 := upd_rlim i (set_limit (set_LIM d v (rl_limit r))) w in
  relimited d i v r c w (exhausted d i w1) ∧ (0 < v → relimited d i v r c w (resumed d i w1)) ∧
  ((v <= 0 → bw w i d = true) → relimited d i v r c w w1).
Proof.
  intros Hi Hr Hc Hv w1. destruct (own_ok_cfg i w r c Hi Hr Hc) as (Hcfg & Hb & Hre & Hd). set (b' := set_LIM d v (rl_limit r)) in *.
  assert (own_step i w w1) as Hos by (by apply own_rlim).
  assert (rlim_of i w1 = Some (set_limit b' r)) as Hr1 by (unfold w1; by rewrite rlim_upd_rlim, decide_True, Hr).
  assert (bucket_ok c b') as Hb'.
  { destruct Hb as [Hb1 Hb2]. split; [|unfold b'; by rewrite last_set]. intros d'. unfold b'. rewrite LIM_set. case_decide; [subst; lia|apply Hb1]. }
  assert (∀ d', d' ≠ d → LIM d' b' = LIM d' (rl_limit r)) as Ho by (intros d' ?; unfold b'; by rewrite LIM_set, decide_False).
  assert (LIM d b' = v) as Hlim by (unfold b'; by rewrite LIM_set, decide_True). assert (∀ d', bw w1 i d' = bw w i d') as Hbw1 by (intros; apply bw_rlim).
  assert (∀ w' r', own_step i w w' → rlim_of i w' = Some r' → rl_cfg r' = Some c → rl_limit r' = b' → rl_refill r' ≠ Unassigned →
    (∀ d', (LIM d' b' <= 0 → bw w' i d' = true) ∧ (bw w' i d' = true → rl_refill r' = Pending)) → relimited d i v r c w w') as Hmk.
  { intros w' r' H1 H2 H3 H4 H5 H6. split; [|split; [done|]; by exists r']. apply (own_inv i w); [done|done|]. unfold own_ok. rewrite H2, H3, H4. done. }
  split; [|split].
  - unfold exhausted. set (w2 := upd_state i _ w1). set (w3 := upd_rlim i _ w2). apply (Hmk w3 (set_refill Pending (set_limit b' r))); try done.
    + apply (own_step_trans i w w1); [done|]. apply (own_step_trans i w1 w2); [apply own_suspend|]. by apply own_rlim.
    + unfold w3, w2. by rewrite rlim_upd_rlim, decide_True, rlim_upd_state, Hr1.
    + intros d'. split; [|done]. unfold w3, w2. rewrite bw_rlim, bw_suspend. case_decide; [done|]. rewrite Ho, Hbw1 by done. apply Hd.
  - intros Hpos. unfold resumed. rewrite Hbw1. set (w2 := if bw w i (other d) then w1 else del_refill i w1). set (w3 := upd_state i _ w2).
    set (r2 := if bw w i (other d) then set_limit b' r else set_refill Idle (set_limit b' r)).
    assert (own_step i w1 w2 ∧ rlim_of i w2 = Some r2 ∧ ∀ d', bw w2 i d' = bw w i d') as (Hos2 & Hr2 & Hbw2).
    { unfold w2, r2. destruct (bw w i (other d)); [done|]. unfold del_refill. split; [by apply own_rlim|]. split; [by rewrite rlim_upd_rlim, decide_True, Hr1|].
      intros d'. by rewrite bw_rlim. }
    assert (rl_cfg r2 = Some c ∧ rl_limit r2 = b' ∧ rl_refill r2 ≠ Unassigned) as (Hc2 & Hl2 & Hre2) by (unfold r2; by destruct (bw w i (other d))).
    apply (Hmk w3 r2); try done.
    + apply (own_step_trans i w w1); [done|]. apply (own_step_trans i w1 w2); [done|]. apply own_unsuspend.
    + unfold w3. by rewrite rlim_upd_state.
    + intros d'. unfold w3. rewrite bw_unsuspend, Hbw2. destruct (decide (d' = d)) as [->|Hdd]; [rewrite Hlim; split; [lia|done]|].
      rewrite Ho by done. split; [apply Hd|]. intros Hb2. assert (d' = other d) as -> by (by destruct d, d'). unfold r2. rewrite Hb2. by apply (Hd (other d)).
  - intros Hneg. apply (Hmk w1 (set_limit b' r)); try done. intros d'. rewrite Hbw1. split; [|apply Hd].
    destruct (decide (d' = d)) as [->|Hdd]; [by rewrite Hlim|rewrite Ho by done; apply Hd].
Qed.

(** Taking from the own bucket. *)
Lemma decrement_own_spec d i bytes w r c : inv w → rlim_of i w = Some r → rl_cfg r = Some c →
  - 2 ^ 63 <= LIM d (rl_limit r) - bytes <= maximum d c →
  ∃ rc w', decrement_own add_ok d i bytes w = (rc, w') ∧ relimited d i (LIM d (rl_limit r) - bytes) r c w w'.
Proof.
  intros Hi Hr Hc Hv. destruct (own_ok_cfg i w r c Hi Hr Hc) as (Hcfg & _ & _ & Hd). pose proof (proj1 Hcfg d). unfold decrement_own. rewrite Hr, Hc, i64_small by lia.
  set (v := LIM d (rl_limit r) - bytes) in *. destruct (own_limit_spec d i v w r c Hi Hr Hc Hv) as (S1 & S2 & S3). set (w1 := upd_rlim i _ w) in *.
  change (has (suspended d (bev (bevs w1 i))) BEV_SUSPEND_BW) with (bw w1 i d). change (has (suspended (other d) (bev (bevs w1 i))) BEV_SUSPEND_BW) with (bw w1 i (other d)).
  destruct (Z.leb_spec v 0); [rewrite add_refill_spec; eauto|]. destruct (bw w1 i d); [eexists 0, _; split; [done|]; by apply S2|].
  exists 0, w1. split; [done|]. apply S3. lia.
Qed.

(** The program takes from the own bucket, or gives back. *)
Lemma decrement_limit_spec d i decr w r c : inv w → rlim_of i w = Some r → rl_cfg r = Some c →
  - 2 ^ 63 <= LIM d (rl_limit r) - decr <= maximum d c →
  ∃ rc w', bufferevent_decrement_limit add_ok d i decr w = Val (rc, w') ∧ relimited d i (LIM d (rl_limit r) - decr) r c w w'.
Proof.
  intros Hi Hr Hc Hv. destruct (own_ok_cfg i w r c Hi Hr Hc) as (Hcfg & _ & _ & Hd). pose proof (proj1 Hcfg d). unfold bufferevent_decrement_limit. rewrite Hr, Hc, i64_small by lia.
  set (v := LIM d (rl_limit r) - decr) in *. destruct (own_limit_spec d i v w r c Hi Hr Hc Hv) as (S1 & S2 & S3). set (w1 := upd_rlim i _ w) in *.
  change (has (suspended (other d) (bev (bevs w1 i))) BEV_SUSPEND_BW) with (bw w1 i (other d)).
  destruct (andb (LIM d (rl_limit r) >? 0) _) eqn:E1; [rewrite add_refill_spec; eauto|]. destruct (andb (LIM d (rl_limit r) <=? 0) _) eqn:E2.
  - zbool. eexists 0, _. split; [done|]. by apply S2.
  - exists 0, w1. split; [done|]. apply S3. intros Hle. apply Hd. destruct (Z.gtb_spec (LIM d (rl_limit r)) 0), (Z.leb_spec v 0); done || lia.
Qed.
End inv.
