(* ===== verification/RateRun.v ===== *)
(** Every operation on rate limits (RateLimit.v) keeps the invariant of RateInv.v: transfers,
    timers, and what the program configures. *)

From stdpp Require Import functions.
From S2P Require Import Prelude EvFlags BufChain BufevData Bufev RateLimit RateInv.

Section run.
Context (add_ok : Z → bool) (Hadd : add_ok EV_TIMEOUT = true).

(** ** Transfers *)

Lemma group_share_spec d i g w r : inv w → rlim_of i w = Some r → rl_group r = Some g →
  ∃ m w', group_share d i g w = Val (m, w') ∧ inv w' ∧ own_step i w w' ∧ rlim_of i w' = Some r ∧ (∀ d', suspended d' (bev (bevs w' i)) = suspended d' (bev (bevs w i))) ∧
    m <= Z.max (min_share (groups w g)) (LIM d (rate_limit (groups w g))) ∧ (bwg w' i d = false → 0 < m).
Proof.
  intros Hi Hr Hg. pose proof (iv_member _ Hi i) as Hm. rewrite Hr in Hm. cbn [group_of] in Hm. rewrite Hg in Hm. destruct Hm as (Hl & Hin & Hf).
  pose proof (iv_group _ Hi g Hl) as [G1 G2 G3 G4 G5 G6 G7 G8 G9]. unfold group_share. destruct (GROUP_SUSPENDED d (groups w g)) eqn:Es.
  - set (w' := upd_state i _ w). exists 0, w'. split; [done|].
    assert (∀ q j d', is_bw q → flag q w' j d' = flag q w j d') as Hfl.
    { intros q j d' Hq. unfold w'. rewrite flag_suspend by (by right + done). case_decide as Hc; [|done]. destruct Hc as (-> & -> & ->). unfold bwg in Hf. by rewrite Hf, Es. }
    assert (own_step i w w') as Hos.
    { split; [| | |done..|].
      - intros j _. apply rlim_upd_state.
      - intros j _ d'. apply Hfl. by left.
      - intros j d'. apply Hfl. by right.
      - unfold w'. by rewrite rlim_upd_state. }
    assert (rlim_of i w' = Some r) as Hr' by (unfold w'; by rewrite rlim_upd_state).
    assert (∀ d', bw w' i d' = bw w i d') as Hbw by (intros d'; apply Hfl; by left).
    assert (∀ d', suspended d' (bev (bevs w' i)) = suspended d' (bev (bevs w i))) as Hsus.
    { intros d'. unfold w', upd_state. rewrite bevs_upd, decide_True by done. cbn [bev set_bev]. rewrite suspended_suspend. case_decide as Hd; [subst d'|done].
      apply lor_has; [by right|]. rewrite <- Es. apply (Hf d). }
    split; [|split; [done|]; split; [done|]; split; [done|]; specialize (G8 d); split; [lia|]; rewrite (os_bwg _ _ _ Hos), Hf, Es; done]. apply (own_inv i w); [done|done|]. pose proof (iv_own _ Hi i) as Ho.
    rewrite Hr' . rewrite Hr in Ho. unfold own_ok in *. destruct (rl_cfg r); [|intros d'; by rewrite Hbw].
    destruct Ho as (O1 & O2 & O3 & O4). split; [done|]. split; [done|]. split; [done|]. intros d'. rewrite Hbw. apply O4.
  - rewrite G3. destruct (members (groups w g)) as [|x m] eqn:Em; [by apply not_elem_of_nil in Hin|]. rewrite Zlen_cons. zlen_pos.
    destruct (Z.eqb_spec (1 + Zlen m) 0); [lia|]. eexists _, w. split; [done|]. split; [done|]. split; [apply own_step_refl|]. split; [done|]. split; [done|].
    assert (0 < LIM d (rate_limit (groups w g))) as Hpos.
    { destruct (Z.lt_ge_cases 0 (LIM d (rate_limit (groups w g)))) as [|Hle]; [done|]. by rewrite (G6 d Hle) in Es. }
    assert (Z.quot (LIM d (rate_limit (groups w g))) (1 + Zlen m) <= LIM d (rate_limit (groups w g))) as Hq.
    { rewrite Z.quot_div_nonneg by lia. apply Z.div_le_upper_bound; nia. }
    pose proof (G8 d). destruct (Z.ltb_spec (Z.quot (LIM d (rate_limit (groups w g))) (1 + Zlen m)) (min_share (groups w g))); lia.
Qed.

Definition own_cfg (i : nat) (w : World) : option Cfg := match rlim_of i w with Some r => rl_cfg r | None => None end.

(** How much may be transferred: not more than the own bucket holds, nor than the group gives. *)
Definition capped (d : Dir) (i : nat) (m : Z) (w : World) : Prop :=
  (∀ r c, rlim_of i w = Some r → rl_cfg r = Some c → m <= Z.max 0 (LIM d (rl_limit r))) ∧
  (∀ r g, rlim_of i w = Some r → rl_group r = Some g → m <= Z.max 0 (Z.max (min_share (groups w g)) (LIM d (rate_limit (groups w g))))) ∧
  (own_cfg i w = None → m <= 16384).

(** The own bucket of [i] may have been brought up to date. *)
Definition topped_up (i : nat) (w w' : World) : Prop :=
  match rlim_of i w with
  | Some r =>
      match rl_cfg r with
      | Some c => ∃ t, ev_token_bucket_get_tick (now w) c = Val t ∧ rlim_of i w' = Some (set_limit (refilled (rl_limit r) c t) r)
      | None => rlim_of i w' = Some r
      end
  | None => rlim_of i w' = None
  end.

Lemma get_max_spec d i w : inv w →
  ∃ m w', _bufferevent_get_rlim_max d i w = Val (m, w') ∧ inv w' ∧ own_step i w w' ∧ 0 <= m ∧ capped d i m w' ∧ topped_up i w w' ∧
    suspended d (bev (bevs w' i)) = suspended d (bev (bevs w i)) ∧ (suspended d (bev (bevs w i)) = 0 → 0 < m).
Proof.
  intros Hi. unfold _bufferevent_get_rlim_max, topped_up. set (m0 := match d with DRead => _ | DWrite => _ end). assert (0 < m0 <= 16384) by (by destruct d).
  destruct (rlim_of i w) as [r|] eqn:Hr.
  2:{ exists m0, w. split; [done|]. split; [done|]. split; [apply own_step_refl|]. split; [lia|]. split; [|split; [done|]; split; [done|lia]]. unfold capped. rewrite Hr. split; [done|]. split; [done|lia]. }
  (* the own bucket *)
  assert (∃ m1 w1 r1, (match rl_cfg r with
      | None => Val (m0, w)
      | Some _ => w ← bufferevent_update_buckets i w; r ← or_undef NullDeref (rlim_of i w); Val (LIM d (rl_limit r), w) end) = Val (m1, w1) ∧
      inv w1 ∧ own_step i w w1 ∧ rlim_of i w1 = Some r1 ∧ rl_group r1 = rl_group r ∧ rl_cfg r1 = rl_cfg r ∧ (∀ c, rl_cfg r = Some c → m1 = LIM d (rl_limit r1)) ∧
      (rl_cfg r = None → m1 = m0) ∧ (bw w1 i d = false → 0 < m1) ∧ bev (bevs w1 i) = bev (bevs w i) ∧
      match rl_cfg r with
      | Some c => ∃ t, ev_token_bucket_get_tick (now w) c = Val t ∧ r1 = set_limit (refilled (rl_limit r) c t) r
      | None => r1 = r end) as (m1 & w1 & r1 & -> & Hi1 & Hos1 & Hr1 & Hg1 & Hc1 & Hm1 & Hm0 & Hbw1 & Hbev1 & Htop).
  { destruct (rl_cfg r) as [c|] eqn:Hc.
    - destruct (update_buckets_spec i w r c Hi Hr Hc) as (t & w1 & Ht & -> & Hi1 & Hos1 & Hr1 & Hbw). cbn [mbind outcome_bind]. rewrite Hr1. cbn [or_undef mbind outcome_bind].
      eexists _, w1, _. split; [done|]. split; [done|]. split; [done|]. split; [done|]. split; [done|]. split; [done|]. split; [done|]. split; [done|]. split; [|split; [done|by exists t]].
      intros Hf. destruct (own_ok_cfg i w1 _ c Hi1 Hr1 Hc) as (_ & _ & _ & Hd). destruct (Hd d) as [Hd1 _]. rewrite Hf in Hd1. cbn [rl_limit set_limit] in *.
      destruct (Z.lt_ge_cases 0 (LIM d (refilled (rl_limit r) c t))) as [|Hle]; [done|]. by specialize (Hd1 Hle).
    - exists m0, w, r. split; [done|]. split; [done|]. split; [apply own_step_refl|]. do 5 (split; [done|]). split; [lia|done]. }
  cbn [mbind outcome_bind].
  assert (match rl_cfg r with
      | Some c => ∃ t, ev_token_bucket_get_tick (now w) c = Val t ∧ Some r1 = Some (set_limit (refilled (rl_limit r) c t) r)
      | None => Some r1 = Some r end) as Htop'.
  { destruct (rl_cfg r); [|by rewrite Htop]. destruct Htop as (t & Ht & ->). by exists t. }
  destruct (rl_group r) as [g|] eqn:Hg; cbn [mbind outcome_bind].
  - destruct (group_share_spec d i g w1 r1 Hi1 Hr1) as (sh & w2 & -> & Hi2 & Hos2 & Hr2 & Hbw2 & Hsh & Hpos); [congruence|]. cbn [mbind outcome_bind].
    set (m2 := if m1 >? sh then sh else m1). set (m3 := if m2 <? 0 then 0 else m2). exists m3, w2. split; [done|]. split; [done|].
    assert (m2 <= m1 ∧ m2 <= sh) as [? ?] by (unfold m2; destruct (Z.gtb_spec m1 sh); lia). assert (m3 = Z.max 0 m2) by (unfold m3; destruct (Z.ltb_spec m2 0); lia).
    split; [by apply (own_step_trans i w w1)|]. split; [lia|]. split; [|split; [by rewrite Hr2|]].
    2:{ split; [by rewrite Hbw2, Hbev1|]. intros Hs0. assert (bw w1 i d = false) as F1 by (unfold bw, flag; by rewrite Hbev1, Hs0).
        assert (bwg w2 i d = false) as F2 by (unfold bwg, flag; by rewrite Hbw2, Hbev1, Hs0).
        specialize (Hbw1 F1). specialize (Hpos F2). unfold m3, m2. destruct (Z.gtb_spec m1 sh); zcase; lia. }
    split; [|split; [|unfold own_cfg; rewrite Hr2, Hc1; intros Hx; rewrite (Hm0 Hx) in *; lia]]; intros r' x; rewrite Hr2; intros [= <-] Hx.
    + rewrite Hc1 in Hx. rewrite (Hm1 _ Hx) in *. lia.
    + rewrite Hg1 in Hx. injection Hx as <-. rewrite (os_groups _ _ _ Hos2). lia.
  - set (m3 := if m1 <? 0 then 0 else m1). exists m3, w1. assert (m3 = Z.max 0 m1) by (unfold m3; destruct (Z.ltb_spec m1 0); lia).
    split; [done|]. split; [done|]. split; [done|]. split; [lia|]. split; [|split; [by rewrite Hr1|]].
    2:{ split; [by rewrite Hbev1|]. intros Hs0. assert (bw w1 i d = false) as F1 by (unfold bw, flag; by rewrite Hbev1, Hs0). specialize (Hbw1 F1). lia. }
    split; [|split; [|unfold own_cfg; rewrite Hr1, Hc1; intros Hx; rewrite (Hm0 Hx) in *; lia]]; intros r' x; rewrite Hr1; intros [= <-] Hx; [|congruence]. rewrite Hc1 in Hx. rewrite (Hm1 _ Hx) in *. lia.
Qed.

Lemma group_ok_set_limit R g gr d v : group_ok R g gr → - 2 ^ 63 <= v <= maximum d (rate_limit_cfg gr) →
  bucket_ok (rate_limit_cfg gr) (set_LIM d v (rate_limit gr)).
Proof.
  intros [G1 G2 G3 G4 [G5 G5'] G6 G7 G8 G9] Hv. split; [|by rewrite last_set]. intros d'. rewrite LIM_set. case_decide; [by subst|apply G5].
Qed.

Lemma regrouped_trans g gr w1 w2 gr' w3 : regrouped g gr w1 w2 → regrouped g gr' w2 w3 → regrouped g gr' w1 w3.
Proof.
  intros [A1 A2 A3 A4 A5 A6] [B1 B2 B3 B4 B5 B6]. split; [| | |done|congruence|congruence].
  - intros j. by rewrite B1.
  - intros j d. by rewrite B2.
  - intros h Hh. by rewrite B3, A3.
Qed.

(** The group's bucket changes to [b] in direction [d], and the members follow. *)
Lemma group_limit_spec d g w (f : Group → Group) v : inv w → live (groups w) g → - 2 ^ 63 <= v <= maximum d (rate_limit_cfg (groups w g)) →
  (∀ gr, rate_limit (f gr) = set_LIM d v (rate_limit gr) ∧ members (f gr) = members gr ∧ n_members (f gr) = n_members gr ∧ rate_limit_cfg (f gr) = rate_limit_cfg gr ∧
     (∀ d', GROUP_SUSPENDED d' (f gr) = GROUP_SUSPENDED d' gr) ∧ (∀ d', pending_unsuspend d' (f gr) = pending_unsuspend d' gr) ∧
     min_share (f gr) = min_share gr ∧ configured_min_share (f gr) = configured_min_share gr ∧ master_refill (f gr) = master_refill gr) →
  let w1 := upd_group g f w in
  (∃ w', Val (bev_group_suspend d g w1) = Val w' ∧ inv w' ∧ regrouped g (groups w' g) w w') ∧
  (0 < v → ∃ w', bev_group_unsuspend add_ok d g w1 = Val w' ∧ inv w' ∧ regrouped g (groups w' g) w w') ∧
  ((0 < v ∨ GROUP_SUSPENDED d (groups w g) = true) → inv w1 ∧ regrouped g (groups w1 g) w w1).
Proof.
  intros Hi Hl Hv Hf w1. pose proof (iv_group _ Hi g Hl) as Hg. pose proof (group_ok_set_limit _ _ _ d v Hg Hv) as Hbk.
  destruct Hg as [G1 G2 G3 G4 G5 G6 G7 G8 G9]. destruct (Hf (groups w g)) as (F1 & F2 & F3 & F4 & F5 & F6 & F7 & F8 & F9). set (gr := f (groups w g)) in *.
  assert (groups w1 g = gr) as Eg by (unfold w1; by rewrite groups_upd, decide_True).
  assert (regrouped g gr w w1) as Hrg by (split; try done; intros h Hh; unfold w1; by rewrite groups_upd, decide_False).
  assert (∀ s, (v <= 0 → s = true) → group_ok (λ i, group_of (rlim_of i w)) g (set_suspended d s false gr)) as Hgok.
  { intros s Hs. split; cbn; rewrite ?F1, ?F2, ?F3, ?F4, ?F7, ?F8; try done.
    - intros d'. rewrite LIM_set, suspended_set, F5. repeat case_decide; auto.
    - intros d'. rewrite pending_set, F6. case_decide; auto. }
  split; [|split].
  - destruct (group_suspend_spec d g w1) as [Hrs Hbg]. rewrite Eg in Hrs, Hbg. eexists. split; [done|].
    assert (groups (bev_group_suspend d g w1) g = set_suspended d true false gr) as E by apply Hrs. split.
    + apply (inv_regroup d g w w1 _ gr true); try done. by apply Hgok.
    + rewrite E. by apply (regrouped_trans g gr w w1).
  - intros Hpos. destruct (group_unsuspend_spec add_ok d g w1) as (w' & E & Hrs & Hbg); [by rewrite Eg, F3, F2|apply Hi|]. rewrite Eg in Hrs, Hbg. exists w'. split; [done|].
    assert (groups w' g = set_suspended d false false gr) as Eg' by apply Hrs. split.
    + apply (inv_regroup d g w w1 _ gr false); try done. apply Hgok. lia.
    + rewrite Eg'. by apply (regrouped_trans g gr w w1).
  - intros Hor. split; [|by rewrite Eg]. destruct Hrg as [A1 A2 A3 A4 A5 A6]. apply (inv_group g w); try done.
    + by rewrite Eg.
    + unfold live. by rewrite Eg, F9.
    + intros j d'. rewrite Eg, F5. case_decide as Hj; [|done]. change (bwg w1 j d') with (bwg w j d'). by apply member_flags.
    + rewrite Eg. destruct (Hgok (GROUP_SUSPENDED d (groups w g))) as [K1 K2 K3 K4 K5 K6 K7 K8 K9].
      { intros ?. destruct Hor; [lia|done]. }
      cbn in *. split; try done; rewrite ?F1, ?F2, ?F3, ?F4, ?F7, ?F8; try done.
      * intros d' Hle. rewrite F5. specialize (K6 d'). rewrite F1 in K6. specialize (K6 Hle). rewrite suspended_set, F5 in K6. by case_decide; subst.
      * intros d'. by rewrite F6.
Qed.

Lemma decrement_group_spec d g bytes w : inv w → live (groups w) g →
  - 2 ^ 63 <= LIM d (rate_limit (groups w g)) - bytes <= maximum d (rate_limit_cfg (groups w g)) →
  ∃ w', decrement_group add_ok d g bytes w = Val w' ∧ inv w' ∧ regrouped g (groups w' g) w w'.
Proof.
  intros Hi Hl Hv. pose proof (iv_group _ Hi g Hl) as [G1 G2 G3 G4 G5 G6 G7 G8 G9]. pose proof (proj1 G4 d). unfold decrement_group. rewrite i64_small by lia.
  set (v := LIM d (rate_limit (groups w g)) - bytes) in *. set (f := λ gr, add_total d bytes (set_rate_limit (set_LIM d v (rate_limit gr)) gr)).
  destruct (group_limit_spec d g w f v Hi Hl Hv) as (S1 & S2 & S3). { intros gr. unfold f, add_total. by destruct d. }
  destruct (Z.leb_spec v 0); [done|]. destruct (GROUP_SUSPENDED d (groups (upd_group g f w) g)); [by apply S2|]. eexists. split; [done|]. apply S3. by left.
Qed.

(** How many of the [n] bytes a socket has bufferevent_readcb takes: [howmuch] is what the high watermark leaves, -1 without
    one; the smaller of it and [readmax] is converted to int, and evbuffer_read takes a negative number for its own limit
    of 4096. *)
Definition read_at_most (howmuch n readmax : Z) : Z :=
  let howmuch := i32 (if (howmuch <? 0) || (howmuch >? readmax) then readmax else howmuch) in
  Z.min n (if howmuch <? 0 then 4096 else howmuch).
(** How many of the [n] bytes that are in the output and that the socket would take bufferevent_writecb writes: evbuffer_write_atmost
    takes a negative number for all of them. *)
Definition write_at_most (n atmost : Z) : Z := if atmost <? 0 then n else Z.min n atmost.

Definition at_most (d : Dir) (howmuch n m : Z) : Z := match d with DRead => read_at_most howmuch n m | DWrite => write_at_most n m end.

Lemma at_most_le d howmuch n m : 0 <= m < 2 ^ 63 → at_most d howmuch n m <= m.
Proof.
  intros Hm. unfold at_most, read_at_most, write_at_most. destruct d; [|destruct (Z.ltb_spec m 0); lia]. cbv zeta.
  set (h := if _ || _ then m else howmuch). assert (0 <= h <= m) as Hh by (unfold h; destruct (Z.ltb_spec howmuch 0), (Z.gtb_spec howmuch m); cbn [orb]; lia).
  clearbody h. destruct (Z.lt_ge_cases h (2 ^ 31)); [rewrite i32_small by lia; destruct (Z.ltb_spec h 0); lia|].
  pose proof (i32_range h). destruct (Z.ltb_spec (i32 h) 0); lia.
Qed.

Lemma at_most_pos d howmuch n m : 0 < n → 0 < m → (d = DRead → howmuch ≠ 0 ∧ m < 2 ^ 31) → 0 < at_most d howmuch n m.
Proof.
  intros Hn Hm Hd. unfold at_most, read_at_most, write_at_most. destruct d; [|destruct (Z.ltb_spec m 0); lia]. destruct (Hd eq_refl) as [Hh Hb]. cbv zeta.
  destruct (Z.ltb_spec howmuch 0), (Z.gtb_spec howmuch m); cbn [orb]; rewrite i32_small by lia;
    match goal with |- context [?x <? 0] => destruct (Z.ltb_spec x 0) end; lia.
Qed.

(** A limit that fits into an int. *)
Definition narrow (d : Dir) (i : nat) (w : World) : Prop := ∀ c, own_cfg i w = Some c → maximum d c < 2 ^ 31.

(** What bufferevent_readcb does with the limits, behind its check of the high watermark. *)
Definition read_transfer (i : nat) (howmuch n : Z) (w : World) : outcome (Z * World) :=
  '(readmax, w) ← _bufferevent_get_read_max i w;
  if negb (read_suspended (bev (bevs w i)) =? 0) then Val (0, w)
  else
    let res := read_at_most howmuch n readmax in
    if res <=? 0 then Val (0, w)
    else '(_, w) ← _bufferevent_decrement_read_buckets add_ok i res w; Val (res, w).

(** What bufferevent_writecb does with the limits on a connected socket. *)
Definition write_transfer (i : nat) (n : Z) (w : World) : outcome (Z * World) :=
  '(atmost, w) ← _bufferevent_get_write_max i w;
  if negb (write_suspended (bev (bevs w i)) =? 0) then Val (0, w)
  else
    let res := write_at_most n atmost in
    if res <=? 0 then Val (0, w)
    else '(_, w) ← _bufferevent_decrement_write_buckets add_ok i res w; Val (res, w).

Definition transfer (d : Dir) (i : nat) (howmuch n : Z) (w : World) : outcome (Z * World) :=
  match d with DRead => read_transfer i howmuch n w | DWrite => write_transfer i n w end.

(** Both in one. *)
Lemma transfer_eq d i howmuch n w : transfer d i howmuch n w =
  ('(m, w) ← _bufferevent_get_rlim_max d i w;
   if negb (suspended d (bev (bevs w i)) =? 0) then Val (0, w)
   else if at_most d howmuch n m <=? 0 then Val (0, w)
   else '(_, w) ← bufferevent_decrement_buckets add_ok d i (at_most d howmuch n m) w; Val (at_most d howmuch n m, w)).
Proof. by destruct d. Qed.

(** Only the buckets of [i] change, and those of groups: the own bucket is topped up and [n] is taken from it. *)
Definition spent (d : Dir) (i : nat) (n : Z) (w w' : World) : Prop :=
  (∀ j, j ≠ i → rlim_of j w' = rlim_of j w) ∧ now w' = now w ∧
  ∀ r c, rlim_of i w = Some r → rl_cfg r = Some c →
    ∃ t r', ev_token_bucket_get_tick (now w) c = Val t ∧ rlim_of i w' = Some r' ∧ rl_cfg r' = Some c ∧ n <= Z.max 0 (LIM d (refilled (rl_limit r) c t)) ∧
      rl_limit r' = set_LIM d (LIM d (refilled (rl_limit r) c t) - n) (refilled (rl_limit r) c t).

Lemma set_LIM_same d b v : v = LIM d b → set_LIM d v b = b.
Proof. intros ->. by destruct d, b. Qed.

Lemma capped_own d i m w : inv w → 0 <= m → capped d i m w → m < 2 ^ 63 ∧ (narrow d i w → m < 2 ^ 31).
Proof.
  intros Hi Hm (C1 & _ & C3). unfold narrow, own_cfg in *. destruct (rlim_of i w) as [r|] eqn:Hr; [|specialize (C3 eq_refl); lia].
  destruct (rl_cfg r) as [c|] eqn:Hc; [|specialize (C3 eq_refl); lia]. destruct (own_ok_cfg i w r c Hi Hr Hc) as ([Hcfg _] & [Hb _] & _).
  specialize (C1 r c eq_refl Hc). specialize (Hcfg d). specialize (Hb d). split; [lia|]. intros Hn. specialize (Hn c eq_refl). lia.
Qed.

Lemma narrow_same d i w w' : topped_up i w w' → narrow d i w → narrow d i w'.
Proof.
  unfold topped_up, narrow, own_cfg. destruct (rlim_of i w) as [r|]; [|by intros ->]. destruct (rl_cfg r) eqn:Hc; [|intros ->; by rewrite Hc].
  intros (t & _ & ->). cbn. by rewrite Hc.
Qed.

Lemma transfer_spec d i h n w : inv w → ∃ k w', transfer d i h n w = Val (k, w') ∧ inv w' ∧ 0 <= k ∧ spent d i k w w' ∧
  (suspended d (bev (bevs w i)) = 0 → 0 < n → (d = DRead → h ≠ 0 ∧ narrow d i w) → 0 < k).
Proof.
  intros Hi. rewrite transfer_eq. destruct (get_max_spec d i w Hi) as (m & w1 & -> & Hi1 & Hos & Hm & Hcap & Htop & Hsus & Hpm). cbn [mbind outcome_bind].
  assert (spent d i 0 w w1) as Hnone.
  { split; [apply Hos|]. split; [apply Hos|]. intros r c Hr Hc. unfold topped_up in Htop. rewrite Hr, Hc in Htop. destruct Htop as (t & Ht & Hr1).
    eexists t, _. split; [done|]. split; [done|]. split; [done|]. split; [lia|]. rewrite set_LIM_same; [done|lia]. }
  destruct (Z.eqb_spec (suspended d (bev (bevs w1 i))) 0) as [Hs|Hs]; cbn [negb]; [|exists 0, w1; split; [done|]; split; [done|]; split; [done|]; split; [done|congruence]].
  rewrite Hsus in Hs. specialize (Hpm Hs). destruct (capped_own d i m w1 Hi1 Hm Hcap) as [Hm63 Hm31]. pose proof (at_most_le d h n m ltac:(lia)) as Hkm.
  assert (0 < n → (d = DRead → h ≠ 0 ∧ narrow d i w) → 0 < at_most d h n m) as Hkp.
  { intros ? Hw. apply at_most_pos; [done|done|]. intros Hd. destruct (Hw Hd) as [? Hnw]. split; [done|]. by apply Hm31, (narrow_same d i w w1 Htop). }
  set (k := at_most d h n m) in *. destruct (Z.leb_spec k 0); [exists 0, w1; split; [done|]; split; [done|]; split; [done|]; split; [done|intros _ Hn Hw; specialize (Hkp Hn Hw); lia]|].
  unfold bufferevent_decrement_buckets. destruct (rlim_of i w1) as [r1|] eqn:Hr1.
  2:{ cbn [mbind outcome_bind]. exists k, w1. split; [done|]. split; [done|]. split; [lia|]. split; [|lia]. split; [apply Hos|]. split; [apply Hos|]. intros r c Hr Hc.
      unfold topped_up in Htop. rewrite Hr, Hc, Hr1 in Htop. destruct Htop as (t & _ & ?). done. }
  assert (∀ d', bwg w1 i d' = true → suspended d' (bev (bevs w1 i)) ≠ 0) as Hflag.
  { intros d' Hb. unfold bwg, flag in Hb. intros E. by rewrite E in Hb. }
  (* the own bucket *)
  assert (∃ rc w2, decrement_own add_ok d i k w1 = (rc, w2) ∧ inv w2 ∧ own_step i w1 w2 ∧ spent d i k w w2) as (rc & w2 & -> & Hi2 & Hos2 & Hsp).
  { destruct (rl_cfg r1) as [c|] eqn:Hc.
    - destruct (own_ok_cfg i w1 r1 c Hi1 Hr1 Hc) as (Hcfg & Hb & _). pose proof (proj1 Hb d). pose proof (proj1 Hcap r1 c Hr1 Hc).
      destruct (decrement_own_spec add_ok Hadd d i k w1 r1 c Hi1 Hr1 Hc ltac:(lia)) as (rc & w2 & E & Hi2 & Hos2 & r2 & Hr2 & Hc2 & Hl2).
      exists rc, w2. split; [done|]. split; [done|]. split; [done|]. split; [|split].
      + intros j Hj. rewrite (os_others _ _ _ Hos2), (os_others _ _ _ Hos) by done. done.
      + rewrite (os_now _ _ _ Hos2). apply Hos.
      + intros r c' Hr Hc'. unfold topped_up in Htop. rewrite Hr, Hc', Hr1 in Htop. destruct Htop as (t & Ht & [= ->]). cbn in Hc, Hl2. assert (c' = c) as -> by congruence.
        exists t, r2. cbn in *. split; [done|]. split; [done|]. split; [done|]. split; [lia|done].
    - unfold decrement_own. rewrite Hr1, Hc. exists 0, w1. split; [done|]. split; [done|]. split; [apply own_step_refl|]. split; [apply Hos|]. split; [apply Hos|].
      intros r c' Hr Hc'. unfold topped_up in Htop. rewrite Hr, Hc', Hr1 in Htop. destruct Htop as (t & Ht & [= ->]). cbn in Hc. congruence. }
  destruct (rl_group r1) as [g|] eqn:Hg; [|cbn [mbind outcome_bind]; exists k, w2; split; [done|]; split; [done|]; split; [lia|]; split; [done|lia]].
  pose proof (iv_member _ Hi1 i) as Hmem. rewrite Hr1 in Hmem. cbn [group_of] in Hmem. rewrite Hg in Hmem. destruct Hmem as (Hl & Hin & Hf).
  pose proof (iv_group _ Hi1 g Hl) as [G1 G2 G3 G4 G5 G6 G7 G8 G9].
  assert (0 < LIM d (rate_limit (groups w1 g))) as Hpos.
  { destruct (Z.lt_ge_cases 0 (LIM d (rate_limit (groups w1 g)))) as [|Hle]; [done|]. destruct (Hflag d); [by rewrite Hf, (G6 d Hle)|congruence]. }
  pose proof (proj1 (proj2 Hcap) r1 g Hr1 Hg). pose proof (G8 d). pose proof (proj1 G5 d). pose proof (proj1 G4 d).
  assert (groups w2 = groups w1) as Eg2 by apply Hos2.
  destruct (decrement_group_spec d g k w2 Hi2 ltac:(by rewrite Eg2) ltac:(rewrite Eg2; lia)) as (w3 & -> & Hi3 & [B1 B2 B3 B4 B5 B6]).
  cbn [mbind outcome_bind]. exists k, w3. split; [done|]. split; [done|]. split; [lia|]. split; [|lia]. destruct Hsp as (P1 & P2 & P3). split; [|split; [congruence|]].
  - intros j Hj. rewrite B1. auto.
  - intros r c Hr Hc. rewrite B1. auto.
Qed.

(** ** Timers *)

(** The refill timer of [i] goes off. *)
Definition refill_fires (i : nat) (w : World) : outcome World :=
  match rlim_of i w with
  | Some r => if decide (rl_refill r = Pending) then _bev_refill_callback add_ok i (upd_rlim i (set_refill Idle) w) else Val w
  | None => Val w
  end.

Lemma refill_resume_spec d i w r : rlim_of i w = Some r →
  ∃ again w', refill_resume add_ok d i w = (again, w') ∧ own_step i w w' ∧ rlim_of i w' = Some r ∧
    (again = bw w i d && (LIM d (rl_limit r) <=? 0)) ∧ (∀ d', bw w' i d' = if decide (d' = d) then again else bw w i d').
Proof.
  intros Hr. unfold refill_resume. rewrite Hr. change (has (suspended d (bev (bevs w i))) BEV_SUSPEND_BW) with (bw w i d). destruct (bw w i d) eqn:Eb.
  - destruct (Z.gtb_spec (LIM d (rl_limit r)) 0), (Z.leb_spec (LIM d (rl_limit r)) 0); try lia.
    + eexists _, _. split; [done|]. split; [apply own_unsuspend|]. split; [by rewrite rlim_upd_state|]. split; [done|]. intros d'. apply bw_unsuspend.
    + eexists _, w. split; [done|]. split; [apply own_step_refl|]. split; [done|]. split; [done|]. intros d'. case_decide; by subst.
  - eexists _, w. split; [done|]. split; [apply own_step_refl|]. split; [done|]. split; [done|]. intros d'. case_decide; by subst.
Qed.

(** After the refill timer the bufferevent is suspended only in the directions that are still without tokens. *)
Lemma refill_fires_spec i w r c : inv w → rlim_of i w = Some r → rl_cfg r = Some c → rl_refill r = Pending →
  ∃ t w' r', ev_token_bucket_get_tick (now w) c = Val t ∧ refill_fires i w = Val w' ∧ inv w' ∧ own_step i w w' ∧ rlim_of i w' = Some r' ∧
    rl_cfg r' = Some c ∧ rl_limit r' = refilled (rl_limit r) c t ∧
    (∀ d, bw w' i d = bw w i d && (LIM d (refilled (rl_limit r) c t) <=? 0)).
Proof.
  intros Hi Hr Hc Hp. destruct (own_ok_cfg i w r c Hi Hr Hc) as (Hcfg & Hb & _ & Hd). destruct (get_tick_spec (now w) c Hcfg) as (t & Ht & Htr).
  unfold refill_fires. rewrite Hr, decide_True by done. unfold _bev_refill_callback. set (w0 := upd_rlim i (set_refill Idle) w).
  assert (rlim_of i w0 = Some (set_refill Idle r)) as -> by (unfold w0; by rewrite rlim_upd_rlim, decide_True, Hr). cbn [rl_cfg set_refill]. rewrite Hc.
  change (now w0) with (now w). rewrite Ht. cbn [mbind outcome_bind rl_limit set_refill]. rewrite update_spec by done. set (b := refilled (rl_limit r) c t).
  set (w1 := upd_rlim i (set_limit b) w0). set (r1 := set_limit b (set_refill Idle r)).
  assert (own_step i w w1) as Hos1 by (apply (own_step_trans i w w0); by apply own_rlim).
  assert (rlim_of i w1 = Some r1) as Hr1 by (unfold w1, w0; by rewrite !rlim_upd_rlim, !decide_True, Hr).
  assert (∀ d, bw w1 i d = bw w i d) as Hbw1 by (intros d; unfold w1, w0; by rewrite !bw_rlim).
  destruct (refill_resume_spec DRead i w1 r1 Hr1) as (ar & w2 & -> & Hos2 & Hr2 & Har & Hbw2). destruct (refill_resume_spec DWrite i w2 r1 Hr2) as (aw & w3 & -> & Hos3 & Hr3 & Haw & Hbw3).
  rewrite Hbw1 in Har. rewrite Hbw2, decide_False, Hbw1 in Haw by done. change (rl_limit r1) with b in *.
  assert (∀ d, bw w3 i d = bw w i d && (LIM d b <=? 0)) as Hbw.
  { intros d. rewrite Hbw3. destruct d; [by rewrite decide_False, Hbw2, decide_True by done|by rewrite decide_True by done]. }
  assert (own_step i w w3) as Hos by (apply (own_step_trans i w w1); [done|]; by apply (own_step_trans i w1 w2)).
  assert (∀ d, LIM d b <= 0 → bw w3 i d = true) as Hempty.
  { intros d Hle. rewrite Hbw. apply andb_true_iff. split; [|by apply Z.leb_le]. apply Hd. pose proof (refilled_more (rl_limit r) c t d Hcfg Hb). unfold b in Hle. lia. }
  exists t. destruct (ar || aw) eqn:Eor.
  - rewrite add_refill_spec by done. cbn [snd]. set (w4 := upd_rlim i _ w3). exists w4, (set_refill Pending r1).
    assert (rlim_of i w4 = Some (set_refill Pending r1)) as Hr4 by (unfold w4; by rewrite rlim_upd_rlim, decide_True, Hr3).
    assert (∀ d, bw w4 i d = bw w3 i d) as Hbw4 by (intros; apply bw_rlim). assert (own_step i w w4) as Hos4 by (apply (own_step_trans i w w3); [done|]; by apply own_rlim).
    split; [done|]. split; [done|]. split; [|split; [done|]; split; [done|]; split; [done|]; split; [done|]; intros d; by rewrite Hbw4].
    apply (own_inv i w); [done|done|]. unfold own_ok. rewrite Hr4. cbn. rewrite Hc. split; [done|]. split; [by apply refilled_ok|]. split; [done|].
    intros d. rewrite Hbw4. split; [apply Hempty|done].
  - exists w3, r1. split; [done|]. split; [done|]. split; [|done]. apply (own_inv i w); [done|done|]. unfold own_ok. rewrite Hr3. cbn. rewrite Hc.
    split; [done|]. split; [by apply refilled_ok|]. split; [done|]. intros d. split; [apply Hempty|]. rewrite Hbw.
    intros Hb'. exfalso. destruct d; [rewrite <- Har in Hb'|rewrite <- Haw in Hb']; apply orb_false_iff in Eor as [-> ->]; done.
Qed.

(** Group [g] changes, but neither its members nor their suspension. *)
Lemma inv_upd_group g f w : inv w → live (groups w) g → members (f (groups w g)) = members (groups w g) →
  (∀ d, GROUP_SUSPENDED d (f (groups w g)) = GROUP_SUSPENDED d (groups w g)) → master_refill (f (groups w g)) ≠ Unassigned →
  group_ok (λ i, group_of (rlim_of i w)) g (f (groups w g)) → inv (upd_group g f w) ∧ regrouped g (f (groups w g)) w (upd_group g f w).
Proof.
  intros Hi Hl Hm Hs Hr Hg. assert (groups (upd_group g f w) g = f (groups w g)) as Eg by (by rewrite groups_upd, decide_True).
  assert (∀ h, h ≠ g → groups (upd_group g f w) h = groups w h) as Eo by (intros; by rewrite groups_upd, decide_False).
  split; [|by split]. apply (inv_group g w); try done.
  - by rewrite Eg.
  - unfold live. by rewrite Eg.
  - intros j d. rewrite Eg, Hs. case_decide as Hj; [|done]. change (bwg (upd_group g f w) j d) with (bwg w j d). by apply member_flags.
  - by rewrite Eg.
Qed.

(** The refill timer of group [g] goes off. *)
Definition group_refill_fires (g : nat) (w : World) : outcome World :=
  if decide (master_refill (groups w g) = Pending) then _bev_group_refill_callback add_ok g w else Val w.

Lemma group_resume_spec d g w : inv w → live (groups w) g →
  ∃ w', group_resume add_ok d g w = Val w' ∧ inv w' ∧ regrouped g (groups w' g) w w' ∧ master_refill (groups w' g) = master_refill (groups w g).
Proof.
  intros Hi Hl. pose proof (iv_group _ Hi g Hl) as Hg. destruct Hg as [G1 G2 G3 G4 G5 G6 G7 G8 G9]. unfold group_resume. rewrite G7. cbn [orb].
  destruct (GROUP_SUSPENDED d (groups w g)) eqn:Es; cbn [andb]; [|by exists w].
  destruct (Z.geb_spec (LIM d (rate_limit (groups w g))) (min_share (groups w g))) as [Hge|]; [|by exists w]. pose proof (G8 d).
  destruct (group_unsuspend_spec add_ok d g w G3 (iv_rand _ Hi)) as (w' & E & Hrs & Hbg). exists w'. split; [done|].
  assert (groups w' g = set_suspended d false false (groups w g)) as Eg by apply Hrs. rewrite Eg. split; [|done].
  apply (inv_regroup d g w w w' (groups w g) false); try done. split; cbn; try done.
  - intros d'. rewrite suspended_set. case_decide; [subst; lia|auto].
  - intros d'. rewrite pending_set. case_decide; auto.
Qed.

Lemma group_refill_spec g w : inv w → ∃ w', group_refill_fires g w = Val w' ∧ inv w' ∧ (∀ j, rlim_of j w' = rlim_of j w) ∧ now w' = now w.
Proof.
  intros Hi. unfold group_refill_fires. case_decide as Hp; [|by exists w]. assert (live (groups w) g) as Hl by (unfold live; by rewrite Hp).
  pose proof (iv_group _ Hi g Hl) as Hg. pose proof Hg as [G1 G2 G3 G4 G5 G6 G7 G8 G9]. destruct (get_tick_spec (now w) _ G4) as (t & Ht & Htr).
  unfold _bev_group_refill_callback. rewrite Ht. cbn [mbind outcome_bind]. rewrite update_spec by done. set (b := refilled _ _ t).
  destruct (inv_upd_group g (set_rate_limit b) w Hi Hl) as [Hi1 Hr1]; [done|by intros []|cbn; by rewrite Hp|..].
  { split; cbn; try done; [by apply refilled_ok|]. intros d Hle. assert (LIM d (rate_limit (groups w g)) <= 0) as Hle0.
    { pose proof (refilled_more _ _ t d G4 G5). unfold b in Hle. lia. } specialize (G6 d Hle0). by destruct d. }
  set (w1 := upd_group g _ w) in *. assert (live (groups w1) g) as Hl1 by (unfold live; rewrite (rg_group _ _ _ _ Hr1); cbn; by rewrite Hp).
  destruct (group_resume_spec DRead g w1 Hi1 Hl1) as (w2 & -> & Hi2 & Hr2 & Hm2). cbn [mbind outcome_bind].
  destruct (group_resume_spec DWrite g w2 Hi2) as (w3 & -> & Hi3 & Hr3 & _); [unfold live; by rewrite Hm2|]. exists w3. split; [done|]. split; [done|].
  split; [|by rewrite (rg_now _ _ _ _ Hr3), (rg_now _ _ _ _ Hr2)]. intros j. by rewrite (rg_rlim _ _ _ _ Hr3), (rg_rlim _ _ _ _ Hr2), (rg_rlim _ _ _ _ Hr1).
Qed.

(** ** What the program does *)

Lemma group_decrement_spec d g decr w : inv w → live (groups w) g →
  - 2 ^ 63 <= LIM d (rate_limit (groups w g)) - decr <= maximum d (rate_limit_cfg (groups w g)) →
  ∃ w', group_decrement add_ok d g decr w = Val w' ∧ inv w' ∧ regrouped g (groups w' g) w w'.
Proof.
  intros Hi Hl Hv. pose proof (iv_group _ Hi g Hl) as [G1 G2 G3 G4 G5 G6 G7 G8 G9]. pose proof (proj1 G4 d). unfold group_decrement. rewrite i64_small by lia.
  set (old := LIM d (rate_limit (groups w g))) in *. set (v := old - decr) in *. set (f := λ gr, set_rate_limit (set_LIM d v (rate_limit gr)) gr).
  destruct (group_limit_spec d g w f v Hi Hl Hv) as (S1 & S2 & S3). { intros gr. unfold f. by destruct d. }
  destruct (andb (old >? 0) _) eqn:E1; [done|]. destruct (andb (old <=? 0) _) eqn:E2; [zbool; by apply S2|]. eexists. split; [done|]. apply S3.
  destruct (Z.lt_ge_cases 0 v); [by left|]. right. apply G6. destruct (Z.gtb_spec old 0), (Z.leb_spec v 0); done || lia.
Qed.
End run.
