(* ===== verification/RateConf.v ===== *)
(** Setting limits, joining and leaving groups, and configuring groups keep the invariant of rate
    limits (RateInv.v). *)

From stdpp Require Import functions.
From S2P Require Import Prelude EvFlags BufChain BufevData Bufev RateLimit RateInv RateRun.

Lemma filter_not_in (l : list nat) i : i ∉ l → filter (.≠ i) l = l.
Proof.
  induction l as [|x l IH]; [done|]. rewrite not_elem_of_cons. intros [Hx Hl]. rewrite filter_cons, decide_True by done. by rewrite IH.
Qed.
Lemma filter_out_len (l : list nat) i : NoDup l → i ∈ l → Zlen (filter (.≠ i) l) = Zlen l - 1.
Proof.
  induction l as [|x l IH]; intros Hnd Hi; [by apply not_elem_of_nil in Hi|]. apply NoDup_cons in Hnd as [Hx Hnd]. rewrite filter_cons, Zlen_cons.
  destruct (decide (x ≠ i)) as [Hne|Heq]; [rewrite Zlen_cons, IH; [lia|done|set_solver]|]. rewrite filter_not_in; [lia|]. by destruct (decide (x = i)) as [->|].
Qed.

Section conf.
Context (add_ok : Z → bool) (Hadd : add_ok EV_TIMEOUT = true).

(** ** The own limit *)

Lemma rlim_set i o w j : rlim_of j (upd_bev i (set_rlim o) w) = if decide (j = i) then o else rlim_of j w.
Proof. unfold rlim_of. rewrite bevs_upd. by case_decide. Qed.
Lemma flag_set_rlim q i o w j d : flag q (upd_bev i (set_rlim o) w) j d = flag q w j d.
Proof. unfold flag. rewrite bevs_upd. case_decide; by subst. Qed.

Lemma own_set i o w : group_of o = group_of (rlim_of i w) → own_step i w (upd_bev i (set_rlim o) w).
Proof.
  intros Hg. split; [| | |done..|].
  - intros j Hj. by rewrite rlim_set, decide_False.
  - intros j Hj d. apply flag_set_rlim.
  - intros j d. apply flag_set_rlim.
  - by rewrite rlim_set, decide_True.
Qed.

Lemma apply_limit_spec d i l w : ∃ w', apply_limit add_ok d i l w = (LIM d l <=? 0, w') ∧ own_step i w w' ∧ rlim_of i w' = rlim_of i w ∧
  ∀ d', bw w' i d' = if decide (d' = d) then LIM d l <=? 0 else bw w i d'.
Proof.
  unfold apply_limit. destruct (Z.gtb_spec (LIM d l) 0), (Z.leb_spec (LIM d l) 0); try lia.
  - eexists. split; [done|]. split; [apply own_unsuspend|]. split; [apply rlim_upd_state|]. intros d'. apply bw_unsuspend.
  - eexists. split; [done|]. split; [apply own_suspend|]. split; [apply rlim_upd_state|]. intros d'. apply bw_suspend.
Qed.

Lemma drop_limit_spec i w r : inv w → rlim_of i w = Some r →
  ∃ w', bufferevent_set_rate_limit add_ok true i None w = Val (0, w') ∧ inv w' ∧ own_step i w w'.
Proof.
  intros Hi Hr. unfold bufferevent_set_rate_limit. rewrite Hr. set (w1 := upd_rlim i (set_cfg None) w). set (w2 := upd_state i _ w1). set (w3 := upd_state i _ w2).
  assert (own_step i w w3) as Hos.
  { apply (own_step_trans i w w1); [by apply own_rlim|]. apply (own_step_trans i w1 w2); apply own_unsuspend. }
  assert (rlim_of i w3 = Some (set_cfg None r)) as Hr3 by (unfold w3, w2, w1; by rewrite !rlim_upd_state, rlim_upd_rlim, decide_True, Hr).
  assert (∀ d, bw w3 i d = false) as Hbw by (intros d; unfold w3, w2; rewrite !bw_unsuspend; by destruct d).
  assert (inv w3) as Hi3 by (apply (own_inv i w); [done|done|]; unfold own_ok; by rewrite Hr3).
  destruct (rl_refill r); [by exists w3| |].
  all: exists (del_refill i w3); split; [done|]; split; [|apply (own_step_trans i w w3); [done|]; by apply own_rlim].
  all: apply (own_inv i w3); [done|by apply own_rlim|]; unfold own_ok, del_refill; rewrite rlim_upd_rlim, decide_True, Hr3 by done; cbn; intros d; by rewrite bw_rlim.
Qed.

Lemma set_rate_limit_spec calloc i cfg w : inv w → (∀ c, cfg = Some c → cfg_ok c) →
  ∃ rc w', bufferevent_set_rate_limit add_ok calloc i cfg w = Val (rc, w') ∧ inv w' ∧ own_step i w w'.
Proof.
  intros Hi Hcfg. destruct cfg as [c|].
  2:{ destruct (rlim_of i w) as [r|] eqn:Hr; [destruct (drop_limit_spec i w r Hi Hr) as (w' & E & H1 & H2); by exists 0, w'|].
      unfold bufferevent_set_rate_limit. rewrite Hr. exists 0, w. split; [done|]. split; [done|]. apply own_step_refl. }
  specialize (Hcfg c eq_refl). unfold bufferevent_set_rate_limit. destruct (get_tick_spec (now w) c Hcfg) as (t & -> & Ht). cbn [mbind outcome_bind].
  destruct (match rlim_of i w with Some r => _ | None => false end). { exists 0, w. split; [done|]. split; [done|]. apply own_step_refl. }
  pose proof (iv_own _ Hi i) as Ho.
  assert (rlim_of i w = None ∧ calloc = false ∨ ∀ A (x y : A), (match rlim_of i w, calloc with None, false => x | _, _ => y end) = y) as [[-> ->]|Hy].
  { destruct (rlim_of i w), calloc; naive_solver. }
  { exists (-1), w. split; [done|]. split; [done|]. apply own_step_refl. }
  replace (match rlim_of i w with Some _ => _ | None => _ end) with
    (let rlim := default calloc_rlim (rlim_of i w) in
     let reinit := match rl_cfg rlim with Some _ => true | None => false end in
     let limit := ev_token_bucket_init (rl_limit rlim) c t reinit in
     if reinit && match rl_refill rlim with Unassigned => true | _ => false end then Undef AssertFail
     else
       let rlim := {| rl_group := rl_group rlim; rl_limit := limit; rl_cfg := Some c; rl_refill := Idle |} in
       let w := upd_bev i (set_rlim (Some rlim)) w in
       let '(susp_r, w) := apply_limit add_ok DRead i limit w in
       let '(susp_w, w) := apply_limit add_ok DWrite i limit w in
       Val (0, if susp_r || susp_w then (add_refill add_ok i w).2 else w)).
  2:{ clear Ho. by destruct (rlim_of i w), calloc. }
  cbv zeta. set (rl := default calloc_rlim (rlim_of i w)). set (reinit := match rl_cfg rl with Some _ => true | None => false end).
  set (limit := ev_token_bucket_init (rl_limit rl) c t reinit).
  assert (reinit && match rl_refill rl with Unassigned => true | _ => false end = false ∧ bucket_ok c limit) as [-> Hlim].
  { unfold own_ok in Ho. unfold limit, reinit, rl. destruct (rlim_of i w) as [r|]; cbn [from_option id] in *.
    - destruct (rl_cfg r) as [c0|]; [|split; [done|by apply init_ok with c]]. destruct Ho as (O1 & O2 & O3 & O4). split; [by destruct (rl_refill r)|]. by apply (init_ok _ c0).
    - split; [done|]. by apply init_ok with c. }
  set (w1 := upd_bev i _ w). set (r1 := {| rl_group := rl_group rl; rl_limit := limit; rl_cfg := Some c; rl_refill := Idle |}) in *.
  assert (own_step i w w1) as Hos1 by (apply own_set; unfold r1, rl; cbn; by destruct (rlim_of i w)).
  assert (rlim_of i w1 = Some r1) as Hr1 by (unfold w1; by rewrite rlim_set, decide_True).
  destruct (apply_limit_spec DRead i limit w1) as (w2 & -> & Hos2 & Hr2 & Hbw2). destruct (apply_limit_spec DWrite i limit w2) as (w3 & -> & Hos3 & Hr3 & Hbw3).
  assert (∀ d, bw w3 i d = (LIM d limit <=? 0)) as Hbw by (intros d; rewrite Hbw3, Hbw2; by destruct d).
  assert (own_step i w w3) as Hos by (apply (own_step_trans i w w1); [done|]; by apply (own_step_trans i w1 w2)). rewrite Hr2, Hr1 in Hr3.
  destruct (orb _ _) eqn:Eor.
  - rewrite add_refill_spec by done. cbn [snd]. set (w4 := upd_rlim i _ w3). exists 0, w4. split; [done|].
    assert (own_step i w w4) as Hos4 by (apply (own_step_trans i w w3); [done|]; by apply own_rlim). split; [|done].
    apply (own_inv i w); [done|done|]. unfold own_ok, w4. rewrite rlim_upd_rlim, decide_True, Hr3 by done. cbn. split; [done|]. split; [done|]. split; [done|].
    intros d. split; [|done]. rewrite bw_rlim, Hbw. apply Z.leb_le.
  - exists 0, w3. split; [done|]. split; [|done]. apply (own_inv i w); [done|done|]. unfold own_ok. rewrite Hr3. cbn. split; [done|]. split; [done|]. split; [done|].
    intros d. rewrite Hbw. split; [apply Z.leb_le|]. apply orb_false_iff in Eor as [E1 E2]. destruct d; [by rewrite E1|by rewrite E2].
Qed.

(** ** Membership *)

Lemma own_ok_group r g bw' : own_ok (Some r) bw' → own_ok (Some (set_group g r)) bw'.
Proof. done. Qed.
Lemma own_ok_ext o b1 b2 : (∀ d, b1 d = b2 d) → own_ok o b1 → own_ok o b2.
Proof.
  intros Hb. unfold own_ok. destruct o as [r|]; [|intros H d; by rewrite <- Hb]. destruct (rl_cfg r); [|intros H d; by rewrite <- Hb].
  intros (C1 & C2 & C3 & C4). split; [done|]. split; [done|]. split; [done|]. intros d. rewrite <- Hb. apply C4.
Qed.

(** Both directions of the suspension by the group are lifted. *)
Lemma unsuspend_both i w : let w' := upd_state i (unsuspend add_ok DWrite BEV_SUSPEND_BW_GROUP) (upd_state i (unsuspend add_ok DRead BEV_SUSPEND_BW_GROUP) w) in
  (∀ j, rlim_of j w' = rlim_of j w) ∧ (∀ j d, bw w' j d = bw w j d) ∧ (∀ j d, bwg w' j d = if decide (j = i) then false else bwg w j d).
Proof.
  cbv zeta. split; [intros j; by rewrite !rlim_upd_state|]. split.
  - intros j d. unfold bw. rewrite !flag_unsuspend by (by left + by right). by rewrite !decide_False by (intros (_ & _ & ?); done).
  - intros j d. unfold bwg. rewrite !flag_unsuspend by (by right). destruct d; repeat case_decide; naive_solver.
Qed.

Lemma leave_spec i w : inv w →
  let w' := bufferevent_remove_from_rate_limit_group add_ok i w in
  inv w' ∧ group_of (rlim_of i w') = None ∧ (∀ j, j ≠ i → rlim_of j w' = rlim_of j w) ∧ now w' = now w ∧
  rlim_of i w' = set_group None <$> rlim_of i w ∧ (∀ g, live (groups w') g ↔ live (groups w) g).
Proof. clear Hadd.
  intros Hi w'. unfold w', bufferevent_remove_from_rate_limit_group, bufferevent_remove_from_rate_limit_group_internal.
  destruct (group_of (rlim_of i w)) as [g|] eqn:Eg.
  - destruct (rlim_of i w) as [r|] eqn:Hr; [|done]. cbn [group_of] in Eg. rewrite Eg. set (w1 := upd_rlim i _ w). set (w2 := upd_group g _ w1).
    destruct (unsuspend_both i w2) as (U1 & U2 & U3). set (w3 := upd_state i _ _) in *.
    pose proof (iv_member _ Hi i) as Hm. rewrite Hr in Hm. cbn [group_of] in Hm. rewrite Eg in Hm. destruct Hm as (Hl & Hin & Hf). pose proof (iv_group _ Hi g Hl) as [G1 G2 G3 G4 G5 G6 G7 G8 G9].
    assert (∀ j, rlim_of j w3 = if decide (j = i) then Some (set_group None r) else rlim_of j w) as Hrl.
    { intros j. rewrite U1. unfold w2, w1. rewrite rlim_upd_group, rlim_upd_rlim, Hr. done. }
    assert (∀ j d, bw w3 j d = bw w j d) as Hbw by (intros; rewrite U2; unfold w2, w1; apply bw_rlim).
    assert (∀ j d, bwg w3 j d = if decide (j = i) then false else bwg w j d) as Hbwg by (intros; rewrite U3; case_decide; [done|]; apply flag_upd_rlim).
    set (gr := set_members (filter (.≠ i) (members (groups w g))) (n_members (groups w g) - 1) (groups w g)).
    assert (∀ h, groups w3 h = if decide (h = g) then gr else groups w h) as HG by (intros h; change (groups w3 h) with (groups w2 h); unfold w2; by rewrite groups_upd).
    assert (∀ h, live (groups w3) h ↔ live (groups w) h) as Hlive by (intros h; unfold live; rewrite HG; case_decide; by subst).
    assert (∀ d, GROUP_SUSPENDED d gr = GROUP_SUSPENDED d (groups w g)) as Hsus by (by intros []).
    split; [split|].
    + intros j. rewrite Hrl. apply (own_ok_ext _ (bw w j)); [by intros; rewrite Hbw|]. case_decide; [subst; apply own_ok_group; rewrite <- Hr|]; apply Hi.
    + intros j. rewrite Hrl. case_decide; [subst; intros d; by rewrite Hbwg, decide_True|]. pose proof (iv_member _ Hi j) as Hmj. unfold member_ok in *.
      destruct (group_of (rlim_of j w)) as [h|]; [|intros d; rewrite Hbwg, decide_False by done; apply Hmj]. destruct Hmj as (M1 & M2 & M3).
      split; [by apply Hlive|]. rewrite HG. destruct (decide (h = g)) as [->|].
      * split; [apply list_elem_of_filter; done|]. intros d. rewrite Hbwg, decide_False, Hsus by done. apply M3.
      * split; [done|]. intros d. rewrite Hbwg, decide_False by done. apply M3.
    + intros h Hh. apply Hlive in Hh. rewrite HG. destruct (decide (h = g)) as [->|Hne].
      * split; cbn; try done; [by apply NoDup_filter| |by rewrite filter_out_len, G3].
        intros j Hj. apply list_elem_of_filter in Hj as [Hji Hj]. rewrite Hrl, decide_False by done. by apply G2.
      * destruct (iv_group _ Hi h Hh) as [K1 K2 K3 K4 K5 K6 K7 K8 K9]. split; try done. intros j Hj. rewrite Hrl. case_decide; [subst j|by apply K2].
        pose proof (K2 i Hj) as Hc. rewrite Hr in Hc. cbn in Hc. congruence.
    + apply Hi.
    + rewrite !Hrl, decide_True by done. split; [done|]. split; [intros j Hj; by rewrite Hrl, decide_False|]. split; [done|]. done.
  - destruct (unsuspend_both i w) as (U1 & U2 & U3). set (w3 := upd_state i _ _) in *.
    assert ((match rlim_of i w with Some r => match rl_group r with Some g => upd_group g (λ gr, set_members (filter (.≠ i) (members gr)) (n_members gr - 1) gr) (upd_rlim i (set_group None) w) | None => w end | None => w end) = w) as ->.
    { destruct (rlim_of i w) as [r|]; [|done]. cbn in Eg. by rewrite Eg. }
    fold w3. assert (∀ j d, bwg w3 j d = bwg w j d) as Hbwg.
    { intros j d. rewrite U3. case_decide; [subst|done]. pose proof (iv_member _ Hi i) as Hm. rewrite Eg in Hm. by rewrite Hm. }
    assert (own_step i w w3) as Hos by (split; [intros; apply U1|intros; apply U2|done|done|done|done|by rewrite U1]).
    split; [apply (own_inv i w); [done|done|]; rewrite U1; apply (own_ok_ext _ (bw w i)); [by intros; rewrite U2|apply Hi]|].
    rewrite U1. split; [done|]. split; [intros; apply U1|]. split; [done|]. split; [|done]. destruct (rlim_of i w) as [r|]; [|done]. cbn in *. by destruct r; cbn in *; subst.
Qed.

Lemma join_spec i g w r : inv w → rlim_of i w = Some r → rl_group r = None → live (groups w) g → inv (join_group i g w) ∧
  (∀ j, j ≠ i → rlim_of j (join_group i g w) = rlim_of j w) ∧ now (join_group i g w) = now w.
Proof.
  intros Hi Hr Hg Hl. pose proof (iv_group _ Hi g Hl) as [G1 G2 G3 G4 G5 G6 G7 G8 G9]. unfold join_group.
  set (w1 := upd_rlim i _ w). set (w2 := upd_group g _ w1). set (gr := set_members (members (groups w g) ++ [i]) (n_members (groups w g) + 1) (groups w g)).
  assert (groups w2 g = gr) as Eg by (unfold w2; by rewrite groups_upd, decide_True). rewrite Eg. change (g_read_suspended gr) with (g_read_suspended (groups w g)). change (g_write_suspended gr) with (g_write_suspended (groups w g)).
  set (w3 := if g_read_suspended (groups w g) then _ else w2). set (w4 := if g_write_suspended (groups w g) then _ else w3).
  pose proof (iv_member _ Hi i) as Hm. rewrite Hr in Hm. cbn [group_of] in Hm. rewrite Hg in Hm. cbn in Hm.
  assert (∀ j, rlim_of j w4 = if decide (j = i) then Some (set_group (Some g) r) else rlim_of j w) as Hrl.
  { intros j. unfold w4, w3. destruct (g_write_suspended (groups w g)), (g_read_suspended (groups w g)); rewrite ?rlim_upd_state; unfold w2, w1; by rewrite rlim_upd_group, rlim_upd_rlim, Hr. }
  assert (∀ q j d, is_bw q → flag q w4 j d = if decide (q = BEV_SUSPEND_BW_GROUP ∧ j = i ∧ GROUP_SUSPENDED d (groups w g) = true) then true else flag q w j d) as Hfl.
  { intros q j d Hq. assert (flag q w2 j d = flag q w j d) as E2 by (unfold w2, w1; apply flag_upd_rlim). unfold w4, w3.
    destruct (g_write_suspended (groups w g)) eqn:Ew, (g_read_suspended (groups w g)) eqn:Er; rewrite ?flag_suspend by (by right + done); rewrite ?E2.
    all: destruct d; cbn [GROUP_SUSPENDED]; rewrite ?Ew, ?Er; repeat case_decide; naive_solver. }
  assert (∀ h, groups w4 h = if decide (h = g) then gr else groups w h) as HG.
  { intros h. assert (groups w4 h = groups w2 h) as -> by (unfold w4, w3; by destruct (g_write_suspended (groups w g)), (g_read_suspended (groups w g))). unfold w2. by rewrite groups_upd. }
  assert (∀ h, live (groups w4) h ↔ live (groups w) h) as Hlive by (intros h; unfold live; rewrite HG; case_decide; by subst).
  assert (∀ d, GROUP_SUSPENDED d gr = GROUP_SUSPENDED d (groups w g)) as Hsus by (by intros []).
  assert (now w4 = now w ∧ weakrand w4 = weakrand w) as [Hnow Hrand] by (unfold w4, w3; by destruct (g_write_suspended (groups w g)), (g_read_suspended (groups w g))).
  split; [split|split; [|done]].
  - intros j. rewrite Hrl. apply (own_ok_ext _ (bw w j)).
    { intros d. unfold bw. rewrite Hfl by (by left). rewrite decide_False; [done|]. by intros [? _]. }
    case_decide; [subst; apply own_ok_group; rewrite <- Hr|]; apply Hi.
  - intros j. rewrite Hrl. destruct (decide (j = i)) as [->|Hj]; cbn [group_of set_group rl_group].
    + split; [by apply Hlive|]. rewrite HG, decide_True by done. split; [cbn; apply elem_of_app; right; by left|]. intros d. rewrite Hsus. unfold bwg. rewrite Hfl by (by right).
      case_decide as Hc; [by destruct Hc as (_ & _ & ->)|]. destruct (GROUP_SUSPENDED d (groups w g)) eqn:Es; [naive_solver|]. apply Hm.
    + pose proof (iv_member _ Hi j) as Hmj. assert (∀ d, bwg w4 j d = bwg w j d) as Hb by (intros d; unfold bwg; rewrite Hfl by (by right); by rewrite decide_False by naive_solver).
      unfold member_ok in *. destruct (group_of (rlim_of j w)) as [h|]; [|intros d; rewrite Hb; apply Hmj]. destruct Hmj as (M1 & M2 & M3). split; [by apply Hlive|]. rewrite HG.
      destruct (decide (h = g)) as [->|]; (split; [cbn; rewrite ?elem_of_app; auto|intros d; rewrite Hb, ?Hsus; apply M3]).
  - intros h Hh. apply Hlive in Hh. rewrite HG. destruct (decide (h = g)) as [->|Hne].
    + split; cbn; try done.
      * apply NoDup_app. split; [done|]. split; [|by apply NoDup_singleton]. intros x Hx ->%list_elem_of_singleton. pose proof (G2 i Hx) as Hc. rewrite Hr in Hc. cbn in Hc. congruence.
      * intros j. rewrite elem_of_app, list_elem_of_singleton. intros [Hj| ->]; rewrite Hrl; [|by rewrite decide_True]. case_decide; [done|by apply G2].
      * rewrite G3, Zlen_app. done.
    + destruct (iv_group _ Hi h Hh) as [K1 K2 K3 K4 K5 K6 K7 K8 K9]. split; try done. intros j Hj. rewrite Hrl. case_decide; [subst j|by apply K2].
      pose proof (K2 i Hj) as Hc. rewrite Hr in Hc. cbn in Hc. congruence.
  - rewrite Hrand. apply Hi.
  - intros j Hj. by rewrite Hrl, decide_False.
Qed.

Lemma add_to_group_spec calloc i g w : inv w → live (groups w) g →
  ∃ rc w', bufferevent_add_to_rate_limit_group add_ok calloc i g w = (rc, w') ∧ inv w' ∧ (∀ j, j ≠ i → rlim_of j w' = rlim_of j w) ∧ now w' = now w.
Proof. clear Hadd.
  intros Hi Hl. unfold bufferevent_add_to_rate_limit_group. set (rl := default (set_refill Idle calloc_rlim) (rlim_of i w)). set (w1 := upd_bev i (set_rlim (Some rl)) w).
  assert (rlim_of i w1 = Some rl) as Hr1 by (unfold w1; by rewrite rlim_set, decide_True).
  assert (own_step i w w1) as Hos by (apply own_set; unfold rl; cbn; by destruct (rlim_of i w)).
  assert (inv w1) as Hi1.
  { apply (own_inv i w); [done|done|]. rewrite Hr1. apply (own_ok_ext _ (bw w i)); [intros d; symmetry; apply flag_set_rlim|]. pose proof (iv_own _ Hi i) as Ho.
    unfold rl. by destruct (rlim_of i w). }
  assert (∃ rc w', (if decide (rl_group rl = Some g) then (0, w1)
    else (0, join_group i g (match rl_group rl with Some _ => bufferevent_remove_from_rate_limit_group add_ok i w1 | None => w1 end))) = (rc, w') ∧ inv w' ∧ (∀ j, j ≠ i → rlim_of j w' = rlim_of j w) ∧ now w' = now w) as Hall.
  { case_decide as Hg; [exists 0, w1; split; [done|]; split; [done|]; split; apply Hos|].
    destruct (rl_group rl) as [h|] eqn:Eh.
    - destruct (leave_spec i w1 Hi1) as (Hi2 & Hg2 & Ho2 & Hn2 & Hr2 & Hl2). set (w2 := bufferevent_remove_from_rate_limit_group add_ok i w1) in *. rewrite Hr1 in Hr2. cbn in Hr2.
      destruct (join_spec i g w2 _ Hi2 Hr2 eq_refl) as (Hi3 & Ho3 & Hn3); [apply Hl2; by rewrite (os_groups _ _ _ Hos)|]. eexists 0, _. split; [done|]. split; [done|].
      split; [intros j Hj; rewrite Ho3, Ho2 by done; by apply Hos|]. rewrite Hn3, Hn2. apply Hos.
    - destruct (join_spec i g w1 rl Hi1 Hr1 Eh) as (Hi3 & Ho3 & Hn3); [by rewrite (os_groups _ _ _ Hos)|]. eexists 0, _. split; [done|]. split; [done|].
      split; [intros j Hj; rewrite Ho3 by done; by apply Hos|]. rewrite Hn3. apply Hos. }
  destruct (rlim_of i w) as [r|]; [exact Hall|]. destruct calloc; [exact Hall|]. by exists (-1), w.
Qed.

(** ** Groups *)

(** A group that is well formed but for its shares. *)
Definition shareable (R : nat → option nat) (g : nat) (gr : Group) : Prop :=
  cfg_ok (rate_limit_cfg gr) ∧ ∀ a b, (∀ d, 1 <= a <= rate d (rate_limit_cfg gr)) → 1 <= b < 2 ^ 63 → group_ok R g (set_shares a b gr).

Lemma min_share_spec R g gr share : shareable R g gr → 1 <= share < 2 ^ 63 → group_ok R g (bufferevent_rate_limit_group_set_min_share share gr).2.
Proof.
  intros [Hc Hok] Hs. unfold bufferevent_rate_limit_group_set_min_share. destruct (Z.gtb_spec share (2 ^ 63 - 1)); [lia|]. cbn [snd].
  pose proof (proj1 Hc DRead). pose proof (proj1 Hc DWrite). cbn in *. rewrite (i64_small share) by lia.
  set (s1 := if share >? read_rate (rate_limit_cfg gr) then _ else _). set (s2 := if s1 >? _ then _ else _).
  assert (s2 = Z.min share (Z.min (read_rate (rate_limit_cfg gr)) (write_rate (rate_limit_cfg gr)))) as E.
  { unfold s2, s1. destruct (Z.gtb_spec share (read_rate (rate_limit_cfg gr))); zcase; lia. }
  rewrite i64_small, E by lia. apply Hok; [|done]. intros []; cbn; lia.
Qed.

Lemma min_share_rest share gr : let gr' := (bufferevent_rate_limit_group_set_min_share share gr).2 in
  members gr' = members gr ∧ (∀ d, GROUP_SUSPENDED d gr' = GROUP_SUSPENDED d gr) ∧ master_refill gr' = master_refill gr.
Proof. unfold bufferevent_rate_limit_group_set_min_share. destruct (share >? 2 ^ 63 - 1); cbn; (split; [done|]); (split; [by intros []|done]). Qed.

(** The program changes the smallest share of a group. *)
Lemma set_min_share_spec share g w : inv w → live (groups w) g → 1 <= share < 2 ^ 63 →
  inv (upd_group g (λ gr, (bufferevent_rate_limit_group_set_min_share share gr).2) w).
Proof.
  intros Hi Hl Hs. pose proof (iv_group _ Hi g Hl) as Hg. destruct (min_share_rest share (groups w g)) as (M1 & M2 & M3).
  apply inv_upd_group; try done; [by rewrite M3|]. apply min_share_spec; [|done]. destruct Hg as [G1 G2 G3 G4 G5 G6 G7 G8 G9]. split; [done|].
  intros a b Ha Hb. by split.
Qed.

Lemma group_set_cfg_spec cfg g w : inv w → live (groups w) g → (∀ c, cfg = Some c → cfg_ok c) →
  ∃ rc w', bufferevent_rate_limit_group_set_cfg add_ok g cfg w = (rc, w') ∧ inv w' ∧ (∀ j, rlim_of j w' = rlim_of j w) ∧ now w' = now w.
Proof.
  intros Hi Hl Hc. destruct cfg as [c|]; [|by exists (-1), w]. specialize (Hc c eq_refl). cbn [bufferevent_rate_limit_group_set_cfg].
  pose proof (iv_group _ Hi g Hl) as [G1 G2 G3 G4 G5 G6 G7 G8 G9]. pose proof (proj1 Hc DRead) as Cr. pose proof (proj1 Hc DWrite) as Cw. cbn in Cr, Cw.
  rewrite !i64_small by lia. set (l1 := if read_limit _ >? _ then _ else _). set (l2 := if write_limit l1 >? _ then _ else _).
  set (timer := if (_ : bool) then Pending else _). set (gr := set_rate_limit l2 (set_group_cfg c timer (groups w g))). eexists 0, _. split; [done|].
  assert (∀ d, LIM d l2 = Z.min (LIM d (rate_limit (groups w g))) (maximum d c)) as Hlim.
  { intros d. unfold l2, l1. destruct (Z.gtb_spec (read_limit (rate_limit (groups w g))) (read_maximum c)); cbn; zcase; destruct d; cbn in *; lia. }
  assert (last_updated l2 = last_updated (rate_limit (groups w g))) as Hlast by (unfold l2, l1; by repeat zcase).
  assert (timer ≠ Unassigned) as Ht by (unfold timer; by destruct (andb _ _)).
  set (share := u64 (configured_min_share gr)). assert (share = configured_min_share (groups w g)) as Hsh by (unfold share; cbn; apply u64_small; lia).
  destruct (min_share_rest share gr) as (M1 & M2 & M3).
  destruct (inv_upd_group g (λ _, (bufferevent_rate_limit_group_set_min_share share gr).2) w Hi Hl) as [Hi' Hr']; [done|intros d; rewrite M2; by destruct d|by rewrite M3| |].
  { apply min_share_spec; [|lia]. split; [done|]. intros a b Ha Hb. split; cbn; try done.
    - split; [|by rewrite Hlast; apply G5]. intros d. rewrite Hlim. pose proof (proj1 G5 d). pose proof (proj1 Hc d). lia.
    - intros d. rewrite Hlim. pose proof (proj1 Hc d). intros Hle. assert (LIM d (rate_limit (groups w g)) <= 0) as Hle0 by lia. specialize (G6 d Hle0). by destruct d. }
  split; [done|]. split; [apply Hr'|done].
Qed.

Lemma group_new_spec calloc g cfg w : inv w → ¬ live (groups w) g → cfg_ok cfg →
  ∃ rc w', bufferevent_rate_limit_group_new add_ok calloc g cfg w = Val (rc, w') ∧ inv w' ∧ (∀ j, rlim_of j w' = rlim_of j w) ∧ now w' = now w.
Proof.
  intros Hi Hl Hc. unfold bufferevent_rate_limit_group_new. destruct (get_tick_spec (now w) cfg Hc) as (t & -> & Ht). cbn [mbind outcome_bind].
  destruct calloc; cbn [negb]; [|by exists (-1), w]. rewrite Hadd.
  match goal with |- context [bufferevent_rate_limit_group_set_min_share 64 ?x] => set (gr := x) end. destruct (min_share_rest 64 gr) as (M1 & M2 & M3).
  set (gr' := (bufferevent_rate_limit_group_set_min_share 64 gr).2) in *. eexists 0, _. split; [done|]. split; [|done]. set (w' := upd_group g _ w).
  assert (∀ h, groups w' h = if decide (h = g) then gr' else groups w h) as HG by (intros h; unfold w'; by rewrite groups_upd).
  split; [apply Hi| | |apply Hi].
  - intros j. pose proof (iv_member _ Hi j) as Hm. unfold member_ok in *. change (rlim_of j w') with (rlim_of j w). destruct (group_of (rlim_of j w)) as [h|]; [|done].
    destruct Hm as (M & Hm). assert (h ≠ g) by (intros ->; done). unfold live. rewrite HG, decide_False by done. done.
  - intros h Hh. rewrite HG. destruct (decide (h = g)) as [->|Hne].
    + apply min_share_spec; [|lia]. split; [done|]. intros a b Ha Hb. split; cbn; try done.
      * constructor.
      * by intros ? ?%not_elem_of_nil.
      * by apply (init_ok no_bucket cfg cfg t false).
      * intros d Hle. pose proof (proj1 Hc d). rewrite !i64_small in Hle by (pose proof (proj1 Hc DRead); pose proof (proj1 Hc DWrite); cbn in *; lia). destruct d; cbn in *; lia.
      * by intros [].
    + unfold live in Hh. rewrite HG, decide_False in Hh by done. by apply Hi.
Qed.

Lemma group_free_spec g w : inv w → live (groups w) g → members (groups w g) = [] →
  ∃ w', bufferevent_rate_limit_group_free g w = Val w' ∧ inv w' ∧ (∀ j, rlim_of j w' = rlim_of j w) ∧ now w' = now w.
Proof.
  intros Hi Hl Hm. unfold bufferevent_rate_limit_group_free. rewrite (gr_count _ _ _ (iv_group _ Hi g Hl)), Hm. eexists. split; [done|]. split; [|done]. set (w' := upd_group g _ w).
  assert (∀ h, h ≠ g → groups w' h = groups w h) as HG by (intros h Hh; unfold w'; by rewrite groups_upd, decide_False).
  split; [apply Hi| | |apply Hi].
  - intros j. pose proof (iv_member _ Hi j) as Hmj. unfold member_ok in *. change (rlim_of j w') with (rlim_of j w). destruct (group_of (rlim_of j w)) as [h|]; [|done].
    destruct Hmj as (M1 & M2 & M3). assert (h ≠ g) by (intros ->; rewrite Hm in M2; by apply not_elem_of_nil in M2). unfold live. by rewrite HG.
  - intros h Hh. destruct (decide (h = g)) as [->|Hne]; [unfold live, w' in Hh; by rewrite groups_upd, decide_True in Hh|].
    unfold live in Hh. rewrite HG in * by done. by apply Hi.
Qed.
End conf.
