(* ===== verification/RateProps.v ===== *)
(** What rate limits promise (RateLimit.v): in any run that keeps the conditions of [may], bufferevents
    without tokens are suspended and will be resumed, and a limited bufferevent moves no more than
    its burst and its rate allow. *)

From stdpp Require Import functions.
From S2P Require Import Prelude EvFlags BufChain BufevData Bufev RateLimit RateInv RateRun RateConf.

(** ** Runs *)

(** One thing that happens: the time moves on, a socket is ready, a timer goes off, the program calls a
    function, or something else is done to a bufferevent. *)
Inductive Step :=
  | STime (tv : timeval)
  | SRand (r : Z)
  | STransfer (d : Dir) (i : nat) (howmuch n : Z)
  | SRefill (i : nat)
  | SGroupRefill (g : nat)
  | SDecrement (d : Dir) (i : nat) (decr : Z)
  | SGroupDecrement (d : Dir) (g : nat) (decr : Z)
  | SSetLimit (calloc : bool) (i : nat) (cfg : option Cfg)
  | SJoin (calloc : bool) (i g : nat)
  | SLeave (i : nat)
  | SGroupNew (calloc : bool) (g : nat) (cfg : Cfg)
  | SGroupFree (g : nat)
  | SGroupCfg (g : nat) (cfg : option Cfg)
  | SMinShare (g : nat) (share : Z)
  | SOther (i : nat) (f : Bufferevent → Bufferevent).

Definition set_now (tv : timeval) (w : World) : World := {| bevs := bevs w; groups := groups w; now := tv; weakrand := weakrand w |}.
Definition set_rand (r : Z) (w : World) : World := {| bevs := bevs w; groups := groups w; now := now w; weakrand := r |}.

Section props.
Context (add_ok : Z → bool) (Hadd : add_ok EV_TIMEOUT = true).

(** The bytes transferred, and the world after the step. *)
Definition exec (s : Step) (w : World) : outcome (Z * World) :=
  let silent m := w ← m; Val (0, w) in
  let second m := '(_, w) ← m; Val (0, w) in
  match s with
  | STime tv => Val (0, set_now tv w)
  | SRand r => Val (0, set_rand r w)
  | STransfer d i h n => transfer add_ok d i h n w
  | SRefill i => silent (refill_fires add_ok i w)
  | SGroupRefill g => silent (group_refill_fires add_ok g w)
  | SDecrement d i decr => second (bufferevent_decrement_limit add_ok d i decr w)
  | SGroupDecrement d g decr => silent (group_decrement add_ok d g decr w)
  | SSetLimit calloc i cfg => second (bufferevent_set_rate_limit add_ok calloc i cfg w)
  | SJoin calloc i g => Val (0, (bufferevent_add_to_rate_limit_group add_ok calloc i g w).2)
  | SLeave i => Val (0, bufferevent_remove_from_rate_limit_group add_ok i w)
  | SGroupNew calloc g cfg => second (bufferevent_rate_limit_group_new add_ok calloc g cfg w)
  | SGroupFree g => silent (bufferevent_rate_limit_group_free g w)
  | SGroupCfg g cfg => Val (0, (bufferevent_rate_limit_group_set_cfg add_ok g cfg w).2)
  | SMinShare g share => Val (0, upd_group g (λ gr, (bufferevent_rate_limit_group_set_min_share share gr).2) w)
  | SOther i f => Val (0, upd_state i f w)
  end.

(** When the program may do a step: configurations come from ev_token_bucket_cfg_new with ticks of a
    millisecond or more, groups exist, are free where they are created and empty where they are freed,
    and a share is not zero.  Limits are not given back beyond the burst or taken below the least
    number; other code does not touch the two suspensions. *)
Definition may (s : Step) (w : World) : Prop :=
  match s with
  | SRand r => 0 <= r
  | SDecrement d i decr => ∃ r c, rlim_of i w = Some r ∧ rl_cfg r = Some c ∧ - 2 ^ 63 <= LIM d (rl_limit r) - decr <= maximum d c
  | SGroupDecrement d g decr => live (groups w) g ∧ - 2 ^ 63 <= LIM d (rate_limit (groups w g)) - decr <= maximum d (rate_limit_cfg (groups w g))
  | SSetLimit _ _ cfg => ∀ c, cfg = Some c → cfg_ok c
  | SJoin _ _ g => live (groups w) g
  | SGroupNew _ g cfg => ¬ live (groups w) g ∧ cfg_ok cfg
  | SGroupFree g => live (groups w) g ∧ members (groups w g) = []
  | SGroupCfg g cfg => live (groups w) g ∧ ∀ c, cfg = Some c → cfg_ok c
  | SMinShare g share => live (groups w) g ∧ 1 <= share < 2 ^ 63
  | SOther i f => ∀ d q, is_bw q → has (suspended d (f (bev (bevs w i)))) q = has (suspended d (bev (bevs w i))) q
  | _ => True
  end.

Lemma inv_view w w' : inv w → (∀ j, rlim_of j w' = rlim_of j w) → (∀ q j d, is_bw q → flag q w' j d = flag q w j d) → groups w' = groups w → 0 <= weakrand w' → inv w'.
Proof.
  intros [H1 H2 H3 H4] Hr Hf Hg Hw. split; [..|done].
  - intros j. rewrite Hr. apply (own_ok_ext _ (bw w j)); [|done]. intros d. symmetry. apply Hf. by left.
  - intros j. rewrite Hr, Hg. specialize (H2 j). unfold member_ok in *. destruct (group_of (rlim_of j w)).
    + destruct H2 as (C1 & C2 & C3). split; [done|]. split; [done|]. intros d. rewrite <- C3. apply Hf. by right.
    + intros d. rewrite <- (H2 d). apply Hf. by right.
  - intros g. rewrite Hg. intros Hl. destruct (H3 g Hl). split; try done. intros j Hj. rewrite Hr. auto.
Qed.

Lemma exec_spec s w : inv w → may s w → ∃ k w', exec s w = Val (k, w') ∧ inv w' ∧ 0 <= k.
Proof.
  intros Hi Hm. destruct s as [tv|r|d i h n|i|g|d i decr|d g decr|calloc i cfg|calloc i g|i|calloc g cfg|g|g cfg|g share|i f]; cbn [exec may] in *.
  - exists 0, (set_now tv w). split; [done|]. split; [|done]. apply (inv_view w); try done. apply Hi.
  - exists 0, (set_rand r w). split; [done|]. split; [|done]. by apply (inv_view w).
  - destruct (transfer_spec add_ok Hadd d i h n w Hi) as (k & w' & E & Hi' & Hk & _). eauto.
  - unfold refill_fires. destruct (rlim_of i w) as [r|] eqn:Hr; [|by exists 0, w]. case_decide as Hp; [|by exists 0, w]. destruct (rl_cfg r) as [c|] eqn:Hc.
    + destruct (refill_fires_spec add_ok Hadd i w r c Hi Hr Hc Hp) as (t & w' & r' & _ & E & Hi' & _). unfold refill_fires in E. rewrite Hr, decide_True in E by done. rewrite E. by exists 0, w'.
    + set (w1 := upd_rlim i (set_refill Idle) w). assert (rlim_of i w1 = Some (set_refill Idle r)) as Hr1 by (unfold w1; by rewrite rlim_upd_rlim, decide_True, Hr).
      unfold _bev_refill_callback. rewrite Hr1. cbn [rl_cfg set_refill]. rewrite Hc. exists 0, w1. split; [done|]. split; [|done].
      apply (own_inv i w); [done|by apply own_rlim|]. unfold own_ok. rewrite Hr1. cbn. rewrite Hc. intros d. unfold w1. rewrite bw_rlim. pose proof (iv_own _ Hi i) as Ho. unfold own_ok in Ho.
      rewrite Hr, Hc in Ho. apply Ho.
  - destruct (group_refill_spec add_ok g w Hi) as (w' & -> & Hi' & _). by exists 0, w'.
  - destruct Hm as (r & c & Hr & Hc & Hv). destruct (decrement_limit_spec add_ok Hadd d i decr w r c Hi Hr Hc Hv) as (rc & w' & -> & Hi' & _). by exists 0, w'.
  - destruct Hm as [Hl Hv]. destruct (group_decrement_spec add_ok d g decr w Hi Hl Hv) as (w' & -> & Hi' & _). by exists 0, w'.
  - destruct (set_rate_limit_spec add_ok Hadd calloc i cfg w Hi Hm) as (rc & w' & -> & Hi' & _). by exists 0, w'.
  - destruct (add_to_group_spec add_ok calloc i g w Hi Hm) as (rc & w' & -> & Hi' & _). by exists 0, w'.
  - destruct (leave_spec add_ok i w Hi) as (Hi' & _). by eexists 0, _.
  - destruct Hm as [Hl Hc]. destruct (group_new_spec add_ok Hadd calloc g cfg w Hi Hl Hc) as (rc & w' & -> & Hi' & _). by exists 0, w'.
  - destruct Hm as [Hl He]. destruct (group_free_spec g w Hi Hl He) as (w' & -> & Hi' & _). by exists 0, w'.
  - destruct Hm as [Hl Hc]. destruct (group_set_cfg_spec add_ok cfg g w Hi Hl Hc) as (rc & w' & -> & Hi' & _). by exists 0, w'.
  - destruct Hm as [Hl Hs]. eexists 0, _. split; [done|]. split; [|done]. by apply set_min_share_spec.
  - exists 0, (upd_state i f w). split; [done|]. split; [|done]. apply (inv_view w); try done; [intros; apply rlim_upd_state| |apply Hi].
    intros q j d Hq. unfold flag, upd_state. rewrite bevs_upd. case_decide; [subst; by apply Hm|done].
Qed.

(** Many steps, with the bytes each transferred. *)
Fixpoint exec_all (l : list Step) (w : World) : outcome (list Z * World) :=
  match l with
  | [] => Val ([], w)
  | s :: l => '(k, w) ← exec s w; '(ks, w) ← exec_all l w; Val (k :: ks, w)
  end.
Fixpoint may_all (l : list Step) (w : World) : Prop :=
  match l with
  | [] => True
  | s :: l => may s w ∧ ∀ k w', exec s w = Val (k, w') → may_all l w'
  end.

Lemma exec_all_spec l w : inv w → may_all l w → ∃ ks w', exec_all l w = Val (ks, w') ∧ inv w'.
Proof.
  revert w. induction l as [|s l IH]; intros w Hi Hm; cbn [exec_all]; [by exists [], w|]. destruct Hm as [Hs Hl].
  destruct (exec_spec s w Hi Hs) as (k & w1 & E & Hi1 & _). specialize (Hl k w1 E). destruct (IH w1 Hi1 Hl) as (ks & w2 & E2 & Hi2). rewrite E. cbn [mbind outcome_bind].
  rewrite E2. cbn [mbind outcome_bind]. by exists (k :: ks), w2.
Qed.

(** C28.  The invariant of rate limits.  For any sequence of transfers, timers, changes of limits, of configurations and of
    membership, clock readings and other changes of bufferevents, under the conditions of [may]: event_add for a refill timer
    succeeds (ratelim.c does not look at the result for groups), configurations come from ev_token_bucket_cfg_new with
    ticks of a millisecond or more (shorter ones divide by zero) and limits below 2^63, the share of a group is at least 1,
    groups exist where they are used, are new where they are made and empty where they are freed, a decrement called by the
    program is for a bufferevent with a limit of its own or an existing group and leaves the bucket between -2^63 and its burst (so a negative one gives back at most what was taken), the random
    number is not negative, and other code leaves the two bandwidth suspensions alone.  Then every function returns:
    nothing is divided by zero and no assertion fails.  Afterwards a bufferevent whose bucket is empty is suspended, one that is
    suspended for its bucket has its timer running, and the members of a group are suspended exactly when
    the group is.  A direction that is not suspended moves at least one byte when the socket is ready for
    one, so that a read of nothing is never taken for the end of the stream; for reading this needs room below the high
    watermark and a burst below 2^31, since the code narrows the number to int. *)
Theorem rate_limits_hold l w : inv w → may_all l w →
  ∃ ks w', exec_all l w = Val (ks, w') ∧ inv w' ∧
    (∀ i r c d, rlim_of i w' = Some r → rl_cfg r = Some c →
       (LIM d (rl_limit r) <= 0 → bw w' i d = true) ∧ (bw w' i d = true → rl_refill r = Pending)) ∧
    (∀ i r g d, rlim_of i w' = Some r → rl_group r = Some g → bwg w' i d = GROUP_SUSPENDED d (groups w' g)) ∧
    (∀ d i h n, suspended d (bev (bevs w' i)) = 0 → 0 < n → (d = DRead → h ≠ 0 ∧ narrow d i w') → ∃ k w'', transfer add_ok d i h n w' = Val (k, w'') ∧ 0 < k).
Proof.
  intros Hi Hm. destruct (exec_all_spec l w Hi Hm) as (ks & w' & E & Hi'). exists ks, w'. split; [done|]. split; [done|]. split; [|split].
  - intros i r c d Hr Hc. by apply (own_ok_cfg i w' r c Hi' Hr Hc).
  - intros i r g d Hr Hg. pose proof (iv_member _ Hi' i) as Hmi. rewrite Hr in Hmi. cbn in Hmi. rewrite Hg in Hmi. apply Hmi.
  - intros d i h n Hs Hn Hw. destruct (transfer_spec add_ok Hadd d i h n w' Hi') as (k & w'' & Ek & _ & _ & _ & Hk). eauto.
Qed.

(** ** Traffic *)

(** The number of a time's tick. *)
Definition tick_no (c : Cfg) (tv : timeval) : Z := (tv_sec tv * 1000 + tv_usec tv / 1000) / msec_per_tick c.
Definition time_ok (tv : timeval) : Prop := 0 <= tv_sec tv < 2 ^ 40 ∧ 0 <= tv_usec tv < 1000000.

Lemma get_tick_no c tv : cfg_ok c → time_ok tv → ev_token_bucket_get_tick tv c = Val (u32 (tick_no c tv)).
Proof.
  intros [_ Hm] [Hs Hu]. unfold ev_token_bucket_get_tick, tick_no. destruct (Z.eqb_spec (msec_per_tick c) 0); [lia|]. do 3 f_equal.
  rewrite Z.quot_div_nonneg by lia. assert (0 <= tv_usec tv / 1000 < 1000) by (split; [apply Z.div_pos; lia|apply Z.div_lt_upper_bound; lia]).
  rewrite (u64_small (tv_sec tv)) by lia. apply u64_small. lia.
Qed.

Lemma ticks_between a b : a <= b < a + 2 ^ 31 → ticks (u32 a) (u32 b) = b - a.
Proof.
  intros H. unfold ticks. assert (u32 (u32 b - u32 a) = b - a) as ->; [|by destruct (Z.ltb_spec (b - a) (2 ^ 31)); [|lia]].
  unfold u32. rewrite <- Zminus_mod. apply Z.mod_small. lia.
Qed.

(** What the bucket would hold if it were brought up to date now. *)
Definition level (d : Dir) (c : Cfg) (b : Bucket) (last tick : Z) : Z := Z.min (maximum d c) (LIM d b + (tick - last) * rate d c).

(** After [sum] bytes since tick [start]; the bucket was last updated in tick [last]. *)
Record funded (d : Dir) (i : nat) (c : Cfg) (start limit last sum : Z) (w : World) : Prop := {
  fd_rlim : ∃ r, rlim_of i w = Some r ∧ rl_cfg r = Some c ∧ last_updated (rl_limit r) = u32 last ∧
    sum + level d c (rl_limit r) last (tick_no c (now w)) <= maximum d c + rate d c * (tick_no c (now w) - start) ∧
    (sum = 0 ∨ 0 <= LIM d (rl_limit r));
  fd_time : time_ok (now w) ∧ last <= tick_no c (now w) < limit ∧ limit <= last + 2 ^ 31 ∧ start <= tick_no c (now w) }.

(** A bucket that is brought up to date. *)
Lemma topped_level d c b last tv : cfg_ok c → bucket_ok c b → last_updated b = u32 last → last <= tick_no c tv < last + 2 ^ 31 →
  let b' := refilled b c (u32 (tick_no c tv)) in
  LIM d b' = level d c b last (tick_no c tv) ∧ last_updated b' = u32 (tick_no c tv).
Proof.
  intros Hc Hb Hl Ht b'. unfold b'. rewrite LIM_refilled, Hl, ticks_between by done. split; [done|]. cbn. rewrite Hl, ticks_between by done.
  destruct (Z.eqb_spec (tick_no c tv - last) 0); [f_equal; lia|done].
Qed.

Lemma level_self d c b t : bucket_ok c b → level d c b t t = LIM d b.
Proof. intros [Hb _]. unfold level. pose proof (Hb d). rewrite Z.sub_diag, Z.mul_0_l, Z.add_0_r. lia. Qed.

(** The steps of traffic: time, sockets, timers. *)
Definition traffic (s : Step) : bool :=
  match s with STime _ | SRand _ | STransfer _ _ _ _ | SRefill _ | SGroupRefill _ | SOther _ _ => true | _ => false end.

(** Times never go back, and stay below tick [limit]. *)
Fixpoint timely (c : Cfg) (now : Z) (limit : Z) (l : list Step) : Prop :=
  match l with
  | [] => True
  | STime tv :: l => time_ok tv ∧ now <= tick_no c tv < limit ∧ timely c (tick_no c tv) limit l
  | _ :: l => timely c now limit l
  end.

(** The bytes that bufferevent [i] moved in direction [d]. *)
Fixpoint total (d : Dir) (i : nat) (l : list Step) (ks : list Z) : Z :=
  match l, ks with
  | STransfer d' j _ _ :: l, k :: ks => (if decide (d' = d ∧ j = i) then k else 0) + total d i l ks
  | _ :: l, _ :: ks => total d i l ks
  | _, _ => 0
  end.

Definition contrib (d : Dir) (i : nat) (s : Step) (k : Z) : Z :=
  match s with STransfer d' j _ _ => if decide (d' = d ∧ j = i) then k else 0 | _ => 0 end.

Lemma total_cons d i s l k ks : total d i (s :: l) (k :: ks) = contrib d i s k + total d i l ks.
Proof. by destruct s. Qed.

(** Nothing happens to the bufferevent. *)
Lemma funded_same d i c start limit last sum w w' : funded d i c start limit last sum w → rlim_of i w' = rlim_of i w → now w' = now w →
  funded d i c start limit last (sum + 0) w'.
Proof. intros [F1 F2] Hr Hn. rewrite Z.add_0_r. split; by rewrite ?Hr, ?Hn. Qed.

(** The bucket is brought up to date and [k] bytes are taken from it in direction [d']. *)
Lemma funded_spent d d' i c start limit last sum k w w' : inv w → inv w' → 0 <= k → funded d i c start limit last sum w → now w' = now w →
  (∀ r, rlim_of i w = Some r → rl_cfg r = Some c → ∃ t r', ev_token_bucket_get_tick (now w) c = Val t ∧ rlim_of i w' = Some r' ∧ rl_cfg r' = Some c ∧
     k <= Z.max 0 (LIM d' (refilled (rl_limit r) c t)) ∧ rl_limit r' = set_LIM d' (LIM d' (refilled (rl_limit r) c t) - k) (refilled (rl_limit r) c t)) →
  ∃ last', limit <= last' + 2 ^ 31 ∧ funded d i c start limit last' (sum + if decide (d' = d) then k else 0) w'.
Proof.
  intros Hi Hi' Hk [(r & Hr & Hc & Hl & Hs & Hp) (T1 & T2 & T3 & T4)] Hn Hspent. destruct (own_ok_cfg i w r c Hi Hr Hc) as (Hcfg & Hb & _).
  destruct (Hspent r Hr Hc) as (t & r' & Ht & Hr' & Hc' & Hle & Hlim). rewrite get_tick_no in Ht by done. injection Ht as <-.
  destruct (topped_level d c (rl_limit r) last (now w) Hcfg Hb Hl ltac:(lia)) as [L1 L2]. set (b := refilled (rl_limit r) c _) in *.
  destruct (own_ok_cfg i w' r' c Hi' Hr' Hc') as (_ & Hb' & _). exists (tick_no c (now w)). split; [lia|]. split; [|rewrite Hn; split; [done|lia]].
  exists r'. split; [done|]. split; [done|]. rewrite Hn, (level_self d c _ _ Hb'), Hlim, last_set, LIM_set. split; [done|]. pose proof (refilled_more (rl_limit r) c (u32 (tick_no c (now w))) d Hcfg Hb) as Hmore. fold b in Hmore.
  destruct (decide (d' = d)) as [->|Hd]; [rewrite decide_True by done|rewrite decide_False by done].
  - rewrite <- L1 in Hs. split; [lia|]. destruct (Z.eq_dec k 0) as [->|]; [|right; lia]. destruct Hp as [->|]; [by left|right; lia].
  - rewrite <- L1 in Hs. split; [lia|]. destruct Hp as [->|]; [by left|right; lia].
Qed.

Lemma funded_step d i c start limit last sum s k w w' : inv w → may s w → traffic s = true → exec s w = Val (k, w') →
  funded d i c start limit last sum w → (∀ tv, s = STime tv → time_ok tv ∧ tick_no c (now w) <= tick_no c tv < limit) →
  ∃ last', limit <= last' + 2 ^ 31 ∧ funded d i c start limit last' (sum + contrib d i s k) w'.
Proof.
  intros Hi Hm Htr He Hf Htime. pose proof Hf as [(r & Hr & Hc & Hl & Hs & Hp) (T1 & T2 & T3 & T4)]. destruct (own_ok_cfg i w r c Hi Hr Hc) as (Hcfg & Hb & _).
  assert (∀ w1, now w1 = now w → rlim_of i w1 = rlim_of i w → ∃ last', limit <= last' + 2 ^ 31 ∧ funded d i c start limit last' (sum + 0) w1) as Hsame.
  { intros w1 H1 H2. exists last. split; [lia|]. by apply funded_same with w. }
  destruct s as [tv|x|d' j h n|j|g| | | | | | | | | |j f]; try done; cbn [exec contrib] in *.
  - injection He as <- <-. destruct (Htime tv eq_refl) as [Ht1 Ht2]. exists last. rewrite Z.add_0_r. split; [lia|]. split; [|cbn; split; [done|lia]]. exists r. cbn.
    split; [done|]. split; [done|]. split; [done|]. split; [|done]. pose proof (proj1 Hcfg d). unfold level in *. nia.
  - injection He as <- <-. by apply Hsame.
  - destruct (transfer_spec add_ok Hadd d' j h n w Hi) as (k' & w1 & E & Hi1 & Hk & (P1 & P2 & P3) & _). rewrite E in He. injection He as <- <-.
    destruct (decide (j = i)) as [->|Hj]; [|rewrite decide_False by naive_solver; apply Hsame; [done|by apply P1]].
    destruct (funded_spent d d' i c start limit last sum k' w w1 Hi Hi1 Hk Hf P2) as (last' & H1 & H2); [intros r0 Hr0 Hc0; by apply P3|]. exists last'. split; [done|].
    destruct (decide (d' = d)); [by rewrite decide_True|by rewrite decide_False by naive_solver].
  - unfold refill_fires in He. destruct (rlim_of j w) as [rj|] eqn:Hrj; [|injection He as <- <-; by apply Hsame].
    destruct (decide (rl_refill rj = Pending)) as [Hpj|]; [|injection He as <- <-; by apply Hsame].
    destruct (rl_cfg rj) as [cj|] eqn:Hcj.
    + destruct (refill_fires_spec add_ok Hadd j w rj cj Hi Hrj Hcj Hpj) as (t & w1 & r1 & Ht & E & Hi1 & Hos & Hr1 & Hc1 & Hl1 & _). unfold refill_fires in E. rewrite Hrj, decide_True in E by done.
      rewrite E in He. injection He as <- <-. destruct (decide (j = i)) as [->|Hj]; [|apply Hsame; [apply Hos|by apply (os_others _ _ _ Hos)]].
      destruct (funded_spent d d i c start limit last sum 0 w w1 Hi Hi1 ltac:(lia) Hf (os_now _ _ _ Hos)) as (last' & H1 & H2).
      { intros r0 Hr0 Hc0. rewrite Hrj in Hr0. injection Hr0 as <-. rewrite Hcj in Hc0. injection Hc0 as <-. exists t, r1. split; [done|]. split; [done|]. split; [done|]. split; [lia|].
        rewrite Hl1, set_LIM_same; [done|lia]. }
      exists last'. split; [done|]. by destruct (decide (d = d)).
    + assert (j ≠ i) as Hj by (intros ->; congruence). unfold _bev_refill_callback in He. rewrite rlim_upd_rlim, decide_True, Hrj in He by done. cbn [fmap option_fmap option_map rl_cfg set_refill] in He.
      rewrite Hcj in He. injection He as <- <-. apply Hsame; [done|]. by rewrite rlim_upd_rlim, decide_False.
  - destruct (group_refill_spec add_ok g w Hi) as (w1 & E & Hi1 & H1 & H2). rewrite E in He. injection He as <- <-. by apply Hsame.
  - injection He as <- <-. apply Hsame; [done|]. apply rlim_upd_state.
Qed.

(** Only [STime] moves the time. *)
Lemma traffic_now s k w w' : inv w → traffic s = true → exec s w = Val (k, w') → now w' = match s with STime tv => tv | _ => now w end.
Proof.
  intros Hi Htr He. destruct s as [tv|x|d j h n|j|g| | | | | | | | | |j f]; try done; cbn [exec] in He; try by injection He as <- <-.
  - destruct (transfer_spec add_ok Hadd d j h n w Hi) as (k' & w1 & E & _ & _ & (_ & P & _) & _). rewrite E in He. by injection He as <- <-.
  - destruct (rlim_of j w) as [rj|] eqn:Hrj; [destruct (decide (rl_refill rj = Pending)) as [Hpj|Hpj]; [destruct (rl_cfg rj) as [cj|] eqn:Hcj|]|].
    + destruct (refill_fires_spec add_ok Hadd j w rj cj Hi Hrj Hcj Hpj) as (t & w1 & r1 & _ & E & _ & Hos & _). rewrite E in He. injection He as <- <-. apply (os_now _ _ _ Hos).
    + unfold refill_fires, _bev_refill_callback in He. rewrite Hrj, decide_True, rlim_upd_rlim, decide_True, Hrj in He by done. cbn [fmap option_fmap option_map rl_cfg set_refill] in He.
      rewrite Hcj in He. by injection He as <- <-.
    + unfold refill_fires in He. rewrite Hrj, decide_False in He by done. by injection He as <- <-.
    + unfold refill_fires in He. rewrite Hrj in He. by injection He as <- <-.
  - destruct (group_refill_spec add_ok g w Hi) as (w1 & E & _ & _ & H). rewrite E in He. by injection He as <- <-.
Qed.

Lemma timely_cons c s l t limit : timely c t limit (s :: l) →
  (∀ tv, s = STime tv → time_ok tv ∧ t <= tick_no c tv < limit) ∧ timely c (match s with STime tv => tick_no c tv | _ => t end) limit l.
Proof. destruct s; cbn; [intros (? & ? & ?); split; [intros ? [= <-]; done|done]|by split..]. Qed.

Lemma funded_run d i c start limit l w last sum : inv w → may_all l w → Forall (λ s, traffic s = true) l → funded d i c start limit last sum w →
  timely c (tick_no c (now w)) limit l →
  ∃ ks w' last', exec_all l w = Val (ks, w') ∧ inv w' ∧ funded d i c start limit last' (sum + total d i l ks) w'.
Proof.
  revert w last sum. induction l as [|s l IH]; intros w last sum Hi Hm Htr Hf Ht; cbn [exec_all].
  { exists [], w, last. rewrite Z.add_0_r. done. }
  destruct Hm as [Hs Hl]. apply Forall_cons in Htr as [Htr Htrl]. destruct (exec_spec s w Hi Hs) as (k & w1 & E & Hi1 & _). destruct (timely_cons _ _ _ _ _ Ht) as [Ht1 Ht2].
  destruct (funded_step d i c start limit last sum s k w w1 Hi Hs Htr E Hf Ht1) as (last1 & _ & Hf1). pose proof (traffic_now s k w w1 Hi Htr E) as Hn.
  destruct (IH w1 last1 _ Hi1 (Hl k w1 E) Htrl Hf1) as (ks & w2 & last2 & E2 & Hi2 & Hf2).
  { rewrite Hn. by destruct s. }
  exists (k :: ks), w2, last2. rewrite E. cbn [mbind outcome_bind]. rewrite E2. cbn [mbind outcome_bind]. rewrite total_cons, Z.add_assoc. done.
Qed.

(** C29.  A bufferevent with a limit of its own moves, in any span of time and whatever others do, at most
    its burst and its rate times the ticks that have passed. *)
Theorem rate_bounds_traffic d i c l w r last : inv w → may_all l w → Forall (λ s, traffic s = true) l →
  rlim_of i w = Some r → rl_cfg r = Some c → last_updated (rl_limit r) = u32 last → time_ok (now w) → last <= tick_no c (now w) < last + 2 ^ 31 →
  timely c (tick_no c (now w)) (last + 2 ^ 31) l →
  ∃ ks w', exec_all l w = Val (ks, w') ∧ tick_no c (now w) <= tick_no c (now w') ∧
    total d i l ks <= maximum d c + rate d c * (tick_no c (now w') - tick_no c (now w)).
Proof.
  intros Hi Hm Htr Hr Hc Hl Ht Hlast Htimely. destruct (own_ok_cfg i w r c Hi Hr Hc) as ([Hcfg _] & _). specialize (Hcfg d).
  destruct (funded_run d i c (tick_no c (now w)) (last + 2 ^ 31) l w last 0 Hi Hm Htr) as (ks & w' & last' & E & Hi' & [(r' & Hr' & Hc' & _ & Hs & Hp) (T1 & T2 & T3 & T4)]); [|done|].
  { split; [|split; [done|lia]]. exists r. split; [done|]. split; [done|]. split; [done|]. split; [|by left]. unfold level. lia. }
  exists ks, w'. split; [done|]. split; [done|]. rewrite Z.add_0_l in *. unfold level in Hs.
  destruct Hp as [->|Hp]; [nia|]. assert (0 <= (tick_no c (now w') - last') * rate d c) by nia. lia.
Qed.

(** ** Refills *)

(** The timer of [i] goes off at these times. *)
Fixpoint refills (i : nat) (tvs : list timeval) : list Step :=
  match tvs with [] => [] | tv :: tvs => STime tv :: SRefill i :: refills i tvs end.

(** Each time is in a later tick than the one before, and all are below tick [limit]. *)
Fixpoint later (c : Cfg) (last limit : Z) (tvs : list timeval) : Prop :=
  match tvs with [] => True | tv :: tvs => time_ok tv ∧ last < tick_no c tv < limit ∧ later c (tick_no c tv) limit tvs end.

(** What one refill does for a direction: it is not suspended, or it has at least a tick's rate more. *)
Lemma refill_once d i c w r tv last : inv w → rlim_of i w = Some r → rl_cfg r = Some c → last_updated (rl_limit r) = u32 last →
  time_ok tv → last < tick_no c tv < last + 2 ^ 31 → bw w i d = true →
  ∃ w' r', refill_fires add_ok i (set_now tv w) = Val w' ∧ inv w' ∧ rlim_of i w' = Some r' ∧ rl_cfg r' = Some c ∧ last_updated (rl_limit r') = u32 (tick_no c tv) ∧
    (bw w' i d = true → LIM d (rl_limit r) + rate d c <= LIM d (rl_limit r') <= 0).
Proof.
  intros Hi Hr Hc Hl Ht Htick Hb. destruct (own_ok_cfg i w r c Hi Hr Hc) as (Hcfg & Hbk & _ & Hd). assert (rl_refill r = Pending) as Hp by (by apply (Hd d)).
  assert (inv (set_now tv w)) as Hi0 by (apply (inv_view w); try done; apply Hi).
  destruct (refill_fires_spec add_ok Hadd i (set_now tv w) r c Hi0 Hr Hc Hp) as (t & w' & r' & Et & E & Hi' & _ & Hr' & Hc' & Hlim & Hbw).
  change (now (set_now tv w)) with tv in Et. rewrite get_tick_no in Et by done. injection Et as <-.
  destruct (topped_level d c (rl_limit r) last tv Hcfg Hbk Hl ltac:(lia)) as [L1 L2]. exists w', r'. do 4 (split; [done|]). rewrite Hlim. split; [done|].
  rewrite Hbw. intros [_ Hle]%andb_true_iff. apply Z.leb_le in Hle. rewrite L1 in *. unfold level in *. pose proof (proj1 Hcfg d). nia.
Qed.

Lemma refill_idle d i w tv : inv w → bw w i d = false → ∃ w', refill_fires add_ok i (set_now tv w) = Val w' ∧ inv w' ∧ bw w' i d = false.
Proof.
  intros Hi Hb. assert (inv (set_now tv w)) as Hi0 by (apply (inv_view w); try done; apply Hi). unfold refill_fires. destruct (rlim_of i (set_now tv w)) as [r|] eqn:Hr; [|by eexists].
  case_decide as Hp; [|by eexists]. destruct (rl_cfg r) as [c|] eqn:Hc.
  - destruct (refill_fires_spec add_ok Hadd i (set_now tv w) r c Hi0 Hr Hc Hp) as (t & w' & r' & _ & E & Hi' & _ & _ & _ & _ & Hbw). unfold refill_fires in E. rewrite Hr, decide_True in E by done.
    exists w'. split; [done|]. split; [done|]. rewrite Hbw. change (bw (set_now tv w) i d) with (bw w i d). by rewrite Hb.
  - destruct (exec_spec (SRefill i) (set_now tv w) Hi0 I) as (k & w' & E & Hi' & _). cbn [exec] in E. unfold refill_fires in E. rewrite Hr, decide_True in E by done.
    destruct (_bev_refill_callback _ _ _) as [w1|] eqn:Ecb; [|done]. injection E as _ <-. exists w1. split; [done|]. split; [done|].
    unfold _bev_refill_callback in Ecb. rewrite rlim_upd_rlim, decide_True, Hr in Ecb by done. cbn [fmap option_fmap option_map rl_cfg set_refill] in Ecb. rewrite Hc in Ecb. injection Ecb as <-.
    by rewrite bw_rlim.
Qed.

Lemma refills_idle d i tvs w : inv w → bw w i d = false → ∃ ks w', exec_all (refills i tvs) w = Val (ks, w') ∧ inv w' ∧ bw w' i d = false.
Proof.
  revert w. induction tvs as [|tv tvs IH]; intros w Hi Hb; cbn [refills exec_all exec mbind outcome_bind]; [by exists [], w|].
  destruct (refill_idle d i w tv Hi Hb) as (w1 & -> & Hi1 & Hb1). cbn [mbind outcome_bind]. destruct (IH w1 Hi1 Hb1) as (ks & w2 & -> & Hi2 & Hb2). cbn [mbind outcome_bind]. by eexists _, w2.
Qed.

Lemma refills_resume d i c limit tvs w r last : inv w → rlim_of i w = Some r → rl_cfg r = Some c → last_updated (rl_limit r) = u32 last → limit <= last + 2 ^ 31 →
  later c last limit tvs → (tvs = [] → bw w i d = true → LIM d (rl_limit r) <= 0) → 0 < LIM d (rl_limit r) + rate d c * Zlen tvs →
  ∃ ks w', exec_all (refills i tvs) w = Val (ks, w') ∧ inv w' ∧ bw w' i d = false.
Proof.
  revert w r last. induction tvs as [|tv tvs IH]; intros w r last Hi Hr Hc Hl Hlim Ht Hz Hpos.
  { exists [], w. split; [done|]. split; [done|]. apply not_true_is_false. intros Hb. specialize (Hz eq_refl Hb). change (Zlen (@nil timeval)) with 0 in Hpos. lia. }
  destruct (bw w i d) eqn:Hb; [|by apply refills_idle]. destruct Ht as (Ht & Htick & Hlater). rewrite Zlen_cons in Hpos.
  destruct (refill_once d i c w r tv last Hi Hr Hc Hl Ht ltac:(lia) Hb) as (w1 & r1 & E & Hi1 & Hr1 & Hc1 & Hl1 & Hup).
  assert (∃ ks w', exec_all (refills i tvs) w1 = Val (ks, w') ∧ inv w' ∧ bw w' i d = false) as (ks & w2 & E2 & Hi2 & Hb2).
  { destruct (bw w1 i d) eqn:Hb1; [|by apply refills_idle]. specialize (Hup eq_refl). apply (IH w1 r1 (tick_no c tv)); try done; [lia|intros _ _; lia|lia]. }
  cbn [refills exec_all exec mbind outcome_bind]. rewrite E. cbn [mbind outcome_bind]. rewrite E2. cbn [mbind outcome_bind]. by eexists _, w2.
Qed.

(** C30.  A bufferevent that was suspended for its bucket is resumed: however deep the bucket is in debt,
    once its timer has gone off in as many ticks as the rate needs to pay the debt off, and at least in
    one, the direction is no longer suspended. *)
Theorem refill_resumes d i c tvs w r last : inv w → rlim_of i w = Some r → rl_cfg r = Some c → last_updated (rl_limit r) = u32 last →
  later c last (last + 2 ^ 31) tvs → 0 < Zlen tvs → 0 < LIM d (rl_limit r) + rate d c * Zlen tvs →
  ∃ ks w', exec_all (refills i tvs) w = Val (ks, w') ∧ inv w' ∧ bw w' i d = false.
Proof. intros Hi Hr Hc Hl Ht Hn Hpos. apply (refills_resume d i c (last + 2 ^ 31) tvs w r last); try done. intros ->. by change (Zlen (@nil timeval)) with 0 in Hn. Qed.
End props.
