(* ===== verification/Signals.v ===== *)
(** Signals: signal.c of libevent 2.0.21.

    A base that has events for signals installs [evsig_handler], which sends the number of the
    signal through a socket pair to the base that was told last; there [evsig_cb] counts what
    has come and activates the events.  The state is that of the process: the variables of
    signal.c, what each base keeps ([evsig_info]), the actions of signals and the sockets.
    A step of the model is one call; locks are left out. *)

From stdpp Require Import functions.
From S2P Require Import Prelude BufChain.

Definition NSIG : Z := 65.
Definition sizeof_sigaction : Z := 152.

(** What sigaction sets: the handler of signal.c, or something of the program's. *)
Inductive sigaction := Evsig_handler | Foreign (action : Z).
#[export] Instance sigaction_eq : EqDecision sigaction.
Proof. solve_decision. Defined.

(** [sh_old] as the list of its [sh_old_max] pointers. *)
Record evsig_info := {
  ev_signal_pair0 : Z; ev_signal_pair1 : Z;
  ev_signal_added : bool;
  ev_n_signals_added : Z;
  sh_old : list (option sigaction) }.

Definition set_pair (p0 p1 : Z) (s : evsig_info) : evsig_info :=
  {| ev_signal_pair0 := p0; ev_signal_pair1 := p1; ev_signal_added := ev_signal_added s; ev_n_signals_added := ev_n_signals_added s; sh_old := sh_old s |}.
Definition set_added (added : bool) (s : evsig_info) : evsig_info :=
  {| ev_signal_pair0 := ev_signal_pair0 s; ev_signal_pair1 := ev_signal_pair1 s; ev_signal_added := added; ev_n_signals_added := ev_n_signals_added s; sh_old := sh_old s |}.
Definition set_n_signals (n : Z) (s : evsig_info) : evsig_info :=
  {| ev_signal_pair0 := ev_signal_pair0 s; ev_signal_pair1 := ev_signal_pair1 s; ev_signal_added := ev_signal_added s; ev_n_signals_added := n; sh_old := sh_old s |}.
Definition set_sh_old (old : list (option sigaction)) (s : evsig_info) : evsig_info :=
  {| ev_signal_pair0 := ev_signal_pair0 s; ev_signal_pair1 := ev_signal_pair1 s; ev_signal_added := ev_signal_added s; ev_n_signals_added := ev_n_signals_added s; sh_old := old |}.

(** [actions] is what the kernel does with each signal, [peers] and [inbox] its sockets: the
    other end of each, and the bytes that can be read from it. *)
Record process := {
  evsig_base : option nat;
  evsig_base_n_signals_added : Z;
  evsig_base_fd : Z;
  infos : nat → evsig_info;
  actions : Z → sigaction;
  peers : Z → option Z;
  inbox : Z → list Z }.

Definition set_evsig (base : option nat) (n fd : Z) (w : process) : process :=
  {| evsig_base := base; evsig_base_n_signals_added := n; evsig_base_fd := fd; infos := infos w; actions := actions w; peers := peers w; inbox := inbox w |}.
Definition upd_info (i : nat) (f : evsig_info → evsig_info) (w : process) : process :=
  {| evsig_base := evsig_base w; evsig_base_n_signals_added := evsig_base_n_signals_added w; evsig_base_fd := evsig_base_fd w; infos := <[i := f (infos w i)]> (infos w);
     actions := actions w; peers := peers w; inbox := inbox w |}.
Definition set_action (sig : Z) (a : sigaction) (w : process) : process :=
  {| evsig_base := evsig_base w; evsig_base_n_signals_added := evsig_base_n_signals_added w; evsig_base_fd := evsig_base_fd w; infos := infos w;
     actions := <[sig := a]> (actions w); peers := peers w; inbox := inbox w |}.
Definition set_sockets (p : Z → option Z) (b : Z → list Z) (w : process) : process :=
  {| evsig_base := evsig_base w; evsig_base_n_signals_added := evsig_base_n_signals_added w; evsig_base_fd := evsig_base_fd w; infos := infos w; actions := actions w; peers := p; inbox := b |}.

(** What the code below relies on from outside: whether sigaction accepts a signal, whether
    event_add succeeds for the internal event of a base, and how many bytes a socket takes. *)
Class SigKernel := { sigaction_ok : Z → bool; ev_signal_add_ok : nat → bool; socket_room : Z }.

Section signals.
Context `{Malloc, SigKernel}.

(** ** The sockets *)

Definition send (fd msg : Z) (w : process) : process :=
  match peers w fd with
  | Some p => if Zlen (inbox w p) <? socket_room then set_sockets (peers w) (<[p := inbox w p ++ [msg]]> (inbox w)) w else w
  | None => w
  end.
Definition evutil_closesocket (fd : Z) (w : process) : process := set_sockets (<[fd := None]> (peers w)) (<[fd := []]> (inbox w)) w.

(** ** signal.c *)

Definition evsig_set_base (base : nat) (w : process) : process :=
  set_evsig (Some base) (ev_n_signals_added (infos w base)) (ev_signal_pair0 (infos w base)) w.

(** At the beginning of event_base_loop. *)
Definition loop_takes_signals (base : nat) (w : process) : process :=
  if ev_signal_added (infos w base) && negb (ev_n_signals_added (infos w base) =? 0) then evsig_set_base base w else w.

Definition count_signals (bytes : list Z) (ncaught : list Z) : list Z :=
  foldl (λ ncaught b, let sig := u8 b in if sig <? NSIG then alter (λ n, n + 1) (Z.to_nat sig) ncaught else ncaught) ncaught bytes.

(** [recv] of at most 1024 bytes, until there are none. *)
Fixpoint recv_loop (fuel : nat) (fd : Z) (ncaught : list Z) (w : process) : outcome (list Z * process) :=
  match fuel with
  | O => Undef Hang
  | S fuel =>
      match inbox w fd with
      | [] => Val (ncaught, w)
      | bytes => recv_loop fuel fd (count_signals (take 1024 bytes) ncaught) (set_sockets (peers w) (<[fd := drop 1024 bytes]> (inbox w)) w)
      end
  end.

(** The calls of evmap_signal_active: signals and how often each has been caught. *)
Definition caught (ncaught : list Z) : list (Z * Z) := List.filter (λ '(_, n), negb (n =? 0)) (imap (λ i n, (Z.of_nat i, n)) ncaught).
Definition evsig_cb (fd : Z) (w : process) : outcome (list (Z * Z) * process) :=
  '(ncaught, w) ← recv_loop (S (length (inbox w fd))) fd (replicate (Z.to_nat NSIG) 0) w;
  Val (caught ncaught, w).

(** [pair] is the result of socketpair; without one the process exits. *)
Definition evsig_init (base : nat) (pair : option (Z * Z)) (w : process) : option (Z * process) :=
  match pair with
  | None => None
  | Some (p0, p1) =>
      let w := set_sockets (<[p0 := Some p1]> (<[p1 := Some p0]> (peers w))) (<[p0 := []]> (<[p1 := []]> (inbox w))) w in
      Some (0, upd_info base (λ s, set_sh_old [] (set_pair p0 p1 s)) w)
  end.

Definition set_handler (base : nat) (evsignal : Z) (handler : sigaction) (w : process) : Z * process :=
  let old_max := Zlen (sh_old (infos w base)) in
  if (evsignal >=? old_max) && negb (malloc_ok ((evsignal + 1) * 8)) then (-1, w)
  else
    let w := if evsignal >=? old_max then upd_info base (λ s, set_sh_old (sh_old s ++ replicate (Z.to_nat (evsignal + 1 - old_max)) None) s) w else w in
    let save a := upd_info base (λ s, set_sh_old (<[Z.to_nat evsignal := a]> (sh_old s)) s) in
    if negb (malloc_ok sizeof_sigaction) then (-1, save None w)
    else if negb (sigaction_ok evsignal) then (-1, save None w)
    else (0, set_action evsignal handler (save (Some (actions w evsignal)) w)).

Definition evsig_add (base : nat) (evsignal : Z) (w : process) : outcome (Z * process) :=
  if negb ((evsignal >=? 0) && (evsignal <? NSIG)) then Undef AssertFail
  else
    let n := ev_n_signals_added (infos w base) + 1 in
    let w := set_evsig (Some base) n (ev_signal_pair0 (infos w base)) (upd_info base (set_n_signals n) w) in
    let err w := (-1, set_evsig (evsig_base w) (evsig_base_n_signals_added w - 1) (evsig_base_fd w) (upd_info base (λ s, set_n_signals (ev_n_signals_added s - 1) s) w)) in
    let '(r, w) := set_handler base evsignal Evsig_handler w in
    if r =? -1 then Val (err w)
    else if ev_signal_added (infos w base) then Val (0, w)
    else if negb (ev_signal_add_ok base) then Val (err w)
    else Val (0, upd_info base (set_added true) w).

(** With a null pointer sigaction changes nothing. *)
Definition restore_handler (base : nat) (evsignal : Z) (w : process) : outcome (Z * process) :=
  match znth (sh_old (infos w base)) evsignal with
  | None => Undef OutOfBounds
  | Some sh =>
      let w := upd_info base (λ s, set_sh_old (<[Z.to_nat evsignal := None]> (sh_old s)) s) w in
      if negb (sigaction_ok evsignal) then Val (-1, w)
      else Val (0, match sh with Some a => set_action evsignal a w | None => w end)
  end.

Definition evsig_del (base : nat) (evsignal : Z) (w : process) : outcome (Z * process) :=
  if negb ((evsignal >=? 0) && (evsignal <? NSIG)) then Undef AssertFail
  else
    let w := set_evsig (evsig_base w) (evsig_base_n_signals_added w - 1) (evsig_base_fd w) (upd_info base (λ s, set_n_signals (ev_n_signals_added s - 1) s) w) in
    restore_handler base evsignal w.

Definition evsig_handler (sig : Z) (w : process) : process :=
  match evsig_base w with None => w | Some _ => send (evsig_base_fd w) (u8 sig) w end.

(** A signal arrives: the process runs its handler. *)
Definition raise_signal (sig : Z) (w : process) : process := match actions w sig with Evsig_handler => evsig_handler sig w | Foreign _ => w end.

Fixpoint restore_loop (n : nat) (i : Z) (base : nat) (w : process) : outcome process :=
  match n with
  | O => Val w
  | S n =>
      match znth (sh_old (infos w base)) i with
      | Some (Some _) => '(_, w) ← restore_handler base i w; restore_loop n (i + 1) base w
      | _ => restore_loop n (i + 1) base w
      end
  end.

Definition close_pair (base : nat) (w : process) : process :=
  let w := if ev_signal_pair0 (infos w base) =? -1 then w else upd_info base (λ s, set_pair (-1) (ev_signal_pair1 s) s) (evutil_closesocket (ev_signal_pair0 (infos w base)) w) in
  if ev_signal_pair1 (infos w base) =? -1 then w else upd_info base (λ s, set_pair (ev_signal_pair0 s) (-1) s) (evutil_closesocket (ev_signal_pair1 (infos w base)) w).

Definition evsig_dealloc (base : nat) (w : process) : outcome process :=
  let w := if ev_signal_added (infos w base) then upd_info base (set_added false) w else w in
  w ← restore_loop (Z.to_nat NSIG) 0 base w;
  let w := if bool_decide (evsig_base w = Some base) then set_evsig None 0 (-1) w else w in
  Val (upd_info base (set_sh_old []) (close_pair base w)).
End signals.
