(* ===== verification/SignalProps.v ===== *)
(** Signals reach the base that asks for them, each counted once, and the actions of the program's own come back. *)

From stdpp Require Import functions.
From S2P Require Import Prelude BufChain BufRefine Signals.

(** ** What is promised *)

(** The signals that are asked for, and those that were raised since the last callback. *)
Record sig_spec := { sp_added : gset Z; sp_pending : list Z }.

Definition occurrences (s : Z) (l : list Z) : Z := Zlen (filter (λ x, x = s) l).
(** How often each signal was raised, in the order of their numbers. *)
Definition tally (pending : list Z) : list (Z * Z) := List.filter (λ '(_, n), negb (n =? 0)) ((λ s, (s, occurrences s pending)) <$> seqZ 0 NSIG).

(** Calls of one base, signals, and what other bases that have no signals do. *)
Inductive sig_step :=
  | Add (s : Z) | Del (s : Z) | Raise (s : Z) | Callback | Loop (j : nat) | OtherInit (j : nat) (p0 p1 : Z) | OtherDealloc (j : nat).
Inductive sig_result := Returned (r : Z) | Caught (calls : list (Z * Z)) | Nothing.

#[export] Instance sig_result_eq : EqDecision sig_result.
Proof. solve_decision. Defined.

(** The action that is kept for a signal. *)
Definition old_at (l : list (option sigaction)) (s : Z) : option sigaction := match znth l s with Some (Some a) => Some a | _ => None end.

Lemma old_at_grow l n s : old_at (l ++ replicate n None) s = old_at l s.
Proof.
  unfold old_at. destruct (Z_lt_le_dec s (Zlen l)) as [Hlt|Hge]; [by rewrite znth_app_l|]. rewrite znth_app_r by done. assert (znth l s = None) as ->.
  { destruct (znth l s) eqn:E; [|done]. apply znth_Some in E. lia. }
  destruct (znth (replicate n None) (s - Zlen l)) as [a|] eqn:E; [|done]. unfold znth in E. destruct (_ <? 0); [done|]. by apply lookup_replicate_1 in E as [-> _].
Qed.

Lemma old_at_insert l s a t : 0 <= s < Zlen l → old_at (<[Z.to_nat s := a]> l) t = if decide (s = t) then a else old_at l t.
Proof.
  intros Hs. unfold old_at, znth. unfold Zlen in Hs. case_decide as Ht.
  - subst t. destruct (Z.ltb_spec s 0); [lia|]. rewrite list_lookup_insert_eq by lia. by destruct a.
  - destruct (Z.ltb_spec t 0); [done|]. by rewrite list_lookup_insert_ne by lia.
Qed.

Section run.
Context `{Malloc, SigKernel}.
Context (base : nat).

Definition sig_exec (st : sig_step) (w : process) : outcome (sig_result * process) :=
  match st with
  | Add s => '(r, w) ← evsig_add base s w; Val (Returned r, w)
  | Del s => '(r, w) ← evsig_del base s w; Val (Returned r, w)
  | Raise s => Val (Nothing, raise_signal s w)
  | Callback => '(calls, w) ← evsig_cb (ev_signal_pair1 (infos w base)) w; Val (Caught calls, w)
  | Loop j => Val (Nothing, loop_takes_signals j w)
  | OtherInit j p0 p1 => Val (Nothing, match evsig_init j (Some (p0, p1)) w with Some (_, w) => w | None => w end)
  | OtherDealloc j => w ← evsig_dealloc j w; Val (Nothing, w)
  end.

(** evmap.c adds a signal with its first event and deletes it with the last; the sockets a base is given are new; the pair takes the signals that are raised before the callback runs. *)
Definition allowed (st : sig_step) (sp : sig_spec) (w : process) : Prop :=
  match st with
  | Add s => 0 <= s < NSIG ∧ s ∉ sp_added sp
  | Del s => s ∈ sp_added sp
  | Raise s => 0 <= s < NSIG ∧ Zlen (sp_pending sp) < socket_room
  | Callback | Loop _ => True
  | OtherInit j p0 p1 => j ≠ base ∧ ∀ p, p = p0 ∨ p = p1 → p ≠ ev_signal_pair0 (infos w base) ∧ p ≠ ev_signal_pair1 (infos w base)
  | OtherDealloc j => j ≠ base
  end.

Definition spec_step (st : sig_step) (r : sig_result) (sp : sig_spec) : sig_spec :=
  match st with
  | Add s => if bool_decide (r = Returned 0) then {| sp_added := {[s]} ∪ sp_added sp; sp_pending := sp_pending sp |} else sp
  | Del s => {| sp_added := sp_added sp ∖ {[s]}; sp_pending := sp_pending sp |}
  | Raise s => if decide (s ∈ sp_added sp) then {| sp_added := sp_added sp; sp_pending := sp_pending sp ++ [s] |} else sp
  | Callback => {| sp_added := sp_added sp; sp_pending := [] |}
  | Loop _ | OtherInit _ _ _ | OtherDealloc _ => sp
  end.

Definition result_ok (st : sig_step) (sp : sig_spec) (r : sig_result) : Prop :=
  match st with
  | Add _ => r = Returned 0 ∨ r = Returned (-1)
  | Del _ => r = Returned 0
  | Callback => r = Caught (tally (sp_pending sp))
  | Raise _ | Loop _ | OtherInit _ _ _ | OtherDealloc _ => r = Nothing
  end.

Inductive sig_reach (w0 : process) : sig_spec → process → Prop :=
  | reach_start : sig_reach w0 {| sp_added := ∅; sp_pending := [] |} w0
  | reach_step st r sp w w' : sig_reach w0 sp w → allowed st sp w → sig_exec st w = Val (r, w') → sig_reach w0 (spec_step st r sp) w'.

(** A base with its pair of sockets, and no signals yet in the process. *)
Record sig_start (w0 : process) : Prop := {
  st_pair : ev_signal_pair0 (infos w0 base) ≠ ev_signal_pair1 (infos w0 base);
  st_open : ev_signal_pair0 (infos w0 base) ≠ -1 ∧ ev_signal_pair1 (infos w0 base) ≠ -1;
  st_peer : peers w0 (ev_signal_pair0 (infos w0 base)) = Some (ev_signal_pair1 (infos w0 base));
  st_empty : inbox w0 (ev_signal_pair1 (infos w0 base)) = [];
  st_base : evsig_base w0 = None;
  st_actions s : actions w0 s ≠ Evsig_handler;
  st_infos j : ev_signal_added (infos w0 j) = false ∧ ev_n_signals_added (infos w0 j) = 0 ∧ sh_old (infos w0 j) = [];
  st_others j p : j ≠ base → p = ev_signal_pair0 (infos w0 j) ∨ p = ev_signal_pair1 (infos w0 j) → p ≠ ev_signal_pair0 (infos w0 base) ∧ p ≠ ev_signal_pair1 (infos w0 base) }.

(** ** The invariant *)

Record sig_inv (w0 : process) (sp : sig_spec) (w : process) : Prop := {
  si_pair0 : ev_signal_pair0 (infos w base) = ev_signal_pair0 (infos w0 base);
  si_pair1 : ev_signal_pair1 (infos w base) = ev_signal_pair1 (infos w0 base);
  si_peer : peers w (ev_signal_pair0 (infos w0 base)) = Some (ev_signal_pair1 (infos w0 base));
  si_inbox : inbox w (ev_signal_pair1 (infos w0 base)) = sp_pending sp;
  si_pending : Forall (λ s, 0 <= s < NSIG) (sp_pending sp);
  si_added s : s ∈ sp_added sp → 0 <= s < NSIG ∧ sigaction_ok s = true ∧ actions w s = Evsig_handler ∧ old_at (sh_old (infos w base)) s = Some (actions w0 s);
  si_others s : s ∉ sp_added sp → actions w s = actions w0 s ∧ old_at (sh_old (infos w base)) s = None;
  si_count : ev_n_signals_added (infos w base) = Z.of_nat (size (sp_added sp));
  si_told : sp_added sp ≠ ∅ → evsig_base w = Some base ∧ evsig_base_fd w = ev_signal_pair0 (infos w0 base) ∧ ev_signal_added (infos w base) = true;
  si_base : evsig_base w = None ∨ evsig_base w = Some base;
  si_copy : evsig_base w = Some base → evsig_base_n_signals_added w = ev_n_signals_added (infos w base);
  si_infos j : j ≠ base → ev_signal_added (infos w j) = false ∧ ev_n_signals_added (infos w j) = 0 ∧ sh_old (infos w j) = [] ∧
    ∀ p, p = ev_signal_pair0 (infos w j) ∨ p = ev_signal_pair1 (infos w j) → p ≠ ev_signal_pair0 (infos w0 base) ∧ p ≠ ev_signal_pair1 (infos w0 base) }.

Lemma start_inv w0 : sig_start w0 → sig_inv w0 {| sp_added := ∅; sp_pending := [] |} w0.
Proof.
  intros [S1 S2 S3 S4 S5 S6 S7 S8]. destruct (S7 base) as (I1 & I2 & I3). split; try done.
  - intros s _. split; [done|]. rewrite I3. unfold old_at, znth. by destruct (s <? 0).
  - by left.
  - by rewrite S5.
  - intros j Hj. destruct (S7 j) as (J1 & J2 & J3). repeat (split; [done|]). intros p. by apply S8.
Qed.

Lemma info_at i f w : infos (upd_info i f w) i = f (infos w i).
Proof. cbn. apply fn_lookup_insert. Qed.
Lemma info_other i j f w : j ≠ i → infos (upd_info i f w) j = infos w j.
Proof. intros Hj. cbn. by rewrite fn_lookup_insert_ne. Qed.

(** A call changed what the base keeps, and maybe the action of a signal, but no socket. *)
Record touches (w : process) (info : evsig_info) (acts : Z → sigaction) (w' : process) : Prop := {
  to_base : evsig_base w' = evsig_base w;
  to_copy : evsig_base_n_signals_added w' = evsig_base_n_signals_added w;
  to_fd : evsig_base_fd w' = evsig_base_fd w;
  to_info : infos w' base = info;
  to_other j : j ≠ base → infos w' j = infos w j;
  to_actions s : actions w' s = acts s;
  to_peers : peers w' = peers w;
  to_inbox : inbox w' = inbox w }.

Lemma touches_info f w : touches w (f (infos w base)) (actions w) (upd_info base f w).
Proof. split; try done; [apply info_at|]. intros j Hj. by apply info_other. Qed.

Lemma touches_trans w info acts w1 info' acts' w' : touches w info acts w1 → touches w1 info' acts' w' → touches w info' acts' w'.
Proof. intros [A1 A2 A3 A4 A5 A6 A7 A8] [B1 B2 B3 B4 B5 B6 B7 B8]. split; try congruence. intros j Hj. by rewrite B5, A5. Qed.

Definition action_of (s : Z) (a : sigaction) (acts : Z → sigaction) (t : Z) : sigaction := if decide (s = t) then a else acts t.

Lemma touches_action s a w info acts w' : touches w info acts w' → touches w info (action_of s a acts) (set_action s a w').
Proof. intros [A1 A2 A3 A4 A5 A6 A7 A8]. split; try done. intros t. cbn. unfold insert, fn_insert, action_of. case_decide; [done|apply A6]. Qed.

(** What installing a handler does to what a base keeps. *)
Lemma set_handler_spec s w : 0 <= s < NSIG →
  ∃ r l w', set_handler base s Evsig_handler w = (r, w') ∧
    ((r = 0 ∧ sigaction_ok s = true ∧ touches w (set_sh_old l (infos w base)) (action_of s Evsig_handler (actions w)) w' ∧ ∀ t, old_at l t = if decide (s = t) then Some (actions w s) else old_at (sh_old (infos w base)) t) ∨
     (r = -1 ∧ touches w (set_sh_old l (infos w base)) (actions w) w' ∧ (old_at (sh_old (infos w base)) s = None → ∀ t, old_at l t = old_at (sh_old (infos w base)) t))).
Proof.
  intros Hs. unfold set_handler. set (old := sh_old (infos w base)). assert (set_sh_old old (infos w base) = infos w base) as Hid by (by destruct (infos w base)).
  destruct ((s >=? Zlen old) && negb (malloc_ok ((s + 1) * 8))) eqn:E1.
  { exists (-1), old, w. split; [done|]. right. split; [done|]. rewrite Hid. by split. }
  set (w1 := if s >=? Zlen old then _ else w). assert (∃ l1, s < Zlen l1 ∧ (∀ t, old_at l1 t = old_at old t) ∧ touches w (set_sh_old l1 (infos w base)) (actions w) w1) as (l1 & Hl1 & Hl2 & Ht1).
  { unfold w1. destruct (Z.geb_spec s (Zlen old)).
    - eexists. split; [|split; [intros t; apply old_at_grow|apply (touches_info (λ s0, set_sh_old (sh_old s0 ++ replicate (Z.to_nat (s + 1 - Zlen old)) None) s0))]]. rewrite Zlen_app, Zlen_replicate. unfold old. lia.
    - exists old. split; [lia|]. rewrite Hid. by split. }
  set (save := λ a, upd_info base (λ s0, set_sh_old (<[Z.to_nat s := a]> (sh_old s0)) s0)). assert (∀ a, touches w (set_sh_old (<[Z.to_nat s := a]> l1) (infos w base)) (actions w) (save a w1)) as Hsave.
  { intros a. pose proof (touches_info (λ s0, set_sh_old (<[Z.to_nat s := a]> (sh_old s0)) s0) w1) as Ht. rewrite (to_info _ _ _ _ Ht1) in Ht. cbn in Ht. eapply touches_trans; [exact Ht1|].
    destruct Ht as [B1 B2 B3 B4 B5 B6 B7 B8]. split; try done. intros t. by rewrite B6, (to_actions _ _ _ _ Ht1). }
  assert (∀ t, old_at old s = None → old_at (<[Z.to_nat s := None]> l1) t = old_at old t) as Hfail by (intros t Hn; rewrite old_at_insert by lia; case_decide; [by subst|apply Hl2]).
  destruct (malloc_ok sizeof_sigaction); [destruct (sigaction_ok s) eqn:Eok|]; cbn [negb].
  - eexists 0, _, _. split; [done|]. left. split; [done|]. split; [done|]. split; [apply touches_action, Hsave|]. intros t. rewrite old_at_insert by lia. rewrite (to_actions _ _ _ _ Ht1). case_decide; [done|apply Hl2].
  - eexists (-1), _, _. split; [done|]. right. split; [done|]. split; [apply (Hsave None)|]. auto.
  - eexists (-1), _, _. split; [done|]. right. split; [done|]. split; [apply (Hsave None)|]. auto.
Qed.

Lemma old_at_some l s a : old_at l s = Some a → znth l s = Some (Some a).
Proof. unfold old_at. destruct (znth l s) as [[b|]|]; try done. by intros [= <-]. Qed.

Lemma restore_spec s a w : old_at (sh_old (infos w base)) s = Some a → sigaction_ok s = true →
  ∃ l w', restore_handler base s w = Val (0, w') ∧ touches w (set_sh_old l (infos w base)) (action_of s a (actions w)) w' ∧ ∀ t, old_at l t = if decide (s = t) then None else old_at (sh_old (infos w base)) t.
Proof.
  intros Ho Hok. apply old_at_some in Ho. pose proof (znth_Some _ _ _ Ho) as Hs. unfold restore_handler. rewrite Ho, Hok. cbn [negb]. eexists _, _. split; [done|].
  split; [apply touches_action, (touches_info (λ s0, set_sh_old (<[Z.to_nat s := None]> (sh_old s0)) s0))|]. intros t. by rewrite old_at_insert.
Qed.

(** ** Every step *)

Context (Hadd : ev_signal_add_ok base = true).

Definition kept_info (info info' : evsig_info) : Prop := ev_signal_pair0 info' = ev_signal_pair0 info ∧ ev_signal_pair1 info' = ev_signal_pair1 info.

(** Where only the base, its signals and their actions changed. *)
Lemma inv_changed w0 sp w info acts w' added : sig_inv w0 sp w → infos w' base = info → kept_info (infos w base) info → (∀ j, j ≠ base → infos w' j = infos w j) → (∀ s, actions w' s = acts s) → peers w' = peers w → inbox w' = inbox w →
  (∀ s, s ∈ added → 0 <= s < NSIG ∧ sigaction_ok s = true ∧ acts s = Evsig_handler ∧ old_at (sh_old info) s = Some (actions w0 s)) →
  (∀ s, s ∉ added → acts s = actions w0 s ∧ old_at (sh_old info) s = None) →
  ev_n_signals_added info = Z.of_nat (size added) → (added ≠ ∅ → evsig_base w' = Some base ∧ evsig_base_fd w' = ev_signal_pair0 (infos w0 base) ∧ ev_signal_added info = true) →
  (evsig_base w' = None ∨ evsig_base w' = Some base) → (evsig_base w' = Some base → evsig_base_n_signals_added w' = ev_n_signals_added info) →
  sig_inv w0 {| sp_added := added; sp_pending := sp_pending sp |} w'.
Proof.
  intros [I1 I2 I3 I4 I5 I6 I7 I8 I9 I10 I11 I12] <- [K1 K2] Hj Ha Hp Hb A1 A2 A3 A4 A5 A6. split; cbn [sp_added sp_pending]; try done; try congruence.
  - intros s Hs. rewrite Ha. by apply A1.
  - intros s Hs. rewrite Ha. by apply A2.
  - intros j Hjb. rewrite Hj by done. by apply I12.
Qed.

Lemma add_ok w0 sp w s : sig_inv w0 sp w → allowed (Add s) sp w → ∃ r w', evsig_add base s w = Val (r, w') ∧ (r = 0 ∨ r = -1) ∧ sig_inv w0 (spec_step (Add s) (Returned r) sp) w'.
Proof.
  intros Hi [Hs Hn]. pose proof Hi as [I1 I2 I3 I4 I5 I6 I7 I8 I9 I10 I11 I12]. unfold evsig_add. destruct (Z.geb_spec s 0); [|lia]. destruct (Z.ltb_spec s NSIG); [|lia]. cbn [andb negb].
  set (n := ev_n_signals_added (infos w base) + 1). set (w1 := set_evsig _ _ _ _). assert (infos w1 base = set_n_signals n (infos w base)) as E1 by apply info_at.
  assert (∀ j, j ≠ base → infos w1 j = infos w j) as Ej by (intros j Hj; by apply info_other). destruct (I7 s Hn) as [Ha Ho].
  destruct (set_handler_spec s w1 Hs) as (r & l & w2 & -> & [(-> & Hok & [T1 T2 T3 T4 T5 T6 T7 T8] & Hl)|(-> & [T1 T2 T3 T4 T5 T6 T7 T8] & Hl)]); rewrite E1 in *; cbn [set_n_signals sh_old] in Hl; cbn [Z.eqb Z.opp Pos.eqb].
  - assert (∀ w3, touches w2 (set_added true (infos w2 base)) (actions w2) w3 → sig_inv w0 {| sp_added := {[s]} ∪ sp_added sp; sp_pending := sp_pending sp |} w3) as Hfin.
    { intros w3 [U1 U2 U3 U4 U5 U6 U7 U8]. apply (inv_changed w0 sp w (set_added true (infos w2 base)) (action_of s Evsig_handler (actions w))); try done; try congruence.
      - by rewrite T4.
      - intros j Hj. by rewrite U5, T5, Ej.
      - intros t. rewrite U6. apply T6.
      - by rewrite U7, T7.
      - by rewrite U8, T8.
      - intros t [->%elem_of_singleton|Ht]%elem_of_union; unfold action_of; cbn; rewrite T4; cbn; rewrite Hl.
        + rewrite !decide_True by done. change (actions w1 s) with (actions w s). by rewrite Ha.
        + destruct (I6 t Ht) as (? & ? & ? & ?). assert (s ≠ t) by (intros ->; done). by rewrite !decide_False.
      - intros t Ht. destruct (I7 t) as [? ?]; [set_solver|]. unfold action_of. cbn. rewrite T4. cbn. rewrite Hl. assert (s ≠ t) by set_solver. by rewrite !decide_False.
      - cbn. rewrite T4. cbn. unfold n. rewrite I8, size_union by set_solver. rewrite size_singleton. lia.
      - intros _. rewrite U1, U3, T1, T3. cbn. by rewrite I1.
      - right. by rewrite U1, T1.
      - intros _. rewrite U2, T2. cbn. by rewrite T4. }
    destruct (ev_signal_added (infos w2 base)) eqn:Eadd; [|rewrite Hadd; cbn [negb]]; (eexists 0, _; split; [done|]; split; [by left|]; cbn [spec_step]; rewrite bool_decide_true by done; apply Hfin).
    + split; try done. rewrite <- Eadd. by destruct (infos w2 base).
    + apply touches_info.
  - eexists (-1), _. split; [done|]. split; [by right|]. cbn [spec_step]. rewrite bool_decide_false by done. destruct sp as [added pending]. cbn [sp_added sp_pending] in *.
    apply (inv_changed w0 {| sp_added := added; sp_pending := pending |} w (set_n_signals (ev_n_signals_added (infos w2 base) - 1) (infos w2 base)) (actions w)); try done.
    + apply (info_at base (λ s0, set_n_signals (ev_n_signals_added s0 - 1) s0) w2).
    + by rewrite T4.
    + intros j Hj. cbn. by rewrite fn_lookup_insert_ne, T5, Ej.
    + intros t Ht. cbn. rewrite T4. cbn. rewrite Hl by done. by apply I6.
    + intros t Ht. cbn. rewrite T4. cbn. rewrite Hl by done. by apply I7.
    + cbn. rewrite T4. cbn. unfold n. lia.
    + intros Hne. cbn. rewrite T1, T3, T4. cbn. rewrite I1. split; [done|]. split; [done|]. by apply I9.
    + right. cbn. by rewrite T1.
    + intros _. cbn. rewrite T2, T4. cbn. done.
Qed.

Lemma del_ok w0 sp w s : sig_inv w0 sp w → allowed (Del s) sp w → ∃ w', evsig_del base s w = Val (0, w') ∧ sig_inv w0 (spec_step (Del s) (Returned 0) sp) w'.
Proof.
  intros Hi Hs. cbn in Hs. pose proof Hi as [I1 I2 I3 I4 I5 I6 I7 I8 I9 I10 I11 I12]. destruct (I6 s Hs) as (Hr & Hok & Ha & Ho). unfold evsig_del. destruct (Z.geb_spec s 0); [|lia]. destruct (Z.ltb_spec s NSIG); [|lia]. cbn [andb negb].
  set (w1 := set_evsig _ _ _ _). assert (infos w1 base = set_n_signals (ev_n_signals_added (infos w base) - 1) (infos w base)) as E1 by apply (info_at base (λ s0, set_n_signals (ev_n_signals_added s0 - 1) s0) w). assert (∀ j, j ≠ base → infos w1 j = infos w j) as Ej by (intros j Hj; cbn; by rewrite fn_lookup_insert_ne).
  destruct (restore_spec s (actions w0 s) w1) as (l & w2 & -> & [T1 T2 T3 T4 T5 T6 T7 T8] & Hl); [by rewrite E1|done|]. rewrite E1 in *. cbn [set_n_signals sh_old] in Hl. exists w2. split; [done|]. cbn [spec_step].
  destruct (I9 ltac:(set_solver)) as (B1 & B2 & B3).
  apply (inv_changed w0 sp w (infos w2 base) (action_of s (actions w0 s) (actions w))); try done.
  - by rewrite T4.
  - intros j Hj. by rewrite T5, Ej.
  - intros t [Ht Hne]%elem_of_difference. assert (s ≠ t) by set_solver. unfold action_of. rewrite T4. cbn. rewrite Hl, !decide_False by done. by apply I6.
  - intros t Ht. unfold action_of. rewrite T4. cbn. rewrite Hl. case_decide; [by subst|]. apply I7. set_solver.
  - rewrite T4. cbn. rewrite I8. rewrite size_difference by set_solver. rewrite size_singleton. assert (size (sp_added sp) ≠ 0%nat) by (apply size_non_empty_iff; set_solver). lia.
  - intros _. rewrite T1, T3, T4. cbn. done.
  - by rewrite T1.
  - rewrite T1, T2, T4. cbn. intros _. by rewrite (I11 B1).
Qed.

Lemma raise_ok w0 sp w s : sig_start w0 → sig_inv w0 sp w → allowed (Raise s) sp w → sig_inv w0 (spec_step (Raise s) Nothing sp) (raise_signal s w).
Proof.
  intros Hst Hi [Hs Hroom]. pose proof Hi as [I1 I2 I3 I4 I5 I6 I7 I8 I9 I10 I11 I12]. unfold raise_signal. cbn [spec_step]. destruct (decide (s ∈ sp_added sp)) as [Hin|Hin].
  - destruct (I6 s Hin) as (_ & _ & -> & _). destruct (I9 ltac:(set_solver)) as (B1 & B2 & _). unfold evsig_handler, send. rewrite B1, B2, I3, I4. destruct (Z.ltb_spec (Zlen (sp_pending sp)) socket_room); [|lia].
    split; cbn [sp_added sp_pending]; try done.
    + cbn. rewrite fn_lookup_insert. f_equal. f_equal. apply Z.mod_small. unfold NSIG in Hs. lia.
    + apply Forall_app_2; [done|]. by apply Forall_singleton.
  - destruct (I7 s Hin) as [-> _]. pose proof (st_actions _ Hst s). by destruct (actions w0 s).
Qed.

(** ** Counting *)

Lemma count_signals_spec bytes nc : Forall (λ s, 0 <= s < NSIG) bytes → length (count_signals bytes nc) = length nc ∧ ∀ i, count_signals bytes nc !! i = (λ n, n + occurrences (Z.of_nat i) bytes) <$> nc !! i.
Proof.
  intros Hb. revert nc. induction Hb as [|s bytes Hs Hb IH]; intros nc.
  - split; [done|]. intros i. cbn. destruct (nc !! i); cbn; [f_equal; change (occurrences (Z.of_nat i) []) with 0; lia|done].
  - unfold count_signals. cbn [foldl]. assert (u8 s = s) as -> by (apply Z.mod_small; unfold NSIG in Hs; lia). destruct (Z.ltb_spec s NSIG); [|lia]. fold (count_signals bytes (alter (λ n, n + 1) (Z.to_nat s) nc)). destruct (IH (alter (λ n, n + 1) (Z.to_nat s) nc)) as [Hl Hi].
    rewrite length_alter in Hl. split; [done|]. intros i. rewrite Hi. unfold occurrences. rewrite filter_cons. destruct (decide (s = Z.of_nat i)) as [->|Hne].
    + rewrite Nat2Z.id, list_lookup_alter_eq. destruct (nc !! i); cbn; [|done]. f_equal. rewrite Zlen_cons. lia.
    + rewrite list_lookup_alter_ne by lia. done.
Qed.

Lemma caught_tally bytes : Forall (λ s, 0 <= s < NSIG) bytes → caught (count_signals bytes (replicate (Z.to_nat NSIG) 0)) = tally bytes.
Proof.
  intros Hb. unfold caught, tally. f_equal. destruct (count_signals_spec bytes (replicate (Z.to_nat NSIG) 0) Hb) as [_ Hi]. apply list_eq. intros i. rewrite list_lookup_imap, list_lookup_fmap, Hi.
  destruct (decide (i < Z.to_nat NSIG)%nat) as [Hlt|Hge].
  - rewrite lookup_replicate_2 by done. rewrite lookup_seqZ_lt by (unfold NSIG in *; lia). cbn. by rewrite ?Z.add_0_l.
  - assert (replicate (Z.to_nat NSIG) 0 !! i = None) as -> by (apply lookup_ge_None; rewrite length_replicate; lia). by rewrite lookup_seqZ_ge by lia.
Qed.

Lemma recv_loop_spec fuel fd nc w : (length (inbox w fd) < fuel)%nat →
  ∃ b, recv_loop fuel fd nc w = Val (count_signals (inbox w fd) nc, set_sockets (peers w) b w) ∧ b fd = [] ∧ ∀ x, x ≠ fd → b x = inbox w x.
Proof.
  revert nc w. induction fuel as [|fuel IH]; intros nc w Hf; [lia|]. cbn [recv_loop]. destruct (inbox w fd) as [|x bytes] eqn:E.
  - exists (inbox w). split; [by destruct w|]. done.
  - set (w1 := set_sockets _ _ w). assert (inbox w1 fd = drop 1024 (x :: bytes)) as E1 by apply fn_lookup_insert. destruct (IH (count_signals (take 1024 (x :: bytes)) nc) w1) as (b & -> & Hb & Ho).
    { rewrite E1, length_drop. cbn [length] in Hf |- *. lia. }
    exists b. split; [|split; [done|]].
    + do 2 f_equal. rewrite E1. unfold count_signals. rewrite <- foldl_app. by rewrite take_drop.
    + intros y Hy. rewrite Ho by done. cbn. by rewrite fn_lookup_insert_ne.
Qed.

Lemma callback_ok w0 sp w : sig_inv w0 sp w → ∃ w', evsig_cb (ev_signal_pair1 (infos w base)) w = Val (tally (sp_pending sp), w') ∧ sig_inv w0 (spec_step Callback Nothing sp) w'.
Proof.
  intros [I1 I2 I3 I4 I5 I6 I7 I8 I9 I10 I11 I12]. unfold evsig_cb. rewrite I2. destruct (recv_loop_spec (S (length (inbox w (ev_signal_pair1 (infos w0 base))))) (ev_signal_pair1 (infos w0 base)) (replicate (Z.to_nat NSIG) 0) w ltac:(lia)) as (b & -> & Hb & Ho).
  cbn [mbind outcome_bind]. rewrite I4, caught_tally by done. eexists. split; [done|]. cbn [spec_step]. by split.
Qed.

(** ** The other bases *)

Lemma loop_ok w0 sp w j : sig_inv w0 sp w → sig_inv w0 sp (loop_takes_signals j w).
Proof.
  intros Hi. pose proof Hi as [I1 I2 I3 I4 I5 I6 I7 I8 I9 I10 I11 I12]. unfold loop_takes_signals. destruct (decide (j = base)) as [->|Hj]; [|by destruct (I12 j Hj) as (-> & _)]. destruct (_ && _) eqn:E; [|done]. apply andb_true_iff in E as [E1 E2].
  unfold evsig_set_base. split; cbn; try done.
  - by right.
Qed.

Lemma other_init_ok w0 sp w j p0 p1 : sig_inv w0 sp w → allowed (OtherInit j p0 p1) sp w → ∃ r w', evsig_init j (Some (p0, p1)) w = Some (r, w') ∧ sig_inv w0 sp w'.
Proof.
  intros [I1 I2 I3 I4 I5 I6 I7 I8 I9 I10 I11 I12] [Hj Hp]. rewrite I1, I2 in Hp. destruct (Hp p0 (or_introl eq_refl)) as [A0 A1], (Hp p1 (or_intror eq_refl)) as [B0 B1]. unfold evsig_init. eexists _, _. split; [done|].
  assert (∀ f w, infos (upd_info j f w) base = infos w base) as Eb by (intros; by apply info_other). split; rewrite ?Eb; try done.
  - cbn. by rewrite !fn_lookup_insert_ne.
  - cbn. by rewrite !fn_lookup_insert_ne.
  - intros k Hk. destruct (I12 k Hk) as (K1 & K2 & K3 & K4). destruct (decide (k = j)) as [->|Hkj]; [|by rewrite info_other]. rewrite info_at. cbn. repeat (split; [done|]). intros p. by apply Hp.
Qed.

Lemma restore_loop_nil n i j w : sh_old (infos w j) = [] → restore_loop n i j w = Val w.
Proof. intros E. revert i. induction n as [|n IH]; intros i; [done|]. cbn [restore_loop]. rewrite E. assert (znth (@nil (option sigaction)) i = None) as -> by (unfold znth; by destruct (i <? 0)). apply IH. Qed.

(** Closing the sockets of a base. *)
Lemma close_pair_spec j w : ∃ w', close_pair j w = w' ∧
  infos w' j = set_pair (-1) (-1) (infos w j) ∧ (∀ k, k ≠ j → infos w' k = infos w k) ∧ (∀ p, p ≠ ev_signal_pair0 (infos w j) → p ≠ ev_signal_pair1 (infos w j) → peers w' p = peers w p ∧ inbox w' p = inbox w p) ∧
  evsig_base w' = evsig_base w ∧ evsig_base_n_signals_added w' = evsig_base_n_signals_added w ∧ evsig_base_fd w' = evsig_base_fd w ∧ actions w' = actions w.
Proof.
  unfold close_pair. cbv zeta. eexists. split; [done|]. set (w1 := if ev_signal_pair0 (infos w j) =? -1 then w else _).
  assert (infos w1 j = set_pair (-1) (ev_signal_pair1 (infos w j)) (infos w j) ∧ (∀ k, k ≠ j → infos w1 k = infos w k) ∧ (∀ p, p ≠ ev_signal_pair0 (infos w j) → peers w1 p = peers w p ∧ inbox w1 p = inbox w p) ∧
    evsig_base w1 = evsig_base w ∧ evsig_base_n_signals_added w1 = evsig_base_n_signals_added w ∧ evsig_base_fd w1 = evsig_base_fd w ∧ actions w1 = actions w) as (A1 & A2 & A3 & A4).
  { unfold w1. destruct (Z.eqb_spec (ev_signal_pair0 (infos w j)) (-1)) as [E|E].
    - split; [rewrite <- E; by destruct (infos w j)|done].
    - split; [by rewrite (info_at j (λ s, set_pair (-1) (ev_signal_pair1 s) s))|]. split; [intros k Hk; by rewrite info_other|]. split; [|done]. intros p Hp. cbn. by rewrite !fn_lookup_insert_ne by congruence. }
  rewrite A1. cbn [set_pair ev_signal_pair1]. destruct (Z.eqb_spec (ev_signal_pair1 (infos w j)) (-1)) as [E|E].
  - split; [rewrite A1, E; done|]. split; [done|]. split; [intros p Hp _; by apply A3|done].
  - split; [rewrite (info_at j (λ s, set_pair (ev_signal_pair0 s) (-1) s)); cbn [evutil_closesocket set_sockets infos]; by rewrite A1|]. split; [intros k Hk; rewrite info_other by done; by apply A2|].
    split; [|done]. intros p Hp Hp'. destruct (A3 p Hp) as [<- <-]. cbn. by rewrite !fn_lookup_insert_ne by congruence.
Qed.

Lemma other_dealloc_ok w0 sp w j : sig_start w0 → sig_inv w0 sp w → j ≠ base → ∃ w', evsig_dealloc j w = Val w' ∧ sig_inv w0 sp w'.
Proof.
  intros Hst [I1 I2 I3 I4 I5 I6 I7 I8 I9 I10 I11 I12] Hj. destruct (I12 j Hj) as (J1 & J2 & J3 & J4). unfold evsig_dealloc. rewrite J1, restore_loop_nil by done. cbn [mbind outcome_bind]. rewrite bool_decide_false by (destruct I10 as [-> | ->]; congruence).
  destruct (close_pair_spec j w) as (w1 & -> & C1 & C2 & C3 & C4 & C5 & C6 & C7). eexists. split; [done|]. assert (∀ f w, infos (upd_info j f w) base = infos w base) as Eb by (intros; by apply info_other).
  destruct (J4 _ (or_introl eq_refl)) as [P1 P2], (J4 _ (or_intror eq_refl)) as [P3 P4]. destruct (st_open _ Hst) as [O1 O2]. pose proof (C2 base ltac:(congruence)) as Eb1.
  split; rewrite ?Eb, ?Eb1; try done.
  - cbn. destruct (C3 (ev_signal_pair0 (infos w0 base))) as [-> _]; congruence.
  - cbn. destruct (C3 (ev_signal_pair1 (infos w0 base))) as [_ ->]; congruence.
  - intros s Hs. cbn. rewrite C7. by apply I6.
  - intros s Hs. cbn. rewrite C7. by apply I7.
  - cbn. by rewrite C4, C6.
  - cbn. by rewrite C4.
  - cbn. by rewrite C4, C5.
  - intros k Hk. destruct (I12 k Hk) as (K1 & K2 & K3 & K4). destruct (decide (k = j)) as [->|Hkj]; [|by rewrite info_other, C2]. rewrite info_at, C1. cbn. repeat (split; [done|]). intros p [-> | ->]; split; congruence.
Qed.

(** ** Runs *)

Lemma step_ok w0 sp w st : sig_start w0 → sig_inv w0 sp w → allowed st sp w → ∃ r w', sig_exec st w = Val (r, w') ∧ result_ok st sp r ∧ sig_inv w0 (spec_step st r sp) w'.
Proof.
  intros Hst Hi Ha. destruct st as [s|s|s| |j|j p0 p1|j]; cbn [sig_exec].
  - destruct (add_ok w0 sp w s Hi Ha) as (r & w' & -> & Hr & Hi'). eexists _, _. split; [done|]. split; [|done]. cbn. destruct Hr as [-> | ->]; auto.
  - destruct (del_ok w0 sp w s Hi Ha) as (w' & -> & Hi'). by eexists _, _.
  - eexists _, _. split; [done|]. split; [done|]. by apply raise_ok.
  - destruct (callback_ok w0 sp w Hi) as (w' & -> & Hi'). by eexists _, _.
  - eexists _, _. split; [done|]. split; [done|]. by apply loop_ok.
  - destruct (other_init_ok w0 sp w j p0 p1 Hi Ha) as (r & w' & -> & Hi'). by eexists _, _.
  - destruct (other_dealloc_ok w0 sp w j Hst Hi Ha) as (w' & -> & Hi'). by eexists _, _.
Qed.

Lemma reach_inv w0 sp w : sig_start w0 → sig_reach w0 sp w → sig_inv w0 sp w.
Proof.
  intros Hst Hr. induction Hr as [|st r sp w w' _ IH Ha E]; [by apply start_inv|]. destruct (step_ok w0 sp w st Hst IH Ha) as (r' & w'' & E' & _ & Hi). rewrite E in E'. injection E' as <- <-. done.
Qed.

(** C10.  Signals that are asked for reach the base.  Assumed: one base asks for signals, which is what libevent
    supports, and other bases are only made, run and freed (never evsig_add); event_add of the internal event on the socket
    pair succeeds (where it fails, signal.c:306 leaves the handler in place); signals are between 0 and NSIG - 1, evmap.c adds
    one only while it is not added and deletes one only while it is; between two callbacks fewer signals are raised than the
    socket pair has room for (more are lost, as the handler ignores the result of send); at the beginning the base has
    its socket pair, open and empty, no signal has the handler of signal.c and other bases have other sockets ([sig_start]).
    sigaction may refuse and memory may fail.  Then in every run of evsig_add, evsig_del, signals, callbacks and loops
    ([sig_reach]) each call returns what is promised: 0 or -1 for adding, 0 for deleting; the callback
    activates every signal that was raised since it ran last while it was asked for, with the number of
    times, and no other.  A signal has the handler of signal.c while it is asked for, and its own action otherwise. *)
Theorem signals_delivered w0 sp w : sig_start w0 → sig_reach w0 sp w →
  (∀ s, actions w s = if decide (s ∈ sp_added sp) then Evsig_handler else actions w0 s) ∧ ev_n_signals_added (infos w base) = Z.of_nat (size (sp_added sp)) ∧
  ∀ st, allowed st sp w → ∃ r w', sig_exec st w = Val (r, w') ∧ result_ok st sp r.
Proof.
  intros Hst Hr. pose proof (reach_inv w0 sp w Hst Hr) as Hi. split; [|split; [apply Hi|]].
  - intros s. case_decide as Hs; [by apply (si_added _ _ _ Hi)|by apply (si_others _ _ _ Hi)].
  - intros st Ha. destruct (step_ok w0 sp w st Hst Hi Ha) as (r & w' & E & Hres & _). by exists r, w'.
Qed.

Lemma restore_loop_spec n i w : (∀ s a, old_at (sh_old (infos w base)) s = Some a → sigaction_ok s = true ∧ i <= s < i + Z.of_nat n) →
  ∃ l w', restore_loop n i base w = Val w' ∧ touches w (set_sh_old l (infos w base)) (λ t, default (actions w t) (old_at (sh_old (infos w base)) t)) w' ∧ ∀ t, old_at l t = None.
Proof.
  revert i w. induction n as [|n IH]; intros i w Hall; cbn [restore_loop].
  - assert (∀ t, old_at (sh_old (infos w base)) t = None) as Hno by (intros t; destruct (old_at _ t) eqn:E; [|done]; apply Hall in E; lia). exists (sh_old (infos w base)), w. split; [done|]. split; [|done].
    split; try done; [by destruct (infos w base)|]. intros t. by rewrite Hno.
  - destruct (old_at (sh_old (infos w base)) i) as [a|] eqn:E.
    + rewrite (old_at_some _ _ _ E). destruct (restore_spec i a w E) as (l1 & w1 & -> & T & Hl1); [by eapply Hall|]. cbn [mbind outcome_bind]. destruct (IH (i + 1) w1) as (l & w' & -> & T' & Hl).
      { intros s b Hb. rewrite (to_info _ _ _ _ T) in Hb. cbn in Hb. rewrite Hl1 in Hb. case_decide; [done|]. destruct (Hall s b Hb). split; [done|lia]. }
      exists l, w'. split; [done|]. split; [|done]. rewrite (to_info _ _ _ _ T) in T'. destruct (touches_trans _ _ _ _ _ _ _ T T') as [B1 B2 B3 B4 B5 B6 B7 B8]. split; try done. intros t. rewrite B6, (to_actions _ _ _ _ T). cbn. rewrite Hl1. unfold action_of.
      case_decide as Ht; [subst; by rewrite E|done].
    + assert (∀ s a, old_at (sh_old (infos w base)) s = Some a → sigaction_ok s = true ∧ i + 1 <= s < i + 1 + Z.of_nat n) as Hall'.
      { intros s b Hb. destruct (Hall s b Hb) as [? ?]. assert (s ≠ i) by congruence. split; [done|lia]. }
      destruct (IH (i + 1) w Hall') as (l & w' & E' & HT). exists l, w'. split; [|done]. unfold old_at in E. destruct (znth _ i) as [[?|]|]; done.
Qed.

(** C20.  When the base is freed its signals get their actions back.  Under the assumptions of [signals_delivered] - one base
    asks for signals, event_add of the internal event succeeds, evmap.c adds a signal once before it deletes it, the socket
    pair is never full, and no handler of signal.c was there at the beginning - and whatever signals are still added:
    evsig_dealloc is defined, every signal has the action that it had at the beginning, the base keeps no old actions and
    no sockets, and a signal that is raised afterwards sends nothing through the sockets that were closed. *)
Theorem handlers_restored w0 sp w : sig_start w0 → sig_reach w0 sp w →
  ∃ w', evsig_dealloc base w = Val w' ∧ (∀ s, actions w' s = actions w0 s) ∧ evsig_base w' = None ∧ sh_old (infos w' base) = [] ∧
    ev_signal_added (infos w' base) = false ∧ ev_signal_pair0 (infos w' base) = -1 ∧ ev_signal_pair1 (infos w' base) = -1 ∧ ∀ s, raise_signal s w' = w'.
Proof.
  intros Hst Hr. pose proof (reach_inv w0 sp w Hst Hr) as [I1 I2 I3 I4 I5 I6 I7 I8 I9 I10 I11 I12]. unfold evsig_dealloc. set (w1 := if ev_signal_added (infos w base) then _ else w).
  assert (touches w (set_added false (infos w base)) (actions w) w1) as T1. { unfold w1. destruct (ev_signal_added (infos w base)) eqn:E; [apply touches_info|]. split; try done. rewrite <- E. by destruct (infos w base). }
  destruct (restore_loop_spec (Z.to_nat NSIG) 0 w1) as (l & w2 & -> & T2 & Hl).
  { intros s a. rewrite (to_info _ _ _ _ T1). cbn. intros E. destruct (decide (s ∈ sp_added sp)) as [Hs|Hs]; [|by rewrite (proj2 (I7 s Hs)) in E]. destruct (I6 s Hs) as (? & ? & _). split; [done|unfold NSIG in *; lia]. }
  cbn [mbind outcome_bind]. rewrite (to_info _ _ _ _ T1) in T2. destruct (touches_trans _ _ _ _ _ _ _ T1 T2) as [B1 B2 B3 B4 B5 B6 B7 B8]. set (w3 := if bool_decide _ then _ else w2).
  assert (evsig_base w3 = None ∧ infos w3 = infos w2 ∧ actions w3 = actions w2) as (E1 & E2 & E3). { unfold w3. case_bool_decide as Hb; [done|]. split; [|done]. rewrite B1 in *. by destruct I10. }
  destruct (close_pair_spec base w3) as (w4 & -> & C1 & _ & _ & C4 & _ & _ & C7). eexists. split; [done|]. rewrite info_at, C1, E2, B4. cbn [upd_info actions evsig_base set_sh_old set_pair sh_old ev_signal_added ev_signal_pair0 ev_signal_pair1 set_added]. rewrite C4, C7, E3.
  assert (∀ s, actions w2 s = actions w0 s) as Hact. { intros s. rewrite B6, (to_actions _ _ _ _ T1). cbn. destruct (decide (s ∈ sp_added sp)) as [Hs|Hs]; [by destruct (I6 s Hs) as (_ & _ & _ & ->)|]. destruct (I7 s Hs) as [? ->]. done. }
  repeat (split; [done|]). intros s. unfold raise_signal. cbn [upd_info actions]. rewrite C7, E3, Hact. pose proof (st_actions _ Hst s). by destruct (actions w0 s).
Qed.
End run.
