(* ===== verification/EvHeap.v ===== *)
(** The heap of timeouts: src/deps/libevent-2.0.21-stable/minheap-internal.h, with the
    struct event it sorts (include/event2/event_struct.h).

    Events are numbers; [Evs] holds the structs.  The array [mh_p] has the allocated
    size, of which the first [mh_n] slots are in use; the functions move events between
    slots and write each one's slot to its [min_heap_idx].  Reads are checked against
    [mh_n], writes against the allocated size.  The members of the union in struct event,
    ev_io_timeout on one side, ev_ncalls and ev_pncalls on the other, are separate fields:
    only signal events use the latter.  So are those of ev_timeout_pos: min_heap_idx here,
    the links of a common timeout as the list in EvBase.v. *)

From S2P Require Import Prelude EvFlags BufChain.

Inductive closure := EV_CLOSURE_NONE | EV_CLOSURE_SIGNAL | EV_CLOSURE_PERSIST.

Record Event := {
  ev_fd : Z;
  ev_events : Z;
  ev_res : Z;
  ev_flags : Z;
  ev_pri : nat;
  ev_closure : closure;
  ev_timeout : timeval;
  ev_io_timeout : timeval;
  ev_ncalls : Z;
  ev_pncalls : bool;   (** points to the counter of the running signal closure *)
  min_heap_idx : Z }.

#[global] Instance event_inhabited : Inhabited Event := populate
  {| ev_fd := -1; ev_events := 0; ev_res := 0; ev_flags := 0; ev_pri := 0; ev_closure := EV_CLOSURE_NONE;
     ev_timeout := evutil_timerclear; ev_io_timeout := evutil_timerclear; ev_ncalls := 0;
     ev_pncalls := false; min_heap_idx := -1 |}.

Abbreviation Evs := (gmap nat Event).

Definition set_heap_idx (i : Z) (e : Event) : Event :=
  {| ev_fd := ev_fd e; ev_events := ev_events e; ev_res := ev_res e; ev_flags := ev_flags e; ev_pri := ev_pri e;
     ev_closure := ev_closure e; ev_timeout := ev_timeout e; ev_io_timeout := ev_io_timeout e;
     ev_ncalls := ev_ncalls e; ev_pncalls := ev_pncalls e; min_heap_idx := i |}.
Definition put_heap_idx (x : nat) (i : Z) (evs : Evs) : Evs := <[x := set_heap_idx i (evs !!! x)]> evs.

Record min_heap := { mh_p : list nat; mh_n : nat }.

Definition min_heap_ctor : min_heap := {| mh_p := []; mh_n := 0 |}.
Definition min_heap_size (s : min_heap) : nat := mh_n s.
Definition min_heap_empty (s : min_heap) : bool := (mh_n s =? 0)%nat.
Definition min_heap_top (s : min_heap) : option nat := if (mh_n s =? 0)%nat then None else head (mh_p s).

Definition min_heap_elem_greater (evs : Evs) (a b : nat) : bool :=
  evutil_timercmp Z.gtb (ev_timeout (evs !!! a)) (ev_timeout (evs !!! b)).

(** [s->p[i]] as a value, and [(s->p[i] = e)->min_heap_idx = i]. *)
Definition heap_read (s : min_heap) (i : nat) : outcome nat :=
  if (i <? mh_n s)%nat then or_undef OutOfBounds (mh_p s !! i) else Undef OutOfBounds.
Definition heap_place (s : min_heap) (i e : nat) (evs : Evs) : outcome (min_heap * Evs) :=
  if (i <? length (mh_p s))%nat
  then Val ({| mh_p := <[i := e]> (mh_p s); mh_n := mh_n s |}, put_heap_idx e (Z.of_nat i) evs)
  else Undef OutOfBounds.

Section heap.
Context `{Malloc}.

(** Memory for [n] slots; the array doubles. *)
Definition min_heap_reserve (s : min_heap) (n : nat) : bool * min_heap :=
  let cap := Z.of_nat (length (mh_p s)) in
  if cap <? Z.of_nat n then
    let a := if cap =? 0 then 8 else u32 (cap * 2) in
    let a := if a <? Z.of_nat n then Z.of_nat n else a in
    if malloc_ok (a * 8) then
      (true, {| mh_p := mh_p s ++ replicate (Z.to_nat a - length (mh_p s)) 0%nat; mh_n := mh_n s |})
    else (false, s)
  else (true, s).

Fixpoint min_heap_shift_up_ (fuel : nat) (s : min_heap) (hole_index e : nat) (evs : Evs) : outcome (min_heap * Evs) :=
  if (hole_index =? 0)%nat then heap_place s hole_index e evs
  else
    let parent := ((hole_index - 1) / 2)%nat in
    q ← heap_read s parent;
    if min_heap_elem_greater evs q e then
      match fuel with
      | O => Undef Hang
      | S fuel =>
          '(s, evs) ← heap_place s hole_index q evs;
          min_heap_shift_up_ fuel s parent e evs
      end
    else heap_place s hole_index e evs.

Fixpoint min_heap_shift_down_ (fuel : nat) (s : min_heap) (hole_index e : nat) (evs : Evs) : outcome (min_heap * Evs) :=
  let min_child := (2 * (hole_index + 1))%nat in
  if (min_child <=? mh_n s)%nat then
    min_child ← (if (min_child =? mh_n s)%nat then Val (min_child - 1)%nat
                 else r ← heap_read s min_child;
                      l ← heap_read s (min_child - 1);
                      Val (if min_heap_elem_greater evs r l then (min_child - 1)%nat else min_child));
    c ← heap_read s min_child;
    if negb (min_heap_elem_greater evs e c) then heap_place s hole_index e evs
    else
      match fuel with
      | O => Undef Hang
      | S fuel =>
          '(s, evs) ← heap_place s hole_index c evs;
          min_heap_shift_down_ fuel s min_child e evs
      end
  else heap_place s hole_index e evs.

Definition set_n (n : nat) (s : min_heap) : min_heap := {| mh_p := mh_p s; mh_n := n |}.

(** The number of slots bounds the steps of both loops. *)
Definition min_heap_push (s : min_heap) (e : nat) (evs : Evs) : outcome (Z * min_heap * Evs) :=
  match min_heap_reserve s (mh_n s + 1) with
  | (false, s) => Val (-1, s, evs)
  | (true, s) =>
      let n := mh_n s in
      '(s, evs) ← min_heap_shift_up_ n (set_n (S n) s) n e evs;
      Val (0, s, evs)
  end.

Definition min_heap_pop (s : min_heap) (evs : Evs) : outcome (option nat * min_heap * Evs) :=
  if (mh_n s =? 0)%nat then Val (None, s, evs)
  else
    e ← heap_read s 0;
    last ← heap_read s (mh_n s - 1);
    '(s, evs) ← min_heap_shift_down_ (mh_n s) (set_n (mh_n s - 1) s) 0 last evs;
    Val (Some e, s, put_heap_idx e (-1) evs).

Definition min_heap_erase (s : min_heap) (e : nat) (evs : Evs) : outcome (Z * min_heap * Evs) :=
  let idx := min_heap_idx (evs !!! e) in
  if idx =? -1 then Val (-1, s, evs)
  else
    last ← heap_read s (mh_n s - 1);
    let s := set_n (mh_n s - 1) s in
    let hole := Z.to_nat idx in
    up ← (if idx >? 0 then
            q ← or_undef OutOfBounds (mh_p s !! ((hole - 1) / 2)%nat);
            Val (min_heap_elem_greater evs q last)
          else Val false);
    '(s, evs) ← (if up : bool then min_heap_shift_up_ (S (mh_n s)) s hole last evs
                 else min_heap_shift_down_ (S (mh_n s)) s hole last evs);
    Val (0, s, put_heap_idx e (-1) evs).
End heap.
