(* ===== verification/EvHeapInv.v ===== *)
(** The heap of timeouts keeps its order, its contents and the slot noted in each
    event (the functions of EvHeap.v). *)

From S2P Require Import Prelude EvFlags BufChain EvHeap.

(** ** Lists and slots *)

Lemma insert_swap {A} (l : list A) i j x y :
  l !! i = Some y → i ≠ j → (j < length l)%nat → <[i := x]> (<[j := y]> l) ≡ₚ <[j := x]> l.
Proof.
  intros Hi Hij Hj. pose proof (lookup_lt_Some _ _ _ Hi). apply Permutation_inj.
  split; [by rewrite !length_insert|].
  exists (λ k, if decide (k = i) then j else if decide (k = j) then i else k). split.
  - intros a b. repeat case_decide; congruence.
  - intros k. repeat case_decide; subst.
    + rewrite list_lookup_insert_eq by (rewrite length_insert; lia). by rewrite list_lookup_insert_eq.
    + rewrite list_lookup_insert_ne, list_lookup_insert_eq by done.
      by rewrite list_lookup_insert_ne.
    + by rewrite !list_lookup_insert_ne.
Qed.

Lemma take_insert_in {A} n i (x : A) l : (i < n)%nat → take n (<[i := x]> l) = <[i := x]> (take n l).
Proof. intros Hi. by rewrite take_insert_lt. Qed.

Definition par (i : nat) : nat := ((i - 1) / 2)%nat.

Lemma par_lt i : (0 < i)%nat → (par i < i)%nat.
Proof. intros Hi. unfold par. pose proof (Nat.div_mod (i - 1) 2). lia. Qed.
Lemma par_children i h : (0 < i)%nat → par i = h ↔ i = (2 * h + 1)%nat ∨ i = (2 * h + 2)%nat.
Proof.
  intros Hi. unfold par. pose proof (Nat.div_mod (i - 1) 2 ltac:(lia)). pose proof (Nat.mod_upper_bound (i - 1) 2 ltac:(lia)). lia.
Qed.

(** ** Order and slots, with a hole at [h] where [e] will go *)

Section order.
Variable k : nat → timeval.

Definition edge (l : list nat) (i : nat) : Prop := tle (k (l !!! par i)) (k (l !!! i)).
Definition heap_order (l : list nat) (n : nat) : Prop := ∀ i, (0 < i < n)%nat → edge l i.

(** Every edge that does not touch the hole holds, and the chains around the hole are ordered. *)
Definition hole_order (l : list nat) (n h : nat) : Prop :=
  (∀ i, (0 < i < n)%nat → i ≠ h → par i ≠ h → edge l i) ∧
  (∀ i, (0 < i < n)%nat → par i = h → (0 < h)%nat → tle (k (l !!! par h)) (k (l !!! i))).

Lemma order_hole l n h : heap_order l n → hole_order l n h.
Proof.
  intros Ho. split; [auto|]. intros i Hi Hp Hh. pose proof (par_lt i ltac:(lia)).
  apply tle_trans with (k (l !!! h)); [apply Ho; lia|]. rewrite <- Hp at 1. by apply Ho.
Qed.

Lemma hole_filled l n h e :
  hole_order l n h → (h < n <= length l)%nat →
  (0 < h → tle (k (l !!! par h)) (k e))%nat →
  (∀ i, (0 < i < n)%nat → par i = h → tle (k e) (k (l !!! i))) →
  heap_order (<[h := e]> l) n.
Proof.
  intros [H1 _] Hh Hup Hdown i Hi. pose proof (par_lt i ltac:(lia)). unfold edge.
  destruct (decide (i = h)) as [->|Hne].
  - rewrite list_lookup_total_insert_eq by lia. rewrite list_lookup_total_insert_ne by lia. apply Hup. lia.
  - rewrite (list_lookup_total_insert_ne _ h i) by done. destruct (decide (par i = h)) as [E|E].
    + rewrite E, list_lookup_total_insert_eq by lia. by apply Hdown.
    + rewrite list_lookup_total_insert_ne by done. by apply H1.
Qed.

(** The parent moves down into the hole. *)
Lemma hole_up l n h :
  hole_order l n h → (0 < h < n)%nat → (n <= length l)%nat →
  hole_order (<[h := l !!! par h]> l) n (par h) ∧
  (∀ i, (0 < i < n)%nat → par i = par h → tle (k (l !!! par h)) (k (<[h := l !!! par h]> l !!! i))).
Proof.
  intros [H1 H2] Hh Hn. pose proof (par_lt h ltac:(lia)) as Hp. set (q := l !!! par h) in *.
  assert (∀ i, (0 < i < n)%nat → par i = par h → tle (k q) (k (<[h := q]> l !!! i))) as Hch.
  { intros i Hi E. destruct (decide (i = h)) as [->|Hne].
    - rewrite list_lookup_total_insert_eq by lia. apply tle_refl.
    - rewrite list_lookup_total_insert_ne by done. unfold q. rewrite <- E. apply H1; [done|done|]. rewrite E. lia. }
  split; [split|done].
  - intros i Hi Hi1 Hi2. unfold edge. pose proof (par_lt i ltac:(lia)).
    destruct (decide (i = h)) as [->|Hne]; [done|]. rewrite (list_lookup_total_insert_ne _ h i) by done.
    destruct (decide (par i = h)) as [E|E].
    + rewrite E, list_lookup_total_insert_eq by lia. apply H2; [done|done|lia].
    + rewrite list_lookup_total_insert_ne by done. by apply H1.
  - intros i Hi E Hp0. pose proof (par_lt (par h) Hp0). rewrite list_lookup_total_insert_ne by lia.
    apply tle_trans with (k q); [|by apply Hch]. apply H1; lia.
Qed.

(** The smaller child [c] moves up into the hole. *)
Lemma hole_down l n h c :
  hole_order l n h → (0 < c < n)%nat → par c = h → (n <= length l)%nat →
  (∀ i, (0 < i < n)%nat → par i = h → tle (k (l !!! c)) (k (l !!! i))) →
  hole_order (<[h := l !!! c]> l) n c.
Proof.
  intros [H1 H2] Hc Hp Hn Hmin. pose proof (par_lt c ltac:(lia)). split.
  - intros i Hi Hi1 Hi2. unfold edge. pose proof (par_lt i ltac:(lia)). destruct (decide (i = h)) as [->|Hne].
    + rewrite list_lookup_total_insert_eq by lia. rewrite list_lookup_total_insert_ne by lia. apply H2; [done|done|lia].
    + rewrite (list_lookup_total_insert_ne _ h i) by done. destruct (decide (par i = h)) as [E|E].
      * rewrite E, list_lookup_total_insert_eq by lia. by apply Hmin.
      * rewrite list_lookup_total_insert_ne by done. by apply H1.
  - intros i Hi E Hc0. pose proof (par_lt i ltac:(lia)). rewrite Hp, list_lookup_total_insert_eq by lia.
    rewrite list_lookup_total_insert_ne by lia. rewrite <- E. apply H1; lia.
Qed.
End order.

(** ** The invariant *)

Definition live (s : min_heap) : list nat := take (mh_n s) (mh_p s).
Definition key (evs : Evs) (x : nat) : timeval := ev_timeout (evs !!! x).

Record heap_ok (evs : Evs) (s : min_heap) : Prop := {
  hp_size : (mh_n s <= length (mh_p s))%nat;
  hp_order : heap_order (key evs) (mh_p s) (mh_n s);
  hp_slots : ∀ i, (i < mh_n s)%nat → min_heap_idx (evs !!! (mh_p s !!! i)) = Z.of_nat i }.

(** [evs'] differs from [evs] at most in the slots noted. *)
Definition idx_only (evs evs' : Evs) : Prop :=
  ∀ x, evs' !!! x = set_heap_idx (min_heap_idx (evs' !!! x)) (evs !!! x).

Lemma set_heap_idx_id e : set_heap_idx (min_heap_idx e) e = e.
Proof. by destruct e. Qed.
Lemma idx_only_refl evs : idx_only evs evs.
Proof. intros x. by rewrite set_heap_idx_id. Qed.
Lemma idx_only_trans evs1 evs2 evs3 : idx_only evs1 evs2 → idx_only evs2 evs3 → idx_only evs1 evs3.
Proof. intros H1 H2 x. rewrite (H2 x) at 1. by rewrite (H1 x). Qed.
Lemma idx_only_put evs x i : idx_only evs (put_heap_idx x i evs).
Proof.
  intros y. unfold put_heap_idx. destruct (decide (x = y)) as [->|].
  - by rewrite lookup_total_insert_eq.
  - by rewrite lookup_total_insert_ne, set_heap_idx_id.
Qed.
Lemma idx_only_key evs evs' x : idx_only evs evs' → key evs' x = key evs x.
Proof. intros Hi. unfold key. by rewrite (Hi x). Qed.
Lemma idx_put_eq evs x i : min_heap_idx (put_heap_idx x i evs !!! x) = i.
Proof. unfold put_heap_idx. by rewrite lookup_total_insert_eq. Qed.
Lemma idx_put_ne evs x y i : x ≠ y → put_heap_idx x i evs !!! y = evs !!! y.
Proof. intros Hn. unfold put_heap_idx. by rewrite lookup_total_insert_ne. Qed.

(** Every slot but the hole holds an event other than [e] that knows its slot. *)
Definition slots (evs : Evs) (l : list nat) (n h e : nat) : Prop :=
  ∀ i, (i < n)%nat → i ≠ h → min_heap_idx (evs !!! (l !!! i)) = Z.of_nat i ∧ l !!! i ≠ e.

(** [e] went into the hole [h], or others made way for it. *)
Definition filled (evs : Evs) (s : min_heap) (h e : nat) (evs' : Evs) (s' : min_heap) : Prop :=
  heap_ok evs' s' ∧ mh_n s' = mh_n s ∧ length (mh_p s') = length (mh_p s) ∧
  live s' ≡ₚ <[h := e]> (live s) ∧ idx_only evs evs' ∧
  ∀ x, x ∉ live s' → min_heap_idx (evs' !!! x) = min_heap_idx (evs !!! x).

Lemma length_live s : (mh_n s <= length (mh_p s))%nat → length (live s) = mh_n s.
Proof. intros. unfold live. rewrite length_take. lia. Qed.

Lemma heap_read_ok s i : (i < mh_n s <= length (mh_p s))%nat → heap_read s i = Val (mh_p s !!! i).
Proof.
  intros Hi. unfold heap_read. destruct (Nat.ltb_spec i (mh_n s)); [|lia].
  by rewrite (list_lookup_lookup_total_lt (mh_p s) i) by lia.
Qed.

Lemma place_last s h e evs :
  (h < mh_n s <= length (mh_p s))%nat → heap_order (key evs) (<[h := e]> (mh_p s)) (mh_n s) →
  slots evs (mh_p s) (mh_n s) h e →
  ∃ s' evs', heap_place s h e evs = Val (s', evs') ∧ filled evs s h e evs' s'.
Proof.
  intros Hh Ho Hs. unfold heap_place. destruct (Nat.ltb_spec h (length (mh_p s))); [|lia].
  eexists _, _. split; [done|]. split; [split; cbn [mh_p mh_n]|cbn [mh_n mh_p]; repeat split].
  - rewrite length_insert. lia.
  - intros i Hi. unfold edge. rewrite !(idx_only_key evs (put_heap_idx e (Z.of_nat h) evs)) by apply idx_only_put.
    by apply Ho.
  - intros i Hi. destruct (decide (i = h)) as [->|Hne].
    + rewrite list_lookup_total_insert_eq by lia. apply idx_put_eq.
    + rewrite list_lookup_total_insert_ne by done. destruct (Hs i Hi Hne). by rewrite idx_put_ne.
  - by rewrite length_insert.
  - unfold live. cbn [mh_p mh_n]. rewrite take_insert_in by lia. done.
  - apply idx_only_put.
  - intros x Hx. rewrite idx_put_ne; [done|]. intros ->. apply Hx. unfold live. cbn [mh_p mh_n].
    rewrite take_insert_in by lia. apply list_elem_of_insert. rewrite length_take. lia.
Qed.

(** The event of slot [i] moves to the hole, which moves to [i]. *)
Lemma place_move s h i e evs :
  (h < mh_n s <= length (mh_p s))%nat → (i < mh_n s)%nat → i ≠ h → slots evs (mh_p s) (mh_n s) h e →
  let q := mh_p s !!! i in
  let s1 := {| mh_p := <[h := q]> (mh_p s); mh_n := mh_n s |} in
  let evs1 := put_heap_idx q (Z.of_nat h) evs in
  heap_place s h q evs = Val (s1, evs1) ∧ slots evs1 (mh_p s1) (mh_n s1) i e ∧
  (∀ evs' s', filled evs1 s1 i e evs' s' → filled evs s h e evs' s').
Proof.
  intros Hh Hi Hne Hs q s1 evs1. destruct (Hs i Hi Hne) as [Hqi Hqe]. fold q in Hqi, Hqe. split; [|split].
  - unfold heap_place. by destruct (Nat.ltb_spec h (length (mh_p s))); [|lia].
  - intros j Hj Hji. cbn [s1 mh_p mh_n] in *. destruct (decide (j = h)) as [->|Hjh].
    + rewrite list_lookup_total_insert_eq by lia. split; [apply idx_put_eq|done].
    + rewrite list_lookup_total_insert_ne by done. destruct (Hs j Hj Hjh) as [Hj1 Hj2]. split; [|done].
      unfold evs1. rewrite idx_put_ne; [done|]. intros E. rewrite <- E, Hqi in Hj1. lia.
  - intros evs' s' (H1 & H2 & H3 & H4 & H5 & H6). cbn [s1 mh_n mh_p] in *. rewrite length_insert in H3.
    assert (take (mh_n s) (mh_p s) !! i = Some q) as Hlk.
    { rewrite lookup_take_lt by done. apply list_lookup_lookup_total_lt. lia. }
    assert (live s' ≡ₚ <[h := e]> (live s)) as Hperm.
    { rewrite H4. unfold live, s1. cbn [mh_n mh_p]. rewrite take_insert_in by lia.
      apply insert_swap; [done|done|rewrite length_take; lia]. }
    repeat (split; [done|]). split; [eapply idx_only_trans; [apply idx_only_put|done]|].
    intros x Hx. rewrite H6 by done. unfold evs1. rewrite idx_put_ne; [done|].
    intros <-. apply Hx. rewrite Hperm. apply list_elem_of_lookup. exists i. rewrite list_lookup_insert_ne by done. exact Hlk.
Qed.

(** ** The two loops *)

Lemma shift_up_spec fuel s h e evs :
  (h < mh_n s <= length (mh_p s))%nat → (h <= fuel)%nat → hole_order (key evs) (mh_p s) (mh_n s) h →
  (∀ i, (0 < i < mh_n s)%nat → par i = h → tle (key evs e) (key evs (mh_p s !!! i))) →
  slots evs (mh_p s) (mh_n s) h e →
  ∃ s' evs', min_heap_shift_up_ fuel s h e evs = Val (s', evs') ∧ filled evs s h e evs' s'.
Proof.
  revert s h evs. induction fuel as [|fuel IH]; intros s h evs Hh Hf Ho Hd Hs; cbn [min_heap_shift_up_].
  all: destruct (Nat.eqb_spec h 0) as [E|E].
  1, 3: apply place_last; [done|apply hole_filled; (done || lia)|done].
  { lia. }
  pose proof (par_lt h ltac:(lia)). change ((h - 1) / 2)%nat with (par h).
  rewrite heap_read_ok by lia. cbn [mbind outcome_bind]. unfold min_heap_elem_greater.
  destruct (evutil_timercmp _ _ _) eqn:Eg.
  2: { apply place_last; [done|apply hole_filled; (done || lia)|done]. }
  destruct (place_move s h (par h) e evs Hh ltac:(lia) ltac:(lia) Hs) as (-> & Hs1 & Hfill).
  cbn [mbind outcome_bind]. destruct (hole_up _ _ _ _ Ho ltac:(lia) ltac:(lia)) as [Ho1 Hd1].
  pose proof (λ x, idx_only_key _ _ x (idx_only_put evs (mh_p s !!! par h) (Z.of_nat h))) as Hk.
  set (s1 := {| mh_p := _; mh_n := _ |}) in *. set (evs1 := put_heap_idx _ _ _) in *.
  destruct (IH s1 (par h) evs1) as (s' & evs' & -> & Hf'); try done; [cbn [s1 mh_n mh_p]; rewrite length_insert; lia|lia|..].
  - cbn [s1 mh_n mh_p]. destruct Ho1 as [A B]. split; intros i; unfold edge; rewrite !Hk; [apply A|apply B].
  - cbn [s1 mh_n mh_p]. intros i Hi Hp. rewrite !Hk. eapply tle_trans; [|by apply Hd1]. by apply tle_greater.
  - eauto.
Qed.

(** The child the loop takes is the smaller one. *)
Lemma min_child_spec evs s h :
  (mh_n s <= length (mh_p s))%nat → (2 * (h + 1) <= mh_n s)%nat →
  ∃ c, (if (2 * (h + 1) =? mh_n s)%nat then Val (2 * (h + 1) - 1)%nat
        else r ← heap_read s (2 * (h + 1));
             l ← heap_read s (2 * (h + 1) - 1);
             Val (if min_heap_elem_greater evs r l then (2 * (h + 1) - 1)%nat else (2 * (h + 1))%nat)) = Val c ∧
    (h < c < mh_n s)%nat ∧ par c = h ∧
    ∀ i, (0 < i < mh_n s)%nat → par i = h → tle (key evs (mh_p s !!! c)) (key evs (mh_p s !!! i)).
Proof.
  intros Hn Hc. destruct (Nat.eqb_spec (2 * (h + 1)) (mh_n s)) as [E|E].
  - exists (2 * (h + 1) - 1)%nat. split; [done|]. split; [lia|]. split; [apply par_children; lia|].
    intros i Hi [->| ->]%par_children; try lia. replace (2 * (h + 1) - 1)%nat with (2 * h + 1)%nat by lia. apply tle_refl.
  - rewrite !heap_read_ok by lia. cbn [mbind outcome_bind]. unfold min_heap_elem_greater.
    eexists. split; [done|]. replace (2 * (h + 1) - 1)%nat with (2 * h + 1)%nat by lia.
    replace (2 * (h + 1))%nat with (2 * h + 2)%nat by lia. destruct (evutil_timercmp _ _ _) eqn:Eg.
    + split; [lia|]. split; [apply par_children; lia|].
      intros i Hi [->| ->]%par_children; [apply tle_refl|by apply tle_greater|lia].
    + split; [lia|]. split; [apply par_children; lia|].
      intros i Hi [->| ->]%par_children; [exact Eg|apply tle_refl|lia].
Qed.

Lemma shift_down_spec fuel s h e evs :
  (h < mh_n s <= length (mh_p s))%nat → (mh_n s <= h + fuel)%nat → hole_order (key evs) (mh_p s) (mh_n s) h →
  (0 < h → tle (key evs (mh_p s !!! par h)) (key evs e))%nat →
  slots evs (mh_p s) (mh_n s) h e →
  ∃ s' evs', min_heap_shift_down_ fuel s h e evs = Val (s', evs') ∧ filled evs s h e evs' s'.
Proof.
  revert s h evs. induction fuel as [|fuel IH]; intros s h evs Hh Hf Ho Hu Hs; [lia|].
  cbn [min_heap_shift_down_]. destruct (Nat.leb_spec (2 * (h + 1)) (mh_n s)) as [Hc|Hc].
  2: { apply place_last; [done|apply hole_filled; [done..|]|done].
       intros i Hi [->| ->]%par_children; lia. }
  destruct (min_child_spec evs s h) as (c & -> & Hcr & Hpc & Hmin); [lia..|]. cbn [mbind outcome_bind].
  rewrite heap_read_ok by lia. cbn [mbind outcome_bind]. unfold min_heap_elem_greater.
  destruct (evutil_timercmp _ _ _) eqn:Eg; cbn [negb].
  2: { apply place_last; [done|apply hole_filled; [done..|]|done].
       intros i Hi Hp. eapply tle_trans; [exact Eg|by apply Hmin]. }
  destruct (place_move s h c e evs Hh ltac:(lia) ltac:(lia) Hs) as (-> & Hs1 & Hfill). cbn [mbind outcome_bind].
  pose proof (hole_down _ _ _ _ c Ho ltac:(lia) Hpc ltac:(lia) Hmin) as Ho1.
  pose proof (λ x, idx_only_key _ _ x (idx_only_put evs (mh_p s !!! c) (Z.of_nat h))) as Hk.
  set (s1 := {| mh_p := _; mh_n := _ |}) in *. set (evs1 := put_heap_idx _ _ _) in *.
  destruct (IH s1 c evs1) as (s' & evs' & -> & Hf'); try done;
    [cbn [s1 mh_n mh_p]; rewrite length_insert; lia|cbn [s1 mh_n]; lia|..].
  - cbn [s1 mh_n mh_p]. destruct Ho1 as [A B]. split; intros i; unfold edge; rewrite !Hk; [apply A|apply B].
  - cbn [s1 mh_n mh_p]. intros _. rewrite !Hk, Hpc, list_lookup_total_insert_eq by lia. by apply tle_greater.
  - eauto.
Qed.

(** ** The operations *)

Lemma heap_nodup evs s : heap_ok evs s → NoDup (live s).
Proof.
  intros Hh. pose proof (hp_size _ _ Hh). apply NoDup_alt. intros i j x Hi Hj.
  assert (∀ i, live s !! i = Some x → min_heap_idx (evs !!! x) = Z.of_nat i) as Hx.
  { intros i' Hi'. pose proof (lookup_lt_Some _ _ _ Hi') as Hl. rewrite length_live in Hl by done.
    unfold live in Hi'. rewrite lookup_take_lt in Hi' by done.
    rewrite <- (hp_slots _ _ Hh i' Hl). by rewrite (list_lookup_total_correct _ _ _ Hi'). }
  apply Hx in Hi, Hj. lia.
Qed.

Lemma live_slot evs s x : heap_ok evs s → x ∈ live s →
  ∃ i, (i < mh_n s)%nat ∧ mh_p s !!! i = x ∧ min_heap_idx (evs !!! x) = Z.of_nat i.
Proof.
  intros Hh [i Hi]%list_elem_of_lookup. pose proof (lookup_lt_Some _ _ _ Hi) as Hl.
  rewrite length_live in Hl by apply Hh. unfold live in Hi. rewrite lookup_take_lt in Hi by done.
  apply list_lookup_total_correct in Hi. exists i. split; [done|]. split; [done|].
  rewrite <- Hi. by apply (hp_slots _ _ Hh).
Qed.

(** The top is a deadline no other precedes. *)
Lemma heap_top_min evs s x : heap_ok evs s → min_heap_top s = Some x →
  x ∈ live s ∧ ∀ y, y ∈ live s → tle (key evs x) (key evs y).
Proof.
  intros Hh Ht. unfold min_heap_top in Ht. destruct (Nat.eqb_spec (mh_n s) 0); [done|].
  pose proof (hp_size _ _ Hh). assert (mh_p s !!! 0%nat = x) as Hx.
  { destruct (mh_p s); [done|]. by injection Ht. }
  split.
  - apply list_elem_of_lookup. exists 0%nat. unfold live. rewrite lookup_take_lt by lia.
    rewrite <- Hx. apply list_lookup_lookup_total_lt. lia.
  - intros y Hy. destruct (live_slot _ _ _ Hh Hy) as (i & Hi & <- & _). clear Hy.
    induction (lt_wf i) as [i _ IH]. destruct (decide (i = 0%nat)) as [->|]; [rewrite Hx; apply tle_refl|].
    pose proof (par_lt i ltac:(lia)). eapply tle_trans; [apply (IH (par i)); lia|]. apply (hp_order _ _ Hh). lia.
Qed.

Lemma heap_top_none evs s : heap_ok evs s → min_heap_top s = None ↔ live s = [].
Proof.
  intros Hh. pose proof (hp_size _ _ Hh). unfold min_heap_top, live. destruct (Nat.eqb_spec (mh_n s) 0) as [->|]; [done|].
  destruct (mh_p s), (mh_n s); cbn in *; done || lia.
Qed.

Section ops.
Context `{Malloc}.

Lemma heap_reserve_spec s n evs : heap_ok evs s →
  min_heap_reserve s n = (false, s) ∨
  ∃ s', min_heap_reserve s n = (true, s') ∧ heap_ok evs s' ∧ mh_n s' = mh_n s ∧ live s' = live s ∧ (n <= length (mh_p s'))%nat.
Proof.
  intros Hh. unfold min_heap_reserve. destruct (Z.ltb_spec (Z.of_nat (length (mh_p s))) (Z.of_nat n)).
  2: { right. exists s. auto with lia. }
  set (a := if _ =? 0 then _ else _). set (a' := if a <? _ then _ else _).
  destruct (malloc_ok _); [right|by left]. assert (Z.of_nat n <= a') as Ha.
  { unfold a'. destruct (Z.ltb_spec a (Z.of_nat n)); lia. }
  eexists. split; [done|]. pose proof (hp_size _ _ Hh). assert (∀ i, (i < mh_n s)%nat →
    (mh_p s ++ replicate (Z.to_nat a' - length (mh_p s)) 0%nat) !!! i = mh_p s !!! i) as Hl.
  { intros i Hi. rewrite !list_lookup_total_alt, lookup_app_l by lia. done. }
  split; [split; cbn [mh_p mh_n]|split; [done|split]].
  - rewrite length_app. lia.
  - intros i Hi. pose proof (par_lt i ltac:(lia)). unfold edge. rewrite !Hl by lia. by apply (hp_order _ _ Hh).
  - intros i Hi. rewrite Hl by done. by apply (hp_slots _ _ Hh).
  - unfold live. cbn [mh_p mh_n]. rewrite take_app_le by lia. done.
  - cbn [mh_p]. rewrite length_app, length_replicate. lia.
Qed.

Lemma heap_push_spec s e evs : heap_ok evs s → e ∉ live s → (mh_n s < length (mh_p s))%nat →
  ∃ s' evs', min_heap_push s e evs = Val (0, s', evs') ∧ heap_ok evs' s' ∧ live s' ≡ₚ e :: live s ∧
    idx_only evs evs' ∧ (∀ x, x ∉ live s' → min_heap_idx (evs' !!! x) = min_heap_idx (evs !!! x)).
Proof.
  intros Hh He Hroom. unfold min_heap_push, min_heap_reserve.
  destruct (Z.ltb_spec (Z.of_nat (length (mh_p s))) (Z.of_nat (mh_n s + 1))); [lia|].
  set (s1 := set_n (S (mh_n s)) s).
  assert (slots evs (mh_p s1) (mh_n s1) (mh_n s) e) as Hs.
  { intros i Hi Hne. cbn [s1 set_n mh_p mh_n] in *. split; [apply (hp_slots _ _ Hh); lia|].
    intros <-. apply He. apply list_elem_of_lookup. exists i. unfold live. rewrite lookup_take_lt by lia.
    apply list_lookup_lookup_total_lt. lia. }
  destruct (shift_up_spec (mh_n s) s1 (mh_n s) e evs) as (s' & evs' & -> & H1 & H2 & H3 & H4 & H5 & H6); try done.
  - cbn. lia.
  - split; intros i Hi; cbn [s1 set_n mh_p mh_n] in *.
    + intros. apply (hp_order _ _ Hh). lia.
    + intros Hp. pose proof (par_lt i ltac:(lia)). lia.
  - intros i Hi Hp. cbn [s1 set_n mh_p mh_n] in *. pose proof (par_lt i ltac:(lia)). lia.
  - cbn [mbind outcome_bind]. exists s', evs'. split; [done|]. split; [done|]. split; [|done]. rewrite H4.
    unfold live, s1. cbn [set_n mh_n mh_p]. rewrite (take_S_r _ _ (mh_p s !!! mh_n s)) by (apply list_lookup_lookup_total_lt; lia).
    rewrite insert_app_r_alt by (rewrite length_take; lia). rewrite length_take.
    replace (mh_n s - mh_n s `min` length (mh_p s))%nat with 0%nat by lia. cbn [insert list_insert].
    by rewrite Permutation_app_comm.
Qed.

Lemma heap_ok_put s e i evs : heap_ok evs s → e ∉ live s → heap_ok (put_heap_idx e i evs) s.
Proof.
  intros Hh He. split; [apply Hh|..].
  - intros j Hj. unfold edge. rewrite !(idx_only_key evs (put_heap_idx e i evs)) by apply idx_only_put. by apply (hp_order _ _ Hh).
  - intros j Hj. rewrite idx_put_ne; [by apply (hp_slots _ _ Hh)|]. intros ->. apply He.
    apply list_elem_of_lookup. exists j. unfold live. rewrite lookup_take_lt by lia.
    pose proof (hp_size _ _ Hh). apply list_lookup_lookup_total_lt. lia.
Qed.

Lemma insert_perm {A} (l : list A) h e x : l !! h = Some e → e :: <[h := x]> l ≡ₚ l ++ [x].
Proof.
  intros Hh. pose proof (lookup_lt_Some _ _ _ Hh). rewrite insert_take_drop by done.
  rewrite <- (take_drop_middle l h e Hh) at 3. rewrite <- (Permutation_middle _ _ x), <- app_assoc.
  cbn [app]. rewrite <- (Permutation_middle _ _ e). apply perm_skip. rewrite app_assoc. apply Permutation_cons_append.
Qed.

(** The last slot of a heap, which an erase takes out first. *)
Lemma live_last s : (0 < mh_n s <= length (mh_p s))%nat →
  live s = live (set_n (mh_n s - 1) s) ++ [mh_p s !!! (mh_n s - 1)%nat].
Proof.
  intros Hn. unfold live. cbn [set_n mh_n mh_p]. replace (mh_n s) with (S (mh_n s - 1)) at 1 by lia.
  apply take_S_r, list_lookup_lookup_total_lt. lia.
Qed.

(** Erasing the event of slot [h]: the last event takes its place and moves up or down. *)
Lemma erase_slot_spec s h evs :
  heap_ok evs s → (h < mh_n s)%nat →
  let e := mh_p s !!! h in
  let last := mh_p s !!! (mh_n s - 1)%nat in
  let s1 := set_n (mh_n s - 1) s in
  ∃ s' evs', (if ((0 <? h)%nat && min_heap_elem_greater evs (mh_p s !!! par h) last)%bool
              then min_heap_shift_up_ (S (mh_n s1)) s1 h last evs
              else min_heap_shift_down_ (S (mh_n s1)) s1 h last evs) = Val (s', evs') ∧
    heap_ok evs' s' ∧ e :: live s' ≡ₚ live s ∧ idx_only evs evs' ∧ length (mh_p s') = length (mh_p s) ∧
    (∀ x, x ∉ live s → min_heap_idx (evs' !!! x) = min_heap_idx (evs !!! x)).
Proof.
  intros Hh Hn e last s1. pose proof (hp_size _ _ Hh) as Hsz. pose proof (live_last s ltac:(lia)) as Hlast. fold s1 last in Hlast.
  assert (heap_ok evs s1) as Hh1.
  { split; cbn [s1 set_n mh_n mh_p]; [lia|intros i Hi; apply (hp_order _ _ Hh); lia|intros i Hi; apply (hp_slots _ _ Hh); lia]. }
  destruct (decide (h = mh_n s - 1)%nat) as [Eh|Eh].
  - assert (last = e) as El by (unfold last, e; by rewrite Eh).
    assert ((0 <? h)%nat && min_heap_elem_greater evs (mh_p s !!! par h) last = false) as ->.
    { destruct (Nat.ltb_spec 0 h); [|done]. cbn [andb]. rewrite El. apply (hp_order _ _ Hh). lia. }
    cbn [min_heap_shift_down_]. destruct (Nat.leb_spec (2 * (h + 1)) (mh_n s1)); [cbn in *; lia|].
    unfold heap_place. cbn [s1 set_n mh_p]. destruct (Nat.ltb_spec h (length (mh_p s))); [|lia].
    rewrite El, list_insert_id by (apply list_lookup_lookup_total_lt; lia). eexists _, _. split; [done|].
    assert (e ∉ live s1) as He.
    { pose proof (heap_nodup _ _ Hh) as Hnd. rewrite Hlast, El in Hnd. apply NoDup_app in Hnd as (_ & Hd & _).
      intros Hin. apply (Hd e Hin). by apply list_elem_of_singleton. }
    split; [by apply heap_ok_put|]. split; [rewrite Hlast, El; apply Permutation_cons_append|].
    split; [apply idx_only_put|]. split; [done|]. intros x Hx. rewrite idx_put_ne; [done|]. intros <-.
    apply Hx. rewrite Hlast, El. apply elem_of_app. right. by apply list_elem_of_singleton.
  - assert (slots evs (mh_p s1) (mh_n s1) h last) as Hs.
    { intros i Hi Hne. cbn [s1 set_n mh_n mh_p] in *. split; [apply (hp_slots _ _ Hh); lia|]. intros E.
      pose proof (hp_slots _ _ Hh i ltac:(lia)) as H1. rewrite E in H1. unfold last in H1.
      rewrite (hp_slots _ _ Hh) in H1 by lia. lia. }
    pose proof (order_hole _ _ _ h (hp_order _ _ Hh1)) as Ho.
    assert (∃ s' evs', (if ((0 <? h)%nat && min_heap_elem_greater evs (mh_p s !!! par h) last)%bool
              then min_heap_shift_up_ (S (mh_n s1)) s1 h last evs
              else min_heap_shift_down_ (S (mh_n s1)) s1 h last evs) = Val (s', evs') ∧ filled evs s1 h last evs' s')
      as (s' & evs' & -> & H1 & H2 & H3 & H4 & H5 & H6).
    { destruct (Nat.ltb_spec 0 h) as [H0|H0]; cbn [andb].
      2: { apply shift_down_spec; try done; try (cbn; lia). }
      destruct (min_heap_elem_greater _ _ _) eqn:Eg.
      - apply shift_up_spec; try done; try (cbn; lia). intros i Hi Hp. eapply tle_trans; [by apply tle_greater|].
        apply (proj2 Ho); (done || lia).
      - apply shift_down_spec; try done; cbn; lia. }
    exists s', evs'. split; [done|]. split; [done|].
    assert (e :: live s' ≡ₚ live s) as Hp.
    { rewrite H4, Hlast. apply insert_perm. unfold live. cbn [s1 set_n mh_n mh_p].
      rewrite lookup_take_lt by lia. apply list_lookup_lookup_total_lt. lia. }
    split; [done|]. split; [done|]. split; [done|]. intros x Hx. apply H6. intros Hin. apply Hx. rewrite <- Hp. by right.
Qed.

(** What an erase (and a pop) leaves: the other events, and [e] marked as outside. *)
Definition taken (s : min_heap) (e : nat) (evs : Evs) (s' : min_heap) (evs' : Evs) : Prop :=
  heap_ok evs' s' ∧ e :: live s' ≡ₚ live s ∧ idx_only evs evs' ∧ length (mh_p s') = length (mh_p s) ∧
  min_heap_idx (evs' !!! e) = -1 ∧
  ∀ x, x ∉ live s → min_heap_idx (evs' !!! x) = min_heap_idx (evs !!! x).

Lemma taken_intro s e evs s' evs' :
  heap_ok evs s → heap_ok evs' s' → e :: live s' ≡ₚ live s → idx_only evs evs' → length (mh_p s') = length (mh_p s) →
  (∀ x, x ∉ live s → min_heap_idx (evs' !!! x) = min_heap_idx (evs !!! x)) →
  taken s e evs s' (put_heap_idx e (-1) evs').
Proof.
  intros Hh0 Hh Hp Hi Hl Hx. assert (NoDup (e :: live s')) as Hnd by (rewrite Hp; by apply (heap_nodup evs)).
  apply NoDup_cons in Hnd as [He _].
  split; [by apply heap_ok_put|]. split; [done|]. split; [eapply idx_only_trans; [done|apply idx_only_put]|].
  split; [done|]. split; [apply idx_put_eq|]. intros x Hn. rewrite idx_put_ne; [by apply Hx|].
  intros <-. apply Hn. rewrite <- Hp. by left.
Qed.

Lemma heap_erase_spec s e evs : heap_ok evs s → e ∈ live s →
  ∃ s' evs', min_heap_erase s e evs = Val (0, s', evs') ∧ taken s e evs s' evs'.
Proof.
  intros Hh He. destruct (live_slot _ _ _ Hh He) as (h & Hn & Hp & Hi). unfold min_heap_erase. rewrite Hi.
  destruct (Z.eqb_spec (Z.of_nat h) (-1)); [lia|]. pose proof (hp_size _ _ Hh).
  rewrite heap_read_ok by lia. cbn [mbind outcome_bind]. rewrite Nat2Z.id. cbn [set_n mh_p].
  destruct (erase_slot_spec s h evs Hh Hn) as (s' & evs' & E & H1 & H2 & H3 & H4 & H5). rewrite Hp in H2.
  set (up := if Z.of_nat h >? 0 then _ else _).
  assert (up = Val ((0 <? h)%nat && min_heap_elem_greater evs (mh_p s !!! par h) (mh_p s !!! (mh_n s - 1)%nat))%bool) as ->.
  { unfold up. destruct (Z.gtb_spec (Z.of_nat h) 0), (Nat.ltb_spec 0 h); try lia; [|done]. pose proof (par_lt h ltac:(lia)).
    change ((h - 1) / 2)%nat with (par h). by rewrite (list_lookup_lookup_total_lt (mh_p s) (par h)) by lia. }
  cbn [mbind outcome_bind]. rewrite E. cbn [mbind outcome_bind]. eexists _, _. split; [done|]. by apply taken_intro.
Qed.

Lemma heap_pop_spec s evs : heap_ok evs s →
  (live s = [] ∧ min_heap_pop s evs = Val (None, s, evs)) ∨
  ∃ e s' evs', min_heap_pop s evs = Val (Some e, s', evs') ∧ taken s e evs s' evs' ∧
    ∀ y, y ∈ live s → tle (key evs e) (key evs y).
Proof.
  intros Hh. pose proof (hp_size _ _ Hh). unfold min_heap_pop. destruct (Nat.eqb_spec (mh_n s) 0) as [E|E].
  { left. split; [|done]. unfold live. by rewrite E. }
  right. rewrite !heap_read_ok by lia. cbn [mbind outcome_bind].
  destruct (erase_slot_spec s 0 evs Hh ltac:(lia)) as (s' & evs' & Ed & H1 & H2 & H3 & H4 & H5). cbn [Nat.ltb Nat.leb andb] in Ed.
  assert (S (mh_n (set_n (mh_n s - 1) s)) = mh_n s) as Es by (cbn; lia). rewrite Es in Ed. rewrite Ed. cbn [mbind outcome_bind].
  eexists _, _, _. split; [done|]. split; [by apply taken_intro|].
  assert (min_heap_top s = Some (mh_p s !!! 0%nat)) as Ht.
  { unfold min_heap_top. destruct (Nat.eqb_spec (mh_n s) 0); [done|]. destruct (mh_p s); cbn in *; [lia|done]. }
  by apply (heap_top_min evs s _ Hh).
Qed.
End ops.
