(* ===== verification/EvMap.v ===== *)
(** Which events wait for which descriptor or signal: evmap.c of libevent 2.0.21, and
    the backend below it.

    [EventOp] is the part of struct eventop (event-internal.h) that evmap.c calls: the
    backend's own state, and [add] and [del] with their result (0 or -1).  Epoll.v gives
    the instance the program runs on.  The arrays of evmap.c are lists of optional
    entries; [nentries] is their length.  The build has no EVMAP_USE_HT (it is for
    Windows), and libevent's debug mode is off, as the program leaves it. *)

From S2P Require Import Prelude EvFlags BufChain EvHeap.

Class EventOp := {
  bk : Type;
  evsel_add : Z → Z → Z → bk → Z * bk;   (** fd, old, events *)
  evsel_del : Z → Z → Z → bk → Z * bk;
  evsigsel_add : Z → bk → Z * bk;
  evsigsel_del : Z → bk → Z * bk }.

(** What a backend promises: it watches per descriptor what it was told to, and a call
    that fails changes nothing. *)
Definition rw (r w : bool) : Z := Z.lor (if r then EV_READ else 0) (if w then EV_WRITE else 0).

(** [EV_ET] or nothing. *)
Definition edge_flag (et : bool) : Z := if et then EV_ET else 0.

Definition rewatched {B} (watch : B → Z → bool * bool) (fd : Z) (want : bool * bool) (b : B) (res : Z * B) : Prop :=
  (∀ fd', fd' ≠ fd → watch res.2 fd' = watch b fd') ∧
  (res.1 = 0 ∧ watch res.2 fd = want ∨ res.1 = -1 ∧ watch res.2 fd = watch b fd).

Class EventOpLaws `{EventOp} := {
  bk_watch : bk → Z → bool * bool;   (** reading, writing *)
  evsel_add_law fd r0 w0 et r w b : bk_watch b fd = (r0, w0) → r || w = true → r0 && r = false → w0 && w = false →
    rewatched bk_watch fd (r0 || r, w0 || w) b (evsel_add fd (rw r0 w0) (Z.lor (edge_flag et) (rw r w)) b);
  evsel_del_law fd r0 w0 r w b : bk_watch b fd = (r0, w0) → r || w = true → (r = true → r0 = true) → (w = true → w0 = true) →
    rewatched bk_watch fd (r0 && negb r, w0 && negb w) b (evsel_del fd (rw r0 w0) (rw r w) b);
  evsigsel_add_law sig b : (evsigsel_add sig b).1 = 0 ∨ (evsigsel_add sig b).1 = -1;
  evsigsel_add_watch sig b fd : bk_watch (evsigsel_add sig b).2 fd = bk_watch b fd;
  evsigsel_del_law sig b : (evsigsel_del sig b).1 = 0 ∨ (evsigsel_del sig b).1 = -1;
  evsigsel_del_watch sig b fd : bk_watch (evsigsel_del sig b).2 fd = bk_watch b fd }.

Record evmap_io := { mi_events : list nat; mi_nread : Z; mi_nwrite : Z }.
Abbreviation slot_map A := (list (option A)).

Definition evmap_io_init : evmap_io := {| mi_events := []; mi_nread := 0; mi_nwrite := 0 |}.
Definition evmap_signal_init : list nat := [].

(** A map without entries, and what is left of one when its entries and their array are freed. *)
Definition evmap_signal_initmap : slot_map (list nat) := [].
Definition evmap_signal_clear (map : slot_map (list nat)) : slot_map (list nat) := [].
Definition evmap_io_initmap : slot_map evmap_io := [].
Definition evmap_io_clear (map : slot_map evmap_io) : slot_map evmap_io := [].

(** [TAILQ_REMOVE]. *)
Definition tailq_remove (x : nat) (l : list nat) : list nat := filter (.≠ x) l.

(** [while (nentries <= slot) nentries <<= 1]; an [int] that has lost its bits stays 0. *)
Fixpoint grow (fuel : nat) (nentries slot : Z) : outcome Z :=
  if nentries <=? slot then
    match fuel with O => Undef Hang | S fuel => grow fuel (i32 (Z.shiftl nentries 1)) slot end
  else Val nentries.

Section evmap.
Context `{Malloc, EventOp}.

Definition evmap_make_space {A} (map : slot_map A) (slot : Z) : outcome (option (slot_map A)) :=
  let n := Zlen map in
  if n <=? slot then
    nentries ← grow 32 (if n =? 0 then 32 else n) slot;
    if malloc_ok (nentries * 8) then Val (Some (map ++ replicate (Z.to_nat (nentries - n)) None))
    else Val None
  else Val (Some map).

(** [GET_SIGNAL_SLOT_AND_CTOR]: the entry of a slot, made when there is none. *)
Definition slot_and_ctor {A} (size : Z) (ctor : A) (slot : Z) (map : slot_map A) : outcome (option (A * slot_map A)) :=
  o ← or_undef OutOfBounds (znth map slot);
  match o with
  | Some x => Val (Some (x, map))
  | None => if malloc_ok size then Val (Some (ctor, <[Z.to_nat slot := Some ctor]> map)) else Val None
  end.

Definition old_events (ctx : evmap_io) : Z :=
  Z.lor (if mi_nread ctx =? 0 then 0 else EV_READ) (if mi_nwrite ctx =? 0 then 0 else EV_WRITE).

(** The whole of [evmap_io_add] for the event [x]; the map grows even where the call fails later. *)
Definition evmap_io_add (fd : Z) (x : nat) (evs : Evs) (io : slot_map evmap_io) (b : bk)
  : outcome (Z * slot_map evmap_io * bk) :=
  let ev := evs !!! x in
  if negb (fd =? ev_fd ev) then Undef AssertFail
  else if fd <? 0 then Val (0, io, b)
  else
    o ← evmap_make_space io fd;
    match o with
    | None => Val (-1, io, b)
    | Some io =>
        o ← slot_and_ctor 24 evmap_io_init fd io;
        match o with
        | None => Val (-1, io, b)
        | Some (ctx, io) =>
            let r := has (ev_events ev) EV_READ in
            let w := has (ev_events ev) EV_WRITE in
            let nread := if r then mi_nread ctx + 1 else mi_nread ctx in
            let nwrite := if w then mi_nwrite ctx + 1 else mi_nwrite ctx in
            let res := Z.lor (if r && (nread =? 1) then EV_READ else 0) (if w && (nwrite =? 1) then EV_WRITE else 0) in
            if (nread >? 0xffff) || (nwrite >? 0xffff) then Val (-1, io, b)
            else
              let '(rc, b) :=
                if negb (res =? 0) then evsel_add fd (old_events ctx) (Z.lor (Z.land (ev_events ev) EV_ET) res) b
                else (0, b) in
              if rc =? -1 then Val (-1, io, b)
              else
                let ctx := {| mi_events := mi_events ctx ++ [x]; mi_nread := u16 nread; mi_nwrite := u16 nwrite |} in
                Val (if negb (res =? 0) then 1 else 0, <[Z.to_nat fd := Some ctx]> io, b)
        end
    end.

Definition evmap_io_del (fd : Z) (x : nat) (evs : Evs) (io : slot_map evmap_io) (b : bk)
  : outcome (Z * slot_map evmap_io * bk) :=
  let ev := evs !!! x in
  if fd <? 0 then Val (0, io, b)
  else if negb (fd =? ev_fd ev) then Undef AssertFail
  else if fd >=? Zlen io then Val (-1, io, b)
  else
    o ← or_undef OutOfBounds (znth io fd);
    ctx ← or_undef NullDeref o;
    let r := has (ev_events ev) EV_READ in
    let w := has (ev_events ev) EV_WRITE in
    let nread := if r then mi_nread ctx - 1 else mi_nread ctx in
    let nwrite := if w then mi_nwrite ctx - 1 else mi_nwrite ctx in
    let res := Z.lor (if r && (nread =? 0) then EV_READ else 0) (if w && (nwrite =? 0) then EV_WRITE else 0) in
    if (r && (nread <? 0)) || (w && (nwrite <? 0)) then Undef AssertFail
    else
      let '(rc, b) := if negb (res =? 0) then evsel_del fd (old_events ctx) res b else (0, b) in
      if rc =? -1 then Val (-1, io, b)
      else
        let ctx := {| mi_events := tailq_remove x (mi_events ctx); mi_nread := u16 nread; mi_nwrite := u16 nwrite |} in
        Val (if negb (res =? 0) then 1 else 0, <[Z.to_nat fd := Some ctx]> io, b).

(** The events [evmap_io_active] activates, each with its result. *)
Definition io_ready (fd events : Z) (evs : Evs) (io : slot_map evmap_io) : outcome (list (nat * Z)) :=
  if fd >=? Zlen io then Undef AssertFail
  else
    o ← or_undef OutOfBounds (znth io fd);
    ctx ← or_undef AssertFail o;
    Val ((λ x, (x, Z.land (ev_events (evs !!! x)) events)) <$>
         filter (λ x, has (ev_events (evs !!! x)) events = true) (mi_events ctx)).

Definition evmap_signal_add (sig : Z) (x : nat) (map : slot_map (list nat)) (b : bk)
  : outcome (Z * slot_map (list nat) * bk) :=
  o ← (if sig >=? Zlen map then evmap_make_space map sig else Val (Some map));
  match o with
  | None => Val (-1, map, b)
  | Some map =>
      o ← slot_and_ctor 16 evmap_signal_init sig map;
      match o with
      | None => Val (-1, map, b)
      | Some (ctx, map) =>
          let '(rc, b) := match ctx with [] => evsigsel_add sig b | _ => (0, b) end in
          if rc =? -1 then Val (-1, map, b)
          else Val (1, <[Z.to_nat sig := Some (ctx ++ [x])]> map, b)
      end
  end.

Definition evmap_signal_del (sig : Z) (x : nat) (map : slot_map (list nat)) (b : bk)
  : outcome (Z * slot_map (list nat) * bk) :=
  if sig >=? Zlen map then Val (-1, map, b)
  else
    o ← or_undef OutOfBounds (znth map sig);
    ctx ← or_undef NullDeref o;
    let '(rc, b) := if bool_decide (head ctx = last ctx) then evsigsel_del sig b else (0, b) in
    if rc =? -1 then Val (-1, map, b)
    else Val (1, <[Z.to_nat sig := Some (tailq_remove x ctx)]> map, b).

(** The events [evmap_signal_active] activates. *)
Definition signal_ready (sig : Z) (map : slot_map (list nat)) : outcome (list nat) :=
  if sig >=? Zlen map then Undef AssertFail
  else
    o ← or_undef OutOfBounds (znth map sig);
    or_undef NullDeref o.
End evmap.
