(* ===== verification/EvMapInv.v ===== *)
(** The maps from descriptors and signals to events (EvMap.v): each entry counts the
    readers and writers among its events, and the backend watches exactly what the
    entries ask for. *)

From S2P Require Import Prelude EvFlags BufChain EvHeap EvMap.

(** ** Lists of events *)

Lemma remove_notin x l : x ∉ l → tailq_remove x l = l.
Proof.
  unfold tailq_remove. induction l as [|y l IH]; intros Hx; [done|]. apply not_elem_of_cons in Hx as [H1 H2].
  rewrite filter_cons_True by done. by rewrite IH.
Qed.
Lemma elem_remove x y l : y ∈ tailq_remove x l ↔ y ≠ x ∧ y ∈ l.
Proof. unfold tailq_remove. by rewrite list_elem_of_filter. Qed.
Lemma nodup_remove x l : NoDup l → NoDup (tailq_remove x l).
Proof. apply NoDup_filter. Qed.
Lemma remove_perm x l : NoDup l → x ∈ l → l ≡ₚ x :: tailq_remove x l.
Proof.
  induction 1 as [|y l Hy Hnd IH]; intros Hx; [by apply not_elem_of_nil in Hx|]. unfold tailq_remove.
  destruct (decide (y = x)) as [->|Hne].
  - rewrite filter_cons_False by naive_solver. fold (tailq_remove x l). by rewrite remove_notin.
  - rewrite filter_cons_True by done. apply elem_of_cons in Hx as [Hx|Hx]; [done|].
    rewrite perm_swap. apply perm_skip. by apply IH.
Qed.

(** The number of events of a list that satisfy [f]. *)
Definition count (f : nat → bool) (l : list nat) : Z := Zlen (filter (λ x, f x = true) l).

Lemma count_nonneg f l : 0 <= count f l.
Proof. apply Zlen_nonneg. Qed.
Lemma count_cons f x l : count f (x :: l) = (if f x then 1 else 0) + count f l.
Proof.
  unfold count. destruct (f x) eqn:E; [rewrite filter_cons_True by done|rewrite filter_cons_False by congruence].
  - by rewrite Zlen_cons.
  - lia.
Qed.
Lemma count_app f l k : count f (l ++ k) = count f l + count f k.
Proof. unfold count. by rewrite filter_app, Zlen_app. Qed.
Lemma count_perm f l k : l ≡ₚ k → count f l = count f k.
Proof. intros Hp. unfold count, Zlen. f_equal. apply Permutation_length. by apply filter_Permutation. Qed.
Lemma count_remove f x l : NoDup l → x ∈ l → count f l = (if f x then 1 else 0) + count f (tailq_remove x l).
Proof. intros Hnd Hx. rewrite (count_perm _ _ _ (remove_perm x l Hnd Hx)). apply count_cons. Qed.
Lemma count_ext f g l : (∀ x, x ∈ l → f x = g x) → count f l = count g l.
Proof. intros He. unfold count. f_equal. apply filter_ext_in. intros x Hx. by rewrite (He x Hx). Qed.

(** ** The map of descriptors *)

Definition reads (evs : Evs) (x : nat) : bool := has (ev_events (evs !!! x)) EV_READ.
Definition writes (evs : Evs) (x : nat) : bool := has (ev_events (evs !!! x)) EV_WRITE.

Definition entry (io : slot_map evmap_io) (fd : Z) : evmap_io :=
  match znth io fd with Some (Some ctx) => ctx | _ => evmap_io_init end.
Definition fd_events (io : slot_map evmap_io) (fd : Z) : list nat := mi_events (entry io fd).

Record entry_ok (evs : Evs) (fd : Z) (ctx : evmap_io) : Prop := {
  en_nodup : NoDup (mi_events ctx);
  en_fd : ∀ x, x ∈ mi_events ctx → ev_fd (evs !!! x) = fd;
  en_nread : mi_nread ctx = count (reads evs) (mi_events ctx);
  en_nwrite : mi_nwrite ctx = count (writes evs) (mi_events ctx);
  en_small : mi_nread ctx <= 0xffff ∧ mi_nwrite ctx <= 0xffff }.

Definition io_ok (evs : Evs) (io : slot_map evmap_io) : Prop := ∀ fd, entry_ok evs fd (entry io fd).

(** What the counts of an entry ask the backend for. *)
Definition asked (ctx : evmap_io) : bool * bool := (negb (mi_nread ctx =? 0), negb (mi_nwrite ctx =? 0)).

Lemma entry_init evs fd : entry_ok evs fd evmap_io_init.
Proof. split; [constructor|by intros ? ?%not_elem_of_nil|done|done|cbn; lia]. Qed.

Lemma entry_insert io fd ctx fd' : 0 <= fd < Zlen io →
  entry (<[Z.to_nat fd := Some ctx]> io) fd' = if decide (fd' = fd) then ctx else entry io fd'.
Proof.
  intros Hfd. unfold entry, znth, Zlen in *. destruct (Z.ltb_spec fd' 0).
  - by case_decide; [lia|].
  - case_decide as E; [subst; by rewrite list_lookup_insert_eq by lia|]. by rewrite list_lookup_insert_ne by lia.
Qed.

(** Only empty slots are added. *)
Definition grown (io io' : slot_map evmap_io) : Prop := ∀ fd, entry io' fd = entry io fd.

Lemma grow_spec fuel n slot :
  0 < n → slot < n * 2 ^ Z.of_nat fuel → slot < 2 ^ 30 → ∃ m, grow fuel n slot = Val m ∧ slot < m ∧ n <= m.
Proof.
  revert n. induction fuel as [|fuel IH]; intros n Hn Hlt Hs; cbn [grow]; destruct (Z.leb_spec n slot) as [Hle|Hgt].
  - cbn in Hlt. lia.
  - exists n. auto with lia.
  - rewrite Z.shiftl_mul_pow2, i32_small by lia. destruct (IH (n * 2 ^ 1)) as (m & -> & H1 & H2); [lia|..|done|].
    + rewrite Nat2Z.inj_succ, Z.pow_succ_r in Hlt by lia. lia.
    + exists m. auto with lia.
  - exists n. auto with lia.
Qed.

Section maps.
Context {HM : Malloc}.

Lemma make_space_spec {A} (map : slot_map A) slot : 0 <= slot < 2 ^ 30 →
  ∃ o, evmap_make_space map slot = Val o ∧
    match o with None => True | Some map' => slot < Zlen map' ∧ ∃ n, map' = map ++ replicate n None end.
Proof.
  intros Hs. unfold evmap_make_space. pose proof (Zlen_nonneg map). destruct (Z.leb_spec (Zlen map) slot) as [Hle|Hgt].
  2: { exists (Some map). split; [done|]. split; [done|]. exists 0%nat. by rewrite app_nil_r. }
  set (n := if Zlen map =? 0 then 32 else Zlen map).
  assert (0 < n ∧ Zlen map <= n) as [Hn Hn'] by (unfold n; destruct (Z.eqb_spec (Zlen map) 0); lia).
  destruct (grow_spec 32 n slot) as (m & -> & H1 & H2); [done|change (2 ^ Z.of_nat 32) with 4294967296; lia|lia|].
  cbn [mbind outcome_bind]. destruct (malloc_ok _); [|by exists None]. eexists. split; [done|]. split; [|by eexists].
  rewrite Zlen_app, Zlen_replicate. lia.
Qed.

Lemma entry_grown io n : grown io (io ++ replicate n None).
Proof.
  intros fd. unfold entry, znth. destruct (Z.ltb_spec fd 0); [done|].
  destruct (decide (Z.to_nat fd < length io)%nat) as [Hl|Hl]; [by rewrite lookup_app_l|].
  rewrite (lookup_ge_None_2 io) by lia. rewrite lookup_app_r by lia.
  destruct (replicate n None !! _) as [o|] eqn:E; [|done]. apply lookup_replicate in E as [-> _]. done.
Qed.

(** The entry of a slot that exists, or of a fresh one. *)
Lemma slot_ctor_spec io fd : 0 <= fd < Zlen io →
  ∃ o, slot_and_ctor 24 evmap_io_init fd io = Val o ∧
    match o with None => True | Some (ctx, io') => ctx = entry io fd ∧ grown io io' ∧ Zlen io' = Zlen io end.
Proof.
  intros Hfd. unfold slot_and_ctor, entry. destruct (znth_lt io fd Hfd) as [o Ho]. rewrite Ho. cbn [or_undef mbind outcome_bind].
  destruct o as [ctx|].
  - eexists. split; [done|]. done.
  - destruct (malloc_ok _); [|by exists None]. eexists. split; [done|]. split; [done|]. split.
    + intros fd'. rewrite entry_insert by done. case_decide; [|done]. subst. unfold entry. by rewrite Ho.
    + unfold Zlen. by rewrite length_insert.
Qed.

Context {HE : EventOp} {HL : EventOpLaws}.

(** The backend watches what the entries ask for. *)
Definition in_sync (io : slot_map evmap_io) (b : bk) : Prop := ∀ fd, 0 <= fd → bk_watch b fd = asked (entry io fd).

Lemma sync_grown io io' b : grown io io' → in_sync io b → in_sync io' b.
Proof. intros Hg Hs fd Hfd. by rewrite Hg, Hs. Qed.
Lemma io_ok_grown evs io io' : grown io io' → io_ok evs io → io_ok evs io'.
Proof. intros Hg Hs fd. by rewrite Hg. Qed.

(** An entry rewritten with the backend told. *)
Lemma sync_insert io b b' fd ctx :
  in_sync io b → 0 <= fd < Zlen io → (∀ fd', fd' ≠ fd → bk_watch b' fd' = bk_watch b fd') → bk_watch b' fd = asked ctx →
  in_sync (<[Z.to_nat fd := Some ctx]> io) b'.
Proof.
  intros Hs Hfd Ho Ha fd' Hfd'. rewrite entry_insert by done. case_decide as E; [by subst|]. rewrite Ho by done. by apply Hs.
Qed.

Lemma old_events_rw ctx : old_events ctx = rw (asked ctx).1 (asked ctx).2.
Proof. unfold old_events, rw. cbn. by destruct (_ =? 0), (_ =? 0). Qed.

Lemma asked_watch ctx r w : asked ctx = (r, w) → r = negb (mi_nread ctx =? 0) ∧ w = negb (mi_nwrite ctx =? 0).
Proof. by intros [= <- <-]. Qed.

Lemma land_et e : Z.land e EV_ET = edge_flag (has e EV_ET).
Proof.
  assert (Z.land e EV_ET = edge_flag (Z.testbit e 5)) as E.
  { apply Z.bits_inj'. intros n Hn. rewrite Z.land_spec. change EV_ET with (2 ^ 5). rewrite Z.pow2_bits_eqb by lia. destruct (Z.eqb_spec 5 n) as [<-|Hne].
    - rewrite andb_true_r. by destruct (Z.testbit e 5).
    - rewrite andb_false_r. destruct (Z.testbit e 5); [|symmetry; apply Z.bits_0]. cbn. change EV_ET with (2 ^ 5). rewrite Z.pow2_bits_eqb by lia. by destruct (Z.eqb_spec 5 n). }
  unfold has. rewrite E. by destruct (Z.testbit e 5).
Qed.

Lemma told_or_not (b : bool) : (if b then 1 else 0) = 0 ∨ (if b then 1 else 0) = 1.
Proof. destruct b; auto. Qed.

Lemma call_failed {B} (c : bool) (m : Z * B) (b b' : B) : (if c then m else (0, b)) = (-1, b') → c = true ∧ m = (-1, b').
Proof. by destruct c. Qed.

Lemma rw_zero r w : (rw r w =? 0) = negb (r || w).
Proof. by destruct r, w. Qed.

Lemma u16_count f l : count f l <= 0xffff → u16 (count f l) = count f l.
Proof. intros. pose proof (count_nonneg f l). apply u16_small. lia. Qed.

(** An entry with one event more. *)
Lemma entry_added evs fd ctx x :
  entry_ok evs fd ctx → x ∉ mi_events ctx → ev_fd (evs !!! x) = fd →
  let nread := if reads evs x then mi_nread ctx + 1 else mi_nread ctx in
  let nwrite := if writes evs x then mi_nwrite ctx + 1 else mi_nwrite ctx in
  nread <= 0xffff → nwrite <= 0xffff →
  let ctx' := {| mi_events := mi_events ctx ++ [x]; mi_nread := u16 nread; mi_nwrite := u16 nwrite |} in
  entry_ok evs fd ctx' ∧ asked ctx' = ((asked ctx).1 || reads evs x, (asked ctx).2 || writes evs x).
Proof.
  intros [H1 H2 H3 H4 H5] Hx Hfd nread nwrite Hr Hw ctx'. pose proof (count_nonneg (reads evs) (mi_events ctx)).
  pose proof (count_nonneg (writes evs) (mi_events ctx)).
  assert (nread = count (reads evs) (mi_events ctx ++ [x])) as Er.
  { unfold nread. rewrite count_app, count_cons, H3. change (count (reads evs) []) with 0. destruct (reads evs x); lia. }
  assert (nwrite = count (writes evs) (mi_events ctx ++ [x])) as Ew.
  { unfold nwrite. rewrite count_app, count_cons, H4. change (count (writes evs) []) with 0. destruct (writes evs x); lia. }
  assert (u16 nread = nread ∧ u16 nwrite = nwrite) as [Ur Uw].
  { split; [rewrite Er; apply u16_count; lia|rewrite Ew; apply u16_count; lia]. }
  split; [split; cbn [ctx' mi_events mi_nread mi_nwrite]|].
  - apply NoDup_app. split; [done|]. split; [|apply NoDup_singleton]. intros y Hy Hy2%list_elem_of_singleton. by subst y.
  - intros y Hy. apply elem_of_app in Hy as [Hy|Hy]; [auto|]. apply list_elem_of_singleton in Hy as ->. done.
  - by rewrite Ur, Er.
  - by rewrite Uw, Ew.
  - lia.
  - unfold asked. cbn [ctx' mi_nread mi_nwrite fst snd]. rewrite Ur, Uw. unfold nread, nwrite. f_equal.
    + destruct (reads evs x); [|by rewrite orb_false_r]. destruct (Z.eqb_spec (mi_nread ctx + 1) 0); [lia|]. by rewrite orb_true_r.
    + destruct (writes evs x); [|by rewrite orb_false_r]. destruct (Z.eqb_spec (mi_nwrite ctx + 1) 0); [lia|]. by rewrite orb_true_r.
Qed.

(** The backend is told of an event when it is the first reader or writer. *)
Lemma tell_added evs fd ctx x et b :
  entry_ok evs fd ctx → bk_watch b fd = asked ctx →
  let nread := if reads evs x then mi_nread ctx + 1 else mi_nread ctx in
  let nwrite := if writes evs x then mi_nwrite ctx + 1 else mi_nwrite ctx in
  let res := Z.lor (if reads evs x && (nread =? 1) then EV_READ else 0) (if writes evs x && (nwrite =? 1) then EV_WRITE else 0) in
  rewatched bk_watch fd ((asked ctx).1 || reads evs x, (asked ctx).2 || writes evs x) b
    (if negb (res =? 0) then evsel_add fd (old_events ctx) (Z.lor (edge_flag et) res) b else (0, b)).
Proof.
  intros Hen Hwatch nread nwrite res. unfold res. set (r' := reads evs x && (nread =? 1)). set (w' := writes evs x && (nwrite =? 1)).
  change (Z.lor (if r' then EV_READ else 0) (if w' then EV_WRITE else 0)) with (rw r' w').
  rewrite rw_zero, negb_involutive, old_events_rw.
  assert (r' = negb (asked ctx).1 && reads evs x ∧ w' = negb (asked ctx).2 && writes evs x) as [Er' Ew'].
  { unfold r', w', nread, nwrite. cbn [asked fst snd]. rewrite !negb_involutive. pose proof (en_nread _ _ _ Hen).
    pose proof (en_nwrite _ _ _ Hen). pose proof (count_nonneg (reads evs) (mi_events ctx)).
    pose proof (count_nonneg (writes evs) (mi_events ctx)).
    split; [destruct (reads evs x)|destruct (writes evs x)]; cbn [andb]; rewrite ?andb_false_r, ?andb_true_r; try done;
      apply eq_bool_prop_intro; rewrite !Is_true_true, !Z.eqb_eq; lia. }
  clearbody r' w'. destruct (asked ctx) as [r0 w0]. cbn [fst snd] in *. destruct (r' || w') eqn:Erw.
  - replace (r0 || reads evs x) with (r0 || r') by (rewrite Er'; by destruct r0, (reads evs x)).
    replace (w0 || writes evs x) with (w0 || w') by (rewrite Ew'; by destruct w0, (writes evs x)).
    apply evsel_add_law; try done; [rewrite Er'; by destruct r0|rewrite Ew'; by destruct w0].
  - apply orb_false_iff in Erw as [-> ->]. split; [done|]. left. split; [done|]. cbn. rewrite Hwatch.
    f_equal; [destruct r0, (reads evs x)|destruct w0, (writes evs x)]; done.
Qed.

(** A deletion the backend can be asked for: of something it watches. *)
Definition proper_del (fd old ev : Z) (b : bk) : Prop := ∃ r0 w0 r w,
  old = rw r0 w0 ∧ ev = rw r w ∧ bk_watch b fd = (r0, w0) ∧ r || w = true ∧ (r = true → r0 = true) ∧ (w = true → w0 = true).

(** The backend is told when the last reader or writer goes. *)
Lemma tell_removed evs fd ctx x b :
  entry_ok evs fd ctx → bk_watch b fd = asked ctx → x ∈ mi_events ctx →
  let nread := if reads evs x then mi_nread ctx - 1 else mi_nread ctx in
  let nwrite := if writes evs x then mi_nwrite ctx - 1 else mi_nwrite ctx in
  let res := Z.lor (if reads evs x && (nread =? 0) then EV_READ else 0) (if writes evs x && (nwrite =? 0) then EV_WRITE else 0) in
  rewatched bk_watch fd (negb (nread =? 0), negb (nwrite =? 0)) b
    (if negb (res =? 0) then evsel_del fd (old_events ctx) res b else (0, b)) ∧
  (negb (res =? 0) = true → proper_del fd (old_events ctx) res b).
Proof.
  intros Hen Hwatch Hx nread nwrite res. unfold res. set (r' := reads evs x && (nread =? 0)). set (w' := writes evs x && (nwrite =? 0)).
  change (Z.lor (if r' then EV_READ else 0) (if w' then EV_WRITE else 0)) with (rw r' w').
  rewrite rw_zero, negb_involutive, old_events_rw.
  pose proof (en_nread _ _ _ Hen) as Hr. pose proof (en_nwrite _ _ _ Hen) as Hw.
  rewrite (count_remove _ x) in Hr by (done || apply Hen). rewrite (count_remove _ x) in Hw by (done || apply Hen).
  pose proof (count_nonneg (reads evs) (tailq_remove x (mi_events ctx))).
  pose proof (count_nonneg (writes evs) (tailq_remove x (mi_events ctx))).
  destruct (asked ctx) as [r0 w0] eqn:Ea. apply asked_watch in Ea as [Er0 Ew0].
  assert (negb (nread =? 0) = r0 && negb r' ∧ (r' = true → r0 = true)) as [Er1 Er2].
  { unfold r', nread. rewrite Er0. clear -Hr H. destruct (reads evs x); cbn [andb negb]; [|by rewrite andb_true_r].
    destruct (Z.eqb_spec (mi_nread ctx) 0); [lia|]. done. }
  assert (negb (nwrite =? 0) = w0 && negb w' ∧ (w' = true → w0 = true)) as [Ew1 Ew2].
  { unfold w', nwrite. rewrite Ew0. clear -Hw H0. destruct (writes evs x); cbn [andb negb]; [|by rewrite andb_true_r].
    destruct (Z.eqb_spec (mi_nwrite ctx) 0); [lia|]. done. }
  rewrite Er1, Ew1. clearbody r' w'. cbn [fst snd]. destruct (r' || w') eqn:Erw.
  { split; [by apply evsel_del_law|]. intros _. by exists r0, w0, r', w'. }
  apply orb_false_iff in Erw as [-> ->]. split; [|done]. split; [done|]. left. cbn. by rewrite Hwatch, !andb_true_r.
Qed.

(** An entry with one event less. *)
Lemma entry_removed evs fd ctx x :
  entry_ok evs fd ctx → x ∈ mi_events ctx →
  let nread := if reads evs x then mi_nread ctx - 1 else mi_nread ctx in
  let nwrite := if writes evs x then mi_nwrite ctx - 1 else mi_nwrite ctx in
  let ctx' := {| mi_events := tailq_remove x (mi_events ctx); mi_nread := u16 nread; mi_nwrite := u16 nwrite |} in
  0 <= nread ∧ 0 <= nwrite ∧ entry_ok evs fd ctx' ∧ asked ctx' = (negb (nread =? 0), negb (nwrite =? 0)).
Proof.
  intros [H1 H2 H3 H4 H5] Hx nread nwrite ctx'. rewrite (count_remove _ x) in H3 by done. rewrite (count_remove _ x) in H4 by done.
  pose proof (count_nonneg (reads evs) (tailq_remove x (mi_events ctx))).
  pose proof (count_nonneg (writes evs) (tailq_remove x (mi_events ctx))).
  assert (nread = count (reads evs) (tailq_remove x (mi_events ctx))) as Er by (unfold nread; destruct (reads evs x); lia).
  assert (nwrite = count (writes evs) (tailq_remove x (mi_events ctx))) as Ew by (unfold nwrite; destruct (writes evs x); lia).
  assert (nread <= 0xffff ∧ nwrite <= 0xffff) as [Hr Hw] by (unfold nread, nwrite; destruct (reads evs x), (writes evs x); lia).
  assert (u16 nread = nread ∧ u16 nwrite = nwrite) as [Ur Uw] by (split; apply u16_small; lia).
  split; [lia|]. split; [lia|]. split; [split; cbn [ctx' mi_events mi_nread mi_nwrite]|].
  - by apply nodup_remove.
  - intros y Hy. apply elem_remove in Hy as [_ Hy]. auto.
  - by rewrite Ur, Er.
  - by rewrite Uw, Ew.
  - lia.
  - unfold asked. cbn [ctx' mi_nread mi_nwrite]. by rewrite Ur, Uw.
Qed.

Definition removed (fd : Z) (x : nat) (io io' : slot_map evmap_io) : Prop :=
  ∀ fd', fd_events io' fd' = if decide (fd' = fd) then tailq_remove x (fd_events io fd) else fd_events io fd'.

Definition added (fd : Z) (x : nat) (io io' : slot_map evmap_io) : Prop :=
  ∀ fd', fd_events io' fd' = if decide (fd' = fd ∧ 0 <= fd) then fd_events io fd ++ [x] else fd_events io fd'.

Lemma io_add_spec fd x evs io b :
  io_ok evs io → in_sync io b → fd = ev_fd (evs !!! x) → fd < 2 ^ 30 → x ∉ fd_events io fd →
  ∃ rc io' b', evmap_io_add fd x evs io b = Val (rc, io', b') ∧ io_ok evs io' ∧ in_sync io' b' ∧
    (rc = -1 ∧ grown io io' ∨ (rc = 0 ∨ rc = 1) ∧ added fd x io io').
Proof.
  intros Hio Hsy Hfd Hsm Hx. unfold evmap_io_add. rewrite <- Hfd, Z.eqb_refl. cbn [negb].
  destruct (Z.ltb_spec fd 0).
  { exists 0, io, b. split; [done|]. split; [done|]. split; [done|]. right. split; [by left|].
    intros fd'. by case_decide; [lia|]. }
  destruct (make_space_spec io fd ltac:(lia)) as ([io1|] & -> & H1); cbn [mbind outcome_bind].
  2: { exists (-1), io, b. split; [done|]. split; [done|]. split; [done|]. by left. }
  destruct H1 as (Hl1 & n & Hio1). assert (grown io io1) as G1 by (rewrite Hio1; apply entry_grown).
  destruct (slot_ctor_spec io1 fd ltac:(lia)) as ([[ctx io2]|] & -> & H2); cbn [mbind outcome_bind].
  2: { exists (-1), io1, b. split; [done|]. split; [by apply (io_ok_grown _ io)|]. split; [by apply (sync_grown io)|]. by left. }
  destruct H2 as (Hctx & G2 & Hl2). assert (grown io io2) as G by (intros fd'; by rewrite G2, G1).
  rewrite G1 in Hctx. pose proof (io_ok_grown _ _ _ G Hio) as Hio2. pose proof (sync_grown _ _ _ G Hsy) as Hsy2.
  pose proof (Hio fd) as Hen. rewrite <- Hctx in Hen. fold (reads evs x) (writes evs x).
  set (nread := if reads evs x then _ else _). set (nwrite := if writes evs x then _ else _).
  destruct ((nread >? 65535) || (nwrite >? 65535)) eqn:Ebig.
  { exists (-1), io2, b. split; [done|]. split; [done|]. split; [done|]. by left. }
  apply orb_false_iff in Ebig as [Er Ew]. rewrite Z.gtb_ltb in Er, Ew. apply Z.ltb_ge in Er, Ew.
  assert (x ∉ mi_events ctx) as Hx' by (rewrite Hctx; done).
  destruct (entry_added evs fd ctx x Hen Hx' (eq_sym Hfd) Er Ew) as [Hok' Hask]. fold nread nwrite in Hok', Hask.
  set (ctx' := {| mi_events := mi_events ctx ++ [x]; mi_nread := u16 nread; mi_nwrite := u16 nwrite |}) in *.
  rewrite land_et. assert (bk_watch b fd = asked ctx) as Hwatch by (rewrite Hctx; by apply Hsy).
  destruct (tell_added evs fd ctx x (has (ev_events (evs !!! x)) EV_ET) b Hen Hwatch) as [Ho Hc]. fold nread nwrite in Ho, Hc.
  rewrite <- Hask in Hc. set (call := if negb (Z.lor _ _ =? 0) then _ else _) in *.
  destruct call as [rc b']. cbn [fst snd] in *. destruct Hc as [[-> Hwt]|[-> Hwt]]; cbn [Z.eqb].
  - eexists _, _, b'. split; [done|]. split; [|split; [|right; split; [apply told_or_not|]]].
    + intros fd'. rewrite entry_insert by lia. by case_decide; [subst|].
    + apply (sync_insert io2 b); (done || lia).
    + intros fd'. unfold fd_events. rewrite entry_insert by lia. case_decide as E.
      * subst fd'. case_decide; [|lia]. by rewrite <- Hctx.
      * case_decide; [lia|]. by rewrite G.
  - exists (-1), io2, b'. split; [done|]. split; [done|]. split; [|by left].
    intros fd' Hfd'. destruct (decide (fd' = fd)) as [->|]; [rewrite Hwt; by apply Hsy2|rewrite Ho by done; by apply Hsy2].
Qed.

Lemma io_del_spec fd x evs io b :
  io_ok evs io → in_sync io b → fd = ev_fd (evs !!! x) → (0 <= fd → x ∈ fd_events io fd) →
  ∃ rc io' b', evmap_io_del fd x evs io b = Val (rc, io', b') ∧ io_ok evs io' ∧ in_sync io' b' ∧
    (rc = -1 ∧ grown io io' ∧ (∃ old ev, proper_del fd old ev b ∧ (evsel_del fd old ev b).1 = -1) ∨ (rc = 0 ∨ rc = 1) ∧ removed fd x io io').
Proof.
  intros Hio Hsy Hfd Hx. unfold evmap_io_del. rewrite <- Hfd, Z.eqb_refl. cbn [negb].
  destruct (Z.ltb_spec fd 0) as [Hneg|Hpos].
  { exists 0, io, b. split; [done|]. split; [done|]. split; [done|]. right. split; [by left|].
    intros fd'. case_decide as E; [subst fd'|done]. unfold fd_events, entry, znth. by destruct (Z.ltb_spec fd 0); [|lia]. }
  specialize (Hx Hpos). assert (∃ ctx, znth io fd = Some (Some ctx) ∧ entry io fd = ctx) as (ctx & Hlk & Hctx).
  { unfold fd_events, entry in *. destruct (znth io fd) as [[ctx|]|]; [by exists ctx| |]; by apply not_elem_of_nil in Hx. }
  pose proof (znth_Some _ _ _ Hlk) as Hl. destruct (Z.geb_spec fd (Zlen io)); [lia|]. rewrite Hlk. cbn [or_undef mbind outcome_bind].
  pose proof (Hio fd) as Hen. rewrite Hctx in Hen. unfold fd_events in Hx. rewrite Hctx in Hx.
  fold (reads evs x) (writes evs x). destruct (entry_removed evs fd ctx x Hen Hx) as (Hr & Hw & Hok' & Hask).
  assert (bk_watch b fd = asked ctx) as Hwatch by (rewrite <- Hctx; by apply Hsy).
  destruct (tell_removed evs fd ctx x b Hen Hwatch Hx) as [[Ho Hc] Hproper].
  set (nread := if reads evs x then mi_nread ctx - 1 else _) in *. set (nwrite := if writes evs x then mi_nwrite ctx - 1 else _) in *.
  rewrite <- Hask in Hc. set (ctx' := {| mi_events := _; mi_nread := u16 nread; mi_nwrite := u16 nwrite |}) in *.
  destruct (Z.ltb_spec nread 0); [lia|]. destruct (Z.ltb_spec nwrite 0); [lia|]. rewrite !andb_false_r. cbn [orb].
  set (call := if negb (Z.lor _ _ =? 0) then _ else _) in *.
  destruct call as [rc b'] eqn:Ecall. cbn [fst snd] in *. destruct Hc as [[-> Hwt]|[-> Hwt]]; cbn [Z.eqb].
  - eexists _, _, b'. split; [done|]. split; [|split; [|right; split; [apply told_or_not|]]].
    + intros fd'. rewrite entry_insert by lia. by case_decide; [subst|].
    + apply (sync_insert io b); (done || lia).
    + intros fd'. unfold fd_events. rewrite entry_insert by lia. case_decide as E; [|done]. by rewrite Hctx.
  - exists (-1), io, b'. split; [done|]. split; [done|].
    split; [|left; split; [done|]; split; [done|]; apply call_failed in Ecall as [Hres Ecall]; eexists _, _; split; [by apply Hproper|by rewrite Ecall]].
    intros fd' Hfd'. destruct (decide (fd' = fd)) as [->|]; [rewrite Hwt; by apply Hsy|rewrite Ho by done; by apply Hsy].
Qed.
End maps.
