(* ===== verification/Epoll.v ===== *)
(** The epoll backend: epoll.c of libevent 2.0.21, with the default functions that
    change the kernel's list at once ([epollops]; the environment variable that selects
    the change list is not set for the program).

    The kernel is a parameter, [Kernel]: the call epoll_ctl with its error, and what the
    kernel watches per descriptor.  [epoll_laws] states what epoll_ctl(2) documents of it. *)

From S2P Require Import Prelude EvFlags BufChain EvHeap EvMap.

Definition EV_CHANGE_ADD : Z := 0x01.
Definition EV_CHANGE_DEL : Z := 0x02.
Definition EPOLLIN : Z := 0x001.
Definition EPOLLOUT : Z := 0x004.
Definition EPOLLERR : Z := 0x008.
Definition EPOLLHUP : Z := 0x010.
Definition EPOLLET : Z := 0x80000000.

Inductive epoll_op := EPOLL_CTL_ADD | EPOLL_CTL_DEL | EPOLL_CTL_MOD.
Inductive errno := ENOENT | EEXIST | EBADF | EPERM | EOTHER.

#[global] Instance errno_eq_dec : EqDecision errno.
Proof. solve_decision. Defined.

Class Kernel := {
  kstate : Type;
  epoll_ctl : epoll_op → Z → Z → kstate → option errno * kstate;
  watched : kstate → Z → option Z;   (** the events of a descriptor on the kernel's list *)
  (* evsig_add and evsig_del of signal.c, which install and remove a handler *)
  sigaction_set : Z → kstate → Z * kstate;
  sigaction_restore : Z → kstate → Z * kstate }.

Record epoll_laws `{Kernel} : Prop := {
  ctl_other op fd events k r k' fd' : epoll_ctl op fd events k = (r, k') → fd' ≠ fd → watched k' fd' = watched k fd';
  ctl_failed op fd events k err k' : epoll_ctl op fd events k = (Some err, k') → watched k' fd = watched k fd;
  ctl_set op fd events k k' : epoll_ctl op fd events k = (None, k') →
    watched k' fd = match op with EPOLL_CTL_DEL => None | _ => Some events end;
  ctl_add_watched fd events k old : watched k fd = Some old → (epoll_ctl EPOLL_CTL_ADD fd events k).1 = Some EEXIST;
  ctl_mod_unwatched fd events k : watched k fd = None → (epoll_ctl EPOLL_CTL_MOD fd events k).1 = Some ENOENT;
  ctl_del_watched fd events k old : watched k fd = Some old → (epoll_ctl EPOLL_CTL_DEL fd events k).1 = None;
  sig_set_law sig k : (sigaction_set sig k).1 = 0 ∨ (sigaction_set sig k).1 = -1;
  sig_set_watched sig k fd : watched (sigaction_set sig k).2 fd = watched k fd;
  sig_restore_law sig k : (sigaction_restore sig k).1 = 0 ∨ (sigaction_restore sig k).1 = -1;
  sig_restore_watched sig k fd : watched (sigaction_restore sig k).2 fd = watched k fd }.

Record event_change := { ch_fd : Z; ch_old_events : Z; ch_read_change : Z; ch_write_change : Z }.

(** The operation and the event mask for a change. *)
Definition change_op (ch : event_change) : epoll_op * Z :=
  let rc := ch_read_change ch in
  let wc := ch_write_change ch in
  let old := ch_old_events ch in
  if has rc EV_CHANGE_ADD || has wc EV_CHANGE_ADD then
    let r := if has rc EV_CHANGE_ADD then EPOLLIN else if has rc EV_CHANGE_DEL then 0
             else if has old EV_READ then EPOLLIN else 0 in
    let w := if has wc EV_CHANGE_ADD then EPOLLOUT else if has wc EV_CHANGE_DEL then 0
             else if has old EV_WRITE then EPOLLOUT else 0 in
    let et := if has (Z.lor rc wc) EV_ET then EPOLLET else 0 in
    (if negb (old =? 0) then EPOLL_CTL_MOD else EPOLL_CTL_ADD, Z.lor (Z.lor r w) et)
  else if has rc EV_CHANGE_DEL then
    if has wc EV_CHANGE_DEL then (EPOLL_CTL_DEL, Z.lor EPOLLIN EPOLLOUT)
    else if has old EV_WRITE then (EPOLL_CTL_MOD, EPOLLOUT)
    else (EPOLL_CTL_DEL, EPOLLIN)
  else if has wc EV_CHANGE_DEL then
    if has old EV_READ then (EPOLL_CTL_MOD, EPOLLIN) else (EPOLL_CTL_DEL, EPOLLOUT)
  else (EPOLL_CTL_ADD, 0).

Section epoll.
Context `{Kernel}.

Definition epoll_apply_one_change (ch : event_change) (k : kstate) : Z * kstate :=
  let '(op, events) := change_op ch in
  if events =? 0 then (0, k)
  else
    match epoll_ctl op (ch_fd ch) events k with
    | (None, k) => (0, k)
    | (Some err, k) =>
        match op with
        | EPOLL_CTL_MOD =>
            if decide (err = ENOENT) then
              match epoll_ctl EPOLL_CTL_ADD (ch_fd ch) events k with (None, k) => (0, k) | (Some _, k) => (-1, k) end
            else (-1, k)
        | EPOLL_CTL_ADD =>
            if decide (err = EEXIST) then
              match epoll_ctl EPOLL_CTL_MOD (ch_fd ch) events k with (None, k) => (0, k) | (Some _, k) => (-1, k) end
            else (-1, k)
        | EPOLL_CTL_DEL =>
            if bool_decide (err = ENOENT) || bool_decide (err = EBADF) || bool_decide (err = EPERM) then (0, k) else (-1, k)
        end
    end.

Definition epoll_nochangelist_add (fd old events : Z) (k : kstate) : Z * kstate :=
  epoll_apply_one_change
    {| ch_fd := fd; ch_old_events := old;
       ch_read_change := if has events EV_READ then Z.lor EV_CHANGE_ADD (Z.land events EV_ET) else 0;
       ch_write_change := if has events EV_WRITE then Z.lor EV_CHANGE_ADD (Z.land events EV_ET) else 0 |} k.

Definition epoll_nochangelist_del (fd old events : Z) (k : kstate) : Z * kstate :=
  epoll_apply_one_change
    {| ch_fd := fd; ch_old_events := old;
       ch_read_change := if has events EV_READ then EV_CHANGE_DEL else 0;
       ch_write_change := if has events EV_WRITE then EV_CHANGE_DEL else 0 |} k.

#[global] Instance epollops : EventOp := {|
  bk := kstate;
  evsel_add := epoll_nochangelist_add;
  evsel_del := epoll_nochangelist_del;
  evsigsel_add := sigaction_set;
  evsigsel_del := sigaction_restore |}.
End epoll.

Definition MAX_EPOLL_TIMEOUT_MSEC : Z := 35 * 60 * 1000.
Definition MAX_SECONDS_IN_MSEC_LONG : Z := (2 ^ 63 - 1 - 999) / 1000.

Definition evutil_tv_to_msec (tv : timeval) : Z :=
  if (tv_usec tv >? 1000000) || (tv_sec tv >? MAX_SECONDS_IN_MSEC_LONG) then -1
  else tv_sec tv * 1000 + (tv_usec tv + 999) / 1000.

(** The timeout passed to epoll_wait; -1 waits for ever. *)
Definition epoll_timeout (tv : option timeval) : Z :=
  match tv with
  | None => -1
  | Some tv =>
      let timeout := evutil_tv_to_msec tv in
      if (timeout <? 0) || (timeout >? MAX_EPOLL_TIMEOUT_MSEC) then MAX_EPOLL_TIMEOUT_MSEC else timeout
  end.

(** The events a mask of epoll_wait stands for. *)
Definition epoll_events (what : Z) : Z :=
  if has what (Z.lor EPOLLHUP EPOLLERR) then Z.lor EV_READ EV_WRITE
  else Z.lor (if has what EPOLLIN then EV_READ else 0) (if has what EPOLLOUT then EV_WRITE else 0).
