(* ===== verification/EpollInv.v ===== *)
(** The kernel watches what the events of a base ask for (evmap.c over epoll.c). *)

From S2P Require Import Prelude EvFlags BufChain EvHeap EvMap Epoll.

(** ** One change *)

(** What is asked for, edge-triggered or not. *)
Definition mask (et r w : bool) : Z := Z.lor (Z.lor (if r then EPOLLIN else 0) (if w then EPOLLOUT else 0)) (if et then EPOLLET else 0).
Definition interest (et r w : bool) : option Z := if r || w then Some (mask et r w) else None.

Section change.
Context `{Kernel}.
Hypothesis laws : epoll_laws.

(** A change of one descriptor: the new interest, or the old one and -1. *)
Definition changed (fd : Z) (want : option Z) (k : kstate) (res : Z * kstate) : Prop :=
  (∀ fd', fd' ≠ fd → watched res.2 fd' = watched k fd') ∧
  (res.1 = 0 ∧ watched res.2 fd = want ∨ res.1 = -1 ∧ watched res.2 fd = watched k fd).

Lemma apply_set op ch events k :
  change_op ch = (op, events) → events ≠ 0 → op = EPOLL_CTL_ADD ∨ op = EPOLL_CTL_MOD →
  changed (ch_fd ch) (Some events) k (epoll_apply_one_change ch k).
Proof.
  intros Hop Hne Hset. unfold epoll_apply_one_change. rewrite Hop. destruct (Z.eqb_spec events 0); [done|].
  destruct (epoll_ctl op (ch_fd ch) events k) as [[err|] k1] eqn:E1.
  - pose proof (ctl_failed laws _ _ _ _ _ _ E1) as F1. pose proof (λ fd', ctl_other laws _ _ _ _ _ _ fd' E1) as O1.
    destruct Hset as [-> | ->]; (case_decide; [|split; [done|by right]]);
      match goal with |- context [epoll_ctl ?o _ _ _] => destruct (epoll_ctl o (ch_fd ch) events k1) as [[err2|] k2] eqn:E2 end;
      (split; [intros fd' Hfd'; cbn; rewrite <- (O1 fd' Hfd'); by apply (ctl_other laws _ _ _ _ _ _ fd' E2)|]);
      cbn; [right; split; [done|]; by rewrite (ctl_failed laws _ _ _ _ _ _ E2)
           |left; split; [done|]; apply (ctl_set laws _ _ _ _ _ E2)
           |right; split; [done|]; by rewrite (ctl_failed laws _ _ _ _ _ _ E2)
           |left; split; [done|]; apply (ctl_set laws _ _ _ _ _ E2)].
  - split; [intros fd' Hfd'; by apply (ctl_other laws _ _ _ _ _ _ fd' E1)|]. left. split; [done|]. cbn.
    rewrite (ctl_set laws _ _ _ _ _ E1). by destruct Hset as [-> | ->].
Qed.

Lemma apply_del ch events k :
  change_op ch = (EPOLL_CTL_DEL, events) → events ≠ 0 → is_Some (watched k (ch_fd ch)) →
  changed (ch_fd ch) None k (epoll_apply_one_change ch k).
Proof.
  intros Hop Hne [old Hold]. unfold epoll_apply_one_change. rewrite Hop. destruct (Z.eqb_spec events 0); [done|].
  pose proof (ctl_del_watched laws _ events _ _ Hold) as E.
  destruct (epoll_ctl EPOLL_CTL_DEL (ch_fd ch) events k) as [o k1] eqn:E1. cbn in E. subst o.
  split; [intros fd' Hfd'; by apply (ctl_other laws _ _ _ _ _ _ fd' E1)|]. left. split; [done|].
  apply (ctl_set laws _ _ _ _ _ E1).
Qed.

(** Adding events, whatever was asked for before. *)
Lemma epoll_add_spec fd (r0 w0 et r w : bool) k :
  r || w = true →
  changed fd (interest et (r0 || r) (w0 || w)) k (epoll_nochangelist_add fd (rw r0 w0) (Z.lor (edge_flag et) (rw r w)) k).
Proof.
  intros Hrw. unfold epoll_nochangelist_add. set (ch := {| ch_fd := _ |}).
  destruct r0, w0, et, r, w; try discriminate;
    (apply (apply_set (change_op ch).1 ch); [reflexivity|vm_compute; congruence|by (left + right)]).
Qed.

(** Removing events that were asked for. *)
Lemma epoll_del_spec fd (r0 w0 r w : bool) k :
  is_Some (watched k fd) → r || w = true → (r = true → r0 = true) → (w = true → w0 = true) →
  changed fd (interest false (r0 && negb r) (w0 && negb w)) k (epoll_nochangelist_del fd (rw r0 w0) (rw r w) k).
Proof.
  intros Hk Hrw Hr Hw. unfold epoll_nochangelist_del. set (ch := {| ch_fd := _ |}).
  destruct r0, w0, r, w; try discriminate; try (by specialize (Hr eq_refl)); try (by specialize (Hw eq_refl)).
  all: first [apply (apply_set EPOLL_CTL_MOD ch); [reflexivity|vm_compute; congruence|by right]
             |apply (apply_del ch (change_op ch).2); [reflexivity|vm_compute; congruence|exact Hk]].
Qed.

Definition epoll_watch (k : kstate) (fd : Z) : bool * bool :=
  match watched k fd with Some m => (has m EPOLLIN, has m EPOLLOUT) | None => (false, false) end.

Lemma changed_rewatched fd et r w k res :
  changed fd (interest et r w) k res → rewatched epoll_watch fd (r, w) k res.
Proof.
  intros [Ho Hf]. split.
  - intros fd' Hne. unfold epoll_watch. by rewrite Ho.
  - unfold epoll_watch. destruct Hf as [[-> ->]|[-> ->]]; [left|by right]. split; [done|]. by destruct et, r, w.
Qed.

(** Epoll keeps the promise of a backend. *)
#[local] Instance epoll_backend : EventOpLaws.
Proof.
  refine {| bk_watch := epoll_watch : bk → Z → bool * bool |}; cbn [bk evsel_add evsel_del evsigsel_add evsigsel_del epollops].
  - intros fd r0 w0 et r w k _ Hrw _ _. by apply (changed_rewatched _ et), epoll_add_spec.
  - intros fd r0 w0 r w k Hk Hrw Hr Hw. apply (changed_rewatched _ false), epoll_del_spec; try done.
    unfold epoll_watch in Hk. destruct (watched k fd); [by eexists|].
    injection Hk as <- <-. destruct r, w; try discriminate; [by specialize (Hr eq_refl)..|by specialize (Hw eq_refl)].
  - apply laws.
  - intros. unfold epoll_watch. by rewrite (sig_set_watched laws).
  - apply laws.
  - intros. unfold epoll_watch. by rewrite (sig_restore_watched laws).
Defined.
End change.
