(* ===== verification/ChangeList.v ===== *)
(** The change list: the part of evmap.c of libevent 2.0.21 that collects changes of descriptors, and how epoll.c
    applies them before it waits.  A base uses it when EVENT_BASE_FLAG_EPOLL_USE_CHANGELIST or
    the environment variable EVENT_EPOLL_USE_CHANGELIST says so.

    [fdinfo] holds the index plus one of each entry of the maps, [true] for a signal's; it is kept behind the entries of evmap.c. *)

From stdpp Require Import functions.
From S2P Require Import Prelude EvFlags BufChain EvHeap EvMap Epoll.

Definition sizeof_event_change : Z := 8.
Definition EV_CHANGE_SIGNAL : Z := EV_SIGNAL.

(** The first [n_changes] elements of the array are [changes]. *)
Record event_changelist := { changes : list event_change; changes_size : Z }.

Record cl_base `{Kernel} := { cl_kernel : kstate; changelist : event_changelist; fdinfo : bool * Z → Z }.

Definition event_changelist_init : event_changelist := {| changes := []; changes_size := 0 |}.

Definition event_changelist_freemem (l : event_changelist) : event_changelist := event_changelist_init.

Section changelist.
Context `{Malloc, Kernel}.

Definition set_cl (l : event_changelist) (f : bool * Z → Z) (b : cl_base) : cl_base := {| cl_kernel := cl_kernel b; changelist := l; fdinfo := f |}.

Definition event_change_get_fdinfo (ch : event_change) : bool * Z := (has (ch_read_change ch) EV_CHANGE_SIGNAL, ch_fd ch).

Fixpoint remove_all_loop (i : Z) (l : list event_change) (f : bool * Z → Z) : outcome (bool * Z → Z) :=
  match l with
  | [] => Val f
  | ch :: l =>
      let p := event_change_get_fdinfo ch in
      if f p =? i + 1 then remove_all_loop (i + 1) l (<[p := 0]> f) else Undef AssertFail
  end.
Definition event_changelist_remove_all (b : cl_base) : outcome cl_base :=
  f ← remove_all_loop 0 (changes (changelist b)) (fdinfo b);
  Val (set_cl {| changes := []; changes_size := changes_size (changelist b) |} f b).

(** [None] without memory; the size is an int. *)
Definition event_changelist_grow (l : event_changelist) : outcome (option event_changelist) :=
  let new_size := if changes_size l <? 64 then 64 else changes_size l * 2 in
  if new_size >=? 2 ^ 31 then Undef Overflow
  else if malloc_ok (new_size * sizeof_event_change) then Val (Some {| changes := changes l; changes_size := new_size |}) else Val None.

(** The index of the change of a descriptor or signal; [None] for the null pointer. *)
Definition event_changelist_get_or_construct (fd old_events : Z) (p : bool * Z) (b : cl_base) : outcome (option (Z * cl_base)) :=
  let l := changelist b in
  if fdinfo b p =? 0 then
    if Zlen (changes l) >? changes_size l then Undef AssertFail
    else
      grown ← (if Zlen (changes l) =? changes_size l then event_changelist_grow l else Val (Some l));
      match grown with
      | None => Val None
      | Some l =>
          let idx := Zlen (changes l) in
          let ch := {| ch_fd := fd; ch_old_events := old_events; ch_read_change := 0; ch_write_change := 0 |} in
          Val (Some (idx, set_cl {| changes := changes l ++ [ch]; changes_size := changes_size l |} (<[p := idx + 1]> (fdinfo b)) b))
      end
  else
    ch ← or_undef OutOfBounds (znth (changes l) (fdinfo b p - 1));
    if ch_fd ch =? fd then Val (Some (fdinfo b p - 1, b)) else Undef AssertFail.

Definition put_change (idx : Z) (ch : event_change) (b : cl_base) : cl_base :=
  set_cl {| changes := <[Z.to_nat idx := ch]> (changes (changelist b)); changes_size := changes_size (changelist b) |} (fdinfo b) b.

(** The change of an event that is added, and of one that is deleted. *)
Definition add_change (events : Z) (ch : event_change) : event_change :=
  let flags := Z.lor EV_CHANGE_ADD (Z.land events (Z.lor (Z.lor EV_ET EV_PERSIST) EV_SIGNAL)) in
  {| ch_fd := ch_fd ch; ch_old_events := ch_old_events ch;
     ch_read_change := if has events (Z.lor EV_READ EV_SIGNAL) then flags else ch_read_change ch;
     ch_write_change := if has events EV_WRITE then flags else ch_write_change ch |}.
Definition del_change (events : Z) (ch : event_change) : event_change :=
  {| ch_fd := ch_fd ch; ch_old_events := ch_old_events ch;
     ch_read_change := if has events (Z.lor EV_READ EV_SIGNAL) then
                         if negb (has (ch_old_events ch) (Z.lor EV_READ EV_SIGNAL)) && has (ch_read_change ch) EV_CHANGE_ADD then 0 else EV_CHANGE_DEL
                       else ch_read_change ch;
     ch_write_change := if has events EV_WRITE then
                          if negb (has (ch_old_events ch) EV_WRITE) && has (ch_write_change ch) EV_CHANGE_ADD then 0 else EV_CHANGE_DEL
                        else ch_write_change ch |}.

Definition change_entry (f : event_change → event_change) (fd old : Z) (p : bool * Z) (b : cl_base) : outcome (Z * cl_base) :=
  o ← event_changelist_get_or_construct fd old p b;
  match o with
  | None => Val (-1, b)
  | Some (idx, b) =>
      ch ← or_undef OutOfBounds (znth (changes (changelist b)) idx);
      Val (0, put_change idx (f ch) b)
  end.
Definition event_changelist_add (fd old events : Z) (p : bool * Z) (b : cl_base) : outcome (Z * cl_base) := change_entry (add_change events) fd old p b.
Definition event_changelist_del (fd old events : Z) (p : bool * Z) (b : cl_base) : outcome (Z * cl_base) := change_entry (del_change events) fd old p b.

Definition epoll_apply_changes (l : list event_change) (k : kstate) : Z * kstate :=
  foldl (λ '(r, k) ch, let '(r', k) := epoll_apply_one_change ch k in (if r' <? 0 then -1 else r, k)) (0, k) l.

(** What epoll_dispatch does before it waits. *)
Definition dispatch_changes (b : cl_base) : outcome (Z * cl_base) :=
  let '(r, k) := epoll_apply_changes (changes (changelist b)) (cl_kernel b) in
  b ← event_changelist_remove_all {| cl_kernel := k; changelist := changelist b; fdinfo := fdinfo b |};
  Val (r, b).
End changelist.
