(* ===== verification/ChangeProps.v ===== *)
(** Collecting changes and applying them at once leaves the kernel with what applying each of them leaves it with, but for
    EPOLLET. *)

From stdpp Require Import functions.
From S2P Require Import Prelude EvFlags BufChain BufRefine EvHeap EvMap Epoll EpollInv ChangeList.

(** Calls for reading and writing on a descriptor; what is added may be edge-triggered. *)
Inductive cl_call := CAdd (fd : Z) (et r w : bool) | CDel (fd : Z) (r w : bool).
(** What is asked for on each descriptor. *)
Abbreviation wanted := (Z → bool * bool).

Definition next (want : wanted) (c : cl_call) : wanted :=
  match c with
  | CAdd fd _ r w => <[fd := ((want fd).1 || r, (want fd).2 || w)]> want
  | CDel fd r w => <[fd := ((want fd).1 && negb r, (want fd).2 && negb w)]> want
  end.

(** As evmap.c calls: for what is not asked for yet, and for what is.  [edges] says whether events may be edge-triggered. *)
Definition proper (edges : bool) (want : wanted) (c : cl_call) : Prop :=
  match c with
  | CAdd fd et r w => (et = true → edges = true) ∧ r || w = true ∧ (want fd).1 && r = false ∧ (want fd).2 && w = false
  | CDel fd r w => r || w = true ∧ (r = true → (want fd).1 = true) ∧ (w = true → (want fd).2 = true)
  end.
Fixpoint proper_all (edges : bool) (want : wanted) (cs : list cl_call) : Prop := match cs with [] => True | c :: cs => proper edges want c ∧ proper_all edges (next want c) cs end.
Definition final (want : wanted) (cs : list cl_call) : wanted := foldl next want cs.

Section calls.
Context `{Malloc, Kernel}.

Definition collect (want : wanted) (c : cl_call) (b : cl_base) : outcome (Z * cl_base) :=
  match c with
  | CAdd fd et r w => event_changelist_add fd (rw (want fd).1 (want fd).2) (Z.lor (edge_flag et) (rw r w)) (false, fd) b
  | CDel fd r w => event_changelist_del fd (rw (want fd).1 (want fd).2) (rw r w) (false, fd) b
  end.
Fixpoint collect_all (want : wanted) (cs : list cl_call) (b : cl_base) : outcome (list Z * cl_base) :=
  match cs with
  | [] => Val ([], b)
  | c :: cs => '(r, b) ← collect want c b; '(rs, b) ← collect_all (next want c) cs b; Val (r :: rs, b)
  end.

(** The same calls of the functions that change the kernel's list at once. *)
Definition immediate (want : wanted) (c : cl_call) (k : kstate) : Z * kstate :=
  match c with
  | CAdd fd et r w => epoll_nochangelist_add fd (rw (want fd).1 (want fd).2) (Z.lor (edge_flag et) (rw r w)) k
  | CDel fd r w => epoll_nochangelist_del fd (rw (want fd).1 (want fd).2) (rw r w) k
  end.
Fixpoint immediate_all (want : wanted) (cs : list cl_call) (k : kstate) : list Z * kstate :=
  match cs with
  | [] => ([], k)
  | c :: cs => let '(r, k) := immediate want c k in let '(rs, k) := immediate_all (next want c) cs k in (r :: rs, k)
  end.

(** An entry of the kernel's list for what is asked for. *)
Definition shows (edges : bool) (o : option Z) (want : bool * bool) : Prop := ∃ et, (et = true → edges = true) ∧ o = interest et want.1 want.2.
Definition watches (edges : bool) (want : wanted) (k : kstate) : Prop := ∀ fd, shows edges (watched k fd) (want fd).
(** The entry without EPOLLET. *)
Definition level (m : Z) : Z := Z.ldiff m EPOLLET.

(** No change is waiting. *)
Record nothing_waits (b : cl_base) : Prop := {
  nw_changes : changes (changelist b) = [];
  nw_size : 0 <= changes_size (changelist b) < 2 ^ 30;
  nw_fdinfo fd : fdinfo b (false, fd) = 0 }.

(** ** One change *)

Context (edges : bool).

(** One direction of a change, between what was and what is asked for. *)
Definition side (old now : bool) (chg : Z) : Prop :=
  (chg = 0 ∧ now = old) ∨ (now = true ∧ ∃ et, (et = true → edges = true) ∧ chg = Z.lor EV_CHANGE_ADD (edge_flag et)) ∨ (chg = EV_CHANGE_DEL ∧ now = false ∧ old = true).

Definition change_ok (old now : bool * bool) (ch : event_change) : Prop :=
  ch_old_events ch = rw old.1 old.2 ∧ side old.1 now.1 (ch_read_change ch) ∧ side old.2 now.2 (ch_write_change ch).

Lemma fresh_change fd old : change_ok old old {| ch_fd := fd; ch_old_events := rw old.1 old.2; ch_read_change := 0; ch_write_change := 0 |}.
Proof. split; [done|]. split; by left. Qed.

Lemma add_change_ok old now et r w ch : (et = true → edges = true) → change_ok old now ch → change_ok old (now.1 || r, now.2 || w) (add_change (Z.lor (edge_flag et) (rw r w)) ch).
Proof.
  destruct old as [r0 w0], now as [r1 w1]. intros He (Ho & Hr & Hw). split; [done|]. cbn [fst snd] in *. split.
  - destruct r; cbn [add_change ch_read_change]; [right; left; split; [apply orb_true_r|]; exists et; split; [done|]; by destruct et, w|]. rewrite orb_false_r. by destruct et, w.
  - destruct w; cbn [add_change ch_write_change]; [right; left; split; [apply orb_true_r|]; exists et; split; [done|]; by destruct et, r|]. rewrite orb_false_r. by destruct et, r.
Qed.

Lemma del_change_ok old now r w ch : change_ok old now ch → (r = true → now.1 = true) → (w = true → now.2 = true) → change_ok old (now.1 && negb r, now.2 && negb w) (del_change (rw r w) ch).
Proof.
  destruct old as [r0 w0], now as [r1 w1], ch as [fd oe rc wc]. unfold change_ok. cbn [fst snd ch_old_events ch_read_change ch_write_change]. intros (-> & Hr & Hw) H1 H2. split; [done|]. cbn [fst snd del_change ch_read_change ch_write_change ch_old_events]. split.
  - destruct r; cbn [negb]; [rewrite andb_false_r|rewrite andb_true_r; by destruct w]. specialize (H1 eq_refl). subst r1. destruct Hr as [[-> <-]|[(_ & et & _ & ->)|(_ & ? & _)]]; [| |done]; destruct w0, w; try destruct et; try destruct r0; (by left) || (right; right; done).
  - destruct w; cbn [negb]; [rewrite andb_false_r|rewrite andb_true_r; by destruct r]. specialize (H2 eq_refl). subst w1. destruct Hw as [[-> <-]|[(_ & et & _ & ->)|(_ & ? & _)]]; [| |done]; destruct r0, r; try destruct et; try destruct w0; (by left) || (right; right; done).
Qed.

Lemma change_not_signal old now ch : change_ok old now ch → event_change_get_fdinfo ch = (false, ch_fd ch).
Proof. intros (_ & [[E _]|[(_ & et & _ & E)|[E _]]] & _); unfold event_change_get_fdinfo; rewrite E; by try destruct et. Qed.

Context (laws : epoll_laws).

(** A change of one descriptor: the new interest, or the old one and -1. *)
Definition changed_to (fd : Z) (want : bool * bool) (k : kstate) (res : Z * kstate) : Prop :=
  (∀ fd', fd' ≠ fd → watched res.2 fd' = watched k fd') ∧ (res.1 = 0 ∧ shows edges (watched res.2 fd) want ∨ res.1 = -1 ∧ watched res.2 fd = watched k fd).

Lemma changed_shows et fd want k res : (et = true → edges = true) → changed fd (interest et want.1 want.2) k res → changed_to fd want k res.
Proof. intros He [Ho Hres]. split; [done|]. destruct Hres as [[? ?]|?]; [left|by right]. split; [done|]. by exists et. Qed.

Lemma apply_change old now ch k : change_ok old now ch → shows edges (watched k (ch_fd ch)) old → changed_to (ch_fd ch) now k (epoll_apply_one_change ch k).
Proof.
  destruct old as [r0 w0], now as [r1 w1], ch as [fd oe rc wc]. intros (Ho & Hr & Hw) (et0 & He0 & Hk). cbn [fst snd ch_old_events ch_read_change ch_write_change ch_fd] in *. subst oe. set (ch := {| ch_fd := fd |}).
  assert (is_Some (watched k fd) ∨ (r0 = false ∧ w0 = false)) as Hs by (rewrite Hk; destruct r0, w0; [left; by eexists..|by right]).
  assert (changed_to fd (r0, w0) k (0, k)) as Hnop by (split; [done|left; split; [done|by exists et0]]).
  assert (∀ et, (et = true → edges = true) → change_op ch = ((change_op ch).1, mask et r1 w1) → mask et r1 w1 ≠ 0 → r1 || w1 = true → (change_op ch).1 = EPOLL_CTL_ADD ∨ (change_op ch).1 = EPOLL_CTL_MOD → changed_to fd (r1, w1) k (epoll_apply_one_change ch k)) as Hset.
  { intros et He Hop Hne Hrw Hadd. apply (changed_shows et); [done|]. unfold interest. cbn [fst snd]. rewrite Hrw. by apply (apply_set laws (change_op ch).1 ch). }
  assert ((change_op ch).1 = EPOLL_CTL_DEL → (change_op ch).2 ≠ 0 → is_Some (watched k fd) → r1 || w1 = false → changed_to fd (r1, w1) k (epoll_apply_one_change ch k)) as Hdel.
  { intros Hop Hne Hsome Hrw. apply (changed_shows false); [done|]. unfold interest. cbn [fst snd]. rewrite Hrw. apply (apply_del laws ch (change_op ch).2); [|done|done]. by rewrite <- Hop, <- surjective_pairing. }
  destruct Hr as [[-> ->]|[(-> & er & Her & ->)|(-> & -> & ->)]], Hw as [[-> ->]|[(-> & ew & Hew & ->)|(-> & -> & ->)]]; try destruct er; try destruct ew; try destruct r0; try destruct w0; try done;
    first [apply (Hset false); [done|reflexivity|vm_compute; congruence|reflexivity|by (left + right)] | apply (Hset true); [by auto|reflexivity|vm_compute; congruence|reflexivity|by (left + right)]
          |destruct Hs as [Hs|[? ?]]; [|done]; apply Hdel; [reflexivity|vm_compute; congruence|done|reflexivity]].
Qed.

(** ** The list *)

Context (k0 : kstate).

Record cl_inv (want0 want : wanted) (size0 : Z) (b : cl_base) : Prop := {
  ci_kernel : watches edges want0 (cl_kernel b) ∧ cl_kernel b = k0;
  ci_index i ch : znth (changes (changelist b)) i = Some ch → fdinfo b (false, ch_fd ch) = i + 1 ∧ change_ok (want0 (ch_fd ch)) (want (ch_fd ch)) ch;
  ci_info fd : (fdinfo b (false, fd) = 0 ∧ want fd = want0 fd) ∨ ∃ ch, znth (changes (changelist b)) (fdinfo b (false, fd) - 1) = Some ch ∧ ch_fd ch = fd;
  ci_size : Zlen (changes (changelist b)) <= changes_size (changelist b) <= Z.max size0 (Z.max 64 (2 * Zlen (changes (changelist b)))) }.

Lemma znth_snoc {A} (l : list A) x i y : znth (l ++ [x]) i = Some y → znth l i = Some y ∨ (i = Zlen l ∧ y = x).
Proof.
  intros E. destruct (Z_lt_le_dec i (Zlen l)) as [Hlt|Hge]; [left; by rewrite znth_app_l in E|right]. rewrite znth_app_r in E by done. pose proof (znth_Some _ _ _ E) as Hb. change (Zlen [x]) with 1 in Hb.
  assert (i - Zlen l = 0) as E0 by lia. rewrite E0 in E. injection E as <-. split; [lia|done].
Qed.
Lemma znth_end {A} (l : list A) x : znth (l ++ [x]) (Zlen l) = Some x.
Proof. rewrite znth_app_r by done. by rewrite Z.sub_diag. Qed.

Lemma start_cl want size b : nothing_waits b → changes_size (changelist b) = size → watches edges want (cl_kernel b) → cl_kernel b = k0 → cl_inv want want size b.
Proof.
  intros [N1 N2 N3] <- Hk Hk0. split; [done|..].
  - intros i ch E. rewrite N1 in E. apply znth_Some in E. change (Zlen (@nil event_change)) with 0 in E. lia.
  - intros fd. left. by rewrite N3.
  - rewrite N1. change (Zlen (@nil event_change)) with 0. lia.
Qed.

Context (Hmem : reliable).

(** The entry of a descriptor is found, or made. *)
Lemma entry_ok want0 want size0 b fd : cl_inv want0 want size0 b → Zlen (changes (changelist b)) < 2 ^ 29 → size0 < 2 ^ 30 →
  ∃ idx b1 ch, event_changelist_get_or_construct fd (rw (want fd).1 (want fd).2) (false, fd) b = Val (Some (idx, b1)) ∧ cl_inv want0 want size0 b1 ∧ znth (changes (changelist b1)) idx = Some ch ∧ ch_fd ch = fd ∧
    Zlen (changes (changelist b1)) <= Zlen (changes (changelist b)) + 1.
Proof.
  intros [C1 C2 C3 C4] Hn Hs0. pose proof (Zlen_nonneg (changes (changelist b))). unfold event_changelist_get_or_construct. destruct (C3 fd) as [[Ei Ew]|(ch & Ech & Efd)].
  - rewrite Ei. cbn [Z.eqb]. destruct (Z.gtb_spec (Zlen (changes (changelist b))) (changes_size (changelist b))); [lia|].
    assert (∃ size, (if Zlen (changes (changelist b)) =? changes_size (changelist b) then event_changelist_grow (changelist b) else Val (Some (changelist b))) = Val (Some {| changes := changes (changelist b); changes_size := size |}) ∧
      Zlen (changes (changelist b)) + 1 <= size <= Z.max size0 (Z.max 64 (2 * (Zlen (changes (changelist b)) + 1)))) as (size & -> & Hsize).
    { destruct (Z.eqb_spec (Zlen (changes (changelist b))) (changes_size (changelist b))) as [E|Hne].
      - unfold event_changelist_grow. rewrite Hmem. destruct (Z.ltb_spec (changes_size (changelist b)) 64); [exists 64; split; [done|lia]|]. destruct (Z.geb_spec (changes_size (changelist b) * 2) (2 ^ 31)); [lia|]. eexists. split; [done|lia].
      - exists (changes_size (changelist b)). split; [by destruct (changelist b)|lia]. }
    cbn [mbind outcome_bind changes changes_size]. eexists _, _, _. split; [done|]. split; [|split; [apply znth_end|split; [done|cbn [set_cl changelist changes]; rewrite Zlen_app; change (Zlen [_]) with 1; lia]]]. rewrite Ew. split; cbn [cl_kernel changelist fdinfo changes changes_size set_cl]; [done|..].
    + intros i ch' [E|[-> ->]]%znth_snoc.
      * destruct (C2 i ch' E) as [E1 E2]. split; [|done]. rewrite fn_lookup_insert_ne; [done|]. intros [= ->]. pose proof (znth_Some _ _ _ E). lia.
      * cbn [ch_fd]. rewrite fn_lookup_insert, Ew. split; [done|]. apply fresh_change.
    + intros fd'. destruct (decide (fd' = fd)) as [->|Hne].
      * right. eexists. rewrite fn_lookup_insert. replace (Zlen (changes (changelist b)) + 1 - 1) with (Zlen (changes (changelist b))) by lia. split; [apply znth_end|done].
      * rewrite fn_lookup_insert_ne by congruence. destruct (C3 fd') as [?|(ch' & E' & ?)]; [by left|]. right. exists ch'. split; [|done]. rewrite znth_app_l; [done|]. apply znth_Some in E'. lia.
    + rewrite Zlen_app. change (Zlen [_]) with 1. lia.
  - destruct (C2 _ _ Ech) as [E1 _]. rewrite Efd in E1. pose proof (znth_Some _ _ _ Ech). destruct (Z.eqb_spec (fdinfo b (false, fd)) 0); [lia|]. rewrite Ech. cbn [or_undef mbind outcome_bind]. rewrite Efd, Z.eqb_refl. eexists _, _, ch. split; [done|]. split; [done|]. split; [done|]. split; [done|lia].
Qed.

Lemma znth_insert {A} (l : list A) i x j : 0 <= i < Zlen l → znth (<[Z.to_nat i := x]> l) j = if decide (i = j) then Some x else znth l j.
Proof.
  intros Hi. unfold Zlen in Hi. unfold znth. case_decide as Hj.
  - subst j. destruct (Z.ltb_spec i 0); [lia|]. by rewrite list_lookup_insert_eq by lia.
  - destruct (Z.ltb_spec j 0); [done|]. by rewrite list_lookup_insert_ne by lia.
Qed.

Lemma put_change_ok want0 want size0 b idx ch ch' now : cl_inv want0 want size0 b → znth (changes (changelist b)) idx = Some ch → ch_fd ch' = ch_fd ch → change_ok (want0 (ch_fd ch)) now ch' →
  cl_inv want0 (<[ch_fd ch := now]> want) size0 (put_change idx ch' b).
Proof.
  intros [C1 C2 C3 C4] E Efd Hok. pose proof (znth_Some _ _ _ E) as Hi. destruct (C2 _ _ E) as [Ei _]. assert (Zlen (<[Z.to_nat idx := ch']> (changes (changelist b))) = Zlen (changes (changelist b))) as El by (unfold Zlen; by rewrite length_insert).
  split; cbn [put_change set_cl cl_kernel changelist fdinfo changes changes_size]; [done|..|by rewrite El].
  - intros i c. rewrite znth_insert by done. case_decide as Hj.
    + intros [= <-]. subst i. rewrite Efd, fn_lookup_insert. done.
    + intros Ec. destruct (C2 _ _ Ec) as [E1 E2]. split; [done|]. rewrite fn_lookup_insert_ne; [done|]. intros E'. rewrite <- E' in E1. lia.
  - intros fd. destruct (decide (fd = ch_fd ch)) as [->|Hne].
    + right. exists ch'. rewrite Ei. replace (idx + 1 - 1) with idx by lia. rewrite znth_insert by done. by rewrite decide_True.
    + rewrite fn_lookup_insert_ne by done. destruct (C3 fd) as [?|(c & Ec & Hc)]; [by left|]. right. exists c. rewrite znth_insert by done. case_decide as Hj; [|done]. exfalso. apply Hne. rewrite <- Hj in Ec. congruence.
Qed.

Lemma collect_ok want0 want size0 b c : cl_inv want0 want size0 b → proper edges want c → Zlen (changes (changelist b)) < 2 ^ 29 → size0 < 2 ^ 30 →
  ∃ b', collect want c b = Val (0, b') ∧ cl_inv want0 (next want c) size0 b' ∧ Zlen (changes (changelist b')) <= Zlen (changes (changelist b)) + 1.
Proof.
  assert (∀ f fd now, cl_inv want0 want size0 b → Zlen (changes (changelist b)) < 2 ^ 29 → size0 < 2 ^ 30 → (∀ ch, ch_fd (f ch) = ch_fd ch) → (∀ ch, change_ok (want0 fd) (want fd) ch → change_ok (want0 fd) now (f ch)) →
    ∃ b', change_entry f fd (rw (want fd).1 (want fd).2) (false, fd) b = Val (0, b') ∧ cl_inv want0 (<[fd := now]> want) size0 b' ∧ Zlen (changes (changelist b')) <= Zlen (changes (changelist b)) + 1) as Hentry.
  { intros f fd now Hi Hn Hs Hfd Hf. unfold change_entry. destruct (entry_ok want0 want size0 b fd Hi Hn Hs) as (idx & b1 & ch & -> & Hi1 & Ech & Ef & Hl). cbn [mbind outcome_bind]. rewrite Ech. cbn [or_undef mbind outcome_bind]. eexists. split; [done|].
    split; [|cbn; unfold Zlen in *; by rewrite length_insert]. rewrite <- Ef. apply (put_change_ok want0 want size0 b1 idx ch); [done|done|done|]. rewrite Ef. apply Hf. destruct (ci_index _ _ _ _ Hi1 _ _ Ech) as [_ Hok]. by rewrite Ef in Hok. }
  intros Hi Hp Hn Hs. destruct c as [fd et r w|fd r w]; apply Hentry; try done.
  - intros ch. apply add_change_ok. by destruct Hp.
  - intros ch Hok. destruct Hp as (_ & ? & ?). by apply del_change_ok.
Qed.

Lemma collect_all_ok want0 want size0 b cs : cl_inv want0 want size0 b → proper_all edges want cs → Zlen (changes (changelist b)) + Zlen cs <= 2 ^ 29 → size0 < 2 ^ 30 →
  ∃ b', collect_all want cs b = Val (replicate (length cs) 0, b') ∧ cl_inv want0 (final want cs) size0 b' ∧ Zlen (changes (changelist b')) <= Zlen (changes (changelist b)) + Zlen cs.
Proof.
  revert want b. induction cs as [|c cs IH]; intros want b Hi Hp Hn Hs; [exists b; split; [done|]; split; [done|]; change (Zlen (@nil cl_call)) with 0; lia|]. destruct Hp as [Hp Hps]. rewrite Zlen_cons in Hn. pose proof (Zlen_nonneg cs). destruct (collect_ok want0 want size0 b c Hi Hp ltac:(lia) Hs) as (b1 & E & Hi1 & Hl).
  cbn [collect_all]. rewrite E. cbn [mbind outcome_bind]. destruct (IH (next want c) b1 Hi1 Hps ltac:(lia) Hs) as (b2 & -> & Hi2 & Hl2). exists b2. split; [done|]. split; [done|]. rewrite Zlen_cons. lia.
Qed.

(** ** Applying and forgetting *)

Lemma apply_changes_ok (l : list event_change) want0 want r k : NoDup (ch_fd <$> l) → (∀ ch, ch ∈ l → change_ok (want0 (ch_fd ch)) (want (ch_fd ch)) ch ∧ shows edges (watched k (ch_fd ch)) (want0 (ch_fd ch))) →
  ∃ r' k', foldl (λ '(r, k) ch, let '(r', k) := epoll_apply_one_change ch k in (if r' <? 0 then -1 else r, k)) (r, k) l = (r', k') ∧ (r' = r ∨ r' = -1) ∧
    (∀ fd, fd ∉ ch_fd <$> l → watched k' fd = watched k fd) ∧ (r' = 0 → ∀ ch, ch ∈ l → shows edges (watched k' (ch_fd ch)) (want (ch_fd ch))).
Proof.
  revert r k. induction l as [|ch l IH]; intros r k Hnd Hall; cbn [foldl]. { exists r, k. split; [done|]. split; [by left|]. split; [done|]. intros _ ch Hch. by apply elem_of_nil in Hch. }
  cbn [fmap list_fmap] in Hnd. apply NoDup_cons in Hnd as [Hni Hnd]. destruct (Hall ch ltac:(by left)) as [Hok Hk]. destruct (apply_change _ _ ch k Hok Hk) as [Ho Hres]. destruct (epoll_apply_one_change ch k) as [r1 k1]. cbn [fst snd] in *.
  destruct (IH (if r1 <? 0 then -1 else r) k1 Hnd) as (r' & k' & E & Hr' & Hot & Hin).
  { intros c Hc. destruct (Hall c ltac:(by right)) as [? Hw]. split; [done|]. rewrite Ho; [done|]. intros Ec. apply Hni. rewrite <- Ec. by apply list_elem_of_fmap_2. }
  exists r', k'. split; [exact E|]. split; [destruct (r1 <? 0); destruct Hr'; auto|]. split.
  - intros fd Hfd. cbn [fmap list_fmap] in Hfd. apply not_elem_of_cons in Hfd as [Hf1 Hf2]. rewrite Hot by done. by apply Ho.
  - intros -> c [->|Hc]%elem_of_cons; [|by apply Hin]. rewrite Hot by done. destruct Hres as [[_ ?]|[-> _]]; [done|]. destruct Hr' as [E'|E']; cbn in E'; lia.
Qed.

Lemma remove_all_loop_ok i l f : (∀ j ch, l !! j = Some ch → event_change_get_fdinfo ch = (false, ch_fd ch) ∧ f (false, ch_fd ch) = i + Z.of_nat j + 1) →
  ∃ f', remove_all_loop i l f = Val f' ∧ (∀ ch, ch ∈ l → f' (false, ch_fd ch) = 0) ∧ ∀ fd, fd ∉ ch_fd <$> l → f' (false, fd) = f (false, fd).
Proof.
  revert i f. induction l as [|ch l IH]; intros i f Hall. { exists f. split; [done|]. split; [|done]. intros ch Hch. by apply elem_of_nil in Hch. }
  cbn [remove_all_loop]. destruct (Hall 0%nat ch eq_refl) as [-> E]. rewrite E. destruct (Z.eqb_spec (i + Z.of_nat 0 + 1) (i + 1)); [|lia].
  assert (∀ j c, l !! j = Some c → ch_fd c ≠ ch_fd ch) as Hne by (intros j c Hc Ec; destruct (Hall (S j) c Hc) as [_ Hf]; rewrite Ec, E in Hf; lia).
  destruct (IH (i + 1) (<[(false, ch_fd ch) := 0]> f)) as (f' & -> & Hz & Ho).
  { intros j c Hc. destruct (Hall (S j) c Hc) as [? Hf]. split; [done|]. rewrite fn_lookup_insert_ne by (intros [= E']; by apply (Hne j c Hc)). lia. }
  exists f'. split; [done|]. split.
  - intros c [->|Hc]%elem_of_cons; [|by apply Hz]. rewrite Ho; [apply fn_lookup_insert|]. intros (c' & Ec & Hc)%list_elem_of_fmap. apply list_elem_of_lookup in Hc as [j Hj]. by apply (Hne j c' Hj).
  - intros fd [Hf1 Hf2]%not_elem_of_cons. rewrite Ho by done. by rewrite fn_lookup_insert_ne by congruence.
Qed.

Lemma znth_lookup {A} (l : list A) j x : l !! j = Some x → znth l (Z.of_nat j) = Some x.
Proof. intros E. unfold znth. destruct (Z.ltb_spec (Z.of_nat j) 0); [lia|]. by rewrite Nat2Z.id. Qed.

Lemma one_change_each want0 want size0 b : cl_inv want0 want size0 b → NoDup (ch_fd <$> changes (changelist b)).
Proof.
  intros [_ C2 _ _]. apply NoDup_alt. intros i j fd (c1 & E1 & Hi)%list_lookup_fmap_Some (c2 & E2 & Hj)%list_lookup_fmap_Some.
  destruct (C2 _ _ (znth_lookup _ _ _ Hi)) as [F1 _], (C2 _ _ (znth_lookup _ _ _ Hj)) as [F2 _]. rewrite <- E1 in F1. rewrite <- E2 in F2. lia.
Qed.

Lemma dispatch_ok want0 want size0 b : cl_inv want0 want size0 b → changes_size (changelist b) < 2 ^ 30 →
  ∃ r b', dispatch_changes b = Val (r, b') ∧ (r = 0 ∨ r = -1) ∧ nothing_waits b' ∧ (r = 0 → watches edges want (cl_kernel b')).
Proof.
  intros [C1 C2 C3 C4] Hsz. set (l := changes (changelist b)) in *. pose proof (Zlen_nonneg l). assert (∀ j ch, l !! j = Some ch → fdinfo b (false, ch_fd ch) = Z.of_nat j + 1 ∧ change_ok (want0 (ch_fd ch)) (want (ch_fd ch)) ch) as Hl by (intros j ch Hj; apply C2, znth_lookup, Hj).
  pose proof (one_change_each want0 want size0 b ltac:(by split)) as Hnd. fold l in Hnd.
  assert (∀ fd, fd ∉ ch_fd <$> l → fdinfo b (false, fd) = 0 ∧ want fd = want0 fd) as Hrest. { intros fd Hfd. destruct (C3 fd) as [?|(ch & E & Ef)]; [done|]. exfalso. apply Hfd. rewrite <- Ef. apply list_elem_of_fmap_2, list_elem_of_lookup. exists (Z.to_nat (fdinfo b (false, fd) - 1)). unfold znth in E. by destruct (_ <? 0). }
  unfold dispatch_changes, epoll_apply_changes. fold l. destruct (apply_changes_ok l want0 want 0 (cl_kernel b) Hnd) as (r & k & -> & Hr & Ho & Hin).
  { intros ch [j Hj]%list_elem_of_lookup. split; [by apply (Hl j)|apply C1]. }
  unfold event_changelist_remove_all. cbn [changelist fdinfo]. fold l. destruct (remove_all_loop_ok 0 l (fdinfo b)) as (f & -> & Hz & Hf).
  { intros j ch Hj. destruct (Hl j ch Hj) as [E Hok]. split; [by eapply change_not_signal|]. rewrite E. lia. }
  cbn [mbind outcome_bind]. eexists _, _. split; [done|]. split; [done|]. split.
  - split; cbn; [done|lia|]. intros fd. destruct (decide (fd ∈ ch_fd <$> l)) as [(ch & -> & Hc)%list_elem_of_fmap|Hn]; [by apply Hz|]. rewrite Hf by done. by apply Hrest.
  - intros E fd. cbn. destruct (decide (fd ∈ ch_fd <$> l)) as [(ch & -> & Hc)%list_elem_of_fmap|Hn]; [by apply Hin|]. rewrite Ho by done. destruct (Hrest fd Hn) as [_ ->]. apply C1.
Qed.

Lemma immediate_all_ok want k cs rs k' : watches edges want k → proper_all edges want cs → immediate_all want cs k = (rs, k') → Forall (λ r, r = 0) rs → watches edges (final want cs) k'.
Proof.
  revert want k rs. induction cs as [|c cs IH]; intros want k rs Hk Hp E Hrs; cbn in E; [by injection E as <- <-|]. destruct Hp as [Hp Hps]. destruct (immediate want c k) as [r k1] eqn:E1. destruct (immediate_all (next want c) cs k1) as [rs' k2] eqn:E2. injection E as <- <-. apply Forall_cons in Hrs as [-> Hrs].
  apply (IH (next want c) k1 rs'); try done. intros fd.
  assert (∀ d rw, changed_to d rw k (0, k1) → shows edges (watched k1 fd) (<[d := rw]> want fd)) as Hch.
  { intros d rw [Ho Hd]. destruct (decide (d = fd)) as [->|Hne]; [rewrite fn_lookup_insert; destruct Hd as [[_ ?]|[? _]]; done|]. rewrite fn_lookup_insert_ne by done. cbn [snd] in Ho. rewrite Ho by done. apply Hk. }
  destruct c as [d et r w|d r w]; cbn [immediate next proper] in *; apply Hch; rewrite <- E1.
  - apply (changed_shows et); [by destruct Hp|]. apply epoll_add_spec; [done|by destruct Hp as (_ & ? & _)].
  - destruct Hp as (Hrw & Hr & Hw). apply (changed_shows false); [done|]. apply epoll_del_spec; try done. destruct (Hk d) as (et & _ & ->). unfold interest. destruct r; [rewrite (Hr eq_refl); by eexists|]. destruct w; [|done]. rewrite (Hw eq_refl), orb_true_r. by eexists.
Qed.

Lemma shows_level o o' want : shows edges o want → shows edges o' want → level <$> o = level <$> o' ∧ (edges = false → o = o').
Proof.
  intros (et & He & ->) (et' & He' & ->). destruct want as [r w]. cbn [fst snd]. split; [by destruct et, et', r, w|]. intros E. rewrite E in He, He'. destruct et; [by specialize (He eq_refl)|]. by destruct et'; [specialize (He' eq_refl)|].
Qed.
End calls.

(** C22.  The change list does what changing the kernel's list at once does: calls of event_changelist_add and
    event_changelist_del fail no assertion and leave no array, epoll_dispatch applies what has been collected with one
    change for each descriptor and forgets it, and if the kernel accepts the changes it then watches each descriptor for
    the reading and writing it watches it for when epoll_nochangelist_add and epoll_nochangelist_del are called instead.  The two may differ in
    EPOLLET, which deleting an event drops from the entry of the kernel; they do not where no event is edge-triggered.  The calls are those that evmap.c
    makes, for descriptors and not for signals, fewer than 2^29 between two waits; memory does not fail, and the kernel keeps what epoll_ctl documents. *)
Theorem changelist_equivalent `{Malloc, Kernel} (laws : epoll_laws) (Hmem : reliable) edges want cs b : nothing_waits b → watches edges want (cl_kernel b) → proper_all edges want cs → Zlen cs < 2 ^ 29 →
  ∃ b1 r b2, collect_all want cs b = Val (replicate (length cs) 0, b1) ∧ cl_kernel b1 = cl_kernel b ∧ NoDup (ch_fd <$> changes (changelist b1)) ∧
    dispatch_changes b1 = Val (r, b2) ∧ (r = 0 ∨ r = -1) ∧ nothing_waits b2 ∧
    ∀ rs k, immediate_all want cs (cl_kernel b) = (rs, k) → Forall (λ r, r = 0) rs → r = 0 →
      ∀ fd, level <$> watched (cl_kernel b2) fd = level <$> watched k fd ∧ (edges = false → watched (cl_kernel b2) fd = watched k fd).
Proof.
  intros Hnw Hk Hp Hn. pose proof (start_cl edges (cl_kernel b) want _ b Hnw eq_refl Hk eq_refl) as Hi. pose proof Hnw as [N1 N2 N3].
  destruct (collect_all_ok edges (cl_kernel b) Hmem want want (changes_size (changelist b)) b cs Hi Hp) as (b1 & E1 & Hi1 & Hl1); [rewrite N1; change (Zlen (@nil event_change)) with 0; lia|lia|].
  rewrite N1 in Hl1. change (Zlen (@nil event_change)) with 0 in Hl1. pose proof (ci_size _ _ _ _ _ _ Hi1) as Hsz. destruct (dispatch_ok edges laws _ _ _ _ _ Hi1 ltac:(lia)) as (r & b2 & E2 & Hr & Hnw2 & Hw).
  exists b1, r, b2. split; [done|]. split; [apply Hi1|]. split; [by eapply one_change_each|]. split; [done|]. split; [done|]. split; [done|].
  intros rs k E Hrs Hr0 fd. apply (shows_level edges _ _ (final want cs fd)); [by apply Hw|]. by apply (immediate_all_ok edges laws want (cl_kernel b) cs rs k).
Qed.
