(* ===== verification/EvBase.v ===== *)
(** An event base: struct event_base of event-internal.h and the functions of event.c of
    libevent 2.0.21 that add, delete, activate and run events.

    A base is used by one thread and libevent's thread support is not initialised (the
    program never calls evthread_use_pthreads): locks, condition variables and the
    notification of another thread are no-ops.  CLOCK_MONOTONIC works on Linux, so
    [use_monotonic] is 1, timeout_correct returns at once and reading the clock does not
    fail; [clock] is the time it shows.  Seconds are unbounded integers.

    Events are numbers, their structs are in [evs].  The queues are lists in the order of
    the TAILQs.  [sig_ncalls] is the counter [ncalls] of the running signal closure, which
    [ev_pncalls] of its event points to.  [deferred] is the list of the deferred-callback
    queue; its [active_count] is the length, and [queued] of a callback says whether it is
    in the list.  event_errx, which ends the process, is [AssertFail].  [ran] logs the
    callbacks run. *)

From S2P Require Import Prelude EvFlags BufChain EvHeap EvMap.

Record Ctl := { ctl_events : list nat; ctl_duration : timeval; ctl_timeout_event : nat }.

Record Queues := {
  q_eventqueue : list nat;
  q_activequeues : list (list nat);
  q_timeheap : min_heap;
  q_ctls : list Ctl }.   (** common_timeout_queues *)

Record Flags := {
  f_gotterm : bool;
  f_break : bool;
  f_continue : bool;
  f_running_priority : Z;
  f_running_loop : bool;
  f_sig_ncalls : Z }.

Record Times := { t_cache : timeval; t_event_tv : timeval; t_clock : timeval }.

Section base.
Context {HM : Malloc} {HE : EventOp}.

Record Base := {
  evs : Evs;
  b_queues : Queues;
  io : slot_map evmap_io;
  sigmap : slot_map (list nat);
  backend : bk;
  event_count : Z;
  event_count_active : Z;
  b_flags : Flags;
  b_times : Times;
  deferred : list nat;
  ran : list (nat * Z) }.

Definition eventqueue (b : Base) : list nat := q_eventqueue (b_queues b).
Definition activequeues (b : Base) : list (list nat) := q_activequeues (b_queues b).
Definition timeheap (b : Base) : min_heap := q_timeheap (b_queues b).
Definition ctls (b : Base) : list Ctl := q_ctls (b_queues b).
Definition running_priority (b : Base) : Z := f_running_priority (b_flags b).
Definition tv_cache (b : Base) : timeval := t_cache (b_times b).
Definition clock (b : Base) : timeval := t_clock (b_times b).
Definition ev_of (b : Base) (x : nat) : Event := evs b !!! x.

Definition set_evs (e : Evs) (b : Base) : Base :=
  {| evs := e; b_queues := b_queues b; io := io b; sigmap := sigmap b; backend := backend b; event_count := event_count b;
     event_count_active := event_count_active b; b_flags := b_flags b; b_times := b_times b; deferred := deferred b; ran := ran b |}.
Definition set_queues (q : Queues) (b : Base) : Base :=
  {| evs := evs b; b_queues := q; io := io b; sigmap := sigmap b; backend := backend b; event_count := event_count b;
     event_count_active := event_count_active b; b_flags := b_flags b; b_times := b_times b; deferred := deferred b; ran := ran b |}.
Definition set_maps (i : slot_map evmap_io) (s : slot_map (list nat)) (k : bk) (b : Base) : Base :=
  {| evs := evs b; b_queues := b_queues b; io := i; sigmap := s; backend := k; event_count := event_count b;
     event_count_active := event_count_active b; b_flags := b_flags b; b_times := b_times b; deferred := deferred b; ran := ran b |}.
Definition set_counts (n m : Z) (b : Base) : Base :=
  {| evs := evs b; b_queues := b_queues b; io := io b; sigmap := sigmap b; backend := backend b; event_count := n;
     event_count_active := m; b_flags := b_flags b; b_times := b_times b; deferred := deferred b; ran := ran b |}.
Definition set_flags (f : Flags) (b : Base) : Base :=
  {| evs := evs b; b_queues := b_queues b; io := io b; sigmap := sigmap b; backend := backend b; event_count := event_count b;
     event_count_active := event_count_active b; b_flags := f; b_times := b_times b; deferred := deferred b; ran := ran b |}.
Definition set_times (t : Times) (b : Base) : Base :=
  {| evs := evs b; b_queues := b_queues b; io := io b; sigmap := sigmap b; backend := backend b; event_count := event_count b;
     event_count_active := event_count_active b; b_flags := b_flags b; b_times := t; deferred := deferred b; ran := ran b |}.
Definition set_deferred (d : list nat) (b : Base) : Base :=
  {| evs := evs b; b_queues := b_queues b; io := io b; sigmap := sigmap b; backend := backend b; event_count := event_count b;
     event_count_active := event_count_active b; b_flags := b_flags b; b_times := b_times b; deferred := d; ran := ran b |}.
Definition log_ran (x : nat) (res : Z) (b : Base) : Base :=
  {| evs := evs b; b_queues := b_queues b; io := io b; sigmap := sigmap b; backend := backend b; event_count := event_count b;
     event_count_active := event_count_active b; b_flags := b_flags b; b_times := b_times b; deferred := deferred b;
     ran := ran b ++ [(x, res)] |}.

Definition set_eventqueue (l : list nat) (q : Queues) : Queues :=
  {| q_eventqueue := l; q_activequeues := q_activequeues q; q_timeheap := q_timeheap q; q_ctls := q_ctls q |}.
Definition set_activequeues (l : list (list nat)) (q : Queues) : Queues :=
  {| q_eventqueue := q_eventqueue q; q_activequeues := l; q_timeheap := q_timeheap q; q_ctls := q_ctls q |}.
Definition set_timeheap (h : min_heap) (q : Queues) : Queues :=
  {| q_eventqueue := q_eventqueue q; q_activequeues := q_activequeues q; q_timeheap := h; q_ctls := q_ctls q |}.
Definition set_ctl_events (i : nat) (l : list nat) (q : Queues) : Queues :=
  {| q_eventqueue := q_eventqueue q; q_activequeues := q_activequeues q; q_timeheap := q_timeheap q;
     q_ctls := alter (λ c, {| ctl_events := l; ctl_duration := ctl_duration c; ctl_timeout_event := ctl_timeout_event c |}) i (q_ctls q) |}.

Definition set_running_priority (p : Z) (f : Flags) : Flags :=
  {| f_gotterm := f_gotterm f; f_break := f_break f; f_continue := f_continue f; f_running_priority := p;
     f_running_loop := f_running_loop f; f_sig_ncalls := f_sig_ncalls f |}.
Definition set_stop (gotterm brk cont : bool) (f : Flags) : Flags :=
  {| f_gotterm := gotterm; f_break := brk; f_continue := cont; f_running_priority := f_running_priority f;
     f_running_loop := f_running_loop f; f_sig_ncalls := f_sig_ncalls f |}.
Definition set_running_loop (r : bool) (f : Flags) : Flags :=
  {| f_gotterm := f_gotterm f; f_break := f_break f; f_continue := f_continue f; f_running_priority := f_running_priority f;
     f_running_loop := r; f_sig_ncalls := f_sig_ncalls f |}.
Definition set_sig_ncalls (n : Z) (f : Flags) : Flags :=
  {| f_gotterm := f_gotterm f; f_break := f_break f; f_continue := f_continue f; f_running_priority := f_running_priority f;
     f_running_loop := f_running_loop f; f_sig_ncalls := n |}.

(** Fields of one event. *)
Definition put_flags (fl : Z) (e : Event) : Event :=
  {| ev_fd := ev_fd e; ev_events := ev_events e; ev_res := ev_res e; ev_flags := fl; ev_pri := ev_pri e;
     ev_closure := ev_closure e; ev_timeout := ev_timeout e; ev_io_timeout := ev_io_timeout e;
     ev_ncalls := ev_ncalls e; ev_pncalls := ev_pncalls e; min_heap_idx := min_heap_idx e |}.
Definition put_res (res : Z) (e : Event) : Event :=
  {| ev_fd := ev_fd e; ev_events := ev_events e; ev_res := res; ev_flags := ev_flags e; ev_pri := ev_pri e;
     ev_closure := ev_closure e; ev_timeout := ev_timeout e; ev_io_timeout := ev_io_timeout e;
     ev_ncalls := ev_ncalls e; ev_pncalls := ev_pncalls e; min_heap_idx := min_heap_idx e |}.
Definition put_pri (pri : nat) (e : Event) : Event :=
  {| ev_fd := ev_fd e; ev_events := ev_events e; ev_res := ev_res e; ev_flags := ev_flags e; ev_pri := pri;
     ev_closure := ev_closure e; ev_timeout := ev_timeout e; ev_io_timeout := ev_io_timeout e;
     ev_ncalls := ev_ncalls e; ev_pncalls := ev_pncalls e; min_heap_idx := min_heap_idx e |}.
Definition put_timeout (tv : timeval) (e : Event) : Event :=
  {| ev_fd := ev_fd e; ev_events := ev_events e; ev_res := ev_res e; ev_flags := ev_flags e; ev_pri := ev_pri e;
     ev_closure := ev_closure e; ev_timeout := tv; ev_io_timeout := ev_io_timeout e;
     ev_ncalls := ev_ncalls e; ev_pncalls := ev_pncalls e; min_heap_idx := min_heap_idx e |}.
Definition put_io_timeout (tv : timeval) (e : Event) : Event :=
  {| ev_fd := ev_fd e; ev_events := ev_events e; ev_res := ev_res e; ev_flags := ev_flags e; ev_pri := ev_pri e;
     ev_closure := ev_closure e; ev_timeout := ev_timeout e; ev_io_timeout := tv;
     ev_ncalls := ev_ncalls e; ev_pncalls := ev_pncalls e; min_heap_idx := min_heap_idx e |}.
Definition put_ncalls (n : Z) (p : bool) (e : Event) : Event :=
  {| ev_fd := ev_fd e; ev_events := ev_events e; ev_res := ev_res e; ev_flags := ev_flags e; ev_pri := ev_pri e;
     ev_closure := ev_closure e; ev_timeout := ev_timeout e; ev_io_timeout := ev_io_timeout e;
     ev_ncalls := n; ev_pncalls := p; min_heap_idx := min_heap_idx e |}.
Definition upd (x : nat) (f : Event → Event) (b : Base) : Base := set_evs (<[x := f (ev_of b x)]> (evs b)) b.

(** ** Time *)

Definition gettime (b : Base) : timeval := if negb (tv_sec (tv_cache b) =? 0) then tv_cache b else clock b.
Definition clear_time_cache (b : Base) : Base :=
  let t := b_times b in
  set_times {| t_cache := {| tv_sec := 0; tv_usec := tv_usec (t_cache t) |}; t_event_tv := t_event_tv t; t_clock := t_clock t |} b.
(** The flag EVENT_BASE_FLAG_NO_CACHE_TIME is not set. *)
Definition update_time_cache (b : Base) : Base :=
  let t := b_times b in
  set_times {| t_cache := t_clock t; t_event_tv := t_event_tv t; t_clock := t_clock t |} b.

(** ** Common timeouts *)

Definition MICROSECONDS_MASK : Z := 0x000fffff.
Definition COMMON_TIMEOUT_IDX_MASK : Z := 0x0ff00000.
Definition COMMON_TIMEOUT_MASK : Z := 0xf0000000.
Definition COMMON_TIMEOUT_MAGIC : Z := 0x50000000.
Definition COMMON_TIMEOUT_IDX (tv : timeval) : nat := Z.to_nat (Z.shiftr (Z.land (tv_usec tv) COMMON_TIMEOUT_IDX_MASK) 20).

Definition is_common_timeout (tv : timeval) (b : Base) : bool :=
  (Z.land (tv_usec tv) COMMON_TIMEOUT_MASK =? COMMON_TIMEOUT_MAGIC) && (COMMON_TIMEOUT_IDX tv <? length (ctls b))%nat.
Definition is_same_common_timeout (tv1 tv2 : timeval) : bool :=
  Z.ldiff (tv_usec tv1) MICROSECONDS_MASK =? Z.ldiff (tv_usec tv2) MICROSECONDS_MASK.
(** [tv_usec & MICROSECONDS_MASK]. *)
Definition masked (tv : timeval) : timeval := {| tv_sec := tv_sec tv; tv_usec := Z.land (tv_usec tv) MICROSECONDS_MASK |}.

(** The walk from the end of the list, which is given in reverse. *)
Fixpoint insert_from_end (b : Base) (x : nat) (rl : list nat) : outcome (list nat) :=
  match rl with
  | [] => Val [x]
  | e :: rl' =>
      if negb (is_same_common_timeout (ev_timeout (ev_of b e)) (ev_timeout (ev_of b x))) then Undef AssertFail
      else if evutil_timercmp Z.geb (ev_timeout (ev_of b x)) (ev_timeout (ev_of b e)) then Val (x :: e :: rl')
      else r ← insert_from_end b x rl'; Val (e :: r)
  end.
Definition insert_common_timeout_inorder (b : Base) (l : list nat) (x : nat) : outcome (list nat) :=
  r ← insert_from_end b x (reverse l); Val (reverse r).

(** ** Queues *)

Definition count_event (x : nat) (d : Z) (b : Base) : Base :=
  if negb (has (ev_flags (ev_of b x)) EVLIST_INTERNAL) then set_counts (event_count b + d) (event_count_active b) b else b.

Definition event_queue_insert (x : nat) (queue : Z) (b : Base) : outcome Base :=
  let flags := ev_flags (ev_of b x) in
  if has flags queue then (if has queue EVLIST_ACTIVE then Val b else Undef AssertFail)
  else
    let b := count_event x 1 b in
    let b := upd x (put_flags (Z.lor flags queue)) b in
    if queue =? EVLIST_INSERTED then
      Val (set_queues (set_eventqueue (eventqueue b ++ [x]) (b_queues b)) b)
    else if queue =? EVLIST_ACTIVE then
      let b := set_counts (event_count b) (event_count_active b + 1) b in
      let pri := ev_pri (ev_of b x) in
      q ← or_undef OutOfBounds (activequeues b !! pri);
      Val (set_queues (set_activequeues (<[pri := q ++ [x]]> (activequeues b)) (b_queues b)) b)
    else if queue =? EVLIST_TIMEOUT then
      let tv := ev_timeout (ev_of b x) in
      if is_common_timeout tv b then
        let i := COMMON_TIMEOUT_IDX tv in
        c ← or_undef OutOfBounds (ctls b !! i);
        l ← insert_common_timeout_inorder b (ctl_events c) x;
        Val (set_queues (set_ctl_events i l (b_queues b)) b)
      else
        '(_, h, e) ← min_heap_push (timeheap b) x (evs b);
        Val (set_queues (set_timeheap h (b_queues b)) (set_evs e b))
    else Undef AssertFail.

Definition event_queue_remove (x : nat) (queue : Z) (b : Base) : outcome Base :=
  let flags := ev_flags (ev_of b x) in
  if negb (has flags queue) then Undef AssertFail
  else
    let b := count_event x (-1) b in
    let b := upd x (put_flags (Z.ldiff flags queue)) b in
    if queue =? EVLIST_INSERTED then
      Val (set_queues (set_eventqueue (tailq_remove x (eventqueue b)) (b_queues b)) b)
    else if queue =? EVLIST_ACTIVE then
      let b := set_counts (event_count b) (event_count_active b - 1) b in
      let pri := ev_pri (ev_of b x) in
      q ← or_undef OutOfBounds (activequeues b !! pri);
      Val (set_queues (set_activequeues (<[pri := tailq_remove x q]> (activequeues b)) (b_queues b)) b)
    else if queue =? EVLIST_TIMEOUT then
      let tv := ev_timeout (ev_of b x) in
      if is_common_timeout tv b then
        let i := COMMON_TIMEOUT_IDX tv in
        c ← or_undef OutOfBounds (ctls b !! i);
        Val (set_queues (set_ctl_events i (tailq_remove x (ctl_events c)) (b_queues b)) b)
      else
        '(_, h, e) ← min_heap_erase (timeheap b) x (evs b);
        Val (set_queues (set_timeheap h (b_queues b)) (set_evs e b))
    else Undef AssertFail.

(** ** Activating *)

Definition event_active_nolock (x : nat) (res ncalls : Z) (b : Base) : outcome Base :=
  let ev := ev_of b x in
  if has (ev_flags ev) EVLIST_ACTIVE then Val (upd x (put_res (Z.lor (ev_res ev) res)) b)
  else
    let b := upd x (put_res res) b in
    let b := if Z.of_nat (ev_pri ev) <? running_priority b
             then set_flags (set_stop (f_gotterm (b_flags b)) (f_break (b_flags b)) true (b_flags b)) b else b in
    let b := if has (ev_events ev) EV_SIGNAL then upd x (put_ncalls (i16 ncalls) false) b else b in
    event_queue_insert x EVLIST_ACTIVE b.

(** The signal loop that runs the event is told to stop. *)
Definition abort_signal_loop (x : nat) (b : Base) : Base :=
  let ev := ev_of b x in
  if has (ev_events ev) EV_SIGNAL && negb (ev_ncalls ev =? 0) && ev_pncalls ev
  then set_flags (set_sig_ncalls 0 (b_flags b)) b else b.

(** ** Adding and deleting *)

(** The descriptor or signal part of [event_add_internal]: its result, with 1 turned into 0. *)
Definition add_io (x : nat) (b : Base) : outcome (Z * Base) :=
  let ev := ev_of b x in
  if has (ev_events ev) (Z.lor (Z.lor EV_READ EV_WRITE) EV_SIGNAL) &&
     negb (has (ev_flags ev) (Z.lor EVLIST_INSERTED EVLIST_ACTIVE)) then
    '(res, b) ← (if has (ev_events ev) (Z.lor EV_READ EV_WRITE) then
                   '(res, i, k) ← evmap_io_add (ev_fd ev) x (evs b) (io b) (backend b);
                   Val (res, set_maps i (sigmap b) k b)
                 else
                   '(res, s, k) ← evmap_signal_add (ev_fd ev) x (sigmap b) (backend b);
                   Val (res, set_maps (io b) s k b));
    b ← (if negb (res =? -1) then event_queue_insert x EVLIST_INSERTED b else Val b);
    Val (if res =? 1 then 0 else res, b)
  else Val (0, b).

(** The timeout part, up to the insertion: whether the time is a common one. *)
Definition set_deadline (x : nat) (tv : timeval) (tv_is_absolute : bool) (b : Base) : outcome (bool * Base) :=
  let b := match ev_closure (ev_of b x) with
           | EV_CLOSURE_PERSIST => if tv_is_absolute then b else upd x (put_io_timeout tv) b
           | _ => b
           end in
  b ← (if has (ev_flags (ev_of b x)) EVLIST_TIMEOUT then event_queue_remove x EVLIST_TIMEOUT b else Val b);
  b ← (if has (ev_flags (ev_of b x)) EVLIST_ACTIVE && has (ev_res (ev_of b x)) EV_TIMEOUT then
         event_queue_remove x EVLIST_ACTIVE (abort_signal_loop x b)
       else Val b);
  let now := gettime b in
  let common_timeout := is_common_timeout tv b in
  let deadline :=
    if tv_is_absolute then tv
    else if common_timeout then
      let t := evutil_timeradd now (masked tv) in
      {| tv_sec := tv_sec t; tv_usec := Z.lor (tv_usec t) (Z.ldiff (tv_usec tv) MICROSECONDS_MASK) |}
    else evutil_timeradd now tv in
  b ← event_queue_insert x EVLIST_TIMEOUT (upd x (put_timeout deadline) b);
  Val (common_timeout, b).

(** The whole of it: the first event of a common timeout sets its timer. *)
Definition add_timeout (schedule : Ctl → nat → Base → outcome Base) (x : nat) (tv : timeval) (tv_is_absolute : bool) (b : Base)
  : outcome Base :=
  '(common_timeout, b) ← set_deadline x tv tv_is_absolute b;
  if (common_timeout : bool) then
    c ← or_undef OutOfBounds (ctls b !! COMMON_TIMEOUT_IDX (ev_timeout (ev_of b x)));
    if bool_decide (head (ctl_events c) = Some x) then schedule c x b else Val b
  else Val b.

Definition event_add_body (schedule : Ctl → nat → Base → outcome Base) (x : nat) (tv : option timeval) (tv_is_absolute : bool)
  (b : Base) : outcome (Z * Base) :=
  if negb (Z.ldiff (ev_flags (ev_of b x)) EVLIST_ALL =? 0) then Undef AssertFail
  else
    let '(ok, b) :=
      match tv with
      | Some _ =>
          if negb (has (ev_flags (ev_of b x)) EVLIST_TIMEOUT) then
            let '(ok, h) := min_heap_reserve (timeheap b) (1 + min_heap_size (timeheap b)) in
            (ok, set_queues (set_timeheap h (b_queues b)) b)
          else (true, b)
      | None => (true, b)
      end in
    if negb ok then Val (-1, b)
    else
      '(res, b) ← add_io x b;
      match tv with
      | Some tv => if negb (res =? -1) then b ← add_timeout schedule x tv tv_is_absolute b; Val (res, b) else Val (res, b)
      | None => Val (res, b)
      end.

(** The timer of a common timeout; its own time is an ordinary one, so that this call
    schedules nothing further. *)
Definition common_timeout_schedule (ctl : Ctl) (head : nat) (b : Base) : outcome Base :=
  '(_, b) ← event_add_body (λ _ _ _, Undef Hang) (ctl_timeout_event ctl) (Some (masked (ev_timeout (ev_of b head)))) true b;
  Val b.

Definition event_add_internal : nat → option timeval → bool → Base → outcome (Z * Base) := event_add_body common_timeout_schedule.
Definition event_add (x : nat) (tv : option timeval) (b : Base) : outcome (Z * Base) := event_add_internal x tv false b.

Definition event_del_internal (x : nat) (b : Base) : outcome (Z * Base) :=
  if negb (Z.ldiff (ev_flags (ev_of b x)) EVLIST_ALL =? 0) then Undef AssertFail
  else
    let b := abort_signal_loop x b in
    b ← (if has (ev_flags (ev_of b x)) EVLIST_TIMEOUT then event_queue_remove x EVLIST_TIMEOUT b else Val b);
    b ← (if has (ev_flags (ev_of b x)) EVLIST_ACTIVE then event_queue_remove x EVLIST_ACTIVE b else Val b);
    if has (ev_flags (ev_of b x)) EVLIST_INSERTED then
      b ← event_queue_remove x EVLIST_INSERTED b;
      let ev := ev_of b x in
      '(res, b) ← (if has (ev_events ev) (Z.lor EV_READ EV_WRITE) then
                     '(res, i, k) ← evmap_io_del (ev_fd ev) x (evs b) (io b) (backend b);
                     Val (res, set_maps i (sigmap b) k b)
                   else
                     '(res, s, k) ← evmap_signal_del (ev_fd ev) x (sigmap b) (backend b);
                     Val (res, set_maps (io b) s k b));
      Val (if res =? 1 then 0 else res, b)
    else Val (0, b).
Definition event_del : nat → Base → outcome (Z * Base) := event_del_internal.

(** ** Setting up *)

Definition event_assign (x : nat) (fd events : Z) (b : Base) : Z * Base :=
  let old := ev_of b x in
  let fresh closure io_tv idx pri :=
    {| ev_fd := fd; ev_events := events; ev_res := 0; ev_flags := EVLIST_INIT; ev_pri := pri; ev_closure := closure;
       ev_timeout := ev_timeout old; ev_io_timeout := io_tv; ev_ncalls := 0; ev_pncalls := false; min_heap_idx := idx |} in
  let mid := (length (activequeues b) / 2)%nat in
  if has events EV_SIGNAL then
    if has events (Z.lor EV_READ EV_WRITE) then
      (-1, set_evs (<[x := fresh (ev_closure old) (ev_io_timeout old) (min_heap_idx old) (ev_pri old)]> (evs b)) b)
    else (0, set_evs (<[x := fresh EV_CLOSURE_SIGNAL (ev_io_timeout old) (-1) mid]> (evs b)) b)
  else if has events EV_PERSIST then (0, set_evs (<[x := fresh EV_CLOSURE_PERSIST evutil_timerclear (-1) mid]> (evs b)) b)
  else (0, set_evs (<[x := fresh EV_CLOSURE_NONE (ev_io_timeout old) (-1) mid]> (evs b)) b).

Definition event_priority_set (x : nat) (pri : Z) (b : Base) : Z * Base :=
  if has (ev_flags (ev_of b x)) EVLIST_ACTIVE then (-1, b)
  else if (pri <? 0) || (pri >=? Z.of_nat (length (activequeues b))) then (-1, b)
  else (0, upd x (put_pri (Z.to_nat pri)) b).

Definition event_pending (x : nat) (event : Z) (b : Base) : Z :=
  let ev := ev_of b x in
  let flags := Z.lor (Z.lor
    (if has (ev_flags ev) EVLIST_INSERTED then Z.land (ev_events ev) (Z.lor (Z.lor EV_READ EV_WRITE) EV_SIGNAL) else 0)
    (if has (ev_flags ev) EVLIST_ACTIVE then ev_res ev else 0))
    (if has (ev_flags ev) EVLIST_TIMEOUT then EV_TIMEOUT else 0) in
  Z.land flags (Z.land event (Z.lor (Z.lor EV_TIMEOUT EV_READ) (Z.lor EV_WRITE EV_SIGNAL))).

(** ** Deferred callbacks *)

Definition event_deferred_cb_schedule (c : nat) (b : Base) : Base :=
  if decide (c ∈ deferred b) then b else set_deferred (deferred b ++ [c]) b.
Definition event_deferred_cb_cancel (c : nat) (b : Base) : Base :=
  if decide (c ∈ deferred b) then set_deferred (tailq_remove c (deferred b)) b else b.

Definition N_ACTIVE_CALLBACKS (b : Base) : Z := event_count_active b + Zlen (deferred b).
Definition event_haveevents (b : Base) : bool := event_count b >? 0.
End base.
