(* ===== verification/EvLoop.v ===== *)
(** The event loop: event_base_loop of event.c of libevent 2.0.21 with what it calls.

    What the program's callbacks do is a strategy, [user]: the calls one makes when its
    event runs with a result on a base, as a list of [Action]s ([user_deferred] for a
    deferred callback).  evsig_cb of signal.c, which reads the numbers of caught signals
    from a socket pair, is such a callback: it does [ASignal].  A [Wakeup] is what one call
    of epoll_wait brings: an error, an interruption, or the ready descriptors; and the time
    it returns at.  The loop runs on a list of them, each depending on the base at its
    time, as a kernel only reports what it watches.  Without virtual events (they are for IOCP), event_haveevents tests
    event_count. *)

From S2P Require Import Prelude EvFlags BufChain EvHeap EvMap Epoll EvBase.

Inductive Action :=
  | AAssign (x : nat) (fd events : Z)
  | APriority (x : nat) (pri : Z)
  | AAdd (x : nat) (tv : option timeval)
  | ADel (x : nat)
  | AActive (x : nat) (res ncalls : Z)
  | ASignal (sig ncalls : Z)
  | ALoopbreak
  | ALoopexit
  | ADefer (c : nat)
  | ACancel (c : nat)
  | ATick (now : timeval).   (** time passes *)

Inductive Wakeup :=
  | WFailed
  | WInterrupted (now : timeval)
  | WReady (ready : list (Z * Z)) (now : timeval).

Definition EVLOOP_ONCE : Z := 0x01.
Definition EVLOOP_NONBLOCK : Z := 0x02.
Definition MAX_DEFERRED : nat := 16.

Section loop.
Context {HM : Malloc} {HE : EventOp}.
Variable user : nat → Z → Base → list Action.
Variable user_deferred : nat → Base → list Action.

Definition set_clock (now : timeval) (b : Base) : Base :=
  set_times {| t_cache := t_cache (b_times b); t_event_tv := t_event_tv (b_times b); t_clock := now |} b.

Definition event_base_loopbreak (b : Base) : Base :=
  set_flags (set_stop (f_gotterm (b_flags b)) true (f_continue (b_flags b)) (b_flags b)) b.
Definition event_loopexit_cb (b : Base) : Base :=
  set_flags (set_stop true (f_break (b_flags b)) (f_continue (b_flags b)) (b_flags b)) b.

Fixpoint activate_all (l : list (nat * Z)) (ncalls : Z) (b : Base) : outcome Base :=
  match l with
  | [] => Val b
  | (x, res) :: l => b ← event_active_nolock x res ncalls b; activate_all l ncalls b
  end.
Definition evmap_io_active (fd events : Z) (b : Base) : outcome Base :=
  l ← io_ready fd events (evs b) (io b); activate_all l 1 b.
Definition evmap_signal_active (sig ncalls : Z) (b : Base) : outcome Base :=
  l ← signal_ready sig (sigmap b); activate_all ((λ x, (x, EV_SIGNAL)) <$> l) ncalls b.

Definition do_action (a : Action) (b : Base) : outcome Base :=
  match a with
  | AAssign x fd events => Val (event_assign x fd events b).2
  | APriority x pri => Val (event_priority_set x pri b).2
  | AAdd x tv => '(_, b) ← event_add x tv b; Val b
  | ADel x => '(_, b) ← event_del x b; Val b
  | AActive x res ncalls => event_active_nolock x res ncalls b
  | ASignal sig ncalls => evmap_signal_active sig ncalls b
  | ALoopbreak => Val (event_base_loopbreak b)
  | ALoopexit => Val (event_loopexit_cb b)
  | ADefer c => Val (event_deferred_cb_schedule c b)
  | ACancel c => Val (event_deferred_cb_cancel c b)
  | ATick now => Val (set_clock now b)
  end.
Fixpoint do_actions (l : list Action) (b : Base) : outcome Base :=
  match l with [] => Val b | a :: l => b ← do_action a b; do_actions l b end.

(** ** Timeouts *)

(** How long to wait: [None] for ever. *)
Definition timeout_next (b : Base) : outcome (option timeval) :=
  match min_heap_top (timeheap b) with
  | None => Val None
  | Some x =>
      let now := gettime b in
      let t := ev_timeout (ev_of b x) in
      if evutil_timercmp Z.leb t now then Val (Some evutil_timerclear)
      else
        let tv := evutil_timersub t now in
        if (tv_sec tv >=? 0) && (tv_usec tv >=? 0) then Val (Some tv) else Undef AssertFail
  end.

Fixpoint timeout_loop (fuel : nat) (now : timeval) (b : Base) : outcome Base :=
  match min_heap_top (timeheap b) with
  | None => Val b
  | Some x =>
      if evutil_timercmp Z.gtb (ev_timeout (ev_of b x)) now then Val b
      else
        match fuel with
        | O => Undef Hang
        | S fuel =>
            '(_, b) ← event_del_internal x b;
            b ← event_active_nolock x EV_TIMEOUT 1 b;
            timeout_loop fuel now b
        end
  end.
(** Each turn takes an event off the heap. *)
Definition timeout_process (b : Base) : outcome Base :=
  if min_heap_empty (timeheap b) then Val b else timeout_loop (min_heap_size (timeheap b)) (gettime b) b.

(** The queue of a common timeout: its events whose time has come. *)
Fixpoint common_loop (fuel i : nat) (now : timeval) (b : Base) : outcome Base :=
  c ← or_undef OutOfBounds (ctls b !! i);
  match ctl_events c with
  | [] => Val b
  | x :: _ =>
      let t := masked (ev_timeout (ev_of b x)) in
      if evutil_timercmp Z.gtb t now then common_timeout_schedule c x b
      else
        match fuel with
        | O => Undef Hang
        | S fuel =>
            '(_, b) ← event_del_internal x b;
            b ← event_active_nolock x EV_TIMEOUT 1 b;
            common_loop fuel i now b
        end
  end.
Definition common_timeout_callback (i : nat) (b : Base) : outcome Base :=
  c ← or_undef OutOfBounds (ctls b !! i); common_loop (length (ctl_events c)) i (gettime b) b.

(** ** Running events *)

(** The queue whose timer the event is. *)
Definition timer_of (b : Base) (x : nat) : option nat := fst <$> list_find (λ c, ctl_timeout_event c = x) (ctls b).

Definition ev_callback (x : nat) (b : Base) : outcome Base :=
  match timer_of b x with
  | Some i => common_timeout_callback i b
  | None => let res := ev_res (ev_of b x) in let b := log_ran x res b in do_actions (user x res b) b
  end.

(** When a persistent event with a timeout runs next. *)
Definition persist_run_at (x : nat) (b : Base) : timeval :=
  let ev := ev_of b x in
  let now := gettime b in
  let common := is_common_timeout (ev_timeout ev) b in
  let delay := if common then masked (ev_io_timeout ev) else ev_io_timeout ev in
  let usec_mask := if common then Z.ldiff (tv_usec (ev_io_timeout ev)) MICROSECONDS_MASK else 0 in
  let relative_to := if has (ev_res ev) EV_TIMEOUT then (if common then masked (ev_timeout ev) else ev_timeout ev) else now in
  let run_at := evutil_timeradd relative_to delay in
  let run_at := if evutil_timercmp Z.ltb run_at now then evutil_timeradd now delay else run_at in
  {| tv_sec := tv_sec run_at; tv_usec := Z.lor (tv_usec run_at) usec_mask |}.

Definition event_persist_closure (x : nat) (b : Base) : outcome Base :=
  b ← (if evutil_timerisset (ev_io_timeout (ev_of b x)) then
         if negb (is_same_common_timeout (ev_timeout (ev_of b x)) (ev_io_timeout (ev_of b x))) then Undef AssertFail
         else '(_, b) ← event_add_internal x (Some (persist_run_at x b)) true b; Val b
       else Val b);
  ev_callback x b.

(** The loop over [ncalls], which [sig_ncalls] holds; each turn counts it down. *)
Fixpoint signal_loop (fuel x : nat) (b : Base) : outcome Base :=
  let n := f_sig_ncalls (b_flags b) in
  if n =? 0 then Val b
  else
    match fuel with
    | O => Undef Hang
    | S fuel =>
        let n := i16 (n - 1) in
        let b := set_flags (set_sig_ncalls n (b_flags b)) b in
        let b := upd x (put_ncalls n (if n =? 0 then false else ev_pncalls (ev_of b x))) b in
        b ← ev_callback x b;
        if f_break (b_flags b) then
          Val (if negb (f_sig_ncalls (b_flags b) =? 0) then upd x (put_ncalls (ev_ncalls (ev_of b x)) false) b else b)
        else signal_loop fuel x b
    end.
Definition event_signal_closure (x : nat) (b : Base) : outcome Base :=
  let n := ev_ncalls (ev_of b x) in
  let b := set_flags (set_sig_ncalls n (b_flags b)) b in
  let b := if negb (n =? 0) then upd x (put_ncalls n true) b else b in
  signal_loop (Z.to_nat (u16 n)) x b.

Definition run_event (x : nat) (b : Base) : outcome Base :=
  match ev_closure (ev_of b x) with
  | EV_CLOSURE_SIGNAL => event_signal_closure x b
  | EV_CLOSURE_PERSIST => event_persist_closure x b
  | EV_CLOSURE_NONE => ev_callback x b
  end.

(** The events of one priority; [fuel] bounds the callbacks, which may activate events for ever. *)
Fixpoint event_process_active_single_queue (fuel pri : nat) (count : Z) (b : Base) : outcome (Z * Base) :=
  q ← or_undef OutOfBounds (activequeues b !! pri);
  match q with
  | [] => Val (count, b)
  | x :: _ =>
      match fuel with
      | O => Undef Hang
      | S fuel =>
          b ← (if has (ev_events (ev_of b x)) EV_PERSIST then event_queue_remove x EVLIST_ACTIVE b
               else '(_, b) ← event_del_internal x b; Val b);
          let count := if has (ev_flags (ev_of b x)) EVLIST_INTERNAL then count else count + 1 in
          b ← run_event x b;
          if f_break (b_flags b) then Val (-1, b)
          else if f_continue (b_flags b) then Val (count, b)
          else event_process_active_single_queue fuel pri count b
      end
  end.

Fixpoint event_process_deferred_callbacks (n : nat) (b : Base) : outcome Base :=
  match n, deferred b with
  | S n, c :: l =>
      b ← do_actions (user_deferred c (set_deferred l b)) (set_deferred l b);
      if f_break (b_flags b) then Val b else event_process_deferred_callbacks n b
  | _, _ => Val b
  end.

Definition running (p : Z) (b : Base) : Base := set_flags (set_running_priority p (b_flags b)) b.

(** The queues from priority [i] on, of which there are [n]. *)
Fixpoint process_queues (fuel n i : nat) (c : Z) (b : Base) : outcome (Z * Base) :=
  match n with
  | O => Val (c, b)
  | S n =>
      q ← or_undef OutOfBounds (activequeues b !! i);
      match q with
      | [] => process_queues fuel n (S i) c b
      | _ =>
          '(c, b) ← event_process_active_single_queue fuel i 0 (running (Z.of_nat i) b);
          if c =? 0 then process_queues fuel n (S i) c b else Val (c, b)
      end
  end.
Definition event_process_active (fuel : nat) (b : Base) : outcome (Z * Base) :=
  '(c, b) ← process_queues fuel (length (activequeues b)) 0 0 b;
  if c <? 0 then Val (-1, running (-1) b)
  else b ← event_process_deferred_callbacks MAX_DEFERRED b; Val (c, running (-1) b).

(** ** The loop *)

Fixpoint report_ready (l : list (Z * Z)) (b : Base) : outcome Base :=
  match l with
  | [] => Val b
  | (fd, what) :: l =>
      let ev := epoll_events what in
      b ← (if ev =? 0 then Val b else evmap_io_active fd (Z.lor ev EV_ET) b);
      report_ready l b
  end.

(** [epoll_dispatch]; the wait itself takes no part in the result. *)
Definition dispatch (w : Wakeup) (b : Base) : outcome (Z * Base) :=
  match w with
  | WFailed => Val (-1, b)
  | WInterrupted now => Val (0, set_clock now b)
  | WReady ready now => b ← report_ready ready (set_clock now b); Val (0, b)
  end.

Inductive loop_result := Returned (retval : Z) | Waiting (timeout : Z).

Definition set_event_tv (b : Base) : Base :=
  set_times {| t_cache := t_cache (b_times b); t_event_tv := gettime b; t_clock := t_clock (b_times b) |} b.
Definition loop_done (r : Z) (b : Base) : loop_result * Base :=
  let b := clear_time_cache b in (Returned r, set_flags (set_running_loop false (b_flags b)) b).

(** Turns of the loop, one for each wake-up; without one the thread is in epoll_wait. *)
Fixpoint loop_turns (fuel : nat) (flags : Z) (wakeups : list (Base → Wakeup)) (b : Base) : outcome (loop_result * Base) :=
  let b := set_flags (set_stop (f_gotterm (b_flags b)) (f_break (b_flags b)) false (b_flags b)) b in
  if f_gotterm (b_flags b) || f_break (b_flags b) then Val (loop_done 0 b)
  else
    tv ← (if (N_ACTIVE_CALLBACKS b =? 0) && negb (has flags EVLOOP_NONBLOCK) then timeout_next b
          else Val (Some evutil_timerclear));
    if negb (event_haveevents b) && (N_ACTIVE_CALLBACKS b =? 0) then Val (loop_done 1 b)
    else
      let b := clear_time_cache (set_event_tv b) in
      match wakeups with
      | [] => Val (Waiting (epoll_timeout tv), b)
      | w :: wakeups =>
          '(res, b) ← dispatch (w b) b;
          if res =? -1 then Val (loop_done (-1) b)
          else
            b ← timeout_process (update_time_cache b);
            if negb (N_ACTIVE_CALLBACKS b =? 0) then
              '(n, b) ← event_process_active fuel b;
              if has flags EVLOOP_ONCE && (N_ACTIVE_CALLBACKS b =? 0) && negb (n =? 0) then Val (loop_done 0 b)
              else loop_turns fuel flags wakeups b
            else if has flags EVLOOP_NONBLOCK then Val (loop_done 0 b)
            else loop_turns fuel flags wakeups b
      end.

Definition event_base_loop (fuel : nat) (flags : Z) (wakeups : list (Base → Wakeup)) (b : Base) : outcome (loop_result * Base) :=
  if f_running_loop (b_flags b) then Val (Returned (-1), b)
  else
    let b := set_flags (set_running_loop true (b_flags b)) b in
    let b := clear_time_cache b in
    let b := set_flags (set_stop false false (f_continue (b_flags b)) (b_flags b)) b in
    loop_turns fuel flags wakeups b.
End loop.
