(* ===== verification/EvInv.v ===== *)
(** The invariant of an event base (EvBase.v) and what the operations on its queues do
    to it. *)

From Stdlib Require Import Sorted.
From S2P Require Import Prelude EvFlags BufChain EvHeap EvHeapInv EvMap EvMapInv EvBase.

(** ** Flags and lists *)

Lemma has_lor f k j : 0 <= k → 0 <= j → has (Z.lor f (2 ^ k)) (2 ^ j) = has f (2 ^ j) || (k =? j).
Proof. intros. rewrite !has_bit, Z.lor_spec by done. f_equal. by rewrite Z.pow2_bits_eqb. Qed.
Lemma has_ldiff f k j : 0 <= k → 0 <= j → has (Z.ldiff f (2 ^ k)) (2 ^ j) = has f (2 ^ j) && negb (k =? j).
Proof. intros. rewrite !has_bit, Z.ldiff_spec by done. f_equal. by rewrite Z.pow2_bits_eqb. Qed.

(** The queues an event can be on, as bits of [ev_flags]. *)
Inductive queue_bit : Z → Z → Prop :=
  | bit_timeout : queue_bit EVLIST_TIMEOUT 0
  | bit_inserted : queue_bit EVLIST_INSERTED 1
  | bit_active : queue_bit EVLIST_ACTIVE 3
  | bit_internal : queue_bit EVLIST_INTERNAL 4.

Lemma bit_pow q k : queue_bit q k → q = 2 ^ k ∧ 0 <= k.
Proof. by destruct 1. Qed.
Lemma flag_set f q k q' k' : queue_bit q k → queue_bit q' k' → has (Z.lor f q) q' = has f q' || (k =? k').
Proof. intros [-> ?]%bit_pow [-> ?]%bit_pow. by apply has_lor. Qed.
Lemma flag_clear f q k q' k' : queue_bit q k → queue_bit q' k' → has (Z.ldiff f q) q' = has f q' && negb (k =? k').
Proof. intros [-> ?]%bit_pow [-> ?]%bit_pow. by apply has_ldiff. Qed.

Definition flags_ok (f : Z) : Prop := Z.ldiff f EVLIST_ALL = 0.

Lemma flags_ok_set f q k : queue_bit q k → flags_ok f → flags_ok (Z.lor f q).
Proof.
  unfold flags_ok. intros Hq Hf. apply Z.bits_inj'. intros n Hn. apply (f_equal (λ z, Z.testbit z n)) in Hf.
  rewrite Z.ldiff_spec, Z.bits_0 in *. rewrite Z.lor_spec, andb_orb_distrib_l, Hf. cbn [orb].
  assert (Z.ldiff q EVLIST_ALL = 0) as E by by destruct Hq.
  by rewrite <- Z.ldiff_spec, E, Z.bits_0.
Qed.
Lemma flags_ok_clear f q : flags_ok f → flags_ok (Z.ldiff f q).
Proof.
  unfold flags_ok. intros Hf. apply Z.bits_inj'. intros n Hn. apply (f_equal (λ z, Z.testbit z n)) in Hf.
  rewrite Z.ldiff_spec, Z.bits_0 in *. rewrite Z.ldiff_spec. destruct (Z.testbit f n); [|done]. cbn in *. by rewrite Hf, andb_false_r.
Qed.

Lemma concat_insert {A} (ls : list (list A)) i l l' :
  ls !! i = Some l → concat (<[i := l']> ls) ++ l ≡ₚ concat ls ++ l'.
Proof.
  revert i. induction ls as [|k ls IH]; intros [|i] Hi; try done; cbn in *.
  - injection Hi as ->. rewrite (Permutation_app_comm l'), (Permutation_app_comm l), <- !app_assoc.
    apply Permutation_app_head, Permutation_app_comm.
  - rewrite <- !app_assoc. by apply Permutation_app_head, IH.
Qed.
Lemma concat_add {A} (ls : list (list A)) i l x :
  ls !! i = Some l → concat (<[i := l ++ [x]]> ls) ≡ₚ x :: concat ls.
Proof.
  intros Hi. apply (Permutation_app_inv_r l). rewrite (concat_insert ls i l (l ++ [x]) Hi), app_assoc. cbn [app].
  by rewrite <- Permutation_cons_append.
Qed.
Lemma concat_replace (ls : list (list nat)) i l l' x :
  ls !! i = Some l → l ≡ₚ x :: l' → x :: concat (<[i := l']> ls) ≡ₚ concat ls.
Proof.
  intros Hi Hl. apply (Permutation_app_inv_r l'). cbn [app]. rewrite <- (concat_insert ls i l l' Hi), Hl.
  apply Permutation_middle.
Qed.
Lemma concat_grow (ls : list (list nat)) i l l' x :
  ls !! i = Some l → l' ≡ₚ x :: l → concat (<[i := l']> ls) ≡ₚ x :: concat ls.
Proof.
  intros Hi Hl. apply (Permutation_app_inv_r l). rewrite (concat_insert ls i l l' Hi), Hl. cbn [app].
  symmetry. apply Permutation_middle.
Qed.

(** ** Times with the mark of a common timeout *)

Definition common_tv (i : nat) (tv : timeval) : Prop :=
  (i < 256)%nat ∧ ∃ u, 0 <= u < 1000000 ∧ tv_usec tv = (0x500 + Z.of_nat i) * 2 ^ 20 + u.

Lemma land_high a u m k : 0 <= k → 0 <= u < 2 ^ k → Z.land (a * 2 ^ k + u) (m * 2 ^ k) = Z.land a m * 2 ^ k.
Proof.
  intros Hk Hu. rewrite <- !Z.shiftl_mul_pow2 by done. apply Z.bits_inj'. intros n Hn.
  rewrite Z.land_spec, !Z.shiftl_spec by done. destruct (Z.ltb_spec n k).
  - rewrite !(Z.testbit_neg_r _ (n - k)) by lia. apply andb_false_r.
  - rewrite Z.land_spec. f_equal. rewrite Z.shiftl_mul_pow2 by done.
    replace n with (n - k + k) at 1 by lia. rewrite <- Z.div_pow2_bits by lia.
    by rewrite Z.div_add_l, Z.div_small, Z.add_0_r by lia.
Qed.

Lemma common_fields i tv : common_tv i tv →
  Z.land (tv_usec tv) COMMON_TIMEOUT_MASK = COMMON_TIMEOUT_MAGIC ∧ COMMON_TIMEOUT_IDX tv = i ∧
  tv_ok (masked tv) ∧ Z.ldiff (tv_usec tv) MICROSECONDS_MASK = (0x500 + Z.of_nat i) * 2 ^ 20 ∧
  tv_usec tv = Z.land (tv_usec tv) MICROSECONDS_MASK + (0x500 + Z.of_nat i) * 2 ^ 20.
Proof.
  intros (Hi & u & Hu & Heq). unfold COMMON_TIMEOUT_IDX, masked, tv_ok. cbn [tv_usec]. rewrite Heq.
  assert (Z.land ((1280 + Z.of_nat i) * 2 ^ 20 + u) MICROSECONDS_MASK = u) as Hm.
  { change MICROSECONDS_MASK with (Z.ones 20). rewrite Z.land_ones by lia.
    rewrite Z.add_comm, Z.mod_add by lia. apply Z.mod_small. lia. }
  split; [|split; [|split; [|split]]].
  - change COMMON_TIMEOUT_MASK with (0xf00 * 2 ^ 20). rewrite land_high by lia. change 0xf00 with (0xf * 2 ^ 8).
    change 1280 with (5 * 2 ^ 8). by rewrite land_high by lia.
  - change COMMON_TIMEOUT_IDX_MASK with (0xff * 2 ^ 20).
    rewrite land_high by lia. rewrite Z.shiftr_div_pow2, Z.div_mul by lia. change 255 with (Z.ones 8). rewrite Z.land_ones by lia.
    replace (1280 + Z.of_nat i) with (Z.of_nat i + 5 * 2 ^ 8) by lia. rewrite Z.mod_add, Z.mod_small by lia. lia.
  - lia.
  - change MICROSECONDS_MASK with (Z.ones 20). rewrite Z.ldiff_ones_r, Z.shiftr_div_pow2, Z.shiftl_mul_pow2 by lia.
    by rewrite Z.div_add_l, Z.div_small, Z.add_0_r by lia.
  - lia.
Qed.

Lemma normal_fields tv : tv_ok tv →
  Z.land (tv_usec tv) COMMON_TIMEOUT_MASK = 0 ∧ masked tv = tv ∧ Z.ldiff (tv_usec tv) MICROSECONDS_MASK = 0.
Proof.
  unfold tv_ok. intros Hu. split; [|split].
  - change COMMON_TIMEOUT_MASK with (0xf00 * 2 ^ 20). replace (tv_usec tv) with (0 * 2 ^ 20 + tv_usec tv) by lia.
    by rewrite land_high by lia.
  - unfold masked. change MICROSECONDS_MASK with (Z.ones 20). rewrite Z.land_ones, Z.mod_small by lia. by destruct tv.
  - change MICROSECONDS_MASK with (Z.ones 20). rewrite Z.ldiff_ones_r, Z.shiftr_div_pow2, Z.div_small by lia. done.
Qed.

(** ** The invariant *)

Definition on (q : Z) (E : Evs) (x : nat) : Prop := has (ev_flags (E !!! x)) q = true.
Definition marked (n : nat) (tv : timeval) : bool :=
  (Z.land (tv_usec tv) COMMON_TIMEOUT_MASK =? COMMON_TIMEOUT_MAGIC) && (COMMON_TIMEOUT_IDX tv <? n)%nat.

#[global] Instance on_dec q E x : Decision (on q E x).
Proof. unfold on. apply _. Defined.

Lemma marked_common n i tv : common_tv i tv → (i < n)%nat → marked n tv = true ∧ COMMON_TIMEOUT_IDX tv = i.
Proof.
  intros Hc Hi. destruct (common_fields i tv Hc) as (H1 & H2 & _). unfold marked. rewrite H1, H2.
  split; [|done]. destruct (Nat.ltb_spec i n); [done|lia].
Qed.
Lemma marked_normal n tv : tv_ok tv → marked n tv = false.
Proof. intros Hn. destruct (normal_fields tv Hn) as (H1 & _). unfold marked. by rewrite H1. Qed.

(** A time an event can wait for on a base with [n] common timeouts. *)
Definition good_tv (n : nat) (tv : timeval) : Prop := tv_ok tv ∨ ∃ i, (i < n)%nat ∧ common_tv i tv.
(** Two times of the same kind. *)
Definition same_kind (n : nat) (tv tv' : timeval) : Prop :=
  tv_ok tv ∧ tv_ok tv' ∨ ∃ i, (i < n)%nat ∧ common_tv i tv ∧ common_tv i tv'.

(** Earlier deadlines first. *)
Definition in_order (E : Evs) (l : list nat) : Prop := StronglySorted (λ x y, tle (ev_timeout (E !!! x)) (ev_timeout (E !!! y))) l.

(** Events are on the heap or in the queue of their common timeout, which is in order. *)
Record timeouts_ok (E : Evs) (h : min_heap) (cs : list Ctl) : Prop := {
  to_heap : heap_ok E h;
  to_in x : x ∈ live h ↔ on EVLIST_TIMEOUT E x ∧ marked (length cs) (ev_timeout (E !!! x)) = false;
  to_tv x : on EVLIST_TIMEOUT E x → good_tv (length cs) (ev_timeout (E !!! x));
  to_ctl i c : cs !! i = Some c → NoDup (ctl_events c) ∧ ∀ x, x ∈ ctl_events c ↔
    on EVLIST_TIMEOUT E x ∧ marked (length cs) (ev_timeout (E !!! x)) = true ∧ COMMON_TIMEOUT_IDX (ev_timeout (E !!! x)) = i;
  to_sorted i c : cs !! i = Some c → in_order E (ctl_events c) }.

Record inserted_ok (E : Evs) (l : list nat) : Prop := {
  in_nodup : NoDup l;
  in_iff x : x ∈ l ↔ on EVLIST_INSERTED E x }.

Record active_ok (E : Evs) (qs : list (list nat)) (n : Z) : Prop := {
  ac_queue p q : qs !! p = Some q → NoDup q ∧ ∀ x, x ∈ q ↔ on EVLIST_ACTIVE E x ∧ ev_pri (E !!! x) = p;
  ac_count : n = Zlen (concat qs) }.

Definition visible (E : Evs) (x : nat) : bool := negb (has (ev_flags (E !!! x)) EVLIST_INTERNAL).
Definition total (E : Evs) (q : Queues) : Z :=
  count (visible E) (q_eventqueue q) + count (visible E) (concat (q_activequeues q)) +
  count (visible E) (live (q_timeheap q)) + count (visible E) (concat (ctl_events <$> q_ctls q)).

Definition is_io (e : Event) : bool := has (ev_events e) (Z.lor EV_READ EV_WRITE).

(** What does not change while an event is added, with [p] priorities. *)
Record event_good (p : nat) (e : Event) : Prop := {
  eg_flags : flags_ok (ev_flags e);
  eg_fd : ev_fd e < 2 ^ 30;
  eg_signal : has (ev_events e) EV_SIGNAL = true → is_io e = false → 0 <= ev_fd e;
  eg_pri : (ev_pri e < p)%nat }.

Section inv.
Context {HM : Malloc} {HE : EventOp} {HL : EventOpLaws}.

Record core_ok (b : Base) : Prop := {
  co_events x : event_good (length (activequeues b)) (ev_of b x);
  co_timeouts : timeouts_ok (evs b) (timeheap b) (ctls b);
  co_inserted : inserted_ok (evs b) (eventqueue b);
  co_active : active_ok (evs b) (activequeues b) (event_count_active b);
  co_count : event_count b = total (evs b) (b_queues b);
  co_times : tv_ok (tv_cache b) ∧ tv_ok (clock b) }.

Definition sig_events (m : slot_map (list nat)) (sig : Z) : list nat :=
  match znth m sig with Some (Some l) => l | _ => [] end.

(** The maps hold the events of [ins], and the backend watches for them. *)
Record maps_ok (ins : nat → Prop) (E : Evs) (i : slot_map evmap_io) (s : slot_map (list nat)) (k : bk) : Prop := {
  mo_io : io_ok E i;
  mo_sync : in_sync i k;
  mo_io_in x fd : x ∈ fd_events i fd ↔ ins x ∧ is_io (E !!! x) = true ∧ ev_fd (E !!! x) = fd ∧ 0 <= fd;
  mo_sig_nodup sig : NoDup (sig_events s sig);
  mo_sig_in x sig : x ∈ sig_events s sig ↔ ins x ∧ is_io (E !!! x) = false ∧ ev_fd (E !!! x) = sig }.

Record base_ok (b : Base) : Prop := {
  bo_core : core_ok b;
  bo_maps : maps_ok (on EVLIST_INSERTED (evs b)) (evs b) (io b) (sigmap b) (backend b) }.

(** ** Changes that leave a part alone *)

Lemma heap_ok_ext E E' h :
  (∀ x, x ∈ live h → ev_timeout (E' !!! x) = ev_timeout (E !!! x) ∧ min_heap_idx (E' !!! x) = min_heap_idx (E !!! x)) →
  heap_ok E h → heap_ok E' h.
Proof.
  intros He Hh. pose proof (hp_size _ _ Hh). assert (∀ i, (i < mh_n h)%nat → mh_p h !!! i ∈ live h) as Hin.
  { intros i Hi. apply list_elem_of_lookup. exists i. unfold live. rewrite lookup_take_lt by lia.
    apply list_lookup_lookup_total_lt. lia. }
  split; [done|..].
  - intros i Hi. unfold edge, key. pose proof (par_lt i ltac:(lia)). 
    rewrite (proj1 (He _ (Hin (par i) ltac:(lia)))), (proj1 (He _ (Hin i ltac:(lia)))). by apply (hp_order _ _ Hh).
  - intros i Hi. rewrite (proj2 (He _ (Hin i Hi))). by apply (hp_slots _ _ Hh).
Qed.

Lemma in_order_ext E E' l : (∀ x, x ∈ l → ev_timeout (E' !!! x) = ev_timeout (E !!! x)) → in_order E l → in_order E' l.
Proof.
  unfold in_order. induction 2 as [|x l Hs IH HF]; constructor; [apply IH; intros y Hy; auto with comet; apply H; by right|].
  apply Forall_forall. intros y Hy. rewrite !H by (by left + by right). by eapply Forall_forall in HF.
Qed.

Lemma timeouts_ext E E' h cs :
  (∀ x, on EVLIST_TIMEOUT E' x ↔ on EVLIST_TIMEOUT E x) →
  (∀ x, on EVLIST_TIMEOUT E x → ev_timeout (E' !!! x) = ev_timeout (E !!! x) ∧ min_heap_idx (E' !!! x) = min_heap_idx (E !!! x)) →
  timeouts_ok E h cs → timeouts_ok E' h cs.
Proof.
  intros Ho He [H1 H2 H3 H4 H5]. split.
  - apply (heap_ok_ext E); [|done]. intros x Hx. apply He. by apply H2.
  - intros x. rewrite H2, Ho. split; intros [Hx Hm]; (split; [done|]); destruct (He x Hx) as [Et _]; congruence.
  - intros x Hx. rewrite Ho in Hx. rewrite (proj1 (He x Hx)). auto.
  - intros i c Hc. destruct (H4 i c Hc) as [Hnd Hin]. split; [done|]. intros x. rewrite Hin, Ho.
    split; intros (Hx & Hm & Hi); (split; [done|]); destruct (He x Hx) as [Et _]; rewrite Et in *; done.
  - intros i c Hc. apply (in_order_ext E); [|by apply (H5 i)]. intros x Hx. apply He. by apply (H4 i c Hc).
Qed.

Lemma inserted_ext E E' l : (∀ x, on EVLIST_INSERTED E' x ↔ on EVLIST_INSERTED E x) → inserted_ok E l → inserted_ok E' l.
Proof. intros Ho [H1 H2]. split; [done|]. intros x. by rewrite H2, Ho. Qed.

Lemma active_ext E E' qs n :
  (∀ x, on EVLIST_ACTIVE E' x ↔ on EVLIST_ACTIVE E x) → (∀ x, on EVLIST_ACTIVE E x → ev_pri (E' !!! x) = ev_pri (E !!! x)) →
  active_ok E qs n → active_ok E' qs n.
Proof.
  intros Ho Hp [H1 H2]. split; [|done]. intros p q Hq. destruct (H1 p q Hq) as [Hnd Hin]. split; [done|].
  intros x. rewrite Hin, Ho. split; intros [Hx Hx2]; (split; [done|]); rewrite (Hp x Hx) in *; done.
Qed.

Lemma total_ext E E' q : (∀ x, visible E' x = visible E x) → total E' q = total E q.
Proof. intros Hv. unfold total. f_equal; [f_equal; [f_equal|]|]; by apply count_ext. Qed.

Lemma io_ok_ext E E' i :
  (∀ fd x, x ∈ fd_events i fd → ev_fd (E' !!! x) = ev_fd (E !!! x) ∧ ev_events (E' !!! x) = ev_events (E !!! x)) →
  io_ok E i → io_ok E' i.
Proof.
  intros He Hio fd. destruct (Hio fd) as [H1 H2 H3 H4 H5]. split; try done.
  - intros x Hx. rewrite (proj1 (He fd x Hx)). auto.
  - rewrite H3. apply count_ext. intros x Hx. unfold reads. by rewrite (proj2 (He fd x Hx)).
  - rewrite H4. apply count_ext. intros x Hx. unfold writes. by rewrite (proj2 (He fd x Hx)).
Qed.

Lemma maps_ext (ins ins' : nat → Prop) E E' i s k :
  (∀ x, ins' x ↔ ins x) → (∀ x, ins x → ev_fd (E' !!! x) = ev_fd (E !!! x) ∧ ev_events (E' !!! x) = ev_events (E !!! x)) →
  maps_ok ins E i s k → maps_ok ins' E' i s k.
Proof.
  intros Ho He [H1 H2 H3 H4 H5]. split; try done.
  - apply (io_ok_ext E); [|done]. intros fd x Hx. apply He. by apply H3 in Hx as [? _].
  - intros x fd. rewrite H3, Ho. unfold is_io. split; intros (Hx & Hr); (split; [done|]); destruct (He x Hx) as [Ef Ee]; rewrite Ef, Ee in *; done.
  - intros x sig. rewrite H5, Ho. unfold is_io. split; intros (Hx & Hr); (split; [done|]); destruct (He x Hx) as [Ef Ee]; rewrite Ef, Ee in *; done.
Qed.

(** ** One flag of one event *)

(** Everything of an event but its flags and its slot on the heap. *)
Definition body (e : Event) :=
  (ev_fd e, ev_events e, ev_res e, ev_pri e, ev_closure e, ev_timeout e, ev_io_timeout e, ev_ncalls e, ev_pncalls e).
(** What the operations on queues leave alone. *)
Definition ctl_shape (c : Ctl) : timeval * nat := (ctl_duration c, ctl_timeout_event c).
Definition aux (b : Base) := (b_times b, deferred b, ran b, ctl_shape <$> ctls b, length (activequeues b)).
Definition maps (b : Base) := (io b, sigmap b, backend b).

Definition flip (q : Z) (v : bool) (f : Z) : Z := if v then Z.lor f q else Z.ldiff f q.

Record flipped (x : nat) (q : Z) (v : bool) (b b' : Base) : Prop := {
  fl_body y : body (ev_of b' y) = body (ev_of b y);
  fl_flags y : ev_flags (ev_of b' y) = if decide (y = x) then flip q v (ev_flags (ev_of b y)) else ev_flags (ev_of b y);
  fl_aux : aux b' = aux b;
  fl_maps : maps b' = maps b;
  fl_stop : b_flags b' = b_flags b }.

Lemma has_flip f q k v q' k' : queue_bit q k → queue_bit q' k' →
  has (flip q v f) q' = if k =? k' then v else has f q'.
Proof.
  intros H1 H2. unfold flip. destruct v; [rewrite (flag_set f q k q' k') by done|rewrite (flag_clear f q k q' k') by done].
  - destruct (k =? k'); [apply orb_true_r|apply orb_false_r].
  - destruct (k =? k'); [apply andb_false_r|apply andb_true_r].
Qed.
Lemma flags_ok_flip f q k v : queue_bit q k → flags_ok f → flags_ok (flip q v f).
Proof. intros Hq Hf. destruct v; [by eapply flags_ok_set|by apply flags_ok_clear]. Qed.

Lemma body_good p e e' : body e' = body e → flags_ok (ev_flags e') → event_good p e → event_good p e'.
Proof.
  unfold body. intros [= E1 E2 E3 E4 E5 E6 E7 E8 E9] Hf [H1 H2 H3 H4].
  split; unfold is_io in *; rewrite ?E1, ?E2, ?E4; done.
Qed.

Lemma aux_ctls b b' : aux b' = aux b → length (ctls b') = length (ctls b).
Proof. unfold aux. intros [= _ _ _ E _]. apply (f_equal length) in E. by rewrite !length_fmap in E. Qed.
Lemma aux_pris b b' : aux b' = aux b → length (activequeues b') = length (activequeues b).
Proof. by intros [= _ _ _ _ E]. Qed.

Section flip.
Context (x : nat) (q k : Z) (v : bool) (b b' : Base) (Hq : queue_bit q k) (Hfl : flipped x q v b b').

Lemma flipped_events : core_ok b → ∀ y, event_good (length (activequeues b')) (ev_of b' y).
Proof.
  intros Hb y. rewrite (aux_pris _ _ (fl_aux _ _ _ _ _ Hfl)).
  apply (body_good _ (ev_of b y)); [apply (fl_body _ _ _ _ _ Hfl)| |apply Hb]. rewrite (fl_flags _ _ _ _ _ Hfl).
  pose proof (eg_flags _ _ (co_events _ Hb y)). case_decide; [by eapply flags_ok_flip|done].
Qed.

Lemma flipped_on q' k' y : queue_bit q' k' →
  on q' (evs b') y ↔ if decide (y = x ∧ k = k') then v = true else on q' (evs b) y.
Proof.
  intros Hq'. unfold on. change (evs b' !!! y) with (ev_of b' y). change (evs b !!! y) with (ev_of b y).
  rewrite (fl_flags _ _ _ _ _ Hfl). destruct (decide (y = x)) as [->|Hne].
  - rewrite (has_flip _ q k v q' k') by done. destruct (Z.eqb_spec k k') as [->|Hk].
    + by rewrite decide_True.
    + by rewrite decide_False by naive_solver.
  - by rewrite decide_False by naive_solver.
Qed.
Lemma flipped_other q' k' y : queue_bit q' k' → k ≠ k' → on q' (evs b') y ↔ on q' (evs b) y.
Proof. intros Hq' Hk. rewrite (flipped_on q' k') by done. by rewrite decide_False by naive_solver. Qed.
Lemma flipped_self y : on q (evs b') y ↔ if decide (y = x) then v = true else on q (evs b) y.
Proof. rewrite (flipped_on q k) by done. do 2 case_decide; naive_solver. Qed.
Lemma flipped_visible y : k ≠ 4 → visible (evs b') y = visible (evs b) y.
Proof.
  intros Hk. pose proof (flipped_other EVLIST_INTERNAL 4 y bit_internal Hk) as Ho. unfold visible. f_equal.
  apply eq_true_iff_eq. exact Ho.
Qed.
End flip.

Lemma body_fd e e' : body e' = body e → ev_fd e' = ev_fd e ∧ ev_events e' = ev_events e.
Proof. by intros [= -> -> _]. Qed.
Lemma body_pri e e' : body e' = body e → ev_pri e' = ev_pri e.
Proof. by intros [= _ _ _ -> _]. Qed.
Lemma body_timeout e e' : body e' = body e → ev_timeout e' = ev_timeout e.
Proof. by intros [= _ _ _ _ _ -> _]. Qed.

Lemma flipped_active x q k v b b' n : queue_bit q k → k ≠ 3 → flipped x q v b b' →
  active_ok (evs b) (activequeues b) n → active_ok (evs b') (activequeues b) n.
Proof.
  intros Hq Hk Hf. apply active_ext.
  - intros y. eapply flipped_other; [done..|constructor|done].
  - intros y _. apply body_pri, (fl_body _ _ _ _ _ Hf).
Qed.
Lemma flipped_inserted x q k v b b' l : queue_bit q k → k ≠ 1 → flipped x q v b b' →
  inserted_ok (evs b) l → inserted_ok (evs b') l.
Proof. intros Hq Hk Hf. apply inserted_ext. intros y. eapply flipped_other; [done..|constructor|done]. Qed.
Lemma flipped_timeouts x q k v b b' h cs : queue_bit q k → k ≠ 0 → flipped x q v b b' →
  (∀ y, min_heap_idx (ev_of b' y) = min_heap_idx (ev_of b y)) →
  timeouts_ok (evs b) h cs → timeouts_ok (evs b') h cs.
Proof.
  intros Hq Hk Hf Hi. apply timeouts_ext.
  - intros y. eapply flipped_other; [done..|constructor|done].
  - intros y _. split; [apply body_timeout, (fl_body _ _ _ _ _ Hf)|apply Hi].
Qed.
Lemma flipped_maps x q k v b b' : queue_bit q k → k ≠ 1 → flipped x q v b b' →
  maps_ok (on EVLIST_INSERTED (evs b)) (evs b) (io b) (sigmap b) (backend b) →
  maps_ok (on EVLIST_INSERTED (evs b')) (evs b') (io b') (sigmap b') (backend b').
Proof.
  intros Hq Hk Hf. pose proof (fl_maps _ _ _ _ _ Hf) as [= -> -> ->]. apply maps_ext.
  - intros y. eapply flipped_other; [done..|constructor|done].
  - intros y _. apply body_fd, (fl_body _ _ _ _ _ Hf).
Qed.

(** ** The operations on the queues *)

Lemma ev_of_upd x f b y : ev_of (upd x f b) y = if decide (y = x) then f (ev_of b x) else ev_of b y.
Proof.
  unfold ev_of, upd. cbn [evs set_evs]. case_decide as E; [subst; by rewrite lookup_total_insert_eq|].
  by rewrite lookup_total_insert_ne.
Qed.

Definition seen (b : Base) (x : nat) (d : Z) : Z := if visible (evs b) x then d else 0.

Lemma count_event_eq x d b : count_event x d b = set_counts (event_count b + seen b x d) (event_count_active b) b.
Proof.
  unfold count_event, seen, visible. change (evs b !!! x) with (ev_of b x). destruct (negb _); [done|].
  rewrite Z.add_0_r. by destruct b.
Qed.

(** The event with one flag changed and counted, before the queue itself changes. *)
Definition reflag (x : nat) (q : Z) (v : bool) (d : Z) (b : Base) : Base :=
  upd x (put_flags (flip q v (ev_flags (ev_of b x)))) (set_counts (event_count b + seen b x d) (event_count_active b) b).

Lemma reflag_flipped x q v d b : flipped x q v b (reflag x q v d b).
Proof.
  split; try done; intros y; unfold reflag; rewrite ev_of_upd; case_decide; subst; done.
Qed.
Lemma reflag_idx x q v d b y : min_heap_idx (ev_of (reflag x q v d b) y) = min_heap_idx (ev_of b y).
Proof. unfold reflag. rewrite ev_of_upd. by case_decide; subst. Qed.

Lemma seen_opp b x : seen b x (-1) = - seen b x 1.
Proof. unfold seen. by destruct (visible _ _). Qed.
Lemma count_seen b x l : count (visible (evs b)) (x :: l) = seen b x 1 + count (visible (evs b)) l.
Proof. apply count_cons. Qed.

Lemma not_on q b x : ¬ on q (evs b) x → has (ev_flags (ev_of b x)) q = false.
Proof. unfold on. by destruct (has _ _). Qed.

Lemma idx_only_body E E' y : idx_only E E' → body (E' !!! y) = body (E !!! y) ∧ ev_flags (E' !!! y) = ev_flags (E !!! y).
Proof. intros Hi. by rewrite (Hi y). Qed.

(** A base whose event [x] changed one flag, and one queue with it. *)
Lemma core_requeue x q k v d b b' :
  core_ok b → queue_bit q k → k ≠ 4 → idx_only (evs (reflag x q v d b)) (evs b') →
  (maps b', b_flags b', b_times b', deferred b', ran b') = (maps b, b_flags b, b_times b, deferred b, ran b) →
  ctl_shape <$> ctls b' = ctl_shape <$> ctls b → length (activequeues b') = length (activequeues b) →
  event_count b' = event_count b + seen b x d →
  total (evs b) (b_queues b') = total (evs b) (b_queues b) + seen b x d →
  (flipped x q v b b' → timeouts_ok (evs b') (timeheap b') (ctls b') ∧ inserted_ok (evs b') (eventqueue b') ∧
    active_ok (evs b') (activequeues b') (event_count_active b')) →
  core_ok b' ∧ flipped x q v b b'.
Proof.
  intros Hb Hq Hk Hi Hsame Hcs Hpri Hcnt Htot Hparts. injection Hsame as E1 E2 E3 E4 E5 E6 E7.
  assert (flipped x q v b b') as Hf.
  { pose proof (reflag_flipped x q v d b) as [F1 F2 _ _ _]. split.
    - intros y. rewrite <- F1. apply (idx_only_body _ _ y Hi).
    - intros y. rewrite <- F2. apply (idx_only_body _ _ y Hi).
    - unfold aux. congruence.
    - unfold maps. congruence.
    - done. }
  split; [|done]. destruct (Hparts Hf) as (Ht & Hin & Hac). split; try done.
  - by apply (flipped_events x q k v b b' Hq Hf Hb).
  - rewrite (total_ext (evs b)) by (intros y; by apply (flipped_visible x q k v b b' Hq Hf)).
    by rewrite Htot, Hcnt, (co_count _ Hb).
  - unfold tv_cache, clock. rewrite E5. apply Hb.
Qed.

Lemma insert_inserted_spec x b : core_ok b → ¬ on EVLIST_INSERTED (evs b) x →
  ∃ b', event_queue_insert x EVLIST_INSERTED b = Val b' ∧ core_ok b' ∧ flipped x EVLIST_INSERTED true b b' ∧
    (timeheap b', activequeues b', event_count_active b', ctls b') = (timeheap b, activequeues b, event_count_active b, ctls b).
Proof.
  intros Hb Hx. unfold event_queue_insert. rewrite (not_on _ _ _ Hx), count_event_eq.
  set (b1 := upd x _ _). change b1 with (reflag x EVLIST_INSERTED true 1 b). clear b1.
  change (EVLIST_INSERTED =? EVLIST_INSERTED) with true. cbv iota. eexists. split; [done|].
  destruct (co_inserted _ Hb) as [I1 I2]. assert (x ∉ eventqueue b) as Hnx by by rewrite I2.
  set (b2 := set_queues _ _). assert (core_ok b2 ∧ flipped x EVLIST_INSERTED true b b2) as [H1 H2]; [|done].
  apply (core_requeue x _ 1 true 1 b); try done; [constructor|apply idx_only_refl|..].
  - change (total (evs b) (set_eventqueue (eventqueue b ++ [x]) (b_queues b)) = total (evs b) (b_queues b) + seen b x 1).
    unfold total. cbn [q_eventqueue q_activequeues q_timeheap q_ctls set_eventqueue]. change (q_eventqueue (b_queues b)) with (eventqueue b).
    rewrite count_app, count_seen. change (count (visible (evs b)) []) with 0. lia.
  - intros Hf. split; [|split].
    + apply (flipped_timeouts _ _ _ _ b _ _ _ bit_inserted ltac:(done) Hf); [apply reflag_idx|apply Hb].
    + pose proof (flipped_self x _ 1 true b _ bit_inserted Hf) as Hon. split.
      * apply NoDup_app. split; [done|]. split; [by intros y Hy ->%list_elem_of_singleton|apply NoDup_singleton].
      * intros y. rewrite Hon. change (y ∈ eventqueue b ++ [x] ↔ if decide (y = x) then true = true else on EVLIST_INSERTED (evs b) y).
        rewrite elem_of_app, list_elem_of_singleton, I2. case_decide; naive_solver.
    + apply (flipped_active _ _ _ _ b _ _ bit_inserted ltac:(done) Hf), Hb.
Qed.

Lemma remove_inserted_spec x b : core_ok b → on EVLIST_INSERTED (evs b) x →
  ∃ b', event_queue_remove x EVLIST_INSERTED b = Val b' ∧ core_ok b' ∧ flipped x EVLIST_INSERTED false b b' ∧
    (timeheap b', activequeues b', event_count_active b', ctls b') = (timeheap b, activequeues b, event_count_active b, ctls b).
Proof.
  intros Hb Hx. unfold event_queue_remove. unfold on in Hx. change (evs b !!! x) with (ev_of b x) in Hx. rewrite Hx, count_event_eq. cbn [negb].
  set (b1 := upd x _ _). change b1 with (reflag x EVLIST_INSERTED false (-1) b). clear b1.
  change (EVLIST_INSERTED =? EVLIST_INSERTED) with true. cbv iota. eexists. split; [done|].
  destruct (co_inserted _ Hb) as [I1 I2]. assert (x ∈ eventqueue b) as Hnx by by apply I2.
  set (b2 := set_queues _ _). assert (core_ok b2 ∧ flipped x EVLIST_INSERTED false b b2) as [H1 H2]; [|done].
  apply (core_requeue x _ 1 false (-1) b); try done; [constructor|apply idx_only_refl|..].
  - change (total (evs b) (set_eventqueue (tailq_remove x (eventqueue b)) (b_queues b)) = total (evs b) (b_queues b) + seen b x (-1)).
    unfold total. cbn [q_eventqueue q_activequeues q_timeheap q_ctls set_eventqueue].
    change (q_eventqueue (b_queues b)) with (eventqueue b). rewrite (count_remove _ x (eventqueue b)), seen_opp by done.
    unfold seen. lia.
  - intros Hf. split; [|split].
    + apply (flipped_timeouts _ _ _ _ b _ _ _ bit_inserted ltac:(done) Hf); [apply reflag_idx|apply Hb].
    + pose proof (flipped_self x _ 1 false b _ bit_inserted Hf) as Hon. split; [by apply nodup_remove|].
      intros y. rewrite Hon. change (y ∈ tailq_remove x (eventqueue b) ↔ if decide (y = x) then false = true else on EVLIST_INSERTED (evs b) y).
      rewrite elem_remove, I2. case_decide; naive_solver.
    + apply (flipped_active _ _ _ _ b _ _ bit_inserted ltac:(done) Hf), Hb.
Qed.

Lemma insert_active_spec x b : core_ok b → ¬ on EVLIST_ACTIVE (evs b) x →
  ∃ b' q, event_queue_insert x EVLIST_ACTIVE b = Val b' ∧ core_ok b' ∧ flipped x EVLIST_ACTIVE true b b' ∧
    activequeues b !! ev_pri (ev_of b x) = Some q ∧ activequeues b' = <[ev_pri (ev_of b x) := q ++ [x]]> (activequeues b) ∧
    timeheap b' = timeheap b.
Proof.
  intros Hb Hx. unfold event_queue_insert. rewrite (not_on _ _ _ Hx), count_event_eq.
  set (b1 := upd x _ _). change b1 with (reflag x EVLIST_ACTIVE true 1 b). clear b1.
  change (EVLIST_ACTIVE =? EVLIST_INSERTED) with false. change (EVLIST_ACTIVE =? EVLIST_ACTIVE) with true. cbv iota.
  set (b1 := reflag x EVLIST_ACTIVE true 1 b).
  change (activequeues (set_counts _ _ b1)) with (activequeues b). change (ev_of (set_counts _ _ b1) x) with (ev_of b1 x).
  assert (ev_pri (ev_of b1 x) = ev_pri (ev_of b x)) as Ep by apply body_pri, (reflag_flipped x EVLIST_ACTIVE true 1 b). rewrite Ep.
  pose proof (eg_pri _ _ (co_events _ Hb x)) as Hp. destruct (lookup_lt_is_Some_2 _ _ Hp) as [q Hq]. rewrite Hq.
  cbn [or_undef mbind outcome_bind]. set (b2 := set_queues _ _). exists b2, q. split; [done|].
  assert (core_ok b2 ∧ flipped x EVLIST_ACTIVE true b b2) as [H1 H2]; [|done].
  destruct (co_active _ Hb) as [A1 A2]. destruct (A1 _ _ Hq) as [Q1 Q2].
  apply (core_requeue x _ 3 true 1 b); try done; [constructor|apply idx_only_refl|by apply length_insert|..].
  - change (total (evs b) (set_activequeues (<[ev_pri (ev_of b x) := q ++ [x]]> (activequeues b)) (b_queues b)) =
      total (evs b) (b_queues b) + seen b x 1).
    unfold total. cbn [q_eventqueue q_activequeues q_timeheap q_ctls set_activequeues].
    rewrite (count_perm _ _ _ (concat_add _ _ _ x Hq)), count_seen. change (q_activequeues (b_queues b)) with (activequeues b). lia.
  - intros Hf. split; [|split].
    + apply (flipped_timeouts _ _ _ _ b _ _ _ bit_active ltac:(done) Hf); [apply reflag_idx|apply Hb].
    + apply (flipped_inserted _ _ _ _ b _ _ bit_active ltac:(done) Hf), Hb.
    + pose proof (flipped_self x _ 3 true b _ bit_active Hf) as Hon. split.
      * intros p q' Hpq. change (<[ev_pri (ev_of b x) := q ++ [x]]> (activequeues b) !! p = Some q') in Hpq.
        assert (∀ y, ev_pri (evs b1 !!! y) = ev_pri (ev_of b y)) as Epy by (intros y; apply body_pri, (reflag_flipped x EVLIST_ACTIVE true 1 b)).
        change (NoDup q' ∧ ∀ y, y ∈ q' ↔ on EVLIST_ACTIVE (evs b1) y ∧ ev_pri (evs b1 !!! y) = p).
        assert (∀ y, on EVLIST_ACTIVE (evs b1) y ↔ y = x ∨ on EVLIST_ACTIVE (evs b) y) as Hon'.
        { intros y. etransitivity; [apply Hon|]. case_decide; naive_solver. }
        destruct (decide (p = ev_pri (ev_of b x))) as [->|Hne].
        -- rewrite list_lookup_insert_eq in Hpq by done. injection Hpq as <-. split.
           { apply NoDup_app. split; [done|]. split; [|apply NoDup_singleton]. intros y Hy ->%list_elem_of_singleton. by apply Q2 in Hy as [? _]. }
           intros y. rewrite elem_of_app, list_elem_of_singleton, Q2, Hon', Epy. change (evs b !!! y) with (ev_of b y). naive_solver.
        -- rewrite list_lookup_insert_ne in Hpq by done. destruct (A1 _ _ Hpq) as [R1 R2]. split; [done|].
           intros y. rewrite R2, Hon', Epy. change (evs b !!! y) with (ev_of b y). naive_solver.
      * change (event_count_active b + 1 = Zlen (concat (<[ev_pri (ev_of b x) := q ++ [x]]> (activequeues b)))).
        rewrite A2. unfold Zlen. rewrite (Permutation_length (concat_add _ _ _ x Hq)). cbn [length]. lia.
Qed.

Lemma remove_active_spec x b : core_ok b → on EVLIST_ACTIVE (evs b) x →
  ∃ b' q, event_queue_remove x EVLIST_ACTIVE b = Val b' ∧ core_ok b' ∧ flipped x EVLIST_ACTIVE false b b' ∧
    activequeues b !! ev_pri (ev_of b x) = Some q ∧ activequeues b' = <[ev_pri (ev_of b x) := tailq_remove x q]> (activequeues b) ∧
    timeheap b' = timeheap b ∧ event_count_active b' = event_count_active b - 1.
Proof.
  intros Hb Hx. unfold event_queue_remove. unfold on in Hx. change (evs b !!! x) with (ev_of b x) in Hx. rewrite Hx, count_event_eq. cbn [negb].
  set (b1 := upd x _ _). change b1 with (reflag x EVLIST_ACTIVE false (-1) b). clear b1.
  change (EVLIST_ACTIVE =? EVLIST_INSERTED) with false. change (EVLIST_ACTIVE =? EVLIST_ACTIVE) with true. cbv iota.
  set (b1 := reflag x EVLIST_ACTIVE false (-1) b).
  change (activequeues (set_counts _ _ b1)) with (activequeues b). change (ev_of (set_counts _ _ b1) x) with (ev_of b1 x).
  assert (ev_pri (ev_of b1 x) = ev_pri (ev_of b x)) as Ep by apply body_pri, (reflag_flipped x EVLIST_ACTIVE false (-1) b). rewrite Ep.
  pose proof (eg_pri _ _ (co_events _ Hb x)) as Hp. destruct (lookup_lt_is_Some_2 _ _ Hp) as [q Hq]. rewrite Hq.
  cbn [or_undef mbind outcome_bind]. set (b2 := set_queues _ _). exists b2, q. split; [done|].
  assert (core_ok b2 ∧ flipped x EVLIST_ACTIVE false b b2) as [H1 H2]; [|done].
  destruct (co_active _ Hb) as [A1 A2]. destruct (A1 _ _ Hq) as [Q1 Q2].
  assert (x ∈ q) as Hxq by by apply Q2. pose proof (concat_replace _ _ _ _ x Hq (remove_perm x q Q1 Hxq)) as Hperm.
  apply (core_requeue x _ 3 false (-1) b); try done; [constructor|apply idx_only_refl|by apply length_insert|..].
  - change (total (evs b) (set_activequeues (<[ev_pri (ev_of b x) := tailq_remove x q]> (activequeues b)) (b_queues b)) =
      total (evs b) (b_queues b) + seen b x (-1)).
    unfold total. cbn [q_eventqueue q_activequeues q_timeheap q_ctls set_activequeues].
    change (q_activequeues (b_queues b)) with (activequeues b). rewrite <- (count_perm _ _ _ Hperm), count_seen, seen_opp. lia.
  - intros Hf. split; [|split].
    + apply (flipped_timeouts _ _ _ _ b _ _ _ bit_active ltac:(done) Hf); [apply reflag_idx|apply Hb].
    + apply (flipped_inserted _ _ _ _ b _ _ bit_active ltac:(done) Hf), Hb.
    + pose proof (flipped_self x _ 3 false b _ bit_active Hf) as Hon. split.
      * intros p q' Hpq. change (<[ev_pri (ev_of b x) := tailq_remove x q]> (activequeues b) !! p = Some q') in Hpq.
        assert (∀ y, ev_pri (evs b1 !!! y) = ev_pri (ev_of b y)) as Epy by (intros y; apply body_pri, (reflag_flipped x EVLIST_ACTIVE false (-1) b)).
        change (NoDup q' ∧ ∀ y, y ∈ q' ↔ on EVLIST_ACTIVE (evs b1) y ∧ ev_pri (evs b1 !!! y) = p).
        assert (∀ y, on EVLIST_ACTIVE (evs b1) y ↔ y ≠ x ∧ on EVLIST_ACTIVE (evs b) y) as Hon'.
        { intros y. etransitivity; [apply Hon|]. case_decide; naive_solver. }
        destruct (decide (p = ev_pri (ev_of b x))) as [->|Hne].
        -- rewrite list_lookup_insert_eq in Hpq by done. injection Hpq as <-. split; [by apply nodup_remove|].
           intros y. rewrite elem_remove, Q2, Hon', Epy. change (evs b !!! y) with (ev_of b y). naive_solver.
        -- rewrite list_lookup_insert_ne in Hpq by done. destruct (A1 _ _ Hpq) as [R1 R2]. split; [done|].
           intros y. rewrite R2, Hon', Epy. change (evs b !!! y) with (ev_of b y). naive_solver.
      * change (event_count_active b - 1 = Zlen (concat (<[ev_pri (ev_of b x) := tailq_remove x q]> (activequeues b)))).
        rewrite A2. unfold Zlen. rewrite <- (Permutation_length Hperm). cbn [length]. lia.
Qed.

(** *** Timeouts *)

Lemma fmap_alter_events (cs : list Ctl) i l c : cs !! i = Some c →
  ctl_events <$> alter (λ c, {| ctl_events := l; ctl_duration := ctl_duration c; ctl_timeout_event := ctl_timeout_event c |}) i cs =
  <[i := l]> (ctl_events <$> cs).
Proof.
  revert i. induction cs as [|d cs IH]; intros [|i] Hi; try done.
  cbn in *. f_equal. by apply IH.
Qed.
Lemma fmap_alter_shape (cs : list Ctl) i l :
  ctl_shape <$> alter (λ c, {| ctl_events := l; ctl_duration := ctl_duration c; ctl_timeout_event := ctl_timeout_event c |}) i cs =
  ctl_shape <$> cs.
Proof. revert i. induction cs as [|d cs IH]; intros [|i]; try done; cbn in *. f_equal. apply IH. Qed.

(** The queues of timeouts when [x] has joined or left. *)
Lemma timeouts_moved E E' h h' cs cs' x v :
  timeouts_ok E h cs → (∀ y, ev_timeout (E' !!! y) = ev_timeout (E !!! y)) → length cs' = length cs → heap_ok E' h' →
  (∀ y, on EVLIST_TIMEOUT E' y ↔ if decide (y = x) then v = true else on EVLIST_TIMEOUT E y) →
  good_tv (length cs) (ev_timeout (E !!! x)) →
  (∀ y, y ∈ live h' ↔ if decide (y = x) then v = true ∧ marked (length cs) (ev_timeout (E !!! x)) = false else y ∈ live h) →
  (∀ i c', cs' !! i = Some c' → ∃ c, cs !! i = Some c ∧ NoDup (ctl_events c') ∧ in_order E (ctl_events c') ∧
     ∀ y, y ∈ ctl_events c' ↔ if decide (y = x) then v = true ∧ marked (length cs) (ev_timeout (E !!! x)) = true ∧
       COMMON_TIMEOUT_IDX (ev_timeout (E !!! x)) = i else y ∈ ctl_events c) →
  timeouts_ok E' h' cs'.
Proof.
  intros [T1 T2 T3 T4 T5] Et El Hh Hon Hg Hl Hc. split; [done|..].
  - intros y. rewrite Hl, Hon, El, Et. case_decide; [by subst|apply T2].
  - intros y. rewrite Hon, El, Et. case_decide; [by subst|apply T3].
  - intros i c' Hc'. destruct (Hc i c' Hc') as (c & Hlk & Hnd & _ & Hin). split; [done|]. destruct (T4 i c Hlk) as [_ H4].
    intros y. rewrite Hin, Hon, El, Et. case_decide; [by subst|apply H4].
  - intros i c' Hc'. destruct (Hc i c' Hc') as (c & _ & _ & Hs & _). apply (in_order_ext E); [|done]. intros y _. apply Et.
Qed.

(** One common timeout gets another list. *)
Definition relisted (i : nat) (l : list nat) (b : Base) : Base := set_queues (set_ctl_events i l (b_queues b)) b.

Lemma relisted_lookup i l b c j c' : ctls b !! i = Some c → ctls (relisted i l b) !! j = Some c' →
  ∃ c0, ctls b !! j = Some c0 ∧ ctl_events c' = if decide (j = i) then l else ctl_events c0.
Proof.
  intros Hc Hc'. change (ctls (relisted i l b)) with (alter (λ c, {| ctl_events := l; ctl_duration := ctl_duration c;
    ctl_timeout_event := ctl_timeout_event c |}) i (ctls b)) in Hc'. destruct (decide (j = i)) as [->|Hne].
  - rewrite list_lookup_alter_eq, Hc in Hc'. injection Hc' as <-. by exists c.
  - rewrite list_lookup_alter_ne in Hc' by done. by exists c'.
Qed.

(** The core of a base whose event [x] joined or left the common timeout [i]. *)
Lemma core_relisted x (v : bool) i l b c :
  let d := if v then 1 else -1 in
  core_ok b → good_tv (length (ctls b)) (ev_timeout (ev_of b x)) → marked (length (ctls b)) (ev_timeout (ev_of b x)) = true →
  COMMON_TIMEOUT_IDX (ev_timeout (ev_of b x)) = i → ctls b !! i = Some c → x ∉ live (timeheap b) →
  (if v then l ≡ₚ x :: ctl_events c else ctl_events c ≡ₚ x :: l) → NoDup l → in_order (evs b) l →
  (∀ j c', ctls b !! j = Some c' → j ≠ i → x ∉ ctl_events c') →
  let b' := relisted i l (reflag x EVLIST_TIMEOUT v d b) in core_ok b' ∧ flipped x EVLIST_TIMEOUT v b b'.
Proof.
  intros d Hb Hg Em Ei Hc Hx Hl Hnd Hso Helse b'. pose proof (reflag_flipped x EVLIST_TIMEOUT v d b) as Hf1.
  assert (∀ y, ev_timeout (evs b' !!! y) = ev_timeout (evs b !!! y)) as Et by (intros y; apply body_timeout, Hf1).
  apply (core_requeue x _ 0 v d b); try done; [constructor|apply idx_only_refl|apply fmap_alter_shape|..].
  - assert (ctl_events <$> ctls b' = <[i := l]> (ctl_events <$> ctls b)) as Hev by (by apply (fmap_alter_events _ _ _ c)).
    assert ((ctl_events <$> ctls b) !! i = Some (ctl_events c)) as Hlk by by rewrite list_lookup_fmap, Hc.
    unfold total. change (q_ctls (b_queues b')) with (ctls b'). rewrite Hev. change (q_ctls (b_queues b)) with (ctls b).
    change (q_eventqueue (b_queues b')) with (q_eventqueue (b_queues b)). change (q_activequeues (b_queues b')) with (q_activequeues (b_queues b)).
    change (q_timeheap (b_queues b')) with (q_timeheap (b_queues b)). unfold d. destruct v.
    + rewrite (count_perm _ _ _ (concat_grow _ _ _ _ x Hlk Hl)), count_seen. lia.
    + rewrite <- (count_perm _ _ _ (concat_replace _ _ _ _ x Hlk Hl)), count_seen, seen_opp. lia.
  - intros Hf. split; [|split].
    2: { apply (flipped_inserted _ _ _ _ b _ _ bit_timeout ltac:(done) Hf), Hb. }
    2: { apply (flipped_active _ _ _ _ b _ _ bit_timeout ltac:(done) Hf), Hb. }
    apply (timeouts_moved (evs b) _ (timeheap b) _ (ctls b) _ x v); try done; [apply Hb|apply aux_ctls, Hf| |..].
    + apply (heap_ok_ext (evs b)); [|apply Hb]. intros y _. split; [apply Et|apply reflag_idx].
    + apply (flipped_self x _ 0 v b _ bit_timeout Hf).
    + intros y. change (live (timeheap b')) with (live (timeheap b)). case_decide; [subst y|done].
      change (evs b !!! x) with (ev_of b x). rewrite Em. split; [done|by intros [_ ?]].
    + intros j c' Hc'. destruct (relisted_lookup i l (reflag x EVLIST_TIMEOUT v d b) c j c' Hc Hc') as (c0 & Hc0 & ->).
      change (ctls (reflag x EVLIST_TIMEOUT v d b)) with (ctls b) in Hc0. exists c0. split; [done|].
      change (evs b !!! x) with (ev_of b x). rewrite Em, Ei. destruct (decide (j = i)) as [->|Hne].
      * rewrite Hc in Hc0. injection Hc0 as <-. split; [done|]. split; [done|]. intros y. destruct v.
        -- rewrite Hl, elem_of_cons. case_decide; [subst; split; [done|by left]|split; [by intros [?|?]|by right]].
        -- assert (y ∈ ctl_events c ↔ y = x ∨ y ∈ l) as Hy by (rewrite Hl; apply elem_of_cons).
           assert (x ∉ l) as Hxl.
           { assert (NoDup (x :: l)) as [? _]%NoDup_cons; [|done]. rewrite <- Hl. apply (to_ctl _ _ _ (co_timeouts _ Hb) i c Hc). }
           case_decide; [subst y; split; [done|by intros [? _]]|]. rewrite Hy. split; [by right|by intros [?|?]].
      * split; [apply (to_ctl _ _ _ (co_timeouts _ Hb) j c0 Hc0)|]. split; [apply (to_sorted _ _ _ (co_timeouts _ Hb) j c0 Hc0)|].
        intros y. case_decide; [subst y|done]. split; [intros Hy; by destruct (Helse j c0 Hc0 Hne)|by intros (_ & _ & <-)].
Qed.

(** The core of a base whose event [x] joined or left the heap. *)
Lemma core_reheaped x (v : bool) h' E' b :
  let d := if v then 1 else -1 in
  core_ok b → tv_ok (ev_timeout (ev_of b x)) → heap_ok E' h' → idx_only (evs (reflag x EVLIST_TIMEOUT v d b)) E' →
  (if v then live h' ≡ₚ x :: live (timeheap b) else x :: live h' ≡ₚ live (timeheap b)) →
  (∀ i c, ctls b !! i = Some c → x ∉ ctl_events c) →
  let b' := set_queues (set_timeheap h' (b_queues (reflag x EVLIST_TIMEOUT v d b))) (set_evs E' (reflag x EVLIST_TIMEOUT v d b)) in
  core_ok b' ∧ flipped x EVLIST_TIMEOUT v b b'.
Proof.
  intros d Hb Htv Hh Hi Hl Hc b'. pose proof (marked_normal (length (ctls b)) _ Htv) as Em.
  apply (core_requeue x _ 0 v d b); try done; [constructor|..].
  - change (total (evs b) (set_timeheap h' (b_queues b)) = total (evs b) (b_queues b) + seen b x d).
    unfold total. cbn [q_eventqueue q_activequeues q_timeheap q_ctls set_timeheap]. change (q_timeheap (b_queues b)) with (timeheap b).
    unfold d. destruct v; [rewrite (count_perm _ _ _ Hl), count_seen|rewrite <- (count_perm _ _ _ Hl), count_seen, seen_opp]; lia.
  - intros Hf. split; [|split].
    2: { apply (flipped_inserted _ _ _ _ b _ _ bit_timeout ltac:(done) Hf), Hb. }
    2: { apply (flipped_active _ _ _ _ b _ _ bit_timeout ltac:(done) Hf), Hb. }
    apply (timeouts_moved (evs b) _ (timeheap b) _ (ctls b) _ x v); try done; [apply Hb|..].
    + intros y. apply body_timeout, (fl_body _ _ _ _ _ Hf).
    + apply (flipped_self x _ 0 v b _ bit_timeout Hf).
    + by left.
    + intros y. change (live (timeheap b')) with (live h'). change (evs b !!! x) with (ev_of b x). rewrite Em. destruct v.
      * rewrite Hl, elem_of_cons. case_decide; [subst; split; [done|by left]|split; [by intros [?|?]|by right]].
      * assert (y ∈ live (timeheap b) ↔ y = x ∨ y ∈ live h') as Hy by (rewrite <- Hl; apply elem_of_cons).
        assert (x ∉ live h') as Hxl.
        { assert (NoDup (x :: live h')) as [? _]%NoDup_cons; [|done]. rewrite Hl. apply (heap_nodup (evs b)), Hb. }
        case_decide; [subst y; split; [done|by intros [? _]]|]. rewrite Hy. split; [by right|by intros [?|?]].
    + intros i c Hc'. change (ctls b' !! i) with (ctls b !! i) in Hc'. exists c. split; [done|].
      split; [apply (to_ctl _ _ _ (co_timeouts _ Hb) i c Hc')|]. split; [apply (to_sorted _ _ _ (co_timeouts _ Hb) i c Hc')|].
      intros y. change (evs b !!! x) with (ev_of b x). rewrite Em. case_decide; [subst y|done].
      split; [intros Hy; by destruct (Hc i c Hc')|by intros (_ & ? & _)].
Qed.

Lemma in_order_remove E x l : in_order E l → in_order E (tailq_remove x l).
Proof.
  unfold in_order, tailq_remove. induction 1 as [|y l Hs IH HF]; [constructor|]. destruct (decide (y ≠ x)).
  - rewrite filter_cons_True by done. constructor; [done|]. apply Forall_forall. intros z [_ Hz]%list_elem_of_filter. by eapply Forall_forall in HF.
  - by rewrite filter_cons_False.
Qed.

(** The queue of the common timeout an event waits for. *)
Lemma own_ctl x b : core_ok b → marked (length (ctls b)) (ev_timeout (ev_of b x)) = true →
  ∃ c, ctls b !! COMMON_TIMEOUT_IDX (ev_timeout (ev_of b x)) = Some c ∧ NoDup (ctl_events c) ∧ (x ∈ ctl_events c ↔ on EVLIST_TIMEOUT (evs b) x) ∧
    x ∉ live (timeheap b) ∧ ∀ j c', ctls b !! j = Some c' → j ≠ COMMON_TIMEOUT_IDX (ev_timeout (ev_of b x)) → x ∉ ctl_events c'.
Proof.
  intros Hb Em. assert (is_Some (ctls b !! COMMON_TIMEOUT_IDX (ev_timeout (ev_of b x)))) as [c Hc].
  { apply lookup_lt_is_Some. unfold marked in Em. by apply andb_true_iff in Em as [_ Em%Nat.ltb_lt]. }
  destruct (co_timeouts _ Hb) as [T1 T2 T3 T4 T5]. destruct (T4 _ _ Hc) as [C1 C2]. exists c. split; [done|]. split; [done|].
  split; [rewrite C2; split; [by intros [? _]|intros Hx; split; [exact Hx|split; [exact Em|done]]]|]. split.
  - rewrite T2. change (evs b !!! x) with (ev_of b x). rewrite Em. by intros [_ ?].
  - intros j c' Hc' Hne. rewrite (proj2 (T4 j c' Hc')). intros (_ & _ & <-). by apply Hne.
Qed.
Lemma normal_no_ctl x b : core_ok b → tv_ok (ev_timeout (ev_of b x)) → ∀ i c, ctls b !! i = Some c → x ∉ ctl_events c.
Proof.
  intros Hb Htv i c Hc. rewrite (proj2 (to_ctl _ _ _ (co_timeouts _ Hb) i c Hc)). change (evs b !!! x) with (ev_of b x).
  rewrite marked_normal by done. by intros (_ & ? & _).
Qed.

(** [event_queue_remove] and [event_queue_insert] for the queue of timeouts. *)
Lemma remove_timeout_unfold x b : on EVLIST_TIMEOUT (evs b) x →
  let b1 := reflag x EVLIST_TIMEOUT false (-1) b in
  event_queue_remove x EVLIST_TIMEOUT b =
    if marked (length (ctls b)) (ev_timeout (ev_of b x)) then
      c ← or_undef OutOfBounds (ctls b !! COMMON_TIMEOUT_IDX (ev_timeout (ev_of b x)));
      Val (relisted (COMMON_TIMEOUT_IDX (ev_timeout (ev_of b x))) (tailq_remove x (ctl_events c)) b1)
    else '(_, h, e) ← min_heap_erase (timeheap b) x (evs b1); Val (set_queues (set_timeheap h (b_queues b1)) (set_evs e b1)).
Proof.
  intros Hx b1. unfold event_queue_remove. unfold on in Hx. change (evs b !!! x) with (ev_of b x) in Hx. rewrite Hx, count_event_eq. cbn [negb].
  set (b0 := upd x _ _). change b0 with b1. clear b0. change (EVLIST_TIMEOUT =? EVLIST_INSERTED) with false.
  change (EVLIST_TIMEOUT =? EVLIST_ACTIVE) with false. change (EVLIST_TIMEOUT =? EVLIST_TIMEOUT) with true. cbv iota.
  assert (ev_timeout (ev_of b1 x) = ev_timeout (ev_of b x)) as -> by apply body_timeout, (reflag_flipped x EVLIST_TIMEOUT false (-1) b). done.
Qed.
Lemma insert_timeout_unfold x b : ¬ on EVLIST_TIMEOUT (evs b) x →
  let b1 := reflag x EVLIST_TIMEOUT true 1 b in
  event_queue_insert x EVLIST_TIMEOUT b =
    if marked (length (ctls b)) (ev_timeout (ev_of b x)) then
      c ← or_undef OutOfBounds (ctls b !! COMMON_TIMEOUT_IDX (ev_timeout (ev_of b x)));
      l ← insert_common_timeout_inorder b1 (ctl_events c) x;
      Val (relisted (COMMON_TIMEOUT_IDX (ev_timeout (ev_of b x))) l b1)
    else '(_, h, e) ← min_heap_push (timeheap b) x (evs b1); Val (set_queues (set_timeheap h (b_queues b1)) (set_evs e b1)).
Proof.
  intros Hx b1. unfold event_queue_insert. rewrite (not_on _ _ _ Hx), count_event_eq.
  set (b0 := upd x _ _). change b0 with b1. clear b0. change (EVLIST_TIMEOUT =? EVLIST_INSERTED) with false.
  change (EVLIST_TIMEOUT =? EVLIST_ACTIVE) with false. change (EVLIST_TIMEOUT =? EVLIST_TIMEOUT) with true. cbv iota.
  assert (ev_timeout (ev_of b1 x) = ev_timeout (ev_of b x)) as -> by apply body_timeout, (reflag_flipped x EVLIST_TIMEOUT true 1 b). done.
Qed.

(** An event leaves the heap or its queue. *)
Lemma remove_timeout_spec x b : core_ok b → on EVLIST_TIMEOUT (evs b) x →
  ∃ b', event_queue_remove x EVLIST_TIMEOUT b = Val b' ∧ core_ok b' ∧ flipped x EVLIST_TIMEOUT false b b' ∧
    activequeues b' = activequeues b ∧
    (length (mh_p (timeheap b')) = length (mh_p (timeheap b)) ∧ (mh_n (timeheap b') <= mh_n (timeheap b))%nat) ∧
    (if marked (length (ctls b)) (ev_timeout (ev_of b x)) then timeheap b' = timeheap b
     else x :: live (timeheap b') ≡ₚ live (timeheap b)).
Proof.
  intros Hb Hx. rewrite (remove_timeout_unfold x b Hx). pose proof (to_tv _ _ _ (co_timeouts _ Hb) x Hx) as Hg.
  change (evs b !!! x) with (ev_of b x) in Hg. destruct (marked _ _) eqn:Em.
  - destruct (own_ctl x b Hb Em) as (c & Hc & Hnd & Hin & Hxl & Helse). rewrite Hc. cbn [or_undef mbind outcome_bind].
    eexists. split; [done|]. destruct (core_relisted x false _ (tailq_remove x (ctl_events c)) b c Hb Hg Em eq_refl Hc Hxl) as [K1 K2]; try done.
    + apply remove_perm; [done|]. by apply Hin.
    + by apply nodup_remove.
    + apply in_order_remove, (to_sorted _ _ _ (co_timeouts _ Hb) _ _ Hc).
  - assert (tv_ok (ev_timeout (ev_of b x))) as Htv.
    { destruct Hg as [?|(i & Hi & Hc)]; [done|]. by rewrite (proj1 (marked_common _ i _ Hc Hi)) in Em. }
    pose proof (to_heap _ _ _ (co_timeouts _ Hb)) as Hh. set (b1 := reflag x EVLIST_TIMEOUT false (-1) b).
    assert (heap_ok (evs b1) (timeheap b)) as Hh1.
    { apply (heap_ok_ext (evs b)); [|exact Hh]. intros y _. split; [apply body_timeout, (reflag_flipped x EVLIST_TIMEOUT false (-1) b)|apply reflag_idx]. }
    destruct (heap_erase_spec (timeheap b) x (evs b1) Hh1) as (h' & E' & -> & K1 & K2 & K3 & K4 & _); [by apply Hb|].
    cbn [mbind outcome_bind]. eexists. split; [done|].
    destruct (core_reheaped x false h' E' b Hb Htv K1 K3 K2 (normal_no_ctl x b Hb Htv)) as [H1 H2].
    split; [done|]. split; [done|]. split; [done|]. split; [|done]. split; [done|]. apply Permutation_length in K2. cbn [length] in K2.
    rewrite !length_live in K2 by (apply K1 || apply Hh). cbn [timeheap b_queues set_queues set_timeheap q_timeheap]. change (q_timeheap (b_queues b)) with (timeheap b). lia.
Qed.

Lemma same_kind_check n tv tv' : same_kind n tv tv' → is_same_common_timeout tv tv' = true.
Proof.
  unfold is_same_common_timeout. intros [[H1 H2]|(i & _ & H1 & H2)].
  - destruct (normal_fields _ H1) as (_ & _ & ->), (normal_fields _ H2) as (_ & _ & ->). done.
  - destruct (common_fields _ _ H1) as (_ & _ & _ & -> & _), (common_fields _ _ H2) as (_ & _ & _ & -> & _). apply Z.eqb_refl.
Qed.

(** Two marked times of the same queue. *)
Lemma marked_kind n tv tv' : good_tv n tv → good_tv n tv' → marked n tv = true → marked n tv' = true →
  COMMON_TIMEOUT_IDX tv = COMMON_TIMEOUT_IDX tv' → same_kind n tv tv'.
Proof.
  intros [H1|(i & Hi & H1)] [H2|(j & Hj & H2)] M1 M2 E; try (by rewrite marked_normal in M1); try (by rewrite marked_normal in M2).
  destruct (marked_common n i tv H1 Hi) as [_ E1], (marked_common n j tv' H2 Hj) as [_ E2].
  right. exists i. split; [done|]. split; [done|]. rewrite E1, E2 in E. by subst.
Qed.

Lemma sorted_snoc {A} (R : A → A → Prop) l x : StronglySorted R l → (∀ y, y ∈ l → R y x) → StronglySorted R (l ++ [x]).
Proof.
  induction 1 as [|y l Hs IH HF]; intros Hx; cbn; [repeat constructor|]. constructor; [apply IH; intros z Hz; apply Hx; by right|].
  apply Forall_app. split; [done|]. apply Forall_singleton, Hx. by left.
Qed.
Lemma sorted_reverse {A} (R : A → A → Prop) l : StronglySorted R l → StronglySorted (λ x y, R y x) (reverse l).
Proof.
  induction 1 as [|x l Hs IH HF]; [constructor|]. rewrite reverse_cons. apply sorted_snoc; [done|].
  intros y Hy. rewrite elem_of_reverse in Hy. by eapply Forall_forall in HF.
Qed.
Lemma timercmp_ge a b : if evutil_timercmp Z.geb a b then tle b a else tle a b.
Proof. unfold evutil_timercmp. destruct (_ =? _) eqn:E; destruct (_ >=? _) eqn:E2; rewrite tle_iff; zbool; lia. Qed.

Definition later_first (b : Base) (y z : nat) : Prop := tle (ev_timeout (ev_of b z)) (ev_timeout (ev_of b y)).

Lemma insert_from_end_spec b x rl :
  (∀ e, e ∈ rl → is_same_common_timeout (ev_timeout (ev_of b e)) (ev_timeout (ev_of b x)) = true) → StronglySorted (later_first b) rl →
  ∃ r, insert_from_end b x rl = Val r ∧ r ≡ₚ x :: rl ∧ StronglySorted (later_first b) r.
Proof.
  intros Hs. induction 1 as [|e rl Hrl IH HF]; cbn [insert_from_end]; [exists [x]; repeat constructor|].
  rewrite (Hs e) by by left. cbn [negb]. pose proof (timercmp_ge (ev_timeout (ev_of b x)) (ev_timeout (ev_of b e))) as Hc.
  destruct (evutil_timercmp _ _ _).
  - eexists. split; [done|]. split; [done|]. constructor; [by constructor|]. constructor; [done|]. apply Forall_forall. intros y Hy.
    eapply Forall_forall in HF; [|exact Hy]. unfold later_first in *. by eapply tle_trans.
  - destruct IH as (r & -> & Hr & Hsr); [intros e' He'; apply Hs; by right|]. cbn [mbind outcome_bind].
    eexists. split; [done|]. split; [rewrite Hr; apply perm_swap|]. constructor; [done|]. rewrite Hr. by constructor.
Qed.

Lemma insert_inorder_spec b l x :
  (∀ e, e ∈ l → is_same_common_timeout (ev_timeout (ev_of b e)) (ev_timeout (ev_of b x)) = true) → in_order (evs b) l →
  ∃ l', insert_common_timeout_inorder b l x = Val l' ∧ l' ≡ₚ x :: l ∧ in_order (evs b) l'.
Proof.
  intros Hs Ho. unfold insert_common_timeout_inorder. destruct (insert_from_end_spec b x (reverse l)) as (r & -> & Hr & Hsr).
  - intros e He. apply Hs. by rewrite elem_of_reverse in He.
  - by apply sorted_reverse in Ho.
  - cbn [mbind outcome_bind]. eexists. split; [done|]. split; [by rewrite !reverse_Permutation in *|]. by apply sorted_reverse in Hsr.
Qed.

(** An event joins the queue of its common timeout. *)
Lemma insert_common_spec x b : core_ok b → ¬ on EVLIST_TIMEOUT (evs b) x → good_tv (length (ctls b)) (ev_timeout (ev_of b x)) →
  marked (length (ctls b)) (ev_timeout (ev_of b x)) = true →
  ∃ b', event_queue_insert x EVLIST_TIMEOUT b = Val b' ∧ core_ok b' ∧ flipped x EVLIST_TIMEOUT true b b' ∧
    activequeues b' = activequeues b ∧ timeheap b' = timeheap b.
Proof.
  intros Hb Hx Hg Em. rewrite (insert_timeout_unfold x b Hx), Em. destruct (own_ctl x b Hb Em) as (c & Hc & Hnd & Hin & Hxl & Helse).
  rewrite Hc. cbn [or_undef mbind outcome_bind]. set (b1 := reflag x EVLIST_TIMEOUT true 1 b).
  assert (∀ y, ev_timeout (ev_of b1 y) = ev_timeout (ev_of b y)) as Et by (intros y; apply body_timeout, (reflag_flipped x EVLIST_TIMEOUT true 1 b)).
  destruct (insert_inorder_spec b1 (ctl_events c) x) as (l & -> & Hl & Hs).
  - intros e He. destruct (to_ctl _ _ _ (co_timeouts _ Hb) _ _ Hc) as [_ C2]. apply C2 in He as (He1 & He2 & He3). rewrite !Et.
    apply (same_kind_check (length (ctls b))). apply marked_kind; try done. by apply (to_tv _ _ _ (co_timeouts _ Hb)).
  - apply (in_order_ext (evs b)); [intros y _; apply Et|apply (to_sorted _ _ _ (co_timeouts _ Hb) _ _ Hc)].
  - cbn [mbind outcome_bind]. eexists. split; [done|].
    destruct (core_relisted x true _ l b c Hb Hg Em eq_refl Hc Hxl) as [K1 K2]; try done.
    + rewrite Hl. apply NoDup_cons. split; [by rewrite Hin|done].
    + apply (in_order_ext (evs b1)); [intros y _; symmetry; apply Et|done].
Qed.

(** An event joins the heap, which has a free slot. *)
Lemma insert_heap_spec x b : core_ok b → ¬ on EVLIST_TIMEOUT (evs b) x → tv_ok (ev_timeout (ev_of b x)) →
  (mh_n (timeheap b) < length (mh_p (timeheap b)))%nat →
  ∃ b', event_queue_insert x EVLIST_TIMEOUT b = Val b' ∧ core_ok b' ∧ flipped x EVLIST_TIMEOUT true b b' ∧
    activequeues b' = activequeues b ∧ live (timeheap b') ≡ₚ x :: live (timeheap b).
Proof.
  intros Hb Hx Htv Hroom. rewrite (insert_timeout_unfold x b Hx), marked_normal by done. set (b1 := reflag x EVLIST_TIMEOUT true 1 b).
  assert (heap_ok (evs b1) (timeheap b)) as Hh1.
  { apply (heap_ok_ext (evs b)); [|apply Hb]. intros y _. split; [apply body_timeout, (reflag_flipped x EVLIST_TIMEOUT true 1 b)|apply reflag_idx]. }
  assert (x ∉ live (timeheap b)) as Hxl by (rewrite (to_in _ _ _ (co_timeouts _ Hb)); by intros [? _]).
  destruct (heap_push_spec (timeheap b) x (evs b1) Hh1 Hxl Hroom) as (h' & E' & -> & K1 & K2 & K3 & _). cbn [mbind outcome_bind].
  eexists. split; [done|]. destruct (core_reheaped x true h' E' b Hb Htv K1 K3 K2 (normal_no_ctl x b Hb Htv)) as [H1 H2]. done.
Qed.

(** ** Changes of fields *)

(** What the queues and maps know of an event. *)
Record agree (E E' : Evs) : Prop := {
  ag_on q k y : queue_bit q k → k ≠ 4 → on q E' y ↔ on q E y;
  ag_timeout y : on EVLIST_TIMEOUT E y → ev_timeout (E' !!! y) = ev_timeout (E !!! y) ∧ min_heap_idx (E' !!! y) = min_heap_idx (E !!! y);
  ag_pri y : on EVLIST_ACTIVE E y → ev_pri (E' !!! y) = ev_pri (E !!! y);
  ag_fd y : on EVLIST_INSERTED E y → ev_fd (E' !!! y) = ev_fd (E !!! y) ∧ ev_events (E' !!! y) = ev_events (E !!! y);
  ag_visible y : on EVLIST_TIMEOUT E y ∨ on EVLIST_ACTIVE E y ∨ on EVLIST_INSERTED E y → visible E' y = visible E y }.

Lemma total_agree b E' : core_ok b → agree (evs b) E' → total E' (b_queues b) = total (evs b) (b_queues b).
Proof.
  intros Hb Ha. unfold total. f_equal; [f_equal; [f_equal|]|]; apply count_ext; intros y Hy; apply (ag_visible _ _ Ha).
  - right; right. by apply (co_inserted _ Hb).
  - right; left. apply list_elem_of_In, in_concat in Hy as (q & Hq & Hy). apply list_elem_of_In in Hq, Hy.
    apply list_elem_of_lookup in Hq as [p Hp]. by apply (ac_queue _ _ _ (co_active _ Hb) p q Hp) in Hy as [? _].
  - left. by apply (co_timeouts _ Hb) in Hy as [? _].
  - left. apply list_elem_of_In, in_concat in Hy as (q & Hq & Hy). apply list_elem_of_In in Hq, Hy.
    apply list_elem_of_lookup in Hq as [i Hi]. rewrite list_lookup_fmap in Hi. apply fmap_Some in Hi as (c & Hc & ->).
    by apply (to_ctl _ _ _ (co_timeouts _ Hb) i c Hc) in Hy as [? _].
Qed.

Lemma core_agree b b' :
  core_ok b → agree (evs b) (evs b') → b_queues b' = b_queues b → event_count b' = event_count b →
  event_count_active b' = event_count_active b → tv_ok (tv_cache b') ∧ tv_ok (clock b') →
  (∀ y, event_good (length (activequeues b)) (ev_of b' y)) → core_ok b'.
Proof.
  intros Hb Ha Hq Hn Hm Ht Hg. split; try done; unfold ctls, activequeues, timeheap, eventqueue in *; rewrite ?Hq.
  - done.
  - apply (timeouts_ext (evs b)); [|apply Ha|apply Hb]. intros y. apply (ag_on _ _ Ha _ 0); [constructor|done].
  - apply (inserted_ext (evs b)); [|apply Hb]. intros y. apply (ag_on _ _ Ha _ 1); [constructor|done].
  - rewrite Hm. apply (active_ext (evs b)); [|apply Ha|apply Hb]. intros y. apply (ag_on _ _ Ha _ 3); [constructor|done].
  - rewrite Hn, (total_agree b) by done. apply Hb.
Qed.

Lemma base_agree b b' :
  base_ok b → agree (evs b) (evs b') → b_queues b' = b_queues b → event_count b' = event_count b →
  event_count_active b' = event_count_active b → maps b' = maps b → tv_ok (tv_cache b') ∧ tv_ok (clock b') →
  (∀ y, event_good (length (activequeues b)) (ev_of b' y)) → base_ok b'.
Proof.
  intros [Hb Hm] Ha Hq Hn Hc Hmaps Ht Hg. split; [by apply (core_agree b)|].
  injection Hmaps as -> -> ->. apply (maps_ext (on EVLIST_INSERTED (evs b)) _ (evs b)); [|apply Ha|done].
  intros y. apply (ag_on _ _ Ha _ 1); [constructor|done].
Qed.

(** The fields the queues and maps depend on. *)
Definition qview (e : Event) := (ev_flags e, ev_timeout e, min_heap_idx e, ev_pri e, ev_fd e, ev_events e).

Lemma agree_view E E' : (∀ y, qview (E' !!! y) = qview (E !!! y)) → agree E E'.
Proof.
  intros Hv. assert (∀ y, ev_flags (E' !!! y) = ev_flags (E !!! y)) as Hf by (intros y; by injection (Hv y)).
  split; unfold on, visible; intros; rewrite ?Hf; try done; by injection (Hv y).
Qed.

(** An update of [x] that the queues do not see. *)
Lemma upd_view x f b :
  base_ok b → qview (f (ev_of b x)) = qview (ev_of b x) →
  event_good (length (activequeues b)) (f (ev_of b x)) → base_ok (upd x f b).
Proof.
  intros Hb Hv Hg. apply (base_agree b); try done.
  - apply agree_view. intros y. change (qview (ev_of (upd x f b) y) = qview (ev_of b y)). rewrite ev_of_upd. by case_decide; subst.
  - apply Hb.
  - intros y. rewrite ev_of_upd. case_decide; [done|apply Hb].
Qed.
Lemma base_flags f b : base_ok b → base_ok (set_flags f b).
Proof. intros Hb. apply (base_agree b); first [by apply agree_view|done|apply Hb]. Qed.

(** The deadline of an event that waits for none. *)
Lemma upd_deadline x tv b :
  base_ok b → ¬ on EVLIST_TIMEOUT (evs b) x → base_ok (upd x (put_timeout tv) b).
Proof.
  intros Hb Hx. apply (base_agree b); try done.
  - assert (∀ y, evs (upd x (put_timeout tv) b) !!! y = if decide (y = x) then put_timeout tv (ev_of b x) else evs b !!! y) as He
      by (intros y; apply ev_of_upd).
    split; unfold on, visible; intros; rewrite !He; case_decide; subst; try done.
  - apply Hb.
  - intros y. rewrite ev_of_upd. case_decide; [subst y|apply Hb].
    destruct (co_events _ (bo_core _ Hb) x) as [G1 G2 G3 G4 G5]. by split.
Qed.
End inv.
