(* ===== verification/EvDel.v ===== *)
(** Activating and deleting events keeps the invariant of a base (the operations of
    EvBase.v). *)

From S2P Require Import Prelude EvFlags BufChain EvHeap EvHeapInv EvMap EvMapInv EvBase EvInv.

Section ops.
Context {HM : Malloc} {HE : EventOp} {HL : EventOpLaws}.

(** ** The maps *)

Lemma sig_insert (m : slot_map (list nat)) sig l sig' : 0 <= sig < Zlen m →
  sig_events (<[Z.to_nat sig := Some l]> m) sig' = if decide (sig' = sig) then l else sig_events m sig'.
Proof.
  intros Hs. unfold sig_events, znth, Zlen in *. destruct (Z.ltb_spec sig' 0).
  - by case_decide; [lia|].
  - case_decide as E; [subst; by rewrite list_lookup_insert_eq by lia|]. by rewrite list_lookup_insert_ne by lia.
Qed.
Lemma sig_grown (m : slot_map (list nat)) n sig : sig_events (m ++ replicate n None) sig = sig_events m sig.
Proof.
  unfold sig_events, znth. destruct (Z.ltb_spec sig 0); [done|].
  destruct (decide (Z.to_nat sig < length m)%nat) as [Hl|Hl]; [by rewrite lookup_app_l|].
  rewrite (lookup_ge_None_2 m) by lia. rewrite lookup_app_r by lia.
  destruct (replicate n None !! _) as [o|] eqn:E; [|done]. apply lookup_replicate in E as [-> _]. done.
Qed.

Lemma signal_add_spec sig x m k : 0 <= sig < 2 ^ 30 →
  ∃ rc m' k', evmap_signal_add sig x m k = Val (rc, m', k') ∧ (∀ fd, bk_watch k' fd = bk_watch k fd) ∧
    (rc = -1 ∧ (∀ s, sig_events m' s = sig_events m s) ∨
     rc = 1 ∧ ∀ s, sig_events m' s = if decide (s = sig) then sig_events m sig ++ [x] else sig_events m s).
Proof.
  intros Hs. unfold evmap_signal_add.
  assert (∃ o, (if sig >=? Zlen m then evmap_make_space m sig else Val (Some m)) = Val o ∧
    match o with None => True | Some m' => sig < Zlen m' ∧ ∃ n, m' = m ++ replicate n None end) as (o & -> & Ho).
  { destruct (Z.geb_spec sig (Zlen m)) as [Hge|Hlt]; [apply make_space_spec; lia|]. exists (Some m). split; [done|]. split; [done|].
    exists 0%nat. by rewrite app_nil_r. }
  cbn [mbind outcome_bind]. destruct o as [m1|]; [|exists (-1), m, k; auto]. destruct Ho as (Hl & n & Hm1).
  assert (∀ s, sig_events m1 s = sig_events m s) as G by (intros s; rewrite Hm1; apply sig_grown).
  unfold slot_and_ctor. destruct (znth_lt m1 sig ltac:(lia)) as [o Ho]. rewrite Ho. cbn [or_undef mbind outcome_bind].
  set (ctx := match o with Some l => l | None => [] end).
  assert (sig_events m sig = ctx) as Ectx by (rewrite <- G; unfold sig_events, ctx; rewrite Ho; by destruct o).
  assert (∃ o', match o with Some l => Val (Some (l, m1)) | None => if malloc_ok 16 then Val (Some (evmap_signal_init, <[Z.to_nat sig := Some evmap_signal_init]> m1)) else Val None end = Val o' ∧
    match o' with None => True | Some (l, m2) => l = ctx ∧ Zlen m2 = Zlen m1 ∧ ∀ s, sig_events m2 s = sig_events m s end) as (o' & -> & Ho').
  { destruct o as [l|]; [by eexists|]. destruct (malloc_ok 16); [|by eexists]. eexists. split; [done|]. split; [done|].
    split; [unfold Zlen; by rewrite length_insert|]. intros s. rewrite sig_insert by lia. case_decide; [by subst|done]. }
  cbn [mbind outcome_bind]. destruct o' as [[l m2]|]; [|exists (-1), m1, k; auto]. destruct Ho' as (-> & Hl2 & G2).
  set (call := match ctx with [] => evsigsel_add sig k | _ => (0, k) end).
  assert ((call.1 = 0 ∨ call.1 = -1) ∧ ∀ fd, bk_watch call.2 fd = bk_watch k fd) as [Hrc Hw].
  { unfold call. destruct ctx; [split; [apply evsigsel_add_law|apply evsigsel_add_watch]|auto]. }
  destruct call as [rc k']. cbn [fst snd] in *. destruct Hrc as [-> | ->]; cbn [Z.eqb].
  - eexists _, _, k'. split; [done|]. split; [done|]. right. split; [done|]. intros s. rewrite sig_insert by lia.
    case_decide; [subst; by rewrite Ectx|done].
  - exists (-1), m2, k'. auto.
Qed.

Lemma signal_del_spec sig x m k : x ∈ sig_events m sig → (evsigsel_del sig k).1 = 0 →
  ∃ m' k', evmap_signal_del sig x m k = Val (1, m', k') ∧ (∀ fd, bk_watch k' fd = bk_watch k fd) ∧
    ∀ s, sig_events m' s = if decide (s = sig) then tailq_remove x (sig_events m sig) else sig_events m s.
Proof.
  intros Hx Hok. unfold evmap_signal_del. assert (∃ l, znth m sig = Some (Some l) ∧ sig_events m sig = l) as (l & Hlk & El).
  { unfold sig_events in *. destruct (znth m sig) as [[l|]|]; [by exists l| |]; by apply not_elem_of_nil in Hx. }
  pose proof (znth_Some _ _ _ Hlk) as Hl. destruct (Z.geb_spec sig (Zlen m)); [lia|]. rewrite Hlk. cbn [or_undef mbind outcome_bind].
  set (call := if bool_decide _ then _ else _).
  assert (call.1 = 0 ∧ ∀ fd, bk_watch call.2 fd = bk_watch k fd) as [Hrc Hw].
  { unfold call. case_bool_decide; [split; [done|apply evsigsel_del_watch]|done]. }
  destruct call as [rc k']. cbn [fst snd] in *. subst rc. cbn [Z.eqb]. eexists _, _. split; [done|]. split; [done|].
  intros s. rewrite sig_insert by lia. case_decide; [by rewrite El|done].
Qed.

(** Deletion cannot fail, as the backend answers it. *)
Definition reliable_del : Prop := (∀ fd old ev k, proper_del fd old ev k → (evsel_del fd old ev k).1 = 0) ∧ (∀ sig k, (evsigsel_del sig k).1 = 0).

Lemma maps_io_add (ins : nat → Prop) E i s k x p :
  maps_ok ins E i s k → ¬ ins x → is_io (E !!! x) = true → event_good p (E !!! x) →
  ∃ rc i' k', evmap_io_add (ev_fd (E !!! x)) x E i k = Val (rc, i', k') ∧
    (rc = -1 ∧ maps_ok ins E i' s k' ∨ (rc = 0 ∨ rc = 1) ∧ maps_ok (λ y, y = x ∨ ins y) E i' s k').
Proof.
  intros Hm Hx Hio Hg. set (fd := ev_fd (E !!! x)).
  destruct (io_add_spec fd x E i k) as (rc & i' & k' & -> & H1 & H2 & H3); [apply Hm|apply Hm|done|apply Hg| |].
  { intros Hin. by apply (mo_io_in _ _ _ _ _ Hm) in Hin as [? _]. }
  exists rc, i', k'. split; [done|]. destruct H3 as [[-> Hgr]|[Hrc Hadd]]; [left|right]; (split; [done|]); split; try done.
  - intros y fd'. unfold fd_events. rewrite Hgr. apply (mo_io_in _ _ _ _ _ Hm).
  - apply Hm.
  - apply Hm.
  - intros y fd'. rewrite Hadd. case_decide as E1.
    + destruct E1 as [-> Hpos]. rewrite elem_of_app, list_elem_of_singleton, (mo_io_in _ _ _ _ _ Hm). naive_solver.
    + rewrite (mo_io_in _ _ _ _ _ Hm). split; [naive_solver|]. intros ([-> |?] & ? & ? & ?); [|done]. exfalso. apply E1. subst. done.
  - apply Hm.
  - intros y sig. rewrite (mo_sig_in _ _ _ _ _ Hm). split; [naive_solver|]. intros ([-> |?] & ? & ?); [congruence|done].
Qed.

Lemma maps_sig_add (ins : nat → Prop) E i s k x p :
  maps_ok ins E i s k → ¬ ins x → is_io (E !!! x) = false → has (ev_events (E !!! x)) EV_SIGNAL = true → event_good p (E !!! x) →
  ∃ rc s' k', evmap_signal_add (ev_fd (E !!! x)) x s k = Val (rc, s', k') ∧
    (rc = -1 ∧ maps_ok ins E i s' k' ∨ (rc = 0 ∨ rc = 1) ∧ maps_ok (λ y, y = x ∨ ins y) E i s' k').
Proof.
  intros Hm Hx Hio Hsig Hg. set (fd := ev_fd (E !!! x)). pose proof (eg_signal _ _ Hg Hsig Hio). pose proof (eg_fd _ _ Hg).
  destruct (signal_add_spec fd x s k) as (rc & s' & k' & -> & Hw & H3); [unfold fd; lia|].
  exists rc, s', k'. split; [done|]. destruct Hm as [M1 M2 M3 M4 M5].
  assert (in_sync i k') as Hs by (intros fd' Hfd'; rewrite Hw; by apply M2).
  destruct H3 as [[-> Hgr]|[-> Hadd]]; [left|right]; (split; [by auto|]); split; try done.
  - intros sig. by rewrite Hgr.
  - intros y sig. by rewrite Hgr.
  - intros y fd'. rewrite M3. split; [naive_solver|]. intros ([-> |?] & ? & ?); [congruence|done].
  - intros sig. rewrite Hadd. case_decide as E1; [subst sig|done]. apply NoDup_app. split; [done|]. split; [|apply NoDup_singleton].
    intros y Hy Hy2%list_elem_of_singleton. subst y. by apply M5 in Hy as [? _].
  - intros y sig. rewrite Hadd. case_decide as E1.
    + subst sig. rewrite elem_of_app, list_elem_of_singleton, M5. naive_solver.
    + rewrite M5. split; [naive_solver|]. intros ([-> |?] & ? & ?); [|done]. by destruct E1.
Qed.

Lemma maps_io_del (ins ins' : nat → Prop) E i s k x :
  reliable_del → maps_ok ins E i s k → ins x → is_io (E !!! x) = true → (∀ y, ins' y ↔ y ≠ x ∧ ins y) →
  ∃ rc i' k', evmap_io_del (ev_fd (E !!! x)) x E i k = Val (rc, i', k') ∧ (rc = 0 ∨ rc = 1) ∧ maps_ok ins' E i' s k'.
Proof.
  intros Hrel [M1 M2 M3 M4 M5] Hx Hio Hins. set (fd := ev_fd (E !!! x)).
  destruct (io_del_spec fd x E i k) as (rc & i' & k' & Hd & H1 & H2 & H3); [done|done|done| |].
  { intros Hfd. by apply M3. }
  destruct H3 as [(_ & _ & old & ev & Hpr & Hf)|[Hrc Hrm]]; [by rewrite (proj1 Hrel) in Hf|].
  exists rc, i', k'. split; [done|]. split; [done|]. split; try done.
  - intros y fd'. rewrite Hrm, Hins. case_decide as E1.
    + subst fd'. rewrite elem_remove, M3. naive_solver.
    + rewrite M3. split; [|naive_solver]. intros (? & ? & ? & ?). split; [|done]. split; [|done]. intros ->. by apply E1.
  - intros y sig. rewrite M5, Hins. split; [|naive_solver]. intros (? & ? & ?). split; [|done]. split; [|done]. intros ->. congruence.
Qed.

Lemma maps_sig_del (ins ins' : nat → Prop) E i s k x :
  reliable_del → maps_ok ins E i s k → ins x → is_io (E !!! x) = false → (∀ y, ins' y ↔ y ≠ x ∧ ins y) →
  ∃ s' k', evmap_signal_del (ev_fd (E !!! x)) x s k = Val (1, s', k') ∧ maps_ok ins' E i s' k'.
Proof.
  intros Hrel [M1 M2 M3 M4 M5] Hx Hio Hins. set (fd := ev_fd (E !!! x)).
  destruct (signal_del_spec fd x s k) as (s' & k' & -> & Hw & Hrm); [by apply M5|apply Hrel|].
  exists s', k'. split; [done|]. split; try done.
  - intros fd' Hfd'. rewrite Hw. by apply M2.
  - intros y fd'. rewrite M3, Hins. split; [|naive_solver]. intros (? & ? & ? & ?). split; [|done]. split; [|done]. intros ->. congruence.
  - intros sig. rewrite Hrm. case_decide; [by apply nodup_remove|done].
  - intros y sig. rewrite Hrm, Hins. case_decide as E1.
    + subst sig. rewrite elem_remove, M5. naive_solver.
    + rewrite M5. split; [|naive_solver]. intros (? & ? & ?). split; [|done]. split; [|done]. intros ->. by destruct E1.
Qed.
(** ** Activating *)

Definition same_event (b b' : Base) (y : nat) : Prop :=
  body (ev_of b' y) = body (ev_of b y) ∧ ev_flags (ev_of b' y) = ev_flags (ev_of b y).

Lemma flipped_same x q v b b' y : flipped x q v b b' → y ≠ x → same_event b b' y.
Proof. intros Hf Hy. split; [apply Hf|]. rewrite (fl_flags _ _ _ _ _ Hf). by rewrite decide_False. Qed.

(** The event before it joins its queue: result, continue flag and calls. *)
Definition prepare (x : nat) (res ncalls : Z) (b : Base) : Base :=
  let ev := ev_of b x in
  let b := upd x (put_res res) b in
  let b := if Z.of_nat (ev_pri ev) <? running_priority b
           then set_flags (set_stop (f_gotterm (b_flags b)) (f_break (b_flags b)) true (b_flags b)) b else b in
  if has (ev_events ev) EV_SIGNAL then upd x (put_ncalls (i16 ncalls) false) b else b.

Lemma good_res p r e : event_good p e → event_good p (put_res r e).
Proof. intros [G1 G2 G3 G4]. by split. Qed.
Lemma good_ncalls p c d e : event_good p e → event_good p (put_ncalls c d e).
Proof. intros [G1 G2 G3 G4]. by split. Qed.

Lemma prepare_ok x res ncalls b : base_ok b → base_ok (prepare x res ncalls b).
Proof.
  intros Hb. unfold prepare. assert (base_ok (upd x (put_res res) b)) as H1.
  { apply upd_view; [done|done|]. apply good_res, Hb. }
  set (b1 := upd x (put_res res) b) in *. cbv zeta. set (b2 := if _ <? _ then _ else _).
  assert (base_ok b2) as H2 by (unfold b2; destruct (_ <? _); [by apply base_flags|done]).
  destruct (has _ _); [|done]. apply upd_view; [done|done|]. apply good_ncalls, H2.
Qed.
Lemma prepare_event x res ncalls b y :
  (y ≠ x → ev_of (prepare x res ncalls b) y = ev_of b y) ∧
  qview (ev_of (prepare x res ncalls b) x) = qview (ev_of b x) ∧ ev_res (ev_of (prepare x res ncalls b) x) = res ∧
  ev_closure (ev_of (prepare x res ncalls b) x) = ev_closure (ev_of b x) ∧
  ev_io_timeout (ev_of (prepare x res ncalls b) x) = ev_io_timeout (ev_of b x).
Proof.
  unfold prepare. set (c := _ <? _). set (s := has _ _).
  assert (∀ z, ev_of (if c then set_flags (set_stop (f_gotterm (b_flags (upd x (put_res res) b))) (f_break (b_flags (upd x (put_res res) b))) true
    (b_flags (upd x (put_res res) b))) (upd x (put_res res) b) else upd x (put_res res) b) z = ev_of (upd x (put_res res) b) z) as He by by destruct c.
  destruct s; rewrite ?ev_of_upd, !He, !ev_of_upd, !(decide_True (P := x = x)) by done; (split; [|done]); intros Hy; by rewrite ?decide_False.
Qed.

(** What the timeouts depend on, with the number and the queue of the event. *)
Definition tview (e : Event) := (ev_fd e, ev_events e, ev_pri e, ev_closure e, ev_timeout e, ev_io_timeout e).

Lemma body_tview e e' : body e' = body e → tview e' = tview e.
Proof. intros [= E1 E2 _ E4 E5 E6 E7 _ _]. unfold tview. congruence. Qed.

Lemma active_spec x res ncalls b : base_ok b →
  ∃ b', event_active_nolock x res ncalls b = Val b' ∧ base_ok b' ∧ aux b' = aux b ∧ maps b' = maps b ∧ timeheap b' = timeheap b ∧
    (∀ y, y ≠ x → same_event b b' y) ∧ on EVLIST_ACTIVE (evs b') x ∧
    (∀ q k, queue_bit q k → k ≠ 3 → on q (evs b') x ↔ on q (evs b) x) ∧
    tview (ev_of b' x) = tview (ev_of b x) ∧
    (¬ on EVLIST_ACTIVE (evs b) x → ev_res (ev_of b' x) = res ∧
       ∃ q, activequeues b !! ev_pri (ev_of b x) = Some q ∧ activequeues b' = <[ev_pri (ev_of b x) := q ++ [x]]> (activequeues b)).
Proof.
  intros Hb. unfold event_active_nolock. destruct (has (ev_flags (ev_of b x)) EVLIST_ACTIVE) eqn:Ea.
  - eexists. split; [done|]. split; [apply upd_view; [done|done|]; apply good_res, Hb|].
    split; [done|]. split; [done|]. split; [done|]. split; [intros y Hy; split; by rewrite ev_of_upd, decide_False|].
    assert (∀ q, on q (evs (upd x (put_res (Z.lor (ev_res (ev_of b x)) res)) b)) x ↔ on q (evs b) x) as Ho.
    { intros q. unfold on. change (evs (upd x (put_res (Z.lor (ev_res (ev_of b x)) res)) b) !!! x) with
        (ev_of (upd x (put_res (Z.lor (ev_res (ev_of b x)) res)) b) x). by rewrite ev_of_upd, decide_True. }
    split; [by apply Ho|]. split; [auto|]. split; [by rewrite ev_of_upd, decide_True|]. done.
  - change (event_queue_insert x EVLIST_ACTIVE _) with (event_queue_insert x EVLIST_ACTIVE (prepare x res ncalls b)).
    pose proof (prepare_ok x res ncalls b Hb) as Hp. set (b1 := prepare x res ncalls b) in *.
    assert (∀ y, y ≠ x → ev_of b1 y = ev_of b y) as Hother by (intros y; apply prepare_event).
    destruct (prepare_event x res ncalls b x) as (_ & Hv & Hr & Hcl & Hio). fold b1 in Hv, Hr, Hcl, Hio. injection Hv as F1 F2 F3 F4 F5 F6.
    destruct (insert_active_spec x b1) as (b' & q & -> & Hc & Hf & Hq & Hact & Hh); [apply Hp|unfold on; change (evs b1 !!! x) with (ev_of b1 x); rewrite F1, Ea; done|].
    exists b'. split; [done|].
    assert (base_ok b') as Hb' by (split; [done|]; apply (flipped_maps x _ 3 true b1 b' bit_active ltac:(done) Hf), Hp).
    assert (aux b1 = aux b ∧ maps b1 = maps b ∧ timeheap b1 = timeheap b ∧ activequeues b1 = activequeues b) as (Ha1 & Hm1 & Hh1 & Hq1)
      by (clear; subst b1; unfold prepare; cbv zeta; by destruct (Z.of_nat (ev_pri (ev_of b x)) <? _), (has (ev_events (ev_of b x)) EV_SIGNAL)).
    split; [done|]. split; [rewrite (fl_aux _ _ _ _ _ Hf); done|]. split; [rewrite (fl_maps _ _ _ _ _ Hf); done|]. split; [congruence|].
    split. { intros y Hy. destruct (flipped_same x _ _ _ _ y Hf Hy). split; rewrite <- (Hother y Hy); done. }
    split; [apply (flipped_self x _ 3 true b1 b' bit_active Hf); by rewrite decide_True|].
    split. { intros q' k' Hq' Hk. rewrite (flipped_other x _ 3 true b1 b' bit_active Hf q' k') by done.
      unfold on. change (evs b1 !!! x) with (ev_of b1 x). change (evs b !!! x) with (ev_of b x). by rewrite F1. }
    split; [rewrite (body_tview _ _ (fl_body _ _ _ _ _ Hf x)); unfold tview; congruence|]. intros _. split.
    + pose proof (fl_body _ _ _ _ _ Hf x) as [= _ _ -> _]. done.
    + exists q. by rewrite <- Hq1, <- F4.
Qed.
(** ** Taking an event off its queues *)

Record cleared (x : nat) (q k : Z) (b b' : Base) : Prop := {
  cl_body y : body (ev_of b' y) = body (ev_of b y);
  cl_flags y : y ≠ x → ev_flags (ev_of b' y) = ev_flags (ev_of b y);
  cl_self : ¬ on q (evs b') x;
  cl_other q' k' : queue_bit q' k' → k ≠ k' → on q' (evs b') x ↔ on q' (evs b) x;
  cl_aux : aux b' = aux b }.

Lemma flipped_cleared x q k b b' : queue_bit q k → flipped x q false b b' → cleared x q k b b'.
Proof.
  intros Hq Hf. split; try apply Hf.
  - intros y Hy. by apply (flipped_same x _ _ _ _ y Hf Hy).
  - rewrite (flipped_self x q k false b b' Hq Hf). by rewrite decide_True.
  - intros q' k' Hq' Hk. by apply (flipped_other x q k false b b' Hq Hf q' k').
Qed.
Lemma cleared_none x q k b : ¬ on q (evs b) x → cleared x q k b b.
Proof. by split. Qed.

(** The heap after an event that may have been on it left. *)
Definition heap_left (x : nat) (b b' : Base) : Prop :=
  length (mh_p (timeheap b')) = length (mh_p (timeheap b)) ∧ (mh_n (timeheap b') <= mh_n (timeheap b))%nat ∧
  (∀ y, y ∈ live (timeheap b') ↔ y ≠ x ∧ y ∈ live (timeheap b)) ∧
  (x ∈ live (timeheap b) → mh_n (timeheap b) = S (mh_n (timeheap b'))).

Lemma heap_left_same x b b' : base_ok b → x ∉ live (timeheap b) → timeheap b' = timeheap b → heap_left x b b'.
Proof.
  intros Hb Hx E. unfold heap_left. rewrite E. split; [done|]. split; [lia|]. split; [|done].
  intros y. split; [|by intros [_ ?]]. intros Hy. split; [|done]. intros ->. done.
Qed.

Lemma clear_timeout x b : base_ok b →
  ∃ b', (if has (ev_flags (ev_of b x)) EVLIST_TIMEOUT then event_queue_remove x EVLIST_TIMEOUT b else Val b) = Val b' ∧
    base_ok b' ∧ cleared x EVLIST_TIMEOUT 0 b b' ∧ activequeues b' = activequeues b ∧ heap_left x b b' ∧ b_flags b' = b_flags b.
Proof.
  intros Hb. destruct (has _ _) eqn:Et.
  - destruct (remove_timeout_spec x b (bo_core _ Hb) Et) as (b' & -> & Hc & Hf & Hq & [Hl Hn] & Hm). exists b'. split; [done|].
    assert (base_ok b') as Hb' by (split; [done|]; apply (flipped_maps x _ 0 false b b' bit_timeout ltac:(done) Hf), Hb).
    split; [done|]. split; [by apply flipped_cleared; [constructor|]|]. split; [done|]. split; [|apply Hf].
    destruct (marked _ _) eqn:Em.
    + apply heap_left_same; [done| |done]. rewrite (to_in _ _ _ (co_timeouts _ (bo_core _ Hb))).
      change (evs b !!! x) with (ev_of b x). rewrite Em. by intros [_ ?].
    + assert (NoDup (x :: live (timeheap b'))) as [Hnx _]%NoDup_cons.
      { rewrite Hm. apply (heap_nodup (evs b)), Hb. }
      split; [done|]. split; [done|]. split.
      * intros y. rewrite <- Hm, elem_of_cons. split; [|naive_solver]. intros Hy. split; [|by right]. intros ->. done.
      * intros _. apply Permutation_length in Hm. cbn [length] in Hm. rewrite !length_live in Hm; [done|apply Hb|apply Hc].
  - exists b. split; [done|]. split; [done|]. split; [apply cleared_none; unfold on; change (evs b !!! x) with (ev_of b x); by rewrite Et|]. split; [done|]. split; [|done].
    apply heap_left_same; [done| |done]. rewrite (to_in _ _ _ (co_timeouts _ (bo_core _ Hb))). unfold on. change (evs b !!! x) with (ev_of b x).
    rewrite Et. by intros [? _].
Qed.

(** The active queues after an event that may have been on one left. *)
Definition active_left (x : nat) (b b' : Base) : Prop := activequeues b' = (tailq_remove x <$> activequeues b).

Lemma remove_everywhere x b q : base_ok b → activequeues b !! ev_pri (ev_of b x) = Some q →
  <[ev_pri (ev_of b x) := tailq_remove x q]> (activequeues b) = (tailq_remove x <$> activequeues b).
Proof.
  intros Hb Hq. apply list_eq. intros p. rewrite list_lookup_fmap. destruct (decide (p = ev_pri (ev_of b x))) as [->|Hne].
  - rewrite list_lookup_insert_eq by (by eapply lookup_lt_Some). by rewrite Hq.
  - rewrite list_lookup_insert_ne by done. destruct (activequeues b !! p) as [q'|] eqn:Ep; [|done]. cbn. f_equal. symmetry.
    apply remove_notin. intros Hx. apply (ac_queue _ _ _ (co_active _ (bo_core _ Hb)) p q' Ep) in Hx as [_ E]. by destruct Hne.
Qed.

Lemma clear_active x b : base_ok b →
  ∃ b', (if has (ev_flags (ev_of b x)) EVLIST_ACTIVE then event_queue_remove x EVLIST_ACTIVE b else Val b) = Val b' ∧
    base_ok b' ∧ cleared x EVLIST_ACTIVE 3 b b' ∧ active_left x b b' ∧ timeheap b' = timeheap b ∧ b_flags b' = b_flags b.
Proof.
  intros Hb. unfold active_left. destruct (has _ _) eqn:Et.
  - destruct (remove_active_spec x b (bo_core _ Hb) Et) as (b' & q & -> & Hc & Hf & Hq & Ha & Hh & Hn). exists b'. split; [done|].
    assert (base_ok b') as Hb' by (split; [done|]; apply (flipped_maps x _ 3 false b b' bit_active ltac:(done) Hf), Hb).
    split; [done|]. split; [by apply flipped_cleared; [constructor|]|]. rewrite Ha.
    split; [by apply remove_everywhere|]. split; [done|apply Hf].
  - exists b. split; [done|]. split; [done|]. split; [apply cleared_none; unfold on; change (evs b !!! x) with (ev_of b x); by rewrite Et|].
    split; [|done]. symmetry. etransitivity; [|apply list_fmap_id]. apply list_fmap_ext. intros p q Hp. apply remove_notin.
    intros Hx. apply (ac_queue _ _ _ (co_active _ (bo_core _ Hb)) p q Hp) in Hx as [Hx _]. unfold on in Hx.
    change (evs b !!! x) with (ev_of b x) in Hx. congruence.
Qed.

Lemma abort_ok x b : base_ok b → base_ok (abort_signal_loop x b).
Proof. intros Hb. unfold abort_signal_loop. destruct (_ && _); [by apply base_flags|done]. Qed.
Lemma abort_same x b : evs (abort_signal_loop x b) = evs b ∧ aux (abort_signal_loop x b) = aux b ∧ maps (abort_signal_loop x b) = maps b ∧
  b_queues (abort_signal_loop x b) = b_queues b ∧ event_count_active (abort_signal_loop x b) = event_count_active b.
Proof. unfold abort_signal_loop. by destruct (_ && _). Qed.

(** The event leaves the list of added events, and the maps with it. *)
Definition unmap (x : nat) (b : Base) : outcome (Z * Base) :=
  if has (ev_flags (ev_of b x)) EVLIST_INSERTED then
    b ← event_queue_remove x EVLIST_INSERTED b;
    let ev := ev_of b x in
    '(res, b) ← (if has (ev_events ev) (Z.lor EV_READ EV_WRITE) then
                   '(res, i, k) ← evmap_io_del (ev_fd ev) x (evs b) (io b) (backend b);
                   Val (res, set_maps i (sigmap b) k b)
                 else
                   '(res, s, k) ← evmap_signal_del (ev_fd ev) x (sigmap b) (backend b);
                   Val (res, set_maps (io b) s k b));
    Val (if res =? 1 then 0 else res, b)
  else Val (0, b).

Lemma core_maps b i s k : core_ok b → core_ok (set_maps i s k b).
Proof. intros Hb. apply (core_agree b); first [by apply agree_view|done|apply Hb]. Qed.

Lemma clear_inserted x b : reliable_del → base_ok b →
  ∃ b', unmap x b = Val (0, b') ∧ base_ok b' ∧ cleared x EVLIST_INSERTED 1 b b' ∧
    (timeheap b', activequeues b', event_count_active b', b_flags b') = (timeheap b, activequeues b, event_count_active b, b_flags b).
Proof.
  intros Hrel Hb. unfold unmap. destruct (has (ev_flags (ev_of b x)) EVLIST_INSERTED) eqn:Hx.
  2: { exists b. split; [done|]. split; [done|]. split; [|done]. apply cleared_none. unfold on. change (evs b !!! x) with (ev_of b x). by rewrite Hx. }
  destruct (remove_inserted_spec x b (bo_core _ Hb) Hx) as (b1 & -> & Hc & Hf & Hsame). cbn [mbind outcome_bind].
  injection Hsame as E1 E2 E3 _. pose proof (fl_maps _ _ _ _ _ Hf) as [= Ei Es Ek].
  assert (maps_ok (on EVLIST_INSERTED (evs b)) (evs b1) (io b1) (sigmap b1) (backend b1)) as Hm.
  { rewrite Ei, Es, Ek. apply (maps_ext (on EVLIST_INSERTED (evs b)) _ (evs b)); [done| |apply Hb].
    intros y _. apply body_fd, (fl_body _ _ _ _ _ Hf). }
  assert (∀ y, on EVLIST_INSERTED (evs b1) y ↔ y ≠ x ∧ on EVLIST_INSERTED (evs b) y) as Hins.
  { intros y. rewrite (flipped_self x _ 1 false b b1 bit_inserted Hf). case_decide; naive_solver. }
  pose proof (flipped_cleared x _ 1 b b1 bit_inserted Hf) as [K1 K2 K3 K4 K5]. pose proof (fl_stop _ _ _ _ _ Hf) as K6.
  destruct (has (ev_events (ev_of b1 x)) _) eqn:Eio.
  - destruct (maps_io_del _ _ _ _ _ _ x Hrel Hm Hx Eio Hins) as (rc & i' & k' & He & Hrc & Hm').
    change (evs b1 !!! x) with (ev_of b1 x) in He. rewrite He. cbn [mbind outcome_bind]. eexists.
    split; [by destruct Hrc as [-> | ->]|]. split; [split; [by apply core_maps|done]|]. split; [by split|].
    rewrite <- E1, <- E2, <- E3, <- K6. done.
  - destruct (maps_sig_del _ _ _ _ _ _ x Hrel Hm Hx Eio Hins) as (s' & k' & He & Hm').
    change (evs b1 !!! x) with (ev_of b1 x) in He. rewrite He. cbn [mbind outcome_bind]. eexists.
    split; [done|]. split; [split; [by apply core_maps|done]|]. split; [by split|].
    rewrite <- E1, <- E2, <- E3, <- K6. done.
Qed.

(** What a deletion leaves. *)
Record deleted (x : nat) (b b' : Base) : Prop := {
  de_body y : body (ev_of b' y) = body (ev_of b y);
  de_flags y : y ≠ x → ev_flags (ev_of b' y) = ev_flags (ev_of b y);
  de_timeout : ¬ on EVLIST_TIMEOUT (evs b') x;
  de_active : ¬ on EVLIST_ACTIVE (evs b') x;
  de_inserted : ¬ on EVLIST_INSERTED (evs b') x;
  de_internal : on EVLIST_INTERNAL (evs b') x ↔ on EVLIST_INTERNAL (evs b) x;
  de_aux : aux b' = aux b;
  de_heap : heap_left x b b';
  de_queues : active_left x b b';
  de_stop : b_flags b' = b_flags (abort_signal_loop x b) }.

Lemma del_spec x b : reliable_del → base_ok b →
  ∃ b', event_del_internal x b = Val (0, b') ∧ base_ok b' ∧ deleted x b b'.
Proof.
  intros Hrel Hb. unfold event_del_internal. pose proof (eg_flags _ _ (co_events _ (bo_core _ Hb) x)) as Hfl.
  unfold flags_ok in Hfl. rewrite Hfl. cbn [Z.eqb negb].
  pose proof (abort_ok x b Hb) as H0. destruct (abort_same x b) as (Ae & Aa & Am & Aq & An). set (b0 := abort_signal_loop x b) in *.
  destruct (clear_timeout x b0 H0) as (b1 & -> & H1 & C1 & Q1 & L1 & S1). cbn [mbind outcome_bind].
  destruct (clear_active x b1 H1) as (b2 & -> & H2 & C2 & L2 & T2 & S2). cbn [mbind outcome_bind].
  destruct (clear_inserted x b2 Hrel H2) as (b3 & He & H3 & C3 & Hs). injection Hs as T3 Q3 N3 S3.
  exists b3. split; [exact He|]. split; [done|]. destruct C1 as [B1 F1 O1 P1 X1], C2 as [B2 F2 O2 P2 X2], C3 as [B3 F3 O3 P3 X3].
  assert (∀ y, ev_of b0 y = ev_of b y) as Ey by (intros y; unfold ev_of; by rewrite Ae). split.
  - intros y. by rewrite B3, B2, B1, Ey.
  - intros y Hy. by rewrite F3, F2, F1, Ey.
  - rewrite (P3 _ 0), (P2 _ 0) by first [constructor|done]. done.
  - by rewrite (P3 _ 3) by first [constructor|done].
  - done.
  - rewrite (P3 _ 4), (P2 _ 4), (P1 _ 4) by first [constructor|done]. by rewrite Ae.
  - congruence.
  - unfold heap_left in *. rewrite T3, T2. unfold timeheap in L1 |- *. by rewrite Aq in L1.
  - unfold active_left in *. rewrite Q3, L2, Q1. unfold activequeues. by rewrite Aq.
  - by rewrite S3, S2, S1.
Qed.
End ops.
