(* ===== verification/EvAdd.v ===== *)
(** Adding events keeps the invariant of a base, and what it adds (the operations of
    EvBase.v). *)

From S2P Require Import Prelude EvFlags BufChain EvHeap EvHeapInv EvMap EvMapInv EvBase EvInv EvDel.

Section add.
Context {HM : Malloc} {HE : EventOp} {HL : EventOpLaws}.

Lemma has_either f p q : has f (Z.lor p q) = has f p || has f q.
Proof.
  unfold has. rewrite Z.land_lor_distr_r, <- negb_andb. f_equal. apply eq_true_iff_eq.
  rewrite andb_true_iff, !Z.eqb_eq. apply Z.lor_eq_0_iff.
Qed.

(** ** The descriptor or signal *)

Definition asks (e : Event) : bool := has (ev_events e) (Z.lor (Z.lor EV_READ EV_WRITE) EV_SIGNAL).

(** [x] may have joined the added events; everything else is as it was. *)
Record mapped (x : nat) (b b' : Base) : Prop := {
  ma_body y : body (ev_of b' y) = body (ev_of b y);
  ma_flags y : y ≠ x → ev_flags (ev_of b' y) = ev_flags (ev_of b y);
  ma_other q k : queue_bit q k → k ≠ 1 → on q (evs b') x ↔ on q (evs b) x;
  ma_aux : aux b' = aux b;
  ma_same : (activequeues b', event_count_active b', ctls b', b_flags b') =
            (activequeues b, event_count_active b, ctls b, b_flags b) }.

Lemma mapped_none x b i s k : mapped x b (set_maps i s k b).
Proof. by split. Qed.

Lemma insert_mapped x b i s k : base_ok b → ¬ on EVLIST_INSERTED (evs b) x →
  maps_ok (λ y, y = x ∨ on EVLIST_INSERTED (evs b) y) (evs b) i s k →
  ∃ b', event_queue_insert x EVLIST_INSERTED (set_maps i s k b) = Val b' ∧ base_ok b' ∧ mapped x b b' ∧
    timeheap b' = timeheap b ∧ on EVLIST_INSERTED (evs b') x.
Proof.
  intros Hb Hx Hm. destruct (insert_inserted_spec x (set_maps i s k b)) as (b' & -> & Hc & Hf & Hs); [by apply core_maps, Hb|done|].
  pose proof (flipped_self x _ 1 true _ b' bit_inserted Hf) as Hon.
  assert (on EVLIST_INSERTED (evs b') x) as Hx' by (apply Hon; by rewrite decide_True).
  exists b'. split; [done|]. split; [|split; [|by injection Hs as -> _]].
  - split; [done|]. pose proof (fl_maps _ _ _ _ _ Hf) as [= -> -> ->].
    apply (maps_ext (λ y, y = x ∨ on EVLIST_INSERTED (evs b) y) _ (evs b)); [|intros y _; apply body_fd, (fl_body _ _ _ _ _ Hf)|done].
    intros y. rewrite Hon. case_decide; naive_solver.
  - split; try apply Hf.
    + intros y Hy. by apply (flipped_same x _ _ _ _ y Hf Hy).
    + intros q' k' Hq' Hk. apply (flipped_other x _ 1 true _ b' bit_inserted Hf q' k'); [done|]. by intros <-.
    + rewrite (fl_stop _ _ _ _ _ Hf). by injection Hs as _ -> -> ->.
Qed.

Lemma add_io_spec x b : base_ok b →
  ∃ rc b', add_io x b = Val (rc, b') ∧ base_ok b' ∧ mapped x b b' ∧ timeheap b' = timeheap b ∧
    (rc = 0 ∧ (asks (ev_of b x) = true → ¬ on EVLIST_ACTIVE (evs b) x → on EVLIST_INSERTED (evs b') x) ∨ rc = -1).
Proof.
  intros Hb. unfold add_io. fold (asks (ev_of b x)). destruct (asks (ev_of b x)) eqn:Ea; cbn [andb].
  2: { exists 0, b. split; [done|]. split; [done|]. split; [by split|]. split; [done|]. by left. }
  destruct (has (ev_flags (ev_of b x)) (Z.lor EVLIST_INSERTED EVLIST_ACTIVE)) eqn:Ef; cbn [negb].
  { exists 0, b. split; [done|]. split; [done|]. split; [by split|]. split; [done|]. left. split; [done|]. intros _ Hn.
    rewrite has_either in Ef. apply orb_true_iff in Ef as [Ef|Ef]; [exact Ef|]. by destruct Hn. }
  rewrite has_either in Ef. apply orb_false_iff in Ef as [Ef _].
  assert (¬ on EVLIST_INSERTED (evs b) x) as Hx by (unfold on; change (evs b !!! x) with (ev_of b x); by rewrite Ef).
  pose proof (co_events _ (bo_core _ Hb) x) as Hg. fold (is_io (ev_of b x)).
  assert (∃ rc i s k, (if is_io (ev_of b x) then
      '(res, i, k) ← evmap_io_add (ev_fd (ev_of b x)) x (evs b) (io b) (backend b); Val (res, set_maps i (sigmap b) k b)
    else '(res, s, k) ← evmap_signal_add (ev_fd (ev_of b x)) x (sigmap b) (backend b); Val (res, set_maps (io b) s k b)) =
      Val (rc, set_maps i s k b) ∧
      (rc = -1 ∧ maps_ok (on EVLIST_INSERTED (evs b)) (evs b) i s k ∨
       (rc = 0 ∨ rc = 1) ∧ maps_ok (λ y, y = x ∨ on EVLIST_INSERTED (evs b) y) (evs b) i s k)) as (rc & i & s & k & -> & Hrc).
  { destruct (is_io (ev_of b x)) eqn:Eio.
    - destruct (maps_io_add _ _ _ _ _ x _ (bo_maps _ Hb) Hx Eio Hg) as (rc & i' & k' & He & Hrc).
      change (evs b !!! x) with (ev_of b x) in He. rewrite He. by eexists _, _, _, _.
    - assert (has (ev_events (ev_of b x)) EV_SIGNAL = true) as Es by (unfold asks in Ea; rewrite has_either in Ea; unfold is_io in Eio; by rewrite Eio in Ea).
      destruct (maps_sig_add _ _ _ _ _ x _ (bo_maps _ Hb) Hx Eio Es Hg) as (rc & s' & k' & He & Hrc).
      change (evs b !!! x) with (ev_of b x) in He. rewrite He. by eexists _, _, _, _. }
  cbn [mbind outcome_bind]. destruct Hrc as [[-> Hm]|[Hrc Hm]].
  - cbn. eexists _, _. split; [done|]. split; [split; [apply core_maps, Hb|done]|]. split; [by split|]. split; [done|by right].
  - destruct (insert_mapped x b i s k Hb Hx Hm) as (b' & He & Hb' & Hma & Hh & Hin). exists 0, b'.
    split; [destruct Hrc as [-> | ->]; cbn [Z.eqb negb]; rewrite He; done|]. split; [done|]. split; [done|]. split; [done|]. by left.
Qed.

(** ** The deadline *)

(** The time an event waits for when it is added at [now], with [n] common timeouts. *)
Definition deadline (n : nat) (now tv : timeval) (abs : bool) : timeval :=
  if abs then tv
  else if marked n tv then
    let t := evutil_timeradd now (masked tv) in
    {| tv_sec := tv_sec t; tv_usec := Z.lor (tv_usec t) (Z.ldiff (tv_usec tv) MICROSECONDS_MASK) |}
  else evutil_timeradd now tv.

Lemma lor_high a u k : 0 <= k → 0 <= u < 2 ^ k → Z.lor u (a * 2 ^ k) = a * 2 ^ k + u.
Proof.
  intros Hk Hu. assert (Z.land u (a * 2 ^ k) = 0) as E.
  { replace u with (0 * 2 ^ k + u) by lia. by rewrite land_high by lia. }
  rewrite <- Z.lxor_lor, <- Z.add_nocarry_lxor by done. lia.
Qed.

(** A normal time with the mark of queue [i]. *)
Lemma marked_time i t tv : (i < 256)%nat → tv_ok t → common_tv i tv →
  let t' := {| tv_sec := tv_sec t; tv_usec := Z.lor (tv_usec t) (Z.ldiff (tv_usec tv) MICROSECONDS_MASK) |} in
  common_tv i t' ∧ masked t' = t.
Proof.
  intros Hi Ht Htv t'. destruct (common_fields i tv Htv) as (_ & _ & _ & Ed & _). unfold tv_ok in Ht.
  assert (tv_usec t' = (1280 + Z.of_nat i) * 2 ^ 20 + tv_usec t) as Eu by (cbn [t' tv_usec]; rewrite Ed; apply lor_high; lia).
  split; [split; [done|]; by exists (tv_usec t)|]. unfold masked. rewrite Eu. change MICROSECONDS_MASK with (Z.ones 20).
  rewrite Z.land_ones, Z.add_comm, Z.mod_add, Z.mod_small by lia. by destruct t.
Qed.

Lemma deadline_kind n now tv abs : tv_ok now → good_tv n tv → same_kind n (deadline n now tv abs) tv.
Proof.
  intros Hnow Htv. unfold deadline. destruct abs; [destruct Htv as [?|(i & ? & ?)]; [by left|]; right; by exists i|].
  destruct Htv as [Htv|(i & Hi & Htv)].
  - rewrite marked_normal by done. left. split; [by apply timeradd_spec|done].
  - rewrite (proj1 (marked_common n i tv Htv Hi)). right. exists i. split; [done|]. split; [|done].
    apply marked_time; [apply Htv| |done]. apply timeradd_spec; [done|]. by destruct (common_fields i tv Htv) as (_ & _ & ? & _).
Qed.
(** Added with a relative time, an event waits for exactly that time from now on. *)
Lemma deadline_usecs n now tv : tv_ok now → good_tv n tv →
  usecs (masked (deadline n now tv false)) = usecs now + usecs (masked tv).
Proof.
  intros Hnow Htv. unfold deadline. destruct Htv as [Htv|(i & Hi & Htv)].
  - rewrite marked_normal by done. destruct (timeradd_spec now tv Hnow Htv) as [H1 H2].
    destruct (normal_fields _ H1) as (_ & -> & _), (normal_fields _ Htv) as (_ & -> & _). done.
  - rewrite (proj1 (marked_common n i tv Htv Hi)). pose proof (common_fields i tv Htv) as (_ & _ & Hm & _).
    destruct (timeradd_spec now (masked tv) Hnow Hm) as [H1 <-]. f_equal. apply (proj2 (marked_time i _ tv (proj1 Htv) H1 Htv)).
Qed.

(** Rescheduling takes an event off the active queue that is there for its timeout. *)
Lemma clear_stale x b : base_ok b →
  ∃ b', (if has (ev_flags (ev_of b x)) EVLIST_ACTIVE && has (ev_res (ev_of b x)) EV_TIMEOUT
         then event_queue_remove x EVLIST_ACTIVE (abort_signal_loop x b) else Val b) = Val b' ∧ base_ok b' ∧
    (∀ y, body (ev_of b' y) = body (ev_of b y)) ∧ (∀ y, y ≠ x → ev_flags (ev_of b' y) = ev_flags (ev_of b y)) ∧
    (∀ q k, queue_bit q k → k ≠ 3 → on q (evs b') x ↔ on q (evs b) x) ∧
    (on EVLIST_ACTIVE (evs b') x ↔ on EVLIST_ACTIVE (evs b) x ∧ has (ev_res (ev_of b x)) EV_TIMEOUT = false) ∧
    aux b' = aux b ∧ timeheap b' = timeheap b.
Proof.
  intros Hb. destruct (has (ev_flags (ev_of b x)) EVLIST_ACTIVE) eqn:Ea; cbn [andb].
  2: { exists b. split; [done|]. split; [done|]. split; [done|]. split; [done|]. split; [done|]. split; [|done].
    assert (¬ on EVLIST_ACTIVE (evs b) x) as Hn by (unfold on; change (evs b !!! x) with (ev_of b x); by rewrite Ea). naive_solver. }
  destruct (has (ev_res (ev_of b x)) EV_TIMEOUT).
  2: { exists b. split; [done|]. split; [done|]. split; [done|]. split; [done|]. split; [done|]. split; [|done]. naive_solver. }
  destruct (abort_same x b) as (Ae & Aa & _ & Aq & _). assert (∀ y, ev_of (abort_signal_loop x b) y = ev_of b y) as Ey by (intros y; unfold ev_of; by rewrite Ae).
  destruct (clear_active x _ (abort_ok x b Hb)) as (b' & He & Hb' & [K1 K2 K3 K4 K5] & _ & K6 & _). rewrite Ey, Ea in He.
  exists b'. split; [done|]. split; [done|]. split; [intros y; by rewrite K1, Ey|]. split; [intros y Hy; by rewrite K2, Ey|].
  split; [intros q k Hq Hk; rewrite (K4 q k), Ae by done; done|]. split; [by split; [|intros [_ ?]]|].
  split; [by rewrite K5|]. rewrite K6. unfold timeheap. by rewrite Aq.
Qed.

Lemma aux_gettime b b' : aux b' = aux b → gettime b' = gettime b.
Proof. intros [= E _]. unfold gettime, tv_cache, clock. by rewrite E. Qed.
Lemma gettime_ok b : base_ok b → tv_ok (gettime b).
Proof. intros Hb. destruct (co_times _ (bo_core _ Hb)). unfold gettime. by destruct (negb _). Qed.
Lemma same_kind_good n tv tv' : same_kind n tv tv' → good_tv n tv.
Proof. intros [[? _]|(i & ? & ? & _)]; [by left|]. right. by exists i. Qed.
Lemma same_kind_normal n tv tv' : same_kind n tv tv' → tv_ok tv → tv_ok tv'.
Proof.
  intros [[_ ?]|(i & _ & Hc & _)] Hn; [done|]. destruct (common_fields i tv Hc) as (E & _), (normal_fields tv Hn) as (E' & _).
  by rewrite E in E'.
Qed.

(** What adding a timeout leaves of an event. *)
Definition ident (e : Event) := (ev_fd e, ev_events e, ev_res e, ev_pri e, ev_closure e, ev_ncalls e, ev_pncalls e).
Definition keeps_io (e : Event) (abs : bool) : bool := match ev_closure e with EV_CLOSURE_PERSIST => abs | _ => true end.

Record armed (x : nat) (tv : timeval) (abs : bool) (b b' : Base) : Prop := {
  ar_others y : y ≠ x → same_event b b' y;
  ar_ident : ident (ev_of b' x) = ident (ev_of b x);
  ar_timeout : ev_timeout (ev_of b' x) = deadline (length (ctls b)) (gettime b) tv abs;
  ar_io_timeout : ev_io_timeout (ev_of b' x) = if keeps_io (ev_of b x) abs then ev_io_timeout (ev_of b x) else tv;
  ar_on : on EVLIST_TIMEOUT (evs b') x;
  ar_active : on EVLIST_ACTIVE (evs b') x ↔ on EVLIST_ACTIVE (evs b) x ∧ has (ev_res (ev_of b x)) EV_TIMEOUT = false;
  ar_inserted : on EVLIST_INSERTED (evs b') x ↔ on EVLIST_INSERTED (evs b) x;
  ar_internal : on EVLIST_INTERNAL (evs b') x ↔ on EVLIST_INTERNAL (evs b) x;
  ar_aux : aux b' = aux b }.

(** The heap has a slot for the event. *)
Definition roomy (x : nat) (b : Base) : Prop :=
  (mh_n (timeheap b) < length (mh_p (timeheap b)))%nat ∨ x ∈ live (timeheap b).

Lemma slot_left x b b' : base_ok b → roomy x b → heap_left x b b' → (mh_n (timeheap b') < length (mh_p (timeheap b')))%nat.
Proof.
  intros Hb Hr (H1 & H2 & _ & H3). destruct Hr as [Hr|Hr]; [lia|]. specialize (H3 Hr).
  pose proof (hp_size _ _ (to_heap _ _ _ (co_timeouts _ (bo_core _ Hb)))). lia.
Qed.

(** An event whose deadline was set joins its queue. *)
Lemma insert_deadline x b : base_ok b → ¬ on EVLIST_TIMEOUT (evs b) x → good_tv (length (ctls b)) (ev_timeout (ev_of b x)) →
  (tv_ok (ev_timeout (ev_of b x)) → (mh_n (timeheap b) < length (mh_p (timeheap b)))%nat) →
  ∃ b', event_queue_insert x EVLIST_TIMEOUT b = Val b' ∧ base_ok b' ∧ flipped x EVLIST_TIMEOUT true b b'.
Proof.
  intros Hb Hx Hg Hroom. assert (∃ b', event_queue_insert x EVLIST_TIMEOUT b = Val b' ∧ core_ok b' ∧ flipped x EVLIST_TIMEOUT true b b') as (b' & -> & Hc & Hf).
  { pose proof Hg as [Hn|(i & Hi & Hcm)].
    - destruct (insert_heap_spec x b (bo_core _ Hb) Hx Hn (Hroom Hn)) as (b' & ? & ? & ? & _). by exists b'.
    - destruct (insert_common_spec x b (bo_core _ Hb) Hx Hg) as (b' & ? & ? & ? & _); [by apply (marked_common _ i)|]. by exists b'. }
  exists b'. split; [done|]. split; [|done]. split; [done|]. apply (flipped_maps x _ 0 true b b' bit_timeout ltac:(done) Hf), Hb.
Qed.

(** A persistent event remembers its interval. *)
Definition remember (x : nat) (tv : timeval) (abs : bool) (b : Base) : Base :=
  match ev_closure (ev_of b x) with
  | EV_CLOSURE_PERSIST => if abs then b else upd x (put_io_timeout tv) b
  | _ => b
  end.

Lemma remember_spec x tv abs b : base_ok b →
  let b' := remember x tv abs b in
  base_ok b' ∧ b_queues b' = b_queues b ∧ aux b' = aux b ∧ (∀ y, y ≠ x → ev_of b' y = ev_of b y) ∧
  ev_flags (ev_of b' x) = ev_flags (ev_of b x) ∧ ident (ev_of b' x) = ident (ev_of b x) ∧
  ev_io_timeout (ev_of b' x) = if keeps_io (ev_of b x) abs then ev_io_timeout (ev_of b x) else tv.
Proof.
  intros Hb. unfold remember, keeps_io. destruct (ev_closure (ev_of b x)); try done. destruct abs; [done|]. split.
  - apply upd_view; [done|done|]. destruct (co_events _ (bo_core _ Hb) x). by split.
  - split; [done|]. split; [done|]. rewrite !ev_of_upd, decide_True by done. split; [|done]. intros y Hy. by rewrite ev_of_upd, decide_False.
Qed.

(** The event off its timeout queue, and off the active queue where it is there for its timeout. *)
Lemma off_queues x b : base_ok b →
  ∃ b1 b2, (if has (ev_flags (ev_of b x)) EVLIST_TIMEOUT then event_queue_remove x EVLIST_TIMEOUT b else Val b) = Val b1 ∧
    (if has (ev_flags (ev_of b1 x)) EVLIST_ACTIVE && has (ev_res (ev_of b1 x)) EV_TIMEOUT
     then event_queue_remove x EVLIST_ACTIVE (abort_signal_loop x b1) else Val b1) = Val b2 ∧ base_ok b2 ∧
    (∀ y, body (ev_of b2 y) = body (ev_of b y)) ∧ (∀ y, y ≠ x → ev_flags (ev_of b2 y) = ev_flags (ev_of b y)) ∧
    ¬ on EVLIST_TIMEOUT (evs b2) x ∧
    (on EVLIST_ACTIVE (evs b2) x ↔ on EVLIST_ACTIVE (evs b) x ∧ has (ev_res (ev_of b x)) EV_TIMEOUT = false) ∧
    (∀ q k, queue_bit q k → k ≠ 0 → k ≠ 3 → on q (evs b2) x ↔ on q (evs b) x) ∧
    aux b2 = aux b ∧ (roomy x b → (mh_n (timeheap b2) < length (mh_p (timeheap b2)))%nat).
Proof.
  intros Hb. destruct (clear_timeout x b Hb) as (b1 & E1 & H1 & [K1 K2 K3 K4 K5] & _ & L1 & _).
  destruct (clear_stale x b1 H1) as (b2 & E2 & H2 & M1 & M2 & M3 & M4 & M5 & M6).
  exists b1, b2. split; [done|]. split; [done|]. split; [done|]. split; [intros y; by rewrite M1|].
  split; [intros y Hy; by rewrite M2, K2|]. split; [by rewrite (M3 _ 0) by first [constructor|done]|].
  split. { rewrite M4, (K4 _ 3) by first [constructor|done]. pose proof (K1 x) as [= _ _ -> _]. done. }
  split; [intros q k Hq Hk Hk'; rewrite (M3 q k), (K4 q k) by done; done|]. split; [congruence|].
  intros Hr. rewrite M6. by apply (slot_left x b).
Qed.

Lemma set_deadline_spec x tv abs b : base_ok b → good_tv (length (ctls b)) tv → (tv_ok tv → roomy x b) →
  ∃ b', set_deadline x tv abs b = Val (marked (length (ctls b)) tv, b') ∧ base_ok b' ∧ armed x tv abs b b'.
Proof.
  intros Hb Hg Hroom. unfold set_deadline. fold (remember x tv abs b).
  destruct (remember_spec x tv abs b Hb) as (H0 & Q0 & A0 & O0 & F0 & I0 & T0). set (b0 := remember x tv abs b) in *. clearbody b0.
  destruct (off_queues x b0 H0) as (b1 & b2 & -> & E2 & H2 & M1 & M2 & Hn2 & M3 & M4 & M5 & M6).
  cbn [mbind outcome_bind]. rewrite E2. cbn [mbind outcome_bind].
  assert (aux b2 = aux b) as Ea by congruence. pose proof (aux_ctls _ _ Ea) as El.
  rewrite (aux_gettime _ _ Ea). change (is_common_timeout tv b2) with (marked (length (ctls b2)) tv). rewrite El.
  set (dl := if abs then tv else _). change dl with (deadline (length (ctls b)) (gettime b) tv abs). clear dl.
  set (dl := deadline _ _ _ _). pose proof (deadline_kind _ (gettime b) tv abs (gettime_ok _ Hb) Hg) as Hk. fold dl in Hk.
  pose proof (upd_deadline x dl b2 H2 Hn2) as H3. set (b3 := upd x (put_timeout dl) b2) in *.
  assert (ev_of b3 x = put_timeout dl (ev_of b2 x)) as E3 by (unfold b3; rewrite ev_of_upd; by rewrite decide_True).
  assert (∀ q, on q (evs b3) x ↔ on q (evs b2) x) as On3 by (intros q; unfold on; change (evs b3 !!! x) with (ev_of b3 x); by rewrite E3).
  assert (∀ q, on q (evs b0) x ↔ on q (evs b) x) as On0 by (intros q; unfold on; change (evs b0 !!! x) with (ev_of b0 x); by rewrite F0).
  destruct (insert_deadline x b3) as (b4 & -> & H4 & Hf); [done|by rewrite On3|..].
  { rewrite E3. change (ctls b3) with (ctls b2). rewrite El. cbn [ev_timeout put_timeout]. by apply (same_kind_good _ _ tv). }
  { rewrite E3. intros Hdl. apply M6. destruct Hroom as [Hr|Hr]; [by apply (same_kind_normal (length (ctls b)) dl)|left|right];
      unfold timeheap in *; by rewrite Q0. }
  cbn [mbind outcome_bind]. exists b4. split; [done|]. split; [done|].
  assert (∀ q k, queue_bit q k → k ≠ 0 → on q (evs b4) x ↔ on q (evs b2) x) as O4.
  { intros q k Hq Hk0. rewrite (flipped_other x _ 0 true b3 b4 bit_timeout Hf q k), On3 by done. done. }
  pose proof (fl_body _ _ _ _ _ Hf x) as B4. rewrite E3 in B4. pose proof (M1 x) as B2.
  injection B4 as P1 P2 P3 P4 P5 P6 P7 P8 P9. injection B2 as R1 R2 R3 R4 R5 R6 R7 R8 R9. injection I0 as S1 S2 S3 S4 S5 S6 S7.
  split.
  - intros y Hy. destruct (flipped_same x _ _ _ _ y Hf Hy) as [N1 N2].
    assert (ev_of b3 y = ev_of b2 y) as E3' by (unfold b3; by rewrite ev_of_upd, decide_False). rewrite E3' in N1, N2.
    split; [by rewrite N1, M1, O0|by rewrite N2, M2, O0].
  - unfold ident. congruence.
  - done.
  - congruence.
  - apply (flipped_self x _ 0 true b3 b4 bit_timeout Hf). by rewrite decide_True.
  - rewrite (O4 _ 3), M3, On0 by first [constructor|done]. by rewrite S3.
  - rewrite (O4 _ 1), (M4 _ 1), On0 by first [constructor|done]. done.
  - rewrite (O4 _ 4), (M4 _ 4), On0 by first [constructor|done]. done.
  - rewrite (fl_aux _ _ _ _ _ Hf). exact Ea.
Qed.

(** ** The whole of an addition *)

(** A persistent event with an interval waits on the queue its interval asks for. *)
Definition persist_ok (b : Base) : Prop := ∀ x,
  ev_closure (ev_of b x) = EV_CLOSURE_PERSIST → evutil_timerisset (ev_io_timeout (ev_of b x)) = true →
  same_kind (length (ctls b)) (ev_timeout (ev_of b x)) (ev_io_timeout (ev_of b x)).

Definition is_timer (b : Base) (x : nat) : Prop := x ∈ ctl_timeout_event <$> ctls b.

(** The timers of the common timeouts wait on the heap. *)
Record timers_ok (b : Base) : Prop := {
  ti_nodup : NoDup (ctl_timeout_event <$> ctls b);
  ti_plain x : is_timer b x → ev_closure (ev_of b x) = EV_CLOSURE_NONE ∧ asks (ev_of b x) = false;
  ti_normal x : is_timer b x → on EVLIST_TIMEOUT (evs b) x → tv_ok (ev_timeout (ev_of b x)) }.

Record loop_ok (b : Base) : Prop := {
  lo_base : base_ok b;
  lo_persist : persist_ok b;
  lo_timers : timers_ok b }.

(** What may be added. *)
Record addable (x : nat) (tv : timeval) (abs : bool) (b : Base) : Prop := {
  ab_good : good_tv (length (ctls b)) tv;
  ab_heap : tv_ok tv → on EVLIST_TIMEOUT (evs b) x → tv_ok (ev_timeout (ev_of b x));
  ab_persist : abs = true → ev_closure (ev_of b x) = EV_CLOSURE_PERSIST → evutil_timerisset (ev_io_timeout (ev_of b x)) = true →
    same_kind (length (ctls b)) tv (ev_io_timeout (ev_of b x));
  ab_timer : is_timer b x → tv_ok tv ∧ abs = true }.

Record joined (x : nat) (tv : option timeval) (abs : bool) (rc : Z) (b b' : Base) : Prop := {
  jo_rc : rc = 0 ∨ rc = -1;
  jo_others y : y ≠ x → same_event b b' y;
  jo_ident : ident (ev_of b' x) = ident (ev_of b x);
  jo_internal : on EVLIST_INTERNAL (evs b') x ↔ on EVLIST_INTERNAL (evs b) x;
  jo_aux : aux b' = aux b;
  jo_asked : rc = 0 → asks (ev_of b x) = true → ¬ on EVLIST_ACTIVE (evs b) x → on EVLIST_INSERTED (evs b') x;
  jo_timeout : match tv with
    | Some t => rc = 0 →
        on EVLIST_TIMEOUT (evs b') x ∧ ev_timeout (ev_of b' x) = deadline (length (ctls b)) (gettime b) t abs ∧
        ev_io_timeout (ev_of b' x) = (if keeps_io (ev_of b x) abs then ev_io_timeout (ev_of b x) else t) ∧
        (on EVLIST_ACTIVE (evs b') x ↔ on EVLIST_ACTIVE (evs b) x ∧ has (ev_res (ev_of b x)) EV_TIMEOUT = false)
    | None => True
    end;
  jo_same : tv = None ∨ rc = -1 →
    body (ev_of b' x) = body (ev_of b x) ∧ (on EVLIST_TIMEOUT (evs b') x ↔ on EVLIST_TIMEOUT (evs b) x) ∧
    (on EVLIST_ACTIVE (evs b') x ↔ on EVLIST_ACTIVE (evs b) x) }.

Lemma mapped_joined x tv abs rc b b' : mapped x b b' → tv = None ∧ rc = 0 ∨ rc = -1 →
  (rc = 0 → asks (ev_of b x) = true → ¬ on EVLIST_ACTIVE (evs b) x → on EVLIST_INSERTED (evs b') x) → joined x tv abs rc b b'.
Proof.
  intros [K1 K2 K3 K4 K5] Hrc Hin. split; try done.
  - naive_solver.
  - intros y Hy. split; auto.
  - pose proof (K1 x) as [= E1 E2 E3 E4 E5 _ _ E8 E9]. unfold ident. congruence.
  - apply (K3 _ 4); [constructor|done].
  - destruct tv; [|done]. intros ->. by destruct Hrc as [[? _]|?].
  - intros _. split; [done|]. split; [apply (K3 _ 0)|apply (K3 _ 3)]; first [constructor|done].
Qed.

Lemma armed_joined x t abs b b1 b' : mapped x b b1 → armed x t abs b1 b' →
  (asks (ev_of b x) = true → ¬ on EVLIST_ACTIVE (evs b) x → on EVLIST_INSERTED (evs b1) x) → joined x (Some t) abs 0 b b'.
Proof.
  intros [K1 K2 K3 K4 K5] [A1 A2 A3 A4 A5 A6 A7 A8 A9] Hin. pose proof (K1 x) as B1.
  injection B1 as E1 E2 E3 E4 E5 E6 E7 E8 E9. split.
  - by left.
  - intros y Hy. destruct (A1 y Hy) as [N1 N2]. split; [by rewrite N1|by rewrite N2, K2].
  - rewrite A2. unfold ident. congruence.
  - rewrite A8. apply (K3 _ 4); [constructor|done].
  - congruence.
  - intros _ Ha Hn. apply A7. by apply Hin.
  - intros _. split; [done|]. rewrite A3, A4, A6, (aux_gettime _ _ K4), (aux_ctls _ _ K4), E3, E7. split; [done|].
    split; [unfold keeps_io; by rewrite E5|]. rewrite (K3 _ 3) by first [constructor|done]. done.
  - by intros [?|?].
Qed.

Definition with_heap (h : min_heap) (b : Base) : Base := set_queues (set_timeheap h (b_queues b)) b.

Lemma base_reserved h b : base_ok b → heap_ok (evs b) h → live h = live (timeheap b) → base_ok (with_heap h b).
Proof.
  intros [[C1 C2 C3 C4 C5 C6] Hm] Hh Hl. split; [|done]. split; try done.
  - destruct C2 as [T1 T2 T3 T4 T5]. split; [done| |done|done|done]. intros x. change (timeheap (with_heap h b)) with h. rewrite Hl. apply T2.
  - change (event_count b = total (evs b) (set_timeheap h (b_queues b))). rewrite C5. unfold total. cbn [q_eventqueue q_activequeues q_timeheap q_ctls set_timeheap].
    by rewrite Hl.
Qed.

(** Memory for one more timeout. *)
Lemma reserve_spec x (tv : option timeval) b : base_ok b →
  (∀ t, tv = Some t → tv_ok t → on EVLIST_TIMEOUT (evs b) x → tv_ok (ev_timeout (ev_of b x))) →
  ∃ ok b', match tv with
    | Some _ => if negb (has (ev_flags (ev_of b x)) EVLIST_TIMEOUT) then
        let '(ok, h) := min_heap_reserve (timeheap b) (1 + min_heap_size (timeheap b)) in (ok, with_heap h b) else (true, b)
    | None => (true, b)
    end = (ok, b') ∧ base_ok b' ∧ (∃ h, b' = with_heap h b) ∧ (ok = true → ∀ t, tv = Some t → tv_ok t → roomy x b').
Proof.
  intros Hb Hheap. pose proof (to_heap _ _ _ (co_timeouts _ (bo_core _ Hb))) as Hh.
  assert (∃ h, b = with_heap h b) as Hsame.
  { exists (timeheap b). destruct b as [? q]. by destruct q. }
  destruct tv as [t|]; [|by eexists _, _]. destruct (has _ _) eqn:Et; cbn [negb].
  - eexists _, _. split; [done|]. split; [done|]. split; [done|]. intros _ t' [= <-] Ht. right.
    apply (to_in _ _ _ (co_timeouts _ (bo_core _ Hb))). split; [done|]. apply marked_normal. by apply (Hheap t).
  - destruct (heap_reserve_spec (timeheap b) (1 + min_heap_size (timeheap b)) (evs b) Hh) as [->|(h & -> & Hh' & Hn & Hl & Hr)].
    + eexists _, _. split; [done|]. split; [by apply base_reserved|]. split; [by eexists|done].
    + eexists _, _. split; [done|]. split; [by apply base_reserved|]. split; [by eexists|]. intros _ _ _ _. left.
      change (timeheap (with_heap h b)) with h. unfold min_heap_size in Hr. lia.
Qed.

(** The call of [schedule] that may follow. *)
Definition then_schedule (schedule : Ctl → nat → Base → outcome Base) (x : nat) (tv : option timeval) (n : nat) (rc : Z) (b : Base)
  : outcome (Z * Base) :=
  match tv with
  | Some t =>
      if (rc =? 0) && marked n t then
        c ← or_undef OutOfBounds (ctls b !! COMMON_TIMEOUT_IDX (ev_timeout (ev_of b x)));
        b ← (if bool_decide (head (ctl_events c) = Some x) then schedule c x b else Val b); Val (rc, b)
      else Val (rc, b)
  | None => Val (rc, b)
  end.

Lemma add_first schedule x tv abs b : base_ok b → (∀ t, tv = Some t → addable x t abs b) →
  ∃ rc b', event_add_body schedule x tv abs b = then_schedule schedule x tv (length (ctls b)) rc b' ∧ base_ok b' ∧ joined x tv abs rc b b'.
Proof.
  intros Hb Hpre. unfold event_add_body. pose proof (eg_flags _ _ (co_events _ (bo_core _ Hb) x)) as Hfl.
  unfold flags_ok in Hfl. rewrite Hfl. cbn [Z.eqb negb].
  destruct (reserve_spec x tv b Hb) as (ok & br & E & Hbr & (h & Ebr) & Hroom); [intros t Et; apply Hpre; done|].
  unfold with_heap in E. rewrite E. clear E. destruct ok; cbn [negb].
  2: { exists (-1), br. split; [by destruct tv|]. split; [done|]. apply mapped_joined; [rewrite Ebr; by split|by right|done]. }
  destruct (add_io_spec x br Hbr) as (rc & b1 & -> & Hb1 & Hma & Hh1 & Hrc). cbn [mbind outcome_bind].
  assert (mapped x b b1) as Hma' by (destruct Hma as [M1 M2 M3 M4 M5]; by subst br; split).
  assert (rc = 0 → asks (ev_of b x) = true → ¬ on EVLIST_ACTIVE (evs b) x → on EVLIST_INSERTED (evs b1) x) as Hin
    by (subst br; by destruct Hrc as [[_ ?]| ->]).
  destruct tv as [t|]; cbn [then_schedule].
  2: { exists rc, b1. split; [done|]. split; [done|]. apply mapped_joined; [done|naive_solver|done]. }
  destruct Hrc as [[-> _]| ->]; cbn [Z.eqb negb andb].
  2: { exists (-1), b1. split; [done|]. split; [done|]. apply mapped_joined; [done|naive_solver|done]. }
  pose proof (aux_ctls _ _ (ma_aux _ _ _ Hma')) as El. unfold add_timeout.
  destruct (set_deadline_spec x t abs b1) as (b2 & -> & Hb2 & Har); [done|rewrite El; by apply Hpre| |].
  { intros Ht. unfold roomy. rewrite Hh1. by apply (Hroom eq_refl t). }
  cbn [mbind outcome_bind]. rewrite El. exists 0, b2. split; [|split; [done|by apply (armed_joined x t abs b b1); [..|apply Hin]]].
  destruct (marked _ _); [|done]. by destruct (or_undef _ _).
Qed.

Lemma aux_timers b b' : aux b' = aux b → ctl_timeout_event <$> ctls b' = ctl_timeout_event <$> ctls b.
Proof.
  intros [= _ _ _ E _]. apply (f_equal (fmap snd)) in E. by rewrite <- !list_fmap_compose in E.
Qed.
Lemma aux_timer b b' x : aux b' = aux b → is_timer b' x ↔ is_timer b x.
Proof. intros E. unfold is_timer. by rewrite (aux_timers _ _ E). Qed.

Lemma joined_cases x tv abs rc b b' : joined x tv abs rc b b' → (tv = None ∨ rc = -1) ∨ ∃ t, tv = Some t ∧ rc = 0.
Proof. intros Hj. destruct tv; [|by left; left]. destruct (jo_rc _ _ _ _ _ _ Hj); [right; by eexists|left; by right]. Qed.

Lemma joined_persist x tv abs rc b b' : base_ok b → joined x tv abs rc b b' → (∀ t, tv = Some t → addable x t abs b) →
  persist_ok b → persist_ok b'.
Proof.
  intros Hb Hj Hpre Hp y. pose proof (aux_ctls _ _ (jo_aux _ _ _ _ _ _ Hj)) as El. rewrite El. destruct (decide (y = x)) as [->|Hy].
  2: { destruct (jo_others _ _ _ _ _ _ Hj y Hy) as [[= _ _ _ _ -> -> -> _ _] _]. apply Hp. }
  destruct (joined_cases _ _ _ _ _ _ Hj) as [Hs|(t & -> & ->)].
  { destruct (jo_same _ _ _ _ _ _ Hj Hs) as [[= _ _ _ _ -> -> -> _ _] _]. apply Hp. }
  destruct (jo_timeout _ _ _ _ _ _ Hj eq_refl) as (_ & -> & -> & _). pose proof (jo_ident _ _ _ _ _ _ Hj) as [= _ _ _ _ -> _ _].
  unfold keeps_io. intros Hc. rewrite Hc. pose proof (Hpre t eq_refl) as [G1 G2 G3 G4]. intros Hset.
  destruct abs; [cbn; by apply G3|]. apply deadline_kind; [by apply gettime_ok|done].
Qed.

Lemma joined_timers x tv abs rc b b' : joined x tv abs rc b b' → (∀ t, tv = Some t → addable x t abs b) → timers_ok b → timers_ok b'.
Proof.
  intros Hj Hpre [T1 T2 T3]. pose proof (jo_aux _ _ _ _ _ _ Hj) as Ea. split.
  - by rewrite (aux_timers _ _ Ea).
  - intros y. rewrite (aux_timer _ _ _ Ea). intros Hy. destruct (T2 y Hy) as [C1 C2]. unfold asks in *. destruct (decide (y = x)) as [->|Hne].
    + by pose proof (jo_ident _ _ _ _ _ _ Hj) as [= _ -> _ _ -> _ _].
    + by destruct (jo_others _ _ _ _ _ _ Hj y Hne) as [[= _ -> _ _ -> _] _].
  - intros y. rewrite (aux_timer _ _ _ Ea). intros Hy Hon. destruct (decide (y = x)) as [->|Hne].
    + destruct (joined_cases _ _ _ _ _ _ Hj) as [Hs|(t & -> & ->)].
      * destruct (jo_same _ _ _ _ _ _ Hj Hs) as ([= _ _ _ _ _ -> _ _ _] & Ht & _). apply T3; [done|]. by apply Ht.
      * destruct (jo_timeout _ _ _ _ _ _ Hj eq_refl) as (_ & -> & _). by destruct (ab_timer _ _ _ _ (Hpre t eq_refl) Hy) as [? ->].
    + destruct (jo_others _ _ _ _ _ _ Hj y Hne) as [[= _ _ _ _ _ -> _ _ _] Hfl]. apply T3; [done|]. unfold on in *.
      change (evs b !!! y) with (ev_of b y). by rewrite <- Hfl.
Qed.

(** The timer of a common timeout is set for the first event of its queue. *)
Lemma schedule_spec c x b : loop_ok b → c ∈ ctls b → good_tv (length (ctls b)) (ev_timeout (ev_of b x)) →
  ∃ rc b', common_timeout_schedule c x b = Val b' ∧ loop_ok b' ∧
    joined (ctl_timeout_event c) (Some (masked (ev_timeout (ev_of b x)))) true rc b b'.
Proof.
  intros [Hb Hp Ht] Hc Hg. assert (is_timer b (ctl_timeout_event c)) as Htm by (unfold is_timer; rewrite list_elem_of_fmap; by exists c).
  assert (tv_ok (masked (ev_timeout (ev_of b x)))) as Hm.
  { destruct Hg as [Hn|(i & _ & Hcm)]; [by destruct (normal_fields _ Hn) as (_ & -> & _)|]. by destruct (common_fields i _ Hcm) as (_ & _ & ? & _). }
  assert (∀ t, Some (masked (ev_timeout (ev_of b x))) = Some t → addable (ctl_timeout_event c) t true b) as Hpre.
  { intros t [= <-]. split; [by left|intros _; by apply Ht| |done]. destruct (ti_plain _ Ht _ Htm) as [-> _]. done. }
  unfold common_timeout_schedule. destruct (add_first (λ _ _ _, Undef Hang) _ _ true b Hb Hpre) as (rc & b' & -> & Hb' & Hj).
  exists rc, b'. cbn [then_schedule]. rewrite marked_normal, andb_false_r by done. split; [done|]. split; [|done].
  split; [done|by apply (joined_persist _ _ _ _ b b' Hb Hj)|by apply (joined_timers _ _ _ _ b b' Hj)].
Qed.

Lemma add_spec x tv abs b : loop_ok b → (∀ t, tv = Some t → addable x t abs b) →
  ∃ rc b1 b2, event_add_internal x tv abs b = Val (rc, b2) ∧ loop_ok b2 ∧ joined x tv abs rc b b1 ∧
    (b2 = b1 ∨ ∃ tm t rc', is_timer b tm ∧ joined tm (Some t) true rc' b1 b2).
Proof.
  intros [Hb Hp Ht] Hpre. unfold event_add_internal. destruct (add_first common_timeout_schedule x tv abs b Hb Hpre) as (rc & b1 & -> & Hb1 & Hj).
  assert (loop_ok b1) as H1 by (split; [done|by apply (joined_persist _ _ _ _ b b1 Hb Hj)|by apply (joined_timers _ _ _ _ b b1 Hj)]).
  exists rc, b1. destruct tv as [t|]; cbn [then_schedule]; [|exists b1; auto]. destruct (_ && _) eqn:Ec; [|exists b1; auto].
  apply andb_true_iff in Ec as [->%Z.eqb_eq Hm]. destruct (jo_timeout _ _ _ _ _ _ Hj eq_refl) as (Hon & Htv & _).
  pose proof (aux_ctls _ _ (jo_aux _ _ _ _ _ _ Hj)) as El.
  pose proof (to_tv _ _ _ (co_timeouts _ (bo_core _ Hb1)) x Hon) as Hg. change (evs b1 !!! x) with (ev_of b1 x) in Hg.
  pose proof (Hpre t eq_refl) as [[G1|(i & Hi & G1)] _ _ _]; [by rewrite marked_normal in Hm|].
  assert (common_tv i (ev_timeout (ev_of b1 x))) as Hc.
  { rewrite Htv. destruct (deadline_kind (length (ctls b)) (gettime b) t abs (gettime_ok _ Hb)) as [[_ Hn]|(j & _ & Hj1 & Hj2)]; [right; by exists i| |].
    - destruct (common_fields i t G1) as (E & _), (normal_fields t Hn) as (E' & _). by rewrite E in E'.
    - destruct (common_fields _ _ G1) as (_ & E1 & _), (common_fields _ _ Hj2) as (_ & E2 & _). rewrite E1 in E2. by subst. }
  destruct (marked_common (length (ctls b)) i _ Hc Hi) as [_ ->]. destruct (lookup_lt_is_Some_2 (ctls b1) i ltac:(lia)) as [c Ec].
  rewrite Ec. cbn [or_undef mbind outcome_bind]. destruct (bool_decide _); [|exists b1; auto].
  destruct (schedule_spec c x b1 H1) as (rc' & b2 & -> & H2 & Hj2); [by apply list_elem_of_lookup; exists i|done|].
  exists b2. split; [done|]. split; [done|]. split; [done|]. right. eexists _, _, _. split; [|done].
  rewrite <- (aux_timer _ _ _ (jo_aux _ _ _ _ _ _ Hj)). unfold is_timer. rewrite list_elem_of_fmap. exists c. split; [done|].
  apply list_elem_of_lookup. by exists i.
Qed.
End add.
