(* ===== verification/EvTimeouts.v ===== *)
(** Timeouts: what keeps the invariant of a base with its common timeouts, and what the
    timeouts of the heap and of the common queues do when their time has come
    (timeout_process, timeout_next and common_timeout_callback of EvLoop.v). *)

From Stdlib Require Import Sorted.
From S2P Require Import Prelude EvFlags BufChain EvHeap EvHeapInv EvMap EvMapInv Epoll EvBase EvLoop EvInv EvDel EvAdd.

Section timeouts.
Context {HM : Malloc} {HE : EventOp} {HL : EventOpLaws}.

(** ** Changes that keep the invariant *)

Definition shape (b : Base) := (ctl_shape <$> ctls b, length (activequeues b)).

Lemma aux_shape b b' : aux b' = aux b → shape b' = shape b.
Proof. unfold shape. by intros [= _ _ _ -> ->]. Qed.
Lemma shape_ctls b b' : shape b' = shape b → length (ctls b') = length (ctls b).
Proof. unfold shape. intros [= E _]. apply (f_equal length) in E. by rewrite !length_fmap in E. Qed.
Lemma shape_timers b b' : shape b' = shape b → ctl_timeout_event <$> ctls b' = ctl_timeout_event <$> ctls b.
Proof. intros [= E _]. apply (f_equal (fmap snd)) in E. by rewrite <- !list_fmap_compose in E. Qed.

Definition kview (e : Event) := (ev_events e, ev_closure e, ev_timeout e, ev_io_timeout e).
Lemma tview_kview e e' : tview e' = tview e → kview e' = kview e.
Proof. intros [= _ E2 _ E4 E5 E6]. unfold kview. congruence. Qed.

(** No event takes on a timeout, and what its timeout depends on stays. *)
Lemma loop_view b b' : loop_ok b → base_ok b' → shape b' = shape b → (∀ y, kview (ev_of b' y) = kview (ev_of b y)) →
  (∀ y, on EVLIST_TIMEOUT (evs b') y → on EVLIST_TIMEOUT (evs b) y) → loop_ok b'.
Proof.
  intros [Hb Hp [T1 T2 T3]] Hb' Hs Hv Ht. split; [done|..].
  - intros y. rewrite (shape_ctls _ _ Hs). pose proof (Hv y) as [= _ -> -> ->]. apply Hp.
  - unfold is_timer in *. split; unfold is_timer, asks; rewrite (shape_timers _ _ Hs); [done|..].
    + intros y Hy. pose proof (Hv y) as [= -> -> _ _]. by apply T2.
    + intros y Hy Hon. pose proof (Hv y) as [= _ _ -> _]. apply T3; auto.
Qed.

Lemma loop_quiet b b' : loop_ok b → evs b' = evs b → b_queues b' = b_queues b → event_count b' = event_count b →
  event_count_active b' = event_count_active b → maps b' = maps b → tv_ok (tv_cache b') ∧ tv_ok (clock b') → loop_ok b'.
Proof.
  intros Hl He Hq Hn Hc Hm Ht. assert (∀ y, ev_of b' y = ev_of b y) as Ey by (intros y; unfold ev_of; by rewrite He).
  apply (loop_view b); [done| |..].
  - apply (base_agree b); try done; [apply Hl| |].
    + rewrite He. by apply agree_view.
    + intros y. rewrite Ey. apply Hl.
  - unfold shape, ctls, activequeues. by rewrite Hq.
  - intros y. by rewrite Ey.
  - intros y. by rewrite He.
Qed.
Lemma loop_flags f b : loop_ok b → loop_ok (set_flags f b).
Proof. intros Hl. apply (loop_quiet b); try done. apply Hl. Qed.
Lemma loop_times t b : loop_ok b → tv_ok (t_cache t) → tv_ok (t_clock t) → loop_ok (set_times t b).
Proof. intros Hl H1 H2. by apply (loop_quiet b). Qed.
Lemma loop_deferred d b : loop_ok b → loop_ok (set_deferred d b).
Proof. intros Hl. apply (loop_quiet b); try done. apply Hl. Qed.
Lemma loop_log x r b : loop_ok b → loop_ok (log_ran x r b).
Proof. intros Hl. apply (loop_quiet b); try done. apply Hl. Qed.

Lemma loop_active x res ncalls b : loop_ok b →
  ∃ b', event_active_nolock x res ncalls b = Val b' ∧ loop_ok b' ∧ shape b' = shape b ∧ maps b' = maps b.
Proof.
  intros Hl. destruct (active_spec x res ncalls b (lo_base _ Hl)) as (b' & He & Hb' & Ha & Hm & _ & Ho & _ & Hq & Hv & _).
  exists b'. split; [done|]. split; [|split; [by apply aux_shape|done]]. apply (loop_view b); [done|done|by apply aux_shape|..].
  - intros y. apply tview_kview. destruct (decide (y = x)) as [->|Hy]; [done|]. apply body_tview. by apply Ho.
  - intros y. destruct (decide (y = x)) as [->|Hy]; [apply (Hq _ 0); [constructor|done]|].
    unfold on. change (evs b' !!! y) with (ev_of b' y). change (evs b !!! y) with (ev_of b y). by destruct (Ho y Hy) as [_ ->].
Qed.

Lemma loop_deleted x b b' : loop_ok b → base_ok b' → deleted x b b' → loop_ok b'.
Proof.
  intros Hl Hb' Hd. apply (loop_view b); [done|done|apply aux_shape, Hd|..].
  - intros y. apply tview_kview, body_tview, Hd.
  - intros y. destruct (decide (y = x)) as [->|Hy]; [intros Hon; by destruct (de_timeout _ _ _ Hd)|].
    unfold on. change (evs b' !!! y) with (ev_of b' y). change (evs b !!! y) with (ev_of b y). by rewrite (de_flags _ _ _ Hd y Hy).
Qed.
Lemma loop_del x b : reliable_del → loop_ok b → ∃ b', event_del_internal x b = Val (0, b') ∧ loop_ok b' ∧ deleted x b b'.
Proof.
  intros Hrel Hl. destruct (del_spec x b Hrel (lo_base _ Hl)) as (b' & He & Hb' & Hd). exists b'. split; [done|].
  split; [by apply (loop_deleted x b)|done].
Qed.

Lemma loop_add x tv abs b : loop_ok b → (∀ t, tv = Some t → addable x t abs b) →
  ∃ rc b', event_add_internal x tv abs b = Val (rc, b') ∧ loop_ok b' ∧ shape b' = shape b.
Proof.
  intros Hl Hpre. destruct (add_spec x tv abs b Hl Hpre) as (rc & b1 & b2 & He & Hl2 & Hj & Ht). exists rc, b2. split; [done|].
  split; [done|]. pose proof (aux_shape _ _ (jo_aux _ _ _ _ _ _ Hj)) as E1. destruct Ht as [->|(tm & t & rc' & _ & Hj')]; [done|].
  by rewrite (aux_shape _ _ (jo_aux _ _ _ _ _ _ Hj')).
Qed.


(** ** Firing *)

(** The active queues when the events of [l] have left them and joined at the end. *)
Definition requeued (pri : nat → nat) (l : list nat) (qs : list (list nat)) : list (list nat) :=
  imap (λ p q, filter (.∉ l) q ++ filter (λ x, pri x = p) l) qs.

Record fired (l : list nat) (b b' : Base) : Prop := {
  fi_others y : y ∉ l → same_event b b' y;
  fi_tview y : tview (ev_of b' y) = tview (ev_of b y);
  fi_active x : x ∈ l → on EVLIST_ACTIVE (evs b') x ∧ ev_res (ev_of b' x) = EV_TIMEOUT;
  fi_off x : x ∈ l → ¬ on EVLIST_TIMEOUT (evs b') x ∧ ¬ on EVLIST_INSERTED (evs b') x;
  fi_queues : activequeues b' = requeued (λ x, ev_pri (ev_of b x)) l (activequeues b);
  fi_aux : aux b' = aux b }.

Lemma requeued_one pri x q (qs : list (list nat)) :
  (tailq_remove x <$> qs) !! pri x = Some q →
  <[pri x := q ++ [x]]> (tailq_remove x <$> qs) = requeued pri [x] qs.
Proof.
  intros Hq. apply list_eq. intros p. unfold requeued. rewrite list_lookup_imap.
  assert (∀ q' : list nat, filter (.∉ [x]) q' = tailq_remove x q') as Ef.
  { intros q'. unfold tailq_remove. apply list_filter_iff. intros y. by rewrite list_elem_of_singleton. }
  destruct (decide (p = pri x)) as [->|Hne].
  - rewrite list_lookup_insert_eq by (by eapply lookup_lt_Some). rewrite list_lookup_fmap in Hq.
    destruct (qs !! pri x) as [q0|]; [|done]. injection Hq as <-. cbn [fmap option_fmap option_map]. by rewrite Ef, filter_cons_True.
  - rewrite list_lookup_insert_ne, list_lookup_fmap by done. destruct (qs !! p) as [q0|]; [|done].
    cbn [fmap option_fmap option_map]. by rewrite Ef, filter_cons_False, filter_nil, app_nil_r by done.
Qed.

Lemma fire_spec x b : reliable_del → loop_ok b →
  ∃ b1 b2, event_del_internal x b = Val (0, b1) ∧ event_active_nolock x EV_TIMEOUT 1 b1 = Val b2 ∧
    loop_ok b2 ∧ fired [x] b b2 ∧ heap_left x b b2.
Proof.
  intros Hrel Hl. destruct (loop_del x b Hrel Hl) as (b1 & He & Hl1 & Hd). exists b1.
  destruct (active_spec x EV_TIMEOUT 1 b1 (lo_base _ Hl1)) as (b2 & Ha & Hb2 & Ea & _ & Eh & Ho & Hon & Hq & Hv & Hnew). exists b2.
  destruct (loop_active x EV_TIMEOUT 1 b1 Hl1) as (b2' & Ha' & Hl2 & _). rewrite Ha in Ha'. injection Ha' as <-.
  split; [done|]. split; [done|]. split; [done|]. destruct (Hnew (de_active _ _ _ Hd)) as (Hr & q & Hq1 & Hq2).
  destruct Hd as [D1 D2 D3 D4 D5 D6 D7 D8 D9 D10]. pose proof (body_pri _ _ (D1 x)) as Ep.
  split; [|unfold heap_left in *; by rewrite Eh]. split.
  - intros y Hy. assert (y ≠ x) as Hne by (intros ->; apply Hy; by left). destruct (Ho y Hne) as [O1 O2].
    split; [by rewrite O1|by rewrite O2, D2].
  - intros y. rewrite <- (body_tview _ _ (D1 y)). destruct (decide (y = x)) as [->|Hne]; [done|]. apply body_tview. by apply Ho.
  - intros y ->%list_elem_of_singleton. done.
  - intros y ->%list_elem_of_singleton. split; [rewrite (Hq _ 0) by first [constructor|done]; done|].
    rewrite (Hq _ 1) by first [constructor|done]. done.
  - rewrite Hq2. unfold active_left in D9. rewrite D9 in Hq1 |- *. rewrite Ep in *. by apply (requeued_one (λ y, ev_pri (ev_of b y))).
  - congruence.
Qed.

Lemma filter_id (P : nat → Prop) `{∀ x, Decision (P x)} (l : list nat) : (∀ x, x ∈ l → P x) → filter P l = l.
Proof.
  induction l as [|x l IH]; intros HP; [done|]. rewrite filter_cons_True by (apply HP; by left). f_equal. apply IH.
  intros y Hy. apply HP. by right.
Qed.

Lemma requeued_app pri l1 l2 qs : (∀ x, x ∈ l1 → x ∉ l2) →
  requeued pri l2 (requeued pri l1 qs) = requeued pri (l1 ++ l2) qs.
Proof.
  intros Hd. unfold requeued. apply list_eq. intros p. rewrite !list_lookup_imap. destruct (qs !! p) as [q|]; [|done].
  cbn [fmap option_fmap option_map]. f_equal. rewrite !filter_app, list_filter_filter, <- app_assoc.
  f_equal; [apply list_filter_iff; intros y; rewrite elem_of_app; naive_solver|]. f_equal.
  apply filter_id. intros y [_ Hy]%list_elem_of_filter. by apply Hd.
Qed.
Lemma requeued_ext pri pri' l qs : (∀ x, pri' x = pri x) → requeued pri' l qs = requeued pri l qs.
Proof. intros Hp. unfold requeued. apply imap_ext. intros p q _. f_equal. apply list_filter_iff. intros x. by rewrite Hp. Qed.
Lemma requeued_nil pri qs : requeued pri [] qs = qs.
Proof.
  apply list_eq. intros p. unfold requeued. rewrite list_lookup_imap. destruct (qs !! p) as [q|]; [|done].
  cbn [fmap option_fmap option_map]. rewrite filter_nil, app_nil_r. f_equal. apply filter_id. intros x _. apply not_elem_of_nil.
Qed.

Lemma tview_pri e e' : tview e' = tview e → ev_pri e' = ev_pri e ∧ ev_timeout e' = ev_timeout e.
Proof. by intros [= _ _ -> _ -> _]. Qed.

Lemma fired_nil b : fired [] b b.
Proof. split; try done; try (intros x Hx; by apply not_elem_of_nil in Hx). by rewrite requeued_nil. Qed.
Lemma fired_app l1 l2 b b1 b2 : (∀ x, x ∈ l1 → x ∉ l2) → fired l1 b b1 → fired l2 b1 b2 → fired (l1 ++ l2) b b2.
Proof.
  intros Hd [F1 F2 F3 F4 F5 F6] [G1 G2 G3 G4 G5 G6].
  assert (∀ q y, y ∉ l2 → on q (evs b2) y ↔ on q (evs b1) y) as Hon.
  { intros q y Hy. unfold on. change (evs b2 !!! y) with (ev_of b2 y). change (evs b1 !!! y) with (ev_of b1 y). by destruct (G1 y Hy) as [_ ->]. }
  split.
  - intros y [H1 H2]%not_elem_of_app. destruct (F1 y H1), (G1 y H2). split; congruence.
  - intros y. by rewrite G2.
  - intros x [Hx|Hx]%elem_of_app; [|by apply G3]. rewrite Hon by auto. split; [by apply F3|].
    destruct (G1 x (Hd x Hx)) as [[= _ _ -> _] _]. by apply F3.
  - intros x [Hx|Hx]%elem_of_app; [|by apply G4]. rewrite !Hon by auto. by apply F4.
  - rewrite G5, F5, <- (requeued_app _ _ _ _ Hd). apply requeued_ext. intros x. apply (tview_pri _ _ (F2 x)).
  - congruence.
Qed.

(** The events of the heap that are due at [now], in the order of their deadlines. *)
Record due (now : timeval) (b : Base) (l : list nat) : Prop := {
  du_nodup : NoDup l;
  du_iff x : x ∈ l ↔ x ∈ live (timeheap b) ∧ tle (ev_timeout (ev_of b x)) now;
  du_sorted : StronglySorted (λ x y, tle (ev_timeout (ev_of b x)) (ev_timeout (ev_of b y))) l }.

Lemma sorted_ext (R R' : nat → nat → Prop) l : (∀ x y, R x y → R' x y) → StronglySorted R l → StronglySorted R' l.
Proof. intros HR. induction 1 as [|x l Hs IH HF]; constructor; [done|]. eapply Forall_impl; [exact HF|]. auto. Qed.

Lemma due_none now b : (∀ y, y ∈ live (timeheap b) → ¬ tle (ev_timeout (ev_of b y)) now) →
  fired [] b b ∧ due now b [] ∧ ∀ x, x ∈ live (timeheap b) ↔ x ∈ live (timeheap b) ∧ x ∉ [].
Proof.
  intros Hno. split; [apply fired_nil|]. split.
  - split; [by apply NoDup_nil| |constructor]. intros y. split; [by intros ?%not_elem_of_nil|]. intros [Hy Ht]. by destruct (Hno y Hy).
  - intros x. split; [|by intros [? _]]. intros Hx. split; [done|]. apply not_elem_of_nil.
Qed.

Lemma timeout_loop_spec fuel now b : reliable_del → loop_ok b → (mh_n (timeheap b) <= fuel)%nat →
  ∃ b' l, timeout_loop fuel now b = Val b' ∧ loop_ok b' ∧ fired l b b' ∧ due now b l ∧
    ∀ x, x ∈ live (timeheap b') ↔ x ∈ live (timeheap b) ∧ x ∉ l.
Proof.
  intros Hrel. revert b. induction fuel as [|fuel IH]; intros b Hl Hn.
  all: pose proof (to_heap _ _ _ (co_timeouts _ (bo_core _ (lo_base _ Hl)))) as Hh.
  all: cbn [timeout_loop]; destruct (min_heap_top (timeheap b)) as [x|] eqn:Et.
  2,4: exists b, []; split; [done|]; split; [done|]; apply due_none; apply (heap_top_none _ _ Hh) in Et; rewrite Et;
    intros y Hy; by apply not_elem_of_nil in Hy.
  all: destruct (heap_top_min _ _ _ Hh Et) as [Hx Hmin]; destruct (evutil_timercmp _ _ _) eqn:Ec.
  1,3: exists b, []; split; [done|]; split; [done|]; apply due_none; intros y Hy Hdue;
    pose proof (tle_trans _ _ _ (Hmin y Hy) Hdue) as Hc; unfold tle, key in Hc; change (evs b !!! x) with (ev_of b x) in Hc; congruence.
  { pose proof (length_live _ (hp_size _ _ Hh)) as El. destruct (live (timeheap b)); [by apply not_elem_of_nil in Hx|cbn in El; lia]. }
  destruct (fire_spec x b Hrel Hl) as (b1 & b2 & -> & E2 & Hl2 & Hf & Hleft). cbn [mbind outcome_bind]. rewrite E2. cbn [mbind outcome_bind].
  pose proof Hleft as (_ & _ & Hlive & Hsz).
  destruct (IH b2 Hl2) as (b' & l & -> & Hl' & Hf' & [D1 D2 D3] & Hrest); [specialize (Hsz Hx); lia|].
  assert (x ∉ l) as Hxl by (rewrite D2, Hlive; naive_solver).
  assert (∀ y, ev_timeout (ev_of b2 y) = ev_timeout (ev_of b y)) as Etv by (intros y; apply (tview_pri _ _ (fi_tview _ _ _ Hf y))).
  exists b', ([x] ++ l). split; [done|]. split; [done|].
  split; [apply (fired_app [x] l b b2 b'); [by intros y ->%list_elem_of_singleton|done|done]|]. split; [split|].
  - by apply NoDup_cons.
  - intros y. cbn [app]. rewrite elem_of_cons, D2, Hlive, Etv. split; [|destruct (decide (y = x)); naive_solver]. intros [->|]; [done|naive_solver].
  - cbn [app]. constructor.
    + eapply sorted_ext; [|exact D3]. intros y z Hyz. cbn in *. by rewrite !Etv in Hyz.
    + apply Forall_forall. intros y Hy. apply Hmin. apply D2 in Hy as [Hy _]. by apply Hlive in Hy as [_ ?].
  - intros y. rewrite Hrest, Hlive. cbn [app]. rewrite not_elem_of_cons. naive_solver.
Qed.

Lemma timeout_process_spec b : reliable_del → loop_ok b →
  ∃ b' l, timeout_process b = Val b' ∧ loop_ok b' ∧ fired l b b' ∧ due (gettime b) b l ∧
    ∀ x, x ∈ live (timeheap b') ↔ x ∈ live (timeheap b) ∧ x ∉ l.
Proof.
  intros Hrel Hl. unfold timeout_process, min_heap_empty, min_heap_size. destruct (Nat.eqb_spec (mh_n (timeheap b)) 0) as [E|E].
  - exists b, []. split; [done|]. split; [done|]. apply due_none. intros y Hy. unfold live in Hy. rewrite E in Hy. by apply not_elem_of_nil in Hy.
  - by apply timeout_loop_spec.
Qed.

(** How long the loop may sleep. *)
Lemma timeout_next_spec b : base_ok b →
  ∃ o, timeout_next b = Val o ∧
    match o with
    | None => live (timeheap b) = []
    | Some tv => tv_ok tv ∧ ∃ x, x ∈ live (timeheap b) ∧
        (∀ y, y ∈ live (timeheap b) → tle (ev_timeout (ev_of b x)) (ev_timeout (ev_of b y))) ∧
        usecs tv = Z.max 0 (usecs (ev_timeout (ev_of b x)) - usecs (gettime b))
    end.
Proof.
  intros Hb. destruct (co_timeouts _ (bo_core _ Hb)) as [Hh Hin Htv _]. unfold timeout_next.
  destruct (min_heap_top (timeheap b)) as [x|] eqn:Et; [|exists None; split; [done|]; by apply (heap_top_none _ _ Hh)].
  destruct (heap_top_min _ _ _ Hh Et) as [Hx Hmin]. pose proof (gettime_ok _ Hb) as Hn.
  assert (tv_ok (ev_timeout (ev_of b x))) as Hd.
  { apply Hin in Hx as [Hon Hm]. destruct (Htv x Hon) as [?|(i & Hi & Hc)]; [done|]. by rewrite (proj1 (marked_common _ i _ Hc Hi)) in Hm. }
  destruct (timersub_spec _ _ Hd Hn) as [Hs1 Hs2]. unfold tv_ok, usecs in *.
  destruct (evutil_timercmp Z.leb _ _) eqn:Ec; unfold evutil_timercmp in Ec; destruct (Z.eqb_spec (tv_sec (ev_timeout (ev_of b x))) (tv_sec (gettime b))); zbool.
  1,2: exists (Some evutil_timerclear); split; [done|]; split; [done|]; exists x; split; [done|]; split; [exact Hmin|]; cbn; lia.
  all: destruct (Z.geb_spec (tv_sec (evutil_timersub (ev_timeout (ev_of b x)) (gettime b))) 0); [|lia];
    destruct (Z.geb_spec (tv_usec (evutil_timersub (ev_timeout (ev_of b x)) (gettime b))) 0); [|lia]; cbn [andb].
  all: eexists; split; [done|]; split; [done|]; exists x; split; [done|]; split; [exact Hmin|]; lia.
Qed.

(** ** Common timeouts *)

Lemma fired_ctl x b b' i c : loop_ok b → loop_ok b' → fired [x] b b' → ctls b !! i = Some c → x ∈ ctl_events c →
  ∃ c', ctls b' !! i = Some c' ∧ length (ctl_events c) = S (length (ctl_events c')).
Proof.
  intros Hl Hl' Hf Hc Hx. pose proof (aux_ctls _ _ (fi_aux _ _ _ Hf)) as El.
  destruct (lookup_lt_is_Some_2 (ctls b') i) as [c' Hc']; [rewrite El; by eapply lookup_lt_Some|]. exists c'. split; [done|].
  destruct (to_ctl _ _ _ (co_timeouts _ (bo_core _ (lo_base _ Hl))) i c Hc) as [N1 I1].
  destruct (to_ctl _ _ _ (co_timeouts _ (bo_core _ (lo_base _ Hl'))) i c' Hc') as [N2 I2].
  assert (ctl_events c' ≡ₚ tailq_remove x (ctl_events c)) as Hp.
  { apply NoDup_Permutation; [done|by apply nodup_remove|]. intros y. rewrite elem_remove, I1, I2, El.
    change (evs b !!! y) with (ev_of b y). change (evs b' !!! y) with (ev_of b' y). destruct (tview_pri _ _ (fi_tview _ _ _ Hf y)) as [_ ->].
    destruct (decide (y = x)) as [->|Hne].
    - destruct (fi_off _ _ _ Hf x) as [Ho _]; [by left|]. split; [by intros [? _]|by intros [? _]].
    - destruct (fi_others _ _ _ Hf y) as [_ Hfl]; [by rewrite list_elem_of_singleton|]. unfold on.
      change (evs b !!! y) with (ev_of b y). change (evs b' !!! y) with (ev_of b' y). rewrite Hfl. split; [intros ?; by split|by intros [_ ?]]. }
  rewrite (Permutation_length Hp), (Permutation_length (remove_perm x _ N1 Hx)). done.
Qed.

Lemma common_loop_spec fuel i now b c : reliable_del → loop_ok b → ctls b !! i = Some c → (length (ctl_events c) <= fuel)%nat →
  ∃ b', common_loop fuel i now b = Val b' ∧ loop_ok b' ∧ shape b' = shape b.
Proof.
  intros Hrel. revert b c. induction fuel as [|fuel IH]; intros b c Hl Hc Hn; cbn [common_loop]; rewrite Hc; cbn [or_undef mbind outcome_bind].
  all: destruct (ctl_events c) as [|x l] eqn:Ee; [by exists b|].
  all: pose proof (to_ctl _ _ _ (co_timeouts _ (bo_core _ (lo_base _ Hl))) i c Hc) as [_ I1].
  all: assert (on EVLIST_TIMEOUT (evs b) x) as Hon by (apply I1; rewrite Ee; by left).
  all: assert (good_tv (length (ctls b)) (ev_timeout (ev_of b x))) as Hg by (by apply (to_tv _ _ _ (co_timeouts _ (bo_core _ (lo_base _ Hl))))).
  all: destruct (evutil_timercmp _ _ _).
  1,3: destruct (schedule_spec c x b Hl) as (rc & b' & -> & Hl' & Hj); [apply list_elem_of_lookup; by exists i|done|];
    exists b'; split; [done|]; split; [done|]; apply aux_shape, Hj.
  { cbn in Hn. lia. }
  destruct (fire_spec x b Hrel Hl) as (b1 & b2 & -> & E2 & Hl2 & Hf & _). cbn [mbind outcome_bind]. rewrite E2. cbn [mbind outcome_bind].
  destruct (fired_ctl x b b2 i c Hl Hl2 Hf Hc) as (c' & Hc' & Hlen); [rewrite Ee; by left|].
  destruct (IH b2 c' Hl2 Hc') as (b' & -> & Hl' & Hs'); [rewrite Ee in Hlen; cbn in *; lia|]. exists b'. split; [done|]. split; [done|].
  rewrite Hs'. apply aux_shape, Hf.
Qed.
Lemma common_callback_spec i b : reliable_del → loop_ok b → (i < length (ctls b))%nat →
  ∃ b', common_timeout_callback i b = Val b' ∧ loop_ok b' ∧ shape b' = shape b.
Proof.
  intros Hrel Hl Hi. unfold common_timeout_callback. destruct (lookup_lt_is_Some_2 _ _ Hi) as [c Hc]. rewrite Hc. cbn [or_undef mbind outcome_bind].
  by apply (common_loop_spec _ _ _ _ c).
Qed.

(** ** Persistent events *)

(** Microseconds from one run of a persistent event to the next: counted from its last
    deadline where it ran for its timeout, and never into the past. *)
Definition next_run (from now interval : Z) : Z := if from + interval <? now then now + interval else from + interval.

Lemma timercmp_lt a b : tv_ok a → tv_ok b → evutil_timercmp Z.ltb a b = (usecs a <? usecs b).
Proof.
  unfold tv_ok, usecs, evutil_timercmp. intros Ha Hb. destruct (Z.eqb_spec (tv_sec a) (tv_sec b)); apply eq_true_iff_eq; rewrite !Z.ltb_lt; lia.
Qed.

(** The plain arithmetic of it. *)
Definition run_at (from now delay : timeval) : timeval :=
  let t := evutil_timeradd from delay in if evutil_timercmp Z.ltb t now then evutil_timeradd now delay else t.

Lemma run_at_spec from now delay : tv_ok from → tv_ok now → tv_ok delay →
  tv_ok (run_at from now delay) ∧ usecs (run_at from now delay) = next_run (usecs from) (usecs now) (usecs delay).
Proof.
  intros Hf Hn Hd. unfold run_at, next_run. destruct (timeradd_spec _ _ Hf Hd) as [H1 H2], (timeradd_spec _ _ Hn Hd) as [H3 H4].
  rewrite timercmp_lt, H2 by done. by destruct (_ <? _).
Qed.

Lemma kind_masked n tv tv' : same_kind n tv tv' → tv_ok (masked tv) ∧ tv_ok (masked tv') ∧ marked n tv = marked n tv'.
Proof.
  intros [[H1 H2]|(i & Hi & H1 & H2)].
  - rewrite !marked_normal by done. destruct (normal_fields _ H1) as (_ & -> & _), (normal_fields _ H2) as (_ & -> & _). done.
  - destruct (marked_common n i _ H1 Hi) as [-> _], (marked_common n i _ H2 Hi) as [-> _].
    destruct (common_fields _ _ H1) as (_ & _ & ? & _), (common_fields _ _ H2) as (_ & _ & ? & _). done.
Qed.

Lemma persist_run_spec x b : base_ok b → same_kind (length (ctls b)) (ev_timeout (ev_of b x)) (ev_io_timeout (ev_of b x)) →
  same_kind (length (ctls b)) (persist_run_at x b) (ev_io_timeout (ev_of b x)) ∧
  usecs (masked (persist_run_at x b)) =
    next_run (usecs (if has (ev_res (ev_of b x)) EV_TIMEOUT then masked (ev_timeout (ev_of b x)) else gettime b)) (usecs (gettime b))
      (usecs (masked (ev_io_timeout (ev_of b x)))).
Proof.
  intros Hb Hk. destruct (kind_masked _ _ _ Hk) as (M1 & M2 & Em). pose proof (gettime_ok _ Hb) as Hn.
  set (from := if has _ _ then _ else _). assert (tv_ok from) as Hf by (unfold from; by destruct (has _ _)).
  destruct (run_at_spec from (gettime b) (masked (ev_io_timeout (ev_of b x))) Hf Hn M2) as [R1 R2].
  set (t := run_at _ _ _) in *. rewrite <- R2.
  assert (persist_run_at x b = {| tv_sec := tv_sec t; tv_usec := Z.lor (tv_usec t)
    (if marked (length (ctls b)) (ev_timeout (ev_of b x)) then Z.ldiff (tv_usec (ev_io_timeout (ev_of b x))) MICROSECONDS_MASK else 0) |}) as ->.
  { unfold persist_run_at, t, from, run_at. change (is_common_timeout (ev_timeout (ev_of b x)) b) with (marked (length (ctls b)) (ev_timeout (ev_of b x))).
    destruct Hk as [[H1 H2]|(i & Hi & H1 & H2)].
    - rewrite marked_normal by done. destruct (normal_fields _ H1) as (_ & -> & _), (normal_fields _ H2) as (_ & -> & _). done.
    - by rewrite (proj1 (marked_common _ i _ H1 Hi)). }
  destruct Hk as [[H1 H2]|(i & Hi & H1 & H2)].
  - rewrite marked_normal, Z.lor_0_r by done. destruct t as [ts tu]. cbn [tv_sec tv_usec].
    split; [by left|]. by destruct (normal_fields _ R1) as (_ & -> & _).
  - rewrite (proj1 (marked_common _ i _ H1 Hi)). destruct (marked_time i t _ (proj1 H2) R1 H2) as [K1 K2].
    split; [right; by exists i|]. f_equal. exact K2.
Qed.
End timeouts.
