(* ===== verification/EvRun.v ===== *)
(** The event loop (EvLoop.v) keeps the invariant of its base: every action of a callback,
    the timeouts, the active queues and the turns of the loop. *)

From S2P Require Import Prelude EvFlags BufChain EvHeap EvHeapInv EvMap EvMapInv Epoll EvBase EvLoop EvInv EvDel EvAdd EvTimeouts.

Section run.
Context {HM : Malloc} {HE : EventOp} {HL : EventOpLaws}.

(** ** The actions of callbacks *)

Definition idle (x : nat) (b : Base) : Prop :=
  ¬ on EVLIST_TIMEOUT (evs b) x ∧ ¬ on EVLIST_ACTIVE (evs b) x ∧ ¬ on EVLIST_INSERTED (evs b) x.

(** What a callback may do. *)
Definition allowed (a : Action) (b : Base) : Prop :=
  match a with
  | AAssign x fd events =>
      ¬ is_timer b x ∧ idle x b ∧ fd < 2 ^ 30 ∧ (has events EV_SIGNAL = true → 0 <= fd)
  | APriority x _ => ¬ is_timer b x
  | AAdd x tv => ¬ is_timer b x ∧ ∀ t, tv = Some t → addable x t false b
  | ASignal sig _ => ∃ l, znth (sigmap b) sig = Some (Some l)
  | ATick now => tv_ok now
  | _ => True
  end.

(** An event that is on no queue is replaced. *)
Lemma base_replace x e b : base_ok b → idle x b → event_good (length (activequeues b)) e →
  ¬ has (ev_flags e) EVLIST_TIMEOUT = true → ¬ has (ev_flags e) EVLIST_ACTIVE = true → ¬ has (ev_flags e) EVLIST_INSERTED = true →
  base_ok (set_evs (<[x := e]> (evs b)) b).
Proof.
  intros Hb (I1 & I2 & I3) Hg N1 N2 N3. set (b' := set_evs _ b).
  assert (∀ y, evs b' !!! y = if decide (y = x) then e else evs b !!! y) as Ey.
  { intros y. cbn [b' set_evs evs]. case_decide; [subst; by rewrite lookup_total_insert_eq|by rewrite lookup_total_insert_ne]. }
  assert (∀ q k y, queue_bit q k → k ≠ 4 → on q (evs b') y ↔ on q (evs b) y) as Hon.
  { intros q k y Hq Hk. unfold on. rewrite Ey. case_decide; [subst y|done]. split; [|by destruct Hq].
    by destruct Hq. }
  apply (base_agree b); try done; [|apply Hb|].
  - split; [done|..].
    + intros y Hy. rewrite Ey. case_decide; [by subst|done].
    + intros y Hy. rewrite Ey. case_decide; [by subst|done].
    + intros y Hy. rewrite Ey. case_decide; [by subst|done].
    + intros y Hy. unfold visible. rewrite Ey. case_decide; [|done]. subst. by destruct Hy as [?|[?|?]].
  - intros y. unfold ev_of. rewrite Ey. case_decide; [done|apply Hb].
Qed.

Lemma mid_priority b : base_ok b → (length (activequeues b) / 2 < length (activequeues b))%nat.
Proof. intros Hb. pose proof (eg_pri _ _ (co_events _ (bo_core _ Hb) 0)). apply Nat.div_lt; lia. Qed.

(** A new event: its kind, and a time only where it had one. *)
Lemma loop_replace x e b : loop_ok b → ¬ is_timer b x → idle x b → event_good (length (activequeues b)) e → ev_flags e = EVLIST_INIT →
  (ev_closure e = EV_CLOSURE_PERSIST → evutil_timerisset (ev_io_timeout e) = true →
   same_kind (length (ctls b)) (ev_timeout e) (ev_io_timeout e)) →
  loop_ok (set_evs (<[x := e]> (evs b)) b).
Proof.
  intros [Hb Hp [T1 T2 T3]] Hnt Hi Hg Hfl He. set (b' := set_evs _ b).
  assert (∀ y, ev_of b' y = if decide (y = x) then e else ev_of b y) as Ey.
  { intros y. unfold ev_of. cbn [b' set_evs evs]. case_decide; [subst; by rewrite lookup_total_insert_eq|by rewrite lookup_total_insert_ne]. }
  split.
  - apply base_replace; try done; by rewrite Hfl.
  - intros y. rewrite Ey. case_decide; [done|apply Hp].
  - split; [done|..].
    + intros y Hy. rewrite Ey. case_decide; [by subst|by apply T2].
    + intros y Hy. unfold on. change (evs b' !!! y) with (ev_of b' y). rewrite Ey. case_decide; [by subst|by apply T3].
Qed.

Lemma loop_assign x fd events b : loop_ok b → allowed (AAssign x fd events) b → loop_ok (event_assign x fd events b).2.
Proof.
  intros Hl (Hnt & Hi & Hfd & Hsig). unfold event_assign. pose proof (mid_priority b (lo_base _ Hl)) as Hmid.
  pose proof (co_events _ (bo_core _ (lo_base _ Hl)) x) as [_ _ _ G5].
  destruct (has events EV_SIGNAL) eqn:Es; [destruct (has events (Z.lor EV_READ EV_WRITE)) eqn:Eio|destruct (has events EV_PERSIST) eqn:Ep];
    cbn [snd]; apply loop_replace; try done; cbn [ev_closure ev_io_timeout ev_timeout]; try done; try (split; try done; cbn; by rewrite Es).
  - split; try done. intros _ Hn. unfold is_io in Hn. cbn in Hn. congruence.
  - apply Hl.
  - split; try done. intros _ _. by apply Hsig.
Qed.

Lemma loop_priority x pri b : loop_ok b → loop_ok (event_priority_set x pri b).2.
Proof.
  intros Hl. unfold event_priority_set. destruct (has _ _) eqn:Ea; [done|]. destruct (_ || _) eqn:Er; [done|]. cbn [snd].
  apply orb_false_iff in Er as [Er1 Er2]. set (b' := upd x _ b).
  assert (∀ y, ev_of b' y = if decide (y = x) then put_pri (Z.to_nat pri) (ev_of b x) else ev_of b y) as Ey by (intros y; apply ev_of_upd).
  assert (∀ q y, on q (evs b') y ↔ on q (evs b) y) as Hon.
  { intros q y. unfold on. change (evs b' !!! y) with (ev_of b' y). rewrite Ey. by case_decide; subst. }
  apply (loop_view b); [done| |done| |by intros y; rewrite Hon].
  - apply (base_agree b); try done; [apply Hl| |apply Hl|].
    + split; [intros; apply Hon|..]; intros y Hy; unfold visible; change (evs b' !!! y) with (ev_of b' y); rewrite Ey; case_decide; subst; try done.
      unfold on in Hy. change (evs b !!! x) with (ev_of b x) in Hy. congruence.
    + intros y. rewrite Ey. pose proof (co_events _ (bo_core _ (lo_base _ Hl)) y) as [G1 G2 G3 G4]. case_decide; [subst|by split].
      split; try done. cbn [ev_pri put_pri]. zbool. lia.
  - intros y. rewrite Ey. by case_decide; subst.
Qed.

Lemma loop_activate l ncalls b : loop_ok b → ∃ b', activate_all l ncalls b = Val b' ∧ loop_ok b' ∧ shape b' = shape b ∧ maps b' = maps b.
Proof.
  revert b. induction l as [|[x res] l IH]; intros b Hl; cbn [activate_all]; [by exists b|].
  destruct (loop_active x res ncalls b Hl) as (b1 & -> & Hl1 & Hs1 & Hm1). cbn [mbind outcome_bind].
  destruct (IH b1 Hl1) as (b2 & -> & Hl2 & Hs2 & Hm2). exists b2. split; [done|]. split; [done|]. split; congruence.
Qed.

Lemma loop_signal sig ncalls b : loop_ok b → (∃ l, znth (sigmap b) sig = Some (Some l)) →
  ∃ b', evmap_signal_active sig ncalls b = Val b' ∧ loop_ok b' ∧ shape b' = shape b.
Proof.
  intros Hl [l El]. unfold evmap_signal_active, signal_ready. pose proof (znth_Some _ _ _ El). destruct (Z.geb_spec sig (Zlen (sigmap b))); [lia|].
  rewrite El. cbn [or_undef mbind outcome_bind].
  destruct (loop_activate ((λ x, (x, EV_SIGNAL)) <$> l) ncalls b Hl) as (b' & ? & ? & ? & _). by exists b'.
Qed.

Lemma event_assign_shape x fd events b : shape (event_assign x fd events b).2 = shape b.
Proof. unfold event_assign. by destruct (has events EV_SIGNAL), (has events (Z.lor EV_READ EV_WRITE)), (has events EV_PERSIST). Qed.
Lemma event_priority_shape x pri b : shape (event_priority_set x pri b).2 = shape b.
Proof. unfold event_priority_set. destruct (has _ _); [done|]. by destruct (_ || _). Qed.

Lemma loop_action a b : reliable_del → loop_ok b → allowed a b → ∃ b', do_action a b = Val b' ∧ loop_ok b' ∧ shape b' = shape b.
Proof.
  intros Hrel Hl Ha. destruct a; cbn [do_action].
  - eexists. split; [done|]. split; [by apply loop_assign|apply event_assign_shape].
  - eexists. split; [done|]. split; [by apply loop_priority|apply event_priority_shape].
  - destruct Ha as [_ Ha]. unfold event_add. destruct (loop_add x tv false b Hl Ha) as (rc & b' & -> & ?). by exists b'.
  - unfold event_del. destruct (loop_del x b Hrel Hl) as (b' & -> & ? & Hd). exists b'. split; [done|]. split; [done|]. apply aux_shape, Hd.
  - destruct (loop_active x res ncalls b Hl) as (b' & ? & ? & ? & _). by exists b'.
  - by apply loop_signal.
  - eexists. split; [done|]. split; [by apply loop_flags|done].
  - eexists. split; [done|]. split; [by apply loop_flags|done].
  - unfold event_deferred_cb_schedule. case_decide; [by exists b|]. eexists. split; [done|]. split; [by apply loop_deferred|done].
  - unfold event_deferred_cb_cancel. case_decide; [|by exists b]. eexists. split; [done|]. split; [by apply loop_deferred|done].
  - eexists. split; [done|]. split; [|done]. apply loop_times; [done|apply Hl|done].
Qed.

(** The actions of one callback, each allowed where it is done. *)
Fixpoint allowed_all (l : list Action) (b : Base) : Prop :=
  match l with
  | [] => True
  | a :: l => allowed a b ∧ ∀ b', do_action a b = Val b' → allowed_all l b'
  end.

Lemma loop_actions l b : reliable_del → loop_ok b → allowed_all l b → ∃ b', do_actions l b = Val b' ∧ loop_ok b' ∧ shape b' = shape b.
Proof.
  intros Hrel. revert b. induction l as [|a l IH]; intros b Hl Ha; cbn [do_actions]; [by exists b|]. destruct Ha as [Ha Hr].
  destruct (loop_action a b Hrel Hl Ha) as (b1 & He & Hl1 & Hs1). rewrite He. cbn [mbind outcome_bind].
  destruct (IH b1 Hl1 (Hr b1 He)) as (b2 & -> & Hl2 & Hs2). exists b2. split; [done|]. split; [done|congruence].
Qed.
End run.

(** ** Running events *)

(** A result, or a loop that used up its fuel. *)
Definition fine {A} (P : A → Prop) (o : outcome A) : Prop := match o with Val a => P a | Undef e => e = Hang end.

Lemma fine_bind {A B} (P : A → Prop) (Q : B → Prop) (o : outcome A) (f : A → outcome B) :
  fine P o → (∀ a, P a → fine Q (f a)) → fine Q (o ≫= f).
Proof. destruct o; cbn; auto. Qed.

Section loop.
Context {HM : Malloc} {HE : EventOp} {HL : EventOpLaws}.
Variable user : nat → Z → Base → list Action.
Variable user_deferred : nat → Base → list Action.

(** Callbacks do only what is allowed where they run. *)
Definition respectful : Prop :=
  (∀ x res b, loop_ok b → allowed_all (user x res b) b) ∧ (∀ c b, loop_ok b → allowed_all (user_deferred c b) b).

Context (Hrel : reliable_del) (Huser : respectful).

Definition kept (b : Base) (b' : Base) : Prop := loop_ok b' ∧ shape b' = shape b.

Lemma callback_spec x b : loop_ok b → ∃ b', ev_callback user x b = Val b' ∧ kept b b'.
Proof.
  intros Hl. unfold ev_callback. destruct (timer_of b x) as [i|] eqn:Et.
  - apply common_callback_spec; [done|done|]. unfold timer_of in Et. destruct (list_find _ _) as [[j c]|] eqn:Ef; [|done].
    injection Et as <-. apply list_find_Some in Ef as (Hj & _). by eapply lookup_lt_Some.
  - cbv zeta. destruct (loop_actions (user x (ev_res (ev_of b x)) (log_ran x (ev_res (ev_of b x)) b)) (log_ran x (ev_res (ev_of b x)) b)) as (b' & -> & H1 & H2).
    + done.
    + by apply loop_log.
    + apply Huser. by apply loop_log.
    + exists b'. done.
Qed.

Lemma persist_addable x b : loop_ok b → ev_closure (ev_of b x) = EV_CLOSURE_PERSIST → evutil_timerisset (ev_io_timeout (ev_of b x)) = true →
  addable x (persist_run_at x b) true b.
Proof.
  intros Hl Hc Hs. pose proof (lo_persist _ Hl x Hc Hs) as Hk. destruct (persist_run_spec x b (lo_base _ Hl) Hk) as [Hr _]. split.
  - by apply (same_kind_good _ _ (ev_io_timeout (ev_of b x))).
  - intros Hok _. apply (same_kind_normal (length (ctls b)) (ev_io_timeout (ev_of b x))); [|by apply (same_kind_normal _ _ _ Hr)].
    destruct Hk as [[? ?]|(i & ? & ? & ?)]; [by left|]. right. by exists i.
  - done.
  - intros Ht. destruct (ti_plain _ (lo_timers _ Hl) x Ht) as [E _]. congruence.
Qed.

Lemma persist_spec x b : loop_ok b → ev_closure (ev_of b x) = EV_CLOSURE_PERSIST → ∃ b', event_persist_closure user x b = Val b' ∧ kept b b'.
Proof.
  intros Hl Hc. unfold event_persist_closure. destruct (evutil_timerisset _) eqn:Es; cbn [mbind outcome_bind]; [|by apply callback_spec].
  rewrite (same_kind_check (length (ctls b))) by (by apply Hl). cbn [negb].
  destruct (loop_add x (Some (persist_run_at x b)) true b Hl) as (rc & b1 & -> & Hl1 & Hs1).
  { intros t [= <-]. by apply persist_addable. }
  cbn [mbind outcome_bind]. destruct (callback_spec x b1 Hl1) as (b2 & -> & Hl2 & Hs2). exists b2. split; [done|]. split; [done|congruence].
Qed.

Lemma loop_ncalls x n p b : loop_ok b → loop_ok (upd x (put_ncalls n p) b) ∧ shape (upd x (put_ncalls n p) b) = shape b.
Proof.
  intros Hl. split; [|done]. apply (loop_view b); [done| |done|..].
  - apply upd_view; [apply Hl|done|]. apply good_ncalls, Hl.
  - intros y. rewrite ev_of_upd. by case_decide; subst.
  - intros y. unfold on. change (evs (upd x (put_ncalls n p) b) !!! y) with (ev_of (upd x (put_ncalls n p) b) y). rewrite ev_of_upd.
    by case_decide; subst.
Qed.

Lemma signal_loop_spec fuel x b : loop_ok b → fine (kept b) (signal_loop user fuel x b).
Proof.
  revert b. induction fuel as [|fuel IH]; intros b Hl; cbn [signal_loop]; destruct (_ =? 0); try done.
  set (n := i16 _). set (b1 := set_flags _ b). destruct (loop_ncalls x n (if n =? 0 then false else ev_pncalls (ev_of b1 x)) b1) as [Hl2 Hs2].
  { by apply loop_flags. }
  destruct (callback_spec x _ Hl2) as (b3 & -> & Hl3 & Hs3). cbn [mbind outcome_bind].
  assert (shape b3 = shape b) as Hs by (rewrite Hs3, Hs2; done). destruct (f_break _).
  - destruct (negb _); [|done]. destruct (loop_ncalls x (ev_ncalls (ev_of b3 x)) false b3 Hl3) as [Hl4 Hs4]. split; [done|congruence].
  - pose proof (IH b3 Hl3) as H. unfold kept in *. destruct (signal_loop _ _ _ _); [|done]. destruct H. split; [done|congruence].
Qed.

Lemma run_event_spec x b : loop_ok b → fine (kept b) (run_event user x b).
Proof.
  intros Hl. unfold run_event. destruct (ev_closure (ev_of b x)) eqn:Ec.
  - destruct (callback_spec x b Hl) as (b' & -> & ?). done.
  - unfold event_signal_closure. set (b1 := set_flags _ b). assert (loop_ok b1) as Hl1 by by apply loop_flags.
    set (b2 := if negb _ then _ else _). assert (kept b b2) as [Hl2 Hs2].
    { unfold b2. destruct (negb _); [|done]. by destruct (loop_ncalls x (ev_ncalls (ev_of b x)) true b1 Hl1). }
    pose proof (signal_loop_spec (Z.to_nat (u16 (ev_ncalls (ev_of b x)))) x b2 Hl2) as H. unfold kept in *.
    destruct (signal_loop _ _ _ _); [|done]. destruct H. split; [done|congruence].
  - destruct (persist_spec x b Hl Ec) as (b' & -> & ?). done.
Qed.

(** The first event of an active queue leaves it. *)
Lemma unqueue_spec x b : loop_ok b → on EVLIST_ACTIVE (evs b) x →
  ∃ b', (if has (ev_events (ev_of b x)) EV_PERSIST then event_queue_remove x EVLIST_ACTIVE b
         else '(_, b) ← event_del_internal x b; Val b) = Val b' ∧ kept b b' ∧ active_left x b b' ∧
    (∀ y, body (ev_of b' y) = body (ev_of b y)) ∧ (∀ y, y ≠ x → ev_flags (ev_of b' y) = ev_flags (ev_of b y)) ∧
    (on EVLIST_INTERNAL (evs b') x ↔ on EVLIST_INTERNAL (evs b) x) ∧ aux b' = aux b ∧ f_break (b_flags b') = f_break (b_flags b) ∧
    f_continue (b_flags b') = f_continue (b_flags b).
Proof.
  intros Hl Hx. destruct (has (ev_events (ev_of b x)) EV_PERSIST).
  - destruct (clear_active x b (lo_base _ Hl)) as (b' & He & Hb' & [K1 K2 K3 K4 K5] & Ha & Hh & Hfl).
    unfold on in Hx. change (evs b !!! x) with (ev_of b x) in Hx. rewrite Hx in He. exists b'. split; [done|].
    assert (shape b' = shape b) as Hs by by apply aux_shape. split.
    { split; [|done]. apply (loop_view b); try done.
      - intros y. apply tview_kview, body_tview, K1.
      - intros y. destruct (decide (y = x)) as [->|Hy]; [by rewrite (K4 _ 0) by first [constructor|done]|].
        unfold on. change (evs b' !!! y) with (ev_of b' y). change (evs b !!! y) with (ev_of b y). by rewrite K2. }
    split; [done|]. split; [done|]. split; [done|]. split; [apply (K4 _ 4); [constructor|done]|]. split; [done|]. by rewrite Hfl.
  - destruct (loop_del x b Hrel Hl) as (b' & -> & Hl' & Hd). cbn [mbind outcome_bind]. exists b'. split; [done|].
    assert (shape b' = shape b) as Hs by apply aux_shape, Hd. split; [done|]. split; [apply Hd|]. split; [apply Hd|]. split; [apply Hd|].
    split; [apply Hd|]. split; [apply Hd|]. rewrite (de_stop _ _ _ Hd). unfold abort_signal_loop. by destruct (_ && _).
Qed.

Lemma shape_queue b b' p q : shape b' = shape b → activequeues b !! p = Some q → is_Some (activequeues b' !! p).
Proof. intros [= _ E] Hq. apply lookup_lt_is_Some_2. rewrite E. by eapply lookup_lt_Some. Qed.

Lemma single_queue_spec fuel pri count b : loop_ok b → (pri < length (activequeues b))%nat →
  fine (λ r, kept b r.2) (event_process_active_single_queue user fuel pri count b).
Proof.
  revert count b. induction fuel as [|fuel IH]; intros count b Hl Hp; cbn [event_process_active_single_queue];
    destruct (lookup_lt_is_Some_2 _ _ Hp) as [q Hq]; rewrite Hq; cbn [or_undef mbind outcome_bind]; destruct q as [|x q]; try done.
  assert (on EVLIST_ACTIVE (evs b) x) as Hx.
  { apply (ac_queue _ _ _ (co_active _ (bo_core _ (lo_base _ Hl))) pri _ Hq). by left. }
  destruct (unqueue_spec x b Hl Hx) as (b1 & -> & [Hl1 Hs1] & _). cbn [mbind outcome_bind].
  eapply fine_bind; [by apply run_event_spec|]. intros b2 [Hl2 Hs2]. assert (shape b2 = shape b) as Hs by congruence.
  destruct (f_break _); [done|]. destruct (f_continue _); [done|].
  pose proof (IH (if has (ev_flags (ev_of b1 x)) EVLIST_INTERNAL then count else count + 1) b2 Hl2) as H.
  assert (pri < length (activequeues b2))%nat as Hp2 by (by injection Hs as _ ->). specialize (H Hp2).
  destruct (event_process_active_single_queue _ _ _ _ _) as [r|]; [|done]. destruct H. split; [done|]. cbn in *. congruence.
Qed.

Lemma fine_kept {A} b1 b (o : outcome (A * Base)) : fine (λ r, kept b1 r.2) o → shape b1 = shape b → fine (λ r, kept b r.2) o.
Proof. intros Ho Hs. destruct o as [r|]; [|done]. destruct Ho. split; [done|]. cbn in *. congruence. Qed.

Lemma deferred_spec n b : loop_ok b → ∃ b', event_process_deferred_callbacks user_deferred n b = Val b' ∧ kept b b'.
Proof.
  revert b. induction n as [|n IH]; intros b Hl; cbn [event_process_deferred_callbacks]; [by exists b|].
  destruct (deferred b) as [|c l]; [by exists b|]. pose proof (loop_deferred l b Hl) as Hl0.
  destruct (loop_actions (user_deferred c (set_deferred l b)) _ Hrel Hl0) as (b1 & -> & Hl1 & Hs1); [by apply Huser|].
  cbn [mbind outcome_bind]. destruct (f_break _); [by exists b1|]. destruct (IH b1 Hl1) as (b2 & -> & Hl2 & Hs2).
  exists b2. split; [done|]. split; [done|]. by rewrite Hs2.
Qed.

Lemma process_queues_spec fuel n i c b : loop_ok b → (i + n = length (activequeues b))%nat →
  fine (λ r, kept b r.2) (process_queues user fuel n i c b).
Proof.
  revert i c b. induction n as [|n IH]; intros i c b Hl Hn; cbn [process_queues]; [done|].
  destruct (lookup_lt_is_Some_2 (activequeues b) i ltac:(lia)) as [q Hq]. rewrite Hq. cbn [or_undef mbind outcome_bind].
  destruct q as [|x q]; [apply IH; [done|lia]|]. eapply fine_bind.
  - apply (single_queue_spec fuel i 0 (running (Z.of_nat i) b)); [by apply loop_flags|]. by eapply lookup_lt_Some.
  - intros [c' b1] [Hl1 Hs1]. cbn [snd] in *. destruct (c' =? 0); [|done]. apply (fine_kept b1); [|done].
    apply IH; [done|]. injection Hs1 as _ ->. change (activequeues (running (Z.of_nat i) b)) with (activequeues b). lia.
Qed.

Lemma process_active_spec fuel b : loop_ok b → fine (λ r, kept b r.2) (event_process_active user user_deferred fuel b).
Proof.
  intros Hl. unfold event_process_active. eapply fine_bind; [by apply process_queues_spec|]. intros [c b1] [Hl1 Hs1]. cbn [snd] in *.
  destruct (c <? 0); [split; [by apply loop_flags|done]|]. destruct (deferred_spec MAX_DEFERRED b1 Hl1) as (b2 & -> & Hl2 & Hs2).
  cbn [mbind outcome_bind]. split; [by apply loop_flags|]. cbn [snd]. change (shape b2 = shape b). congruence.
Qed.

(** ** Waking up *)

(** The kernel reports descriptors it was asked to watch. *)
Definition wake_ok (w : Wakeup) (b : Base) : Prop :=
  match w with
  | WFailed => True
  | WInterrupted now => tv_ok now
  | WReady ready now => tv_ok now ∧ Forall (λ r, 0 <= r.1 ∧ bk_watch (backend b) r.1 ≠ (false, false)) ready
  end.

Lemma watched_slot fd b : base_ok b → 0 <= fd → bk_watch (backend b) fd ≠ (false, false) → ∃ ctx, znth (io b) fd = Some (Some ctx).
Proof.
  intros Hb Hfd Hw. rewrite (mo_sync _ _ _ _ _ (bo_maps _ Hb) fd Hfd) in Hw. unfold entry in Hw.
  destruct (znth (io b) fd) as [[ctx|]|]; [by exists ctx|done|done].
Qed.

Lemma io_active_spec fd events b : loop_ok b → 0 <= fd → bk_watch (backend b) fd ≠ (false, false) →
  ∃ b', evmap_io_active fd events b = Val b' ∧ kept b b' ∧ maps b' = maps b.
Proof.
  intros Hl Hfd Hw. destruct (watched_slot fd b (lo_base _ Hl) Hfd Hw) as [ctx Hc]. unfold evmap_io_active, io_ready.
  pose proof (znth_Some _ _ _ Hc). destruct (Z.geb_spec fd (Zlen (io b))); [lia|]. rewrite Hc. cbn [or_undef mbind outcome_bind].
  set (l := _ <$> filter _ _). destruct (loop_activate l 1 b Hl) as (b' & -> & ? & ? & ?). by exists b'.
Qed.

Lemma report_spec l b : loop_ok b → Forall (λ r, 0 <= r.1 ∧ bk_watch (backend b) r.1 ≠ (false, false)) l →
  ∃ b', report_ready l b = Val b' ∧ kept b b'.
Proof.
  revert b. induction l as [|[fd what] l IH]; intros b Hl Hf; cbn [report_ready]; [by exists b|].
  apply Forall_cons in Hf as [[H1 H2] Hf]. cbn [fst] in *.
  assert (∃ b1, (if epoll_events what =? 0 then Val b else evmap_io_active fd (Z.lor (epoll_events what) EV_ET) b) = Val b1 ∧ kept b b1 ∧ maps b1 = maps b)
    as (b1 & -> & [Hl1 Hs1] & Hm1) by (destruct (_ =? 0); [by exists b|by apply io_active_spec]).
  cbn [mbind outcome_bind]. destruct (IH b1 Hl1) as (b2 & -> & Hl2 & Hs2); [by injection Hm1 as _ _ ->|].
  exists b2. split; [done|]. split; [done|congruence].
Qed.

Lemma dispatch_spec w b : loop_ok b → wake_ok w b → ∃ res b', dispatch w b = Val (res, b') ∧ kept b b'.
Proof.
  intros Hl Hw. destruct w as [|now|ready now]; cbn [dispatch].
  - by exists (-1), b.
  - eexists _, _. split; [done|]. split; [|done]. apply loop_times; [done|apply Hl|done].
  - destruct Hw as [Hnow Hf]. destruct (report_spec ready (set_clock now b)) as (b' & -> & ?); [|done|by exists 0, b'].
    apply loop_times; [done|apply Hl|done].
Qed.

(** ** The turns of the loop *)

Lemma clear_cache_ok b : loop_ok b → loop_ok (clear_time_cache b).
Proof.
  intros Hl. destruct (co_times _ (bo_core _ (lo_base _ Hl))) as [H1 H2]. by apply loop_times.
Qed.
Lemma loop_turns_spec fuel flags ws b : loop_ok b → Forall (λ w, ∀ b, loop_ok b → wake_ok (w b) b) ws →
  fine (λ r, loop_ok r.2) (loop_turns user user_deferred fuel flags ws b).
Proof.
  intros Hl Hws. revert b Hl. induction Hws as [|w ws Hw Hws IH]; intros b Hl; cbn [loop_turns].
  all: set (b0 := set_flags _ b); assert (loop_ok b0) as Hl0 by by apply loop_flags.
  all: assert (∀ r b', loop_ok b' → loop_ok (loop_done r b').2) as Hdone by (intros r b' H; by apply loop_flags, clear_cache_ok).
  all: destruct (f_gotterm _ || f_break _); [by apply Hdone|].
  all: assert (∃ tv, (if (N_ACTIVE_CALLBACKS b0 =? 0) && negb (has flags EVLOOP_NONBLOCK) then timeout_next b0 else Val (Some evutil_timerclear)) = Val tv)
    as [tv ->] by (destruct (_ && _); [destruct (timeout_next_spec b0 (lo_base _ Hl0)) as (o & -> & _)|]; by eexists).
  all: cbn [mbind outcome_bind]; destruct (_ && _); [by apply Hdone|].
  all: set (b1 := clear_time_cache _); assert (loop_ok b1) as Hl1
    by (apply clear_cache_ok; destruct (co_times _ (bo_core _ (lo_base _ Hl0))); by apply loop_times).
  { done. }
  destruct (dispatch_spec (w b1) b1 Hl1 (Hw b1 Hl1)) as (res & b2 & -> & Hl2 & _). cbn [mbind outcome_bind]. destruct (_ =? -1); [by apply Hdone|].
  assert (loop_ok (update_time_cache b2)) as Hl3 by (destruct (co_times _ (bo_core _ (lo_base _ Hl2))); by apply loop_times).
  destruct (timeout_process_spec _ Hrel Hl3) as (b4 & l & -> & Hl4 & _). cbn [mbind outcome_bind].
  destruct (negb (N_ACTIVE_CALLBACKS b4 =? 0)).
  - eapply fine_bind; [by apply process_active_spec|]. intros [n b5] [Hl5 _]. cbn [snd] in *.
    destruct (_ && _ && _); [by apply Hdone|by apply IH].
  - destruct (has _ _); [by apply Hdone|by apply IH].
Qed.

Lemma base_loop_spec fuel flags ws b : loop_ok b → Forall (λ w, ∀ b, loop_ok b → wake_ok (w b) b) ws →
  fine (λ r, loop_ok r.2) (event_base_loop user user_deferred fuel flags ws b).
Proof.
  intros Hl Hws. unfold event_base_loop. destruct (f_running_loop _); [done|]. apply loop_turns_spec; [|done].
  by apply loop_flags, clear_cache_ok, loop_flags.
Qed.
End loop.
