(* ===== verification/EvProps.v ===== *)
(** What the event loop of libevent promises (EvBase.v and EvLoop.v): adding, deleting and
    reporting events, timeouts, the order of callbacks, and the loop as a whole on epoll. *)

From Stdlib Require Import Sorted.
From S2P Require Import Prelude EvFlags BufChain EvHeap EvHeapInv EvMap EvMapInv Epoll EpollInv EvBase EvLoop EvInv EvDel EvAdd EvTimeouts EvRun.

Section props.
Context {HM : Malloc} {HE : EventOp} {HL : EventOpLaws}.

(** ** Timeouts *)

(** C7.  [timeout_process] ends, and activates exactly the events of the heap whose deadline is not
    after the loop's time: each is taken off the heap and the added events, is active with the
    result EV_TIMEOUT and stands at the end of its queue, earlier deadlines first.  All other
    events stay as they are, and the invariant holds. *)
Theorem due_timeouts_fire b : reliable_del → loop_ok b →
  ∃ b' l, timeout_process b = Val b' ∧ loop_ok b' ∧
    (NoDup l ∧ ∀ x, x ∈ l ↔ x ∈ live (timeheap b) ∧ tle (ev_timeout (ev_of b x)) (gettime b)) ∧
    StronglySorted (λ x y, tle (ev_timeout (ev_of b x)) (ev_timeout (ev_of b y))) l ∧
    (∀ x, x ∈ l → ev_res (ev_of b' x) = EV_TIMEOUT ∧ on EVLIST_ACTIVE (evs b') x ∧
       ¬ on EVLIST_TIMEOUT (evs b') x ∧ ¬ on EVLIST_INSERTED (evs b') x) ∧
    activequeues b' = imap (λ p q, filter (.∉ l) q ++ filter (λ x, ev_pri (ev_of b x) = p) l) (activequeues b) ∧
    (∀ x, x ∈ live (timeheap b') ↔ x ∈ live (timeheap b) ∧ x ∉ l) ∧
    (∀ y, y ∉ l → same_event b b' y).
Proof.
  intros Hrel Hl. destruct (timeout_process_spec b Hrel Hl) as (b' & l & He & Hl' & [F1 F2 F3 F4 F5 F6] & [D1 D2 D3] & Hrest).
  exists b', l. split; [done|]. split; [done|]. split; [done|]. split; [done|]. split; [|done].
  intros x Hx. destruct (F3 x Hx), (F4 x Hx). done.
Qed.

(** The milliseconds until a time, rounded up. *)
Lemma epoll_timeout_spec tv : tv_ok tv → 0 <= usecs tv →
  epoll_timeout (Some tv) = Z.min MAX_EPOLL_TIMEOUT_MSEC ((usecs tv + 999) / 1000).
Proof.
  unfold tv_ok, usecs, epoll_timeout, evutil_tv_to_msec. intros Hu H0.
  assert ((tv_sec tv * 1000000 + tv_usec tv + 999) / 1000 = tv_sec tv * 1000 + (tv_usec tv + 999) / 1000) as ->.
  { replace (tv_sec tv * 1000000 + tv_usec tv + 999) with (tv_usec tv + 999 + tv_sec tv * 1000 * 1000) by lia. rewrite Z.div_add by lia. lia. }
  pose proof (Z.div_pos (tv_usec tv + 999) 1000 ltac:(lia) ltac:(lia)). destruct (Z.gtb_spec (tv_usec tv) 1000000); [lia|].
  unfold MAX_EPOLL_TIMEOUT_MSEC, MAX_SECONDS_IN_MSEC_LONG.
  destruct (Z.gtb_spec (tv_sec tv) ((2 ^ 63 - 1 - 999) / 1000)); cbn [orb].
  - assert ((2 ^ 63 - 1 - 999) / 1000 = 9223372036854774) as E by reflexivity. cbn [Z.ltb]. change (-1 <? 0) with true. cbn [orb]. lia.
  - destruct (Z.ltb_spec (tv_sec tv * 1000 + (tv_usec tv + 999) / 1000) 0); cbn [orb].
    + assert (0 <= tv_sec tv) by lia. lia.
    + destruct (Z.gtb_spec (tv_sec tv * 1000 + (tv_usec tv + 999) / 1000) (35 * 60 * 1000)); lia.
Qed.

(** How long the loop sleeps: for ever only when no event waits on the heap; otherwise until
    the earliest deadline, rounded up to the next millisecond and at most 35 minutes, so that
    it neither wakes before the deadline without need nor sleeps past it by a millisecond. *)
Theorem loop_sleeps_until_deadline b : base_ok b →
  ∃ o, timeout_next b = Val o ∧
    match o with
    | None => live (timeheap b) = [] ∧ epoll_timeout o = -1
    | Some tv => ∃ x, x ∈ live (timeheap b) ∧ (∀ y, y ∈ live (timeheap b) → tle (ev_timeout (ev_of b x)) (ev_timeout (ev_of b y))) ∧
        epoll_timeout o = Z.min MAX_EPOLL_TIMEOUT_MSEC ((Z.max 0 (usecs (ev_timeout (ev_of b x)) - usecs (gettime b)) + 999) / 1000)
    end.
Proof.
  intros Hb. destruct (timeout_next_spec b Hb) as (o & He & Ho). exists o. split; [done|]. destruct o as [tv|]; [|done].
  destruct Ho as (Hok & x & Hx & Hmin & Hu). exists x. split; [done|]. split; [done|]. rewrite epoll_timeout_spec, Hu by lia || done. done.
Qed.

(** A persistent event that ran for its timeout is due again exactly one interval after its last
    deadline, however late it ran, unless that time has passed: then one interval from now.
    Where it ran for another reason the interval counts from now.  It is never scheduled into
    the past, and on the queue its interval asks for. *)
Theorem persistent_event_reschedules x b : loop_ok b →
  ev_closure (ev_of b x) = EV_CLOSURE_PERSIST → evutil_timerisset (ev_io_timeout (ev_of b x)) = true →
  let at_ := usecs (masked (persist_run_at x b)) in
  let interval := usecs (masked (ev_io_timeout (ev_of b x))) in
  let from := if has (ev_res (ev_of b x)) EV_TIMEOUT then usecs (masked (ev_timeout (ev_of b x))) else usecs (gettime b) in
  at_ = (if from + interval <? usecs (gettime b) then usecs (gettime b) + interval else from + interval) ∧
  (0 <= interval → usecs (gettime b) <= at_) ∧
  is_same_common_timeout (persist_run_at x b) (ev_io_timeout (ev_of b x)) = true.
Proof.
  intros Hl Hc Hs. destruct (persist_run_spec x b (lo_base _ Hl) (lo_persist _ Hl x Hc Hs)) as [Hk Hu]. cbv zeta.
  rewrite Hu. unfold next_run. destruct (has _ _).
  all: (split; [done|]); split; [|by apply (same_kind_check (length (ctls b)))]; intros; destruct (Z.ltb_spec (usecs (masked (ev_timeout (ev_of b x))) + usecs (masked (ev_io_timeout (ev_of b x)))) (usecs (gettime b))); try lia;
    destruct (Z.ltb_spec (usecs (gettime b) + usecs (masked (ev_io_timeout (ev_of b x)))) (usecs (gettime b))); lia.
Qed.

(** ** Adding and deleting *)

(** C8.  [event_add] returns 0 or -1.  With 0 an event that asks for a descriptor or a signal is among
    the added events unless it is active, and a given time is its deadline, counted exactly from
    the loop's time.  With -1 the event has the timeout and the activity it had.  No event but
    it and the timers of common timeouts changes, and the invariant holds. *)
Theorem event_add_contract x tv b : loop_ok b → ¬ is_timer b x → (∀ t, tv = Some t → addable x t false b) →
  ∃ rc b', event_add x tv b = Val (rc, b') ∧ loop_ok b' ∧
    (rc = 0 ∧ (asks (ev_of b x) = true → ¬ on EVLIST_ACTIVE (evs b) x → on EVLIST_INSERTED (evs b') x) ∧
       (∀ t, tv = Some t → on EVLIST_TIMEOUT (evs b') x ∧
          usecs (masked (ev_timeout (ev_of b' x))) = usecs (gettime b) + usecs (masked t)) ∨
     rc = -1 ∧ body (ev_of b' x) = body (ev_of b x) ∧ (on EVLIST_TIMEOUT (evs b') x ↔ on EVLIST_TIMEOUT (evs b) x) ∧
       (on EVLIST_ACTIVE (evs b') x ↔ on EVLIST_ACTIVE (evs b) x)) ∧
    (∀ y, y ≠ x → ¬ is_timer b y → same_event b b' y).
Proof.
  intros Hl Hnt Hpre. unfold event_add. destruct (add_spec x tv false b Hl Hpre) as (rc & b1 & b2 & He & Hl2 & Hj & Ht).
  exists rc, b2. split; [done|]. split; [done|].
  assert (∀ y, ¬ is_timer b y → same_event b1 b2 y) as Hs.
  { intros y Hy. destruct Ht as [->|(tm & t & rc' & Htm & Hj')]; [done|]. apply Hj'. by intros ->. }
  assert (∀ q, on q (evs b2) x ↔ on q (evs b1) x) as Hon.
  { intros q. unfold on. change (evs b2 !!! x) with (ev_of b2 x). change (evs b1 !!! x) with (ev_of b1 x). by destruct (Hs x Hnt) as [_ ->]. }
  destruct (Hs x Hnt) as [Hbody _]. split.
  - destruct (jo_rc _ _ _ _ _ _ Hj) as [->| ->]; [left|right]; (split; [done|]).
    + split; [intros; rewrite Hon; by apply Hj|]. intros t ->. destruct (jo_timeout _ _ _ _ _ _ Hj eq_refl) as (H1 & H2 & _).
      rewrite Hon, (body_timeout _ _ Hbody), H2. split; [done|]. apply deadline_usecs; [apply gettime_ok, Hl|by apply (Hpre t)].
    + destruct (jo_same _ _ _ _ _ _ Hj) as (H1 & H2 & H3); [by right|]. rewrite !Hon. split; [congruence|done].
  - intros y Hy Hyt. destruct (jo_others _ _ _ _ _ _ Hj y Hy), (Hs y Hyt). split; congruence.
Qed.

(** C9.  [event_del] succeeds where the backend lets go of what it watches, and then nothing of the base
    refers to the event any more: no queue, not the heap, no common timeout and neither map; it
    is pending for nothing.  Every other event stays as it is, and the invariant holds. *)
Theorem event_del_forgets x b : reliable_del → loop_ok b →
  ∃ b', event_del x b = Val (0, b') ∧ loop_ok b' ∧
    (x ∉ eventqueue b' ∧ (∀ p q, activequeues b' !! p = Some q → x ∉ q)) ∧
    (x ∉ live (timeheap b') ∧ (∀ i c, ctls b' !! i = Some c → x ∉ ctl_events c)) ∧
    (∀ fd, x ∉ fd_events (io b') fd) ∧ (∀ sig, x ∉ sig_events (sigmap b') sig) ∧
    (∀ what, event_pending x what b' = 0) ∧ (∀ y, y ≠ x → same_event b b' y).
Proof.
  intros Hrel Hl. destruct (loop_del x b Hrel Hl) as (b' & He & Hl' & [D1 D2 D3 D4 D5 D6 D7 D8 D9 D10]). exists b'.
  split; [done|]. split; [done|]. destruct (lo_base _ Hl') as [[C1 [T1 T2 T3 T4 T5] [I1 I2] [A1 A2] C5 C6] [M1 M2 M3 M4 M5]].
  split; [split; [by rewrite I2|]|]. { intros p q Hq Hx. by apply (A1 p q Hq) in Hx as [? _]. }
  split; [split; [rewrite T2; by intros [? _]|]|]. { intros i c Hc Hx. by apply (T4 i c Hc) in Hx as [? _]. }
  split; [intros fd; rewrite M3; by intros [? _]|]. split; [intros sig; rewrite M5; by intros [? _]|].
  split; [|intros y Hy; split; auto]. intros what. unfold event_pending.
  rewrite (not_on _ _ _ D3), (not_on _ _ _ D4), (not_on _ _ _ D5). apply Z.land_0_l.
Qed.

(** ** Reporting *)

(** The result an event is active with: joined to the one it has if it was active before. *)
Definition joined_result (b : Base) (x : nat) (res : Z) : Z :=
  if has (ev_flags (ev_of b x)) EVLIST_ACTIVE then Z.lor (ev_res (ev_of b x)) res else res.

Lemma active_result x res ncalls b b' : base_ok b → event_active_nolock x res ncalls b = Val b' → ev_res (ev_of b' x) = joined_result b x res.
Proof.
  intros Hb He. unfold joined_result. destruct (has (ev_flags (ev_of b x)) EVLIST_ACTIVE) eqn:Ea.
  - unfold event_active_nolock in He. rewrite Ea in He. injection He as <-. by rewrite ev_of_upd, decide_True.
  - destruct (active_spec x res ncalls b Hb) as (b1 & He' & _ & _ & _ & _ & _ & _ & _ & _ & Hnew). rewrite He in He'. injection He' as <-.
    apply Hnew. unfold on. change (evs b !!! x) with (ev_of b x). by rewrite Ea.
Qed.

Lemma activate_all_spec l ncalls b : loop_ok b → NoDup l.*1 →
  ∃ b', activate_all l ncalls b = Val b' ∧ loop_ok b' ∧ (∀ y, y ∉ l.*1 → same_event b b' y) ∧
    ∀ x res, (x, res) ∈ l → on EVLIST_ACTIVE (evs b') x ∧ ev_res (ev_of b' x) = joined_result b x res.
Proof.
  revert b. induction l as [|[x res] l IH]; intros b Hl Hnd; cbn [activate_all].
  { exists b. split; [done|]. split; [done|]. split; [done|]. by intros ? ? ?%not_elem_of_nil. }
  cbn in Hnd. apply NoDup_cons in Hnd as [Hx Hnd]. destruct (loop_active x res ncalls b Hl) as (b1 & He & Hl1 & _).
  destruct (active_spec x res ncalls b (lo_base _ Hl)) as (b1' & He' & _ & _ & _ & _ & Ho & Hon & _).
  rewrite He in He'. injection He' as <-. rewrite He. cbn [mbind outcome_bind].
  destruct (IH b1 Hl1 Hnd) as (b2 & -> & Hl2 & Hs & Hin). exists b2. split; [done|]. split; [done|].
  assert (∀ q y, y ∉ l.*1 → on q (evs b2) y ↔ on q (evs b1) y) as Hon2.
  { intros q y Hy. unfold on. change (evs b2 !!! y) with (ev_of b2 y). change (evs b1 !!! y) with (ev_of b1 y). by destruct (Hs y Hy) as [_ ->]. }
  split.
  - intros y Hy. cbn in Hy. apply not_elem_of_cons in Hy as [Hne Hy]. destruct (Ho y Hne), (Hs y Hy). split; congruence.
  - intros z r [[= -> ->]|Hz]%elem_of_cons.
    + rewrite Hon2 by done. split; [done|]. destruct (Hs x Hx) as [[= _ _ -> _] _]. by eapply active_result; [apply Hl|].
    + destruct (Hin z r Hz) as [H1 ->]. split; [done|].
      assert (z ≠ x) as Hne by (intros ->; apply Hx, list_elem_of_fmap; by exists (x, r)).
      unfold joined_result. destruct (Ho z Hne) as [[= _ _ -> _] ->]. done.
Qed.

(** C21.  A ready descriptor is reported to exactly the events that were added for it and ask for what
    is ready.  On a well-formed base ([loop_ok]), for a descriptor that is not negative and that the
    backend watches: evmap_io_active succeeds, the events added for that descriptor whose flags meet
    [events] are active afterwards, each with the part it asked for as its result, joined to the
    earlier result if it was active before; every other event, added for another descriptor, a
    signal or a timeout only, or asking for the other direction only, keeps its flags, its
    result, its priority and its timeouts; and the base stays well formed. *)
Theorem ready_descriptor_reported fd events b : loop_ok b → 0 <= fd → bk_watch (backend b) fd ≠ (false, false) →
  ∃ b', evmap_io_active fd events b = Val b' ∧ loop_ok b' ∧
    (∀ x, on EVLIST_INSERTED (evs b) x → is_io (ev_of b x) = true → ev_fd (ev_of b x) = fd → has (ev_events (ev_of b x)) events = true →
       on EVLIST_ACTIVE (evs b') x ∧ ev_res (ev_of b' x) = joined_result b x (Z.land (ev_events (ev_of b x)) events)) ∧
    (∀ y, ¬ (on EVLIST_INSERTED (evs b) y ∧ is_io (ev_of b y) = true ∧ ev_fd (ev_of b y) = fd ∧ has (ev_events (ev_of b y)) events = true) →
       same_event b b' y).
Proof.
  intros Hl Hfd Hw. destruct (watched_slot fd b (lo_base _ Hl) Hfd Hw) as [ctx Hc]. unfold evmap_io_active, io_ready.
  pose proof (znth_Some _ _ _ Hc). destruct (Z.geb_spec fd (Zlen (io b))); [lia|]. rewrite Hc. cbn [or_undef mbind outcome_bind].
  pose proof (lo_base _ Hl) as [_ [M1 _ M3 _ _]]. assert (fd_events (io b) fd = mi_events ctx) as Ef by (unfold fd_events, entry; by rewrite Hc).
  set (l := filter _ (mi_events ctx)). assert (∀ f : nat → Z, (((λ x, (x, f x)) <$> l).*1) = l) as Efst.
  { intros f. rewrite <- list_fmap_compose. apply list_fmap_id. }
  assert (∀ y, y ∈ l ↔ has (ev_events (ev_of b y)) events = true ∧ on EVLIST_INSERTED (evs b) y ∧ is_io (ev_of b y) = true ∧ ev_fd (ev_of b y) = fd) as Hin.
  { intros y. unfold l. rewrite list_elem_of_filter, <- Ef, M3. change (evs b !!! y) with (ev_of b y). naive_solver. }
  destruct (activate_all_spec ((λ x, (x, Z.land (ev_events (evs b !!! x)) events)) <$> l) 1 b Hl) as (b' & -> & Hl' & Ho & Ha).
  { rewrite Efst. apply NoDup_filter. rewrite <- Ef. apply M1. }
  exists b'. split; [done|]. split; [done|]. split.
  - intros x H1 H2 H3 H4. apply Ha. apply list_elem_of_fmap. exists x. split; [done|]. by apply Hin.
  - intros y Hy. apply Ho. rewrite Efst, Hin. naive_solver.
Qed.

(** ** The order of callbacks *)

Lemma timer_of_none b x : ¬ is_timer b x → timer_of b x = None.
Proof.
  intros Hn. unfold timer_of. destruct (list_find _ _) as [[i c]|] eqn:Ef; [|done]. apply list_find_Some in Ef as (Hi & Hc & _).
  destruct Hn. apply list_elem_of_fmap. exists c. split; [done|]. apply list_elem_of_lookup. by exists i.
Qed.

(** An event whose closure runs the callback and nothing else. *)
Definition plain (e : Event) : Prop :=
  ev_closure e = EV_CLOSURE_NONE ∨ ev_closure e = EV_CLOSURE_PERSIST ∧ evutil_timerisset (ev_io_timeout e) = false.

Lemma run_plain user x b : (∀ x res b, user x res b = []) → ¬ is_timer b x → plain (ev_of b x) →
  run_event user x b = Val (log_ran x (ev_res (ev_of b x)) b).
Proof.
  intros Hu Hnt Hp. assert (ev_callback user x b = Val (log_ran x (ev_res (ev_of b x)) b)) as Hc.
  { unfold ev_callback. rewrite (timer_of_none b x Hnt), Hu. done. }
  unfold run_event, event_persist_closure. destruct Hp as [->|[-> ->]]; [done|]. exact Hc.
Qed.

(** The first event of a queue runs. *)
Lemma first_runs user fuel pri x q count b : reliable_del → (∀ x res b, user x res b = []) → loop_ok b →
  f_break (b_flags b) = false → f_continue (b_flags b) = false → activequeues b !! pri = Some (x :: q) →
  ¬ is_timer b x → plain (ev_of b x) →
  ∃ b', event_process_active_single_queue user (S fuel) pri count b =
      event_process_active_single_queue user fuel pri (count + if visible (evs b) x then 1 else 0) b' ∧ loop_ok b' ∧
    f_break (b_flags b') = false ∧ f_continue (b_flags b') = false ∧ activequeues b' = <[pri := q]> (activequeues b) ∧
    ran b' = ran b ++ [(x, ev_res (ev_of b x))] ∧ (∀ y, body (ev_of b' y) = body (ev_of b y)) ∧
    (∀ y, y ≠ x → visible (evs b') y = visible (evs b) y) ∧ shape b' = shape b.
Proof.
  intros Hrel Hu Hl Hbr Hco Hq Hnt Hp. pose proof (ac_queue _ _ _ (co_active _ (bo_core _ (lo_base _ Hl))) pri _ Hq) as [Hnd Hin].
  assert (ev_pri (ev_of b x) = pri) as Hpri by (apply Hin; by left). apply NoDup_cons in Hnd as [Hxq _].
  cbn [event_process_active_single_queue]. rewrite Hq. cbn [or_undef mbind outcome_bind].
  destruct (unqueue_spec Hrel x b Hl) as (b1 & -> & [Hl1 Hs1] & Ha & Hbody & Hfl & Hint & Haux & Hb1 & Hc1); [apply Hin; by left|].
  cbn [mbind outcome_bind]. pose proof (Hbody x) as Bx.
  assert (is_timer b1 x ↔ is_timer b x) as Htx by (unfold is_timer; by rewrite (shape_timers _ _ Hs1)).
  assert (plain (ev_of b1 x)) as Hp1 by (unfold plain; by injection Bx as _ _ _ _ -> _ -> _ _).
  rewrite (run_plain user x b1 Hu) by (rewrite ?Htx; done). cbn [mbind outcome_bind].
  change (f_break (b_flags (log_ran x (ev_res (ev_of b1 x)) b1))) with (f_break (b_flags b1)).
  change (f_continue (b_flags (log_ran x (ev_res (ev_of b1 x)) b1))) with (f_continue (b_flags b1)).
  rewrite Hb1, Hc1, Hbr, Hco. set (b2 := log_ran _ _ _). exists b2. split; [|split; [by apply loop_log|]].
  { f_equal. assert (visible (evs b) x = negb (has (ev_flags (ev_of b1 x)) EVLIST_INTERNAL)) as ->.
    { unfold visible. f_equal. apply eq_true_iff_eq. symmetry. exact Hint. }
    destruct (has _ _); cbn [negb]; lia. }
  split; [by rewrite <- Hbr, <- Hb1|]. split; [by rewrite <- Hco, <- Hc1|]. split; [|split; [|split; [exact Hbody|]]].
  - change (activequeues b2) with (activequeues b1). rewrite Ha. rewrite <- (remove_everywhere x b (x :: q)); [|apply Hl|by rewrite Hpri].
    rewrite Hpri. f_equal. unfold tailq_remove. rewrite filter_cons_False by (intros H; by apply H). by apply remove_notin.
  - change (ran b2) with (ran b1 ++ [(x, ev_res (ev_of b1 x))]). injection Haux as _ _ -> _ _. by injection Bx as _ _ -> _ _ _ _ _ _.
  - split; [|exact Hs1]. intros y Hy. unfold visible. change (evs b2 !!! y) with (ev_of b1 y). by rewrite Hfl.
Qed.

Lemma queue_in_order user fuel pri q count b : reliable_del → (∀ x res b, user x res b = []) → loop_ok b →
  f_break (b_flags b) = false → f_continue (b_flags b) = false → activequeues b !! pri = Some q → (length q <= fuel)%nat →
  (∀ x, x ∈ q → ¬ is_timer b x ∧ plain (ev_of b x)) →
  ∃ b', event_process_active_single_queue user fuel pri count b = Val (count + EvMapInv.count (visible (evs b)) q, b') ∧ loop_ok b' ∧
    activequeues b' = <[pri := []]> (activequeues b) ∧ ran b' = ran b ++ ((λ x, (x, ev_res (ev_of b x))) <$> q).
Proof.
  intros Hrel Hu. revert fuel count b. induction q as [|x q IH]; intros fuel count b Hl Hbr Hco Hq Hf Hpl; destruct fuel as [|fuel]; try (cbn in Hf; lia).
  1,2: cbn [event_process_active_single_queue]; rewrite Hq; exists b; cbn; rewrite Z.add_0_r, app_nil_r, list_insert_id by done; done.
  pose proof (ac_queue _ _ _ (co_active _ (bo_core _ (lo_base _ Hl))) pri _ Hq) as [[Hxq _]%NoDup_cons _].
  destruct (Hpl x ltac:(by left)) as [Hnt Hp].
  destruct (first_runs user fuel pri x q count b Hrel Hu Hl Hbr Hco Hq Hnt Hp) as (b1 & -> & Hl1 & Hbr1 & Hco1 & Ea & Er & Hbody & Hvis & Hs).
  assert (pri < length (activequeues b))%nat as Hlen by by eapply lookup_lt_Some.
  destruct (IH fuel (count + if visible (evs b) x then 1 else 0) b1) as (b2 & -> & Hl2 & Ea2 & Er2); try done.
  { rewrite Ea. by rewrite list_lookup_insert_eq. }
  { cbn in Hf. lia. }
  { intros y Hy. destruct (Hpl y ltac:(by right)) as [Hn Hpy]. split; [unfold is_timer; by rewrite (shape_timers _ _ Hs)|].
    unfold plain. by pose proof (Hbody y) as [= _ _ _ _ -> _ -> _ _]. }
  exists b2. split; [|split; [done|split]].
  - f_equal. f_equal. rewrite count_cons, (count_ext (visible (evs b1)) (visible (evs b)) q); [lia|]. intros y Hy. apply Hvis. by intros ->.
  - by rewrite Ea2, Ea, list_insert_insert_eq.
  - rewrite Er2, Er, <- app_assoc. f_equal. cbn. f_equal. apply list_fmap_ext. intros i y Hy. by pose proof (Hbody y) as [= _ _ -> _].
Qed.

(** With callbacks that make no call on the base, no loopbreak or event_continue under way, and a queue
    of events without signals, persistent timeouts and common timeouts ([plain]), the active events
    of one priority run in the order they became active, each once with its result, and the count
    of the events that are not internal is returned: as many turns as there are events are enough. *)
Theorem active_events_run_in_order user fuel pri q b : reliable_del → (∀ x res b, user x res b = []) → loop_ok b →
  f_break (b_flags b) = false → f_continue (b_flags b) = false → activequeues b !! pri = Some q → (length q <= fuel)%nat →
  (∀ x, x ∈ q → ¬ is_timer b x ∧ plain (ev_of b x)) →
  ∃ b', event_process_active_single_queue user fuel pri 0 b = Val (EvMapInv.count (visible (evs b)) q, b') ∧ loop_ok b' ∧
    activequeues b' = <[pri := []]> (activequeues b) ∧ ran b' = ran b ++ ((λ x, (x, ev_res (ev_of b x))) <$> q).
Proof. intros Hrel Hu Hl H1 H2 Hq Hf Hpl. by apply (queue_in_order user fuel pri q 0 b). Qed.

(** ** The loop *)

(** The backend watches a descriptor for reading or writing exactly where an added event asks for it. *)
Definition watches_added (watch : Z → bool * bool) (b : Base) : Prop := ∀ fd, 0 <= fd →
  ((watch fd).1 = true ↔ ∃ x, on EVLIST_INSERTED (evs b) x ∧ ev_fd (ev_of b x) = fd ∧ has (ev_events (ev_of b x)) EV_READ = true) ∧
  ((watch fd).2 = true ↔ ∃ x, on EVLIST_INSERTED (evs b) x ∧ ev_fd (ev_of b x) = fd ∧ has (ev_events (ev_of b x)) EV_WRITE = true).

Lemma count_pos f l : negb (count f l =? 0) = true ↔ ∃ x, x ∈ l ∧ f x = true.
Proof.
  unfold count. destruct (filter (λ x, f x = true) l) as [|x r] eqn:E; cbn.
  - split; [done|]. intros (x & Hx & Hf). assert (x ∈ filter (λ x, f x = true) l) as Hin by by apply list_elem_of_filter.
    rewrite E in Hin. by apply not_elem_of_nil in Hin.
  - split; [|by intros _]. intros _. exists x. assert (x ∈ filter (λ x, f x = true) l) as Hin by (rewrite E; by left).
    by apply list_elem_of_filter in Hin as [? ?].
Qed.

Lemma base_watches b : base_ok b → watches_added (bk_watch (backend b)) b.
Proof.
  intros Hb fd Hfd. destruct (bo_maps _ Hb) as [M1 M2 M3 _ _]. rewrite (M2 fd Hfd). unfold asked. cbn [fst snd].
  rewrite (en_nread _ _ _ (M1 fd)), (en_nwrite _ _ _ (M1 fd)), !count_pos. fold (fd_events (io b) fd).
  split; (split; [intros (x & Hx & Hf); apply M3 in Hx as (? & ? & ? & _); by exists x|]); intros (x & H1 & H2 & H3); exists x;
    (split; [|exact H3]); apply M3; (split; [done|]); (split; [|done]); unfold is_io; rewrite has_either;
    change (evs b !!! x) with (ev_of b x); rewrite H3; [done|apply orb_true_r].
Qed.
End props.

Section epoll_loop.
Context {HM : Malloc} {HK : Kernel} (laws : epoll_laws).

#[local] Instance epoll_promises : EventOpLaws := epoll_backend laws.

(** Deleting or changing an entry of the kernel's list does not fail, and handlers can be removed. *)
Definition kernel_reliable : Prop :=
  (∀ fd events k old, watched k fd = Some old → (epoll_ctl EPOLL_CTL_MOD fd events k).1 = None) ∧
  (∀ sig k, (sigaction_restore sig k).1 = 0).

Lemma apply_ok ch op events k :
  change_op ch = (op, events) → (epoll_ctl op (ch_fd ch) events k).1 = None → (epoll_apply_one_change ch k).1 = 0.
Proof.
  intros Hop Hc. unfold epoll_apply_one_change. rewrite Hop. destruct (events =? 0); [done|]. by destruct (epoll_ctl _ _ _ _) as [[err|] k'].
Qed.

Lemma epoll_reliable : kernel_reliable → reliable_del.
Proof.
  intros [Hmod Hsig]. split; [|exact Hsig]. intros fd old ev k (r0 & w0 & r & w & -> & -> & Hw & Hrw & Hr & Hww).
  change (epoll_watch k fd = (r0, w0)) in Hw. unfold epoll_watch in Hw. change ((epoll_nochangelist_del fd (rw r0 w0) (rw r w) k).1 = 0).
  destruct (watched k fd) as [m|] eqn:Em.
  2: { injection Hw as <- <-. destruct r; [by specialize (Hr eq_refl)|]. destruct w; [by specialize (Hww eq_refl)|done]. }
  clear Hw. assert (∀ op events, op ≠ EPOLL_CTL_ADD → (epoll_ctl op fd events k).1 = None) as Hok.
  { intros [] events Hop; [done|by eapply (ctl_del_watched laws)|by eapply Hmod]. }
  unfold epoll_nochangelist_del. set (ch := {| ch_fd := _ |}).
  destruct r0, w0, r, w; try discriminate; try (by specialize (Hr eq_refl)); try (by specialize (Hww eq_refl)).
  all: apply (apply_ok ch (change_op ch).1 (change_op ch).2); [reflexivity|apply Hok; vm_compute; congruence].
Qed.

Context (user : nat → Z → Base → list Action) (user_deferred : nat → Base → list Action).

(** C6.  The event loop on epoll is safe and keeps the kernel in step.  Assumed:
    - of the kernel, the documented behaviour of epoll_ctl ([epoll_laws]), that changing the entry of
      a descriptor it watches and giving a signal its old action back do not fail
      ([kernel_reliable]; evmap.c:378 loses track of a descriptor otherwise), and that it reports
      only descriptors it watches and sane times ([wake_ok]);
    - of the callbacks ([respectful]), that they assign only events that are not pending or active, with
      descriptors below 2^30 and signals that are not negative, add events with normalized timeouts
      or common timeouts the base knows (and, where the event is pending with a deadline of a
      common timeout, none of the other kind), leave the loop's own timers alone, raise signals
      some event was once added for, and see normalized times.
    Adding may fail, for lack of memory or because epoll_ctl refuses.  Level- and edge-triggered events
    are both covered.  Then from a well-formed base, with any flags of event_base_loop, no turn of the
    loop trips an assertion or leaves an array: it returns, or goes on for ever because callbacks keep
    activating events ([Hang], the only other outcome).  When it returns the base is well formed
    and the kernel watches each descriptor for reading and for writing exactly where an added
    event asks for it. *)
Theorem event_loop_on_epoll fuel flags ws b :
  kernel_reliable → respectful user user_deferred → loop_ok b → Forall (λ w, ∀ b, loop_ok b → wake_ok (w b) b) ws →
  match event_base_loop user user_deferred fuel flags ws b with
  | Val (r, b') => loop_ok b' ∧ watches_added (epoll_watch (backend b')) b'
  | Undef e => e = Hang
  end.
Proof.
  intros Hk Hu Hl Hw. pose proof (base_loop_spec user user_deferred (epoll_reliable Hk) Hu fuel flags ws b Hl Hw) as H.
  destruct (event_base_loop _ _ _ _ _ _) as [[r b']|e]; [|done]. split; [exact H|]. exact (base_watches b' (lo_base _ H)).
Qed.
End epoll_loop.
