(* ===== verification/RateWitnesses.v ===== *)
(** Concrete instances of the properties of rate limits: each lemma applies one theorem at a small
    world on which its hypotheses hold. *)

From stdpp Require Import functions.
From S2P Require Import Prelude EvFlags BufChain BufevData Bufev RateLimit RateInv RateRun RateConf RateProps.

(** ** Worlds *)

Definition quiet_bev : Bufferevent :=
  default {| bv_io := {| io_input := evbuffer_new; io_output := evbuffer_new; io_ev_read := event_assign (-1);
                         io_ev_write := event_assign (-1) |};
             bv_conf := {| cf_timeout_read := (0, 0); cf_timeout_write := (0, 0);
                           cf_wm_read := {| wm_low := 0; wm_high := 0 |}; cf_wm_write := {| wm_low := 0; wm_high := 0 |};
                           cf_readcb := false; cf_writecb := false; cf_errorcb := false; cf_options := 0;
                           cf_read_watermarks_cb := false |};
             bv_priv := {| pv_enabled := 0; pv_read_suspended := 0; pv_write_suspended := 0; pv_connecting := false;
                           pv_connection_refused := false; pv_refcnt := 0; pv_dns_error := 0; pv_readcb_pending := false;
                           pv_writecb_pending := false; pv_eventcb_pending := 0; pv_queued := false |};
             bv_log := empty_log |} (bufferevent_socket_new true 7 BEV_OPT_CLOSE_ON_FREE).

(** 100 bytes a second, bursts of 250. *)
Definition slow : Cfg :=
  {| cfg_addr := 0; read_rate := 100; read_maximum := 250; write_rate := 100; write_maximum := 250; tick_timeout := {| tv_sec := 1; tv_usec := 0 |}; msec_per_tick := 1000 |}.

Definition no_group : Group :=
  {| members := []; rate_limit := {| read_limit := 0; write_limit := 0; last_updated := 0 |}; rate_limit_cfg := slow; g_read_suspended := false;
     g_write_suspended := false; pending_unsuspend_read := false; pending_unsuspend_write := false; total_read := 0; total_written := 0;
     n_members := 0; min_share := 0; configured_min_share := 0; master_refill := Unassigned |}.

Definition at_second (s : Z) : timeval := {| tv_sec := s; tv_usec := 0 |}.

(** Nothing is limited. *)
Definition calm : World :=
  {| bevs := λ _, {| bev := quiet_bev; rate_limiting := None |}; groups := λ _, no_group; now := at_second 1000; weakrand := 5 |}.

Lemma calm_inv : inv calm.
Proof. split; [by intros i []|by intros i []|by intros g []|done]. Qed.

Lemma slow_ok : cfg_ok slow.
Proof. split; [intros []; cbn; lia|reflexivity]. Qed.

(** Bufferevent 0 with [n] bytes to read and to write; it is suspended where there are none. *)
Definition limited (n : Z) : World :=
  upd_bev 0 (λ b, {| bev := if n <=? 0 then suspend DWrite BEV_SUSPEND_BW (suspend DRead BEV_SUSPEND_BW (bev b)) else bev b;
                     rate_limiting := Some {| rl_group := None; rl_limit := {| read_limit := n; write_limit := n; last_updated := 1000 |}; rl_cfg := Some slow;
                                              rl_refill := if n <=? 0 then Pending else Idle |} |}) calm.

Lemma limited_inv n : - 2 ^ 63 <= n <= 250 → inv (limited n).
Proof.
  intros Hn. assert (bucket_ok slow {| read_limit := n; write_limit := n; last_updated := 1000 |}) as Hb by (split; [by intros []|done]).
  split; [..|by intros g []|done].
  - intros [|i]; [|by intros []]. unfold own_ok. change (rlim_of 0 (limited n)) with (rate_limiting (bevs (limited n) 0)). unfold bw, flag, limited, upd_bev. cbn [bevs].
    rewrite fn_lookup_insert. cbn [rate_limiting rl_cfg rl_limit rl_refill bev]. split; [apply slow_ok|]. split; [done|]. destruct (Z.leb_spec n 0).
    + split; [done|]. by intros [].
    + split; [done|]. intros []; split; cbn [LIM read_limit write_limit]; try lia; done.
  - intros [|i]; [|by intros []]. unfold member_ok. change (group_of (rlim_of 0 (limited n))) with (@None nat). unfold bwg, flag, limited, upd_bev. cbn [bevs]. rewrite fn_lookup_insert. cbn [bev].
    intros d. destruct (n <=? 0); by destruct d.
Qed.

Definition yes (_ : Z) : bool := true.

(** ** A group, a limit and their traffic *)

Definition demo_setup : list Step := [SGroupNew true 3 slow; SSetLimit true 1 (Some slow); SJoin true 0 3; SJoin true 1 3].
Definition demo_traffic : list Step :=
  [STransfer DRead 0 (-1) 70; STransfer DRead 1 (-1) 400; STransfer DWrite 1 (-1) 30; STime (at_second 1001); SGroupRefill 3; SRefill 1; STransfer DRead 1 (-1) 400].

Lemma rate_limits_hold_witness :
  ∃ ks w', exec_all yes (demo_setup ++ demo_traffic) calm = Val (ks, w') ∧ inv w' ∧ ks = [0; 0; 0; 0; 64; 64; 30; 0; 0; 0; 64].
Proof.
  assert (may_all yes (demo_setup ++ demo_traffic) calm) as Hm.
  { split; [split; [vm_compute; congruence|apply slow_ok]|]. intros k1 w1 [= <- <-]. split; [intros c [= <-]; apply slow_ok|]. intros k2 w2 [= <- <-].
    split; [vm_compute; congruence|]. intros k3 w3 [= <- <-]. split; [vm_compute; congruence|]. repeat split. }
  destruct (rate_limits_hold yes eq_refl (demo_setup ++ demo_traffic) calm calm_inv Hm) as (ks & w' & E & Hi & _).
  exists ks, w'. split; [exact E|]. split; [exact Hi|]. assert (fst <$> (match exec_all yes (demo_setup ++ demo_traffic) calm with Val x => Some x | _ => None end) = Some ks) as Ek by (by rewrite E).
  clear E. vm_compute in Ek.
  by injection Ek as <-.
Defined.

(** ** A burst *)

(** Bufferevent 0 has 60 bytes, and its socket is always ready. *)
Definition demo_burst : list Step :=
  [STransfer DRead 0 (-1) 1000; STransfer DRead 0 (-1) 1000; STime (at_second 1001); STransfer DRead 0 (-1) 1000; SRefill 0; STransfer DRead 0 (-1) 1000; STransfer DRead 5 (-1) 1000;
   STime (at_second 1009); SRefill 0; STransfer DRead 0 (-1) 1000].

(** 410 bytes in nine seconds, of which the limit would have allowed 1150. *)
Lemma rate_bounds_traffic_witness :
  ∃ ks w', exec_all yes demo_burst (limited 60) = Val (ks, w') ∧ tick_no slow (now (limited 60)) <= tick_no slow (now w') ∧
    total DRead 0 demo_burst ks <= maximum DRead slow + rate DRead slow * (tick_no slow (now w') - tick_no slow (now (limited 60))) ∧
    ks = [60; 0; 0; 0; 0; 100; 1000; 0; 0; 250].
Proof.
  assert (may_all yes demo_burst (limited 60)) as Hm by repeat split.
  assert (Forall (λ s, traffic s = true) demo_burst) as Ht by (repeat constructor).
  assert (timely slow (tick_no slow (now (limited 60))) (1000 + 2 ^ 31) demo_burst) as Htl.
  { repeat split; try exact I; vm_compute; congruence. }
  destruct (rate_bounds_traffic yes eq_refl DRead 0 slow demo_burst (limited 60) {| rl_group := None; rl_limit := {| read_limit := 60; write_limit := 60; last_updated := 1000 |}; rl_cfg := Some slow;
      rl_refill := Idle |} 1000) as (ks & w' & E & Hle & Hb).
  - apply limited_inv; lia.
  - exact Hm.
  - exact Ht.
  - reflexivity.
  - reflexivity.
  - reflexivity.
  - vm_compute; repeat split; congruence.
  - vm_compute; repeat split; congruence.
  - exact Htl.
  - exists ks, w'. split; [exact E|]. split; [exact Hle|]. split; [exact Hb|].
    assert (fst <$> (match exec_all yes demo_burst (limited 60) with Val x => Some x | _ => None end) = Some ks) as Ek by (by rewrite E).
    clear E Hb. vm_compute in Ek.
    by injection Ek as <-.
Defined.

(** ** A debt *)

(** 320 bytes too many have been taken: three seconds are not enough, four are. *)
Lemma refill_resumes_witness :
  (∃ ks w', exec_all yes (refills 0 (at_second <$> [1001; 1002; 1003; 1004])) (limited (-320)) = Val (ks, w') ∧ inv w' ∧ bw w' 0 DWrite = false) ∧
  match exec_all yes (refills 0 (at_second <$> [1001; 1002; 1003])) (limited (-320)) with Val (_, w') => bw w' 0 DWrite | Undef _ => false end = true.
Proof.
  split; [|vm_compute; reflexivity].
  apply (refill_resumes yes eq_refl DWrite 0 slow (at_second <$> [1001; 1002; 1003; 1004]) (limited (-320)) {| rl_group := None; rl_limit := {| read_limit := -320; write_limit := -320; last_updated := 1000 |};
      rl_cfg := Some slow; rl_refill := Pending |} 1000).
  - apply limited_inv; lia.
  - reflexivity.
  - reflexivity.
  - reflexivity.
  - vm_compute; repeat split; congruence.
  - reflexivity.
  - reflexivity.
Defined.
