(* ===== verification/EvWitnesses.v ===== *)
(** Concrete instances of the properties of the event loop: a kernel that keeps its list in
    a map, and a base with two descriptors and a timer. *)

From Stdlib Require Import Sorted.
From S2P Require Import Prelude EvFlags BufChain EvHeap EvHeapInv EvMap EvMapInv Epoll EpollInv EvBase EvLoop EvInv EvDel EvAdd EvTimeouts EvRun EvProps.

#[local] Instance ev_malloc : Malloc := {| malloc_ok := λ _, true; uninit := z2b 0 |}.

Definition list_ctl (op : epoll_op) (fd events : Z) (k : gmap Z Z) : option errno * gmap Z Z :=
  match op, k !! fd with
  | EPOLL_CTL_ADD, None | EPOLL_CTL_MOD, Some _ => (None, <[fd := events]> k)
  | EPOLL_CTL_ADD, Some _ => (Some EEXIST, k)
  | EPOLL_CTL_MOD, None | EPOLL_CTL_DEL, None => (Some ENOENT, k)
  | EPOLL_CTL_DEL, Some _ => (None, delete fd k)
  end.

#[local] Instance list_kernel : Kernel := {|
  kstate := gmap Z Z;
  epoll_ctl := list_ctl;
  watched := λ k fd, k !! fd;
  sigaction_set := λ _ k, (0, k);
  sigaction_restore := λ _ k, (0, k) |}.

Lemma list_ctl_spec op fd events (k : gmap Z Z) :
  (∀ fd', fd' ≠ fd → (list_ctl op fd events k).2 !! fd' = k !! fd') ∧
  match (list_ctl op fd events k).1 with
  | Some err => (list_ctl op fd events k).2 !! fd = k !! fd ∧
      err = (match op with EPOLL_CTL_ADD => EEXIST | _ => ENOENT end) ∧ (op = EPOLL_CTL_ADD ↔ is_Some (k !! fd))
  | None => (list_ctl op fd events k).2 !! fd = (match op with EPOLL_CTL_DEL => None | _ => Some events end) ∧
      (op ≠ EPOLL_CTL_ADD ↔ is_Some (k !! fd))
  end.
Proof.
  unfold list_ctl. destruct op, (k !! fd) eqn:Ek; cbn; rewrite ?lookup_insert_eq, ?lookup_delete_eq, ?is_Some_alt;
    (split; [intros fd' Hne; rewrite ?lookup_insert_ne, ?lookup_delete_ne by (by apply not_eq_sym); done|]); naive_solver.
Qed.

Lemma list_kernel_laws : epoll_laws.
Proof.
  split; cbn [epoll_ctl watched sigaction_set sigaction_restore list_kernel]; try by auto.
  - intros op fd events k r k' fd' E Hne. destruct (list_ctl_spec op fd events k) as [Ho _]. rewrite E in Ho. by apply Ho.
  - intros op fd events k err k' E. destruct (list_ctl_spec op fd events k) as [_ Hc]. rewrite E in Hc. by destruct Hc.
  - intros op fd events k k' E. destruct (list_ctl_spec op fd events k) as [_ Hc]. rewrite E in Hc. by destruct Hc.
  - intros fd events k old E. destruct (list_ctl_spec EPOLL_CTL_ADD fd events k) as [_ Hc].
    destruct (list_ctl _ _ _ _) as [[err|] k']; cbn in *; [by destruct Hc as (_ & -> & _)|]. destruct Hc as [_ Hc]. rewrite E in Hc. by destruct (proj2 Hc ltac:(done)).
  - intros fd events k E. destruct (list_ctl_spec EPOLL_CTL_MOD fd events k) as [_ Hc].
    destruct (list_ctl _ _ _ _) as [[err|] k']; cbn in *; [by destruct Hc as (_ & -> & _)|]. destruct Hc as [_ Hc]. rewrite E in Hc.
    destruct (proj1 Hc ltac:(done)); done.
  - intros fd events k old E. destruct (list_ctl_spec EPOLL_CTL_DEL fd events k) as [_ Hc].
    destruct (list_ctl _ _ _ _) as [[err|] k']; cbn in *; [|done]. destruct Hc as (_ & _ & Hc). rewrite E in Hc. by assert (EPOLL_CTL_DEL = EPOLL_CTL_ADD) by (apply Hc; by eexists).
Qed.

#[local] Instance list_promises : EventOpLaws := epoll_backend list_kernel_laws.

Lemma list_kernel_reliable : kernel_reliable.
Proof.
  split; [|done]. cbn [epoll_ctl watched list_kernel]. intros fd events k old E. destruct (list_ctl_spec EPOLL_CTL_MOD fd events k) as [_ Hc].
  destruct (list_ctl _ _ _ _) as [[err|] k']; cbn in *; [|done]. destruct Hc as (_ & _ & Hc). rewrite E in Hc. by assert (EPOLL_CTL_MOD = EPOLL_CTL_ADD) by (apply Hc; by eexists).
Qed.

Definition secs (n : Z) : timeval := {| tv_sec := n; tv_usec := 0 |}.

Definition empty_base : Base := {|
  evs := ∅;
  b_queues := {| q_eventqueue := []; q_activequeues := [[]; []]; q_timeheap := min_heap_ctor; q_ctls := [] |};
  io := []; sigmap := []; backend := (∅ : gmap Z Z); event_count := 0; event_count_active := 0;
  b_flags := {| f_gotterm := false; f_break := false; f_continue := false; f_running_priority := -1; f_running_loop := false; f_sig_ncalls := 0 |};
  b_times := {| t_cache := secs 0; t_event_tv := secs 0; t_clock := secs 100 |};
  deferred := []; ran := [] |}.

Lemma empty_event x : ev_of empty_base x = inhabitant.
Proof. unfold ev_of, empty_base. cbn [evs]. apply lookup_total_empty. Qed.
Lemma empty_on q k x : queue_bit q k → ¬ on q (evs empty_base) x.
Proof. intros Hq. unfold on. change (evs empty_base !!! x) with (ev_of empty_base x). rewrite empty_event. by destruct Hq. Qed.

Lemma empty_core : core_ok empty_base.
Proof.
  split; try done.
  - intros x. rewrite empty_event. split; [done|cbn; lia|done|cbn; lia].
  - split.
    + split; [done|..]; intros i Hi; cbn in Hi; lia.
    + intros x. split; [by intros ?%not_elem_of_nil|]. intros [Hx _]. by destruct (empty_on _ _ _ bit_timeout Hx).
    + intros x Hx. by destruct (empty_on _ _ _ bit_timeout Hx).
    + intros i c Hc. change (([] : list Ctl) !! i = Some c) in Hc. by rewrite lookup_nil in Hc.
    + intros i c Hc. change (([] : list Ctl) !! i = Some c) in Hc. by rewrite lookup_nil in Hc.
  - split; [by apply NoDup_nil|]. intros x. split; [by intros ?%not_elem_of_nil|]. intros Hx. by destruct (empty_on _ _ _ bit_inserted Hx).
  - split; [|done]. intros p q Hq. assert (q = []) as ->.
    { change ([[]; []] !! p = Some q) in Hq. destruct p as [|[|p]]; cbn in Hq; by inversion Hq. }
   
    split; [by apply NoDup_nil|]. intros x. split; [by intros ?%not_elem_of_nil|]. intros [Hx _]. by destruct (empty_on _ _ _ bit_active Hx).
Qed.

Lemma empty_entry fd : entry [] fd = evmap_io_init.
Proof. unfold entry, znth. destruct (fd <? 0); [done|]. by rewrite lookup_nil. Qed.

Lemma empty_base_ok : loop_ok empty_base.
Proof.
  split.
  - split; [apply empty_core|]. split.
    + intros fd. change (io empty_base) with (@nil (option evmap_io)). rewrite empty_entry. apply entry_init.
    + intros fd Hfd. change (io empty_base) with (@nil (option evmap_io)). rewrite empty_entry. change (@epoll_watch list_kernel (∅ : gmap Z Z) fd = (false, false)).
      unfold epoll_watch. change (@watched list_kernel (∅ : gmap Z Z) fd) with ((∅ : gmap Z Z) !! fd). by rewrite lookup_empty.
    + intros x fd. unfold fd_events. change (io empty_base) with (@nil (option evmap_io)). rewrite empty_entry.
      split; [by intros ?%not_elem_of_nil|]. intros [Hx _]. by destruct (empty_on _ _ _ bit_inserted Hx).
    + intros sig. unfold sig_events, znth. destruct (sig <? 0); [by apply NoDup_nil|]. change (sigmap empty_base) with (@nil (option (list nat))).
      rewrite lookup_nil. by apply NoDup_nil.
    + intros x sig. split; [|intros [Hx _]; by destruct (empty_on _ _ _ bit_inserted Hx)]. unfold sig_events, znth.
      change (sigmap empty_base) with (@nil (option (list nat))). destruct (sig <? 0); [by intros ?%not_elem_of_nil|].
      rewrite lookup_nil. by intros ?%not_elem_of_nil.
  - intros x Hc. by rewrite empty_event in Hc.
  - split; [by apply NoDup_nil|..]; by intros x ?%not_elem_of_nil.
Qed.

(** ** A base in use *)

(** A persistent reader with a timeout, a writer on the same descriptor, and a timer. *)
Definition demo_actions : list Action :=
  [AAssign 1 5 (Z.lor EV_READ EV_PERSIST); AAdd 1 (Some (secs 3)); AAssign 2 5 EV_WRITE; AAdd 2 None;
   AAssign 3 (-1) 0; AAdd 3 (Some (secs 1))].

Definition after (l : list Action) (b : Base) : Base := match do_actions l b with Val b' => b' | Undef _ => b end.
Definition demo_base : Base := after demo_actions empty_base.
(** The same base three seconds later, with the writer active. *)
Definition demo_later : Base := after [AActive 2 EV_WRITE 1; ATick (secs 103)] demo_base.

Lemma after_ok l b : loop_ok b → allowed_all l b → loop_ok (after l b).
Proof.
  intros Hl Ha. unfold after. destruct (loop_actions l b) as (b' & -> & Hl' & _); [apply epoll_reliable, list_kernel_reliable|done|done|done].
Qed.

Lemma no_timers (b : Base) x : ctls b = [] → ¬ is_timer b x.
Proof. intros E. unfold is_timer. rewrite E. apply not_elem_of_nil. Qed.

(** Where there are no common timeouts, whether an action is allowed can be computed. *)
Definition normal_tv (t : timeval) : bool := (0 <=? tv_usec t) && (tv_usec t <? 1000000).
Definition allowed_check (a : Action) (b : Base) : bool :=
  match ctls b with _ :: _ => false | [] =>
    match a with
    | AAssign x fd events =>
        negb (has (ev_flags (ev_of b x)) EVLIST_TIMEOUT) && negb (has (ev_flags (ev_of b x)) EVLIST_ACTIVE) &&
        negb (has (ev_flags (ev_of b x)) EVLIST_INSERTED) && (fd <? 2 ^ 30) &&
        (negb (has events EV_SIGNAL) || (0 <=? fd))
    | AAdd x (Some t) => normal_tv t && negb (has (ev_flags (ev_of b x)) EVLIST_TIMEOUT)
    | ASignal _ _ => false
    | ATick now => normal_tv now
    | _ => true
    end
  end.
Fixpoint check_all (l : list Action) (b : Base) : bool :=
  match l with [] => true | a :: l => allowed_check a b && check_all l (after [a] b) end.

Lemma normal_tv_ok t : normal_tv t = true → tv_ok t.
Proof. unfold normal_tv, tv_ok. rewrite andb_true_iff. intros [? ?]. zbool. lia. Qed.

Lemma check_allowed a b : allowed_check a b = true → allowed a b.
Proof.
  unfold allowed_check. destruct (ctls b) eqn:Ec; [|done]. assert (∀ x, ¬ is_timer b x) as Hnt by (intros x; by apply no_timers).
  destruct a as [x fd events|x pri|x [t|]|x|x res n|sig n| | |c|c|now]; try done; cbn [allowed].
  - rewrite !andb_true_iff, !negb_true_iff. intros [[[[H1 H2] H3] H4] H6]. split; [done|]. split.
    + unfold idle, on. change (evs b !!! x) with (ev_of b x). by rewrite H1, H2, H3.
    + split; [zbool; lia|]. intros Hs. rewrite Hs in H6. cbn in H6. zbool. lia.
  - intros _. apply Hnt.
  - rewrite andb_true_iff, negb_true_iff. intros [H1%normal_tv_ok H2]. split; [done|]. intros t' [= <-]. split; [by left| |done|].
    + intros _ Hon. unfold on in Hon. change (evs b !!! x) with (ev_of b x) in Hon. congruence.
    + intros Ht. by destruct (Hnt x).
  - apply normal_tv_ok.
Qed.

Lemma check_all_allowed l b : check_all l b = true → allowed_all l b.
Proof.
  revert b. induction l as [|a l IH]; intros b; cbn [check_all allowed_all]; [done|]. rewrite andb_true_iff. intros [H1%check_allowed H2].
  split; [done|]. intros b' E. apply IH. unfold after in H2. cbn [do_actions] in H2. by rewrite E in H2.
Qed.

Lemma demo_base_ok : loop_ok demo_base.
Proof. apply after_ok; [apply empty_base_ok|]. apply check_all_allowed. vm_compute. reflexivity. Qed.
Lemma demo_later_ok : loop_ok demo_later.
Proof. apply after_ok; [apply demo_base_ok|]. apply check_all_allowed. vm_compute. reflexivity. Qed.
Lemma demo_reliable : reliable_del.
Proof. apply epoll_reliable, list_kernel_reliable. Qed.

(** ** The properties *)

Lemma due_timeouts_fire_witness : ∃ b' (l : list nat), timeout_process demo_later = Val b' ∧ 3%nat ∈ l ∧ ev_res (ev_of b' 3) = EV_TIMEOUT.
Proof.
  destruct (due_timeouts_fire demo_later demo_reliable demo_later_ok) as (b' & l & He & _ & [_ Hin] & _ & Hf & _). exists b', l.
  split; [exact He|]. assert (3%nat ∈ l) as H3.
  { apply Hin. split; [|vm_compute; reflexivity]. apply list_elem_of_lookup. exists 0%nat. vm_compute. reflexivity. }
  split; [exact H3|]. apply (Hf 3%nat H3).
Defined.

Lemma loop_sleeps_until_deadline_witness : ∃ o, timeout_next demo_base = Val o ∧ epoll_timeout o = 1000.
Proof.
  destruct (loop_sleeps_until_deadline demo_base (lo_base _ demo_base_ok)) as (o & He & _). exists o. split; [exact He|].
  assert (timeout_next demo_base = Val (Some (secs 1))) as E by (vm_compute; reflexivity). rewrite E in He. injection He as <-. vm_compute. reflexivity.
Defined.

Lemma persistent_event_reschedules_witness : usecs (gettime demo_later) <= usecs (masked (persist_run_at 1 demo_later)).
Proof.
  destruct (persistent_event_reschedules 1 demo_later demo_later_ok) as (_ & H & _); [vm_compute; reflexivity|vm_compute; reflexivity|].
  apply H. vm_compute. congruence.
Defined.

Lemma event_add_contract_witness : ∃ rc b', event_add 2 (Some (secs 7)) demo_base = Val (rc, b') ∧ loop_ok b'.
Proof.
  destruct (event_add_contract 2 (Some (secs 7)) demo_base demo_base_ok) as (rc & b' & He & Hl & _).
  - apply no_timers. vm_compute. reflexivity.
  - assert (allowed (AAdd 2 (Some (secs 7))) demo_base) as [_ Ha] by (apply check_allowed; vm_compute; reflexivity). exact Ha.
  - exists rc, b'. split; [exact He|exact Hl].
Defined.

Lemma event_del_forgets_witness : ∃ b', event_del 1 demo_base = Val (0, b') ∧ 1%nat ∉ live (timeheap b').
Proof.
  destruct (event_del_forgets 1 demo_base demo_reliable demo_base_ok) as (b' & He & _ & _ & [Hx _] & _). exists b'. split; [exact He|exact Hx].
Defined.

Lemma ready_descriptor_reported_witness : ∃ b', evmap_io_active 5 EV_READ demo_base = Val b' ∧ on EVLIST_ACTIVE (evs b') 1.
Proof.
  destruct (ready_descriptor_reported 5 EV_READ demo_base demo_base_ok) as (b' & He & _ & Ha & _); [lia|vm_compute; congruence|].
  exists b'. split; [exact He|]. apply (Ha 1%nat); vm_compute; reflexivity.
Defined.

Lemma active_events_run_in_order_witness :
  ∃ b', event_process_active_single_queue (λ _ _ _, []) 5 1 0 demo_later = Val (1, b') ∧ ran b' = [(2%nat, EV_WRITE)].
Proof.
  destruct (active_events_run_in_order (λ _ _ _, []) 5 1 [2%nat] demo_later demo_reliable) as (b' & He & _ & _ & Hr).
  - reflexivity.
  - apply demo_later_ok.
  - vm_compute. reflexivity.
  - vm_compute. reflexivity.
  - vm_compute. reflexivity.
  - cbn. lia.
  - intros x ->%list_elem_of_singleton. split; [apply no_timers; vm_compute; reflexivity|]. left. vm_compute. reflexivity.
  - exists b'. split; [exact He|]. rewrite Hr. vm_compute. reflexivity.
Defined.

(** Callbacks that activate another event, delete one and end the loop. *)
Definition demo_user (x : nat) (res : Z) (b : Base) : list Action :=
  if decide (x = 2%nat) then [] else [AActive 2 EV_WRITE 1; ADel 3; ADefer 7; ALoopexit].
Definition demo_deferred (c : nat) (b : Base) : list Action := [ADel 1].
Definition demo_wakeup (b : Base) : Wakeup :=
  if decide (@epoll_watch list_kernel (backend b) 5 = (false, false)) then WInterrupted (secs 101) else WReady [(5, EPOLLIN)] (secs 101).

Lemma event_loop_on_epoll_witness :
  ∃ r b', event_base_loop demo_user demo_deferred 10 0 [demo_wakeup] demo_base = Val (r, b') ∧ loop_ok b' ∧
    watches_added (epoll_watch (backend b')) b'.
Proof.
  pose proof (event_loop_on_epoll list_kernel_laws demo_user demo_deferred 10 0 [demo_wakeup] demo_base list_kernel_reliable) as H.
  assert (∃ p, event_base_loop demo_user demo_deferred 10 0 [demo_wakeup] demo_base = Val p) as [[r b'] E].
  { destruct (event_base_loop demo_user demo_deferred 10 0 [demo_wakeup] demo_base) as [p|e] eqn:E; [by exists p|].
    assert (match event_base_loop demo_user demo_deferred 10 0 [demo_wakeup] demo_base with Val _ => true | Undef _ => false end = true) as Hv
      by (vm_compute; reflexivity). rewrite E in Hv. discriminate. }
  exists r, b'. rewrite E in H. split; [exact E|]. apply H; [|apply demo_base_ok|].
  - split; [intros x res b _; unfold demo_user; case_decide; [exact I|]|intros c b _; unfold demo_deferred]; cbn [allowed_all allowed];
      repeat (split; [exact I|intros ? _]); exact I.
  - apply Forall_singleton. intros b _. unfold demo_wakeup. destruct (decide _) as [Ew|Ew]; unfold wake_ok.
    + apply normal_tv_ok. reflexivity.
    + split; [apply normal_tv_ok; reflexivity|]. apply Forall_singleton. cbn [fst]. split; [lia|]. exact Ew.
Defined.
