(* ===== verification/SignalWitnesses.v ===== *)
(** Concrete instances of the properties of signals, and what goes wrong when an event cannot be added. *)

From stdpp Require Import functions.
From S2P Require Import Prelude BufChain Signals SignalProps.

#[local] Instance plenty : Malloc := { malloc_ok _ := true; uninit := z2b 0 }.
#[local] Instance demo_kernel : SigKernel := { sigaction_ok s := negb (s =? 9); ev_signal_add_ok _ := true; socket_room := 4096 }.

Lemma demo_add_ok : ev_signal_add_ok 0 = true.
Proof. reflexivity. Qed.

Definition SIGINT : Z := 2.
Definition SIGUSR1 : Z := 10.
Definition SIGTERM : Z := 15.

(** The base 0 with its sockets 4 and 5, the base 1 with 8 and 9. *)
Definition demo_info (p0 p1 : Z) : evsig_info := {| ev_signal_pair0 := p0; ev_signal_pair1 := p1; ev_signal_added := false; ev_n_signals_added := 0; sh_old := [] |}.
Definition demo_process : process := {|
  evsig_base := None; evsig_base_n_signals_added := 0; evsig_base_fd := -1;
  infos i := match i with O => demo_info 4 5 | 1%nat => demo_info 8 9 | _ => demo_info (-1) (-1) end;
  actions s := Foreign s;
  peers p := if p =? 4 then Some 5 else if p =? 5 then Some 4 else if p =? 8 then Some 9 else if p =? 9 then Some 8 else None;
  inbox _ := [] |}.

Lemma demo_start : sig_start 0 demo_process.
Proof.
  split; try done.
  - by intros [|[|j]].
  - intros [|[|j]] p Hj; [done|..]; cbn; intros [-> | ->]; done.
Qed.

(** SIGUSR1 is raised twice, SIGINT once, and SIGTERM, which nothing asks for. *)
Definition demo_steps : list sig_step := [Add SIGINT; Add SIGUSR1; Raise SIGUSR1; Loop 1; Raise SIGINT; Raise SIGUSR1; Raise SIGTERM; OtherDealloc 1].

Definition sig_next (st : sig_step) (x : sig_spec * process) : sig_spec * process :=
  match sig_exec 0 st x.2 with Val (r, w) => (spec_step st r x.1, w) | Undef _ => x end.
Definition demo_state : sig_spec * process := foldl (λ x st, sig_next st x) ({| sp_added := ∅; sp_pending := [] |}, demo_process) demo_steps.

Lemma demo_next st x : sig_reach 0 demo_process x.1 x.2 → allowed 0 st x.1 x.2 → sig_reach 0 demo_process (sig_next st x).1 (sig_next st x).2.
Proof.
  intros Hr Ha. unfold sig_next. destruct (step_ok 0 demo_add_ok demo_process x.1 x.2 st demo_start (reach_inv 0 demo_add_ok _ _ _ demo_start Hr) Ha) as (r & w' & E & _). rewrite E. by apply (reach_step 0 demo_process st r x.1 x.2 w').
Qed.

Lemma demo_reached : sig_reach 0 demo_process demo_state.1 demo_state.2.
Proof.
  unfold demo_state, demo_steps. cbn [foldl]. repeat (apply demo_next); [apply reach_start|..];
    match goal with
    | |- allowed _ (Loop _) _ _ => exact I
    | |- allowed _ (OtherDealloc _) _ _ => done
    | |- _ => split; [done|]; vm_compute; (done || (intros E; inversion E))
    end.
Qed.

(** The callback activates SIGINT once and SIGUSR1 twice. *)
Lemma signals_delivered_witness :
  sp_pending demo_state.1 = [SIGUSR1; SIGINT; SIGUSR1] ∧ actions demo_state.2 SIGTERM = Foreign SIGTERM ∧
  ∃ w', sig_exec 0 Callback demo_state.2 = Val (Caught [(SIGINT, 1); (SIGUSR1, 2)], w').
Proof.
  destruct (signals_delivered 0 demo_add_ok demo_process demo_state.1 demo_state.2 demo_start demo_reached) as (Ha & _ & Hs). split; [vm_compute; reflexivity|]. split.
  - rewrite Ha. vm_compute. reflexivity.
  - assert (tally (sp_pending demo_state.1) = [(SIGINT, 1); (SIGUSR1, 2)]) as Ht by (vm_compute; reflexivity).
    destruct (Hs Callback I) as (r & w' & E & Hr). unfold result_ok in Hr. rewrite Ht in Hr. rewrite Hr in E. exists w'. exact E.
Defined.

Lemma handlers_restored_witness :
  actions demo_state.2 SIGINT = Evsig_handler ∧ ∃ w', evsig_dealloc 0 demo_state.2 = Val w' ∧ actions w' SIGINT = Foreign SIGINT ∧ raise_signal SIGINT w' = w'.
Proof.
  split; [vm_compute; reflexivity|].
  destruct (handlers_restored 0 demo_add_ok demo_process demo_state.1 demo_state.2 demo_start demo_reached) as (w' & E & Ha & _ & _ & _ & _ & _ & Hr).
  exists w'. split; [exact E|]. split; [rewrite Ha; reflexivity|apply Hr].
Defined.

(** When the internal event cannot be added evsig_add fails, but the handler stays; adding and deleting
    the signal again later takes it for the program's own action. *)
Definition no_event : SigKernel := {| sigaction_ok _ := true; ev_signal_add_ok _ := false; socket_room := 4096 |}.
Definition after {A} (d : A) (o : outcome (Z * A)) : A := match o with Val (_, a) => a | Undef _ => d end.

Lemma failed_add_leaves_handler :
  let w1 := after demo_process (evsig_add (H0 := no_event) 0 SIGINT demo_process) in
  let w2 := after w1 (evsig_add 0 SIGINT w1) in
  let w3 := after w2 (evsig_del 0 SIGINT w2) in
  actions w1 SIGINT = Evsig_handler ∧ actions w3 SIGINT = Evsig_handler ∧ ev_n_signals_added (infos w3 0%nat) = 0.
Proof. vm_compute. auto. Qed.

(** Deleting a signal of one base counts down the copy of the number of another. *)
Lemma copy_of_other_base :
  let w1 := after demo_process (evsig_add 0 SIGINT demo_process) in
  let w2 := after w1 (evsig_add 1 SIGTERM w1) in
  let w3 := after w2 (evsig_del 0 SIGINT w2) in
  evsig_base w3 = Some 1%nat ∧ ev_n_signals_added (infos w3 1%nat) = 1 ∧ evsig_base_n_signals_added w3 = 0.
Proof. vm_compute. auto. Qed.
