(* ===== verification/ChangeWitnesses.v ===== *)
(** A concrete instance of the property of the change list. *)

From stdpp Require Import functions.
From S2P Require Import Prelude EvFlags BufChain BufRefine EvHeap EvMap Epoll EpollInv ChangeList ChangeProps EvWitnesses.

#[local] Existing Instance ev_malloc.
#[local] Existing Instance list_kernel.

Lemma ev_memory : reliable.
Proof. done. Qed.

(** The kernel watches descriptor 3 for reading. *)
Definition demo_wanted : wanted := λ fd, (fd =? 3, false).
Definition demo_cl : cl_base := {| cl_kernel := ({[3 := EPOLLIN]} : gmap Z Z); changelist := event_changelist_init; fdinfo := λ _, 0 |}.

(** Reading is turned off and on again, writing on and off; another descriptor is added for both, one of which is dropped. *)
Definition demo_calls : list cl_call := [CDel 3 true false; CAdd 3 false false true; CAdd 7 false true true; CAdd 3 false true false; CDel 7 false true; CDel 3 false true].

Lemma demo_cl_waits : nothing_waits demo_cl.
Proof. by split. Qed.

Lemma demo_cl_watches edges : watches edges demo_wanted (cl_kernel demo_cl).
Proof.
  intros fd. exists false. split; [done|]. unfold demo_wanted, demo_cl. cbn [cl_kernel watched list_kernel fst snd]. destruct (Z.eqb_spec fd 3) as [->|Hne]; [reflexivity|]. by rewrite lookup_singleton_ne.
Qed.

Lemma changelist_equivalent_witness :
  ∃ b1 b2, collect_all demo_wanted demo_calls demo_cl = Val ([0; 0; 0; 0; 0; 0], b1) ∧ length (changes (changelist b1)) = 2%nat ∧ dispatch_changes b1 = Val (0, b2) ∧
    ∀ fd, watched (cl_kernel b2) fd = watched (immediate_all demo_wanted demo_calls (cl_kernel demo_cl)).2 fd.
Proof.
  destruct (changelist_equivalent list_kernel_laws ev_memory false demo_wanted demo_calls demo_cl demo_cl_waits (demo_cl_watches false)) as (b1 & r & b2 & E1 & _ & _ & E2 & _ & _ & Hw).
  - vm_compute. intuition discriminate.
  - reflexivity.
  - assert (r = 0 ∧ length (changes (changelist b1)) = 2%nat) as [-> Hl].
    { assert (∃ b, collect_all demo_wanted demo_calls demo_cl = Val (replicate 6 0, b) ∧ length (changes (changelist b)) = 2%nat ∧ (∃ b', dispatch_changes b = Val (0, b'))) as (b & E & Hl & b' & Ed).
      { eexists. split; [vm_compute; reflexivity|]. split; [reflexivity|]. eexists. vm_compute. reflexivity. }
      rewrite E in E1. injection E1 as <-. rewrite Ed in E2. injection E2 as <- _. auto. }
    exists b1, b2. split; [exact E1|]. split; [exact Hl|]. split; [exact E2|].
    intros fd. refine (proj2 (Hw (immediate_all demo_wanted demo_calls (cl_kernel demo_cl)).1 (immediate_all demo_wanted demo_calls (cl_kernel demo_cl)).2 (surjective_pairing _) _ eq_refl fd) eq_refl).
    vm_compute. repeat constructor.
Defined.

(** Edge-triggered reading and writing are asked for and reading is given up: the change list keeps
    EPOLLET, and changing the kernel's list at once drops it. *)
Definition demo_edges : list cl_call := [CAdd 5 true true false; CAdd 5 true false true; CDel 5 true false].

Lemma edge_kept_and_lost :
  ∃ b1 b2, collect_all (λ _, (false, false)) demo_edges demo_cl = Val ([0; 0; 0], b1) ∧ dispatch_changes b1 = Val (0, b2) ∧
    watched (cl_kernel b2) 5 = Some (Z.lor EPOLLOUT EPOLLET) ∧ watched (immediate_all (λ _, (false, false)) demo_edges (cl_kernel demo_cl)).2 5 = Some EPOLLOUT.
Proof. eexists _, _. split; [vm_compute; reflexivity|]. split; [vm_compute; reflexivity|]. split; vm_compute; reflexivity. Qed.
