(* ===== verification/BufWitnesses.v ===== *)
(** Concrete instances of the properties of evbuffers and bufferevents: each lemma applies one
    theorem at a small input on which its hypotheses hold. *)

From S2P Require Import Prelude EvFlags EvbufferApi BufChain BufOps BufRefine BufExpand BufIo BufProps BufSearch BufLines.
From S2P Require Import BufNotify BufevData Bufev BufevInv BufevProps.

(** ** Bytes in two chains, with an unused chain behind *)

Definition split_chain (bs : list byte) : Chain :=
  {| ch_buffer := bs; ch_misalign := 0; ch_off := Zlen bs; ch_flags := 0 |}.
Definition spare_chain : Chain :=
  {| ch_buffer := replicate 8 (z2b 0); ch_misalign := 0; ch_off := 0; ch_flags := 0 |}.
Definition split_buffer (bs bs' : list byte) : Evb :=
  set_chains [split_chain bs; split_chain bs'; spare_chain] 1 (Zlen bs + Zlen bs') evbuffer_new.

Lemma split_chain_ok bs : 0 < Zlen bs <= evb_limit → chain_ok (split_chain bs).
Proof.
  change evb_limit with (2 ^ 61).
  intros Hl. split; unfold ch_buffer_len, EVBUFFER_CHAIN_SIZE; cbn [split_chain ch_misalign ch_off ch_buffer]; try lia; done.
Qed.

Lemma spare_chain_ok : chain_ok spare_chain.
Proof. split; vm_compute; congruence. Qed.

Lemma split_buffer_inv bs bs' :
  0 < Zlen bs <= evb_limit → 0 < Zlen bs' <= evb_limit → evb_inv (split_buffer bs bs').
Proof.
  intros H1 H2. split; [| | |done].
  - repeat apply Forall_cons_2; [by apply split_chain_ok..|apply spare_chain_ok|constructor].
  - exists [split_chain bs; split_chain bs'], [spare_chain].
    split; [done|]. split; [repeat apply Forall_cons_2; [| |constructor]; cbn; lia|].
    split; [by apply Forall_singleton|done].
  - unfold bytes. cbn [split_buffer set_chains eb_chains eb_total_len]. rewrite !chains_data_cons.
    unfold chain_data. cbn [split_chain spare_chain ch_misalign ch_off ch_buffer].
    rewrite !zdrop_0 by lia. rewrite !ztake_all by lia. rewrite !Zlen_app, (ztake_0 0) by lia. 
    change (Zlen (chains_data [])) with 0. change (Zlen []) with 0. lia.
Qed.

Definition demo_malloc : Malloc := {| malloc_ok := λ _, true; uninit := z2b 0 |}.
#[local] Existing Instance demo_malloc.

Definition demo_lines : Evb := split_buffer (bytes_of "GET /" ++ [z2b 13]) ([z2b 10] ++ bytes_of "Host").

Lemma demo_lines_inv : evb_inv demo_lines.
Proof. apply split_buffer_inv; vm_compute; split; congruence. Qed.

(** ** Sequences and streams *)

Definition demo_ops : list buf_op :=
  [OpAdd 0 (bytes_of "world"); OpPrepend 0 (bytes_of "hello "); OpAddBuffer 1 0; OpRemoveBuffer 1 0 5;
   OpPullup 0 4; OpRemove 1 3].

Lemma new_pool_ok : pool_ok [evbuffer_new; evbuffer_new] [[]; []].
Proof. repeat constructor; apply evbuffer_new_inv. Qed.

Lemma pool_bytes p q : pool_ok p q → (bytes <$> p) = q.
Proof. induction 1 as [|b l p q (_ & _ & E) _ IH]; [done|]. cbn [fmap list_fmap]. by f_equal. Qed.

Lemma buffers_are_sequences_witness :
  ∃ p, exec_all demo_ops [evbuffer_new; evbuffer_new] =
      Val ([(0, []); (0, []); (0, []); (5, []); (1, bytes_of "hell"); (3, bytes_of " wo")], p) ∧
    (bytes <$> p) = [bytes_of "hello"; bytes_of "rld"].
Proof.
  destruct (buffers_are_sequences demo_ops [evbuffer_new; evbuffer_new] [[]; []]) as (p & E & Hp).
  - exact (λ _, eq_refl).
  - exact new_pool_ok.
  - unfold demo_ops. cbn [ops_fit].
    repeat (split; [split; [repeat constructor; vm_compute; congruence|vm_compute; try split; congruence]|]).
    exact I.
  - exists p. split; [rewrite E; vm_compute; reflexivity|].
    rewrite (pool_bytes _ _ Hp). vm_compute. reflexivity.
Defined.

Definition demo_io : list io_op :=
  [IoRead 5 (Some (bytes_of "abcde")) 100; IoTake 2; IoWrite (λ data, Z.min 2 (Zlen data)) 10;
   IoRead 3 (Some (bytes_of "xyz")) 100; IoWrite (λ _, -1) 10].

Lemma stream_is_fifo_witness :
  ∃ b came went, io_run demo_io (evbuffer_new, [], []) = Val (b, came, went) ∧ evb_inv b ∧ came = went ++ bytes b.
Proof.
  apply (stream_is_fifo demo_io). unfold demo_io. repeat apply Forall_cons_2; [..|constructor]; cbn [io_fair]; try done.
  - intros data. pose proof (Zlen_nonneg data). lia.
  - intros data. pose proof (Zlen_nonneg data). lia.
Defined.

Lemma add_vprintf_appends_witness :
  ∃ b, evbuffer_add_vprintf (Some (bytes_of "42 bytes")) evbuffer_new = Val (8, b) ∧ bytes b = bytes_of "42 bytes".
Proof.
  destruct (add_vprintf_appends (Some (bytes_of "42 bytes")) evbuffer_new (proj1 evbuffer_new_inv))
    as (r & b & E & _ & P).
  change (Zlen (bytes_of "42 bytes") <=? 2 ^ 31 - 1) with true in P. cbv iota in P.
  destruct P as [(_ & _ & n & Hn)|[-> P]]; [discriminate|]. exists b. split; [exact E|exact P].
Defined.

Lemma reserve_then_commit_witness :
  ∃ v b1 b2 b3, evbuffer_reserve_space 100 1 evbuffer_new = Val (1, [v], b1) ∧ 100 <= iov_len v ∧
    user_store v (bytes_of "ok") b1 = Val b2 ∧ evbuffer_commit_space [shorten 2 v] b2 = Val (0, b3) ∧
    evb_inv b3 ∧ bytes b3 = bytes_of "ok".
Proof.
  apply (@reserve_then_commit demo_malloc 100 (bytes_of "ok") evbuffer_new (proj1 evbuffer_new_inv) (proj2 evbuffer_new_inv)
    (λ _, eq_refl)). vm_compute. split; congruence.
Defined.

(** ** Lines and searches, across the boundary of two chains *)

Lemma readln_takes_line_witness :
  ∃ b', evbuffer_readln demo_lines EVBUFFER_EOL_CRLF = Val (Some (bytes_of "GET /"), b') ∧
    evb_inv b' ∧ bytes b' = bytes_of "Host".
Proof.
  apply (proj2 (@readln_takes_line demo_malloc demo_lines EVBUFFER_EOL_CRLF demo_lines_inv ltac:(vm_compute; congruence) (λ _, eq_refl))).
  intros n d E. vm_compute in E. injection E as _ <-. lia.
Defined.

Lemma search_finds_first_witness :
  ∃ q, evbuffer_search demo_lines [z2b 13; z2b 10] None = Val q ∧ p_pos q = 5.
Proof.
  destruct (search_finds_first demo_lines (z2b 13) [z2b 10] demo_lines_inv) as (q & E & P).
  { vm_compute. congruence. }
  exists q. split; [exact E|]. clear P. vm_compute in E. injection E as <-. vm_compute. reflexivity.
Defined.

(** ** Where buffer.c falls short *)

Lemma chain_new_sizes_witness :
  evbuffer_chain_new (2 ^ 63) = Undef Hang ∧
  ∃ ch, evbuffer_chain_new (2 ^ 64 - 1) = Val (Some ch) ∧ ch_buffer_len ch = 976.
Proof.
  split.
  - apply (chain_new_sizes (2 ^ 63)); [lia|done|lia].
  - apply (chain_new_sizes (2 ^ 64 - 1)); [lia|done|lia].
Defined.

Definition two_spares : Evb :=
  set_chains [split_chain (bytes_of "abc"); spare_chain; spare_chain] 0 3 evbuffer_new.

Lemma two_spares_inv : evb_inv two_spares.
Proof.
  split; [| | |done].
  - repeat apply Forall_cons_2; [|apply spare_chain_ok..|constructor].
    apply split_chain_ok. vm_compute. split; congruence.
  - exists [split_chain (bytes_of "abc")], [spare_chain; spare_chain].
    split; [done|]. split; [by apply Forall_singleton|]. split; [by repeat constructor|done].
  - vm_compute. reflexivity.
Qed.

Lemma add_behind_unused_chains_witness :
  ∃ b', Buf.evbuffer_add (bytes_of "de") two_spares = Val (0, b') ∧ bytes b' = bytes_of "abcde" ∧
    ∀ t, Buf.evbuffer_chain_insert t b' = Undef AssertFail.
Proof.
  apply (add_behind_unused_chains two_spares [] (split_chain (bytes_of "abc")) spare_chain spare_chain (bytes_of "de"));
    [exact two_spares_inv|reflexivity|reflexivity|vm_compute; congruence|vm_compute; split; congruence].
Defined.

Lemma prepend_not_reported_witness :
  ∃ b', Buf.evbuffer_prepend (bytes_of "xy") demo_lines = Val (0, b') ∧
    bytes b' = bytes_of "xy" ++ bytes demo_lines ∧ eb_calls (eb_cb b') = eb_calls (eb_cb demo_lines).
Proof.
  apply (prepend_not_reported (bytes_of "xy") demo_lines (split_chain (bytes_of "GET /" ++ [z2b 13]))
    [split_chain ([z2b 10] ++ bytes_of "Host"); spare_chain] demo_lines_inv);
    try reflexivity; vm_compute; try split; congruence.
Defined.

(** Space reserved in a chain that is not the last one, while the chain before it has
    some room left, cannot be committed. *)
Definition tight_then_spares : Evb :=
  set_chains [{| ch_buffer := replicate 16 (z2b 97); ch_misalign := 0; ch_off := 15; ch_flags := 0 |};
              spare_chain; spare_chain] 0 15 evbuffer_new.

Lemma commit_rejected :
  (match evbuffer_reserve_space 5 1 tight_then_spares with
   | Val (1, [v], b) =>
       match evbuffer_commit_space [shorten 5 v] b with Val (r, _) => Some r | Undef _ => None end
   | _ => None
   end) = Some (-1).
Proof. vm_compute. reflexivity. Qed.

(** ** Bufferevents: an echo of "pong" to whatever arrives, freed at the end of the stream *)

Definition demo_user (k : BevCall) (s : Bufferevent) : list user_op :=
  match k with
  | CallRead => [URead 100; UWrite (bytes_of "pong")]
  | CallWrite => []
  | CallEvent _ => [UFree]
  end.
Definition demo_wr (data : list byte) : Z := Z.min 3 (Zlen data).
Definition no_sendfile (off len : Z) : Z * bool := (-1, false).

Lemma demo_user_fits k s : Forall user_fits (demo_user k s).
Proof. destruct k; repeat constructor; vm_compute; congruence. Qed.
Lemma demo_accepting : accepting demo_wr.
Proof.
  intros data. unfold demo_wr. pose proof (Zlen_nonneg data). split; [lia|]. intros Hne.
  destruct data; [done|]. rewrite Zlen_cons. pose proof (Zlen_nonneg data). lia.
Qed.

Definition demo_socket : Bufferevent :=
  default {| bv_io := {| io_input := evbuffer_new; io_output := evbuffer_new; io_ev_read := event_assign (-1);
                         io_ev_write := event_assign (-1) |};
             bv_conf := {| cf_timeout_read := (0, 0); cf_timeout_write := (0, 0);
                           cf_wm_read := {| wm_low := 0; wm_high := 0 |}; cf_wm_write := {| wm_low := 0; wm_high := 0 |};
                           cf_readcb := false; cf_writecb := false; cf_errorcb := false; cf_options := 0;
                           cf_read_watermarks_cb := false |};
             bv_priv := {| pv_enabled := 0; pv_read_suspended := 0; pv_write_suspended := 0; pv_connecting := false;
                           pv_connection_refused := false; pv_refcnt := 0; pv_dns_error := 0; pv_readcb_pending := false;
                           pv_writecb_pending := false; pv_eventcb_pending := 0; pv_queued := false |};
             bv_log := empty_log |} (bufferevent_socket_new true 7 BEV_OPT_CLOSE_ON_FREE).

Definition demo_talk : list bev_event :=
  [BCall (USetcb true false true); BCall (UEnable (Z.lor EV_READ EV_WRITE)); BCall (UWatermark EV_READ 0 64);
   BRead EV_READ 4 (Some (bytes_of "ping")) false].
Definition demo_goodbye : list bev_event :=
  [BWrite EV_WRITE 0 demo_wr no_sendfile false; BRead EV_READ 0 (Some []) false; BCall (UWrite (bytes_of "late"))].

Lemma demo_events_fit : Forall event_fits (demo_talk ++ demo_goodbye).
Proof.
  repeat apply Forall_cons_2; try exact I; [| | |constructor]; cbn [event_fits user_fits].
  - vm_compute. split; congruence.
  - intros data. apply demo_accepting.
  - vm_compute. congruence.
Qed.

(** Three bytes of the answer are written before the client hangs up. *)
Lemma bufferevent_run_ok_witness :
  ∃ s, bev_run (λ _, true) demo_user (demo_talk ++ demo_goodbye) demo_socket = Val s ∧
    (bev_ok 7 BEV_OPT_CLOSE_ON_FREE 1 s ∨ bev_dead 7 BEV_OPT_CLOSE_ON_FREE s) ∧
    received s = bytes_of "ping" ∧ sent s = bytes_of "pon" ∧ closed s = [7].
Proof.
  destruct (bufferevent_run_ok (λ _, true) demo_user (λ _, eq_refl) demo_user_fits 7 BEV_OPT_CLOSE_ON_FREE eq_refl
    (demo_talk ++ demo_goodbye) demo_socket eq_refl demo_events_fit) as (s & E & Hs).
  exists s. split; [exact E|]. split; [exact Hs|]. clear Hs. vm_compute in E. injection E as <-. vm_compute. repeat split.
Defined.

(** The state after the exchange, with "pong" to be written. *)
Definition demo_talking : Bufferevent :=
  match bev_run (λ _, true) demo_user demo_talk demo_socket with Val s => s | Undef _ => demo_socket end.

Lemma demo_talking_ok : bev_ok 7 BEV_OPT_CLOSE_ON_FREE 1 demo_talking.
Proof.
  assert (bev_ok 7 BEV_OPT_CLOSE_ON_FREE 1 demo_socket) as Hs by (apply socket_new_ok; reflexivity).
  pose proof demo_events_fit as Hf. apply Forall_app in Hf as [Hf _]. revert Hf.
  assert (∀ es s, bev_ok 7 BEV_OPT_CLOSE_ON_FREE 1 s → Forall event_fits es →
    ∃ s', bev_run (λ _, true) demo_user es s = Val s' ∧ (bev_ok 7 BEV_OPT_CLOSE_ON_FREE 1 s' ∨ bev_dead 7 BEV_OPT_CLOSE_ON_FREE s')) as P.
  { intros es s Hs0 Hes. apply run_ok; [exact (λ _, eq_refl)|exact demo_user_fits|reflexivity|exact Hs0|exact Hes]. }
  intros Hf. destruct (P demo_talk demo_socket Hs Hf) as (s' & E & [H1|H1]); unfold demo_talking; rewrite E; [exact H1|].
  exfalso. pose proof (bd_freed _ _ _ H1) as Hd. vm_compute in E. injection E as <-. vm_compute in Hd. discriminate.
Qed.

Lemma read_event_reported_witness :
  ∃ s', bufferevent_readcb (λ _, true) demo_user EV_READ 100 (Some (replicate 100 (z2b 97))) false demo_talking = Val s' ∧
    calls s' = [CallRead; CallRead] ∧ received s' = bytes_of "ping" ++ replicate 64 (z2b 97) ∧
    consumed s' ++ bytes (input s') = bytes_of "ping" ++ replicate 64 (z2b 97).
Proof.
  destruct (@read_event_reported demo_malloc (λ _, true) demo_user (λ _, eq_refl) demo_user_fits 7 BEV_OPT_CLOSE_ON_FREE eq_refl
    100 (Some (replicate 100 (z2b 97))) false demo_talking demo_talking_ok (λ _, eq_refl)) as (s' & E & Hc & Hr & _ & Hin & _).
  - vm_compute. reflexivity.
  - vm_compute. reflexivity.
  - vm_compute. reflexivity.
  - right. vm_compute. reflexivity.
  - exists s'. split; [exact E|]. rewrite Hc, Hr, Hin. vm_compute. repeat split; reflexivity.
Defined.

Lemma output_drains_witness :
  ∃ s', write_events (λ _, true) demo_user 4 demo_wr no_sendfile demo_talking = Val s' ∧
    sent s' = bytes_of "pong" ∧ event_pending (ev_write s') = false.
Proof.
  destruct (output_drains (λ _, true) demo_user (λ _, eq_refl) 7 BEV_OPT_CLOSE_ON_FREE eq_refl
    demo_wr no_sendfile demo_talking demo_talking_ok) as (s' & E & _ & _ & Hs & Hp).
  - vm_compute. reflexivity.
  - exact demo_accepting.
  - reflexivity.
  - vm_compute. discriminate.
  - exists s'. split; [exact E|]. split; [rewrite Hs; vm_compute; reflexivity|exact Hp].
Defined.
