(* ===== verification/TagWitnesses.v ===== *)
(** Concrete instances of the properties of tagged data, on the chained buffers of buffer.c. *)

From S2P Require Import Prelude EvFlags EvbufferApi BufChain BufOps BufRefine Tagging TagFormat TagProps BufWitnesses.

#[local] Existing Instance demo_malloc.

Definition demo_items : list Item :=
  [IInt 1 300; IString 0x166 (bytes_of "hi"); ITimeval 3 {| tv_sec := 5; tv_usec := 70000 |}; IData 4 (bytes_of "xyz"); IInt64 5 (2 ^ 40)].

(** The number 300 is sent as 2C 21, the tag 0x166 as E6 02. *)
Definition demo_wire : list byte :=
  z2b <$> [1; 2; 0x2C; 0x21; 0xE6; 2; 2; 0x68; 0x69; 3; 4; 5; 0x40; 0x71; 0x11; 4; 3; 0x78; 0x79; 0x7A; 5; 6; 0xA0; 0; 0; 0; 0; 1].

Lemma demo_no_failure : evb_reliable (B := Evb).
Proof. intros n. reflexivity. Qed.

Lemma demo_memory : ∀ n, malloc_ok n = true.
Proof. done. Qed.

Lemma new_holds : holds (B := Evb) evbuffer_new [].
Proof. split; [apply evbuffer_new_inv|done]. Qed.

Lemma split_holds bs bs' : 0 < Zlen bs <= evb_limit → 0 < Zlen bs' <= evb_limit → holds (split_buffer bs bs') (bs ++ bs').
Proof.
  intros H1 H2. split; [by apply split_buffer_inv|]. change (bytes (split_buffer bs bs') = bs ++ bs'). unfold bytes.
  cbn [split_buffer set_chains eb_chains]. rewrite !chains_data_cons. unfold chain_data. cbn [split_chain spare_chain ch_misalign ch_off ch_buffer].
  rewrite !zdrop_0 by lia. rewrite !ztake_all by lia. rewrite (ztake_0 0) by lia. by rewrite app_nil_r.
Qed.

(** The five values arrive in two pieces. *)
Definition demo_input : Evb := split_buffer (ztake 14 demo_wire) (zdrop 14 demo_wire).
Lemma demo_input_holds : holds demo_input demo_wire.
Proof. rewrite <- (ztake_zdrop 14 demo_wire). apply split_holds; vm_compute; split; congruence. Qed.

Lemma tagged_stream_roundtrip_witness :
  ∃ b', marshal_all (B := Evb) evbuffer_new demo_items = Val b' ∧ bytes b' = demo_wire ∧
    ∃ src', read_all evbuffer_new (shape <$> demo_items) demo_input = Val (demo_items, src') ∧ bytes src' = [].
Proof.
  destruct (tagged_stream_roundtrip demo_no_failure evbuffer_new evbuffer_new [] demo_items demo_memory new_holds
    (proj2 evbuffer_new_inv) (conj new_holds (proj2 evbuffer_new_inv))) as (b' & wire & E & [[_ Hc] _] & Hr).
  { repeat constructor; vm_compute; congruence. }
  assert (wire = demo_wire) as ->.
  { vm_compute in E. injection E as <-. cbn [app] in Hc. rewrite <- Hc. vm_compute. reflexivity. }
  exists b'. split; [exact E|]. split; [exact Hc|].
  destruct (Hr demo_input []) as (src' & Es & [_ Hs]).
  - rewrite app_nil_r. exact demo_input_holds.
  - vm_compute. reflexivity.
  - exists src'. split; [exact Es|exact Hs].
Defined.



(** A record of four bytes of which three are there. *)
Definition part_input : Evb := split_buffer (ztake 2 demo_wire) (ztake 1 (zdrop 2 demo_wire)).
Lemma part_input_holds : holds part_input (ztake 3 demo_wire).
Proof. apply split_holds; vm_compute; split; congruence. Qed.

Lemma peek_foretells_witness :
  ∃ r n b1, evtag_peek_length part_input = Val (r, n, b1) ∧ r = 0 ∧ n = Some 4 ∧ next_record (ztake 3 demo_wire) = Val None.
Proof.
  destruct (peek_foretells demo_no_failure part_input (ztake 3 demo_wire) part_input_holds eq_refl eq_refl) as (r & n & b1 & E & _ & Hn).
  exists r, n, b1. split; [exact E|]. vm_compute in E. injection E as <- <- _. done.
Defined.
