(* ===== verification/HttpWitnesses.v ===== *)
(** Concrete instances of the properties of the texts of HTTP, on the chained buffers of buffer.c. *)

From S2P Require Import Prelude EvbufferApi BufChain BufOps BufRefine Chars PrintApi Uri UriProps UriGrammar HttpText HttpProps BufWitnesses TagWitnesses.

#[local] Existing Instance demo_malloc.

(** inet_pton for the one address the examples use. *)
Definition pton_loopback (s : list byte) : bool := bool_decide (s = bytes_of "::1").

Lemma pton_loopback_chars : pton_chars pton_loopback.
Proof. intros s Hs. apply bool_decide_eq_true in Hs as ->. reflexivity. Qed.

(** The second port has a leading zero. *)
Definition demo_uri_text : list byte := bytes_of "http://joe%40x@[::1]:8080/a/b?q=1#top".
Definition demo_uri_zero : list byte := bytes_of "http://joe%40x@[::1]:08080/a/b?q=1#top".
Definition demo_uri : evhttp_uri := {|
  u_flags := 0; u_scheme := Some (bytes_of "http"); u_userinfo := Some (bytes_of "joe%40x"); u_host := Some (bytes_of "[::1]"); u_port := 8080;
  u_path := Some (bytes_of "/a/b"); u_query := Some (bytes_of "q=1"); u_fragment := Some (bytes_of "top") |}.

Lemma demo_uri_parses : evhttp_uri_parse_with_flags pton_loopback demo_uri_text 0 = Val (Some demo_uri).
Proof. vm_compute. reflexivity. Qed.

Lemma demo_zero_parses : evhttp_uri_parse_with_flags pton_loopback demo_uri_zero 0 = Val (Some demo_uri).
Proof. vm_compute. reflexivity. Qed.

(** A path with a blank. *)
Definition demo_blank : evhttp_uri := {|
  u_flags := 0; u_scheme := None; u_userinfo := None; u_host := None; u_port := -1; u_path := Some (bytes_of "a b"); u_query := None; u_fragment := None |}.

Lemma demo_not_dotted h : u_host demo_uri = Some h → ¬ dotted_host h.
Proof. intros [= <-] (version & E & _). discriminate E. Qed.

(** A URI of the grammar, and one that is none: a blank is not escaped. *)
Lemma uri_parse_exact_witness :
  (∃ t, uri_grammar pton_loopback 0 demo_uri t ∧ demo_uri_text = spell demo_uri t) ∧
  ¬ (∃ t, uri_grammar pton_loopback 0 demo_blank t ∧ bytes_of "a b" = spell demo_blank t).
Proof.
  split.
  - apply (proj1 (uri_parse_exact pton_loopback pton_loopback_chars demo_memory demo_uri_text 0 demo_uri eq_refl) demo_not_dotted). exact demo_uri_parses.
  - intros Ht. pose proof (proj2 (proj1 (uri_parse_exact pton_loopback pton_loopback_chars demo_memory (bytes_of "a b") 0 demo_blank eq_refl) ltac:(discriminate)) Ht) as E.
    vm_compute in E. discriminate E.
Defined.

(** The parser takes a later address with nothing behind its dot. *)
Lemma dotted_host_accepted : dotted_host (bytes_of "[v1.]") ∧ ¬ future_host (bytes_of "[v1.]") ∧
  u_host <$> defined None (evhttp_uri_parse_with_flags pton_loopback (bytes_of "http://[v1.]/") 0) = Some (Some (bytes_of "[v1.]")).
Proof.
  split; [|split; [|vm_compute; reflexivity]].
  - exists (bytes_of "1"). split; [reflexivity|]. split; [discriminate|reflexivity].
  - intros (v & a & E & Hv & Hh & Ha & _). apply (f_equal (@length byte)) in E. cbn in E. rewrite !length_app in E. cbn in E. rewrite length_app in E. cbn in E. destruct v as [|x v]; [done|]. destruct a as [|y a]; [done|]. cbn in E. lia.
Qed.

Lemma uri_join_parse_witness :
  ∃ s' t, evhttp_uri_join (B := Evb) demo_uri 100 = Some (s' ++ [NUL]) ∧ evhttp_uri_parse_with_flags pton_loopback s' 0 = Val (Some demo_uri) ∧
    demo_uri_zero = spell demo_uri t ∧ s' = spell demo_uri (join_port 8080).
Proof.
  destruct (uri_join_parse (B := Evb) demo_no_failure pton_loopback pton_loopback_chars demo_memory demo_uri_zero 0 demo_uri 100) as (s' & t & E & H2 & H3 & H4);
    [vm_compute; reflexivity|vm_compute; reflexivity|exact demo_zero_parses|].
  exists s', t. rewrite H4 in E. split; [rewrite H4; exact E|]. split; [exact H2|]. split; [exact H3|exact H4].
Defined.

(** A NUL, a slash, a percent sign and a blank. *)
Definition demo_data : list byte := z2b <$> [0; 0x2F; 0x25; 0x20; 0x61].

Lemma uriencode_roundtrip_witness :
  evhttp_uriencode (B := Evb) demo_data 5 true = Val (Some (bytes_of "%00%2F%25+a" ++ [NUL])) ∧
  ∃ ret, evhttp_uridecode (bytes_of "%00%2F%25+a") true = Val (Some (ret, 5)) ∧ ztake 6 ret = demo_data ++ [NUL].
Proof.
  destruct (uriencode_roundtrip (B := Evb) demo_no_failure demo_memory demo_data true) as (text & ret & E & _ & _ & Hd & Hr); [vm_compute; reflexivity|].
  assert (text = bytes_of "%00%2F%25+a") as ->.
  { vm_compute in E. injection E as E. apply (app_inj_tail text (bytes_of "%00%2F%25+a") NUL NUL). symmetry. exact E. }
  split; [exact E|]. exists ret. split; [exact Hd|exact Hr].
Defined.

Definition demo_args : list evkeyval := [{| key := bytes_of "q"; value := bytes_of "a b&c" |}; {| key := bytes_of "x"; value := [] |}].
Definition demo_query_uri : evhttp_uri := default demo_uri (defined None (evhttp_uri_parse pton_loopback (bytes_of "http://h/s?q=a+b%26c&x="))).

Lemma query_roundtrip_witness :
  evhttp_parse_query_str pton_loopback (bytes_of "q=a+b%26c&x=") = Val (0, demo_args) ∧
  evhttp_parse_query pton_loopback (bytes_of "http://h/s?q=a+b%26c&x=") = Val (0, demo_args).
Proof.
  destruct (query_roundtrip (B := Evb) demo_no_failure demo_memory pton_loopback demo_args) as (texts & Ht & Hq & Hs).
  { repeat constructor; vm_compute; congruence. }
  assert (texts = [bytes_of "a+b%26c"; []]) as ->.
  { unfold demo_args in Ht. apply Forall2_cons_inv_l in Ht as (t1 & r1 & E1 & Ht & ->). apply Forall2_cons_inv_l in Ht as (t2 & r2 & E2 & Ht & ->). apply Forall2_nil_inv_l in Ht as ->.
    vm_compute in E1, E2. injection E1 as E1. injection E2 as E2. f_equal; [|f_equal].
    - apply (app_inj_tail t1 (bytes_of "a+b%26c") NUL NUL). symmetry. exact E1.
    - apply (app_inj_tail t2 [] NUL NUL). symmetry. exact E2. }
  split; [exact Hq|]. apply (Hs _ demo_query_uri); vm_compute; reflexivity.
Defined.

Lemma htmlescape_safe_witness :
  ∃ text, evhttp_htmlescape (bytes_of "<a href='x'>R&D</a>") = Val (Some (text ++ [NUL])) ∧
    all_in (λ c, negb (isc "<"%byte c || isc ">"%byte c || isc "034"%byte c || isc "'"%byte c)) text = true ∧
    unescape 19 text = bytes_of "<a href='x'>R&D</a>".
Proof. apply (htmlescape_safe demo_memory (bytes_of "<a href='x'>R&D</a>")). vm_compute. reflexivity. Defined.
