(* ===== verification/HttpMsgWitnesses.v ===== *)
(** Concrete instances of the properties of HTTP messages and virtual hosts, on the chained buffers of buffer.c. *)

From S2P Require Import Prelude EvbufferApi BufChain BufOps BufRefine Chars PrintApi LineApi Uri UriProps HttpText HttpProps HttpVhost HttpMsg HttpRead HttpTrip HttpSend HttpChunks HttpMsgProps HttpSafe BufWitnesses TagWitnesses HttpWitnesses.

#[local] Existing Instance demo_malloc.

(** A server with a virtual host that has one of its own. *)
Definition demo_inner : evhttp := Evhttp (bytes_of "b.*.com") [bytes_of "shop.test"] [] [] 0 None.
Definition demo_outer : evhttp := Evhttp (bytes_of "*.example.com") [] [demo_inner] [] 0 None.
Definition demo_server : evhttp := Evhttp [] [bytes_of "localhost"] [demo_outer] [] 0 None.

Lemma demo_below h : below demo_server h → h = demo_server ∨ h = demo_outer ∨ h = demo_inner.
Proof.
  intros Hb. inversion Hb as [|? v ? Hv Hb']; subst; [auto|]. apply list_elem_of_singleton in Hv as ->. inversion Hb' as [|? v ? Hv Hb'']; subst; [auto|]. apply list_elem_of_singleton in Hv as ->.
  inversion Hb'' as [|? v ? Hv _]; subst; [auto|]. by apply not_elem_of_nil in Hv.
Qed.

Lemma demo_names : names_ok demo_server.
Proof. intros h [-> | [-> | ->]]%demo_below; (split; [reflexivity|]); repeat constructor. Qed.

(** The alias is found two levels down; no name is "A.Example.COM", which the patterns lead to the first virtual host. *)
Lemma vhost_selected_witness :
  named (bytes_of "SHOP.test") (evhttp_find_vhost demo_server (bytes_of "SHOP.test")).2 ∧
  descends (bytes_of "A.Example.COM") demo_server (evhttp_find_vhost demo_server (bytes_of "A.Example.COM")).2.
Proof.
  split.
  - pose proof (vhost_selected demo_server (bytes_of "SHOP.test") demo_names eq_refl) as P. change (evhttp_find_vhost demo_server (bytes_of "SHOP.test")) with (true, demo_inner) in *.
    destruct P as (_ & _ & P & _). apply P. exists demo_inner. split.
    + apply (below_vhost _ demo_outer); [by apply list_elem_of_singleton|]. apply (below_vhost _ demo_inner); [by apply list_elem_of_singleton|]. constructor.
    + apply Exists_cons_hd. vm_compute. reflexivity.
  - pose proof (vhost_selected demo_server (bytes_of "A.Example.COM") demo_names eq_refl) as P. change (evhttp_find_vhost demo_server (bytes_of "A.Example.COM")) with (true, demo_outer) in *.
    destruct P as (_ & _ & _ & P). apply P. intros (h & [-> | [-> | ->]]%demo_below & Hn); unfold named, aliases in Hn; cbn in Hn; rewrite ?Exists_cons, Exists_nil in Hn; vm_compute in Hn; (destruct Hn as [Hn|[]] || destruct Hn); discriminate Hn.
Defined.

(** A pattern that ends with a star matches no name, where a shell would match every one. *)
Lemma trailing_star_matches_nothing n : prefix_suffix_match ["*"%byte] n true = false ∧ glob ["*"%byte] n.
Proof.
  split; [|rewrite <- (app_nil_r n); apply (glob_star [] n []), glob_nil]. cbn. induction n as [|c n IH]; [done|]. cbn. exact IH.
Qed.

(** ** Messages *)

Definition buffer_of (s : list byte) : Evb := (evbuffer_add evbuffer_new s).2.

Lemma new_holding : holding (B := Evb) evbuffer_new [].
Proof. split; [apply evbuffer_new_inv|]. split; [apply evbuffer_new_inv|reflexivity]. Qed.
Lemma buffer_of_holding s : Zlen s <= evb_limit → holding (buffer_of s) s.
Proof. intros Hs. apply (holding_add demo_no_failure evbuffer_new [] s new_holding Hs). Qed.

Definition demo_request (kind : evhttp_request_kind) (out : Evb) (cb : option (list byte → bool)) : evhttp_request Evb := {|
  r_kind := kind; r_type := EVHTTP_REQ_POST; r_flags := 0; r_input_headers := []; r_output_headers := [{| key := bytes_of "Host"; value := bytes_of "h:80" |}];
  r_headers_size := 0; r_body_size := 0; r_uri := Some (bytes_of "/a?b"); r_uri_elems := None; r_major := 1; r_minor := 1; r_response_code := 0; r_response_code_line := None;
  r_input_buffer := evbuffer_new; r_ntoread := 0; r_chunked := false; r_output_buffer := out; r_chunk_cb := cb |}.

Definition demo_connection (kind : evhttp_request_kind) (cb : option (list byte → bool)) : evhttp_connection Evb := {|
  hc_state := EVCON_READING_FIRSTLINE; hc_max_headers_size := 1000; hc_max_body_size := 1000; hc_http_server := demo_server; hc_input := evbuffer_new; hc_output := evbuffer_new;
  hc_reading := true; hc_read_more := false; hc_req := demo_request kind evbuffer_new cb |}.

Lemma demo_listening kind cb : listening kind (demo_connection kind cb).
Proof. split; (reflexivity || apply new_holding). Qed.

Lemma demo_sendable : Forall sendable [{| key := bytes_of "Host"; value := bytes_of "h:80" |}].
Proof. apply Forall_singleton. by apply constant_sendable. Qed.

Definition demo_elems : evhttp_uri := default demo_uri (defined None (evhttp_uri_parse_with_flags pton_loopback (bytes_of "/a?b") EVHTTP_URI_NONCONFORMANT)).

(** What is on the wire. *)
Definition wire_of {A : Type} (r : outcome (Evb * A)) : list byte := match r with Val (out, _) => content out | Undef _ => [] end.

(** The message and what follows it may come in one piece. *)
Lemma one_piece wire extra : wire ≠ [] → in_pieces wire extra [wire ++ extra].
Proof.
  intros Hw. split; [cbn; by rewrite app_nil_r|]. split; [apply Forall_singleton; by intros [? _]%app_eq_nil|]. intros before last E. destruct before as [|b before].
  - destruct wire; [done|]. rewrite Zlen_cons. pose proof (Zlen_nonneg wire). change (Zlen (mjoin (@nil (list byte)))) with 0. lia.
  - injection E as _ E. by destruct before.
Qed.

Ltac fits := change (hc_max_headers_size _) with 1000; try change (Zlen (bytes_of "hello")) with 5; lia.

Definition demo_post : outcome (Evb * evhttp_request Evb) := evhttp_make_header 0 evbuffer_new (demo_request EVHTTP_REQUEST (buffer_of (bytes_of "hello")) None).

Lemma request_roundtrip_witness : Zlen (wire_of demo_post) <= 500 ∧
  ∀ extra pieces, Zlen extra <= 500 → in_pieces (wire_of demo_post) extra pieces → ∃ c', deliver pton_loopback pieces (demo_connection EVHTTP_REQUEST None) = Val ([ConnectionDone], c') ∧
    r_type (hc_req c') = EVHTTP_REQ_POST ∧ r_uri (hc_req c') = Some (bytes_of "/a?b") ∧ content (r_input_buffer (hc_req c')) = bytes_of "hello" ∧ content (hc_input c') = extra.
Proof.
  assert (Zlen (wire_of demo_post) <= 500) as Hlen by (vm_compute; discriminate). split; [exact Hlen|].
  destruct (request_roundtrip pton_loopback demo_no_failure demo_memory 0 evbuffer_new [] (demo_request EVHTTP_REQUEST (buffer_of (bytes_of "hello")) None) (bytes_of "/a?b") demo_elems (bytes_of "hello")
    (demo_connection EVHTTP_REQUEST None)) as (out' & req' & wire & E & (_ & _ & Hw) & Hgo);
    [reflexivity|reflexivity|reflexivity|reflexivity|cbn; lia|cbn; lia|exact demo_sendable|reflexivity|reflexivity|reflexivity|by apply buffer_of_holding|exact I|exact new_holding|vm_compute; reflexivity|apply demo_listening|reflexivity|].
  assert (wire_of demo_post = wire) as Ew by (unfold wire_of, demo_post; rewrite E; exact Hw). rewrite Ew in *. clear E.
  intros extra pieces He Hp. destruct (Hgo ltac:(fits) ltac:(vm_compute; discriminate) extra pieces ltac:(change evb_limit with (2 ^ 61); lia) Hp) as (c' & Ed & Hi & Ht & Hu & _ & _ & _ & _ & Hb).
  exists c'. auto.
Defined.

Definition demo_reply : outcome (Evb * evhttp_request Evb) := evhttp_send_reply 0 200 None (Some (buffer_of (bytes_of "hello"))) evbuffer_new (demo_request EVHTTP_REQUEST evbuffer_new None).

Lemma reply_roundtrip_witness : Zlen (wire_of demo_reply) <= 500 ∧
  ∀ extra pieces, Zlen extra <= 500 → in_pieces (wire_of demo_reply) extra pieces → ∃ c', deliver pton_loopback pieces (demo_connection EVHTTP_RESPONSE None) = Val ([ConnectionDone], c') ∧
    r_response_code (hc_req c') = 200 ∧ r_response_code_line (hc_req c') = Some (bytes_of "OK") ∧ content (r_input_buffer (hc_req c')) = bytes_of "hello" ∧ content (hc_input c') = extra.
Proof.
  assert (Zlen (wire_of demo_reply) <= 500) as Hlen by (vm_compute; discriminate). split; [exact Hlen|].
  destruct (reply_roundtrip pton_loopback demo_no_failure demo_memory 0 200 None (buffer_of (bytes_of "hello")) evbuffer_new [] (demo_request EVHTTP_REQUEST evbuffer_new None) (bytes_of "hello")
    (demo_connection EVHTTP_RESPONSE None)) as (out' & req' & wire & E & (_ & _ & Hw) & Hgo);
    [lia|lia|reflexivity|reflexivity|reflexivity|cbn; lia|exact demo_sendable|reflexivity|reflexivity|exact new_holding|by apply buffer_of_holding|exact new_holding|left; reflexivity|apply demo_listening|reflexivity|reflexivity|].
  assert (wire_of demo_reply = wire) as Ew by (unfold wire_of, demo_reply; rewrite E; exact Hw). rewrite Ew in *. clear E.
  intros extra pieces He Hp. destruct (Hgo ltac:(fits) ltac:(vm_compute; discriminate) extra pieces ltac:(change evb_limit with (2 ^ 61); lia) Hp) as (c' & Ed & Hi & Ht & Hu & _ & _ & _ & Hb).
  exists c'. auto.
Defined.

Definition demo_chunks : list (list byte) := [bytes_of "hello, "; []; bytes_of "world"].
Definition demo_chunked : outcome (Evb * evhttp_request Evb) :=
  '(out, req) ← evhttp_send_reply_start 0 200 None evbuffer_new (demo_request EVHTTP_REQUEST evbuffer_new None);
  Val (evhttp_send_reply_end (foldl (λ output buf, evhttp_send_reply_chunk buf output req) out (buffer_of <$> demo_chunks)) req).1.

(** The client has a callback for chunks: it is called twice. *)
Lemma chunked_reply_roundtrip_witness : Zlen (wire_of demo_chunked) <= 500 ∧
  ∀ extra pieces, Zlen extra <= 500 → in_pieces (wire_of demo_chunked) extra pieces → ∃ c', deliver pton_loopback pieces (demo_connection EVHTTP_RESPONSE (Some (λ _, false))) =
    Val ([ChunkCallback (bytes_of "hello, "); ChunkCallback (bytes_of "world"); ConnectionDone], c') ∧ r_response_code (hc_req c') = 200 ∧ content (hc_input c') = extra.
Proof.
  assert (Zlen (wire_of demo_chunked) <= 500) as Hlen by (vm_compute; discriminate). split; [exact Hlen|].
  destruct (chunked_reply_roundtrip pton_loopback demo_no_failure demo_memory 0 200 None (buffer_of <$> demo_chunks) demo_chunks evbuffer_new [] (demo_request EVHTTP_REQUEST evbuffer_new None)
    (demo_connection EVHTTP_RESPONSE (Some (λ _, false)))) as (out1 & req1 & head & E & Hgo);
    [lia|lia|reflexivity|reflexivity|reflexivity|cbn; lia|exact demo_sendable|reflexivity|reflexivity|reflexivity|exact new_holding| | |exact new_holding|apply demo_listening|by intros cb d [= <-]|reflexivity|].
  { repeat (apply Forall2_cons_2; [by apply buffer_of_holding|]). apply Forall2_nil_2. }
  { repeat constructor. }
  destruct (evhttp_send_reply_end _ req1) as [[out2 req2] done] eqn:Ee. cbv zeta in Hgo. destruct Hgo as [(_ & _ & Hw) Hgo].
  assert (wire_of demo_chunked = head ++ chunks_text (sent_chunks demo_chunks)) as Ew by (unfold wire_of, demo_chunked; rewrite E; cbn [mbind outcome_bind]; rewrite Ee; exact Hw). rewrite Ew in *. clear E Ee.
  assert (Zlen head <= 500) as Hh by (rewrite Zlen_app in Hlen; pose proof (Zlen_nonneg (chunks_text (sent_chunks demo_chunks))); lia).
  intros extra pieces He Hp. destruct (Hgo ltac:(fits) ltac:(vm_compute; discriminate) extra pieces ltac:(change evb_limit with (2 ^ 61); lia) Hp) as (c' & Ed & Hi & Hr & _).
  exists c'. auto.
Defined.

(** ** Limits *)

Lemma demo_reading : reading 0 (demo_connection EVHTTP_REQUEST None).
Proof.
  split; [|split; [by split|]].
  - split; [reflexivity|reflexivity| |cbn; lia| |cbn; lia|cbn; lia].
    + exists []. split; [exact new_holding|]. vm_compute. discriminate.
    + split; [reflexivity|]. exists []. split; [exact new_holding|]. vm_compute. discriminate.
  - intros _. right. vm_compute. discriminate.
Qed.

(** A chunk of 4095 bytes is refused when the body may have 1000, one of 15 is waited for. *)
Definition demo_upload (size : string) : list byte := bytes_of "PUT /a HTTP/1.1" ++ CRLF ++ bytes_of "Transfer-Encoding: chunked" ++ CRLF ++ CRLF ++ bytes_of size ++ CRLF ++ bytes_of "ab".
Definition demo_read (size : string) : outcome (list http_action * evhttp_connection Evb) := evhttp_read_cb pton_loopback (arrive (demo_upload size) (demo_connection EVHTTP_REQUEST None)).

Definition acts_of (r : outcome (list http_action * evhttp_connection Evb)) : option (list http_action) := match r with Val (acts, _) => Some acts | Undef _ => None end.

Lemma reading_bounded_witness : value_or_overflow (goes_on 0) (demo_read "fff") ∧ acts_of (demo_read "fff") = Some [ConnectionFail EVCON_HTTP_INVALID_HEADER] ∧
  value_or_overflow (goes_on 0) (demo_read "f") ∧ acts_of (demo_read "f") = Some [].
Proof.
  split; [|split; [vm_compute; reflexivity|split; [|vm_compute; reflexivity]]];
    (apply (reading_bounded pton_loopback demo_no_failure demo_memory); [exact demo_reading|vm_compute; discriminate]).
Defined.
