(* ===== verification/Witnesses.v ===== *)
(** Concrete instances of the properties.

    Each lemma of this file applies one theorem of the development at a small
    input on which its hypotheses hold, so that none of them is vacuous.
    [demo_proto] stands in for the generated protobuf code. *)

From S2P Require Import BufChain BufOps BufRefine BufWitnesses.
From S2P Require Import Prelude EvbufferApi AnalyseReq Frames Account WorkThread WorkInv WorkStep.
From S2P Require Import WorkProps Log WorkStart Server.

(** ** A stand-in for the protobuf messages *)

Definition demo_proto : CometProto := {|
  C2SLogin_ParseFromArray data := (be_dec (ztake 8 data), zdrop 8 data);
  S2CLogin_Serialize code msg ping := [z2b 8; z2b code];
  OnlineStatus_Serialize ids status := mjoin ids ++ status;
  ReqCheckTokenByID_Serialize id token := z2b 8 :: token;
  ReqCheckRelationByID_Serialize a b := be_enc 8 a ++ be_enc 8 b;
  ReqPacket_Serialize p := mjoin (rq_params p);
  RspPacket_Parse_params data := [data];
  RspCheckTokenByID_Parse_rescode data := be_dec data;
  RspCheckRelationByID_Parse_rescode data := be_dec data
|}.

Lemma demo_answers : @LoginAnswers demo_proto.
Proof. intros code msg ping. split; [done|]. cbn. unfold Zlen. simpl. lia. Qed.

#[local] Existing Instance demo_proto.
#[local] Existing Instance demo_answers.

(** ** A small world: two threads, a client that logs in as 7 with token "t" *)

Definition demo_init : World := init_world 2 false 30 (bytes_of "example.org") (Some 1000).
Definition demo_env : Env := {| env_ptr := 900; env_connect := true; env_uninit := z2b 0 |}.
Definition demo_ptrs : list Z := [100; 101; 102; 103; 104; 105; 106; 107; 108; 109].

Definition demo_events : list event :=
  [ EvPipe 0 5; EvNewConn 0 demo_ptrs [];
    EvReceive 100 (wire_frame 0 (z2b 0) 0 0 10 (be_enc 8 7 ++ bytes_of "t"));
    EvRead demo_env 100;
    EvRedis demo_env 0 (Some (ReplyString (bytes_of "t"))) ].

Definition demo_world : World :=
  match run 8 8 demo_events demo_init with Val w => w | Undef _ => demo_init end.

(** Evaluates the next callback of a run. *)
Ltac run_next :=
  cbn [run_enabled];
  match goal with
  | |- _ ∧ _ ∧ match ?h with _ => _ end =>
      let r := eval vm_compute in h in
      replace h with r by (vm_compute; reflexivity); cbv iota
  end.

Lemma demo_reachable : rtc (trusted_step 8 8) demo_init demo_world.
Proof.
  apply (run_rtc 8 8 demo_events); [|vm_compute; reflexivity].
  unfold demo_events. run_next. split; [cbn; lia|]. split; [done|]. run_next. split; [|split; [done|]].
  { cbn. split; [lia|]. split; [by apply (bool_decide_unpack _)|]. split; [lia|].
    intros p _. by vm_compute. }
  run_next. split; [done|]. split; [done|]. run_next. split; [|split].
  { eexists. vm_compute. reflexivity. }
  { intros be ld Hb. vm_compute in Hb. injection Hb as <-. done. }
  run_next. split; [split; [cbn; lia|by vm_compute]|]. split; [|done].
  intros t k ld cmds Ht Hc. vm_compute in Ht. injection Ht as <-. vm_compute in Hc.
  injection Hc as <- <- <-. split; [done|]. intros t id Ht Hb.
  vm_compute in Ht. injection Ht as <-. vm_compute in Hb. injection Hb as <-. by left.
Qed.

Lemma demo_world_ok : world_ok demo_world.
Proof. eapply rtc_trusted_ok; [exact demo_reachable|]. apply init_world_ok. lia. Qed.

(** ** Worker threads *)

Lemma reachable_world_ok_witness : world_ok demo_world ∧ length (w_threads demo_world) = 2%nat.
Proof.
  split; [|by vm_compute].
  apply (reachable_world_ok 8 8 2 false 30 (bytes_of "example.org") (Some 1000) demo_world); [lia|exact demo_reachable].
Defined.


Definition demo_thread : WorkThread := default (init_thread false 0 []) (w_threads demo_world !! 0%nat).

(** A message for the client waits in its thread's pipe. *)
Definition demo_msg : TransData := message_of 1 9 7 (bytes_of "hello").
Definition demo_pending : World := (send_message 8 demo_msg demo_world).2.

Lemma demo_pending_ok : world_ok demo_pending.
Proof. apply send_message_ok; [by left|apply demo_world_ok]. Qed.

Lemma messages_delivered_witness :
  ∃ w' be, notify_new_msg_callback 0 demo_pending = Val w' ∧
    w_bevs w' !! 100 = Some be ∧ ∃ out, bev_output be = out ++ bytes_of "hello".
Proof.
  destruct (messages_delivered 0 (default demo_thread (w_threads demo_pending !! 0%nat)) demo_pending)
    as (w' & t' & H1 & _ & [H3 _ _ _]).
  - exact demo_pending_ok.
  - vm_compute. reflexivity.
  - specialize (H3 100). eexists w', _. split; [exact H1|]. split; [rewrite H3; vm_compute; reflexivity|].
    cbn. eexists [_; _; _; _; _; _; _; _; _; _; _; _; _; _; _; _; _; _; _; _; _; _; _; _; _; _; _].
    reflexivity.
Defined.

(** Client 7 writes to 9; redis is asked for the friendship. *)
Definition demo_frame : list byte := wire_frame 0x40 (z2b 0) 7 9 12 (bytes_of "hi").
Definition demo_bev (f : list byte) : Bev :=
  {| bev_input := f; bev_output := wire_frame 0 (z2b 0) 0 0 11 [z2b 8; z2b 200];
     bev_ctx := CtxThread 0 |}.

Lemma forward_from_client_witness :
  ∃ w' t', bufferevent_read_callback 8 0 100 (bufferevent_receive 100 demo_frame demo_world) = Val w' ∧
    w_threads w' !! 0%nat = Some t' ∧
    last (wt_cmds t') = Some (ZSCORE_ssUD 7 9 (message_of 0 7 9 demo_frame)).
Proof.
  rewrite (forward_from_client 8 0 demo_thread 100 (demo_bev demo_frame) 0x40 (z2b 0) 7 9 12
    (bytes_of "hi") []); [|try (vm_compute; reflexivity); try lia; try done..].
  vm_compute. eexists _, _. split; [reflexivity|]. split; reflexivity.
Defined.

(** Client 7 claims to be 8. *)
Lemma forged_sender_dropped_witness :
  bufferevent_read_callback 8 0 100
    (bufferevent_receive 100 (wire_frame 0x40 (z2b 0) 8 9 12 (bytes_of "hi")) demo_world)
  = Val demo_world.
Proof.
  rewrite (forged_sender_dropped 8 0 demo_thread 100
    (demo_bev (wire_frame 0x40 (z2b 0) 8 9 12 (bytes_of "hi"))) 0x40 (z2b 0) 8 9 12 (bytes_of "hi") []);
    [|try (vm_compute; reflexivity); try lia; try done..].
  - vm_compute. reflexivity.
  - right. vm_compute. discriminate.
Defined.

(** The same client connects again and logs in as 7 on connection 101. *)
Definition demo_again : World :=
  match run 8 8 [EvPipe 0 6; EvNewConn 0 (tl demo_ptrs ++ [110]) []] demo_world with
  | Val w => w | Undef _ => demo_world end.

Lemma demo_again_ok : world_ok demo_again.
Proof.
  assert (rtc (trusted_step 8 8) demo_world demo_again) as Hr.
  { apply (run_rtc 8 8 [EvPipe 0 6; EvNewConn 0 (tl demo_ptrs ++ [110]) []]); [|vm_compute; reflexivity].
    run_next. split; [vm_compute; lia|]. split; [done|]. run_next. split; [|done]. cbn.
    split; [lia|]. split; [by apply (bool_decide_unpack _)|]. split; [lia|].
    intros p Hp. repeat (apply elem_of_cons in Hp as [->|Hp]; [by vm_compute|]).
    by apply not_elem_of_nil in Hp. }
  eapply rtc_trusted_ok; [exact Hr|apply demo_world_ok].
Qed.

Definition demo_login : LoginData :=
  {| ld_id := 7; ld_token := bytes_of "t"; ld_work_thread := 0; ld_bev := 101 |}.


Lemma login_rejected_witness :
  ∃ w' be, redis_login_callback 8 demo_env (Some (ReplyString (bytes_of "other"))) demo_login demo_again
      = Val w' ∧ w_bevs w' !! 101 = Some be ∧ w_threads w' = w_threads demo_again.
Proof.
  destruct (login_rejected 8 demo_env demo_login
    (default demo_thread (w_threads demo_again !! 0%nat)) 0 (bytes_of "other") demo_again)
    as (be & code & _ & H2).
  - exact demo_again_ok.
  - vm_compute. reflexivity.
  - vm_compute. reflexivity.
  - vm_compute. discriminate.
  - eexists _, _. split; [exact H2|]. split; [|reflexivity].
    cbn [w_bevs set_bevs ld_bev demo_login]. apply lookup_insert_eq.
Defined.

(** After two hours without heartbeat the logged-in connection is swept, the one
    without a login stays. *)
Lemma idle_connections_swept_witness :
  ∃ w', del_expire_client 0 [100; 101] (set_now (Some 8200) demo_again) = Val w' ∧
    w_bevs w' !! 100 = None ∧ is_Some (w_bevs w' !! 101).
Proof.
  destruct (idle_connections_swept 0 [100; 101] (default demo_thread (w_threads demo_again !! 0%nat))
    (set_now (Some 8200) demo_again)) as (w' & t' & H1 & H2).
  - apply (world_ok_ctxs demo_again); [done|done|exact demo_again_ok].
  - vm_compute. reflexivity.
  - by apply (bool_decide_unpack _).
  - exists w'. split; [exact H1|]. rewrite !(sw_bevs _ _ _ _ _ _ _ H2). split.
    + vm_compute. reflexivity.
    + vm_compute. by eexists.
Defined.

(** Part of a frame: the loop stops and waits. *)
Lemma read_loop_terminates_witness :
  read_loop 8 1000 0 100 7 (bufferevent_receive 100 (ztake 20 demo_frame) demo_world) ≠ Undef Hang ∧
  bufferevent_read_callback 8 0 100 (bufferevent_receive 100 (ztake 20 demo_frame) demo_world) ≠ Undef Hang.
Proof.
  split; [|apply (read_loop_terminates 8 0 100)].
  apply (read_loop_terminates 8 0 100 (bufferevent_receive 100 (ztake 20 demo_frame) demo_world)) with (demo_bev (ztake 20 demo_frame)).
  - vm_compute. reflexivity.
  - vm_compute. lia.
Defined.


Definition demo_crowd : World :=
  match run 20 8 (EvPipe 0 <$> [1; 2; 3; 4; 5; 6; 7; 8; 9; 10; 11; 12]) demo_init with
  | Val w => w | Undef _ => demo_init end.

Lemma eleventh_connection_lost_witness :
  ∃ w' t', notify_new_conn_callback 0 demo_ptrs [] demo_crowd = Val w' ∧
    w_threads w' !! 0%nat = Some t' ∧ wt_conn_num t' = 10 ∧ wt_new_conn_fd t' = [12].
Proof.
  destruct (eleventh_connection_lost 0 [1; 2; 3; 4; 5; 6; 7; 8; 9; 10] 11 [12] demo_ptrs []
    (default demo_thread (w_threads demo_crowd !! 0%nat)) demo_crowd) as (w' & t' & H1 & H2 & H3 & H4).
  - vm_compute. reflexivity.
  - vm_compute. reflexivity.
  - reflexivity.
  - repeat constructor; lia.
  - exists w', t'. split; [exact H1|]. split; [exact H2|]. split; [|exact H4].
    rewrite H3. vm_compute. reflexivity.
Defined.

Lemma status_message_overflow_witness : pack_me_status demo_env 1234567 (z2b 1) = Undef OutOfBounds.
Proof. apply (status_message_overflow demo_env 1234567 (z2b 1)); vm_compute; congruence. Defined.

(** ** Frames *)

(** A forward frame whose bytes lie in two chains, with an unused chain behind. *)
Lemma split_frame_inv : evb_inv (split_buffer (ztake 5 demo_frame) (zdrop 5 demo_frame)).
Proof. apply split_buffer_inv; vm_compute; split; congruence. Qed.

Lemma demo_frame_sane : frame_sane demo_frame.
Proof. intros _ o n E. vm_compute in E. injection E as <- <-. split; [lia|]. intros _. lia. Qed.

Lemma analyse_data_decodes_witness :
  ∃ i o, @analyse_data _ (@evb_evbuffer demo_malloc) _ idle_req
           (split_buffer (ztake 5 demo_frame) (zdrop 5 demo_frame)) evbuffer_new =
    Val (true, {| ar_is_heart := false; ar_login_data := None;
                  ar_trans_data := Some (message_of 0 7 9 demo_frame) |}, i, o) ∧
    bytes i = [] ∧ bytes o = [].
Proof.
  destruct (@analyse_data_decodes _ (@evb_evbuffer demo_malloc) (@evb_evbuffer_spec demo_malloc) _
    idle_req _ evbuffer_new split_frame_inv (proj1 evbuffer_new_inv) (proj2 evbuffer_new_inv)
    (λ _, eq_refl)) as (r & s & i & o & E & _ & _ & D).
  - vm_compute. reflexivity.
  - exact demo_frame_sane.
  - vm_compute in D. injection D as <- <- Hi Ho. by exists i, o.
Defined.

Lemma analyse_data_login_witness :
  analyse_data idle_req (wire_frame 0 (z2b 0) 0 0 10 (be_enc 8 7 ++ bytes_of "t") ++ [z2b 1]) [] =
    Val (true, analyse_login_pack idle_req (be_enc 8 7 ++ bytes_of "t"), [z2b 1], []).
Proof.
  apply (analyse_data_login idle_req 0 (z2b 0) 0 0 (be_enc 8 7 ++ bytes_of "t") [z2b 1] []);
    try lia; try discriminate; vm_compute; congruence.
Defined.

Lemma analyse_data_partial_witness :
  analyse_data idle_req (ztake 26 demo_frame) [] = Val (false, idle_req, ztake 26 demo_frame, []).
Proof.
  apply (analyse_data_partial idle_req 0x40 (z2b 0) 7 9 12 (bytes_of "hi") 26 []);
    try lia; try discriminate; vm_compute; try congruence. split; congruence.
Defined.

Lemma pack_analyse_roundtrip_witness :
  ∃ des' n, pack_data (bytes_of "ok") 2 12 (replicate 40 (z2b 0)) = Val (des', n) ∧
    analyse_data idle_req (ztake n des' ++ [z2b 3]) [] = Val (true, idle_req, [z2b 3], []).
Proof.
  destruct (pack_analyse_roundtrip idle_req (bytes_of "ok") 12 (replicate 40 (z2b 0)) (z2b 0) [z2b 3] [])
    as (des' & n & o & H1 & _ & _ & _ & H2); [vm_compute; congruence..|].
  exists des', n. split; [exact H1|exact H2].
Defined.

Definition demo_ff00 : list byte := replicate (Z.to_nat 0xFF00) (z2b 1).

Lemma length_ff00_misread_witness :
  let f := wire_frame 0 (z2b 0) 0 0 12 demo_ff00 in
  analyse_data idle_req f [] = Val (false, idle_req, f, []).
Proof.
  apply (length_ff00_misread idle_req 12 demo_ff00 []).
  - unfold demo_ff00. rewrite Zlen_replicate. lia.
  - replace (ztake 4 demo_ff00) with (replicate 4 (z2b 1)); [vm_compute; split; congruence|].
    unfold ztake, demo_ff00. rewrite take_replicate.
    replace (Z.to_nat 4 `min` Z.to_nat 0xFF00)%nat with 4%nat by lia. reflexivity.
Defined.

Lemma negative_length_overflow_witness :
  analyse_data idle_req
    (wire_header 0x40 (z2b 0) 7 9 ++ be_enc 2 12 ++ [z2b 1; z2b 0xFF; z2b 0] ++
     be_enc 4 (2 ^ 31) ++ [z2b 5]) [] = Undef OutOfBounds.
Proof.
  apply (negative_length_overflow idle_req 0x40 (z2b 0) 7 9 12 (2 ^ 31) [z2b 5] []);
    try lia; try discriminate; vm_compute; try congruence.
Defined.

Lemma empty_frame_waits_witness :
  let f := wire_frame 0 (z2b 0) 7 9 12 [] in
  analyse_data idle_req f [] = Val (false, idle_req, f, []).
Proof. apply (empty_frame_waits idle_req 0 (z2b 0) 7 9 12 []); [lia|reflexivity]. Defined.

(** ** Account checks *)

Lemma analyse_post_data_body_witness :
  let data := bytes_of "HTTP/1.1 200 OK" ++ crlf ++ bytes_of "ok" in
  analyse_post_data (data ++ [z2b 0]) (Zlen data) = Val (Some [bytes_of "ok"]).
Proof.
  etrans; [apply (analyse_post_data_body (bytes_of "HTTP/1.1 200 OK") (bytes_of "ok"))|reflexivity].
  intros i Hi. unfold znth in Hi. destruct (i <? 0); [discriminate|].
  destruct (Z.to_nat i) as [|[|[|n]]]; vm_compute in Hi; discriminate.
Defined.

Lemma demo_params_length r p : p ∈ rq_params r → Zlen p <= Zlen (ReqPacket_Serialize r).
Proof.
  cbn. induction (rq_params r) as [|q ps IH]; [by intros []%not_elem_of_nil|].
  intros [->|Hp]%elem_of_cons; simpl; rewrite Zlen_app.
  - pose proof (Zlen_nonneg (mjoin ps)). lia.
  - pose proof (Zlen_nonneg q). specialize (IH Hp). lia.
Qed.

Lemma login_request_overflow_witness :
  get_login_post_data 1024 7 (replicate 1024 (z2b 97)) (bytes_of "example.org") = Undef OutOfBounds.
Proof.
  apply (login_request_overflow 7 (replicate 1024 (z2b 97)) (bytes_of "example.org")).
  - exact demo_params_length.
  - cbn [ReqCheckTokenByID_Serialize demo_proto].
    intros b [->|[-> _]%elem_of_replicate]%elem_of_cons; vm_compute; discriminate.
  - cbn [ReqCheckTokenByID_Serialize demo_proto]. rewrite Zlen_cons, Zlen_replicate. lia.
Defined.

(** ** Log and server *)

Lemma rotations_keep_two_witness :
  let s := rotations [Some 4; None; Some 5; Some 6] "info" (init_log INFO {[1; 2; 3]}) in
  open_fds s = {[1; 2; 3]} ∪ ({[6; 5]} ∖ {[0]}).
Proof.
  apply (rotations_keep_two "info" INFO {[1; 2; 3]} [Some 4; None; Some 5; Some 6]).
  cbn [fresh_fds]. repeat split; intros; simplify_eq; cbn; set_solver.
Defined.

Definition demo_tm : tm :=
  {| tm_year := 115; tm_mon := 2; tm_mday := 23; tm_hour := 15; tm_min := 10; tm_sec := 7 |}.

Lemma write_log_line_witness :
  ∃ s, write_log INFO demo_tm 42 1 (bytes_of "hello") (init_log INFO {[1]}) = Val s ∧
    written s = [(0, bytes_of "[2015-03-23 15:10:07.000042] [1] [INFO ]:hello" ++ [z2b 10])].
Proof.
  rewrite (write_log_line INFO demo_tm 42 1 (bytes_of "hello") (init_log INFO {[1]}))
    by (vm_compute; reflexivity).
  eexists. split; vm_compute; reflexivity.
Defined.

Definition demo_config : Config := {|
  pid_file_path := "/var/run/comet.pid"; logger_level := "info"; logger_folder := "/var/log";
  http_url := "example.org";
  redis_info := [{| ri_ip := "10.0.0.1"; ri_port := 6379; ri_db_num := 0 |};
                 {| ri_ip := "10.0.0.2"; ri_port := 6379; ri_db_num := 0 |}];
  redis_info_count := 2; cur_conn_index := 1; listen := 8080; work_thread_num := 2;
  max_num_per_thread := 1000; heartbeat_time := 30; cfg_is_daemon := false |}.

Definition demo_server : Server := {|
  srv_config := demo_config; srv_last_connect_time := 100;
  srv_threads := w_threads demo_world; srv_redis := []; srv_killed := 0 |}.

(** Thread 0 has one connection, thread 1 none. *)
Lemma accept_least_loaded_witness :
  ∃ s, accept_callback 8 (Some 33) demo_server = Val s ∧
    (wt_new_conn_fd <$> srv_threads s) = [[]; [33]].
Proof.
  destruct (accept_least_loaded 8 33 demo_server) as (k & t & Hk & Hmin & Hlt & ->);
    [vm_compute; discriminate|].
  vm_compute in Hmin. destruct k as [|[|k]].
  - vm_compute in Hk. injection Hk as <-. apply Forall_cons in Hmin as [_ Hmin].
    apply Forall_cons in Hmin as [Hmin _]. vm_compute in Hmin. congruence.
  - vm_compute in Hk. injection Hk as <-. eexists. split; vm_compute; reflexivity.
  - vm_compute in Hk. discriminate.
Defined.

Lemma demo_config_ok : config_ok demo_config.
Proof. split; vm_compute; try split; congruence. Qed.

Lemma redis_rotates_witness :
  ∃ s', reconnect_redis 111 (λ _, true) demo_server = Val s' ∧ cur_conn_index (srv_config s') = 0.
Proof.
  destruct (redis_rotates 111 (λ _, true) demo_server demo_config_ok) as (s' & H1 & _ & _ & H4 & _).
  exists s'. split; [exact H1|]. rewrite H4. reflexivity.
Defined.

Lemma threads_start_with_signals_blocked_witness :
  SysBlockSignals ∈ take 7 (rev (run_server demo_config (λ _, true) []).2).
Proof.
  apply (threads_start_with_signals_blocked demo_config (λ _, true)
    (take 7 (rev (run_server demo_config (λ _, true) []).2)) 0
    (drop 8 (rev (run_server demo_config (λ _, true) []).2))).
  vm_compute. reflexivity.
Defined.

(** ** Setting a worker up *)

Definition demo_setup : Setup := {|
  su_flags := {[0 := 0; 1 := 1; 2 := 1]}; su_new_conn_fd := (0, 0); su_new_msg_fd := (0, 0);
  su_work_num := 0; su_work_thread_num := 0; su_ping_time := 0; su_http_url := ""; su_http_ip := "";
  su_evbase := false; su_events := []; su_redis := None |}.
Definition demo_oracle : Oracle := {|
  or_pipe := λ k, match k with NewConn => Some (3, 4) | NewMsg => Some (5, 6) end;
  or_getfl := λ _, true; or_setfl := λ _, true; or_base := true;
  or_event_new := λ _, true; or_event_add := λ k, match k with NewConn => true | NewMsg => false end |}.

(** The event for the message pipe cannot be added. *)
Lemma init_work_ready_witness :
  ∃ s', init_work demo_oracle 1 2 30 "example.org" "10.0.0.9" demo_setup = (true, s') ∧
    nonblocking s' 5 ∧ su_events s' = [(3, NewConn)].
Proof.
  destruct (init_work demo_oracle 1 2 30 "example.org" "10.0.0.9" demo_setup) as [ok s'] eqn:E.
  assert (fresh_pipes demo_oracle demo_setup) as Hf.
  { intros [] r w [= <- <-]; (split; [lia|]); (split; [reflexivity|]); (split; [reflexivity|]);
      intros r' w' [= <- <-] Hk; [discriminate|]; lia. }
  assert (ok = true) as -> by (vm_compute in E; injection E; congruence).
  destruct (init_work_ready demo_oracle 1 2 30 "example.org" "10.0.0.9" demo_setup s' Hf E) as (Hn & _ & He & _).
  assert (su_new_conn_fd s' = (3, 4) ∧ su_new_msg_fd s' = (5, 6)) as [Hc Hm]
    by (vm_compute in E; injection E as <-; split; reflexivity).
  exists s'. split; [reflexivity|]. rewrite Hc in He. rewrite Hc, Hm in Hn. split; [|exact He].
  apply Forall_cons in Hn as [_ Hn]. apply Forall_cons in Hn as [_ Hn]. apply Forall_cons in Hn as [Hn _]. exact Hn.
Defined.
